(* ===== verification/_CoqProject ===== *)
-Q . S2P
Prelude.v
Ieee80211.v
Frame.v
Michael.v
AesCcm.v
AesCmac.v
HtcHst.v
Reorder.v
AggRx.v
Radiotap.v
Rates.v
Ethernet.v
HifUsb.v
Ccmp.v
Bip.v
Wep.v
Tkip.v
Kfifo.v
Defrag.v
RegRules.v
HtcTx.v
Wmi.v
HtcRx.v
HtcSta.v
Elems.v
RxHandlers.v
RxData.v
TxFrag.v
Tim.v
PsBuffer.v
TxHandlers.v
TxQueue.v
AggTx.v
KeyCache.v
KeyMgmt.v
OffChan.v
