(* ===== verification/Prelude.v ===== *)
(** * A verification library for the TL-WN722N (ath9k_htc) driver stack

    The repository packages [compat-drivers], a copy of the Linux wireless
    subsystem, so that the ath9k_htc driver of the TP-Link TL-WN722N builds on
    older kernels.  Paths below are relative to [src/compat-drivers-source/].

    ** The program and the part modelled

    A frame the adapter receives comes in a USB transfer
    ([drivers/net/wireless/ath/ath9k/hif_usb.c]) that holds several packets of
    the host-target communication layer ([htc_hst.c] beside it), which
    dispatches them to the driver; [net/mac80211] puts A-MPDU frames back in
    order ([rx.c], with sessions set up in [agg-rx.c]), reassembles fragments
    ([rx.c]), removes the protection ([wpa.c], [wep.c], [tkip.c], [aes_ccm.c],
    [aes_cmac.c], [michael.c]) and converts the frame to Ethernet
    ([net/wireless/util.c]).  Transmission goes the other way.  The library
    models this path and the parsers and tables it uses.

    ** Files

    - [Prelude]: machine integers as [Z] with explicit wrap-around, loads and
      stores of multi-byte fields, the tactics and hints, and the interfaces of
      the ciphers ([AuthCipher], [FrameMac], [StreamCipher]).
    - [Ieee80211]: [include/linux/ieee80211.h] and the header lengths of
      [net/wireless/util.c]: predicates on the frame control field, address
      accessors, the TIM test.
    - [Frame]: what the ciphers share: transmit buffers, the Protected bit, the
      walk over the fragments of a frame, packet numbers, and [ReplayGuard],
      the scheme of receive counters.
    - [Michael], [AesCcm], [AesCmac]: the three MACs and ciphers; [AesCcm] and
      [AesCmac] implement the interfaces for any 16-byte block cipher.
    - [Ccmp], [Bip], [Wep], [Tkip]: frame protection, proved against the
      interfaces.
    - [HtcHst]: [htc_hst.c].  [HifUsb]: [hif_usb.c].
    - [Reorder]: the reorder buffer of [rx.c].  Block-ack sessions: [AggRx], the
      recipient ([agg-rx.c], [ht.c]); [AggTx], the originator ([agg-tx.c], the
      work item of [ht.c], the parts of [tx.c] and [status.c] that use a
      session), with the operations of a run on a station and the calls the
      driver sees.
    - [Radiotap]: [net/wireless/radiotap.c].  [Rates], [Ethernet]:
      [net/wireless/util.c].
    - [Defrag]: the fragment cache and [ieee80211_rx_h_defragment] of [rx.c].
    - [Elems]: information elements, their parser and probe requests,
      [net/mac80211/util.c] and [net/wireless/scan.c].
    - [Kfifo]: [compat/kfifo.c], the kernel FIFO given to older kernels.
    - [HtcTx], [HtcRx]: the transmit and receive paths of the driver,
      [htc_drv_txrx.c].  [Wmi]: commands to the adapter, events from it and
      register access, [wmi.c] and [htc_drv_init.c].
    - [HtcSta]: its interface and station tables, [htc_drv_main.c].
    - [RegRules]: regulatory rules and what they do to channels,
      [net/wireless/reg.c].
    - [RxHandlers], [RxData]: the receive handlers of [rx.c] in the order they
      are called: duplicates and frame classes, key selection and the call of
      the ciphers above on a store of shared keys, power save, reassembly, MIC,
      and the delivery of data frames.
    - [TxFrag]: sequence numbers and fragmentation, [tx.c]; what it sends,
      [Defrag] puts together.  [TxHandlers]: the chain of transmit handlers
      ([invoke_tx_handlers]): key selection, MIC, encryption.  [TxQueue]: the
      queues towards the driver, with the frames that wait, [util.c] and
      [tx.c].  [Tim]: the traffic indication map and its beacon
      element ([sta_info.c], [tx.c]), read with [Ieee80211.ieee80211_check_tim].
      [PsBuffer]: the frames an access point buffers for sleeping stations
      ([tx.c], [sta_info.c], [status.c]), with the operations of a run.
    - [KeyCache]: the key cache of the adapter, [drivers/net/wireless/ath/key.c]
      and [ath9k_htc_set_key].  [KeyMgmt]: the keys of an interface and its
      stations, [key.c], [cfg.c], with the operations of a run on a store of
      objects; [KeyDriver] is the contract with the driver, [KeyCache] keeps it.
    - [OffChan]: what leaves the operating channel: scan requests and the scan
      state machine ([scan.c]), remaining on a channel ([offchannel.c], [cfg.c]),
      with the operations of a run.

    ** Correspondence

    An operation has the name of its C function; a loop or a part of a long
    function that has a definition of its own is named after what it does, and
    the doc comment says where it is.  State that a function changes is an
    argument and part of the result.  An [sk_buff] is the list of its bytes; the
    room around the data is given where the code checks it.  Kernel services
    (allocation, linearisation, the crypto API, timers, locks) are arguments of
    the operation: a boolean for success or failure, a function with laws for a
    cipher.  Locks are not modelled: an operation is a critical section, and
    interleaving is the order in which operations are run; where the code reads
    or counts outside its lock (register writes in [Wmi], the transmit path of
    [HtcTx]) an operation is split into its steps.  Reads outside a
    buffer are faults ([None] or a fault value) in the parsers and wherever the
    code does not check; in code whose callers have checked the length,
    [byte_at] is total.

    ** Theorems

    The comment of each theorem states its conditions; where the code does
    something else outside them an example shows it, named in the comment, and
    the manifest has a finding for it.

    Round trips: what one side sends the other side recovers (CCMP, TKIP, WEP,
    BIP, Ethernet conversion, USB framing, ADDBA).  Safety: the receive counters
    of CCMP, TKIP and BIP admit no replay over any run, and a
    reassembled frame holds only fragments of one frame of one sender.  Refinement: CCM and CMAC
    against their definitions, the reorder buffer against
    delivery in increasing sequence number, USB
    transfers against the list of packets, receive buffers and the kernel FIFO against a bounded
    queue and a queue of records.  Invariants: services and endpoints
    of HTC, frames in the USB transmit path.  Equivalence: cached against
    recomputed TKIP keys.  Bounds: the radiotap,
    TIM and information element parsers, the buffer of a probe request.  Error
    behaviour: the inputs on which the code faults or answers wrongly, which
    are also the findings of the manifest.
    The driver: every frame accepted for transmission is reported to mac80211
    once; receive buffers are a bounded queue under any interleaving and the
    tasklet empties it; commands get their own responses; however
    the callers that write registers interleave, each write is in one command or
    waits, and the three ways in which the code loses, delays or overtakes one
    are the only ones; the tables of interfaces and stations agree with those of
    the adapter and of mac80211.  Regulatory rules: an intersection allows what both sides
    allow, and no enabled channel leaves its rule.
    The receive path as a whole ([RxData]): nothing sent in the clear is
    delivered for a station with a pairwise key, protected management frames
    are authentic, and the access point's count of sleeping stations is exact.
    The transmit path: fragments are put together again by the receive path of
    this library, frames are numbered per queue without gaps; through the whole
    chain of handlers no data frame that has a key leaves without protection,
    and a CCMP frame comes back at the receive path of its peer; the hardware
    queues are queues and, while no interface is taken down, no wake-up is
    lost. Aggregation: whatever the order of events, the driver sees the calls
    of its contract, up to a late report of a start which breaks it, and no
    frame is lost; the originator and the recipient of this library set up a
    session together. The access point ([PsBuffer]): every buffered frame
    leaves in one event, the queues stay bounded, a sleeping station with
    frames finds its bit in the beacon, and a poll is answered with the oldest
    frame of the most urgent category.
    Keys: whatever the order of operations, no pointer to a key or station
    dangles, frames get the room software encryption needs, and the adapter's
    key cache holds exactly the keys mac80211 takes to be uploaded; setting one
    fails exactly when the adapter cannot take it.
    Leaving the channel ([OffChan]): every scan, ROC and off-channel frame is
    answered once whatever the order of events, the radio is used by one of them
    at a time, and a software scan ends.

    ** Fuel

    Loops that are not structural take fuel, and a lemma or theorem shows that
    the fuel given is enough: 4096 sequence numbers for the reorder window, the
    transfer length for [rx_loop], the buffer length for the extended bitmaps
    of radiotap and the number of bits for one step of its iterator, and five
    steps for each channel of a scan.

    ** Not modelled

    The GPU, Bluetooth and Ethernet drivers, the other wireless drivers, and
    the rest of mac80211 and cfg80211 (MLME, BSS table, nl80211, rate control):
    outside the data path chosen.  Probing, URB and firmware handling, debugfs,
    tracing: only calls of the kernel.  The block cipher, [arc4] and [crc32_le]
    are not in the repository; they are parameters. *)

From Stdlib Require Export ZArith Lia Bool Btauto.
From stdpp Require Export base tactics option list numbers.

#[export] Set Default Goal Selector "!".

#[global] Arguments Nat.div : simpl never.
#[global] Arguments Nat.modulo : simpl never.

Declare Scope kint_scope.
Delimit Scope kint_scope with kint.
#[global] Open Scope Z_scope.

(** ** Fixed-width integers: a w-bit unsigned value is a [Z] in [0, 2^w). *)

Definition wrap (w : Z) (z : Z) : Z := z mod 2 ^ w.
Definition u8 : Z -> Z := wrap 8.
Definition u16 : Z -> Z := wrap 16.
Definition u32 : Z -> Z := wrap 32.
Definition u64 : Z -> Z := wrap 64.

(** Conversion to a signed 32-bit [int]. *)
Definition s32 (z : Z) : Z := (z + 2 ^ 31) mod 2 ^ 32 - 2 ^ 31.

Definition is_uint (w : Z) (z : Z) : Prop := 0 <= z < 2 ^ w.
Abbreviation is_u8 := (is_uint 8).
Abbreviation is_u16 := (is_uint 16).
Abbreviation is_u32 := (is_uint 32).
Abbreviation is_u64 := (is_uint 64).

#[global] Instance is_uint_dec w z : Decision (is_uint w z).
Proof. unfold is_uint; apply _. Defined.

(** A byte string: every element is one octet. *)
Abbreviation bytes := (Forall (is_uint 8)).

Notation "x ⊕ y" := (Z.lxor x y) (at level 45, left associativity) : kint_scope.
Notation "x '&.' y" := (Z.land x y) (at level 40, left associativity) : kint_scope.
Notation "x '|.' y" := (Z.lor x y) (at level 50, left associativity) : kint_scope.
Notation "x '<<.' n" := (Z.shiftl x n) (at level 39, left associativity) : kint_scope.
Notation "x '>>.' n" := (Z.shiftr x n) (at level 39, left associativity) : kint_scope.

(** A field test [x & mask] used as a C truth value. *)
Definition bit_set (x mask : Z) : bool := negb (Z.land x mask =? 0).

Create HintDb kint.

Lemma wrap_range w z : 0 <= w -> is_uint w (wrap w z).
Proof. intros; apply Z.mod_pos_bound; apply Z.pow_pos_nonneg; lia. Qed.

Lemma wrap_small w z : is_uint w z -> wrap w z = z.
Proof. intros; by apply Z.mod_small. Qed.

Lemma wrap_wrap w z : wrap w (wrap w z) = wrap w z.
Proof. apply Zmod_mod. Qed.

Lemma is_uint_0 w : 0 <= w -> is_uint w 0.
Proof. intros; split; [lia | apply Z.pow_pos_nonneg; lia]. Qed.

(** [by_eval] proves a closed decidable fact by evaluation. *)
Ltac by_eval := apply (bool_decide_unpack _); vm_compute; exact I.

Lemma u8_range z : is_u8 (u8 z).
Proof. by apply wrap_range. Qed.
Lemma u16_range z : is_u16 (u16 z).
Proof. by apply wrap_range. Qed.
Lemma u32_range z : is_u32 (u32 z).
Proof. by apply wrap_range. Qed.

Lemma is_uint_bit w z n : 0 <= w -> is_uint w z -> w <= n -> Z.testbit z n = false.
Proof.
  intros Hw [H0 H1] Hn.
  destruct (Z.eq_dec z 0) as [->|]; [apply Z.testbit_0_l|].
  apply Z.bits_above_log2; [done|].
  apply Z.lt_le_trans with w; [apply Z.log2_lt_pow2; lia | done].
Qed.

Lemma is_uint_bits w z :
  0 <= w -> 0 <= z -> (forall n, w <= n -> Z.testbit z n = false) -> is_uint w z.
Proof.
  intros Hw H0 Hb; split; [done|].
  replace z with (z mod 2 ^ w); [apply Z.mod_pos_bound; lia|].
  apply Z.bits_inj'; intros n Hn.
  destruct (Z.ltb_spec n w).
  - by rewrite Z.mod_pow2_bits_low by lia.
  - rewrite Z.mod_pow2_bits_high by lia; symmetry; apply Hb; lia.
Qed.

Lemma is_uint_lxor w a b : 0 <= w -> is_uint w a -> is_uint w b -> is_uint w (Z.lxor a b).
Proof.
  intros Hw Ha Hb; apply is_uint_bits; [done| |].
  - apply Z.lxor_nonneg; unfold is_uint in *; lia.
  - intros n Hn; rewrite Z.lxor_spec, !(is_uint_bit w) by done; done.
Qed.

Lemma is_uint_lor w a b : 0 <= w -> is_uint w a -> is_uint w b -> is_uint w (Z.lor a b).
Proof.
  intros Hw Ha Hb; apply is_uint_bits; [done| |].
  - apply Z.lor_nonneg; unfold is_uint in *; lia.
  - intros n Hn; rewrite Z.lor_spec, !(is_uint_bit w) by done; done.
Qed.

Lemma is_uint_land w a b : 0 <= w -> is_uint w a -> 0 <= b -> is_uint w (Z.land a b).
Proof.
  intros Hw Ha Hb; apply is_uint_bits; [done| |].
  - apply Z.land_nonneg; lia.
  - intros n Hn; rewrite Z.land_spec, (is_uint_bit w a n) by done; done.
Qed.

Lemma is_uint_shiftr w a n : 0 <= n -> is_uint w a -> is_uint w (Z.shiftr a n).
Proof.
  intros Hn [H0 H1]; split; [by apply Z.shiftr_nonneg|].
  rewrite Z.shiftr_div_pow2 by done.
  apply Z.le_lt_trans with a; [|done].
  apply Z.div_le_upper_bound; [apply Z.pow_pos_nonneg; lia|].
  pose proof (Z.pow_pos_nonneg 2 n). nia.
Qed.

#[export] Hint Resolve is_uint_0 wrap_range u8_range u16_range u32_range
  is_uint_lxor is_uint_lor is_uint_land is_uint_shiftr : kint.
#[export] Hint Extern 1 (0 <= _) => lia : kint.

(** [kint] proves that an expression stays within its width. *)
Ltac kint := eauto 8 with kint.

Lemma lxor_cancel_r a b : Z.lxor (Z.lxor a b) b = a.
Proof. by rewrite Z.lxor_assoc, Z.lxor_nilpotent, Z.lxor_0_r. Qed.

Lemma wrap_add_sub w a b : wrap w (wrap w (a + b) - b) = wrap w a.
Proof. unfold wrap; rewrite Zminus_mod_idemp_l; f_equal; lia. Qed.

Lemma wrap_sub_add w a b : wrap w (wrap w (a - b) + b) = wrap w a.
Proof. unfold wrap; rewrite Zplus_mod_idemp_l; f_equal; lia. Qed.

Lemma s32_add a b : s32 (s32 a + b) = s32 (a + b).
Proof.
  unfold s32; replace ((a + 2 ^ 31) mod 2 ^ 32 - 2 ^ 31 + b + 2 ^ 31) with ((a + 2 ^ 31) mod 2 ^ 32 + b) by lia.
  rewrite Zplus_mod_idemp_l; f_equal; f_equal; lia.
Qed.


(** [bits_ext i] turns an equation between bit expressions into one about
    their [i]-th bit. *)
Ltac bits_ext i :=
  apply Z.bits_inj'; intros i ?;
  repeat first [rewrite Z.lor_spec | rewrite Z.land_spec | rewrite Z.lxor_spec
    | rewrite Z.shiftr_spec by lia | rewrite Z.shiftl_spec by lia].

(** ** Loads of multi-byte fields from a byte buffer *)

(** [buf .[ i ]] is the byte the C expression [buf[i]] reads; total, with 0
    past the end, for code whose callers guarantee the length. *)
Definition byte_at (b : list Z) (i : nat) : Z := nth i b 0.
Notation "b .[ i ]" := (byte_at b i) (at level 1, left associativity, format "b .[ i ]").

Lemma byte_at_range b i : bytes b -> is_u8 (b.[i]).
Proof.
  intros Hb; unfold byte_at; rewrite nth_lookup.
  destruct (b !! i) eqn:E; simpl; [by eapply Forall_lookup_1 | done].
Qed.
#[export] Hint Resolve byte_at_range : kint.

Lemma byte_at_ext (d1 d2 : list Z) : length d1 = length d2 ->
  (forall i, (i < length d1)%nat -> d1.[i] = d2.[i]) -> d1 = d2.
Proof. intros Hl He; apply (nth_ext _ _ 0 0 Hl He). Qed.

Lemma byte_at_lookup b i x : b !! i = Some x -> b.[i] = x.
Proof. intros H; unfold byte_at; by rewrite nth_lookup, H. Qed.

Lemma lookup_byte_at b i : (i < length b)%nat -> b !! i = Some (b.[i]).
Proof.
  intros H; destruct (lookup_lt_is_Some_2 b i H) as [x Hx]; by rewrite (byte_at_lookup _ _ _ Hx).
Qed.

Lemma byte_at_take n b i : (i < n)%nat -> (take n b).[i] = b.[i].
Proof. intros H; unfold byte_at; rewrite !nth_lookup, lookup_take_lt by lia; done. Qed.

Lemma byte_at_drop b i j : (drop i b).[j] = b.[i + j].
Proof. unfold byte_at; rewrite !nth_lookup, lookup_drop; done. Qed.

Lemma byte_at_zip_with f x y i : (i < length x)%nat -> (i < length y)%nat ->
  (zip_with f x y).[i] = f (x.[i]) (y.[i]).
Proof.
  intros Hx Hy; apply byte_at_lookup.
  by rewrite lookup_zip_with, !lookup_byte_at by done.
Qed.

(** [get_unaligned_le16/le32/be16/be32], [include/linux/unaligned/*_byteshift.h]. *)
Definition get_le16 (p : list Z) (i : nat) : Z := Z.lor (p.[i]) (Z.shiftl (p.[i + 1]) 8).
Definition get_le32 (p : list Z) (i : nat) : Z :=
  Z.lor (Z.lor (Z.lor (p.[i]) (Z.shiftl (p.[i + 1]) 8)) (Z.shiftl (p.[i + 2]) 16))
    (Z.shiftl (p.[i + 3]) 24).
Definition get_be16 (p : list Z) (i : nat) : Z := Z.lor (Z.shiftl (p.[i]) 8) (p.[i + 1]).
Definition get_be32 (p : list Z) (i : nat) : Z :=
  Z.lor (Z.lor (Z.lor (Z.shiftl (p.[i]) 24) (Z.shiftl (p.[i + 1]) 16))
    (Z.shiftl (p.[i + 2]) 8)) (p.[i + 3]).

(** [put_unaligned_le16/le32/be16/be32] as the bytes they store. *)
Definition put_le16 (v : Z) : list Z := [u8 v; u8 (Z.shiftr v 8)].
Definition put_le32 (v : Z) : list Z := put_le16 (u16 v) ++ put_le16 (u16 (Z.shiftr v 16)).
Definition put_be16 (v : Z) : list Z := [u8 (Z.shiftr v 8); u8 v].
Definition put_be32 (v : Z) : list Z := put_be16 (u16 (Z.shiftr v 16)) ++ put_be16 (u16 v).

Lemma is_uint_shiftl w v a n : 0 <= n -> 0 <= v -> is_uint v a -> v + n <= w -> is_uint w (Z.shiftl a n).
Proof.
  intros Hn Hv [H0 H1] Hw; rewrite Z.shiftl_mul_pow2 by done; split; [nia|].
  apply Z.lt_le_trans with (2 ^ (v + n)).
  - rewrite Z.pow_add_r by done; pose proof (Z.pow_pos_nonneg 2 n); nia.
  - apply Z.pow_le_mono_r; lia.
Qed.

Lemma is_uint_mono v w a : v <= w -> is_uint v a -> is_uint w a.
Proof.
  intros Hw [H0 H1]; split; [done|].
  apply Z.lt_le_trans with (2 ^ v); [done | apply Z.pow_le_mono_r; lia].
Qed.

(** [in_width] closes [is_uint w e] for an [e] built from bytes by shifts
    and bitwise operators. *)
Ltac in_width :=
  repeat first
    [ assumption
    | apply byte_at_range; assumption
    | apply u8_range | apply u16_range | apply u32_range
    | apply is_uint_lor; [lia| |] | apply is_uint_lxor; [lia| |]
    | apply (is_uint_shiftl _ 8); [lia|lia| |lia]
    | apply (is_uint_mono 8); [lia|] ].

Lemma get_le16_range p i : bytes p -> is_u16 (get_le16 p i).
Proof. intros; unfold get_le16; in_width. Qed.
Lemma get_le32_range p i : bytes p -> is_u32 (get_le32 p i).
Proof. intros; unfold get_le32; in_width. Qed.
Lemma get_be16_range p i : bytes p -> is_u16 (get_be16 p i).
Proof. intros; unfold get_be16; in_width. Qed.
Lemma get_be32_range p i : bytes p -> is_u32 (get_be32 p i).
Proof. intros; unfold get_be32; in_width. Qed.
#[export] Hint Resolve get_le16_range get_le32_range get_be16_range get_be32_range : kint.

(** Bits of a width-[w] truncation. *)
Lemma wrap_spec w z n : 0 <= w -> 0 <= n ->
  Z.testbit (wrap w z) n = (n <? w) && Z.testbit z n.
Proof.
  intros Hw Hn; unfold wrap; destruct (Z.ltb_spec n w); simpl.
  - by rewrite Z.mod_pow2_bits_low by lia.
  - by rewrite Z.mod_pow2_bits_high by lia.
Qed.

(** Disjoint bit fields add: the arithmetic reading of a field assembly. *)
Lemma lor_shiftl_add a b n : 0 <= n -> is_uint n a -> Z.lor a (Z.shiftl b n) = a + b * 2 ^ n.
Proof.
  intros Hn Ha.
  assert (Hd : Z.land a (Z.shiftl b n) = 0).
  { bits_ext i; rewrite Z.testbit_0_l.
    destruct (Z.ltb_spec i n).
    - by rewrite (Z.testbit_neg_r b) by lia; rewrite andb_false_r.
    - by rewrite (is_uint_bit n a) by done. }
  rewrite <- Z.shiftl_mul_pow2, Z.add_nocarry_lxor by done.
  symmetry; by apply Z.lxor_lor.
Qed.

Lemma get_le16_val p i : bytes p -> get_le16 p i = p.[i] + 256 * p.[i + 1].
Proof. intros; unfold get_le16; rewrite lor_shiftl_add by (first [lia|kint]); lia. Qed.

Lemma get_be16_val p i : bytes p -> get_be16 p i = 256 * p.[i] + p.[i + 1].
Proof.
  intros; unfold get_be16; rewrite Z.lor_comm, lor_shiftl_add by (first [lia|kint]); lia.
Qed.

Lemma get_le32_val p i : bytes p ->
  get_le32 p i = p.[i] + 256 * p.[i + 1] + 65536 * p.[i + 2] + 16777216 * p.[i + 3].
Proof.
  intros; unfold get_le32.
  rewrite lor_shiftl_add by (first [lia | in_width]).
  rewrite lor_shiftl_add by (first [lia | in_width]).
  rewrite lor_shiftl_add by (first [lia | in_width]); lia.
Qed.

Lemma lor_rev4 a b c d : Z.lor (Z.lor (Z.lor a b) c) d = Z.lor (Z.lor (Z.lor d c) b) a.
Proof. apply Z.bits_inj'; intros n _; rewrite !Z.lor_spec; btauto. Qed.

Lemma get_be32_val p i : bytes p ->
  get_be32 p i = 16777216 * p.[i] + 65536 * p.[i + 1] + 256 * p.[i + 2] + p.[i + 3].
Proof.
  intros; unfold get_be32; rewrite lor_rev4.
  rewrite lor_shiftl_add by (first [lia | in_width]).
  rewrite lor_shiftl_add by (first [lia | in_width]).
  rewrite lor_shiftl_add by (first [lia | in_width]); lia.
Qed.

(** Truncations and shifts read arithmetically, for [lia] with division. *)
Lemma u8_mod z : u8 z = z mod 256.
Proof. done. Qed.
Lemma u16_mod z : u16 z = z mod 65536.
Proof. done. Qed.
Lemma u32_mod z : u32 z = z mod 4294967296.
Proof. done. Qed.
Lemma shiftr8 z : Z.shiftr z 8 = z / 256.
Proof. by rewrite Z.shiftr_div_pow2. Qed.
Lemma shiftr16 z : Z.shiftr z 16 = z / 65536.
Proof. by rewrite Z.shiftr_div_pow2. Qed.

(** [arith] decides linear goals with constant division and modulus. *)
Ltac arith := Z.div_mod_to_equations; lia.

Lemma bytes_put_le16 v : bytes (put_le16 v).
Proof. unfold put_le16, put_be16; repeat (apply Forall_cons_2; [kint|]); by apply Forall_nil_2. Qed.
Lemma bytes_put_le32 v : bytes (put_le32 v).
Proof. apply Forall_app; split; apply bytes_put_le16. Qed.
Lemma bytes_put_be16 v : bytes (put_be16 v).
Proof. unfold put_le16, put_be16; repeat (apply Forall_cons_2; [kint|]); by apply Forall_nil_2. Qed.
Lemma bytes_put_be32 v : bytes (put_be32 v).
Proof. apply Forall_app; split; apply bytes_put_be16. Qed.
#[export] Hint Resolve bytes_put_le16 bytes_put_le32 bytes_put_be16 bytes_put_be32 : kint.

(** Loading back what was stored. *)
Lemma get_put_le32 v : is_u32 v -> get_le32 (put_le32 v) 0 = v.
Proof.
  intros Hv; rewrite get_le32_val by kint; unfold put_le32, put_le16, byte_at; simpl.
  rewrite !u8_mod, !u16_mod, !shiftr8, !shiftr16; unfold is_uint in Hv; arith.
Qed.
Lemma get_put_be16 v : is_u16 v -> get_be16 (put_be16 v) 0 = v.
Proof.
  intros Hv; rewrite get_be16_val by kint; unfold put_be16, byte_at; simpl.
  rewrite !u8_mod, !shiftr8; unfold is_uint in Hv; arith.
Qed.
Lemma get_put_le16 v : is_u16 v -> get_le16 (put_le16 v) 0 = v.
Proof.
  intros Hv; rewrite get_le16_val by kint; unfold put_le16, byte_at; simpl.
  rewrite !u8_mod, !shiftr8; unfold is_uint in Hv; arith.
Qed.

(** Storing back what was loaded. *)
Lemma put_get_le32 p i : bytes p -> (i + 4 <= length p)%nat ->
  put_le32 (get_le32 p i) = take 4 (drop i p).
Proof.
  intros Hp Hl.
  assert (E : take 4 (drop i p) = [p.[i]; p.[i + 1]; p.[i + 2]; p.[i + 3]]).
  { apply (list_eq_same_length _ _ 4); [reflexivity | by rewrite length_take, length_drop; lia|].
    intros j x y Hj; rewrite lookup_take by lia; rewrite lookup_drop.
    unfold byte_at; rewrite !nth_lookup.
    destruct j as [|[|[|[|]]]]; simpl; rewrite ?Nat.add_0_r; intros E1 E2; simplify_eq;
      by rewrite E1. }
  rewrite E, get_le32_val by done.
  pose proof (byte_at_range p i Hp) as H0; pose proof (byte_at_range p (i + 1) Hp) as H1.
  pose proof (byte_at_range p (i + 2) Hp) as H2; pose proof (byte_at_range p (i + 3) Hp) as H3.
  unfold is_uint in *; unfold put_le32, put_le16; simpl.
  rewrite !u8_mod, !u16_mod, !shiftr8, !shiftr16.
  repeat f_equal; arith.
Qed.

(** ** Bit fields *)

(** Reading the [k]-bit field at bit [n] through its mask. *)
Lemma field_get c n k : 0 <= n -> 0 <= k ->
  Z.shiftr (Z.land c (Z.shiftl (Z.ones k) n)) n = (c / 2 ^ n) mod 2 ^ k.
Proof.
  intros Hn Hk; rewrite Z.shiftr_land, Z.shiftr_shiftl_l by done.
  rewrite Z.sub_diag, Z.shiftl_0_r, Z.land_ones, Z.shiftr_div_pow2 by done; done.
Qed.

(** Reading behind a prefix of known length. *)
Lemma byte_at_app_r a b n i : length a = n -> (a ++ b).[n + i] = b.[i].
Proof. intros <-; unfold byte_at; rewrite app_nth2 by lia; f_equal; lia. Qed.

Lemma get_le16_app_r a b n i : length a = n -> get_le16 (a ++ b) (n + i) = get_le16 b i.
Proof.
  intros Hn; unfold get_le16; rewrite <- Nat.add_assoc, !(byte_at_app_r _ _ n) by done; done.
Qed.

Lemma land_le_r a b : 0 <= a -> 0 <= b -> Z.land a b <= b.
Proof.
  intros Ha Hb; rewrite <- (Z2N.id a), <- (Z2N.id b) by done.
  rewrite <- N2Z.inj_land; apply N2Z.inj_le, N.land_le_r.
Qed.

(** ** Interface of an authenticated cipher

    What frame protection (CCMP) needs of the cipher below it (CCM): sealing
    keeps the length and adds an eight-byte MIC, and opening what was sealed
    for the same frame returns the data and 0.  [F] is the per-frame input
    (nonce and additional data blocks), [frame_ok] its well-formedness. *)
Class AuthCipher {F : Type} (frame_ok : F -> Prop) := {
  seal : F -> list Z -> list Z * list Z;
  unseal : F -> list Z -> list Z -> list Z * Z;
  seal_length : forall fr d, frame_ok fr ->
    length (seal fr d).1 = length d /\ length (seal fr d).2 = 8%nat;
  unseal_seal : forall fr d, frame_ok fr -> unseal fr (seal fr d).1 (seal fr d).2 = (d, 0) }.

(** A MAC over the additional data and a body whose last eight bytes are the
    field for the MAC: it is defined, has eight bytes and does not depend on
    what the field holds. *)
Class FrameMac := {
  fm_mac : list Z -> list Z -> option (list Z);
  fm_covers : forall aad body, length aad = 20%nat -> (0 < length body)%nat -> Z.of_nat (length body) < 2 ^ 31 ->
    exists t, length t = 8%nat /\ forall field, length field = 8%nat -> fm_mac aad (body ++ field) = Some t }.

(** A byte stream cipher, as the kernel's [arc4] offers it: a key gives a state,
    and each byte is transformed with the state, which it advances the same way
    in both directions. *)
Class StreamCipher := {
  sc_state : Type;
  sc_setkey : list Z -> sc_state;
  sc_encrypt_one : sc_state -> Z -> sc_state * Z;
  sc_decrypt_one : sc_state -> Z -> sc_state * Z;
  sc_decrypt_encrypt : forall st x,
    sc_decrypt_one st (sc_encrypt_one st x).2 = ((sc_encrypt_one st x).1, x) }.
