(* ===== verification/Ieee80211.v ===== *)
(** * IEEE 802.11 frame headers

    The header accessors and frame classifiers of
    [include/linux/ieee80211.h] and the header-length computation of
    [net/wireless/util.c].  A frame is its byte string; a [__le16] field is
    represented by its CPU value, so the [cpu_to_le16] of a mask is the mask.
    Accessors that return a pointer into the frame return the offset. *)

From S2P Require Import Prelude.

Module Ieee80211.

Definition IEEE80211_FCTL_FTYPE : Z := 0x000c.
Definition IEEE80211_FCTL_STYPE : Z := 0x00f0.
Definition IEEE80211_FCTL_TODS : Z := 0x0100.
Definition IEEE80211_FCTL_FROMDS : Z := 0x0200.
Definition IEEE80211_FCTL_MOREFRAGS : Z := 0x0400.
Definition IEEE80211_FCTL_RETRY : Z := 0x0800.
Definition IEEE80211_FCTL_PM : Z := 0x1000.
Definition IEEE80211_FCTL_MOREDATA : Z := 0x2000.
Definition IEEE80211_FCTL_PROTECTED : Z := 0x4000.
Definition IEEE80211_FCTL_ORDER : Z := 0x8000.
Definition IEEE80211_SCTL_FRAG : Z := 0x000F.
Definition IEEE80211_SCTL_SEQ : Z := 0xFFF0.
Definition IEEE80211_FTYPE_MGMT : Z := 0x0000.
Definition IEEE80211_FTYPE_CTL : Z := 0x0004.
Definition IEEE80211_FTYPE_DATA : Z := 0x0008.
Definition IEEE80211_STYPE_ASSOC_REQ : Z := 0x0000.
Definition IEEE80211_STYPE_ASSOC_RESP : Z := 0x0010.
Definition IEEE80211_STYPE_REASSOC_REQ : Z := 0x0020.
Definition IEEE80211_STYPE_REASSOC_RESP : Z := 0x0030.
Definition IEEE80211_STYPE_PROBE_REQ : Z := 0x0040.
Definition IEEE80211_STYPE_PROBE_RESP : Z := 0x0050.
Definition IEEE80211_STYPE_BEACON : Z := 0x0080.
Definition IEEE80211_STYPE_ATIM : Z := 0x0090.
Definition IEEE80211_STYPE_DISASSOC : Z := 0x00A0.
Definition IEEE80211_STYPE_AUTH : Z := 0x00B0.
Definition IEEE80211_STYPE_DEAUTH : Z := 0x00C0.
Definition IEEE80211_STYPE_ACTION : Z := 0x00D0.
Definition IEEE80211_STYPE_BACK_REQ : Z := 0x0080.
Definition IEEE80211_STYPE_BACK : Z := 0x0090.
Definition IEEE80211_STYPE_PSPOLL : Z := 0x00A0.
Definition IEEE80211_STYPE_RTS : Z := 0x00B0.
Definition IEEE80211_STYPE_CTS : Z := 0x00C0.
Definition IEEE80211_STYPE_ACK : Z := 0x00D0.
Definition IEEE80211_STYPE_CFEND : Z := 0x00E0.
Definition IEEE80211_STYPE_CFENDACK : Z := 0x00F0.
Definition IEEE80211_STYPE_NULLFUNC : Z := 0x0040.
Definition IEEE80211_STYPE_QOS_DATA : Z := 0x0080.
Definition IEEE80211_STYPE_QOS_NULLFUNC : Z := 0x00C0.
Definition IEEE80211_QOS_CTL_LEN : Z := 2.
Definition IEEE80211_HT_CTL_LEN : Z := 4.
Definition IEEE80211_QOS_CTL_TID_MASK : Z := 0x000f.
Definition IEEE80211_QOS_CTL_ACK_POLICY_MASK : Z := 0x0060.
Definition IEEE80211_QOS_CTL_ACK_POLICY_NORMAL : Z := 0x0000.
Definition IEEE80211_QOS_CTL_A_MSDU_PRESENT : Z := 0x0080.

(** Action frame categories ([enum ieee80211_category]). *)
Definition WLAN_CATEGORY_PUBLIC : Z := 4.
Definition WLAN_CATEGORY_HT : Z := 7.
Definition WLAN_CATEGORY_SELF_PROTECTED : Z := 15.
Definition WLAN_CATEGORY_VENDOR_SPECIFIC : Z := 127.

(** Field offsets of [struct ieee80211_hdr]. *)
Definition frame_control (hdr : list Z) : Z := get_le16 hdr 0.
Definition off_addr1 : nat := 4.
Definition off_addr2 : nat := 10.
Definition off_addr3 : nat := 16.
Definition off_seq_ctrl : nat := 22.
Definition off_addr4 : nat := 24.
Definition seq_ctrl (hdr : list Z) : Z := get_le16 hdr off_seq_ctrl.

Definition ieee80211_has_tods (fc : Z) : bool := negb (Z.land fc IEEE80211_FCTL_TODS =? 0).
Definition ieee80211_has_fromds (fc : Z) : bool := negb (Z.land fc IEEE80211_FCTL_FROMDS =? 0).
Definition ieee80211_has_a4 (fc : Z) : bool :=
  let tmp := Z.lor IEEE80211_FCTL_TODS IEEE80211_FCTL_FROMDS in Z.land fc tmp =? tmp.
Definition ieee80211_has_morefrags (fc : Z) : bool := negb (Z.land fc IEEE80211_FCTL_MOREFRAGS =? 0).
Definition ieee80211_has_retry (fc : Z) : bool := negb (Z.land fc IEEE80211_FCTL_RETRY =? 0).
Definition ieee80211_has_pm (fc : Z) : bool := negb (Z.land fc IEEE80211_FCTL_PM =? 0).
Definition ieee80211_has_moredata (fc : Z) : bool := negb (Z.land fc IEEE80211_FCTL_MOREDATA =? 0).
Definition ieee80211_has_protected (fc : Z) : bool := negb (Z.land fc IEEE80211_FCTL_PROTECTED =? 0).
Definition ieee80211_has_order (fc : Z) : bool := negb (Z.land fc IEEE80211_FCTL_ORDER =? 0).
Definition ieee80211_is_mgmt (fc : Z) : bool :=
  Z.land fc IEEE80211_FCTL_FTYPE =? IEEE80211_FTYPE_MGMT.
Definition ieee80211_is_ctl (fc : Z) : bool :=
  Z.land fc IEEE80211_FCTL_FTYPE =? IEEE80211_FTYPE_CTL.
Definition ieee80211_is_data (fc : Z) : bool :=
  Z.land fc IEEE80211_FCTL_FTYPE =? IEEE80211_FTYPE_DATA.
Definition ieee80211_is_data_qos (fc : Z) : bool :=
  Z.land fc (Z.lor IEEE80211_FCTL_FTYPE IEEE80211_STYPE_QOS_DATA) =? (Z.lor IEEE80211_FTYPE_DATA IEEE80211_STYPE_QOS_DATA).
Definition ieee80211_is_data_present (fc : Z) : bool :=
  Z.land fc (Z.lor IEEE80211_FCTL_FTYPE 0x40) =? IEEE80211_FTYPE_DATA.
Definition ieee80211_is_assoc_req (fc : Z) : bool :=
  Z.land fc (Z.lor IEEE80211_FCTL_FTYPE IEEE80211_FCTL_STYPE) =? (Z.lor IEEE80211_FTYPE_MGMT IEEE80211_STYPE_ASSOC_REQ).
Definition ieee80211_is_assoc_resp (fc : Z) : bool :=
  Z.land fc (Z.lor IEEE80211_FCTL_FTYPE IEEE80211_FCTL_STYPE) =? (Z.lor IEEE80211_FTYPE_MGMT IEEE80211_STYPE_ASSOC_RESP).
Definition ieee80211_is_reassoc_req (fc : Z) : bool :=
  Z.land fc (Z.lor IEEE80211_FCTL_FTYPE IEEE80211_FCTL_STYPE) =? (Z.lor IEEE80211_FTYPE_MGMT IEEE80211_STYPE_REASSOC_REQ).
Definition ieee80211_is_reassoc_resp (fc : Z) : bool :=
  Z.land fc (Z.lor IEEE80211_FCTL_FTYPE IEEE80211_FCTL_STYPE) =? (Z.lor IEEE80211_FTYPE_MGMT IEEE80211_STYPE_REASSOC_RESP).
Definition ieee80211_is_probe_req (fc : Z) : bool :=
  Z.land fc (Z.lor IEEE80211_FCTL_FTYPE IEEE80211_FCTL_STYPE) =? (Z.lor IEEE80211_FTYPE_MGMT IEEE80211_STYPE_PROBE_REQ).
Definition ieee80211_is_probe_resp (fc : Z) : bool :=
  Z.land fc (Z.lor IEEE80211_FCTL_FTYPE IEEE80211_FCTL_STYPE) =? (Z.lor IEEE80211_FTYPE_MGMT IEEE80211_STYPE_PROBE_RESP).
Definition ieee80211_is_beacon (fc : Z) : bool :=
  Z.land fc (Z.lor IEEE80211_FCTL_FTYPE IEEE80211_FCTL_STYPE) =? (Z.lor IEEE80211_FTYPE_MGMT IEEE80211_STYPE_BEACON).
Definition ieee80211_is_atim (fc : Z) : bool :=
  Z.land fc (Z.lor IEEE80211_FCTL_FTYPE IEEE80211_FCTL_STYPE) =? (Z.lor IEEE80211_FTYPE_MGMT IEEE80211_STYPE_ATIM).
Definition ieee80211_is_disassoc (fc : Z) : bool :=
  Z.land fc (Z.lor IEEE80211_FCTL_FTYPE IEEE80211_FCTL_STYPE) =? (Z.lor IEEE80211_FTYPE_MGMT IEEE80211_STYPE_DISASSOC).
Definition ieee80211_is_auth (fc : Z) : bool :=
  Z.land fc (Z.lor IEEE80211_FCTL_FTYPE IEEE80211_FCTL_STYPE) =? (Z.lor IEEE80211_FTYPE_MGMT IEEE80211_STYPE_AUTH).
Definition ieee80211_is_deauth (fc : Z) : bool :=
  Z.land fc (Z.lor IEEE80211_FCTL_FTYPE IEEE80211_FCTL_STYPE) =? (Z.lor IEEE80211_FTYPE_MGMT IEEE80211_STYPE_DEAUTH).
Definition ieee80211_is_action (fc : Z) : bool :=
  Z.land fc (Z.lor IEEE80211_FCTL_FTYPE IEEE80211_FCTL_STYPE) =? (Z.lor IEEE80211_FTYPE_MGMT IEEE80211_STYPE_ACTION).
Definition ieee80211_is_back_req (fc : Z) : bool :=
  Z.land fc (Z.lor IEEE80211_FCTL_FTYPE IEEE80211_FCTL_STYPE) =? (Z.lor IEEE80211_FTYPE_CTL IEEE80211_STYPE_BACK_REQ).
Definition ieee80211_is_back (fc : Z) : bool :=
  Z.land fc (Z.lor IEEE80211_FCTL_FTYPE IEEE80211_FCTL_STYPE) =? (Z.lor IEEE80211_FTYPE_CTL IEEE80211_STYPE_BACK).
Definition ieee80211_is_pspoll (fc : Z) : bool :=
  Z.land fc (Z.lor IEEE80211_FCTL_FTYPE IEEE80211_FCTL_STYPE) =? (Z.lor IEEE80211_FTYPE_CTL IEEE80211_STYPE_PSPOLL).
Definition ieee80211_is_rts (fc : Z) : bool :=
  Z.land fc (Z.lor IEEE80211_FCTL_FTYPE IEEE80211_FCTL_STYPE) =? (Z.lor IEEE80211_FTYPE_CTL IEEE80211_STYPE_RTS).
Definition ieee80211_is_cts (fc : Z) : bool :=
  Z.land fc (Z.lor IEEE80211_FCTL_FTYPE IEEE80211_FCTL_STYPE) =? (Z.lor IEEE80211_FTYPE_CTL IEEE80211_STYPE_CTS).
Definition ieee80211_is_ack (fc : Z) : bool :=
  Z.land fc (Z.lor IEEE80211_FCTL_FTYPE IEEE80211_FCTL_STYPE) =? (Z.lor IEEE80211_FTYPE_CTL IEEE80211_STYPE_ACK).
Definition ieee80211_is_cfend (fc : Z) : bool :=
  Z.land fc (Z.lor IEEE80211_FCTL_FTYPE IEEE80211_FCTL_STYPE) =? (Z.lor IEEE80211_FTYPE_CTL IEEE80211_STYPE_CFEND).
Definition ieee80211_is_cfendack (fc : Z) : bool :=
  Z.land fc (Z.lor IEEE80211_FCTL_FTYPE IEEE80211_FCTL_STYPE) =? (Z.lor IEEE80211_FTYPE_CTL IEEE80211_STYPE_CFENDACK).
Definition ieee80211_is_nullfunc (fc : Z) : bool :=
  Z.land fc (Z.lor IEEE80211_FCTL_FTYPE IEEE80211_FCTL_STYPE) =? (Z.lor IEEE80211_FTYPE_DATA IEEE80211_STYPE_NULLFUNC).
Definition ieee80211_is_qos_nullfunc (fc : Z) : bool :=
  Z.land fc (Z.lor IEEE80211_FCTL_FTYPE IEEE80211_FCTL_STYPE) =? (Z.lor IEEE80211_FTYPE_DATA IEEE80211_STYPE_QOS_NULLFUNC).
Definition ieee80211_is_first_frag (sc : Z) : bool := Z.land sc IEEE80211_SCTL_FRAG =? 0.

Definition ieee80211_get_qos_ctl (hdr : list Z) : nat :=
  if ieee80211_has_a4 (frame_control hdr) then 30 else 24.

Definition ieee80211_get_SA (hdr : list Z) : nat :=
  if ieee80211_has_a4 (frame_control hdr) then off_addr4
  else if ieee80211_has_fromds (frame_control hdr) then off_addr3
  else off_addr2.

Definition ieee80211_get_DA (hdr : list Z) : nat :=
  if ieee80211_has_tods (frame_control hdr) then off_addr3 else off_addr1.

Definition ieee80211_is_robust_mgmt_frame (hdr : list Z) : bool :=
  if ieee80211_is_disassoc (frame_control hdr) || ieee80211_is_deauth (frame_control hdr)
  then true
  else if ieee80211_is_action (frame_control hdr) then
    if ieee80211_has_protected (frame_control hdr) then true
    else
      let category := hdr.[24] in
      negb (category =? WLAN_CATEGORY_PUBLIC) && negb (category =? WLAN_CATEGORY_HT) &&
      negb (category =? WLAN_CATEGORY_SELF_PROTECTED) &&
      negb (category =? WLAN_CATEGORY_VENDOR_SPECIFIC)
  else false.

(** [IEEE80211_MIN_ACTION_SIZE]: the management header and one category byte. *)
Definition IEEE80211_MIN_ACTION_SIZE : Z := 25.

Definition ieee80211_is_public_action (hdr : list Z) (len : Z) : bool :=
  if len <? IEEE80211_MIN_ACTION_SIZE then false
  else if negb (ieee80211_is_action (frame_control hdr)) then false
  else hdr.[24] =? WLAN_CATEGORY_PUBLIC.

Definition ieee80211_dsss_chan_to_freq (channel : Z) : Z :=
  if (0 <? channel) && (channel <? 14) then 2407 + channel * 5
  else if channel =? 14 then 2484
  else -1.

(** C's truncating division; the dividend is non-negative where it is used. *)
Definition ieee80211_freq_to_dsss_chan (freq : Z) : Z :=
  if (2410 <=? freq) && (freq <? 2475) then Z.quot (freq - 2405) 5
  else if (2482 <=? freq) && (freq <? 2487) then 14
  else -1.

Definition sizeof_ieee80211_tim_ie : Z := 4.
Definition off_virtual_map : nat := 3.

(** [ieee80211_check_tim]; [None] is a load past the [tim_len] bytes of the
    element.  All indices are [u8], as in the source. *)
Definition ieee80211_check_tim (tim : option (list Z)) (tim_len aid : Z) : option bool :=
  match tim with
  | None => Some false
  | Some tim =>
    if tim_len <? sizeof_ieee80211_tim_ie then Some false
    else
      let aid := Z.land aid 0x3fff in
      let index := u8 (aid / 8) in
      let mask := u8 (Z.shiftl 1 (Z.land aid 7)) in
      let indexn1 := Z.land (tim.[2]) 0xfe in
      let indexn2 := u8 (tim_len + indexn1 - 4) in
      if (index <? indexn1) || (indexn2 <? index) then Some false
      else
        let index := u8 (index - indexn1) in
        octet ← tim !! (off_virtual_map + Z.to_nat index)%nat;
        Some (negb (Z.land octet mask =? 0))
  end.

(** [ieee80211_hdrlen], [net/wireless/util.c]. *)
Definition ieee80211_hdrlen (fc : Z) : Z :=
  if ieee80211_is_data fc then
    let hdrlen := if ieee80211_has_a4 fc then 30 else 24 in
    if ieee80211_is_data_qos fc then
      let hdrlen := hdrlen + IEEE80211_QOS_CTL_LEN in
      if ieee80211_has_order fc then hdrlen + IEEE80211_HT_CTL_LEN else hdrlen
    else hdrlen
  else if ieee80211_is_ctl fc then
    if Z.land fc 0x00E0 =? 0x00C0 then 10 else 16
  else 24.

Definition ieee80211_get_hdrlen_from_skb (data : list Z) : Z :=
  if Z.of_nat (length data) <? 10 then 0
  else
    let hdrlen := ieee80211_hdrlen (frame_control data) in
    if Z.of_nat (length data) <? hdrlen then 0 else hdrlen.

Definition MESH_FLAGS_AE_A4 : Z := 1.
Definition MESH_FLAGS_AE_A5_A6 : Z := 2.
Definition MESH_FLAGS_AE : Z := 3.

Definition ieee80211_get_mesh_hdrlen (flags : Z) : Z :=
  let ae := Z.land flags MESH_FLAGS_AE in
  if ae =? MESH_FLAGS_AE_A4 then 12
  else if ae =? MESH_FLAGS_AE_A5_A6 then 18
  else 6.

(** ** Lemmas *)

Lemma hdrlen_bounds fc : 10 <= ieee80211_hdrlen fc <= 36.
Proof.
  unfold ieee80211_hdrlen, IEEE80211_QOS_CTL_LEN, IEEE80211_HT_CTL_LEN.
  repeat case_match; lia.
Qed.

Lemma land_7_mod a : Z.land a 7 = a mod 8.
Proof. change 7 with (Z.ones 3); by rewrite Z.land_ones. Qed.

Lemma land_bit_testbit a n : 0 <= n -> negb (Z.land a (Z.shiftl 1 n) =? 0) = Z.testbit a n.
Proof.
  intros Hn; destruct (Z.testbit a n) eqn:E.
  - destruct (Z.eqb_spec (Z.land a (Z.shiftl 1 n)) 0) as [H|]; [|done].
    assert (F : Z.testbit (Z.land a (Z.shiftl 1 n)) n = false) by (rewrite H; apply Z.testbit_0_l).
    by rewrite Z.land_spec, E, Z.shiftl_spec, Z.sub_diag in F by done.
  - apply negb_false_iff, Z.eqb_eq; bits_ext i; rewrite Z.testbit_0_l.
    destruct (Z.eq_dec i n) as [->|]; [by rewrite E|].
    destruct (Z.ltb_spec i n); [by rewrite (Z.testbit_neg_r 1) by lia; rewrite andb_false_r|].
    rewrite (is_uint_bit 1 1 (i - n)) by (unfold is_uint; lia); apply andb_false_r.
Qed.

Lemma land_0xfe_le a : is_u8 a -> 0 <= Z.land a 0xfe <= 254.
Proof.
  intros Ha; split; [apply Z.land_nonneg; lia|].
  assert (H : Z.land a 0xfe = Z.shiftl (Z.shiftr a 1) 1).
  { bits_ext i.
    destruct (Z.eq_dec i 0) as [->|]; [by rewrite andb_false_r|].
    rewrite Z.shiftr_spec by lia; replace (i - 1 + 1) with i by lia.
    destruct (Z.ltb_spec i 8).
    - assert (i = 1 \/ i = 2 \/ i = 3 \/ i = 4 \/ i = 5 \/ i = 6 \/ i = 7) as Hi by lia.
      destruct_or! Hi; subst i; by rewrite andb_true_r.
    - by rewrite (is_uint_bit 8 a i) by done. }
  rewrite H, Z.shiftl_mul_pow2, Z.shiftr_div_pow2 by lia.
  unfold is_uint in Ha; arith.
Qed.

(** ** Properties *)

(** The AID bit of the full traffic-indication bitmap the element encodes:
    octets [N1 .. N1 + tim_len - 4] are present, the others are zero. *)
Definition tim_bitmap_bit (tim : list Z) (tim_len aid : Z) : bool :=
  let n1 := Z.land (tim.[2]) 0xfe in
  let o := aid / 8 in
  (n1 <=? o) && (o <=? n1 + tim_len - 4) &&
  Z.testbit (tim.[off_virtual_map + Z.to_nat (o - n1)]) (aid mod 8).

(** Every field the address and QoS accessors point at lies inside the
    header length computed by [ieee80211_hdrlen], for every data frame. *)
Theorem data_hdr_fields_in_header hdr :
  ieee80211_is_data (frame_control hdr) = true ->
  Z.of_nat (ieee80211_get_DA hdr) + 6 <= ieee80211_hdrlen (frame_control hdr) /\
  Z.of_nat (ieee80211_get_SA hdr) + 6 <= ieee80211_hdrlen (frame_control hdr) /\
  (ieee80211_is_data_qos (frame_control hdr) = true ->
   Z.of_nat (ieee80211_get_qos_ctl hdr) + 2 <= ieee80211_hdrlen (frame_control hdr)).
Proof.
  intros Hd; unfold ieee80211_hdrlen, ieee80211_get_SA, ieee80211_get_DA,
    ieee80211_get_qos_ctl, IEEE80211_QOS_CTL_LEN, IEEE80211_HT_CTL_LEN,
    off_addr1, off_addr2, off_addr3, off_addr4; rewrite Hd.
  repeat case_match; repeat split; try lia; done.
Qed.

Lemma check_tim_index tim tim_len :
  bytes tim -> is_u8 tim_len -> sizeof_ieee80211_tim_ie <= tim_len ->
  let n1 := Z.land (tim.[2]) 0xfe in
  0 <= u8 (tim_len + n1 - 4) - n1 <= tim_len - 4 \/ u8 (tim_len + n1 - 4) < n1.
Proof.
  intros Ht [? ?] Hl n1; unfold sizeof_ieee80211_tim_ie in Hl.
  pose proof (land_0xfe_le (tim.[2]) (byte_at_range _ _ Ht)); subst n1.
  rewrite u8_mod; arith.
Qed.

(** For any element contents, length and AID, [ieee80211_check_tim]
    reads only inside the element, despite its 8-bit index arithmetic. *)
Theorem check_tim_in_bounds tim tim_len aid :
  bytes tim -> is_u8 tim_len -> Z.of_nat (length tim) = tim_len ->
  is_Some (ieee80211_check_tim (Some tim) tim_len aid).
Proof.
  intros Ht Hl Hlen; unfold ieee80211_check_tim.
  case_match; [by eexists|]; apply Z.ltb_ge in H.
  case_match; [by eexists|]; apply orb_false_iff in H0 as [H1 H2].
  apply Z.ltb_ge in H1, H2.
  destruct (check_tim_index tim tim_len Ht Hl H) as [Hi|Hi]; [|lia].
  pose proof (land_0xfe_le (tim.[2]) (byte_at_range _ _ Ht)).
  unfold sizeof_ieee80211_tim_ie, off_virtual_map in *.
  destruct (lookup_lt_is_Some_2 tim
    (3 + Z.to_nat (u8 (u8 (Z.land aid 0x3fff / 8) - Z.land (tim.[2]) 0xfe)))) as [x Hx].
  { rewrite (u8_mod (_ - _)), Z.mod_small; [lia|].
    pose proof (u8_range (Z.land aid 0x3fff / 8)) as [? ?]; lia. }
  rewrite Hx; by eexists.
Qed.

(** For every association id of the standard (at most 2007) and every
    element whose octets fit the 256-octet bitmap, the test is exactly the
    AID's bit of the bitmap the element encodes. *)
Theorem check_tim_spec tim tim_len aid :
  bytes tim -> is_u8 tim_len -> Z.of_nat (length tim) = tim_len ->
  sizeof_ieee80211_tim_ie <= tim_len ->
  Z.land (tim.[2]) 0xfe + tim_len - 4 <= 255 -> 0 <= aid <= 2007 ->
  ieee80211_check_tim (Some tim) tim_len aid = Some (tim_bitmap_bit tim tim_len aid).
Proof.
  intros Ht Hl Hlen Hs Hn Ha; unfold ieee80211_check_tim, tim_bitmap_bit.
  rewrite (proj2 (Z.ltb_ge _ _) Hs).
  replace (Z.land aid 0x3fff) with aid.
  2: { change 0x3fff with (Z.ones 14); rewrite Z.land_ones by lia; symmetry; apply Z.mod_small; lia. }
  pose proof (land_0xfe_le (tim.[2]) (byte_at_range _ _ Ht)) as Hn1.
  set (n1 := Z.land (tim.[2]) 0xfe) in *.
  unfold sizeof_ieee80211_tim_ie, is_uint in *.
  assert (E1 : u8 (aid / 8) = aid / 8) by (rewrite u8_mod; arith).
  assert (E2 : u8 (tim_len + n1 - 4) = n1 + tim_len - 4) by (rewrite u8_mod; arith).
  rewrite E1, E2.
  destruct (Z.ltb_spec (aid / 8) n1), (Z.leb_spec n1 (aid / 8)); try lia; [done|].
  destruct (Z.ltb_spec (n1 + tim_len - 4) (aid / 8)),
    (Z.leb_spec (aid / 8) (n1 + tim_len - 4)); try lia; [done|]; cbn [orb andb].
  assert (E3 : u8 (aid / 8 - n1) = aid / 8 - n1) by (rewrite u8_mod; arith).
  rewrite E3.
  destruct (lookup_lt_is_Some_2 tim (off_virtual_map + Z.to_nat (aid / 8 - n1))) as [x Hx].
  { unfold off_virtual_map; lia. }
  unfold byte_at; rewrite nth_lookup, Hx; simpl; f_equal.
  rewrite land_7_mod, <- land_bit_testbit by arith.
  do 3 f_equal; rewrite u8_mod, Z.shiftl_mul_pow2 by arith.
  apply Z.mod_small; assert (aid mod 8 < 8) by arith.
  split; [apply Z.mul_nonneg_nonneg; [lia|apply Z.pow_nonneg; lia]|].
  rewrite Z.mul_1_l; change 256 with (2 ^ 8); apply Z.pow_lt_mono_r; lia.
Qed.

Lemma check_tim_spec_witness :
  ieee80211_check_tim (Some [0; 3; 2; 0x40; 0x01]) 5 24 =
  Some (tim_bitmap_bit [0; 3; 2; 0x40; 0x01] 5 24) /\
  tim_bitmap_bit [0; 3; 2; 0x40; 0x01] 5 24 = true.
Proof.
  split; [|reflexivity].
  apply check_tim_spec; try (vm_compute; intuition discriminate); repeat constructor; lia.
Defined.

Lemma check_tim_in_bounds_witness :
  is_Some (ieee80211_check_tim (Some [0; 3; 0xff; 0x40; 0x01]) 5 3000).
Proof. apply check_tim_in_bounds; [repeat constructor; lia | split; lia | reflexivity]. Defined.

Lemma data_hdr_fields_in_header_witness :
  Z.of_nat (ieee80211_get_SA (0x88 :: 0x03 :: replicate 30 0)) + 6 <= 32.
Proof.
  apply (data_hdr_fields_in_header (0x88 :: 0x03 :: replicate 30 0)); reflexivity.
Defined.

End Ieee80211.
