(* ===== verification/Frame.v ===== *)
(** * Frame buffers

    What the four ciphers of mac80211 share: the transmit buffer with its
    room and hardware flags, header arithmetic, byte string comparison, the
    Protected bit, the walk over the fragments of a frame, and the scheme by
    which a receive counter keeps replayed frames out. *)

From Stdlib Require Import Sorted.
From S2P Require Import Prelude Ieee80211.

Module Frame.
Import Ieee80211.

Definition ETH_ALEN : nat := 6.


(** The flags of a key that is in hardware. *)
Record hw_flags := Hw { generate_iv : bool; put_iv_space : bool }.

Definition sub (b : list Z) (off n : nat) : list Z := take n (drop off b).

(** A transmit buffer: the key the device uses, the room around the data, and
    the data. *)
Record tx_skb := TxSkb { tx_hw : option hw_flags; headroom : Z; tailroom : Z; tx_data : list Z }.

(** ** Results *)

Inductive tx_result := TX_CONTINUE | TX_DROP.
Inductive rx_result := RX_CONTINUE | RX_DROP_UNUSABLE | RX_DROP_MONITOR | RX_QUEUED.

#[global] Instance rx_result_eq_dec : EqDecision rx_result.
Proof. solve_decision. Defined.

(** The sign of [memcmp] on byte strings of the same length. *)
Fixpoint memcmp (a b : list Z) : comparison :=
  match a, b with
  | x :: a, y :: b => match x ?= y with Eq => memcmp a b | c => c end
  | _, _ => Eq
  end.

(** ** The Protected bit *)

Definition set_protected (skb : list Z) : list Z :=
  put_le16 (Z.lor (frame_control skb) IEEE80211_FCTL_PROTECTED) ++ drop 2 skb.

Definition protected_skb (s : tx_skb) : tx_skb :=
  TxSkb (tx_hw s) (headroom s) (tailroom s) (set_protected (tx_data s)).

Definition ieee80211_tx_set_protected (skbs : list tx_skb) : list tx_skb := protected_skb <$> skbs.

(** The walk over the queue of fragments: [enc] protects one buffer, a negative
    code ends the walk. *)
Fixpoint protect_walk {K} (enc : K -> tx_skb -> Z * K * list Z) (key : K) (skbs : list tx_skb) :
    tx_result * K * list (list Z) :=
  match skbs with
  | [] => (TX_CONTINUE, key, [])
  | s :: skbs =>
      let '(ret, key, d) := enc key s in
      if ret <? 0 then (TX_DROP, key, d :: (tx_data <$> skbs))
      else let '(r, key, ds) := protect_walk enc key skbs in (r, key, d :: ds)
  end.

(** ** Lemmas *)

(** A walk in which every buffer is protected. *)
Lemma protect_walk_all {K} (enc : K -> tx_skb -> Z * K * list Z) (ok : tx_skb -> Prop) (R : tx_skb -> list Z -> Prop) :
  (forall k s, ok s -> exists k' d, enc k (protected_skb s) = (0, k', d) /\ R s d) ->
  forall skbs k, Forall ok skbs ->
  exists k' ds, protect_walk enc k (ieee80211_tx_set_protected skbs) = (TX_CONTINUE, k', ds) /\ Forall2 R skbs ds.
Proof.
  intros Hs skbs; induction skbs as [|s skbs IH]; intros k Hf; [by exists k, []|].
  apply Forall_cons_1 in Hf as [Ho Hf]; destruct (Hs k s Ho) as (k1 & d & E & HR).
  destruct (IH k1 Hf) as (k2 & ds & E2 & H2); exists k2, (d :: ds); cbn; rewrite E; cbn.
  unfold ieee80211_tx_set_protected in E2; rewrite E2; auto.
Qed.

Lemma sub_app_header (h t : list Z) off n : (off + n <= length h)%nat -> sub (h ++ t) off n = sub h off n.
Proof.
  intros Hl; unfold sub; rewrite drop_app_le by lia; rewrite take_app_le; [done|].
  rewrite length_drop; lia.
Qed.

Lemma byte_at_header (h t : list Z) i : (i < length h)%nat -> (h ++ t).[i] = h.[i].
Proof. intros Hl; unfold byte_at; by rewrite app_nth1. Qed.

Lemma frame_control_header h t : (2 <= length h)%nat -> frame_control (h ++ t) = frame_control h.
Proof. intros Hl; unfold frame_control, get_le16; by rewrite !byte_at_header by lia. Qed.

(** A data frame header of its own length. *)
Definition data_header (h : list Z) : Prop :=
  ieee80211_is_data (frame_control h) = true /\ Z.of_nat (length h) = ieee80211_hdrlen (frame_control h).

#[global] Instance data_header_dec h : Decision (data_header h).
Proof. unfold data_header; apply _. Defined.

Lemma data_header_fields h : data_header h ->
  (24 <= length h)%nat /\ (ieee80211_has_a4 (frame_control h) = true -> (30 <= length h)%nat) /\
  (ieee80211_is_data_qos (frame_control h) = true -> (ieee80211_get_qos_ctl h < length h)%nat).
Proof.
  intros [Hd Hl]; unfold ieee80211_hdrlen in Hl; rewrite Hd in Hl.
  unfold ieee80211_get_qos_ctl, IEEE80211_QOS_CTL_LEN, IEEE80211_HT_CTL_LEN in *.
  destruct (ieee80211_has_a4 (frame_control h)), (ieee80211_is_data_qos (frame_control h)),
    (ieee80211_has_order (frame_control h)); split_and!; try done; lia.
Qed.

Lemma length_sub b off n : (off + n <= length b)%nat -> length (sub b off n) = n.
Proof. intros; unfold sub; rewrite length_take, length_drop; lia. Qed.

Lemma drop_eq (a b : list Z) k off : drop k a = drop k b -> (k <= off)%nat -> drop off a = drop off b.
Proof. intros E Hk; replace off with (k + (off - k))%nat by lia; by rewrite <- !drop_drop, E. Qed.

(** ** Packet numbers as numbers *)

Definition pn_val (pn : list Z) : Z := fold_left (fun a x => 256 * a + x) pn 0.

Lemma fold_be_shift l a : fold_left (fun a x => 256 * a + x) l a = a * 256 ^ Z.of_nat (length l) + pn_val l.
Proof.
  unfold pn_val; revert a; induction l as [|x l IH]; intros a; cbn [fold_left length]; [lia|].
  rewrite IH, (IH (256 * 0 + x)), Nat2Z.inj_succ, Z.pow_succ_r by lia; lia.
Qed.

Lemma pn_val_cons x l : pn_val (x :: l) = x * 256 ^ Z.of_nat (length l) + pn_val l.
Proof. unfold pn_val at 1; cbn [fold_left]; rewrite fold_be_shift; lia. Qed.

Lemma pn_val_range l : bytes l -> 0 <= pn_val l < 256 ^ Z.of_nat (length l).
Proof.
  induction 1 as [|x l Hx Hl IH]; [done|].
  rewrite pn_val_cons; cbn [length]; rewrite Nat2Z.inj_succ, Z.pow_succ_r by lia.
  unfold is_uint in Hx; change (2 ^ 8) with 256 in Hx; nia.
Qed.

Lemma memcmp_refl a : memcmp a a = Eq.
Proof. induction a as [|x a IH]; [done|]; cbn; by rewrite Z.compare_refl. Qed.

(** [memcmp] on byte strings of one length compares the numbers. *)
Lemma memcmp_val a b : bytes a -> bytes b -> length a = length b -> memcmp a b = (pn_val a ?= pn_val b).
Proof.
  intros Ha; revert b; induction Ha as [|x a Hx Ha IH]; intros [|y b] Hb Hl; try done.
  apply Forall_cons_1 in Hb as [Hy Hb]; injection Hl as Hl.
  rewrite !pn_val_cons, Hl; cbn [memcmp].
  pose proof (pn_val_range a Ha) as Ra; pose proof (pn_val_range b Hb) as Rb; rewrite Hl in Ra.
  set (m := 256 ^ Z.of_nat (length b)) in *.
  destruct (Z.compare_spec x y) as [->|Hlt|Hgt].
  - rewrite IH by done; symmetry; apply Z.add_compare_mono_l.
  - symmetry; apply Z.compare_lt_iff; nia.
  - symmetry; apply Z.compare_gt_iff; nia.
Qed.


(** ** Frame control bits that change on the way *)

Definition fc_flags : Z :=
  Z.lor (Z.lor (Z.lor IEEE80211_FCTL_RETRY IEEE80211_FCTL_PM) IEEE80211_FCTL_MOREDATA) IEEE80211_FCTL_PROTECTED.

(** Equal but for those bits. *)
Definition fc_same (fc fc' : Z) : Prop := Z.land fc' (Z.lnot fc_flags) = Z.land fc (Z.lnot fc_flags).

Lemma fc_masked fc fc' m : fc_same fc fc' -> Z.land (Z.lnot fc_flags) m = m -> Z.land fc' m = Z.land fc m.
Proof. intros E Em; by rewrite <- Em, !Z.land_assoc, E. Qed.

Lemma fc_same_preds fc fc' : fc_same fc fc' ->
  ieee80211_is_mgmt fc' = ieee80211_is_mgmt fc /\ ieee80211_is_data fc' = ieee80211_is_data fc /\
  ieee80211_is_data_qos fc' = ieee80211_is_data_qos fc /\ ieee80211_has_a4 fc' = ieee80211_has_a4 fc /\
  ieee80211_hdrlen fc' = ieee80211_hdrlen fc.
Proof.
  intros R; unfold ieee80211_hdrlen, ieee80211_is_mgmt, ieee80211_is_data, ieee80211_is_data_qos,
    ieee80211_has_a4, ieee80211_has_order, ieee80211_is_ctl.
  rewrite !(fc_masked fc fc') by (done || reflexivity); done.
Qed.

Lemma set_protected_app h t : (2 <= length h)%nat -> set_protected (h ++ t) = set_protected h ++ t.
Proof.
  intros Hl; unfold set_protected; rewrite frame_control_header, drop_app_le by lia; by rewrite <- app_assoc.
Qed.

Lemma length_set_protected h : (2 <= length h)%nat -> length (set_protected h) = length h.
Proof. intros Hl; unfold set_protected; rewrite length_app, length_drop; cbn; lia. Qed.

Lemma frame_control_set_protected h t : bytes h ->
  frame_control (set_protected h ++ t) = Z.lor (frame_control h) IEEE80211_FCTL_PROTECTED.
Proof.
  intros Hb; unfold set_protected; rewrite frame_control_header by (rewrite length_app; cbn; lia).
  rewrite frame_control_header by (cbn; lia); apply get_put_le16.
  apply is_uint_lor; [lia | by apply get_le16_range | by_eval].
Qed.

Lemma fc_same_protected fc : fc_same fc (Z.lor fc IEEE80211_FCTL_PROTECTED).
Proof.
  unfold fc_same; rewrite Z.land_lor_distr_l.
  replace (Z.land IEEE80211_FCTL_PROTECTED (Z.lnot fc_flags)) with 0 by reflexivity; apply Z.lor_0_r.
Qed.

Lemma data_header_protected h : bytes h -> data_header h -> data_header (set_protected h).
Proof.
  intros Hb Hh; destruct (data_header_fields h Hh) as (H24 & _); destruct Hh as [Hd Hl].
  destruct (fc_same_preds _ _ (fc_same_protected (frame_control h))) as (_ & E2 & _ & _ & E5).
  pose proof (frame_control_set_protected h [] Hb) as E; rewrite app_nil_r in E.
  unfold data_header; rewrite E, E2, E5, length_set_protected by lia; done.
Qed.

Lemma set_protected_idem h : bytes h -> set_protected (set_protected h) = set_protected h.
Proof.
  intros Hb; pose proof (frame_control_set_protected h [] Hb) as E; rewrite app_nil_r in E.
  unfold set_protected at 1; rewrite E, <- Z.lor_assoc, Z.lor_diag; done.
Qed.

Lemma bytes_set_protected h : bytes h -> bytes (set_protected h).
Proof. intros Hb; apply Forall_app; split; [apply bytes_put_le16 | by apply Forall_drop]. Qed.

Lemma has_protected_lor fc : ieee80211_has_protected (Z.lor fc IEEE80211_FCTL_PROTECTED) = true.
Proof.
  unfold ieee80211_has_protected; apply negb_true_iff, Z.eqb_neq; rewrite Z.land_lor_distr_l.
  intros E; apply Z.lor_eq_0_iff in E as [_ E]; discriminate E.
Qed.

(** ** Retransmission *)

(** The bits the sender may change when it sends the frame again. *)
Definition mutable_fc : Z := Z.lor (Z.lor IEEE80211_FCTL_RETRY IEEE80211_FCTL_PM) IEEE80211_FCTL_MOREDATA.

(** [h'] is the header [h] but for those bits. *)
Definition retransmitted (h h' : list Z) : Prop :=
  length h' = length h /\ drop 2 h' = drop 2 h /\
  Z.land (frame_control h') (Z.lnot mutable_fc) = Z.land (frame_control h) (Z.lnot mutable_fc).

#[global] Instance retransmitted_dec h h' : Decision (retransmitted h h').
Proof. unfold retransmitted; apply _. Defined.

Lemma retransmitted_same h h' : retransmitted h h' -> fc_same (frame_control h) (frame_control h').
Proof.
  intros (_ & _ & E); unfold fc_same.
  replace (Z.lnot fc_flags) with (Z.land (Z.lnot mutable_fc) (Z.lnot fc_flags)) by reflexivity.
  by rewrite !Z.land_assoc, E.
Qed.

(** ** Replay protection *)

Section Replay.
Context {K I : Type}.

(** The numbers accepted in a run; [step] gives the number when it accepts. *)
Fixpoint accepted (step : K -> I -> K * option Z) (k : K) (xs : list I) : list Z :=
  match xs with
  | [] => []
  | i :: xs => let '(k', a) := step k i in from_option (fun n => [n]) [] a ++ accepted step k' xs
  end.

(** A receiver whose counter never falls and which accepts only numbers above
    it, up to the new counter. *)
Class ReplayGuard (step : K -> I -> K * option Z) (inv : K -> Prop) (ok : I -> Prop) (counter : K -> Z) :=
  guard_step : forall k i, inv k -> ok i ->
    inv (step k i).1 /\ counter k <= counter (step k i).1 /\
    (forall n, (step k i).2 = Some n -> counter k < n <= counter (step k i).1).

Lemma accepted_increasing step inv ok counter `{G : !ReplayGuard step inv ok counter} k xs :
  inv k -> Forall ok xs -> StronglySorted Z.lt (counter k :: accepted step k xs).
Proof.
  revert k; induction xs as [|i xs IH]; intros k Hk Hf; [repeat constructor|].
  apply Forall_cons_1 in Hf as [Hi Hf]; destruct (G k i Hk Hi) as (Hk' & Hle & Hacc).
  cbn [accepted]; destruct (step k i) as [k' a]; cbn [fst snd] in *.
  specialize (IH k' Hk' Hf); apply StronglySorted_inv in IH as [S F].
  destruct a as [n|]; cbn [from_option app].
  - specialize (Hacc n eq_refl); constructor; [constructor; [done|] | constructor; [lia|]];
      (eapply Forall_impl; [|exact F]); cbn; lia.
  - constructor; [done|]; (eapply Forall_impl; [|exact F]); cbn; lia.
Qed.

End Replay.

End Frame.
