(* ===== verification/Michael.v ===== *)
(** * The Michael message integrity code of TKIP

    [net/mac80211/michael.c].  The two-word state is updated by
    [michael_block] for each little-endian word of a pseudo header, the data
    and the padding.  Each block step is a bijection of the state, so the key
    is determined by the frame and its MIC: [michael_unmic] computes it. *)

From S2P Require Import Prelude Ieee80211.
Import Ieee80211.

Module Michael.

(** [rol32] and [ror32], [include/linux/bitops.h]. *)
Definition rol32 (word shift : Z) : Z :=
  u32 (Z.lor (u32 (Z.shiftl word shift)) (Z.shiftr word (32 - shift))).
Definition ror32 (word shift : Z) : Z :=
  u32 (Z.lor (Z.shiftr word shift) (u32 (Z.shiftl word (32 - shift)))).

Record michael_mic_ctx := { l : Z; r : Z }.

(** The byte swap within each half of a word. *)
Definition xswap (v : Z) : Z :=
  u32 (Z.lor (Z.shiftr (Z.land v 0xff00ff00) 8) (u32 (Z.shiftl (Z.land v 0x00ff00ff) 8))).

Definition michael_block (mctx : michael_mic_ctx) (val : Z) : michael_mic_ctx :=
  let l0 := Z.lxor (l mctx) val in
  let r0 := Z.lxor (r mctx) (rol32 l0 17) in
  let l1 := u32 (l0 + r0) in
  let r1 := Z.lxor r0 (xswap l1) in
  let l2 := u32 (l1 + r1) in
  let r2 := Z.lxor r1 (rol32 l2 3) in
  let l3 := u32 (l2 + r2) in
  let r3 := Z.lxor r2 (ror32 l3 2) in
  let l4 := u32 (l3 + r3) in
  {| l := l4; r := r3 |}.

Definition michael_mic_hdr (key hdr : list Z) : michael_mic_ctx :=
  let da := ieee80211_get_DA hdr in
  let sa := ieee80211_get_SA hdr in
  let tid := if ieee80211_is_data_qos (frame_control hdr)
             then Z.land (hdr.[ieee80211_get_qos_ctl hdr]) IEEE80211_QOS_CTL_TID_MASK
             else 0 in
  let mctx := {| l := get_le32 key 0; r := get_le32 key 4 |} in
  let mctx := michael_block mctx (get_le32 hdr da) in
  let mctx := michael_block mctx
    (Z.lor (get_le16 hdr (da + 4)) (u32 (Z.shiftl (get_le16 hdr sa) 16))) in
  let mctx := michael_block mctx (get_le32 hdr (sa + 2)) in
  michael_block mctx tid.

(** The loop over the whole words of the data. *)
Definition michael_words (mctx : michael_mic_ctx) (data : list Z) (blocks : nat) :=
  fold_left (fun m block => michael_block m (get_le32 data (block * 4))) (seq 0 blocks) mctx.

(** The trailing [left] bytes behind the 0x5a marker, last byte first. *)
Fixpoint michael_tail (data : list Z) (base rest : nat) (val : Z) : Z :=
  match rest with
  | O => val
  | S rest => michael_tail data base rest (Z.lor (u32 (Z.shiftl val 8)) (data.[base + rest]))
  end.

Definition michael_mic (key hdr data : list Z) : list Z :=
  let data_len := length data in
  let mctx := michael_mic_hdr key hdr in
  let blocks := (data_len / 4)%nat in
  let left := (data_len mod 4)%nat in
  let mctx := michael_words mctx data blocks in
  let val := michael_tail data (blocks * 4) left 0x5a in
  let mctx := michael_block mctx val in
  let mctx := michael_block mctx 0 in
  put_le32 (l mctx) ++ put_le32 (r mctx).

(** ** Lemmas: the block step is a bijection of the state *)

Definition wf_ctx (m : michael_mic_ctx) : Prop := is_u32 (l m) /\ is_u32 (r m).

Lemma rol32_range x n : is_u32 (rol32 x n).
Proof. apply u32_range. Qed.
Lemma ror32_range x n : is_u32 (ror32 x n).
Proof. apply u32_range. Qed.
Lemma xswap_range x : is_u32 (xswap x).
Proof. apply u32_range. Qed.
#[local] Hint Resolve rol32_range ror32_range xswap_range : kint.

Lemma michael_block_wf m v : wf_ctx m -> is_u32 v -> wf_ctx (michael_block m v).
Proof. intros [? ?] ?; split; simpl; kint. Qed.
#[local] Hint Resolve michael_block_wf : kint.

(** The inverse of [michael_block]. *)
Definition michael_unblock (m : michael_mic_ctx) (val : Z) : michael_mic_ctx :=
  let l3 := u32 (l m - r m) in
  let r2 := Z.lxor (r m) (ror32 l3 2) in
  let l2 := u32 (l3 - r2) in
  let r1 := Z.lxor r2 (rol32 l2 3) in
  let l1 := u32 (l2 - r1) in
  let r0 := Z.lxor r1 (xswap l1) in
  let l0 := u32 (l1 - r0) in
  {| l := Z.lxor l0 val; r := Z.lxor r0 (rol32 l0 17) |}.

Lemma u32_add_sub a b : is_u32 a -> u32 (u32 (a + b) - b) = a.
Proof. intros; unfold u32; rewrite wrap_add_sub; by apply wrap_small. Qed.

Lemma michael_unblock_block m v :
  wf_ctx m -> is_u32 v -> michael_unblock (michael_block m v) v = m.
Proof.
  destruct m as [l0 r0]; intros [Hl Hr] Hv; simpl in *; unfold michael_unblock; simpl.
  rewrite !u32_add_sub, !lxor_cancel_r by kint.
  rewrite !u32_add_sub, !lxor_cancel_r by kint.
  rewrite !u32_add_sub, !lxor_cancel_r by kint.
  by rewrite !u32_add_sub, !lxor_cancel_r by kint.
Qed.

(** The words that enter the state after the key, in order. *)
Definition michael_hdr_words (hdr : list Z) : list Z :=
  let da := ieee80211_get_DA hdr in
  let sa := ieee80211_get_SA hdr in
  [get_le32 hdr da;
   Z.lor (get_le16 hdr (da + 4)) (u32 (Z.shiftl (get_le16 hdr sa) 16));
   get_le32 hdr (sa + 2);
   if ieee80211_is_data_qos (frame_control hdr)
   then Z.land (hdr.[ieee80211_get_qos_ctl hdr]) IEEE80211_QOS_CTL_TID_MASK else 0].

Definition michael_data_words (data : list Z) : list Z :=
  let blocks := (length data / 4)%nat in
  ((fun block => get_le32 data (block * 4)) <$> seq 0 blocks) ++
  [michael_tail data (blocks * 4) (length data mod 4) 0x5a; 0].

Definition michael_fold (words : list Z) (m : michael_mic_ctx) : michael_mic_ctx :=
  fold_left michael_block words m.

Definition michael_unfold (words : list Z) (m : michael_mic_ctx) : michael_mic_ctx :=
  fold_right (fun v m => michael_unblock m v) m words.

Lemma michael_fold_wf words m : wf_ctx m -> Forall (is_uint 32) words -> wf_ctx (michael_fold words m).
Proof.
  intros Hm Hw; revert m Hm; induction Hw; intros m Hm; simpl; [done|].
  apply IHHw; kint.
Qed.

Lemma michael_unfold_fold words m :
  wf_ctx m -> Forall (is_uint 32) words -> michael_unfold words (michael_fold words m) = m.
Proof.
  intros Hm Hw; revert m Hm; induction Hw as [|v ws Hv Hw IH]; intros m Hm; simpl; [done|].
  fold (michael_fold ws (michael_block m v)).
  fold (michael_unfold ws (michael_fold ws (michael_block m v))).
  rewrite IH by kint; by apply michael_unblock_block.
Qed.

Lemma michael_mic_fold key hdr data :
  michael_mic key hdr data =
  let m := michael_fold (michael_hdr_words hdr ++ michael_data_words data)
             {| l := get_le32 key 0; r := get_le32 key 4 |} in
  put_le32 (l m) ++ put_le32 (r m).
Proof.
  unfold michael_mic, michael_fold, michael_data_words.
  rewrite !fold_left_app; simpl; unfold michael_words.
  assert (E : forall ns m0, fold_left (fun m block => michael_block m (get_le32 data (block * 4))) ns m0 =
    fold_left michael_block ((fun block => get_le32 data (block * 4)) <$> ns) m0).
  { intros ns; induction ns as [|n ns IH]; intros m0; simpl; [done|]; by rewrite IH. }
  by rewrite E.
Qed.

Lemma michael_tail_range data base rest v :
  bytes data -> (rest <= 3)%nat -> is_uint (8 * (4 - Z.of_nat rest)) v ->
  is_u32 (michael_tail data base rest v).
Proof.
  intros Hd; revert v; induction rest as [|rest IH]; intros v Hle Hv; [done|].
  cbn [michael_tail]; apply IH; [lia|].
  apply is_uint_lor; [lia| |apply (is_uint_mono 8); [lia|kint]].
  unfold u32; rewrite wrap_small.
  - apply (is_uint_shiftl _ (8 * (4 - Z.of_nat (S rest)))); lia || done.
  - apply (is_uint_shiftl _ (8 * (4 - Z.of_nat (S rest)))); lia || done.
Qed.

Lemma michael_words_range hdr data : bytes hdr -> bytes data ->
  Forall (is_uint 32) (michael_hdr_words hdr ++ michael_data_words data).
Proof.
  intros Hh Hd; apply Forall_app; split; [|apply Forall_app; split].
  - unfold michael_hdr_words; repeat apply Forall_cons_2; try apply Forall_nil_2; try kint.
    + apply is_uint_lor; [lia| |kint]; apply (is_uint_mono 16); [lia|kint].
    + case_match; [|kint]; apply is_uint_land; [lia| |done].
      apply (is_uint_mono 8); [lia|kint].
  - apply Forall_fmap, Forall_forall; intros; simpl; kint.
  - repeat apply Forall_cons_2; try apply Forall_nil_2; [|kint].
    pose proof (Nat.mod_upper_bound (length data) 4 ltac:(lia)).
    apply michael_tail_range; [done|lia|].
    apply (is_uint_mono 8); [lia|by_eval].
Qed.

(** Recovers a key from a frame and its MIC by running the blocks backwards. *)
Definition michael_unmic (hdr data mic : list Z) : list Z :=
  let m := michael_unfold (michael_hdr_words hdr ++ michael_data_words data)
             {| l := get_le32 mic 0; r := get_le32 mic 4 |} in
  put_le32 (l m) ++ put_le32 (r m).

Lemma get_le32_put_app a b : is_u32 a -> is_u32 b ->
  get_le32 (put_le32 a ++ put_le32 b) 0 = a /\ get_le32 (put_le32 a ++ put_le32 b) 4 = b.
Proof.
  intros Ha Hb; split.
  - rewrite <- (get_put_le32 a) at 2 by done; reflexivity.
  - rewrite <- (get_put_le32 b) at 2 by done; reflexivity.
Qed.

(** ** Properties *)

(** The MIC key is determined by the frame and its MIC: running the
    block function backwards over the pseudo header, the data and the padding
    recovers the eight key bytes. *)
Theorem michael_key_recovery key hdr data :
  bytes key -> length key = 8%nat -> bytes hdr -> bytes data ->
  michael_unmic hdr data (michael_mic key hdr data) = key.
Proof.
  intros Hk Hl Hh Hd; unfold michael_unmic; rewrite michael_mic_fold; cbn zeta.
  set (ws := michael_hdr_words hdr ++ michael_data_words data).
  set (m0 := {| l := get_le32 key 0; r := get_le32 key 4 |}).
  assert (Hw : Forall (is_uint 32) ws) by (by apply michael_words_range).
  assert (Hm0 : wf_ctx m0) by (split; simpl; kint).
  destruct (michael_fold_wf ws m0 Hm0 Hw) as [H1 H2].
  destruct (get_le32_put_app _ _ H1 H2) as [-> ->].
  replace {| l := l (michael_fold ws m0); r := r (michael_fold ws m0) |}
    with (michael_fold ws m0) by (by destruct (michael_fold ws m0)).
  rewrite michael_unfold_fold by done; cbn [l r m0].
  rewrite !put_get_le32 by (done || lia).
  rewrite (take_ge (drop 4 key)) by (rewrite length_drop; lia).
  apply (take_drop 4 key).
Qed.

Lemma tail_step v b : 0 <= v < 2 ^ 24 -> is_u8 b ->
  Z.lor (u32 (Z.shiftl v 8)) b = 256 * v + b.
Proof.
  intros Hv Hb; unfold u32; rewrite wrap_small.
  - rewrite Z.lor_comm, lor_shiftl_add by (lia || done); lia.
  - apply (is_uint_shiftl _ 24); lia || done.
Qed.

(** The value of the padded last word, by the number of trailing bytes. *)
Definition tail_value (data : list Z) (base rest : nat) : Z :=
  match rest with
  | O => 90
  | S O => 256 * 90 + data.[base]
  | S (S O) => 65536 * 90 + 256 * data.[base + 1] + data.[base]
  | _ => 16777216 * 90 + 65536 * data.[base + 2] + 256 * data.[base + 1] + data.[base]
  end.

Lemma michael_tail_value data base rest : bytes data -> (rest <= 3)%nat ->
  michael_tail data base rest 0x5a = tail_value data base rest.
Proof.
  intros Hd Hr.
  pose proof (byte_at_range data base Hd) as [? ?].
  pose proof (byte_at_range data (base + 1) Hd) as [? ?].
  pose proof (byte_at_range data (base + 2) Hd) as [? ?].
  destruct rest as [|[|[|[|]]]]; [done| | | |lia];
    cbn [michael_tail]; rewrite ?Nat.add_0_r;
    rewrite (tail_step 90) by (unfold is_uint; lia);
    rewrite ?(tail_step (256 * 90 + _)) by (unfold is_uint; lia);
    rewrite ?(tail_step (256 * (_ + _) + _)) by (unfold is_uint; lia);
    unfold tail_value; lia.
Qed.

Lemma tail_value_inj d1 d2 base r1 r2 :
  bytes d1 -> bytes d2 -> (r1 <= 3)%nat -> (r2 <= 3)%nat ->
  tail_value d1 base r1 = tail_value d2 base r2 ->
  r1 = r2 /\ forall i, (i < r1)%nat -> d1.[base + i] = d2.[base + i].
Proof.
  intros H1 H2 Hr1 Hr2.
  pose proof (byte_at_range d1 base H1) as [? ?]; pose proof (byte_at_range d2 base H2) as [? ?].
  pose proof (byte_at_range d1 (base + 1) H1) as [? ?];
    pose proof (byte_at_range d2 (base + 1) H2) as [? ?].
  pose proof (byte_at_range d1 (base + 2) H1) as [? ?];
    pose proof (byte_at_range d2 (base + 2) H2) as [? ?].
  destruct r1 as [|[|[|[|]]]]; try lia; destruct r2 as [|[|[|[|]]]]; try lia;
    unfold tail_value; intros E; try lia; (split; [done|]); intros i Hi.
  1: lia.
  all: destruct i as [|[|[|]]]; rewrite ?Nat.add_0_r; lia.
Qed.

Lemma get_le32_inj d1 d2 k i : bytes d1 -> bytes d2 -> (i < 4)%nat ->
  get_le32 d1 k = get_le32 d2 k -> d1.[k + i] = d2.[k + i].
Proof.
  intros H1 H2 Hi; rewrite !get_le32_val by done.
  pose proof (byte_at_range d1 k H1) as [? ?]; pose proof (byte_at_range d2 k H2) as [? ?].
  pose proof (byte_at_range d1 (k + 1) H1) as [? ?]; pose proof (byte_at_range d2 (k + 1) H2) as [? ?].
  pose proof (byte_at_range d1 (k + 2) H1) as [? ?]; pose proof (byte_at_range d2 (k + 2) H2) as [? ?].
  pose proof (byte_at_range d1 (k + 3) H1) as [? ?]; pose proof (byte_at_range d2 (k + 3) H2) as [? ?].
  destruct i as [|[|[|[|]]]]; rewrite ?Nat.add_0_r; lia.
Qed.

(** The padding is unambiguous: two messages, of whatever lengths, that
    feed the same sequence of words into the block function are equal. *)
Theorem michael_padding_unambiguous data1 data2 :
  bytes data1 -> bytes data2 ->
  michael_data_words data1 = michael_data_words data2 -> data1 = data2.
Proof.
  intros H1 H2; unfold michael_data_words; intros E.
  assert (Hb : (length data1 / 4 = length data2 / 4)%nat).
  { apply (f_equal length) in E; rewrite !length_app, !length_fmap, !length_seq in E; cbn [length] in E; lia. }
  rewrite Hb in E; apply app_inj_1 in E as [Ew Et]; [|by rewrite !length_fmap].
  pose proof (Nat.mod_upper_bound (length data1) 4 ltac:(lia)).
  pose proof (Nat.mod_upper_bound (length data2) 4 ltac:(lia)).
  assert (Et' : michael_tail data1 (length data2 / 4 * 4) (length data1 mod 4) 0x5a =
    michael_tail data2 (length data2 / 4 * 4) (length data2 mod 4) 0x5a) by congruence.
  clear Et; rename Et' into Et; rewrite !michael_tail_value in Et by (done || lia).
  apply tail_value_inj in Et as [Er Et]; [|done|done|lia|lia].
  pose proof (Nat.div_mod_eq (length data1) 4); pose proof (Nat.div_mod_eq (length data2) 4).
  apply byte_at_ext; [lia|]; intros i Hi.
  destruct (decide (i < length data2 / 4 * 4)%nat) as [Hs|Hs].
  - rewrite (Nat.div_mod_eq i 4), (Nat.mul_comm 4).
    apply get_le32_inj; [done|done|apply Nat.mod_upper_bound; lia|].
    assert (Hk : (i / 4 < length data2 / 4)%nat) by (apply Nat.Div0.div_lt_upper_bound; rewrite Nat.mul_comm; exact Hs).
    apply (f_equal (fun w => w !! (i / 4)%nat)) in Ew.
    rewrite !list_lookup_fmap, !lookup_seq_lt in Ew by done; simpl in Ew; by injection Ew.
  - replace i with (length data2 / 4 * 4 + (i - length data2 / 4 * 4))%nat by lia.
    apply Et; lia.
Qed.

Lemma michael_key_recovery_witness :
  michael_unmic (0x88 :: 0x01 :: replicate 30 7) [1; 2; 3; 4; 5]
    (michael_mic [9; 8; 7; 6; 5; 4; 3; 2] (0x88 :: 0x01 :: replicate 30 7) [1; 2; 3; 4; 5]) =
  [9; 8; 7; 6; 5; 4; 3; 2].
Proof.
  apply michael_key_recovery; try reflexivity; by_eval.
Defined.

Lemma michael_padding_unambiguous_witness : michael_data_words [0; 0] = michael_data_words [0; 0] /\ [0; 0] = [0; 0].
Proof.
  split; [reflexivity|].
  apply (michael_padding_unambiguous [0; 0] [0; 0]);
    try reflexivity; by_eval.
Defined.

End Michael.
