(* ===== verification/AesCcm.v ===== *)
(** * CCM encryption of CCMP frames

    [net/mac80211/aes_ccm.c].  The block cipher behind
    [crypto_cipher_encrypt_one] belongs to the kernel's crypto API: it is the
    parameter [E], of which only the block size is assumed.  The scratch
    buffer is six AES blocks; every pointer the code forms is block aligned,
    so the buffer is a record of its blocks.  The proofs relate the two
    routines to each other (round trip, exactness of the MIC check) and to
    the CBC-MAC/counter definition of RFC 3610. *)

From S2P Require Import Prelude.

Module AesCcm.

Definition AES_BLOCK_SIZE : nat := 16.
Definition CCMP_MIC_LEN : nat := 8.

(** [for (i = 0; i < len(src); i++) dst[i] ^= src[i]] *)
Fixpoint xor_into (dst src : list Z) : list Z :=
  match dst, src with
  | d :: dst', s :: src' => Z.lxor d s :: xor_into dst' src'
  | _, _ => dst
  end.

(** [for (i = 0; i < blen; i++) out[i] = x[i] ^ y[i]], with [blen] the length
    of the shorter operand. *)
Definition xor_bytes (x y : list Z) : list Z := zip_with Z.lxor x y.

(** The blocks of the scratch buffer: [b], [s_0], [e] (or [a]), [b_0] and the
    two blocks of additional authenticated data. *)
Record scratch := {
  sc_b : list Z; sc_s_0 : list Z; sc_e : list Z;
  sc_b_0 : list Z; sc_aad0 : list Z; sc_aad1 : list Z }.

(** Which block the caller of [aes_ccm_prepare] passes as [a]. *)
Inductive slot := Slot_b | Slot_e.

Section Ccm.

(** [crypto_cipher_encrypt_one(tfm, dst, src)] stores [E src] at [dst]. *)
Variable E : list Z -> list Z.

Definition set_counter (b_0 : list Z) (hi lo : Z) : list Z := <[15%nat := lo]> (<[14%nat := hi]> b_0).

Definition aes_ccm_prepare (sc : scratch) (a : slot) : scratch :=
  let b := E (sc_b_0 sc) in
  let aad0 := xor_into (sc_aad0 sc) b in
  let b := E aad0 in
  let aad1 := xor_into (sc_aad1 sc) b in
  let mac := E aad1 in
  let b_0 := <[0%nat := Z.land (sc_b_0 sc).[0] 0x07]> (sc_b_0 sc) in
  let b_0 := set_counter b_0 0 0 in
  {| sc_b := match a with Slot_b => mac | Slot_e => b end;
     sc_s_0 := E b_0;
     sc_e := match a with Slot_b => sc_e sc | Slot_e => mac end;
     sc_b_0 := b_0; sc_aad0 := aad0; sc_aad1 := aad1 |}.

Definition num_blocks (data_len : nat) : nat := (data_len + 15) / AES_BLOCK_SIZE.
Definition last_len (data_len : nat) : nat := data_len mod AES_BLOCK_SIZE.

(** [blen] of the iteration that has [n] further iterations behind it. *)
Definition blen (n last : nat) : nat :=
  if (n =? 0)%nat && negb (last =? 0)%nat then last else AES_BLOCK_SIZE.

(** The payload loop of [ieee80211_aes_ccm_encrypt], from counter [j] on with
    [n] iterations left; returns the scratch buffer and the bytes written
    through [cpos].  Input and output may be the same buffer: each iteration
    reads its block before it writes it. *)
Fixpoint encrypt_loop (n last : nat) (j : Z) (sc : scratch) (pos : list Z) : scratch * list Z :=
  match n with
  | O => (sc, [])
  | S n' =>
    let cur := take (blen n' last) pos in
    let b := E (xor_into (sc_b sc) cur) in
    let b_0 := set_counter (sc_b_0 sc) (Z.land (Z.shiftr j 8) 0xff) (Z.land j 0xff) in
    let e := E b_0 in
    let sc' := {| sc_b := b; sc_s_0 := sc_s_0 sc; sc_e := e;
                  sc_b_0 := b_0; sc_aad0 := sc_aad0 sc; sc_aad1 := sc_aad1 sc |} in
    let '(sc'', out) := encrypt_loop n' last (j + 1) sc' (drop (blen n' last) pos) in
    (sc'', xor_bytes cur e ++ out)
  end.

(** Returns the scratch buffer, [cdata] and [mic]. *)
Definition ieee80211_aes_ccm_encrypt (sc : scratch) (data : list Z)
  : scratch * list Z * list Z :=
  let sc := aes_ccm_prepare sc Slot_b in
  let '(sc, cdata) :=
    encrypt_loop (num_blocks (length data)) (last_len (length data)) 1 sc data in
  (sc, cdata, xor_bytes (take CCMP_MIC_LEN (sc_b sc)) (take CCMP_MIC_LEN (sc_s_0 sc))).

Fixpoint decrypt_loop (n last : nat) (j : Z) (sc : scratch) (cpos : list Z) : scratch * list Z :=
  match n with
  | O => (sc, [])
  | S n' =>
    let b_0 := set_counter (sc_b_0 sc) (Z.land (Z.shiftr j 8) 0xff) (Z.land j 0xff) in
    let b := E b_0 in
    let cur := xor_bytes (take (blen n' last) cpos) b in
    let a := E (xor_into (sc_e sc) cur) in
    let sc' := {| sc_b := b; sc_s_0 := sc_s_0 sc; sc_e := a;
                  sc_b_0 := b_0; sc_aad0 := sc_aad0 sc; sc_aad1 := sc_aad1 sc |} in
    let '(sc'', out) := decrypt_loop n' last (j + 1) sc' (drop (blen n' last) cpos) in
    (sc'', cur ++ out)
  end.

(** [for (i = 0; i < CCMP_MIC_LEN; i++) if ((mic[i] ^ s_0[i]) != a[i]) return -1] *)
Fixpoint mic_matches (n i : nat) (mic s_0 a : list Z) : bool :=
  match n with
  | O => true
  | S n' => if negb (Z.lxor mic.[i] s_0.[i] =? a.[i]) then false
            else mic_matches n' (S i) mic s_0 a
  end.

(** Returns the scratch buffer, [data] and the return value. *)
Definition ieee80211_aes_ccm_decrypt (sc : scratch) (cdata mic : list Z)
  : scratch * list Z * Z :=
  let sc := aes_ccm_prepare sc Slot_e in
  let '(sc, data) :=
    decrypt_loop (num_blocks (length cdata)) (last_len (length cdata)) 1 sc cdata in
  (sc, data, if mic_matches CCMP_MIC_LEN 0 mic (sc_s_0 sc) (sc_e sc) then 0 else -1).

(** ** Lemmas *)

Lemma length_xor_into d s : length (xor_into d s) = length d.
Proof. revert s; induction d; intros []; simpl; auto. Qed.

Lemma length_set_counter b hi lo : length (set_counter b hi lo) = length b.
Proof. unfold set_counter; by rewrite !length_insert. Qed.

Lemma set_counter_twice b hi lo hi' lo' :
  set_counter (set_counter b hi lo) hi' lo' = set_counter b hi' lo'.
Proof.
  unfold set_counter.
  rewrite (list_insert_insert_ne (<[14%nat:=hi]> b) 14 15) by lia.
  by rewrite !list_insert_insert_eq.
Qed.

Lemma length_xor_bytes x y : length (xor_bytes x y) = Nat.min (length x) (length y).
Proof. apply length_zip_with. Qed.

Lemma xor_bytes_invol x y : (length x <= length y)%nat -> xor_bytes (xor_bytes x y) y = x.
Proof.
  revert y; induction x as [|a x IH]; intros [|b y] H; simpl in *; try done; [lia|].
  unfold xor_bytes in *; rewrite lxor_cancel_r, IH by lia; done.
Qed.

Lemma blen_le n last : (last < AES_BLOCK_SIZE)%nat -> (blen n last <= AES_BLOCK_SIZE)%nat.
Proof. unfold blen; case_match; lia. Qed.

(** The documented block size of the cipher is the only fact used about it. *)
Definition block_cipher : Prop :=
  forall x, length x = AES_BLOCK_SIZE -> length (E x) = AES_BLOCK_SIZE.

Section Loops.
Hypothesis E_block : block_cipher.

(** The states of the two loops correspond: same MAC value, same counter
    block up to its counter bytes, same [s_0]. *)
Definition corr (se sd : scratch) : Prop :=
  sc_b se = sc_e sd /\ sc_s_0 se = sc_s_0 sd /\ sc_b_0 se = sc_b_0 sd /\
  length (sc_b_0 se) = AES_BLOCK_SIZE.

(** The payload length that [n] iterations with a last block of [last]
    bytes process. *)
Fixpoint total (n last : nat) : nat :=
  match n with O => O | S n' => (blen n' last + total n' last)%nat end.

Lemma total_spec n last : (last < AES_BLOCK_SIZE)%nat ->
  total n last =
  match n with
  | O => O
  | S n' => (n' * AES_BLOCK_SIZE + if (last =? 0)%nat then AES_BLOCK_SIZE else last)%nat
  end.
Proof.
  intros Hl; induction n as [|n IH]; [done|]; cbn [total]; rewrite IH; unfold blen.
  destruct n as [|n]; destruct (Nat.eqb_spec last 0); unfold AES_BLOCK_SIZE in *;
    cbn [Nat.eqb andb negb]; lia.
Qed.

Lemma last_len_lt len : (last_len len < AES_BLOCK_SIZE)%nat.
Proof. apply Nat.mod_upper_bound; unfold AES_BLOCK_SIZE; lia. Qed.

Lemma total_length len : total (num_blocks len) (last_len len) = len.
Proof.
  rewrite total_spec by apply last_len_lt; unfold num_blocks, last_len, AES_BLOCK_SIZE.
  pose proof (Nat.div_mod_eq len 16); pose proof (Nat.mod_upper_bound len 16 ltac:(lia)).
  destruct (Nat.eqb_spec (len mod 16) 0) as [E0|E0].
  - assert (Ed : ((len + 15) / 16 = len / 16)%nat).
    { symmetry; apply Nat.div_unique with 15%nat; lia. }
    rewrite Ed; destruct (len / 16)%nat eqn:?; lia.
  - assert (Ed : ((len + 15) / 16 = S (len / 16))%nat).
    { symmetry; apply Nat.div_unique with (len mod 16 - 1)%nat; lia. }
    rewrite Ed; lia.
Qed.

Lemma enc_then_dec n last j se sd x :
  (last < AES_BLOCK_SIZE)%nat -> corr se sd -> length x = total n last ->
  exists sd', decrypt_loop n last j sd (encrypt_loop n last j se x).2 = (sd', x) /\
    corr (encrypt_loop n last j se x).1 sd' /\ length (encrypt_loop n last j se x).2 = length x.
Proof.
  intros Hl; revert j se sd x; induction n as [|n IH]; intros j se sd x (Hb & Hs & H0 & HL) Hx.
  { exists sd; destruct x; [|done]; by repeat split. }
  cbn [total] in Hx; pose proof (blen_le n last Hl) as Hbl.
  cbn [encrypt_loop decrypt_loop].
  set (b_0 := set_counter (sc_b_0 se) _ _).
  assert (He : length (E b_0) = AES_BLOCK_SIZE) by (apply E_block; subst b_0; by rewrite length_set_counter).
  set (cur := take (blen n last) x).
  assert (Hc : length cur = blen n last) by (subst cur; rewrite length_take; lia).
  assert (Hxc : length (xor_bytes cur (E b_0)) = blen n last) by (rewrite length_xor_bytes; lia).
  match goal with |- context [encrypt_loop n last (j + 1) ?se' ?x'] =>
    destruct (IH (j + 1) se'
      {| sc_b := E b_0; sc_s_0 := sc_s_0 sd; sc_e := E (xor_into (sc_e sd) cur);
         sc_b_0 := b_0; sc_aad0 := sc_aad0 sd; sc_aad1 := sc_aad1 sd |} x') as (sd' & HD & HC & HLen);
    [ repeat split; simpl; [by rewrite Hb | done | subst b_0; by rewrite length_set_counter]
    | rewrite length_drop; lia |];
    destruct (encrypt_loop n last (j + 1) se' x') as [se'' out] eqn:EE end.
  simpl in *; exists sd'.
  rewrite take_app_length', drop_app_length' by done.
  rewrite <- H0; fold b_0; rewrite xor_bytes_invol by lia.
  rewrite HD; split; [by subst cur; rewrite take_drop|].
  split; [done|]; rewrite length_app, HLen, Hxc, length_drop; lia.
Qed.

Lemma dec_then_enc n last j se sd c :
  (last < AES_BLOCK_SIZE)%nat -> corr se sd -> length c = total n last ->
  exists se', encrypt_loop n last j se (decrypt_loop n last j sd c).2 = (se', c) /\
    corr se' (decrypt_loop n last j sd c).1 /\ length (decrypt_loop n last j sd c).2 = length c.
Proof.
  intros Hl; revert j se sd c; induction n as [|n IH]; intros j se sd c (Hb & Hs & H0 & HL) Hx.
  { exists se; destruct c; [|done]; by repeat split. }
  cbn [total] in Hx; pose proof (blen_le n last Hl) as Hbl.
  cbn [encrypt_loop decrypt_loop].
  rewrite <- H0; set (b_0 := set_counter (sc_b_0 se) _ _).
  assert (He : length (E b_0) = AES_BLOCK_SIZE) by (apply E_block; subst b_0; by rewrite length_set_counter).
  set (cc := take (blen n last) c); set (cur := xor_bytes cc (E b_0)).
  assert (Hc : length cc = blen n last) by (subst cc; rewrite length_take; lia).
  assert (Hxc : length cur = blen n last) by (subst cur; rewrite length_xor_bytes; lia).
  match goal with |- context [decrypt_loop n last (j + 1) ?sd' ?x'] =>
    destruct (IH (j + 1)
      {| sc_b := E (xor_into (sc_b se) cur); sc_s_0 := sc_s_0 se; sc_e := E b_0;
         sc_b_0 := b_0; sc_aad0 := sc_aad0 se; sc_aad1 := sc_aad1 se |} sd' x') as (se' & HD & HC & HLen);
    [ repeat split; simpl; [by rewrite Hb | done | subst b_0; by rewrite length_set_counter]
    | rewrite length_drop; lia |];
    destruct (decrypt_loop n last (j + 1) sd' x') as [sd'' out] eqn:EE end.
  simpl in *; exists se'.
  rewrite take_app_length', drop_app_length' by done.
  rewrite HD; split; [subst cur; rewrite xor_bytes_invol by lia; by subst cc; rewrite take_drop|].
  split; [done|]; rewrite length_app, HLen, Hxc, length_drop; lia.
Qed.

Lemma mic_matches_spec n i mic s_0 a :
  mic_matches n i mic s_0 a = true <->
  forall k, (i <= k < i + n)%nat -> Z.lxor mic.[k] s_0.[k] = a.[k].
Proof.
  revert i; induction n as [|n IH]; intros i; simpl; [split; [lia|done]|].
  destruct (Z.eqb_spec (Z.lxor mic.[i] s_0.[i]) a.[i]) as [He|Hne]; simpl.
  - rewrite IH; split; intros H k Hk; [|apply H; lia].
    destruct (decide (k = i)) as [->|]; [done|apply H; lia].
  - split; [done|]; intros H; exfalso; apply Hne, H; lia.
Qed.

Lemma mic_matches_iff mic s_0 a :
  length mic = CCMP_MIC_LEN -> length s_0 = AES_BLOCK_SIZE -> length a = AES_BLOCK_SIZE ->
  mic_matches CCMP_MIC_LEN 0 mic s_0 a = true <->
  mic = xor_bytes (take CCMP_MIC_LEN a) (take CCMP_MIC_LEN s_0).
Proof.
  intros Hm Hs Ha; rewrite mic_matches_spec.
  unfold CCMP_MIC_LEN, AES_BLOCK_SIZE in *; split.
  - intros H; apply byte_at_ext.
    + rewrite length_xor_bytes, !length_take; lia.
    + intros i Hi; unfold xor_bytes.
      rewrite byte_at_zip_with, !byte_at_take by (rewrite ?length_take; lia).
      rewrite <- (H i ltac:(lia)); symmetry; apply lxor_cancel_r.
  - intros -> k Hk; unfold xor_bytes.
    rewrite byte_at_zip_with, !byte_at_take by (rewrite ?length_take; lia).
    apply lxor_cancel_r.
Qed.

(** The loops keep [s_0] and the block sizes. *)
Definition wf_scratch (sc : scratch) : Prop :=
  length (sc_b_0 sc) = AES_BLOCK_SIZE /\ length (sc_aad0 sc) = AES_BLOCK_SIZE /\
  length (sc_aad1 sc) = AES_BLOCK_SIZE.

(** Two scratch buffers set up for the same frame: same [b_0] and AAD; the
    working blocks may hold anything. *)
Definition same_frame (s1 s2 : scratch) : Prop :=
  sc_b_0 s1 = sc_b_0 s2 /\ sc_aad0 s1 = sc_aad0 s2 /\ sc_aad1 s1 = sc_aad1 s2.

Lemma prepare_corr s1 s2 : wf_scratch s1 -> same_frame s1 s2 ->
  corr (aes_ccm_prepare s1 Slot_b) (aes_ccm_prepare s2 Slot_e).
Proof.
  intros (W1 & W2 & W3) (H1 & H2 & H3); unfold corr; simpl; rewrite H1, H2, H3.
  repeat split; rewrite length_set_counter, length_insert; by rewrite <- H1.
Qed.

Lemma encrypt_loop_sizes n last j sc x :
  length (sc_b sc) = AES_BLOCK_SIZE ->
  length (sc_b (encrypt_loop n last j sc x).1) = AES_BLOCK_SIZE /\
  sc_s_0 (encrypt_loop n last j sc x).1 = sc_s_0 sc.
Proof.
  revert j sc x; induction n as [|n IH]; intros j sc x Hb; simpl; [done|].
  match goal with |- context [encrypt_loop n last (j + 1) ?se' ?x'] =>
    specialize (IH (j + 1) se' x'); destruct (encrypt_loop n last (j + 1) se' x') end.
  apply IH; simpl; apply E_block; by rewrite length_xor_into.
Qed.

Lemma prepare_sizes sc : wf_scratch sc ->
  length (sc_b (aes_ccm_prepare sc Slot_b)) = AES_BLOCK_SIZE /\
  length (sc_s_0 (aes_ccm_prepare sc Slot_b)) = AES_BLOCK_SIZE.
Proof.
  intros (W1 & W2 & W3); split; simpl; apply E_block.
  - by rewrite length_xor_into.
  - by rewrite length_set_counter, length_insert.
Qed.

(** ** The CCM definition of RFC 3610, for two AAD blocks and L = 2 *)

Definition pad16 (x : list Z) : list Z := x ++ replicate (AES_BLOCK_SIZE - length x) 0.

Fixpoint chunks (n : nat) (x : list Z) : list (list Z) :=
  match n with O => [] | S n' => take AES_BLOCK_SIZE x :: chunks n' (drop AES_BLOCK_SIZE x) end.

(** The counter block A_j. *)
Definition ccm_A (b_0 : list Z) (j : Z) : list Z :=
  set_counter (<[0%nat := Z.land b_0.[0] 0x07]> b_0) (Z.land (Z.shiftr j 8) 0xff) (Z.land j 0xff).

(** CBC-MAC: X_1 = E(B_0), X_(i+1) = E(X_i xor B_i). *)
Definition cbc_mac (x1 : list Z) (blocks : list (list Z)) : list Z :=
  fold_left (fun x b => E (xor_bytes x b)) blocks x1.

Fixpoint ctr (b_0 : list Z) (j : Z) (blocks : list (list Z)) : list Z :=
  match blocks with
  | [] => []
  | b :: bs => xor_bytes b (E (ccm_A b_0 j)) ++ ctr b_0 (j + 1) bs
  end.

Definition ccm_spec (b_0 aad0 aad1 data : list Z) : list Z * list Z :=
  let blocks := chunks (num_blocks (length data)) data in
  let T := cbc_mac (E b_0) (aad0 :: aad1 :: (pad16 <$> blocks)) in
  (ctr b_0 1 blocks,
   xor_bytes (take CCMP_MIC_LEN T) (take CCMP_MIC_LEN (E (ccm_A b_0 0)))).

Lemma xor_bytes_zero b : xor_bytes b (replicate (length b) 0) = b.
Proof.
  unfold xor_bytes; induction b as [|x b IH]; simpl; [done|]; by rewrite Z.lxor_0_r, IH.
Qed.

Lemma xor_into_pad b cur : (length cur <= length b)%nat -> length b = AES_BLOCK_SIZE ->
  xor_into b cur = xor_bytes b (pad16 cur).
Proof.
  intros Hc Hb; unfold pad16; rewrite <- Hb; clear Hb.
  revert b Hc; induction cur as [|c cur IH]; intros b Hc.
  - simpl; rewrite Nat.sub_0_r, xor_bytes_zero; by destruct b.
  - destruct b as [|x b]; simpl in *; [lia|]; unfold xor_bytes in *; f_equal; apply IH; lia.
Qed.

Lemma xor_into_comm x y : length x = length y -> xor_into x y = xor_bytes y x.
Proof.
  revert y; induction x as [|a x IH]; intros [|b y] H; simpl in *; try done.
  unfold xor_bytes in *; rewrite Z.lxor_comm; f_equal; apply IH; lia.
Qed.

Lemma take_blen n last (x : list Z) : (last < AES_BLOCK_SIZE)%nat -> length x = total (S n) last ->
  take (blen n last) x = take AES_BLOCK_SIZE x /\ drop (blen n last) x = drop AES_BLOCK_SIZE x.
Proof.
  intros Hl Hx; unfold blen; destruct n as [|n]; [|done]; cbn [total] in Hx; unfold blen in Hx.
  simpl in *; destruct (Nat.eqb_spec last 0); simpl in *; [done|].
  rewrite !take_ge, !drop_ge by lia; done.
Qed.

Lemma set_counter_A b_0 j hi lo :
  set_counter (set_counter (<[0%nat := Z.land b_0.[0] 0x07]> b_0) hi lo)
    (Z.land (Z.shiftr j 8) 0xff) (Z.land j 0xff) = ccm_A b_0 j.
Proof. apply set_counter_twice. Qed.

Lemma encrypt_loop_spec n last j sc x b_0 hi lo :
  (last < AES_BLOCK_SIZE)%nat -> length x = total n last ->
  length (sc_b sc) = AES_BLOCK_SIZE ->
  sc_b_0 sc = set_counter (<[0%nat := Z.land b_0.[0] 0x07]> b_0) hi lo ->
  (encrypt_loop n last j sc x).2 = ctr b_0 j (chunks n x) /\
  sc_b (encrypt_loop n last j sc x).1 = cbc_mac (sc_b sc) (pad16 <$> chunks n x).
Proof.
  intros Hl; revert j sc x hi lo; induction n as [|n IH]; intros j sc x hi lo Hx Hb H0; [done|].
  destruct (take_blen n last x Hl Hx) as [Ht Hd].
  cbn [encrypt_loop chunks ctr]; rewrite Ht, Hd, H0, set_counter_A.
  match goal with |- context [encrypt_loop n last (j + 1) ?se' ?x'] =>
    destruct (IH (j + 1) se' x' (Z.land (Z.shiftr j 8) 0xff) (Z.land j 0xff)) as [I1 I2];
    [ rewrite <- Hd, length_drop, Hx; cbn [total]; lia
    | simpl; apply E_block; by rewrite length_xor_into | done |];
    destruct (encrypt_loop n last (j + 1) se' x') as [se'' out] eqn:EE end.
  simpl in *; split; [by rewrite I1|]; rewrite I2.
  rewrite xor_into_pad; [done| |done].
  rewrite length_take, Hb; lia.
Qed.

End Loops.
End Ccm.

Lemma ccm_open_seal E s1 s2 data :
  block_cipher E -> wf_scratch s1 -> same_frame s1 s2 ->
  let '(_, cdata, mic) := ieee80211_aes_ccm_encrypt E s1 data in
  exists sc', ieee80211_aes_ccm_decrypt E s2 cdata mic = (sc', data, 0).
Proof.
  intros HE W F; unfold ieee80211_aes_ccm_encrypt, ieee80211_aes_ccm_decrypt.
  pose proof (prepare_corr E s1 s2 W F) as HC.
  destruct (prepare_sizes E HE s1 W) as [P1 P2].
  destruct (enc_then_dec E HE _ _ 1 _ _ data (last_len_lt (length data)) HC
    (eq_sym (total_length (length data)))) as (sd' & HD & (C1 & C2 & _) & HL).
  destruct (encrypt_loop_sizes E HE (num_blocks (length data)) (last_len (length data)) 1 _ data P1)
    as [S1 S2].
  destruct (encrypt_loop _ _ _ _ _ _) as [se' cdata]; cbn [fst snd] in *.
  rewrite HL, HD; exists sd'.
  assert (HM : mic_matches CCMP_MIC_LEN 0
    (xor_bytes (take CCMP_MIC_LEN (sc_b se')) (take CCMP_MIC_LEN (sc_s_0 se')))
    (sc_s_0 sd') (sc_e sd') = true).
  { rewrite <- C1, <- C2; apply mic_matches_iff; [|congruence|done|done].
    rewrite length_xor_bytes, !length_take, S1, S2, P2; done. }
  by rewrite HM.
Qed.

Lemma ccm_seal_length E sc data : block_cipher E -> wf_scratch sc ->
  let '(_, cdata, mic) := ieee80211_aes_ccm_encrypt E sc data in
  length cdata = length data /\ length mic = CCMP_MIC_LEN.
Proof.
  intros HE W; unfold ieee80211_aes_ccm_encrypt.
  pose proof (prepare_corr E sc sc W ltac:(done)) as HC.
  destruct (prepare_sizes E HE sc W) as [P1 P2].
  destruct (enc_then_dec E HE _ _ 1 _ _ data (last_len_lt (length data)) HC
    (eq_sym (total_length (length data)))) as (sd' & _ & _ & HL).
  destruct (encrypt_loop_sizes E HE (num_blocks (length data)) (last_len (length data)) 1 _ data P1)
    as [S1 S2].
  destruct (encrypt_loop _ _ _ _ _ _) as [se' cdata]; cbn [fst snd] in *.
  split; [done|]; rewrite length_xor_bytes, !length_take, S1, S2, P2; done.
Qed.

(** CCM with a block cipher is an authenticated cipher. *)
Definition ccm_cipher (E : list Z -> list Z) (HE : block_cipher E) : AuthCipher wf_scratch.
Proof.
  refine {| seal fr d := let '(_, c, m) := ieee80211_aes_ccm_encrypt E fr d in (c, m);
    unseal fr c m := let '(_, d, r) := ieee80211_aes_ccm_decrypt E fr c m in (d, r) |}.
  - intros fr d W; pose proof (ccm_seal_length E fr d HE W) as H.
    by destruct (ieee80211_aes_ccm_encrypt E fr d) as [[? c] m].
  - intros fr d W; pose proof (ccm_open_seal E fr fr d HE W ltac:(done)) as H.
    destruct (ieee80211_aes_ccm_encrypt E fr d) as [[? c] m]; cbn [fst snd].
    by destruct H as [sc' ->].
Defined.

(** ** Properties *)

(** For every block cipher, CCMP decryption of what encryption produced
    for the same frame returns 0 and the plaintext, whatever the working
    blocks of the two scratch buffers held before. *)
Theorem ccm_decrypt_encrypt E s1 s2 data :
  block_cipher E -> wf_scratch s1 -> same_frame s1 s2 ->
  let '(_, cdata, mic) := ieee80211_aes_ccm_encrypt E s1 data in
  exists sc', ieee80211_aes_ccm_decrypt E s2 cdata mic = (sc', data, 0).
Proof. apply ccm_open_seal. Qed.

(** The MIC check is exact: decryption returns 0 if and only if
    encrypting the bytes it returns yields exactly the received ciphertext
    and MIC. *)
Theorem ccm_decrypt_accepts_iff E s1 s2 cdata mic :
  block_cipher E -> wf_scratch s1 -> same_frame s1 s2 -> length mic = CCMP_MIC_LEN ->
  let '(_, data, ret) := ieee80211_aes_ccm_decrypt E s2 cdata mic in
  let '(_, c, m) := ieee80211_aes_ccm_encrypt E s1 data in
  ret = 0 <-> c = cdata /\ m = mic.
Proof.
  intros HE W F Hm; unfold ieee80211_aes_ccm_encrypt, ieee80211_aes_ccm_decrypt.
  pose proof (prepare_corr E s1 s2 W F) as HC.
  destruct (prepare_sizes E HE s1 W) as [P1 P2].
  destruct (dec_then_enc E HE _ _ 1 _ _ cdata (last_len_lt (length cdata)) HC
    (eq_sym (total_length (length cdata)))) as (se' & HD & (C1 & C2 & _) & HL).
  destruct (decrypt_loop _ _ _ _ _ _) as [sd' data]; cbn [fst snd] in *.
  pose proof (encrypt_loop_sizes E HE (num_blocks (length cdata)) (last_len (length cdata)) 1 _ data P1)
    as [S1 S2].
  rewrite HL, HD in *; cbn [fst snd] in S1, S2.
  pose proof (mic_matches_iff mic (sc_s_0 sd') (sc_e sd') Hm
    ltac:(by rewrite <- C2, S2) ltac:(by rewrite <- C1)) as HM.
  rewrite C1, C2; destruct (mic_matches _ _ _ _ _) eqn:EM; split.
  - intros _; split; [done|]; symmetry; by apply HM.
  - done.
  - done.
  - intros [_ Hmic]; pose proof (proj2 HM (eq_sym Hmic)); congruence.
Qed.

(** C40: the ciphertext and the MIC are those of the CCM definition: counter
    mode with the blocks A_1, A_2, ... and the CBC-MAC over B_0, the two AAD
    blocks and the zero-padded payload, encrypted with A_0. *)
Theorem ccm_encrypt_is_ccm E sc data :
  block_cipher E -> wf_scratch sc ->
  let '(_, cdata, mic) := ieee80211_aes_ccm_encrypt E sc data in
  (cdata, mic) = ccm_spec E (sc_b_0 sc) (sc_aad0 sc) (sc_aad1 sc) data.
Proof.
  intros HE W; destruct (prepare_sizes E HE sc W) as [P1 P2]; destruct W as (W1 & W2 & W3).
  unfold ieee80211_aes_ccm_encrypt, ccm_spec.
  destruct (encrypt_loop_spec E HE _ _ 1 _ data (sc_b_0 sc) 0 0 (last_len_lt (length data))
    (eq_sym (total_length (length data))) P1 eq_refl) as [H1 H2].
  destruct (encrypt_loop_sizes E HE (num_blocks (length data)) (last_len (length data)) 1 _ data P1)
    as [S1 S2].
  destruct (encrypt_loop _ _ _ _ _ _) as [se' cdata]; cbn [fst snd] in *.
  rewrite H1, H2, S2; f_equal; f_equal; f_equal; unfold cbc_mac; cbn -[AES_BLOCK_SIZE]; do 2 f_equal.
  assert (B0 : length (E (sc_b_0 sc)) = AES_BLOCK_SIZE) by (by apply HE).
  rewrite (xor_into_comm (sc_aad0 sc)) by congruence.
  rewrite (xor_into_comm (sc_aad1 sc)); [done|].
  rewrite W3; symmetry; apply HE; rewrite length_xor_bytes, B0, W2; done.
Qed.

(** The counter blocks of one frame are pairwise different for up to
    65535 payload blocks, so no keystream block (nor A_0, which masks the
    MIC) is used twice. *)
Theorem ccm_counters_distinct b_0 i j :
  length b_0 = AES_BLOCK_SIZE -> 0 <= i <= 65535 -> 0 <= j <= 65535 ->
  ccm_A b_0 i = ccm_A b_0 j -> i = j.
Proof.
  intros Hb Hi Hj Heq; unfold ccm_A, set_counter in Heq; unfold AES_BLOCK_SIZE in Hb.
  assert (H15 : Z.land i 0xff = Z.land j 0xff).
  { apply (f_equal (fun l => l !! 15%nat)) in Heq.
    rewrite !list_lookup_insert_eq in Heq by (rewrite !length_insert; lia); by injection Heq. }
  assert (H14 : Z.land (Z.shiftr i 8) 0xff = Z.land (Z.shiftr j 8) 0xff).
  { apply (f_equal (fun l => l !! 14%nat)) in Heq.
    rewrite !(list_lookup_insert_ne _ 15 14), !list_lookup_insert_eq in Heq
      by (rewrite ?length_insert; lia); by injection Heq. }
  change 0xff with (Z.ones 8) in *; rewrite !Z.land_ones in H14, H15 by lia.
  rewrite !shiftr8 in H14; change (2 ^ 8) with 256 in *; arith.
Qed.

(** A concrete stand-in for the cipher, to evaluate the routines. *)
Definition toy_cipher (x : list Z) : list Z := (fun v => Z.land (3 * v + 7) 0xff) <$> rev x.

Definition toy_scratch (fill : Z) : scratch :=
  {| sc_b := replicate 16 fill; sc_s_0 := replicate 16 fill; sc_e := replicate 16 fill;
     sc_b_0 := 0x59 :: (Z.of_nat <$> seq 1 15); sc_aad0 := Z.of_nat <$> seq 20 16;
     sc_aad1 := Z.of_nat <$> seq 40 16 |}.

Lemma toy_cipher_block : block_cipher toy_cipher.
Proof. intros x Hx; unfold toy_cipher; by rewrite length_fmap, length_rev. Defined.

Lemma ccm_decrypt_encrypt_witness :
  let '(_, cdata, mic) := ieee80211_aes_ccm_encrypt toy_cipher (toy_scratch 1) (replicate 21 5) in
  exists sc', ieee80211_aes_ccm_decrypt toy_cipher (toy_scratch 2) cdata mic = (sc', replicate 21 5, 0).
Proof.
  apply (ccm_decrypt_encrypt toy_cipher (toy_scratch 1) (toy_scratch 2) (replicate 21 5));
    [apply toy_cipher_block | repeat split | repeat split].
Defined.

Lemma ccm_decrypt_accepts_iff_witness :
  let '(_, data, ret) := ieee80211_aes_ccm_decrypt toy_cipher (toy_scratch 2) [1; 2; 3] (replicate 8 0) in
  let '(_, c, m) := ieee80211_aes_ccm_encrypt toy_cipher (toy_scratch 1) data in
  ret = 0 <-> c = [1; 2; 3] /\ m = replicate 8 0.
Proof.
  apply (ccm_decrypt_accepts_iff toy_cipher (toy_scratch 1) (toy_scratch 2) [1; 2; 3] (replicate 8 0));
    [apply toy_cipher_block | repeat split | repeat split | reflexivity].
Defined.

Lemma ccm_encrypt_is_ccm_witness :
  let '(_, cdata, mic) := ieee80211_aes_ccm_encrypt toy_cipher (toy_scratch 1) (replicate 21 5) in
  (cdata, mic) = ccm_spec toy_cipher (sc_b_0 (toy_scratch 1)) (sc_aad0 (toy_scratch 1))
                   (sc_aad1 (toy_scratch 1)) (replicate 21 5).
Proof.
  apply (ccm_encrypt_is_ccm toy_cipher (toy_scratch 1) (replicate 21 5));
    [apply toy_cipher_block | repeat split].
Defined.

Lemma ccm_counters_distinct_witness :
  ccm_A (replicate 16 1) 256 = ccm_A (replicate 16 1) 256 -> 256 = 256.
Proof. apply (ccm_counters_distinct (replicate 16 1) 256 256); [reflexivity | lia | lia]. Defined.

End AesCcm.
