(* ===== verification/AesCmac.v ===== *)
(** * AES-128-CMAC for protected management frames (BIP)

    [net/mac80211/aes_cmac.c].  The cipher is the parameter [E], as in
    [AesCcm].  The message is a vector of memory areas walked by a cursor
    that is advanced eagerly, right after the byte that ends an area: after
    the last byte it loads [addr[num_elem]] and [len[num_elem]], which do not
    exist.  The model keeps that load visible: the cursor becomes [Wild] and a
    flag records it.  Dereferencing a wild cursor, or a cursor past the bytes
    behind its pointer, is a fault ([None]). *)

From S2P Require Import Prelude AesCcm.
Import AesCcm.

Module AesCmac.

Definition CMAC_TLEN : nat := 8.
Definition AAD_LEN : nat := 20.

Definition gf_mulx (pad : list Z) : list Z :=
  let carry := Z.land pad.[0] 0x80 in
  let shifted :=
    ((fun i => u8 (Z.lor (Z.shiftl pad.[i] 1) (Z.shiftr pad.[i + 1] 7))) <$> seq 0 15)
    ++ [u8 (Z.shiftl pad.[15] 1)] in
  if carry =? 0 then shifted else <[15%nat := Z.lxor shifted.[15] 0x87]> shifted.

(** One entry of the vector: the memory behind [addr[e]] and [len[e]]. *)
Record elem := { el_mem : list Z; el_len : nat }.

(** [pos]/[end] inside area [e], or the values loaded from past the array. *)
Inductive cursor :=
| Cur (e : nat) (mem : list Z) (len off : nat)
| Wild (e : nat).

Section Cmac.
Variable E : list Z -> list Z.

(** [pos = addr[e]; end = pos + len[e];] *)
Definition load (v : list elem) (e : nat) : cursor :=
  match v !! e with
  | Some el => Cur e (el_mem el) (el_len el) 0
  | None => Wild e
  end.

(** The walk state: the cursor and whether [addr]/[len] was indexed past its
    end. *)
Definition walk : Type := cursor * bool.

(** [*pos++; if (pos >= end) { e++; pos = addr[e]; end = pos + len[e]; }] *)
Definition next_byte (v : list elem) (w : walk) : option (Z * walk) :=
  match w with
  | (Cur e mem len off, oob) =>
    x ← mem !! off;
    if (len <=? off + 1)%nat
    then Some (x, (load v (e + 1), oob || (length v <=? e + 1)%nat))
    else Some (x, (Cur e mem len (off + 1), oob))
  | (Wild _, _) => None
  end.

(** [for (i = from; i < from + n; i++) { cbc[i] ^= *pos++; ... }] *)
Fixpoint xor_run (v : list elem) (n i : nat) (cbc : list Z) (w : walk)
  : option (list Z * walk) :=
  match n with
  | O => Some (cbc, w)
  | S n' =>
    '(x, w) ← next_byte v w;
    xor_run v n' (S i) (<[i := Z.lxor cbc.[i] x]> cbc) w
  end.

(** The loop over whole blocks, [n] iterations with [left] bytes to go. *)
Fixpoint block_loop (v : list elem) (n left0 : nat) (cbc : list Z) (w : walk)
  : option (list Z * walk) :=
  match n with
  | O => Some (cbc, w)
  | S n' =>
    '(cbc, w) ← xor_run v AES_BLOCK_SIZE 0 cbc w;
    let cbc := if (AES_BLOCK_SIZE <? left0)%nat then E cbc else cbc in
    block_loop v n' (left0 - AES_BLOCK_SIZE) cbc w
  end.

(** [total_len] is a [size_t]. *)
Definition total_len (v : list elem) : nat :=
  Z.to_nat (u64 (Z.of_nat (sum_list_with el_len v))).

(** The MAC, and whether the array of areas was indexed out of bounds. *)
Definition aes_128_cmac_vector (v : list elem) : option (list Z * bool) :=
  let cbc := replicate AES_BLOCK_SIZE 0 in
  let left0 := total_len v in
  let w := (load v 0, (length v <=? 0)%nat) in
  '(cbc, w) ← block_loop v (left0 / AES_BLOCK_SIZE) left0 cbc w;
  let left0 := (left0 mod AES_BLOCK_SIZE)%nat in
  let pad := gf_mulx (E (replicate AES_BLOCK_SIZE 0)) in
  '(cbc, pad, w) ←
    (if negb (left0 =? 0)%nat || (total_len v =? 0)%nat then
       '(cbc, w) ← xor_run v left0 0 cbc w;
       Some (<[left0 := Z.lxor cbc.[left0] 0x80]> cbc, gf_mulx pad, w)
     else Some (cbc, pad, w));
  Some (take CMAC_TLEN (E (xor_bytes pad cbc)), w.2).

(** [aad], [data] and [mic] of [ieee80211_aes_cmac]; [data] is the frame body
    including the MIC field, which is replaced by zeros.  The length of the
    middle area is the [size_t] difference [data_len - CMAC_TLEN]. *)
Definition ieee80211_aes_cmac (aad data : list Z) : option (list Z * bool) :=
  aes_128_cmac_vector
    [{| el_mem := aad; el_len := AAD_LEN |};
     {| el_mem := data; el_len := Z.to_nat (u64 (Z.of_nat (length data) - Z.of_nat CMAC_TLEN)) |};
     {| el_mem := replicate CMAC_TLEN 0; el_len := CMAC_TLEN |}].

Definition ieee80211_aes_cmac_calculate_k1_k2 : list Z * list Z :=
  let l := E (replicate AES_BLOCK_SIZE 0) in
  let k1 := gf_mulx l in
  let k2 := gf_mulx k1 in
  (k1, k2).

(** ** The CMAC definition (RFC 4493) *)

(** Absorbs every block but the last with E, returns what enters the last
    call. *)
Fixpoint cmac_absorb (fuel : nat) (x msg : list Z) : list Z * list Z :=
  match fuel with
  | O => (x, msg)
  | S fuel =>
    if (AES_BLOCK_SIZE <? length msg)%nat
    then cmac_absorb fuel (E (xor_bytes x (take AES_BLOCK_SIZE msg))) (drop AES_BLOCK_SIZE msg)
    else (x, msg)
  end.

Definition cmac_pad (m : list Z) : list Z :=
  m ++ [0x80] ++ replicate (AES_BLOCK_SIZE - 1 - length m) 0.

Definition cmac (msg : list Z) : list Z :=
  let '(k1, k2) := ieee80211_aes_cmac_calculate_k1_k2 in
  let '(x, lastm) := cmac_absorb (length msg) (replicate AES_BLOCK_SIZE 0) msg in
  let m_last := if (length lastm =? AES_BLOCK_SIZE)%nat
                then xor_bytes lastm k1 else xor_bytes (cmac_pad lastm) k2 in
  E (xor_bytes x m_last).

(** ** Lemmas: the cursor walks the concatenation of the areas *)

Definition el_bytes (el : elem) : list Z := take (el_len el) (el_mem el).
Definition wf_elem (el : elem) : Prop := (0 < el_len el <= length (el_mem el))%nat.

Definition rest (v : list elem) (w : walk) : list Z :=
  match w.1 with
  | Cur e mem len off => drop off (take len mem) ++ concat (el_bytes <$> drop (e + 1) v)
  | Wild _ => []
  end.

Definition inv (v : list elem) (w : walk) : Prop :=
  match w with
  | (Cur e mem len off, oob) =>
    v !! e = Some {| el_mem := mem; el_len := len |} /\ (off < len)%nat /\ oob = false
  | (Wild e, oob) => oob = true
  end.

Lemma load_inv v e : Forall wf_elem v ->
  inv v (load v e, (length v <=? e)%nat) /\
  rest v (load v e, (length v <=? e)%nat) = concat (el_bytes <$> drop e v).
Proof.
  intros Hv; unfold load, inv, rest; destruct (v !! e) as [[mem len]|] eqn:He; simpl.
  - pose proof (proj1 (Forall_lookup _ _) Hv e _ He) as [H1 H2]; simpl in *.
    pose proof (lookup_lt_Some _ _ _ He).
    rewrite (drop_S _ _ _ He); simpl; rewrite Nat.add_1_r.
    repeat split; [done|lia|apply Nat.leb_gt; lia].
  - apply lookup_ge_None in He; rewrite drop_ge by done; split; [by apply Nat.leb_le|done].
Qed.

Lemma next_byte_spec v w x r : Forall wf_elem v -> inv v w -> rest v w = x :: r ->
  exists w', next_byte v w = Some (x, w') /\ inv v w' /\ rest v w' = r.
Proof.
  intros Hv Hi Hr; destruct w as [[e mem len off|e] oob]; [|done].
  destruct Hi as (He & Ho & ->); unfold rest in Hr; simpl in Hr.
  pose proof (proj1 (Forall_lookup _ _) Hv e _ He) as [H1 H2]; simpl in *.
  destruct (lookup_lt_is_Some_2 mem off ltac:(lia)) as [y Hy].
  assert (Hty : take len mem !! off = Some y) by (by rewrite lookup_take_lt by lia).
  rewrite (drop_S _ _ _ Hty) in Hr; simpl in Hr; injection Hr as -> Hr.
  rewrite Hy; simpl; destruct (Nat.leb_spec len (off + 1)).
  - eexists; split; [done|].
    destruct (load_inv v (e + 1) Hv) as [L1 L2]; split; [done|].
    rewrite L2, <- Hr, (drop_ge (take len mem)) by (rewrite length_take; lia); done.
  - eexists; split; [done|]; split; [split; [done|split; [lia|done]]|].
    by rewrite <- Hr; unfold rest; simpl; rewrite (Nat.add_1_r off).
Qed.

Lemma rest_nil_oob v w : Forall wf_elem v -> inv v w -> rest v w = [] -> w.2 = true.
Proof.
  intros Hv Hi Hr; destruct w as [[e mem len off|e] oob]; [|done].
  destruct Hi as (He & Ho & _); unfold rest in Hr; simpl in Hr.
  pose proof (proj1 (Forall_lookup _ _) Hv e _ He) as [H1 H2]; simpl in *.
  apply app_eq_nil in Hr as [Hr _]; apply (f_equal length) in Hr.
  rewrite length_drop, length_take in Hr; simpl in Hr; lia.
Qed.

Lemma xor_run_spec v n i cbc w :
  Forall wf_elem v -> inv v w -> (n <= length (rest v w))%nat -> (i + n <= length cbc)%nat ->
  exists w', xor_run v n i cbc w =
      Some (take i cbc ++ xor_into (drop i cbc) (take n (rest v w)), w') /\
    inv v w' /\ rest v w' = drop n (rest v w).
Proof.
  intros Hv; revert i cbc w; induction n as [|n IH]; intros i cbc w Hi Hn Hc.
  { exists w; rewrite take_0; simpl; split; [|done].
    assert (En : xor_into (drop i cbc) [] = drop i cbc) by (by destruct (drop i cbc)).
    by rewrite En, take_drop. }
  destruct (rest v w) as [|x r] eqn:Hr; simpl in Hn; [lia|].
  destruct (next_byte_spec v w x r Hv Hi Hr) as (w1 & Hw1 & Hi1 & Hr1).
  destruct (IH (S i) (<[i:=Z.lxor cbc.[i] x]> cbc) w1 Hi1) as (w' & Hx & Hi' & Hr').
  { rewrite Hr1; lia. } { rewrite length_insert; lia. }
  exists w'; cbn [xor_run]; rewrite Hw1; simpl; rewrite Hx, Hr1; split; [|by rewrite Hr', Hr1].
  do 2 f_equal.
  rewrite (drop_S cbc (cbc.[i]) i) by (apply lookup_byte_at; lia); simpl.
  rewrite drop_insert_lt by lia.
  rewrite (take_S_r _ _ (Z.lxor cbc.[i] x)) by (apply list_lookup_insert_eq; lia).
  rewrite take_insert_ge by lia; by rewrite <- app_assoc.
Qed.

Lemma xor_into_full x y : length y = length x -> xor_into x y = xor_bytes x y.
Proof.
  revert y; induction x as [|a x IH]; intros [|b y] H; simpl in *; try done.
  unfold xor_bytes in *; f_equal; apply IH; lia.
Qed.

Lemma block_loop_spec v n fuel cbc w :
  block_cipher E -> Forall wf_elem v -> inv v w -> length cbc = AES_BLOCK_SIZE ->
  n = (length (rest v w) / AES_BLOCK_SIZE)%nat -> (length (rest v w) <= fuel)%nat ->
  let '(x, lastm) := cmac_absorb fuel cbc (rest v w) in
  length x = AES_BLOCK_SIZE /\ (length lastm <= AES_BLOCK_SIZE)%nat /\
  (length lastm mod AES_BLOCK_SIZE = length (rest v w) mod AES_BLOCK_SIZE)%nat /\
  (lastm = [] -> rest v w = []) /\
  exists w', inv v w' /\
    block_loop v n (length (rest v w)) cbc w =
      Some (if (length lastm =? AES_BLOCK_SIZE)%nat then xor_into x lastm else x, w') /\
    rest v w' = if (length lastm =? AES_BLOCK_SIZE)%nat then [] else lastm.
Proof.
  intros HE Hv; revert fuel cbc w; induction n as [|n IH]; intros fuel cbc w Hi Hc Hn Hf.
  { assert (Hlt : (length (rest v w) < 16)%nat).
    { pose proof (Nat.div_mod_eq (length (rest v w)) 16).
      pose proof (Nat.mod_upper_bound (length (rest v w)) 16 ltac:(lia)).
      unfold AES_BLOCK_SIZE in Hn; lia. }
    assert (Ha : cmac_absorb fuel cbc (rest v w) = (cbc, rest v w)).
    { destruct fuel; simpl; [done|]; by rewrite (proj2 (Nat.ltb_ge _ _)) by (unfold AES_BLOCK_SIZE; lia). }
    rewrite Ha; unfold AES_BLOCK_SIZE in *; split; [done|]; split; [lia|]; do 2 (split; [done|]).
    exists w; rewrite (proj2 (Nat.eqb_neq _ _)) by lia; done. }
  assert (Hge : (16 <= length (rest v w))%nat).
  { destruct (Nat.le_gt_cases 16 (length (rest v w))); [done|].
    rewrite Nat.div_small in Hn by (unfold AES_BLOCK_SIZE; lia); lia. }
  destruct (xor_run_spec v AES_BLOCK_SIZE 0 cbc w Hv Hi ltac:(unfold AES_BLOCK_SIZE; lia)
    ltac:(unfold AES_BLOCK_SIZE in *; lia)) as (w1 & Hx & Hi1 & Hr1).
  cbn [block_loop]; rewrite Hx; simpl mbind; cbn [take drop app]; rewrite drop_0.
  set (cbc1 := xor_into cbc (take AES_BLOCK_SIZE (rest v w))).
  assert (Hc1 : length cbc1 = AES_BLOCK_SIZE) by (subst cbc1; by rewrite length_xor_into).
  assert (Hn1 : n = (length (rest v w1) / AES_BLOCK_SIZE)%nat).
  { rewrite Hr1, length_drop; unfold AES_BLOCK_SIZE in *.
    replace (length (rest v w)) with (length (rest v w) - 16 + 1 * 16)%nat in Hn by lia.
    rewrite Nat.div_add in Hn by lia; lia. }
  destruct (Nat.ltb_spec AES_BLOCK_SIZE (length (rest v w))) as [Hgt|Hle].
  - destruct fuel as [|fuel]; [unfold AES_BLOCK_SIZE in *; lia|].
    cbn [cmac_absorb]; rewrite (proj2 (Nat.ltb_lt _ _) Hgt).
    specialize (IH fuel (E cbc1) w1 Hi1 (HE _ Hc1) Hn1).
    assert (Hl1 : length (rest v w1) = (length (rest v w) - AES_BLOCK_SIZE)%nat)
      by (by rewrite Hr1, length_drop).
    rewrite Hl1 in IH; specialize (IH ltac:(unfold AES_BLOCK_SIZE in *; lia)).
    assert (Hcx : E (xor_bytes cbc (take AES_BLOCK_SIZE (rest v w))) = E cbc1).
    { subst cbc1; rewrite xor_into_full; [done|rewrite length_take, Hc; unfold AES_BLOCK_SIZE in *; lia]. }
    rewrite Hcx; rewrite Hr1 in IH.
    destruct (cmac_absorb fuel (E cbc1) (drop AES_BLOCK_SIZE (rest v w))) as [x lastm].
    destruct IH as (I1 & I2 & I3 & I4 & I5); do 2 (split; [done|]); split.
    2: { split; [|done]; intros H0; specialize (I4 H0); apply (f_equal length) in I4.
         rewrite length_drop in I4; simpl in I4; lia. }
    rewrite I3; unfold AES_BLOCK_SIZE in *.
    replace (length (rest v w)) with (length (rest v w) - 16 + 1 * 16)%nat at 2 by lia.
    by rewrite Nat.Div0.mod_add.
  - assert (Hl : length (rest v w) = AES_BLOCK_SIZE) by (unfold AES_BLOCK_SIZE in *; lia).
    assert (Ha : cmac_absorb fuel cbc (rest v w) = (cbc, rest v w)).
    { destruct fuel; simpl; [done|]; by rewrite (proj2 (Nat.ltb_ge _ _)) by lia. }
    rewrite Ha; split; [done|]; split; [lia|]; do 2 (split; [done|]).
    exists w1; split; [done|]; rewrite Hl, Nat.eqb_refl, Hr1, drop_ge by lia.
    assert (n = 0%nat) as -> by (rewrite Hn1, Hr1, drop_ge by lia; done).
    simpl; subst cbc1; rewrite (take_ge (rest v w)) by lia; done.
Qed.

Lemma total_len_concat v : Forall wf_elem v ->
  length (concat (el_bytes <$> v)) = sum_list_with el_len v.
Proof.
  induction 1 as [|el v [H1 H2] _ IH]; [done|]; rewrite fmap_cons; cbn [concat sum_list_with].
  rewrite length_app, IH; unfold el_bytes; rewrite length_take; lia.
Qed.

Lemma xor_bytes_comm x y : xor_bytes x y = xor_bytes y x.
Proof.
  unfold xor_bytes; revert y; induction x as [|a x IH]; intros [|b y]; simpl; try done.
  by rewrite IH, Z.lxor_comm.
Qed.

Lemma xor_bytes_assoc x y z : xor_bytes x (xor_bytes y z) = xor_bytes (xor_bytes x y) z.
Proof.
  unfold xor_bytes; revert y z; induction x as [|a x IH]; intros [|b y] [|c z]; simpl; try done.
  by rewrite IH, Z.lxor_assoc.
Qed.

Lemma xor_into_snoc x m c : (length m < length x)%nat ->
  <[length m := Z.lxor (xor_into x m).[length m] c]> (xor_into x m) = xor_into x (m ++ [c]).
Proof.
  revert m; induction x as [|a x IH]; intros [|b m] H; simpl in *; try lia.
  - unfold byte_at; simpl; by destruct x.
  - f_equal; rewrite <- IH by lia; done.
Qed.

Lemma xor_into_cmac_pad x m : (length m < AES_BLOCK_SIZE)%nat -> length x = AES_BLOCK_SIZE ->
  <[length m := Z.lxor (xor_into x m).[length m] 0x80]> (xor_into x m) = xor_bytes x (cmac_pad m).
Proof.
  intros Hm Hx; rewrite xor_into_snoc by lia.
  rewrite xor_into_pad by (rewrite ?length_app; simpl; unfold AES_BLOCK_SIZE in *; lia).
  unfold cmac_pad, pad16.
  replace (AES_BLOCK_SIZE - length (m ++ [0x80%Z]))%nat with (AES_BLOCK_SIZE - 1 - length m)%nat
    by (rewrite length_app; cbn [length]; lia).
  by rewrite <- app_assoc.
Qed.

End Cmac.

(** ** Doubling in GF(2^128) *)

(** A byte string as a big-endian number. *)
Fixpoint be_val (l : list Z) : Z :=
  match l with [] => 0 | x :: t => x * 256 ^ Z.of_nat (length t) + be_val t end.

Lemma be_val_bound l : bytes l -> 0 <= be_val l < 256 ^ Z.of_nat (length l).
Proof.
  induction 1 as [|x l [Hx0 Hx1] _ IH]; [done|].
  change (length (x :: l)) with (S (length l)); rewrite Nat2Z.inj_succ, Z.pow_succ_r by lia.
  cbn [be_val]; nia.
Qed.

Fixpoint shl1 (l : list Z) : list Z :=
  match l with
  | [] => []
  | x :: t => u8 (Z.lor (Z.shiftl x 1) (Z.shiftr (t.[0]) 7)) :: shl1 t
  end.

Lemma length_shl1 l : length (shl1 l) = length l.
Proof. induction l; simpl; congruence. Qed.

Lemma shl1_byte x y : is_u8 x -> is_u8 y ->
  u8 (Z.lor (Z.shiftl x 1) (Z.shiftr y 7)) = (2 * x) mod 256 + y / 128.
Proof.
  intros [Hx0 Hx1] [Hy0 Hy1]; rewrite Z.shiftr_div_pow2, Z.lor_comm by lia.
  rewrite lor_shiftl_add; [|lia|unfold is_uint; change (2 ^ 7) with 128; arith].
  rewrite u8_mod; change (2 ^ 7) with 128; change (2 ^ 1) with 2; arith.
Qed.

Lemma be_val_shl1 l : bytes l -> be_val (shl1 l) = (2 * be_val l) mod 256 ^ Z.of_nat (length l).
Proof.
  induction 1 as [|x l Hx Hl IH]; [done|].
  cbn [shl1 be_val].
  rewrite shl1_byte by kint.
  rewrite length_shl1.
  change (length (x :: l)) with (S (length l)); rewrite Nat2Z.inj_succ, Z.pow_succ_r by lia.
  pose proof (be_val_bound l Hl) as Hb; destruct Hx as [Hx0 Hx1].
  rewrite IH; clear IH.
  destruct l as [|y l].
  { simpl in *; unfold byte_at; simpl. rewrite Z.mod_1_r; arith. }
  apply Forall_cons_1 in Hl as [[Hy0 Hy1] Hl]; pose proof (be_val_bound l Hl) as Hbl.
  cbn [be_val] in *; unfold byte_at; cbn [nth].
  change (length (y :: l)) with (S (length l)) in *.
  rewrite Nat2Z.inj_succ, Z.pow_succ_r in * by lia.
  set (K := 256 ^ Z.of_nat (length l)) in *; set (r := be_val l) in *.
  assert (HK : 0 < K) by lia.
  assert (E1 : (2 * (y * K + r)) mod (256 * K) = 2 * (y * K + r) - 256 * K * (y / 128)).
  { symmetry; apply Z.mod_unique with (y / 128); [left|lia].
    assert (0 <= y - 128 * (y / 128) <= 127) by arith; nia. }
  rewrite E1; apply Z.mod_unique with (x / 128); [left|].
  - assert (0 <= y - 128 * (y / 128) <= 127) by arith.
    assert (0 <= y / 128 <= 1) by arith.
    assert (0 <= (2 * x) mod 256 <= 254) by arith; nia.
  - assert ((2 * x) mod 256 = 2 * x - 256 * (x / 128)) as -> by arith; lia.
Qed.

Lemma lxor_low h a c : is_u8 a -> is_u8 c -> Z.lxor (h * 256 + a) c = h * 256 + Z.lxor a c.
Proof.
  intros Ha Hc.
  rewrite (Z.add_comm (h * 256) a), (Z.add_comm (h * 256) (Z.lxor a c)).
  change 256 with (2 ^ 8).
  rewrite <- (lor_shiftl_add a h 8), <- (lor_shiftl_add (Z.lxor a c) h 8) by (done || kint).
  bits_ext i; destruct (Z.ltb_spec i 8).
  - rewrite (Z.testbit_neg_r h) by lia; by rewrite !orb_false_r.
  - rewrite (is_uint_bit 8 a i), (is_uint_bit 8 c i) by done; by rewrite xorb_false_r.
Qed.

Lemma be_val_app l a : be_val (l ++ [a]) = be_val l * 256 + a.
Proof.
  induction l as [|x l IH]; [simpl; lia|]; cbn [app be_val].
  rewrite IH, length_app; simpl length.
  replace (Z.of_nat (length l + 1)) with (Z.succ (Z.of_nat (length l))) by lia.
  rewrite Z.pow_succ_r by lia; lia.
Qed.

Lemma gf_mulx_shl1 pad : length pad = 16%nat ->
  gf_mulx pad = if Z.land pad.[0] 0x80 =? 0 then shl1 pad
                else take 15 (shl1 pad) ++ [Z.lxor (shl1 pad).[15] 0x87].
Proof.
  intros H; do 16 (destruct pad as [|? pad]; [done|]); destruct pad; [|done].
  unfold gf_mulx; cbn -[Z.land Z.lor Z.shiftl Z.shiftr u8 Z.lxor Z.eqb Z.shiftr].
  assert (E0 : forall z, u8 (Z.lor (Z.shiftl z 1) (Z.shiftr (byte_at [] 0) 7)) = u8 (Z.shiftl z 1))
    by (intros; f_equal; apply Z.lor_0_r).
  rewrite !E0; done.
Qed.

(** ** Properties *)

(** [gf_mulx] doubles its 16-byte big-endian argument in GF(2^128) with
    the reduction polynomial x^128 + x^7 + x^2 + x + 1. *)
Theorem gf_mulx_doubles pad :
  bytes pad -> length pad = AES_BLOCK_SIZE ->
  be_val (gf_mulx pad) =
  Z.lxor ((2 * be_val pad) mod 2 ^ 128) (if 2 ^ 127 <=? be_val pad then 0x87 else 0).
Proof.
  intros Hb Hl; rewrite gf_mulx_shl1 by done.
  pose proof (be_val_shl1 pad Hb) as Hs.
  rewrite Hl in Hs; change (256 ^ Z.of_nat AES_BLOCK_SIZE) with (2 ^ 128) in Hs.
  assert (Hc : (Z.land pad.[0] 0x80 =? 0) = negb (2 ^ 127 <=? be_val pad)).
  { destruct pad as [|x t]; [done|]; injection Hl as Hl.
    apply Forall_cons_1 in Hb as [[Hx0 Hx1] Ht]; pose proof (be_val_bound t Ht) as Hbt.
    rewrite Hl in Hbt; cbn [be_val]; rewrite Hl; unfold byte_at; cbn [nth].
    change (256 ^ Z.of_nat 15) with (2 ^ 120) in *.
    assert (Hx : Z.land x (Z.shiftl 1 7) = Z.shiftl (Z.shiftr x 7) 7).
    { bits_ext i; destruct (Z.ltb_spec i 7).
      { rewrite !(Z.testbit_neg_r _ (i - 7)) by lia; apply andb_false_r. }
      rewrite Z.shiftr_spec by lia; replace (i - 7 + 7) with i by lia.
      destruct (Z.eq_dec i 7) as [->|]; [by rewrite andb_true_r|].
      by rewrite (is_uint_bit 8 x i) by (unfold is_uint; lia). }
    rewrite (Z.shiftl_mul_pow2 (Z.shiftr x 7)), Z.shiftr_div_pow2, (Z.mul_comm (x / 2 ^ 7)) in Hx by lia.
    change (Z.land x 128 = 128 * (x / 128)) in Hx.
    rewrite Hx; destruct (Z.eqb_spec (128 * (x / 128)) 0), (Z.leb_spec (2 ^ 127) (x * 2 ^ 120 + be_val t));
      try done; exfalso; [assert (x <= 127) by arith | assert (128 <= x) by arith];
      change (2 ^ 127) with (128 * 2 ^ 120) in *; nia. }
  rewrite Hc; destruct (2 ^ 127 <=? be_val pad); simpl negb; cbn iota; [|by rewrite Hs, Z.lxor_0_r].
  assert (Hsb : bytes (shl1 pad)).
  { clear -Hb; induction pad as [|x pad IH]; [by apply Forall_nil_2|].
    apply Forall_cons_1 in Hb as [? Hb]; apply Forall_cons_2; [kint|by apply IH]. }
  assert (Hsl : length (shl1 pad) = 16%nat) by (by rewrite length_shl1).
  rewrite be_val_app, <- Hs.
  rewrite <- (take_drop 15 (shl1 pad)) at 3.
  replace (drop 15 (shl1 pad)) with [(shl1 pad).[15]].
  2: { rewrite (drop_S _ (shl1 pad).[15]) by (apply lookup_byte_at; lia).
       by rewrite drop_ge by lia. }
  rewrite be_val_app, lxor_low; [done|kint|by_eval].
Qed.

(** The vector routine computes the CMAC of RFC 4493 over the concatenation
    of its (non-empty) areas and never dereferences outside them, but it
    always indexes [addr] and [len] one past their end. *)
Lemma cmac_vector_is_cmac E v :
  block_cipher E -> Forall wf_elem v -> Z.of_nat (sum_list_with el_len v) < 2 ^ 64 ->
  aes_128_cmac_vector E v = Some (take CMAC_TLEN (cmac E (concat (el_bytes <$> v))), true).
Proof.
  intros HE Hv Ht; unfold aes_128_cmac_vector, cmac, ieee80211_aes_cmac_calculate_k1_k2.
  assert (HT : total_len v = length (concat (el_bytes <$> v))).
  { rewrite total_len_concat by done; unfold total_len, u64; rewrite wrap_small; [lia|].
    unfold is_uint; lia. }
  rewrite HT; destruct (load_inv v 0 Hv) as [HI HR]; rewrite drop_0 in HR.
  set (msg := concat (el_bytes <$> v)) in *.
  pose proof (block_loop_spec E v (length msg / AES_BLOCK_SIZE) (length msg)
    (replicate AES_BLOCK_SIZE 0) _ HE Hv HI eq_refl) as HB.
  rewrite HR in HB; specialize (HB eq_refl (le_n _)).
  destruct (cmac_absorb E _ _ _) as [x lastm] eqn:EA.
  destruct HB as (B1 & B2 & B3 & B4 & w' & Bi & Bb & Br).
  rewrite Bb; simpl mbind.
  set (k1 := gf_mulx (E (replicate AES_BLOCK_SIZE 0))).
  destruct (Nat.eqb_spec (length lastm) AES_BLOCK_SIZE) as [Hf|Hf].
  - rewrite <- B3, Hf; change (AES_BLOCK_SIZE mod AES_BLOCK_SIZE)%nat with 0%nat.
    rewrite (proj2 (Nat.eqb_neq (length msg) 0)).
    2: { intros H0; destruct msg; [|done]; simpl in EA; injection EA as <- <-; done. }
    simpl; rewrite (rest_nil_oob v w' Hv Bi Br), xor_into_full by congruence.
    by rewrite (xor_bytes_comm k1), xor_bytes_assoc.
  - assert (Hlt : (length lastm < AES_BLOCK_SIZE)%nat) by lia.
    rewrite <- B3, Nat.mod_small by done.
    assert (Hcond : negb (length lastm =? 0)%nat || (length msg =? 0)%nat = true).
    { destruct lastm; [|done]; by rewrite (B4 eq_refl). }
    rewrite Hcond.
    destruct (xor_run_spec v (length lastm) 0 x w' Hv Bi ltac:(by rewrite Br) ltac:(lia))
      as (w2 & Hx & Hi2 & Hr2).
    rewrite Br, drop_ge in Hr2 by lia.
    rewrite Hx, Br; simpl mbind; rewrite drop_0, (take_ge lastm) by lia; cbn [take app].
    rewrite (rest_nil_oob v w2 Hv Hi2 Hr2), xor_into_cmac_pad by done.
    by rewrite (xor_bytes_comm (gf_mulx k1)), xor_bytes_assoc.
Qed.

Lemma aes_cmac_is_cmac E aad data :
  block_cipher E -> length aad = AAD_LEN ->
  (CMAC_TLEN < length data)%nat -> Z.of_nat (length data) < 2 ^ 32 ->
  ieee80211_aes_cmac E aad data =
    Some (take CMAC_TLEN (cmac E
      (aad ++ take (length data - CMAC_TLEN) data ++ replicate CMAC_TLEN 0)), true).
Proof.
  intros HE Ha Hd Hl; unfold ieee80211_aes_cmac.
  assert (Hlen : Z.to_nat (u64 (Z.of_nat (length data) - Z.of_nat CMAC_TLEN)) =
    (length data - CMAC_TLEN)%nat).
  { unfold u64, CMAC_TLEN in *; rewrite wrap_small; [lia|unfold is_uint; lia]. }
  rewrite Hlen, cmac_vector_is_cmac; [|done| |].
  - rewrite !fmap_cons, fmap_nil; cbn [concat]; unfold el_bytes; cbn [el_len el_mem].
    by rewrite (take_ge aad), (take_ge (replicate _ _)), app_nil_r by (rewrite ?length_replicate; lia).
  - unfold AAD_LEN, CMAC_TLEN in *; repeat apply Forall_cons_2; try apply Forall_nil_2;
      split; simpl; lia.
  - simpl; unfold AAD_LEN, CMAC_TLEN in *; lia.
Qed.

Lemma length_gf_mulx p : length (gf_mulx p) = AES_BLOCK_SIZE.
Proof. unfold gf_mulx; case_match; rewrite ?length_insert, length_app, length_fmap, length_seq; done. Qed.

Lemma cmac_absorb_sizes E fuel x msg : block_cipher E -> length x = AES_BLOCK_SIZE -> (length msg <= fuel)%nat ->
  let '(x', m) := cmac_absorb E fuel x msg in length x' = AES_BLOCK_SIZE /\ (length m <= AES_BLOCK_SIZE)%nat.
Proof.
  intros HE; revert x msg; induction fuel as [|fuel IH]; intros x msg Hx Hm; cbn [cmac_absorb]; [split; [done|lia]|].
  destruct (Nat.ltb_spec AES_BLOCK_SIZE (length msg)) as [Hlt|]; [|done].
  apply IH; [|rewrite length_drop; unfold AES_BLOCK_SIZE in *; lia].
  apply HE; rewrite length_xor_bytes, length_take; unfold AES_BLOCK_SIZE in *; lia.
Qed.

Lemma length_cmac E msg : block_cipher E -> length (cmac E msg) = AES_BLOCK_SIZE.
Proof.
  intros HE; unfold cmac, ieee80211_aes_cmac_calculate_k1_k2.
  pose proof (cmac_absorb_sizes E (length msg) (replicate AES_BLOCK_SIZE 0) msg HE) as Hs.
  destruct (cmac_absorb _ _ _ _) as [x m]; destruct Hs as [Hx Hm]; [apply length_replicate | lia |].
  apply HE; rewrite length_xor_bytes, Hx.
  destruct (Nat.eqb_spec (length m) AES_BLOCK_SIZE) as [E1|E1]; rewrite length_xor_bytes, length_gf_mulx.
  - rewrite E1; done.
  - unfold cmac_pad; rewrite !length_app, length_replicate; cbn [length]; unfold AES_BLOCK_SIZE in *; lia.
Qed.

(** The MAC of management frames implements the interface BIP uses. *)
Definition cmac_mac (E : list Z -> list Z) (HE : block_cipher E) : FrameMac.
Proof.
  refine {| fm_mac aad body := fst <$> ieee80211_aes_cmac E aad body |}.
  intros aad body Ha Hb Hl; exists (take CMAC_TLEN (cmac E (aad ++ body ++ replicate CMAC_TLEN 0))).
  split; [rewrite length_take, length_cmac by done; done|]; intros field Hf; unfold CMAC_TLEN in *.
  rewrite aes_cmac_is_cmac; [|done|done|unfold CMAC_TLEN; rewrite length_app; lia|rewrite length_app; lia].
  cbn [fmap option_fmap option_map fst]; do 4 f_equal; f_equal; apply take_app_length'; unfold CMAC_TLEN; rewrite length_app; lia.
Defined.

(** For every management frame body longer than its MIC field,
    [ieee80211_aes_cmac] returns the CMAC of RFC 4493 over the AAD followed by
    the body with its MIC field zeroed, reading only bytes of the three areas;
    and on every such call the code indexes the three-entry arrays [addr] and
    [len] with 3. *)
Theorem aes_cmac_covers_frame E aad data :
  block_cipher E -> length aad = AAD_LEN ->
  (CMAC_TLEN < length data)%nat -> Z.of_nat (length data) < 2 ^ 32 ->
  ieee80211_aes_cmac E aad data =
    Some (take CMAC_TLEN (cmac E
      (aad ++ take (length data - CMAC_TLEN) data ++ replicate CMAC_TLEN 0)), true).
Proof. apply aes_cmac_is_cmac. Qed.

Lemma aes_cmac_covers_frame_witness :
  ieee80211_aes_cmac toy_cipher (replicate 20 1) (replicate 30 2) =
    Some (take CMAC_TLEN (cmac toy_cipher
      (replicate 20 1 ++ take 22 (replicate 30 2) ++ replicate CMAC_TLEN 0)), true).
Proof.
  apply (aes_cmac_covers_frame toy_cipher (replicate 20 1) (replicate 30 2));
    [apply toy_cipher_block | reflexivity | simpl; unfold CMAC_TLEN; lia | simpl; lia].
Defined.

Lemma gf_mulx_doubles_witness :
  be_val (gf_mulx (0x80 :: replicate 15 1)) =
  Z.lxor ((2 * be_val (0x80 :: replicate 15 1)) mod 2 ^ 128) 0x87.
Proof. apply (gf_mulx_doubles (0x80 :: replicate 15 1)); [by_eval | reflexivity]. Defined.

End AesCmac.
