(* ===== verification/HtcHst.v ===== *)
(** * Host control layer (HTC) of the ath9k_htc driver

    [drivers/net/wireless/ath/ath9k/htc_hst.c].  The target state is the
    endpoint table, the flags and the two completions.  Messages are byte
    strings; a load past the end of a received message, or an access to the
    endpoint table with an index of 22 or more, is a fault ([None]).

    [htc_connect_service] and the two control commands send a message and
    block on [cmd_wait] while the receive and transmit-completion handlers run
    in interrupt context.  A wait is modelled by the list of handler calls
    that happen until the completion or the timeout, and is given by the
    environment together with the results of [alloc_skb] and [hif->send]. *)

From stdpp Require Import relations.
From S2P Require Import Prelude.

Module HtcHst.

(** ** Data *)

Definition ENDPOINT_UNUSED : Z := -1.
Definition ENDPOINT0 : nat := 0.
Definition ENDPOINT_MAX : nat := 22.

Definition HTC_FLAGS_RECV_TRAILER : Z := 2.
Definition HTC_MAX_CONTROL_MESSAGE_LENGTH : Z := 255.
Definition HTC_OP_START_WAIT : Z := 1.
Definition HTC_OP_CONFIG_PIPE_CREDITS : Z := 2.

Definition HTC_MSG_READY_ID : Z := 1.
Definition HTC_MSG_CONNECT_SERVICE_ID : Z := 2.
Definition HTC_MSG_CONNECT_SERVICE_RESPONSE_ID : Z := 3.
Definition HTC_MSG_SETUP_COMPLETE_ID : Z := 4.
Definition HTC_MSG_CONFIG_PIPE_ID : Z := 5.

Definition MAKE_SERVICE_ID (group index : Z) : Z := Z.lor (Z.shiftl group 8) index.
Definition HTC_CTRL_RSVD_SVC : Z := MAKE_SERVICE_ID 0 1.
Definition WMI_CONTROL_SVC : Z := MAKE_SERVICE_ID 1 0.
Definition WMI_BEACON_SVC : Z := MAKE_SERVICE_ID 1 1.
Definition WMI_CAB_SVC : Z := MAKE_SERVICE_ID 1 2.
Definition WMI_UAPSD_SVC : Z := MAKE_SERVICE_ID 1 3.
Definition WMI_MGMT_SVC : Z := MAKE_SERVICE_ID 1 4.
Definition WMI_DATA_VO_SVC : Z := MAKE_SERVICE_ID 1 5.
Definition WMI_DATA_VI_SVC : Z := MAKE_SERVICE_ID 1 6.
Definition WMI_DATA_BE_SVC : Z := MAKE_SERVICE_ID 1 7.
Definition WMI_DATA_BK_SVC : Z := MAKE_SERVICE_ID 1 8.
Definition HTC_SERVICE_SUCCESS : Z := 0.
Definition USB_WLAN_TX_PIPE : Z := 1.
Definition USB_REG_IN_PIPE : Z := 3.

Definition EINVAL : Z := 22.
Definition ENOMEM : Z := 12.
Definition ETIMEDOUT : Z := 110.

(** Callbacks are named by numbers; [None] is a null function pointer. *)
Record htc_ep_callbacks := { cb_priv : Z; cb_tx : option Z; cb_rx : option Z }.

Record htc_endpoint := {
  service_id : Z;
  ep_callbacks : htc_ep_callbacks;
  max_txqdepth : Z;
  max_msglen : Z;
  ul_pipeid : Z;
  dl_pipeid : Z }.

Record htc_target := {
  endpoint : list htc_endpoint;   (* ENDPOINT_MAX entries *)
  target_wait : nat;              (* completions not yet consumed *)
  cmd_wait : nat;
  conn_rsp_epid : Z;
  credits : Z;
  credit_size : Z;
  htc_flags : Z;
  tgt_ready : Z }.

Record htc_service_connreq := {
  req_service_id : Z;
  req_con_flags : Z;
  req_max_send_qdepth : Z;
  req_ep_callbacks : htc_ep_callbacks }.

Definition set_endpoint (t : htc_target) (e : list htc_endpoint) : htc_target :=
  {| endpoint := e; target_wait := target_wait t; cmd_wait := cmd_wait t;
     conn_rsp_epid := conn_rsp_epid t; credits := credits t;
     credit_size := credit_size t; htc_flags := htc_flags t; tgt_ready := tgt_ready t |}.
Definition set_cmd_wait (t : htc_target) (n : nat) : htc_target :=
  {| endpoint := endpoint t; target_wait := target_wait t; cmd_wait := n;
     conn_rsp_epid := conn_rsp_epid t; credits := credits t;
     credit_size := credit_size t; htc_flags := htc_flags t; tgt_ready := tgt_ready t |}.
Definition set_conn_rsp_epid (t : htc_target) (e : Z) : htc_target :=
  {| endpoint := endpoint t; target_wait := target_wait t; cmd_wait := cmd_wait t;
     conn_rsp_epid := e; credits := credits t;
     credit_size := credit_size t; htc_flags := htc_flags t; tgt_ready := tgt_ready t |}.
Definition set_htc_flags (t : htc_target) (f : Z) : htc_target :=
  {| endpoint := endpoint t; target_wait := target_wait t; cmd_wait := cmd_wait t;
     conn_rsp_epid := conn_rsp_epid t; credits := credits t;
     credit_size := credit_size t; htc_flags := f; tgt_ready := tgt_ready t |}.
Definition complete_cmd (t : htc_target) : htc_target := set_cmd_wait t (S (cmd_wait t)).

Definition set_service_id (e : htc_endpoint) (s : Z) : htc_endpoint :=
  {| service_id := s; ep_callbacks := ep_callbacks e; max_txqdepth := max_txqdepth e;
     max_msglen := max_msglen e; ul_pipeid := ul_pipeid e; dl_pipeid := dl_pipeid e |}.

(** ** Operations *)

(** The frame [htc_issue_send] hands to [hif->send]: pipe and bytes.  The four
    control bytes of the header are not written; they are what the buffer
    held ([stale]). *)
Record frame := { fr_pipe : Z; fr_bytes : list Z }.

Definition htc_issue_send (t : htc_target) (stale skb : list Z) (len flags : Z) (epid : nat)
  : option frame :=
  ep ← endpoint t !! epid;
  Some {| fr_pipe := ul_pipeid ep;
          fr_bytes := [u8 (Z.of_nat epid); flags] ++ put_be16 len ++ stale ++ skb |}.

(** [endpoint[i].service_id == sid] *)
Definition service_at (eps : list htc_endpoint) (i : nat) (sid : Z) : bool :=
  match eps !! i with Some ep => service_id ep =? sid | None => false end.

(** [for (avail_epid = ENDPOINT_MAX - 1; avail_epid > ENDPOINT0; avail_epid--)];
    [n] is the index under test. *)
Fixpoint avail_from (eps : list htc_endpoint) (n : nat) : option nat :=
  match n with
  | O => None
  | S n' =>
    if service_at eps n 0 then Some n else avail_from eps n'
  end.
Definition get_next_avail_ep (eps : list htc_endpoint) : option nat :=
  avail_from eps (ENDPOINT_MAX - 1).

Definition data_svc (s : Z) : bool :=
  (s =? WMI_BEACON_SVC) || (s =? WMI_CAB_SVC) || (s =? WMI_UAPSD_SVC) ||
  (s =? WMI_MGMT_SVC) || (s =? WMI_DATA_VO_SVC) || (s =? WMI_DATA_VI_SVC) ||
  (s =? WMI_DATA_BE_SVC) || (s =? WMI_DATA_BK_SVC).

Definition service_to_ulpipe (s : Z) : Z :=
  if s =? WMI_CONTROL_SVC then 4 else if data_svc s then 1 else 0.
Definition service_to_dlpipe (s : Z) : Z :=
  if s =? WMI_CONTROL_SVC then 3 else if data_svc s then 2 else 0.

(** Big-endian 16- and 32-bit loads from a received message. *)
Definition rd_be16 (b : list Z) (i : nat) : option Z :=
  h ← b !! i; l ← b !! (i + 1)%nat; Some (Z.lor (Z.shiftl h 8) l).
Definition rd_be32 (b : list Z) (i : nat) : option Z :=
  h ← rd_be16 b i; l ← rd_be16 b (i + 2); Some (Z.lor (Z.shiftl h 16) l).

(** [htc_process_target_rdy(target, buf)]: [buf] is at offset [buf] of the
    message; [credit_size] is the field at offset 4 of [struct htc_ready_msg]. *)
Definition htc_process_target_rdy (t : htc_target) (b : list Z) (buf : nat) : option htc_target :=
  cs ← rd_be16 b (buf + 4);
  ep ← endpoint t !! ENDPOINT0;
  let ep := {| service_id := HTC_CTRL_RSVD_SVC; ep_callbacks := ep_callbacks ep;
               max_txqdepth := max_txqdepth ep; max_msglen := HTC_MAX_CONTROL_MESSAGE_LENGTH;
               ul_pipeid := ul_pipeid ep; dl_pipeid := dl_pipeid ep |} in
  Some {| endpoint := <[ENDPOINT0 := ep]> (endpoint t); target_wait := S (target_wait t);
          cmd_wait := cmd_wait t; conn_rsp_epid := conn_rsp_epid t; credits := credits t;
          credit_size := cs; htc_flags := htc_flags t; tgt_ready := tgt_ready t + 1 |}.

(** The downward search for the endpoint that holds [sid]; 0 when none does. *)
Fixpoint find_service (eps : list htc_endpoint) (sid : Z) (n : nat) : nat :=
  match n with
  | O => O
  | S n' =>
    if service_at eps n sid then n else find_service eps sid n'
  end.

(** [htc_process_conn_rsp(target, htc_hdr)], [hdr] the offset of the header. *)
Definition htc_process_conn_rsp (t : htc_target) (b : list Z) (hdr : nat) : option htc_target :=
  let rsp := (hdr + 8)%nat in
  status ← b !! (rsp + 4)%nat;
  if status =? HTC_SERVICE_SUCCESS then
    epid ← b !! (rsp + 5)%nat;
    sid ← rd_be16 b (rsp + 2);
    maxlen ← rd_be16 b (rsp + 6);
    let tepid := find_service (endpoint t) sid (ENDPOINT_MAX - 1) in
    if (tepid =? ENDPOINT0)%nat then Some t
    else
      tmp ← endpoint t !! tepid;
      let eps := <[tepid := set_service_id tmp 0]> (endpoint t) in
      _ ← eps !! Z.to_nat epid;   (* target->endpoint[epid] is accessed *)
      let eps := <[Z.to_nat epid :=
        {| service_id := sid; ep_callbacks := ep_callbacks tmp;
           max_txqdepth := max_txqdepth tmp; max_msglen := maxlen;
           ul_pipeid := ul_pipeid tmp; dl_pipeid := dl_pipeid tmp |}]> eps in
      Some (complete_cmd (set_conn_rsp_epid (set_endpoint t eps) epid))
  else Some (set_conn_rsp_epid t ENDPOINT_UNUSED).

(** What becomes of a received buffer. *)
Inductive rx_action :=
| Rx_none                                  (* no target or no buffer *)
| Rx_freed
| Rx_delivered (rx priv : Z) (data : list Z) (epid : nat)
| Rx_lost.                                 (* endpoint without rx callback *)

(** [skb_trim] and [skb_pull]. *)
Definition skb_trim (data : list Z) (len : Z) : list Z :=
  if len <? Z.of_nat (length data) then take (Z.to_nat len) data else data.
Definition skb_pull (data : list Z) (n : nat) : list Z :=
  if (length data <? n)%nat then data else drop n data.

(** [ath9k_htc_rx_msg(htc_handle, skb, len, pipe_id)]; [skb] is [None] for a
    null buffer.  Both free functions release the buffer, so [pipe_id] only
    selects which one is called. *)
Definition ath9k_htc_rx_msg (t : htc_target) (skb : option (list Z)) (len pipe_id : Z)
  : option (htc_target * rx_action) :=
  match skb with
  | None => Some (t, Rx_none)
  | Some b =>
    epid ← b !! 0%nat;
    if Z.of_nat ENDPOINT_MAX <=? epid then Some (t, Rx_freed)
    else
      flags ← b !! 1%nat;
      if epid =? Z.of_nat ENDPOINT0 then
        hdr ← (if bit_set flags HTC_FLAGS_RECV_TRAILER then
                 pat ← rd_be32 b 0;
                 Some (if pat =? 0x00C60000 then 4%nat else 0%nat)
               else Some 0%nat);
        msg_id ← rd_be16 b (hdr + 8);
        t' ← (if msg_id =? HTC_MSG_READY_ID then htc_process_target_rdy t b hdr
              else if msg_id =? HTC_MSG_CONNECT_SERVICE_RESPONSE_ID
              then htc_process_conn_rsp t b hdr
              else Some t);
        Some (t', Rx_freed)
      else
        data ← (if bit_set flags HTC_FLAGS_RECV_TRAILER then
                  c0 ← b !! 4%nat; Some (skb_trim b (u32 (len - c0)))
                else Some b);
        let data := skb_pull data 8 in
        ep ← endpoint t !! Z.to_nat epid;
        match cb_rx (ep_callbacks ep) with
        | Some rx => Some (t, Rx_delivered rx (cb_priv (ep_callbacks ep)) data (Z.to_nat epid))
        | None => Some (t, Rx_lost)
        end
  end.

Inductive tx_action :=
| Tx_none
| Tx_freed
| Tx_delivered (tx priv : Z) (data : list Z) (epid : nat) (txok : bool).

(** [ath9k_htc_txcompletion_cb].  On the two command paths [htc_hdr] is still
    null at the label, so the buffer goes to [kfree_skb]. *)
Definition ath9k_htc_txcompletion_cb (t : htc_target) (skb : option (list Z)) (txok : bool)
  : option (htc_target * tx_action) :=
  if bit_set (htc_flags t) HTC_OP_CONFIG_PIPE_CREDITS then
    Some (set_htc_flags (complete_cmd t) (Z.ldiff (htc_flags t) HTC_OP_CONFIG_PIPE_CREDITS), Tx_freed)
  else if bit_set (htc_flags t) HTC_OP_START_WAIT then
    Some (set_htc_flags (complete_cmd t) (Z.ldiff (htc_flags t) HTC_OP_START_WAIT), Tx_freed)
  else
    match skb with
    | None => Some (t, Tx_none)
    | Some b =>
      epid ← b !! 0%nat;
      ep ← endpoint t !! Z.to_nat epid;
      let data := skb_pull b 8 in
      match cb_tx (ep_callbacks ep) with
      | Some tx => Some (t, Tx_delivered tx (cb_priv (ep_callbacks ep)) data (Z.to_nat epid) txok)
      | None => Some (t, Tx_freed)
      end
    end.

(** A handler call that happens while a command waits. *)
Inductive event :=
| Ev_rx (skb : list Z) (len pipe_id : Z)
| Ev_tx (skb : list Z) (txok : bool).

Definition handle (t : htc_target) (e : event) : option htc_target :=
  match e with
  | Ev_rx skb len pipe => fst <$> ath9k_htc_rx_msg t (Some skb) len pipe
  | Ev_tx skb ok => fst <$> ath9k_htc_txcompletion_cb t (Some skb) ok
  end.

(** [wait_for_completion_timeout(&target->cmd_wait, HZ)]: [true] when a
    completion was consumed, [false] on timeout. *)
Fixpoint wait_cmd (t : htc_target) (evs : list event) : option (htc_target * bool) :=
  match cmd_wait t with
  | S n => Some (set_cmd_wait t n, true)
  | O =>
    match evs with
    | [] => Some (t, false)
    | e :: evs => t' ← handle t e; wait_cmd t' evs
    end
  end.

(** The environment of one command: whether [alloc_skb] succeeds, what the
    unwritten buffer bytes hold, the status [hif->send] returns for a frame
    and the handler calls during the wait. *)
Record cmd_env := {
  env_alloc : bool;
  env_stale : list Z;
  env_send : frame -> Z;
  env_events : list event }.

Definition htc_config_pipe_credits (env : cmd_env) (t : htc_target) : option (htc_target * Z) :=
  if negb (env_alloc env) then Some (t, - ENOMEM)
  else
    let skb := put_be16 HTC_MSG_CONFIG_PIPE_ID ++ [USB_WLAN_TX_PIPE; u8 (credits t)] in
    let t := set_htc_flags t (Z.lor (htc_flags t) HTC_OP_CONFIG_PIPE_CREDITS) in
    fr ← htc_issue_send t (env_stale env) skb (Z.of_nat (length skb)) 0 ENDPOINT0;
    if negb (env_send env fr =? 0) then Some (t, - EINVAL)
    else
      '(t, ok) ← wait_cmd t (env_events env);
      Some (t, if ok : bool then 0 else - ETIMEDOUT).

Definition htc_setup_complete (env : cmd_env) (t : htc_target) : option (htc_target * Z) :=
  if negb (env_alloc env) then Some (t, - ENOMEM)
  else
    let skb := put_be16 HTC_MSG_SETUP_COMPLETE_ID in
    let t := set_htc_flags t (Z.lor (htc_flags t) HTC_OP_START_WAIT) in
    fr ← htc_issue_send t (env_stale env) skb (Z.of_nat (length skb)) 0 ENDPOINT0;
    if negb (env_send env fr =? 0) then Some (t, - EINVAL)
    else
      '(t, ok) ← wait_cmd t (env_events env);
      Some (t, if ok : bool then 0 else - ETIMEDOUT).

Definition htc_init (env1 env2 : cmd_env) (t : htc_target) : option (htc_target * Z) :=
  '(t, ret) ← htc_config_pipe_credits env1 t;
  if negb (ret =? 0) then Some (t, ret) else htc_setup_complete env2 t.

(** [htc_connect_service]; the third component is [*conn_rsp_epid] when it is
    written.  [meta] are the two bytes of the message the code leaves alone. *)
Definition htc_connect_service (env : cmd_env) (meta : list Z) (t : htc_target)
    (req : htc_service_connreq) : option (htc_target * Z * option Z) :=
  match get_next_avail_ep (endpoint t) with
  | None => Some (t, - EINVAL, None)
  | Some k =>
    ep ← endpoint t !! k;
    let ep := {| service_id := req_service_id req; ep_callbacks := req_ep_callbacks req;
                 max_txqdepth := req_max_send_qdepth req; max_msglen := max_msglen ep;
                 ul_pipeid := service_to_ulpipe (req_service_id req);
                 dl_pipeid := service_to_dlpipe (req_service_id req) |} in
    let t := set_endpoint t (<[k := ep]> (endpoint t)) in
    if negb (env_alloc env) then Some (t, - ENOMEM, None)
    else
      let skb := put_be16 HTC_MSG_CONNECT_SERVICE_ID ++ put_be16 (req_service_id req) ++
                 put_be16 (req_con_flags req) ++ [dl_pipeid ep; ul_pipeid ep] ++ meta in
      fr ← htc_issue_send t (env_stale env) skb (Z.of_nat (length skb)) 0 ENDPOINT0;
      let ret := env_send env fr in
      if negb (ret =? 0) then Some (t, ret, None)
      else
        '(t, ok) ← wait_cmd t (env_events env);
        if ok : bool then Some (t, 0, Some (conn_rsp_epid t)) else Some (t, - ETIMEDOUT, None)
  end.

Definition htc_send_epid (t : htc_target) (stale skb : list Z) (epid : nat) : option frame :=
  htc_issue_send t stale skb (Z.of_nat (length skb)) 0 epid.

(** [ath9k_htc_hw_alloc]: the zeroed target with the control pipes of the
    transport on endpoint 0. *)
Definition zero_endpoint : htc_endpoint :=
  {| service_id := 0; ep_callbacks := {| cb_priv := 0; cb_tx := None; cb_rx := None |};
     max_txqdepth := 0; max_msglen := 0; ul_pipeid := 0; dl_pipeid := 0 |}.
Definition ath9k_htc_hw_alloc (control_ul_pipe control_dl_pipe : Z) : htc_target :=
  {| endpoint := <[ENDPOINT0 :=
       {| service_id := 0; ep_callbacks := ep_callbacks zero_endpoint; max_txqdepth := 0;
          max_msglen := 0; ul_pipeid := control_ul_pipe; dl_pipeid := control_dl_pipe |}]>
       (replicate ENDPOINT_MAX zero_endpoint);
     target_wait := 0; cmd_wait := 0; conn_rsp_epid := 0; credits := 0; credit_size := 0;
     htc_flags := 0; tgt_ready := 0 |}.

(** ** Lemmas *)

(** The structural invariant, and services being registered at most once
    among the non-control endpoints. *)
Definition wf_target (t : htc_target) : Prop := length (endpoint t) = ENDPOINT_MAX.

Definition serves (eps : list htc_endpoint) (i : nat) (sid : Z) : Prop :=
  exists ep, eps !! i = Some ep /\ service_id ep = sid.

Definition services_unique (eps : list htc_endpoint) : Prop :=
  forall i j sid, (0 < i)%nat -> (0 < j)%nat -> sid <> 0 ->
  serves eps i sid -> serves eps j sid -> i = j.

Definition unregistered (eps : list htc_endpoint) (sid : Z) : Prop :=
  forall i, (0 < i)%nat -> ~ serves eps i sid.

Lemma service_at_spec eps i sid : service_at eps i sid = true <-> serves eps i sid.
Proof.
  unfold service_at, serves; destruct (eps !! i) as [ep|] eqn:E.
  - rewrite Z.eqb_eq; split; [by exists ep|]; by intros (ep' & [= <-] & ?).
  - split; [done|]; by intros (? & ? & ?).
Qed.

Lemma avail_from_spec eps n k : avail_from eps n = Some k ->
  (0 < k <= n)%nat /\ serves eps k 0 /\
  forall i, (k < i <= n)%nat -> ~ serves eps i 0.
Proof.
  induction n as [|n IH]; simpl; [done|].
  destruct (service_at eps (S n) 0) eqn:E.
  - intros [= <-]; split; [lia|]; split; [by apply service_at_spec|]; intros i Hi; lia.
  - intros H; apply IH in H as (H1 & H2 & H3); split; [lia|]; split; [done|].
    intros i Hi Hs; destruct (decide (i = S n)) as [->|]; [|by apply (H3 i); [lia|]].
    apply service_at_spec in Hs; congruence.
Qed.

Lemma find_service_spec eps sid n :
  (forall i, (0 < i <= n)%nat -> ~ serves eps i sid) /\ find_service eps sid n = 0%nat \/
  (0 < find_service eps sid n <= n)%nat /\ serves eps (find_service eps sid n) sid.
Proof.
  induction n as [|n IH]; simpl; [left; split; [lia|done]|].
  destruct (service_at eps (S n) sid) eqn:E; [right; split; [lia|by apply service_at_spec]|].
  destruct IH as [[H1 H2]|[H1 H2]]; [left|right; split; [lia|done]].
  split; [|done]; intros i Hi Hs.
  destruct (decide (i = S n)) as [->|]; [|by apply (H1 i); [lia|]].
  apply service_at_spec in Hs; congruence.
Qed.

#[local] Arguments find_service : simpl never.
#[local] Arguments Nat.sub : simpl never.
#[local] Arguments avail_from : simpl never.

Lemma find_service_at eps sid k : services_unique eps -> sid <> 0 ->
  (0 < k < ENDPOINT_MAX)%nat -> serves eps k sid ->
  find_service eps sid (ENDPOINT_MAX - 1) = k.
Proof.
  intros Hu Hs Hk Hsv; destruct (find_service_spec eps sid (ENDPOINT_MAX - 1)) as [[H1 _]|[H1 H2]].
  - exfalso; apply (H1 k); [unfold ENDPOINT_MAX in *; lia|done].
  - apply (Hu _ _ sid); [lia|lia|done|done|done].
Qed.

Lemma serves_insert eps k ep i sid : (k < length eps)%nat ->
  serves (<[k := ep]> eps) i sid <->
  (i = k /\ service_id ep = sid) \/ (i <> k /\ serves eps i sid).
Proof.
  intros Hk; unfold serves; destruct (decide (i = k)) as [->|Hne].
  - rewrite list_lookup_insert_eq by done; split.
    + intros (ep' & [= <-] & H); by left.
    + intros [[_ H]|[? _]]; [by exists ep|done].
  - rewrite list_lookup_insert_ne by done; split; [by right|]; by intros [[? _]|[_ ?]].
Qed.

Lemma unique_clear eps k tmp : services_unique eps -> (k < length eps)%nat ->
  services_unique (<[k := set_service_id tmp 0]> eps).
Proof.
  intros Hu Hk i j sid Hi Hj Hs H1 H2.
  apply serves_insert in H1 as [[_ H1]|[_ H1]]; [simpl in H1; congruence| |done].
  apply serves_insert in H2 as [[_ H2]|[_ H2]]; [simpl in H2; congruence| |done].
  by apply (Hu i j sid).
Qed.

Lemma unique_register eps k ep : services_unique eps -> (k < length eps)%nat ->
  (forall i, (0 < i)%nat -> i <> k -> service_id ep <> 0 -> ~ serves eps i (service_id ep)) ->
  services_unique (<[k := ep]> eps).
Proof.
  intros Hu Hk Hn i j sid Hi Hj Hs H1 H2.
  apply serves_insert in H1 as [[E1 H1]|[N1 H1]]; [| |done];
  apply serves_insert in H2 as [[E2 H2]|[N2 H2]]; try done.
  - congruence.
  - exfalso; subst; by apply (Hn j).
  - exfalso; subst; by apply (Hn i).
  - by apply (Hu i j sid).
Qed.

Lemma conn_rsp_preserves t b hdr t' :
  wf_target t -> services_unique (endpoint t) -> htc_process_conn_rsp t b hdr = Some t' ->
  wf_target t' /\ services_unique (endpoint t').
Proof.
  intros Hw Hu; unfold htc_process_conn_rsp, wf_target in *.
  destruct (b !! (hdr + 8 + 4)%nat) as [status|]; simpl; [|done].
  destruct (status =? HTC_SERVICE_SUCCESS); [|by intros [= <-]].
  destruct (b !! (hdr + 8 + 5)%nat) as [epid|]; simpl; [|done].
  destruct (rd_be16 b (hdr + 8 + 2)) as [sid|]; simpl; [|done].
  destruct (rd_be16 b (hdr + 8 + 6)) as [maxlen|]; simpl; [|done].
  destruct (find_service_spec (endpoint t) sid (ENDPOINT_MAX - 1)) as [[H1 ->]|[Hk Hsv]];
    [by intros [= <-]|].
  set (k := find_service (endpoint t) sid (ENDPOINT_MAX - 1)) in *.
  rewrite (proj2 (Nat.eqb_neq k ENDPOINT0)) by (unfold ENDPOINT0; lia).
  destruct (endpoint t !! k) as [tmp|] eqn:Ek; simpl; [|done].
  destruct (_ !! Z.to_nat epid) as [old|] eqn:Eo; simpl; [|done]; intros [= <-]; simpl.
  apply lookup_lt_Some in Eo; rewrite length_insert in Eo.
  assert (Hkl : (k < length (endpoint t))%nat) by (unfold ENDPOINT_MAX in *; lia).
  rewrite !length_insert; split; [done|].
  apply unique_register; [by apply unique_clear|by rewrite length_insert|].
  simpl; intros i Hi Hne Hs0 Hserv.
  apply serves_insert in Hserv as [[_ H]|[Hik Hserv]]; [simpl in H; congruence| |done].
  apply Hik, (Hu i k sid); [done|lia|done|done|done].
Qed.

Lemma target_rdy_preserves t b buf t' :
  wf_target t -> services_unique (endpoint t) -> htc_process_target_rdy t b buf = Some t' ->
  wf_target t' /\ services_unique (endpoint t').
Proof.
  intros Hw Hu; unfold htc_process_target_rdy, wf_target in *.
  destruct (rd_be16 _ _); simpl; [|done].
  destruct (endpoint t !! ENDPOINT0) as [ep|] eqn:E; simpl; [|done]; intros [= <-]; simpl.
  rewrite length_insert; split; [done|]; intros i j sid Hi Hj Hs H1 H2.
  apply lookup_lt_Some in E.
  apply serves_insert in H1 as [[-> _]|[_ H1]]; [unfold ENDPOINT0 in *; lia| |done].
  apply serves_insert in H2 as [[-> _]|[_ H2]]; [unfold ENDPOINT0 in *; lia| |done].
  by apply (Hu i j sid).
Qed.

Lemma handle_preserves t e t' :
  wf_target t -> services_unique (endpoint t) -> handle t e = Some t' ->
  wf_target t' /\ services_unique (endpoint t').
Proof.
  intros Hw Hu; destruct e as [b len pipe|b ok]; unfold handle.
  - unfold ath9k_htc_rx_msg; destruct (b !! 0%nat) as [epid|]; simpl; [|done].
    case_match; [by intros [= <-]|].
    destruct (b !! 1%nat) as [flags|]; simpl; [|done].
    case_match.
    + destruct (if bit_set _ _ then _ else _) as [hdr|]; simpl; [|done].
      destruct (rd_be16 b _) as [msg|]; simpl; [|done].
      destruct (msg =? HTC_MSG_READY_ID).
      { destruct (htc_process_target_rdy t b hdr) eqn:E; simpl; [|done].
        intros [= <-]; by eapply target_rdy_preserves. }
      destruct (msg =? HTC_MSG_CONNECT_SERVICE_RESPONSE_ID); [|by intros [= <-]].
      destruct (htc_process_conn_rsp t b hdr) eqn:E; simpl; [|done].
      intros [= <-]; by eapply conn_rsp_preserves.
    + destruct (if bit_set _ _ then _ else _) as [data|]; simpl; [|done].
      destruct (endpoint t !! _) as [ep|]; simpl; [|done].
      case_match; by intros [= <-].
  - unfold ath9k_htc_txcompletion_cb; case_match; [by intros [= <-]|].
    case_match; [by intros [= <-]|].
    destruct (b !! 0%nat) as [epid|]; simpl; [|done].
    destruct (endpoint t !! _) as [ep|]; simpl; [|done].
    case_match; by intros [= <-].
Qed.

Lemma wait_cmd_preserves evs t t' ok :
  wf_target t -> services_unique (endpoint t) -> wait_cmd t evs = Some (t', ok) ->
  wf_target t' /\ services_unique (endpoint t').
Proof.
  revert t; induction evs as [|e evs IH]; intros t Hw Hu; simpl.
  - destruct (cmd_wait t); by intros [= <- <-].
  - destruct (cmd_wait t); [|by intros [= <- <-]].
    destruct (handle t e) as [t1|] eqn:E; simpl; [|done].
    destruct (handle_preserves _ _ _ Hw Hu E); by apply IH.
Qed.

Lemma connect_preserves env meta t req t' ret o :
  wf_target t -> services_unique (endpoint t) ->
  unregistered (endpoint t) (req_service_id req) ->
  htc_connect_service env meta t req = Some (t', ret, o) ->
  wf_target t' /\ services_unique (endpoint t').
Proof.
  intros Hw Hu Hn; unfold htc_connect_service, wf_target in *.
  destruct (get_next_avail_ep (endpoint t)) as [k|] eqn:Ek; [|by intros [= <- _ _]].
  destruct (endpoint t !! k) as [ep|] eqn:E; simpl; [|done].
  apply lookup_lt_Some in E.
  set (ep' := {| service_id := req_service_id req |}).
  assert (Hu' : services_unique (<[k := ep']> (endpoint t))).
  { apply unique_register; [done|done|]; intros i Hi Hne _; by apply Hn. }
  case_match; [intros [= <- _ _]; simpl; by rewrite length_insert|].
  destruct (htc_issue_send _ _ _ _ _ _) as [fr|]; simpl; [|done].
  case_match; [intros [= <- _ _]; simpl; by rewrite length_insert|].
  destruct (wait_cmd _ _) as [[t1 ok]|] eqn:Ew; simpl; [|done].
  apply wait_cmd_preserves in Ew; [|by unfold wf_target; simpl; rewrite length_insert|done].
  case_match; intros [= <- _ _]; done.
Qed.

Lemma init_preserves env1 env2 t t' ret :
  wf_target t -> services_unique (endpoint t) -> htc_init env1 env2 t = Some (t', ret) ->
  wf_target t' /\ services_unique (endpoint t').
Proof.
  intros Hw Hu; unfold htc_init, htc_config_pipe_credits, htc_setup_complete.
  assert (Hs : forall env t1 skb t2 r, wf_target t1 -> services_unique (endpoint t1) ->
    (fr ← htc_issue_send t1 (env_stale env) skb (Z.of_nat (length skb)) 0 ENDPOINT0;
     if negb (env_send env fr =? 0) then Some (t1, - EINVAL)
     else '(t, ok) ← wait_cmd t1 (env_events env); Some (t, if ok : bool then 0 else - ETIMEDOUT))
    = Some (t2, r) -> wf_target t2 /\ services_unique (endpoint t2)).
  { intros env t1 skb t2 r Hw1 Hu1.
    destruct (htc_issue_send _ _ _ _ _ _) as [fr|]; simpl; [|done].
    case_match; [by intros [= <- _]|].
    destruct (wait_cmd t1 _) as [[t3 ok]|] eqn:Ew; simpl; [|done].
    apply wait_cmd_preserves in Ew; [|done|done]; by intros [= <- _]. }
  destruct (env_alloc env1); cbn [negb]; [|by intros [= <- _]].
  match goal with |- (?c ≫= _) = _ -> _ => destruct c as [[t1 r1]|] eqn:E1; [|done] end.
  apply Hs in E1 as [Hw1 Hu1]; [|done|done].
  simpl; case_match; [by intros [= <- _]|].
  destruct (env_alloc env2); cbn [negb]; [|by intros [= <- _]].
  by apply Hs.
Qed.

(** ** Properties *)

(** The operations a target goes through: handler calls, the start-up
    handshake, and connections of services that are not registered yet. *)
Inductive htc_step : htc_target -> htc_target -> Prop :=
| step_event t e t' : handle t e = Some t' -> htc_step t t'
| step_init env1 env2 t t' ret : htc_init env1 env2 t = Some (t', ret) -> htc_step t t'
| step_connect env meta t req t' ret o :
    unregistered (endpoint t) (req_service_id req) ->
    htc_connect_service env meta t req = Some (t', ret, o) -> htc_step t t'.

(** In every state reachable from [ath9k_htc_hw_alloc], whatever messages
    the device sends, the endpoint table keeps its size and every service is
    registered on at most one endpoint. *)
Theorem htc_services_unique ul dl t :
  rtc htc_step (ath9k_htc_hw_alloc ul dl) t ->
  wf_target t /\ services_unique (endpoint t).
Proof.
  intros Hr; remember (ath9k_htc_hw_alloc ul dl) as t0 eqn:E0.
  assert (H0 : wf_target t0 /\ services_unique (endpoint t0)).
  { subst t0; split; [done|]; intros i j sid Hi Hj Hs (ep & He & Hep) _; exfalso.
    destruct i as [|i]; [lia|]; cbn [endpoint ath9k_htc_hw_alloc] in He.
    rewrite list_lookup_insert_ne in He by (unfold ENDPOINT0; lia).
    apply lookup_replicate_1 in He as [-> _]; by simpl in Hep. }
  clear E0; induction Hr as [t|t t1 t2 Hstep _ IH]; [done|].
  apply IH; destruct H0 as [Hw Hu]; destruct Hstep.
  - by eapply handle_preserves.
  - by eapply init_preserves.
  - by eapply connect_preserves.
Qed.

(** The device's answer to a connect request. *)
Definition conn_rsp_bytes (c0 c1 c2 c3 sid epid maxlen : Z) : list Z :=
  [0; 0; 0; 10; c0; c1; c2; c3] ++ put_be16 HTC_MSG_CONNECT_SERVICE_RESPONSE_ID ++
  put_be16 sid ++ [HTC_SERVICE_SUCCESS; epid] ++ put_be16 maxlen ++ [0; 0].

(** A message for a data endpoint, long enough to hold the header. *)
Definition data_event (e : event) : Prop :=
  match e with
  | Ev_rx b _ _ => exists epid, b !! 0%nat = Some epid /\ 0 < epid < Z.of_nat ENDPOINT_MAX /\
                   (8 <= length b)%nat
  | Ev_tx _ _ => False
  end.

#[local] Arguments handle : simpl never.

Lemma handle_data_event t e : wf_target t -> data_event e -> handle t e = Some t.
Proof.
  intros Hw He; destruct e as [b len pipe|]; [|done].
  destruct He as (epid & E0 & Hep & Hl); unfold handle, ath9k_htc_rx_msg, wf_target in *.
  rewrite E0; simpl.
  rewrite (proj2 (Z.leb_gt _ _)) by lia.
  destruct (lookup_lt_is_Some_2 b 1 ltac:(lia)) as [f E1]; rewrite E1; simpl.
  rewrite (proj2 (Z.eqb_neq _ _)) by (unfold ENDPOINT0; lia).
  destruct (lookup_lt_is_Some_2 b 4 ltac:(lia)) as [c E4]; rewrite E4; simpl.
  destruct (lookup_lt_is_Some_2 (endpoint t) (Z.to_nat epid)) as [ep Eep].
  { rewrite Hw; unfold ENDPOINT_MAX in *; lia. }
  destruct (bit_set f _); simpl; rewrite Eep; simpl; by case_match.
Qed.

Lemma wait_cmd_data t pre evs : wf_target t -> Forall data_event pre -> cmd_wait t = 0%nat ->
  wait_cmd t (pre ++ evs) = wait_cmd t evs.
Proof.
  intros Hw Hp H0; induction Hp as [|e pre He _ IH]; [done|]; simpl.
  rewrite H0, handle_data_event by done; done.
Qed.

Lemma be16_put v : is_u16 v -> Z.lor (Z.shiftl (u8 (Z.shiftr v 8)) 8) (u8 v) = v.
Proof. intros H; exact (get_put_be16 v H). Qed.

Lemma handle_conn_rsp t c0 c1 c2 c3 sid epid maxlen len pipe k tmp :
  wf_target t -> services_unique (endpoint t) -> is_u16 sid -> sid <> 0 -> is_u16 maxlen ->
  0 <= epid < Z.of_nat ENDPOINT_MAX -> (0 < k < ENDPOINT_MAX)%nat ->
  endpoint t !! k = Some tmp -> service_id tmp = sid ->
  handle t (Ev_rx (conn_rsp_bytes c0 c1 c2 c3 sid epid maxlen) len pipe) =
  Some (complete_cmd (set_conn_rsp_epid (set_endpoint t
    (<[Z.to_nat epid := {| service_id := sid; ep_callbacks := ep_callbacks tmp;
        max_txqdepth := max_txqdepth tmp; max_msglen := maxlen;
        ul_pipeid := ul_pipeid tmp; dl_pipeid := dl_pipeid tmp |}]>
     (<[k := set_service_id tmp 0]> (endpoint t)))) epid)).
Proof.
  intros Hw Hu Hs Hs0 Hm Hep Hk Ek Htmp.
  unfold handle, ath9k_htc_rx_msg, conn_rsp_bytes; simpl.
  unfold htc_process_conn_rsp; simpl; rewrite !be16_put by done.
  rewrite (find_service_at (endpoint t) sid k) by (done || by exists tmp).
  rewrite (proj2 (Nat.eqb_neq k ENDPOINT0)) by (unfold ENDPOINT0; lia).
  rewrite Ek; simpl.
  destruct (lookup_lt_is_Some_2 (<[k := set_service_id tmp 0]> (endpoint t)) (Z.to_nat epid)) as [o Eo].
  { rewrite length_insert, Hw; lia. }
  by rewrite Eo.
Qed.

(** Connecting a new service succeeds when the device accepts it: if the
    answer names endpoint [epid], the call returns 0 and [epid], that endpoint
    has the callbacks, queue depth and pipes of the request and the message
    length of the answer, the endpoint reserved for the request is free again
    and every other endpoint is untouched. *)
Theorem connect_service_success env meta t req pre len pipe c0 c1 c2 c3 epid maxlen k :
  wf_target t -> services_unique (endpoint t) ->
  unregistered (endpoint t) (req_service_id req) ->
  is_u16 (req_service_id req) -> req_service_id req <> 0 -> is_u16 maxlen ->
  0 < epid < Z.of_nat ENDPOINT_MAX -> cmd_wait t = 0%nat ->
  get_next_avail_ep (endpoint t) = Some k ->
  env_alloc env = true -> (forall fr, env_send env fr = 0) -> Forall data_event pre ->
  env_events env = pre ++
    [Ev_rx (conn_rsp_bytes c0 c1 c2 c3 (req_service_id req) epid maxlen) len pipe] ->
  exists t', htc_connect_service env meta t req = Some (t', 0, Some epid) /\
    cmd_wait t' = 0%nat /\
    endpoint t' !! Z.to_nat epid =
      Some {| service_id := req_service_id req; ep_callbacks := req_ep_callbacks req;
              max_txqdepth := req_max_send_qdepth req; max_msglen := maxlen;
              ul_pipeid := service_to_ulpipe (req_service_id req);
              dl_pipeid := service_to_dlpipe (req_service_id req) |} /\
    (k <> Z.to_nat epid -> serves (endpoint t') k 0) /\
    (forall i, i <> k -> i <> Z.to_nat epid -> endpoint t' !! i = endpoint t !! i).
Proof.
  intros Hw Hu Hn Hs Hs0 Hm Hep Hc Hk Ha Hsend Hpre Hev.
  pose proof (avail_from_spec _ _ _ Hk) as (Hkr & (ep & Eep & _) & _).
  assert (HkM : (0 < k < ENDPOINT_MAX)%nat) by (unfold ENDPOINT_MAX in *; lia).
  pose proof (lookup_lt_Some _ _ _ Eep) as Hkl.
  unfold htc_connect_service; rewrite Hk, Eep, Ha; simpl.
  set (ep' := {| service_id := req_service_id req |}).
  set (t1 := set_endpoint t (<[k := ep']> (endpoint t))).
  assert (Hw1 : wf_target t1) by (unfold wf_target, t1; simpl; by rewrite length_insert).
  assert (Hu1 : services_unique (endpoint t1)).
  { apply unique_register; [done|done|]; intros i Hi Hne _; by apply Hn. }
  destruct (lookup_lt_is_Some_2 (endpoint t1) ENDPOINT0) as [ep0 E0].
  { rewrite Hw1; unfold ENDPOINT0, ENDPOINT_MAX; lia. }
  unfold htc_issue_send; rewrite E0; simpl; rewrite Hsend, Hev; simpl.
  rewrite wait_cmd_data by done; simpl; replace (cmd_wait t) with 0%nat by done.
  assert (Ek1 : endpoint t1 !! k = Some ep') by (by apply list_lookup_insert_eq).
  rewrite (handle_conn_rsp t1 c0 c1 c2 c3 (req_service_id req) epid maxlen len pipe k ep')
    by (done || lia); simpl; eexists; split; [done|]; simpl.
  split; [by rewrite Hc|].
  rewrite list_insert_insert_eq; split; [|split].
  - rewrite list_lookup_insert_eq; [done|]; rewrite length_insert, Hw; lia.
  - intros Hne; apply serves_insert; [rewrite length_insert, Hw; lia|]; right; split; [done|].
    apply serves_insert; [done|]; left; done.
  - intros i Hi1 Hi2; by rewrite !list_lookup_insert_ne by done.
Qed.

Lemma rd_be16_some b i : (i + 1 < length b)%nat -> rd_be16 b i = Some (get_be16 b i).
Proof.
  intros H; unfold rd_be16, get_be16.
  rewrite (lookup_byte_at b i), (lookup_byte_at b (i + 1)) by lia; done.
Qed.

(** A complete connect response makes the driver access memory outside the
    22-entry endpoint table exactly when it reports success for a registered
    service and names an endpoint of 22 or more: the index sent by the device
    is not checked. *)
Theorem conn_rsp_faults_iff t b hdr :
  wf_target t -> bytes b -> (hdr + 18 <= length b)%nat ->
  htc_process_conn_rsp t b hdr = None <->
  b.[hdr + 12] = HTC_SERVICE_SUCCESS /\
  (exists i, (0 < i < ENDPOINT_MAX)%nat /\ serves (endpoint t) i (get_be16 b (hdr + 10))) /\
  Z.of_nat ENDPOINT_MAX <= b.[hdr + 13].
Proof.
  intros Hw Hb Hl; unfold htc_process_conn_rsp.
  replace (hdr + 8 + 4)%nat with (hdr + 12)%nat by lia.
  replace (hdr + 8 + 5)%nat with (hdr + 13)%nat by lia.
  replace (hdr + 8 + 2)%nat with (hdr + 10)%nat by lia.
  rewrite (lookup_byte_at b (hdr + 12)) by lia; simpl.
  destruct (Z.eqb_spec (b.[hdr + 12]) HTC_SERVICE_SUCCESS) as [Hst|Hst]; [|by split; [|intros []]].
  rewrite (lookup_byte_at b (hdr + 13)), !rd_be16_some by lia; simpl.
  pose proof (byte_at_range b (hdr + 13) Hb) as [He _].
  destruct (find_service_spec (endpoint t) (get_be16 b (hdr + 10)) (ENDPOINT_MAX - 1))
    as [[H1 ->]|[Hk (tmp & Ek & Hsv)]]; simpl.
  { split; [done|]; intros (_ & (i & Hi & Hsv) & _); exfalso.
    apply (H1 i); [unfold ENDPOINT_MAX in *; lia|done]. }
  set (k := find_service _ _ _) in *.
  rewrite (proj2 (Nat.eqb_neq k ENDPOINT0)) by (unfold ENDPOINT0; lia).
  rewrite Ek; simpl; unfold wf_target in Hw.
  destruct (_ !! Z.to_nat (b.[hdr + 13])) as [o|] eqn:Eo; simpl; split; try done.
  - intros (_ & _ & Hge); apply lookup_lt_Some in Eo; rewrite length_insert in Eo; lia.
  - intros _; apply lookup_ge_None in Eo; rewrite length_insert in Eo.
    split; [done|]; split; [|lia].
    exists k; split; [unfold ENDPOINT_MAX in *; lia|by exists tmp].
Qed.

(** The start-up handshake completes: when both control messages are
    sent, each wait is released by the transmit completion of its own
    message, the call returns 0 and leaves no flag set, no completion pending
    and the endpoint table unchanged. *)
Theorem htc_init_handshake env1 env2 t pre1 pre2 s1 s2 ok1 ok2 :
  wf_target t -> cmd_wait t = 0%nat -> htc_flags t = 0 ->
  env_alloc env1 = true -> env_alloc env2 = true ->
  (forall fr, env_send env1 fr = 0) -> (forall fr, env_send env2 fr = 0) ->
  Forall data_event pre1 -> Forall data_event pre2 ->
  env_events env1 = pre1 ++ [Ev_tx s1 ok1] -> env_events env2 = pre2 ++ [Ev_tx s2 ok2] ->
  exists t', htc_init env1 env2 t = Some (t', 0) /\ cmd_wait t' = 0%nat /\
    htc_flags t' = 0 /\ endpoint t' = endpoint t.
Proof.
  intros Hw Hc Hf Ha1 Ha2 Hs1 Hs2 Hp1 Hp2 He1 He2.
  destruct (lookup_lt_is_Some_2 (endpoint t) ENDPOINT0) as [ep0 E0].
  { rewrite Hw; unfold ENDPOINT0, ENDPOINT_MAX; lia. }
  unfold htc_init, htc_config_pipe_credits, htc_setup_complete, htc_issue_send.
  rewrite Ha1, Ha2; simpl; rewrite E0; simpl; rewrite Hs1, He1; simpl.
  rewrite wait_cmd_data by done; simpl; rewrite Hc; simpl.
  unfold handle at 1, ath9k_htc_txcompletion_cb; simpl; rewrite Hf; simpl; rewrite Hc; simpl.
  rewrite E0; simpl; rewrite Hs2, He2; simpl.
  rewrite wait_cmd_data by done; simpl.
  eexists; split; [done|]; simpl; done.
Qed.

(** On a ready message, [credit_size] is set from the control bytes of
    the frame header (offset 4), not from the message's own credit size
    (offset 12): the handler is given the header instead of the message. *)
Theorem target_rdy_credit_size t b len pipe :
  wf_target t -> bytes b -> (16 <= length b)%nat ->
  b.[0] = 0 -> bit_set (b.[1]) HTC_FLAGS_RECV_TRAILER = false ->
  get_be16 b 8 = HTC_MSG_READY_ID ->
  exists t', ath9k_htc_rx_msg t (Some b) len pipe = Some (t', Rx_freed) /\
    credit_size t' = get_be16 b 4 /\ tgt_ready t' = tgt_ready t + 1 /\
    target_wait t' = S (target_wait t).
Proof.
  intros Hw Hb Hl H0 Hf Hid; unfold ath9k_htc_rx_msg.
  rewrite (lookup_byte_at b 0), (lookup_byte_at b 1) by lia; cbn [mbind option_bind].
  rewrite H0, Hf; simpl Z.leb; cbn [mbind option_bind].
  rewrite (rd_be16_some b (0 + 8)) by lia; cbn [mbind option_bind Nat.add].
  rewrite Hid; simpl Z.eqb; cbn iota; unfold htc_process_target_rdy.
  rewrite rd_be16_some by lia; simpl.
  destruct (lookup_lt_is_Some_2 (endpoint t) ENDPOINT0) as [ep0 E0].
  { rewrite Hw; unfold ENDPOINT0, ENDPOINT_MAX; lia. }
  rewrite E0; simpl; by eexists.
Qed.

(** ** Witnesses *)

Definition demo_target : htc_target := ath9k_htc_hw_alloc 4 3.
Definition demo_req : htc_service_connreq :=
  {| req_service_id := WMI_MGMT_SVC; req_con_flags := 0; req_max_send_qdepth := 33;
     req_ep_callbacks := {| cb_priv := 1; cb_tx := Some 2; cb_rx := Some 3 |} |}.
Definition demo_env (evs : list event) : cmd_env :=
  {| env_alloc := true; env_stale := [0; 0; 0; 0]; env_send := fun _ => 0; env_events := evs |}.
Definition demo_rsp : list Z := conn_rsp_bytes 0 0 0 0 WMI_MGMT_SVC 5 1500.

Lemma demo_empty : services_unique (endpoint demo_target) /\
  unregistered (endpoint demo_target) WMI_MGMT_SVC.
Proof.
  assert (H : forall i sid, sid <> 0 -> ~ serves (endpoint demo_target) i sid).
  { intros i sid Hs (ep & He & Hep).
    destruct i as [|i]; [by injection He as <-|].
    cbn [endpoint demo_target ath9k_htc_hw_alloc] in He.
    rewrite list_lookup_insert_ne in He by (unfold ENDPOINT0; lia).
    apply lookup_replicate_1 in He as [-> _]; by simpl in Hep. }
  split; [intros i j sid _ _ Hs H1; by destruct (H i sid Hs)|intros i _; by apply H].
Qed.

Lemma htc_services_unique_witness :
  exists t, rtc htc_step demo_target t /\ serves (endpoint t) 5 WMI_MGMT_SVC /\
    services_unique (endpoint t).
Proof.
  assert (Hc : exists t', htc_connect_service (demo_env [Ev_rx demo_rsp 18 3]) [0; 0] demo_target demo_req
     = Some (t', 0, Some 5) /\ serves (endpoint t') 5 WMI_MGMT_SVC).
  { eexists; split; [vm_compute; reflexivity|]; eexists; split; reflexivity. }
  destruct Hc as (t' & Hc & Hs).
  assert (Hr : rtc htc_step (ath9k_htc_hw_alloc 4 3) t').
  { apply rtc_once; exact (step_connect _ _ demo_target demo_req t' 0 (Some 5) (proj2 demo_empty) Hc). }
  exists t'; split; [exact Hr|]; split; [exact Hs|].
  exact (proj2 (htc_services_unique 4 3 t' Hr)).
Defined.

Lemma connect_service_success_witness :
  exists t', htc_connect_service (demo_env [Ev_rx demo_rsp 18 3]) [0; 0] demo_target demo_req
    = Some (t', 0, Some 5).
Proof.
  destruct (connect_service_success (demo_env [Ev_rx demo_rsp 18 3]) [0; 0] demo_target demo_req
    [] 18 3 0 0 0 0 5 1500 21) as (t' & H & _); try reflexivity; try apply demo_empty;
    try (by_eval); try done.
  exists t'; exact H.
Defined.

Lemma conn_rsp_faults_iff_witness :
  htc_process_conn_rsp
    (set_endpoint demo_target (<[21%nat := set_service_id zero_endpoint WMI_MGMT_SVC]> (endpoint demo_target)))
    (conn_rsp_bytes 0 0 0 0 WMI_MGMT_SVC 200 1500) 0 = None.
Proof.
  apply conn_rsp_faults_iff; [reflexivity|by_eval|vm_compute; lia|].
  split; [reflexivity|]; split; [|by_eval].
  exists 21%nat; split; [by_eval|]; eexists; split; reflexivity.
Defined.

Lemma htc_init_handshake_witness :
  exists t', htc_init (demo_env [Ev_tx [0] true]) (demo_env [Ev_tx [0] true]) demo_target = Some (t', 0).
Proof.
  destruct (htc_init_handshake (demo_env [Ev_tx [0] true]) (demo_env [Ev_tx [0] true]) demo_target
    [] [] [0] [0] true true) as (t' & H & _); try reflexivity; try apply Forall_nil_2.
  exists t'; exact H.
Defined.

Lemma target_rdy_credit_size_witness :
  exists t', ath9k_htc_rx_msg demo_target
    (Some [0; 0; 0; 8; 9; 9; 0; 0; 0; 1; 0; 33; 6; 120; 9; 0]) 16 3 = Some (t', Rx_freed) /\
    credit_size t' = 9 * 256 + 9.
Proof.
  destruct (target_rdy_credit_size demo_target [0; 0; 0; 8; 9; 9; 0; 0; 0; 1; 0; 33; 6; 120; 9; 0] 16 3)
    as (t' & H & Hc & _); try reflexivity; try by_eval; try (simpl; lia).
  exists t'; split; [exact H|exact Hc].
Defined.

End HtcHst.
