(* ===== verification/Reorder.v ===== *)
(** * A-MPDU receive reordering

    [net/mac80211/rx.c]: the ring buffer that turns the frames of a block-ack
    session back into sequence order, its release timer and the block-ack
    request that moves the window.  A function that queues frames to the stack
    returns the frames it appends to [local->rx_skb_queue].  [jiffies] is an
    [unsigned long] of 64 bits; [HZ] is the configured tick rate.  Loops are
    given fuel and return [None] if it runs out; the theorems show it never
    does. *)

From Stdlib Require Import Sorted.
From S2P Require Import Prelude Ieee80211.

Module Reorder.

(** ** Data *)

Definition SEQ_MODULO : Z := 0x1000.
Definition SEQ_MASK : Z := 0xfff.
Definition IEEE80211_RX_RA_MATCH : Z := 2.
Definition IEEE80211_RX_DEFERRED_RELEASE : Z := 32.
Definition IEEE80211_SDATA_QUEUE_TYPE_FRAME : Z := 0.
Definition IEEE80211_QOS_CTL_ACK_POLICY_BLOCKACK : Z := 0x0060.

Record sk_buff := Skb { skb_data : list Z; rx_flags : Z; pkt_type : Z }.

Record tid_ampdu_rx := Tid {
  reorder_buf : list (option sk_buff);
  reorder_time : list Z;
  session_timer : option Z;
  reorder_timer : option Z;
  last_rx : Z;
  head_seq_num : Z;
  stored_mpdu_num : Z;
  ssn : Z;
  buf_size : Z;
  timeout : Z;
  dialog_token : Z }.

Definition set_head (t : tid_ampdu_rx) (h : Z) : tid_ampdu_rx :=
  Tid (reorder_buf t) (reorder_time t) (session_timer t) (reorder_timer t) (last_rx t) h
    (stored_mpdu_num t) (ssn t) (buf_size t) (timeout t) (dialog_token t).
Definition set_store (t : tid_ampdu_rx) (b : list (option sk_buff)) (n : Z) : tid_ampdu_rx :=
  Tid b (reorder_time t) (session_timer t) (reorder_timer t) (last_rx t) (head_seq_num t)
    n (ssn t) (buf_size t) (timeout t) (dialog_token t).
Definition set_time (t : tid_ampdu_rx) (ts : list Z) : tid_ampdu_rx :=
  Tid (reorder_buf t) ts (session_timer t) (reorder_timer t) (last_rx t) (head_seq_num t)
    (stored_mpdu_num t) (ssn t) (buf_size t) (timeout t) (dialog_token t).
Definition set_timer (t : tid_ampdu_rx) (tm : option Z) : tid_ampdu_rx :=
  Tid (reorder_buf t) (reorder_time t) (session_timer t) tm (last_rx t) (head_seq_num t)
    (stored_mpdu_num t) (ssn t) (buf_size t) (timeout t) (dialog_token t).
Definition set_session (t : tid_ampdu_rx) (tm : option Z) (last : Z) : tid_ampdu_rx :=
  Tid (reorder_buf t) (reorder_time t) tm (reorder_timer t) last (head_seq_num t)
    (stored_mpdu_num t) (ssn t) (buf_size t) (timeout t) (dialog_token t).

(** The sequence number of a frame: the upper twelve bits of its sequence control. *)
Definition mpdu_seq (skb : sk_buff) : Z :=
  Z.shiftr (Z.land (Ieee80211.seq_ctrl (skb_data skb)) Ieee80211.IEEE80211_SCTL_SEQ) 4.

(** ** Sequence number arithmetic *)

Definition seq_less (sq1 sq2 : Z) : bool := Z.land (sq1 - sq2) SEQ_MASK >? Z.shiftr SEQ_MODULO 1.
Definition seq_inc (sq : Z) : Z := Z.land (sq + 1) SEQ_MASK.
Definition seq_sub (sq1 sq2 : Z) : Z := Z.land (sq1 - sq2) SEQ_MASK.

(** [time_after(a, b)]: [(long)b - (long)a < 0]. *)
Definition time_after (a b : Z) : bool := 2 ^ 63 <=? u64 (b - a).

(** ** The ring buffer *)

Definition ring_index (t : tid_ampdu_rx) (sq : Z) : nat :=
  Z.to_nat (seq_sub sq (ssn t) `mod` buf_size t).

Definition slot (t : tid_ampdu_rx) (i : nat) : option sk_buff := mjoin (reorder_buf t !! i).

Definition deferred (skb : sk_buff) : sk_buff :=
  Skb (skb_data skb) (Z.lor (rx_flags skb) IEEE80211_RX_DEFERRED_RELEASE) (pkt_type skb).

Definition ieee80211_release_reorder_frame (t : tid_ampdu_rx) (index : nat)
    : tid_ampdu_rx * list sk_buff :=
  match slot t index with
  | None => (set_head t (seq_inc (head_seq_num t)), [])
  | Some skb =>
      let t' := set_store t (<[index := None]> (reorder_buf t)) (u16 (stored_mpdu_num t - 1)) in
      (set_head t' (seq_inc (head_seq_num t)), [deferred skb])
  end.

Fixpoint ieee80211_release_reorder_frames (fuel : nat) (t : tid_ampdu_rx) (head : Z)
    : option (tid_ampdu_rx * list sk_buff) :=
  if seq_less (head_seq_num t) head then
    match fuel with
    | O => None
    | S fuel =>
        let '(t1, out) := ieee80211_release_reorder_frame t (ring_index t (head_seq_num t)) in
        '(t2, out2) ← ieee80211_release_reorder_frames fuel t1 head; Some (t2, out ++ out2)
    end
  else Some (t, []).

(** The longest run of the [while] loop: one window of sequence numbers. *)
Definition SEQ_FUEL : nat := 4096.

Definition HT_RX_REORDER_BUF_TIMEOUT (HZ : Z) : Z := HZ / 10.

(** The [for] loop over the slots after the head when the head is missing:
    a final [Some j] is the [goto set_release_timer] taken at slot [j]. *)
Fixpoint timeout_scan (fuel : nat) (HZ jiffies : Z) (t : tid_ampdu_rx) (index j : nat)
    (skipped : Z) : option (tid_ampdu_rx * list sk_buff * option nat) :=
  if Nat.eqb j index then Some (t, [], None)
  else match fuel with
  | O => None
  | S fuel =>
      let next := ((j + 1) mod Z.to_nat (buf_size t))%nat in
      match slot t j with
      | None => timeout_scan fuel HZ jiffies t index next (skipped + 1)
      | Some _ =>
          if negb (skipped =? 0) &&
             negb (time_after jiffies (u64 (nth j (reorder_time t) 0 + HT_RX_REORDER_BUF_TIMEOUT HZ)))
          then Some (t, [], Some j)
          else
            let '(t1, out) := ieee80211_release_reorder_frame t j in
            let t2 := set_head t1 (Z.land (head_seq_num t1 + skipped) SEQ_MASK) in
            '(t3, out3, g) ← timeout_scan fuel HZ jiffies t2 index next 0;
            Some (t3, out ++ out3, g)
      end
  end.

(** The [while (reorder_buf[index])] loop. *)
Fixpoint release_run (fuel : nat) (t : tid_ampdu_rx) : option (tid_ampdu_rx * list sk_buff) :=
  let index := ring_index t (head_seq_num t) in
  match slot t index with
  | None => Some (t, [])
  | Some _ =>
      match fuel with
      | O => None
      | S fuel =>
          let '(t1, out) := ieee80211_release_reorder_frame t index in
          '(t2, out2) ← release_run fuel t1; Some (t2, out ++ out2)
      end
  end.

(** The last [for] loop, which looks for the first stored frame.  The bound
    is the C remainder, [-1] when [index] is 0. *)
Fixpoint first_stored (fuel : nat) (t : tid_ampdu_rx) (index : nat) (j : nat) : option nat :=
  if Z.of_nat j =? Z.rem (Z.of_nat index - 1) (buf_size t) then Some j
  else match slot t j with
  | Some _ => Some j
  | None =>
      match fuel with
      | O => None
      | S fuel => first_stored fuel t index ((j + 1) mod Z.to_nat (buf_size t))%nat
      end
  end.

(** [set_release_timer:] for slot [j]. *)
Definition set_release_timer (HZ : Z) (t : tid_ampdu_rx) (j : nat) : tid_ampdu_rx :=
  set_timer t (Some (u64 (nth j (reorder_time t) 0 + 1 + HT_RX_REORDER_BUF_TIMEOUT HZ))).

(** The rest of the function after the release loops. *)
Definition rearm (HZ : Z) (t : tid_ampdu_rx) : option tid_ampdu_rx :=
  if negb (stored_mpdu_num t =? 0) then
    let index := ring_index t (head_seq_num t) in
    j ← first_stored (Z.to_nat (buf_size t)) t index index;
    Some (set_release_timer HZ t j)
  else Some (set_timer t None).

Definition ieee80211_sta_reorder_release (HZ jiffies : Z) (t : tid_ampdu_rx)
    : option (tid_ampdu_rx * list sk_buff) :=
  let N := Z.to_nat (buf_size t) in
  let index := ring_index t (head_seq_num t) in
  if bool_decide (slot t index = None) && negb (stored_mpdu_num t =? 0) then
    '(t1, out, g) ← timeout_scan N HZ jiffies t index ((index + 1) mod N)%nat 1;
    match g with
    | Some j => Some (set_release_timer HZ t1 j, out)
    | None => t2 ← rearm HZ t1; Some (t2, out)
    end
  else
    '(t1, out) ← release_run N t;
    t2 ← rearm HZ t1; Some (t2, out).

(** What happened to the frame: consumed by the buffer, freed, or to be
    processed by the caller ([ret == false]). *)
Inductive disposition := Freed | Stored | Pass.

Definition ieee80211_sta_manage_reorder_buf (HZ jiffies : Z) (t : tid_ampdu_rx) (skb : sk_buff)
    : option (tid_ampdu_rx * list sk_buff * disposition) :=
  let mpdu_seq_num := mpdu_seq skb in
  let head := head_seq_num t in
  let N := buf_size t in
  if seq_less mpdu_seq_num head then Some (t, [], Freed)
  else
    '(t1, out) ←
      (if negb (seq_less mpdu_seq_num (u16 (head + N)))
       then ieee80211_release_reorder_frames SEQ_FUEL t (seq_inc (seq_sub mpdu_seq_num N))
       else Some (t, []));
    let index := ring_index t1 mpdu_seq_num in
    match slot t1 index with
    | Some _ => Some (t1, out, Freed)
    | None =>
        if (mpdu_seq_num =? head_seq_num t1) && (stored_mpdu_num t1 =? 0)
        then Some (set_head t1 (seq_inc (head_seq_num t1)), out, Pass)
        else
          let t2 := set_time
            (set_store t1 (<[index := Some skb]> (reorder_buf t1)) (u16 (stored_mpdu_num t1 + 1)))
            (<[index := jiffies]> (reorder_time t1)) in
          '(t3, out3) ← ieee80211_sta_reorder_release HZ jiffies t2;
          Some (t3, out ++ out3, Stored)
    end.

(** ** The receive handlers that drive the buffer *)

(** The parts of the station, interface and device state they change:
    [sta->ampdu_mlme.tid_rx], [local->rx_skb_queue], [sdata->skb_queue], the
    interface work item, and the frames given back to the allocator. *)
Record rx_state := Rx {
  tid_rx : list (option tid_ampdu_rx);
  rx_skb_queue : list sk_buff;
  sdata_skb_queue : list sk_buff;
  sdata_work : bool;
  freed : list sk_buff }.

Definition set_tid (s : rx_state) (tid : nat) (t : tid_ampdu_rx) : rx_state :=
  Rx (<[tid := Some t]> (tid_rx s)) (rx_skb_queue s) (sdata_skb_queue s) (sdata_work s) (freed s).
Definition queue_rx (s : rx_state) (out : list sk_buff) : rx_state :=
  Rx (tid_rx s) (rx_skb_queue s ++ out) (sdata_skb_queue s) (sdata_work s) (freed s).
Definition kfree_rx (s : rx_state) (skb : sk_buff) : rx_state :=
  Rx (tid_rx s) (rx_skb_queue s) (sdata_skb_queue s) (sdata_work s) (freed s ++ [skb]).

(** The session a frame belongs to: [None] is [goto dont_reorder]. *)
Definition reorder_session (s : rx_state) (has_sta : bool) (skb : sk_buff)
    : option (nat * tid_ampdu_rx) :=
  let hdr := skb_data skb in
  let fc := Ieee80211.frame_control hdr in
  let qos := hdr.[Ieee80211.ieee80211_get_qos_ctl hdr] in
  let ack_policy := Z.land qos Ieee80211.IEEE80211_QOS_CTL_ACK_POLICY_MASK in
  let tid := Z.to_nat (Z.land qos Ieee80211.IEEE80211_QOS_CTL_TID_MASK) in
  if negb (Ieee80211.ieee80211_is_data_qos fc) then None
  else if negb has_sta then None
  else t ← mjoin (tid_rx s !! tid);
  if bit_set fc Ieee80211.IEEE80211_STYPE_NULLFUNC then None
  else if negb (ack_policy =? IEEE80211_QOS_CTL_ACK_POLICY_BLOCKACK) &&
          negb (ack_policy =? Ieee80211.IEEE80211_QOS_CTL_ACK_POLICY_NORMAL) then None
  else if negb (bit_set (rx_flags skb) IEEE80211_RX_RA_MATCH) then None
  else Some (tid, t).

Definition ieee80211_rx_reorder_ampdu (HZ jiffies : Z) (s : rx_state) (has_sta : bool)
    (skb : sk_buff) : option rx_state :=
  match reorder_session s has_sta skb with
  | None => Some (queue_rx s [skb])
  | Some (tid, t) =>
      let t := if timeout t =? 0 then t else set_session t (session_timer t) jiffies in
      if bit_set (Ieee80211.seq_ctrl (skb_data skb)) Ieee80211.IEEE80211_SCTL_FRAG then
        let s := set_tid s tid t in
        Some (Rx (tid_rx s) (rx_skb_queue s)
          (sdata_skb_queue s ++ [Skb (skb_data skb) (rx_flags skb) IEEE80211_SDATA_QUEUE_TYPE_FRAME])
          true (freed s))
      else
        '(t', out, d) ← ieee80211_sta_manage_reorder_buf HZ jiffies t skb;
        let s' := queue_rx (set_tid s tid t') out in
        Some (match d with
              | Freed => kfree_rx s' skb
              | Stored => s'
              | Pass => queue_rx s' [skb]
              end)
  end.

Inductive ieee80211_rx_result := RX_CONTINUE | RX_DROP_MONITOR | RX_QUEUED.

Definition off_bar_control : nat := 16.
Definition off_bar_start_seq_num : nat := 18.
Definition sizeof_ieee80211_bar : nat := 20.

(** [usecs_to_jiffies] is the kernel's. *)
Definition ieee80211_rx_h_ctrl (usecs_to_jiffies : Z -> Z) (jiffies : Z) (s : rx_state)
    (has_sta : bool) (skb : sk_buff) : option (rx_state * ieee80211_rx_result) :=
  let bar := skb_data skb in
  let fc := Ieee80211.frame_control bar in
  if negb (Ieee80211.ieee80211_is_ctl fc) then Some (s, RX_CONTINUE)
  else if Ieee80211.ieee80211_is_back_req fc then
    if negb has_sta then Some (s, RX_DROP_MONITOR)
    else if Nat.ltb (length bar) sizeof_ieee80211_bar then Some (s, RX_DROP_MONITOR)
    else
      let tid := Z.to_nat (Z.shiftr (get_le16 bar off_bar_control) 12) in
      match mjoin (tid_rx s !! tid) with
      | None => Some (s, RX_DROP_MONITOR)
      | Some t =>
          let start_seq_num := Z.shiftr (get_le16 bar off_bar_start_seq_num) 4 in
          let t := if timeout t =? 0 then t else
            set_session t (Some (u64 (jiffies + usecs_to_jiffies (timeout t * 1024)))) (last_rx t) in
          '(t', out) ← ieee80211_release_reorder_frames SEQ_FUEL t start_seq_num;
          Some (kfree_rx (queue_rx (set_tid s tid t') out) skb, RX_QUEUED)
      end
  else Some (s, RX_DROP_MONITOR).

(** Up to the call of [ieee80211_rx_handlers], which drains [rx_skb_queue]. *)
Definition ieee80211_release_reorder_timeout (HZ jiffies : Z) (s : rx_state) (tid : nat)
    : option rx_state :=
  match mjoin (tid_rx s !! tid) with
  | None => Some s
  | Some t =>
      '(t', out) ← ieee80211_sta_reorder_release HZ jiffies t;
      Some (queue_rx (set_tid s tid t') out)
  end.

(** One session under an arbitrary sequence of arrivals, timer expiries and
    block-ack requests: the frames queued to the stack and the frames freed. *)
Inductive rx_event :=
| EvFrame (jiffies : Z) (skb : sk_buff)
| EvTimer (jiffies : Z)
| EvBar (start_seq_num : Z).

Definition passed (d : disposition) (skb : sk_buff) : list sk_buff :=
  match d with Pass => [skb] | _ => [] end.
Definition dropped (d : disposition) (skb : sk_buff) : list sk_buff :=
  match d with Freed => [skb] | _ => [] end.

Definition rx_step (HZ : Z) (t : tid_ampdu_rx) (e : rx_event)
    : option (tid_ampdu_rx * list sk_buff * list sk_buff) :=
  match e with
  | EvFrame jiffies skb =>
      '(t', out, d) ← ieee80211_sta_manage_reorder_buf HZ jiffies t skb;
      Some (t', out ++ passed d skb, dropped d skb)
  | EvTimer jiffies =>
      '(t', out) ← ieee80211_sta_reorder_release HZ jiffies t; Some (t', out, [])
  | EvBar start_seq_num =>
      '(t', out) ← ieee80211_release_reorder_frames SEQ_FUEL t start_seq_num; Some (t', out, [])
  end.

Fixpoint rx_run (HZ : Z) (t : tid_ampdu_rx) (es : list rx_event)
    : option (tid_ampdu_rx * list sk_buff * list sk_buff) :=
  match es with
  | [] => Some (t, [], [])
  | e :: es =>
      '(t1, out1, fr1) ← rx_step HZ t e;
      '(t2, out2, fr2) ← rx_run HZ t1 es;
      Some (t2, out1 ++ out2, fr1 ++ fr2)
  end.

Definition arrivals (es : list rx_event) : list sk_buff :=
  omap (fun e => match e with EvFrame _ skb => Some skb | _ => None end) es.

(** Absolute sequence numbers, counted from the absolute number [H] of the
    head.  A frame released by an event is numbered by its distance from the
    head before the event, and the head by how far the event moves it; both
    distances are taken modulo 4096. *)
Definition ahead (t : tid_ampdu_rx) (skb : sk_buff) : Z := (mpdu_seq skb - head_seq_num t) mod SEQ_MODULO.
Definition advance (t t' : tid_ampdu_rx) : Z := (head_seq_num t' - head_seq_num t) mod SEQ_MODULO.

Fixpoint rx_numbers (HZ : Z) (t : tid_ampdu_rx) (H : Z) (es : list rx_event) : list Z :=
  match es with
  | [] => []
  | e :: es =>
      match rx_step HZ t e with
      | Some (t', out, _) => ((fun skb => H + ahead t skb) <$> out) ++ rx_numbers HZ t' (H + advance t t') es
      | None => []
      end
  end.
Fixpoint rx_heads (HZ : Z) (t : tid_ampdu_rx) (H : Z) (es : list rx_event) : list Z :=
  H :: match es with
       | [] => []
       | e :: es => match rx_step HZ t e with Some (t', _, _) => rx_heads HZ t' (H + advance t t') es | None => [] end
       end.

(** ** The window invariant

    The twelve-bit numbers the code keeps stand for absolute sequence numbers:
    [H] is the absolute number of the head.  The slot of an absolute number [h]
    is [(h - ssn) mod buf_size], which is what the code computes from the
    truncated number when [buf_size] divides 4096. *)

Definition cell (t : tid_ampdu_rx) (h : Z) : option sk_buff :=
  slot t (Z.to_nat ((h - ssn t) mod buf_size t)).

Definition stored (t : tid_ampdu_rx) : list sk_buff := omap id (reorder_buf t).

(** A ring size for which the twelve-bit slot computation is sound. *)
Definition ring_size (N : Z) : Prop := 2 <= N <= 1024 /\ 4096 mod N = 0.

#[global] Instance ring_size_dec N : Decision (ring_size N).
Proof. unfold ring_size; apply _. Defined.

Record window (t : tid_ampdu_rx) (H : Z) : Prop := {
  w_size : ring_size (buf_size t);
  w_buf : length (reorder_buf t) = Z.to_nat (buf_size t);
  w_time : length (reorder_time t) = Z.to_nat (buf_size t);
  w_head : head_seq_num t = H mod 4096;
  w_stored : stored_mpdu_num t = Z.of_nat (length (stored t));
  w_seq : forall h f, H <= h < H + buf_size t -> cell t h = Some f -> mpdu_seq f = h mod 4096 }.

(** [delivered H out H']: [out] is a subsequence of one frame for each absolute
    number from [H] up to [H'], in that order. *)
Inductive delivered : Z -> list sk_buff -> Z -> Prop :=
| delivered_nil H : delivered H [] H
| delivered_skip H out H' : delivered (H + 1) out H' -> delivered H out H'
| delivered_frame H f out H' :
    mpdu_seq f = H mod 4096 -> delivered (H + 1) out H' -> delivered H (f :: out) H'.

Lemma delivered_app H out H1 out' H' :
  delivered H out H1 -> delivered H1 out' H' -> delivered H (out ++ out') H'.
Proof. induction 1; intros; simpl; [done | by apply delivered_skip; auto | by apply delivered_frame; auto]. Qed.

Lemma delivered_gap H H' : H <= H' -> delivered H [] H'.
Proof.
  intros Hle; replace H' with (H + Z.of_nat (Z.to_nat (H' - H))) by lia.
  generalize (Z.to_nat (H' - H)) as n; clear; intros n; revert H.
  induction n as [|n IH]; intros H; [rewrite Z.add_0_r; constructor|].
  apply delivered_skip; replace (H + Z.of_nat (S n)) with (H + 1 + Z.of_nat n) by lia; apply IH.
Qed.

Lemma delivered_le H out H' : delivered H out H' -> H <= H'.
Proof. induction 1; lia. Qed.

Lemma land_seq_mask z : Z.land z SEQ_MASK = z mod 4096.
Proof. by apply (Z.land_ones z 12). Qed.

Lemma seq_inc_mod z : seq_inc (z mod 4096) = (z + 1) mod 4096.
Proof. unfold seq_inc; rewrite land_seq_mask; arith. Qed.

Lemma seq_less_spec a b : seq_less a b = (2048 <? (a - b) mod 4096).
Proof. unfold seq_less; rewrite land_seq_mask, Z.gtb_ltb; done. Qed.

Lemma mod_mod_divide z N : 0 < N -> 4096 mod N = 0 -> (z mod 4096) mod N = z mod N.
Proof.
  intros HN Hd; rewrite (Z.div_mod z 4096) at 2 by lia.
  rewrite (Z.div_mod 4096 N) at 2 by lia; rewrite Hd, Z.add_0_r.
  rewrite <- Z.mul_assoc, (Z.mul_comm N), Z.add_comm, Z.mod_add by lia; done.
Qed.

Lemma ring_index_slot t h : 0 < buf_size t -> 4096 mod buf_size t = 0 ->
  ring_index t (h mod 4096) = Z.to_nat ((h - ssn t) mod buf_size t).
Proof.
  intros HN Hd; unfold ring_index, seq_sub; rewrite land_seq_mask.
  rewrite mod_mod_divide by done; f_equal.
  rewrite Zminus_mod, mod_mod_divide, <- Zminus_mod by done; done.
Qed.

(** Two numbers of one window share a slot only when they are equal. *)
Lemma slot_inj t h h' : 0 < buf_size t -> Z.abs (h - h') < buf_size t ->
  (h - ssn t) mod buf_size t = (h' - ssn t) mod buf_size t -> h = h'.
Proof.
  intros HN Hlt E.
  rewrite (Z.mod_eq (h - _)), (Z.mod_eq (h' - _)) in E by lia.
  set (a := (h - ssn t) / buf_size t) in *; set (b := (h' - ssn t) / buf_size t) in *.
  assert (a = b) by nia; nia.
Qed.

Lemma omap_delete (b : list (option sk_buff)) i f : b !! i = Some (Some f) ->
  omap id b ≡ₚ f :: omap id (<[i := None]> b).
Proof.
  intros E; assert (Hl : (i < length b)%nat) by (eapply lookup_lt_Some, E).
  rewrite <- (take_drop_middle b i (Some f) E) at 1.
  rewrite insert_take_drop by done.
  rewrite !omap_app; simpl; by rewrite Permutation_middle.
Qed.

Lemma omap_insert (b : list (option sk_buff)) i f : b !! i = Some None ->
  omap id (<[i := Some f]> b) ≡ₚ f :: omap id b.
Proof.
  intros E; assert (Hl : (i < length b)%nat) by (eapply lookup_lt_Some, E).
  rewrite <- (take_drop_middle b i None E) at 2.
  rewrite insert_take_drop by done.
  rewrite !omap_app; simpl; by rewrite Permutation_middle.
Qed.

Lemma length_omap_id (b : list (option sk_buff)) : (length (omap id b) <= length b)%nat.
Proof. induction b as [|[] b IH]; csimpl; lia. Qed.

Lemma slot_Some t i f : slot t i = Some f -> reorder_buf t !! i = Some (Some f).
Proof. unfold slot; by destruct (reorder_buf t !! i) as [[]|]; simpl; intros; simplify_eq. Qed.

Lemma slot_None t i : slot t i = None -> (i < length (reorder_buf t))%nat ->
  reorder_buf t !! i = Some None.
Proof.
  unfold slot; intros E Hl; apply lookup_lt_is_Some in Hl as [x Hx].
  rewrite Hx in E; simpl in E; by subst.
Qed.

Lemma cell_range t h : 0 < buf_size t -> length (reorder_buf t) = Z.to_nat (buf_size t) ->
  (Z.to_nat ((h - ssn t) mod buf_size t) < length (reorder_buf t))%nat.
Proof. intros HN ->; pose proof (Z.mod_pos_bound (h - ssn t) (buf_size t)); lia. Qed.

(** The fields no release changes. *)
Definition params (t : tid_ampdu_rx) :=
  (reorder_time t, (session_timer t, reorder_timer t), (last_rx t, timeout t, dialog_token t),
   ssn t, buf_size t).

(** What any number of releases does: from [t] with head [H] to [t'] with
    head [H'], queueing [out]. *)
Record released (t : tid_ampdu_rx) (H : Z) (t' : tid_ampdu_rx) (H' : Z) (out : list sk_buff)
    : Prop := {
  r_window : window t' H';
  r_delivered : delivered H out H';
  r_conserved : skb_data <$> stored t ≡ₚ (skb_data <$> out) ++ (skb_data <$> stored t');
  r_params : params t' = params t;
  r_cells : forall h, H' <= h < H + buf_size t -> cell t' h = cell t h }.

Lemma released_refl t H : window t H -> released t H t H [].
Proof. intros; split; [done | constructor | done | done | done]. Qed.

Lemma released_trans t H t1 H1 out1 t2 H2 out2 :
  released t H t1 H1 out1 -> released t1 H1 t2 H2 out2 -> released t H t2 H2 (out1 ++ out2).
Proof.
  intros [W1 D1 C1 P1 L1] [W2 D2 C2 P2 L2].
  pose proof (delivered_le _ _ _ D1); pose proof (delivered_le _ _ _ D2).
  assert (buf_size t1 = buf_size t) by (unfold params in P1; by simplify_eq).
  split; [done | by eapply delivered_app | | congruence |].
  - by rewrite C1, C2, fmap_app, app_assoc.
  - intros h Hh; rewrite L2, L1 by lia; done.
Qed.

Lemma cell_period t h : 0 < buf_size t -> cell t (h - buf_size t) = cell t h.
Proof.
  intros; unfold cell.
  replace (h - ssn t) with (h - buf_size t - ssn t + 1 * buf_size t) by lia.
  by rewrite Z.mod_add by lia.
Qed.

(** Empty slots at the start of the window stay empty at its new end. *)
Lemma w_seq_ext t H k h f : window t H -> k <= buf_size t ->
  (forall h, H <= h < H + k -> cell t h = None) ->
  H <= h < H + k + buf_size t -> cell t h = Some f -> mpdu_seq f = h mod 4096.
Proof.
  intros Hw Hk He Hr E; destruct (decide (h < H + buf_size t)).
  - apply (w_seq _ _ Hw); [lia | done].
  - rewrite <- cell_period in E by (destruct (w_size _ _ Hw); lia).
    rewrite He in E by lia; done.
Qed.

(** Releasing the slot [k] places after the head when the slots before it are
    empty, and moving the head past it. *)
Lemma release_at t H k : window t H -> 0 <= k < buf_size t ->
  (forall h, H <= h < H + k -> cell t h = None) ->
  let r := ieee80211_release_reorder_frame t (Z.to_nat ((H + k - ssn t) mod buf_size t)) in
  released t H (set_head r.1 (Z.land (head_seq_num r.1 + k) SEQ_MASK)) (H + k + 1) r.2 /\
  r.2 = deferred <$> option_list (cell t (H + k)).
Proof.
  intros Hw Hk He r; pose proof Hw as [Hs Hb Ht Hh Hn Hq]; unfold r, ieee80211_release_reorder_frame; clear r.
  assert (HN : 0 < buf_size t) by (destruct Hs; lia).
  fold (cell t (H + k)).
  assert (Hhead : Z.land (seq_inc (head_seq_num t) + k) SEQ_MASK = (H + k + 1) mod 4096).
  { rewrite Hh, seq_inc_mod, land_seq_mask; arith. }
  destruct (cell t (H + k)) as [f|] eqn:E; simpl; split; try done.
  - set (i := Z.to_nat ((H + k - ssn t) mod buf_size t)).
    assert (Ei : reorder_buf t !! i = Some (Some f)) by by apply slot_Some.
    assert (Hc : forall h, H + k + 1 <= h < H + k + 1 + buf_size t ->
      mjoin (<[i := None]> (reorder_buf t) !! Z.to_nat ((h - ssn t) mod buf_size t)) =
      if decide (h < H + k + buf_size t) then cell t h else None).
    { intros h Hr; unfold cell, slot.
      pose proof (Z.mod_pos_bound (h - ssn t) _ HN); pose proof (Z.mod_pos_bound (H + k - ssn t) _ HN).
      destruct (decide _) as [Hlt|Hge].
      - rewrite list_lookup_insert_ne; [done|]; subst i; intros Heq.
        assert (h = H + k); [|lia]. apply (slot_inj t); lia.
      - replace (h - ssn t) with (H + k - ssn t + 1 * buf_size t) by lia.
        rewrite Z.mod_add by lia; fold i.
        rewrite list_lookup_insert_eq; [done | by eapply lookup_lt_Some]. }
    split; simpl.
    + split; simpl; try done; [by rewrite length_insert | |].
      * pose proof (Permutation_length (omap_delete _ i f Ei)) as Hl; simpl in Hl.
        pose proof (length_omap_id (reorder_buf t)); destruct Hs as [Hs _].
        rewrite Hn, u16_mod; unfold stored; simpl; rewrite Hl, Z.mod_small; lia.
      * intros h f' Hr; unfold cell, slot; simpl; rewrite Hc by done.
        destruct (decide _); [|done]; apply (w_seq_ext t H k); [done | lia | done | lia].
    + eapply (delivered_app _ [] _ [_]); [apply (delivered_gap _ (H + k)); lia|].
      apply delivered_frame; [|constructor]. apply (Hq (H + k) f); [lia | done].
    + unfold stored; simpl; by rewrite (omap_delete _ i f Ei).
    + done.
    + intros h Hr; unfold cell at 1, slot at 1; simpl; rewrite Hc, decide_True by lia; done.
  - split; simpl; try done; [|apply delivered_gap; lia].
    split; simpl; try done. intros h f' Hr; change (cell t h = Some f' -> mpdu_seq f' = h mod 4096).
    apply (w_seq_ext t H (k + 1)); [done | lia | | lia].
    intros h' Hr'; destruct (decide (h' = H + k)) as [->|]; [done | apply He; lia].
Qed.

Lemma set_head_id t : set_head t (head_seq_num t) = t.
Proof. by destruct t. Qed.

Lemma params_ring t t' : params t' = params t ->
  buf_size t' = buf_size t /\ ssn t' = ssn t /\ reorder_time t' = reorder_time t.
Proof. unfold params; intros; simplify_eq; done. Qed.

Lemma window_ring_index t H : window t H ->
  ring_index t (head_seq_num t) = Z.to_nat ((H - ssn t) mod buf_size t).
Proof.
  intros Hw; rewrite (w_head _ _ Hw); destruct (w_size _ _ Hw) as [? Hd].
  apply ring_index_slot; [lia | done].
Qed.

Lemma release_head t H : window t H ->
  let r := ieee80211_release_reorder_frame t (ring_index t (head_seq_num t)) in
  released t H r.1 (H + 1) r.2 /\ r.2 = deferred <$> option_list (cell t H).
Proof.
  intros Hw r.
  destruct (release_at t H 0) as [Hr Ho]; [done | destruct (w_size _ _ Hw); lia | intros; lia |].
  rewrite !Z.add_0_r, <- window_ring_index in Hr, Ho by done; fold r in Hr, Ho.
  split; [|done].
  assert (E : Z.land (head_seq_num r.1) SEQ_MASK = head_seq_num r.1).
  { rewrite land_seq_mask; subst r; unfold ieee80211_release_reorder_frame, seq_inc.
    destruct (slot t _); simpl; rewrite land_seq_mask; arith. }
  by rewrite Z.add_0_r, E, set_head_id in Hr.
Qed.

(** Advancing the head to a number [d] places ahead, [d] at most 2047. *)
Lemma release_frames_spec fuel t H d T : window t H -> 0 <= d <= 2047 ->
  T mod 4096 = (H + d) mod 4096 -> d <= Z.of_nat fuel ->
  exists t' out, ieee80211_release_reorder_frames fuel t T = Some (t', out) /\
    released t H t' (H + d) out.
Proof.
  revert t H d; induction fuel as [|fuel IH]; intros t H d Hw Hd HT Hf; simpl.
  all: rewrite seq_less_spec, (w_head _ _ Hw).
  all: destruct (Z.ltb_spec 2048 ((H mod 4096 - T) mod 4096)) as [Hlt|Hge].
  2, 4: assert (d = 0) as -> by arith; exists t, []; rewrite Z.add_0_r; split; [done|];
    by apply released_refl.
  - exfalso; arith.
  - rewrite <- (w_head _ _ Hw).
    destruct (release_head t H Hw) as [Hr _].
    destruct (ieee80211_release_reorder_frame t _) as [t1 out1]; simpl in Hr.
    destruct (IH t1 (H + 1) (d - 1)) as (t2 & out2 & E & Hr2);
      [by apply (r_window _ _ _ _ _ Hr) | arith | rewrite HT; f_equal; lia | arith |].
    rewrite E; simpl; exists t2, (out1 ++ out2); split; [done|].
    replace (H + d) with (H + 1 + (d - 1)) by lia; by eapply released_trans.
Qed.

(** A target outside the forward half of the sequence space moves nothing. *)
Lemma release_frames_noop fuel t H d T : window t H -> 2048 <= d <= 4096 ->
  T mod 4096 = (H + d) mod 4096 ->
  ieee80211_release_reorder_frames fuel t T = Some (t, []).
Proof.
  intros Hw Hd HT; destruct fuel; simpl; rewrite seq_less_spec, (w_head _ _ Hw).
  all: by destruct (Z.ltb_spec 2048 ((H mod 4096 - T) mod 4096)); [exfalso; arith|].
Qed.

#[local] Arguments ieee80211_release_reorder_frames : simpl never.

Lemma released_length t H t' H' out : released t H t' H' out ->
  length (stored t) = (length out + length (stored t'))%nat.
Proof.
  intros Hr; pose proof (Permutation_length (r_conserved _ _ _ _ _ Hr)) as E.
  by rewrite length_app, !length_fmap in E.
Qed.

Lemma release_run_spec fuel t H : window t H -> (length (stored t) <= fuel)%nat ->
  exists t' out H', release_run fuel t = Some (t', out) /\ released t H t' H' out /\
    H' = H + Z.of_nat (length out) /\
    cell t' H' = None /\ forall f, cell t H = Some f -> exists rest, out = deferred f :: rest.
Proof.
  revert t H; induction fuel as [|fuel IH]; intros t H Hw Hl; simpl.
  all: rewrite (window_ring_index _ _ Hw); fold (cell t H).
  all: destruct (cell t H) as [f|] eqn:E.
  2, 4: exists t, [], H; split_and!; [done | by apply released_refl | simpl; lia | done | done].
  all: destruct (release_head t H Hw) as [Hr Ho]; rewrite (window_ring_index _ _ Hw) in Hr, Ho.
  all: rewrite E in Ho; simpl in Ho; pose proof (released_length _ _ _ _ _ Hr) as Hlen.
  all: rewrite Ho in Hlen; simpl in Hlen.
  1: lia.
  destruct (ieee80211_release_reorder_frame t _) as [t1 out1]; simpl in *; subst out1.
  destruct (IH t1 (H + 1)) as (t2 & out2 & H2 & E2 & Hr2 & Hn2 & Hc & _);
    [by apply (r_window _ _ _ _ _ Hr) | lia |].
  rewrite E2; simpl; exists t2, (deferred f :: out2), H2; split_and!; [done | | simpl; lia | done |].
  - by apply (released_trans _ _ _ _ [deferred f] _ _ _ Hr).
  - intros f' Hf; simplify_eq; eauto.
Qed.

Local Abbreviation idx t h := (Z.to_nat ((h - ssn t) mod buf_size t)).

Lemma idx_next t h : 0 < buf_size t ->
  ((idx t h + 1) mod Z.to_nat (buf_size t))%nat = idx t (h + 1).
Proof.
  intros HN; apply Nat2Z.inj.
  pose proof (Z.mod_pos_bound (h - ssn t) _ HN); pose proof (Z.mod_pos_bound (h + 1 - ssn t) _ HN).
  rewrite Nat2Z.inj_mod, Nat2Z.inj_add, !Z2Nat.id by lia.
  change (Z.of_nat 1) with 1; rewrite Zplus_mod_idemp_l; f_equal; lia.
Qed.

Lemma idx_inj t h h' : 0 < buf_size t -> Z.abs (h - h') < buf_size t -> idx t h = idx t h' -> h = h'.
Proof.
  intros HN Hlt E; apply (slot_inj t); [done.. |].
  pose proof (Z.mod_pos_bound (h - ssn t) _ HN); pose proof (Z.mod_pos_bound (h' - ssn t) _ HN); lia.
Qed.

Lemma idx_period t h : 0 < buf_size t -> idx t (h + buf_size t) = idx t h.
Proof.
  intros; replace (h + buf_size t - ssn t) with (h - ssn t + 1 * buf_size t) by lia.
  by rewrite Z.mod_add by lia.
Qed.

Lemma idx_params t t' h : params t' = params t -> idx t' h = idx t h.
Proof. by intros (-> & -> & _)%params_ring. Qed.

(** [h] is the first number of the window from [H] with a stored frame. *)
Definition first_cell (t : tid_ampdu_rx) (H h : Z) (f : sk_buff) : Prop :=
  H <= h < H + buf_size t /\ cell t h = Some f /\ forall h', H <= h' < h -> cell t h' = None.

(** The frame in the slot of [h] has waited longer than the timeout. *)
Definition timed_out (HZ jiffies : Z) (t : tid_ampdu_rx) (h : Z) : bool :=
  time_after jiffies (u64 (nth (idx t h) (reorder_time t) 0 + HT_RX_REORDER_BUF_TIMEOUT HZ)).

Lemma timeout_scan_spec fuel HZ jiffies t H H0 k : window t H ->
  H0 <= H -> H0 < H + k <= H0 + buf_size t -> 0 <= k -> H0 + buf_size t - (H + k) <= Z.of_nat fuel ->
  (forall h, H <= h < H + k -> cell t h = None) ->
  exists t' out g H', timeout_scan fuel HZ jiffies t (idx t H0) (idx t (H + k)) k = Some (t', out, g) /\
    released t H t' H' out /\ H' <= H0 + buf_size t /\
    forall j, g = Some j -> exists h f, j = idx t' h /\ first_cell t' H' h f /\ H' < h.
Proof.
  revert t H k; induction fuel as [|fuel IH]; intros t H k Hw HH Hm Hk Hf He.
  all: assert (HN : 0 < buf_size t) by (destruct (w_size _ _ Hw); lia).
  all: simpl; destruct (Nat.eqb_spec (idx t (H + k)) (idx t H0)) as [Ej|Ej].
  1, 3: exists t, [], None, H; split_and!; [done | by apply released_refl | lia | done].
  - replace (H + k) with (H0 + buf_size t) in Ej by lia; by rewrite idx_period in Ej.
  - assert (H + k <> H0 + buf_size t) by (intros E; rewrite E, idx_period in Ej; done).
    fold (cell t (H + k)); rewrite idx_next by done.
    destruct (cell t (H + k)) as [f|] eqn:E.
    2: { replace (H + k + 1) with (H + (k + 1)) by lia; apply IH; try done; try lia.
      intros h Hh; destruct (decide (h = H + k)) as [->|]; [done | apply He; lia]. }
    destruct (negb (k =? 0) && _) eqn:Eg.
    { exists t, [], (Some (idx t (H + k))), H; split_and!; [done | by apply released_refl | lia |].
      intros j Hj; simplify_eq; exists (H + k), f; split_and!; [done | | lia].
      split_and!; [lia.. | done | done]. }
    destruct (release_at t H k) as [Hr _]; [done | lia | done |].
    destruct (ieee80211_release_reorder_frame t _) as [t1 out1]; simpl in Hr.
    set (t2 := set_head t1 _) in *.
    pose proof (r_params _ _ _ _ _ Hr) as Hp; pose proof (params_ring _ _ Hp) as (Hps & _ & _).
    destruct (IH t2 (H + k + 1) 0) as (t' & out' & g & H' & E' & Hr' & Hb' & Hg);
      [by apply (r_window _ _ _ _ _ Hr) | lia.. | intros; lia |].
    rewrite !(idx_params _ _ _ Hp), Z.add_0_r in E'; rewrite E'; simpl.
    exists t', (out1 ++ out'), g, H'; split_and!; [done | by eapply released_trans | lia | done].
Qed.

(** The scan up to the first stored frame, and what it does there. *)
Lemma timeout_scan_first HZ jiffies t H h f fuel k : window t H -> first_cell t H h f ->
  1 <= k <= h - H -> h - (H + k) < Z.of_nat fuel ->
  if timed_out HZ jiffies t h then
    forall t' out g, timeout_scan fuel HZ jiffies t (idx t H) (idx t (H + k)) k = Some (t', out, g) ->
      exists rest, out = deferred f :: rest
  else timeout_scan fuel HZ jiffies t (idx t H) (idx t (H + k)) k = Some (t, [], Some (idx t h)).
Proof.
  intros Hw (Hr & Ef & He); revert k; induction fuel as [|fuel IH]; intros k Hk Hf; [lia|].
  assert (HN : 0 < buf_size t) by (destruct (w_size _ _ Hw); lia).
  simpl; destruct (Nat.eqb_spec (idx t (H + k)) (idx t H)) as [Ej|Ej].
  { apply idx_inj in Ej; [lia | done | lia]. }
  fold (cell t (H + k)); rewrite idx_next by done.
  destruct (decide (H + k = h)) as [->|Hne].
  - rewrite Ef; destruct (Z.eqb_spec k 0) as [|_]; [lia|]; simpl.
    unfold timed_out at 1; destruct (time_after _ _) eqn:Et; simpl; [|done].
    intros t' out g; unfold ieee80211_release_reorder_frame; fold (cell t h); rewrite Ef.
    destruct (timeout_scan _ _ _ _ _ _ _) as [[[t3 out3] g3]|]; simpl; intros; simplify_eq; eauto.
  - rewrite He by lia; replace (H + k + 1) with (H + (k + 1)) by lia; apply IH; lia.
Qed.

Lemma first_cell_search t H n : 0 <= n <= buf_size t ->
  (forall h, H <= h < H + n -> cell t h = None) \/ exists h f, first_cell t H h f.
Proof.
  intros [H0 Hn]; revert n H0 Hn; apply (natlike_ind (fun n => n <= buf_size t -> _)).
  - intros _; left; intros; lia.
  - intros n H0 IH Hn; destruct IH as [He|?]; [lia | | by right].
    destruct (cell t (H + n)) as [f|] eqn:E.
    + right; exists (H + n), f; split_and!; [lia.. | done | done].
    + left; intros h Hh; destruct (decide (h = H + n)) as [->|]; [done | apply He; lia].
Qed.

Lemma idx_surj t H i : 0 < buf_size t -> (i < Z.to_nat (buf_size t))%nat ->
  exists h, H <= h < H + buf_size t /\ idx t h = i.
Proof.
  intros HN Hi; exists (H + (Z.of_nat i + ssn t - H) mod buf_size t).
  pose proof (Z.mod_pos_bound (Z.of_nat i + ssn t - H) _ HN); split; [lia|].
  replace (H + _ - ssn t) with ((Z.of_nat i + ssn t - H) mod buf_size t + (H - ssn t)) by lia.
  rewrite Zplus_mod_idemp_l; replace (_ + _) with (Z.of_nat i) by lia.
  rewrite Z.mod_small; lia.
Qed.

Lemma omap_None (b : list (option sk_buff)) : Forall (fun o => o = None) b -> omap id b = [].
Proof. induction 1 as [|? ? -> _ IH]; [done | by csimpl]. Qed.

Lemma first_cell_exists t H : window t H -> stored_mpdu_num t <> 0 -> exists h f, first_cell t H h f.
Proof.
  intros Hw Hs; destruct (first_cell_search t H (buf_size t)) as [He|]; [ | | done].
  { destruct (w_size _ _ Hw); lia. }
  exfalso; apply Hs; rewrite (w_stored _ _ Hw); unfold stored; rewrite omap_None; [done|].
  apply Forall_lookup_2; intros i x Hx.
  assert (Hi : (i < length (reorder_buf t))%nat) by (eapply lookup_lt_Some, Hx).
  rewrite (w_buf _ _ Hw) in Hi.
  destruct (idx_surj t H i) as (h & Hh & Ei); [destruct (w_size _ _ Hw); lia | done |].
  specialize (He h Hh); unfold cell, slot in He; by rewrite Ei, Hx in He.
Qed.

Lemma first_stored_spec fuel t H h f h' : window t H -> first_cell t H h f ->
  H <= h' <= h -> h - h' <= Z.of_nat fuel ->
  first_stored fuel t (idx t H) (idx t h') = Some (idx t h).
Proof.
  intros Hw (Hr & Ef & He); revert h'.
  assert (HN : 0 < buf_size t) by (destruct (w_size _ _ Hw); lia).
  assert (Hstop : forall h', H <= h' < h ->
    Z.of_nat (idx t h') <> Z.rem (Z.of_nat (idx t H) - 1) (buf_size t)).
  { intros h' Hh' E; pose proof (Z.mod_pos_bound (H - ssn t) _ HN).
    destruct (decide (idx t H = 0%nat)) as [E0|E0].
    - rewrite E0 in E; change (Z.of_nat 0 - 1) with (- (1)) in E.
      rewrite Z.rem_opp_l, Z.rem_small in E by (destruct (w_size _ _ Hw); lia); lia.
    - rewrite Z.rem_small in E by lia.
      pose proof (idx_next t (H + buf_size t - 1) HN) as Hx.
      replace (H + buf_size t - 1 + 1) with (H + buf_size t) in Hx by lia.
      rewrite idx_period in Hx by done.
      assert (idx t h' = idx t (H + buf_size t - 1)); [|apply idx_inj in H1; lia].
      pose proof (Z.mod_pos_bound (H + buf_size t - 1 - ssn t) _ HN).
      destruct (decide (idx t (H + buf_size t - 1) + 1 = Z.to_nat (buf_size t))%nat) as [Ee|].
      + rewrite Ee, Nat.Div0.mod_same in Hx; lia.
      + rewrite Nat.mod_small in Hx by lia; lia. }
  induction fuel as [|fuel IH]; intros h' Hh Hf; simpl.
  - replace h' with h by lia; fold (cell t h); rewrite Ef; by destruct (_ =? _).
  - fold (cell t h'); rewrite idx_next by done.
    destruct (decide (h' = h)) as [->|]; [rewrite Ef; by destruct (_ =? _)|].
    rewrite He by lia; destruct (Z.eqb_spec (Z.of_nat (idx t h')) (Z.rem (Z.of_nat (idx t H) - 1) (buf_size t))).
    + exfalso; apply (Hstop h'); [lia | done].
    + apply IH; lia.
Qed.

(** The timer runs exactly while frames are stored, for the first of them. *)
Definition timer_armed (HZ : Z) (t : tid_ampdu_rx) (H : Z) : Prop :=
  if stored_mpdu_num t =? 0 then reorder_timer t = None
  else exists h f, first_cell t H h f /\
    reorder_timer t = Some (u64 (nth (idx t h) (reorder_time t) 0 + 1 + HT_RX_REORDER_BUF_TIMEOUT HZ)).

Lemma rearm_spec HZ t H : window t H ->
  exists tm, rearm HZ t = Some (set_timer t tm) /\ timer_armed HZ (set_timer t tm) H.
Proof.
  intros Hw; unfold rearm, timer_armed; simpl.
  destruct (Z.eqb_spec (stored_mpdu_num t) 0) as [E|E]; simpl; [by eexists|].
  destruct (first_cell_exists t H Hw E) as (h & f & Hc).
  rewrite window_ring_index with (H := H) by done.
  rewrite (first_stored_spec _ t H h f H); [|done|done| destruct Hc; lia |].
  - eexists; split; [done|]; exists h, f; done.
  - destruct Hc; destruct (w_size _ _ Hw); lia.
Qed.

Lemma window_set_timer t H tm : window t H -> window (set_timer t tm) H.
Proof. by intros []. Qed.

Lemma stored_fuel t H : window t H -> (length (stored t) <= Z.to_nat (buf_size t))%nat.
Proof. intros Hw; rewrite <- (w_buf _ _ Hw); apply length_omap_id. Qed.

Lemma sta_reorder_release_spec HZ jiffies t H : window t H ->
  exists t1 tm out H', ieee80211_sta_reorder_release HZ jiffies t = Some (set_timer t1 tm, out) /\
    released t H t1 H' out /\ timer_armed HZ (set_timer t1 tm) H' /\ H' <= H + buf_size t.
Proof.
  intros Hw; unfold ieee80211_sta_reorder_release.
  assert (HN : 0 < buf_size t) by (destruct (w_size _ _ Hw); lia).
  rewrite (window_ring_index _ _ Hw); fold (cell t H); rewrite idx_next by done.
  destruct (bool_decide _ && _) eqn:Eb.
  - apply andb_true_iff in Eb as [Ec%bool_decide_eq_true _].
    destruct (timeout_scan_spec (Z.to_nat (buf_size t)) HZ jiffies t H H 1)
      as (t1 & out & g & H' & E & Hr & Hb & Hg); [done | destruct (w_size _ _ Hw); lia.. | |].
    { intros h Hh; by replace h with H by lia. }
    rewrite E; simpl; destruct g as [j|].
    + destruct (Hg j eq_refl) as (h & f & -> & Hc & Hlt).
      eexists t1, _, out, H'; split_and!; [done | done | | done].
      unfold timer_armed; simpl; destruct (Z.eqb_spec (stored_mpdu_num t1) 0) as [E0|].
      * exfalso; rewrite (w_stored _ _ (r_window _ _ _ _ _ Hr)) in E0.
        destruct Hc as (_ & Hc & _); apply slot_Some, omap_delete, Permutation_length in Hc.
        unfold stored in E0; simpl in Hc; lia.
      * exists h, f; done.
    + destruct (rearm_spec HZ t1 H') as (tm & -> & Ht); [by apply (r_window _ _ _ _ _ Hr)|].
      simpl; exists t1, tm, out, H'; done.
  - destruct (release_run_spec (Z.to_nat (buf_size t)) t H) as (t1 & out & H' & -> & Hr & Hn & _);
      [done | by eapply stored_fuel|]; simpl.
    pose proof (released_length _ _ _ _ _ Hr); pose proof (stored_fuel t H Hw).
    destruct (rearm_spec HZ t1 H') as (tm & -> & Ht); [by apply (r_window _ _ _ _ _ Hr)|].
    simpl; exists t1, tm, out, H'; split_and!; [done..|lia].
Qed.

(** What is released first, if anything. *)
Lemma sta_reorder_release_first HZ jiffies t H h f t' out : window t H -> first_cell t H h f ->
  ieee80211_sta_reorder_release HZ jiffies t = Some (t', out) ->
  if (h =? H) || timed_out HZ jiffies t h then exists rest, out = deferred f :: rest else out = [].
Proof.
  intros Hw Hc; unfold ieee80211_sta_reorder_release.
  assert (HN : 0 < buf_size t) by (destruct (w_size _ _ Hw); lia).
  rewrite (window_ring_index _ _ Hw); fold (cell t H); rewrite idx_next by done.
  destruct Hc as (Hh & Ef & He); destruct (Z.eqb_spec h H) as [->|Hne]; simpl.
  - rewrite Ef; simpl.
    destruct (release_run_spec (Z.to_nat (buf_size t)) t H) as (t1 & out1 & H' & -> & Hr & _ & _ & Hf);
      [done | by eapply stored_fuel|]; simpl.
    destruct (rearm HZ t1); simpl; intros; simplify_eq; by apply Hf.
  - rewrite (bool_decide_eq_true_2 (cell t H = None)) by (apply He; lia); simpl.
    destruct (Z.eqb_spec (stored_mpdu_num t) 0) as [E0|]; simpl.
    { exfalso; rewrite (w_stored _ _ Hw) in E0; unfold stored in E0.
      pose proof (Permutation_length (omap_delete _ _ _ (slot_Some _ _ _ Ef))) as Hl; simpl in Hl; lia. }
    pose proof (timeout_scan_first HZ jiffies t H h f (Z.to_nat (buf_size t)) 1 Hw) as Hs.
    destruct (timed_out HZ jiffies t h).
    + destruct (timeout_scan _ _ _ _ _ _ _) as [[[t1 o1] g]|]; simpl; [|done].
      intros E; destruct (Hs ltac:(done) ltac:(lia) ltac:(lia) _ _ _ eq_refl) as [rest ->].
      destruct g; simpl in E; [|destruct (rearm HZ t1); simpl in E; [|done]]; simplify_eq; eauto.
    + rewrite Hs by (done || lia); simpl; intros; by simplify_eq.
Qed.

Lemma mpdu_seq_range skb : 0 <= mpdu_seq skb < 4096.
Proof.
  unfold mpdu_seq; rewrite Z.shiftr_land.
  change (Z.shiftr Ieee80211.IEEE80211_SCTL_SEQ 4) with SEQ_MASK.
  rewrite land_seq_mask; apply Z.mod_pos_bound; lia.
Qed.

(** Making room: the frame [d] places ahead ends up inside the window. *)
Lemma make_room_spec t H s d : window t H -> 0 <= d <= 2048 -> s = (H + d) mod 4096 ->
  exists t1 out H1,
    (if negb (seq_less s (u16 (head_seq_num t + buf_size t)))
     then ieee80211_release_reorder_frames SEQ_FUEL t (seq_inc (seq_sub s (buf_size t)))
     else Some (t, [])) = Some (t1, out) /\
    released t H t1 H1 out /\ H1 <= H + d < H1 + buf_size t /\ (H1 = H \/ H1 = H + (d - buf_size t + 1)).
Proof.
  intros Hw Hd ->; destruct (w_size _ _ Hw) as [HN HD].
  assert (Hu : u16 (head_seq_num t + buf_size t) = head_seq_num t + buf_size t).
  { rewrite (w_head _ _ Hw), u16_mod; arith. }
  rewrite Hu, seq_less_spec, (w_head _ _ Hw).
  set (N := buf_size t) in *.
  assert (Hc : ((H + d) mod 4096 - (H mod 4096 + N)) mod 4096 = (d - N) mod 4096) by arith.
  rewrite Hc; clear Hc.
  destruct (Z.ltb_spec 2048 ((d - N) mod 4096)) as [Hlt|Hge]; simpl.
  - assert (d < N) by arith.
    exists t, [], H; split_and!; [done | by apply released_refl | lia | lia | by left].
  - assert (N <= d) by arith.
    destruct (release_frames_spec SEQ_FUEL t H (d - N + 1) (seq_inc (seq_sub ((H + d) mod 4096) N)))
      as (t1 & out & E & Hr); [done | lia | | unfold SEQ_FUEL; lia |].
    + unfold seq_inc, seq_sub; rewrite !land_seq_mask; arith.
    + exists t1, out, (H + (d - N + 1)); split_and!; [done | done | lia | lia | by right].
Qed.

Lemma store_spec t H h skb jiffies : window t H -> H <= h < H + buf_size t -> cell t h = None ->
  mpdu_seq skb = h mod 4096 ->
  let t2 := set_time
    (set_store t (<[idx t h := Some skb]> (reorder_buf t)) (u16 (stored_mpdu_num t + 1)))
    (<[idx t h := jiffies]> (reorder_time t)) in
  window t2 H /\ stored t2 ≡ₚ skb :: stored t.
Proof.
  intros [Hs Hb Ht Hh Hn Hq] Hr Ec Eq t2.
  assert (HN : 0 < buf_size t) by (destruct Hs; lia).
  assert (Ei : reorder_buf t !! idx t h = Some None).
  { apply slot_None; [done|]; by apply cell_range. }
  assert (Hp : stored t2 ≡ₚ skb :: stored t) by by apply omap_insert.
  split; [|done].
  split; simpl; try done; [by rewrite length_insert | by rewrite length_insert | |].
  - rewrite Hn, (Permutation_length Hp), u16_mod; simpl.
    pose proof (length_omap_id (reorder_buf t)); unfold stored; destruct Hs.
    rewrite Z.mod_small; lia.
  - intros h' f' Hr'; unfold cell, slot; simpl.
    destruct (decide (h' = h)) as [->|Hne].
    + rewrite list_lookup_insert_eq by (by eapply lookup_lt_Some); simpl; intros; by simplify_eq.
    + rewrite list_lookup_insert_ne by (intros E; apply Hne, (idx_inj t); [done | lia | done]).
      apply Hq; lia.
Qed.

(** What the buffer holds and what left it, by contents. *)
Definition conserved (before after : list sk_buff) : Prop :=
  (skb_data <$> before) ≡ₚ (skb_data <$> after).

(** How far one event moves the head: past a frame half the sequence space
    ahead. *)
Definition MAX_ADVANCE : Z := 2049.

Lemma manage_spec HZ jiffies t H skb : window t H ->
  exists t' out d H', ieee80211_sta_manage_reorder_buf HZ jiffies t skb = Some (t', out, d) /\
    window t' H' /\ delivered H (out ++ passed d skb) H' /\
    conserved (stored t ++ [skb]) (out ++ passed d skb ++ dropped d skb ++ stored t') /\ H' <= H + MAX_ADVANCE.
Proof.
  intros Hw; unfold ieee80211_sta_manage_reorder_buf, conserved.
  pose proof (mpdu_seq_range skb) as Hs; destruct (w_size _ _ Hw) as [HN HD].
  rewrite seq_less_spec, (w_head _ _ Hw).
  destruct (Z.ltb_spec 2048 ((mpdu_seq skb - H mod 4096) mod 4096)) as [Hold|Hnew].
  { exists t, [], Freed, H; simpl; split_and!; [done | done | constructor | | unfold MAX_ADVANCE; lia].
    by rewrite fmap_app, Permutation_app_comm. }
  set (d := (mpdu_seq skb - H mod 4096) mod 4096) in *.
  assert (Hd : 0 <= d <= 2048) by (split; [apply Z.mod_pos_bound; lia | done]).
  assert (Es : mpdu_seq skb = (H + d) mod 4096) by (subst d; arith).
  rewrite <- (w_head _ _ Hw).
  destruct (make_room_spec t H (mpdu_seq skb) d Hw Hd Es) as (t1 & out & H1 & E1 & Hr & Hin & Hor).
  rewrite E1; simpl; clear E1.
  pose proof (r_window _ _ _ _ _ Hr) as Hw1; pose proof (r_conserved _ _ _ _ _ Hr) as Hc1.
  destruct (params_ring _ _ (r_params _ _ _ _ _ Hr)) as (Hps & _ & _).
  rewrite Es, ring_index_slot by (rewrite Hps; done || lia); fold (cell t1 (H + d)).
  destruct (cell t1 (H + d)) as [f|] eqn:Ec.
  { exists t1, out, Freed, H1; simpl; split_and!; [done | done | | | unfold MAX_ADVANCE; lia].
    - rewrite app_nil_r; apply (r_delivered _ _ _ _ _ Hr).
    - rewrite !fmap_app, Hc1; simpl; rewrite <- app_assoc, (Permutation_app_comm _ [_]); done. }
  rewrite <- Es, (w_head _ _ Hw1).
  destruct ((mpdu_seq skb =? H1 mod 4096) && (stored_mpdu_num t1 =? 0)) eqn:Ep.
  - apply andb_true_iff in Ep as [Ep%Z.eqb_eq En%Z.eqb_eq].
    assert (Ed : H + d = H1) by arith.
    destruct (release_head t1 H1 Hw1) as [Hr1 _].
    rewrite (window_ring_index _ _ Hw1) in Hr1; unfold ieee80211_release_reorder_frame in Hr1.
    fold (cell t1 H1) in Hr1; rewrite <- Ed, Ec in Hr1; simpl in Hr1.
    eexists _, out, Pass, (H + d + 1); split_and!; [done | | | | unfold MAX_ADVANCE; lia]; simpl.
    + rewrite <- (w_head _ _ Hw1); apply (r_window _ _ _ _ _ Hr1).
    + eapply delivered_app; [apply (r_delivered _ _ _ _ _ Hr)|].
      rewrite <- Ed; apply delivered_frame; [done | constructor].
    + rewrite !fmap_app, Hc1; simpl.
      rewrite <- app_assoc, (Permutation_app_comm _ [_]); done.
  - destruct (store_spec t1 H1 (H + d) skb jiffies) as [Hw2 Hp2]; [done | lia | done | done |].
    destruct (sta_reorder_release_spec HZ jiffies _ H1 Hw2) as (t3 & tm & out3 & H3 & E3 & Hr3 & _ & Hb3); simpl in Hb3.
    rewrite E3; simpl; eexists _, (out ++ out3), Stored, H3; split_and!; [done | | | | unfold MAX_ADVANCE; lia]; simpl.
    + apply window_set_timer, (r_window _ _ _ _ _ Hr3).
    + rewrite app_nil_r; eapply delivered_app; [apply (r_delivered _ _ _ _ _ Hr)|].
      apply (r_delivered _ _ _ _ _ Hr3).
    + rewrite !fmap_app, Hc1; change (stored (set_timer t3 tm)) with (stored t3).
      pose proof (r_conserved _ _ _ _ _ Hr3) as Hc3; rewrite Hp2 in Hc3; simpl in Hc3.
      rewrite <- !app_assoc, <- Hc3, (Permutation_app_comm (skb_data <$> stored t1)); done.
Qed.

Lemma conserved_app b a1 a2 b2 c : conserved b (a1 ++ c) -> conserved (c ++ b2) a2 ->
  conserved (b ++ b2) (a1 ++ a2).
Proof.
  unfold conserved; rewrite !fmap_app; intros -> <-; by rewrite <- app_assoc.
Qed.

Lemma arrivals_cons e es : arrivals (e :: es) = arrivals [e] ++ arrivals es.
Proof. by destruct e. Qed.

Lemma rx_step_spec HZ t H e : window t H ->
  exists t' out fr H', rx_step HZ t e = Some (t', out, fr) /\ window t' H' /\
    delivered H out H' /\ conserved (stored t ++ arrivals [e]) ((out ++ fr) ++ stored t') /\ H' <= H + MAX_ADVANCE.
Proof.
  intros Hw; destruct e as [jiffies skb|jiffies|T]; simpl; csimpl.
  - destruct (manage_spec HZ jiffies t H skb Hw) as (t' & out & d & H' & -> & Hw' & Hd & Hc & Hb).
    simpl; exists t', (out ++ passed d skb), (dropped d skb), H'; split_and!; try done.
    by rewrite <- !app_assoc.
  - destruct (sta_reorder_release_spec HZ jiffies t H Hw) as (t1 & tm & out & H' & -> & Hr & _ & Hb).
    simpl; exists (set_timer t1 tm), out, [], H'; split_and!; [done | | | | destruct (w_size _ _ Hw); unfold MAX_ADVANCE; lia].
    + apply window_set_timer, (r_window _ _ _ _ _ Hr).
    + apply (r_delivered _ _ _ _ _ Hr).
    + unfold conserved; rewrite !app_nil_r, fmap_app; apply (r_conserved _ _ _ _ _ Hr).
  - set (d := (T - H) mod 4096).
    assert (Hd : 0 <= d < 4096) by (apply Z.mod_pos_bound; lia).
    assert (HT : T mod 4096 = (H + d) mod 4096) by (subst d; arith).
    destruct (decide (d <= 2047)).
    + destruct (release_frames_spec SEQ_FUEL t H d T) as (t' & out & -> & Hr);
        [done | lia | done | unfold SEQ_FUEL; lia |].
      simpl; exists t', out, [], (H + d); split_and!; [done | apply (r_window _ _ _ _ _ Hr) | | | unfold MAX_ADVANCE; lia].
      * apply (r_delivered _ _ _ _ _ Hr).
      * unfold conserved; rewrite !app_nil_r, fmap_app; apply (r_conserved _ _ _ _ _ Hr).
    + rewrite (release_frames_noop _ t H d T) by (done || lia).
      simpl; exists t, [], [], H; split_and!; [done | done | constructor | | unfold MAX_ADVANCE; lia].
      unfold conserved; by rewrite app_nil_r.
Qed.

Lemma stored_cell t H f : window t H -> f ∈ stored t ->
  exists h, H <= h < H + buf_size t /\ cell t h = Some f.
Proof.
  intros Hw Hf; apply list_elem_of_omap in Hf as (o & Ho & Eo); simpl in Eo; subst o.
  apply list_elem_of_lookup_1 in Ho as [i Hi].
  assert (Hl : (i < length (reorder_buf t))%nat) by (eapply lookup_lt_Some, Hi).
  rewrite (w_buf _ _ Hw) in Hl.
  destruct (idx_surj t H i) as (h & Hh & Ei); [destruct (w_size _ _ Hw); lia | done |].
  exists h; split; [done|]; unfold cell, slot; by rewrite Ei, Hi.
Qed.

Lemma cell_stored t h f : cell t h = Some f -> f ∈ stored t.
Proof.
  intros E%slot_Some; apply list_elem_of_omap; exists (Some f); split; [|done].
  by eapply list_elem_of_lookup_2.
Qed.

(** A held frame with the number of an arriving one is found in its slot. *)
Lemma held_iff t H t1 H1 out d s : window t H -> released t H t1 H1 out ->
  H1 <= H + d < H1 + buf_size t -> 0 <= d <= 2048 -> s = (H + d) mod 4096 ->
  cell t1 (H + d) <> None <-> exists f, f ∈ stored t /\ mpdu_seq f = s.
Proof.
  intros Hw Hr Hin Hd ->; split.
  - destruct (cell t1 (H + d)) as [f|] eqn:E; [intros _ | done].
    destruct (params_ring _ _ (r_params _ _ _ _ _ Hr)) as (Hps & _ & _).
    pose proof (w_seq _ _ (r_window _ _ _ _ _ Hr) (H + d) f ltac:(lia) E) as Eq.
    apply cell_stored, (list_elem_of_fmap_2 skb_data) in E.
    assert (Hin' : skb_data f ∈ skb_data <$> stored t)
      by (rewrite (r_conserved _ _ _ _ _ Hr); apply elem_of_app; by right).
    apply list_elem_of_fmap in Hin' as (f' & Ed & Hf'); exists f'; split; [done|].
    rewrite <- Eq; unfold mpdu_seq; by rewrite Ed.
  - intros (f & Hf & Es); destruct (stored_cell _ _ _ Hw Hf) as (h & Hh & Ec).
    rewrite (w_seq _ _ Hw h f Hh Ec) in Es; destruct (w_size _ _ Hw).
    assert (h = H + d) as -> by arith.
    rewrite (r_cells _ _ _ _ _ Hr) by lia; by rewrite Ec.
Qed.

#[local] Arguments arrivals : simpl never.

(** ** Properties of a session *)

(** A session as [ieee80211_process_addba_request] sets it up. *)
Definition new_session (buf_size ssn timeout token last : Z) : tid_ampdu_rx :=
  Tid (repeat None (Z.to_nat buf_size)) (repeat 0 (Z.to_nat buf_size)) None None last ssn 0 ssn
    buf_size timeout token.

Lemma omap_repeat_None n : omap id (repeat (@None sk_buff) n) = [].
Proof. apply omap_None; induction n; simpl; constructor; auto. Qed.

Lemma new_session_window N s tmo tok last : ring_size N -> 0 <= s < 4096 ->
  window (new_session N s tmo tok last) s.
Proof.
  intros HN Hs; split; simpl; try done; [apply repeat_length | apply repeat_length | | |].
  - by rewrite Z.mod_small.
  - unfold stored; simpl; by rewrite omap_repeat_None.
  - intros h f _ E; apply cell_stored in E; unfold stored in E; simpl in E.
    rewrite omap_repeat_None in E; by apply elem_of_nil in E.
Qed.

(** A QoS data frame with sequence number [sq] and one byte of payload. *)
Definition data_frame (sq x : Z) : sk_buff :=
  Skb ([0x88; 0; 0; 0] ++ repeat 0 18 ++ put_le16 (Z.shiftl sq 4) ++ [0; 0; x]) 2 0.

(** Frames of one event, numbered from the head [H0] before it. *)
Lemma delivered_numbers H0 H out H' : delivered H out H' -> H0 <= H -> H' < H0 + 4096 ->
  StronglySorted Z.lt ((fun f => H0 + (mpdu_seq f - H0) mod 4096) <$> out) /\
  Forall (fun n => H <= n < H') ((fun f => H0 + (mpdu_seq f - H0) mod 4096) <$> out) /\
  (fun n => n mod 4096) <$> ((fun f => H0 + (mpdu_seq f - H0) mod 4096) <$> out) = mpdu_seq <$> out.
Proof.
  induction 1 as [H|H out H' Hd IH|H f out H' Hf Hd IH]; intros Hle Hlt; [by repeat constructor | |].
  - destruct IH as (Hs & Hb & He); [lia..|]; split_and!; [done | | done].
    eapply list.Forall_impl; [exact Hb | simpl; lia].
  - pose proof (delivered_le _ _ _ Hd); destruct IH as (Hs & Hb & He); [lia..|].
    assert (E : H0 + (mpdu_seq f - H0) mod 4096 = H) by (rewrite Hf; arith).
    rewrite !fmap_cons, E, He; split_and!; [constructor; [done|] | constructor; [lia|] | by rewrite Hf].
    all: eapply list.Forall_impl; [exact Hb | simpl; lia].
Qed.

Lemma sorted_app (l l' : list Z) m : StronglySorted Z.lt l -> StronglySorted Z.lt l' ->
  Forall (fun n => n < m) l -> Forall (fun n => m <= n) l' -> StronglySorted Z.lt (l ++ l').
Proof.
  induction 1 as [|n l Hl IH Hn]; intros Hl' Hm Hm'; simpl; [done|].
  inversion Hm as [|?? Hnm Hm1]; subst; constructor; [by apply IH|].
  apply Forall_app; split; [done|]; eapply list.Forall_impl; [exact Hm' | simpl; lia].
Qed.

(** One event: the head moves on by less than the sequence space, so the
    numbers computed from the truncated ones are the absolute ones. *)
Lemma rx_step_numbers HZ t H e : window t H ->
  exists t' out fr, rx_step HZ t e = Some (t', out, fr) /\ window t' (H + advance t t') /\ advance t t' <= MAX_ADVANCE /\
    conserved (stored t ++ arrivals [e]) ((out ++ fr) ++ stored t') /\
    let ns := (fun f => H + ahead t f) <$> out in
    StronglySorted Z.lt ns /\ Forall (fun n => H <= n < H + advance t t') ns /\ (fun n => n mod 4096) <$> ns = mpdu_seq <$> out.
Proof.
  intros Hw; destruct (rx_step_spec HZ t H e Hw) as (t' & out & fr & H' & E & Hw' & Hd & Hc & Hb).
  pose proof (delivered_le _ _ _ Hd); unfold MAX_ADVANCE in *.
  assert (Ea : H + advance t t' = H').
  { unfold advance, SEQ_MODULO; rewrite (w_head _ _ Hw), (w_head _ _ Hw'); arith. }
  assert (En : (fun f => H + ahead t f) <$> out = (fun f => H + (mpdu_seq f - H) mod 4096) <$> out).
  { apply list_fmap_ext; intros ? f _; unfold ahead, SEQ_MODULO; rewrite (w_head _ _ Hw); arith. }
  exists t', out, fr; split; [done|]; rewrite Ea; split; [done|]; split; [lia|]; split; [done|]; cbv zeta; rewrite En.
  apply delivered_numbers; [done | lia..].
Qed.

Lemma heads_le HZ es t H H' : list.last (rx_heads HZ t H es) = Some H' ->
  (forall i h h', rx_heads HZ t H es !! i = Some h -> rx_heads HZ t H es !! S i = Some h' -> h <= h' <= h + MAX_ADVANCE) -> H <= H'.
Proof.
  assert (Hl : forall l h0, list.last (h0 :: l) = Some H' -> (forall i h h', (h0 :: l) !! i = Some h -> (h0 :: l) !! S i = Some h' -> h <= h') -> h0 <= H').
  { induction l as [|x l IH]; intros h0 Hl Hh; [injection Hl; lia|].
    transitivity x; [by apply (Hh 0%nat)|]; apply IH; [done|]; intros i; apply (Hh (S i)). }
  destruct es; intros E Hh; apply (Hl _ _ E); intros i h h' Hi Hi'; apply (Hh i h h' Hi Hi').
Qed.

(** C1: for a ring size from 2 to 1024 that divides 4096, whatever frames,
    timer expiries and block-ack requests a session sees, in any order, no loop
    of the reorder code runs on, and the frames handed to the stack are in
    order.  Each event moves the head on, by at most 2049 of the 4096 numbers,
    and releases only frames at distances from the old head below that, in
    strictly increasing order; so the absolute numbers that these distances
    give, summed over the run, increase strictly, from the first head to the
    last, and reduce to the sequence numbers of the frames.  Every frame that
    was stored or arrived is, exactly once, handed up, freed, or still in the
    buffer, which is again a window with its head at the last number. *)
Theorem reorder_in_order HZ t H es : window t H ->
  exists t' out fr H', rx_run HZ t es = Some (t', out, fr) /\
    list.last (rx_heads HZ t H es) = Some H' /\ window t' H' /\
    conserved (stored t ++ arrivals es) (out ++ fr ++ stored t') /\
    (forall i h h', rx_heads HZ t H es !! i = Some h -> rx_heads HZ t H es !! S i = Some h' -> h <= h' <= h + MAX_ADVANCE) /\
    StronglySorted Z.lt (rx_numbers HZ t H es) /\ Forall (fun n => H <= n < H') (rx_numbers HZ t H es) /\
    (fun n => n mod 4096) <$> rx_numbers HZ t H es = mpdu_seq <$> out.
Proof.
  revert t H; induction es as [|e es IH]; intros t H Hw; cbn [rx_run rx_heads rx_numbers].
  { exists t, [], [], H; split_and!; [done | done | done | by unfold conserved; rewrite app_nil_r | | constructor..| done].
    intros i h h' _ Hi; by destruct i. }
  destruct (rx_step_numbers HZ t H e Hw) as (t1 & out1 & fr1 & -> & Hw1 & Ha1 & Hc1 & Hs1 & Hb1 & He1); simpl.
  assert (H0 : 0 <= advance t t1) by (apply Z.mod_pos_bound; unfold SEQ_MODULO; lia).
  destruct (IH t1 _ Hw1) as (t2 & out2 & fr2 & H2 & -> & Hl2 & Hw2 & Hc2 & Hh2 & Hs2 & Hb2 & He2); simpl.
  assert (Hle : H + advance t t1 <= H2) by (apply (heads_le HZ es t1 _ _ Hl2 Hh2)).
  exists t2, (out1 ++ out2), (fr1 ++ fr2), H2; split_and!; [done | | done | | | | |].
  - rewrite <- Hl2; destruct es; done.
  - rewrite arrivals_cons, app_assoc.
    assert (Hp : (out1 ++ out2) ++ (fr1 ++ fr2) ++ stored t2 ≡ₚ
      (out1 ++ fr1) ++ out2 ++ fr2 ++ stored t2) by solve_Permutation.
    unfold conserved in *; rewrite Hp; by apply (conserved_app _ _ _ _ _ Hc1).
  - intros [|i] h h' Hi Hi'; simpl in Hi, Hi'; [|by apply (Hh2 i)].
    assert (h' = H + advance t t1) as -> by (by destruct es; simpl in Hi'; injection Hi').
    injection Hi as <-; lia.
  - apply (sorted_app _ _ (H + advance t t1)); [done.. | |]; eapply list.Forall_impl; [exact Hb1 | simpl; lia | exact Hb2 | simpl; lia].
  - apply Forall_app; split; eapply list.Forall_impl; [exact Hb1 | simpl; lia | exact Hb2 | simpl; lia].
  - by rewrite !fmap_app, He1, He2.
Qed.

(** Frames 4095 and 0 wait for 4094; frame 4 waits until the block-ack
    request for 9. *)
Definition demo_events : list rx_event :=
  [EvFrame 5 (data_frame 4095 1); EvFrame 6 (data_frame 0 2); EvFrame 7 (data_frame 4094 3); EvTimer 20;
   EvFrame 21 (data_frame 4 4); EvBar 9].

Lemma reorder_in_order_witness :
  exists t' out fr H', rx_run 100 (new_session 8 4094 0 1 0) demo_events = Some (t', out, fr) /\ window t' H' /\
    conserved (stored (new_session 8 4094 0 1 0) ++ [data_frame 4095 1; data_frame 0 2; data_frame 4094 3; data_frame 4 4])
      (out ++ fr ++ stored t') /\
    rx_numbers 100 (new_session 8 4094 0 1 0) 4094 demo_events = [4094; 4095; 4096; 4100] /\ H' = 4105 /\
    mpdu_seq <$> out = [4094; 4095; 0; 4].
Proof.
  destruct (reorder_in_order 100 (new_session 8 4094 0 1 0) 4094 demo_events) as (t' & out & fr & H' & Hr & Hl & Hw & Hc & _ & _ & _ & Hm);
    [apply new_session_window; by_eval|].
  exists t', out, fr, H'; split; [exact Hr|]; split; [exact Hw|]; split; [exact Hc|]; split; [vm_compute; reflexivity|]; split.
  - vm_compute in Hl; congruence.
  - rewrite <- Hm; vm_compute; reflexivity.
Defined.

(** An arriving frame is freed in exactly two cases: its number lies behind
    the head, or a frame with the same number is already held. *)
Theorem reorder_frees_iff HZ jiffies t H skb : window t H ->
  (exists t' out, ieee80211_sta_manage_reorder_buf HZ jiffies t skb = Some (t', out, Freed)) <->
  seq_less (mpdu_seq skb) (head_seq_num t) = true \/
  (exists f, f ∈ stored t /\ mpdu_seq f = mpdu_seq skb).
Proof.
  intros Hw; pose proof (mpdu_seq_range skb) as Hs; destruct (w_size _ _ Hw) as [HN HD].
  unfold ieee80211_sta_manage_reorder_buf.
  destruct (seq_less _ _) eqn:El; [split; [by left | by eauto]|].
  rewrite seq_less_spec, (w_head _ _ Hw) in El; apply Z.ltb_ge in El.
  set (d := (mpdu_seq skb - H mod 4096) mod 4096) in *.
  assert (Hd : 0 <= d <= 2048) by (split; [apply Z.mod_pos_bound; lia | done]).
  assert (Es : mpdu_seq skb = (H + d) mod 4096) by (subst d; arith).
  destruct (make_room_spec t H (mpdu_seq skb) d Hw Hd Es) as (t1 & out & H1 & E1 & Hr & Hin & _).
  rewrite E1; simpl; rewrite <- (held_iff t H t1 H1 out d _ Hw Hr Hin Hd Es).
  destruct (params_ring _ _ (r_params _ _ _ _ _ Hr)) as (Hps & _ & _).
  rewrite Es, ring_index_slot by (rewrite Hps; done || lia); fold (cell t1 (H + d)); rewrite <- Es.
  destruct (cell t1 (H + d)) as [f|] eqn:Ec; [split; [by right | by eauto]|].
  split; [|by intros [|]].
  intros (t' & o & E); exfalso; revert E; destruct (_ && _); [done|].
  destruct (ieee80211_sta_reorder_release _ _ _) as [[]|]; simpl; congruence.
Qed.

Lemma reorder_frees_iff_witness :
  (exists t' out, ieee80211_sta_manage_reorder_buf 100 5 (new_session 8 10 0 1 0) (data_frame 9 1) =
    Some (t', out, Freed)).
Proof.
  apply (reorder_frees_iff 100 5 (new_session 8 10 0 1 0) 10 (data_frame 9 1)).
  - apply new_session_window; by_eval.
  - left; by vm_compute.
Defined.

(** No stored frame waits forever.  When the release routine leaves frames
    in the buffer it leaves the timer armed, and when that timer fires (at its
    expiry or up to half the jiffies range later) at least one frame is handed
    to the stack. *)
Theorem reorder_timer_progress HZ jiffies t H t' out : window t H ->
  ieee80211_sta_reorder_release HZ jiffies t = Some (t', out) -> stored_mpdu_num t' <> 0 ->
  exists expires, reorder_timer t' = Some expires /\
    forall now, u64 (now - expires) < 2 ^ 63 ->
      exists t'' f rest, ieee80211_sta_reorder_release HZ now t' = Some (t'', f :: rest).
Proof.
  intros Hw E Hn.
  destruct (sta_reorder_release_spec HZ jiffies t H Hw) as (t1 & tm & o & H' & E1 & Hr & Ht & _).
  rewrite E in E1; injection E1 as -> ->.
  unfold timer_armed in Ht; destruct (Z.eqb_spec (stored_mpdu_num (set_timer t1 tm)) 0); [done|].
  destruct Ht as (h & f & Hc & Htm); eexists; split; [exact Htm|].
  intros now Hnow.
  pose proof (window_set_timer _ _ tm (r_window _ _ _ _ _ Hr)) as Hw'.
  destruct (sta_reorder_release_spec HZ now _ _ Hw') as (t2 & tm2 & o2 & H2 & E2 & _).
  pose proof (sta_reorder_release_first HZ now _ _ h f _ _ Hw' Hc E2) as Hf.
  assert (Hto : timed_out HZ now (set_timer t1 tm) h = true).
  { unfold timed_out, time_after; apply Z.leb_le; revert Hnow; unfold u64, wrap; intros; arith. }
  rewrite Hto, orb_true_r in Hf; destruct Hf as [rest ->]; eauto.
Qed.

Lemma reorder_timer_progress_witness :
  let t' := from_option (fun r => r.1.1) (new_session 8 10 0 1 0)
    (ieee80211_sta_manage_reorder_buf 100 5 (new_session 8 10 0 1 0) (data_frame 12 1)) in
  exists expires, reorder_timer t' = Some expires /\
    forall now, u64 (now - expires) < 2 ^ 63 ->
      exists t'' f rest, ieee80211_sta_reorder_release 100 now t' = Some (t'', f :: rest).
Proof.
  set (t' := from_option _ _ _).
  assert (Hw : exists H, window t' H).
  { destruct (manage_spec 100 5 (new_session 8 10 0 1 0) 10 (data_frame 12 1))
      as (u & out & d & H' & E & Hw & _); [apply new_session_window; by_eval|].
    exists H'; unfold t'; rewrite E; exact Hw. }
  destruct Hw as [H Hw].
  apply (reorder_timer_progress 100 5 t' H t' []); [exact Hw | by vm_compute | by vm_compute].
Defined.

(** ** The handlers *)

(** Every active session of the station is in a window state. *)
Definition sessions_ok (s : rx_state) : Prop :=
  forall tid t, tid_rx s !! tid = Some (Some t) -> exists H, window t H.

Definition held (ts : list (option tid_ampdu_rx)) : list sk_buff :=
  mjoin ((fun o => from_option stored [] o) <$> ts).

(** Every frame the receive path holds or has given away. *)
Definition contents (s : rx_state) : list sk_buff :=
  rx_skb_queue s ++ sdata_skb_queue s ++ freed s ++ held (tid_rx s).

Lemma held_insert ts tid t t' : ts !! tid = Some (Some t) ->
  exists rest, held ts ≡ₚ stored t ++ rest /\ held (<[tid := Some t']> ts) ≡ₚ stored t' ++ rest.
Proof.
  intros E; assert (Hl : (tid < length ts)%nat) by (eapply lookup_lt_Some, E).
  exists (held (take tid ts ++ drop (S tid) ts)); unfold held.
  rewrite <- (take_drop_middle ts tid _ E) at 1; rewrite insert_take_drop by done.
  rewrite !fmap_app, !fmap_cons, !join_app; csimpl; split; solve_Permutation.
Qed.

Lemma sessions_ok_insert s tid t H : sessions_ok s -> window t H ->
  forall tid' u, <[tid := Some t]> (tid_rx s) !! tid' = Some (Some u) -> exists H', window u H'.
Proof.
  intros Hs Hw tid' u E; apply list_lookup_insert_Some in E as [(-> & Eu & _) | (_ & E)].
  - simplify_eq; by exists H.
  - by eapply Hs.
Qed.

Lemma reorder_session_lookup s b skb tid t : reorder_session s b skb = Some (tid, t) ->
  tid_rx s !! tid = Some (Some t).
Proof.
  unfold reorder_session; intros E.
  destruct (negb (Ieee80211.ieee80211_is_data_qos _)); [done|]; destruct (negb b); [done|].
  destruct (tid_rx s !! Z.to_nat _) as [[u|]|] eqn:Eu; simpl in E; try done.
  by repeat (case_match; try done); simplify_eq.
Qed.

Lemma window_set_session t H tm l : window t H -> window (set_session t tm l) H.
Proof. by intros []. Qed.

(** The entry point of the reorder path, on every branch: it returns, keeps
    every session of the station in a window state, and the arriving frame and
    all frames held before are afterwards, exactly once each, in the stack's
    queue, in the interface queue (a fragment, which ends the session), freed, or
    in a reorder buffer. *)
Theorem rx_reorder_ampdu_conserves HZ jiffies s b skb : sessions_ok s ->
  exists s', ieee80211_rx_reorder_ampdu HZ jiffies s b skb = Some s' /\ sessions_ok s' /\
    conserved (contents s ++ [skb]) (contents s').
Proof.
  intros Hs; unfold ieee80211_rx_reorder_ampdu.
  destruct (reorder_session s b skb) as [[tid t]|] eqn:E.
  2: { eexists; split_and!; [done | done |]; apply fmap_Permutation; unfold contents; simpl.
    solve_Permutation. }
  apply reorder_session_lookup in E; destruct (Hs _ _ E) as [H Hw].
  set (t0 := if timeout t =? 0 then t else _).
  assert (Hw0 : window t0 H) by (subst t0; destruct (_ =? _); [|apply window_set_session]; done).
  assert (Es : stored t0 = stored t) by (subst t0; by destruct (_ =? _)).
  destruct (bit_set _ _).
  - eexists; split_and!; [done | exact (sessions_ok_insert s tid _ _ Hs Hw0) |].
    destruct (held_insert _ tid t t0 E) as (rest & P1 & P2).
    unfold conserved, contents; simpl; rewrite P1, P2, Es, !fmap_app; simpl; solve_Permutation.
  - destruct (manage_spec HZ jiffies t0 H skb Hw0) as (t' & out & d & H' & -> & Hw' & _ & Hc & _); simpl.
    destruct (held_insert _ tid t t' E) as (rest & P1 & P2).
    unfold conserved in *; rewrite Es in Hc; rewrite !fmap_app in Hc.
    eexists; split_and!; [done | destruct d; exact (sessions_ok_insert s tid _ _ Hs Hw') |].
    assert (Hq : (skb_data <$> stored t) ++ [skb_data skb] ++ (skb_data <$> rest) ≡ₚ
      ((skb_data <$> out) ++ (skb_data <$> passed d skb) ++ (skb_data <$> dropped d skb) ++
        (skb_data <$> stored t')) ++ (skb_data <$> rest)) by (rewrite <- Hc, <- app_assoc; done).
    unfold contents; rewrite !fmap_app, P1, fmap_app; change (skb_data <$> [skb]) with [skb_data skb].
    transitivity ((skb_data <$> rx_skb_queue s) ++ (skb_data <$> sdata_skb_queue s) ++
      (skb_data <$> freed s) ++ (skb_data <$> stored t) ++ [skb_data skb] ++ (skb_data <$> rest));
      [solve_Permutation | rewrite Hq].
    destruct d; simpl; rewrite P2, !fmap_app; simpl; solve_Permutation.
Qed.

Lemma rx_reorder_ampdu_conserves_witness :
  let s := Rx (Some (new_session 8 10 0 1 0) :: repeat None 15) [] [] false [] in
  exists s', ieee80211_rx_reorder_ampdu 100 7 s true (data_frame 12 1) = Some s' /\ sessions_ok s' /\
    conserved (contents s ++ [data_frame 12 1]) (contents s').
Proof.
  apply rx_reorder_ampdu_conserves; intros tid t E.
  destruct tid as [|tid]; simpl in E; [|by do 16 (destruct tid as [|tid]; [done|])].
  simplify_eq; exists 10; apply new_session_window; by_eval.
Defined.

End Reorder.
