(* ===== verification/AggRx.v ===== *)
(** * Block-ack sessions, recipient side

    [net/mac80211/agg-rx.c] and the DELBA part of [net/mac80211/ht.c]: setting
    up a session from an ADDBA request, answering it, expiring and stopping it.
    Memory allocation results, [usecs_to_jiffies] and the driver's
    [ampdu_action] callback are parameters.  Frames handed to
    [ieee80211_tx_skb] and driver calls are logged in the state. *)

From S2P Require Import Prelude Ieee80211 Reorder.

Module AggRx.
Import Reorder.

Definition IEEE80211_NUM_TIDS : nat := 16.
Definition IEEE80211_ADDBA_PARAM_POLICY_MASK : Z := 0x0002.
Definition IEEE80211_ADDBA_PARAM_TID_MASK : Z := 0x003C.
Definition IEEE80211_ADDBA_PARAM_BUF_SIZE_MASK : Z := 0xFFC0.
Definition IEEE80211_DELBA_PARAM_TID_MASK : Z := 0xF000.
Definition IEEE80211_DELBA_PARAM_INITIATOR_MASK : Z := 0x0800.
Definition IEEE80211_MAX_AMPDU_BUF : Z := 0x40.
Definition IEEE80211_HT_CAP_DELAY_BA : Z := 0x0400.
Definition WLAN_CATEGORY_BACK : Z := 3.
Definition WLAN_ACTION_ADDBA_RESP : Z := 1.
Definition WLAN_ACTION_DELBA : Z := 2.
Definition WLAN_BACK_RECIPIENT : Z := 0.
Definition WLAN_BACK_INITIATOR : Z := 1.
Definition WLAN_STATUS_SUCCESS : Z := 0.
Definition WLAN_STATUS_UNSPECIFIED_QOS : Z := 32.
Definition WLAN_STATUS_REQUEST_DECLINED : Z := 37.
Definition WLAN_STATUS_INVALID_QOS_PARAM : Z := 38.

Inductive nl80211_iftype := IFTYPE_ADHOC | IFTYPE_STATION | IFTYPE_AP | IFTYPE_AP_VLAN
  | IFTYPE_MESH_POINT | IFTYPE_OTHER.

Inductive ampdu_action := IEEE80211_AMPDU_RX_START | IEEE80211_AMPDU_RX_STOP.

(** The station and the interface it belongs to. *)
Record sta_info := Sta {
  sta_addr : list Z;
  block_ba : bool;
  ht_cap : Z;
  vif_type : nl80211_iftype;
  vif_addr : list Z;
  bssid : list Z }.

(** The state the session code changes: the sessions, the two request bitmaps,
    the station work item, the frames sent, the driver calls, and the frames
    freed with a session. *)
Record agg_state := Agg {
  sessions : list (option tid_ampdu_rx);
  timer_expired : list bool;
  stop_requested : list bool;
  ba_work : bool;
  sent : list (list Z);
  drv_calls : list (ampdu_action * Z);
  agg_freed : list sk_buff }.

Definition with_sessions (s : agg_state) x :=
  Agg x (timer_expired s) (stop_requested s) (ba_work s) (sent s) (drv_calls s) (agg_freed s).
Definition send (s : agg_state) (f : list Z) :=
  Agg (sessions s) (timer_expired s) (stop_requested s) (ba_work s) (sent s ++ [f]) (drv_calls s)
    (agg_freed s).
Definition drv_call (s : agg_state) a :=
  Agg (sessions s) (timer_expired s) (stop_requested s) (ba_work s) (sent s) (drv_calls s ++ [a])
    (agg_freed s).
Definition free_skbs (s : agg_state) l :=
  Agg (sessions s) (timer_expired s) (stop_requested s) (ba_work s) (sent s) (drv_calls s)
    (agg_freed s ++ l).

(** ** Frames sent *)

Definition tx_bssid (sta : sta_info) : list Z :=
  match vif_type sta with
  | IFTYPE_AP | IFTYPE_AP_VLAN | IFTYPE_MESH_POINT => vif_addr sta
  | IFTYPE_STATION | IFTYPE_ADHOC => bssid sta
  | IFTYPE_OTHER => repeat 0 6
  end.

(** The zeroed 24-byte header both frames start with. *)
Definition mgmt_header (sta : sta_info) (da : list Z) : list Z :=
  put_le16 (Z.lor Ieee80211.IEEE80211_FTYPE_MGMT Ieee80211.IEEE80211_STYPE_ACTION) ++ [0; 0] ++
  da ++ vif_addr sta ++ tx_bssid sta ++ [0; 0].

Definition addba_capab (policy tid buf_size : Z) : Z :=
  Z.lor (Z.lor (u16 (Z.shiftl policy 1)) (u16 (Z.shiftl tid 2))) (u16 (Z.shiftl buf_size 6)).

Definition ieee80211_send_addba_resp (alloc : bool) (s : agg_state) (sta : sta_info) (da : list Z)
    (tid dialog_token status policy buf_size timeout : Z) : agg_state :=
  if negb alloc then s
  else send s (mgmt_header sta da ++ [WLAN_CATEGORY_BACK; WLAN_ACTION_ADDBA_RESP; dialog_token] ++
    put_le16 status ++ put_le16 (addba_capab policy tid buf_size) ++ put_le16 timeout).

Definition delba_params (tid initiator : Z) : Z :=
  Z.lor (u16 (Z.shiftl initiator 11)) (u16 (Z.shiftl tid 12)).

Definition ieee80211_send_delba (alloc : bool) (s : agg_state) (sta : sta_info) (da : list Z)
    (tid initiator reason_code : Z) : agg_state :=
  if negb alloc then s
  else send s (mgmt_header sta da ++ [WLAN_CATEGORY_BACK; WLAN_ACTION_DELBA] ++
    put_le16 (delba_params tid initiator) ++ put_le16 reason_code).

(** ** Stopping a session *)

Definition ieee80211_free_tid_rx (s : agg_state) (t : tid_ampdu_rx) : agg_state :=
  free_skbs s (omap id (take (Z.to_nat (buf_size t)) (reorder_buf t))).

(** The frames are freed after the RCU grace period; here at once, the session
    being unreachable from then on. *)
Definition stop_rx_ba_session (alloc : bool) (s : agg_state) (sta : sta_info)
    (tid initiator reason : Z) (tx : bool) : agg_state :=
  match mjoin (sessions s !! Z.to_nat tid) with
  | None => s
  | Some t =>
      let s := with_sessions s (<[Z.to_nat tid := None]> (sessions s)) in
      let s := drv_call s (IEEE80211_AMPDU_RX_STOP, tid) in
      let s := if (initiator =? WLAN_BACK_RECIPIENT) && tx
               then ieee80211_send_delba alloc s sta (sta_addr sta) tid WLAN_BACK_RECIPIENT reason
               else s in
      ieee80211_free_tid_rx s t
  end.

(** Only a DELBA of the initiator concerns the receive side. *)
Definition ieee80211_process_delba (alloc : bool) (s : agg_state) (sta : sta_info) (mgmt : list Z)
    : option agg_state :=
  let params := get_le16 mgmt 26 in
  let tid := Z.shiftr (Z.land params IEEE80211_DELBA_PARAM_TID_MASK) 12 in
  let initiator := Z.shiftr (Z.land params IEEE80211_DELBA_PARAM_INITIATOR_MASK) 11 in
  if initiator =? WLAN_BACK_INITIATOR
  then Some (stop_rx_ba_session alloc s sta tid WLAN_BACK_INITIATOR 0 true)
  else None.

Fixpoint set_bits (i : nat) (bitmap : Z) (l : list bool) : list bool :=
  match l with
  | [] => []
  | b :: l => (b || Z.testbit bitmap (Z.of_nat i)) :: set_bits (S i) bitmap l
  end.

Definition ieee80211_stop_rx_ba_session (s : agg_state) (has_sta : bool) (ba_rx_bitmap : Z) : agg_state :=
  if negb has_sta then s
  else Agg (sessions s) (timer_expired s) (set_bits 0 ba_rx_bitmap (stop_requested s)) true
    (sent s) (drv_calls s) (agg_freed s).

Definition sta_rx_agg_session_timer_expired (usecs_to_jiffies : Z -> Z) (jiffies : Z) (s : agg_state)
    (tid : nat) : agg_state :=
  match mjoin (sessions s !! tid) with
  | None => s
  | Some t =>
      let expires := u64 (last_rx t + usecs_to_jiffies (timeout t * 1024)) in
      if time_after expires jiffies
      then with_sessions s (<[tid := Some (set_session t (Some expires) (last_rx t))]> (sessions s))
      else Agg (sessions s) (<[tid := true]> (timer_expired s)) (stop_requested s) true
        (sent s) (drv_calls s) (agg_freed s)
  end.

(** ** Answering an ADDBA request *)

Record addba_env := {
  alloc_resp : bool;           (* dev_alloc_skb of a response or DELBA *)
  alloc_session : bool;        (* kmalloc of the session *)
  alloc_buffers : bool;        (* both kcalloc calls *)
  max_rx_aggregation_subframes : Z;
  drv_ampdu_action : Z -> Z -> Z * Z;   (* tid, ssn to result and ssn *)
  env_usecs_to_jiffies : Z -> Z;
  env_jiffies : Z;
  stale_last_rx : Z }.         (* the uninitialised field of the new session *)

Definition addba_tid (capab : Z) : Z := Z.shiftr (Z.land capab IEEE80211_ADDBA_PARAM_TID_MASK) 2.
Definition addba_policy (capab : Z) : Z := Z.shiftr (Z.land capab IEEE80211_ADDBA_PARAM_POLICY_MASK) 1.
Definition addba_buf_size (capab : Z) : Z :=
  Z.shiftr (Z.land capab IEEE80211_ADDBA_PARAM_BUF_SIZE_MASK) 6.

(** The window size granted for a requested one. *)
Definition granted_buf_size (env : addba_env) (buf_size : Z) : Z :=
  let b := if buf_size =? 0 then IEEE80211_MAX_AMPDU_BUF else buf_size in
  if b >? max_rx_aggregation_subframes env then max_rx_aggregation_subframes env else b.

(** The part under the mutex: the new state and the status of the response. *)
Definition addba_setup (env : addba_env) (s : agg_state) (sta : sta_info)
    (tid dialog_token buf_size timeout ssn : Z) : agg_state * Z :=
  let s := if mjoin (sessions s !! Z.to_nat tid) is Some _
           then stop_rx_ba_session (alloc_resp env) s sta tid WLAN_BACK_RECIPIENT
                  WLAN_STATUS_UNSPECIFIED_QOS false
           else s in
  if negb (alloc_session env) then (s, WLAN_STATUS_REQUEST_DECLINED)
  else if negb (alloc_buffers env) then (s, WLAN_STATUS_REQUEST_DECLINED)
  else
    let s := drv_call s (IEEE80211_AMPDU_RX_START, tid) in
    let '(ret, ssn) := drv_ampdu_action env tid ssn in
    if negb (ret =? 0) then (s, WLAN_STATUS_REQUEST_DECLINED)
    else
      let t := new_session buf_size ssn timeout dialog_token (stale_last_rx env) in
      let t := if timeout =? 0 then t
               else set_session t
                 (Some (u64 (env_jiffies env + env_usecs_to_jiffies env (timeout * 1024)))) (env_jiffies env) in
      (with_sessions s (<[Z.to_nat tid := Some t]> (sessions s)), WLAN_STATUS_SUCCESS).

Definition ieee80211_process_addba_request (env : addba_env) (s : agg_state) (sta : sta_info)
    (mgmt : list Z) : agg_state :=
  let dialog_token := mgmt.[26] in
  let timeout := get_le16 mgmt 29 in
  let start_seq_num := Z.shiftr (get_le16 mgmt 31) 4 in
  let capab := get_le16 mgmt 27 in
  let ba_policy := addba_policy capab in
  let tid := addba_tid capab in
  let buf_size := addba_buf_size capab in
  let respond s status buf_size := ieee80211_send_addba_resp (alloc_resp env) s sta (sta_addr sta) tid
    dialog_token status 1 buf_size timeout in
  if block_ba sta then respond s WLAN_STATUS_REQUEST_DECLINED buf_size
  else if (negb (ba_policy =? 1) && negb (bit_set (ht_cap sta) IEEE80211_HT_CAP_DELAY_BA)) ||
          (buf_size >? IEEE80211_MAX_AMPDU_BUF)
  then respond s WLAN_STATUS_INVALID_QOS_PARAM buf_size
  else
    let buf_size := granted_buf_size env buf_size in
    let '(s, status) := addba_setup env s sta tid dialog_token buf_size timeout start_seq_num in
    respond s status buf_size.

(** ** Lemmas *)

Lemma addba_capab_val tid b : 0 <= tid < 16 -> 0 <= b < 1024 ->
  addba_capab 1 tid b = 2 + 4 * tid + 64 * b.
Proof.
  intros Ht Hb; unfold addba_capab.
  rewrite !Z.shiftl_mul_pow2, !u16_mod, !(Z.mod_small _ 65536) by lia.
  rewrite <- (Z.shiftl_mul_pow2 tid 2), <- (Z.shiftl_mul_pow2 b 6) by lia.
  rewrite (lor_shiftl_add _ tid) by (unfold is_uint; lia).
  rewrite (lor_shiftl_add _ b) by (unfold is_uint; lia); lia.
Qed.

Lemma addba_tid_field c : addba_tid c = (c / 4) mod 16.
Proof. by apply (field_get c 2 4). Qed.
Lemma addba_policy_field c : addba_policy c = (c / 2) mod 2.
Proof. by apply (field_get c 1 1). Qed.
Lemma addba_buf_size_field c : addba_buf_size c = (c / 64) mod 1024.
Proof. by apply (field_get c 6 10). Qed.

Lemma addba_fields tid b : 0 <= tid < 16 -> 0 <= b < 1024 ->
  addba_tid (addba_capab 1 tid b) = tid /\ addba_policy (addba_capab 1 tid b) = 1 /\
  addba_buf_size (addba_capab 1 tid b) = b.
Proof.
  intros; rewrite addba_tid_field, addba_policy_field, addba_buf_size_field, addba_capab_val by done.
  split_and!; arith.
Qed.

Lemma is_u16_le16 p i : bytes p -> 0 <= get_le16 p i < 65536.
Proof. apply get_le16_range. Qed.

Lemma addba_capab_u16 tid b : 0 <= tid < 16 -> 0 <= b < 1024 -> is_u16 (addba_capab 1 tid b).
Proof. intros; rewrite addba_capab_val by done; unfold is_uint; lia. Qed.

(** Addresses are six bytes. *)
Definition wf_sta (sta : sta_info) : Prop :=
  length (sta_addr sta) = 6%nat /\ length (vif_addr sta) = 6%nat /\ length (bssid sta) = 6%nat.

#[global] Instance wf_sta_dec sta : Decision (wf_sta sta).
Proof. unfold wf_sta; apply _. Defined.

Lemma mgmt_header_length sta da : wf_sta sta -> length da = 6%nat -> length (mgmt_header sta da) = 24%nat.
Proof.
  intros (_ & Hv & Hb) Hd; unfold mgmt_header, tx_bssid; rewrite !length_app, Hd, Hv.
  destruct (vif_type sta); simpl; lia.
Qed.

Lemma get_le16_put v tl i : is_u16 v -> get_le16 (tl ++ put_le16 v) (length tl + i) = get_le16 (put_le16 v) i.
Proof. intros; by apply get_le16_app_r. Qed.

(** The fields of a response, as its receiver reads them. *)
Record addba_resp := { resp_token : Z; resp_status : Z; resp_capab : Z; resp_timeout : Z }.

Definition parse_addba_resp (m : list Z) : option addba_resp :=
  if bool_decide (length m = 33%nat) && (m.[24] =? WLAN_CATEGORY_BACK) &&
     (m.[25] =? WLAN_ACTION_ADDBA_RESP)
  then Some {| resp_token := m.[26]; resp_status := get_le16 m 27; resp_capab := get_le16 m 29;
               resp_timeout := get_le16 m 31 |}
  else None.

Lemma parse_sent_addba_resp s sta tid token status b timeout : wf_sta sta ->
  is_u16 status -> is_u16 timeout -> 0 <= tid < 16 -> 0 <= b < 1024 ->
  exists f, sent (ieee80211_send_addba_resp true s sta (sta_addr sta) tid token status 1 b timeout) =
      sent s ++ [f] /\
    parse_addba_resp f = Some {| resp_token := token; resp_status := status;
      resp_capab := addba_capab 1 tid b; resp_timeout := timeout |}.
Proof.
  intros Hw Hs Ht Htid Hb; eexists; split; [done|].
  pose proof (mgmt_header_length sta (sta_addr sta) Hw ltac:(by destruct Hw)) as Hl.
  pose proof (addba_capab_u16 tid b Htid Hb) as Hc.
  set (h := mgmt_header _ _) in *; set (c := addba_capab _ _ _) in *.
  unfold parse_addba_resp.
  set (tl := [WLAN_CATEGORY_BACK; WLAN_ACTION_ADDBA_RESP; token] ++ put_le16 status ++ put_le16 c ++ put_le16 timeout).
  pose proof (fun i => byte_at_app_r h tl 24 i Hl) as Hby.
  pose proof (fun i => get_le16_app_r h tl 24 i Hl) as Hle.
  rewrite (Hby 0%nat : _.[24] = _), (Hby 1%nat : _.[25] = _), (Hby 2%nat : _.[26] = _).
  rewrite (Hle 3%nat : get_le16 _ 27 = _), (Hle 5%nat : get_le16 _ 29 = _), (Hle 7%nat : get_le16 _ 31 = _).
  rewrite (get_put_le16 status Hs : get_le16 tl 3 = _), (get_put_le16 c Hc : get_le16 tl 5 = _),
    (get_put_le16 timeout Ht : get_le16 tl 7 = _).
  by rewrite bool_decide_eq_true_2 by (rewrite length_app, Hl; done).
Qed.

Lemma sent_addba_setup env s sta tid tok b tmo ssn :
  sent (addba_setup env s sta tid tok b tmo ssn).1 = sent s.
Proof.
  unfold addba_setup, stop_rx_ba_session.
  destruct (mjoin _); simpl; repeat (case_match; simpl); done.
Qed.

(** ** Properties *)

(** The conditions under which a request is granted. *)
Definition addba_acceptable (env : addba_env) (sta : sta_info) (mgmt : list Z) : Prop :=
  let capab := get_le16 mgmt 27 in
  block_ba sta = false /\
  (addba_policy capab = 1 \/ bit_set (ht_cap sta) IEEE80211_HT_CAP_DELAY_BA = true) /\
  addba_buf_size capab <= IEEE80211_MAX_AMPDU_BUF /\
  alloc_session env = true /\ alloc_buffers env = true /\
  (drv_ampdu_action env (addba_tid capab) (Z.shiftr (get_le16 mgmt 31) 4)).1 = 0.

Lemma addba_setup_status env s sta tid tok b tmo ssn :
  let r := addba_setup env s sta tid tok b tmo ssn in
  is_u16 r.2 /\ (r.2 = 0 <-> alloc_session env = true /\ alloc_buffers env = true /\
    (drv_ampdu_action env tid ssn).1 = 0).
Proof.
  unfold addba_setup; destruct (alloc_session env); simpl; [|split; [done | split; [done | naive_solver]]].
  destruct (alloc_buffers env); simpl; [|split; [done | split; [done | naive_solver]]].
  destruct (drv_ampdu_action env tid ssn) as [ret ssn']; simpl.
  destruct (Z.eqb_spec ret 0); simpl; (split; [done|]); split; try done; naive_solver.
Qed.

Lemma addba_setup_session env s sta tid tok b tmo ssn :
  (addba_setup env s sta tid tok b tmo ssn).2 = 0 -> (Z.to_nat tid < length (sessions s))%nat ->
  exists t, sessions (addba_setup env s sta tid tok b tmo ssn).1 !! Z.to_nat tid = Some (Some t) /\
    buf_size t = b /\ timeout t = tmo /\ dialog_token t = tok /\
    let ssn' := (drv_ampdu_action env tid ssn).2 in
    (ring_size b -> 0 <= ssn' < 4096 -> window t ssn' /\ stored t = []).
Proof.
  unfold addba_setup; intros E Hl; revert E.
  destruct (alloc_session env); simpl; [|done]; destruct (alloc_buffers env); simpl; [|done].
  destruct (drv_ampdu_action env tid ssn) as [ret ssn']; simpl.
  destruct (ret =? 0); simpl; [intros _ | done].
  assert (Hlen : (Z.to_nat tid < length (sessions (if mjoin (sessions s !! Z.to_nat tid) is Some _
    then stop_rx_ba_session (alloc_resp env) s sta tid WLAN_BACK_RECIPIENT
      WLAN_STATUS_UNSPECIFIED_QOS false else s)))%nat).
  { unfold stop_rx_ba_session; destruct (mjoin _); simpl; by rewrite ?length_insert. }
  eexists; split; [by apply list_lookup_insert_eq|].
  destruct (tmo =? 0); simpl; (split_and!; [done..|]); intros Hb Hs; split.
  all: try (by apply new_session_window || by apply window_set_session, new_session_window).
  all: unfold stored; apply omap_repeat_None.
Qed.

Lemma granted_range env b : 0 <= b <= 64 -> 0 <= max_rx_aggregation_subframes env ->
  0 <= granted_buf_size env b < 1024.
Proof. unfold granted_buf_size, IEEE80211_MAX_AMPDU_BUF; repeat case_match; lia. Qed.

(** An ADDBA request is answered by exactly one response, which carries the
    request's dialog token, TID and timeout; its status is success exactly when
    BA is not blocked, the policy is supported, the requested window is at most
    64, the allocations and the driver succeed; and after a success the TID has
    an empty session whose window is the one the response announces. *)
Theorem addba_request_answered env s sta mgmt : wf_sta sta -> bytes mgmt ->
  alloc_resp env = true -> 0 <= max_rx_aggregation_subframes env -> length (sessions s) = IEEE80211_NUM_TIDS ->
  let s' := ieee80211_process_addba_request env s sta mgmt in
  let capab := get_le16 mgmt 27 in
  exists f r, sent s' = sent s ++ [f] /\ parse_addba_resp f = Some r /\
    resp_token r = mgmt.[26] /\ resp_timeout r = get_le16 mgmt 29 /\
    addba_tid (resp_capab r) = addba_tid capab /\
    (resp_status r = WLAN_STATUS_SUCCESS <-> addba_acceptable env sta mgmt) /\
    (resp_status r = WLAN_STATUS_SUCCESS ->
      exists t, sessions s' !! Z.to_nat (addba_tid capab) = Some (Some t) /\
        buf_size t = addba_buf_size (resp_capab r) /\
        let ssn := (drv_ampdu_action env (addba_tid capab) (Z.shiftr (get_le16 mgmt 31) 4)).2 in
        (ring_size (buf_size t) -> 0 <= ssn < 4096 -> window t ssn /\ stored t = [])).
Proof.
  intros Hwf Hm Ha Hmax Hl; simpl; unfold ieee80211_process_addba_request; rewrite Ha.
  set (capab := get_le16 mgmt 27); set (tid := addba_tid capab); set (b := addba_buf_size capab).
  assert (Htid : 0 <= tid < 16) by (unfold tid; rewrite addba_tid_field; apply Z.mod_pos_bound; lia).
  assert (Hb : 0 <= b < 1024) by (unfold b; rewrite addba_buf_size_field; apply Z.mod_pos_bound; lia).
  pose proof (get_le16_range mgmt 29 Hm) as Htmo.
  destruct (block_ba sta) eqn:Ebl.
  { destruct (parse_sent_addba_resp s sta tid (mgmt.[26]) WLAN_STATUS_REQUEST_DECLINED b (get_le16 mgmt 29))
      as (f & Ef & Ep); [done | done | done | done | done |].
    eexists f, _; split_and!; [exact Ef | exact Ep | done | done | by apply addba_fields | | done].
    unfold addba_acceptable; rewrite Ebl; simpl; split; [done | naive_solver]. }
  destruct (_ || (b >? IEEE80211_MAX_AMPDU_BUF)) eqn:Ebad.
  { destruct (parse_sent_addba_resp s sta tid (mgmt.[26]) WLAN_STATUS_INVALID_QOS_PARAM b (get_le16 mgmt 29))
      as (f & Ef & Ep); [done | done | done | done | done |].
    eexists f, _; split_and!; [exact Ef | exact Ep | done | done | by apply addba_fields | | done].
    unfold addba_acceptable; simpl; split; [done|].
    intros (_ & Hpol & Hsz & _); exfalso; fold capab b in Hpol, Hsz.
    destruct (Z.eqb_spec (addba_policy capab) 1); destruct Hpol as [|Hd]; try done;
      try rewrite Hd in Ebad; simpl in Ebad; rewrite Z.gtb_ltb in Ebad; lia. }
  apply orb_false_iff in Ebad as [Epol Esz]; rewrite Z.gtb_ltb in Esz; apply Z.ltb_ge in Esz.
  set (g := granted_buf_size env b).
  assert (Hg : 0 <= g < 1024) by (apply granted_range; [unfold IEEE80211_MAX_AMPDU_BUF in Esz; lia | done]).
  set (ssn := Z.shiftr (get_le16 mgmt 31) 4).
  pose proof (addba_setup_status env s sta tid (mgmt.[26]) g (get_le16 mgmt 29) ssn) as [Hst Hiff].
  pose proof (addba_setup_session env s sta tid (mgmt.[26]) g (get_le16 mgmt 29) ssn) as Hsess.
  pose proof (sent_addba_setup env s sta tid (mgmt.[26]) g (get_le16 mgmt 29) ssn) as Hsent.
  destruct (addba_setup env s sta tid _ g _ ssn) as [s1 status]; simpl in *.
  destruct (parse_sent_addba_resp s1 sta tid (mgmt.[26]) status g (get_le16 mgmt 29))
    as (f & Ef & Ep); [done | done | done | done | done |].
  rewrite Hsent in Ef.
  eexists f, _; split_and!; [exact Ef | exact Ep | done | done | by apply addba_fields | |]; simpl.
  - unfold addba_acceptable; fold capab tid b ssn; rewrite Hiff.
    split; [intros (?&?&?); split_and!; try done | naive_solver].
    destruct (Z.eqb_spec (addba_policy capab) 1); [by left | right].
    by destruct (bit_set _ _).
  - intros E; destruct (Hsess E) as (t & Ht & Hbt & _ & _ & Hwt).
    { rewrite Hl; unfold IEEE80211_NUM_TIDS; lia. }
    exists t; split_and!; [done | |].
    + by rewrite (proj2 (proj2 (addba_fields tid g Htid Hg))).
    + rewrite Hbt; exact Hwt.
Qed.

(** A request for a window of three on TID 0, and a driver that accepts. *)
Definition sample_sta : sta_info :=
  Sta [1; 2; 3; 4; 5; 6] false 0 IFTYPE_STATION [7; 7; 7; 7; 7; 7] [8; 8; 8; 8; 8; 8].
Definition sample_env : addba_env :=
  {| alloc_resp := true; alloc_session := true; alloc_buffers := true;
     max_rx_aggregation_subframes := 64; drv_ampdu_action := fun _ ssn => (0, ssn);
     env_usecs_to_jiffies := fun us => us / 10000; env_jiffies := 1000; stale_last_rx := 0 |}.
Definition sample_request : list Z :=
  repeat 0 24 ++ [3; 0; 9] ++ put_le16 (2 + 64 * 3) ++ put_le16 0 ++ put_le16 0.
Definition sample_state : agg_state :=
  Agg (repeat None 16) (repeat false 16) (repeat false 16) false [] [] [].

Lemma addba_request_answered_witness :
  let s' := ieee80211_process_addba_request sample_env sample_state sample_sta sample_request in
  let capab := get_le16 sample_request 27 in
  exists f r, sent s' = [] ++ [f] /\ parse_addba_resp f = Some r /\
    resp_token r = sample_request.[26] /\ resp_timeout r = get_le16 sample_request 29 /\
    addba_tid (resp_capab r) = addba_tid capab /\
    (resp_status r = WLAN_STATUS_SUCCESS <-> addba_acceptable sample_env sample_sta sample_request) /\
    (resp_status r = WLAN_STATUS_SUCCESS ->
      exists t, sessions s' !! Z.to_nat (addba_tid capab) = Some (Some t) /\
        buf_size t = addba_buf_size (resp_capab r) /\
        let ssn := (drv_ampdu_action sample_env (addba_tid capab) (Z.shiftr (get_le16 sample_request 31) 4)).2 in
        (ring_size (buf_size t) -> 0 <= ssn < 4096 -> window t ssn /\ stored t = [])).
Proof.
  apply (addba_request_answered sample_env sample_state sample_sta sample_request); try done; by_eval.
Defined.

(** A peer can get a window size that does not divide 4096: the request for
    three is granted as it is, and the session runs with a ring of three, for
    which the slot computation aliases at the wrap of the sequence numbers. *)
Theorem addba_grants_unsound_window :
  let s' := ieee80211_process_addba_request sample_env sample_state sample_sta sample_request in
  sessions s' !! 0%nat = Some (Some (new_session 3 0 0 9 0)) /\ ~ ring_size 3 /\
  rx_run 100 (new_session 3 0 0 9 0)
      [EvBar 2047; EvBar 4094; EvBar 4095; EvFrame 5 (data_frame 0 1); EvFrame 6 (data_frame 4095 2)] =
    Some (set_head (set_time (new_session 3 0 0 9 0) [5; 0; 0]) 0,
      [deferred (data_frame 0 1)], [data_frame 4095 2]).
Proof. split_and!; [reflexivity | intros [_ E]; vm_compute in E; done | vm_compute; reflexivity]. Qed.

End AggRx.
