(* ===== verification/Radiotap.v ===== *)
(** * Radiotap header iterator

    [net/wireless/radiotap.c].  The buffer the header lies in is a byte list;
    pointers are offsets from the start of the header.  A load past the end of
    the buffer, or the use of the never assigned [_next_ns_data] pointer, is a
    fault. *)

From S2P Require Import Prelude.

Module Radiotap.

(** ** Data *)

Definition IEEE80211_RADIOTAP_TSFT : Z := 0.
Definition IEEE80211_RADIOTAP_RADIOTAP_NAMESPACE : Z := 29.
Definition IEEE80211_RADIOTAP_VENDOR_NAMESPACE : Z := 30.
Definition IEEE80211_RADIOTAP_EXT : Z := 31.
Definition EINVAL : Z := 22.
Definition ENOENT : Z := 2.

Record radiotap_align_size := AS { align : Z; size : Z }.

(** Entry 18 has no initialiser in the source table. *)
Definition rtap_namespace_sizes : list radiotap_align_size :=
  [AS 8 8; AS 1 1; AS 1 1; AS 2 4; AS 2 2; AS 1 1; AS 1 1; AS 2 2; AS 2 2; AS 2 2; AS 1 1;
   AS 1 1; AS 1 1; AS 1 1; AS 2 2; AS 2 2; AS 1 1; AS 1 1; AS 0 0; AS 1 3; AS 4 8].

Record vendor_namespace := VNS { ns_sizes : list radiotap_align_size; oui : Z; subns : Z }.

(** [&radiotap_ns] or a registered vendor namespace. *)
Inductive namespace := NsRadiotap | NsVendor (ns : vendor_namespace).

Definition align_sizes (n : namespace) : list radiotap_align_size :=
  match n with NsRadiotap => rtap_namespace_sizes | NsVendor ns => ns_sizes ns end.

Inductive fault := ReadPast | Uninitialised.

Record ieee80211_radiotap_iterator := It {
  vns : option (list vendor_namespace);
  current_namespace : option namespace;
  arg : Z;
  next_ns_data : option Z;
  next_bitmap : Z;
  this_arg : Z;
  this_arg_index : Z;
  this_arg_size : Z;
  is_radiotap_ns : bool;
  max_length : Z;
  arg_index : Z;
  bitmap_shifter : Z;
  reset_on_ext : bool }.

(** Loads from the buffer. *)
Definition rd8 (b : list Z) (o : Z) : fault + Z :=
  if (0 <=? o) && (o + 1 <=? Z.of_nat (length b)) then inr (b.[Z.to_nat o]) else inl ReadPast.
Definition rd16 (b : list Z) (o : Z) : fault + Z :=
  if (0 <=? o) && (o + 2 <=? Z.of_nat (length b)) then inr (get_le16 b (Z.to_nat o)) else inl ReadPast.
Definition rd32 (b : list Z) (o : Z) : fault + Z :=
  if (0 <=? o) && (o + 4 <=? Z.of_nat (length b)) then inr (get_le32 b (Z.to_nat o)) else inl ReadPast.

Definition bind {A B} (x : fault + A) (f : A -> fault + B) : fault + B :=
  match x with inl e => inl e | inr a => f a end.
Notation "'let!' x := e 'in' k" := (bind e (fun x => k)) (at level 10, x pattern, k at level 200).

Definition has_ext (w : Z) : bool := Z.testbit w IEEE80211_RADIOTAP_EXT.

(** ** Initialisation *)

(** The scan over the extended bitmaps; [inr None] is [-EINVAL]. *)
Fixpoint skip_ext (fuel : nat) (b : list Z) (maxl : Z) (a : Z) : option (fault + option Z) :=
  match rd32 b a with
  | inl e => Some (inl e)
  | inr w =>
      if has_ext w then
        let a := a + 4 in
        if a >? maxl then Some (inr None)
        else match fuel with O => None | S fuel => skip_ext fuel b maxl a end
      else Some (inr (Some (a + 4)))
  end.

Definition iterator_init (b : list Z) (max_len : Z) (v : option (list vendor_namespace))
    : option (fault + (Z * option ieee80211_radiotap_iterator)) :=
  match rd8 b 0 with inl e => Some (inl e) | inr it_version =>
  if negb (it_version =? 0) then Some (inr (- EINVAL, None)) else
  match rd16 b 2 with inl e => Some (inl e) | inr it_len =>
  if max_len <? it_len then Some (inr (- EINVAL, None)) else
  match rd32 b 4 with inl e => Some (inl e) | inr it_present =>
  let mk a := It v (Some NsRadiotap) a None 8 a 0 0 true it_len 0 it_present false in
  if has_ext it_present then
    r ← skip_ext (length b) b it_len 8;
    match r with
    | inl e => Some (inl e)
    | inr None => Some (inr (- EINVAL, None))
    | inr (Some a) => Some (inr (0, Some (mk a)))
    end
  else Some (inr (0, Some (mk 8)))
  end end end.

(** ** Iteration *)

Definition find_ns (v : option (list vendor_namespace)) (o s : Z) : option namespace :=
  l ← v;
  '(_, ns) ← list_find (fun n => oui n = o /\ subns n = s) l;
  Some (NsVendor ns).

(** One turn of the loop: go on, or return a code. *)
Inductive turn := Continue (it : ieee80211_radiotap_iterator)
  | Return (code : Z) (it : ieee80211_radiotap_iterator).

Definition next_entry (hit : bool) (it : ieee80211_radiotap_iterator) : turn :=
  let it := It (vns it) (current_namespace it) (arg it) (next_ns_data it) (next_bitmap it)
    (this_arg it) (this_arg_index it) (this_arg_size it) (is_radiotap_ns it) (max_length it)
    (arg_index it + 1) (Z.shiftr (bitmap_shifter it) 1) (reset_on_ext it) in
  if hit then Return 0 it else Continue it.

(** Alignment and size of the current argument. *)
Inductive align_result := Sized (a s : Z) | GiveUp | NoMore.

Definition arg_align (it : ieee80211_radiotap_iterator) : align_result :=
  let i := arg_index it mod 32 in
  if (i =? IEEE80211_RADIOTAP_RADIOTAP_NAMESPACE) || (i =? IEEE80211_RADIOTAP_EXT) then Sized 1 0
  else if i =? IEEE80211_RADIOTAP_VENDOR_NAMESPACE then Sized 2 6
  else match current_namespace it with
  | None => GiveUp
  | Some n =>
      match align_sizes n !! Z.to_nat (arg_index it) with
      | None => match n with NsRadiotap => NoMore | NsVendor _ => GiveUp end
      | Some e => if align e =? 0 then GiveUp else Sized (align e) (size e)
      end
  end.

Definition pad_to (a o : Z) : Z :=
  let pad := Z.land o (a - 1) in if pad =? 0 then o else o + (a - pad).

(** The vendor namespace block: namespace, [_next_ns_data] and the new size. *)
Definition vendor_block (b : list Z) (it : ieee80211_radiotap_iterator) (a sz : Z)
    : fault + option (option namespace * Z * Z) :=
  if a + sz >? max_length it then inr None
  else
    let! b0 := rd8 b a in
    let! b1 := rd8 b (a + 1) in
    let! b2 := rd8 b (a + 2) in
    let! b3 := rd8 b (a + 3) in
    let! vnslen := rd16 b (a + 4) in
    let ns := find_ns (vns it) (Z.lor (Z.lor (Z.shiftl b0 16) (Z.shiftl b1 8)) b2) b3 in
    inr (Some (ns, a + sz + vnslen, if ns is None then sz + vnslen else sz)).

(** After the argument has been accounted for: the second [switch]. *)
Definition dispatch (b : list Z) (it : ieee80211_radiotap_iterator) : fault + turn :=
  let i := arg_index it mod 32 in
  if i =? IEEE80211_RADIOTAP_VENDOR_NAMESPACE then
    inr (next_entry (if current_namespace it is None then true else false)
      (It (vns it) (current_namespace it) (arg it) (next_ns_data it) (next_bitmap it)
        (this_arg it) IEEE80211_RADIOTAP_VENDOR_NAMESPACE (this_arg_size it) false (max_length it)
        (arg_index it) (bitmap_shifter it) true))
  else if i =? IEEE80211_RADIOTAP_RADIOTAP_NAMESPACE then
    inr (next_entry false
      (It (vns it) (Some NsRadiotap) (arg it) (next_ns_data it) (next_bitmap it)
        (this_arg it) (this_arg_index it) (this_arg_size it) true (max_length it)
        (arg_index it) (bitmap_shifter it) true))
  else if i =? IEEE80211_RADIOTAP_EXT then
    let! w := rd32 b (next_bitmap it) in
    inr (Continue
      (It (vns it) (current_namespace it) (arg it) (next_ns_data it) (next_bitmap it + 4)
        (this_arg it) (this_arg_index it) (this_arg_size it) (is_radiotap_ns it) (max_length it)
        (if reset_on_ext it then 0 else arg_index it + 1) w false))
  else inr (next_entry true it).

Definition next_turn (b : list Z) (it : ieee80211_radiotap_iterator) : fault + turn :=
  let i := arg_index it mod 32 in
  let present := Z.testbit (bitmap_shifter it) 0 in
  if (i =? IEEE80211_RADIOTAP_EXT) && negb present then inr (Return (- ENOENT) it)
  else if negb present then inr (next_entry false it)
  else match arg_align it with
  | NoMore => inr (Return (- ENOENT) it)
  | GiveUp =>
      match next_ns_data it with
      | None => inl Uninitialised
      | Some p =>
          inr (next_entry false
            (It (vns it) None p (next_ns_data it) (next_bitmap it)
              (this_arg it) (this_arg_index it) (this_arg_size it) (is_radiotap_ns it)
              (max_length it) (arg_index it) (bitmap_shifter it) (reset_on_ext it)))
      end
  | Sized al sz =>
      let a := pad_to al (arg it) in
      let! r := (if i =? IEEE80211_RADIOTAP_VENDOR_NAMESPACE then
                   let! v := vendor_block b it a sz in
                   inr (option_map (fun '(ns, p, s) => (ns, Some p, s)) v)
                 else inr (Some (current_namespace it, next_ns_data it, sz))) in
      match r with
      | None =>
          inr (Return (- EINVAL)
            (It (vns it) (current_namespace it) a (next_ns_data it) (next_bitmap it)
              (this_arg it) (this_arg_index it) (this_arg_size it) (is_radiotap_ns it)
              (max_length it) (arg_index it) (bitmap_shifter it) (reset_on_ext it)))
      | Some (ns, p, sz) =>
          let it := It (vns it) ns (a + sz) p (next_bitmap it) a (arg_index it) sz
            (is_radiotap_ns it) (max_length it) (arg_index it) (bitmap_shifter it)
            (reset_on_ext it) in
          if arg it >? max_length it then inr (Return (- EINVAL) it)
          else dispatch b it
      end
  end.

Fixpoint iterator_next (fuel : nat) (b : list Z) (it : ieee80211_radiotap_iterator)
    : option (fault + (Z * ieee80211_radiotap_iterator)) :=
  match next_turn b it with
  | inl e => Some (inl e)
  | inr (Return c it) => Some (inr (c, it))
  | inr (Continue it) => match fuel with O => None | S fuel => iterator_next fuel b it end
  end.

(** One turn per bit of each present word. *)
Definition next_fuel (b : list Z) : nat := (8 * length b + 32)%nat.

(** The caller's loop: all arguments until the first non-zero code. *)
Fixpoint walk (fuel : nat) (b : list Z) (it : ieee80211_radiotap_iterator)
    : option (fault + (list (Z * Z * Z) * Z)) :=
  match iterator_next (next_fuel b) b it with
  | None => None
  | Some (inl e) => Some (inl e)
  | Some (inr (c, it')) =>
      if negb (c =? 0) then Some (inr ([], c))
      else match fuel with
      | O => None
      | S fuel =>
          match walk fuel b it' with
          | Some (inr (l, c)) => Some (inr ((this_arg_index it', this_arg it', this_arg_size it') :: l, c))
          | r => r
          end
      end
  end.

(** ** Invariant *)

Definition word (b : list Z) (k : Z) : Z := get_le32 b (Z.to_nat (4 + 4 * k)).

(** The bitmaps form a chain of words [0 .. K] in the buffer, of which exactly
    the last has no extension bit. *)
Record chain (b : list Z) (K : Z) : Prop := {
  ch_pos : 0 <= K;
  ch_len : 8 + 4 * K <= Z.of_nat (length b);
  ch_ext : forall j, 0 <= j < K -> has_ext (word b j) = true;
  ch_end : has_ext (word b K) = false }.

Definition sizes_ok (l : list radiotap_align_size) : Prop :=
  Forall (fun e => 0 <= align e /\ 0 <= size e) l.
Definition ns_ok (n : option namespace) : Prop :=
  forall m, n = Some m -> sizes_ok (align_sizes m).
Definition vns_ok (v : option (list vendor_namespace)) : Prop :=
  forall l, v = Some l -> Forall (fun n => sizes_ok (ns_sizes n)) l.

(** The iterator is at bit [p] of word [k]. *)
Record at_bit (b : list Z) (K M : Z) (it : ieee80211_radiotap_iterator) (k p : Z) : Prop := {
  ab_k : 0 <= k <= K;
  ab_p : 0 <= p <= 31;
  ab_index : arg_index it mod 32 = p;
  ab_index_pos : 0 <= arg_index it;
  ab_shifter : bitmap_shifter it = Z.shiftr (word b k) p;
  ab_next : next_bitmap it = 8 + 4 * k;
  ab_arg : 0 <= arg it;
  ab_ns_data : forall q, next_ns_data it = Some q -> 0 <= q;
  ab_ns : ns_ok (current_namespace it);
  ab_given_up : current_namespace it = Some NsRadiotap \/ next_ns_data it <> None;
  ab_vns : vns_ok (vns it);
  ab_max : max_length it = M }.

Definition bits_left (K k p : Z) : Z := 32 * (K - k) + (32 - p).

Lemma rd8_ok b o : 0 <= o -> o + 1 <= Z.of_nat (length b) -> rd8 b o = inr (b.[Z.to_nat o]).
Proof. intros; unfold rd8; by rewrite (proj2 (Z.leb_le 0 o)), (proj2 (Z.leb_le _ _)). Qed.
Lemma rd16_ok b o : 0 <= o -> o + 2 <= Z.of_nat (length b) -> rd16 b o = inr (get_le16 b (Z.to_nat o)).
Proof. intros; unfold rd16; by rewrite (proj2 (Z.leb_le 0 o)), (proj2 (Z.leb_le _ _)). Qed.
Lemma rd32_ok b o : 0 <= o -> o + 4 <= Z.of_nat (length b) -> rd32 b o = inr (get_le32 b (Z.to_nat o)).
Proof. intros; unfold rd32; by rewrite (proj2 (Z.leb_le 0 o)), (proj2 (Z.leb_le _ _)). Qed.

Lemma rd32_inv b o w : rd32 b o = inr w -> 0 <= o /\ o + 4 <= Z.of_nat (length b) /\ w = get_le32 b (Z.to_nat o).
Proof.
  unfold rd32; destruct (Z.leb_spec 0 o); destruct (Z.leb_spec (o + 4) (Z.of_nat (length b))); simpl; naive_solver.
Qed.

Lemma rtap_sizes_ok : sizes_ok rtap_namespace_sizes.
Proof. unfold rtap_namespace_sizes; repeat (apply Forall_cons_2; [simpl; lia|]); by apply Forall_nil_2. Qed.

Lemma rtap_entry p : 0 <= p < 21 -> p <> 18 ->
  exists e, rtap_namespace_sizes !! Z.to_nat p = Some e /\
    (align e = 1 \/ align e = 2 \/ align e = 4 \/ align e = 8) /\ align e <> 0.
Proof.
  intros Hp Hne.
  assert (Hc : forall n : nat, (n < 21)%nat -> n <> 18%nat -> exists e, rtap_namespace_sizes !! n = Some e /\
    (align e = 1 \/ align e = 2 \/ align e = 4 \/ align e = 8) /\ align e <> 0).
  { intros n Hn H18; do 21 (destruct n as [|n]; [by first [lia | eexists; split; [done|]; simpl; split; [lia | done]]|]); lia. }
  apply Hc; lia.
Qed.

Lemma find_ns_ok v o s : vns_ok v -> ns_ok (find_ns v o s).
Proof.
  intros Hv m; unfold find_ns; destruct v as [l|]; simpl; [|done].
  destruct (list_find _ l) as [[i n]|] eqn:E; simpl; [|done]; intros; simplify_eq; simpl.
  apply list_find_Some in E as (E & _); by apply (Forall_lookup_1 _ l i n (Hv l eq_refl)).
Qed.

Lemma pad_to_ge a o : 0 < a -> 0 <= o -> o <= pad_to a o.
Proof.
  intros Ha Ho; unfold pad_to; destruct (_ =? 0); [done|].
  assert (Z.land o (a - 1) <= a - 1); [|lia].
  apply land_le_r; lia.
Qed.

Lemma shiftr_succ w p : 0 <= p -> Z.shiftr (Z.shiftr w p) 1 = Z.shiftr w (p + 1).
Proof. intros; by rewrite Z.shiftr_shiftr by lia. Qed.

(** The state reached through [next_entry]. *)
Lemma next_entry_ok b K M it k p hit : at_bit b K M it k p -> p < 31 ->
  exists it', next_entry hit it = (if hit then Return 0 it' else Continue it') /\
    at_bit b K M it' k (p + 1) /\ this_arg it' = this_arg it /\ this_arg_size it' = this_arg_size it.
Proof.
  intros [] Hp; eexists; split; [unfold next_entry; by destruct hit|]; split; [|done].
  split; simpl; try done; try lia.
  - arith.
  - by rewrite ab_shifter0, shiftr_succ by lia.
Qed.

(** One of the bitmaps has field number 18, which the table leaves undefined. *)
Definition field_18 (b : list Z) (K : Z) : Prop := exists j, 0 <= j <= K /\ Z.testbit (word b j) 18 = true.

(** What one turn may do. *)
Definition turn_ok (b : list Z) (K M : Z) (n : Z) (t : fault + turn) : Prop :=
  match t with
  | inl ReadPast => False
  | inl Uninitialised => field_18 b K
  | inr (Continue it) => exists k p, at_bit b K M it k p /\ bits_left K k p < n
  | inr (Return c it) =>
      c = - ENOENT \/ c = - EINVAL \/
      (c = 0 /\ (exists k p, at_bit b K M it k p /\ bits_left K k p < n) /\
       0 <= this_arg it /\ 0 <= this_arg_size it /\ this_arg it + this_arg_size it <= M)
  end.

Lemma next_entry_turn b K M it k p : at_bit b K M it k p -> p < 31 ->
  turn_ok b K M (bits_left K k p) (inr (next_entry false it)).
Proof.
  intros Ha Hp; destruct (next_entry_ok b K M it k p false Ha Hp) as (it' & -> & Ha' & _).
  exists k, (p + 1); split; [done | unfold bits_left; lia].
Qed.

Lemma next_entry_hit b K M it k p hit : at_bit b K M it k p -> p < 31 -> 0 <= this_arg it ->
  0 <= this_arg_size it -> this_arg it + this_arg_size it <= M ->
  turn_ok b K M (bits_left K k p) (inr (next_entry hit it)).
Proof.
  intros Ha Hp H1 H2 H3; destruct hit; [|by apply next_entry_turn].
  destruct (next_entry_ok b K M it k p true Ha Hp) as (it' & -> & Ha' & E1 & E2).
  right; right; split; [done|]; rewrite E1, E2; split; [|done].
  exists k, (p + 1); split; [done | unfold bits_left; lia].
Qed.

Lemma dispatch_ok b K M it k p : chain b K -> at_bit b K M it k p -> has_ext (word b k) = true \/ p < 31 ->
  0 <= this_arg it -> 0 <= this_arg_size it -> this_arg it + this_arg_size it <= M ->
  turn_ok b K M (bits_left K k p) (dispatch b it).
Proof.
  intros Hc Ha Hx H1 H2 H3; unfold dispatch; rewrite (ab_index _ _ _ _ _ _ Ha).
  destruct (Z.eqb_spec p IEEE80211_RADIOTAP_VENDOR_NAMESPACE) as [->|].
  { apply next_entry_hit; simpl; try done. by destruct Ha; split. }
  destruct (Z.eqb_spec p IEEE80211_RADIOTAP_RADIOTAP_NAMESPACE) as [->|].
  { apply next_entry_hit; simpl; try done. destruct Ha; split; simpl; try done.
    - intros ? [= <-]; apply rtap_sizes_ok.
    - by left. }
  destruct (Z.eqb_spec p IEEE80211_RADIOTAP_EXT) as [->|Hne].
  - destruct Hx as [Hx|]; [|done].
    assert (Hk : k < K).
    { destruct (decide (k = K)) as [->|]; [by rewrite (ch_end _ _ Hc) in Hx | destruct Ha; lia]. }
    pose proof (ch_len _ _ Hc); destruct Ha.
    rewrite ab_next0, rd32_ok by lia; simpl.
    exists (k + 1), 0; split; [|unfold bits_left, IEEE80211_RADIOTAP_EXT; lia].
    split; simpl; try done; try lia.
    + destruct (reset_on_ext it); unfold IEEE80211_RADIOTAP_EXT in *; [done | arith].
    + destruct (reset_on_ext it); lia.
    + rewrite Z.shiftr_0_r; unfold word; do 2 f_equal; lia.
  - apply next_entry_hit; try done; unfold IEEE80211_RADIOTAP_EXT in *; destruct Ha; lia.
Qed.

#[local] Arguments next_entry : simpl never.
#[local] Arguments turn_ok : simpl never.

Lemma present_bit b K M it k p : at_bit b K M it k p ->
  Z.testbit (bitmap_shifter it) 0 = Z.testbit (word b k) p.
Proof. intros []; rewrite ab_shifter0, Z.shiftr_spec by lia; f_equal; lia. Qed.

Lemma arg_align_sized b K M it k p al sz : at_bit b K M it k p ->
  arg_align it = Sized al sz -> 0 < al /\ 0 <= sz.
Proof.
  intros Ha; unfold arg_align; repeat (case_match; try done); intros; simplify_eq; try lia.
  match goal with E : _ !! _ = Some ?e |- _ =>
    pose proof (Forall_lookup_1 _ _ _ _ (ab_ns _ _ _ _ _ _ Ha _ ltac:(eassumption)) E) as [? ?] end.
  split; [lia | done].
Qed.

(** The iterator gives up on a field of the radiotap namespace only for field
    18. *)
Lemma arg_align_give_up b K M it k p : at_bit b K M it k p -> Z.testbit (word b k) p = true ->
  arg_align it = GiveUp -> next_ns_data it = None -> field_18 b K.
Proof.
  intros Ha Ht Hg Hn; destruct (ab_given_up _ _ _ _ _ _ Ha) as [Hc|]; [|done].
  pose proof (ab_index _ _ _ _ _ _ Ha) as Hi; pose proof (ab_index_pos _ _ _ _ _ _ Ha) as Hpos.
  unfold arg_align in Hg; rewrite Hc in Hg; cbn [align_sizes] in Hg.
  destruct (_ || _); [done|]; destruct (_ =? IEEE80211_RADIOTAP_VENDOR_NAMESPACE); [done|].
  destruct (rtap_namespace_sizes !! Z.to_nat (arg_index it)) as [e|] eqn:E; [|done].
  assert (H21 : arg_index it < 21).
  { apply lookup_lt_Some in E; change (length rtap_namespace_sizes) with 21%nat in E; lia. }
  destruct (decide (arg_index it = 18)) as [H18|H18].
  - exists k; split; [apply (ab_k _ _ _ _ _ _ Ha)|]; rewrite <- Ht, <- Hi, H18; done.
  - destruct (rtap_entry (arg_index it)) as (e' & He' & _ & Hz); [done..|].
    rewrite E in He'; injection He' as ->; by rewrite (proj2 (Z.eqb_neq _ _) Hz) in Hg.
Qed.

Lemma vendor_block_ok b K M it k p a sz : at_bit b K M it k p -> M <= Z.of_nat (length b) ->
  bytes b -> 0 <= a -> sz = 6 ->
  vendor_block b it a sz = inr None \/
  exists ns q s, vendor_block b it a sz = inr (Some (ns, q, s)) /\ ns_ok ns /\ 0 <= q /\ 0 <= s.
Proof.
  intros Ha HM Hb Hpos ->; unfold vendor_block; rewrite (ab_max _ _ _ _ _ _ Ha).
  destruct (a + 6 >? M) eqn:E; [by left | right]; rewrite Z.gtb_ltb in E; apply Z.ltb_ge in E.
  rewrite !rd8_ok, rd16_ok by lia; simpl.
  pose proof (get_le16_range b (Z.to_nat (a + 4)) Hb) as [? _].
  eexists _, _, _; split; [done|]; split_and!; [apply find_ns_ok, Ha | lia | case_match; lia].
Qed.

Lemma next_turn_ok b K M it k p : bytes b -> chain b K -> M <= Z.of_nat (length b) ->
  at_bit b K M it k p -> turn_ok b K M (bits_left K k p) (next_turn b it).
Proof.
  intros Hb Hc HM Ha; unfold next_turn; rewrite (present_bit _ _ _ _ _ _ Ha), (ab_index _ _ _ _ _ _ Ha).
  destruct (Z.testbit (word b k) p) eqn:Et.
  2: { destruct (Z.eqb_spec p IEEE80211_RADIOTAP_EXT) as [|Hp]; [by left|].
    apply (next_entry_turn b K M it k p Ha); unfold IEEE80211_RADIOTAP_EXT in Hp; destruct Ha; lia. }
  rewrite andb_false_r; simpl.
  assert (Hx : has_ext (word b k) = true \/ p < 31).
  { destruct (decide (p = 31)) as [->|]; [by left | right; destruct Ha; lia]. }
  destruct (arg_align it) as [al sz| |] eqn:Eal; [| |by left].
  2: { destruct (next_ns_data it) as [q|] eqn:Eq; [|by apply (arg_align_give_up b K M it k p)].
    apply (next_entry_turn b K M _ k p).
    - pose proof (ab_ns_data _ _ _ _ _ _ Ha q Eq); destruct Ha; split; simpl; try done.
      + intros; by simplify_eq.
      + by right.
    - destruct (decide (p = 31)) as [->|]; [|destruct Ha; lia].
      unfold arg_align in Eal; by rewrite (ab_index _ _ _ _ _ _ Ha) in Eal. }
  destruct (arg_align_sized _ _ _ _ _ _ _ _ Ha Eal) as [Hal Hsz].
  pose proof (pad_to_ge al (arg it) Hal (ab_arg _ _ _ _ _ _ Ha)) as Hpad.
  pose proof (ab_arg _ _ _ _ _ _ Ha) as Harg.
  set (a := pad_to al (arg it)) in *.
  assert (Hr : (exists ns q s, (if p =? IEEE80211_RADIOTAP_VENDOR_NAMESPACE then
      let! v := vendor_block b it a sz in inr (option_map (fun '(ns, p, s) => (ns, Some p, s)) v)
      else inr (Some (current_namespace it, next_ns_data it, sz))) = inr (Some (ns, q, s)) /\
      ns_ok ns /\ (forall x, q = Some x -> 0 <= x) /\ (ns = Some NsRadiotap \/ q <> None) /\ 0 <= s) \/
    (if p =? IEEE80211_RADIOTAP_VENDOR_NAMESPACE then
      let! v := vendor_block b it a sz in inr (option_map (fun '(ns, p, s) => (ns, Some p, s)) v)
      else inr (Some (current_namespace it, next_ns_data it, sz))) = inr None).
  { destruct (Z.eqb_spec p IEEE80211_RADIOTAP_VENDOR_NAMESPACE) as [->|].
    - assert (sz = 6) as ->.
      { unfold arg_align in Eal; rewrite (ab_index _ _ _ _ _ _ Ha) in Eal; by simplify_eq/=. }
      destruct (vendor_block_ok b K M it k _ a 6 Ha HM Hb) as [->|(ns & q & s & -> & ?)]; [lia | done | by right |].
      left; simpl; eexists _, _, _; split; [done|]; destruct_and?; split_and!; [done | by intros ? [= <-] | by right | done].
    - left; eexists _, _, _; split; [done|]; split_and!; [apply Ha | apply Ha | apply (ab_given_up _ _ _ _ _ _ Ha) | done]. }
  destruct Hr as [(ns & q & s & -> & Hns & Hq & Hg & Hs)| ->]; simpl; [|by right; left].
  destruct (a + s >? max_length it) eqn:Em; [by right; left|].
  rewrite Z.gtb_ltb in Em; apply Z.ltb_ge in Em; rewrite (ab_max _ _ _ _ _ _ Ha) in Em.
  apply dispatch_ok; try done; simpl; [|lia].
  destruct Ha; split; simpl; try done; lia.
Qed.

(** What a call of [iterator_next] returns. *)
Definition call_ok (b : list Z) (K M : Z) (n : Z) (r : fault + (Z * ieee80211_radiotap_iterator)) : Prop :=
  match r with
  | inl ReadPast => False
  | inl Uninitialised => field_18 b K
  | inr (c, it) => turn_ok b K M n (inr (Return c it))
  end.

Lemma iterator_next_ok fuel b K M it k p : bytes b -> chain b K -> M <= Z.of_nat (length b) ->
  at_bit b K M it k p -> bits_left K k p <= Z.of_nat fuel ->
  exists r, iterator_next fuel b it = Some r /\ call_ok b K M (bits_left K k p) r.
Proof.
  intros Hb Hc HM; revert it k p; induction fuel as [|fuel IH]; intros it k p Ha Hf.
  { unfold bits_left in Hf; destruct Ha; lia. }
  pose proof (next_turn_ok b K M it k p Hb Hc HM Ha) as Ht; simpl.
  unfold turn_ok in Ht; destruct (next_turn b it) as [[]|[it'|c it']]; [done | by eexists | | by eexists].
  destruct Ht as (k' & p' & Ha' & Hlt).
  destruct (IH it' k' p' Ha') as (r & -> & Hr); [lia|].
  exists r; split; [done|]; destruct r as [[]|[c it'']]; simpl in *; unfold turn_ok in *; [done.. |].
  destruct Hr as [?|[?|(? & (k2 & p2 & ? & ?) & ?)]]; [by left | by right; left | right; right].
  destruct_and?; split_and!; try done; exists k2, p2; split; [done | lia].
Qed.

(** ** Initialisation establishes the invariant *)

Lemma skip_ext_ok b M k fuel : 1 <= k -> (forall j, 0 <= j < k -> has_ext (word b j) = true) ->
  Z.max M (4 + 4 * k) + 4 <= Z.of_nat (length b) -> Z.of_nat (length b) - 4 * k <= 4 * Z.of_nat fuel ->
  exists r, skip_ext fuel b M (4 + 4 * k) = Some (inr r) /\
    forall a, r = Some a -> exists K, chain b K /\ a = 8 + 4 * K.
Proof.
  revert k; induction fuel as [|fuel IH]; intros k Hk Hx Hl Hf; [lia|].
  simpl; rewrite rd32_ok by lia; fold (word b k).
  destruct (has_ext (word b k)) eqn:E.
  - destruct (4 + 4 * k + 4 >? M) eqn:Em; [by eexists|]; rewrite Z.gtb_ltb in Em; apply Z.ltb_ge in Em.
    replace (4 + 4 * k + 4) with (4 + 4 * (k + 1)) by lia.
    apply IH; try lia; intros j Hj; destruct (decide (j = k)) as [->|]; [done | apply Hx; lia].
  - eexists; split; [done|]; intros a [= <-]; exists k; split; [|lia].
    split; [lia | lia | done | done].
Qed.

Lemma iterator_init_ok b maxl v : bytes b -> vns_ok v -> 12 <= Z.of_nat (length b) ->
  maxl + 4 <= Z.of_nat (length b) ->
  exists c o, iterator_init b maxl v = Some (inr (c, o)) /\
    forall it, o = Some it -> exists K, chain b K /\
      at_bit b K (get_le16 b 2) it 0 0 /\ get_le16 b 2 <= maxl.
Proof.
  intros Hb Hv Hl Hm; unfold iterator_init; rewrite rd8_ok, rd16_ok, rd32_ok by lia.
  destruct (negb _); [by eexists _, _|].
  change (Z.to_nat 2) with 2%nat; change (get_le32 b (Z.to_nat 4)) with (word b 0).
  destruct (Z.ltb_spec maxl (get_le16 b 2)) as [|Hlen]; [by eexists _, _|].
  assert (Hab : forall K a, 0 <= K -> 0 <= a -> at_bit b K (get_le16 b 2)
    (It v (Some NsRadiotap) a None 8 a 0 0 true (get_le16 b 2) 0 (word b 0) false) 0 0).
  { intros; split; simpl; try done; try lia.
    - intros ? [= <-]; apply rtap_sizes_ok.
    - by left. }
  destruct (has_ext (word b 0)) eqn:E.
  - destruct (skip_ext_ok b (get_le16 b 2) 1 (length b)) as (r & Hs & Hr); [lia | | lia | lia |].
    { intros j Hj; by replace j with 0 by lia. }
    change (4 + 4 * 1) with 8 in Hs; rewrite Hs; simpl; destruct r as [a|]; [|by eexists _, _].
    destruct (Hr a eq_refl) as (K & Hc & ->); eexists _, _; split; [done|]; intros it [= <-].
    pose proof (ch_pos _ _ Hc).
    exists K; split_and!; [done | apply Hab; lia | done].
  - eexists _, _; split; [done|]; intros it [= <-]; exists 0; split_and!; [|apply Hab; lia | done].
    split; [lia | lia | intros; lia | done].
Qed.

Definition in_header (M : Z) (f : Z * Z * Z) : Prop :=
  0 <= f.1.2 /\ 0 <= f.2 /\ f.1.2 + f.2 <= M.

Lemma bits_left_fuel b K k p : chain b K -> 0 <= k -> 0 <= p ->
  bits_left K k p <= Z.of_nat (next_fuel b).
Proof. intros [] **; unfold bits_left, next_fuel; lia. Qed.

(** How a walk ends. *)
Definition walk_result (b : list Z) (K M : Z) (r : fault + (list (Z * Z * Z) * Z)) : Prop :=
  match r with
  | inl ReadPast => False
  | inl Uninitialised => field_18 b K
  | inr (l, c) => (c = - ENOENT \/ c = - EINVAL) /\ Forall (in_header M) l
  end.

Lemma walk_ok fuel b K M it k p : bytes b -> chain b K -> M <= Z.of_nat (length b) ->
  at_bit b K M it k p -> bits_left K k p <= Z.of_nat fuel ->
  exists r, walk fuel b it = Some r /\ walk_result b K M r.
Proof.
  intros Hb Hc HM; revert it k p; induction fuel as [|fuel IH]; intros it k p Ha Hf.
  { unfold bits_left in Hf; destruct Ha; lia. }
  destruct (iterator_next_ok (next_fuel b) b K M it k p Hb Hc HM Ha) as (r & E & Hr).
  { apply bits_left_fuel; [done | destruct Ha; lia..]. }
  simpl; rewrite E; destruct r as [[]|[c it']]; simpl in Hr; [done | by eexists |].
  unfold turn_ok in Hr.
  destruct (Z.eqb_spec c 0) as [->|Hne]; simpl.
  2: { eexists; split; [done|]; split; [|by apply Forall_nil_2].
    destruct Hr as [|[|[]]]; [by left | by right | done]. }
  destruct Hr as [|[|(_ & (k' & p' & Ha' & Hlt) & H1 & H2 & H3)]]; [done.. |].
  destruct (IH it' k' p' Ha') as (r & -> & Hr); [lia|].
  destruct r as [e|[l c]]; eexists; (split; [done|]); [done|].
  destruct Hr as [? ?]; split; [done|]; by apply Forall_cons_2.
Qed.

(** ** The fields a plain header describes *)

Definition align_up (al o : Z) : Z := (o + al - 1) / al * al.

(** Bits [p], [p + 1], ... of [P] in order, each at the next offset aligned for it. *)
Fixpoint fields (n : nat) (P p o : Z) : list (Z * Z * Z) :=
  match n with
  | O => []
  | S n =>
      if Z.testbit P p then
        match rtap_namespace_sizes !! Z.to_nat p with
        | None => []
        | Some e =>
            let o' := align_up (align e) o in (p, o', size e) :: fields n P (p + 1) (o' + size e)
        end
      else fields n P (p + 1) o
  end.

(** Only fields of the radiotap table are present. *)
Definition plain_bitmap (P : Z) : Prop := forall p, Z.testbit P p = true -> 0 <= p < 21 /\ p <> 18.

Definition st (v : option (list vendor_namespace)) (M P p o ta ti ts : Z) : ieee80211_radiotap_iterator :=
  It v (Some NsRadiotap) o None 8 ta ti ts true M p (Z.shiftr P p) false.

Lemma pad_to_align al o : al = 1 \/ al = 2 \/ al = 4 \/ al = 8 -> pad_to al o = align_up al o.
Proof.
  unfold pad_to, align_up; intros [->|[->|[->| ->]]].
  - rewrite Z.land_0_r; simpl; rewrite Z.div_1_r; lia.
  - change (2 - 1) with (Z.ones 1); rewrite Z.land_ones by lia; destruct (Z.eqb_spec (o mod 2 ^ 1) 0); arith.
  - change (4 - 1) with (Z.ones 2); rewrite Z.land_ones by lia; destruct (Z.eqb_spec (o mod 2 ^ 2) 0); arith.
  - change (8 - 1) with (Z.ones 3); rewrite Z.land_ones by lia; destruct (Z.eqb_spec (o mod 2 ^ 3) 0); arith.
Qed.

Lemma turn_skip b v M P p o ta ti ts : 0 <= p < 31 -> Z.testbit P p = false ->
  next_turn b (st v M P p o ta ti ts) = inr (Continue (st v M P (p + 1) o ta ti ts)).
Proof.
  intros Hp Hb; unfold next_turn; simpl.
  rewrite <- Z.bit0_odd, Z.shiftr_spec, Z.add_0_l by lia; rewrite Hb, andb_true_r; simpl.
  rewrite Z.mod_small by lia; destruct (Z.eqb_spec p IEEE80211_RADIOTAP_EXT); [unfold IEEE80211_RADIOTAP_EXT in *; lia|].
  unfold next_entry, st; simpl; by rewrite shiftr_succ by lia.
Qed.

Lemma turn_end b v M P o ta ti ts : Z.testbit P 31 = false ->
  next_turn b (st v M P 31 o ta ti ts) = inr (Return (- ENOENT) (st v M P 31 o ta ti ts)).
Proof.
  intros Hb; unfold next_turn, st; cbn [arg_index bitmap_shifter].
  rewrite Z.shiftr_spec, Z.add_0_l by lia; by rewrite Hb.
Qed.

Lemma turn_hit b v M P p o ta ti ts e : 0 <= p < 21 -> p <> 18 -> Z.testbit P p = true ->
  rtap_namespace_sizes !! Z.to_nat p = Some e -> align_up (align e) o + size e <= M ->
  next_turn b (st v M P p o ta ti ts) =
  inr (Return 0 (st v M P (p + 1) (align_up (align e) o + size e) (align_up (align e) o) p (size e))).
Proof.
  intros Hp Hne Hb He Hm; destruct (rtap_entry p Hp Hne) as (e' & He' & Hal & Hal0).
  rewrite He in He'; simplify_eq.
  assert (Ex : forall c, 21 <= c -> (p =? c) = false) by (intros; apply Z.eqb_neq; lia).
  unfold next_turn, arg_align; simpl; rewrite <- Z.bit0_odd, Z.shiftr_spec, Z.add_0_l by lia.
  rewrite Hb, andb_false_r, Z.mod_small by lia; simpl.
  unfold IEEE80211_RADIOTAP_RADIOTAP_NAMESPACE, IEEE80211_RADIOTAP_EXT, IEEE80211_RADIOTAP_VENDOR_NAMESPACE.
  rewrite !Ex by lia; simpl; rewrite He, (proj2 (Z.eqb_neq _ _) Hal0); simpl.
  rewrite pad_to_align by done.
  rewrite Z.gtb_ltb, (proj2 (Z.ltb_ge _ _) Hm).
  unfold dispatch; simpl; rewrite Z.mod_small by lia.
  unfold IEEE80211_RADIOTAP_RADIOTAP_NAMESPACE, IEEE80211_RADIOTAP_EXT, IEEE80211_RADIOTAP_VENDOR_NAMESPACE.
  rewrite !Ex by lia; unfold next_entry, st; simpl; by rewrite shiftr_succ by lia.
Qed.

Lemma next_fields n fuel b v M P p o ta ti ts : plain_bitmap P -> p + Z.of_nat n = 31 -> 0 <= p ->
  (n <= fuel)%nat -> Forall (in_header M) (fields n P p o) ->
  match fields n P p o with
  | [] => exists it, iterator_next fuel b (st v M P p o ta ti ts) = Some (inr (- ENOENT, it))
  | (i, o', s) :: l =>
      iterator_next fuel b (st v M P p o ta ti ts) = Some (inr (0, st v M P (i + 1) (o' + s) o' i s)) /\
      exists m, i + 1 + Z.of_nat m = 31 /\ 0 <= i /\ l = fields m P (i + 1) (o' + s) /\ (m < n)%nat
  end.
Proof.
  intros HP; revert fuel p; induction n as [|n IH]; intros fuel p Hn Hp Hf Hh.
  - cbn [fields]; assert (p = 31) as -> by lia; eexists.
    destruct fuel; cbn [iterator_next]; rewrite turn_end; try done.
    all: destruct (Z.testbit P 31) eqn:E; [apply HP in E; lia | done].
  - destruct fuel as [|fuel]; [lia|]; cbn [fields] in *.
    destruct (Z.testbit P p) eqn:E.
    + destruct (HP p E) as [H21 H18]; destruct (rtap_entry p H21 H18) as (e & He & _).
      rewrite He in *; apply Forall_cons_1 in Hh as [[_ [_ H3]] _]; simpl in H3.
      split; [cbn [iterator_next]; by rewrite (turn_hit b v M P p o ta ti ts e)|].
      exists n; split_and!; [lia | lia | done | lia].
    + specialize (IH fuel (p + 1) ltac:(lia) ltac:(lia) ltac:(lia) Hh).
      cbn [iterator_next]; rewrite turn_skip by (done || lia).
      destruct (fields n P (p + 1) o) as [|[[i o'] s] l]; [done|].
      destruct IH as (? & m & ?); split; [done|]; exists m; destruct_and?; split_and!; [done.. | lia].
Qed.

Lemma walk_fields n fuel b v M P p o ta ti ts : plain_bitmap P -> p + Z.of_nat n = 31 -> 0 <= p ->
  (n <= fuel)%nat -> Forall (in_header M) (fields n P p o) ->
  walk fuel b (st v M P p o ta ti ts) = Some (inr (fields n P p o, - ENOENT)).
Proof.
  intros HP; revert fuel p o ta ti ts; induction (lt_wf n) as [n _ IH]; intros fuel p o ta ti ts Hn Hp Hf Hh.
  pose proof (next_fields n (next_fuel b) b v M P p o ta ti ts HP Hn Hp ltac:(unfold next_fuel; lia) Hh) as Hx.
  destruct (fields n P p o) as [|[[i o'] s] l].
  - destruct Hx as [it E]; destruct fuel; cbn [walk]; by rewrite E.
  - destruct Hx as (E & m & Hm & Hi & -> & Hlt); destruct fuel as [|fuel]; [lia|].
    apply Forall_cons_1 in Hh as [_ Hh]; cbn [walk]; rewrite E; cbn [negb Z.eqb].
    by rewrite (IH m Hlt fuel (i + 1) (o' + s) o' i s Hm ltac:(lia) ltac:(lia) Hh).
Qed.

(** ** Properties *)

Definition sample_header : list Z :=
  [0; 0; 15; 0] ++ put_le32 (2 ^ 1 + 2 ^ 3 + 2 ^ 5) ++ [0x10; 0; 0x85; 0x09; 0xa0; 0; 0xd0] ++ [1; 2; 3; 4].

(** The word [j] is one of the chain of bitmaps of the header. *)
Definition bitmap_word (b : list Z) (j : Z) : Prop :=
  0 <= j /\ forall i, 0 <= i < j -> has_ext (word b i) = true.

(** C39: when the buffer has four bytes behind both the fixed header of eight
    bytes and the length the caller vouches for, initialisation never reads
    outside it.  Then both loops of the iteration terminate without a read
    outside the buffer; and unless one of the bitmaps has the undefined
    field 18, they end with [-ENOENT] or [-EINVAL], and every argument handed
    to the caller lies inside the declared header, whose length is at most the
    caller's.  (With field 18 the code may go on at a pointer that
    was never set.) *)
Theorem radiotap_in_bounds b maxl v : bytes b -> vns_ok v -> Z.max 8 maxl + 4 <= Z.of_nat (length b) ->
  exists c o, iterator_init b maxl v = Some (inr (c, o)) /\
    forall it, o = Some it ->
      get_le16 b 2 <= maxl /\
      exists r, walk (next_fuel b) b it = Some r /\
        match r with
        | inl ReadPast => False
        | inl Uninitialised => exists j, bitmap_word b j /\ Z.testbit (word b j) 18 = true
        | inr (l, e) => (e = - ENOENT \/ e = - EINVAL) /\ Forall (in_header (get_le16 b 2)) l
        end.
Proof.
  intros Hb Hv Hm; destruct (iterator_init_ok b maxl v Hb Hv) as (c & o & E & Ho); [lia..|].
  exists c, o; split; [done|]; intros it Hi; destruct (Ho it Hi) as (K & Hc & Ha & Hle).
  split; [done|]; destruct (walk_ok (next_fuel b) b K (get_le16 b 2) it 0 0) as (r & -> & Hr); try done; [lia | by apply bits_left_fuel |].
  exists r; split; [done|]; destruct r as [[]|[l e]]; [done | | exact Hr].
  destruct Hr as (j & Hj & Ht); exists j; split; [|done]; split; [lia|]; intros i Hij; apply (ch_ext _ _ Hc); lia.
Qed.

Lemma radiotap_in_bounds_witness :
  exists c o, iterator_init sample_header 15 None = Some (inr (c, o)) /\
    forall it, o = Some it ->
      get_le16 sample_header 2 <= 15 /\
      exists r, walk (next_fuel sample_header) sample_header it = Some r /\
        match r with
        | inl ReadPast => False
        | inl Uninitialised => exists j, bitmap_word sample_header j /\ Z.testbit (word sample_header j) 18 = true
        | inr (l, e) => (e = - ENOENT \/ e = - EINVAL) /\ Forall (in_header (get_le16 sample_header 2)) l
        end.
Proof.
  apply (radiotap_in_bounds sample_header 15 None); [by_eval | done | by_eval].
Defined.

(** For a version 0 header with one bitmap of defined fields, iteration
    visits exactly the fields whose bits are set, in bit order, each at the
    next offset that its alignment allows and with its size, and ends with
    [-ENOENT]. *)
Theorem radiotap_visits_fields b maxl v : 8 <= Z.of_nat (length b) ->
  b.[0] = 0 -> get_le16 b 2 <= maxl -> plain_bitmap (get_le32 b 4) ->
  Forall (in_header (get_le16 b 2)) (fields 31 (get_le32 b 4) 0 8) ->
  exists it, iterator_init b maxl v = Some (inr (0, Some it)) /\
    walk (next_fuel b) b it = Some (inr (fields 31 (get_le32 b 4) 0 8, - ENOENT)).
Proof.
  intros Hl H0 Hm HP Hh.
  exists (st v (get_le16 b 2) (get_le32 b 4) 0 8 8 0 0); split.
  - unfold iterator_init; rewrite rd8_ok, rd16_ok, rd32_ok by lia.
    change (b.[Z.to_nat 0]) with (b.[0]); rewrite H0; cbn [negb Z.eqb].
    change (Z.to_nat 2) with 2%nat; change (Z.to_nat 4) with 4%nat.
    rewrite (proj2 (Z.ltb_ge _ _) Hm).
    destruct (has_ext (get_le32 b 4)) eqn:E; [apply HP in E; unfold IEEE80211_RADIOTAP_EXT in E; lia|].
    unfold st; by rewrite Z.shiftr_0_r.
  - apply walk_fields; try done; unfold next_fuel; lia.
Qed.

Lemma plain_bitmap_intro P : is_uint 21 P -> Z.testbit P 18 = false -> plain_bitmap P.
Proof.
  intros HP H18 p Hp.
  destruct (decide (p < 0)); [by rewrite Z.testbit_neg_r in Hp by lia|].
  destruct (decide (21 <= p)); [by rewrite (is_uint_bit 21) in Hp by done|].
  split; [lia | congruence].
Qed.

Lemma radiotap_visits_fields_witness :
  exists it, iterator_init sample_header 15 None = Some (inr (0, Some it)) /\
    walk (next_fuel sample_header) sample_header it =
      Some (inr ([(1, 8, 1); (3, 10, 4); (5, 14, 1)], - ENOENT)).
Proof.
  apply (radiotap_visits_fields sample_header 15 None); [by_eval | done | by_eval | |].
  - apply plain_bitmap_intro; [by_eval | done].
  - vm_compute fields; repeat (apply Forall_cons_2; [unfold in_header; by_eval|]); by apply Forall_nil_2.
Defined.

(** A caller that vouches for exactly its buffer is not safe: with a
    second bitmap that again claims an extension at the very end of a
    twelve-byte header, initialisation loads a third bitmap behind the buffer
    (the length check allows the pointer to equal the end). *)
Theorem radiotap_init_reads_past :
  let b := [0; 0; 12; 0; 0; 0; 0; 0x80; 0; 0; 0; 0x80] in
  iterator_init b (Z.of_nat (length b)) None = Some (inl ReadPast).
Proof. reflexivity. Qed.

(** Nor is one with four bytes behind a vouched length that is below the fixed
    header. *)
Example radiotap_init_needs_twelve :
  iterator_init [0; 0; 4; 0; 0; 0; 0; 0x80] 4 None = Some (inl ReadPast).
Proof. reflexivity. Qed.

(** The field number 18, which the table leaves undefined, makes the
    iterator continue at [_next_ns_data], which nothing has assigned unless a
    vendor namespace was seen before. *)
Theorem radiotap_undefined_field_uninitialised :
  let b := [0; 0; 16; 0] ++ put_le32 (2 ^ 18) ++ repeat 0 12 in
  exists it, iterator_init b 16 None = Some (inr (0, Some it)) /\
    iterator_next (next_fuel b) b it = Some (inl Uninitialised).
Proof. exists (st None 16 (2 ^ 18) 0 8 8 0 0); split; vm_compute; reflexivity. Qed.

End Radiotap.
