(* ===== verification/Rates.v ===== *)
(** * Channels, rates and keys: utility functions of cfg80211

    [net/wireless/util.c]: channel numbers and frequencies, rate tables and rate
    sets, the bitrate computation, key parameter validation and beacon interval
    validation. *)

From S2P Require Import Prelude.

Module Rates.

Definition EINVAL : Z := 22.

Inductive ieee80211_band := IEEE80211_BAND_2GHZ | IEEE80211_BAND_5GHZ | IEEE80211_BAND_60GHZ
  | IEEE80211_NUM_BANDS.

(** ** Channels *)

Definition ieee80211_channel_to_frequency (chan : Z) (band : ieee80211_band) : Z :=
  if chan <=? 0 then 0
  else match band with
  | IEEE80211_BAND_2GHZ =>
      if chan =? 14 then 2484 else if chan <? 14 then 2407 + chan * 5 else 0
  | IEEE80211_BAND_5GHZ =>
      if (chan >=? 182) && (chan <=? 196) then 4000 + chan * 5 else 5000 + chan * 5
  | IEEE80211_BAND_60GHZ => if chan <? 5 then 56160 + chan * 2160 else 0
  | IEEE80211_NUM_BANDS => 0
  end.

(** C division truncates. *)
Definition ieee80211_frequency_to_channel (freq : Z) : Z :=
  if freq =? 2484 then 14
  else if freq <? 2484 then Z.quot (freq - 2407) 5
  else if (freq >=? 4910) && (freq <=? 4980) then Z.quot (freq - 4000) 5
  else if freq <=? 45000 then Z.quot (freq - 5000) 5
  else if (freq >=? 58320) && (freq <=? 64800) then Z.quot (freq - 56160) 2160
  else 0.

Record ieee80211_rate := Rate { flags : Z; bitrate : Z }.
Record ieee80211_supported_band := Band {
  channels : list Z;                (* center frequencies *)
  bitrates : list ieee80211_rate;
  ht_supported : bool;
  ht_rx_mask0 : Z }.

Definition wiphy_bands := list (option ieee80211_supported_band).

Fixpoint find_freq (freq : Z) (i : nat) (l : list Z) : option nat :=
  match l with
  | [] => None
  | f :: l => if f =? freq then Some i else find_freq freq (S i) l
  end.

(** The pointer found is a band and an index into its channels. *)
Fixpoint get_channel_from (b : nat) (bands : wiphy_bands) (freq : Z) : option (nat * nat) :=
  match bands with
  | [] => None
  | None :: bands => get_channel_from (S b) bands freq
  | Some sband :: bands =>
      match find_freq freq 0 (channels sband) with
      | Some i => Some (b, i)
      | None => get_channel_from (S b) bands freq
      end
  end.

Definition ieee80211_get_channel (bands : wiphy_bands) (freq : Z) : option (nat * nat) :=
  get_channel_from 0 bands freq.

(** ** Rate sets *)

Definition BIT (i : nat) : Z := Z.shiftl 1 (Z.of_nat i).

Fixpoint response_rate_loop (rates : list ieee80211_rate) (i result : nat) (basic_rates rate : Z) : nat :=
  match rates with
  | [] => result
  | r :: rates =>
      let result := if negb (bit_set basic_rates (BIT i)) then result
                    else if bitrate r >? rate then result else i in
      response_rate_loop rates (S i) result basic_rates rate
  end.

(** The pointer returned is an index into [sband->bitrates]. *)
Definition ieee80211_get_response_rate (sband : ieee80211_supported_band) (basic_rates rate : Z) : nat :=
  response_rate_loop (bitrates sband) 0 0 basic_rates rate.

Definition IEEE80211_RATE_MANDATORY_A : Z := 2.
Definition IEEE80211_RATE_MANDATORY_B : Z := 4.
Definition IEEE80211_RATE_MANDATORY_G : Z := 8.
Definition IEEE80211_RATE_ERP_G : Z := 16.

Definition or_flags (r : ieee80211_rate) (f : Z) : ieee80211_rate := Rate (Z.lor (flags r) f) (bitrate r).
Definition is_one_of (x : Z) (l : list Z) : bool := existsb (Z.eqb x) l.

(** One rate of the 5 GHz loop: the new entry and the change of [want]. *)
Definition mandatory_5ghz (r : ieee80211_rate) : ieee80211_rate * Z :=
  if is_one_of (bitrate r) [60; 120; 240] then (or_flags r IEEE80211_RATE_MANDATORY_A, 1) else (r, 0).

Definition mandatory_2ghz (r : ieee80211_rate) : ieee80211_rate * Z :=
  let '(r, n) := if bitrate r =? 10
    then (or_flags r (Z.lor IEEE80211_RATE_MANDATORY_B IEEE80211_RATE_MANDATORY_G), 1) else (r, 0) in
  let '(r, n) := if is_one_of (bitrate r) [20; 55; 110; 60; 120; 240]
    then (or_flags r IEEE80211_RATE_MANDATORY_G, n + 1) else (r, n) in
  (if negb (is_one_of (bitrate r) [10; 20; 55; 110]) then or_flags r IEEE80211_RATE_ERP_G else r, n).

Definition set_rates (f : ieee80211_rate -> ieee80211_rate * Z) (s : ieee80211_supported_band) : ieee80211_supported_band :=
  Band (channels s) ((fun r => (f r).1) <$> bitrates s) (ht_supported s) (ht_rx_mask0 s).
Definition hits (f : ieee80211_rate -> ieee80211_rate * Z) (l : list ieee80211_rate) : Z :=
  foldr (fun r n => (f r).2 + n) 0 l.

(** The band with its flags set, and whether a [WARN_ON] fires. *)
Definition set_mandatory_flags_band (s : ieee80211_supported_band) (band : ieee80211_band)
    : ieee80211_supported_band * bool :=
  match band with
  | IEEE80211_BAND_5GHZ =>
      let want := 3 - hits mandatory_5ghz (bitrates s) in
      (set_rates mandatory_5ghz s, negb (want =? 0))
  | IEEE80211_BAND_2GHZ =>
      let want := 7 - hits mandatory_2ghz (bitrates s) in
      (set_rates mandatory_2ghz s, negb (want =? 0) && negb (want =? 3) && negb (want =? 6))
  | IEEE80211_BAND_60GHZ =>
      (s, negb (ht_supported s) || negb (Z.land (ht_rx_mask0 s) 0x1e =? 0x1e))
  | IEEE80211_NUM_BANDS => (s, true)
  end.

Definition ieee80211_set_bitrate_flags (bands : wiphy_bands) : wiphy_bands :=
  imap (fun i o =>
    (fun s => (set_mandatory_flags_band s (nth i [IEEE80211_BAND_2GHZ; IEEE80211_BAND_5GHZ; IEEE80211_BAND_60GHZ]
      IEEE80211_NUM_BANDS)).1) <$> o) bands.

Definition NL80211_MAX_SUPP_RATES : Z := 32.

Fixpoint find_rate (rate : Z) (j : nat) (l : list ieee80211_rate) : option nat :=
  match l with
  | [] => None
  | r :: l => if bitrate r =? rate then Some j else find_rate rate (S j) l
  end.

Fixpoint ratemask_loop (sband : ieee80211_supported_band) (rates : list Z) (mask : Z) : Z * Z :=
  match rates with
  | [] => (0, mask)
  | r :: rates =>
      match find_rate (Z.land r 0x7f * 5) 0 (bitrates sband) with
      | None => (- EINVAL, mask)
      | Some j => ratemask_loop sband rates (Z.lor mask (BIT j))
      end
  end.

(** The code and the value of [*mask], which is left alone ([None]) on the
    early errors. *)
Definition ieee80211_get_ratemask (sband : option ieee80211_supported_band) (rates : list Z)
    : Z * option Z :=
  match sband with
  | None => (- EINVAL, None)
  | Some sband =>
      let n_rates := Z.of_nat (length rates) in
      if (n_rates =? 0) || (n_rates >? NL80211_MAX_SUPP_RATES) then (- EINVAL, None)
      else let '(c, m) := ratemask_loop sband rates 0 in (c, Some m)
  end.

(** ** Bitrates *)

Definition RATE_INFO_FLAGS_MCS : Z := 1.
Definition RATE_INFO_FLAGS_VHT_MCS : Z := 2.
Definition RATE_INFO_FLAGS_40_MHZ_WIDTH : Z := 4.
Definition RATE_INFO_FLAGS_80_MHZ_WIDTH : Z := 8.
Definition RATE_INFO_FLAGS_80P80_MHZ_WIDTH : Z := 16.
Definition RATE_INFO_FLAGS_160_MHZ_WIDTH : Z := 32.
Definition RATE_INFO_FLAGS_SHORT_GI : Z := 64.
Definition RATE_INFO_FLAGS_60G : Z := 128.

Record rate_info := RI { ri_flags : Z; mcs : Z; legacy : Z; nss : Z }.

Definition mcs2bitrate : list Z :=
  [275; 3850; 7700; 9625; 11550; 12512; 15400; 19250; 23100; 25025; 30800; 38500; 46200;
   6930; 8662; 13860; 17325; 20790; 27720; 34650; 41580; 45045; 51975; 62370; 67568;
   6260; 8340; 11120; 12510; 16680; 22240; 25030].

Definition cfg80211_calculate_bitrate_60g (rate : rate_info) : Z :=
  if mcs rate >=? Z.of_nat (length mcs2bitrate) then 0 else mcs2bitrate.[Z.to_nat (mcs rate)].

Definition vht_base : list (list Z) :=
  [[6500000; 13000000; 19500000; 26000000; 39000000; 52000000; 58500000; 65000000; 78000000; 0];
   [13500000; 27000000; 40500000; 54000000; 81000000; 108000000; 121500000; 135000000; 162000000;
    180000000];
   [29300000; 58500000; 87800000; 117000000; 175500000; 234000000; 263300000; 292500000; 351000000;
    390000000];
   [58500000; 117000000; 175500000; 234000000; 351000000; 468000000; 526500000; 585000000; 702000000;
    780000000]].

Definition vht_width (f : Z) : nat :=
  if bit_set f (Z.lor RATE_INFO_FLAGS_160_MHZ_WIDTH RATE_INFO_FLAGS_80P80_MHZ_WIDTH) then 3
  else if bit_set f RATE_INFO_FLAGS_80_MHZ_WIDTH then 2
  else if bit_set f RATE_INFO_FLAGS_40_MHZ_WIDTH then 1 else 0.

Definition cfg80211_calculate_bitrate_vht (rate : rate_info) : Z :=
  if mcs rate >? 9 then 0
  else
    let bitrate := (nth (vht_width (ri_flags rate)) vht_base []).[Z.to_nat (mcs rate)] in
    let bitrate := u32 (bitrate * nss rate) in
    let bitrate := if bit_set (ri_flags rate) RATE_INFO_FLAGS_SHORT_GI then u32 (bitrate / 9 * 10) else bitrate in
    u32 (bitrate + 50000) / 100000.

(** The HT product is at most 540,000,000 and stays within an [int]. *)
Definition ht_bitrate (rate : rate_info) : Z :=
  if mcs rate >=? 32 then 0
  else
    let modulation := Z.land (mcs rate) 7 in
    let streams := Z.shiftr (mcs rate) 3 + 1 in
    let bitrate := if bit_set (ri_flags rate) RATE_INFO_FLAGS_40_MHZ_WIDTH then 13500000 else 6500000 in
    let bitrate := s32 (if modulation <? 4 then bitrate * (modulation + 1)
                   else if modulation =? 4 then bitrate * (modulation + 2)
                   else bitrate * (modulation + 3)) in
    let bitrate := s32 (bitrate * streams) in
    let bitrate := if bit_set (ri_flags rate) RATE_INFO_FLAGS_SHORT_GI
                   then s32 (Z.quot bitrate 9 * 10) else bitrate in
    Z.quot (s32 (bitrate + 50000)) 100000.

Definition cfg80211_calculate_bitrate (rate : rate_info) : Z :=
  if negb (bit_set (ri_flags rate) RATE_INFO_FLAGS_MCS) &&
     negb (bit_set (ri_flags rate) RATE_INFO_FLAGS_VHT_MCS) then legacy rate
  else if bit_set (ri_flags rate) RATE_INFO_FLAGS_60G then cfg80211_calculate_bitrate_60g rate
  else if bit_set (ri_flags rate) RATE_INFO_FLAGS_VHT_MCS then cfg80211_calculate_bitrate_vht rate
  else ht_bitrate rate.

(** ** Keys and beacon intervals *)

Definition WIPHY_FLAG_IBSS_RSN : Z := 256.
Definition WLAN_CIPHER_SUITE_WEP40 : Z := 0x000FAC01.
Definition WLAN_CIPHER_SUITE_TKIP : Z := 0x000FAC02.
Definition WLAN_CIPHER_SUITE_CCMP : Z := 0x000FAC04.
Definition WLAN_CIPHER_SUITE_WEP104 : Z := 0x000FAC05.
Definition WLAN_CIPHER_SUITE_AES_CMAC : Z := 0x000FAC06.
Definition WLAN_KEY_LEN_WEP40 : Z := 5.
Definition WLAN_KEY_LEN_WEP104 : Z := 13.
Definition WLAN_KEY_LEN_CCMP : Z := 16.
Definition WLAN_KEY_LEN_TKIP : Z := 32.
Definition WLAN_KEY_LEN_AES_CMAC : Z := 16.

Record wiphy := Wiphy { wiphy_flags : Z; cipher_suites : list Z }.

(** [seq] is the length of the sequence counter when the pointer is not null. *)
Record key_params := Key { cipher : Z; key_len : Z; seq : option Z }.

Definition cfg80211_supported_cipher_suite (w : wiphy) (c : Z) : bool :=
  existsb (fun s => c =? s) (cipher_suites w).

Definition required_key_len (c : Z) : option Z :=
  if c =? WLAN_CIPHER_SUITE_WEP40 then Some WLAN_KEY_LEN_WEP40
  else if c =? WLAN_CIPHER_SUITE_TKIP then Some WLAN_KEY_LEN_TKIP
  else if c =? WLAN_CIPHER_SUITE_CCMP then Some WLAN_KEY_LEN_CCMP
  else if c =? WLAN_CIPHER_SUITE_WEP104 then Some WLAN_KEY_LEN_WEP104
  else if c =? WLAN_CIPHER_SUITE_AES_CMAC then Some WLAN_KEY_LEN_AES_CMAC
  else None.

Definition is_rsn_cipher (c : Z) : bool :=
  (c =? WLAN_CIPHER_SUITE_TKIP) || (c =? WLAN_CIPHER_SUITE_CCMP) || (c =? WLAN_CIPHER_SUITE_AES_CMAC).
Definition is_wep_cipher (c : Z) : bool :=
  (c =? WLAN_CIPHER_SUITE_WEP40) || (c =? WLAN_CIPHER_SUITE_WEP104).

Definition cfg80211_validate_key_settings (w : wiphy) (params : key_params) (key_idx : Z)
    (pairwise : bool) (has_mac : bool) : Z :=
  if key_idx >? 5 then - EINVAL
  else if negb pairwise && has_mac && negb (bit_set (wiphy_flags w) WIPHY_FLAG_IBSS_RSN) then - EINVAL
  else if pairwise && negb has_mac then - EINVAL
  else if pairwise && negb (key_idx =? 0) && is_rsn_cipher (cipher params) then - EINVAL
  else if (match required_key_len (cipher params) with
           | Some n => negb (key_len params =? n) | None => false end) then - EINVAL
  else if (match seq params with
           | Some seq_len =>
               if is_wep_cipher (cipher params) then true
               else if is_rsn_cipher (cipher params) then negb (seq_len =? 6) else false
           | None => false end) then - EINVAL
  else if negb (cfg80211_supported_cipher_suite w (cipher params)) then - EINVAL
  else 0.

Fixpoint check_beacon_ints (beacon_int : Z) (wdevs : list Z) : Z :=
  match wdevs with
  | [] => 0
  | b :: wdevs =>
      if b =? 0 then check_beacon_ints beacon_int wdevs
      else if negb (b =? beacon_int) then - EINVAL else check_beacon_ints beacon_int wdevs
  end.

(** [wdevs] are the beacon intervals of the interfaces of the device. *)
Definition cfg80211_validate_beacon_int (wdevs : list Z) (beacon_int : Z) : Z :=
  if beacon_int =? 0 then - EINVAL else check_beacon_ints beacon_int wdevs.

(** ** Properties *)

(** Channel numbers survive the trip through frequencies: for every band and
    every channel number up to 8000 that the band supports, the frequency the
    channel maps to maps back to the channel. *)
Theorem channel_frequency_roundtrip chan band : chan <= 8000 ->
  ieee80211_channel_to_frequency chan band <> 0 ->
  ieee80211_frequency_to_channel (ieee80211_channel_to_frequency chan band) = chan.
Proof.
  intros Hc; unfold ieee80211_channel_to_frequency.
  destruct (Z.leb_spec chan 0); [done|].
  destruct band; repeat case_match; intros Hf; try done.
  all: rewrite ?Z.geb_leb in *; unfold ieee80211_frequency_to_channel; rewrite ?Z.geb_leb.
  all: repeat (match goal with |- context [if ?x then _ else _] => destruct x eqn:? end); try lia.
  all: match goal with |- Z.quot ?x ?y = ?z => replace x with (z * y) by lia; apply Z.quot_mul; lia end.
Qed.

Lemma channel_frequency_roundtrip_witness :
  ieee80211_frequency_to_channel (ieee80211_channel_to_frequency 184 IEEE80211_BAND_5GHZ) = 184.
Proof. apply channel_frequency_roundtrip; by_eval. Defined.

(** The coded bits per symbol of the HT modulation and coding schemes, in
    half bits per subcarrier. *)
Definition ht_half_bits (m : Z) : Z := [1; 2; 3; 4; 6; 8; 9; 10].[Z.to_nat m].

(** The rate of 802.11n, table 20-30 ff., as a fraction in units of 100 kbit/s:
    data subcarriers times bits per subcarrier times streams, over a symbol of
    4 or 3.6 microseconds. *)
Definition ht_exact (mcs : Z) (w40 sgi : bool) : Z * Z :=
  let bits := (if w40 then 108 else 52) * ht_half_bits (mcs mod 8) * (mcs / 8 + 1) in
  if sgi then (bits * 100, 72) else (bits * 10, 8).

(** [r] is an integer nearest to the fraction. *)
Definition nearest (r : Z) (q : Z * Z) : bool := 2 * Z.abs (r * q.2 - q.1) <=? q.2.

(** [ht_bitrate] reads only two bits of the flags. *)
Definition ht_flags (w40 sgi : bool) : Z :=
  Z.lor (if w40 then RATE_INFO_FLAGS_40_MHZ_WIDTH else 0) (if sgi then RATE_INFO_FLAGS_SHORT_GI else 0).

Lemma ht_bitrate_flags f m l n :
  ht_bitrate (RI f m l n) =
  ht_bitrate (RI (ht_flags (bit_set f RATE_INFO_FLAGS_40_MHZ_WIDTH) (bit_set f RATE_INFO_FLAGS_SHORT_GI)) m 0 0).
Proof.
  unfold ht_bitrate; cbn [mcs ri_flags].
  by destruct (bit_set f RATE_INFO_FLAGS_40_MHZ_WIDTH), (bit_set f RATE_INFO_FLAGS_SHORT_GI).
Qed.

Lemma ht_nearest_table :
  forallb (fun m => forallb (fun w => forallb (fun g =>
    nearest (ht_bitrate (RI (ht_flags w g) (Z.of_nat m) 0 0)) (ht_exact (Z.of_nat m) w g)) [true; false])
    [true; false]) (List.seq 0 32) = true.
Proof. vm_compute; reflexivity. Qed.

(** For every HT rate (MCS 0 to 31, both widths, both guard intervals) the
    computed bitrate is the rate of the standard rounded to the nearest
    100 kbit/s. *)
Theorem ht_bitrate_nearest rate : 0 <= mcs rate < 32 ->
  bit_set (ri_flags rate) RATE_INFO_FLAGS_MCS = true ->
  bit_set (ri_flags rate) RATE_INFO_FLAGS_VHT_MCS = false ->
  bit_set (ri_flags rate) RATE_INFO_FLAGS_60G = false ->
  nearest (cfg80211_calculate_bitrate rate)
    (ht_exact (mcs rate) (bit_set (ri_flags rate) RATE_INFO_FLAGS_40_MHZ_WIDTH)
      (bit_set (ri_flags rate) RATE_INFO_FLAGS_SHORT_GI)) = true.
Proof.
  destruct rate as [f m l n]; cbn [mcs ri_flags]; intros Hm Hf1 Hf2 Hf3.
  unfold cfg80211_calculate_bitrate; cbn [ri_flags]; rewrite Hf1, Hf2, Hf3; cbn [negb andb].
  rewrite ht_bitrate_flags; generalize (bit_set f RATE_INFO_FLAGS_40_MHZ_WIDTH) as w.
  generalize (bit_set f RATE_INFO_FLAGS_SHORT_GI) as g; intros g w.
  pose proof (proj1 (forallb_forall _ _) ht_nearest_table (Z.to_nat m) ltac:(apply in_seq; lia)) as Ht.
  cbv beta in Ht; rewrite Z2Nat.id in Ht by lia.
  pose proof (proj1 (forallb_forall _ _) Ht w ltac:(destruct w; simpl; auto)) as Hw.
  apply (proj1 (forallb_forall _ _) Hw); destruct g; simpl; auto.
Qed.

Lemma ht_bitrate_nearest_witness :
  nearest (cfg80211_calculate_bitrate (RI 69 7 0 0)) (ht_exact 7 true true) = true.
Proof. apply (ht_bitrate_nearest (RI 69 7 0 0)); by_eval. Defined.

(** The VHT computation over the integers. *)
Definition vht_unbounded (rate : rate_info) : Z :=
  let b := (nth (vht_width (ri_flags rate)) vht_base []).[Z.to_nat (mcs rate)] * nss rate in
  let b := if bit_set (ri_flags rate) RATE_INFO_FLAGS_SHORT_GI then b / 9 * 10 else b in
  (b + 50000) / 100000.

Lemma vht_base_bound i j : 0 <= (nth i vht_base []).[j] <= 780000000.
Proof.
  assert (H : Forall (Forall (fun x => 0 <= x <= 780000000)) vht_base) by by_eval.
  destruct (decide (i < length vht_base)%nat) as [Hi|Hi].
  - rewrite Forall_nth in H; specialize (H i [] Hi); rewrite Forall_nth in H.
    destruct (decide (j < length (nth i vht_base []))%nat) as [Hj|Hj]; [by apply H|].
    unfold byte_at; rewrite (nth_overflow (nth i vht_base [])) by lia; lia.
  - rewrite (nth_overflow vht_base) by lia; unfold byte_at; destruct j; simpl; lia.
Qed.

(** Up to four spatial streams the 32-bit VHT computation does not wrap. *)
Theorem vht_bitrate_no_overflow rate : 0 <= nss rate <= 4 -> mcs rate <= 9 ->
  cfg80211_calculate_bitrate_vht rate = vht_unbounded rate.
Proof.
  intros Hn Hm; unfold cfg80211_calculate_bitrate_vht, vht_unbounded.
  rewrite Z.gtb_ltb, (proj2 (Z.ltb_ge _ _) Hm).
  pose proof (vht_base_bound (vht_width (ri_flags rate)) (Z.to_nat (mcs rate))) as Hb.
  set (b := (nth _ vht_base []).[_]) in *; rewrite !u32_mod.
  rewrite (Z.mod_small (b * nss rate)) by nia.
  destruct (bit_set _ _).
  - assert (0 <= b * nss rate / 9 <= 346666666) by (assert (0 <= b * nss rate <= 3120000000) by nia; arith).
    rewrite !Z.mod_small by (rewrite ?Z.mod_small; lia); done.
  - rewrite Z.mod_small by nia; done.
Qed.

Lemma vht_bitrate_no_overflow_witness :
  cfg80211_calculate_bitrate_vht (RI 98 9 0 4) = vht_unbounded (RI 98 9 0 4).
Proof. apply (vht_bitrate_no_overflow (RI 98 9 0 4)); by_eval. Defined.

(** With five or more streams at 160 MHz it does: MCS 9 with a short guard
    interval and five streams is reported as 384 instead of 43333 units of
    100 kbit/s, and eight streams with a long one as 19450 instead of 62400. *)
Theorem vht_bitrate_wraps :
  cfg80211_calculate_bitrate (RI 98 9 0 5) = 384 /\ vht_unbounded (RI 98 9 0 5) = 43333 /\
  cfg80211_calculate_bitrate (RI 34 9 0 8) = 19450 /\ vht_unbounded (RI 34 9 0 8) = 62400.
Proof. vm_compute. repeat split. Qed.

(** ** Rate sets *)

Lemma find_rate_Some rate j0 l j : find_rate rate j0 l = Some j <->
  exists r, (j0 <= j)%nat /\ l !! (j - j0)%nat = Some r /\ bitrate r = rate /\
    forall i r', (i < j - j0)%nat -> l !! i = Some r' -> bitrate r' <> rate.
Proof.
  revert j0; induction l as [|r l IH]; intros j0; simpl.
  { split; [done|]; intros (r & _ & E & _); by rewrite lookup_nil in E. }
  destruct (Z.eqb_spec (bitrate r) rate) as [E|E].
  - split.
    + intros [= <-]; exists r; rewrite Nat.sub_diag; split_and!; try done; lia.
    + intros (r' & Hle & Hl & Hr & Hmin); destruct (decide (j = j0)) as [->|]; [done|].
      exfalso; apply (Hmin 0%nat r); [lia | done | done].
  - rewrite IH; split.
    + intros (r' & Hle & Hl & Hr & Hmin); exists r'; replace (j - j0)%nat with (S (j - S j0)) by lia.
      split_and!; [lia | done | done |].
      intros [|i] r'' Hi Hl'; simpl in Hl'; [by simplify_eq | apply (Hmin i); [lia | done]].
    + intros (r' & Hle & Hl & Hr & Hmin); destruct (decide (j = j0)) as [->|].
      { rewrite Nat.sub_diag in Hl; simpl in Hl; simplify_eq. }
      replace (j - j0)%nat with (S (j - S j0)) in * by lia; simpl in Hl.
      exists r'; split_and!; [lia | done | done |].
      intros i r'' Hi Hl'; apply (Hmin (S i) r''); [lia | done].
Qed.

(** The index of a supported rate byte. *)
Definition rate_index (sband : ieee80211_supported_band) (r : Z) : option nat :=
  find_rate (Z.land r 0x7f * 5) 0 (bitrates sband).

Lemma BIT_testbit j n : 0 <= n -> Z.testbit (BIT j) n = (n =? Z.of_nat j).
Proof. intros; unfold BIT; rewrite Z.shiftl_1_l, Z.pow2_bits_eqb, Z.eqb_sym by lia; done. Qed.

Lemma ratemask_loop_spec sband rates mask c m : ratemask_loop sband rates mask = (c, m) ->
  (c = 0 <-> Forall (fun r => is_Some (rate_index sband r)) rates) /\
  (c = 0 -> forall n, 0 <= n -> Z.testbit m n = true <->
    Z.testbit mask n = true \/ exists r, r ∈ rates /\ rate_index sband r = Some (Z.to_nat n)).
Proof.
  revert mask; induction rates as [|r rates IH]; intros mask; simpl.
  { intros [= <- <-]; split; [split; [by constructor | done]|]; intros _ n Hn; split; [by left|].
    intros [|(r & Hr & _)]; [done | by apply elem_of_nil in Hr]. }
  unfold rate_index in *; destruct (find_rate _ 0 _) as [j|] eqn:E.
  - intros Hl; destruct (IH _ Hl) as [IH1 IH2]; split.
    + rewrite IH1, Forall_cons_iff, E; split; [by eauto | by intros []].
    + intros Hc n Hn; rewrite (IH2 Hc n Hn), Z.lor_spec, BIT_testbit, orb_true_iff by done.
      rewrite Z.eqb_eq; split.
      * intros [[?|Hj]|(r' & ? & ?)]; [by left | right; exists r | right; exists r'; split; [by right | done]].
        split; [by left|]; rewrite E; f_equal; lia.
      * intros [?|(r' & Hin & Hr')]; [by left; left|]; apply elem_of_cons in Hin as [->|?]; [|by right; eauto].
        left; right; rewrite E in Hr'; simplify_eq; lia.
  - intros [= <- <-]; split; [|done]; rewrite Forall_cons_iff, E; split; [done | by intros [[] _]].
Qed.

(** [ieee80211_get_ratemask] succeeds exactly when there are 1 to 32 rates
    and the band supports each of them, and the mask then has exactly the bits
    of the table entries of the given rates. *)
Theorem ratemask_spec sband rates :
  let '(c, m) := ieee80211_get_ratemask (Some sband) rates in
  (c = 0 <-> 1 <= Z.of_nat (length rates) <= NL80211_MAX_SUPP_RATES /\
    Forall (fun r => is_Some (rate_index sband r)) rates) /\
  (c = 0 -> exists mask, m = Some mask /\ forall j : nat, Z.testbit mask (Z.of_nat j) = true <->
    exists r, r ∈ rates /\ rate_index sband r = Some j).
Proof.
  unfold ieee80211_get_ratemask, NL80211_MAX_SUPP_RATES.
  destruct (Z.eqb_spec (Z.of_nat (length rates)) 0); simpl; [split; [split; [done | lia] | done]|].
  rewrite Z.gtb_ltb; destruct (Z.ltb_spec 32 (Z.of_nat (length rates))); [split; [split; [done | lia] | done]|].
  destruct (ratemask_loop sband rates 0) as [c m] eqn:E; apply ratemask_loop_spec in E as [E1 E2].
  rewrite E1; split; [split; [intros; split; [lia | done] | by intros []]|].
  intros Hc%E1; exists m; split; [done|]; intros j; rewrite (E2 Hc) by lia.
  rewrite Z.testbit_0_l, Nat2Z.id; split; [by intros [|] | by right].
Qed.

(** The rate for a response is the last table entry that is a basic rate and
    not faster than the frame it answers, and the first entry when there is
    none. *)
Theorem response_rate_spec sband basic_rates rate :
  ieee80211_get_response_rate sband basic_rates rate =
  default 0%nat (list.last (filter (fun i : nat => bit_set basic_rates (BIT i) = true /\
      bitrate (nth i (bitrates sband) (Rate 0 0)) <= rate) (List.seq 0 (length (bitrates sband))))).
Proof.
  unfold ieee80211_get_response_rate.
  assert (H : forall l pre res, bitrates sband = pre ++ l ->
    response_rate_loop l (length pre) res basic_rates rate =
    default res (list.last (filter (fun i : nat => bit_set basic_rates (BIT i) = true /\
      bitrate (nth i (bitrates sband) (Rate 0 0)) <= rate) (List.seq (length pre) (length l))))).
  { induction l as [|r l IH]; intros pre res E; [done|]; simpl.
    assert (Er : nth (length pre) (bitrates sband) (Rate 0 0) = r).
    { rewrite E, app_nth2, Nat.sub_diag by lia; done. }
    replace (S (length pre)) with (length (pre ++ [r])) by (rewrite length_app; simpl; lia).
    rewrite IH by (rewrite E, <- app_assoc; done); rewrite filter_cons, Er.
    rewrite Z.gtb_ltb; case_decide as Hd.
    - destruct Hd as [-> Hle]; cbn [negb]; rewrite (proj2 (Z.ltb_ge _ _) Hle), last_cons.
      by destruct (list.last _).
    - destruct (bit_set basic_rates (BIT (length pre))); cbn [negb]; [|done].
      destruct (Z.ltb_spec rate (bitrate r)); [done | by destruct Hd]. }
  apply (H (bitrates sband) [] 0%nat eq_refl).
Qed.

End Rates.
