(* ===== verification/Ethernet.v ===== *)
(** * Conversion between Ethernet and 802.11 data frames

    [net/wireless/util.c]: [ieee80211_data_to_8023], [ieee80211_data_from_8023],
    [ieee80211_amsdu_to_8023s] and [cfg80211_classify8021d].  A socket buffer is
    its linear data with the free bytes in front of it; [skb_push] into less
    room than needed and loads behind the data are faults of the model. *)

From S2P Require Import Prelude Ieee80211.

Module Ethernet.
Import Ieee80211.

Inductive nl80211_iftype := NL80211_IFTYPE_UNSPECIFIED | NL80211_IFTYPE_ADHOC
  | NL80211_IFTYPE_STATION | NL80211_IFTYPE_AP | NL80211_IFTYPE_AP_VLAN | NL80211_IFTYPE_WDS
  | NL80211_IFTYPE_MONITOR | NL80211_IFTYPE_MESH_POINT | NL80211_IFTYPE_P2P_CLIENT
  | NL80211_IFTYPE_P2P_GO | NL80211_IFTYPE_P2P_DEVICE.

#[global] Instance iftype_eq_dec : EqDecision nl80211_iftype.
Proof. solve_decision. Defined.

Definition one_of (t : nl80211_iftype) (l : list nl80211_iftype) : bool := bool_decide (t ∈ l).

Definition ETH_ALEN : nat := 6.
Definition ETH_HLEN : nat := 14.
Definition ETH_P_AARP : Z := 0x80F3.
Definition ETH_P_IPX : Z := 0x8137.
Definition EINVAL : Z := 22.
Definition ENOMEM : Z := 12.
Definition EOPNOTSUPP : Z := 95.

Definition rfc1042_header : list Z := [0xaa; 0xaa; 0x03; 0x00; 0x00; 0x00].
Definition bridge_tunnel_header : list Z := [0xaa; 0xaa; 0x03; 0x00; 0x00; 0xf8].

Definition sub (b : list Z) (off n : nat) : list Z := take n (drop off b).

Definition is_multicast_ether_addr (a : list Z) : bool := bit_set (a.[0]) 1.

(** A socket buffer: data, free bytes in front, and the offsets of the
    network and transport headers from the start of the data. *)
Record sk_buff := Skb {
  data : list Z; headroom : Z; cloned : bool; network_header : Z; transport_header : Z }.

Definition with_data (s : sk_buff) (d : list Z) (room : Z) : sk_buff :=
  Skb d room (cloned s) (network_header s) (transport_header s).

Definition skb_pull (s : sk_buff) (n : nat) : sk_buff :=
  with_data s (drop n (data s)) (headroom s + Z.of_nat n).

(** [skb_push] and the copy into the new space; [None] is [skb_under_panic]. *)
Definition skb_push (s : sk_buff) (d : list Z) : option sk_buff :=
  if headroom s <? Z.of_nat (length d) then None
  else Some (with_data s (d ++ data s) (headroom s - Z.of_nat (length d))).

(** ** 802.11 to Ethernet *)

(** The payload carries an encapsulation that is removed. *)
Definition is_snap (payload : list Z) : bool :=
  let ethertype := Z.lor (Z.shiftl (payload.[6]) 8) (payload.[7]) in
  (bool_decide (sub payload 0 6 = rfc1042_header) &&
   negb (ethertype =? ETH_P_AARP) && negb (ethertype =? ETH_P_IPX)) ||
  bool_decide (sub payload 0 6 = bridge_tunnel_header).

(** [skb_copy_bits] leaves the destination alone when the range is not there. *)
Definition skb_copy_bits (b : list Z) (off : nat) (old : list Z) : list Z :=
  if Nat.leb (off + ETH_ALEN) (length b) then sub b off ETH_ALEN else old.

(** The [switch] over ToDS/FromDS: addresses and header length, or [-1]. *)
Definition data_addresses (b : list Z) (addr : list Z) (iftype : nl80211_iftype)
    : option (list Z * list Z * nat) :=
  let fc := frame_control b in
  let hdrlen := Z.to_nat (ieee80211_hdrlen fc) in
  let dst := sub b (ieee80211_get_DA b) ETH_ALEN in
  let src := sub b (ieee80211_get_SA b) ETH_ALEN in
  let flags := b.[hdrlen] in
  let meshlen := (hdrlen + Z.to_nat (ieee80211_get_mesh_hdrlen flags))%nat in
  match ieee80211_has_tods fc, ieee80211_has_fromds fc with
  | true, false =>
      if negb (one_of iftype [NL80211_IFTYPE_AP; NL80211_IFTYPE_AP_VLAN; NL80211_IFTYPE_P2P_GO]) then None
      else Some (dst, src, hdrlen)
  | true, true =>
      if negb (one_of iftype [NL80211_IFTYPE_WDS; NL80211_IFTYPE_MESH_POINT; NL80211_IFTYPE_AP_VLAN;
                NL80211_IFTYPE_STATION]) then None
      else if one_of iftype [NL80211_IFTYPE_MESH_POINT] then
        if Nat.ltb (length b) (hdrlen + 1) then None
        else if bit_set flags MESH_FLAGS_AE_A4 then None
        else if bit_set flags MESH_FLAGS_AE_A5_A6 then
          Some (skb_copy_bits b (hdrlen + 6) dst, skb_copy_bits b (hdrlen + 12) src, meshlen)
        else Some (dst, src, meshlen)
      else Some (dst, src, hdrlen)
  | false, true =>
      if negb (one_of iftype [NL80211_IFTYPE_STATION; NL80211_IFTYPE_P2P_CLIENT; NL80211_IFTYPE_MESH_POINT]) ||
         (is_multicast_ether_addr dst && bool_decide (src = addr)) then None
      else if one_of iftype [NL80211_IFTYPE_MESH_POINT] then
        if Nat.ltb (length b) (hdrlen + 1) then None
        else if bit_set flags MESH_FLAGS_AE_A5_A6 then None
        else if bit_set flags MESH_FLAGS_AE_A4 then
          Some (dst, skb_copy_bits b (hdrlen + 6) src, meshlen)
        else Some (dst, src, meshlen)
      else Some (dst, src, hdrlen)
  | false, false =>
      if negb (one_of iftype [NL80211_IFTYPE_ADHOC; NL80211_IFTYPE_STATION]) then None
      else Some (dst, src, hdrlen)
  end.

(** The code, and the buffer when it is 0; [None] is a fault. *)
Definition ieee80211_data_to_8023 (s : sk_buff) (addr : list Z) (iftype : nl80211_iftype)
    : option (Z * option sk_buff) :=
  let b := data s in
  if negb (ieee80211_is_data_present (frame_control b)) then Some (- 1, None)
  else match data_addresses b addr iftype with
  | None => Some (- 1, None)
  | Some (dst, src, hdrlen) =>
      if Nat.ltb (length b) (hdrlen + 8) then Some (- 1, None)
      else if is_snap (drop hdrlen b) then
        s ← skb_push (skb_pull s (hdrlen + 6)) src;
        s ← skb_push s dst;
        Some (0, Some s)
      else
        let s := skb_pull s hdrlen in
        s ← skb_push s (dst ++ src ++ put_be16 (u16 (Z.of_nat (length (data s)))));
        Some (0, Some s)
  end.

(** ** Ethernet to 802.11 *)

(** Frame control bits and the three addresses for each interface type. *)
Definition header_addresses (b addr bssid : list Z) (iftype : nl80211_iftype)
    : option (Z * list Z) :=
  let da := sub b 0 ETH_ALEN in
  let sa := sub b ETH_ALEN ETH_ALEN in
  match iftype with
  | NL80211_IFTYPE_AP | NL80211_IFTYPE_AP_VLAN | NL80211_IFTYPE_P2P_GO =>
      Some (IEEE80211_FCTL_FROMDS, da ++ addr ++ sa)
  | NL80211_IFTYPE_STATION | NL80211_IFTYPE_P2P_CLIENT =>
      Some (IEEE80211_FCTL_TODS, bssid ++ sa ++ da)
  | NL80211_IFTYPE_ADHOC => Some (0, da ++ sa ++ bssid)
  | _ => None
  end.

Definition IEEE80211_STYPE_DATA : Z := 0.

(** What is put in front of the payload and how much of the old header goes. *)
Definition encapsulation (ethertype : Z) : list Z * nat :=
  if (ethertype =? ETH_P_AARP) || (ethertype =? ETH_P_IPX) then (bridge_tunnel_header, 12%nat)
  else if ethertype >? 0x600 then (rfc1042_header, 12%nat)
  else ([], 14%nat).

(** [stale] are the two uninitialised bytes of [hdr.addr4] that a QoS header is
    completed with; [expand] is the result of [pskb_expand_head]. *)
Definition ieee80211_data_from_8023 (s : sk_buff) (addr : list Z) (iftype : nl80211_iftype)
    (bssid : list Z) (qos : bool) (stale : list Z) (expand : bool) : option (Z * option sk_buff) :=
  let b := data s in
  if Nat.ltb (length b) ETH_HLEN then Some (- EINVAL, None)
  else
    let ethertype := Z.lor (Z.shiftl (b.[12]) 8) (b.[13]) in
    match header_addresses b addr bssid iftype with
    | None => Some (- EOPNOTSUPP, None)
    | Some (ds, addrs) =>
        let fc := Z.lor (Z.lor (Z.lor IEEE80211_FTYPE_DATA IEEE80211_STYPE_DATA) ds)
          (if qos then IEEE80211_STYPE_QOS_DATA else 0) in
        let hdr := put_le16 fc ++ [0; 0] ++ addrs ++ [0; 0] ++ (if qos then take 2 stale else []) in
        let '(encaps, skip) := encapsulation ethertype in
        let s := skb_pull s skip in
        let head_need := Z.of_nat (length hdr) + Z.of_nat (length encaps) - headroom s in
        let grow := (head_need >? 0) || cloned s in
        if grow && negb expand then Some (- ENOMEM, None)
        else
          let s := if grow then with_data s (data s) (headroom s + Z.max head_need 0) else s in
          s ← (if bool_decide (encaps = []) then Some s else skb_push s encaps);
          s ← skb_push s hdr;
          let shift := Z.of_nat (length hdr) + Z.of_nat (length encaps) - Z.of_nat skip in
          Some (0, Some (Skb (data s) (headroom s) (cloned s && negb grow)
            (network_header s + shift) (transport_header s + shift)))
    end.

(** ** A-MSDU *)

Inductive amsdu_fault := ReadPast.

(** Replace the LLC header of one subframe by an Ethernet header. *)
Definition subframe_to_8023 (dst src : list Z) (len : Z) (payload : list Z) : amsdu_fault + list Z :=
  if Nat.ltb (length payload) 8 then inl ReadPast
  else if is_snap payload then inr (dst ++ src ++ drop 6 payload)
  else inr (dst ++ src ++ put_be16 len ++ payload).

(** The loop; [alloc i] tells whether the [i]-th allocation succeeds.  [Some
    (inr None)] is the purge of the list. *)
Fixpoint amsdu_loop (fuel : nat) (alloc : nat -> bool) (i : nat) (b : list Z) (out : list (list Z))
    : option (amsdu_fault + option (list (list Z))) :=
  match fuel with
  | O => None
  | S fuel =>
      if Nat.ltb (length b) ETH_HLEN then Some (inl ReadPast)
      else
        let len := get_be16 b 12 in
        let subframe_len := 14 + len in
        let remaining := Z.of_nat (length b) in
        let dst := sub b 0 ETH_ALEN in
        let src := sub b ETH_ALEN ETH_ALEN in
        let padding := Z.land (4 - subframe_len) 0x3 in
        if subframe_len >? remaining then Some (inr None)
        else
          let b := drop ETH_HLEN b in
          if remaining <=? subframe_len + padding then
            match subframe_to_8023 dst src len b with
            | inl e => Some (inl e)
            | inr f => Some (inr (Some (out ++ [f])))
            end
          else if negb (alloc i) then Some (inr None)
          else
            match subframe_to_8023 dst src len (take (Z.to_nat len) b) with
            | inl e => Some (inl e)
            | inr f => amsdu_loop fuel alloc (S i) (drop (Z.to_nat (len + padding)) b) (out ++ [f])
            end
  end.

(** The buffer without the 802.11 header; the frames queued on [list], [None]
    when the list was purged. *)
Definition ieee80211_amsdu_to_8023s (alloc : nat -> bool) (s : sk_buff) (addr : list Z)
    (iftype : nl80211_iftype) (has_80211_header : bool)
    : option (amsdu_fault + option (list (list Z))) :=
  if has_80211_header then
    '(err, o) ← ieee80211_data_to_8023 s addr iftype;
    match o with
    | Some s =>
        if Nat.ltb (length (data s)) ETH_HLEN then Some (inr None)
        else amsdu_loop (S (length (data s))) alloc 0 (drop ETH_HLEN (data s)) []
    | None => Some (inr None)
    end
  else amsdu_loop (S (length (data s))) alloc 0 (data s) [].

(** ** Priority *)

Definition ETH_P_IP : Z := 0x0800.
Definition ETH_P_IPV6 : Z := 0x86DD.

(** [nh] are the bytes at the network header; [ipv4_get_dsfield] is byte 1,
    [ipv6_get_dsfield] bits 4 to 11 of the first word. *)
Definition cfg80211_classify8021d (priority protocol : Z) (nh : list Z) : Z :=
  if (priority >=? 256) && (priority <=? 263) then priority - 256
  else if protocol =? ETH_P_IP then Z.shiftr (Z.land (nh.[1]) 0xfc) 5
  else if protocol =? ETH_P_IPV6 then
    Z.shiftr (Z.land (u8 (Z.shiftr (get_be16 nh 0) 4)) 0xfc) 5
  else 0.

(** ** Lemmas *)

Definition be16 (hi lo : Z) : Z := Z.lor (Z.shiftl hi 8) lo.

Lemma six (A : list Z) : length A = 6%nat -> exists a b c d e f, A = [a; b; c; d; e; f].
Proof.
  intros H; do 6 (destruct A as [|? A]; [done|]); destruct A; [|done].
  do 6 eexists; reflexivity.
Qed.

Lemma sub_app_l a b n : length a = n -> sub (a ++ b) 0 n = a.
Proof. intros <-; unfold sub; rewrite drop_0; apply take_app_length. Qed.

(** The 802.11 header that [ieee80211_data_from_8023] builds. *)
Definition data_hdr (fc : Z) (addrs q : list Z) : list Z :=
  put_le16 fc ++ [0; 0] ++ addrs ++ [0; 0] ++ q.

Definition tx_fc (ds : Z) (qos : bool) : Z :=
  Z.lor (Z.lor (Z.lor IEEE80211_FTYPE_DATA IEEE80211_STYPE_DATA) ds)
    (if qos then IEEE80211_STYPE_QOS_DATA else 0).

(** The frame on the air for an Ethernet frame [f]. *)
Definition on_air (f : list Z) (ds : Z) (addrs : list Z) (qos : bool) (stale : list Z) : list Z :=
  let '(encaps, skip) := encapsulation (be16 (f.[12]) (f.[13])) in
  data_hdr (tx_fc ds qos) addrs (if qos then take 2 stale else []) ++ encaps ++ drop skip f.

Lemma skb_push_ok s d : Z.of_nat (length d) <= headroom s ->
  skb_push s d = Some (with_data s (d ++ data s) (headroom s - Z.of_nat (length d))).
Proof. intros H; unfold skb_push; by rewrite (proj2 (Z.ltb_ge _ _) H). Qed.

Lemma encapsulation_cases t : let '(e, n) := encapsulation t in
  (e = [] /\ n = 14%nat) \/ (length e = 6%nat /\ n = 12%nat).
Proof. unfold encapsulation; repeat case_match; simplify_eq; auto. Qed.

Lemma from_8023_ok s addr iftype bssid qos stale ds addrs :
  (14 <= length (data s))%nat -> 0 <= headroom s ->
  header_addresses (data s) addr bssid iftype = Some (ds, addrs) ->
  exists s1, ieee80211_data_from_8023 s addr iftype bssid qos stale true = Some (0, Some s1) /\
    data s1 = on_air (data s) ds addrs qos stale /\ 0 <= headroom s1.
Proof.
  intros Hl Hr Ha; unfold ieee80211_data_from_8023, on_air, ETH_HLEN; fold (be16 ((data s).[12]) ((data s).[13])).
  rewrite (proj2 (Nat.ltb_ge _ _) Hl), Ha.
  pose proof (encapsulation_cases (be16 ((data s).[12]) ((data s).[13]))) as He.
  destruct (encapsulation _) as [e n]; fold (tx_fc ds qos).
  change (put_le16 (tx_fc ds qos) ++ [0; 0] ++ addrs ++ [0; 0] ++ (if qos then take 2 stale else []))
    with (data_hdr (tx_fc ds qos) addrs (if qos then take 2 stale else [])).
  set (h := data_hdr _ _ _).
  rewrite andb_false_r.
  set (s0 := skb_pull s n); set (need := _ + _ - headroom s0).
  set (s2 := if _ || _ then _ else s0).
  assert (Hroom : Z.of_nat (length h) + Z.of_nat (length e) <= headroom s2).
  { subst s2 need; rewrite Z.gtb_ltb; destruct (Z.ltb_spec 0 (Z.of_nat (length h) + Z.of_nat (length e) - headroom s0));
      cbn [orb]; [cbn [with_data headroom]; lia|]; destruct (cloned s0); cbn [with_data headroom]; lia. }
  assert (Hd : data s2 = drop n (data s)) by (subst s2; by destruct (_ || _)).
  assert (Hpush : (if bool_decide (e = []) then Some s2 else skb_push s2 e) =
    Some (with_data s2 (e ++ data s2) (headroom s2 - Z.of_nat (length e)))).
  { destruct He as [[-> _]|[He _]].
    - simpl; rewrite Z.sub_0_r; by destruct s2.
    - rewrite bool_decide_eq_false_2 by (intros ->; done); apply skb_push_ok; lia. }
  clearbody s2 h; rewrite Hpush; cbn [mbind option_bind].
  rewrite skb_push_ok by (cbn [with_data headroom]; lia); cbn [mbind option_bind].
  eexists; split; [done|]; cbn [with_data headroom data]; split; [by rewrite Hd | lia].
Qed.

(** Reading the header back. *)
Lemma to_8023_ok s addr iftype fc addrs q pl dst src :
  data s = data_hdr fc addrs q ++ pl -> length addrs = 18%nat -> 0 <= headroom s ->
  ieee80211_is_data_present (frame_control (data s)) = true ->
  data_addresses (data s) addr iftype = Some (dst, src, length (data_hdr fc addrs q)) ->
  length dst = 6%nat -> length src = 6%nat -> (8 <= length pl)%nat ->
  exists s2, ieee80211_data_to_8023 s addr iftype = Some (0, Some s2) /\
    data s2 = dst ++ src ++
      (if is_snap pl then drop 6 pl else put_be16 (u16 (Z.of_nat (length pl))) ++ pl).
Proof.
  intros Hd Ha Hr Hp Hadr Hdst Hsrc Hl; unfold ieee80211_data_to_8023.
  assert (Hh : (24 <= length (data_hdr fc addrs q))%nat).
  { unfold data_hdr; rewrite !length_app, Ha; simpl; lia. }
  rewrite Hp, Hadr; set (h := data_hdr fc addrs q) in *; clearbody h.
  rewrite (proj2 (Nat.ltb_ge _ _)) by (rewrite Hd, length_app; lia).
  rewrite Hd, drop_app_length; destruct (is_snap pl).
  - do 2 (rewrite skb_push_ok by (cbn [skb_pull with_data headroom]; lia); cbn [mbind option_bind]).
    eexists; split; [done|]; cbn [skb_pull with_data data]; rewrite Hd; do 2 f_equal.
    rewrite <- drop_drop, drop_app_length; done.
  - cbn [skb_pull with_data data]; rewrite Hd, drop_app_length, skb_push_ok; cbn [mbind option_bind].
    + eexists; split; [done|]; cbn [with_data data]; rewrite <- !app_assoc; cbn [skb_pull with_data data]; by rewrite Hd, drop_app_length.
    + rewrite !length_app, Hdst, Hsrc; cbn [skb_pull with_data headroom put_be16 length]; lia.
Qed.

(** The pairs of sender and receiver whose frames are converted back, and the
    one frame a station drops: its own multicast frame relayed by the AP. *)
Definition link (tx rx : nl80211_iftype) (rx_addr da sa : list Z) : Prop :=
  (tx = NL80211_IFTYPE_STATION /\ rx = NL80211_IFTYPE_AP) \/
  (tx = NL80211_IFTYPE_AP /\ rx = NL80211_IFTYPE_STATION /\
     (is_multicast_ether_addr da && bool_decide (sa = rx_addr)) = false) \/
  (tx = NL80211_IFTYPE_ADHOC /\ rx = NL80211_IFTYPE_ADHOC).

(** The kinds of sender and receiver, and whether the receiver is a station
    that gets its own multicast frame back from the access point. *)
Definition peers (tx rx : nl80211_iftype) : bool :=
  one_of tx [NL80211_IFTYPE_STATION] && one_of rx [NL80211_IFTYPE_AP] ||
  one_of tx [NL80211_IFTYPE_AP] && one_of rx [NL80211_IFTYPE_STATION] ||
  one_of tx [NL80211_IFTYPE_ADHOC] && one_of rx [NL80211_IFTYPE_ADHOC].
Definition own_multicast (rx : nl80211_iftype) (rx_addr f : list Z) : bool :=
  one_of rx [NL80211_IFTYPE_STATION] && (is_multicast_ether_addr (sub f 0 6) && bool_decide (sub f 6 6 = rx_addr)).

Lemma peers_link tx rx rx_addr f : peers tx rx = true -> own_multicast rx rx_addr f = false ->
  link tx rx rx_addr (sub f 0 6) (sub f 6 6).
Proof.
  unfold peers, own_multicast, link; destruct tx, rx; try discriminate; intros _ H; auto.
Qed.

(** What the peer makes of an Ethernet frame; [None]: it does not take it. *)
Definition received (rx : nl80211_iftype) (rx_addr f : list Z) : option (list Z) :=
  let p := drop 14 f in
  if own_multicast rx rx_addr f then None
  else if 0x600 <? be16 (f.[12]) (f.[13]) then Some f
  else if Nat.ltb (length p) 8 then None
  else if is_snap p then Some (take 12 f ++ drop 6 p)
  else Some (take 12 f ++ put_be16 (u16 (Z.of_nat (length p))) ++ p).

Ltac explicit_bytes := repeat match goal with
  | H : length ?A = 6%nat |- _ => apply six in H as (? & ? & ? & ? & ? & ? & ->) end.

Lemma addresses_tods A1 A2 A3 (qos : bool) (q pl addr : list Z) :
  length A1 = 6%nat -> length A2 = 6%nat -> length A3 = 6%nat ->
  length q = (if qos then 2%nat else 0%nat) ->
  let h := data_hdr (tx_fc IEEE80211_FCTL_TODS qos) (A1 ++ A2 ++ A3) q in
  ieee80211_is_data_present (frame_control (h ++ pl)) = true /\
  data_addresses (h ++ pl) addr NL80211_IFTYPE_AP = Some (A3, A2, length h).
Proof.
  intros; explicit_bytes; destruct qos.
  - destruct q as [|? [|? []]]; simplify_eq/=; split; reflexivity.
  - destruct q; simplify_eq/=; split; reflexivity.
Qed.

Lemma addresses_fromds_any A1 A2 A3 (qos : bool) (q pl addr : list Z) :
  length A1 = 6%nat -> length A2 = 6%nat -> length A3 = 6%nat ->
  length q = (if qos then 2%nat else 0%nat) ->
  let h := data_hdr (tx_fc IEEE80211_FCTL_FROMDS qos) (A1 ++ A2 ++ A3) q in
  data_addresses (h ++ pl) addr NL80211_IFTYPE_STATION =
    if is_multicast_ether_addr A1 && bool_decide (A3 = addr) then None else Some (A1, A3, length h).
Proof.
  intros H1 H2 H3 Hq h; subst h; explicit_bytes; destruct qos.
  - destruct q as [|? [|? []]]; simplify_eq/=; reflexivity.
  - destruct q; simplify_eq/=; reflexivity.
Qed.

Lemma addresses_fromds A1 A2 A3 (qos : bool) (q pl addr : list Z) :
  length A1 = 6%nat -> length A2 = 6%nat -> length A3 = 6%nat ->
  length q = (if qos then 2%nat else 0%nat) ->
  (is_multicast_ether_addr A1 && bool_decide (A3 = addr)) = false ->
  let h := data_hdr (tx_fc IEEE80211_FCTL_FROMDS qos) (A1 ++ A2 ++ A3) q in
  ieee80211_is_data_present (frame_control (h ++ pl)) = true /\
  data_addresses (h ++ pl) addr NL80211_IFTYPE_STATION = Some (A1, A3, length h).
Proof.
  intros H1 H2 H3 Hq Hm h; subst h; rewrite addresses_fromds_any, Hm by done; split; [|done].
  clear Hm; explicit_bytes; destruct qos.
  - destruct q as [|? [|? []]]; simplify_eq/=; reflexivity.
  - destruct q; simplify_eq/=; reflexivity.
Qed.

Lemma addresses_ibss A1 A2 A3 (qos : bool) (q pl addr : list Z) :
  length A1 = 6%nat -> length A2 = 6%nat -> length A3 = 6%nat ->
  length q = (if qos then 2%nat else 0%nat) ->
  let h := data_hdr (tx_fc 0 qos) (A1 ++ A2 ++ A3) q in
  ieee80211_is_data_present (frame_control (h ++ pl)) = true /\
  data_addresses (h ++ pl) addr NL80211_IFTYPE_ADHOC = Some (A1, A2, length h).
Proof.
  intros; explicit_bytes; destruct qos.
  - destruct q as [|? [|? []]]; simplify_eq/=; split; reflexivity.
  - destruct q; simplify_eq/=; split; reflexivity.
Qed.

(** Header on the sender's side, addresses on the receiver's. *)
Lemma link_addresses tx rx rx_addr f addr bssid qos stale pl :
  (14 <= length f)%nat -> length addr = 6%nat -> length bssid = 6%nat -> (2 <= length stale)%nat ->
  link tx rx rx_addr (sub f 0 6) (sub f 6 6) ->
  exists ds addrs, header_addresses f addr bssid tx = Some (ds, addrs) /\ length addrs = 18%nat /\
    let h := data_hdr (tx_fc ds qos) addrs (if qos then take 2 stale else []) in
    ieee80211_is_data_present (frame_control (h ++ pl)) = true /\
    data_addresses (h ++ pl) rx_addr rx = Some (sub f 0 6, sub f 6 6, length h).
Proof.
  intros Hl Ha Hb Hs Hk.
  assert (Hda : length (sub f 0 6) = 6%nat) by (unfold sub; rewrite length_take, length_drop; lia).
  assert (Hsa : length (sub f 6 6) = 6%nat) by (unfold sub; rewrite length_take, length_drop; lia).
  assert (Hq : length (if qos then take 2 stale else []) = (if qos then 2%nat else 0%nat)).
  { destruct qos; [rewrite length_take; lia | done]. }
  destruct Hk as [[-> ->]|[(-> & -> & Hm)|[-> ->]]]; do 2 eexists; split; [done | | done | | done |].
  all: split; [by rewrite !length_app; unfold ETH_ALEN; rewrite ?Hda, ?Hsa, ?Ha, ?Hb|].
  - by apply addresses_tods.
  - by apply addresses_fromds.
  - by apply addresses_ibss.
Qed.

Lemma is_snap_rfc1042 hi lo p : be16 hi lo <> ETH_P_AARP -> be16 hi lo <> ETH_P_IPX ->
  is_snap (rfc1042_header ++ hi :: lo :: p) = true.
Proof.
  intros H1 H2; unfold is_snap; rewrite sub_app_l by done.
  change ((rfc1042_header ++ hi :: lo :: p).[6]) with hi; change ((rfc1042_header ++ hi :: lo :: p).[7]) with lo.
  fold (be16 hi lo); rewrite (proj2 (Z.eqb_neq _ _) H1), (proj2 (Z.eqb_neq _ _) H2).
  by rewrite bool_decide_eq_true_2.
Qed.

Lemma is_snap_bridge p : is_snap (bridge_tunnel_header ++ p) = true.
Proof.
  unfold is_snap; rewrite sub_app_l by done.
  by rewrite (bool_decide_eq_true_2 (bridge_tunnel_header = bridge_tunnel_header)), orb_true_r.
Qed.

(** An Ethernet frame that comes back as it is: with an EtherType, or with an
    802.3 length that is the length of the payload, of at least eight bytes
    that do not start with a SNAP header. *)
Definition convertible (f : list Z) : Prop :=
  0x600 < be16 (f.[12]) (f.[13]) \/
  ((22 <= length f)%nat /\ is_snap (drop 14 f) = false /\
   [f.[12]; f.[13]] = put_be16 (u16 (Z.of_nat (length (drop 14 f))))).

Lemma split14 f : (14 <= length f)%nat -> f = sub f 0 6 ++ sub f 6 6 ++ f.[12] :: f.[13] :: drop 14 f.
Proof.
  intros Hl; rewrite <- (take_drop 6 f) at 1; unfold sub; rewrite drop_0; f_equal.
  rewrite <- (take_drop 6 (drop 6 f)) at 1; f_equal; rewrite drop_drop; simpl.
  rewrite (drop_S f (f.[12]) 12), (drop_S f (f.[13]) 13) by (apply lookup_byte_at; lia); done.
Qed.

Lemma take12 f : (14 <= length f)%nat -> take 12 f = sub f 0 6 ++ sub f 6 6.
Proof.
  intros Hl; rewrite (split14 f Hl) at 1.
  assert (Hda : length (sub f 0 6) = 6%nat) by (unfold sub; rewrite length_take, length_drop; lia).
  assert (Hsa : length (sub f 6 6) = 6%nat) by (unfold sub; rewrite length_take, length_drop; lia).
  rewrite app_assoc, take_app_length'; [done|]; rewrite length_app; lia.
Qed.

(** A frame comes back as it is only if it is [convertible]. *)
Lemma received_same rx rx_addr f : (14 <= length f)%nat ->
  received rx rx_addr f = Some f <-> own_multicast rx rx_addr f = false /\ convertible f.
Proof.
  intros Hl; unfold received, convertible; destruct (own_multicast rx rx_addr f); [by split; [|intros []]|].
  destruct (Z.ltb_spec 1536 (be16 (f.[12]) (f.[13]))); [by split; [intros _; split; [|left]|]|].
  assert (Hd : length (drop 14 f) = (length f - 14)%nat) by apply length_drop.
  destruct (Nat.ltb_spec (length (drop 14 f)) 8).
  { split; [done|]; intros [_ [|[]]]; lia. }
  destruct (is_snap (drop 14 f)).
  - split; [|intros [_ [|(_ & ? & _)]]; [lia|done]]; intros [= E]; exfalso.
    apply (f_equal length) in E; rewrite length_app, length_take, length_drop in E; lia.
  - rewrite take12 by done; rewrite <- app_assoc; pose proof (split14 f Hl) as Hf.
    change (f.[12] :: f.[13] :: drop 14 f) with ([f.[12]; f.[13]] ++ drop 14 f) in Hf; split.
    + intros [= E]; split; [done|]; right; split_and!; [lia|done|].
      pose proof (eq_trans E Hf) as E'; symmetry; do 2 apply app_inv_head in E'; by apply (app_inv_tail (drop 14 f)).
    + intros [_ [|(_ & _ & He)]]; [lia|]; f_equal; rewrite <- He; by symmetry.
Qed.

(** The receiver refuses what is too short to hold an LLC and SNAP header. *)
Lemma to_8023_short s addr iftype fc addrs q pl dst src : data s = data_hdr fc addrs q ++ pl ->
  data_addresses (data s) addr iftype = Some (dst, src, length (data_hdr fc addrs q)) -> (length pl < 8)%nat ->
  ieee80211_data_to_8023 s addr iftype = Some (- 1, None).
Proof.
  intros Hd Ha Hl; unfold ieee80211_data_to_8023; destruct (negb _); [done|].
  rewrite Ha, Hd, length_app, (proj2 (Nat.ltb_lt _ _)) by lia; done.
Qed.

(** A station drops its own multicast frame. *)
Lemma to_8023_own s rx_addr A1 A2 A3 (qos : bool) q pl :
  data s = data_hdr (tx_fc IEEE80211_FCTL_FROMDS qos) (A1 ++ A2 ++ A3) q ++ pl ->
  length A1 = 6%nat -> length A2 = 6%nat -> length A3 = 6%nat -> length q = (if qos then 2%nat else 0%nat) ->
  is_multicast_ether_addr A1 && bool_decide (A3 = rx_addr) = true ->
  ieee80211_data_to_8023 s rx_addr NL80211_IFTYPE_STATION = Some (- 1, None).
Proof.
  intros Hd H1 H2 H3 Hq Hm; unfold ieee80211_data_to_8023; destruct (negb _); [done|].
  by rewrite Hd, addresses_fromds_any, Hm.
Qed.

(** What follows the 802.11 header on the air. *)
Definition air_payload (f : list Z) : list Z :=
  let '(e, n) := encapsulation (be16 (f.[12]) (f.[13])) in e ++ drop n f.

Lemma air_payload_back f : (14 <= length f)%nat ->
  (if Nat.ltb (length (air_payload f)) 8 then None
   else Some (sub f 0 6 ++ sub f 6 6 ++ (if is_snap (air_payload f) then drop 6 (air_payload f)
     else put_be16 (u16 (Z.of_nat (length (air_payload f)))) ++ air_payload f))) =
  if 0x600 <? be16 (f.[12]) (f.[13]) then Some f
  else if Nat.ltb (length (drop 14 f)) 8 then None
  else if is_snap (drop 14 f) then Some (take 12 f ++ drop 6 (drop 14 f))
  else Some (take 12 f ++ put_be16 (u16 (Z.of_nat (length (drop 14 f)))) ++ drop 14 f).
Proof.
  intros Hl; unfold air_payload, encapsulation; set (t := be16 (f.[12]) (f.[13])).
  assert (E12 : drop 12 f = f.[12] :: f.[13] :: drop 14 f).
  { rewrite (drop_S f (f.[12]) 12), (drop_S f (f.[13]) 13) by (apply lookup_byte_at; lia); done. }
  assert (Hback : forall e, length e = 6%nat -> is_snap (e ++ drop 12 f) = true ->
    (if Nat.ltb (length (e ++ drop 12 f)) 8 then None
     else Some (sub f 0 6 ++ sub f 6 6 ++ (if is_snap (e ++ drop 12 f) then drop 6 (e ++ drop 12 f)
       else put_be16 (u16 (Z.of_nat (length (e ++ drop 12 f)))) ++ e ++ drop 12 f))) = Some f).
  { intros e He ->; rewrite length_app, length_drop, He, (proj2 (Nat.ltb_ge _ _)) by lia.
    by rewrite drop_app_length', E12, <- split14 by done. }
  destruct (Z.eqb_spec t ETH_P_AARP) as [Et|Et]; cbn [orb];
    [|destruct (Z.eqb_spec t ETH_P_IPX) as [Et'|Et']; [|rewrite Z.gtb_ltb; destruct (Z.ltb_spec 0x600 t)]].
  - rewrite Hback by (done || apply is_snap_bridge); rewrite Et; done.
  - rewrite Hback by (done || apply is_snap_bridge); rewrite Et'; done.
  - rewrite Hback; [done | done |]; rewrite E12; by apply is_snap_rfc1042.
  - cbn [app]; rewrite !take12 by done; rewrite <- !app_assoc.
    destruct (Nat.ltb _ 8); [done|]; by destruct (is_snap (drop 14 f)).
Qed.

(** C38: what a station, an access point or an ad-hoc node sends from an
    Ethernet frame (14 bytes or more, memory for the headers being
    available), its peer turns into an Ethernet frame with the same addresses, with
    or without QoS, whatever the uninitialised QoS control bytes were; no
    header is pushed into missing headroom.  With an EtherType above 0x600 it is
    the same frame.  Else the last two bytes of the header are taken for a
    length and not sent: a payload of less than eight bytes is refused by the
    peer, one with a SNAP header of its own comes back without it, and any other
    comes back with the exact length.  So the frame comes back
    unchanged exactly when it is [convertible], and is not the station's own
    multicast frame, which is refused. *)
Theorem data_8023_roundtrip s tx rx rx_addr addr bssid qos stale :
  (14 <= length (data s))%nat -> 0 <= headroom s -> length addr = 6%nat -> length bssid = 6%nat ->
  (2 <= length stale)%nat -> peers tx rx = true ->
  exists s1, ieee80211_data_from_8023 s addr tx bssid qos stale true = Some (0, Some s1) /\
    match received rx rx_addr (data s) with
    | Some g => exists s2, ieee80211_data_to_8023 s1 rx_addr rx = Some (0, Some s2) /\ data s2 = g
    | None => ieee80211_data_to_8023 s1 rx_addr rx = Some (- 1, None)
    end /\
    (received rx rx_addr (data s) = Some (data s) <-> own_multicast rx rx_addr (data s) = false /\ convertible (data s)).
Proof.
  intros Hl Hr Ha Hb Hs Hk; set (f := data s) in *.
  assert (Hda : length (sub f 0 6) = 6%nat) by (unfold sub; rewrite length_take, length_drop; lia).
  assert (Hsa : length (sub f 6 6) = 6%nat) by (unfold sub; rewrite length_take, length_drop; lia).
  assert (Hair : forall ds addrs, on_air f ds addrs qos stale =
    data_hdr (tx_fc ds qos) addrs (if qos then take 2 stale else []) ++ air_payload f)
    by (intros; unfold on_air, air_payload; by destruct (encapsulation _)).
  pose proof (received_same rx rx_addr f Hl) as Hrs.
  destruct (own_multicast rx rx_addr f) eqn:Eo.
  - assert (rx = NL80211_IFTYPE_STATION /\ tx = NL80211_IFTYPE_AP) as [-> ->].
    { unfold own_multicast, peers in *; destruct rx, tx; done. }
    destruct (from_8023_ok s addr NL80211_IFTYPE_AP bssid qos stale _ _ Hl Hr eq_refl) as (s1 & E1 & Hd1 & Hr1).
    exists s1; fold f in Hd1; rewrite Hair in Hd1; split; [done|]; split; [|exact Hrs].
    unfold received; rewrite Eo; eapply to_8023_own; [exact Hd1 | done.. | | ].
    + destruct qos; [rewrite length_take; lia | done].
    + unfold own_multicast in Eo; by rewrite andb_true_l in Eo.
  - pose proof (peers_link _ _ rx_addr f Hk Eo) as Hlk.
    destruct (link_addresses tx rx rx_addr f addr bssid qos stale (air_payload f) Hl Ha Hb Hs Hlk)
      as (ds & addrs & Eh & Hal & Hp & Hadr).
    destruct (from_8023_ok s addr tx bssid qos stale ds addrs Hl Hr Eh) as (s1 & E1 & Hd1 & Hr1).
    exists s1; fold f in Hd1; rewrite Hair in Hd1; split; [done|]; split; [|exact Hrs].
    unfold received; rewrite Eo, <- air_payload_back by done.
    destruct (Nat.ltb_spec (length (air_payload f)) 8) as [Hs8|Hs8].
    + eapply to_8023_short; [exact Hd1 | rewrite Hd1; exact Hadr | done].
    + destruct (to_8023_ok s1 rx_addr rx (tx_fc ds qos) addrs (if qos then take 2 stale else []) (air_payload f)
        (sub f 0 6) (sub f 6 6)) as (s2 & E2 & Hd2); rewrite ?Hd1; try done.
      by exists s2.
Qed.

Definition sample_skb : sk_buff :=
  Skb ([2; 0; 0; 0; 0; 1] ++ [2; 0; 0; 0; 0; 2] ++ [0x08; 0x00] ++ [0x45; 0; 0; 20]) 10 false 14 34.

Lemma data_8023_roundtrip_witness :
  exists s1 s2, ieee80211_data_from_8023 sample_skb [2; 0; 0; 0; 0; 2] NL80211_IFTYPE_STATION
      [2; 0; 0; 0; 0; 9] true [0xde; 0xad] true = Some (0, Some s1) /\
    ieee80211_data_to_8023 s1 [2; 0; 0; 0; 0; 9] NL80211_IFTYPE_AP = Some (0, Some s2) /\
    data s2 = data sample_skb.
Proof.
  destruct (data_8023_roundtrip sample_skb NL80211_IFTYPE_STATION NL80211_IFTYPE_AP [2; 0; 0; 0; 0; 9]
    [2; 0; 0; 0; 0; 2] [2; 0; 0; 0; 0; 9] true [0xde; 0xad]) as (s1 & E1 & E2 & _); [by_eval..|].
  destruct E2 as (s2 & E2 & E3); exists s1, s2; split; [exact E1|]; split; [exact E2 | exact E3].
Defined.

(** Frames without an EtherType: a padded 802.3 frame loses its padding from
    the length only, 0x0600 is taken for a length, and three bytes of LLC
    are refused. *)
Example padded_8023_changes :
  let hdr := [2; 0; 0; 0; 0; 1] ++ [2; 0; 0; 0; 0; 2] in
  let llc := [0x42; 0x42; 0x03] in
  received NL80211_IFTYPE_AP [2; 0; 0; 0; 0; 9] (hdr ++ put_be16 38 ++ llc ++ repeat 0 43) =
    Some (hdr ++ put_be16 46 ++ llc ++ repeat 0 43) /\
  received NL80211_IFTYPE_AP [2; 0; 0; 0; 0; 9] (hdr ++ put_be16 0x0600 ++ repeat 1 20) = Some (hdr ++ put_be16 20 ++ repeat 1 20) /\
  received NL80211_IFTYPE_AP [2; 0; 0; 0; 0; 9] (hdr ++ put_be16 3 ++ llc) = None.
Proof. vm_compute; done. Qed.

(** ** A-MSDU *)

Record msdu := Msdu { m_dst : list Z; m_src : list Z; m_payload : list Z }.

Definition wf_msdu (m : msdu) : Prop :=
  length (m_dst m) = 6%nat /\ length (m_src m) = 6%nat /\
  (8 <= length (m_payload m))%nat /\ Z.of_nat (length (m_payload m)) < 65536.

#[global] Instance wf_msdu_dec m : Decision (wf_msdu m).
Proof. unfold wf_msdu; apply _. Defined.

Definition m_len (m : msdu) : Z := Z.of_nat (length (m_payload m)).

Definition encode_msdu (m : msdu) : list Z :=
  m_dst m ++ m_src m ++ put_be16 (m_len m) ++ m_payload m.

(** Subframes are padded to four bytes, the last one is not. *)
Fixpoint encode_amsdu (m : msdu) (l : list msdu) : list Z :=
  match l with
  | [] => encode_msdu m
  | m' :: l => encode_msdu m ++ repeat 0 (Z.to_nat ((4 - (14 + m_len m)) mod 4)) ++ encode_amsdu m' l
  end.

Definition msdu_8023 (m : msdu) : list Z :=
  m_dst m ++ m_src m ++
  (if is_snap (m_payload m) then drop 6 (m_payload m) else put_be16 (m_len m) ++ m_payload m).

Lemma subframe_to_8023_ok m : wf_msdu m ->
  subframe_to_8023 (m_dst m) (m_src m) (m_len m) (m_payload m) = inr (msdu_8023 m).
Proof.
  intros (_ & _ & Hl & _); unfold subframe_to_8023, msdu_8023.
  rewrite (proj2 (Nat.ltb_ge _ _) Hl); by destruct (is_snap _).
Qed.

Lemma encode_msdu_length m : wf_msdu m -> Z.of_nat (length (encode_msdu m)) = 14 + m_len m.
Proof. intros (H1 & H2 & _); unfold encode_msdu, m_len; rewrite !length_app, H1, H2; simpl; lia. Qed.

(** The fields the loop reads at the start of a subframe. *)
Lemma encode_msdu_fields m tl : wf_msdu m ->
  let b := encode_msdu m ++ tl in
  sub b 0 6 = m_dst m /\ sub b 6 6 = m_src m /\ get_be16 b 12 = m_len m /\
  drop 14 b = m_payload m ++ tl.
Proof.
  intros Hw b; subst b; pose proof Hw as (H1 & H2 & Hl & Hm); unfold encode_msdu.
  assert (Hv : is_u16 (m_len m)) by (unfold is_uint, m_len; lia).
  destruct (six _ H1) as (? & ? & ? & ? & ? & ? & ->), (six _ H2) as (? & ? & ? & ? & ? & ? & ->).
  split_and!; [reflexivity | reflexivity | exact (get_put_be16 _ Hv) | reflexivity].
Qed.

Lemma encode_amsdu_length m l : Forall wf_msdu (m :: l) ->
  14 + m_len m <= Z.of_nat (length (encode_amsdu m l)).
Proof.
  intros Hf; destruct l as [|m' l]; simpl.
  - rewrite encode_msdu_length; [lia | by inversion Hf].
  - rewrite length_app, Nat2Z.inj_add, encode_msdu_length; [lia | by inversion Hf].
Qed.

Lemma amsdu_loop_ok fuel alloc i m l out : (forall j, alloc j = true) -> Forall wf_msdu (m :: l) ->
  (length l < fuel)%nat ->
  amsdu_loop fuel alloc i (encode_amsdu m l) out = Some (inr (Some (out ++ (msdu_8023 <$> m :: l)))).
Proof.
  intros Ha; revert m l i out; induction fuel as [|fuel IH]; intros m l i out Hf Hlt; [lia|].
  assert (Hw : wf_msdu m) by by inversion Hf.
  pose proof (encode_amsdu_length m l Hf) as Hlen.
  assert (Hml : 0 <= m_len m) by (unfold m_len; lia).
  assert (Hpad : Z.land (4 - (14 + m_len m)) 3 = (4 - (14 + m_len m)) mod 4).
  { by apply (Z.land_ones _ 2). }
  pose proof (Z.mod_pos_bound (4 - (14 + m_len m)) 4 ltac:(lia)) as Hp4.
  cbn [amsdu_loop]; unfold ETH_HLEN, ETH_ALEN; rewrite (proj2 (Nat.ltb_ge _ _)) by lia.
  destruct l as [|m' l]; cbn [encode_amsdu] in *.
  - destruct (encode_msdu_fields m [] Hw) as (E1 & E2 & E3 & E4); rewrite app_nil_r in E1, E2, E3, E4.
    rewrite E1, E2, E3, E4, Hpad, encode_msdu_length by done.
    rewrite Z.gtb_ltb, (proj2 (Z.ltb_ge _ _)), (proj2 (Z.leb_le _ _)) by lia.
    by rewrite app_nil_r, subframe_to_8023_ok.
  - set (pad := repeat 0 (Z.to_nat ((4 - (14 + m_len m)) mod 4))) in *.
    assert (Hf' : Forall wf_msdu (m' :: l)) by by inversion Hf.
    pose proof (encode_amsdu_length m' l Hf') as Hlen'.
    assert (0 <= m_len m') by (unfold m_len; lia).
    destruct (encode_msdu_fields m (pad ++ encode_amsdu m' l) Hw) as (E1 & E2 & E3 & E4).
    rewrite E1, E2, E3, E4, Hpad, !length_app, !Nat2Z.inj_add, encode_msdu_length by done.
    assert (Hpl : Z.of_nat (length pad) = (4 - (14 + m_len m)) mod 4).
    { subst pad; rewrite repeat_length; lia. }
    rewrite Z.gtb_ltb, (proj2 (Z.ltb_ge _ _)), (proj2 (Z.leb_gt _ _)), Ha by lia.
    unfold m_len at 2; rewrite Nat2Z.id, take_app_length, subframe_to_8023_ok by done.
    replace (Z.to_nat (m_len m + _)) with (length (m_payload m) + length pad)%nat
      by (unfold m_len in *; lia).
    rewrite <- drop_drop, !drop_app_length, IH by (done || simpl in Hlt; lia).
    by rewrite <- app_assoc.
Qed.

(** Splitting an A-MSDU gives its MSDUs: for every non-empty list of
    subframes with at least eight payload bytes each, padded as the standard
    says, the loop terminates and queues exactly one Ethernet frame per
    subframe, in order, each with its addresses and payload. *)
Theorem amsdu_splits m l room c nh th : Forall wf_msdu (m :: l) ->
  ieee80211_amsdu_to_8023s (fun _ => true) (Skb (encode_amsdu m l) room c nh th) []
    NL80211_IFTYPE_STATION false = Some (inr (Some (msdu_8023 <$> m :: l))).
Proof.
  intros Hf; unfold ieee80211_amsdu_to_8023s; cbn [data].
  rewrite (amsdu_loop_ok _ _ _ m l []); [done | done | done |].
  clear -Hf; revert m Hf; induction l as [|m' l IH]; intros m Hf; simpl; [lia|].
  assert (Hf' : Forall wf_msdu (m' :: l)) by by inversion Hf.
  specialize (IH m' Hf'); pose proof (encode_msdu_length m ltac:(by inversion Hf)).
  unfold m_len in *; rewrite !length_app; lia.
Qed.

Definition sample_msdus : list msdu :=
  [Msdu [2; 0; 0; 0; 0; 1] [2; 0; 0; 0; 0; 2] (rfc1042_header ++ [8; 0; 0x45; 1; 2]);
   Msdu [2; 0; 0; 0; 0; 3] [2; 0; 0; 0; 0; 4] (rfc1042_header ++ [8; 6; 9])].

Lemma amsdu_splits_witness :
  ieee80211_amsdu_to_8023s (fun _ => true)
    (Skb (encode_amsdu (nth 0 sample_msdus (Msdu [] [] [])) (drop 1 sample_msdus)) 0 false 0 0) []
    NL80211_IFTYPE_STATION false = Some (inr (Some (msdu_8023 <$> sample_msdus))).
Proof.
  apply (amsdu_splits (nth 0 sample_msdus (Msdu [] [] [])) (drop 1 sample_msdus)); by_eval.
Defined.

(** The split reads behind the frame for what a peer may send: the
    EtherType of a subframe is loaded from its payload bytes 6 and 7 without a
    check that they exist, and the header of a following subframe is loaded
    from as little as one remaining byte. *)
Theorem amsdu_reads_past :
  amsdu_loop 20 (fun _ => true) 0 (repeat 0 14) [] = Some (inl ReadPast) /\
  amsdu_loop 60 (fun _ => true) 0
    (encode_msdu (Msdu (repeat 2 6) (repeat 4 6) (repeat 0 10)) ++ [7]) [] = Some (inl ReadPast).
Proof. split; vm_compute; reflexivity. Qed.

End Ethernet.
