(* ===== verification/HifUsb.v ===== *)
(** * USB transport of the ath9k_htc driver

    [drivers/net/wireless/ath/ath9k/hif_usb.c]: the receive stream, in which the
    device packs packets that may straddle two transfers, and the transmit path,
    which packs up to twenty frames into one buffer.

    A receive buffer is its 16384 bytes, of which the transfer has filled the
    first [len]; the rest are the bytes of earlier transfers.  Accesses outside
    an allocation, the use of a freed buffer and [BUG_ON] are faults. *)

From S2P Require Import Prelude.

Module HifUsb.

Definition ATH_USB_RX_STREAM_MODE_TAG : Z := 0x4e00.
Definition ATH_USB_TX_STREAM_MODE_TAG : Z := 0x697e.
Definition MAX_TX_URB_NUM : Z := 8.
Definition MAX_TX_BUF_NUM : Z := 256.
Definition MAX_TX_BUF_SIZE : Z := 32768.
Definition MAX_TX_AGGR_NUM : Z := 20.
Definition MAX_RX_BUF_SIZE : Z := 16384.
Definition MAX_PKT_NUM_IN_TRANSFER : nat := 10.
Definition USB_WLAN_TX_PIPE : Z := 1.
Definition USB_REG_OUT_PIPE : Z := 4.
Definition ENODEV : Z := 19.
Definition ENOMEM : Z := 12.
Definition EINVAL : Z := 22.

Inductive fault := ReadPast | PoolOverflow | UseAfterFree | WritePast | Bug.

(** ** Receive stream *)

(** [hif_dev->remain_skb]: null, a buffer being filled, or a buffer that has
    been handed on (the pointer is never cleared). *)
Inductive remain := NoSkb | Filling (d : list Z) | HandedOn.

Record rx_state := Rx {
  rx_remain_len : Z; rx_transfer_len : Z; rx_pad_len : Z; remain_skb : remain }.

Definition rd16 (b : list Z) (i : Z) : option Z :=
  if (0 <=? i) && (i + 2 <=? Z.of_nat (length b)) then Some (get_le16 b (Z.to_nat i)) else None.

Definition slice (b : list Z) (i n : Z) : option (list Z) :=
  if (0 <=? i) && (0 <=? n) && (i + n <=? Z.of_nat (length b))
  then Some (take (Z.to_nat n) (drop (Z.to_nat i) b)) else None.

(** How the function ends: at the [err] label, which passes the pool on, or
    by the [return] on a bad tag, which drops it. *)
Inductive rx_end := Passed (pool : list (list Z)) | BadTag (pool : list (list Z)).

(** The continuation of a packet begun in the previous transfer: the state,
    the pool and the index to go on with. *)
Definition rx_continue (st : rx_state) (buf : list Z) : fault + (rx_state * list (list Z) * Z) :=
  if rx_remain_len st =? 0 then inr (st, [], 0)
  else match remain_skb st with
  | NoSkb => inr (st, [], rx_remain_len st)
  | HandedOn => inl UseAfterFree
  | Filling d =>
      match slice buf 0 (rx_remain_len st - rx_pad_len st) with
      | None => inl ReadPast
      | Some more =>
          inr (Rx 0 (rx_transfer_len st) (rx_pad_len st) HandedOn, [d ++ more], rx_remain_len st)
      end
  end.

Definition rx_pad (pkt_len : Z) : Z :=
  let pad_len := 4 - Z.land pkt_len 0x3 in if pad_len =? 4 then 0 else pad_len.

(** The loop over the packets of the transfer; [alloc n] is the result of the
    [n]-th allocation. *)
Fixpoint rx_loop (fuel : nat) (alloc : nat -> bool) (n : nat) (st : rx_state) (buf : list Z) (len : Z)
    (pool : list (list Z)) (index : Z) : option (fault + (rx_state * rx_end)) :=
  if index <? len then
    match fuel with
    | O => None
    | S fuel =>
        match rd16 buf index, rd16 buf (index + 2) with
        | Some pkt_len, Some pkt_tag =>
            if negb (pkt_tag =? ATH_USB_RX_STREAM_MODE_TAG) then Some (inr (st, BadTag pool))
            else
              let pad_len := rx_pad pkt_len in
              let chk_idx := index in
              let index := index + 4 + pkt_len + pad_len in
              if index >? MAX_RX_BUF_SIZE then
                let rest := index - MAX_RX_BUF_SIZE in
                let got := MAX_RX_BUF_SIZE - chk_idx - 4 in
                if negb (alloc n) then
                  Some (inr (Rx rest got pad_len (remain_skb st), Passed pool))
                else match slice buf (chk_idx + 4) got with
                | None => Some (inl ReadPast)
                | Some d => rx_loop fuel alloc (S n) (Rx rest got pad_len (Filling d)) buf len pool index
                end
              else if negb (alloc n) then Some (inr (st, Passed pool))
              else match slice buf (chk_idx + 4) pkt_len with
              | None => Some (inl ReadPast)
              | Some d =>
                  if Nat.leb MAX_PKT_NUM_IN_TRANSFER (length pool) then Some (inl PoolOverflow)
                  else rx_loop fuel alloc (S n) st buf len (pool ++ [d]) index
              end
        | _, _ => Some (inl ReadPast)
        end
    end
  else Some (inr (st, Passed pool)).

(** The packets are handed to [ath9k_htc_rx_msg] in pool order.  Every turn
    advances by at least four bytes of at most 16384. *)
Definition ath9k_hif_usb_rx_stream (alloc : nat -> bool) (st : rx_state) (buf : list Z) (len : Z)
    : option (fault + (rx_state * rx_end)) :=
  match rx_continue st buf with
  | inl e => Some (inl e)
  | inr (st, pool, index) => rx_loop (Z.to_nat len) alloc 0 st buf len pool index
  end.

(** ** Transmit *)

Inductive tx_type := ATH9K_HTC_MGMT | ATH9K_HTC_BEACON | ATH9K_HTC_NORMAL | ATH9K_HTC_AMPDU.

Record tx_skb := TxSkb { tx_kind : tx_type; sta_idx : Z; payload : list Z }.

(** A transmit buffer: its memory, the fill state and the frames in it. *)
Record tx_buf := TxBuf { tb_mem : list Z; tb_len : Z; tb_offset : Z; tb_queue : list tx_skb }.

(** The transmit state with what it has done: the frames completed towards
    HTC, the frames freed and the buffers submitted. *)
Record hif_usb_tx := Tx {
  tx_stop : bool;
  tx_flush : bool;
  tx_buf_cnt : Z;
  tx_skb_cnt : Z;
  tx_skb_queue : list tx_skb;
  tx_free : list tx_buf;
  tx_pending : list tx_buf;
  completed : list (tx_skb * bool);
  tx_freed : list tx_skb;
  submitted : list (list Z) }.

Definition write_at (mem : list Z) (off : Z) (d : list Z) : option (list Z) :=
  if (0 <=? off) && (off + Z.of_nat (length d) <=? Z.of_nat (length mem))
  then Some (take (Z.to_nat off) mem ++ d ++ drop (Z.to_nat off + length d) mem) else None.

(** One turn of the packing loop for the [i]-th of [cnt] frames. *)
Definition pack_one (cnt i : Z) (b : tx_buf) (skb : tx_skb) : option tx_buf :=
  let n := Z.of_nat (length (payload skb)) in
  mem ← write_at (tb_mem b) (tb_offset b)
    (put_le16 n ++ put_le16 ATH_USB_TX_STREAM_MODE_TAG ++ payload skb);
  let len := u16 (n + 4) in
  let offset := if i <? cnt - 1 then u16 (tb_offset b + (Z.quot (len - 1) 4 + 1) * 4) else tb_offset b in
  let len := if i =? cnt - 1 then u16 (len + offset) else len in
  Some (TxBuf mem len offset (tb_queue b ++ [skb])).

Fixpoint pack (cnt i : Z) (b : tx_buf) (skbs : list tx_skb) : option tx_buf :=
  match skbs with
  | [] => Some b
  | skb :: skbs => b ← pack_one cnt i b skb; pack cnt (i + 1) b skbs
  end.

(** [usb_submit_urb] returns [ret]. *)
Definition do_hif_usb_tx (ret : Z) (t : hif_usb_tx) : option (hif_usb_tx * Z) :=
  if tx_skb_cnt t =? 0 then Some (t, 0)
  else match tx_free t with
  | [] => Some (t, 0)
  | b :: free =>
      let cnt := Z.min (tx_skb_cnt t) MAX_TX_AGGR_NUM in
      if Z.of_nat (length (tx_skb_queue t)) <? cnt then None
      else
        let skbs := take (Z.to_nat cnt) (tx_skb_queue t) in
        let rest := drop (Z.to_nat cnt) (tx_skb_queue t) in
        b ← pack cnt 0 b skbs;
        let sub := submitted t ++ [take (Z.to_nat (tb_len b)) (tb_mem b)] in
        if ret =? 0 then
          Some (Tx (tx_stop t) (tx_flush t) (u8 (tx_buf_cnt t - 1)) (u16 (tx_skb_cnt t - cnt)) rest free
            (tx_pending t ++ [b]) (completed t) (tx_freed t) sub, 0)
        else
          Some (Tx (tx_stop t) (tx_flush t) (u8 (u8 (tx_buf_cnt t - 1) + 1)) (u16 (tx_skb_cnt t - cnt)) rest
            (free ++ [TxBuf (tb_mem b) 0 0 []]) (tx_pending t)
            (completed t ++ ((fun s => (s, false)) <$> tb_queue b)) (tx_freed t) sub, ret)
  end.

(** The status of a completed transfer: good, cancelled or failed otherwise. *)
Inductive urb_status := UrbOk | UrbGone | UrbError.

(** [hif_usb_tx_cb] for the [i]-th pending buffer. *)
Definition hif_usb_tx_cb (ret : Z) (t : hif_usb_tx) (i : nat) (status : urb_status) : option hif_usb_tx :=
  match tx_pending t !! i with
  | None => Some t
  | Some b =>
      if (if status is UrbGone then tx_flush t else false) then
        Some (Tx (tx_stop t) (tx_flush t) (tx_buf_cnt t) (tx_skb_cnt t) (tx_skb_queue t) (tx_free t)
          (<[i := TxBuf (tb_mem b) (tb_len b) (tb_offset b) []]> (tx_pending t)) (completed t)
          (tx_freed t ++ tb_queue b) (submitted t))
      else
        let txok := if status is UrbOk then true else false in
        let t := Tx (tx_stop t) (tx_flush t) (u8 (tx_buf_cnt t + 1)) (tx_skb_cnt t) (tx_skb_queue t)
          (tx_free t ++ [TxBuf (tb_mem b) 0 0 []]) (delete i (tx_pending t))
          (completed t ++ ((fun s => (s, txok)) <$> tb_queue b)) (tx_freed t) (submitted t) in
        if tx_stop t then Some t
        else '(t, _) ← do_hif_usb_tx ret t; Some t
  end.

Definition is_data (k : tx_type) : bool :=
  match k with ATH9K_HTC_NORMAL | ATH9K_HTC_AMPDU => true | _ => false end.

(** Management frames bypass the pool ([mgmt] is what [hif_usb_send_mgmt]
    returns). *)
Definition hif_usb_send_tx (ret mgmt : Z) (t : hif_usb_tx) (skb : tx_skb) : option (hif_usb_tx * Z) :=
  if tx_stop t then Some (t, - ENODEV)
  else if tx_skb_cnt t >? MAX_TX_BUF_NUM then Some (t, - ENOMEM)
  else
    let t := if is_data (tx_kind skb) then
        Tx (tx_stop t) (tx_flush t) (tx_buf_cnt t) (u16 (tx_skb_cnt t + 1)) (tx_skb_queue t ++ [skb]) (tx_free t)
          (tx_pending t) (completed t) (tx_freed t) (submitted t)
      else t in
    let r := if is_data (tx_kind skb) then 0 else mgmt in
    if (tx_buf_cnt t =? MAX_TX_URB_NUM) && (tx_skb_cnt t <? 2) then
      '(t, _) ← do_hif_usb_tx ret t; Some (t, r)
    else Some (t, r).

Definition hif_usb_start (t : hif_usb_tx) : hif_usb_tx :=
  Tx false (tx_flush t) (tx_buf_cnt t) (tx_skb_cnt t) (tx_skb_queue t) (tx_free t) (tx_pending t)
    (completed t) (tx_freed t) (submitted t).

(** Up to the cancellation of the pending URBs, whose callbacks are
    [hif_usb_tx_cb] with [UrbGone]. *)
Definition hif_usb_stop (t : hif_usb_tx) : hif_usb_tx :=
  Tx true (tx_flush t) (tx_buf_cnt t) 0 [] (tx_free t) (tx_pending t)
    (completed t ++ ((fun s => (s, false)) <$> tx_skb_queue t)) (tx_freed t) (submitted t).

Definition check_index (skb : tx_skb) (idx : Z) : bool :=
  match tx_kind skb with ATH9K_HTC_AMPDU => sta_idx skb =? idx | _ => false end.

Definition hif_usb_sta_drain (t : hif_usb_tx) (idx : Z) : hif_usb_tx :=
  let gone := List.filter (fun s => check_index s idx) (tx_skb_queue t) in
  let kept := List.filter (fun s => negb (check_index s idx)) (tx_skb_queue t) in
  Tx (tx_stop t) (tx_flush t) (tx_buf_cnt t) (u16 (tx_skb_cnt t - Z.of_nat (length gone))) kept (tx_free t)
    (tx_pending t) (completed t ++ ((fun s => (s, false)) <$> gone)) (tx_freed t) (submitted t).

(** ** The packets of a receive stream *)

(** A packet and the bytes that pad it to a multiple of four. *)
Record packet := Pkt { p_data : list Z; p_pad : list Z }.

Definition plen (p : packet) : Z := Z.of_nat (length (p_data p)).

Definition encode (p : packet) : list Z :=
  put_le16 (plen p) ++ put_le16 ATH_USB_RX_STREAM_MODE_TAG ++ p_data p ++ p_pad p.

Definition wf_packet (p : packet) : Prop :=
  Z.of_nat (length (p_pad p)) = rx_pad (plen p) /\ Z.of_nat (length (encode p)) <= MAX_RX_BUF_SIZE.

#[global] Instance wf_packet_dec p : Decision (wf_packet p).
Proof. unfold wf_packet; apply _. Defined.

(** A packet of which the first [k] encoded bytes are in the transfers so far. *)
Definition partial := option (packet * nat).

Definition rest_of (o : partial) : list Z := match o with Some (p, k) => drop k (encode p) | None => [] end.
Definition part_of (o : partial) : list Z := match o with Some (p, k) => take k (encode p) | None => [] end.
Definition whole_of (o : partial) : list packet := match o with Some (p, _) => [p] | None => [] end.

Definition wf_partial (o : partial) : Prop :=
  match o with
  | Some (p, k) => wf_packet p /\ (0 < k < length (encode p))%nat
  | None => True
  end.

(** [chunk] is what one transfer carries: the rest of a packet, whole packets
    and the beginning of the next one, which only a full transfer can have. *)
Record transfer (from : partial) (chunk : list Z) (ps : list packet) (to : partial) : Prop := {
  tr_chunk : chunk = rest_of from ++ concat (encode <$> ps) ++ part_of to;
  tr_ps : Forall wf_packet ps;
  tr_to : wf_partial to;
  tr_len : Z.of_nat (length chunk) <= MAX_RX_BUF_SIZE;
  tr_full : to <> None -> Z.of_nat (length chunk) = MAX_RX_BUF_SIZE;
  tr_count : (length (whole_of from) + length ps <= MAX_PKT_NUM_IN_TRANSFER)%nat }.

(** The state between two transfers. *)
Definition pending (st : rx_state) (o : partial) : Prop :=
  match o with
  | None => rx_remain_len st = 0
  | Some (p, k) =>
      wf_packet p /\ (4 <= k < length (encode p))%nat /\ (Z.of_nat k mod 4 = 0) /\
      rx_remain_len st = Z.of_nat (length (encode p)) - Z.of_nat k /\
      rx_transfer_len st = Z.of_nat k - 4 /\ rx_pad_len st = rx_pad (plen p) /\
      remain_skb st = Filling (take (k - 4) (p_data p))
  end.

Lemma rx_pad_spec n : 0 <= rx_pad n <= 3 /\ (n + rx_pad n) mod 4 = 0.
Proof.
  assert (E : Z.land n 3 = n mod 4) by by apply (Z.land_ones n 2).
  unfold rx_pad; rewrite E; destruct (Z.eqb_spec (4 - n mod 4) 4); arith.
Qed.

Lemma length_encode p : wf_packet p ->
  Z.of_nat (length (encode p)) = 4 + plen p + rx_pad (plen p) /\ (Z.of_nat (length (encode p))) mod 4 = 0.
Proof.
  intros [Hp _]; pose proof (rx_pad_spec (plen p)) as [? ?].
  assert (E : Z.of_nat (length (encode p)) = 4 + plen p + rx_pad (plen p)).
  { rewrite <- Hp; unfold encode, plen; rewrite !length_app; simpl; lia. }
  split; [done|]; rewrite E; arith.
Qed.

Lemma plen_u16 p : wf_packet p -> is_u16 (plen p).
Proof.
  intros Hw; pose proof (length_encode p Hw) as [E _]; destruct Hw as [_ Hm].
  pose proof (rx_pad_spec (plen p)) as [? _]; unfold MAX_RX_BUF_SIZE in Hm.
  unfold is_uint; split; [unfold plen; lia | change (2 ^ 16) with 65536; lia].
Qed.

Lemma rd16_drop b i v tl : is_u16 v -> drop i b = put_le16 v ++ tl -> rd16 b (Z.of_nat i) = Some v.
Proof.
  intros Hv E; assert (Hl : (i + 2 <= length b)%nat).
  { pose proof (length_drop b i) as H; rewrite E in H; simpl in H; lia. }
  unfold rd16; rewrite (proj2 (Z.leb_le 0 _)), (proj2 (Z.leb_le _ _)) by lia; simpl; f_equal.
  rewrite Nat2Z.id, <- (get_put_le16 v Hv); unfold get_le16.
  rewrite <- (Nat.add_0_r i) at 1; rewrite <- !byte_at_drop, E; done.
Qed.

Lemma slice_drop b i n d tl : drop i b = d ++ tl -> n = Z.of_nat (length d) -> (0 < length (d ++ tl))%nat ->
  slice b (Z.of_nat i) n = Some d.
Proof.
  intros E -> Hne; assert (Hl : (i + length d <= length b)%nat).
  { pose proof (length_drop b i) as H; rewrite E, length_app in H; rewrite length_app in Hne; lia. }
  unfold slice; rewrite !(proj2 (Z.leb_le _ _)) by lia; simpl.
  by rewrite !Nat2Z.id, E, take_app_length.
Qed.

(** The header of a packet that starts at [i]. *)
Lemma header_at b i p k tl : wf_packet p -> (4 <= k <= length (encode p))%nat ->
  drop i b = take k (encode p) ++ tl ->
  rd16 b (Z.of_nat i) = Some (plen p) /\ rd16 b (Z.of_nat i + 2) = Some ATH_USB_RX_STREAM_MODE_TAG /\
  drop (i + 4) b = take (k - 4) (p_data p ++ p_pad p) ++ tl.
Proof.
  intros Hw Hk E.
  assert (E' : drop i b = put_le16 (plen p) ++ put_le16 ATH_USB_RX_STREAM_MODE_TAG ++
    take (k - 4) (p_data p ++ p_pad p) ++ tl).
  { rewrite E; unfold encode; do 4 (destruct k as [|k]; [lia|]); simpl; rewrite ?Nat.sub_0_r; done. }
  split_and!.
  - by apply (rd16_drop _ _ _ _ (plen_u16 p Hw) E').
  - replace (Z.of_nat i + 2) with (Z.of_nat (i + 2)) by lia.
    apply (rd16_drop _ _ _ (take (k - 4) (p_data p ++ p_pad p) ++ tl)); [done|].
    by rewrite <- drop_drop, E'.
  - by rewrite <- drop_drop, E'.
Qed.

(** The loop on a started packet at the end of a full transfer. *)
Lemma rx_loop_partial fuel alloc n st buf i pool p k tl : (forall j, alloc j = true) ->
  Z.of_nat (length buf) = MAX_RX_BUF_SIZE -> wf_packet p -> (0 < k < length (encode p))%nat ->
  drop i buf = take k (encode p) ++ tl -> Z.of_nat i + Z.of_nat k = MAX_RX_BUF_SIZE ->
  Z.of_nat i mod 4 = 0 -> (0 < fuel)%nat ->
  exists st', rx_loop fuel alloc n st buf MAX_RX_BUF_SIZE pool (Z.of_nat i) = Some (inr (st', Passed pool)) /\
    pending st' (Some (p, k)).
Proof.
  intros Ha Hb Hw Hk E Hik Hi Hf; destruct fuel as [|fuel]; [lia|].
  destruct (length_encode p Hw) as [El Em]; pose proof (rx_pad_spec (plen p)) as [Hp _].
  assert (Hk4 : (Z.of_nat k) mod 4 = 0) by (unfold MAX_RX_BUF_SIZE in *; arith).
  assert (Hk' : (4 <= k)%nat /\ Z.of_nat k + 4 <= Z.of_nat (length (encode p))) by (split; arith).
  destruct (header_at buf i p k tl Hw ltac:(lia) E) as (E1 & E2 & E3).
  cbn [rx_loop]; rewrite (proj2 (Z.ltb_lt _ _)), E1, E2 by lia.
  rewrite Z.eqb_refl; cbn [negb].
  rewrite Z.gtb_ltb, (proj2 (Z.ltb_lt _ _)), Ha by lia; cbn [negb].
  assert (Hd : slice buf (Z.of_nat i + 4) (MAX_RX_BUF_SIZE - Z.of_nat i - 4) = Some (take (k - 4) (p_data p))).
  { replace (Z.of_nat i + 4) with (Z.of_nat (i + 4)) by lia.
    rewrite take_app_le in E3 by (unfold plen in *; lia).
    destruct (decide (k = 4%nat)) as [->|].
    - replace (MAX_RX_BUF_SIZE - Z.of_nat i - 4) with 0 by lia.
      unfold slice; rewrite (proj2 (Z.leb_le 0 _)), (proj2 (Z.leb_le _ (Z.of_nat (length buf)))) by lia; done.
    - apply (slice_drop _ _ _ _ tl E3).
      + rewrite length_take; unfold plen in *; lia.
      + rewrite length_app, length_take; unfold plen in *; lia. }
  rewrite Hd; destruct fuel; cbn [rx_loop]; rewrite (proj2 (Z.ltb_ge _ _)) by lia.
  all: eexists; split; [done|]; unfold pending; cbn [rx_remain_len rx_transfer_len rx_pad_len remain_skb].
  all: split_and!; try done; lia.
Qed.

Lemma rx_loop_ok alloc buf to ps : (forall j, alloc j = true) ->
  Z.of_nat (length buf) = MAX_RX_BUF_SIZE -> Forall wf_packet ps -> wf_partial to ->
  forall fuel n st i len pool stale,
  drop i buf = concat (encode <$> ps) ++ part_of to ++ stale ->
  len = Z.of_nat i + Z.of_nat (length (concat (encode <$> ps) ++ part_of to)) ->
  len <= MAX_RX_BUF_SIZE -> (to <> None -> len = MAX_RX_BUF_SIZE) -> Z.of_nat i mod 4 = 0 ->
  (length pool + length ps <= MAX_PKT_NUM_IN_TRANSFER)%nat -> rx_remain_len st = 0 ->
  len - Z.of_nat i <= Z.of_nat fuel ->
  exists st', rx_loop fuel alloc n st buf len pool (Z.of_nat i) =
    Some (inr (st', Passed (pool ++ (p_data <$> ps)))) /\ pending st' to.
Proof.
  intros Ha Hb Hps Hto; induction Hps as [|p ps Hw Hps IH]; intros fuel n st i len pool stale E -> Hmax Hfull Hi Hcnt Hr Hf.
  - cbn [fmap list_fmap concat app length] in *; rewrite app_nil_r; destruct to as [[p k]|];
      cbn [part_of wf_partial] in *.
    + destruct Hto as [Hw Hk]; specialize (Hfull ltac:(done)); rewrite Hfull.
      rewrite length_take in Hfull, Hf.
      apply (rx_loop_partial _ _ _ _ _ _ _ p k stale); try done; lia.
    + cbn [length]; rewrite Z.add_0_r; exists st; destruct fuel; cbn [rx_loop]; rewrite Z.ltb_irrefl; done.
  - destruct (length_encode p Hw) as [El Em]; pose proof (rx_pad_spec (plen p)) as [Hp _].
    assert (Hpl : 0 <= plen p) by (unfold plen; lia).
    rewrite fmap_cons in *; cbn [concat] in *.
    set (rest := concat (encode <$> ps)) in *.
    rewrite <- !app_assoc in *; rewrite length_app in *.
    destruct fuel as [|fuel]; [lia|].
    assert (E' : drop i buf = take (length (encode p)) (encode p) ++ rest ++ part_of to ++ stale)
      by (rewrite firstn_all; done).
    destruct (header_at buf i p (length (encode p)) (rest ++ part_of to ++ stale) Hw ltac:(lia) E') as (E1 & E2 & E3).
    cbn [rx_loop]; rewrite (proj2 (Z.ltb_lt _ _)), E1, E2 by lia.
    rewrite Z.eqb_refl; cbn [negb].
    rewrite Z.gtb_ltb, (proj2 (Z.ltb_ge _ _)), Ha by lia; cbn [negb].
    replace (length (encode p) - 4)%nat with (length (p_data p ++ p_pad p)) in E3
      by (unfold encode; rewrite !length_app; simpl; lia).
    rewrite firstn_all, <- app_assoc in E3.
    assert (Hd : slice buf (Z.of_nat i + 4) (plen p) = Some (p_data p)).
    { replace (Z.of_nat i + 4) with (Z.of_nat (i + 4)) by lia.
      destruct (decide (p_data p = [])) as [E0|].
      - unfold plen; rewrite E0; unfold slice.
        rewrite (proj2 (Z.leb_le 0 _)), (proj2 (Z.leb_le _ (Z.of_nat (length buf)))) by (simpl; lia); done.
      - apply (slice_drop _ _ _ _ _ E3 eq_refl); rewrite length_app; destruct (p_data p); simpl in *; [done | lia]. }
    rewrite Hd; cbn [length] in Hcnt.
    rewrite (proj2 (Nat.leb_gt _ _)) by lia.
    replace (Z.of_nat i + 4 + plen p + rx_pad (plen p)) with (Z.of_nat (i + length (encode p))) by lia.
    destruct (IH fuel (S n) st (i + length (encode p))%nat
      (Z.of_nat i + Z.of_nat (length (encode p) + length (rest ++ part_of to))) (pool ++ [p_data p]) stale)
      as (st' & -> & Hst'); try done; try lia.
    + rewrite <- drop_drop, E, drop_app_length; done.
    + rewrite length_app; lia.
    + rewrite Nat2Z.inj_add; arith.
    + rewrite length_app; simpl; lia.
    + exists st'; rewrite <- app_assoc; done.
Qed.

Lemma rx_continue_ok st buf from tl : pending st from -> buf = rest_of from ++ tl ->
  exists st', rx_continue st buf = inr (st', p_data <$> whole_of from, Z.of_nat (length (rest_of from))) /\
    rx_remain_len st' = 0 /\ Z.of_nat (length (rest_of from)) mod 4 = 0.
Proof.
  intros Hp ->; unfold rx_continue; destruct from as [[p k]|]; cbn [pending rest_of whole_of] in *.
  2: { rewrite Hp; exists st; done. }
  destruct Hp as (Hw & Hk & Hk4 & Hr & Ht & Hpad & Hs).
  destruct (length_encode p Hw) as [El Em]; pose proof (rx_pad_spec (plen p)) as [Hpd _].
  rewrite Hr, (proj2 (Z.eqb_neq _ _)), Hs, Hpad by lia.
  assert (Hk8 : Z.of_nat k + 4 <= Z.of_nat (length (encode p))) by arith.
  assert (Ed : drop k (encode p) = drop (k - 4) (p_data p) ++ p_pad p).
  { unfold encode; do 4 (destruct k as [|k]; [lia|]); simpl; rewrite Nat.sub_0_r.
    rewrite drop_app_le; [done|]; unfold plen in *; lia. }
  assert (Hsl : slice ((drop k (encode p)) ++ tl) 0 (Z.of_nat (length (encode p)) - Z.of_nat k - rx_pad (plen p)) =
    Some (drop (k - 4) (p_data p))).
  { rewrite Ed; change 0 with (Z.of_nat 0); apply (slice_drop _ _ _ _ (p_pad p ++ tl)).
    - by rewrite drop_0, <- app_assoc.
    - rewrite length_drop; unfold plen in *; lia.
    - rewrite length_app, length_drop; unfold plen in *; arith. }
  rewrite Hsl; exists (Rx 0 (rx_transfer_len st) (rx_pad (plen p)) HandedOn); split; [|split; [done|]].
  - rewrite take_drop, length_drop; do 3 f_equal; lia.
  - rewrite length_drop, Nat2Z.inj_sub by lia; arith.
Qed.

Lemma rx_stream_ok alloc st buf from chunk ps to stale : (forall j, alloc j = true) ->
  pending st from -> transfer from chunk ps to ->
  buf = chunk ++ stale -> Z.of_nat (length buf) = MAX_RX_BUF_SIZE ->
  exists st', ath9k_hif_usb_rx_stream alloc st buf (Z.of_nat (length chunk)) =
      Some (inr (st', Passed (p_data <$> whole_of from ++ ps))) /\ pending st' to.
Proof.
  intros Ha Hp [Ec Hps Hto Hl Hfull Hcnt] Eb Hb; unfold ath9k_hif_usb_rx_stream.
  assert (Eb' : buf = rest_of from ++ concat (encode <$> ps) ++ part_of to ++ stale).
  { by rewrite Eb, Ec, <- !app_assoc. }
  destruct (rx_continue_ok st buf from _ Hp Eb') as (st1 & -> & Hr & Hm).
  assert (Elen : Z.of_nat (length chunk) =
    Z.of_nat (length (rest_of from)) + Z.of_nat (length (concat (encode <$> ps) ++ part_of to))).
  { rewrite Ec, length_app; lia. }
  rewrite fmap_app; apply (rx_loop_ok alloc buf to ps Ha Hb Hps Hto) with (stale := stale); try done.
  - rewrite Eb', drop_app_length; done.
  - rewrite length_fmap; lia.
  - lia.
Qed.

(** ** Properties *)

(** A sequence of transfers, each in a buffer of 16384 bytes. *)
Fixpoint rx_transfers (alloc : nat -> bool) (st : rx_state) (ts : list (list Z * Z))
    : option (fault + (rx_state * list (list Z))) :=
  match ts with
  | [] => Some (inr (st, []))
  | (buf, len) :: ts =>
      match ath9k_hif_usb_rx_stream alloc st buf len with
      | Some (inr (st, Passed l)) =>
          match rx_transfers alloc st ts with
          | Some (inr (st, l')) => Some (inr (st, l ++ l'))
          | r => r
          end
      | Some (inr (st, BadTag _)) => rx_transfers alloc st ts
      | Some (inl e) => Some (inl e)
      | None => None
      end
  end.

(** The transfers a device makes of a packet stream, with the packets that end
    in them. *)
Inductive stream : partial -> list (list Z * Z) -> list packet -> partial -> Prop :=
| stream_nil o : stream o [] [] o
| stream_cons from chunk stale ps mid ts qs to :
    transfer from chunk ps mid -> Z.of_nat (length (chunk ++ stale)) = MAX_RX_BUF_SIZE ->
    stream mid ts qs to ->
    stream from ((chunk ++ stale, Z.of_nat (length chunk)) :: ts) (whole_of from ++ ps ++ qs) to.

(** C37: packets that the device packs back to back into transfers of at most
    16384 bytes, with packets continued in the next transfer where they do not
    fit, are delivered exactly once, whole and in order, as long as no
    allocation fails and no transfer completes more than ten packets. *)
Theorem rx_stream_reassembles alloc st from ts ps to : (forall j, alloc j = true) ->
  pending st from -> stream from ts ps to ->
  exists st', rx_transfers alloc st ts = Some (inr (st', p_data <$> ps)) /\ pending st' to.
Proof.
  intros Ha Hp Hs; revert st Hp; induction Hs as [o|from chunk stale ps mid ts qs to Ht Hl _ IH]; intros st Hp.
  { by exists st. }
  destruct (rx_stream_ok alloc st _ from chunk ps mid stale Ha Hp Ht eq_refl Hl) as (st1 & E & Hp1).
  destruct (IH st1 Hp1) as (st2 & E2 & Hp2).
  cbn [rx_transfers]; rewrite E, E2; exists st2; split; [|done].
  by rewrite !fmap_app, <- app_assoc.
Qed.

(** Two transfers: a packet of 16000 bytes, then one of 1000 bytes of which the
    first 380 encoded bytes end the first transfer. *)
Definition sample_p1 : packet := Pkt (repeat 1 (Z.to_nat 16000)) [].
Definition sample_p2 : packet := Pkt (repeat 2 (Z.to_nat 998)) [0; 0].
Definition sample_chunk1 : list Z := encode sample_p1 ++ take 380 (encode sample_p2).
Definition sample_chunk2 : list Z := drop 380 (encode sample_p2).

Lemma rx_stream_reassembles_witness :
  exists st', rx_transfers (fun _ => true) (Rx 0 0 0 NoSkb)
      [(sample_chunk1 ++ [], Z.of_nat (length sample_chunk1));
       (sample_chunk2 ++ repeat 0 (Z.to_nat 15760), Z.of_nat (length sample_chunk2))] =
    Some (inr (st', p_data <$> [sample_p1; sample_p2])) /\ pending st' None.
Proof.
  apply (rx_stream_reassembles (fun _ => true) _ None); [done | done |].
  apply (stream_cons None sample_chunk1 [] [sample_p1] (Some (sample_p2, 380%nat)) _ [sample_p2]).
  - split; [reflexivity | by_eval | split; by_eval | by_eval | by_eval | by_eval].
  - by_eval.
  - apply (stream_cons (Some (sample_p2, 380%nat)) sample_chunk2 _ [] None _ []); [|by_eval | constructor].
    split; [by rewrite app_nil_r | by_eval | done | by_eval | done | by_eval].
Defined.

(** Without those conditions the handler corrupts memory.  Eleven empty
    packets in one transfer write behind the ten-entry packet pool; and when
    the allocation for a straddling packet fails after an earlier one has been
    delivered, the next transfer writes into the buffer already handed on. *)
Theorem rx_stream_faults :
  let hdr n := put_le16 n ++ put_le16 ATH_USB_RX_STREAM_MODE_TAG in
  ath9k_hif_usb_rx_stream (fun _ => true) (Rx 0 0 0 NoSkb)
    (concat (repeat (hdr 0) 11) ++ repeat 0 (Z.to_nat 16340)) 44 = Some (inl PoolOverflow) /\
  exists st', ath9k_hif_usb_rx_stream (fun _ => false) (Rx 0 376 2 HandedOn)
      (hdr 16384 ++ repeat 0 (Z.to_nat 16380)) 16384 = Some (inr (st', Passed [])) /\
    forall alloc buf len, ath9k_hif_usb_rx_stream alloc st' buf len = Some (inl UseAfterFree).
Proof.
  split; [vm_compute; reflexivity|].
  exists (Rx 4 16380 0 HandedOn); split; [vm_compute; reflexivity | reflexivity].
Qed.

(** ** Transmit invariant *)

(** Frames small enough that twenty of them fit a buffer: 20 * 1636 < 32768. *)
Definition tx_ok (s : tx_skb) : Prop := Z.of_nat (length (payload s)) <= 1632.

(** Counters match the lists, free buffers are empty and have their memory. *)
Record tx_wf (t : hif_usb_tx) : Prop := {
  tw_cnt : tx_skb_cnt t = Z.of_nat (length (tx_skb_queue t));
  tw_max : tx_skb_cnt t <= MAX_TX_BUF_NUM + 1;
  tw_buf : tx_buf_cnt t = Z.of_nat (length (tx_free t));
  tw_bufs : Z.of_nat (length (tx_free t)) + Z.of_nat (length (tx_pending t)) <= MAX_TX_URB_NUM;
  tw_free : Forall (fun b => tb_len b = 0 /\ tb_offset b = 0 /\ tb_queue b = [] /\
    Z.of_nat (length (tb_mem b)) = MAX_TX_BUF_SIZE) (tx_free t);
  tw_pend : Forall (fun b => Z.of_nat (length (tb_mem b)) = MAX_TX_BUF_SIZE) (tx_pending t);
  tw_ok : Forall tx_ok (tx_skb_queue t) }.

(** Every frame handed to the transport, wherever it is now. *)
Definition tx_frames (t : hif_usb_tx) : list tx_skb :=
  tx_skb_queue t ++ concat (tb_queue <$> tx_pending t) ++ (fst <$> completed t) ++ tx_freed t.

(** The transmit encoding of a frame, without padding. *)
Definition tx_encode (s : tx_skb) : list Z :=
  put_le16 (Z.of_nat (length (payload s))) ++ put_le16 ATH_USB_TX_STREAM_MODE_TAG ++ payload s.

(** The device's view of a submitted buffer: frames at offsets that are
    multiples of four, each 4 to 7 bytes behind the end of the one before. *)
Inductive packed : list Z -> list tx_skb -> Prop :=
| packed_one s : packed (tx_encode s) [s]
| packed_cons s gap b l :
    (length gap < 4)%nat -> (length (tx_encode s ++ gap) mod 4 = 0)%nat -> packed b l ->
    packed (tx_encode s ++ gap ++ b) (s :: l).

Lemma write_at_ok mem o d : 0 <= o -> o + Z.of_nat (length d) <= Z.of_nat (length mem) ->
  exists mem', write_at mem o d = Some mem' /\ length mem' = length mem /\
    forall n, (Z.to_nat o + length d <= n)%nat -> (n <= length mem)%nat ->
      take n mem' = take (Z.to_nat o) mem ++ d ++ take (n - (Z.to_nat o + length d)) (drop (Z.to_nat o + length d) mem).
Proof.
  intros Ho Hl; unfold write_at; rewrite !(proj2 (Z.leb_le _ _)) by lia; simpl.
  eexists; split; [done|]; split.
  - rewrite !length_app, length_take, length_drop; lia.
  - intros n Hn Hm; rewrite app_assoc, take_app_ge.
    + rewrite <- app_assoc; do 3 f_equal; rewrite length_app, length_take; lia.
    + rewrite length_app, length_take; lia.
Qed.

Lemma length_tx_encode s : length (tx_encode s) = (length (payload s) + 4)%nat.
Proof. unfold tx_encode; rewrite !length_app; simpl; lia. Qed.

(** The slot a frame takes: its encoding rounded up to four bytes. *)
Definition tx_slot (s : tx_skb) : Z := (Z.quot (Z.of_nat (length (payload s)) + 4 - 1) 4 + 1) * 4.

Lemma tx_slot_spec s : tx_ok s ->
  Z.of_nat (length (tx_encode s)) <= tx_slot s < Z.of_nat (length (tx_encode s)) + 4 /\
  tx_slot s mod 4 = 0 /\ tx_slot s <= 1636.
Proof.
  unfold tx_ok, tx_slot; intros H; rewrite length_tx_encode, Z.quot_div_nonneg by lia; arith.
Qed.

Lemma pack_ok cnt skbs : forall i b, skbs <> [] -> Forall tx_ok skbs -> i + Z.of_nat (length skbs) = cnt ->
  Z.of_nat (length (tb_mem b)) = MAX_TX_BUF_SIZE -> 0 <= tb_offset b ->
  tb_offset b + 1636 * Z.of_nat (length skbs) <= MAX_TX_BUF_SIZE ->
  exists b' e, pack cnt i b skbs = Some b' /\ tb_queue b' = tb_queue b ++ skbs /\
    Z.of_nat (length (tb_mem b')) = MAX_TX_BUF_SIZE /\ packed e skbs /\
    take (Z.to_nat (tb_len b')) (tb_mem b') = take (Z.to_nat (tb_offset b)) (tb_mem b) ++ e.
Proof.
  induction skbs as [|s skbs IH]; intros i b Hne Hok Hi Hm Ho Hb; [done|].
  assert (Hs : tx_ok s) by by inversion Hok.
  destruct (tx_slot_spec s Hs) as ([Hlo Hhi] & Hm4 & Hmax).
  pose proof (length_tx_encode s) as Hle.
  destruct (write_at_ok (tb_mem b) (tb_offset b) (tx_encode s)) as (mem & Ew & Hml & Htake);
    [done | unfold MAX_TX_BUF_SIZE in *; cbn [length] in *; lia |].
  cbn [pack]; unfold pack_one; fold (tx_encode s); rewrite Ew; cbn [mbind option_bind].
  unfold tx_ok, MAX_TX_BUF_SIZE in *.
  rewrite (u16_mod (Z.of_nat (length (payload s)) + 4)), Z.mod_small by lia.
  destruct skbs as [|s' skbs].
  - cbn [length pack] in *.
    rewrite (proj2 (Z.ltb_ge _ _)), (proj2 (Z.eqb_eq _ _)) by lia.
    rewrite u16_mod, Z.mod_small by lia.
    eexists _, (tx_encode s); split_and!; [done | done | cbn; lia | apply packed_one |].
    cbn [tb_len tb_mem]; rewrite Htake by lia.
    replace (Z.to_nat _ - _)%nat with 0%nat by lia; rewrite take_0, app_nil_r; done.
  - cbn [length] in Hi, Hb.
    rewrite (proj2 (Z.ltb_lt _ _)), (proj2 (Z.eqb_neq _ _)) by lia; fold (tx_slot s).
    rewrite u16_mod, Z.mod_small by lia.
    destruct (IH (i + 1) (TxBuf mem (Z.of_nat (length (payload s)) + 4) (tb_offset b + tx_slot s)
      (tb_queue b ++ [s]))) as (b' & e & -> & Eq & Hml' & Hp & Et);
      [done | by inversion Hok | cbn [length]; lia | cbn; lia | cbn; lia | cbn [length tb_offset]; lia |].
    set (gap := take (Z.to_nat (tb_offset b + tx_slot s) - (Z.to_nat (tb_offset b) + length (tx_encode s)))
      (drop (Z.to_nat (tb_offset b) + length (tx_encode s)) (tb_mem b))).
    assert (Hgap : Z.of_nat (length gap) = tx_slot s - Z.of_nat (length (tx_encode s))).
    { subst gap; rewrite length_take, length_drop; lia. }
    eexists b', (tx_encode s ++ gap ++ e); split_and!; [done | | done | |].
    + rewrite Eq; cbn [tb_queue]; by rewrite <- app_assoc.
    + apply packed_cons; [lia | | done].
      apply Nat2Z.inj; rewrite Nat2Z.inj_mod, length_app, Nat2Z.inj_add, Hgap.
      replace (_ + (tx_slot s - _)) with (tx_slot s) by lia; exact Hm4.
    + rewrite Et; cbn [tb_offset tb_mem]; rewrite Htake by lia; fold gap; by rewrite <- !app_assoc.
Qed.

(** The transmit routine packs the first frames of the queue, at most
    twenty, into one free buffer: the submitted bytes are exactly their
    encodings at four-byte aligned offsets, in order, without overrunning the
    buffer, the buffer remembers them, and the rest stay queued. *)
Theorem hif_usb_tx_packs t b free : tx_wf t -> tx_skb_queue t <> [] -> tx_free t = b :: free ->
  let l := take 20 (tx_skb_queue t) in
  exists t' e b', do_hif_usb_tx 0 t = Some (t', 0) /\ submitted t' = submitted t ++ [e] /\ packed e l /\
    tx_pending t' = tx_pending t ++ [b'] /\ tb_queue b' = l /\
    tx_skb_queue t' = drop 20 (tx_skb_queue t) /\ completed t' = completed t.
Proof.
  intros [Hc Hmax Hbc Hbs Hfree Hpend Hok] Hne Hf l; unfold do_hif_usb_tx.
  rewrite Hf in *; apply Forall_cons_1 in Hfree as [(Hl0 & Ho0 & Hq0 & Hm) _].
  assert (Hlen : (0 < length (tx_skb_queue t))%nat) by (destruct (tx_skb_queue t); [done | simpl; lia]).
  rewrite (proj2 (Z.eqb_neq _ _)) by lia.
  set (cnt := Z.min (tx_skb_cnt t) MAX_TX_AGGR_NUM); unfold MAX_TX_AGGR_NUM in cnt.
  rewrite (proj2 (Z.ltb_ge _ _)) by lia.
  assert (El : take (Z.to_nat cnt) (tx_skb_queue t) = l).
  { subst l cnt; destruct (Z.min_spec (tx_skb_cnt t) 20) as [[? ->]|[? ->]]; [|done].
    rewrite !firstn_all2 by lia; done. }
  assert (Ed : drop (Z.to_nat cnt) (tx_skb_queue t) = drop 20 (tx_skb_queue t)).
  { subst cnt; destruct (Z.min_spec (tx_skb_cnt t) 20) as [[? ->]|[? ->]]; [|done].
    rewrite !drop_ge by lia; done. }
  rewrite El, Ed.
  destruct (pack_ok cnt l 0 b) as (b' & e & -> & Eq & _ & Hp & Et).
  - subst l; intros E; apply (f_equal length) in E; rewrite length_take in E; cbn [length] in E; lia.
  - subst l; by apply Forall_take.
  - subst l cnt; rewrite length_take; lia.
  - done.
  - lia.
  - rewrite Ho0; subst l; rewrite length_take; unfold MAX_TX_BUF_SIZE; lia.
  - cbn [mbind option_bind]; eexists _, e, b'; split_and!; [done | | done | done | by rewrite Eq, Hq0 | done | done].
    cbn [submitted]; by rewrite Et, Ho0.
Qed.

Definition sample_tx : hif_usb_tx :=
  Tx false false 1 2 [TxSkb ATH9K_HTC_NORMAL 0 [1; 2; 3]; TxSkb ATH9K_HTC_AMPDU 1 [4]]
    [TxBuf (repeat 0 (Z.to_nat 32768)) 0 0 []] [] [] [] [].

Lemma hif_usb_tx_packs_witness :
  exists t' e b', do_hif_usb_tx 0 sample_tx = Some (t', 0) /\ submitted t' = [] ++ [e] /\
    packed e (take 20 (tx_skb_queue sample_tx)) /\ tx_pending t' = [] ++ [b'] /\
    tb_queue b' = take 20 (tx_skb_queue sample_tx) /\
    tx_skb_queue t' = drop 20 (tx_skb_queue sample_tx) /\ completed t' = [].
Proof.
  apply (hif_usb_tx_packs sample_tx (TxBuf (repeat 0 (Z.to_nat 32768)) 0 0 []) []); [|done|done].
  split; unfold tx_ok; by_eval.
Defined.

(** ** Every frame is accounted for *)

Inductive tx_op :=
| OpSend (ret mgmt : Z) (skb : tx_skb)
| OpDone (ret : Z) (i : nat) (status : urb_status)
| OpStart
| OpStop
| OpDrain (idx : Z).

Definition tx_step (t : hif_usb_tx) (o : tx_op) : option hif_usb_tx :=
  match o with
  | OpSend ret mgmt skb => '(t, _) ← hif_usb_send_tx ret mgmt t skb; Some t
  | OpDone ret i status => hif_usb_tx_cb ret t i status
  | OpStart => Some (hif_usb_start t)
  | OpStop => Some (hif_usb_stop t)
  | OpDrain idx => Some (hif_usb_sta_drain t idx)
  end.

(** The data frames a call takes over. *)
Definition taken_over (t : hif_usb_tx) (o : tx_op) : list tx_skb :=
  match o with
  | OpSend _ _ skb =>
      if negb (tx_stop t) && (tx_skb_cnt t <=? MAX_TX_BUF_NUM) && is_data (tx_kind skb) then [skb] else []
  | _ => []
  end.

Definition op_ok (o : tx_op) : Prop := match o with OpSend _ _ skb => tx_ok skb | _ => True end.

Lemma concat_snoc {A} (l : list (list A)) x : concat (l ++ [x]) = concat l ++ x.
Proof. by rewrite concat_app; simpl; rewrite app_nil_r. Qed.

Lemma do_hif_usb_tx_ok ret t : tx_wf t ->
  exists t' r, do_hif_usb_tx ret t = Some (t', r) /\ tx_wf t' /\ tx_frames t' ≡ₚ tx_frames t.
Proof.
  intros Hw; unfold do_hif_usb_tx; destruct (Z.eqb_spec (tx_skb_cnt t) 0) as [|Hne]; [by eauto|].
  destruct (tx_free t) as [|b free] eqn:Ef; [by eauto|].
  destruct Hw as [Hc Hmax Hbc Hbs Hfree Hpend Hok]; rewrite Ef in *.
  apply Forall_cons_1 in Hfree as [(Hl0 & Ho0 & Hq0 & Hm) Hfree].
  set (cnt := Z.min (tx_skb_cnt t) MAX_TX_AGGR_NUM); unfold MAX_TX_AGGR_NUM in cnt.
  unfold MAX_TX_BUF_NUM, MAX_TX_URB_NUM in *; cbn [length] in *.
  rewrite (proj2 (Z.ltb_ge _ _)) by lia.
  set (l := take (Z.to_nat cnt) (tx_skb_queue t)); set (rest := drop (Z.to_nat cnt) (tx_skb_queue t)).
  assert (Hsplit : tx_skb_queue t = l ++ rest) by (symmetry; apply take_drop).
  assert (Hl : Z.of_nat (length l) = cnt) by (subst l; rewrite length_take; lia).
  assert (Hrl : Z.of_nat (length rest) = tx_skb_cnt t - cnt) by (subst rest; rewrite length_drop; lia).
  assert (Hokl : Forall tx_ok l) by by apply Forall_take.
  assert (Hokr : Forall tx_ok rest) by by apply Forall_drop.
  clearbody l rest.
  destruct (pack_ok cnt l 0 b) as (b' & e & -> & Eq & Hm' & _);
    [intros ->; simpl in Hl; lia | done | lia | done | lia | rewrite Ho0; unfold MAX_TX_BUF_SIZE; lia |].
  cbn [mbind option_bind]; rewrite Hq0 in Eq; cbn [app] in Eq.
  assert (Hu : u16 (tx_skb_cnt t - cnt) = tx_skb_cnt t - cnt) by (rewrite u16_mod, Z.mod_small; lia).
  assert (Hu8 : u8 (tx_buf_cnt t - 1) = tx_buf_cnt t - 1) by (rewrite u8_mod, Z.mod_small; lia).
  rewrite Hu, Hu8; destruct (Z.eqb_spec ret 0); do 2 eexists; (split; [done|]); split.
  - split; cbn -[Z.of_nat]; rewrite ?length_app; cbn [length]; unfold MAX_TX_BUF_NUM, MAX_TX_URB_NUM; try lia; try done.
    apply Forall_app; split; [done | by repeat constructor].
  - unfold tx_frames; cbn -[concat]; rewrite fmap_app, Hsplit; cbn [fmap list_fmap]; rewrite concat_snoc, Eq.
    solve_Permutation.
  - split; cbn -[Z.of_nat]; rewrite ?length_app; cbn [length]; unfold MAX_TX_BUF_NUM, MAX_TX_URB_NUM; try lia; try done.
    + rewrite u8_mod, Z.mod_small; lia.
    + apply Forall_app; split; [done | by repeat constructor].
  - unfold tx_frames; cbn -[concat]; rewrite fmap_app, Hsplit, <- list_fmap_compose, Eq.
    replace (fst ∘ (fun s => (s, false)) <$> l) with l by (symmetry; apply list_fmap_id).
    solve_Permutation.
Qed.

Lemma fst_pair_fmap (b : bool) (l : list tx_skb) : fst <$> ((fun s => (s, b)) <$> l) = l.
Proof. rewrite <- list_fmap_compose; apply list_fmap_id. Qed.

Lemma filter_split {A} (f : A -> bool) (l : list A) :
  l ≡ₚ List.filter f l ++ List.filter (fun x => negb (f x)) l.
Proof.
  induction l as [|x l IH]; simpl; [done|]; destruct (f x); simpl; [by rewrite <- IH|].
  by rewrite <- Permutation_middle, <- IH.
Qed.

Lemma Forall_List_filter {A} (P : A -> Prop) (f : A -> bool) l : Forall P l -> Forall P (List.filter f l).
Proof. induction 1; simpl; [done|]; destruct (f x); [by constructor | done]. Qed.

Lemma hif_usb_tx_cb_ok ret t i status : tx_wf t ->
  exists t', hif_usb_tx_cb ret t i status = Some t' /\ tx_wf t' /\ tx_frames t' ≡ₚ tx_frames t.
Proof.
  intros Hw; unfold hif_usb_tx_cb; destruct (tx_pending t !! i) as [b|] eqn:Ei; [|by eauto].
  assert (Hi : (i < length (tx_pending t))%nat) by (eapply lookup_lt_Some, Ei).
  assert (Hmem : Z.of_nat (length (tb_mem b)) = MAX_TX_BUF_SIZE)
    by apply (Forall_lookup_1 _ _ _ _ (tw_pend _ Hw) Ei).
  pose proof (take_drop_middle _ _ _ Ei) as Es.
  set (pre := take i (tx_pending t)) in *; set (post := drop (S i) (tx_pending t)) in *.
  destruct (match status with UrbGone => tx_flush t | _ => false end).
  - eexists; split; [done|]; destruct Hw; split.
    + split; cbn; try done; [by rewrite length_insert|]. by apply Forall_insert.
    + unfold tx_frames; cbn; rewrite insert_take_drop by done; fold pre post; rewrite <- Es.
      rewrite !fmap_app, !concat_app, !fmap_cons; cbn [concat tb_queue app]; solve_Permutation.
  - set (t1 := Tx _ _ _ _ _ _ _ _ _ _).
    assert (Hw1 : tx_wf t1).
    { destruct Hw; subst t1; unfold MAX_TX_URB_NUM in *; split; cbn -[Z.of_nat]; try done;
        rewrite ?length_app, ?length_delete by done; cbn [length]; unfold MAX_TX_URB_NUM.
      - rewrite u8_mod, Z.mod_small; lia.
      - lia.
      - apply Forall_app; split; [done|]; by repeat constructor.
      - by apply Forall_delete. }
    assert (Hp1 : tx_frames t1 ≡ₚ tx_frames t).
    { subst t1; unfold tx_frames; cbn; rewrite delete_take_drop; fold pre post; rewrite <- Es.
      rewrite !fmap_app, !concat_app, fst_pair_fmap; cbn [fmap list_fmap concat]; solve_Permutation. }
    destruct (tx_stop t1); [by eauto|].
    destruct (do_hif_usb_tx_ok ret t1 Hw1) as (t2 & r & -> & Hw2 & Hp2); cbn [mbind option_bind].
    exists t2; split_and!; [done | done | by rewrite Hp2].
Qed.

Lemma hif_usb_send_tx_ok ret mgmt t skb : tx_wf t -> tx_ok skb ->
  exists t' r, hif_usb_send_tx ret mgmt t skb = Some (t', r) /\ tx_wf t' /\
    tx_frames t' ≡ₚ taken_over t (OpSend ret mgmt skb) ++ tx_frames t.
Proof.
  intros Hw Hs; unfold hif_usb_send_tx, taken_over; destruct (tx_stop t); cbn [negb andb]; [by eauto|].
  rewrite Z.gtb_ltb, Z.leb_antisym.
  destruct (Z.ltb_spec MAX_TX_BUF_NUM (tx_skb_cnt t)) as [|Hle]; cbn [negb andb]; [by eauto|].
  set (t1 := if is_data _ then _ else t).
  assert (H1 : tx_wf t1 /\ tx_frames t1 ≡ₚ (if is_data (tx_kind skb) then [skb] else []) ++ tx_frames t).
  { subst t1; destruct (is_data (tx_kind skb)); [|done]; unfold MAX_TX_BUF_NUM in *; split.
    - destruct Hw; split; cbn -[Z.of_nat]; try done; rewrite ?length_app; cbn [length];
        unfold MAX_TX_BUF_NUM; rewrite ?u16_mod, ?Z.mod_small; try lia.
      apply Forall_app; split; [done|]; by repeat constructor.
    - unfold tx_frames; cbn; solve_Permutation. }
  destruct H1 as [Hw1 Hp1]; destruct (_ && _).
  - destruct (do_hif_usb_tx_ok ret t1 Hw1) as (t2 & r & -> & Hw2 & Hp2); cbn [mbind option_bind].
    do 2 eexists; split_and!; [done | done | by rewrite Hp2].
  - by eauto.
Qed.

(** The transmit path keeps its books: no operation hits the [BUG_ON] or
    overruns a buffer, the counters always equal the queue lengths, and every
    frame it took over is exactly once in the queue, in a pending buffer,
    completed towards HTC, or freed, whatever the order of sends, completions,
    stops and drains and whether or not submissions fail. *)
Theorem tx_frames_conserved t o : tx_wf t -> op_ok o ->
  exists t', tx_step t o = Some t' /\ tx_wf t' /\ tx_frames t' ≡ₚ taken_over t o ++ tx_frames t.
Proof.
  intros Hw Ho; destruct o as [ret mgmt skb|ret i status| | |idx]; cbn [tx_step].
  - destruct (hif_usb_send_tx_ok ret mgmt t skb Hw Ho) as (t' & r & -> & ? & ?); by eexists.
  - by apply hif_usb_tx_cb_ok.
  - eexists; split; [done|]; destruct Hw; split; [by split | done].
  - eexists; split; [done|]; split.
    + destruct Hw; split; cbn; try done.
    + unfold tx_frames; cbn; rewrite fmap_app, fst_pair_fmap; solve_Permutation.
  - pose proof (filter_split (fun s => check_index s idx) (tx_skb_queue t)) as Hp.
    pose proof (Permutation_length Hp) as Hlen; rewrite length_app in Hlen.
    eexists; split; [done|]; split; unfold hif_usb_sta_drain.
    + destruct Hw; unfold MAX_TX_BUF_NUM in *; split; cbn -[Z.of_nat]; try done.
      * rewrite u16_mod, Z.mod_small; lia.
      * rewrite u16_mod, Z.mod_small; unfold MAX_TX_BUF_NUM; lia.
      * by apply Forall_List_filter.
    + unfold tx_frames; cbn; rewrite fmap_app, fst_pair_fmap; rewrite Hp at 3; solve_Permutation.
Qed.

Lemma tx_frames_conserved_witness :
  exists t', tx_step sample_tx (OpSend 0 0 (TxSkb ATH9K_HTC_NORMAL 0 [9])) = Some t' /\ tx_wf t' /\
    tx_frames t' ≡ₚ taken_over sample_tx (OpSend 0 0 (TxSkb ATH9K_HTC_NORMAL 0 [9])) ++ tx_frames sample_tx.
Proof.
  apply tx_frames_conserved; [split; unfold tx_ok; by_eval | unfold op_ok, tx_ok; by_eval].
Defined.

End HifUsb.
