(* ===== verification/Ccmp.v ===== *)
(** * CCMP frame protection

    [net/mac80211/wpa.c]: the CCMP header, nonce and additional data, and the
    encryption and decryption of frames with the packet number check.  The CCM
    cipher is used through the [AuthCipher] interface, which [AesCcm.ccm_cipher]
    implements. *)

From Stdlib Require Import Sorted.
From S2P Require Import Prelude Ieee80211 Frame AesCcm.

Module Ccmp.
Import Ieee80211 Frame.

Definition CCMP_HDR_LEN : nat := 8.
Definition CCMP_MIC_LEN : nat := 8.
Definition CCMP_PN_LEN : nat := 6.

(** The per-key state; [rx_pn] has one counter per TID and one for management
    frames. *)
Record ccmp_key := Key { tx_pn : Z; rx_pn : list (list Z); replays : Z; keyidx : Z }.

(** ** Nonce and additional data *)

Definition ccmp_special_blocks (skb pn : list Z) (encrypted : bool) : AesCcm.scratch :=
  let fc := frame_control skb in
  let mgmt := ieee80211_is_mgmt fc in
  let mask_fc := Z.land fc (Z.lnot (Z.lor (Z.lor IEEE80211_FCTL_RETRY IEEE80211_FCTL_PM) IEEE80211_FCTL_MOREDATA)) in
  let mask_fc := if mgmt then mask_fc else Z.land mask_fc (Z.lnot 0x0070) in
  let mask_fc := Z.lor mask_fc IEEE80211_FCTL_PROTECTED in
  let hdrlen := ieee80211_hdrlen fc in
  let len_a := hdrlen - 2 in
  let qos_tid := if ieee80211_is_data_qos fc
    then Z.land (skb.[ieee80211_get_qos_ctl skb]) IEEE80211_QOS_CTL_TID_MASK else 0 in
  let data_len := u16 (Z.of_nat (length skb) - hdrlen - Z.of_nat CCMP_HDR_LEN) in
  let data_len := if encrypted then u16 (data_len - Z.of_nat CCMP_MIC_LEN) else data_len in
  let b_0 := [0x59; Z.lor qos_tid (Z.shiftl (if mgmt then 1 else 0) 4)] ++
    sub skb off_addr2 ETH_ALEN ++ take CCMP_PN_LEN pn ++ put_be16 data_len in
  let aad := put_be16 len_a ++ put_le16 mask_fc ++ sub skb off_addr1 (3 * ETH_ALEN) ++
    [Z.land (skb.[off_seq_ctrl]) 0x0f; 0] ++
    (if ieee80211_has_a4 fc then sub skb off_addr4 ETH_ALEN ++ [qos_tid; 0]
     else qos_tid :: repeat 0 7) in
  {| AesCcm.sc_b := repeat 0 16; AesCcm.sc_s_0 := repeat 0 16; AesCcm.sc_e := repeat 0 16;
     AesCcm.sc_b_0 := b_0; AesCcm.sc_aad0 := take 16 aad; AesCcm.sc_aad1 := drop 16 aad |}.

Definition ccmp_pn2hdr (pn : list Z) (key_id : Z) : list Z :=
  [pn.[5]; pn.[4]; 0; u8 (Z.lor 0x20 (Z.shiftl key_id 6)); pn.[3]; pn.[2]; pn.[1]; pn.[0]].

Definition ccmp_hdr2pn (hdr : list Z) : list Z :=
  [hdr.[7]; hdr.[6]; hdr.[5]; hdr.[4]; hdr.[1]; hdr.[0]].

(** The six bytes of the packet number, most significant first. *)
Definition pn_bytes (pn64 : Z) : list Z :=
  [u8 (Z.shiftr pn64 40); u8 (Z.shiftr pn64 32); u8 (Z.shiftr pn64 24); u8 (Z.shiftr pn64 16);
   u8 (Z.shiftr pn64 8); u8 pn64].

(** ** Transmit *)

Section Protect.
Context `{AuthCipher AesCcm.scratch AesCcm.wf_scratch}.

(** The code, the key and the frame. *)
Definition ccmp_encrypt_skb (key : ccmp_key) (s : tx_skb) : Z * ccmp_key * list Z :=
  let skb := tx_data s in
  if (match tx_hw s with Some f => negb (generate_iv f) && negb (put_iv_space f) | None => false end)
  then (0, key, skb)
  else
    let hdrlen := Z.to_nat (ieee80211_hdrlen (frame_control skb)) in
    let tail := if tx_hw s is Some _ then 0 else Z.of_nat CCMP_MIC_LEN in
    if (tailroom s <? tail) || (headroom s <? Z.of_nat CCMP_HDR_LEN) then (- 1, key, skb)
    else
      let hdr := take hdrlen skb in
      let payload := drop hdrlen skb in
      if (match tx_hw s with Some f => put_iv_space f | None => false end)
      then (0, key, hdr ++ drop (hdrlen - CCMP_HDR_LEN) hdr ++ payload)
      else
        let pn64 := u64 (tx_pn key + 1) in
        let key := Key pn64 (rx_pn key) (replays key) (keyidx key) in
        let pn := pn_bytes pn64 in
        let skb := hdr ++ ccmp_pn2hdr pn (keyidx key) ++ payload in
        if tx_hw s is Some _ then (0, key, skb)
        else
          let '(cdata, mic) := seal (ccmp_special_blocks skb pn false) payload in
          (0, key, hdr ++ ccmp_pn2hdr pn (keyidx key) ++ cdata ++ mic).

Definition ieee80211_crypto_ccmp_encrypt (key : ccmp_key) (skbs : list tx_skb) : tx_result * ccmp_key * list (list Z) :=
  protect_walk ccmp_encrypt_skb key (ieee80211_tx_set_protected skbs).

(** ** Receive *)

(** [pullable] is the result of [pskb_may_pull] or [skb_linearize], [trimmed]
    that of [pskb_trim]. *)
Definition ieee80211_crypto_ccmp_decrypt (key : ccmp_key) (queue : nat) (has_sta decrypted pullable trimmed : bool)
    (skb : list Z) : rx_result * ccmp_key * list Z :=
  let fc := frame_control skb in
  let hdrlen := Z.to_nat (ieee80211_hdrlen fc) in
  if negb (ieee80211_is_data fc) && negb (ieee80211_is_robust_mgmt_frame skb) then (RX_CONTINUE, key, skb)
  else
    let data_len := Z.of_nat (length skb) - Z.of_nat hdrlen - Z.of_nat CCMP_HDR_LEN - Z.of_nat CCMP_MIC_LEN in
    if negb has_sta || (data_len <? 0) then (RX_DROP_UNUSABLE, key, skb)
    else if negb pullable then (RX_DROP_UNUSABLE, key, skb)
    else
      let pn := ccmp_hdr2pn (drop hdrlen skb) in
      match memcmp pn (nth queue (rx_pn key) []) with
      | Gt =>
          let cdata := sub skb (hdrlen + CCMP_HDR_LEN) (Z.to_nat data_len) in
          let mic := drop (length skb - CCMP_MIC_LEN) skb in
          let '(data, ret) := if decrypted then (cdata, 0)
            else unseal (ccmp_special_blocks skb pn true) cdata mic in
          let skb := take (hdrlen + CCMP_HDR_LEN) skb ++ data ++ mic in
          if negb (ret =? 0) then (RX_DROP_UNUSABLE, key, skb)
          else
            let key := Key (tx_pn key) (<[queue := pn]> (rx_pn key)) (replays key) (keyidx key) in
            if negb trimmed then (RX_DROP_UNUSABLE, key, skb)
            else (RX_CONTINUE, key, take hdrlen skb ++ data)
      | _ =>
          (RX_DROP_UNUSABLE, Key (tx_pn key) (rx_pn key) (u32 (replays key + 1)) (keyidx key), skb)
      end.

End Protect.

(** Nonce and additional data depend on the header and the length only. *)
Lemma special_blocks_header h t1 t2 pn : data_header h -> length t2 = (length t1 + 8)%nat ->
  ccmp_special_blocks (h ++ t2) pn true = ccmp_special_blocks (h ++ t1) pn false.
Proof.
  intros Hh Hl; destruct (data_header_fields h Hh) as (H24 & Ha4 & Hq).
  unfold ccmp_special_blocks, CCMP_HDR_LEN, CCMP_MIC_LEN, off_addr1, off_addr2, off_addr4, off_seq_ctrl, ETH_ALEN.
  assert (Eq : forall t, ieee80211_get_qos_ctl (h ++ t) = ieee80211_get_qos_ctl h).
  { intros t; unfold ieee80211_get_qos_ctl; by rewrite frame_control_header by lia. }
  rewrite !frame_control_header, !Eq by lia.
  rewrite !(sub_app_header h t1 10 6), !(sub_app_header h t2 10 6), !(sub_app_header h t1 4 (3 * 6)),
    !(sub_app_header h t2 4 (3 * 6)), !(byte_at_header h t1 22), !(byte_at_header h t2 22) by lia.
  assert (El : forall z, u16 (u16 (Z.of_nat (length (h ++ t2)) - z - Z.of_nat 8) - Z.of_nat 8) =
    u16 (Z.of_nat (length (h ++ t1)) - z - Z.of_nat 8)).
  { intros z; rewrite !length_app, Hl, !u16_mod; arith. }
  rewrite El.
  assert (Et : (if ieee80211_is_data_qos (frame_control h)
      then Z.land ((h ++ t2).[ieee80211_get_qos_ctl h]) IEEE80211_QOS_CTL_TID_MASK else 0) =
    (if ieee80211_is_data_qos (frame_control h)
      then Z.land ((h ++ t1).[ieee80211_get_qos_ctl h]) IEEE80211_QOS_CTL_TID_MASK else 0)).
  { destruct (ieee80211_is_data_qos (frame_control h)) eqn:E; [|done]; by rewrite !byte_at_header by auto. }
  rewrite Et; destruct (ieee80211_has_a4 (frame_control h)) eqn:E; [|done].
  specialize (Ha4 eq_refl); by rewrite !(sub_app_header h t1 24 6), !(sub_app_header h t2 24 6) by lia.
Qed.

Lemma special_blocks_retransmitted h h' t pn e : (24 <= length h)%nat -> retransmitted h h' ->
  ccmp_special_blocks (h' ++ t) pn e = ccmp_special_blocks (h ++ t) pn e.
Proof.
  intros Hl R; destruct (fc_same_preds _ _ (retransmitted_same h h' R)) as (E1 & E2 & E3 & E4 & E5); pose proof R as (Rl & Rd & Rm).
  assert (Ed : drop 2 (h' ++ t) = drop 2 (h ++ t)) by (rewrite !drop_app_le, Rd by lia; done).
  assert (Es : forall off n, (2 <= off)%nat -> sub (h' ++ t) off n = sub (h ++ t) off n).
  { intros; unfold sub; by rewrite (drop_eq (h' ++ t) (h ++ t) 2 off). }
  assert (Eb : forall i, (2 <= i)%nat -> (h' ++ t).[i] = (h ++ t).[i]).
  { intros i Hi; rewrite <- (Nat.add_0_r i), <- !byte_at_drop; by rewrite (drop_eq (h' ++ t) (h ++ t) 2 i). }
  unfold ccmp_special_blocks, ieee80211_get_qos_ctl, off_addr1, off_addr2, off_addr4, off_seq_ctrl.
  rewrite !frame_control_header, E1, E3, E4, E5, !Es, !length_app, Rl, (Eb 22%nat) by lia.
  fold mutable_fc; rewrite Rm; rewrite Eb by (case_match; lia); done.
Qed.

Lemma special_blocks_wf h t pn e : data_header h -> length pn = CCMP_PN_LEN ->
  AesCcm.wf_scratch (ccmp_special_blocks (h ++ t) pn e).
Proof.
  intros Hh Hp; destruct (data_header_fields h Hh) as (H24 & Ha4 & _).
  unfold AesCcm.wf_scratch, ccmp_special_blocks, AesCcm.AES_BLOCK_SIZE, off_addr1, off_addr2, off_addr4, ETH_ALEN; cbn [AesCcm.sc_b_0 AesCcm.sc_aad0 AesCcm.sc_aad1].
  set (aad := put_be16 _ ++ _).
  assert (Ha : length aad = 32%nat).
  { subst aad; rewrite !length_app, length_sub; [|rewrite length_app; lia].
    rewrite frame_control_header by lia; destruct (ieee80211_has_a4 _) eqn:E.
    - rewrite length_app, length_sub; [done|]; rewrite length_app; specialize (Ha4 eq_refl); lia.
    - cbn [length]; rewrite repeat_length; done. }
  split_and!.
  - rewrite !length_app, length_sub, length_take, Hp; [done|]; rewrite length_app; lia.
  - rewrite length_take, Ha; done.
  - rewrite length_drop, Ha; done.
Qed.

Lemma hdr2pn_pn2hdr n k tl : ccmp_hdr2pn (ccmp_pn2hdr (pn_bytes n) k ++ tl) = pn_bytes n.
Proof. reflexivity. Qed.

Lemma pn_bytes_ok n : bytes (pn_bytes n) /\ length (pn_bytes n) = CCMP_PN_LEN.
Proof. split; [|done]; repeat (apply Forall_cons; [kint|]); constructor. Qed.

Lemma pn_val_bytes n : 0 <= n < 2 ^ 48 -> pn_val (pn_bytes n) = n.
Proof.
  intros Hn; unfold pn_val, pn_bytes; cbn [fold_left]; rewrite !u8_mod, !Z.shiftr_div_pow2 by lia.
  change (2 ^ 48) with 281474976710656 in Hn; change (2 ^ 40) with 1099511627776; change (2 ^ 32) with 4294967296;
    change (2 ^ 24) with 16777216; change (2 ^ 16) with 65536; change (2 ^ 8) with 256; arith.
Qed.

(** ** Receive counters *)

(** Every receive counter is a packet number. *)
Definition key_ok (key : ccmp_key) : Prop := Forall (fun p => bytes p /\ length p = CCMP_PN_LEN) (rx_pn key).

(** The counter of a queue. *)
Definition counter (key : ccmp_key) (queue : nat) : Z := pn_val (nth queue (rx_pn key) []).

Lemma nth_counter_ok key q : key_ok key -> (q < length (rx_pn key))%nat ->
  bytes (nth q (rx_pn key) []) /\ length (nth q (rx_pn key) []) = CCMP_PN_LEN.
Proof. intros Hk Hq; unfold key_ok in Hk; rewrite Forall_nth in Hk; apply Hk; lia. Qed.

Lemma hdr2pn_ok l : bytes l -> bytes (ccmp_hdr2pn l) /\ length (ccmp_hdr2pn l) = CCMP_PN_LEN.
Proof. intros Hb; split; [|done]; repeat (apply Forall_cons; [kint|]); constructor. Qed.

Lemma nth_insert (l : list (list Z)) i j v : (i < length l)%nat ->
  nth j (<[i := v]> l) [] = if decide (i = j) then v else nth j l [].
Proof.
  intros Hi; rewrite !nth_lookup; case_decide as E; [subst; by rewrite list_lookup_insert_eq|].
  by rewrite list_lookup_insert_ne.
Qed.

Section ReceiveProperties.
Context `{AuthCipher AesCcm.scratch AesCcm.wf_scratch}.

(** A received frame: the counter it is checked against, whether the device
    decrypted it, the results of the buffer operations, and its bytes. *)
Record rx_input := Rx { in_queue : nat; in_sta : bool; in_decrypted : bool; in_pullable : bool;
  in_trimmed : bool; in_skb : list Z }.

Definition decrypt_input (key : ccmp_key) (i : rx_input) : rx_result * ccmp_key * list Z :=
  ieee80211_crypto_ccmp_decrypt key (in_queue i) (in_sta i) (in_decrypted i) (in_pullable i)
    (in_trimmed i) (in_skb i).

(** The frames CCMP protects. *)
Definition subject_to_ccmp (skb : list Z) : bool :=
  ieee80211_is_data (frame_control skb) || ieee80211_is_robust_mgmt_frame skb.

Definition packet_number (skb : list Z) : Z :=
  pn_val (ccmp_hdr2pn (drop (Z.to_nat (ieee80211_hdrlen (frame_control skb))) skb)).

Definition input_ok (n : nat) (i : rx_input) : Prop := bytes (in_skb i) /\ (in_queue i < n)%nat.
Definition key_inv (n : nat) (key : ccmp_key) : Prop := key_ok key /\ length (rx_pn key) = n.

(** One received frame, as the counter of queue [q] sees it. *)
Definition ccmp_rx_step (q : nat) (key : ccmp_key) (i : rx_input) : ccmp_key * option Z :=
  let '(r, key', _) := decrypt_input key i in
  (key', if bool_decide (r = RX_CONTINUE /\ subject_to_ccmp (in_skb i) = true /\ in_queue i = q)
         then Some (packet_number (in_skb i)) else None).

(** A call leaves the counters alone and delivers no protected frame, or it
    moves the counter of the queue to a larger packet number. *)
Lemma decrypt_counters key i r key' skb' : decrypt_input key i = (r, key', skb') ->
  (rx_pn key' = rx_pn key /\ (r = RX_CONTINUE -> subject_to_ccmp (in_skb i) = false)) \/
  (let pn := ccmp_hdr2pn (drop (Z.to_nat (ieee80211_hdrlen (frame_control (in_skb i)))) (in_skb i)) in
   memcmp pn (nth (in_queue i) (rx_pn key) []) = Gt /\ rx_pn key' = <[in_queue i := pn]> (rx_pn key)).
Proof.
  unfold decrypt_input, ieee80211_crypto_ccmp_decrypt, subject_to_ccmp; intros E; cbn zeta in *.
  destruct (ieee80211_is_data _) eqn:Ed, (ieee80211_is_robust_mgmt_frame _) eqn:Er; cbn [negb andb] in E;
    repeat (case_match; simplify_eq); naive_solver.
Qed.

Lemma decrypt_step key i r key' skb' : key_ok key -> input_ok (length (rx_pn key)) i ->
  decrypt_input key i = (r, key', skb') ->
  key_ok key' /\ length (rx_pn key') = length (rx_pn key) /\
  (forall q, counter key q <= counter key' q) /\
  (r = RX_CONTINUE -> subject_to_ccmp (in_skb i) = true ->
    counter key (in_queue i) < packet_number (in_skb i) /\
    packet_number (in_skb i) = counter key' (in_queue i)).
Proof.
  intros Hk [Hb Hq] E; destruct (decrypt_counters _ _ _ _ _ E) as [[Er Hr] | [Hm Er]]; unfold key_ok, counter; rewrite Er.
  { split_and!; auto; [lia|]; intros Hc Hs; specialize (Hr Hc); congruence. }
  fold (packet_number (in_skb i)); unfold packet_number; set (pn := ccmp_hdr2pn _) in *.
  assert (Hp : bytes pn /\ length pn = CCMP_PN_LEN) by (apply hdr2pn_ok, Forall_drop, Hb).
  destruct (nth_counter_ok key (in_queue i) Hk Hq) as [Cb Cl].
  rewrite memcmp_val in Hm by (destruct Hp; congruence || done); apply Z.compare_gt_iff in Hm.
  split_and!; [by apply Forall_insert | by rewrite length_insert | |].
  - intros q; rewrite nth_insert by done; case_decide; subst; lia.
  - intros _ _; rewrite nth_insert by done; case_decide; [auto|done].
Qed.

#[global] Instance ccmp_guard q n : ReplayGuard (ccmp_rx_step q) (key_inv n) (input_ok n) (fun k => counter k q).
Proof.
  intros key i [Hk <-] Hi; unfold ccmp_rx_step, key_inv; destruct (decrypt_input key i) as [[r key'] skb'] eqn:E; cbn [fst snd].
  destruct (decrypt_step key i r key' skb' Hk Hi E) as (Hk' & Hl & Hmono & Hacc); split_and!; auto.
  intros m; case_bool_decide as B; [|done]; destruct B as (B1 & B2 & <-); intros [= <-].
  destruct (Hacc B1 B2); lia.
Qed.

(** What the sender produces in software. *)
Lemma encrypt_software key hd tl h payload : data_header h -> 8 <= hd -> 8 <= tl ->
  0 <= tx_pn key < 2 ^ 48 - 1 ->
  let pn := pn_bytes (tx_pn key + 1) in
  let cm := seal (ccmp_special_blocks (h ++ ccmp_pn2hdr pn (keyidx key) ++ payload) pn false) payload in
  ccmp_encrypt_skb key (TxSkb None hd tl (h ++ payload)) =
    (0, Key (tx_pn key + 1) (rx_pn key) (replays key) (keyidx key),
     h ++ ccmp_pn2hdr pn (keyidx key) ++ cm.1 ++ cm.2).
Proof.
  intros Hh Hd Ht Hp; destruct (data_header_fields h Hh) as (H24 & _); destruct Hh as [Hda Hl].
  unfold ccmp_encrypt_skb; cbn [tx_data tx_hw headroom tailroom]; rewrite frame_control_header by lia.
  cbn beta iota zeta; rewrite (proj2 (Z.ltb_ge tl (Z.of_nat CCMP_MIC_LEN)) Ht),
    (proj2 (Z.ltb_ge hd (Z.of_nat CCMP_HDR_LEN)) Hd); cbn [orb].
  assert (Eu : u64 (tx_pn key + 1) = tx_pn key + 1) by (apply wrap_small; unfold is_uint; lia).
  rewrite Eu, take_app_length', drop_app_length' by lia; cbn [keyidx].
  by destruct (seal _ _).
Qed.

(** The accepting run of the receiver. *)
Lemma decrypt_accepts key queue h hd c m d pn : data_header h -> length hd = CCMP_HDR_LEN -> length m = CCMP_MIC_LEN ->
  ccmp_hdr2pn (hd ++ c ++ m) = pn -> memcmp pn (nth queue (rx_pn key) []) = Gt ->
  unseal (ccmp_special_blocks (h ++ hd ++ c ++ m) pn true) c m = (d, 0) ->
  ieee80211_crypto_ccmp_decrypt key queue true false true true (h ++ hd ++ c ++ m) =
    (RX_CONTINUE, Key (tx_pn key) (<[queue := pn]> (rx_pn key)) (replays key) (keyidx key), h ++ d).
Proof.
  intros Hh Lh Lm Ep Hm Hu; destruct (data_header_fields h Hh) as (H24 & _); destruct Hh as [Hd Hl].
  unfold CCMP_HDR_LEN, CCMP_MIC_LEN in *.
  unfold ieee80211_crypto_ccmp_decrypt; rewrite frame_control_header by lia; rewrite Hd; cbn [negb andb orb].
  set (n := Z.to_nat (ieee80211_hdrlen (frame_control h))); assert (En : length h = n) by lia.
  assert (Ek : Z.of_nat (length (h ++ hd ++ c ++ m)) - Z.of_nat n - Z.of_nat CCMP_HDR_LEN -
    Z.of_nat CCMP_MIC_LEN = Z.of_nat (length c)) by (rewrite !length_app; unfold CCMP_HDR_LEN, CCMP_MIC_LEN; lia).
  rewrite Ek, (proj2 (Z.ltb_ge _ _)), Nat2Z.id by lia.
  rewrite (drop_app_length' h) by done; rewrite Ep, Hm.
  assert (Ec : sub (h ++ hd ++ c ++ m) (n + CCMP_HDR_LEN) (length c) = c).
  { unfold sub; rewrite app_assoc, drop_app_length', take_app_length; [done|]; rewrite length_app; unfold CCMP_HDR_LEN; lia. }
  assert (Em : drop (length (h ++ hd ++ c ++ m) - CCMP_MIC_LEN) (h ++ hd ++ c ++ m) = m).
  { rewrite !app_assoc, drop_app_length'; [done|]; rewrite !length_app; unfold CCMP_MIC_LEN; lia. }
  rewrite Ec, Em, Hu; cbn [negb Z.eqb]; do 2 f_equal.
  rewrite take_app_le by (rewrite length_take, !length_app; unfold CCMP_HDR_LEN; lia).
  by rewrite take_take, Nat.min_l, take_app_length' by lia.
Qed.

End ReceiveProperties.

(** A frame protected in software, opened by the peer. *)
Section Recovery.
Context `{AuthCipher AesCcm.scratch AesCcm.wf_scratch}.

Lemma ccmp_recovers key rkey queue hd tl h h' payload :
  data_header h -> retransmitted h h' -> 8 <= hd -> 8 <= tl ->
  0 <= tx_pn key < 2 ^ 48 - 1 -> key_ok rkey -> (queue < length (rx_pn rkey))%nat ->
  counter rkey queue < tx_pn key + 1 ->
  exists body,
    ccmp_encrypt_skb key (TxSkb None hd tl (h ++ payload)) =
      (0, Key (tx_pn key + 1) (rx_pn key) (replays key) (keyidx key), h ++ body) /\
    length body = (length payload + 16)%nat /\
    ieee80211_crypto_ccmp_decrypt rkey queue true false true true (h' ++ body) =
      (RX_CONTINUE, Key (tx_pn rkey) (<[queue := pn_bytes (tx_pn key + 1)]> (rx_pn rkey)) (replays rkey) (keyidx rkey),
       h' ++ payload).
Proof.
  intros Hh Hr Hd Ht Hp Hk Hq Hc; rewrite encrypt_software by done.
  set (pn := pn_bytes (tx_pn key + 1)); set (fr := ccmp_special_blocks _ pn false).
  set (body := ccmp_pn2hdr pn (keyidx key) ++ (seal fr payload).1 ++ (seal fr payload).2).
  exists body; split; [done|].
  destruct (data_header_fields h Hh) as (H24 & _).
  assert (W : AesCcm.wf_scratch fr) by (apply special_blocks_wf; [done | apply pn_bytes_ok]).
  destruct (seal_length fr payload W) as [Lc Lm].
  split; [subst body; rewrite !length_app, Lc, Lm; cbn; lia|].
  assert (Hh' : data_header h').
  { destruct (fc_same_preds _ _ (retransmitted_same h h' Hr)) as (_ & E2 & _ & _ & E5), Hr as (El & _), Hh; unfold data_header; by rewrite E2, E5, El. }
  apply decrypt_accepts; try done.
  - destruct (nth_counter_ok rkey queue Hk Hq) as [Cb Cl], (pn_bytes_ok (tx_pn key + 1)) as [Pb Pl].
    rewrite memcmp_val by (done || congruence); apply Z.compare_gt_iff; unfold pn; rewrite pn_val_bytes by lia; done.
  - rewrite <- (unseal_seal fr payload W); f_equal; rewrite (special_blocks_retransmitted h h') by done.
    apply special_blocks_header; [done|]; rewrite !length_app, Lc, Lm; lia.
Qed.
End Recovery.

(** ** Properties *)

Section Properties.
Context `{AuthCipher AesCcm.scratch AesCcm.wf_scratch}.

(** C26: No replay.  Over any run of received frames, hardware decrypted or not,
    with any failing buffer operation, the packet numbers of the frames that
    CCMP accepts on one queue are strictly increasing and above the counter the
    run started with; so no packet number is accepted twice. *)
Theorem ccmp_no_replay n key fs q :
  key_inv n key -> Forall (input_ok n) fs ->
  StronglySorted Z.lt (counter key q :: accepted (ccmp_rx_step q) key fs).
Proof. apply (accepted_increasing _ _ _ (fun k => counter k q)). Qed.

(** C24: A data frame the sender protects in software comes back at the receiver
    as it was, with the packet number recorded, also when the frame is a
    retransmission whose Retry, PM and MoreData bits differ from those the
    sender authenticated. *)
Theorem ccmp_roundtrip key rkey queue hd tl h h' payload :
  data_header h -> retransmitted h h' -> 8 <= hd -> 8 <= tl ->
  0 <= tx_pn key < 2 ^ 48 - 1 -> key_ok rkey -> (queue < length (rx_pn rkey))%nat ->
  counter rkey queue < tx_pn key + 1 ->
  exists body,
    ccmp_encrypt_skb key (TxSkb None hd tl (h ++ payload)) =
      (0, Key (tx_pn key + 1) (rx_pn key) (replays key) (keyidx key), h ++ body) /\
    length body = (length payload + 16)%nat /\
    ieee80211_crypto_ccmp_decrypt rkey queue true false true true (h' ++ body) =
      (RX_CONTINUE, Key (tx_pn rkey) (<[queue := pn_bytes (tx_pn key + 1)]> (rx_pn rkey)) (replays rkey) (keyidx rkey),
       h' ++ payload).
Proof. apply ccmp_recovers. Qed.

End Properties.

(** ** Concrete runs *)

Definition demo_cipher : AuthCipher AesCcm.wf_scratch := AesCcm.ccm_cipher AesCcm.toy_cipher AesCcm.toy_cipher_block.
Definition demo_header (fc1 : Z) : list Z := [0x88; fc1; 0; 0] ++ repeat 0x11 6 ++ repeat 0x22 6 ++ repeat 0x33 6 ++ [0x50; 0; 5; 0].
Definition demo_key : ccmp_key := Key 41 (repeat [0; 0; 0; 0; 0; 7] 17) 0 1.
Definition demo_input (pn : Z) : rx_input := Rx 5 true true true true (demo_header 0x42 ++ ccmp_pn2hdr (pn_bytes pn) 1 ++ repeat 9 12).

Lemma demo_key_ok : key_ok demo_key.
Proof. by_eval. Defined.

(** The retransmission has Retry and MoreData set. *)
Lemma ccmp_roundtrip_witness : exists body,
  @ccmp_encrypt_skb demo_cipher demo_key (TxSkb None 8 8 (demo_header 0x42 ++ [1; 2; 3])) = (0, Key 42 (rx_pn demo_key) 0 1, demo_header 0x42 ++ body) /\
  length body = 19%nat /\
  @ieee80211_crypto_ccmp_decrypt demo_cipher demo_key 5 true false true true (demo_header 0x6a ++ body) =
    (RX_CONTINUE, Key 41 (<[5%nat := [0; 0; 0; 0; 0; 42]]> (rx_pn demo_key)) 0 1, demo_header 0x6a ++ [1; 2; 3]).
Proof.
  apply (@ccmp_roundtrip demo_cipher demo_key demo_key 5 8 8 (demo_header 0x42) (demo_header 0x6a) [1; 2; 3]);
    [by_eval | by_eval | lia | lia | cbn; lia | apply demo_key_ok | cbn; lia | by_eval].
Defined.

(** The replayed frame and the old one are dropped. *)
Lemma ccmp_no_replay_witness :
  let fs := [demo_input 8; demo_input 8; demo_input 3; demo_input 300] in
  accepted (@ccmp_rx_step demo_cipher 5) demo_key fs = [8; 300] /\
  StronglySorted Z.lt (counter demo_key 5 :: accepted (@ccmp_rx_step demo_cipher 5) demo_key fs).
Proof.
  split; [reflexivity|].
  apply (@ccmp_no_replay demo_cipher 17 demo_key); [split; [apply demo_key_ok | reflexivity] | by_eval].
Defined.

End Ccmp.
