(* ===== verification/Bip.v ===== *)
(** * Protected management frames (BIP)

    The BIP part of [net/mac80211/wpa.c]: the management MIC element with its
    packet number, its generation and its verification.  The MAC is used
    through [FrameMac], which [AesCmac.cmac_mac] implements. *)

From Stdlib Require Import Sorted.
From S2P Require Import Prelude Ieee80211 Frame AesCcm AesCmac.

Module Bip.
Import Ieee80211 Frame.

Definition WLAN_EID_MMIE : Z := 76.
(** [sizeof(struct ieee80211_mmie)] *)
Definition MMIE_LEN : nat := 18.

(** The CMAC state of a key. *)
Record cmac_key := CKey { tx_pn : Z; rx_pn : list Z; replays : Z; icverrors : Z; keyidx : Z }.

Definition bip_aad (skb : list Z) : list Z :=
  let mask_fc := Z.land (frame_control skb)
    (Z.lnot (Z.lor (Z.lor IEEE80211_FCTL_RETRY IEEE80211_FCTL_PM) IEEE80211_FCTL_MOREDATA)) in
  put_le16 mask_fc ++ sub skb off_addr1 (3 * ETH_ALEN).

Definition bip_ipn_set64 (pn : Z) : list Z :=
  [u8 pn; u8 (Z.shiftr pn 8); u8 (Z.shiftr pn 16); u8 (Z.shiftr pn 24); u8 (Z.shiftr pn 32); u8 (Z.shiftr pn 40)].

Definition bip_ipn_swap (s : list Z) : list Z := [s.[5]; s.[4]; s.[3]; s.[2]; s.[1]; s.[0]].

Section Bip.
Context `{FrameMac}.

(** The element up to its MIC field. *)
Definition mmie_head (keyidx pn64 : Z) : list Z :=
  [WLAN_EID_MMIE; Z.of_nat MMIE_LEN - 2] ++ put_le16 keyidx ++ bip_ipn_set64 pn64.

(** [None] is a fault of the MAC computation. *)
Definition ieee80211_crypto_aes_cmac_encrypt (key : cmac_key) (skbs : list tx_skb) :
    option (tx_result * cmac_key * list (list Z)) :=
  match skbs with
  | [s] =>
      let skb := tx_data s in
      if tx_hw s is Some _ then Some (TX_CONTINUE, key, [skb])
      else if tailroom s <? Z.of_nat MMIE_LEN then Some (TX_DROP, key, [skb])
      else
        let pn64 := u64 (tx_pn key + 1) in
        let key := CKey pn64 (rx_pn key) (replays key) (icverrors key) (keyidx key) in
        let skb := skb ++ mmie_head (keyidx key) pn64 in
        mic ← fm_mac (bip_aad skb) (drop 24 (skb ++ repeat 0 8));
        Some (TX_CONTINUE, key, [skb ++ mic])
  | _ => Some (TX_DROP, key, tx_data <$> skbs)
  end.

Definition ieee80211_crypto_aes_cmac_decrypt (key : cmac_key) (decrypted : bool) (skb : list Z) :
    option (rx_result * cmac_key * list Z) :=
  if negb (ieee80211_is_mgmt (frame_control skb)) then Some (RX_CONTINUE, key, skb)
  else if bool_decide (length skb < 24 + MMIE_LEN)%nat then Some (RX_DROP_UNUSABLE, key, skb)
  else
    let mmie := drop (length skb - MMIE_LEN) skb in
    if negb (mmie.[0] =? WLAN_EID_MMIE) || negb (mmie.[1] =? Z.of_nat MMIE_LEN - 2)
    then Some (RX_DROP_UNUSABLE, key, skb)
    else
      let ipn := bip_ipn_swap (sub mmie 4 6) in
      match memcmp ipn (rx_pn key) with
      | Gt =>
          let accept := Some (RX_CONTINUE, CKey (tx_pn key) ipn (replays key) (icverrors key) (keyidx key),
            take (length skb - MMIE_LEN) skb) in
          if decrypted then accept
          else
            mic ← fm_mac (bip_aad skb) (drop 24 skb);
            match memcmp mic (sub mmie 10 8) with
            | Eq => accept
            | _ => Some (RX_DROP_UNUSABLE,
                CKey (tx_pn key) (rx_pn key) (replays key) (u32 (icverrors key + 1)) (keyidx key), skb)
            end
      | _ => Some (RX_DROP_UNUSABLE,
          CKey (tx_pn key) (rx_pn key) (u32 (replays key + 1)) (icverrors key) (keyidx key), skb)
      end.

(** ** Lemmas *)

Lemma ipn_swap_set pn t : bip_ipn_swap (bip_ipn_set64 pn ++ t) =
  [u8 (Z.shiftr pn 40); u8 (Z.shiftr pn 32); u8 (Z.shiftr pn 24); u8 (Z.shiftr pn 16); u8 (Z.shiftr pn 8); u8 pn].
Proof. reflexivity. Qed.

(** The additional data is that of the header, whatever bits a retransmission
    changed. *)
Lemma bip_aad_header h h' t t' : (24 <= length h)%nat -> retransmitted h h' -> bip_aad (h' ++ t') = bip_aad (h ++ t).
Proof.
  intros Hl (El & Ed & Em); unfold bip_aad, off_addr1, ETH_ALEN.
  rewrite !frame_control_header, !sub_app_header by lia; fold mutable_fc; rewrite Em.
  unfold sub; by rewrite (drop_eq h' h 2 4) by (done || lia).
Qed.

Lemma length_bip_aad h t : (24 <= length h)%nat -> length (bip_aad (h ++ t)) = 20%nat.
Proof.
  intros Hl; unfold bip_aad, off_addr1, ETH_ALEN; rewrite sub_app_header, length_app, length_sub by lia; done.
Qed.

(** ** Properties *)

Definition pn_be (pn : Z) : list Z := bip_ipn_swap (bip_ipn_set64 pn).

Lemma pn_be_ok pn : bytes (pn_be pn) /\ length (pn_be pn) = 6%nat.
Proof. split; [|done]; repeat (apply Forall_cons; [cbn; kint|]); constructor. Qed.

Lemma pn_val_be n : 0 <= n < 2 ^ 48 -> pn_val (pn_be n) = n.
Proof.
  intros Hn; unfold pn_val, pn_be, bip_ipn_swap, bip_ipn_set64; cbn [fold_left byte_at nth].
  rewrite !u8_mod, !Z.shiftr_div_pow2 by lia.
  change (2 ^ 48) with 281474976710656 in Hn; change (2 ^ 40) with 1099511627776; change (2 ^ 32) with 4294967296;
    change (2 ^ 24) with 16777216; change (2 ^ 16) with 65536; change (2 ^ 8) with 256; arith.
Qed.

(** The receive counter is a packet number. *)
Definition key_ok (key : cmac_key) : Prop := bytes (rx_pn key) /\ length (rx_pn key) = 6%nat.

Lemma cmac_accepts key h body k pn mic : length h = 24%nat -> ieee80211_is_mgmt (frame_control h) = true ->
  memcmp (pn_be pn) (rx_pn key) = Gt -> length mic = 8%nat ->
  fm_mac (bip_aad (h ++ body ++ mmie_head k pn ++ mic)) (body ++ mmie_head k pn ++ mic) = Some mic ->
  ieee80211_crypto_aes_cmac_decrypt key false (h ++ body ++ mmie_head k pn ++ mic) =
    Some (RX_CONTINUE, CKey (tx_pn key) (pn_be pn) (replays key) (icverrors key) (keyidx key), h ++ body).
Proof.
  intros Lh Hm Hc Lm Em; unfold ieee80211_crypto_aes_cmac_decrypt, MMIE_LEN.
  set (skb := h ++ body ++ mmie_head k pn ++ mic); assert (Lh' : length (mmie_head k pn) = 10%nat) by reflexivity.
  assert (Ls : length skb = (24 + length body + 18)%nat) by (unfold skb; rewrite !length_app; lia).
  assert (Ef : frame_control skb = frame_control h) by (apply frame_control_header; lia).
  assert (Ed : drop (length skb - 18) skb = mmie_head k pn ++ mic).
  { rewrite Ls; unfold skb; rewrite app_assoc, drop_app_length'; [done|]; rewrite length_app; lia. }
  assert (Et : take (length skb - 18) skb = h ++ body).
  { rewrite Ls; unfold skb; rewrite app_assoc, take_app_length'; [done|]; rewrite length_app; lia. }
  assert (E24 : drop 24 skb = body ++ mmie_head k pn ++ mic) by (unfold skb; by rewrite drop_app_length').
  rewrite Ef, Hm, bool_decide_false by lia; cbn [negb]; rewrite Ed, Et, E24.
  change ((mmie_head k pn ++ mic).[0] =? WLAN_EID_MMIE) with true; change ((mmie_head k pn ++ mic).[1] =? Z.of_nat 18 - 2) with true.
  change (bip_ipn_swap (sub (mmie_head k pn ++ mic) 4 6)) with (pn_be pn); cbn [negb orb]; rewrite Hc.
  fold skb in Em; rewrite Em; cbn [mbind option_bind].
  replace (sub (mmie_head k pn ++ mic) 10 8) with mic; [by rewrite memcmp_refl|].
  unfold sub; rewrite drop_app_length', take_ge by lia; done.
Qed.

(** C28: A protected management frame is accepted and returned as it was: the
    receiver with the same key verifies the element the sender appended, also
    on a retransmission, removes it and records the packet number. *)
Theorem bip_roundtrip key rkey tl hd h h' body :
  length h = 24%nat -> ieee80211_is_mgmt (frame_control h) = true -> retransmitted h h' ->
  18 <= tl -> 0 <= tx_pn key < 2 ^ 48 - 1 -> key_ok rkey -> pn_val (rx_pn rkey) < tx_pn key + 1 ->
  Z.of_nat (length body) < 2 ^ 16 ->
  exists mmie,
    ieee80211_crypto_aes_cmac_encrypt key [TxSkb None hd tl (h ++ body)] =
      Some (TX_CONTINUE, CKey (tx_pn key + 1) (rx_pn key) (replays key) (icverrors key) (keyidx key), [h ++ body ++ mmie]) /\
    ieee80211_crypto_aes_cmac_decrypt rkey false (h' ++ body ++ mmie) =
      Some (RX_CONTINUE, CKey (tx_pn rkey) (pn_be (tx_pn key + 1)) (replays rkey) (icverrors rkey) (keyidx rkey), h' ++ body).
Proof.
  intros Lh Hm Hr Htl Hpn [Kb Kl] Hc Hs; pose proof Hr as (Lh' & _); set (pn := tx_pn key + 1) in *.
  assert (Eu : u64 pn = pn) by (apply wrap_small; unfold is_uint; lia).
  set (hm := mmie_head (keyidx key) pn).
  destruct (fm_covers (bip_aad (h ++ body ++ hm)) (body ++ hm)) as (mic & Lm & Em);
    [apply length_bip_aad; lia | rewrite length_app; cbn; lia | rewrite length_app; cbn; lia |].
  exists (hm ++ mic); split.
  - unfold ieee80211_crypto_aes_cmac_encrypt; cbn [tx_data tx_hw tailroom keyidx]; fold pn; rewrite Eu.
    rewrite (proj2 (Z.ltb_ge tl (Z.of_nat MMIE_LEN)) Htl); fold hm.
    rewrite <- !app_assoc, drop_app_length' by done; rewrite (app_assoc body hm), Em by done; cbn [mbind option_bind].
    by rewrite <- !app_assoc.
  - unfold hm; apply cmac_accepts; [lia | | | done |].
    + destruct (fc_same_preds _ _ (retransmitted_same h h' Hr)) as (-> & _); done.
    + destruct (pn_be_ok pn) as [Pb Pl]; rewrite memcmp_val by (done || congruence).
      apply Z.compare_gt_iff; rewrite pn_val_be by lia; done.
    + fold hm; rewrite (bip_aad_header h h' (body ++ hm)), (app_assoc body hm) by (done || lia); by apply Em.
Qed.

(** ** Replay protection *)

(** A received frame and whether the device verified it. *)
Definition bip_rx_step (key : cmac_key) (i : bool * list Z) : cmac_key * option Z :=
  match ieee80211_crypto_aes_cmac_decrypt key i.1 i.2 with
  | Some (r, key', _) =>
      (key', if bool_decide (r = RX_CONTINUE) && ieee80211_is_mgmt (frame_control i.2) then Some (pn_val (rx_pn key')) else None)
  | None => (key, None)
  end.

#[global] Instance bip_guard : ReplayGuard bip_rx_step key_ok (fun i => bytes i.2) (fun k => pn_val (rx_pn k)).
Proof.
  intros key [dec skb] [Kb Kl] Hb; cbn [snd] in Hb; unfold bip_rx_step, ieee80211_crypto_aes_cmac_decrypt; cbn [fst snd].
  destruct (ieee80211_is_mgmt _); cbn [negb]; [|by rewrite andb_false_r].
  set (ipn := bip_ipn_swap _); assert (Hi : bytes ipn /\ length ipn = 6%nat).
  { split; [|done]; assert (bytes (sub (drop (length skb - MMIE_LEN) skb) 4 6)) by (by apply Forall_take, Forall_drop, Forall_drop).
    repeat (apply Forall_cons; [kint|]); constructor. }
  assert (Hgt : memcmp ipn (rx_pn key) = Gt -> pn_val (rx_pn key) < pn_val ipn)
    by (destruct Hi; rewrite memcmp_val by (done || congruence); apply Z.compare_gt_iff).
  clearbody ipn; assert (Hno : forall k, rx_pn k = rx_pn key -> key_ok k /\ pn_val (rx_pn key) <= pn_val (rx_pn k) /\
    forall n, None = Some n -> pn_val (rx_pn key) < n <= pn_val (rx_pn k)).
  { intros k Ek; unfold key_ok; rewrite Ek; split_and!; [done..|lia|done]. }
  case_bool_decide; [by apply Hno|]; destruct (_ || _); [by apply Hno|].
  destruct (memcmp ipn (rx_pn key)); [by apply Hno | by apply Hno |]; specialize (Hgt eq_refl).
  assert (Hyes : forall k, rx_pn k = ipn -> key_ok k /\ pn_val (rx_pn key) <= pn_val (rx_pn k) /\
    forall n, Some (pn_val (rx_pn k)) = Some n -> pn_val (rx_pn key) < n <= pn_val (rx_pn k)).
  { intros k Ek; unfold key_ok; rewrite Ek; split_and!; [apply Hi.. | lia | intros n [= <-]; lia]. }
  destruct dec; [by apply Hyes|]; destruct (fm_mac _ _) as [mic|]; cbn [mbind option_bind]; [|by apply Hno].
  destruct (memcmp mic _); [by apply Hyes | by apply Hno | by apply Hno].
Qed.

(** C30: No replay of management frames: over any run of frames the packet
    numbers accepted by the BIP check are strictly increasing, whether the
    device or the software verifies them. *)
Theorem bip_no_replay key fs : key_ok key -> Forall (fun i => bytes i.2) fs ->
  StronglySorted Z.lt (pn_val (rx_pn key) :: accepted bip_rx_step key fs).
Proof. apply (accepted_increasing _ _ _ (fun k => pn_val (rx_pn k))). Qed.

End Bip.

(** ** Concrete runs *)

Definition demo_mac : FrameMac := AesCmac.cmac_mac AesCcm.toy_cipher AesCcm.toy_cipher_block.
Definition demo_header (fc1 : Z) : list Z :=
  [0xc0; fc1; 0; 0] ++ repeat 0xff 6 ++ repeat 0x22 6 ++ repeat 0x33 6 ++ [0x50; 0].
Definition demo_key : cmac_key := CKey 41 [0; 0; 0; 0; 0; 7] 0 0 4.
Definition demo_frame (pn : Z) : list Z := demo_header 0 ++ [3; 0] ++ mmie_head 4 pn ++ repeat 0 8.

Lemma bip_roundtrip_witness : exists mmie,
  @ieee80211_crypto_aes_cmac_encrypt demo_mac demo_key [TxSkb None 0 18 (demo_header 0 ++ [3; 0])] =
    Some (TX_CONTINUE, CKey 42 [0; 0; 0; 0; 0; 7] 0 0 4, [demo_header 0 ++ [3; 0] ++ mmie]) /\
  @ieee80211_crypto_aes_cmac_decrypt demo_mac demo_key false (demo_header 0x08 ++ [3; 0] ++ mmie) =
    Some (RX_CONTINUE, CKey 41 [0; 0; 0; 0; 0; 42] 0 0 4, demo_header 0x08 ++ [3; 0]).
Proof.
  apply (@bip_roundtrip demo_mac demo_key demo_key 18 0 (demo_header 0) (demo_header 0x08) [3; 0]);
    [reflexivity | reflexivity | by_eval | lia | by_eval | by_eval | by_eval | by_eval].
Defined.

(** The replayed frame, the old one and the one with a wrong MIC are dropped. *)
Lemma bip_no_replay_witness :
  let fs := [(true, demo_frame 9); (true, demo_frame 9); (true, demo_frame 8); (false, demo_frame 20); (true, demo_frame 11)] in
  accepted (@bip_rx_step demo_mac) demo_key fs = [9; 11] /\
  StronglySorted Z.lt (pn_val (rx_pn demo_key) :: accepted (@bip_rx_step demo_mac) demo_key fs).
Proof. split; [vm_compute; reflexivity|]; apply (@bip_no_replay demo_mac demo_key); by_eval. Defined.

End Bip.
