(* ===== verification/Wep.v ===== *)
(** * WEP

    [net/mac80211/wep.c]: the IV counter and its weak values, the RC4 and CRC
    transforms TKIP shares, and the protection of frames.  [arc4] is used
    through [StreamCipher]; the kernel's [crc32_le] is a parameter. *)

From S2P Require Import Prelude Ieee80211 Frame.

Module Wep.
Import Ieee80211 Frame.

Definition WEP_IV_LEN : nat := 4.
Definition WEP_ICV_LEN : nat := 4.

(** The key material and index of [ieee80211_key_conf]. *)
Record wep_key := WepKey { key_bytes : list Z; key_idx : Z }.

(** ** The IV counter *)

Definition ieee80211_wep_weak_iv (iv keylen : Z) : bool :=
  if Z.land iv 0xff00 =? 0xff00 then
    let B := u8 (Z.land (Z.shiftr iv 16) 0xff) in (3 <=? B) && (B <? 3 + keylen)
  else false.

(** The new counter and the four bytes written at [iv]. *)
Definition ieee80211_wep_get_iv (wep_iv keylen keyidx : Z) : Z * list Z :=
  let wep_iv := u32 (wep_iv + 1) in
  let wep_iv := if ieee80211_wep_weak_iv wep_iv keylen then u32 (wep_iv + 0x0100) else wep_iv in
  (wep_iv, [Z.land (Z.shiftr wep_iv 16) 0xff; Z.land (Z.shiftr wep_iv 8) 0xff; Z.land wep_iv 0xff;
            u8 (Z.shiftl keyidx 6)]).

(** The counter, the buffer, and the offset of the IV ([None] for NULL). *)
Definition ieee80211_wep_add_iv (wep_iv : Z) (s : tx_skb) (keylen keyidx : Z) : Z * list Z * option nat :=
  let skb := set_protected (tx_data s) in
  if (tailroom s <? Z.of_nat WEP_ICV_LEN) || (headroom s <? Z.of_nat WEP_IV_LEN) then (wep_iv, skb, None)
  else
    let hdrlen := Z.to_nat (ieee80211_hdrlen (frame_control skb)) in
    let hdr := take hdrlen skb in
    let payload := drop hdrlen skb in
    if (match tx_hw s with Some f => put_iv_space f | None => false end)
    then (wep_iv, hdr ++ drop (hdrlen - WEP_IV_LEN) hdr ++ payload, Some hdrlen)
    else
      let '(wep_iv, iv) := ieee80211_wep_get_iv wep_iv keylen keyidx in
      (wep_iv, hdr ++ iv ++ payload, Some hdrlen).

Definition ieee80211_wep_remove_iv (skb : list Z) : list Z :=
  let hdrlen := Z.to_nat (ieee80211_hdrlen (frame_control skb)) in
  take hdrlen skb ++ drop (hdrlen + WEP_IV_LEN) skb.

(** The IV as the receiver reads it; [None] when it lies outside the buffer. *)
Definition ieee80211_wep_is_weak_iv (skb : list Z) (keylen : Z) : option bool :=
  let hdrlen := Z.to_nat (ieee80211_hdrlen (frame_control skb)) in
  if bool_decide (hdrlen + 3 <= length skb)%nat then
    let iv := Z.lor (Z.lor (Z.shiftl (skb.[hdrlen]) 16) (Z.shiftl (skb.[hdrlen + 1]) 8)) (skb.[hdrlen + 2]) in
    Some (ieee80211_wep_weak_iv iv keylen)
  else None.

(** ** Payload transforms *)

Section Transforms.
Context `{StreamCipher}.
Context (crc32_le : Z -> list Z -> Z).

Fixpoint stream_encrypt (st : sc_state) (data : list Z) : list Z :=
  match data with
  | [] => []
  | x :: data => let '(st, y) := sc_encrypt_one st x in y :: stream_encrypt st data
  end.

Fixpoint stream_decrypt (st : sc_state) (data : list Z) : list Z :=
  match data with
  | [] => []
  | x :: data => let '(st, y) := sc_decrypt_one st x in y :: stream_decrypt st data
  end.

Definition icv_of (data : list Z) : list Z := put_le32 (u32 (Z.lnot (crc32_le (u32 (-1)) data))).

(** [tfm] tells whether the cipher was allocated.  The result is the data with
    its ICV, encrypted, or [None] for -1. *)
Definition ieee80211_wep_encrypt_data (tfm : bool) (rc4key data : list Z) : option (list Z) :=
  if negb tfm then None
  else Some (stream_encrypt (sc_setkey rc4key) (data ++ icv_of data)).

(** The code and the buffer of [data_len] bytes and the ICV. *)
Definition ieee80211_wep_decrypt_data (tfm : bool) (rc4key data : list Z) (data_len : nat) : Z * list Z :=
  if negb tfm then (- 1, data)
  else
    let data := stream_decrypt (sc_setkey rc4key) (take (data_len + WEP_ICV_LEN) data) ++
                drop (data_len + WEP_ICV_LEN) data in
    let crc := icv_of (take data_len data) in
    match memcmp crc (sub data data_len WEP_ICV_LEN) with
    | Eq => (0, data)
    | _ => (- 1, data)
    end.

(** ** Transmit *)

(** The code, the counter and the frame. *)
Definition ieee80211_wep_encrypt (tfm : bool) (wep_iv : Z) (s : tx_skb) (key : wep_key) : Z * Z * list Z :=
  let keylen := Z.of_nat (length (key_bytes key)) in
  let '(wep_iv, skb, iv) := ieee80211_wep_add_iv wep_iv s keylen (key_idx key) in
  match iv with
  | None => (- 1, wep_iv, skb)
  | Some iv =>
      let rc4key := sub skb iv 3 ++ key_bytes key in
      match ieee80211_wep_encrypt_data tfm rc4key (drop (iv + WEP_IV_LEN) skb) with
      | Some data => (0, wep_iv, take (iv + WEP_IV_LEN) skb ++ data)
      | None => (- 1, wep_iv, skb)
      end
  end.

Definition wep_encrypt_skb (tfm : bool) (key : wep_key) (wep_iv : Z) (s : tx_skb) : Z * Z * list Z :=
  match tx_hw s with
  | None =>
      let '(ret, wep_iv, skb) := ieee80211_wep_encrypt tfm wep_iv s key in
      (if ret =? 0 then 0 else - 1, wep_iv, skb)
  | Some f =>
      if generate_iv f || put_iv_space f then
        let '(wep_iv, skb, iv) := ieee80211_wep_add_iv wep_iv s (Z.of_nat (length (key_bytes key))) (key_idx key) in
        (if iv is Some _ then 0 else - 1, wep_iv, skb)
      else (0, wep_iv, tx_data s)
  end.

Definition ieee80211_crypto_wep_encrypt (tfm : bool) (key : wep_key) (wep_iv : Z) (skbs : list tx_skb) :
    tx_result * Z * list (list Z) :=
  protect_walk (wep_encrypt_skb tfm key) wep_iv (ieee80211_tx_set_protected skbs).

(** ** Receive *)

Definition ieee80211_wep_decrypt (tfm : bool) (skb : list Z) (key : option wep_key) : Z * list Z :=
  let fc := frame_control skb in
  if negb (ieee80211_has_protected fc) then (- 1, skb)
  else
    let hdrlen := Z.to_nat (ieee80211_hdrlen fc) in
    if bool_decide (length skb < hdrlen + WEP_IV_LEN + WEP_ICV_LEN)%nat then (- 1, skb)
    else
      let len := (length skb - hdrlen - WEP_IV_LEN - WEP_ICV_LEN)%nat in
      let keyidx := Z.shiftr (skb.[hdrlen + 3]) 6 in
      match key with
      | None => (- 1, skb)
      | Some key =>
          if negb (keyidx =? key_idx key) then (- 1, skb)
          else
            let rc4key := sub skb hdrlen 3 ++ key_bytes key in
            let '(r, data) := ieee80211_wep_decrypt_data tfm rc4key (drop (hdrlen + WEP_IV_LEN) skb) len in
            (if r =? 0 then 0 else - 1, take hdrlen skb ++ take len data)
      end.

(** [linear] is the success of [skb_linearize] or [pskb_may_pull], [trimmed]
    that of [pskb_trim].  The result has the station's count of weak IVs and
    the frame; [None] is a read outside the frame. *)
Definition ieee80211_crypto_wep_decrypt (tfm : bool) (key : wep_key) (has_sta decrypted iv_stripped linear trimmed : bool)
    (weak_count : Z) (skb : list Z) : option (rx_result * Z * list Z) :=
  let fc := frame_control skb in
  let keylen := Z.of_nat (length (key_bytes key)) in
  let count := if has_sta
    then (fun weak : bool => if weak then u64 (weak_count + 1) else weak_count) <$> ieee80211_wep_is_weak_iv skb keylen
    else Some weak_count in
  if negb (ieee80211_is_data fc) && negb (ieee80211_is_auth fc) then Some (RX_CONTINUE, weak_count, skb)
  else if negb decrypted then
    if negb linear then Some (RX_DROP_UNUSABLE, weak_count, skb)
    else
      count ← count;
      let '(ret, skb) := ieee80211_wep_decrypt tfm skb (Some key) in
      Some (if ret =? 0 then RX_CONTINUE else RX_DROP_UNUSABLE, count, skb)
  else if negb iv_stripped then
    if negb linear then Some (RX_DROP_UNUSABLE, weak_count, skb)
    else
      count ← count;
      let skb := ieee80211_wep_remove_iv skb in
      if negb trimmed then Some (RX_DROP_UNUSABLE, count, skb)
      else Some (RX_CONTINUE, count, take (length skb - WEP_ICV_LEN) skb)
  else Some (RX_CONTINUE, weak_count, skb).

End Transforms.

(** ** Lemmas: weak IVs *)

Lemma land_0xff z : Z.land z 0xff = z mod 256.
Proof. change 0xff with (Z.ones 8); by rewrite Z.land_ones by lia. Qed.

Lemma weak_iv_spec iv keylen : ieee80211_wep_weak_iv iv keylen =
  ((iv / 256) mod 256 =? 255) && (3 <=? (iv / 65536) mod 256) && ((iv / 65536) mod 256 <? 3 + keylen).
Proof.
  unfold ieee80211_wep_weak_iv; rewrite land_0xff, shiftr16, u8_mod, Zmod_mod.
  assert (E : Z.land iv 0xff00 = (iv / 256) mod 256 * 256).
  { change 0xff00 with (Z.shiftl (Z.ones 8) 8).
    rewrite <- shiftr8, <- (Z.land_ones _ 8) by lia.
    change 256 with (2 ^ 8); rewrite <- Z.shiftl_mul_pow2 by lia.
    bits_ext k; destruct (Z.ltb_spec k 8); [by rewrite (Z.testbit_neg_r (Z.ones 8)), !andb_false_r by lia|].
    rewrite Z.shiftr_spec by lia; by replace (k - 8 + 8) with k by lia. }
  rewrite E; destruct (Z.eqb_spec ((iv / 256) mod 256 * 256) 0xff00), (Z.eqb_spec ((iv / 256) mod 256) 255); try lia; done.
Qed.

(** The counter never stops at a weak value. *)
Lemma get_iv_not_weak iv keylen idx : ieee80211_wep_weak_iv (ieee80211_wep_get_iv iv keylen idx).1 keylen = false.
Proof.
  unfold ieee80211_wep_get_iv; cbn [fst]; set (v := u32 (iv + 1)).
  destruct (ieee80211_wep_weak_iv v keylen) eqn:E; [|done].
  rewrite weak_iv_spec in *; rewrite u32_mod; apply andb_true_iff in E as [E _]; apply andb_true_iff in E as [E _].
  apply Z.eqb_eq in E; apply andb_false_iff; left; apply andb_false_iff; left; apply Z.eqb_neq; arith.
Qed.

Lemma be24_val a b c : is_u8 b -> is_u8 c ->
  Z.lor (Z.lor (Z.shiftl a 16) (Z.shiftl b 8)) c = a * 65536 + b * 256 + c.
Proof.
  intros Hb Hc; replace (Z.shiftl a 16) with (Z.shiftl (Z.shiftl a 8) 8) by (by rewrite Z.shiftl_shiftl by lia).
  rewrite <- Z.shiftl_lor, Z.lor_comm, (Z.lor_comm (Z.shiftl a 8)), !lor_shiftl_add by (done || lia); lia.
Qed.

Lemma sent_iv_not_weak h iv keylen idx t : data_header h ->
  ieee80211_wep_is_weak_iv (h ++ (ieee80211_wep_get_iv iv keylen idx).2 ++ t) keylen = Some false.
Proof.
  intros Hh; destruct (data_header_fields h Hh) as (H24 & _); destruct Hh as [_ Hl].
  pose proof (get_iv_not_weak iv keylen idx) as W; revert W.
  unfold ieee80211_wep_get_iv, ieee80211_wep_is_weak_iv; cbn [fst snd].
  rewrite frame_control_header by lia; rewrite <- Hl, Nat2Z.id.
  set (v := if ieee80211_wep_weak_iv _ keylen then _ else _); intros W.
  rewrite bool_decide_true by (rewrite !length_app; cbn; lia).
  rewrite <- (Nat.add_0_r (length h)) at 1; rewrite !(byte_at_app_r h _ (length h)) by done; cbn [app byte_at nth].
  rewrite <- W, !weak_iv_spec, !land_0xff, shiftr16, shiftr8.
  rewrite be24_val by (unfold is_uint; change (2 ^ 8) with 256; apply Z.mod_pos_bound; lia).
  set (w := _ * 65536 + _ + _); assert (E1 : (w / 256) mod 256 = (v / 256) mod 256) by (subst w; arith).
  assert (E2 : (w / 65536) mod 256 = (v / 65536) mod 256) by (subst w; arith).
  by rewrite E1, E2.
Qed.

(** ** Lemmas: transforms *)

Section TransformLemmas.
Context `{StreamCipher}.
Context (crc32_le : Z -> list Z -> Z).

Lemma stream_decrypt_encrypt st data : stream_decrypt st (stream_encrypt st data) = data.
Proof.
  revert st; induction data as [|x data IH]; intros st; [done|]; cbn.
  pose proof (sc_decrypt_encrypt st x) as E; destruct (sc_encrypt_one st x) as [st' y]; cbn in *; rewrite E; by rewrite IH.
Qed.

Lemma length_stream_encrypt st data : length (stream_encrypt st data) = length data.
Proof. revert st; induction data as [|x data IH]; intros st; [done|]; cbn; destruct (sc_encrypt_one st x); cbn; auto. Qed.

(** Encrypted data has a valid ICV for the receiver with the same key. *)
Lemma decrypt_encrypt_data rc4key data : exists c,
  ieee80211_wep_encrypt_data crc32_le true rc4key data = Some c /\ length c = (length data + WEP_ICV_LEN)%nat /\
  ieee80211_wep_decrypt_data crc32_le true rc4key c (length data) = (0, data ++ icv_of crc32_le data).
Proof.
  unfold ieee80211_wep_encrypt_data, ieee80211_wep_decrypt_data; cbn [negb].
  set (icv := icv_of crc32_le data); assert (Hi : length icv = WEP_ICV_LEN) by reflexivity.
  exists (stream_encrypt (sc_setkey rc4key) (data ++ icv)).
  assert (Hc : length (stream_encrypt (sc_setkey rc4key) (data ++ icv)) = (length data + WEP_ICV_LEN)%nat)
    by (rewrite length_stream_encrypt, length_app; lia).
  split_and!; [done..|].
  rewrite (take_ge (stream_encrypt _ _)), (drop_ge (stream_encrypt _ _)), app_nil_r, stream_decrypt_encrypt by lia.
  unfold sub; rewrite take_app_length, drop_app_length, (take_ge icv), memcmp_refl by lia; done.
Qed.

End TransformLemmas.

(** ** Properties *)

Section Properties.
Context `{StreamCipher}.
Context (crc32_le : Z -> list Z -> Z).

(** A data frame the software encrypts, with room for IV and ICV. *)
Definition software_frame (s : tx_skb) : Prop :=
  tx_hw s = None /\ 4 <= headroom s /\ 4 <= tailroom s /\ bytes (tx_data s) /\
  let h := take (Z.to_nat (ieee80211_hdrlen (frame_control (tx_data s)))) (tx_data s) in data_header h.

Lemma sub_at_end h b t n : (n <= length b)%nat -> sub (h ++ b ++ t) (length h) n = take n b.
Proof. intros Hn; unfold sub; rewrite drop_app_length, take_app_le by lia; done. Qed.

Lemma get_iv_bytes iv keylen idx : 0 <= idx < 4 ->
  let b := (ieee80211_wep_get_iv iv keylen idx).2 in length b = WEP_IV_LEN /\ Z.shiftr (b.[3]) 6 = idx.
Proof.
  intros Hi; split; [done|]; cbn [ieee80211_wep_get_iv snd byte_at nth].
  rewrite u8_mod, Z.shiftl_mul_pow2, Z.shiftr_div_pow2, (Z.mod_small (idx * 2 ^ 6)) by lia; by rewrite Z.div_mul.
Qed.

(** The receiver undoes the encryption of a frame with this IV field. *)
Lemma wep_decrypt_frame key h ivb c payload :
  data_header h -> ieee80211_has_protected (frame_control h) = true ->
  length ivb = WEP_IV_LEN -> Z.shiftr (ivb.[3]) 6 = key_idx key -> length c = (length payload + WEP_ICV_LEN)%nat ->
  ieee80211_wep_decrypt_data crc32_le true (take 3 ivb ++ key_bytes key) c (length payload) =
    (0, payload ++ icv_of crc32_le payload) ->
  ieee80211_wep_decrypt crc32_le true (h ++ ivb ++ c) (Some key) = (0, h ++ payload).
Proof.
  intros Hh Hp Li Ei Lc Ed; destruct (data_header_fields h Hh) as (H24 & _); destruct Hh as [_ Hl].
  unfold WEP_IV_LEN, WEP_ICV_LEN in *.
  unfold ieee80211_wep_decrypt; rewrite frame_control_header by lia; rewrite Hp, <- Hl, Nat2Z.id; cbn [negb].
  unfold WEP_IV_LEN, WEP_ICV_LEN; rewrite bool_decide_false by (rewrite !length_app; lia).
  rewrite byte_at_app_r, byte_at_header, Ei, Z.eqb_refl, sub_at_end by (done || lia); cbn [negb].
  rewrite app_assoc, drop_app_length' by (rewrite length_app; lia).
  replace (length ((h ++ ivb) ++ c) - length h - 4 - 4)%nat with (length payload) by (rewrite !length_app; lia).
  rewrite Ed; cbn [Z.eqb]; rewrite <- app_assoc, !take_app_length; done.
Qed.

Lemma wep_frame_roundtrip key iv hd tl h payload has_sta stripped trimmed wc :
  data_header h -> ieee80211_has_protected (frame_control h) = true -> set_protected h = h ->
  4 <= hd -> 4 <= tl -> 0 <= key_idx key < 4 ->
  exists iv' d, wep_encrypt_skb crc32_le true key iv (TxSkb None hd tl (h ++ payload)) = (0, iv', d) /\
    ieee80211_crypto_wep_decrypt crc32_le true key has_sta false stripped true trimmed wc d =
      Some (RX_CONTINUE, wc, h ++ payload).
Proof.
  intros Hh Hp Hs Hhd Htl Hk; destruct (data_header_fields h Hh) as (H24 & _); pose proof Hh as [Hd Hl].
  unfold wep_encrypt_skb, ieee80211_wep_encrypt, ieee80211_wep_add_iv; cbn [tx_hw tx_data headroom tailroom].
  rewrite (proj2 (Z.ltb_ge tl (Z.of_nat WEP_ICV_LEN)) Htl), (proj2 (Z.ltb_ge hd (Z.of_nat WEP_IV_LEN)) Hhd); cbn [orb].
  rewrite set_protected_app, Hs, frame_control_header by lia; rewrite <- Hl, Nat2Z.id, take_app_length, drop_app_length.
  set (kl := Z.of_nat (length (key_bytes key))).
  pose proof (fun t => sent_iv_not_weak h iv kl (key_idx key) t Hh) as Hw.
  destruct (get_iv_bytes iv kl (key_idx key) Hk) as [Li Ei].
  destruct (ieee80211_wep_get_iv iv kl (key_idx key)) as [iv' ivb]; cbn [snd] in *.
  unfold WEP_IV_LEN in *; rewrite sub_at_end by lia.
  rewrite app_assoc, drop_app_length', take_app_length' by (rewrite length_app; lia).
  destruct (decrypt_encrypt_data crc32_le (take 3 ivb ++ key_bytes key) payload) as (c & -> & Lc & Ed).
  exists iv', ((h ++ ivb) ++ c); split; [done|]; rewrite <- app_assoc.
  unfold ieee80211_crypto_wep_decrypt; rewrite frame_control_header by lia; rewrite Hd; cbn [negb andb].
  fold kl; rewrite Hw, (wep_decrypt_frame key h ivb c payload) by done; by destruct has_sta.
Qed.

(** C29: Fragments that are encrypted in software with a WEP key come back whole:
    transmission of any number of data frames with room for IV and ICV
    succeeds, and the receiver with the key returns each frame with only the
    Protected bit added; none of the IVs on the way is counted as weak. *)
Theorem wep_roundtrip key iv skbs has_sta stripped trimmed wc :
  Forall software_frame skbs -> 0 <= key_idx key < 4 ->
  exists iv' ds, ieee80211_crypto_wep_encrypt crc32_le true key iv skbs = (TX_CONTINUE, iv', ds) /\
    Forall2 (fun s d => ieee80211_crypto_wep_decrypt crc32_le true key has_sta false stripped true trimmed wc d =
      Some (RX_CONTINUE, wc, set_protected (tx_data s))) skbs ds.
Proof.
  intros Hf Hk; revert skbs iv Hf; unfold ieee80211_crypto_wep_encrypt.
  apply (protect_walk_all (wep_encrypt_skb crc32_le true key) software_frame); intros iv s (Hhw & Hhd & Htl & Hb & Hh).
  set (n := Z.to_nat _) in Hh; set (h := take n _) in Hh; destruct (data_header_fields h Hh) as (H24 & _).
  assert (Hbh : bytes h) by (by apply Forall_take).
  unfold protected_skb; rewrite Hhw, <- (take_drop n (tx_data s)).
  fold h; rewrite set_protected_app by lia.
  apply wep_frame_roundtrip; auto using data_header_protected, set_protected_idem.
  pose proof (frame_control_set_protected h [] Hbh) as E; rewrite app_nil_r in E; rewrite E; apply has_protected_lor.
Qed.

End Properties.

(** ** Concrete runs *)

(** A stream cipher with a one-byte state. *)
Definition toy_stream : StreamCipher := {|
  sc_state := Z; sc_setkey k := fold_left (fun a x => u8 (5 * a + x)) k 3;
  sc_encrypt_one st x := (u8 (13 * st + 1), Z.lxor x st);
  sc_decrypt_one st x := (u8 (13 * st + 1), Z.lxor x st);
  sc_decrypt_encrypt st x := f_equal (pair (u8 (13 * st + 1))) (lxor_cancel_r x st) |}.

(** The bitwise CRC of [crc32_le]. *)
Definition crc32_bit (c : Z) : Z := Z.lxor (Z.shiftr c 1) (if Z.odd c then 0xedb88320 else 0).
Definition toy_crc32 (crc : Z) (data : list Z) : Z := fold_left (fun c x => Nat.iter 8 crc32_bit (Z.lxor c x)) data crc.

Definition demo_frame (n : nat) : tx_skb :=
  TxSkb None 4 4 ([0x08; 0x01; 0; 0] ++ repeat 0x11 6 ++ repeat 0x22 6 ++ repeat 0x33 6 ++ [0x50; 0] ++ repeat 7 n).

(** The counter starts just below a weak value. *)
Lemma wep_roundtrip_witness : exists iv' ds,
  @ieee80211_crypto_wep_encrypt toy_stream toy_crc32 true (WepKey [1; 2; 3; 4; 5] 2) 0x03fefe [demo_frame 3; demo_frame 9] =
    (TX_CONTINUE, iv', ds) /\
  Forall2 (fun s d => @ieee80211_crypto_wep_decrypt toy_stream toy_crc32 true (WepKey [1; 2; 3; 4; 5] 2) true false false true true 0 d =
      Some (RX_CONTINUE, 0, set_protected (tx_data s))) [demo_frame 3; demo_frame 9] ds.
Proof. apply (@wep_roundtrip toy_stream); [by_eval | cbn; lia]. Defined.

End Wep.
