(* ===== verification/Tkip.v ===== *)
(** * TKIP

    [net/mac80211/tkip.c] and the TKIP parts of [net/mac80211/wpa.c]: the two
    mixing phases with the phase-1 cache of both directions, the IV header,
    frame encryption and decryption with the sequence counter check, and the
    Michael MIC handlers that commit the receive counter. *)

From Stdlib Require Import Sorted.
From S2P Require Import Prelude Ieee80211 Frame Michael Wep.

Module Tkip.
Import Ieee80211 Frame.

Definition TKIP_IV_LEN : nat := 8.
Definition TKIP_ICV_LEN : nat := 4.
Definition MICHAEL_MIC_LEN : nat := 8.
Definition PHASE1_LOOP_COUNT : nat := 8.
Definition NL80211_TKIP_DATA_OFFSET_ENCR_KEY : nat := 0.
Definition NL80211_TKIP_DATA_OFFSET_TX_MIC_KEY : nat := 16.
Definition NL80211_TKIP_DATA_OFFSET_RX_MIC_KEY : nat := 24.

Definition TKIP_DECRYPT_OK : Z := 0.
Definition TKIP_DECRYPT_NO_EXT_IV : Z := -1.
Definition TKIP_DECRYPT_INVALID_KEYIDX : Z := -2.
Definition TKIP_DECRYPT_REPLAY : Z := -3.

(** ** State *)

Inductive tkip_state := TKIP_STATE_NOT_INIT | TKIP_STATE_PHASE1_DONE | TKIP_STATE_PHASE1_HW_UPLOADED.

#[global] Instance tkip_state_eq_dec : EqDecision tkip_state.
Proof. solve_decision. Defined.

Record tkip_ctx := Ctx { iv32 : Z; iv16 : Z; p1k : list Z; p1k_iv32 : Z; state : tkip_state }.

(** A TKIP key: the 32 bytes of [conf.key], its index, the address of the
    interface, the transmit context, one receive context per TID and the count
    of MIC failures. *)
Record tkip_key := TKey { conf_key : list Z; conf_keyidx : Z; vif_addr : list Z;
  tx : tkip_ctx; rx : list tkip_ctx; mic_failures : Z }.

Definition set_tx (key : tkip_key) (c : tkip_ctx) : tkip_key :=
  TKey (conf_key key) (conf_keyidx key) (vif_addr key) c (rx key) (mic_failures key).
Definition set_rx (key : tkip_key) (queue : nat) (c : tkip_ctx) : tkip_key :=
  TKey (conf_key key) (conf_keyidx key) (vif_addr key) (tx key) (<[queue := c]> (rx key)) (mic_failures key).
Definition set_state (c : tkip_ctx) (st : tkip_state) : tkip_ctx := Ctx (iv32 c) (iv16 c) (p1k c) (p1k_iv32 c) st.

Definition ctx0 : tkip_ctx := Ctx 0 0 (repeat 0 5) 0 TKIP_STATE_NOT_INIT.
Definition rx_ctx (key : tkip_key) (queue : nat) : tkip_ctx := nth queue (rx key) ctx0.
Definition tk (key : tkip_key) : list Z := drop NL80211_TKIP_DATA_OFFSET_ENCR_KEY (conf_key key).

(** ** Key mixing *)

Definition tkip_sbox : list Z := [
   0xC6A5; 0xF884; 0xEE99; 0xF68D; 0xFF0D; 0xD6BD; 0xDEB1; 0x9154;
   0x6050; 0x0203; 0xCEA9; 0x567D; 0xE719; 0xB562; 0x4DE6; 0xEC9A;
   0x8F45; 0x1F9D; 0x8940; 0xFA87; 0xEF15; 0xB2EB; 0x8EC9; 0xFB0B;
   0x41EC; 0xB367; 0x5FFD; 0x45EA; 0x23BF; 0x53F7; 0xE496; 0x9B5B;
   0x75C2; 0xE11C; 0x3DAE; 0x4C6A; 0x6C5A; 0x7E41; 0xF502; 0x834F;
   0x685C; 0x51F4; 0xD134; 0xF908; 0xE293; 0xAB73; 0x6253; 0x2A3F;
   0x080C; 0x9552; 0x4665; 0x9D5E; 0x3028; 0x37A1; 0x0A0F; 0x2FB5;
   0x0E09; 0x2436; 0x1B9B; 0xDF3D; 0xCD26; 0x4E69; 0x7FCD; 0xEA9F;
   0x121B; 0x1D9E; 0x5874; 0x342E; 0x362D; 0xDCB2; 0xB4EE; 0x5BFB;
   0xA4F6; 0x764D; 0xB761; 0x7DCE; 0x527B; 0xDD3E; 0x5E71; 0x1397;
   0xA6F5; 0xB968; 0x0000; 0xC12C; 0x4060; 0xE31F; 0x79C8; 0xB6ED;
   0xD4BE; 0x8D46; 0x67D9; 0x724B; 0x94DE; 0x98D4; 0xB0E8; 0x854A;
   0xBB6B; 0xC52A; 0x4FE5; 0xED16; 0x86C5; 0x9AD7; 0x6655; 0x1194;
   0x8ACF; 0xE910; 0x0406; 0xFE81; 0xA0F0; 0x7844; 0x25BA; 0x4BE3;
   0xA2F3; 0x5DFE; 0x80C0; 0x058A; 0x3FAD; 0x21BC; 0x7048; 0xF104;
   0x63DF; 0x77C1; 0xAF75; 0x4263; 0x2030; 0xE51A; 0xFD0E; 0xBF6D;
   0x814C; 0x1814; 0x2635; 0xC32F; 0xBEE1; 0x35A2; 0x88CC; 0x2E39;
   0x9357; 0x55F2; 0xFC82; 0x7A47; 0xC8AC; 0xBAE7; 0x322B; 0xE695;
   0xC0A0; 0x1998; 0x9ED1; 0xA37F; 0x4466; 0x547E; 0x3BAB; 0x0B83;
   0x8CCA; 0xC729; 0x6BD3; 0x283C; 0xA779; 0xBCE2; 0x161D; 0xAD76;
   0xDB3B; 0x6456; 0x744E; 0x141E; 0x92DB; 0x0C0A; 0x486C; 0xB8E4;
   0x9F5D; 0xBD6E; 0x43EF; 0xC4A6; 0x39A8; 0x31A4; 0xD337; 0xF28B;
   0xD532; 0x8B43; 0x6E59; 0xDAB7; 0x018C; 0xB164; 0x9CD2; 0x49E0;
   0xD8B4; 0xACFA; 0xF307; 0xCF25; 0xCAAF; 0xF48E; 0x47E9; 0x1018;
   0x6FD5; 0xF088; 0x4A6F; 0x5C72; 0x3824; 0x57F1; 0x73C7; 0x9751;
   0xCB23; 0xA17C; 0xE89C; 0x3E21; 0x96DD; 0x61DC; 0x0D86; 0x0F85;
   0xE090; 0x7C42; 0x71C4; 0xCCAA; 0x90D8; 0x0605; 0xF701; 0x1C12;
   0xC2A3; 0x6A5F; 0xAEF9; 0x69D0; 0x1791; 0x9958; 0x3A27; 0x27B9;
   0xD938; 0xEB13; 0x2BB3; 0x2233; 0xD2BB; 0xA970; 0x0789; 0x33A7;
   0x2DB6; 0x3C22; 0x1592; 0xC920; 0x8749; 0xAAFF; 0x5078; 0xA57A;
   0x038F; 0x59F8; 0x0980; 0x1A17; 0x65DA; 0xD731; 0x84C6; 0xD0B8;
   0x82C3; 0x29B0; 0x5A77; 0x1E11; 0x7BCB; 0xA8FC; 0x6DD6; 0x2C3A].

Definition swab16 (x : Z) : Z := u16 (Z.lor (Z.shiftl x 8) (Z.shiftr x 8)).
Definition ror16 (word shift : Z) : Z := u16 (Z.lor (Z.shiftr word shift) (Z.shiftl word (16 - shift))).

Definition tkipS (val : Z) : Z :=
  Z.lxor (nth (Z.to_nat (Z.land val 0xff)) tkip_sbox 0) (swab16 (nth (Z.to_nat (Z.shiftr val 8)) tkip_sbox 0)).

Definition write_tkip_iv (iv16 : Z) : list Z :=
  [u8 (Z.shiftr iv16 8); Z.land (Z.lor (Z.shiftr iv16 8) 0x20) 0x7f; Z.land iv16 0xff].

(** One turn of the phase-1 loop. *)
Definition phase1_turn (tk : list Z) (p : list Z) (i : nat) : list Z :=
  let j := (2 * (i mod 2))%nat in
  let p0 := u16 (p.[0] + tkipS (Z.lxor (p.[4]) (get_le16 tk (0 + j)))) in
  let p1 := u16 (p.[1] + tkipS (Z.lxor p0 (get_le16 tk (4 + j)))) in
  let p2 := u16 (p.[2] + tkipS (Z.lxor p1 (get_le16 tk (8 + j)))) in
  let p3 := u16 (p.[3] + tkipS (Z.lxor p2 (get_le16 tk (12 + j)))) in
  let p4 := u16 (p.[4] + (tkipS (Z.lxor p3 (get_le16 tk (0 + j))) + Z.of_nat i)) in
  [p0; p1; p2; p3; p4].

Definition phase1 (tk ta : list Z) (tsc_IV32 : Z) : list Z :=
  fold_left (phase1_turn tk) (seq 0 PHASE1_LOOP_COUNT)
    [Z.land tsc_IV32 0xffff; Z.shiftr tsc_IV32 16; get_le16 ta 0; get_le16 ta 2; get_le16 ta 4].

Definition tkip_mixing_phase1 (tk : list Z) (ctx : tkip_ctx) (ta : list Z) (tsc_IV32 : Z) : tkip_ctx :=
  Ctx (iv32 ctx) (iv16 ctx) (phase1 tk ta tsc_IV32) tsc_IV32 TKIP_STATE_PHASE1_DONE.

Definition tkip_mixing_phase2 (tk p1k : list Z) (tsc_IV16 : Z) : list Z :=
  let k i := get_le16 tk i in
  let q5 := u16 (p1k.[4] + tsc_IV16) in
  let q0 := u16 (p1k.[0] + tkipS (Z.lxor q5 (k 0%nat))) in
  let q1 := u16 (p1k.[1] + tkipS (Z.lxor q0 (k 2%nat))) in
  let q2 := u16 (p1k.[2] + tkipS (Z.lxor q1 (k 4%nat))) in
  let q3 := u16 (p1k.[3] + tkipS (Z.lxor q2 (k 6%nat))) in
  let q4 := u16 (p1k.[4] + tkipS (Z.lxor q3 (k 8%nat))) in
  let q5 := u16 (q5 + tkipS (Z.lxor q4 (k 10%nat))) in
  let q0 := u16 (q0 + ror16 (Z.lxor q5 (k 12%nat)) 1) in
  let q1 := u16 (q1 + ror16 (Z.lxor q0 (k 14%nat)) 1) in
  let q2 := u16 (q2 + ror16 q1 1) in
  let q3 := u16 (q3 + ror16 q2 1) in
  let q4 := u16 (q4 + ror16 q3 1) in
  let q5 := u16 (q5 + ror16 q4 1) in
  write_tkip_iv tsc_IV16 ++ [Z.land (Z.shiftr (Z.lxor q5 (k 0%nat)) 1) 0xff] ++
  concat (put_le16 <$> [q0; q1; q2; q3; q4; q5]).

Definition ieee80211_tkip_add_iv (key : tkip_key) : list Z :=
  write_tkip_iv (iv16 (tx key)) ++ [u8 (Z.lor (Z.shiftl (conf_keyidx key) 6) (Z.shiftl 1 5))] ++ put_le32 (iv32 (tx key)).

Definition ieee80211_compute_tkip_p1k (key : tkip_key) (iv32 : Z) : tkip_key :=
  if negb (p1k_iv32 (tx key) =? iv32) || bool_decide (state (tx key) = TKIP_STATE_NOT_INIT)
  then set_tx key (tkip_mixing_phase1 (tk key) (tx key) (vif_addr key) iv32)
  else key.

Definition ieee80211_get_tkip_p1k_iv (key : tkip_key) (iv32 : Z) : tkip_key * list Z :=
  let key := ieee80211_compute_tkip_p1k key iv32 in (key, p1k (tx key)).

Definition ieee80211_get_tkip_rx_p1k (key : tkip_key) (ta : list Z) (iv32 : Z) : list Z := phase1 (tk key) ta iv32.

Definition ieee80211_get_tkip_p2k (key : tkip_key) (skb : list Z) : tkip_key * list Z :=
  let data := drop (Z.to_nat (ieee80211_hdrlen (frame_control skb))) skb in
  let iv32 := get_le32 data 4 in
  let iv16 := u16 (Z.lor (data.[2]) (Z.shiftl (data.[0]) 8)) in
  let key := ieee80211_compute_tkip_p1k key iv32 in
  (key, tkip_mixing_phase2 (tk key) (p1k (tx key)) iv16).

(** ** Frames *)

Section Frames.
Context `{StreamCipher}.
Context (crc32_le : Z -> list Z -> Z).

(** [payload] is the part behind the IV; [None] stands for the error of the
    cipher. *)
Definition ieee80211_tkip_encrypt_data (tfm : bool) (key : tkip_key) (skb payload : list Z) : tkip_key * option (list Z) :=
  let '(key, rc4key) := ieee80211_get_tkip_p2k key skb in
  (key, Wep.ieee80211_wep_encrypt_data crc32_le tfm rc4key payload).

(** The result of receiving: the code, the key, the payload buffer, the counter
    to commit, and the phase-1 key given to the driver. *)
Record decrypted := Dec { d_res : Z; d_key : tkip_key; d_payload : list Z; d_iv : option (Z * Z);
  d_update : option (Z * list Z) }.

Definition replayed (c : tkip_ctx) (v32 v16 : Z) : bool :=
  negb (bool_decide (state c = TKIP_STATE_NOT_INIT)) &&
  ((v32 <? iv32 c) || ((v32 =? iv32 c) && (v16 <=? iv16 c))).

(** The receive context is brought to phase 1 of [v32]. *)
Definition rx_phase1 (key : tkip_key) (ta : list Z) (queue : nat) (v32 : Z) : tkip_ctx :=
  let c := rx_ctx key queue in
  if bool_decide (state c = TKIP_STATE_NOT_INIT) || negb (iv32 c =? v32)
  then tkip_mixing_phase1 (tk key) c ta v32 else c.

(** [hw_update] tells that the driver takes phase-1 keys and has this key. *)
Definition ieee80211_tkip_decrypt_data (tfm : bool) (key : tkip_key) (payload ta : list Z) (only_iv : bool)
    (queue : nat) (hw_update : bool) : decrypted :=
  if bool_decide (length payload < 12)%nat then Dec (- 1) key payload None None
  else
    let v16 := Z.lor (Z.shiftl (payload.[0]) 8) (payload.[2]) in
    let keyid := payload.[3] in
    let v32 := get_le32 payload 4 in
    if Z.land keyid (Z.shiftl 1 5) =? 0 then Dec TKIP_DECRYPT_NO_EXT_IV key payload None None
    else if negb (Z.shiftr keyid 6 =? conf_keyidx key) then Dec TKIP_DECRYPT_INVALID_KEYIDX key payload None None
    else if replayed (rx_ctx key queue) v32 v16 then Dec TKIP_DECRYPT_REPLAY key payload None None
    else if only_iv then
      Dec TKIP_DECRYPT_OK (set_rx key queue (set_state (rx_ctx key queue) TKIP_STATE_PHASE1_HW_UPLOADED)) payload
        (Some (v32, v16)) None
    else
      let c := rx_phase1 key ta queue v32 in
      let upload := hw_update && negb (bool_decide (state c = TKIP_STATE_PHASE1_HW_UPLOADED)) in
      let c' := if upload then set_state c TKIP_STATE_PHASE1_HW_UPLOADED else c in
      let rc4key := tkip_mixing_phase2 (tk key) (p1k c') v16 in
      let '(res, data) := Wep.ieee80211_wep_decrypt_data crc32_le tfm rc4key (drop 8 payload) (length payload - 12) in
      Dec res (set_rx key queue c') (take 8 payload ++ data)
        (if res =? TKIP_DECRYPT_OK then Some (v32, v16) else None)
        (if upload then Some (v32, p1k c) else None).

(** The next transmit sequence counter. *)
Definition next_iv (c : tkip_ctx) : tkip_ctx :=
  let v16 := u16 (iv16 c + 1) in
  Ctx (if v16 =? 0 then u32 (iv32 c + 1) else iv32 c) v16 (p1k c) (p1k_iv32 c) (state c).

(** The code, the key and the frame. *)
Definition tkip_encrypt_skb (tfm : bool) (key : tkip_key) (s : tx_skb) : Z * tkip_key * list Z :=
  let skb := tx_data s in
  if (match tx_hw s with Some f => negb (generate_iv f) && negb (put_iv_space f) | None => false end)
  then (0, key, skb)
  else
    let hdrlen := Z.to_nat (ieee80211_hdrlen (frame_control skb)) in
    let tail := if tx_hw s is Some _ then 0 else Z.of_nat TKIP_ICV_LEN in
    if (tailroom s <? tail) || (headroom s <? Z.of_nat TKIP_IV_LEN) then (- 1, key, skb)
    else
      let hdr := take hdrlen skb in
      let payload := drop hdrlen skb in
      if (match tx_hw s with Some f => put_iv_space f | None => false end)
      then (0, key, hdr ++ drop (hdrlen - TKIP_IV_LEN) hdr ++ payload)
      else
        let key := set_tx key (next_iv (tx key)) in
        let iv := ieee80211_tkip_add_iv key in
        let skb := hdr ++ iv ++ payload in
        if tx_hw s is Some _ then (0, key, skb)
        else
          match ieee80211_tkip_encrypt_data tfm key skb payload with
          | (key, Some data) => (0, key, hdr ++ iv ++ data)
          | (key, None) => (- 1, key, skb)
          end.

Definition ieee80211_crypto_tkip_encrypt (tfm : bool) (key : tkip_key) (skbs : list tx_skb) :
    tx_result * tkip_key * list (list Z) :=
  protect_walk (tkip_encrypt_skb tfm) key (ieee80211_tx_set_protected skbs).

(** The result, the key, the frame and the counter to commit; [sta_addr] is the
    address of the station, [linear] the success of [skb_linearize].  The
    receive path has checked that the frame holds its header. *)
Definition ieee80211_crypto_tkip_decrypt (tfm : bool) (key : tkip_key) (queue : nat) (sta_addr : option (list Z))
    (decrypted hw_update linear : bool) (skb : list Z) : rx_result * tkip_key * list Z * option (Z * Z) :=
  let fc := frame_control skb in
  let hdrlen := Z.to_nat (ieee80211_hdrlen fc) in
  if negb (ieee80211_is_data fc) then (RX_CONTINUE, key, skb, None)
  else
    match sta_addr with
    | None => (RX_DROP_UNUSABLE, key, skb, None)
    | Some addr =>
        if u32 (Z.of_nat (length skb) - Z.of_nat hdrlen) <? 12 then (RX_DROP_UNUSABLE, key, skb, None)
        else if negb linear then (RX_DROP_UNUSABLE, key, skb, None)
        else
          let d := ieee80211_tkip_decrypt_data tfm key (drop hdrlen skb) addr decrypted queue hw_update in
          let skb := take hdrlen skb ++ d_payload d in
          if negb (d_res d =? TKIP_DECRYPT_OK) then (RX_DROP_UNUSABLE, d_key d, skb, None)
          else
            let skb := take (length skb - TKIP_ICV_LEN) skb in
            (RX_CONTINUE, d_key d, take hdrlen skb ++ drop (hdrlen + TKIP_IV_LEN) skb, d_iv d)
    end.

End Frames.

(** ** Michael MIC *)

(** Flags of the frame and of the driver that decide where the MIC is made. *)
Record mic_tx_flags := MicTx { mic_failure_test : bool; dontfrag : bool; set_frag_threshold : bool; generate_mmic : bool }.

(** [key] is [None] without a TKIP key. *)
Definition ieee80211_tx_h_michael_mic_add (key : option tkip_key) (f : mic_tx_flags) (s : tx_skb) : tx_result * tx_skb :=
  let skb := tx_data s in
  match key with
  | None => (TX_CONTINUE, s)
  | Some key =>
      if bool_decide (length skb < 24)%nat || negb (ieee80211_is_data_present (frame_control skb)) then (TX_CONTINUE, s)
      else
        let hdrlen := Z.to_nat (ieee80211_hdrlen (frame_control skb)) in
        if bool_decide (length skb < hdrlen)%nat then (TX_DROP, s)
        else
          let data := drop hdrlen skb in
          let s := TxSkb (if mic_failure_test f then None else tx_hw s) (headroom s) (tailroom s) skb in
          if (if tx_hw s is Some _ then true else false) && (dontfrag f || set_frag_threshold f) && negb (generate_mmic f)
          then (TX_CONTINUE, s)
          else
            let tail := Z.of_nat MICHAEL_MIC_LEN + (if tx_hw s is Some _ then 0 else Z.of_nat TKIP_ICV_LEN) in
            if (tailroom s <? tail) || (headroom s <? Z.of_nat TKIP_IV_LEN) then (TX_DROP, s)
            else
              let mic := Michael.michael_mic (drop NL80211_TKIP_DATA_OFFSET_TX_MIC_KEY (conf_key key)) skb data in
              let mic := if mic_failure_test f then u8 (mic.[0] + 1) :: drop 1 mic else mic in
              (TX_CONTINUE, TxSkb (tx_hw s) (headroom s) (tailroom s - Z.of_nat MICHAEL_MIC_LEN) (skb ++ mic))
  end.

(** Receive flags: what the device stripped, reported or decrypted; whether
    the interface is an access point; the success of [skb_linearize]. *)
Record mic_rx_flags := MicRx { mmic_stripped : bool; iv_stripped : bool; mmic_error : bool; rx_decrypted : bool;
  vif_ap : bool; mic_linear : bool }.

Definition update_iv (key : tkip_key) (queue : nat) (iv : Z * Z) : tkip_key :=
  let c := rx_ctx key queue in set_rx key queue (Ctx iv.1 iv.2 (p1k c) (p1k_iv32 c) (state c)).

Definition mic_failed (key : tkip_key) : tkip_key :=
  TKey (conf_key key) (conf_keyidx key) (vif_addr key) (tx key) (rx key) (u32 (mic_failures key + 1)).

(** [key] is the key with whether its cipher is TKIP; [iv] is the counter that
    decryption left in [rx].  The result has the key, the frame, and the key
    index of a reported MIC failure. *)
Definition ieee80211_rx_h_michael_mic_verify (key : option (tkip_key * bool)) (f : mic_rx_flags) (queue : nat)
    (iv : Z * Z) (skb : list Z) : rx_result * option (tkip_key * bool) * list Z * option Z :=
  if negb (ieee80211_is_data_present (frame_control skb)) then (RX_CONTINUE, key, skb, None)
  else if mmic_stripped f || iv_stripped f then
    if mmic_error f then
      (RX_DROP_UNUSABLE, key, skb, Some (if key is Some (k, _) then conf_keyidx k else -1))
    else
      match key with
      | Some (k, true) => if negb (iv_stripped f) then (RX_CONTINUE, Some (update_iv k queue iv, true), skb, None)
                          else (RX_CONTINUE, key, skb, None)
      | _ => (RX_CONTINUE, key, skb, None)
      end
  else
    match key with
    | Some (k, true) =>
        if negb (rx_decrypted f) then (RX_CONTINUE, key, skb, None)
        else if vif_ap f && negb (conf_keyidx k =? 0) then (RX_DROP_UNUSABLE, key, skb, None)
        else if mmic_error f then (RX_DROP_UNUSABLE, Some (mic_failed k, true), skb, Some (conf_keyidx k))
        else
          let hdrlen := Z.to_nat (ieee80211_hdrlen (frame_control skb)) in
          if bool_decide (length skb < hdrlen + MICHAEL_MIC_LEN)%nat then (RX_DROP_UNUSABLE, key, skb, None)
          else if negb (mic_linear f) then (RX_DROP_UNUSABLE, key, skb, None)
          else
            let data_len := (length skb - hdrlen - MICHAEL_MIC_LEN)%nat in
            let mic := Michael.michael_mic (drop NL80211_TKIP_DATA_OFFSET_RX_MIC_KEY (conf_key k)) skb (sub skb hdrlen data_len) in
            match memcmp mic (sub skb (hdrlen + data_len) MICHAEL_MIC_LEN) with
            | Eq => (RX_CONTINUE, Some (update_iv k queue iv, true), take (length skb - MICHAEL_MIC_LEN) skb, None)
            | _ => (RX_DROP_UNUSABLE, Some (mic_failed k, true), skb, Some (conf_keyidx k))
            end
    | _ => (RX_CONTINUE, key, skb, None)
    end.

(** ** Lemmas: what mixing reads *)

Lemma get_le16_take n b i : (i + 1 < n)%nat -> get_le16 (take n b) i = get_le16 b i.
Proof. intros Hi; unfold get_le16; by rewrite !byte_at_take by lia. Qed.

Lemma phase1_turn_key k p i : phase1_turn (take 16 k) p i = phase1_turn k p i.
Proof.
  unfold phase1_turn; pose proof (Nat.mod_upper_bound i 2 ltac:(lia)); by rewrite !get_le16_take by lia.
Qed.

Lemma phase1_key k k' ta v : take 16 k = take 16 k' -> phase1 k ta v = phase1 k' ta v.
Proof.
  intros E; unfold phase1.
  assert (F : forall l p, fold_left (phase1_turn k) l p = fold_left (phase1_turn k') l p).
  { intros l; induction l as [|i l IH]; intros p; [done|]; cbn [fold_left].
    by rewrite IH, <- (phase1_turn_key k), E, phase1_turn_key. }
  apply F.
Qed.

Lemma phase2_key k k' p v : take 16 k = take 16 k' -> tkip_mixing_phase2 k p v = tkip_mixing_phase2 k' p v.
Proof.
  intros E; assert (F : forall i, (i < 15)%nat -> get_le16 k i = get_le16 k' i).
  { intros i Hi; by rewrite <- (get_le16_take 16), E, get_le16_take by lia. }
  unfold tkip_mixing_phase2; cbn zeta; by rewrite !F by lia.
Qed.

(** ** Lemmas: the transmit cache *)

(** A cached phase-1 key is that of its [p1k_iv32]. *)
Definition tx_cache_ok (key : tkip_key) : Prop :=
  state (tx key) <> TKIP_STATE_NOT_INIT -> p1k (tx key) = phase1 (tk key) (vif_addr key) (p1k_iv32 (tx key)).

Lemma compute_p1k_ok key v : tx_cache_ok key ->
  let key' := ieee80211_compute_tkip_p1k key v in
  p1k (tx key') = phase1 (tk key) (vif_addr key) v /\ tx_cache_ok key' /\
  tk key' = tk key /\ vif_addr key' = vif_addr key /\ iv32 (tx key') = iv32 (tx key) /\ iv16 (tx key') = iv16 (tx key) /\
  rx key' = rx key /\ conf_key key' = conf_key key /\ conf_keyidx key' = conf_keyidx key.
Proof.
  intros Hc; unfold ieee80211_compute_tkip_p1k.
  destruct (Z.eqb_spec (p1k_iv32 (tx key)) v) as [<-|]; [|done]; cbn [negb orb].
  case_bool_decide as E; [done|]; split_and!; auto.
Qed.

(** Forgetting the cached key. *)
Definition flush (key : tkip_key) : tkip_key := set_tx key (set_state (tx key) TKIP_STATE_NOT_INIT).

Lemma flush_ok key : tx_cache_ok (flush key).
Proof. intros Hn; by destruct Hn. Qed.

(** Keys equal but for the transmit cache, both of whose caches are sound. *)
Definition same_key (k1 k2 : tkip_key) : Prop :=
  tx_cache_ok k1 /\ tx_cache_ok k2 /\ conf_key k1 = conf_key k2 /\ conf_keyidx k1 = conf_keyidx k2 /\
  vif_addr k1 = vif_addr k2 /\ rx k1 = rx k2 /\ mic_failures k1 = mic_failures k2 /\
  iv32 (tx k1) = iv32 (tx k2) /\ iv16 (tx k1) = iv16 (tx k2).

Lemma same_key_flush key : tx_cache_ok key -> same_key key (flush key).
Proof. intros Hc; split_and!; [done | apply flush_ok | done..]. Qed.

Lemma same_key_trans k1 k2 k3 : same_key k1 k2 -> same_key k2 k3 -> same_key k1 k3.
Proof. unfold same_key; intuition congruence. Qed.

Lemma same_compute k1 k2 v : same_key k1 k2 ->
  same_key (ieee80211_compute_tkip_p1k k1 v) (ieee80211_compute_tkip_p1k k2 v).
Proof.
  intros (H1 & H2 & E); destruct (compute_p1k_ok k1 v H1) as (_ & C1 & _), (compute_p1k_ok k2 v H2) as (_ & C2 & _).
  split_and!; [done.. | | | | | | |]; unfold ieee80211_compute_tkip_p1k; repeat case_match; cbn; intuition congruence.
Qed.

Definition skb_iv32 (skb : list Z) : Z :=
  get_le32 (drop (Z.to_nat (ieee80211_hdrlen (frame_control skb))) skb) 4.
Definition skb_iv16 (skb : list Z) : Z :=
  let data := drop (Z.to_nat (ieee80211_hdrlen (frame_control skb))) skb in u16 (Z.lor (data.[2]) (Z.shiftl (data.[0]) 8)).

(** The phase-2 key without a cache. *)
Definition p2k_direct (key : tkip_key) (skb : list Z) : list Z :=
  tkip_mixing_phase2 (tk key) (phase1 (tk key) (vif_addr key) (skb_iv32 skb)) (skb_iv16 skb).

Lemma get_p2k_ok key skb : tx_cache_ok key ->
  ieee80211_get_tkip_p2k key skb = (ieee80211_compute_tkip_p1k key (skb_iv32 skb), p2k_direct key skb).
Proof.
  intros Hc; destruct (compute_p1k_ok key (skb_iv32 skb) Hc) as (E & _ & Et & _).
  unfold ieee80211_get_tkip_p2k, p2k_direct; fold (skb_iv32 skb) (skb_iv16 skb); by rewrite E, Et.
Qed.

Lemma same_p2k_direct k1 k2 skb : same_key k1 k2 -> p2k_direct k1 skb = p2k_direct k2 skb.
Proof. intros (_ & _ & E1 & _ & E2 & _); unfold p2k_direct, tk; by rewrite E1, E2. Qed.

Lemma same_next k1 k2 : same_key k1 k2 ->
  same_key (set_tx k1 (next_iv (tx k1))) (set_tx k2 (next_iv (tx k2))).
Proof.
  intros (H1 & H2 & E1 & E2 & E3 & E4 & E5 & E6 & E7); unfold same_key; cbn; rewrite E6, E7; split_and!; auto.
Qed.

Section TransmitProperties.
Context `{StreamCipher}.
Context (crc32_le : Z -> list Z -> Z).

Lemma same_encrypt tfm k1 k2 s : same_key k1 k2 ->
  let r1 := tkip_encrypt_skb crc32_le tfm k1 s in let r2 := tkip_encrypt_skb crc32_le tfm k2 s in
  same_key r1.1.2 r2.1.2 /\ r1.1.1 = r2.1.1 /\ r1.2 = r2.2.
Proof.
  intros Hs; pose proof (same_next k1 k2 Hs) as Hn; unfold tkip_encrypt_skb; cbn zeta.
  set (n1 := set_tx k1 _) in *; set (n2 := set_tx k2 _) in *.
  assert (Ea : ieee80211_tkip_add_iv n1 = ieee80211_tkip_add_iv n2).
  { destruct Hn as (_ & _ & _ & E2 & _ & _ & _ & E6 & E7); unfold ieee80211_tkip_add_iv; by rewrite E2, E6, E7. }
  rewrite Ea; set (skb := _ ++ ieee80211_tkip_add_iv n2 ++ _); unfold ieee80211_tkip_encrypt_data.
  rewrite !get_p2k_ok, (same_p2k_direct n1 n2) by (done || apply Hn).
  pose proof (same_compute n1 n2 (skb_iv32 skb) Hn).
  repeat case_match; simplify_eq; done.
Qed.

(** Uses of the transmit context. *)
Inductive tx_op := GetP1k (v : Z) | GetP2k (skb : list Z) | Send (tfm : bool) (s : tx_skb).

Definition run_op (key : tkip_key) (op : tx_op) : tkip_key * list Z :=
  match op with
  | GetP1k v => ieee80211_get_tkip_p1k_iv key v
  | GetP2k skb => ieee80211_get_tkip_p2k key skb
  | Send tfm s => let '(_, key, d) := tkip_encrypt_skb crc32_le tfm key s in (key, d)
  end.

Fixpoint run (key : tkip_key) (ops : list tx_op) : list (list Z) :=
  match ops with
  | [] => []
  | op :: ops => let '(key, o) := run_op key op in o :: run key ops
  end.

(** The same uses, each with an empty cache. *)
Fixpoint run_uncached (key : tkip_key) (ops : list tx_op) : list (list Z) :=
  match ops with
  | [] => []
  | op :: ops => let '(key, o) := run_op (flush key) op in o :: run_uncached key ops
  end.

Lemma same_run_op k1 k2 op : same_key k1 k2 ->
  same_key (run_op k1 op).1 (run_op k2 op).1 /\ (run_op k1 op).2 = (run_op k2 op).2.
Proof.
  intros Hs; pose proof Hs as (H1 & H2 & E1 & _ & E3 & _); destruct op as [v|skb|tfm s]; cbn [run_op].
  - unfold ieee80211_get_tkip_p1k_iv; cbn [fst snd]; split; [by apply same_compute|].
    by rewrite (proj1 (compute_p1k_ok k1 v H1)), (proj1 (compute_p1k_ok k2 v H2)); unfold tk; rewrite E1, E3.
  - rewrite !get_p2k_ok by done; split; [by apply same_compute | by apply same_p2k_direct].
  - pose proof (same_encrypt tfm k1 k2 s Hs) as E; cbn zeta in E.
    destruct (tkip_encrypt_skb _ tfm k1 s) as [[? ?] ?], (tkip_encrypt_skb _ tfm k2 s) as [[? ?] ?]; cbn in *; intuition.
Qed.

Lemma same_run k1 k2 ops : same_key k1 k2 -> run k1 ops = run_uncached k2 ops.
Proof.
  revert k1 k2; induction ops as [|op ops IH]; intros k1 k2 Hs; [done|]; cbn.
  assert (Hf : same_key k1 (flush k2)) by (eapply same_key_trans; [exact Hs|]; apply same_key_flush, Hs).
  destruct (same_run_op k1 (flush k2) op Hf) as [Hn Eo].
  destruct (run_op k1 op) as [k1' o1], (run_op (flush k2) op) as [k2' o2]; cbn in *; subst; by rewrite (IH k1' k2').
Qed.

(** ** Lemmas: one frame from sender to receiver *)

Lemma iv_fields v16 idx v32 t : is_u16 v16 -> is_u32 v32 -> 0 <= idx < 4 ->
  let b := write_tkip_iv v16 ++ [u8 (Z.lor (Z.shiftl idx 6) (Z.shiftl 1 5))] ++ put_le32 v32 ++ t in
  Z.lor (Z.shiftl (b.[0]) 8) (b.[2]) = v16 /\ get_le32 b 4 = v32 /\
  (Z.land (b.[3]) (Z.shiftl 1 5) =? 0) = false /\ Z.shiftr (b.[3]) 6 = idx.
Proof.
  intros H16 H32 Hi b; unfold is_uint in H16; change (2 ^ 16) with 65536 in H16.
  assert (B0 : b.[0] = v16 / 256) by (unfold b; cbn; rewrite u8_mod, shiftr8; apply Z.mod_small; arith).
  assert (B2 : b.[2] = v16 mod 256) by (unfold b; cbn [write_tkip_iv app byte_at nth]; apply Wep.land_0xff).
  assert (B3 : b.[3] = idx * 64 + 32).
  { unfold b; cbn [write_tkip_iv app byte_at nth]; assert (idx = 0 \/ idx = 1 \/ idx = 2 \/ idx = 3) as [->|[->|[->| ->]]] by lia; done. }
  rewrite B0, B2, B3; split_and!.
  - rewrite Z.lor_comm, lor_shiftl_add; [arith | lia|]; unfold is_uint; change (2 ^ 8) with 256; apply Z.mod_pos_bound; lia.
  - etransitivity; [|exact (get_put_le32 v32 H32)]; reflexivity.
  - assert (idx = 0 \/ idx = 1 \/ idx = 2 \/ idx = 3) as [->|[->|[->| ->]]] by lia; done.
  - rewrite Z.shiftr_div_pow2 by lia; change (2 ^ 6) with 64; arith.
Qed.

Lemma next_iv_range c : is_u32 (iv32 c) -> is_u16 (iv16 (next_iv c)) /\ is_u32 (iv32 (next_iv c)).
Proof. intros Hi; unfold next_iv; cbn; case_match; kint. Qed.

(** What the sender produces in software. *)
Lemma tkip_send key hd tl h payload : data_header h -> tx_cache_ok key -> 8 <= hd -> 4 <= tl ->
  is_u32 (iv32 (tx key)) -> 0 <= conf_keyidx key < 4 ->
  let n := set_tx key (next_iv (tx key)) in
  exists c, tkip_encrypt_skb crc32_le true key (TxSkb None hd tl (h ++ payload)) =
      (0, ieee80211_compute_tkip_p1k n (iv32 (tx n)), h ++ ieee80211_tkip_add_iv n ++ c) /\
    length c = (length payload + 4)%nat /\
    Wep.ieee80211_wep_decrypt_data crc32_le true
      (tkip_mixing_phase2 (tk key) (phase1 (tk key) (vif_addr key) (iv32 (tx n))) (iv16 (tx n))) c (length payload) =
      (0, payload ++ Wep.icv_of crc32_le payload).
Proof.
  intros Hh Hc Hhd Htl H32 Hi n; destruct (data_header_fields h Hh) as (H24 & _); destruct Hh as [_ Hl].
  destruct (next_iv_range (tx key) H32) as [R16 R32].
  unfold tkip_encrypt_skb; cbn [tx_data tx_hw headroom tailroom]; rewrite frame_control_header by lia; cbn zeta.
  rewrite (proj2 (Z.ltb_ge tl (Z.of_nat TKIP_ICV_LEN)) Htl), (proj2 (Z.ltb_ge hd (Z.of_nat TKIP_IV_LEN)) Hhd); cbn [orb].
  rewrite <- Hl, Nat2Z.id, take_app_length, drop_app_length; fold n.
  set (skb := h ++ ieee80211_tkip_add_iv n ++ payload); unfold ieee80211_tkip_encrypt_data.
  rewrite get_p2k_ok by (exact Hc).
  destruct (iv_fields (iv16 (tx n)) (conf_keyidx key) (iv32 (tx n)) payload R16 R32 Hi) as (F16 & F32 & _ & _).
  assert (Es : drop (Z.to_nat (ieee80211_hdrlen (frame_control skb))) skb = ieee80211_tkip_add_iv n ++ payload)
    by (unfold skb; rewrite frame_control_header by lia; by rewrite <- Hl, Nat2Z.id, drop_app_length).
  assert (E32 : skb_iv32 skb = iv32 (tx n)) by (unfold skb_iv32; rewrite Es; exact F32).
  assert (E16 : skb_iv16 skb = iv16 (tx n)).
  { unfold skb_iv16; rewrite Es, Z.lor_comm; cbn zeta; etransitivity; [apply (f_equal u16); exact F16 | by apply wrap_small]. }
  unfold p2k_direct; rewrite E32, E16.
  destruct (Wep.decrypt_encrypt_data crc32_le (tkip_mixing_phase2 (tk n) (phase1 (tk n) (vif_addr n) (iv32 (tx n)))
    (iv16 (tx n))) payload) as (c & -> & Lc & Ed); exists c; done.
Qed.

(** A receive context's cached key is that of its counter. *)
Definition rx_cache_ok (key : tkip_key) (ta : list Z) (q : nat) : Prop :=
  state (rx_ctx key q) <> TKIP_STATE_NOT_INIT -> p1k (rx_ctx key q) = phase1 (tk key) ta (iv32 (rx_ctx key q)).

Lemma rx_phase1_ok key ta q v : rx_cache_ok key ta q ->
  let c := rx_phase1 key ta q v in
  p1k c = phase1 (tk key) ta v /\ state c <> TKIP_STATE_NOT_INIT /\
  iv32 c = iv32 (rx_ctx key q) /\ iv16 c = iv16 (rx_ctx key q).
Proof.
  intros Hc; unfold rx_phase1; case_bool_decide as E; [done|]; cbn [orb].
  destruct (Z.eqb_spec (iv32 (rx_ctx key q)) v) as [<-|]; [|done]; split_and!; auto.
Qed.

(** The accepting run of the payload routine. *)
Lemma decrypt_data_accepts key ta q hwu v16 v32 c data :
  is_u16 v16 -> is_u32 v32 -> 0 <= conf_keyidx key < 4 -> rx_cache_ok key ta q ->
  replayed (rx_ctx key q) v32 v16 = false -> length c = (length data + 4)%nat ->
  Wep.ieee80211_wep_decrypt_data crc32_le true (tkip_mixing_phase2 (tk key) (phase1 (tk key) ta v32) v16) c (length data) =
    (0, data ++ Wep.icv_of crc32_le data) ->
  let ivb := write_tkip_iv v16 ++ [u8 (Z.lor (Z.shiftl (conf_keyidx key) 6) (Z.shiftl 1 5))] ++ put_le32 v32 in
  exists c' upd, ieee80211_tkip_decrypt_data crc32_le true key (ivb ++ c) ta false q hwu =
      Dec 0 (set_rx key q c') (ivb ++ data ++ Wep.icv_of crc32_le data) (Some (v32, v16)) upd /\
    state c' <> TKIP_STATE_NOT_INIT /\ p1k c' = phase1 (tk key) ta v32.
Proof.
  intros H16 H32 Hi Hc Hr Lc Ed ivb; assert (Li : length ivb = 8%nat) by reflexivity.
  destruct (iv_fields v16 (conf_keyidx key) v32 c H16 H32 Hi) as (F16 & F32 & Fe & Fi).
  replace (write_tkip_iv v16 ++ _ ++ _ ++ c) with (ivb ++ c) in F16, F32, Fe, Fi by (unfold ivb; by rewrite <- !app_assoc).
  destruct (rx_phase1_ok key ta q v32 Hc) as (P1 & P2 & _).
  unfold ieee80211_tkip_decrypt_data; rewrite bool_decide_false by (rewrite length_app; lia); cbn zeta.
  rewrite F16, F32, Fe, Fi, Z.eqb_refl, Hr; cbn [negb].
  set (c1 := rx_phase1 key ta q v32) in *; set (up := hwu && _).
  set (c2 := if up then _ else _); assert (Ec : p1k c2 = p1k c1) by (unfold c2; by destruct up).
  rewrite Ec, P1, drop_app_length' by lia.
  replace (length (ivb ++ c) - 12)%nat with (length data) by (rewrite length_app; lia).
  rewrite Ed, take_app_length' by lia; cbn [Z.eqb TKIP_DECRYPT_OK]; eexists c2, _; split; [done|].
  split; [unfold c2; by destruct up | congruence].
Qed.

Lemma decrypt_frame_accepts key ta q hwu h v16 v32 c data :
  data_header h -> Z.of_nat (length data) < 2 ^ 31 ->
  is_u16 v16 -> is_u32 v32 -> 0 <= conf_keyidx key < 4 -> rx_cache_ok key ta q ->
  replayed (rx_ctx key q) v32 v16 = false -> length c = (length data + 4)%nat ->
  Wep.ieee80211_wep_decrypt_data crc32_le true (tkip_mixing_phase2 (tk key) (phase1 (tk key) ta v32) v16) c (length data) =
    (0, data ++ Wep.icv_of crc32_le data) ->
  let ivb := write_tkip_iv v16 ++ [u8 (Z.lor (Z.shiftl (conf_keyidx key) 6) (Z.shiftl 1 5))] ++ put_le32 v32 in
  exists c', ieee80211_crypto_tkip_decrypt crc32_le true key q (Some ta) false hwu true (h ++ ivb ++ c) =
      (RX_CONTINUE, set_rx key q c', h ++ data, Some (v32, v16)) /\
    state c' <> TKIP_STATE_NOT_INIT /\ p1k c' = phase1 (tk key) ta v32.
Proof.
  intros Hh Hs H16 H32 Hi Hc Hr Lc Ed ivb; assert (Li : length ivb = 8%nat) by reflexivity.
  destruct (data_header_fields h Hh) as (H24 & _); destruct Hh as [Hd Hl].
  destruct (decrypt_data_accepts key ta q hwu v16 v32 c data H16 H32 Hi Hc Hr Lc Ed) as (c' & upd & E & HP).
  exists c'; split; [|done]; unfold ieee80211_crypto_tkip_decrypt; rewrite frame_control_header by lia.
  rewrite Hd, <- Hl, Nat2Z.id; cbn [negb]; rewrite u32_mod, Z.mod_small by (rewrite !length_app; lia).
  rewrite (proj2 (Z.ltb_ge _ _)) by (rewrite !length_app; lia).
  rewrite drop_app_length, take_app_length; fold ivb in E; rewrite E; cbn [d_res d_key d_payload d_iv Z.eqb TKIP_DECRYPT_OK negb].
  set (icv := Wep.icv_of crc32_le data); assert (Lv : length icv = 4%nat) by reflexivity.
  replace (take (length (h ++ ivb ++ data ++ icv) - TKIP_ICV_LEN) (h ++ ivb ++ data ++ icv)) with (h ++ ivb ++ data).
  - rewrite take_app_length, app_assoc, drop_app_length' by (rewrite length_app; unfold TKIP_IV_LEN; lia); done.
  - rewrite !app_assoc, take_app_length'; [done|]; rewrite !length_app; unfold TKIP_ICV_LEN; lia.
Qed.

(** ** Lemmas: the MIC does not cover the Protected bit *)

Lemma get_le16_ext a b i : a.[i] = b.[i] -> a.[i + 1] = b.[i + 1] -> get_le16 a i = get_le16 b i.
Proof. unfold get_le16; congruence. Qed.

Lemma get_le32_ext a b i : (forall j, (j < 4)%nat -> a.[i + j] = b.[i + j]) -> get_le32 a i = get_le32 b i.
Proof.
  intros E; unfold get_le32; rewrite !E by lia; pose proof (E 0%nat ltac:(lia)) as E0; rewrite Nat.add_0_r in E0; by rewrite E0.
Qed.

Lemma michael_hdr_ext k a b n : (forall i, (2 <= i < n)%nat -> a.[i] = b.[i]) ->
  ieee80211_get_DA a = ieee80211_get_DA b -> ieee80211_get_SA a = ieee80211_get_SA b ->
  ieee80211_is_data_qos (frame_control a) = ieee80211_is_data_qos (frame_control b) ->
  ieee80211_get_qos_ctl a = ieee80211_get_qos_ctl b ->
  (2 <= ieee80211_get_DA b)%nat -> (ieee80211_get_DA b + 6 <= n)%nat ->
  (2 <= ieee80211_get_SA b)%nat -> (ieee80211_get_SA b + 6 <= n)%nat ->
  (ieee80211_is_data_qos (frame_control b) = true -> (2 <= ieee80211_get_qos_ctl b < n)%nat) ->
  Michael.michael_mic_hdr k a = Michael.michael_mic_hdr k b.
Proof.
  intros Eb Ed Es Eq Ec D1 D2 S1 S2 Q; unfold Michael.michael_mic_hdr; rewrite Ed, Es, Eq, Ec.
  rewrite (get_le32_ext a b (ieee80211_get_DA b)), (get_le32_ext a b (ieee80211_get_SA b + 2)),
    (get_le16_ext a b (ieee80211_get_DA b + 4)), (get_le16_ext a b (ieee80211_get_SA b))
    by (intros; apply Eb; lia).
  destruct (ieee80211_is_data_qos (frame_control b)); [by rewrite Eb by auto | done].
Qed.

Lemma michael_hdr_protected k h t t' : bytes h -> data_header h ->
  Michael.michael_mic_hdr k (set_protected h ++ t') = Michael.michael_mic_hdr k (h ++ t).
Proof.
  intros Hb Hh; destruct (data_header_fields h Hh) as (H24 & Ha4 & Hq).
  assert (Ef : frame_control (h ++ t) = frame_control h) by (by apply frame_control_header; lia).
  pose proof (fc_same_protected (frame_control h)) as Hsame.
  destruct (fc_same_preds _ _ Hsame) as (_ & _ & Eqos & Ea4 & _).
  assert (Eds : ieee80211_has_fromds (Z.lor (frame_control h) IEEE80211_FCTL_PROTECTED) = ieee80211_has_fromds (frame_control h))
    by (unfold ieee80211_has_fromds; by rewrite (fc_masked _ _ _ Hsame)).
  assert (Ets : ieee80211_has_tods (Z.lor (frame_control h) IEEE80211_FCTL_PROTECTED) = ieee80211_has_tods (frame_control h))
    by (unfold ieee80211_has_tods; by rewrite (fc_masked _ _ _ Hsame)).
  assert (Eb : forall i, (2 <= i < length h)%nat -> (set_protected h ++ t').[i] = (h ++ t).[i]).
  { intros i Hi; rewrite !byte_at_header by (rewrite ?length_set_protected; lia); unfold set_protected.
    replace i with (2 + (i - 2))%nat by lia; rewrite byte_at_app_r by done; by rewrite byte_at_drop. }
  apply (michael_hdr_ext k _ _ (length h)); try done;
    unfold ieee80211_get_DA, ieee80211_get_SA, ieee80211_get_qos_ctl in *;
    rewrite ?frame_control_set_protected, ?Ef, ?Eqos, ?Ea4, ?Eds, ?Ets by done; try done;
    unfold off_addr1, off_addr2, off_addr3, off_addr4; repeat case_match; try specialize (Ha4 eq_refl); try lia.
  all: intros; specialize (Hq ltac:(done)); lia.
Qed.

Lemma michael_mic_same k1 k2 h t t' d : bytes h -> data_header h -> take 8 k1 = take 8 k2 ->
  Michael.michael_mic k1 (set_protected h ++ t') d = Michael.michael_mic k2 (h ++ t) d.
Proof.
  intros Hb Hh Ek; assert (Ei : forall i, (i < 8)%nat -> k1.[i] = k2.[i]).
  { intros i Hi; by rewrite <- (byte_at_take 8 k1), Ek, byte_at_take. }
  unfold Michael.michael_mic; rewrite (michael_hdr_protected k1 h t t' Hb Hh); unfold Michael.michael_mic_hdr.
  rewrite (get_le32_ext k1 k2 0), (get_le32_ext k1 k2 4) by (intros; apply Ei; lia); done.
Qed.

Lemma length_michael_mic k h d : length (Michael.michael_mic k h d) = 8%nat.
Proof. reflexivity. Qed.

(** The keys of sender and receiver: one encryption key, and the sender's
    transmit MIC key is the receiver's receive MIC key. *)
Definition keys_match (sk rk : tkip_key) : Prop :=
  take 16 (conf_key rk) = take 16 (conf_key sk) /\
  take 8 (drop NL80211_TKIP_DATA_OFFSET_RX_MIC_KEY (conf_key rk)) =
    take 8 (drop NL80211_TKIP_DATA_OFFSET_TX_MIC_KEY (conf_key sk)) /\
  conf_keyidx rk = conf_keyidx sk.

Lemma mic_add_software key f hd tl h payload : data_header h -> ieee80211_is_data_present (frame_control h) = true ->
  mic_failure_test f = false -> 8 <= hd -> 12 <= tl ->
  ieee80211_tx_h_michael_mic_add (Some key) f (TxSkb None hd tl (h ++ payload)) =
    (TX_CONTINUE, TxSkb None hd (tl - 8) (h ++ payload ++
       Michael.michael_mic (drop NL80211_TKIP_DATA_OFFSET_TX_MIC_KEY (conf_key key)) (h ++ payload) payload)).
Proof.
  intros Hh Hp Hf Hhd Htl; destruct (data_header_fields h Hh) as (H24 & _); destruct Hh as [_ Hl].
  unfold ieee80211_tx_h_michael_mic_add; cbn [tx_data tx_hw headroom tailroom]; rewrite Hf.
  rewrite frame_control_header, Hp, <- Hl, Nat2Z.id by lia; cbn [negb orb].
  rewrite !bool_decide_false by (rewrite length_app; lia); cbn [orb andb].
  change (Z.of_nat MICHAEL_MIC_LEN + Z.of_nat TKIP_ICV_LEN) with 12.
  rewrite (proj2 (Z.ltb_ge tl 12) Htl), (proj2 (Z.ltb_ge hd (Z.of_nat TKIP_IV_LEN)) Hhd), drop_app_length; cbn [orb].
  by rewrite <- app_assoc.
Qed.

Lemma mic_verify_accepts key ap q iv h payload mic : data_header h -> ieee80211_is_data_present (frame_control h) = true ->
  ap && negb (conf_keyidx key =? 0) = false -> length mic = MICHAEL_MIC_LEN ->
  Michael.michael_mic (drop NL80211_TKIP_DATA_OFFSET_RX_MIC_KEY (conf_key key)) (h ++ payload ++ mic) payload = mic ->
  ieee80211_rx_h_michael_mic_verify (Some (key, true)) (MicRx false false false true ap true) q iv (h ++ payload ++ mic) =
    (RX_CONTINUE, Some (update_iv key q iv, true), h ++ payload, None).
Proof.
  intros Hh Hp Hap Lm Em; destruct (data_header_fields h Hh) as (H24 & _); destruct Hh as [_ Hl].
  unfold ieee80211_rx_h_michael_mic_verify; cbn [mmic_stripped iv_stripped mmic_error rx_decrypted vif_ap mic_linear].
  rewrite frame_control_header, Hp, Hap, <- Hl, Nat2Z.id by lia; cbn [negb orb].
  unfold MICHAEL_MIC_LEN in *; rewrite bool_decide_false by (rewrite !length_app; lia).
  replace (length (h ++ payload ++ mic) - length h - 8)%nat with (length payload) by (rewrite !length_app; lia).
  rewrite (Wep.sub_at_end h payload mic) by lia; rewrite take_ge, Em by lia.
  unfold sub; rewrite app_assoc, drop_app_length' by (by rewrite length_app); rewrite take_ge, memcmp_refl by lia.
  rewrite take_app_length'; [done|]; rewrite !length_app; lia.
Qed.

Lemma rx_ctx_set key q c q' : (q < length (rx key))%nat ->
  rx_ctx (set_rx key q c) q' = if decide (q = q') then c else rx_ctx key q'.
Proof.
  intros Hq; unfold rx_ctx, set_rx; cbn [rx]; rewrite !nth_lookup; case_decide as E.
  - subst; by rewrite list_lookup_insert_eq.
  - by rewrite list_lookup_insert_ne.
Qed.

Lemma rx_ctx_update key q iv q' : (q < length (rx key))%nat ->
  rx_ctx (update_iv key q iv) q' =
    if decide (q = q') then Ctx iv.1 iv.2 (p1k (rx_ctx key q)) (p1k_iv32 (rx_ctx key q)) (state (rx_ctx key q))
    else rx_ctx key q'.
Proof. intros Hq; unfold update_iv; by rewrite rx_ctx_set. Qed.

End TransmitProperties.

(** ** Properties *)

Section Properties.
Context `{StreamCipher}.
Context (crc32_le : Z -> list Z -> Z).

(** The phase-1 cache of the transmit context is transparent: any sequence
    of key requests by drivers and of frame transmissions gives the same keys
    and frames as with the cache emptied before each of them, and a request
    for the phase-2 key is answered with the key mixed for the IV of its own
    frame. *)
Theorem tkip_tx_cache_transparent key ops skb : tx_cache_ok key ->
  run crc32_le key ops = run_uncached crc32_le key ops /\
  (ieee80211_get_tkip_p2k key skb).2 = p2k_direct key skb.
Proof.
  intros Hc; split; [|by rewrite get_p2k_ok].
  transitivity (run_uncached crc32_le (flush key) ops); [by apply same_run, same_key_flush|].
  by destruct ops.
Qed.

(** C25: A TKIP data frame arrives as it was sent.  The frame gets a Michael MIC
    and is encrypted in software; the receiver with the matching key decrypts
    it, verifies the MIC and returns the original with the Protected bit; the
    sender's sequence counter becomes the receiver's, and both phase-1 caches
    are sound again for the next frame. *)
Theorem tkip_roundtrip sk rk q hd tl h payload f ap hwu :
  data_header h -> bytes h -> ieee80211_is_data_present (frame_control h) = true ->
  tx_cache_ok sk -> rx_cache_ok rk (vif_addr sk) q -> (q < length (rx rk))%nat -> keys_match sk rk ->
  0 <= conf_keyidx sk < 4 -> is_u32 (iv32 (tx sk)) ->
  replayed (rx_ctx rk q) (iv32 (next_iv (tx sk))) (iv16 (next_iv (tx sk))) = false ->
  8 <= hd -> 12 <= tl -> Z.of_nat (length payload) < 2 ^ 16 -> mic_failure_test f = false ->
  ap && negb (conf_keyidx sk =? 0) = false ->
  exists s sk' d rk1 frame iv rk2,
    ieee80211_tx_h_michael_mic_add (Some sk) f (TxSkb None hd tl (h ++ payload)) = (TX_CONTINUE, s) /\
    ieee80211_crypto_tkip_encrypt crc32_le true sk [s] = (TX_CONTINUE, sk', [d]) /\
    ieee80211_crypto_tkip_decrypt crc32_le true rk q (Some (vif_addr sk)) false hwu true d =
      (RX_CONTINUE, rk1, frame, Some iv) /\
    ieee80211_rx_h_michael_mic_verify (Some (rk1, true)) (MicRx false false false true ap true) q iv frame =
      (RX_CONTINUE, Some (rk2, true), set_protected h ++ payload, None) /\
    (iv32 (rx_ctx rk2 q), iv16 (rx_ctx rk2 q)) = (iv32 (tx sk'), iv16 (tx sk')) /\
    rx_cache_ok rk2 (vif_addr sk) q /\ tx_cache_ok sk'.
Proof.
  intros Hh Hb Hp Hct Hcr Hq (K16 & Kmic & Kidx) Hi H32 Hr Hhd Htl Hs Hf Hap.
  destruct (data_header_fields h Hh) as (H24 & _); destruct (next_iv_range (tx sk) H32) as [R16 R32].
  pose proof (data_header_protected h Hb Hh) as Hhp; pose proof (fc_same_protected (frame_control h)) as Hsame.
  rewrite (mic_add_software sk f hd tl h payload) by done; set (mic := Michael.michael_mic _ _ _).
  assert (Lm : length mic = 8%nat) by reflexivity.
  destruct (tkip_send crc32_le sk hd (tl - 8) (set_protected h) (payload ++ mic) Hhp Hct Hhd ltac:(lia) H32 Hi)
    as (c & Es & Lc & Ed).
  set (n := set_tx sk (next_iv (tx sk))) in *.
  rewrite (phase1_key (tk sk) (tk rk)), (phase2_key (tk sk) (tk rk)) in Ed by done.
  destruct (decrypt_frame_accepts crc32_le rk (vif_addr sk) q hwu (set_protected h) (iv16 (tx n)) (iv32 (tx n)) c
    (payload ++ mic)) as (c' & Er & Hst & Hp1); try done; [rewrite length_app; lia | by rewrite Kidx |].
  eexists _, _, _, _, _, _, _; split; [reflexivity|]; split.
  { unfold ieee80211_crypto_tkip_encrypt; cbn [ieee80211_tx_set_protected fmap list_fmap protect_walk protected_skb tx_data tx_hw headroom tailroom].
    unfold protected_skb; cbn [tx_data tx_hw headroom tailroom]; rewrite set_protected_app, Es by lia; reflexivity. }
  unfold ieee80211_tkip_add_iv; change (conf_keyidx n) with (conf_keyidx sk); rewrite <- Kidx.
  split; [exact Er|]; split.
  { apply mic_verify_accepts; try done.
    - pose proof (frame_control_set_protected h [] Hb) as E; rewrite app_nil_r in E; rewrite E.
      unfold ieee80211_is_data_present; by rewrite (fc_masked _ _ _ Hsame).
    - cbn; by rewrite Kidx.
    - by apply michael_mic_same. }
  destruct (compute_p1k_ok n (iv32 (tx n)) Hct) as (_ & C & _ & _ & E32 & E16 & _).
  assert (Ex : rx_ctx (update_iv (set_rx rk q c') q (iv32 (tx n), iv16 (tx n))) q =
    Ctx (iv32 (tx n)) (iv16 (tx n)) (p1k c') (p1k_iv32 c') (state c')).
  { rewrite rx_ctx_update, rx_ctx_set by (cbn; rewrite ?length_insert; done); by rewrite !decide_True. }
  unfold rx_cache_ok; rewrite Ex, E32, E16; cbn [iv32 iv16 p1k]; split_and!; [done | by intros _ | done].
Qed.

(** ** Replay protection *)

(** A frame that was not fragmented, with what the device reports of it. *)
Record rx_input := Rx { in_queue : nat; in_sta : option (list Z); in_decrypted : bool; in_hw_update : bool;
  in_linear : bool; in_flags : mic_rx_flags; in_skb : list Z }.

(** Decryption and, for a frame it passes, MIC verification; the frame is
    marked as decrypted in between.  The result has the counter and the frame
    that decryption passed on. *)
Definition receive (key : tkip_key) (i : rx_input) : rx_result * tkip_key * option (Z * Z * list Z) :=
  let '(r, key, frame, iv) := ieee80211_crypto_tkip_decrypt crc32_le true key (in_queue i) (in_sta i) (in_decrypted i)
    (in_hw_update i) (in_linear i) (in_skb i) in
  match r, iv with
  | RX_CONTINUE, Some iv =>
      let f := in_flags i in
      match ieee80211_rx_h_michael_mic_verify (Some (key, true))
        (MicRx (mmic_stripped f) (iv_stripped f) (mmic_error f) true (vif_ap f) (mic_linear f)) (in_queue i) iv frame with
      | (r, Some (key, _), _, _) => (r, key, Some (iv, frame))
      | (r, None, _, _) => (r, key, Some (iv, frame))
      end
  | _, _ => (r, key, None)
  end.

(** The 48-bit sequence counter. *)
Definition tsc (iv : Z * Z) : Z := iv.1 * 65536 + iv.2.

(** The counter a queue checks against; none before the first phase 1. *)
Definition counter (key : tkip_key) (q : nat) : Z :=
  let c := rx_ctx key q in
  if bool_decide (state c = TKIP_STATE_NOT_INIT) then -1 else tsc (iv32 c, iv16 c).

Definition ctx_ok (c : tkip_ctx) : Prop := 0 <= iv32 c /\ is_u16 (iv16 c).
Definition key_inv (n : nat) (key : tkip_key) : Prop := length (rx key) = n /\ Forall ctx_ok (rx key).
Definition input_ok (n : nat) (i : rx_input) : Prop := bytes (in_skb i) /\ (in_queue i < n)%nat.

(** One received frame as queue [q] sees it: accepted when it carries data, its
    IV was not stripped by the device and the handlers pass it on. *)
Definition tkip_rx_step (q : nat) (key : tkip_key) (i : rx_input) : tkip_key * option Z :=
  match receive key i with
  | (RX_CONTINUE, key', Some (iv, frame)) =>
      (key', if bool_decide (in_queue i = q) && ieee80211_is_data_present (frame_control frame) &&
                negb (iv_stripped (in_flags i)) then Some (tsc iv) else None)
  | (_, key', _) => (key', None)
  end.

Lemma rx_phase1_keeps key ta q v : let c := rx_phase1 key ta q v in
  iv32 c = iv32 (rx_ctx key q) /\ iv16 c = iv16 (rx_ctx key q) /\ state c <> TKIP_STATE_NOT_INIT.
Proof. unfold rx_phase1; case_bool_decide; cbn [orb]; [done|]; by case_match. Qed.

(** Decryption keeps the counters of the key, and passes on only counters that
    are no replay. *)
Lemma decrypt_ctx key q sta dec hwu lin skb r key1 frame iv : bytes skb ->
  ieee80211_crypto_tkip_decrypt crc32_le true key q sta dec hwu lin skb = (r, key1, frame, iv) ->
  (key1 = key /\ iv = None) \/
  exists c, key1 = set_rx key q c /\ iv32 c = iv32 (rx_ctx key q) /\ iv16 c = iv16 (rx_ctx key q) /\
    state c <> TKIP_STATE_NOT_INIT /\
    (forall v, iv = Some v -> replayed (rx_ctx key q) v.1 v.2 = false /\ 0 <= v.1 /\ is_u16 v.2).
Proof.
  intros Hb; unfold ieee80211_crypto_tkip_decrypt, ieee80211_tkip_decrypt_data; cbn zeta.
  set (pl := drop _ skb); assert (Hpl : bytes pl) by (by apply Forall_drop).
  set (v16 := Z.lor (Z.shiftl (pl.[0]) 8) (pl.[2])); set (v32 := get_le32 pl 4).
  assert (H16 : is_u16 v16) by (subst v16; in_width).
  assert (H32 : 0 <= v32) by (apply (get_le32_range pl 4 Hpl)).
  intros E; repeat (case_match; simplify_eq/=; try by left); right.
  all: eexists; split; [reflexivity|]; cbn [iv32 iv16 state set_state].
  all: split_and!; try apply rx_phase1_keeps; try done; by intros v [= <-].
Qed.

(** Verification commits the counter of the frames it passes on. *)
Lemma verify_ctx key f q iv frame r key2 b l e : rx_decrypted f = true ->
  ieee80211_rx_h_michael_mic_verify (Some (key, true)) f q iv frame = (r, Some (key2, b), l, e) ->
  (rx key2 = rx key /\
    (r = RX_CONTINUE -> ieee80211_is_data_present (frame_control frame) && negb (iv_stripped f) = false)) \/
  key2 = update_iv key q iv.
Proof.
  intros Hd; unfold ieee80211_rx_h_michael_mic_verify; rewrite Hd; cbn beta iota zeta.
  set (m := Michael.michael_mic _ _ _); clearbody m; destruct (ieee80211_is_data_present _), (iv_stripped f); cbn [negb andb orb]; rewrite ?orb_true_r, ?orb_false_r;
    intros E; repeat (case_match; simplify_eq); simplify_eq; naive_solver.
Qed.

Lemma verify_key key b f q iv frame : exists r key2 b2 l e,
  ieee80211_rx_h_michael_mic_verify (Some (key, b)) f q iv frame = (r, Some (key2, b2), l, e).
Proof.
  unfold ieee80211_rx_h_michael_mic_verify; cbn zeta; set (m := Michael.michael_mic _ _ _); clearbody m.
  repeat case_match; eauto 10.
Qed.

Lemma rx_ctx_ok key q : Forall ctx_ok (rx key) -> (q < length (rx key))%nat -> ctx_ok (rx_ctx key q).
Proof. intros Hk Hq; rewrite Forall_nth in Hk; by apply Hk. Qed.

Lemma key_inv_set n key q c : key_inv n key -> (q < n)%nat -> iv32 c = iv32 (rx_ctx key q) ->
  iv16 c = iv16 (rx_ctx key q) -> key_inv n (set_rx key q c).
Proof.
  intros [<- Hk] Hq E32 E16; split; [apply length_insert|]; apply Forall_insert; [done|].
  unfold ctx_ok; rewrite E32, E16; by apply rx_ctx_ok.
Qed.

Lemma key_inv_rx n k1 k2 : rx k2 = rx k1 -> key_inv n k1 -> key_inv n k2.
Proof. unfold key_inv; by intros ->. Qed.

Lemma counter_rx k1 k2 q : rx k2 = rx k1 -> counter k2 q = counter k1 q.
Proof. unfold counter, rx_ctx; by intros ->. Qed.

Lemma counter_commit key q iv q' : (q < length (rx key))%nat -> state (rx_ctx key q) <> TKIP_STATE_NOT_INIT ->
  counter (update_iv key q iv) q' = if decide (q = q') then tsc iv else counter key q'.
Proof.
  intros Hq Hs; unfold counter; rewrite rx_ctx_update by done; case_decide; [|done]; cbn [state].
  by rewrite bool_decide_false; destruct iv.
Qed.

(** A counter that is no replay is above that of the queue. *)
Lemma fresh_above key q v : ctx_ok (rx_ctx key q) -> replayed (rx_ctx key q) v.1 v.2 = false -> 0 <= v.1 -> is_u16 v.2 ->
  counter key q < tsc v.
Proof.
  intros [H1 H2] Hr Hv1 Hv2; unfold counter, replayed, tsc, is_uint in *; change (2 ^ 16) with 65536 in *; cbn [fst snd].
  case_bool_decide; [lia|]; cbn [negb andb] in Hr; apply orb_false_iff in Hr as [R1 R2].
  apply Z.ltb_ge in R1; apply andb_false_iff in R2 as [R2|R2]; [apply Z.eqb_neq in R2 | apply Z.leb_gt in R2]; lia.
Qed.

Lemma counter_step key q c q' : (q < length (rx key))%nat -> iv32 c = iv32 (rx_ctx key q) -> iv16 c = iv16 (rx_ctx key q) ->
  state c <> TKIP_STATE_NOT_INIT -> Forall ctx_ok (rx key) ->
  counter key q' <= counter (set_rx key q c) q'.
Proof.
  intros Hq E32 E16 Hs Hk; unfold counter; rewrite rx_ctx_set by done; case_decide as E; [subst q'|lia].
  rewrite (bool_decide_false (state c = _)) by done; rewrite E32, E16; case_bool_decide; [|lia].
  destruct (rx_ctx_ok key q Hk Hq) as [H1 H2]; unfold tsc, is_uint in *; cbn; lia.
Qed.

#[global] Instance tkip_guard q n : ReplayGuard (tkip_rx_step q) (key_inv n) (input_ok n) (fun k => counter k q).
Proof.
  intros key i Hinv [Hb Hq]; pose proof Hinv as [Hl Hk]; unfold tkip_rx_step, receive.
  destruct (ieee80211_crypto_tkip_decrypt _ _ _ _ _ _ _ _ _) as [[[r key1] frame] iv] eqn:E.
  destruct (decrypt_ctx _ _ _ _ _ _ _ _ _ _ _ Hb E) as [[-> ->] | (c & -> & E32 & E16 & Hs & Hv)].
  { destruct r; cbn; split_and!; done || lia. }
  pose proof (key_inv_set n key _ c Hinv Hq E32 E16) as Hinv1; rewrite <- Hl in Hq.
  pose proof (counter_step key _ c q Hq E32 E16 Hs Hk) as Hmono.
  destruct r; [destruct iv as [v|]| | |]; [|by cbn..].
  destruct (Hv v eq_refl) as (Hr & Hv1 & Hv2).
  pose proof (fresh_above key _ v (rx_ctx_ok key _ Hk Hq) Hr Hv1 Hv2) as Hfresh.
  set (f := MicRx _ _ _ _ _ _); destruct (verify_key (set_rx key (in_queue i) c) true f (in_queue i) v frame)
    as (r & key2 & b & l & e & Ev); rewrite Ev.
  apply verify_ctx in Ev as [[Erx Hnot]| ->]; [..|done].
  - pose proof (key_inv_rx n _ _ Erx Hinv1) as Hinv2; pose proof (counter_rx _ _ q Erx) as Ec.
    destruct r; cbn; [|by rewrite Ec..]; rewrite Ec; split_and!; auto.
    specialize (Hnot eq_refl); unfold f in Hnot; cbn [iv_stripped] in Hnot.
    by rewrite <- andb_assoc, Hnot, andb_false_r.
  - pose proof (counter_commit (set_rx key (in_queue i) c) (in_queue i) v q) as Hcc.
    rewrite rx_ctx_set, decide_True in Hcc by done; cbn [rx set_rx] in Hcc; rewrite length_insert in Hcc.
    specialize (Hcc Hq Hs); assert (Hinv2 : key_inv n (update_iv (set_rx key (in_queue i) c) (in_queue i) v)).
    { destruct Hinv1 as [L1 F1]; split; [unfold update_iv; cbn [rx set_rx]; by rewrite length_insert|].
      apply Forall_insert; done. }
    assert (Hup : counter key q <= counter (update_iv (set_rx key (in_queue i) c) (in_queue i) v) q /\
      (in_queue i = q -> counter key q < tsc v <= counter (update_iv (set_rx key (in_queue i) c) (in_queue i) v) q))
      by (rewrite Hcc; case_decide; subst; split; intros; lia || done).
    destruct Hup as [Hup Hq']; destruct r; cbn [fst snd]; split_and!; auto; [|done..].
    intros m; destruct (bool_decide_reflect (in_queue i = q)) as [Eq|]; cbn [andb]; [|done].
    destruct (_ && _); [|done]; intros Em; simplify_eq; auto.
Qed.

(** C27: No replay under TKIP.  Over any run of unfragmented data frames, the
    48-bit sequence counters of the frames that decryption and MIC
    verification accept on a queue are strictly increasing, whether the
    device or the software decrypts and whatever fails on the way. *)
Theorem tkip_no_replay n key fs q : key_inv n key -> Forall (input_ok n) fs ->
  StronglySorted Z.lt (counter key q :: accepted (tkip_rx_step q) key fs).
Proof. apply (accepted_increasing _ _ _ (fun k => counter k q)). Qed.

(** A forged frame spoils the receiver's phase-1 cache.  A frame that fails
    its ICV, but names the key and a larger IV32, leaves the receive counter
    alone and the phase-1 key of its own IV32 in the context: every genuine
    frame that follows with the IV32 of the counter is decrypted with the key
    of the forged one. *)
Theorem tkip_forged_frame_spoils_cache key ta q hwu forged res key' out iv upd genuine :
  (q < length (rx key))%nat -> state (rx_ctx key q) <> TKIP_STATE_NOT_INIT ->
  ieee80211_tkip_decrypt_data crc32_le true key forged ta false q hwu = Dec res key' out iv upd ->
  (12 <= length forged)%nat -> Z.land (forged.[3]) (Z.shiftl 1 5) <> 0 -> Z.shiftr (forged.[3]) 6 = conf_keyidx key ->
  iv32 (rx_ctx key q) < get_le32 forged 4 -> res <> 0 -> get_le32 genuine 4 = iv32 (rx_ctx key q) ->
  counter key' q = counter key q /\
  p1k (rx_phase1 key' ta q (get_le32 genuine 4)) = phase1 (tk key) ta (get_le32 forged 4).
Proof.
  intros Hq Hs E Hl He Hi Hv Hres Hg; revert E; unfold ieee80211_tkip_decrypt_data; cbn zeta.
  rewrite bool_decide_false by lia; rewrite (proj2 (Z.eqb_neq _ _) He), Hi, Z.eqb_refl; cbn [negb].
  unfold replayed; rewrite bool_decide_false by done; rewrite (proj2 (Z.ltb_ge _ _)), (proj2 (Z.eqb_neq _ _)) by lia; cbn [negb andb orb].
  assert (Ec : rx_phase1 key ta q (get_le32 forged 4) = tkip_mixing_phase1 (tk key) (rx_ctx key q) ta (get_le32 forged 4))
    by (unfold rx_phase1; rewrite (proj2 (Z.eqb_neq _ _)) by lia; by rewrite orb_true_r).
  set (c := rx_phase1 key ta q _) in *; set (up := hwu && _); set (c' := if up then _ else c).
  assert (Hc' : p1k c' = phase1 (tk key) ta (get_le32 forged 4) /\ iv32 c' = iv32 (rx_ctx key q) /\
    iv16 c' = iv16 (rx_ctx key q) /\ state c' <> TKIP_STATE_NOT_INIT) by (unfold c'; rewrite Ec; by destruct up).
  destruct (Wep.ieee80211_wep_decrypt_data _ _ _ _ _) as [r d]; intros [= -> <- _ _ _].
  destruct Hc' as (P & E32 & E16 & Hs'); unfold counter, rx_phase1; rewrite rx_ctx_set, decide_True by done.
  rewrite !bool_decide_false by done; rewrite E32, E16, Hg, Z.eqb_refl; done.
Qed.

End Properties.

(** ** Concrete runs *)

(** The test vector of the standard. *)
Example tkip_test_vector :
  let k := Z.of_nat <$> seq 0 16 in let ta := [0x10; 0x22; 0x33; 0x44; 0x55; 0x66] in
  phase1 k ta 0 = [0x3dd2; 0x016e; 0x76f4; 0x8697; 0xb2e8] /\
  tkip_mixing_phase2 k (phase1 k ta 0) 0 =
    [0x00; 0x20; 0x00; 0x33; 0xea; 0x8d; 0x2f; 0x60; 0xca; 0x6d; 0x13; 0x74; 0x23; 0x4a; 0x66; 0x0b].
Proof. split; reflexivity. Qed.

Definition demo_ta : list Z := [0x02; 0x22; 0x33; 0x44; 0x55; 0x66].
Definition demo_ctx (st : tkip_state) (v32 v16 : Z) (k : list Z) : tkip_ctx := Ctx v32 v16 (phase1 k demo_ta v32) v32 st.
Definition demo_sk : tkip_key :=
  let k := (Z.of_nat <$> seq 0 16) ++ repeat 0xa5 8 ++ repeat 0x5a 8 in
  TKey k 1 demo_ta (Ctx 0 6 (repeat 0 5) 0 TKIP_STATE_NOT_INIT) [] 0.
Definition demo_rk : tkip_key :=
  let k := (Z.of_nat <$> seq 0 16) ++ repeat 0x5a 8 ++ repeat 0xa5 8 in
  TKey k 1 (repeat 9 6) ctx0 (repeat (demo_ctx TKIP_STATE_PHASE1_DONE 0 6 k) 16) 0.
Definition demo_hdr : list Z := [0x88; 0x01; 0; 0] ++ repeat 0x11 6 ++ demo_ta ++ repeat 0x33 6 ++ [0x50; 0; 5; 0].
Definition demo_sent (n : nat) : list Z :=
  let '(_, s) := ieee80211_tx_h_michael_mic_add (Some demo_sk) (MicTx false false false false)
    (TxSkb None 16 16 (demo_hdr ++ repeat 7 n)) in
  let '(_, _, ds) := @ieee80211_crypto_tkip_encrypt Wep.toy_stream Wep.toy_crc32 true demo_sk [s] in concat ds.
Definition demo_flags : mic_rx_flags := MicRx false false false true false true.
Definition demo_input (skb : list Z) : rx_input := Rx 5 (Some demo_ta) false false true demo_flags skb.
(** IV32 = 1, key index 1, garbage behind. *)
Definition demo_forged : list Z := [0; 0x20; 9; 0x60; 1; 0; 0; 0] ++ repeat 0xee 12.

Lemma tkip_tx_cache_transparent_witness :
  let ops := [GetP1k 3; Send true (TxSkb None 16 16 (demo_hdr ++ [1; 2])); GetP1k 0; GetP2k (demo_sent 4)] in
  @run Wep.toy_stream Wep.toy_crc32 demo_sk ops = @run_uncached Wep.toy_stream Wep.toy_crc32 demo_sk ops /\
  (ieee80211_get_tkip_p2k demo_sk (demo_sent 4)).2 = p2k_direct demo_sk (demo_sent 4).
Proof. apply (@tkip_tx_cache_transparent Wep.toy_stream Wep.toy_crc32 demo_sk); intros Hn; by destruct Hn. Defined.

Lemma tkip_no_replay_witness :
  let fs := [demo_input (demo_sent 5); demo_input (demo_sent 5)] in
  accepted (@tkip_rx_step Wep.toy_stream Wep.toy_crc32 5) demo_rk fs = [7] /\
  StronglySorted Z.lt (counter demo_rk 5 :: accepted (@tkip_rx_step Wep.toy_stream Wep.toy_crc32 5) demo_rk fs).
Proof.
  split; [vm_compute; reflexivity|]; apply (@tkip_no_replay Wep.toy_stream Wep.toy_crc32 16 demo_rk); by_eval.
Defined.

Lemma demo_rx_cache : rx_cache_ok demo_rk demo_ta 5.
Proof. intros _; vm_compute; reflexivity. Defined.

Lemma tkip_roundtrip_witness : exists s sk' d rk1 frame iv rk2,
  ieee80211_tx_h_michael_mic_add (Some demo_sk) (MicTx false false false false) (TxSkb None 16 16 (demo_hdr ++ [1; 2; 3])) =
    (TX_CONTINUE, s) /\
  @ieee80211_crypto_tkip_encrypt Wep.toy_stream Wep.toy_crc32 true demo_sk [s] = (TX_CONTINUE, sk', [d]) /\
  @ieee80211_crypto_tkip_decrypt Wep.toy_stream Wep.toy_crc32 true demo_rk 5 (Some demo_ta) false false true d =
    (RX_CONTINUE, rk1, frame, Some iv) /\
  ieee80211_rx_h_michael_mic_verify (Some (rk1, true)) demo_flags 5 iv frame =
    (RX_CONTINUE, Some (rk2, true), set_protected demo_hdr ++ [1; 2; 3], None) /\
  (iv32 (rx_ctx rk2 5), iv16 (rx_ctx rk2 5)) = (iv32 (tx sk'), iv16 (tx sk')) /\
  rx_cache_ok rk2 demo_ta 5 /\ tx_cache_ok sk'.
Proof.
  apply (@tkip_roundtrip Wep.toy_stream Wep.toy_crc32 demo_sk demo_rk 5 16 16 demo_hdr [1; 2; 3]
    (MicTx false false false false) false false);
    [by_eval | by_eval | reflexivity | intros Hn; by destruct Hn | apply demo_rx_cache | by_eval | by_eval | by_eval
     | by_eval | reflexivity | lia | lia | by_eval | reflexivity | reflexivity].
Defined.

(** The genuine frame is accepted, but not behind the forged one. *)
Lemma tkip_forged_frame_spoils_cache_witness :
  let d := @ieee80211_tkip_decrypt_data Wep.toy_stream Wep.toy_crc32 true demo_rk demo_forged demo_ta false 5 false in
  counter (d_key d) 5 = counter demo_rk 5 /\
  p1k (rx_phase1 (d_key d) demo_ta 5 0) = phase1 (tk demo_rk) demo_ta 1 /\
  (ieee80211_crypto_tkip_decrypt (H := Wep.toy_stream) Wep.toy_crc32 true demo_rk 5 (Some demo_ta) false false true (demo_sent 5)).1.1.1 =
    RX_CONTINUE /\
  (ieee80211_crypto_tkip_decrypt (H := Wep.toy_stream) Wep.toy_crc32 true (d_key d) 5 (Some demo_ta) false false true (demo_sent 5)).1.1.1 =
    RX_DROP_UNUSABLE.
Proof.
  cbn zeta; set (d := ieee80211_tkip_decrypt_data _ _ _ _ _ _ _ _).
  assert (G : counter (d_key d) 5 = counter demo_rk 5 /\
    p1k (rx_phase1 (d_key d) demo_ta 5 (get_le32 (repeat 0 8) 4)) = phase1 (tk demo_rk) demo_ta (get_le32 demo_forged 4)).
  { apply (@tkip_forged_frame_spoils_cache Wep.toy_stream Wep.toy_crc32 demo_rk demo_ta 5 false demo_forged (d_res d) (d_key d)
      (d_payload d) (d_iv d) (d_update d) (repeat 0 8));
      [by_eval | discriminate | by destruct d eqn:E; vm_compute | by_eval | discriminate | reflexivity | by_eval
       | by_eval | reflexivity]. }
  destruct G as [G1 G2]; split; [exact G1|]; split; [exact G2|]; split; vm_compute; reflexivity.
Defined.

End Tkip.
