(* ===== verification/Kfifo.v ===== *)
(** * The kernel FIFO

    [compat/kfifo.c]: the ring buffer with free-running 32-bit indices, its
    fixed-size elements, its records with a one- or two-byte length, and the
    copies from and to user space.  [None] is an access outside the buffer of
    the FIFO or of the caller. *)

From S2P Require Import Prelude.

Module Kfifo.

Definition EINVAL : Z := 22.
Definition ENOMEM : Z := 12.
Definition EFAULT : Z := 14.

(** [struct __kfifo]; [data] is [None] for NULL. *)
Record kfifo := Fifo { k_in : Z; k_out : Z; mask : Z; esize : Z; data : option (list Z) }.

Definition set_in (f : kfifo) (n : Z) : kfifo := Fifo n (k_out f) (mask f) (esize f) (data f).
Definition set_out (f : kfifo) (n : Z) : kfifo := Fifo (k_in f) n (mask f) (esize f) (data f).
Definition set_data (f : kfifo) (d : list Z) : kfifo := Fifo (k_in f) (k_out f) (mask f) (esize f) (Some d).

Definition kfifo_unused (f : kfifo) : Z := u32 (mask f + 1 - (k_in f - k_out f)).

Definition is_power_of_2 (n : Z) : bool := negb (n =? 0) && (Z.land n (n - 1) =? 0).
Definition rounddown_pow_of_two (n : Z) : Z := 2 ^ Z.log2 n.

(** [mem] is what [kmalloc] returns for a number of bytes. *)
Definition kfifo_alloc (mem : Z -> option (list Z)) (size es : Z) : kfifo * Z :=
  let size := if is_power_of_2 size then size else rounddown_pow_of_two size in
  if size <? 2 then (Fifo 0 0 0 es None, - EINVAL)
  else match mem (size * es) with
  | None => (Fifo 0 0 0 es None, - ENOMEM)
  | Some d => (Fifo 0 0 (size - 1) es (Some d), 0)
  end.

Definition kfifo_free (f : kfifo) : kfifo := Fifo 0 0 0 0 None.

Definition kfifo_init (buffer : list Z) (size es : Z) : kfifo * Z :=
  let size := u32 (size / es) in
  let size := if is_power_of_2 size then size else rounddown_pow_of_two size in
  if size <? 2 then (Fifo 0 0 0 es (Some buffer), - EINVAL)
  else (Fifo 0 0 (size - 1) es (Some buffer), 0).

(** ** Copies *)

(** [memcpy(mem + off, src, length src)]. *)
Definition write_mem (mem : list Z) (off : nat) (src : list Z) : option (list Z) :=
  if bool_decide (off + length src <= length mem)%nat
  then Some (take off mem ++ src ++ drop (off + length src) mem) else None.

(** The [n] bytes at [off]. *)
Definition read_mem (mem : list Z) (off n : nat) : option (list Z) :=
  if bool_decide (off + n <= length mem)%nat then Some (take n (drop off mem)) else None.

(** The byte offset, the byte count of the whole copy and of its first part. *)
Definition spans (f : kfifo) (len off : Z) : nat * nat * nat :=
  let size := u32 (mask f + 1) in
  let es := u32 (esize f) in
  let off := Z.land off (mask f) in
  let '(off, size, len) := if es =? 1 then (off, size, len) else (u32 (off * es), u32 (size * es), u32 (len * es)) in
  (Z.to_nat off, Z.to_nat len, Z.to_nat (Z.min len (u32 (size - off)))).

Definition kfifo_copy_in (f : kfifo) (src : list Z) (len off : Z) : option kfifo :=
  let '(off, len, l) := spans f len off in
  mem ← data f;
  a ← read_mem src 0 l;
  b ← read_mem src l (len - l);
  mem ← write_mem mem off a;
  mem ← write_mem mem 0 b;
  Some (set_data f mem).

Definition kfifo_in (f : kfifo) (buf : list Z) (len : Z) : option (kfifo * Z) :=
  let l := kfifo_unused f in
  let len := if l <? len then l else len in
  f' ← kfifo_copy_in f buf len (k_in f);
  Some (set_in f' (u32 (k_in f + len)), len).

Definition kfifo_copy_out (f : kfifo) (len off : Z) : option (list Z) :=
  let '(off, len, l) := spans f len off in
  mem ← data f;
  a ← read_mem mem off l;
  b ← read_mem mem 0 (len - l);
  Some (a ++ b).

(** The bytes copied and the number of elements. *)
Definition kfifo_out_peek (f : kfifo) (len : Z) : option (list Z * Z) :=
  let l := u32 (k_in f - k_out f) in
  let len := if l <? len then l else len in
  d ← kfifo_copy_out f len (k_out f);
  Some (d, len).

Definition kfifo_out (f : kfifo) (len : Z) : option (kfifo * list Z * Z) :=
  '(d, len) ← kfifo_out_peek f len;
  Some (set_out f (u32 (k_out f + len)), d, len).

(** ** User space *)

Definition DIV_ROUND_UP (n d : Z) : Z := (n + d - 1) / d.

(** [fault n] is the number of the [n] bytes from the current position on that
    [copy_from_user] could not copy; what it did not copy it has zeroed.  The
    result has [ret] and [*copied], both of the C function. *)
Definition kfifo_copy_from_user (f : kfifo) (fault1 fault2 : nat -> nat) (from : list Z) (len off : Z) :
    option (kfifo * Z * Z) :=
  let es := u32 (esize f) in
  let '(off, len, l) := spans f len off in
  mem ← data f;
  a ← read_mem from 0 l;
  let r1 := fault1 l in
  mem ← write_mem mem off (take (l - r1) a ++ repeat 0 r1);
  if negb (r1 =? 0)%nat then
    let ret := DIV_ROUND_UP (Z.of_nat r1 + Z.of_nat len - Z.of_nat l) es in
    Some (set_data f mem, ret, u32 (Z.of_nat len - ret))
  else
    b ← read_mem from l (len - l);
    let r2 := fault2 (len - l)%nat in
    mem ← write_mem mem 0 (take (len - l - r2) b ++ repeat 0 r2);
    let ret := if negb (r2 =? 0)%nat then DIV_ROUND_UP (Z.of_nat r2) es else 0 in
    Some (set_data f mem, ret, u32 (Z.of_nat len - ret)).

(** The code, the FIFO and [*copied]. *)
Definition kfifo_from_user (f : kfifo) (fault1 fault2 : nat -> nat) (from : list Z) (len : Z) : option (Z * kfifo * Z) :=
  let es := u32 (esize f) in
  let len := if es =? 1 then len else len / es in
  let l := kfifo_unused f in
  let len := if l <? len then l else len in
  '(f', ret, copied) ← kfifo_copy_from_user f fault1 fault2 from len (k_in f);
  let '(len, err) := if ret =? 0 then (len, 0) else (len - ret, - EFAULT) in
  Some (err, set_in f' (u32 (k_in f + len)), copied).

(** The bytes that reached user space, [ret] and [*copied]. *)
Definition kfifo_copy_to_user (f : kfifo) (fault1 fault2 : nat -> nat) (len off : Z) : option (list Z * Z * Z) :=
  let es := u32 (esize f) in
  let '(off, len, l) := spans f len off in
  mem ← data f;
  a ← read_mem mem off l;
  let r1 := fault1 l in
  if negb (r1 =? 0)%nat then
    let ret := DIV_ROUND_UP (Z.of_nat r1 + Z.of_nat len - Z.of_nat l) es in
    Some (take (l - r1) a, ret, u32 (Z.of_nat len - ret))
  else
    b ← read_mem mem 0 (len - l);
    let r2 := fault2 (len - l)%nat in
    let ret := if negb (r2 =? 0)%nat then DIV_ROUND_UP (Z.of_nat r2) es else 0 in
    Some (a ++ take (len - l - r2) b, ret, u32 (Z.of_nat len - ret)).

Definition kfifo_to_user (f : kfifo) (fault1 fault2 : nat -> nat) (len : Z) : option (Z * kfifo * list Z * Z) :=
  let es := u32 (esize f) in
  let len := if es =? 1 then len else len / es in
  let l := u32 (k_in f - k_out f) in
  let len := if l <? len then l else len in
  '(d, ret, copied) ← kfifo_copy_to_user f fault1 fault2 len (k_out f);
  let '(len, err) := if ret =? 0 then (len, 0) else (len - ret, - EFAULT) in
  Some (err, set_out f (u32 (k_out f + len)), d, copied).

(** ** Records *)

Definition kfifo_max_r (len recsize : Z) : Z :=
  let max := u32 (Z.shiftl 1 (Z.shiftl recsize 3) - 1) in if max <? len then max else len.

Definition peek (mem : list Z) (out m : Z) : option Z := mem !! Z.to_nat (Z.land out m).

Definition kfifo_peek_n (f : kfifo) (recsize : Z) : option Z :=
  mem ← data f;
  l ← peek mem (k_out f) (mask f);
  if negb (recsize - 1 =? 0) then h ← peek mem (u32 (k_out f + 1)) (mask f); Some (Z.lor l (Z.shiftl h 8))
  else Some l.

Definition poke (mem : list Z) (i m v : Z) : option (list Z) :=
  write_mem mem (Z.to_nat (Z.land i m)) [u8 v].

Definition kfifo_poke_n (f : kfifo) (n recsize : Z) : option kfifo :=
  mem ← data f;
  mem ← poke mem (k_in f) (mask f) n;
  if 1 <? recsize then mem ← poke mem (u32 (k_in f + 1)) (mask f) (Z.shiftr n 8); Some (set_data f mem)
  else Some (set_data f mem).

Definition kfifo_len_r (f : kfifo) (recsize : Z) : option Z := kfifo_peek_n f recsize.

Definition kfifo_in_r (f : kfifo) (buf : list Z) (len recsize : Z) : option (kfifo * Z) :=
  if kfifo_unused f <? len + recsize then Some (f, 0)
  else
    f1 ← kfifo_poke_n f len recsize;
    f2 ← kfifo_copy_in f1 buf len (u32 (k_in f + recsize));
    Some (set_in f2 (u32 (k_in f + (len + recsize))), len).

(** The bytes, their number and the length of the record. *)
Definition kfifo_out_copy_r (f : kfifo) (len recsize : Z) : option (list Z * Z * Z) :=
  n ← kfifo_peek_n f recsize;
  let len := if n <? len then n else len in
  d ← kfifo_copy_out f len (u32 (k_out f + recsize));
  Some (d, len, n).

Definition kfifo_out_peek_r (f : kfifo) (len recsize : Z) : option (list Z * Z) :=
  if k_in f =? k_out f then Some ([], 0)
  else '(d, len, _) ← kfifo_out_copy_r f len recsize; Some (d, len).

Definition kfifo_out_r (f : kfifo) (len recsize : Z) : option (kfifo * list Z * Z) :=
  if k_in f =? k_out f then Some (f, [], 0)
  else '(d, len, n) ← kfifo_out_copy_r f len recsize; Some (set_out f (u32 (k_out f + (n + recsize))), d, len).

Definition kfifo_skip_r (f : kfifo) (recsize : Z) : option kfifo :=
  n ← kfifo_peek_n f recsize; Some (set_out f (u32 (k_out f + (n + recsize)))).

Definition kfifo_from_user_r (f : kfifo) (fault1 fault2 : nat -> nat) (from : list Z) (len recsize : Z) :
    option (Z * kfifo * Z) :=
  let len := kfifo_max_r (u32 len) recsize in
  if kfifo_unused f <? len + recsize then Some (0, f, 0)
  else
    f1 ← kfifo_poke_n f len recsize;
    '(f2, ret, copied) ← kfifo_copy_from_user f1 fault1 fault2 from len (u32 (k_in f + recsize));
    if negb (ret =? 0) then Some (- EFAULT, f2, 0)
    else Some (0, set_in f2 (u32 (k_in f + (len + recsize))), copied).

Definition kfifo_to_user_r (f : kfifo) (fault1 fault2 : nat -> nat) (len recsize : Z) : option (Z * kfifo * list Z * Z) :=
  if k_in f =? k_out f then Some (0, f, [], 0)
  else
    n ← kfifo_peek_n f recsize;
    let len := if n <? len then n else len in
    '(d, ret, copied) ← kfifo_copy_to_user f fault1 fault2 len (u32 (k_out f + recsize));
    if negb (ret =? 0) then Some (- EFAULT, f, d, 0)
    else Some (0, set_out f (u32 (k_out f + (n + recsize))), d, copied).

Definition kfifo_dma_in_finish_r (f : kfifo) (len recsize : Z) : option kfifo :=
  let len := kfifo_max_r len recsize in
  f' ← kfifo_poke_n f len recsize; Some (set_in f' (u32 (k_in f + (len + recsize)))).

Definition kfifo_dma_out_finish_r (f : kfifo) (recsize : Z) : option kfifo := kfifo_skip_r f recsize.

(** ** Rings of cells *)

Section Ring.
Context {A : Type}.

(** Writing [es] at [o] and on from the start. *)
Definition ring_write (o : nat) (es cells : list A) : list A :=
  let l := Nat.min (length es) (length cells - o) in
  let c := take o cells ++ take l es ++ drop (o + l) cells in
  drop l es ++ drop (length es - l) c.

(** The position [n] behind [o]. *)
Definition ring_pos (size o n : nat) : nat := if decide (o + n < size)%nat then (o + n)%nat else (o + n - size)%nat.

Lemma lookup_rotate (o i : nat) (cells : list A) : (o < length cells)%nat -> (i < length cells)%nat ->
  rotate o cells !! i = cells !! ring_pos (length cells) o i.
Proof.
  intros Ho Hi; unfold rotate, ring_pos; rewrite Nat.mod_small by done.
  rewrite lookup_app; case_decide.
  - rewrite lookup_drop; destruct (cells !! (o + i)%nat) eqn:E; [done|]; apply lookup_ge_None in E; lia.
  - rewrite (proj2 (lookup_ge_None (drop o cells) i)), lookup_take_lt by (rewrite length_drop; lia).
    rewrite length_drop; f_equal; lia.
Qed.

Lemma length_ring_write (o : nat) (es cells : list A) : (o < length cells)%nat -> (length es <= length cells)%nat ->
  length (ring_write o es cells) = length cells.
Proof. intros; unfold ring_write; rewrite length_app, !length_drop, !length_app, !length_take, length_drop; lia. Qed.

Lemma lookup_ring_write (o j : nat) (es cells : list A) : (o < length cells)%nat -> (length es <= length cells)%nat ->
  (j < length cells)%nat ->
  ring_write o es cells !! j =
    let l := Nat.min (length es) (length cells - o) in
    if decide (j < length es - l)%nat then es !! (l + j)%nat
    else if decide (o <= j < o + l)%nat then es !! (j - o)%nat else cells !! j.
Proof.
  intros Ho He Hj; unfold ring_write; cbn zeta; set (l := Nat.min _ _).
  case_decide as D1; [by rewrite lookup_app_l, lookup_drop by (rewrite length_drop; lia)|].
  rewrite lookup_app_r, lookup_drop, length_drop by (rewrite length_drop; lia).
  replace (length es - l + (j - (length es - l)))%nat with j by lia.
  case_decide as D2.
  - rewrite lookup_app_r, lookup_app_l, lookup_take_lt by (rewrite ?length_take; lia); rewrite length_take; f_equal; lia.
  - destruct (decide (j < o)%nat).
    + by rewrite lookup_app_l, lookup_take_lt by (rewrite ?length_take; lia).
    + rewrite !lookup_app_r, lookup_drop by (rewrite ?length_take; lia); rewrite !length_take; f_equal; lia.
Qed.

(** A write behind the first [n] elements of the ring appends them. *)
Lemma rotate_ring_write (o n : nat) (es cells : list A) : (o < length cells)%nat ->
  (n + length es <= length cells)%nat ->
  take (n + length es) (rotate o (ring_write (ring_pos (length cells) o n) es cells)) =
    take n (rotate o cells) ++ es.
Proof.
  intros Ho Hn; set (p := ring_pos (length cells) o n).
  destruct (decide (length es = 0)%nat) as [E0|E0].
  { apply nil_length_inv in E0; subst es; rewrite Nat.add_0_r, app_nil_r; f_equal; f_equal.
    unfold ring_write; cbn [length Nat.min Nat.sub]; rewrite drop_nil, take_nil, Nat.add_0_r; cbn [app].
    by rewrite drop_0, take_drop. }
  assert (Hp : (p < length cells)%nat) by (unfold p, ring_pos; case_decide; lia).
  assert (Hl : length (ring_write p es cells) = length cells) by (apply length_ring_write; lia).
  apply list_eq; intros i; destruct (decide (i < n + length es)%nat) as [Hi|Hi].
  - rewrite lookup_take_lt, lookup_rotate, Hl by lia; set (j := ring_pos (length cells) o i).
    assert (Hj : (j < length cells)%nat) by (unfold j, ring_pos; case_decide; lia).
    rewrite lookup_ring_write by lia; cbn zeta; destruct (decide (i < n)%nat) as [Hin|Hin].
    + rewrite lookup_app_l, lookup_take_lt, lookup_rotate by (rewrite ?length_take, ?length_rotate; lia); fold j.
      assert (D1 : ~ (j < length es - Nat.min (length es) (length cells - p))%nat)
        by (unfold j, p, ring_pos in *; repeat case_decide; lia).
      assert (D2 : ~ (p <= j < p + Nat.min (length es) (length cells - p))%nat)
        by (unfold j, p, ring_pos in *; repeat case_decide; lia).
      by rewrite !decide_False.
    + rewrite lookup_app_r by (rewrite length_take, length_rotate; lia).
      rewrite length_take, length_rotate; replace (n `min` length cells)%nat with n by lia.
      case_decide as D1; [f_equal; unfold j, p, ring_pos in *; repeat case_decide; lia|].
      rewrite decide_True by (unfold j, p, ring_pos in *; repeat case_decide; lia).
      f_equal; unfold j, p, ring_pos in *; repeat case_decide; lia.
  - rewrite (proj2 (lookup_ge_None _ _)), (proj2 (lookup_ge_None _ _)); [done| |].
    + rewrite length_app, length_take, length_rotate; lia.
    + rewrite length_take, length_rotate; lia.
Qed.

End Ring.

(** ** Cells as bytes *)

Definition cells_of (e : nat) (cs : list (list Z)) : Prop := Forall (fun c => length c = e) cs.

Lemma length_cells e cs : cells_of e cs -> length (concat cs) = (length cs * e)%nat.
Proof. induction 1 as [|c cs Hc _ IH]; [done|]; cbn; rewrite length_app, IH; lia. Qed.

Lemma take_cells e n cs t : cells_of e cs -> (n <= length cs)%nat -> take (n * e) (concat cs ++ t) = concat (take n cs).
Proof.
  intros Hc Hn; rewrite <- (take_drop n cs) at 1; rewrite concat_app, <- app_assoc, take_app_length'; [done|].
  rewrite (length_cells e) by (by apply Forall_take); rewrite length_take; f_equal; lia.
Qed.

Lemma drop_cells e n cs t : cells_of e cs -> (n <= length cs)%nat -> drop (n * e) (concat cs ++ t) = concat (drop n cs) ++ t.
Proof.
  intros Hc Hn; rewrite <- (take_drop n cs) at 1; rewrite concat_app, <- app_assoc, drop_app_length'; [done|].
  rewrite (length_cells e) by (by apply Forall_take); rewrite length_take; f_equal; lia.
Qed.

Lemma write_cells e o es cs t : cells_of e cs -> cells_of e es -> (o + length es <= length cs)%nat ->
  write_mem (concat cs ++ t) (o * e) (concat es) = Some (concat (take o cs ++ es ++ drop (o + length es) cs) ++ t).
Proof.
  intros Hc He Ho; unfold write_mem; rewrite bool_decide_true by (rewrite length_app, !(length_cells e) by done; nia).
  rewrite (length_cells e es), <- Nat.mul_add_distr_r, take_cells, drop_cells by (done || lia).
  by rewrite !concat_app, <- !app_assoc.
Qed.

Lemma read_cells e o n cs t : cells_of e cs -> (o + n <= length cs)%nat ->
  read_mem (concat cs ++ t) (o * e) (n * e) = Some (concat (take n (drop o cs))).
Proof.
  intros Hc Ho; unfold read_mem; rewrite bool_decide_true by (rewrite length_app, (length_cells e) by done; nia).
  by rewrite drop_cells, take_cells by (rewrite ?length_drop; (by apply Forall_drop) || done || lia).
Qed.

(** ** The FIFO holds a queue *)

(** [cs] are the cells of the buffer; the FIFO has room for [2 ^ k]. *)
Definition ring_ok (f : kfifo) (k : Z) (cs : list (list Z)) (rest : list Z) : Prop :=
  1 <= k <= 31 /\ mask f = 2 ^ k - 1 /\ 0 < esize f /\ 2 ^ k * esize f < 2 ^ 32 /\
  data f = Some (concat cs ++ rest) /\ Z.of_nat (length cs) = 2 ^ k /\ cells_of (Z.to_nat (esize f)) cs.

Definition index_of (f : kfifo) (i : Z) : nat := Z.to_nat (Z.land i (mask f)).

Definition holds (f : kfifo) (cap : nat) (q : list (list Z)) : Prop :=
  exists k cs rest, ring_ok f k cs rest /\ cap = length cs /\ is_u32 (k_in f) /\ is_u32 (k_out f) /\
    u32 (k_in f - k_out f) = Z.of_nat (length q) /\ (length q <= cap)%nat /\
    q = take (length q) (rotate (index_of f (k_out f)) cs).

Lemma index_mod f k cs rest i : ring_ok f k cs rest -> Z.of_nat (index_of f i) = i mod Z.of_nat (length cs).
Proof.
  intros (Hk & Hm & _ & _ & _ & Hl & _); unfold index_of; rewrite Hm, Hl.
  replace (2 ^ k - 1) with (Z.ones k) by (rewrite Z.ones_equiv; lia); rewrite Z.land_ones by lia.
  apply Z2Nat.id, Z.mod_pos_bound; lia.
Qed.

Lemma mod_u32 k i : 0 <= k <= 32 -> u32 i mod 2 ^ k = i mod 2 ^ k.
Proof.
  intros Hk; unfold u32, wrap; replace (2 ^ 32) with (2 ^ k * 2 ^ (32 - k)) by (rewrite <- Z.pow_add_r by lia; f_equal; lia).
  rewrite Z.rem_mul_r by (apply Z.pow_nonzero || apply Z.pow_pos_nonneg; lia).
  by rewrite Z.mul_comm, Z_mod_plus_full, Zmod_mod.
Qed.

(** The index [n] elements on is the ring position [n] behind. *)
Lemma index_add f k cs rest i n : ring_ok f k cs rest -> (n <= length cs)%nat ->
  index_of f (u32 (i + Z.of_nat n)) = ring_pos (length cs) (index_of f i) n.
Proof.
  intros R Hn; pose proof R as (Hk & _ & _ & _ & _ & Hl & _).
  pose proof (index_mod f k cs rest i R) as E1; pose proof (index_mod f k cs rest (u32 (i + Z.of_nat n)) R) as E2.
  rewrite Hl, mod_u32, <- Hl in E2 by lia; rewrite <- Zplus_mod_idemp_l, <- E1 in E2.
  pose proof (Z.mod_pos_bound i (Z.of_nat (length cs)) ltac:(lia)) as B; rewrite <- E1 in B.
  set (a := index_of f i) in *; apply Nat2Z.inj; rewrite E2; unfold ring_pos; case_decide; [rewrite Z.mod_small; lia|].
  replace (Z.of_nat a + Z.of_nat n) with (Z.of_nat (a + n - length cs) + 1 * Z.of_nat (length cs)) by lia.
  rewrite Z_mod_plus_full, Z.mod_small; lia.
Qed.

Lemma index_lt f k cs rest i : ring_ok f k cs rest -> (index_of f i < length cs)%nat.
Proof.
  intros R; pose proof (index_mod f k cs rest i R) as E; destruct R as (Hk & _ & _ & _ & _ & Hl & _).
  pose proof (Z.mod_pos_bound i (Z.of_nat (length cs)) ltac:(lia)); lia.
Qed.

Lemma spans_cells f k cs rest m i : ring_ok f k cs rest -> (m <= length cs)%nat ->
  let e := Z.to_nat (esize f) in
  spans f (Z.of_nat m) i = (index_of f i * e, m * e, Nat.min m (length cs - index_of f i) * e)%nat.
Proof.
  intros R Hm e; pose proof (index_lt f k cs rest i R) as Ho; destruct R as (Hk & Em & He & Hb & _ & Hl & _).
  assert (Ei : Z.land i (mask f) = Z.of_nat (index_of f i)).
  { unfold index_of; rewrite Z2Nat.id; [done|]; rewrite Em; apply Z.land_nonneg; right; lia. }
  unfold spans; rewrite Ei; set (o := index_of f i) in *; rewrite <- Hl in *.
  assert (E32 : forall z, 0 <= z <= 2 ^ 32 - 1 -> u32 z = z) by (intros; apply wrap_small; unfold is_uint; lia).
  assert (Hs : Z.of_nat (length cs) <= 2 ^ 31) by (rewrite Hl; apply Z.pow_le_mono_r; lia).
  replace (mask f + 1) with (Z.of_nat (length cs)) by lia.
  assert (B1 : esize f <= 2 ^ 32 - 1) by nia; rewrite (E32 (Z.of_nat (length cs))), (E32 (esize f)) by lia.
  assert (Z.of_nat e = esize f) by (subst e; lia).
  destruct (Z.eqb_spec (esize f) 1) as [E1|E1].
  - replace e with 1%nat by (subst e; lia); rewrite E32 by lia; f_equal; [f_equal|]; lia.
  - rewrite (E32 (Z.of_nat o * esize f)), (E32 (Z.of_nat m * esize f)), (E32 (Z.of_nat (length cs) * esize f)) by nia.
    rewrite E32 by nia; f_equal; [f_equal|]; nia.
Qed.

(** ** The copies on the ring *)

Lemma copy_in_ring f k cs rest es i src : ring_ok f k cs rest -> cells_of (Z.to_nat (esize f)) es ->
  (length es <= length cs)%nat -> take (length es * Z.to_nat (esize f)) src = concat es ->
  kfifo_copy_in f src (Z.of_nat (length es)) i =
    Some (set_data f (concat (ring_write (index_of f i) es cs) ++ rest)).
Proof.
  intros R He Hm Es; pose proof (index_lt f k cs rest i R) as Ho; pose proof R as (Hk & _ & Hp & _ & Ed & _ & Hc).
  unfold kfifo_copy_in; rewrite (spans_cells f k cs rest) by done; cbn zeta; rewrite Ed; cbn [mbind option_bind].
  set (e := Z.to_nat (esize f)) in *; set (o := index_of f i) in *; set (l := Nat.min (length es) (length cs - o)).
  assert (Ls : (length es * e <= length src)%nat).
  { rewrite <- (length_cells e es He), <- Es, length_take; lia. }
  assert (Hle : (l * e <= length es * e)%nat) by nia.
  assert (R1 : read_mem src 0 (l * e) = Some (concat (take l es))).
  { unfold read_mem; rewrite bool_decide_true, drop_0 by lia; f_equal.
    rewrite <- (take_cells e l es []), app_nil_r, <- Es, take_take by (done || lia); f_equal; lia. }
  assert (R2 : read_mem src (l * e) (length es * e - l * e) = Some (concat (drop l es))).
  { unfold read_mem; rewrite bool_decide_true by lia; f_equal.
    rewrite take_drop_commute; replace (l * e + (length es * e - l * e))%nat with (length es * e)%nat by lia.
    rewrite Es; pose proof (drop_cells e l es [] He ltac:(lia)) as D; by rewrite !app_nil_r in D. }
  rewrite R1; cbn [mbind option_bind]; rewrite R2; cbn [mbind option_bind].
  assert (C1 : cells_of e (take l es)) by (by apply Forall_take); assert (C2 : cells_of e (drop l es)) by (by apply Forall_drop).
  assert (Ll : length (take l es) = l) by (rewrite length_take; lia).
  rewrite write_cells by (done || lia); cbn [mbind option_bind].
  set (c1 := take o cs ++ take l es ++ drop (o + length (take l es)) cs).
  assert (H1 : cells_of e c1) by (apply Forall_app; split; [by apply Forall_take|]; apply Forall_app; split; [done|by apply Forall_drop]).
  assert (L1 : length c1 = length cs) by (unfold c1; rewrite !length_app, Ll, length_take, length_drop; lia).
  pose proof (write_cells e 0 (drop l es) c1 rest H1 C2) as W; rewrite length_drop in W; specialize (W ltac:(lia)).
  cbn [Nat.mul] in W; rewrite W; cbn [mbind option_bind]; unfold ring_write; fold l; do 4 f_equal.
  unfold c1; by rewrite Ll, take_0.
Qed.

Lemma copy_out_ring f k cs rest m i : ring_ok f k cs rest -> (m <= length cs)%nat ->
  kfifo_copy_out f (Z.of_nat m) i = Some (concat (take m (rotate (index_of f i) cs))).
Proof.
  intros R Hm; pose proof (index_lt f k cs rest i R) as Ho; pose proof R as (Hk & _ & Hp & _ & Ed & _ & Hc).
  unfold kfifo_copy_out; rewrite (spans_cells f k cs rest) by done; cbn zeta; rewrite Ed; cbn [mbind option_bind].
  set (e := Z.to_nat (esize f)) in *; set (o := index_of f i) in *; set (l := Nat.min m (length cs - o)).
  rewrite read_cells by (done || lia); cbn [mbind option_bind].
  rewrite <- Nat.mul_sub_distr_r; pose proof (read_cells e 0 (m - l) cs rest Hc ltac:(lia)) as R2; cbn [Nat.mul] in R2.
  rewrite R2; cbn [mbind option_bind]; f_equal; rewrite <- concat_app; f_equal.
  unfold rotate; rewrite Nat.mod_small, drop_0 by done.
  destruct (decide (m <= length cs - o)%nat).
  - replace l with m by lia; replace (m - m)%nat with 0%nat by lia.
    rewrite take_0, app_nil_r, take_app_le by (rewrite length_drop; lia); done.
  - replace l with (length cs - o)%nat by lia; rewrite take_app_ge, length_drop by (rewrite length_drop; lia).
    rewrite (take_ge (drop o cs)) by (rewrite length_drop; lia); rewrite take_take; do 2 f_equal; lia.
Qed.

(** ** Operations on the queue *)

Lemma holds_unused f cap q : holds f cap q -> kfifo_unused f = Z.of_nat (cap - length q).
Proof.
  intros (k & cs & rest & (Hk & Hm & _ & _ & _ & Hl & _) & -> & _ & _ & Hn & Hq & _).
  assert (Hb : 2 ^ k <= 2 ^ 31) by (apply Z.pow_le_mono_r; lia).
  unfold kfifo_unused; rewrite Hm; rewrite u32_mod in *.
  replace (2 ^ k - 1 + 1 - (k_in f - k_out f)) with (2 ^ k - (k_in f - k_out f)) by lia.
  rewrite Zminus_mod, Hn, Zminus_mod_idemp_l, Z.mod_small by lia; lia.
Qed.

Lemma u32_sub_add a b n : is_u32 a -> u32 (a - b) = n -> u32 (b + n) = a.
Proof.
  intros Ha <-; unfold u32, wrap; rewrite Zplus_mod_idemp_r; replace (b + (a - b)) with a by lia; by apply Z.mod_small.
Qed.

Lemma kfifo_in_ok f cap q es src len : holds f cap q -> cells_of (Z.to_nat (esize f)) es ->
  Z.of_nat (length es) = Z.min len (Z.of_nat (cap - length q)) ->
  take (length es * Z.to_nat (esize f)) src = concat es ->
  exists f', kfifo_in f src len = Some (f', Z.of_nat (length es)) /\ holds f' cap (q ++ es) /\ esize f' = esize f.
Proof.
  intros Hh He Hl Hs; pose proof (holds_unused f cap q Hh) as Hu.
  destruct Hh as (k & cs & rest & R & -> & Ri & Ro & Hn & Hq & Eq).
  unfold kfifo_in; rewrite Hu.
  assert (El : (if Z.of_nat (length cs - length q) <? len then Z.of_nat (length cs - length q) else len) = Z.of_nat (length es))
    by (destruct (Z.ltb_spec (Z.of_nat (length cs - length q)) len); lia).
  rewrite El, (copy_in_ring f k cs rest es) by (done || lia); cbn [mbind option_bind].
  eexists; split; [done|]; split; [|done].
  pose proof (u32_sub_add (k_in f) (k_out f) _ Ri Hn) as Ein.
  assert (Epos : index_of f (k_in f) = ring_pos (length cs) (index_of f (k_out f)) (length q))
    by (rewrite <- Ein; by apply (index_add f k cs rest)).
  pose proof (index_lt f k cs rest (k_out f) R) as Ho; pose proof (index_lt f k cs rest (k_in f) R) as Hi.
  exists k, (ring_write (index_of f (k_in f)) es cs), rest.
  assert (Lr : length (ring_write (index_of f (k_in f)) es cs) = length cs) by (apply length_ring_write; lia).
  destruct R as (Hk & Em & Hp & Hb & Ed & Hlc & Hc); unfold ring_ok; cbn [k_in k_out mask esize data set_in set_data].
  rewrite Lr; split_and!; try done; try kint; try lia.
  - unfold ring_write; apply Forall_app; split; [by apply Forall_drop|].
    apply Forall_drop, Forall_app; split; [by apply Forall_take|]; apply Forall_app; split; [by apply Forall_take | by apply Forall_drop].
  - assert (2 ^ k <= 2 ^ 31) by (apply Z.pow_le_mono_r; lia); rewrite length_app.
    rewrite u32_mod in Hn; rewrite !u32_mod, Zminus_mod_idemp_l.
    replace (k_in f + Z.of_nat (length es) - k_out f) with (k_in f - k_out f + Z.of_nat (length es)) by lia.
    rewrite <- Zplus_mod_idemp_l, Hn, Z.mod_small; lia.
  - rewrite length_app; lia.
  - change (index_of _ (k_out f)) with (index_of f (k_out f)).
    rewrite length_app, Epos, rotate_ring_write by lia; by rewrite <- Eq.
Qed.

Lemma kfifo_peek_ok f cap q n : holds f cap q -> 0 <= n ->
  kfifo_out_peek f n = Some (concat (take (Z.to_nat n) q), Z.of_nat (Nat.min (Z.to_nat n) (length q))).
Proof.
  intros (k & cs & rest & R & -> & Ri & Ro & Hn & Hq & Eq) H0; unfold kfifo_out_peek; rewrite Hn.
  assert (El : (if Z.of_nat (length q) <? n then Z.of_nat (length q) else n) = Z.of_nat (Nat.min (Z.to_nat n) (length q)))
    by (destruct (Z.ltb_spec (Z.of_nat (length q)) n); lia).
  rewrite El, (copy_out_ring f k cs rest) by (done || lia); cbn [mbind option_bind]; do 3 f_equal.
  rewrite Eq at 2; by rewrite take_take.
Qed.

Lemma kfifo_out_ok f cap q n : holds f cap q -> 0 <= n ->
  exists f', kfifo_out f n = Some (f', concat (take (Z.to_nat n) q), Z.of_nat (Nat.min (Z.to_nat n) (length q))) /\
    holds f' cap (drop (Z.to_nat n) q) /\ esize f' = esize f.
Proof.
  intros Hh H0; unfold kfifo_out; rewrite (kfifo_peek_ok f cap q) by done; cbn [mbind option_bind].
  eexists; split; [done|]; split; [|done]; set (m := Nat.min (Z.to_nat n) (length q)).
  destruct Hh as (k & cs & rest & R & -> & Ri & Ro & Hn & Hq & Eq); exists k, cs, rest.
  assert (Hb : 2 ^ k <= 2 ^ 31) by (destruct R; apply Z.pow_le_mono_r; lia).
  assert (Hl : Z.of_nat (length cs) = 2 ^ k) by apply R.
  assert (Ed : drop (Z.to_nat n) q = drop m q).
  { destruct (decide (Z.to_nat n <= length q)%nat); [f_equal; lia | rewrite !drop_ge by lia; done]. }
  rewrite Ed; split_and!; [exact R | done | exact Ri | apply u32_range | | rewrite length_drop; lia |].
  - cbn [k_in k_out set_out]; rewrite length_drop, !u32_mod; rewrite u32_mod in Hn; rewrite Zminus_mod_idemp_r.
    replace (k_in f - (k_out f + Z.of_nat m)) with (k_in f - k_out f - Z.of_nat m) by lia.
    rewrite <- Zminus_mod_idemp_l, Hn, Z.mod_small; lia.
  - cbn [k_out set_out]; change (index_of _ (u32 _)) with (index_of f (u32 (k_out f + Z.of_nat m))).
    rewrite (index_add f k cs rest) by (done || lia); pose proof (index_lt f k cs rest (k_out f) R) as Ho.
    set (o := index_of f (k_out f)) in *; rewrite length_drop.
    apply list_eq; intros i; rewrite lookup_drop.
    destruct (decide (i < length q - m)%nat) as [Hi|Hi].
    + rewrite lookup_take_lt, lookup_rotate by (unfold ring_pos; repeat case_decide; lia).
      rewrite Eq at 1; rewrite lookup_take_lt, lookup_rotate by lia; f_equal.
      unfold ring_pos; repeat case_decide; lia.
    + rewrite (proj2 (lookup_ge_None q _)), (proj2 (lookup_ge_None _ _)); [done | rewrite length_take; lia | lia].
Qed.

(** ** The queue it implements *)

(** Uses by whole elements; [In] gives the buffer of the caller. *)
Inductive op := In (es : list (list Z)) | Out (n : nat) | Peek (n : nat).

Definition kfifo_step (f : kfifo) (o : op) : option (kfifo * (list Z * Z)) :=
  match o with
  | In es => '(f', n) ← kfifo_in f (concat es) (Z.of_nat (length es)); Some (f', ([], n))
  | Out n => '(f', d, n) ← kfifo_out f (Z.of_nat n); Some (f', (d, n))
  | Peek n => '(d, n) ← kfifo_out_peek f (Z.of_nat n); Some (f, (d, n))
  end.

Definition queue_step (cap : nat) (q : list (list Z)) (o : op) : list (list Z) * (list Z * Z) :=
  match o with
  | In es => let m := Nat.min (length es) (cap - length q) in (q ++ take m es, ([], Z.of_nat m))
  | Out n => (drop n q, (concat (take n q), Z.of_nat (Nat.min n (length q))))
  | Peek n => (q, (concat (take n q), Z.of_nat (Nat.min n (length q))))
  end.

Fixpoint kfifo_run (f : kfifo) (ops : list op) : option (list (list Z * Z)) :=
  match ops with
  | [] => Some []
  | o :: ops => '(f, x) ← kfifo_step f o; xs ← kfifo_run f ops; Some (x :: xs)
  end.

Fixpoint queue_run (cap : nat) (q : list (list Z)) (ops : list op) : list (list Z * Z) :=
  match ops with
  | [] => []
  | o :: ops => let '(q, x) := queue_step cap q o in x :: queue_run cap q ops
  end.

(** The elements have the size of the FIFO's. *)
Definition op_ok (es : Z) (o : op) : Prop :=
  match o with In cs => cells_of (Z.to_nat es) cs | _ => True end.

Lemma kfifo_step_ok f cap q o : holds f cap q -> op_ok (esize f) o ->
  exists f', kfifo_step f o = Some (f', (queue_step cap q o).2) /\ holds f' cap (queue_step cap q o).1 /\ esize f' = esize f.
Proof.
  intros Hh Ho; destruct o as [es|n|n]; cbn [kfifo_step queue_step fst snd].
  - set (m := Nat.min (length es) (cap - length q)); assert (Lm : length (take m es) = m) by (rewrite length_take; lia).
    destruct (kfifo_in_ok f cap q (take m es) (concat es) (Z.of_nat (length es)) Hh) as (f' & E & Hh' & Ee).
    + by apply Forall_take.
    + lia.
    + rewrite Lm; pose proof (take_cells (Z.to_nat (esize f)) m es [] Ho ltac:(lia)) as T; by rewrite app_nil_r in T.
    + exists f'; rewrite E, Lm; done.
  - destruct (kfifo_out_ok f cap q (Z.of_nat n) Hh ltac:(lia)) as (f' & E & Hh' & Ee); rewrite Nat2Z.id in *.
    exists f'; rewrite E; done.
  - exists f; rewrite (kfifo_peek_ok f cap q) by (done || lia); by rewrite Nat2Z.id.
Qed.

Lemma kfifo_run_ok f cap q ops : holds f cap q -> Forall (op_ok (esize f)) ops ->
  kfifo_run f ops = Some (queue_run cap q ops).
Proof.
  revert f q; induction ops as [|o ops IH]; intros f q Hh Hf; [done|]; apply Forall_cons_1 in Hf as [Ho Hf].
  destruct (kfifo_step_ok f cap q o Hh Ho) as (f' & E & Hh' & Ee); cbn [kfifo_run queue_run]; rewrite E; cbn [mbind option_bind].
  rewrite <- Ee in Hf; rewrite (IH f' _ Hh' Hf); cbn [mbind option_bind]; by destruct (queue_step cap q o).
Qed.

(** ** Records as bytes *)

Definition singles (b : list Z) : list (list Z) := (fun x => [x]) <$> b.

Definition byte_queue (f : kfifo) (cap : nat) (b : list Z) : Prop := holds f cap (singles b) /\ esize f = 1.

Lemma concat_singles b : concat (singles b) = b.
Proof. induction b as [|x b IH]; [done|]; change (x :: concat (singles b) = x :: b); by rewrite IH. Qed.

Lemma singles_app a b : singles (a ++ b) = singles a ++ singles b.
Proof. apply fmap_app. Qed.

Lemma length_singles b : length (singles b) = length b.
Proof. apply length_fmap. Qed.

Lemma cells_singles b : cells_of 1 (singles b).
Proof. apply Forall_fmap, Forall_true; done. Qed.

Lemma cells_are_singles cs : cells_of 1 cs -> cs = singles (concat cs).
Proof.
  induction 1 as [|c cs Hc _ IH]; [done|]; destruct c as [|x [|]]; try done; change ([x] :: cs = [x] :: singles (concat cs)); by rewrite <- IH.
Qed.

Lemma byte_in f cap b src : byte_queue f cap b -> (length b + length src <= cap)%nat ->
  exists f', kfifo_in f src (Z.of_nat (length src)) = Some (f', Z.of_nat (length src)) /\ byte_queue f' cap (b ++ src).
Proof.
  intros [Hh He] Hl; destruct (kfifo_in_ok f cap (singles b) (singles src) src (Z.of_nat (length src)) Hh) as (f' & E & Hh' & Ee).
  - rewrite He; apply cells_singles.
  - rewrite !length_singles; lia.
  - rewrite He, length_singles, concat_singles, take_ge by (cbn; lia); done.
  - rewrite length_singles in E; exists f'; split; [done|]; split; [by rewrite singles_app | congruence].
Qed.

Lemma byte_out f cap b n : byte_queue f cap b -> (n <= length b)%nat ->
  exists f', kfifo_out f (Z.of_nat n) = Some (f', take n b, Z.of_nat n) /\ byte_queue f' cap (drop n b).
Proof.
  intros [Hh He] Hl; destruct (kfifo_out_ok f cap (singles b) (Z.of_nat n) Hh ltac:(lia)) as (f' & E & Hh' & Ee).
  rewrite Nat2Z.id, length_singles in *; exists f'.
  assert (Et : take n (singles b) = singles (take n b)) by (symmetry; apply fmap_take).
  assert (Ed : drop n (singles b) = singles (drop n b)) by (symmetry; apply fmap_drop).
  rewrite Et, concat_singles in E; rewrite Ed in Hh'; rewrite E, Nat.min_l by done.
  split; [done|]; split; [done|congruence].
Qed.

(** The position does not matter to a copy. *)
Lemma copy_in_set_in f n src len off :
  kfifo_copy_in (set_in f n) src len off = (fun g => set_in g n) <$> kfifo_copy_in f src len off.
Proof.
  unfold kfifo_copy_in; change (spans (set_in f n) len off) with (spans f len off); destruct (spans f len off) as [[o m] l].
  cbn [data set_in]; destruct (data f) as [mem|]; [|done]; cbn [mbind option_bind].
  destruct (read_mem src 0 l) as [a|]; [|done]; cbn [mbind option_bind].
  destruct (read_mem src l (m - l)) as [c|]; [|done]; cbn [mbind option_bind].
  destruct (write_mem mem o a) as [mem1|]; [|done]; cbn [mbind option_bind]; by destruct (write_mem mem1 0 c).
Qed.

Lemma ring_write_one {A} (o : nat) (c : A) (cells : list A) : (o < length cells)%nat ->
  ring_write o [c] cells = take o cells ++ [c] ++ drop (o + 1) cells.
Proof. intros Ho; unfold ring_write; cbn [length]; replace (1 `min` (length cells - o))%nat with 1%nat by lia; done. Qed.

(** Storing a byte behind the queue is a copy of one byte. *)
Lemma poke_in f cap b v : byte_queue f cap b -> (length b < cap)%nat ->
  exists mem, (m ← data f; poke m (k_in f) (mask f) v) = Some mem /\
    byte_queue (set_in (set_data f mem) (u32 (k_in f + 1))) cap (b ++ [u8 v]).
Proof.
  intros Hq Hl; pose proof Hq as [Hh He]; pose proof (holds_unused f cap _ Hh) as Hu; rewrite length_singles in Hu.
  destruct (byte_in f cap b [u8 v] Hq) as (f' & E & Hq'); [cbn; lia|]; change (Z.of_nat (length [u8 v])) with 1 in E.
  destruct Hh as (k & cs & rest & R & -> & _); pose proof (index_lt f k cs rest (k_in f) R) as Ho.
  pose proof R as (_ & _ & _ & _ & Ed & _ & Hc); rewrite He in Hc.
  unfold kfifo_in in E; rewrite Hu, (proj2 (Z.ltb_ge _ _)) in E by lia.
  pose proof (copy_in_ring f k cs rest [[u8 v]] (k_in f) [u8 v] R) as Ec; rewrite He in Ec.
  change (Z.of_nat (length [[u8 v]])) with 1 in Ec; rewrite Ec in E; [|by repeat constructor|cbn; lia|done].
  cbn [mbind option_bind] in E; simplify_eq E; intros <-.
  rewrite Ed; cbn [mbind option_bind]; unfold poke; fold (index_of f (k_in f)).
  pose proof (write_cells 1 (index_of f (k_in f)) [[u8 v]] cs rest Hc) as W; rewrite Nat.mul_1_r in W.
  eexists; split; [apply W; [by repeat constructor | cbn; lia]|].
  rewrite ring_write_one in Hq' by done; exact Hq'.
Qed.

(** A copy at a position [n] that is not yet the FIFO's. *)
Lemma byte_in_at g n cap b src : byte_queue (set_in g n) cap b -> (length b + length src <= cap)%nat ->
  exists h, kfifo_copy_in g src (Z.of_nat (length src)) n = Some h /\
    byte_queue (set_in h (u32 (n + Z.of_nat (length src)))) cap (b ++ src).
Proof.
  intros Hq Hl; destruct (byte_in (set_in g n) cap b src Hq Hl) as (f' & E & Hq').
  pose proof (holds_unused _ cap _ (proj1 Hq)) as Hu; rewrite length_singles in Hu.
  unfold kfifo_in in E; rewrite Hu, (proj2 (Z.ltb_ge _ _)), copy_in_set_in in E by lia; cbn [k_in set_in] in E.
  destruct (kfifo_copy_in g src _ n) as [h|]; [|done]; exists h; split; [done|].
  cbn [fmap option_fmap option_map mbind option_bind] in E; simplify_eq E; intros <-; exact Hq'.
Qed.

(** The length field. *)
Definition len_field (recsize n : Z) : list Z := if recsize =? 1 then [u8 n] else put_le16 n.

Definition record_size (recsize : Z) : Prop := recsize = 1 \/ recsize = 2.

Lemma length_len_field rs n : record_size rs -> Z.of_nat (length (len_field rs n)) = rs.
Proof. by intros [-> | ->]. Qed.

Lemma poke_n_ok f cap b n rs : record_size rs -> byte_queue f cap b -> (length b + Z.to_nat rs <= cap)%nat ->
  exists g, kfifo_poke_n f n rs = Some g /\ byte_queue (set_in g (u32 (k_in f + rs))) cap (b ++ len_field rs n).
Proof.
  intros Hrs Hq Hl; destruct (poke_in f cap b n Hq) as (mem & E & Hq1); [destruct Hrs; lia|].
  unfold kfifo_poke_n; destruct (data f) as [m0|]; [|done]; cbn [mbind option_bind] in *; rewrite E; cbn [mbind option_bind].
  destruct Hrs as [-> | ->]; cbn [Z.ltb Z.compare Pos.compare Pos.compare_cont]; [by exists (set_data f mem)|].
  destruct (poke_in _ cap _ (Z.shiftr n 8) Hq1) as (mem2 & E2 & Hq2); [rewrite length_app; cbn; lia|].
  cbn [data set_in set_data k_in mask mbind option_bind] in E2; rewrite E2; cbn [mbind option_bind]; eexists; split; [done|].
  rewrite <- app_assoc in Hq2; unfold byte_queue in *; cbn [k_in set_in set_data] in Hq2.
  replace (u32 (k_in f + 2)) with (u32 (u32 (k_in f + 1) + 1)); [exact Hq2|].
  rewrite !u32_mod, Zplus_mod_idemp_l; f_equal; lia.
Qed.

Lemma in_r_ok f cap b r rs : record_size rs -> byte_queue f cap b ->
  let len := Z.of_nat (length r) in
  if decide (Z.of_nat (length b) + len + rs <= Z.of_nat cap)
  then exists f', kfifo_in_r f r len rs = Some (f', len) /\ byte_queue f' cap (b ++ len_field rs len ++ r)
  else kfifo_in_r f r len rs = Some (f, 0).
Proof.
  intros Hrs Hq len; pose proof (holds_unused _ cap _ (proj1 Hq)) as Hu; rewrite length_singles in Hu.
  assert (Hcap : (length b <= cap)%nat) by (destruct Hq as [(? & ? & ? & ? & ? & ? & ? & ? & Hle & _) _]; by rewrite length_singles in Hle).
  unfold kfifo_in_r; rewrite Hu; case_decide as D.
  - rewrite (proj2 (Z.ltb_ge _ _)) by lia.
    destruct (poke_n_ok f cap b len rs Hrs Hq) as (g & -> & Hg); [destruct Hrs; lia|]; cbn [mbind option_bind].
    destruct (byte_in_at g (u32 (k_in f + rs)) cap _ r Hg) as (h & E & Hh).
    + rewrite length_app; pose proof (length_len_field rs len Hrs); lia.
    + fold len in E, Hh; rewrite E; cbn [mbind option_bind]; eexists; split; [done|].
      rewrite <- app_assoc in Hh; replace (u32 (k_in f + (len + rs))) with (u32 (u32 (k_in f + rs) + len)); [exact Hh|].
      rewrite !u32_mod, Zplus_mod_idemp_l; f_equal; lia.
  - by rewrite (proj2 (Z.ltb_lt _ _)) by lia.
Qed.

(** ** Taking records *)

(** The byte [j] of the queue. *)
Lemma peek_at f cap b j x : byte_queue f cap b -> b !! j = Some x ->
  (m ← data f; peek m (u32 (k_out f + Z.of_nat j)) (mask f)) = Some x.
Proof.
  intros [(k & cs & rest & R & -> & _ & _ & _ & Hq & Eq) He] Hj; pose proof (lookup_lt_Some _ _ _ Hj) as Hlt.
  rewrite length_singles in *; pose proof R as (_ & _ & _ & _ & -> & _ & Hc); cbn [mbind option_bind]; rewrite He in Hc.
  unfold peek; fold (index_of f (u32 (k_out f + Z.of_nat j))); rewrite (index_add f k cs rest) by (done || lia).
  pose proof (index_lt f k cs rest (k_out f) R) as Ho.
  assert (Hc1 : cs !! ring_pos (length cs) (index_of f (k_out f)) j = Some [x]).
  { rewrite <- lookup_rotate, <- (lookup_take_lt _ (length b)), <- Eq by lia; unfold singles; by rewrite list_lookup_fmap, Hj. }
  set (p := ring_pos _ _ _) in *; clearbody p; apply lookup_app_l_Some.
  rewrite (cells_are_singles cs Hc) in Hc1; unfold singles in Hc1; rewrite list_lookup_fmap in Hc1.
  destruct (concat cs !! p) as [z|]; cbn in Hc1; by simplify_eq Hc1; intros ->.
Qed.

Lemma len_field_app rs n t : record_size rs -> 0 <= n < 2 ^ (8 * rs) ->
  exists x, (len_field rs n ++ t) !! 0%nat = Some x /\
    (rs = 1 -> x = n) /\ (rs = 2 -> exists y, (len_field rs n ++ t) !! 1%nat = Some y /\ Z.lor x (Z.shiftl y 8) = n).
Proof.
  intros [-> | ->] Hn; cbn [len_field Z.eqb Pos.eqb].
  - exists (u8 n); split; [done|]; split; [intros _; apply wrap_small; unfold is_uint; lia | done].
  - exists (u8 n); split; [done|]; split; [done|]; intros _; exists (u8 (Z.shiftr n 8)); split; [done|].
    exact (get_put_le16 n ltac:(unfold is_uint; lia)).
Qed.

Lemma len_field_mod rs n : record_size rs -> len_field rs n = len_field rs (n mod 2 ^ (8 * rs)).
Proof.
  intros [-> | ->]; unfold len_field, put_le16; cbn [Z.eqb Pos.eqb]; rewrite !u8_mod, ?shiftr8.
  - change (2 ^ (8 * 1)) with 256; by rewrite Zmod_mod.
  - change (2 ^ (8 * 2)) with 65536; change 65536 with (256 * 256); rewrite Z.rem_mul_r by done.
    assert (E : forall a b c d : Z, a = c -> b = d -> [a; b] = [c; d]) by congruence; apply E; arith.
Qed.

Lemma peek_field f cap n t rs : record_size rs -> 0 <= n ->
  byte_queue f cap (len_field rs n ++ t) -> kfifo_peek_n f rs = Some (n mod 2 ^ (8 * rs)).
Proof.
  intros Hrs Hn Hq; rewrite len_field_mod in Hq by done; set (v := n mod _) in *.
  assert (Hv : 0 <= v < 2 ^ (8 * rs)) by (apply Z.mod_pos_bound, Z.pow_pos_nonneg; destruct Hrs; lia); clearbody v.
  destruct (len_field_app rs v t Hrs Hv) as (x & Ex & E1 & E2).
  pose proof (peek_at f cap _ 0 x Hq Ex) as P; rewrite Z.add_0_r in P.
  assert (Eo : u32 (k_out f) = k_out f) by (apply wrap_small; destruct Hq as [(? & ? & ? & ? & ? & ? & ? & _) _]; done).
  rewrite Eo in P; unfold kfifo_peek_n; destruct (data f) as [m|] eqn:Ed; [|done]; cbn [mbind option_bind] in *.
  rewrite P; cbn [mbind option_bind]; destruct Hrs as [-> | ->]; cbn [Z.sub Z.opp Z.add Z.pos_sub Z.eqb negb Pos.pred_double].
  - by rewrite E1.
  - destruct (E2 eq_refl) as (y & Ey & El); pose proof (peek_at f cap _ 1 y Hq Ey) as P1; rewrite Ed in P1.
    change (Z.of_nat 1) with 1 in P1; cbn [mbind option_bind] in P1; rewrite P1; cbn [mbind option_bind]; by rewrite El.
Qed.

Lemma peek_n_ok f cap r t rs : record_size rs -> Z.of_nat (length r) < 2 ^ (8 * rs) ->
  byte_queue f cap (len_field rs (Z.of_nat (length r)) ++ r ++ t) -> kfifo_peek_n f rs = Some (Z.of_nat (length r)).
Proof. intros Hrs Hr Hq; rewrite (peek_field f cap (Z.of_nat (length r)) _ rs Hrs ltac:(lia) Hq), Z.mod_small by (split; [lia | done]); done. Qed.

(** The copy at a position behind the FIFO's. *)
Lemma copy_out_at f cap b skip n : byte_queue f cap b -> (skip <= length b)%nat -> (n <= length b - skip)%nat ->
  kfifo_copy_out f (Z.of_nat n) (u32 (k_out f + Z.of_nat skip)) = Some (take n (drop skip b)).
Proof.
  intros Hq Hs Hn; destruct (byte_out f cap b skip Hq Hs) as (f' & E & Hq').
  destruct (byte_out f' cap (drop skip b) n Hq') as (f2 & E2 & _); [rewrite length_drop; lia|].
  assert (Ef : f' = set_out f (u32 (k_out f + Z.of_nat skip))).
  { unfold kfifo_out in E; destruct (kfifo_out_peek f _) as [[? ?]|]; [|done]; cbn [mbind option_bind] in E; congruence. }
  pose proof (kfifo_peek_ok f' cap _ (Z.of_nat n) (proj1 Hq') ltac:(lia)) as P.
  rewrite Nat2Z.id, length_singles, length_drop, Nat.min_l in P by lia.
  unfold kfifo_out_peek in P; destruct Hq' as [(k & cs & rest & R & _ & _ & _ & Hu & _) _].
  rewrite Hu, length_singles, length_drop, (proj2 (Z.ltb_ge _ _)) in P by lia.
  destruct (kfifo_copy_out f' _ _) as [d|] eqn:Ec; [|done]; cbn [mbind option_bind] in P; simplify_eq P; intros ->.
  assert (Et : take n (singles (drop skip b)) = singles (take n (drop skip b))) by (symmetry; apply fmap_take).
  rewrite Et, concat_singles, Ef in Ec; exact Ec.
Qed.

Lemma byte_not_empty f cap x b : byte_queue f cap (x :: b) -> (k_in f =? k_out f) = false.
Proof.
  intros [(k & cs & rest & R & _ & _ & _ & Hu & _) _]; apply Z.eqb_neq; intros E.
  rewrite E, Z.sub_diag in Hu; rewrite length_singles in Hu; discriminate Hu.
Qed.

Lemma byte_empty f cap : byte_queue f cap [] -> (k_in f =? k_out f) = true.
Proof.
  intros [(k & cs & rest & R & _ & Ri & Ro & Hu & _) _]; apply Z.eqb_eq; rewrite length_singles in Hu.
  pose proof (u32_sub_add _ _ _ Ri Hu) as E; rewrite Z.add_0_r in E; unfold u32 in E; rewrite wrap_small in E by done; done.
Qed.

(** ** The queue of records *)

Definition record_bytes (rs : Z) (q : list (list Z)) : list Z :=
  concat ((fun r => len_field rs (Z.of_nat (length r)) ++ r) <$> q).

Lemma record_bytes_snoc rs q r : record_bytes rs (q ++ [r]) = record_bytes rs q ++ len_field rs (Z.of_nat (length r)) ++ r.
Proof.
  unfold record_bytes; rewrite fmap_app, concat_app; cbn [fmap list_fmap concat]; by rewrite app_nil_r.
Qed.

Definition holds_records (rs : Z) (f : kfifo) (cap : nat) (q : list (list Z)) : Prop :=
  byte_queue f cap (record_bytes rs q) /\ Forall (fun r => Z.of_nat (length r) < 2 ^ (8 * rs)) q.

Inductive rec_op := InR (r : list Z) | OutR (n : nat) | PeekR (n : nat).

Definition kfifo_rec_step (rs : Z) (f : kfifo) (o : rec_op) : option (kfifo * (list Z * Z)) :=
  match o with
  | InR r => '(f', n) ← kfifo_in_r f r (Z.of_nat (length r)) rs; Some (f', ([], n))
  | OutR n => '(f', d, n) ← kfifo_out_r f (Z.of_nat n) rs; Some (f', (d, n))
  | PeekR n => '(d, n) ← kfifo_out_peek_r f (Z.of_nat n) rs; Some (f, (d, n))
  end.

(** A record goes in whole or not at all; taking one gives the bytes asked for
    and drops the rest. *)
Definition records_step (rs : Z) (cap : nat) (q : list (list Z)) (o : rec_op) : list (list Z) * (list Z * Z) :=
  match o with
  | InR r => if decide (Z.of_nat (length (record_bytes rs q)) + Z.of_nat (length r) + rs <= Z.of_nat cap)
             then (q ++ [r], ([], Z.of_nat (length r))) else (q, ([], 0))
  | OutR n => match q with [] => ([], ([], 0)) | r :: q => (q, (take n r, Z.of_nat (Nat.min n (length r)))) end
  | PeekR n => match q with [] => ([], ([], 0)) | r :: _ => (q, (take n r, Z.of_nat (Nat.min n (length r)))) end
  end.

Lemma out_copy_r_ok rs f cap r q n : record_size rs -> holds_records rs f cap (r :: q) ->
  kfifo_out_copy_r f (Z.of_nat n) rs =
    Some (take n r, Z.of_nat (Nat.min n (length r)), Z.of_nat (length r)).
Proof.
  intros Hrs [Hq Hf]; apply Forall_cons_1 in Hf as [Hr _]; unfold record_bytes in Hq; rewrite fmap_cons in Hq; cbn [concat] in Hq.
  rewrite <- app_assoc in Hq; unfold kfifo_out_copy_r; rewrite (peek_n_ok f cap r _ rs Hrs Hr Hq); cbn [mbind option_bind].
  assert (El : (if Z.of_nat (length r) <? Z.of_nat n then Z.of_nat (length r) else Z.of_nat n) = Z.of_nat (Nat.min n (length r)))
    by (destruct (Z.ltb_spec (Z.of_nat (length r)) (Z.of_nat n)); lia).
  pose proof (length_len_field rs (Z.of_nat (length r)) Hrs) as Lf; set (lf := len_field rs _) in *.
  pose proof (copy_out_at f cap _ (length lf) (Nat.min n (length r)) Hq) as C; rewrite !length_app, Lf, drop_app_length in C.
  rewrite El, C by lia; cbn [mbind option_bind]; do 3 f_equal.
  rewrite take_app_le by lia; destruct (decide (n <= length r)%nat); [f_equal; lia | rewrite !take_ge by lia; done].
Qed.

Lemma record_not_empty rs f cap r q : record_size rs -> holds_records rs f cap (r :: q) -> (k_in f =? k_out f) = false.
Proof.
  intros Hrs [Hq _]; unfold record_bytes in Hq; rewrite fmap_cons in Hq; cbn [concat] in Hq.
  pose proof (length_len_field rs (Z.of_nat (length r)) Hrs); destruct (len_field rs _); [destruct Hrs; cbn in *; lia|].
  by apply byte_not_empty in Hq.
Qed.

(** Moving the position over a record drops it. *)
Lemma drop_record rs f cap r q : record_size rs -> holds_records rs f cap (r :: q) ->
  holds_records rs (set_out f (u32 (k_out f + (Z.of_nat (length r) + rs)))) cap q.
Proof.
  intros Hrs [Hq Hf]; split; [|by apply Forall_cons_1 in Hf as [_ Hf]].
  unfold record_bytes in Hq; rewrite fmap_cons in Hq; cbn [concat] in Hq; fold (record_bytes rs q) in Hq.
  set (e := len_field rs _ ++ r) in *; destruct (byte_out f cap (e ++ record_bytes rs q) (length e) Hq) as (f' & E & Hq'); [rewrite length_app; lia|].
  rewrite drop_app_length in Hq'; unfold kfifo_out in E; destruct (kfifo_out_peek f _) as [[? ?]|]; [|done].
  cbn [mbind option_bind] in E; injection E as <- _ Hz.
  assert (Ee : Z.of_nat (length e) = Z.of_nat (length r) + rs)
    by (unfold e; rewrite length_app; pose proof (length_len_field rs (Z.of_nat (length r)) Hrs); lia).
  by rewrite <- Ee, <- Hz.
Qed.

Lemma records_step_ok rs f cap q o : record_size rs -> holds_records rs f cap q ->
  match o with InR r => Z.of_nat (length r) < 2 ^ (8 * rs) | _ => True end ->
  exists f', kfifo_rec_step rs f o = Some (f', (records_step rs cap q o).2) /\
    holds_records rs f' cap (records_step rs cap q o).1.
Proof.
  intros Hrs Hh Ho; destruct o as [r|n|n]; cbn [kfifo_rec_step records_step].
  - pose proof (in_r_ok f cap (record_bytes rs q) r rs Hrs (proj1 Hh)) as I; cbn zeta in I; case_decide.
    + destruct I as (f' & -> & Hq'); exists f'; split; [done|]; split; [|apply Forall_app; split; [apply Hh | by constructor]].
      cbn [fst]; by rewrite record_bytes_snoc.
    + rewrite I; by exists f.
  - unfold kfifo_out_r; destruct q as [|r q]; [rewrite (byte_empty f cap) by apply Hh; by exists f|].
    rewrite (record_not_empty rs f cap r q), (out_copy_r_ok rs f cap r q) by done.
    eexists; split; [done|]; by apply drop_record.
  - unfold kfifo_out_peek_r; destruct q as [|r q]; [rewrite (byte_empty f cap) by apply Hh; by exists f|].
    rewrite (record_not_empty rs f cap r q), (out_copy_r_ok rs f cap r q) by done; by exists f.
Qed.

Definition rec_op_ok (rs : Z) (o : rec_op) : Prop :=
  match o with InR r => Z.of_nat (length r) < 2 ^ (8 * rs) | _ => True end.

Fixpoint kfifo_rec_run (rs : Z) (f : kfifo) (ops : list rec_op) : option (list (list Z * Z)) :=
  match ops with
  | [] => Some []
  | o :: ops => '(f, x) ← kfifo_rec_step rs f o; xs ← kfifo_rec_run rs f ops; Some (x :: xs)
  end.

Fixpoint records_run (rs : Z) (cap : nat) (q : list (list Z)) (ops : list rec_op) : list (list Z * Z) :=
  match ops with
  | [] => []
  | o :: ops => let '(q, x) := records_step rs cap q o in x :: records_run rs cap q ops
  end.

Lemma kfifo_rec_run_ok rs f cap q ops : record_size rs -> holds_records rs f cap q -> Forall (rec_op_ok rs) ops ->
  kfifo_rec_run rs f ops = Some (records_run rs cap q ops).
Proof.
  intros Hrs; revert f q; induction ops as [|o ops IH]; intros f q Hh Hf; [done|]; apply Forall_cons_1 in Hf as [Ho Hf].
  destruct (records_step_ok rs f cap q o Hrs Hh Ho) as (f' & E & Hh'); cbn [kfifo_rec_run records_run]; rewrite E; cbn [mbind option_bind].
  rewrite (IH f' _ Hh' Hf); cbn [mbind option_bind]; by destruct (records_step rs cap q o).
Qed.

(** ** A fresh FIFO *)

Lemma split_cells e n d : length d = (n * e)%nat -> exists cs, cells_of e cs /\ length cs = n /\ concat cs = d.
Proof.
  revert d; induction n as [|n IH]; intros d Hd; [exists []; destruct d; [split_and!; [constructor | done | done] | done]|].
  destruct (IH (drop e d)) as (cs & Hc & Hl & E); [rewrite length_drop; lia|].
  exists (take e d :: cs); split_and!; [constructor; [rewrite length_take; lia | done] | cbn; lia |].
  cbn [concat]; by rewrite E, take_drop.
Qed.

Lemma fresh_holds d k es : 1 <= k <= 31 -> 0 < es -> 2 ^ k * es < 2 ^ 32 -> 2 ^ k * es <= Z.of_nat (length d) ->
  holds (Fifo 0 0 (2 ^ k - 1) es (Some d)) (Z.to_nat (2 ^ k)) [].
Proof.
  intros Hk He Hb Hd; assert (0 < 2 ^ k) by (apply Z.pow_pos_nonneg; lia).
  destruct (split_cells (Z.to_nat es) (Z.to_nat (2 ^ k)) (take (Z.to_nat (2 ^ k * es)) d)) as (cs & Hc & Hl & E).
  { rewrite length_take, Nat.min_l by lia; by rewrite Z2Nat.inj_mul by lia. }
  exists k, cs, (drop (Z.to_nat (2 ^ k * es)) d); unfold ring_ok; cbn [mask esize data k_in k_out].
  rewrite E, take_drop; split_and!; try done; cbn [length]; lia.
Qed.

Lemma power_of_2_log2 n : 0 < n -> is_power_of_2 n = true -> n = 2 ^ Z.log2 n.
Proof.
  intros Hn; unfold is_power_of_2; rewrite andb_true_iff, Z.eqb_eq; intros [_ E].
  pose proof (Z.log2_spec n Hn) as B; rewrite Z.pow_succ_r in B by apply Z.log2_nonneg.
  destruct (decide (n = 2 ^ Z.log2 n)) as [|D]; [done|]; exfalso.
  assert (El : Z.log2 (n - 1) = Z.log2 n) by (apply Z.log2_unique; [apply Z.log2_nonneg | rewrite Z.pow_succ_r by apply Z.log2_nonneg; lia]).
  assert (H : 0 < 2 ^ Z.log2 n) by (apply Z.pow_pos_nonneg; [lia | apply Z.log2_nonneg]).
  assert (T : Z.testbit (Z.land n (n - 1)) (Z.log2 n) = true); [|by rewrite E, Z.bits_0 in T].
  rewrite Z.land_spec, Z.bit_log2 by lia; rewrite <- El; by rewrite Z.bit_log2 by lia.
Qed.

(** The number of elements is rounded down. *)
Lemma rounded size : 2 <= size < 2 ^ 32 ->
  (if is_power_of_2 size then size else rounddown_pow_of_two size) = 2 ^ Z.log2 size /\
  1 <= Z.log2 size <= 31 /\ 2 <= 2 ^ Z.log2 size.
Proof.
  intros Hs; assert (Hk : 1 <= Z.log2 size <= 31).
  { split; [change 1 with (Z.log2 2); apply Z.log2_le_mono; lia | apply Z.lt_succ_r, Z.log2_lt_pow2; lia]. }
  split; [|split; [done | change 2 with (2 ^ 1) at 1; apply Z.pow_le_mono_r; lia]].
  destruct (is_power_of_2 size) eqn:E; [apply power_of_2_log2; [lia | done] | done].
Qed.

(** What [kmalloc] gives has the size asked for. *)
Definition kmalloc_ok (mem : Z -> option (list Z)) : Prop := forall n d, mem n = Some d -> Z.of_nat (length d) = n.

Lemma alloc_holds mem size es f : kmalloc_ok mem -> 2 <= size < 2 ^ 32 -> 0 < es -> size * es < 2 ^ 32 ->
  kfifo_alloc mem size es = (f, 0) -> holds f (Z.to_nat (2 ^ Z.log2 size)) [] /\ esize f = es.
Proof.
  intros Hm Hs He Hb; destruct (rounded size Hs) as (E & Hk & H2); pose proof (Z.log2_spec size ltac:(lia)) as B.
  unfold kfifo_alloc; rewrite E, (proj2 (Z.ltb_ge _ _)) by done.
  destruct (mem _) as [d|] eqn:Ed; [|done]; intros [= <-]; split; [|done]; apply Hm in Ed; apply fresh_holds; nia.
Qed.

Lemma init_holds buffer size f : 2 <= size < 2 ^ 32 -> size <= Z.of_nat (length buffer) ->
  kfifo_init buffer size 1 = (f, 0) -> byte_queue f (Z.to_nat (2 ^ Z.log2 size)) [].
Proof.
  intros Hs Hb; destruct (rounded size Hs) as (E & Hk & H2); pose proof (Z.log2_spec size ltac:(lia)) as B.
  unfold kfifo_init; rewrite Z.div_1_r; unfold u32; rewrite wrap_small by (unfold is_uint; lia).
  rewrite E, (proj2 (Z.ltb_ge _ _)) by done; intros [= <-]; split; [|done]; apply fresh_holds; lia.
Qed.


(** ** Copies from user space *)

(** A copy that does not wrap and that faults [r] bytes before its end is a
    copy of the bytes that arrived, with zeros behind. *)
Lemma copy_from_user_fault f k cs rest n i fault1 fault2 from r : ring_ok f k cs rest ->
  (index_of f i + n <= length cs)%nat ->
  let e := Z.to_nat (esize f) in
  (n * e <= length from)%nat -> (0 < r <= n * e)%nat -> fault1 (n * e)%nat = r ->
  let ret := DIV_ROUND_UP (Z.of_nat r) (esize f) in
  kfifo_copy_from_user f fault1 fault2 from (Z.of_nat n) i =
    (g ← kfifo_copy_in f (take (n * e - r) from ++ repeat 0 r) (Z.of_nat n) i;
     Some (g, ret, u32 (Z.of_nat (n * e) - ret))).
Proof.
  intros R Hi e Hf Hr Er ret; unfold kfifo_copy_from_user, kfifo_copy_in.
  rewrite (spans_cells f k cs rest) by (done || lia); cbn zeta; fold e.
  rewrite Nat.min_l by lia; pose proof R as (Hk & _ & Hp & Hb & Ed & Hl & _); rewrite Ed; cbn [mbind option_bind].
  assert (2 ^ 1 <= 2 ^ k) by (apply Z.pow_le_mono_r; lia).
  assert (Ee : u32 (esize f) = esize f) by (apply wrap_small; unfold is_uint; nia).
  set (src := take (n * e - r) from ++ repeat 0 r).
  assert (Ls : length src = (n * e)%nat) by (unfold src; rewrite length_app, length_take, repeat_length; lia).
  unfold read_mem; rewrite !bool_decide_true by lia; cbn [mbind option_bind]; rewrite !drop_0, Nat.sub_diag, take_0.
  rewrite take_take, Er, Nat.min_l, (take_ge src) by lia; fold src.
  destruct (write_mem _ _ src) as [mem|]; [|done]; cbn [mbind option_bind].
  rewrite (proj2 (Nat.eqb_neq r 0)) by lia; cbn [negb].
  unfold write_mem at 1; rewrite take_0; cbn [length]; rewrite bool_decide_true by lia; cbn [mbind option_bind].
  rewrite take_0; cbn [app Nat.add]; rewrite drop_0, Ee; unfold ret; by rewrite Z.add_simpl_r.
Qed.

(** Moving the in position back drops the newest elements. *)
Lemma holds_drop_last f cap q m : holds f cap q -> (m <= length q)%nat ->
  holds (set_in f (u32 (k_in f - Z.of_nat m))) cap (take (length q - m) q).
Proof.
  intros (k & cs & rest & R & -> & Ri & Ro & Hn & Hq & Eq) Hm; exists k, cs, rest.
  assert (Hb : 2 ^ k <= 2 ^ 31) by (destruct R; apply Z.pow_le_mono_r; lia); assert (Hl : Z.of_nat (length cs) = 2 ^ k) by apply R.
  rewrite length_take; split_and!; [exact R | done | apply u32_range | exact Ro | | lia |].
  - cbn [k_in k_out set_in]; rewrite !u32_mod in *; rewrite Zminus_mod_idemp_l.
    replace (k_in f - Z.of_nat m - k_out f) with (k_in f - k_out f - Z.of_nat m) by lia.
    rewrite <- Zminus_mod_idemp_l, Hn, Z.mod_small; lia.
  - cbn [k_out set_in]; change (index_of _ (k_out f)) with (index_of f (k_out f)).
    rewrite Eq at 2; rewrite take_take; f_equal; lia.
Qed.

(** ** Properties *)

(** A FIFO that [kfifo_alloc] made behaves, whatever sequence of puts,
    takes and peeks follows, as a bounded queue of elements: its room is the
    size asked for rounded down to a power of two, the free-running 32-bit
    positions may wrap, and no copy leaves the buffer. *)
Theorem kfifo_refines_queue mem size es f ops : kmalloc_ok mem -> 2 <= size < 2 ^ 32 -> 0 < es -> size * es < 2 ^ 32 ->
  kfifo_alloc mem size es = (f, 0) -> Forall (op_ok es) ops ->
  kfifo_run f ops = Some (queue_run (Z.to_nat (2 ^ Z.log2 size)) [] ops).
Proof.
  intros Hm Hs He Hb Ha Ho; destruct (alloc_holds mem size es f Hm Hs He Hb Ha) as [Hh Ee].
  apply kfifo_run_ok; [done | by rewrite Ee].
Qed.

(** A byte FIFO holds, with a length field of one or two bytes before
    each record, a queue of records: a record goes in whole or not at all, and
    a take gives the front of the oldest record and drops the rest of it. *)
Theorem kfifo_records_refine rs buffer size f ops : record_size rs -> 2 <= size < 2 ^ 32 -> size <= Z.of_nat (length buffer) ->
  kfifo_init buffer size 1 = (f, 0) -> Forall (rec_op_ok rs) ops ->
  kfifo_rec_run rs f ops = Some (records_run rs (Z.to_nat (2 ^ Z.log2 size)) [] ops).
Proof.
  intros Hrs Hs Hb Ha Ho; apply kfifo_rec_run_ok; [done | | done].
  split; [by eapply init_holds | constructor].
Qed.

(** [kfifo_in_r] does not limit the length of a record to what the length
    field holds, as [kfifo_from_user_r] does: a longer record goes in whole,
    all of it is reported stored, and the length read back is the low bits. *)
Theorem kfifo_in_r_truncates_length rs f cap r : record_size rs -> byte_queue f cap [] ->
  let len := Z.of_nat (length r) in
  len + rs <= Z.of_nat cap ->
  exists f', kfifo_in_r f r len rs = Some (f', len) /\ kfifo_len_r f' rs = Some (len mod 2 ^ (8 * rs)).
Proof.
  intros Hrs Hq len Hl; pose proof (in_r_ok f cap [] r rs Hrs Hq) as I; cbn zeta in I; fold len in I.
  rewrite decide_True in I by (cbn; lia); destruct I as (f' & E & Hq'); exists f'; split; [done|].
  apply (peek_field f' cap len r); [done | lia | exact Hq'].
Qed.

(** A copy from user space that faults [r] bytes before its end queues
    exactly the elements that arrived whole and gives [-EFAULT]; but what it
    reports as copied is the number of bytes less a number of elements, which
    is the number of copied bytes only when an element is one byte. *)
Theorem kfifo_from_user_fault f cap q len n fault1 fault2 from r : holds f cap q ->
  Z.of_nat n = Z.min (if u32 (esize f) =? 1 then len else len / u32 (esize f)) (Z.of_nat (cap - length q)) ->
  (index_of f (k_in f) + n <= cap)%nat ->
  let e := Z.to_nat (esize f) in
  (n * e <= length from)%nat -> (0 < r <= n * e)%nat -> fault1 (n * e)%nat = r ->
  let ret := DIV_ROUND_UP (Z.of_nat r) (esize f) in
  exists f' es, kfifo_from_user f fault1 fault2 from len = Some (- EFAULT, f', u32 (Z.of_nat (n * e) - ret)) /\
    holds f' cap (q ++ es) /\ concat es = take ((n - Z.to_nat ret) * e) from /\ Z.of_nat (length es) = Z.of_nat n - ret.
Proof.
  intros Hh Hn Hi e Hf Hr Er ret; unfold kfifo_from_user; rewrite (holds_unused f cap q Hh).
  set (len' := if u32 _ =? 1 then _ else _) in *.
  assert (En : (if Z.of_nat (cap - length q) <? len' then Z.of_nat (cap - length q) else len') = Z.of_nat n)
    by (destruct (Z.ltb_spec (Z.of_nat (cap - length q)) len'); lia).
  rewrite En; pose proof Hh as (k & cs & rest & R & -> & _).
  rewrite (copy_from_user_fault f k cs rest n (k_in f) fault1 fault2 from r) by done; fold e ret.
  set (src := take (n * e - r) from ++ repeat 0 r).
  assert (Ls : length src = (n * e)%nat) by (unfold src; rewrite length_app, length_take, repeat_length; lia).
  destruct (split_cells e n src Ls) as (es & Hc & Lc & Ec).
  destruct (kfifo_in_ok f (length cs) q es src (Z.of_nat n) Hh Hc) as (f2 & E2 & Hh2 & Ee2);
    [lia | rewrite Lc; fold e; by rewrite take_ge by lia |].
  unfold kfifo_in in E2; rewrite (holds_unused f _ q Hh), (proj2 (Z.ltb_ge _ _)) in E2 by lia.
  destruct (kfifo_copy_in f src _ _) as [g|] eqn:Eg; [|done]; cbn [mbind option_bind] in *.
  injection E2 as <- _; pose proof R as (_ & _ & Hp & _).
  assert (He : Z.of_nat e = esize f) by lia.
  assert (Bret : 1 <= ret <= Z.of_nat n /\ Z.of_nat r <= ret * Z.of_nat e).
  { unfold ret, DIV_ROUND_UP; rewrite He; Z.div_mod_to_equations; nia. }
  rewrite (proj2 (Z.eqb_neq ret 0)) by lia; set (m := Z.to_nat ret); assert (Em : Z.of_nat m = ret) by lia.
  exists (set_in g (u32 (k_in f + (Z.of_nat n - ret)))), (take (n - m) es); split; [done|].
  pose proof (holds_drop_last _ _ _ m Hh2) as D; rewrite length_app, Lc in D; specialize (D ltac:(lia)).
  cbn [k_in set_in] in D; replace (u32 (u32 (k_in f + Z.of_nat n) - Z.of_nat m)) with (u32 (k_in f + (Z.of_nat n - ret))) in D
    by (rewrite !u32_mod, Zminus_mod_idemp_l; f_equal; lia).
  rewrite take_app_ge in D by lia; replace (length q + n - m - length q)%nat with (n - m)%nat in D by lia.
  split_and!; [exact D | | rewrite length_take; lia].
  pose proof (take_cells e (n - m) es [] Hc ltac:(lia)) as T; rewrite app_nil_r, Ec in T; rewrite <- T; unfold src.
  rewrite take_app_le, take_take by (rewrite length_take; nia); f_equal; nia.
Qed.

(** ** Witnesses *)

Definition zeroed (n : Z) : option (list Z) := if 0 <=? n then Some (repeat 0 (Z.to_nat n)) else None.

Lemma zeroed_ok : kmalloc_ok zeroed.
Proof.
  intros n d; unfold zeroed; destruct (Z.leb_spec 0 n); [|done]; intros [= <-]; rewrite repeat_length; lia.
Qed.

(** Five elements of two bytes asked for, room for four. *)
Lemma kfifo_refines_queue_witness :
  kfifo_run (fst (kfifo_alloc zeroed 5 2))
    [In [[1; 2]; [3; 4]; [5; 6]]; Out 2; In [[7; 8]; [9; 10]; [11; 12]; [13; 14]]; Peek 1; Out 9] =
  Some [([], 3); ([1; 2; 3; 4], 2); ([], 3); ([5; 6], 1); ([5; 6; 7; 8; 9; 10; 11; 12], 4)].
Proof.
  rewrite (kfifo_refines_queue zeroed 5 2 (fst (kfifo_alloc zeroed 5 2))); [by vm_compute | exact zeroed_ok | lia | lia | lia | done |].
  repeat constructor.
Defined.

Lemma kfifo_records_refine_witness :
  kfifo_rec_run 2 (fst (kfifo_init (repeat 0 9) 9 1)) [InR [1; 2; 3]; InR [4; 5]; OutR 2; InR [6]; OutR 5; PeekR 9] =
  Some [([], 3); ([], 0); ([1; 2], 2); ([], 1); ([6], 1); ([], 0)].
Proof.
  rewrite (kfifo_records_refine 2 (repeat 0 9) 9 (fst (kfifo_init (repeat 0 9) 9 1)));
    [by vm_compute | by right | lia | done | done | repeat constructor].
Defined.

Lemma kfifo_in_r_truncates_length_witness :
  let f := fst (kfifo_init (repeat 0 512) 512 1) in
  exists f', kfifo_in_r f (repeat 7 300) 300 1 = Some (f', 300) /\ kfifo_len_r f' 1 = Some 44.
Proof.
  assert (Hq : byte_queue (fst (kfifo_init (repeat 0 512) 512 1)) (Z.to_nat (2 ^ Z.log2 512)) [])
    by (apply (init_holds (repeat 0 512) 512); [lia | done | done]).
  exact (kfifo_in_r_truncates_length 1 _ _ (repeat 7 300) (or_introl eq_refl) Hq ltac:(done)).
Defined.

(** Four elements of two bytes, a fault three bytes before the end: two
    elements arrive, and six bytes are reported. *)
Lemma kfifo_from_user_fault_witness :
  let f := fst (kfifo_alloc zeroed 4 2) in
  exists f' es, kfifo_from_user f (fun _ => 3%nat) (fun _ => 0%nat) [1; 2; 3; 4; 5; 6; 7; 8] 8 = Some (- EFAULT, f', 6) /\
    holds f' (Z.to_nat (2 ^ Z.log2 4)) ([] ++ es) /\ concat es = [1; 2; 3; 4] /\ Z.of_nat (length es) = 2.
Proof.
  assert (Hq : holds (fst (kfifo_alloc zeroed 4 2)) (Z.to_nat (2 ^ Z.log2 4)) [])
    by (apply (alloc_holds zeroed 4 2); [exact zeroed_ok | lia | lia | lia | done]).
  exact (kfifo_from_user_fault _ _ [] 8 4 (fun _ => 3%nat) (fun _ => 0%nat) [1; 2; 3; 4; 5; 6; 7; 8] 3 Hq
           eq_refl ltac:(vm_compute; lia) ltac:(vm_compute; lia) ltac:(vm_compute; lia) eq_refl).
Defined.

End Kfifo.
