(* ===== verification/Defrag.v ===== *)
(** * Reassembly of fragmented frames

    [net/mac80211/rx.c]: the indices a frame's QoS field selects
    ([ieee80211_parse_qos]), the four-entry fragment cache of an interface and
    the handler [ieee80211_rx_h_defragment].  [None] is an access outside the
    cache or the receive counters of a key.  [jiffies], the results of the
    buffer allocations and what freed memory reads as are arguments; debug
    counters are left out. *)

From stdpp Require Import sets.
From S2P Require Import Prelude Ieee80211 Frame AesCcm Reorder Ccmp.

Module Defrag.
Import Ieee80211 Frame.

Definition IEEE80211_FRAGMENT_MAX : nat := 4.
Definition IEEE80211_NUM_TIDS : Z := 16.

Definition is_multicast_ether_addr (hdr : list Z) : bool := negb (Z.land (hdr.[off_addr1]) 1 =? 0).
Definition addr1 (hdr : list Z) : list Z := sub hdr off_addr1 ETH_ALEN.
Definition addr2 (hdr : list Z) : list Z := sub hdr off_addr2 ETH_ALEN.

(** ** Indices *)

Record qos := Qos { amsdu : bool; qos_seqno_idx : Z; qos_security_idx : Z; priority : Z }.

Definition ieee80211_parse_qos (hdr : list Z) : qos :=
  let fc := frame_control hdr in
  let '(present, seqno_idx, security_idx, tid) :=
    if ieee80211_is_data_qos fc then
      let qc := hdr.[ieee80211_get_qos_ctl hdr] in
      let tid := Z.land qc IEEE80211_QOS_CTL_TID_MASK in
      (negb (Z.land qc IEEE80211_QOS_CTL_A_MSDU_PRESENT =? 0), tid, tid, tid)
    else (false, IEEE80211_NUM_TIDS, if ieee80211_is_mgmt fc then IEEE80211_NUM_TIDS else 0, 0) in
  Qos present seqno_idx security_idx (if 7 <? tid then 0 else tid).

(** ** The cache *)

(** [struct ieee80211_fragment_entry]. *)
Record fragment_entry := Entry {
  first_frag_time : Z; seq : Z; rx_queue : Z; last_frag : Z; extra_len : Z;
  skb_list : list (list Z); ccmp : bool; last_pn : list Z }.

(** The fields [fragments] and [fragment_next] of the interface. *)
Record cache := Cache { fragments : list fragment_entry; fragment_next : nat }.

Definition set_skbs (e : fragment_entry) (l : list (list Z)) : fragment_entry :=
  Entry (first_frag_time e) (seq e) (rx_queue e) (last_frag e) (extra_len e) l (ccmp e) (last_pn e).
Definition set_pn (e : fragment_entry) (c : bool) (pn : list Z) : fragment_entry :=
  Entry (first_frag_time e) (seq e) (rx_queue e) (last_frag e) (extra_len e) (skb_list e) c pn.
Definition set_entry (c : cache) (i : nat) (e : fragment_entry) : cache := Cache (<[i := e]> (fragments c)) (fragment_next c).

(** The cache and the entry taken; what the entry held is freed. *)
Definition ieee80211_reassemble_add (c : cache) (jiffies frag sq rxq : Z) (skb : list Z) : option (cache * nat) :=
  let i := fragment_next c in
  e ← fragments c !! i;
  let next := if (IEEE80211_FRAGMENT_MAX <=? S i)%nat then 0%nat else S i in
  Some (Cache (<[i := Entry jiffies sq rxq frag 0 [skb] false (last_pn e)]> (fragments c)) next, i).

(** The frame type and both addresses agree. *)
Definition same_peer (hdr f_hdr : list Z) : bool :=
  (Z.land (Z.lxor (frame_control hdr) (frame_control f_hdr)) IEEE80211_FCTL_FTYPE =? 0)
  && bool_decide (addr1 hdr = addr1 f_hdr) && bool_decide (addr2 hdr = addr2 f_hdr).

Section Hz.
Context (HZ : Z).

(** The search over [n] entries, newest first, from the one before [idx]. *)
Fixpoint find_from (n : nat) (c : cache) (jiffies frag sq rxq : Z) (hdr : list Z) (idx : nat) : option (cache * option nat) :=
  match n with
  | O => Some (c, None)
  | S n =>
      let idx := match idx with O => Nat.pred IEEE80211_FRAGMENT_MAX | S i => i end in
      e ← fragments c !! idx;
      match skb_list e with
      | [] => find_from n c jiffies frag sq rxq hdr idx
      | f_hdr :: _ =>
          if negb (seq e =? sq) || negb (rx_queue e =? rxq) || negb (u32 (last_frag e + 1) =? frag)
          then find_from n c jiffies frag sq rxq hdr idx
          else if negb (same_peer hdr f_hdr) then find_from n c jiffies frag sq rxq hdr idx
          else if Reorder.time_after jiffies (u64 (first_frag_time e + 2 * HZ))
          then find_from n (set_entry c idx (set_skbs e [])) jiffies frag sq rxq hdr idx
          else Some (c, Some idx)
      end
  end.

Definition ieee80211_reassemble_find (c : cache) (jiffies frag sq rxq : Z) (hdr : list Z) : option (cache * option nat) :=
  find_from IEEE80211_FRAGMENT_MAX c jiffies frag sq rxq hdr (fragment_next c).

(** ** The handler *)

Inductive rx_key := CcmpKey (k : Ccmp.ccmp_key) | OtherKey.

(** What the handler reads of [struct ieee80211_rx_data]. *)
Record rx_data := Rx { rx_skb : list Z; key : option rx_key; seqno_idx : Z; security_idx : nat }.

(** The results of [skb_linearize] and [pskb_expand_head], the tail room of a
    buffer, and what a freed buffer reads as. *)
Record env := Env { jiffies : Z; linearized : bool; skb_tailroom : list Z -> Z; expanded : bool; freed : list Z -> list Z }.

(** [RX_FRAGMENTED] set on the frame, and whether the statistics at the end
    count it as multicast, where they are reached. *)
Record effects := Effects { fragmented : bool; counted : option bool }.

Inductive outcome :=
  | Continue (skb : list Z) (eff : effects)
  | Drop (r : rx_result) (skb : list Z)
  | Queued.

Definition rx_pn_of (rx : rx_data) : option (option (list Z)) :=
  match key rx with
  | Some (CcmpKey k) => pn ← Ccmp.rx_pn k !! security_idx rx; Some (Some pn)
  | _ => Some None
  end.

(** Increment from byte [n - 1] down until a byte does not wrap. *)
Fixpoint pn_inc (n : nat) (pn : list Z) : list Z :=
  match n with
  | O => pn
  | S i => let pn := <[i := u8 (pn.[i] + 1)]> pn in if negb (pn.[i] =? 0) then pn else pn_inc i pn
  end.

(** [skb_pull] leaves a buffer that is too short as it is. *)
Definition skb_pull (skb : list Z) (n : Z) : list Z :=
  if Z.of_nat (length skb) <? n then skb else drop (Z.to_nat n) skb.

(** The first fragment of a frame. *)
Definition rx_first_fragment (ev : env) (c : cache) (rx : rx_data) (frag sq : Z) : option (cache * outcome) :=
  '(c, i) ← ieee80211_reassemble_add c (jiffies ev) frag sq (seqno_idx rx) (rx_skb rx);
  rpn ← rx_pn_of rx;
  match rpn with
  | Some pn =>
      if ieee80211_has_protected (frame_control (rx_skb rx))
      then e ← fragments c !! i; Some (set_entry c i (set_pn e true pn), Queued)
      else Some (c, Queued)
  | None => Some (c, Queued)
  end.

(** The check of the packet number: the entry, or [None] to drop. *)
Definition check_pn (rx : rx_data) (e : fragment_entry) : option (option fragment_entry) :=
  if ccmp e then
    rpn ← rx_pn_of rx;
    match rpn with
    | None => Some None
    | Some rpn =>
        let pn := pn_inc Ccmp.CCMP_PN_LEN (last_pn e) in
        match memcmp pn rpn with Eq => Some (Some (set_pn e true pn)) | _ => Some None end
    end
  else Some (Some e).

(** A later fragment joins entry [i]. *)
Definition rx_next_fragment (ev : env) (c : cache) (i : nat) (rx : rx_data) (frag : Z) : option (cache * outcome) :=
  let hdr := rx_skb rx in
  e ← fragments c !! i;
  checked ← check_pn rx e;
  match checked with
  | None => Some (c, Drop RX_DROP_UNUSABLE hdr)
  | Some e =>
      let body := skb_pull hdr (ieee80211_hdrlen (frame_control hdr)) in
      let skbs := skb_list e ++ [body] in
      let extra := u32 (extra_len e + Z.of_nat (length body)) in
      let e := Entry (first_frag_time e) (seq e) (rx_queue e) frag extra skbs (ccmp e) (last_pn e) in
      if ieee80211_has_morefrags (frame_control hdr) then Some (set_entry c i e, Queued)
      else
        match skbs with
        | [] => None
        | skb :: rest =>
            if (skb_tailroom ev skb <? extra) && negb (expanded ev)
            then Some (set_entry c i (set_skbs e []), Drop RX_DROP_UNUSABLE skb)
            else Some (set_entry c i (set_skbs e []),
                       Continue (skb ++ concat rest) (Effects true (Some (is_multicast_ether_addr (freed ev hdr)))))
        end
  end.

Definition ieee80211_rx_h_defragment (ev : env) (c : cache) (rx : rx_data) : option (cache * outcome) :=
  let hdr := rx_skb rx in
  let fc := frame_control hdr in
  if ieee80211_is_ctl fc then Some (c, Continue hdr (Effects false None))
  else
    let sc := seq_ctrl hdr in
    let frag := Z.land sc IEEE80211_SCTL_FRAG in
    if negb (ieee80211_has_morefrags fc) && (frag =? 0) || is_multicast_ether_addr hdr
    then Some (c, Continue hdr (Effects false (Some (is_multicast_ether_addr hdr))))
    else if negb (linearized ev) then Some (c, Drop RX_DROP_UNUSABLE hdr)
    else
      let sq := Z.shiftr (Z.land sc IEEE80211_SCTL_SEQ) 4 in
      if frag =? 0 then rx_first_fragment ev c rx frag sq
      else
        '(c, found) ← ieee80211_reassemble_find c (jiffies ev) frag sq (seqno_idx rx) hdr;
        match found with
        | None => Some (c, Drop RX_DROP_MONITOR hdr)
        | Some i => rx_next_fragment ev c i rx frag
        end.

(** A run over received frames. *)
Fixpoint defrag_run (c : cache) (evs : list (env * rx_data)) : option (cache * list outcome) :=
  match evs with
  | [] => Some (c, [])
  | (ev, rx) :: evs =>
      '(c, o) ← ieee80211_rx_h_defragment ev c rx; '(c, os) ← defrag_run c evs; Some (c, o :: os)
  end.

(** ** The packet number *)

Lemma pn_val_snoc l x : pn_val (l ++ [x]) = 256 * pn_val l + x.
Proof. unfold pn_val; by rewrite fold_left_app. Qed.

Lemma pn_inc_app l r : bytes l -> exists l', pn_inc (length l) (l ++ r) = l' ++ r /\ length l' = length l /\ bytes l' /\
  pn_val l' = (pn_val l + 1) mod 256 ^ Z.of_nat (length l).
Proof.
  revert r; induction l as [|x l IH] using rev_ind; intros r Hb; [by exists []|].
  apply Forall_app in Hb as [Hl Hx]; apply Forall_cons_1 in Hx as [Hx _].
  rewrite length_app, Nat.add_comm; cbn [length Nat.add pn_inc]; rewrite <- app_assoc; cbn [app].
  assert (E0 : (l ++ x :: r).[length l] = x) by (unfold byte_at; by rewrite nth_middle).
  rewrite E0, insert_app_r_alt, Nat.sub_diag by done; cbn [insert list_insert].
  assert (E1 : (l ++ u8 (x + 1) :: r).[length l] = u8 (x + 1)) by (unfold byte_at; by rewrite nth_middle); rewrite E1.
  rewrite pn_val_snoc, Nat2Z.inj_succ, Z.pow_succ_r by lia; pose proof (pn_val_range l Hl) as R.
  set (m := 256 ^ Z.of_nat (length l)) in *; rewrite u8_mod; unfold is_uint in Hx; change (2 ^ 8) with 256 in Hx.
  destruct (Z.eqb_spec ((x + 1) mod 256) 0) as [E|E]; cbn [negb].
  - destruct (IH (((x + 1) mod 256) :: r) Hl) as (l' & -> & Ll & Bl & Ev); exists (l' ++ [0]).
    assert (x = 255) by (Z.div_mod_to_equations; lia); subst x; rewrite <- app_assoc; cbn [app]; change ((255 + 1) mod 256) with 0.
    split_and!; [done | rewrite length_app; cbn; lia | apply Forall_app; split; [done|repeat constructor; done] |].
    rewrite pn_val_snoc, Ev; fold m; replace (256 * pn_val l + 255 + 1) with (256 * (pn_val l + 1)) by lia.
    rewrite Z.mul_mod_distr_l by lia; lia.
  - exists (l ++ [(x + 1) mod 256]); rewrite <- app_assoc; split_and!; [done | rewrite length_app; cbn; lia | |].
    + apply Forall_app; split; [done|]; constructor; [|constructor]; apply Z.mod_pos_bound; lia.
    + rewrite pn_val_snoc, (Z.mod_small (x + 1)), Z.mod_small by (Z.div_mod_to_equations; nia); lia.
Qed.

Lemma pn_inc_val pn : bytes pn -> length pn = Ccmp.CCMP_PN_LEN ->
  bytes (pn_inc Ccmp.CCMP_PN_LEN pn) /\ length (pn_inc Ccmp.CCMP_PN_LEN pn) = Ccmp.CCMP_PN_LEN /\
  pn_val (pn_inc Ccmp.CCMP_PN_LEN pn) = (pn_val pn + 1) mod 2 ^ 48.
Proof.
  intros Hb Hl; destruct (pn_inc_app pn [] Hb) as (l' & E & Ll & Bl & Ev); rewrite !app_nil_r, Hl in *; rewrite E.
  split_and!; done.
Qed.

(** ** Where a cached frame comes from *)

Definition frag_no (f : rx_data) : Z := Z.land (seq_ctrl (rx_skb f)) IEEE80211_SCTL_FRAG.
Definition seq_no (f : rx_data) : Z := Z.shiftr (Z.land (seq_ctrl (rx_skb f)) IEEE80211_SCTL_SEQ) 4.
Definition more (f : rx_data) : bool := ieee80211_has_morefrags (frame_control (rx_skb f)).
Definition body (f : rx_data) : list Z := skb_pull (rx_skb f) (ieee80211_hdrlen (frame_control (rx_skb f))).

Lemma frag_no_range f : 0 <= frag_no f < 16.
Proof. unfold frag_no; change IEEE80211_SCTL_FRAG with (Z.ones 4); rewrite Z.land_ones by done; by apply Z.mod_pos_bound. Qed.

(** The receive counter of the CCMP key a frame came in with, as it is when
    the frame is handled.  A frame that CCMP decrypted has left its own packet
    number there (below); one that was not finds what another frame left. *)
Definition key_counter (f : rx_data) : option Z := pn_val <$> mjoin (rx_pn_of f).

Definition protected_first (f : rx_data) : bool :=
  match key f with Some (CcmpKey _) => ieee80211_has_protected (frame_control (rx_skb f)) | _ => false end.

(** The same frame type, receiver and sender. *)
Definition of_peer (hdr f_hdr : list Z) : Prop :=
  Z.land (frame_control hdr) IEEE80211_FCTL_FTYPE = Z.land (frame_control f_hdr) IEEE80211_FCTL_FTYPE /\
  addr1 hdr = addr1 f_hdr /\ addr2 hdr = addr2 f_hdr.

Lemma same_peer_spec hdr f_hdr : same_peer hdr f_hdr = true <-> of_peer hdr f_hdr.
Proof.
  unfold same_peer, of_peer; rewrite !andb_true_iff, !bool_decide_eq_true, Z.eqb_eq.
  assert (E : Z.land (Z.lxor (frame_control hdr) (frame_control f_hdr)) IEEE80211_FCTL_FTYPE =
    Z.lxor (Z.land (frame_control hdr) IEEE80211_FCTL_FTYPE) (Z.land (frame_control f_hdr) IEEE80211_FCTL_FTYPE)).
  { apply Z.bits_inj'; intros i Hi; rewrite !Z.land_spec, !Z.lxor_spec, !Z.land_spec.
    by destruct (Z.testbit _ i), (Z.testbit _ i), (Z.testbit _ i). }
  rewrite E, Z.lxor_eq_0_iff; tauto.
Qed.

(** [f] is fragment [n] of the frame that [f0] begins. *)
Definition part_of (f0 : rx_data) (n : nat) (f : rx_data) : Prop :=
  frag_no f = Z.of_nat n /\ seq_no f = seq_no f0 /\ seqno_idx f = seqno_idx f0 /\ of_peer (rx_skb f) (rx_skb f0) /\
  (protected_first f0 = true -> exists pn, key_counter f0 = Some pn /\ key_counter f = Some ((pn + Z.of_nat n) mod 2 ^ 48)).

(** [fs] are the fragments behind [f0]. *)
Definition fragments_of (f0 : rx_data) (fs : list rx_data) : Prop :=
  frag_no f0 = 0 /\ more f0 = true /\ forall i f, fs !! i = Some f -> part_of f0 (S i) f.

(** The entry holds [f0] and the fragments [fs]. *)
Definition pending (f0 : rx_data) (fs : list rx_data) (e : fragment_entry) : Prop :=
  fragments_of f0 fs /\ Forall (fun f => more f = true) fs /\
  skb_list e = rx_skb f0 :: (body <$> fs) /\ seq e = seq_no f0 /\ rx_queue e = seqno_idx f0 /\
  last_frag e = Z.of_nat (length fs) /\ Z.of_nat (length fs) <= 15 /\ ccmp e = protected_first f0 /\
  (ccmp e = true -> bytes (last_pn e) /\ length (last_pn e) = Ccmp.CCMP_PN_LEN /\
    exists pn, key_counter f0 = Some pn /\ pn_val (last_pn e) = (pn + Z.of_nat (length fs)) mod 2 ^ 48).

Definition entry_ok (hist : list rx_data) (e : fragment_entry) : Prop :=
  skb_list e = [] \/ exists f0 fs, (f0 :: fs) `sublist_of` hist /\ pending f0 fs e.

Definition cache_ok (hist : list rx_data) (c : cache) : Prop :=
  length (fragments c) = IEEE80211_FRAGMENT_MAX /\ (fragment_next c < IEEE80211_FRAGMENT_MAX)%nat /\
  Forall (entry_ok hist) (fragments c).

(** The receive counters of the key are packet numbers, one per TID and one
    for management frames. *)
Definition rx_ok (f : rx_data) : Prop :=
  (security_idx f < 17)%nat /\ match key f with Some (CcmpKey k) => Ccmp.key_inv 17 k | _ => True end.

(** The indices a frame selects are those of a TID, or 16. *)
Lemma parse_qos_range hdr : let q := ieee80211_parse_qos hdr in
  0 <= qos_seqno_idx q <= 16 /\ 0 <= qos_security_idx q <= 16 /\ 0 <= priority q <= 7.
Proof.
  unfold ieee80211_parse_qos; destruct (ieee80211_is_data_qos _); [|destruct (ieee80211_is_mgmt _); cbn; unfold IEEE80211_NUM_TIDS; lia].
  assert (H : 0 <= Z.land (hdr.[ieee80211_get_qos_ctl hdr]) IEEE80211_QOS_CTL_TID_MASK <= 15).
  { change IEEE80211_QOS_CTL_TID_MASK with (Z.ones 4); rewrite Z.land_ones by done;
    pose proof (Z.mod_pos_bound (hdr.[ieee80211_get_qos_ctl hdr]) (2 ^ 4) ltac:(done)); change (2 ^ 4) with 16 in *; lia. }
  cbn [qos_seqno_idx qos_security_idx priority]; set (tid := Z.land _ _) in *; clearbody tid; destruct (Z.ltb_spec 7 tid); lia.
Qed.

Lemma entry_ok_snoc hist f e : entry_ok hist e -> entry_ok (hist ++ [f]) e.
Proof.
  intros [H|(f0 & fs & Hs & H)]; [by left|]; right; exists f0, fs; split; [|done]; by apply sublist_inserts_r.
Qed.

Lemma cache_ok_snoc hist f c : cache_ok hist c -> cache_ok (hist ++ [f]) c.
Proof. intros (? & ? & F); split_and!; try done; eapply Forall_impl; [|exact F]; intros e; apply entry_ok_snoc. Qed.

Lemma cache_ok_set hist c i e : cache_ok hist c -> entry_ok hist e -> cache_ok hist (set_entry c i e).
Proof.
  intros (Hl & Hn & F) He; split_and!; [cbn; by rewrite length_insert | done|]; by apply Forall_insert.
Qed.

Lemma entry_ok_purged hist e : entry_ok hist (set_skbs e []).
Proof. by left. Qed.

Lemma cache_ok_entry hist c i : cache_ok hist c -> (i < IEEE80211_FRAGMENT_MAX)%nat ->
  exists e, fragments c !! i = Some e /\ entry_ok hist e.
Proof.
  intros (Hl & Hn & F) Hi; destruct (lookup_lt_is_Some_2 (fragments c) i) as [e He]; [lia|].
  exists e; split; [done|]; by eapply Forall_lookup_1 in F.
Qed.

Lemma find_ok hist n c jif frag sq rxq hdr idx : cache_ok hist c -> (idx < IEEE80211_FRAGMENT_MAX)%nat ->
  exists c' r, find_from n c jif frag sq rxq hdr idx = Some (c', r) /\ cache_ok hist c' /\
    (forall i, r = Some i -> exists e f_hdr t, (i < IEEE80211_FRAGMENT_MAX)%nat /\ fragments c' !! i = Some e /\
       skb_list e = f_hdr :: t /\ seq e = sq /\ rx_queue e = rxq /\ u32 (last_frag e + 1) = frag /\ same_peer hdr f_hdr = true).
Proof.
  revert c idx; induction n as [|n IH]; intros c idx Hc Hi; cbn [find_from]; [by exists c, None|].
  set (j := match idx with O => _ | S i => i end).
  assert (Hj : (j < IEEE80211_FRAGMENT_MAX)%nat) by (unfold j, IEEE80211_FRAGMENT_MAX in *; destruct idx; cbn; lia).
  destruct (cache_ok_entry hist c j Hc Hj) as (e & Ee & He); rewrite Ee; cbn [mbind option_bind].
  destruct (skb_list e) as [|f_hdr t] eqn:El; [by apply IH|].
  destruct (Z.eqb_spec (seq e) sq); cbn [negb orb]; [|by apply IH].
  destruct (Z.eqb_spec (rx_queue e) rxq); cbn [negb orb]; [|by apply IH].
  destruct (Z.eqb_spec (u32 (last_frag e + 1)) frag); cbn [negb orb]; [|by apply IH].
  destruct (same_peer hdr f_hdr) eqn:Ep; cbn [negb]; [|by apply IH].
  destruct (Reorder.time_after _ _); [apply IH; [by apply cache_ok_set; [|apply entry_ok_purged] | done]|].
  exists c, (Some j); split_and!; [done | done |]; intros i [= <-]; by exists e, f_hdr, t.
Qed.

Lemma rx_pn_total f : rx_ok f ->
  (exists k pn, key f = Some (CcmpKey k) /\ rx_pn_of f = Some (Some pn) /\ bytes pn /\ length pn = Ccmp.CCMP_PN_LEN /\ key_counter f = Some (pn_val pn)) \/
  (rx_pn_of f = Some None /\ protected_first f = false /\ key_counter f = None).
Proof.
  unfold key_counter, rx_pn_of, protected_first; intros [Hs Hk]; destruct (key f) as [[k|]|]; [left|by right..].
  destruct Hk as [Hf Hl]; destruct (lookup_lt_is_Some_2 (Ccmp.rx_pn k) (security_idx f)) as [pn E]; [by rewrite Hl|].
  exists k, pn; rewrite E; unfold Ccmp.key_ok in Hf; pose proof (Forall_lookup_1 _ _ _ _ Hf E) as [? ?]; done.
Qed.

(** The entry of a first fragment. *)
Lemma first_fragment_step ev c f e : fragments c !! fragment_next c = Some e -> (fragment_next c < IEEE80211_FRAGMENT_MAX)%nat ->
  rx_ok f -> frag_no f = 0 -> more f = true ->
  exists e1 next, rx_first_fragment ev c f 0 (seq_no f) = Some (Cache (<[fragment_next c := e1]> (fragments c)) next, Queued) /\
    pending f [] e1 /\ first_frag_time e1 = jiffies ev /\ (next < IEEE80211_FRAGMENT_MAX)%nat /\
    match next with O => Nat.pred IEEE80211_FRAGMENT_MAX | S i => i end = fragment_next c.
Proof.
  intros Ee Hn Hf H0 Hm; unfold rx_first_fragment, ieee80211_reassemble_add; rewrite Ee; cbn [mbind option_bind].
  set (e0 := Entry _ _ _ _ _ _ _ _); set (next := if (_ <=? _)%nat then _ else _).
  assert (Hnext : (next < IEEE80211_FRAGMENT_MAX)%nat /\
    match next with O => Nat.pred IEEE80211_FRAGMENT_MAX | S i => i end = fragment_next c).
  { subst next; destruct (Nat.leb_spec IEEE80211_FRAGMENT_MAX (S (fragment_next c))); unfold IEEE80211_FRAGMENT_MAX in *; cbn; lia. }
  clearbody next; destruct Hnext as [Hnext Hprev]; pose proof (lookup_lt_Some _ _ _ Ee) as Hlt.
  assert (Hfr : fragments_of f []) by done.
  destruct (rx_pn_total f Hf) as [(k & pn & Ek & -> & Hb & Hlp & Ep)|(-> & Ep & _)]; cbn [mbind option_bind].
  - destruct (ieee80211_has_protected _) eqn:Epr.
    + cbn [fragments]; rewrite list_lookup_insert_eq by done; cbn [mbind option_bind]; unfold set_entry; cbn [fragments fragment_next].
      rewrite list_insert_insert_eq; eexists _, _; split; [done|]; split; [|done]; unfold pending, protected_first; rewrite Ek.
      split_and!; try done; intros _; cbn [last_pn set_pn length]; split_and!; [done..|]; exists (pn_val pn); split; [done|].
      rewrite Z.add_0_r, Z.mod_small; [done|]; pose proof (pn_val_range pn Hb) as R; by rewrite Hlp in R.
    + eexists _, _; split; [done|]; split; [|done]; unfold pending, protected_first; rewrite Ek; by split_and!.
  - eexists _, _; split; [done|]; split; [|done]; by unfold pending; split_and!.
Qed.

Lemma first_fragment_ok hist ev c f : cache_ok hist c -> rx_ok f -> frag_no f = 0 -> more f = true ->
  exists c', rx_first_fragment ev c f 0 (seq_no f) = Some (c', Queued) /\ cache_ok (hist ++ [f]) c'.
Proof.
  intros Hc Hf H0 Hm; pose proof Hc as (Hl & Hn & _); destruct (cache_ok_entry hist c _ Hc Hn) as (e & Ee & _).
  destruct (first_fragment_step ev c f e Ee Hn Hf H0 Hm) as (e1 & next & E & Hp & _ & Hnext & _); eexists; split; [exact E|].
  split_and!; [cbn; by rewrite length_insert | done |]; apply Forall_insert; [by apply (cache_ok_snoc hist f c)|].
  right; exists f, []; split; [|done]; by apply sublist_inserts_l.
Qed.

(** What the check of the packet number leaves of an entry. *)
Definition checked (f0 f : rx_data) (n : nat) (e e' : fragment_entry) : Prop :=
  first_frag_time e' = first_frag_time e /\ seq e' = seq e /\ rx_queue e' = rx_queue e /\ extra_len e' = extra_len e /\
  skb_list e' = skb_list e /\ ccmp e' = ccmp e /\
  (ccmp e = true -> bytes (last_pn e') /\ length (last_pn e') = Ccmp.CCMP_PN_LEN /\
    exists pn, key_counter f0 = Some pn /\ key_counter f = Some ((pn + Z.of_nat n) mod 2 ^ 48) /\
      pn_val (last_pn e') = (pn + Z.of_nat n) mod 2 ^ 48).

Lemma check_pn_ok e f f0 fs : rx_ok f -> pending f0 fs e ->
  (exists e', check_pn f e = Some (Some e') /\ checked f0 f (S (length fs)) e e') \/
  (check_pn f e = Some None /\ ~ part_of f0 (S (length fs)) f).
Proof.
  intros Hf (_ & _ & _ & _ & _ & _ & _ & Hc & Hpn); unfold check_pn; destruct (ccmp e) eqn:Ec;
    [|left; exists e; split; [done|]; by split_and!; rewrite ?Ec].
  destruct (Hpn eq_refl) as (Hb & Hl & pn & Ep & Ev); destruct (pn_inc_val _ Hb Hl) as (Hb' & Hl' & Ev').
  assert (Ev2 : pn_val (pn_inc Ccmp.CCMP_PN_LEN (last_pn e)) = (pn + Z.of_nat (S (length fs))) mod 2 ^ 48).
  { rewrite Ev', Ev, Zplus_mod_idemp_l; f_equal; lia. }
  assert (Hno : key_counter f <> Some ((pn + Z.of_nat (S (length fs))) mod 2 ^ 48) -> ~ part_of f0 (S (length fs)) f).
  { intros Hne (_ & _ & _ & _ & Hp); destruct (Hp ltac:(done)) as (pn' & E1 & E2); congruence. }
  destruct (rx_pn_total f Hf) as [(k & rpn & Ek & -> & Hrb & Hrl & Erp)|(-> & _ & Ern)]; cbn [mbind option_bind];
    [|right; split; [done|]; apply Hno; by rewrite Ern].
  rewrite memcmp_val, Ev2 by (done || congruence).
  destruct (Z.compare_spec ((pn + Z.of_nat (S (length fs))) mod 2 ^ 48) (pn_val rpn)) as [E|Hlt|Hgt];
    [left | right; split; [done|]; apply Hno; rewrite Erp; intros [= Eq]; lia..].
  eexists; split; [done|]; split_and!; try done; intros _; split_and!; try done.
  exists pn; split_and!; [done | by rewrite Erp, E | done].
Qed.

(** The fragment that has been checked is the next one. *)
Lemma checked_part f0 fs e e' f : pending f0 fs e -> checked f0 f (S (length fs)) e e' ->
  seq e = seq_no f -> rx_queue e = seqno_idx f -> u32 (last_frag e + 1) = frag_no f -> same_peer (rx_skb f) (rx_skb f0) = true ->
  part_of f0 (S (length fs)) f.
Proof.
  intros (_ & _ & _ & Es & Eq & El & Hl & Ec & _) (_ & _ & _ & _ & _ & _ & Hpn) Es' Eq' Efr Hp.
  split_and!; [|congruence|congruence|by apply same_peer_spec|].
  - rewrite <- Efr, El; unfold u32; rewrite wrap_small by (unfold is_uint; lia); lia.
  - intros Hpf; destruct (Hpn ltac:(congruence)) as (_ & _ & pn & P1 & P2 & _); by exists pn.
Qed.

Lemma fragments_of_snoc f0 fs f : fragments_of f0 fs -> part_of f0 (S (length fs)) f -> fragments_of f0 (fs ++ [f]).
Proof.
  intros (H0 & Hm & Hfs) Hp; split_and!; [done|done|]; intros j g Hg; apply lookup_app_Some in Hg as [Hg|[Hj Hg]]; [by apply Hfs|].
  apply list_lookup_singleton_Some in Hg as [Hj' <-]; replace j with (length fs) by lia; done.
Qed.

Lemma pending_snoc f0 fs e e' f extra : pending f0 fs e -> checked f0 f (S (length fs)) e e' -> part_of f0 (S (length fs)) f ->
  more f = true ->
  pending f0 (fs ++ [f]) (Entry (first_frag_time e') (seq e') (rx_queue e') (frag_no f) extra (skb_list e' ++ [body f]) (ccmp e') (last_pn e')).
Proof.
  intros (Hfs & Hmore & El & Es & Eq & Elf & Hl & Ec & _) (E1 & E2 & E3 & E4 & E5 & E6 & E7) Hp Hm.
  pose proof Hp as (Hno & _); pose proof (frag_no_range f).
  unfold pending; cbn [seq rx_queue last_frag skb_list ccmp last_pn]; rewrite length_app; cbn [length].
  split_and!; try congruence; try lia; [by apply fragments_of_snoc | apply Forall_app; split; [done | by constructor] | |].
  - rewrite E5, El, fmap_app; done.
  - rewrite E6; intros Hcc; destruct (E7 Hcc) as (? & ? & pn & ? & _ & ?); split_and!; try done.
    exists pn; split; [done|]; by replace (length fs + 1)%nat with (S (length fs)) by lia.
Qed.

(** A frame put together from the frames [f0] and [fs] of the history. *)
Definition made_of (hist : list rx_data) (skb : list Z) (f0 : rx_data) (fs : list rx_data) : Prop :=
  (f0 :: fs) `sublist_of` hist /\ fragments_of f0 fs /\ skb = rx_skb f0 ++ concat (body <$> fs) /\
  exists gs f, fs = gs ++ [f] /\ Forall (fun g => more g = true) gs /\ more f = false.

Definition reassembled (hist : list rx_data) (skb : list Z) : Prop :=
  exists f0 fs, made_of hist skb f0 fs.

Definition outcome_ok (hist : list rx_data) (o : outcome) : Prop :=
  match o with Continue skb eff => fragmented eff = true -> reassembled hist skb | _ => True end.

Lemma next_fragment_ok hist ev c i e f_hdr t f : cache_ok hist c -> rx_ok f -> (i < IEEE80211_FRAGMENT_MAX)%nat ->
  fragments c !! i = Some e -> skb_list e = f_hdr :: t -> seq e = seq_no f -> rx_queue e = seqno_idx f ->
  u32 (last_frag e + 1) = frag_no f -> same_peer (rx_skb f) f_hdr = true ->
  exists c' o, rx_next_fragment ev c i f (frag_no f) = Some (c', o) /\ cache_ok (hist ++ [f]) c' /\ outcome_ok (hist ++ [f]) o.
Proof.
  intros Hc Hf Hi Ee El Es Eq Efr Hp; pose proof Hc as (_ & _ & F); pose proof (Forall_lookup_1 _ _ _ _ F Ee) as He.
  unfold rx_next_fragment; rewrite Ee; cbn [mbind option_bind]; destruct He as [He|(f0 & fs & Hs & He)]; [by rewrite He in El|].
  pose proof (cache_ok_snoc hist f c Hc) as Hc1; assert (El0 : skb_list e = rx_skb f0 :: (body <$> fs)) by apply He.
  destruct (check_pn_ok e f f0 fs Hf He) as [(e' & -> & Hck)|[-> _]]; cbn [mbind option_bind];
    [|by exists c, (Drop RX_DROP_UNUSABLE (rx_skb f))].
  assert (Ehd : f_hdr = rx_skb f0) by congruence; subst f_hdr.
  pose proof (checked_part f0 fs e e' f He Hck Es Eq Efr Hp) as Hpart.
  assert (Hs' : (f0 :: fs ++ [f]) `sublist_of` hist ++ [f]) by (rewrite app_comm_cons; by apply sublist_app).
  change (skb_pull (rx_skb f) _) with (body f); change (ieee80211_has_morefrags _) with (more f).
  destruct (more f) eqn:Em.
  - eexists _, _; split; [done|]; split; [|done]; apply cache_ok_set; [done|]; right; exists f0, (fs ++ [f]).
    split; [done|]; by apply (pending_snoc f0 fs e).
  - assert (E5 : skb_list e' = rx_skb f0 :: (body <$> fs)) by (rewrite <- El0; apply Hck); rewrite E5.
    cbn [app]; destruct (_ && _); (eexists _, _; split; [done|]); (split; [apply cache_ok_set; [done | apply entry_ok_purged]|]); [done|].
    intros _; exists f0, (fs ++ [f]); split_and!; [done | by apply fragments_of_snoc; [apply He|] | by rewrite fmap_app |].
    exists fs, f; split_and!; [done | apply He | done].
Qed.

Lemma defragment_ok hist ev c f : cache_ok hist c -> rx_ok f ->
  exists c' o, ieee80211_rx_h_defragment ev c f = Some (c', o) /\ cache_ok (hist ++ [f]) c' /\ outcome_ok (hist ++ [f]) o.
Proof.
  intros Hc Hf; pose proof (cache_ok_snoc hist f c Hc) as Hc1; unfold ieee80211_rx_h_defragment.
  destruct (ieee80211_is_ctl _); [by eexists c, _; split_and!|].
  change (Z.land (seq_ctrl (rx_skb f)) IEEE80211_SCTL_FRAG) with (frag_no f); change (Z.shiftr _ 4) with (seq_no f).
  change (ieee80211_has_morefrags _) with (more f).
  destruct (negb (more f) && (frag_no f =? 0) || is_multicast_ether_addr (rx_skb f)) eqn:En; [by eexists c, _; split_and!|].
  apply orb_false_iff in En as [En _]; destruct (linearized ev); cbn [negb]; [|by eexists c, _; split_and!].
  destruct (Z.eqb_spec (frag_no f) 0) as [E0|E0].
  - assert (Hm : more f = true) by (by destruct (more f)); rewrite E0.
    destruct (first_fragment_ok hist ev c f Hc Hf E0 Hm) as (c' & -> & Hc'); by exists c', Queued.
  - pose proof Hc as (_ & Hn & _); unfold ieee80211_reassemble_find.
    destruct (find_ok hist IEEE80211_FRAGMENT_MAX c (jiffies ev) (frag_no f) (seq_no f) (seqno_idx f) (rx_skb f) (fragment_next c) Hc Hn)
      as (c' & r & -> & Hc' & Hr); cbn [mbind option_bind].
    destruct r as [i|]; [|eexists c', _; split; [done|]; split; [by apply cache_ok_snoc | done]].
    destruct (Hr i eq_refl) as (e & f_hdr & t & ? & ? & ? & ? & ? & ? & ?); by eapply next_fragment_ok.
Qed.

(** ** Fragments in a row *)

(** The entry last taken. *)
Definition newest (c : cache) : nat := match fragment_next c with O => Nat.pred IEEE80211_FRAGMENT_MAX | S i => i end.

(** A fragment the handler looks at, received in time for a frame begun at [t0]. *)
Definition in_time (t0 : Z) (x : env * rx_data) : Prop :=
  rx_ok x.2 /\ ieee80211_is_ctl (frame_control (rx_skb x.2)) = false /\ is_multicast_ether_addr (rx_skb x.2) = false /\
  linearized x.1 = true /\ Reorder.time_after (jiffies x.1) (u64 (t0 + 2 * HZ)) = false.

Lemma defragment_later ev c f e f0 fs t0 : fragments c !! newest c = Some e -> pending f0 fs e -> first_frag_time e = t0 ->
  in_time t0 (ev, f) -> part_of f0 (S (length fs)) f ->
  exists e', check_pn f e = Some (Some e') /\ checked f0 f (S (length fs)) e e' /\
    ieee80211_rx_h_defragment ev c f = rx_next_fragment ev c (newest c) f (frag_no f).
Proof.
  intros Ee He Ht (Hf & Hctl & Hmc & Hlin & Hwin) Hp; cbn [fst snd] in *.
  destruct (check_pn_ok e f f0 fs Hf He) as [(e' & Ec & Hck)|[_ Hno]]; [|done]; exists e'; split_and!; [done..|].
  unfold ieee80211_rx_h_defragment; rewrite Hctl, Hmc, Hlin; cbn [negb]; pose proof Hp as (Hno & Hsq & Hq & Hpeer%same_peer_spec & _).
  change (Z.land (seq_ctrl (rx_skb f)) IEEE80211_SCTL_FRAG) with (frag_no f); change (Z.shiftr _ 4) with (seq_no f).
  rewrite (proj2 (Z.eqb_neq (frag_no f) 0)), andb_false_r by lia; cbn [orb].
  destruct He as (_ & _ & El & Es & Eq & Elf & Hl & _); unfold ieee80211_reassemble_find; cbn [find_from IEEE80211_FRAGMENT_MAX].
  change (match fragment_next c with O => _ | S i => i end) with (newest c); rewrite Ee; cbn [mbind option_bind]; rewrite El.
  rewrite (proj2 (Z.eqb_eq (seq e) _)), (proj2 (Z.eqb_eq (rx_queue e) _)), (proj2 (Z.eqb_eq (u32 _) _)), Hpeer by
    (congruence || (unfold u32; rewrite wrap_small by (unfold is_uint; lia); lia)); cbn [negb orb].
  by rewrite Ht, Hwin.
Qed.

Lemma defrag_rest c e f0 fs evs ev f t0 : fragments c !! newest c = Some e -> pending f0 fs e -> first_frag_time e = t0 ->
  Forall (in_time t0) (evs ++ [(ev, f)]) -> fragments_of f0 (fs ++ (snd <$> evs) ++ [f]) ->
  Forall (fun f => more f = true) (snd <$> evs) -> more f = false -> expanded ev = true ->
  exists c', defrag_run c (evs ++ [(ev, f)]) =
    Some (c', repeat Queued (length evs) ++
      [Continue (rx_skb f0 ++ concat (body <$> fs ++ (snd <$> evs) ++ [f])) (Effects true (Some (is_multicast_ether_addr (freed ev (rx_skb f)))))]).
Proof.
  revert c e fs; induction evs as [|[ev1 f1] evs IH]; intros c e fs Ee He Ht Hin Hfr Hmore Hlast Hexp; cbn [app fmap list_fmap snd] in *.
  - apply Forall_cons_1 in Hin as [Hin _]; pose proof (proj2 (proj2 Hfr) (length fs) f ltac:(by apply list_lookup_middle)) as Hp.
    destruct (defragment_later ev c f e f0 fs t0 Ee He Ht Hin Hp) as (e' & Ec & Hck & E).
    cbn [defrag_run]; rewrite E; unfold rx_next_fragment; rewrite Ee; cbn [mbind option_bind]; rewrite Ec; cbn [mbind option_bind].
    change (ieee80211_has_morefrags _) with (more f); change (skb_pull (rx_skb f) _) with (body f); rewrite Hlast.
    assert (E5 : skb_list e' = rx_skb f0 :: (body <$> fs)) by (destruct He as (_ & _ & <- & _); apply Hck); rewrite E5; cbn [app].
    rewrite Hexp, andb_false_r; cbn [mbind option_bind repeat length app]; by rewrite fmap_app; eexists.
  - apply Forall_cons_1 in Hin as [Hin1 Hin]; apply Forall_cons_1 in Hmore as [Hm Hmore].
    pose proof (proj2 (proj2 Hfr) (length fs) f1 ltac:(by apply list_lookup_middle)) as Hp.
    destruct (defragment_later ev1 c f1 e f0 fs t0 Ee He Ht Hin1 Hp) as (e' & Ec & Hck & E).
    cbn [defrag_run]; rewrite E; unfold rx_next_fragment; rewrite Ee; cbn [mbind option_bind]; rewrite Ec; cbn [mbind option_bind].
    change (ieee80211_has_morefrags _) with (more f1); change (skb_pull (rx_skb f1) _) with (body f1); rewrite Hm; cbn [mbind option_bind].
    set (e1 := Entry _ _ _ _ _ _ _ _).
    destruct (IH (set_entry c (newest c) e1) e1 (fs ++ [f1])) as (c' & E'); try done.
    + apply list_lookup_insert_eq; by eapply lookup_lt_Some.
    + by apply (pending_snoc f0 fs e).
    + cbn [first_frag_time e1]; rewrite <- Ht; apply Hck.
    + by rewrite <- app_assoc.
    + rewrite <- app_assoc in E'; cbn [app] in E'; rewrite E'; by exists c'.
Qed.

End Hz.

(** The fragments of a frame, in a row and in time. *)
Lemma frame_reassembles HZ c ev0 f0 evs ev f :
  length (fragments c) = IEEE80211_FRAGMENT_MAX -> (fragment_next c < IEEE80211_FRAGMENT_MAX)%nat ->
  Forall (in_time HZ (jiffies ev0)) ((ev0, f0) :: evs ++ [(ev, f)]) ->
  fragments_of f0 ((snd <$> evs) ++ [f]) -> Forall (fun f => more f = true) (snd <$> evs) -> more f = false -> expanded ev = true ->
  exists c', defrag_run HZ c ((ev0, f0) :: evs ++ [(ev, f)]) =
    Some (c', Queued :: repeat Queued (length evs) ++
      [Continue (rx_skb f0 ++ concat (body <$> (snd <$> evs) ++ [f])) (Effects true (Some (is_multicast_ether_addr (freed ev (rx_skb f)))))]).
Proof.
  intros Hl Hn Hin Hfr Hmore Hlast Hexp; apply Forall_cons_1 in Hin as [(Hf & Hctl & Hmc & Hlin & _) Hin]; cbn [fst snd] in *.
  destruct (lookup_lt_is_Some_2 (fragments c) (fragment_next c)) as [e Ee]; [lia|]; pose proof Hfr as (H0 & Hm & _).
  destruct (first_fragment_step ev0 c f0 e Ee Hn Hf H0 Hm) as (e1 & next & E & Hp & Ht & Hnext & Hprev).
  cbn [defrag_run]; unfold ieee80211_rx_h_defragment at 1; rewrite Hctl, Hmc, Hlin; cbn [negb].
  change (Z.land (seq_ctrl (rx_skb f0)) IEEE80211_SCTL_FRAG) with (frag_no f0); change (Z.shiftr _ 4) with (seq_no f0).
  change (ieee80211_has_morefrags _) with (more f0); rewrite Hm, H0; cbn [negb andb orb Z.eqb]; rewrite E; cbn [mbind option_bind].
  set (c1 := Cache _ next).
  destruct (defrag_rest HZ c1 e1 f0 [] evs ev f (jiffies ev0)) as (c' & E'); try done.
  - unfold newest, c1; cbn [fragment_next fragments]; rewrite Hprev; apply list_lookup_insert_eq; lia.
  - cbn [app] in E'; rewrite E'; by exists c'.
Qed.

(** ** Properties *)

(** The fragments of a frame that arrive in a row and in time come out, at
    the last one, as one frame: the first fragment with the bodies of the
    others behind it, whatever else the cache holds.  For a frame that begins
    under CCMP the packet numbers must follow one another. *)
Theorem defrag_completes HZ c ev0 f0 evs ev f :
  length (fragments c) = IEEE80211_FRAGMENT_MAX -> (fragment_next c < IEEE80211_FRAGMENT_MAX)%nat ->
  Forall (in_time HZ (jiffies ev0)) ((ev0, f0) :: evs ++ [(ev, f)]) ->
  fragments_of f0 ((snd <$> evs) ++ [f]) -> Forall (fun f => more f = true) (snd <$> evs) -> more f = false -> expanded ev = true ->
  exists c', defrag_run HZ c ((ev0, f0) :: evs ++ [(ev, f)]) =
    Some (c', Queued :: repeat Queued (length evs) ++
      [Continue (rx_skb f0 ++ concat (body <$> (snd <$> evs) ++ [f])) (Effects true (Some (is_multicast_ether_addr (freed ev (rx_skb f)))))]).
Proof. apply frame_reassembles. Qed.

Section Decrypted.
Context `{AuthCipher AesCcm.scratch AesCcm.wf_scratch}.

(** [f] is what CCMP made of the received frame [raw]. *)
Definition decrypted_from (raw : list Z) (f : rx_data) : Prop :=
  Ccmp.subject_to_ccmp raw = true /\ exists k k' has_sta decrypted pullable trimmed,
    Ccmp.ieee80211_crypto_ccmp_decrypt k (security_idx f) has_sta decrypted pullable trimmed raw = (RX_CONTINUE, k', rx_skb f) /\
    key f = Some (CcmpKey k').

(** Such a frame finds its own packet number in the counter. *)
Lemma decrypted_counter raw f n : decrypted_from raw f -> key_counter f = Some n -> n = Ccmp.packet_number raw.
Proof.
  intros (Hs & k & k' & st & d & pu & tr & E & Hk); unfold Ccmp.ieee80211_crypto_ccmp_decrypt in E.
  assert (Ex : negb (ieee80211_is_data (frame_control raw)) && negb (ieee80211_is_robust_mgmt_frame raw) = false)
    by (by rewrite <- negb_orb; apply negb_false_iff); rewrite Ex in E.
  destruct (_ || _); [done|]; destruct (negb pu); [done|]; destruct (memcmp _ _); [done..|].
  destruct (if d then _ else _) as [data ret]; destruct (negb (ret =? 0)); [done|]; destruct (negb tr); [done|].
  injection E as <- _; unfold key_counter, rx_pn_of; rewrite Hk; cbn [Ccmp.rx_pn].
  destruct (<[_ := _]> (Ccmp.rx_pn k) !! security_idx f) as [pn|] eqn:El; cbn; [|done]; intros [= <-].
  apply list_lookup_insert_Some in El as [(_ & <- & _)|[]]; done.
Qed.

(** The fragments that CCMP decrypted have consecutive packet numbers of their
    own. *)
Definition own_numbers (f0 : rx_data) (fs : list rx_data) : Prop :=
  forall raw0 raw i f, fs !! i = Some f -> protected_first f0 = true -> decrypted_from raw0 f0 -> decrypted_from raw f ->
    Ccmp.packet_number raw = (Ccmp.packet_number raw0 + Z.of_nat (S i)) mod 2 ^ 48.

Lemma fragments_own_numbers f0 fs : fragments_of f0 fs -> own_numbers f0 fs.
Proof.
  intros (_ & _ & Hp) raw0 raw i f Hi Hf H0 Hd; destruct (Hp i f Hi) as (_ & _ & _ & _ & Hn).
  destruct (Hn Hf) as (pn & E0 & E); rewrite <- (decrypted_counter raw0 f0 pn H0 E0).
  symmetry; apply (decrypted_counter raw f); done.
Qed.

(** What a run may give out: a reassembled frame is made of the history. *)
Definition outcome_sound (hist : list rx_data) (o : outcome) : Prop :=
  match o with
  | Continue skb eff => fragmented eff = true -> exists f0 fs, made_of hist skb f0 fs /\ own_numbers f0 fs
  | _ => True
  end.

Lemma outcome_ok_sound hist o : outcome_ok hist o -> outcome_sound hist o.
Proof.
  destruct o as [skb eff|r skb|]; cbn; [|done..]; intros Ho Hf; destruct (Ho Hf) as (f0 & fs & Hm).
  exists f0, fs; split; [done|]; apply fragments_own_numbers, Hm.
Qed.

(** C31: whatever frames an interface receives from the time its cache is
    empty, in any order and interleaving, no access leaves the cache or the
    key, and every frame that comes out reassembled is made of frames received
    before it, in that order: a first fragment and the bodies of fragments
    numbered one, two and on, of the same sequence number, queue, frame type
    and addresses, all but the last saying that more follow.  When the first
    came protected under a CCMP key, every other came with a CCMP key whose
    receive counter, when the fragment was handled, was one above that of the
    fragment before; so those that CCMP decrypted have consecutive packet
    numbers of their own.  (The Protected bit of the others is not looked at:
    a plaintext fragment is accepted when another frame has moved the counter
    on, see [defrag_accepts_plaintext].) *)
Theorem defrag_sound HZ c evs : length (fragments c) = IEEE80211_FRAGMENT_MAX -> (fragment_next c < IEEE80211_FRAGMENT_MAX)%nat ->
  Forall (fun e => skb_list e = []) (fragments c) -> Forall (fun x => rx_ok (snd x)) evs ->
  exists c' os, defrag_run HZ c evs = Some (c', os) /\ length os = length evs /\
    forall i o, os !! i = Some o -> outcome_sound (snd <$> take (S i) evs) o.
Proof.
  intros Hl Hn He Hok; assert (Hc : cache_ok [] c) by (split_and!; [done|done|]; eapply Forall_impl; [|exact He]; by left); clear Hl Hn He.
  assert (G : forall hist, cache_ok hist c -> Forall (fun x => rx_ok (snd x)) evs ->
    exists c' os, defrag_run HZ c evs = Some (c', os) /\ length os = length evs /\
      forall i o, os !! i = Some o -> outcome_ok (hist ++ (snd <$> take (S i) evs)) o).
  { clear Hc Hok; revert c; induction evs as [|[ev f] evs IH]; intros c hist Hc Hf; [by exists c, []|].
    apply Forall_cons_1 in Hf as [Hf1 Hf]; destruct (defragment_ok HZ hist ev c f Hc Hf1) as (c1 & o & E & Hc1 & Ho).
    destruct (IH c1 _ Hc1 Hf) as (c' & os & E' & El & Hos); cbn [defrag_run]; rewrite E; cbn [mbind option_bind]; rewrite E'; cbn [mbind option_bind].
    exists c', (o :: os); split; [done|]; split; [cbn; lia|]; intros [|i] o' Ho'; cbn in Ho'; [simplify_eq Ho'; intros <-; done|].
    specialize (Hos i o' Ho'); rewrite <- app_assoc in Hos; exact Hos. }
  destruct (G [] Hc Hok) as (c' & os & E & El & Ho); exists c', os; split_and!; [done..|]; intros i o Hi; by apply outcome_ok_sound, (Ho i o Hi).
Qed.

End Decrypted.

(** ** Witnesses *)

(** A data frame of sequence number 77 with the second byte [fc1] of the frame
    control, and a CCMP key whose receive counters are all [n]. *)
Definition demo_frame (fc1 frag : Z) (payload : list Z) : list Z :=
  [0x08; fc1; 0; 0] ++ repeat 2 6 ++ repeat 4 6 ++ repeat 6 6 ++ put_le16 (16 * 77 + frag) ++ payload.
Definition demo_rx (fc1 frag n : Z) (payload : list Z) : rx_data :=
  Rx (demo_frame fc1 frag payload) (Some (CcmpKey (Ccmp.Key 0 (repeat [0; 0; 0; 0; 0; n] 17) 0 0))) 16 0.
Definition demo_env (t : Z) : env := Env t true (fun _ => 0) true (fun _ => []).
Definition demo_cache : cache := Cache (repeat (Entry 0 0 0 0 0 [] false [0; 0; 0; 0; 0; 0]) 4) 3.

Lemma demo_rx_ok fc1 frag n payload : is_u8 n -> rx_ok (demo_rx fc1 frag n payload).
Proof.
  intros Hn; split; [cbn; lia|]; split; [|done]; apply Forall_forall; intros x Hx; apply repeat_spec in Hx as ->.
  split; [|done]; by repeat (apply Forall_cons_2; [done|]).
Qed.

Definition demo_events : list (env * rx_data) :=
  [(demo_env 100, demo_rx 0x44 0 7 [1; 2]); (demo_env 101, demo_rx 0x44 1 8 [3]); (demo_env 102, demo_rx 0x40 2 9 [4; 5])].

Lemma defrag_completes_witness : exists c',
  defrag_run 100 demo_cache demo_events =
    Some (c', [Queued; Queued; Continue (demo_frame 0x44 0 [1; 2; 3; 4; 5]) (Effects true (Some false))]).
Proof.
  apply (defrag_completes 100 demo_cache (demo_env 100) (demo_rx 0x44 0 7 [1; 2]) [(demo_env 101, demo_rx 0x44 1 8 [3])]
    (demo_env 102) (demo_rx 0x40 2 9 [4; 5])); try done.
  - vm_compute; lia.
  - repeat (constructor; [split; [by apply demo_rx_ok | done]|]); constructor.
  - split; [done|]; split; [done|]; intros [|[|i]] f Hf; cbn in Hf; simplify_eq Hf; intros <-;
      (split_and!; [done..|]); intros _; by exists 7.
  - by repeat constructor.
Defined.

(** Two fragments as they come from the air, and what CCMP makes of them. *)
Definition demo_raw (fc1 frag n : Z) (payload : list Z) : list Z :=
  demo_frame fc1 frag (Ccmp.ccmp_pn2hdr (Ccmp.pn_bytes n) 1 ++ payload ++ repeat 0 8).
Definition demo_opened (fc1 frag n : Z) (payload : list Z) : rx_data :=
  Rx (demo_frame fc1 frag payload) (Some (CcmpKey (Ccmp.Key 0 (<[0%nat := Ccmp.pn_bytes n]> (repeat [0; 0; 0; 0; 0; 5] 17)) 0 0))) 16 0.

Lemma demo_opened_ok fc1 frag n payload : is_u8 n -> rx_ok (demo_opened fc1 frag n payload).
Proof.
  intros Hn; split; [cbn; lia|]; split; [|done]; cbn; apply Forall_cons_2.
  - split; [|done]; unfold Ccmp.pn_bytes; repeat (apply Forall_cons_2; [apply u8_range|]); by apply Forall_nil_2.
  - by repeat (apply Forall_cons_2; [split; [by repeat (apply Forall_cons_2; [done|])|done]|]).
Qed.

Lemma defrag_sound_witness :
  let evs := [(demo_env 100, demo_opened 0x44 0 7 [1; 2]); (demo_env 101, demo_opened 0x40 1 8 [3])] in
  (exists c' os, defrag_run 100 demo_cache evs = Some (c', os) /\ length os = 2%nat /\
    forall i o, os !! i = Some o -> @outcome_sound Ccmp.demo_cipher (snd <$> take (S i) evs) o) /\
  @decrypted_from Ccmp.demo_cipher (demo_raw 0x44 0 7 [1; 2]) (demo_opened 0x44 0 7 [1; 2]) /\
  @decrypted_from Ccmp.demo_cipher (demo_raw 0x40 1 8 [3]) (demo_opened 0x40 1 8 [3]).
Proof.
  intros evs; split; [|split].
  - apply (@defrag_sound Ccmp.demo_cipher 100 demo_cache evs); [done | vm_compute; lia | by repeat constructor |].
    repeat (constructor; [by apply demo_opened_ok|]); constructor.
  - split; [reflexivity|]; exists (Ccmp.Key 0 (repeat [0; 0; 0; 0; 0; 5] 17) 0 0); eexists; exists true, true, true, true; split; reflexivity.
  - split; [reflexivity|]; exists (Ccmp.Key 0 (repeat [0; 0; 0; 0; 0; 5] 17) 0 0); eexists; exists true, true, true, true; split; reflexivity.
Defined.

(** The counters of the key are compared and not the packet number of the
    fragment, and its Protected bit is not looked at: when another frame has
    moved the counter on, a plaintext fragment completes a protected frame. *)
Example defrag_accepts_plaintext : exists c',
  defrag_run 100 demo_cache [(demo_env 100, demo_rx 0x44 0 7 [1; 2]); (demo_env 101, demo_rx 0x00 1 8 [66; 66])] =
    Some (c', [Queued; Continue (demo_frame 0x44 0 [1; 2; 66; 66]) (Effects true (Some false))]) /\
  protected_first (demo_rx 0x44 0 7 [1; 2]) = true /\
  ieee80211_has_protected (frame_control (rx_skb (demo_rx 0x00 1 8 [66; 66]))) = false.
Proof. by eexists. Qed.

End Defrag.
