(* ===== verification/RegRules.v ===== *)
(** * Regulatory rules and channels

    [net/wireless/reg.c], the part that computes: validity of rules, the
    intersection of two regulatory domains, the rule of a frequency, and the
    flags and power limits of channels.  A regulatory domain is the list of its
    rules with its two letters; frequencies are 32-bit numbers of kHz. *)

From S2P Require Import Prelude Ieee80211.

Module RegRules.

Definition EINVAL : Z := 22.
Definition ERANGE : Z := 34.
Definition NL80211_MAX_SUPP_REG_RULES : nat := 32.

Definition NL80211_RRF_NO_OFDM : Z := 0x1.
Definition NL80211_RRF_DFS : Z := 0x10.
Definition NL80211_RRF_PASSIVE_SCAN : Z := 0x80.
Definition NL80211_RRF_NO_IBSS : Z := 0x100.

Definition IEEE80211_CHAN_DISABLED : Z := 0x1.
Definition IEEE80211_CHAN_PASSIVE_SCAN : Z := 0x2.
Definition IEEE80211_CHAN_NO_IBSS : Z := 0x4.
Definition IEEE80211_CHAN_RADAR : Z := 0x8.
Definition IEEE80211_CHAN_NO_HT40PLUS : Z := 0x10.
Definition IEEE80211_CHAN_NO_HT40MINUS : Z := 0x20.
Definition IEEE80211_CHAN_NO_OFDM : Z := 0x40.
Definition IEEE80211_CHAN_NO_HT40 : Z := Z.lor IEEE80211_CHAN_NO_HT40PLUS IEEE80211_CHAN_NO_HT40MINUS.

Definition MHZ_TO_KHZ (freq : Z) : Z := freq * 1000.
Definition MBI_TO_DBI (gain : Z) : Z := gain / 100.
Definition MBM_TO_DBM (gain : Z) : Z := gain / 100.

(** ** Rules *)

Record freq_range := FreqRange { start_freq_khz : Z; end_freq_khz : Z; max_bandwidth_khz : Z }.
Record power_rule := PowerRule { max_antenna_gain : Z; max_eirp : Z }.
Record reg_rule := RegRule { range : freq_range; power : power_rule; rule_flags : Z }.
Record regdomain := Regdomain { reg_rules : list reg_rule; alpha2 : Z * Z; dfs_region : Z }.

Definition is_valid_reg_rule (rule : reg_rule) : bool :=
  let fr := range rule in
  let freq_diff := u32 (end_freq_khz fr - start_freq_khz fr) in
  negb (start_freq_khz fr <=? 0) && negb (end_freq_khz fr <=? 0) &&
  negb (end_freq_khz fr <? start_freq_khz fr) &&
  negb ((end_freq_khz fr <=? start_freq_khz fr) || (freq_diff <? max_bandwidth_khz fr)).

Definition is_valid_rd (rd : regdomain) : bool :=
  negb (length (reg_rules rd) =? 0)%nat && (length (reg_rules rd) <=? NL80211_MAX_SUPP_REG_RULES)%nat &&
  forallb is_valid_reg_rule (reg_rules rd).

Definition reg_does_bw_fit (fr : freq_range) (center_freq_khz bw_khz : Z) : bool :=
  let s := u32 (center_freq_khz - bw_khz / 2) in
  let e := u32 (center_freq_khz + bw_khz / 2) in
  (start_freq_khz fr <=? s) && (e <=? end_freq_khz fr).

(** [abs] works on [int]. *)
Definition freq_in_rule_band (fr : freq_range) (freq_khz : Z) : bool :=
  let limit := if 45 * 1000000 <? freq_khz then 10 * 1000000 else 2 * 1000000 in
  (Z.abs (s32 (freq_khz - start_freq_khz fr)) <=? limit) || (Z.abs (s32 (freq_khz - end_freq_khz fr)) <=? limit).

(** [REG_RULE], frequencies in MHz. *)
Definition REG_RULE (s e bw gain eirp f : Z) : reg_rule :=
  RegRule (FreqRange (MHZ_TO_KHZ s) (MHZ_TO_KHZ e) (MHZ_TO_KHZ bw)) (PowerRule (gain * 100) (eirp * 100)) f.

Definition world_regdom : regdomain :=
  let passive := Z.lor NL80211_RRF_PASSIVE_SCAN NL80211_RRF_NO_IBSS in
  Regdomain
    [REG_RULE (2412 - 10) (2462 + 10) 40 6 20 0;
     REG_RULE (2467 - 10) (2472 + 10) 40 6 20 passive;
     REG_RULE (2484 - 10) (2484 + 10) 20 6 20 (Z.lor passive NL80211_RRF_NO_OFDM);
     REG_RULE (5180 - 10) (5240 + 10) 40 6 20 passive;
     REG_RULE (5745 - 10) (5825 + 10) 40 6 20 passive;
     REG_RULE (56160 + 2160 * 1 - 1080) (56160 + 2160 * 3 + 1080) 2160 0 0 0] (48, 48) 0.

(** The code and the rule written. *)
Definition reg_rules_intersect (rule1 rule2 : reg_rule) : Z * reg_rule :=
  let r1 := range rule1 in
  let r2 := range rule2 in
  let s := Z.max (start_freq_khz r1) (start_freq_khz r2) in
  let e := Z.min (end_freq_khz r1) (end_freq_khz r2) in
  let bw := Z.min (max_bandwidth_khz r1) (max_bandwidth_khz r2) in
  let freq_diff := u32 (e - s) in
  let bw := if freq_diff <? bw then freq_diff else bw in
  let pw := PowerRule (Z.min (max_antenna_gain (power rule1)) (max_antenna_gain (power rule2)))
                      (Z.min (max_eirp (power rule1)) (max_eirp (power rule2))) in
  let rule := RegRule (FreqRange s e bw) pw (Z.lor (rule_flags rule1) (rule_flags rule2)) in
  (if negb (is_valid_reg_rule rule) then - EINVAL else 0, rule).

(** The second pass: at most [num] rules are written. *)
Fixpoint fill_rules (num : nat) (pairs : list (reg_rule * reg_rule)) (written : list reg_rule) : list reg_rule :=
  match pairs with
  | [] => written
  | (r1, r2) :: pairs =>
      if (length written <? num)%nat then
        let '(r, rule) := reg_rules_intersect r1 r2 in
        if negb (r =? 0) then fill_rules num pairs written else fill_rules num pairs (written ++ [rule])
      else written
  end.

(** [allocated]: whether [kzalloc] succeeds. *)
Definition regdom_intersect (allocated : bool) (rd1 rd2 : regdomain) : option regdomain :=
  let pairs := list_prod (reg_rules rd1) (reg_rules rd2) in
  let num_rules := length (List.filter (fun '(r1, r2) => (reg_rules_intersect r1 r2).1 =? 0) pairs) in
  if (num_rules =? 0)%nat then None
  else if negb allocated then None
  else
    let rules := fill_rules num_rules pairs [] in
    if negb (length rules =? num_rules)%nat then None
    else Some (Regdomain rules (57, 56) 0).

Definition map_regdom_flags (rd_flags : Z) : Z :=
  let flag b c := if negb (Z.land rd_flags b =? 0) then c else 0 in
  Z.lor (Z.lor (Z.lor (flag NL80211_RRF_PASSIVE_SCAN IEEE80211_CHAN_PASSIVE_SCAN)
                      (flag NL80211_RRF_NO_IBSS IEEE80211_CHAN_NO_IBSS))
               (flag NL80211_RRF_DFS IEEE80211_CHAN_RADAR))
        (flag NL80211_RRF_NO_OFDM IEEE80211_CHAN_NO_OFDM).

(** [ERR_PTR] or a rule. *)
Inductive rule_or_err := Rule (r : reg_rule) | Err (e : Z).

Fixpoint find_rule (rules : list reg_rule) (center_freq : Z) (band_rule_found : bool) : rule_or_err :=
  match rules with
  | [] => Err (if negb band_rule_found then - ERANGE else - EINVAL)
  | rr :: rules =>
      let found := band_rule_found || freq_in_rule_band (range rr) center_freq in
      let bw_fits := reg_does_bw_fit (range rr) center_freq (MHZ_TO_KHZ 20) in
      if found && bw_fits then Rule rr else find_rule rules center_freq found
  end.

Definition freq_reg_info_regd (center_freq : Z) (regd : option regdomain) : rule_or_err :=
  match regd with None => Err (- EINVAL) | Some rd => find_rule (reg_rules rd) center_freq false end.

Inductive initiator := SET_BY_CORE | SET_BY_USER | SET_BY_DRIVER | SET_BY_COUNTRY_IE.

#[global] Instance initiator_eq_dec : EqDecision initiator.
Proof. solve_decision. Defined.

(** [lr_init] is the initiator of the last request, [wiphy_regd] the domain of
    the device and [cfg_regd] the current one. *)
Definition freq_reg_info (lr_init : initiator) (wiphy_regd cfg_regd : option regdomain) (center_freq : Z) : rule_or_err :=
  let regd :=
    if negb (bool_decide (lr_init = SET_BY_COUNTRY_IE)) && negb (bool_decide (lr_init = SET_BY_USER)) && bool_decide (is_Some wiphy_regd)
    then wiphy_regd else cfg_regd in
  freq_reg_info_regd center_freq regd.

(** ** Channels *)

Record channel := Channel {
  center_freq : Z; flags : Z; antenna_gain : Z; max_power : Z; max_reg_power : Z;
  beacon_found : bool; orig_flags : Z; orig_mag : Z; orig_mpwr : Z }.

Definition set_flags (c : channel) (f : Z) : channel :=
  Channel (center_freq c) f (antenna_gain c) (max_power c) (max_reg_power c) (beacon_found c) (orig_flags c) (orig_mag c) (orig_mpwr c).

(** What the channel update reads of the device and of the last request;
    [is_requester] says that the last request came from this device. *)
Record reg_context := RegContext {
  lr_initiator : initiator; is_requester : bool; strict : bool; custom : bool;
  wiphy_regd : option regdomain; cfg_regd : option regdomain }.

Definition handle_channel (ctx : reg_context) (init : initiator) (c : channel) : channel :=
  match freq_reg_info (lr_initiator ctx) (wiphy_regd ctx) (cfg_regd ctx) (MHZ_TO_KHZ (center_freq c)) with
  | Err e =>
      if bool_decide (init = SET_BY_COUNTRY_IE) && (e =? - ERANGE) then c
      else set_flags c IEEE80211_CHAN_DISABLED
  | Rule rule =>
      let bw_flags := if max_bandwidth_khz (range rule) <? MHZ_TO_KHZ 40 then IEEE80211_CHAN_NO_HT40 else 0 in
      let gain := MBI_TO_DBI (max_antenna_gain (power rule)) in
      let eirp := MBM_TO_DBM (max_eirp (power rule)) in
      if bool_decide (lr_initiator ctx = SET_BY_DRIVER) && is_requester ctx && strict ctx
      then
        let f := Z.lor (map_regdom_flags (rule_flags rule)) bw_flags in
        Channel (center_freq c) f gain eirp eirp (beacon_found c) f gain eirp
      else
        let f := Z.lor (Z.lor (orig_flags c) bw_flags) (map_regdom_flags (rule_flags rule)) in
        let mp := if negb (orig_mpwr c =? 0) then
                    if bool_decide (init = SET_BY_COUNTRY_IE) && custom ctx && strict ctx then eirp
                    else Z.min (orig_mpwr c) eirp
                  else eirp in
        Channel (center_freq c) f (Z.min (orig_mag c) gain) mp eirp false (orig_flags c) (orig_mag c) (orig_mpwr c)
  end.

Definition handle_band (ctx : reg_context) (init : initiator) (sband : option (list channel)) : option (list channel) :=
  option_map (fmap (handle_channel ctx init)) sband.

Definition handle_channel_custom (regd : option regdomain) (c : channel) : channel :=
  match freq_reg_info_regd (MHZ_TO_KHZ (center_freq c)) regd with
  | Err _ => set_flags c IEEE80211_CHAN_DISABLED
  | Rule rule =>
      let bw_flags := if max_bandwidth_khz (range rule) <? MHZ_TO_KHZ 40 then IEEE80211_CHAN_NO_HT40 else 0 in
      let eirp := MBM_TO_DBM (max_eirp (power rule)) in
      Channel (center_freq c) (Z.lor (flags c) (Z.lor (map_regdom_flags (rule_flags rule)) bw_flags))
        (MBI_TO_DBI (max_antenna_gain (power rule))) eirp eirp (beacon_found c) (orig_flags c) (orig_mag c) (orig_mpwr c)
  end.

Definition handle_band_custom (regd : option regdomain) (sband : option (list channel)) : option (list channel) :=
  option_map (fmap (handle_channel_custom regd)) sband.

Definition is_world_regdom (a : Z * Z) : bool := (a.1 =? 48) && (a.2 =? 48).

(** [lr] is the initiator of the last request, if there is one. *)
Definition reg_is_world_roaming (cr : regdomain) (wr : option regdomain) (lr : option initiator) (custom : bool) : bool :=
  if is_world_regdom (alpha2 cr) || match wr with Some wr => is_world_regdom (alpha2 wr) | None => false end then true
  else match lr with Some i => negb (bool_decide (i = SET_BY_COUNTRY_IE)) && custom | None => false end.

(** [roaming] is [reg_is_world_roaming], [no_hints] the device flag against
    beacon hints. *)
Definition handle_reg_beacon (roaming no_hints : bool) (beacon_freq : Z) (c : channel) : channel :=
  if negb (center_freq c =? beacon_freq) then c
  else if beacon_found c then c
  else
    let c := Channel (center_freq c) (flags c) (antenna_gain c) (max_power c) (max_reg_power c) true (orig_flags c) (orig_mag c) (orig_mpwr c) in
    if negb roaming then c else if no_hints then c
    else set_flags c (Z.land (Z.land (flags c) (Z.lnot IEEE80211_CHAN_PASSIVE_SCAN)) (Z.lnot IEEE80211_CHAN_NO_IBSS)).

(** ** HT40 *)

Definition is_ht40_allowed (c : option channel) : bool :=
  match c with
  | None => false
  | Some c =>
      negb (negb (Z.land (flags c) IEEE80211_CHAN_DISABLED =? 0)) &&
      negb (Z.land (flags c) IEEE80211_CHAN_NO_HT40 =? IEEE80211_CHAN_NO_HT40)
  end.

(** The last channel of the band at a frequency. *)
Definition channel_at (chans : list channel) (freq : Z) : option channel :=
  list.last (List.filter (fun c => center_freq c =? freq) chans).

Definition mark (c : channel) (allowed : bool) (flag : Z) : channel :=
  set_flags c (if negb allowed then Z.lor (flags c) flag else Z.land (flags c) (Z.lnot flag)).

Definition reg_process_ht_flags_channel (chans : list channel) (i : nat) : list channel :=
  match chans !! i with
  | None => chans
  | Some c =>
      if negb (is_ht40_allowed (Some c)) then <[i := set_flags c (Z.lor (flags c) IEEE80211_CHAN_NO_HT40)]> chans
      else
        let before := channel_at chans (center_freq c - 20) in
        let after := channel_at chans (center_freq c + 20) in
        let c := mark c (is_ht40_allowed before) IEEE80211_CHAN_NO_HT40MINUS in
        <[i := mark c (is_ht40_allowed after) IEEE80211_CHAN_NO_HT40PLUS]> chans
  end.

Definition reg_process_ht_flags_band (sband : option (list channel)) : option (list channel) :=
  option_map (fun chans => fold_left reg_process_ht_flags_channel (seq 0 (length chans)) chans) sband.

(** ** Validity and fit *)

Definition rule_ok (rule : reg_rule) : Prop :=
  is_u32 (start_freq_khz (range rule)) /\ is_u32 (end_freq_khz (range rule)) /\ is_u32 (max_bandwidth_khz (range rule)).

Lemma valid_rule_spec rule : rule_ok rule ->
  is_valid_reg_rule rule = true <->
  0 < start_freq_khz (range rule) /\ start_freq_khz (range rule) < end_freq_khz (range rule) /\
  max_bandwidth_khz (range rule) <= end_freq_khz (range rule) - start_freq_khz (range rule).
Proof.
  intros (Hs & He & Hb); unfold is_valid_reg_rule, is_uint in *.
  rewrite !andb_true_iff, !negb_true_iff, orb_false_iff, !Z.leb_gt, !Z.ltb_ge.
  split; [intros [[[? ?] ?] [? Hw]]|intros (? & ? & ?)].
  - unfold u32 in Hw; rewrite wrap_small in Hw by (unfold is_uint; lia); lia.
  - unfold u32; rewrite wrap_small by (unfold is_uint; lia); lia.
Qed.

(** A channel of width [bw] around [c] inside the range of the rule. *)
Definition fits (rule : reg_rule) (c bw : Z) : Prop :=
  start_freq_khz (range rule) <= c - bw / 2 /\ c + bw / 2 <= end_freq_khz (range rule).

Lemma bw_fit_spec rule c bw : 0 <= bw -> bw / 2 <= c -> c + bw / 2 < 2 ^ 32 ->
  reg_does_bw_fit (range rule) c bw = true <-> fits rule c bw.
Proof.
  intros Hb Hc Hm; assert (0 <= bw / 2) by (apply Z.div_pos; lia); unfold reg_does_bw_fit, fits, u32.
  rewrite !wrap_small by (unfold is_uint; lia); by rewrite andb_true_iff, !Z.leb_le.
Qed.

Lemma u32_min a b : is_u32 a -> is_u32 b -> is_u32 (Z.min a b).
Proof. unfold is_uint; lia. Qed.

Lemma intersect_ok rule1 rule2 : rule_ok rule1 -> rule_ok rule2 -> rule_ok (reg_rules_intersect rule1 rule2).2.
Proof.
  intros (? & ? & ?) (? & ? & ?); unfold reg_rules_intersect; split_and!; cbn; [|by apply u32_min|].
  - unfold is_uint in *; lia.
  - destruct (_ <? _); [apply u32_range | by apply u32_min].
Qed.

(** The intersection is valid as soon as the ranges overlap. *)
Lemma intersect_valid rule1 rule2 : rule_ok rule1 -> rule_ok rule2 ->
  0 < start_freq_khz (range rule1) ->
  (reg_rules_intersect rule1 rule2).1 = 0 <->
  Z.max (start_freq_khz (range rule1)) (start_freq_khz (range rule2)) < Z.min (end_freq_khz (range rule1)) (end_freq_khz (range rule2)).
Proof.
  intros H1 H2 Hs; pose proof (valid_rule_spec _ (intersect_ok rule1 rule2 H1 H2)) as V; revert V.
  unfold reg_rules_intersect; cbn [fst snd range start_freq_khz end_freq_khz max_bandwidth_khz].
  set (rule := RegRule _ _ _); destruct H1 as (? & ? & ?), H2 as (? & ? & ?); unfold is_uint in *.
  assert (B : 0 < Z.max (start_freq_khz (range rule1)) (start_freq_khz (range rule2)) /\
    Z.min (end_freq_khz (range rule1)) (end_freq_khz (range rule2)) < 2 ^ 32) by lia.
  set (s := Z.max _ _) in *; set (e := Z.min (end_freq_khz _) _) in *; intros V.
  assert (Hbw : s < e -> (if u32 (e - s) <? Z.min (max_bandwidth_khz (range rule1)) (max_bandwidth_khz (range rule2))
    then u32 (e - s) else Z.min (max_bandwidth_khz (range rule1)) (max_bandwidth_khz (range rule2))) <= e - s).
  { intros Hse; unfold u32; rewrite wrap_small by (unfold is_uint; lia); destruct (Z.ltb_spec (e - s) (Z.min (max_bandwidth_khz (range rule1)) (max_bandwidth_khz (range rule2)))); lia. }
  destruct (is_valid_reg_rule rule); cbn [negb].
  - split; [intros _; apply V; done | done].
  - split; [unfold EINVAL; lia|]; intros Hse; enough (false = true) by done; apply V; split_and!; [lia | lia | by apply Hbw].
Qed.

Lemma intersect_fits rule1 rule2 c bw :
  fits (reg_rules_intersect rule1 rule2).2 c bw <-> fits rule1 c bw /\ fits rule2 c bw.
Proof. unfold fits, reg_rules_intersect; cbn; lia. Qed.

(** ** The rules of the intersection *)

Definition valid_pair (p : reg_rule * reg_rule) : bool := (reg_rules_intersect p.1 p.2).1 =? 0.
Definition meet (p : reg_rule * reg_rule) : reg_rule := (reg_rules_intersect p.1 p.2).2.

Lemma fill_rules_all num pairs written : (length written + length (List.filter valid_pair pairs) <= num)%nat ->
  fill_rules num pairs written = written ++ (meet <$> List.filter valid_pair pairs).
Proof.
  revert written; induction pairs as [|[r1 r2] pairs IH]; intros written Hl; [by rewrite app_nil_r|].
  cbn [List.filter] in *; change (valid_pair (r1, r2)) with ((reg_rules_intersect r1 r2).1 =? 0) in *.
  assert (Em : meet (r1, r2) = (reg_rules_intersect r1 r2).2) by done.
  cbn [fill_rules]; destruct (reg_rules_intersect r1 r2) as [r rule]; cbn [fst snd] in *.
  destruct (Z.eqb_spec r 0); cbn [negb length] in *.
  - rewrite (proj2 (Nat.ltb_lt _ _)), IH by (rewrite ?length_app; cbn; lia); rewrite fmap_cons, Em, <- app_assoc; done.
  - destruct (Nat.ltb_spec (length written) num); [by apply IH|].
    destruct (List.filter valid_pair pairs); cbn in *; [by rewrite app_nil_r | lia].
Qed.

(** The count of the first pass is what the second pass writes. *)
Lemma regdom_intersect_rules rd1 rd2 :
  regdom_intersect true rd1 rd2 =
  let rules := meet <$> List.filter valid_pair (list_prod (reg_rules rd1) (reg_rules rd2)) in
  match rules with [] => None | _ => Some (Regdomain rules (57, 56) 0) end.
Proof.
  unfold regdom_intersect.
  assert (E : forall l, List.filter (fun '(r1, r2) => (reg_rules_intersect r1 r2).1 =? 0) l = List.filter valid_pair l)
    by (induction l as [|[r1 r2] l IH]; [done|]; cbn [List.filter]; by rewrite IH).
  rewrite E; set (l := List.filter valid_pair _); cbn [negb].
  destruct (Nat.eqb_spec (length l) 0) as [E0|E0]; [by destruct l|].
  assert (F : fill_rules (length l) (list_prod (reg_rules rd1) (reg_rules rd2)) [] = meet <$> l) by (by apply fill_rules_all).
  rewrite F, length_fmap, Nat.eqb_refl; by destruct l.
Qed.

(** The fields are 32-bit numbers and no range starts at 0; every valid domain
    is of this kind, and so is [world_regdom], which is not valid. *)
Definition rd_ok (rd : regdomain) : Prop := Forall (fun r => rule_ok r /\ 0 < start_freq_khz (range r)) (reg_rules rd).

Lemma valid_rd_ok rd : Forall rule_ok (reg_rules rd) -> is_valid_rd rd = true -> rd_ok rd.
Proof.
  unfold is_valid_rd, rd_ok; rewrite !andb_true_iff, forallb_forall, !List.Forall_forall; intros Hf [_ Hv] r Hr.
  split; [by apply Hf|]; by apply (valid_rule_spec r (Hf _ Hr)), Hv.
Qed.

(** Some rule of the domain has room for the channel. *)
Definition allows (rd : option regdomain) (c bw : Z) : Prop :=
  match rd with Some rd => Exists (fun rule => fits rule c bw) (reg_rules rd) | None => False end.

Lemma rd_ok_rule rd rule : rd_ok rd -> In rule (reg_rules rd) -> rule_ok rule /\ 0 < start_freq_khz (range rule).
Proof.
  unfold rd_ok; rewrite List.Forall_forall; auto.
Qed.

Lemma in_fmap_iff {A B} (f : A -> B) y l : In y (f <$> l) <-> exists x, f x = y /\ In x l.
Proof. induction l as [|x l IH]; [split; [by intros []|by intros (? & _ & [])]|]; rewrite fmap_cons; cbn [In]; rewrite IH.
  split; [intros [<-|(z & <- & Hz)]; [exists x; auto|exists z; auto] | intros (z & <- & [->|Hz]); [by left|right; by exists z]]. Qed.

Lemma in_intersect rd1 rd2 rule : In rule (meet <$> List.filter valid_pair (list_prod (reg_rules rd1) (reg_rules rd2))) <->
  exists r1 r2, In r1 (reg_rules rd1) /\ In r2 (reg_rules rd2) /\ (reg_rules_intersect r1 r2).1 = 0 /\ rule = (reg_rules_intersect r1 r2).2.
Proof.
  rewrite in_fmap_iff; split.
  - intros ([r1 r2] & <- & [Hp Hv]%filter_In); apply in_prod_iff in Hp as [? ?]; exists r1, r2; split_and!; try done; by apply Z.eqb_eq.
  - intros (r1 & r2 & H1 & H2 & Hv & ->); exists (r1, r2); split; [done|]; apply filter_In; split; [by apply in_prod|]; by apply Z.eqb_eq.
Qed.

(** ** The rule of a frequency *)

Lemma s32_small z : - 2 ^ 31 <= z < 2 ^ 31 -> s32 z = z.
Proof. intros Hz; unfold s32; rewrite Z.mod_small; lia. Qed.

(** Rules of up to 4 GHz, and of up to 20 GHz above 45 GHz: a channel they
    have room for is in their band. *)
Definition narrow (rule : reg_rule) : Prop :=
  end_freq_khz (range rule) - start_freq_khz (range rule) <= 4000000 \/
  45000000 <= start_freq_khz (range rule) /\ end_freq_khz (range rule) - start_freq_khz (range rule) <= 20000000.

Lemma fits_in_band rule c : rule_ok rule -> narrow rule -> fits rule c 20000 -> freq_in_rule_band (range rule) c = true.
Proof.
  intros (Hs & He & _) Hn [F1 F2]; change (20000 / 2) with 10000 in *; unfold freq_in_rule_band, narrow, is_uint in *.
  apply orb_true_iff; rewrite !Z.leb_le, !s32_small by lia; destruct (Z.ltb_spec (45 * 1000000) c); lia.
Qed.

Lemma find_rule_first rules c found : Forall (fun r => rule_ok r /\ narrow r) rules -> 10000 <= c -> c + 10000 < 2 ^ 32 ->
  find_rule rules c found =
    match List.find (fun r => reg_does_bw_fit (range r) c (MHZ_TO_KHZ 20)) rules with
    | Some r => Rule r
    | None => Err (if found || existsb (fun r => freq_in_rule_band (range r) c) rules then - EINVAL else - ERANGE)
    end.
Proof.
  intros Hf Hc Hm; revert found; induction Hf as [|r rules [Ho Hn] Hf IH]; intros found; cbn [find_rule List.find existsb].
  - rewrite orb_false_r; by destruct found.
  - destruct (reg_does_bw_fit (range r) c (MHZ_TO_KHZ 20)) eqn:E; [|rewrite andb_false_r, IH, orb_assoc; done].
    change (MHZ_TO_KHZ 20) with 20000 in E; apply bw_fit_spec in E; [|lia|change (20000 / 2) with 10000; lia..].
    by rewrite (fits_in_band r c Ho Hn E), orb_true_r.
Qed.

Lemma find_rule_found rules c found r : find_rule rules c found = Rule r ->
  In r rules /\ reg_does_bw_fit (range r) c (MHZ_TO_KHZ 20) = true.
Proof.
  revert found; induction rules as [|r0 rules IH]; intros found; cbn [find_rule]; [done|].
  destruct (_ && _) eqn:E; [intros [= <-]; apply andb_true_iff in E as [_ E]; split; [by left|done]|].
  intros [? ?]%IH; split; [by right|done].
Qed.

Lemma find_rule_erange rules c found : find_rule rules c found = Err (- ERANGE) ->
  Forall (fun r => freq_in_rule_band (range r) c = false) rules.
Proof.
  revert found; induction rules as [|r0 rules IH]; intros found; cbn [find_rule]; [constructor|].
  destruct (freq_in_rule_band (range r0) c) eqn:E.
  - rewrite orb_true_r; cbn [andb]; destruct (reg_does_bw_fit _ _ _); [done|]; intros H; exfalso; revert H.
    clear; induction rules as [|r rules IH]; cbn [find_rule negb]; [done|]; cbn [orb andb]; by destruct (reg_does_bw_fit _ _ _).
  - rewrite orb_false_r; destruct (_ && _); [done|]; intros H; constructor; [done | by eapply IH].
Qed.

(** ** Flags *)

Definition has_flag (f n : Z) : bool := negb (Z.land f (Z.shiftl 1 n) =? 0).

(** The restrictions [f] are among [g]. *)
Definition flags_in (f g : Z) : Prop := Z.land g f = f.

Lemma flags_in_lor_r f g : flags_in f (Z.lor g f).
Proof. unfold flags_in; apply Z.bits_inj'; intros i _; rewrite Z.land_spec, Z.lor_spec; btauto. Qed.

Lemma flags_in_lor f g h : flags_in f g -> flags_in f (Z.lor g h).
Proof.
  unfold flags_in; intros E; apply Z.bits_inj'; intros i _; rewrite Z.land_spec, Z.lor_spec.
  assert (Ei : Z.testbit (Z.land g f) i = Z.testbit f i) by (by rewrite E); rewrite Z.land_spec in Ei.
  by destruct (Z.testbit g i), (Z.testbit h i), (Z.testbit f i).
Qed.

(** The domain whose rules apply to a device. *)
Definition applied_regd (ctx : reg_context) : option regdomain :=
  match lr_initiator ctx, wiphy_regd ctx with
  | (SET_BY_CORE | SET_BY_DRIVER), Some rd => Some rd
  | _, _ => cfg_regd ctx
  end.

Lemma freq_reg_info_applied ctx c :
  freq_reg_info (lr_initiator ctx) (wiphy_regd ctx) (cfg_regd ctx) c = freq_reg_info_regd c (applied_regd ctx).
Proof. unfold freq_reg_info, applied_regd; by destruct (lr_initiator ctx), (wiphy_regd ctx). Qed.

(** What the rule of a channel asks of it. *)
Definition complies (regd : option regdomain) (c : channel) : Prop :=
  exists rd rule, regd = Some rd /\ In rule (reg_rules rd) /\
    reg_does_bw_fit (range rule) (MHZ_TO_KHZ (center_freq c)) (MHZ_TO_KHZ 20) = true /\
    max_power c <= MBM_TO_DBM (max_eirp (power rule)) /\ antenna_gain c <= MBI_TO_DBI (max_antenna_gain (power rule)) /\
    flags_in (map_regdom_flags (rule_flags rule)) (flags c) /\
    (max_bandwidth_khz (range rule) < MHZ_TO_KHZ 40 -> flags_in IEEE80211_CHAN_NO_HT40 (flags c)).

Lemma handle_channel_complies ctx init c : let c' := handle_channel ctx init c in
  flags c' = IEEE80211_CHAN_DISABLED \/
  (init = SET_BY_COUNTRY_IE /\ c' = c /\ exists rd, applied_regd ctx = Some rd /\
     Forall (fun r => freq_in_rule_band (range r) (MHZ_TO_KHZ (center_freq c)) = false) (reg_rules rd)) \/
  complies (applied_regd ctx) c'.
Proof.
  cbn zeta; unfold handle_channel; rewrite freq_reg_info_applied; unfold freq_reg_info_regd.
  destruct (applied_regd ctx) as [rd|]; [|left; by rewrite andb_false_r].
  destruct (find_rule _ _ _) as [rule|e] eqn:E.
  - apply find_rule_found in E as [Hr Hb]; right; right; exists rd, rule.
    destruct (bool_decide (lr_initiator ctx = SET_BY_DRIVER) && is_requester ctx && strict ctx);
      cbn [center_freq max_power antenna_gain flags]; split_and!; try done; try lia.
    + apply flags_in_lor; unfold flags_in; apply Z.land_diag.
    + intros Hbw; rewrite (proj2 (Z.ltb_lt _ _)) by done; apply flags_in_lor_r.
    + destruct (negb _); [destruct (_ && _)|]; lia.
    + apply flags_in_lor_r.
    + intros Hbw; rewrite (proj2 (Z.ltb_lt _ _)) by done; apply flags_in_lor, flags_in_lor_r.
  - destruct (bool_decide_reflect (init = SET_BY_COUNTRY_IE)) as [->|]; [|by left]; cbn [andb].
    destruct (Z.eqb_spec e (- ERANGE)) as [->|]; [|by left]; right; left; split_and!; [done..|].
    exists rd; split; [done|]; by eapply find_rule_erange.
Qed.

(** ** HT40 *)

Lemma channel_at_spec chans freq c : channel_at chans freq = Some c -> In c chans /\ center_freq c = freq.
Proof.
  unfold channel_at; intros H; assert (Hin : In c (List.filter (fun c => center_freq c =? freq) chans)).
  { apply last_Some in H as (l & ->); apply in_app_iff; right; by left. }
  apply filter_In in Hin as [? ?%Z.eqb_eq]; done.
Qed.

Definition disabled (c : channel) : bool := has_flag (flags c) 0.

(** The frequency and the Disabled flag stay. *)
Definition same_channel (c c' : channel) : Prop := center_freq c' = center_freq c /\ disabled c' = disabled c.

#[global] Instance same_channel_trans : Transitive same_channel.
Proof. intros x y z [? ?] [? ?]; split; congruence. Qed.

Lemma has_flag_lor f g n : 0 <= n -> has_flag (Z.lor f g) n = has_flag f n || has_flag g n.
Proof. intros; unfold has_flag; rewrite !Ieee80211.land_bit_testbit by done; apply Z.lor_spec. Qed.

Lemma has_flag_clear f g n : 0 <= n -> has_flag (Z.land f (Z.lnot g)) n = has_flag f n && negb (has_flag g n).
Proof. intros; unfold has_flag; rewrite !Ieee80211.land_bit_testbit by done; by rewrite Z.land_spec, Z.lnot_spec. Qed.

Lemma mark_flag c allowed n m : 0 <= n -> 0 <= m ->
  has_flag (flags (mark c allowed (Z.shiftl 1 m))) n = if decide (n = m) then negb allowed else has_flag (flags c) n.
Proof.
  intros Hn Hm; assert (E : has_flag (Z.shiftl 1 m) n = bool_decide (n = m)).
  { unfold has_flag; rewrite Ieee80211.land_bit_testbit by done; rewrite Z.shiftl_1_l; case_bool_decide; [subst; by apply Z.pow2_bits_true|].
    by apply Z.pow2_bits_false. }
  unfold mark; cbn [flags set_flags]; destruct allowed; cbn [negb].
  - rewrite has_flag_clear, E by done; case_bool_decide; case_decide; try done; by rewrite ?andb_false_r, ?andb_true_r.
  - rewrite has_flag_lor, E by done; case_bool_decide; case_decide; try done; by rewrite ?orb_false_r, ?orb_true_r.
Qed.

(** [c] may be the lower or upper half of a 40 MHz channel only when the
    neighbour exists and neither is disabled. *)
Definition ht40_ok (chans : list channel) (c : channel) : Prop :=
  (has_flag (flags c) 5 = false -> disabled c = false /\
     exists b, In b chans /\ center_freq b = center_freq c - 20 /\ disabled b = false) /\
  (has_flag (flags c) 4 = false -> disabled c = false /\
     exists b, In b chans /\ center_freq b = center_freq c + 20 /\ disabled b = false).

Lemma allowed_spec c : is_ht40_allowed (Some c) = true -> disabled c = false.
Proof. unfold is_ht40_allowed, disabled, has_flag; change (Z.shiftl 1 0) with IEEE80211_CHAN_DISABLED; by destruct (Z.land (flags c) IEEE80211_CHAN_DISABLED =? 0). Qed.

Lemma allowed_at chans freq : is_ht40_allowed (channel_at chans freq) = true ->
  exists b, In b chans /\ center_freq b = freq /\ disabled b = false.
Proof.
  destruct (channel_at chans freq) as [b|] eqn:E; [|done]; intros Ha%allowed_spec; apply channel_at_spec in E as [? ?]; by exists b.
Qed.

Lemma process_channel_ok chans i c : chans !! i = Some c ->
  exists c', reg_process_ht_flags_channel chans i = <[i := c']> chans /\ same_channel c c' /\ ht40_ok chans c'.
Proof.
  intros Hc; unfold reg_process_ht_flags_channel; rewrite Hc; destruct (is_ht40_allowed (Some c)) eqn:Ea; cbn [negb].
  - change IEEE80211_CHAN_NO_HT40MINUS with (Z.shiftl 1 5); change IEEE80211_CHAN_NO_HT40PLUS with (Z.shiftl 1 4).
    eexists; split; [done|]; apply allowed_spec in Ea; set (c' := mark _ _ _).
    assert (Ed : disabled c' = disabled c) by (unfold disabled, c'; rewrite !mark_flag by done; done).
    split; [by split|]; unfold ht40_ok; rewrite Ed; unfold c'; rewrite !mark_flag by done; cbn [decide decide_rel].
    split; intros H; (split; [done|]); cbn [center_freq mark set_flags]; apply allowed_at.
    + destruct (is_ht40_allowed (channel_at chans (center_freq c - 20))); [done|]; by vm_compute in H.
    + destruct (is_ht40_allowed (channel_at chans (center_freq c + 20))); [done|]; by vm_compute in H.
  - eexists; split; [done|]; split; [split; [done|]|].
    + unfold disabled; cbn [flags set_flags]; rewrite has_flag_lor by done; by rewrite orb_false_r.
    + split; cbn [flags set_flags]; rewrite has_flag_lor by done; by rewrite orb_true_r.
Qed.

Lemma ht40_ok_same chans out c : Forall2 same_channel chans out -> ht40_ok chans c -> ht40_ok out c.
Proof.
  intros F; assert (G : forall b f, In b chans -> center_freq b = f -> disabled b = false ->
    exists b', In b' out /\ center_freq b' = f /\ disabled b' = false).
  { intros b f Hb <- Hd; apply list_elem_of_In in Hb.
    apply list_elem_of_lookup in Hb as [i Hi]; destruct (Forall2_lookup_l _ _ _ _ _ F Hi) as (b' & Hi' & Hc' & Hd').
    exists b'; split_and!; [apply list_elem_of_In; by eapply list_elem_of_lookup_2 | done | congruence]. }
  intros [H5 H4]; split; intros Hf.
  - destruct (H5 Hf) as (Hd & b & Hb & Eb & Db); split; [done|]; by eapply G.
  - destruct (H4 Hf) as (Hd & b & Hb & Eb & Db); split; [done|]; by eapply G.
Qed.

Lemma process_prefix chans k : (k <= length chans)%nat ->
  let out := fold_left reg_process_ht_flags_channel (seq 0 k) chans in
  Forall2 same_channel chans out /\ forall i c, (i < k)%nat -> out !! i = Some c -> ht40_ok out c.
Proof.
  cbn zeta; induction k as [|k IH]; intros Hk; [split; [by apply Forall_Forall2_diag, Forall_true | lia]|].
  rewrite seq_S, fold_left_app; cbn [fold_left Nat.add]; destruct IH as [F Hok]; [lia|].
  set (out := fold_left _ _ _) in *; pose proof (Forall2_length F) as Hl.
  destruct (lookup_lt_is_Some_2 out k) as [c Hc]; [lia|]; destruct (process_channel_ok out k c Hc) as (c' & -> & Hs & Hh).
  assert (F1 : Forall2 same_channel out (<[k := c']> out)).
  { apply Forall2_same_length_lookup; split; [by rewrite length_insert|]; intros i x y Hx Hy.
    apply list_lookup_insert_Some in Hy as [(<- & <- & _)|(_ & Hy)]; [congruence | by replace y with x by congruence]. }
  split.
  - by transitivity out.
  - intros i x Hi Hx; apply (ht40_ok_same out); [done|].
    apply list_lookup_insert_Some in Hx as [(_ & <- & _)|(Hne & Hx)]; [done|]; apply (Hok i); [lia | done].
Qed.

(** ** Properties *)

(** The intersection of two domains allows a channel exactly when
    both of them do, and fails when nothing is allowed by both; the count of
    rules of the first pass is the number the second pass writes. *)
Theorem regdom_intersect_allows rd1 rd2 c bw : rd_ok rd1 -> rd_ok rd2 -> 2 <= bw ->
  allows (regdom_intersect true rd1 rd2) c bw <-> allows (Some rd1) c bw /\ allows (Some rd2) c bw.
Proof.
  intros H1 H2 Hb; rewrite regdom_intersect_rules; cbn zeta.
  set (rules := meet <$> _); assert (E : allows (match rules with [] => None | _ => Some (Regdomain rules (57, 56) 0) end) c bw <->
    Exists (fun rule => fits rule c bw) rules) by (destruct rules; [split; [done | by intros ?%Exists_nil] | done]).
  rewrite E; cbn [allows]; rewrite !List.Exists_exists; unfold rules; split.
  - intros (rule & (r1 & r2 & I1 & I2 & _ & ->)%in_intersect & [F1 F2]%intersect_fits); by split; [exists r1|exists r2].
  - intros [(r1 & I1 & F1) (r2 & I2 & F2)]; exists (reg_rules_intersect r1 r2).2; split; [|by apply intersect_fits].
    apply in_intersect; exists r1, r2; split_and!; try done.
    destruct (rd_ok_rule _ _ H1 I1) as [O1 P1], (rd_ok_rule _ _ H2 I2) as [O2 P2]; apply intersect_valid; [done..|].
    assert (1 <= bw / 2) by (apply Z.div_le_lower_bound; lia); unfold fits in *; lia.
Qed.

(** No rule of an intersection is looser than the two it comes from: it is
    valid, its power, antenna gain and bandwidth are at most those of both,
    and it has the restrictions of both. *)
Theorem regdom_intersect_tightens rd1 rd2 rd rule : rd_ok rd1 -> rd_ok rd2 -> regdom_intersect true rd1 rd2 = Some rd ->
  In rule (reg_rules rd) ->
  is_valid_reg_rule rule = true /\
  exists r1 r2, In r1 (reg_rules rd1) /\ In r2 (reg_rules rd2) /\
    max_eirp (power rule) = Z.min (max_eirp (power r1)) (max_eirp (power r2)) /\
    max_antenna_gain (power rule) = Z.min (max_antenna_gain (power r1)) (max_antenna_gain (power r2)) /\
    max_bandwidth_khz (range rule) <= Z.min (max_bandwidth_khz (range r1)) (max_bandwidth_khz (range r2)) /\
    rule_flags rule = Z.lor (rule_flags r1) (rule_flags r2).
Proof.
  intros H1 H2 E Hr; rewrite regdom_intersect_rules in E; cbn zeta in E; set (rules := meet <$> _) in E.
  assert (Er : reg_rules rd = rules) by (destruct rules; [done|]; by injection E as <-); rewrite Er in Hr.
  apply in_intersect in Hr as (r1 & r2 & I1 & I2 & Hv & ->); split; [|exists r1, r2].
  - unfold reg_rules_intersect in *; cbn [fst snd] in *; destruct (is_valid_reg_rule _); done.
  - unfold reg_rules_intersect; cbn [snd power range max_eirp max_antenna_gain max_bandwidth_khz rule_flags].
    split_and!; try done; destruct (Z.ltb_spec (u32 (Z.min (end_freq_khz (range r1)) (end_freq_khz (range r2)) -
      Z.max (start_freq_khz (range r1)) (start_freq_khz (range r2)))) (Z.min (max_bandwidth_khz (range r1)) (max_bandwidth_khz (range r2)))); lia.
Qed.

(** The rule of a frequency is the first rule with room for a 20 MHz
    channel around it; when there is none, the error says whether any rule is
    near the frequency.  Rules wider than 4 GHz (20 GHz in the 60 GHz band)
    are not covered: the search can pass over one. *)
Theorem freq_reg_info_first rd c : Forall (fun r => rule_ok r /\ narrow r) (reg_rules rd) -> 10000 <= c -> c + 10000 < 2 ^ 32 ->
  freq_reg_info_regd c (Some rd) =
    match List.find (fun r => reg_does_bw_fit (range r) c (MHZ_TO_KHZ 20)) (reg_rules rd) with
    | Some r => Rule r
    | None => Err (if existsb (fun r => freq_in_rule_band (range r) c) (reg_rules rd) then - EINVAL else - ERANGE)
    end.
Proof. intros; unfold freq_reg_info_regd; by rewrite find_rule_first. Qed.

(** After the update of a band every channel is disabled, or keeps to a
    rule of the domain that applies to the device: the rule has room for it,
    its power and antenna gain are at most the rule's, and it has the
    restrictions of the rule.  The exception are channels in no rule's band
    when a country element is applied, which are left as they were. *)
Theorem handle_band_complies ctx init chans : exists chans', handle_band ctx init (Some chans) = Some chans' /\
  Forall2 (fun c c' => center_freq c' = center_freq c /\
    (flags c' = IEEE80211_CHAN_DISABLED \/
     (init = SET_BY_COUNTRY_IE /\ c' = c /\ exists rd, applied_regd ctx = Some rd /\
        Forall (fun r => freq_in_rule_band (range r) (MHZ_TO_KHZ (center_freq c)) = false) (reg_rules rd)) \/
     complies (applied_regd ctx) c')) chans chans'.
Proof.
  eexists; split; [done|]; apply Forall2_fmap_r, Forall_Forall2_diag, Forall_true; intros c; split; [|apply handle_channel_complies].
  unfold handle_channel; destruct (freq_reg_info _ _ _ _); destruct (_ && _); done.
Qed.

(** After a pass over a band no channel may be used as half of a 40 MHz
    channel unless it and the other half are in the band and not disabled; the
    pass moves no channel and disables none. *)
Theorem ht40_needs_both chans : exists chans', reg_process_ht_flags_band (Some chans) = Some chans' /\
  Forall2 same_channel chans chans' /\ Forall (ht40_ok chans') chans'.
Proof.
  eexists; split; [done|]; destruct (process_prefix chans (length chans)) as [F H]; [done|]; split; [done|].
  apply Forall_lookup; intros i c Hi; apply (H i); [|done].
  rewrite (Forall2_length F); by eapply lookup_lt_Some.
Qed.

(** A rule of the built-in domain asks for 40 MHz in a range of 25 MHz. *)
Example world_regdom_not_valid : is_valid_rd world_regdom = false /\ is_valid_reg_rule (REG_RULE 2457 2482 40 6 20 0x180) = false.
Proof. by vm_compute. Qed.

(** ** Witnesses *)

Definition narrower : regdomain := Regdomain [REG_RULE 2402 2482 20 3 27 0x1] (88, 88) 0.

Lemma rd_ok_world : rd_ok world_regdom.
Proof. by_eval. Defined.

Lemma rd_ok_narrower : rd_ok narrower.
Proof. by_eval. Defined.

Lemma regdom_intersect_allows_witness :
  allows (regdom_intersect true world_regdom narrower) 2412000 20000 <-> allows (Some world_regdom) 2412000 20000 /\ allows (Some narrower) 2412000 20000.
Proof. apply regdom_intersect_allows; [exact rd_ok_world | exact rd_ok_narrower | lia]. Defined.

Lemma regdom_intersect_tightens_witness :
  let rule := RegRule (FreqRange 2402000 2472000 20000) (PowerRule 300 2000) 1 in
  is_valid_reg_rule rule = true /\
  exists r1 r2, In r1 (reg_rules world_regdom) /\ In r2 (reg_rules narrower) /\
    max_eirp (power rule) = Z.min (max_eirp (power r1)) (max_eirp (power r2)) /\
    max_antenna_gain (power rule) = Z.min (max_antenna_gain (power r1)) (max_antenna_gain (power r2)) /\
    max_bandwidth_khz (range rule) <= Z.min (max_bandwidth_khz (range r1)) (max_bandwidth_khz (range r2)) /\
    rule_flags rule = Z.lor (rule_flags r1) (rule_flags r2).
Proof.
  apply (regdom_intersect_tightens world_regdom narrower
    (Regdomain [RegRule (FreqRange 2402000 2472000 20000) (PowerRule 300 2000) 1;
                RegRule (FreqRange 2457000 2482000 20000) (PowerRule 300 2000) 0x181;
                RegRule (FreqRange 2474000 2482000 8000) (PowerRule 300 2000) 0x181] (57, 56) 0));
    [exact rd_ok_world | exact rd_ok_narrower | by vm_compute | by left].
Defined.

Lemma freq_reg_info_first_witness :
  freq_reg_info_regd 2467000 (Some world_regdom) = Rule (REG_RULE 2457 2482 40 6 20 0x180) /\
  freq_reg_info_regd 2490000 (Some world_regdom) = Err (- EINVAL).
Proof.
  assert (H : Forall (fun r => rule_ok r /\ narrow r) (reg_rules world_regdom)) by by_eval.
  split; [rewrite (freq_reg_info_first world_regdom 2467000 H) by lia | rewrite (freq_reg_info_first world_regdom 2490000 H) by lia]; by vm_compute.
Defined.

End RegRules.
