(* ===== verification/HtcTx.v ===== *)
(** * The transmit path of ath9k_htc

    [drivers/net/wireless/ath/ath9k/htc_drv_txrx.c] and the transmit callback
    of [htc_drv_main.c]: slots (cookies) that name a frame to the target, the
    driver headers, the per-endpoint queues of frames that wait for a status,
    status events and those that come early, timeouts, the counter that stops
    and wakes the queues of mac80211, and draining.

    A frame handed to the host-target layer is in [in_flight] until that layer
    calls back.  A sender counts its frame only after it has handed it over;
    [uncounted] is the number of senders in between. *)

From S2P Require Import Prelude Ieee80211 Frame Reorder.


Module HtcTx.
Import Ieee80211 Frame.

Definition EINVAL : Z := 22.
Definition ENOBUFS : Z := 105.
Definition MAX_TX_BUF_NUM : nat := 256.
Definition ATH9K_HTC_TX_RESERVE : Z := 10.
Definition ATH9K_HTC_TX_THRESHOLD : Z := Z.of_nat MAX_TX_BUF_NUM - ATH9K_HTC_TX_RESERVE.
Definition ATH9K_HTC_TX_TIMEOUT_COUNT : Z := 40.
Definition ATH9K_HTC_MAX_TID : nat := 8.
Definition ATH9K_HTC_AMPDU : Z := 1.
Definition ATH9K_HTC_NORMAL : Z := 2.
Definition ATH9K_HTC_MGMT : Z := 4.
Definition ATH9K_HTC_TX_CTSONLY : Z := 1.
Definition ATH9K_HTC_TX_RTSCTS : Z := 2.
Definition ATH9K_TXKEYIX_INVALID : Z := 255.
Definition ATH9K_HTC_TXSTAT_ACK : Z := 0x01.
Definition ATH9K_HTC_TXSTAT_FILT : Z := 0x02.
Definition ATH9K_HTC_TXSTAT_RTC_CTS : Z := 0x04.
Definition ATH9K_HTC_TXSTAT_MCS : Z := 0x08.
Definition ATH9K_HTC_TXSTAT_CW40 : Z := 0x10.
Definition ATH9K_HTC_TXSTAT_SGI : Z := 0x20.
Definition WLAN_CIPHER_SUITE_WEP40 : Z := 0x000FAC01.
Definition WLAN_CIPHER_SUITE_TKIP : Z := 0x000FAC02.
Definition WLAN_CIPHER_SUITE_CCMP : Z := 0x000FAC04.
Definition WLAN_CIPHER_SUITE_WEP104 : Z := 0x000FAC05.
Definition sizeof_tx_mgmt_hdr : nat := 8.
Definition sizeof_tx_frame_hdr : nat := 12.

(** ** Frames *)

(** An interface as the transmit path sees it. *)
Record htc_vif := Vif { vif_index : Z; tsfadjust : list Z; use_cts_prot : bool }.

(** The control block of mac80211; a key is its cipher and hardware index. *)
Record tx_info := Info { vif : option htc_vif; ctl_ampdu : bool; hw_key : option (Z * Z); queue_mapping : Z; pae : bool }.

(** [struct ath9k_htc_tx_ctl]. *)
Record tx_ctl := Ctl { ctl_type : Z; epid : Z; txok : bool; ctl_sta_idx : Z; timestamp : Z }.

Record skb := Skb { data : list Z; info : tx_info; ctl : tx_ctl }.

Definition set_sk_data (s : skb) (d : list Z) : skb := Skb d (info s) (ctl s).
Definition completed (s : skb) (ok : bool) (now : Z) : skb :=
  Skb (data s) (info s) (Ctl (ctl_type (ctl s)) (epid (ctl s)) ok (ctl_sta_idx (ctl s)) now).

Definition ath9k_cmn_padpos (fc : Z) : Z :=
  24 + (if ieee80211_has_a4 fc then 6 else 0) + (if ieee80211_is_data_qos fc then IEEE80211_QOS_CTL_LEN else 0).

(** Enumeration [ath9k_key_type]: clear, WEP, AES, TKIP. *)
Definition ath9k_cmn_get_hw_crypto_keytype (i : tx_info) : Z :=
  match hw_key i with
  | None => 0
  | Some (cipher, _) =>
      if (cipher =? WLAN_CIPHER_SUITE_WEP40) || (cipher =? WLAN_CIPHER_SUITE_WEP104) then 1
      else if cipher =? WLAN_CIPHER_SUITE_TKIP then 3
      else if cipher =? WLAN_CIPHER_SUITE_CCMP then 2 else 0
  end.

Definition key_fields (i : tx_info) : Z * Z :=
  let t := ath9k_cmn_get_hw_crypto_keytype i in
  (t, if t =? 0 then ATH9K_TXKEYIX_INVALID else match hw_key i with Some (_, ix) => u8 ix | None => 0 end).

(** ** Endpoints *)

(** The endpoint numbers the target assigned. *)
Record endpoints := Eps { mgmt_ep : Z; cab_ep : Z; data_be_ep : Z; data_bk_ep : Z; data_vi_ep : Z; data_vo_ep : Z }.

Inductive qname := Qmgmt | Qcab | Qbe | Qbk | Qvi | Qvo.

#[global] Instance qname_eq_dec : EqDecision qname.
Proof. solve_decision. Defined.

Section Driver.
Context (eps : endpoints).

Definition get_htc_epid (qnum : Z) : Z :=
  if qnum =? 0 then data_vo_ep eps else if qnum =? 1 then data_vi_ep eps else if qnum =? 2 then data_be_ep eps else data_bk_ep eps.

Definition get_htc_epid_queue (ep : Z) : option qname :=
  if ep =? mgmt_ep eps then Some Qmgmt
  else if ep =? cab_ep eps then Some Qcab
  else if ep =? data_be_ep eps then Some Qbe
  else if ep =? data_bk_ep eps then Some Qbk
  else if ep =? data_vi_ep eps then Some Qvi
  else if ep =? data_vo_ep eps then Some Qvo
  else None.

Definition is_data_ep (ep : Z) : bool :=
  (ep =? data_bk_ep eps) || (ep =? data_be_ep eps) || (ep =? data_vi_ep eps) || (ep =? data_vo_ep eps) || (ep =? cab_ep eps).

(** The slot, and the frame without the header of the driver. *)
Definition strip_drv_header (s : skb) : Z * skb :=
  let ep := epid (ctl s) in
  if ep =? mgmt_ep eps then ((data s).[6], set_sk_data s (drop sizeof_tx_mgmt_hdr (data s)))
  else if is_data_ep ep then ((data s).[10], set_sk_data s (drop sizeof_tx_frame_hdr (data s)))
  else (- EINVAL, s).

Definition check_cookie (s : skb) (cookie ep : Z) : bool :=
  let fcookie := if ep =? mgmt_ep eps then (data s).[6] else if is_data_ep ep then (data s).[10] else 0 in
  fcookie =? cookie.

(** ** Building the headers *)

Definition ath9k_htc_tx_mgmt (avp : option htc_vif) (s : skb) (sta_idx vif_idx slot : Z) : skb :=
  let d := data s in
  let d := match avp with
           | Some v => if ieee80211_is_probe_resp (frame_control d) then take 24 d ++ tsfadjust v ++ drop 32 d else d
           | None => d
           end in
  let '(key_type, keyix) := key_fields (info s) in
  let hdr := [u8 sta_idx; u8 vif_idx; 0; 0; key_type; keyix; u8 slot; 0] in
  Skb (hdr ++ d) (info s) (Ctl ATH9K_HTC_MGMT (mgmt_ep eps) false 0 0).

(** [rts] is the RTS threshold of the device. *)
Definition ath9k_htc_tx_data (rts : Z) (v : option htc_vif) (s : skb) (sta_idx vif_idx slot : Z) (is_cab : bool) : skb :=
  let d := data s in
  let fc := frame_control d in
  let type := if ctl_ampdu (info s) then ATH9K_HTC_AMPDU else ATH9K_HTC_NORMAL in
  let tidno := if ieee80211_is_data_qos fc then Z.land (d.[ieee80211_get_qos_ctl d]) IEEE80211_QOS_CTL_TID_MASK else 0 in
  let flags := if negb (rts =? 2 ^ 32 - 1) && (rts <? Z.of_nat (length d)) then ATH9K_HTC_TX_RTSCTS else 0 in
  let flags := if (Z.land flags ATH9K_HTC_TX_RTSCTS =? 0) && match v with Some v => use_cts_prot v | None => false end
               then Z.lor flags ATH9K_HTC_TX_CTSONLY else flags in
  let '(key_type, keyix) := key_fields (info s) in
  let hdr := [type; u8 sta_idx; u8 vif_idx; tidno] ++ put_be32 flags ++ [key_type; keyix; u8 slot; 0] in
  Skb (hdr ++ d) (info s)
    (Ctl type (if is_cab then cab_ep eps else get_htc_epid (queue_mapping (info s))) false (u8 sta_idx) 0).

(** The threshold, the monitor interface if there is one, and the station
    table position of each interface. *)
Record tx_conf := Conf { rts_threshold : Z; monitor : option Z; vif_sta_pos : Z -> Z }.

(** The frame given to [htc_send], or [None] for [-EINVAL]. *)
Definition ath9k_htc_tx_start (conf : tx_conf) (sta : option Z) (s : skb) (slot : Z) (is_cab : bool) : option skb :=
  let v := vif (info s) in
  vif_idx ← match v with Some v => Some (vif_index v) | None => monitor conf end;
  let sta_idx := match sta with Some i => i | None => vif_sta_pos conf vif_idx end in
  Some (if ieee80211_is_data (frame_control (data s))
        then ath9k_htc_tx_data (rts_threshold conf) v s sta_idx vif_idx slot is_cab
        else ath9k_htc_tx_mgmt v s sta_idx vif_idx slot).

(** The padding behind the header: [None] when there is no room for it.  The
    pad bytes are what [memmove] leaves, the end of the header. *)
Definition pad_header (headroom : Z) (d : list Z) : option (list Z) :=
  let padpos := ath9k_cmn_padpos (frame_control d) in
  let padsize := Z.land padpos 3 in
  if negb (padsize =? 0) && (padpos <? Z.of_nat (length d)) then
    if headroom <? padsize then None
    else Some (take (Z.to_nat padpos) d ++ drop (Z.to_nat (padpos - padsize)) d)
  else Some d.

(** ** State *)

Inductive aggr_state := AGGR_STOP | AGGR_PROGRESS | AGGR_START | AGGR_OPERATIONAL.

#[global] Instance aggr_state_eq_dec : EqDecision aggr_state.
Proof. solve_decision. Defined.

(** [struct __wmi_event_txstatus]. *)
Record txstatus := TxStatus { cookie : Z; ts_rate : Z; ts_flags : Z }.

(** The queues of frames that wait for a status. *)
Record queues := Queues { mgmt_ep_queue : list skb; cab_ep_queue : list skb; data_be_queue : list skb;
  data_bk_queue : list skb; data_vi_queue : list skb; data_vo_queue : list skb }.

Definition getq (qs : queues) (n : qname) : list skb :=
  match n with Qmgmt => mgmt_ep_queue qs | Qcab => cab_ep_queue qs | Qbe => data_be_queue qs
             | Qbk => data_bk_queue qs | Qvi => data_vi_queue qs | Qvo => data_vo_queue qs end.
Definition setq (qs : queues) (n : qname) (l : list skb) : queues :=
  let pick m := if decide (n = m) then l else getq qs m in
  Queues (pick Qmgmt) (pick Qcab) (pick Qbe) (pick Qbk) (pick Qvi) (pick Qvo).

(** [struct ath9k_htc_tx], the early events of [struct wmi], and around them
    the frames in flight, the senders that have not counted their frame, and
    the aggregation states of the stations of each interface. *)
Record state := State {
  queues_stopped : bool; draining : bool; queued_cnt : Z; qs : queues; tx_failed : list skb; tx_slot : list bool;
  pending_tx_events : list (txstatus * Z);
  in_flight : list skb; uncounted : nat; stations : list (Z * list Z * list aggr_state) }.

Definition upd_flags (s : state) (stop drain : bool) : state :=
  State stop drain (queued_cnt s) (qs s) (tx_failed s) (tx_slot s) (pending_tx_events s) (in_flight s) (uncounted s) (stations s).
Definition upd_cnt (s : state) (n : Z) : state :=
  State (queues_stopped s) (draining s) n (qs s) (tx_failed s) (tx_slot s) (pending_tx_events s) (in_flight s) (uncounted s) (stations s).
Definition upd_qs (s : state) (q : queues) : state :=
  State (queues_stopped s) (draining s) (queued_cnt s) q (tx_failed s) (tx_slot s) (pending_tx_events s) (in_flight s) (uncounted s) (stations s).
Definition upd_failed (s : state) (l : list skb) : state :=
  State (queues_stopped s) (draining s) (queued_cnt s) (qs s) l (tx_slot s) (pending_tx_events s) (in_flight s) (uncounted s) (stations s).
Definition upd_slot (s : state) (b : list bool) : state :=
  State (queues_stopped s) (draining s) (queued_cnt s) (qs s) (tx_failed s) b (pending_tx_events s) (in_flight s) (uncounted s) (stations s).
Definition upd_events (s : state) (l : list (txstatus * Z)) : state :=
  State (queues_stopped s) (draining s) (queued_cnt s) (qs s) (tx_failed s) (tx_slot s) l (in_flight s) (uncounted s) (stations s).
Definition upd_flight (s : state) (l : list skb) (u : nat) : state :=
  State (queues_stopped s) (draining s) (queued_cnt s) (qs s) (tx_failed s) (tx_slot s) (pending_tx_events s) l u (stations s).
Definition upd_stations (s : state) (l : list (Z * list Z * list aggr_state)) : state :=
  State (queues_stopped s) (draining s) (queued_cnt s) (qs s) (tx_failed s) (tx_slot s) (pending_tx_events s) (in_flight s) (uncounted s) l.

(** The status given to mac80211: flags of the frame, and of the first rate
    with its index and count. *)
Record tx_report := Report { stat_ack : bool; stat_filtered : bool; rate_count : Z; rate_idx : Z;
  rate_rts_cts : bool; rate_mcs : bool; rate_40mhz : bool; rate_short_gi : bool }.

Definition no_report : tx_report := Report false false 0 0 false false false false.

(** What the driver does to the outside. *)
Inductive out :=
  | TxStatusOut (s : skb) (r : tx_report)
  | Freed (s : skb)
  | StopQueues
  | WakeQueues
  | StartBa (vif : Z) (addr : list Z) (tid : nat).

(** ** Slots and the counter *)

Definition ath9k_htc_tx_get_slot (st : state) : state * Z :=
  match list_find (fun b => b = false) (take MAX_TX_BUF_NUM (tx_slot st)) with
  | Some (slot, _) => (upd_slot st (<[slot := true]> (tx_slot st)), Z.of_nat slot)
  | None => (st, - ENOBUFS)
  end.

Definition ath9k_htc_tx_clear_slot (st : state) (slot : Z) : state :=
  upd_slot st (<[Z.to_nat slot := false]> (tx_slot st)).

Definition ath9k_htc_check_stop_queues (st : state) : state * list out :=
  let st := upd_cnt st (queued_cnt st + 1) in
  if (ATH9K_HTC_TX_THRESHOLD <=? queued_cnt st) && negb (queues_stopped st)
  then (upd_flags st true (draining st), [StopQueues]) else (st, []).

Definition ath9k_htc_check_wake_queues (st : state) : state * list out :=
  if (queued_cnt st <? ATH9K_HTC_TX_THRESHOLD) && queues_stopped st
  then (upd_flags st false (draining st), [WakeQueues]) else (st, []).

(** ** Status *)

(** The device: HT configured, 5 GHz band. *)
Context (ht band5 : bool).

Definition flag (f b : Z) : bool := negb (Z.land f b =? 0).

Definition report_of (t : txstatus) : tx_report :=
  let f := ts_flags t in
  let idx := Z.land (ts_rate t) 0x0f in
  let mcs := flag f ATH9K_HTC_TXSTAT_MCS in
  Report (flag f ATH9K_HTC_TXSTAT_ACK) (flag f ATH9K_HTC_TXSTAT_FILT) 1
    (if mcs then idx else if band5 then idx + 4 else idx)
    (flag f ATH9K_HTC_TXSTAT_RTC_CTS) mcs
    (mcs && flag f ATH9K_HTC_TXSTAT_CW40) (mcs && flag f ATH9K_HTC_TXSTAT_SGI).

Definition find_sta (st : state) (v : Z) (addr : list Z) : option (nat * list aggr_state) :=
  '(i, (_, t)) ← list_find (fun e => e.1 = (v, addr)) (stations st); Some (i, t).

(** [__ath9k_htc_check_tx_aggr] guards the start of a session. *)
Definition ath9k_htc_check_tx_aggr (st : state) (v : Z) (s : skb) : state * list out :=
  let hdr := data s in
  let addr := sub hdr off_addr1 ETH_ALEN in
  match find_sta st v addr with
  | None => (st, [])
  | Some (i, tids) =>
      if ht && negb (pae (info s)) && ieee80211_is_data_qos (frame_control hdr) then
        let tid := Z.to_nat (Z.land (hdr.[ieee80211_get_qos_ctl hdr]) 0xf) in
        if (tid <? ATH9K_HTC_MAX_TID)%nat && bool_decide (tids !! tid = Some AGGR_STOP)
        then (upd_stations st (<[i := (v, addr, <[tid := AGGR_PROGRESS]> tids)]> (stations st)), [StartBa v addr tid])
        else (st, [])
      else (st, [])
  end.

Definition ath9k_htc_tx_process (st : state) (s : skb) (txs : option txstatus) : state * list out :=
  let '(slot, s) := strip_drv_header s in
  if slot <? 0 then (st, [Freed s])
  else
    let '(st, report, o) :=
      match txs, vif (info s) with
      | Some t, Some v =>
          if txok (ctl s) then
            let '(st, o) := ath9k_htc_check_tx_aggr st (vif_index v) s in (st, report_of t, o)
          else (st, no_report, [])
      | _, _ => (st, no_report, [])
      end in
    let n := queued_cnt st - 1 in
    let st := upd_cnt st (if n <? 0 then 0 else n) in
    let st := ath9k_htc_tx_clear_slot st slot in
    (st, o ++ [TxStatusOut s report]).

(** Frames processed one after the other. *)
Fixpoint process_all (st : state) (l : list skb) : state * list out :=
  match l with
  | [] => (st, [])
  | s :: l => let '(st, o) := ath9k_htc_tx_process st s None in let '(st, o') := process_all st l in (st, o ++ o')
  end.

(** The first frame of a list with the cookie, and the list without it. *)
Fixpoint take_cookie (ck ep : Z) (l : list skb) : option (skb * list skb) :=
  match l with
  | [] => None
  | s :: l => if check_cookie s ck ep then Some (s, l) else '(x, l) ← take_cookie ck ep l; Some (x, s :: l)
  end.

Definition ath9k_htc_tx_get_packet (st : state) (t : txstatus) : option (skb * state) :=
  let ep := Z.shiftr (Z.land (ts_rate t) 0xf0) 4 in
  n ← get_htc_epid_queue ep;
  '(s, l) ← take_cookie (cookie t) ep (getq (qs st) n);
  Some (s, upd_qs st (setq (qs st) n l)).

(** One status of an event; [allocated]: the result of [kzalloc]. *)
Definition txstatus_one (allocated : bool) (st : state) (t : txstatus) : state * list out :=
  match ath9k_htc_tx_get_packet st t with
  | Some (s, st) => ath9k_htc_tx_process st s (Some t)
  | None => (if allocated then upd_events st (pending_tx_events st ++ [(t, 0)]) else st, [])
  end.

(** The statuses [i] to [i + n - 1] of the event bytes; [None] is a read behind
    them. *)
Fixpoint txstatus_loop (allocated : bool) (st : state) (event : list Z) (n i : nat) : option (state * list out) :=
  match n with
  | O => Some (st, [])
  | S n =>
      ck ← event !! (1 + 3 * i)%nat; rate ← event !! (2 + 3 * i)%nat; fl ← event !! (3 + 3 * i)%nat;
      let '(st, o) := txstatus_one allocated st (TxStatus ck rate fl) in
      '(st, o') ← txstatus_loop allocated st event n (S i);
      Some (st, o ++ o')
  end.

Definition ath9k_htc_txstatus (allocated : bool) (st : state) (event : list Z) : option (state * list out) :=
  cnt ← event !! 0%nat;
  '(st, o) ← txstatus_loop allocated st event (Z.to_nat cnt) 0;
  let '(st, o') := ath9k_htc_check_wake_queues st in
  Some (st, o ++ o').

(** The case of [ath9k_wmi_event_tasklet] for status events. *)
Definition wmi_txstatus_event (allocated : bool) (st : state) (event : list Z) : option (state * list out) :=
  if draining st then Some (st, []) else ath9k_htc_txstatus allocated st event.

(** ** Completion by the host-target layer *)

Definition ath9k_htc_txep (st : state) (s : skb) (ep_id : Z) (ok : bool) (jiffies : Z) : state * list out :=
  let s := completed s ok jiffies in
  if negb ok then (upd_failed st (tx_failed st ++ [s]), [])
  else match get_htc_epid_queue ep_id with
  | None => (st, [Freed s])
  | Some n => (upd_qs st (setq (qs st) n (getq (qs st) n ++ [s])), [])
  end.

Definition ath9k_tx_failed_tasklet (st : state) : state * list out :=
  if draining st then (st, []) else process_all (upd_failed st []) (tx_failed st).

(** ** Timeouts *)

(** [interval] is [ATH9K_HTC_TX_TIMEOUT_INTERVAL] in jiffies. *)
Definition check_packet (interval jiffies : Z) (s : skb) : bool :=
  Reorder.time_after jiffies (u64 (timestamp (ctl s) + interval)).

Definition ath9k_htc_tx_cleanup_queue (interval jiffies : Z) (st : state) (n : qname) : state * list out :=
  let l := getq (qs st) n in
  let late := List.filter (check_packet interval jiffies) l in
  let st := upd_qs st (setq (qs st) n (List.filter (fun s => negb (check_packet interval jiffies s)) l)) in
  process_all st late.

Fixpoint cleanup_queues (interval jiffies : Z) (st : state) (ns : list qname) : state * list out :=
  match ns with
  | [] => (st, [])
  | n :: ns => let '(st, o) := ath9k_htc_tx_cleanup_queue interval jiffies st n in
               let '(st, o') := cleanup_queues interval jiffies st ns in (st, o ++ o')
  end.

(** The walk over the events that came early: the events that stay. *)
Fixpoint match_events (st : state) (evs : list (txstatus * Z)) : state * list (txstatus * Z) * list out :=
  match evs with
  | [] => (st, [], [])
  | (t, count) :: evs =>
      match ath9k_htc_tx_get_packet st t with
      | Some (s, st) =>
          let '(st, o) := ath9k_htc_tx_process st s (Some t) in
          let '(st, rest, o') := match_events st evs in (st, rest, o ++ o')
      | None =>
          let '(st, rest, o) := match_events st evs in
          (st, if ATH9K_HTC_TX_TIMEOUT_COUNT <=? count + 1 then rest else (t, count + 1) :: rest, o)
      end
  end.

Definition all_queues : list qname := [Qmgmt; Qcab; Qbe; Qbk; Qvi; Qvo].

Definition ath9k_htc_tx_cleanup_timer (interval jiffies : Z) (st : state) : state * list out :=
  let '(st, rest, o1) := match_events st (pending_tx_events st) in
  let st := upd_events st rest in
  let '(st, o2) := cleanup_queues interval jiffies st all_queues in
  let '(st, o3) := ath9k_htc_check_wake_queues st in
  (st, o1 ++ o2 ++ o3).

(** ** Draining *)

Definition ath9k_htc_tx_drainq (st : state) (n : qname) : state * list out :=
  process_all (upd_qs st (setq (qs st) n [])) (getq (qs st) n).

Fixpoint drain_queues (st : state) (ns : list qname) : state * list out :=
  match ns with
  | [] => (st, [])
  | n :: ns => let '(st, o) := ath9k_htc_tx_drainq st n in let '(st, o') := drain_queues st ns in (st, o ++ o')
  end.

(** [htc_stop] makes the host-target layer complete, as failed, every frame it
    still has. *)
Definition flush_flight (st : state) (jiffies : Z) : state :=
  upd_failed (upd_flight st [] (uncounted st)) (tx_failed st ++ ((fun s => completed s false jiffies) <$> in_flight st)).

Definition ath9k_htc_tx_drain (st : state) (jiffies : Z) : state * list out :=
  let st := upd_flags st (queues_stopped st) true in
  let st := flush_flight st jiffies in
  let '(st, o1) := drain_queues st all_queues in
  let '(st, o2) := process_all (upd_failed st []) (tx_failed st) in
  let st := upd_events st [] in
  (upd_flags st (queues_stopped st) false, o1 ++ o2).

(** ** Sending *)

(** [sent]: [htc_send] took the frame.  [ath9k_htc_tx] up to its count, and
    the body of [ath9k_htc_send_buffered] for one frame, which counts without
    a check. *)
Definition tx_one (conf : tx_conf) (st : state) (sta : option Z) (headroom : Z) (sent is_cab : bool) (s : skb)
    : bool * state * list out :=
  match pad_header headroom (data s) with
  | None => (false, st, [Freed s])
  | Some d =>
      let s := set_sk_data s d in
      let '(st', slot) := ath9k_htc_tx_get_slot st in
      if slot <? 0 then (false, st, [Freed s])
      else match ath9k_htc_tx_start conf sta s slot is_cab with
      | Some s' =>
          if sent then (true, upd_flight st' (in_flight st' ++ [s']) (uncounted st'), [])
          else (false, ath9k_htc_tx_clear_slot st' slot, [Freed s'])
      | None => (false, ath9k_htc_tx_clear_slot st' slot, [Freed s])
      end
  end.

(** The first half of [ath9k_htc_tx]. *)
Definition ath9k_htc_tx (conf : tx_conf) (st : state) (sta : option Z) (headroom : Z) (sent : bool) (s : skb) : state * list out :=
  let '(ok, st, o) := tx_one conf st sta headroom sent false s in
  (if ok then upd_flight st (in_flight st) (S (uncounted st)) else st, o).

(** Its second half, [ath9k_htc_check_stop_queues]. *)
Definition ath9k_htc_tx_count (st : state) : state * list out :=
  match uncounted st with
  | O => (st, [])
  | S u => ath9k_htc_check_stop_queues (upd_flight st (in_flight st) u)
  end.

Definition ath9k_htc_send_buffered (conf : tx_conf) (st : state) (headroom : Z) (sent : bool) (s : skb) : state * list out :=
  let '(ok, st, o) := tx_one conf st None headroom sent true s in
  (if ok then upd_cnt st (queued_cnt st + 1) else st, o).

(** ** Frames the driver holds *)

Definition queued (q : queues) : list skb := concat (getq q <$> all_queues).
Definition outstanding (st : state) : list skb := in_flight st ++ queued (qs st) ++ tx_failed st.

Lemma setq_same q n : setq q n (getq q n) = q.
Proof. by destruct q, n. Qed.

Lemma getq_setq q n m l : getq (setq q n l) m = if decide (n = m) then l else getq q m.
Proof. by destruct m. Qed.

Lemma queued_split q n : exists a b, forall l, queued (setq q n l) = a ++ l ++ b.
Proof.
  unfold queued, all_queues; destruct n; cbn [fmap list_fmap concat]; setoid_rewrite getq_setq; cbn.
  - by exists [], (cab_ep_queue q ++ data_be_queue q ++ data_bk_queue q ++ data_vi_queue q ++ data_vo_queue q ++ []).
  - by exists (mgmt_ep_queue q), (data_be_queue q ++ data_bk_queue q ++ data_vi_queue q ++ data_vo_queue q ++ []).
  - exists (mgmt_ep_queue q ++ cab_ep_queue q), (data_bk_queue q ++ data_vi_queue q ++ data_vo_queue q ++ []); intros; by rewrite <- app_assoc.
  - exists (mgmt_ep_queue q ++ cab_ep_queue q ++ data_be_queue q), (data_vi_queue q ++ data_vo_queue q ++ []); intros; by rewrite <- !app_assoc.
  - exists (mgmt_ep_queue q ++ cab_ep_queue q ++ data_be_queue q ++ data_bk_queue q), (data_vo_queue q ++ []); intros; by rewrite <- !app_assoc.
  - exists (mgmt_ep_queue q ++ cab_ep_queue q ++ data_be_queue q ++ data_bk_queue q ++ data_vi_queue q), []; intros; by rewrite <- !app_assoc.
Qed.

(** The frames of a queue taken out of it. *)
Lemma outstanding_setq st n l rest : getq (qs st) n ≡ₚ l ++ rest ->
  outstanding st ≡ₚ outstanding (upd_qs st (setq (qs st) n l)) ++ rest.
Proof.
  intros Hp; destruct (queued_split (qs st) n) as (a & b & E); unfold outstanding; cbn [qs upd_qs in_flight tx_failed].
  rewrite (E l); rewrite <- (setq_same (qs st) n) at 1; rewrite (E (getq (qs st) n)), Hp, <- !app_assoc.
  apply Permutation_app_head, Permutation_app_head, Permutation_app_head; by rewrite Permutation_app_comm, <- app_assoc.
Qed.

(** The slot named in the header of a frame, and the frame without it. *)
Definition cookie_of (s : skb) : Z := (strip_drv_header s).1.
Definition core (s : skb) : list Z * tx_info := (data (strip_drv_header s).2, info s).

Definition frame_ok (s : skb) : Prop :=
  0 <= cookie_of s < Z.of_nat MAX_TX_BUF_NUM /\ is_Some (get_htc_epid_queue (epid (ctl s))).

(** The slots that are set are those of the frames [fs], each with its own. *)
Definition slots_inv (slots : list bool) (fs : list skb) : Prop :=
  length slots = MAX_TX_BUF_NUM /\ Forall frame_ok fs /\ NoDup (cookie_of <$> fs) /\
  forall i : nat, slots !! i = Some true <-> Z.of_nat i ∈ cookie_of <$> fs.

#[global] Instance slots_inv_perm slots : Proper ((≡ₚ) ==> iff) (slots_inv slots).
Proof.
  intros fs gs Hp; unfold slots_inv; rewrite Hp.
  assert (E : forall x, x ∈ cookie_of <$> fs <-> x ∈ cookie_of <$> gs) by (intros; by rewrite Hp).
  by setoid_rewrite E.
Qed.

Lemma slots_inv_remove slots s fs : slots_inv slots (s :: fs) -> slots_inv (<[Z.to_nat (cookie_of s) := false]> slots) fs.
Proof.
  intros (Hl & Hf & Hn & Hs); rewrite fmap_cons in *; apply Forall_cons_1 in Hf as [[Hc _] Hf]; apply list.NoDup_cons in Hn as [Hni Hn].
  split_and!; [by rewrite length_insert | done | done |]; intros i; split.
  - intros Hi; apply list_lookup_insert_Some in Hi as [(_ & ? & _)|(Hne & Hi)]; [done|].
    apply Hs, elem_of_cons in Hi as [Hi|]; [lia | done].
  - intros Hi; rewrite list_lookup_insert_ne; [apply Hs; by right|]; intros E; apply Hni; replace (cookie_of s) with (Z.of_nat i) by lia; done.
Qed.

Lemma slots_inv_add slots slot s fs : slots_inv slots fs -> slots !! slot = Some false -> cookie_of s = Z.of_nat slot ->
  is_Some (get_htc_epid_queue (epid (ctl s))) -> slots_inv (<[slot := true]> slots) (s :: fs).
Proof.
  intros (Hl & Hf & Hn & Hs) Hslot Hc He; pose proof (lookup_lt_Some _ _ _ Hslot) as Hlt; unfold slots_inv; rewrite fmap_cons, Hc.
  split_and!; [by rewrite length_insert | constructor; [|done] | |].
  - split; [rewrite Hc; unfold MAX_TX_BUF_NUM in *; lia | done].
  - constructor; [|done]; intros Hi; apply Hs in Hi; congruence.
  - intros i; destruct (decide (i = slot)) as [->|Hne]; [rewrite list_lookup_insert_eq by done; split; [by left|done]|].
    rewrite list_lookup_insert_ne, Hs, elem_of_cons by done; split; [by right|]; intros [?|?]; [lia|done].
Qed.

Lemma cookie_of_completed s ok now : cookie_of (completed s ok now) = cookie_of s.
Proof. unfold cookie_of, strip_drv_header; cbn [ctl epid completed data]; by repeat case_match. Qed.

Lemma core_completed s ok now : core (completed s ok now) = core s.
Proof. unfold core, strip_drv_header; cbn [ctl epid completed data info]; by repeat case_match. Qed.

Lemma frame_ok_completed s ok now : frame_ok (completed s ok now) <-> frame_ok s.
Proof. unfold frame_ok; by rewrite cookie_of_completed. Qed.

Lemma slots_inv_completed slots s ok now fs : slots_inv slots (s :: fs) <-> slots_inv slots (completed s ok now :: fs).
Proof.
  unfold slots_inv; rewrite !fmap_cons, cookie_of_completed, !list.Forall_cons, frame_ok_completed; done.
Qed.

(** ** The invariant *)

(** Frames are in the queue of their endpoint. *)
Definition queues_inv (q : queues) : Prop :=
  forall n, Forall (fun s => get_htc_epid_queue (epid (ctl s)) = Some n) (getq q n).

(** [extra] are frames on their way between the queues and mac80211. *)
Definition inv (st : state) (extra : list skb) : Prop :=
  slots_inv (tx_slot st) (outstanding st ++ extra) /\ queues_inv (qs st) /\ 0 <= queued_cnt st /\
  Z.of_nat (length (outstanding st ++ extra)) <= queued_cnt st + Z.of_nat (uncounted st).

(** The frames reported to mac80211, and those freed. *)
Definition reported (o : list out) : list (list Z * tx_info) :=
  omap (fun x => match x with TxStatusOut s _ => Some (data s, info s) | _ => None end) o.
Definition dropped (o : list out) : list skb := omap (fun x => match x with Freed s => Some s | _ => None end) o.

Lemma reported_app o o' : reported (o ++ o') = reported o ++ reported o'.
Proof. apply omap_app. Qed.

Lemma dropped_app o o' : dropped (o ++ o') = dropped o ++ dropped o'.
Proof. apply omap_app. Qed.

Lemma check_tx_aggr_frame st v s : let '(st', o) := ath9k_htc_check_tx_aggr st v s in
  st' = upd_stations st (stations st') /\ reported o = [] /\ dropped o = [].
Proof.
  assert (E : st = upd_stations st (stations st)) by (by destruct st).
  unfold ath9k_htc_check_tx_aggr; destruct (find_sta _ _ _) as [[i tids]|]; [|done].
  destruct (_ && _); [|done]; by destruct (_ && _).
Qed.

(** Processing a frame gives its slot back and reports it, once. *)
Lemma tx_process_inv st s txs extra : inv st (s :: extra) ->
  let '(st', o) := ath9k_htc_tx_process st s txs in
  inv st' extra /\ outstanding st' = outstanding st /\ reported o = [core s] /\ dropped o = [] /\
  pending_tx_events st' = pending_tx_events st /\ uncounted st' = uncounted st.
Proof.
  intros (Hs & Hq & H0 & Hc); unfold ath9k_htc_tx_process; assert (Hok : frame_ok s).
  { destruct Hs as (_ & F & _); apply Forall_app in F as [_ F]; by apply Forall_cons_1 in F as [? _]. }
  assert (Ec : cookie_of s = (strip_drv_header s).1) by done; assert (Eo : core s = (data (strip_drv_header s).2, info s)) by done.
  assert (Ei : info (strip_drv_header s).2 = info s) by (unfold strip_drv_header; by repeat case_match).
  destruct (strip_drv_header s) as [slot s']; cbn [fst snd] in *; destruct Hok as [[Hlo Hhi] _]; rewrite Ec in *.
  rewrite (proj2 (Z.ltb_ge slot 0)) by lia.
  set (mid := match txs with Some _ => _ | None => _ end).
  assert (Hmid : exists sta r o, mid = (upd_stations st sta, r, o) /\ reported o = [] /\ dropped o = []).
  { assert (E : st = upd_stations st (stations st)) by (by destruct st).
    unfold mid; destruct txs as [t|], (vif (info s')) as [v|]; try (by exists (stations st); rewrite <- E; eauto).
    destruct (txok (ctl s')); [|by exists (stations st); rewrite <- E; eauto].
    pose proof (check_tx_aggr_frame st (vif_index v) s') as F; destruct (ath9k_htc_check_tx_aggr _ _ _) as [st1 o].
    destruct F as (-> & ? & ?); by exists (stations st1), (report_of t), o. }
  destruct Hmid as (sta & r & o & -> & Hr & Hd); split_and!; try done.
  - rewrite <- Permutation_middle in Hs, Hc; cbn [length] in Hc; split_and!; try done.
    + rewrite <- Ec in *; exact (slots_inv_remove _ s _ Hs).
    + cbn; destruct (Z.ltb_spec (queued_cnt st - 1) 0); lia.
    + cbn [queued_cnt uncounted ath9k_htc_tx_clear_slot upd_slot upd_cnt upd_stations] in *.
      change (outstanding _) with (outstanding st); destruct (Z.ltb_spec (queued_cnt st - 1) 0); lia.
  - rewrite reported_app, Hr, Eo; cbn; by rewrite Ei.
  - by rewrite dropped_app, Hd.
Qed.

Lemma process_all_inv st l extra : inv st (l ++ extra) ->
  let '(st', o) := process_all st l in
  inv st' extra /\ outstanding st' = outstanding st /\ reported o = core <$> l /\ dropped o = [] /\
  pending_tx_events st' = pending_tx_events st /\ uncounted st' = uncounted st.
Proof.
  revert st; induction l as [|s l IH]; intros st Hi; [done|]; cbn [process_all app] in *.
  pose proof (tx_process_inv st s None (l ++ extra) Hi) as P; destruct (ath9k_htc_tx_process st s None) as [st1 o1].
  destruct P as (H1 & E1 & R1 & D1 & P1 & U1); specialize (IH st1 H1); destruct (process_all st1 l) as [st2 o2].
  destruct IH as (H2 & E2 & R2 & D2 & P2 & U2); split_and!; try done; try congruence.
  - by rewrite reported_app, R1, R2.
  - by rewrite dropped_app, D1, D2.
Qed.

(** ** Operations keep the invariant *)

(** Every frame that is no longer held has been reported, and no other. *)
Definition balanced (st : state) (o : list out) (st' : state) : Prop :=
  core <$> outstanding st ≡ₚ (core <$> outstanding st') ++ reported o.

Definition keeps (st : state) (r : state * list out) : Prop :=
  inv r.1 [] /\ balanced st r.2 r.1 /\ dropped r.2 = [].

Lemma balanced_refl st st' : outstanding st' = outstanding st -> balanced st [] st'.
Proof. intros E; unfold balanced; by rewrite E, app_nil_r. Qed.

Lemma balanced_trans st1 st2 st3 o1 o2 : balanced st1 o1 st2 -> balanced st2 o2 st3 -> balanced st1 (o1 ++ o2) st3.
Proof.
  unfold balanced; intros -> ->; rewrite reported_app, <- app_assoc; apply Permutation_app_head, Permutation_app_comm.
Qed.

Lemma queues_inv_setq q n l : queues_inv q -> Forall (fun s => get_htc_epid_queue (epid (ctl s)) = Some n) l -> queues_inv (setq q n l).
Proof. intros Hq Hl m; rewrite getq_setq; case_decide; [by subst | apply Hq]. Qed.

Lemma inv_perm st extra extra' : extra ≡ₚ extra' -> inv st extra -> inv st extra'.
Proof. intros Hp; unfold inv; by rewrite Hp. Qed.

(** Frames leave a queue for mac80211. *)
Lemma inv_leave st n l rest : inv st [] -> getq (qs st) n ≡ₚ l ++ rest -> inv (upd_qs st (setq (qs st) n l)) rest.
Proof.
  intros (Hs & Hq & H0 & Hc) Hp; pose proof (outstanding_setq st n l rest Hp) as E.
  rewrite app_nil_r, E in Hs, Hc; split_and!; [done | | done | done].
  apply queues_inv_setq; [done|]; pose proof (Hq n) as F; rewrite Hp in F; by apply Forall_app in F as [? _].
Qed.

(** Frames that left a queue are reported. *)
Lemma keeps_leave st n l rest : inv st [] -> getq (qs st) n ≡ₚ l ++ rest ->
  keeps st (process_all (upd_qs st (setq (qs st) n l)) rest).
Proof.
  intros Hi Hp; pose proof (inv_leave st n l rest Hi Hp) as Hr; rewrite <- (app_nil_r rest) in Hr.
  pose proof (process_all_inv _ _ _ Hr) as P; destruct (process_all _ rest) as [st' o]; destruct P as (H1 & E & R & D & _).
  split_and!; [done | | done]; unfold balanced; cbn [fst snd]; rewrite R, E, <- fmap_app; f_equiv; by apply outstanding_setq.
Qed.

Lemma keeps_then st r f : keeps st r -> (forall st', inv st' [] -> keeps st' (f st')) ->
  keeps st (let '(st1, o1) := r in let '(st2, o2) := f st1 in (st2, o1 ++ o2)).
Proof.
  destruct r as [st1 o1]; intros (H1 & B1 & D1) Hf; cbn [fst snd] in *; destruct (Hf st1 H1) as (H2 & B2 & D2).
  destruct (f st1) as [st2 o2]; cbn [fst snd] in *; split_and!; cbn [fst snd]; [done | by eapply balanced_trans | by rewrite dropped_app, D1, D2].
Qed.

Lemma keeps_nothing st st' : inv st' [] -> outstanding st' = outstanding st -> keeps st (st', []).
Proof. intros; split_and!; [done | by apply balanced_refl | done]. Qed.

(** *** Statuses *)

Lemma take_cookie_perm ck ep l s l' : take_cookie ck ep l = Some (s, l') -> l ≡ₚ l' ++ [s].
Proof.
  revert l'; induction l as [|x l IH]; intros l'; cbn [take_cookie]; [done|]; destruct (check_cookie x ck ep).
  - intros [= <- <-]; by rewrite Permutation_app_comm.
  - destruct (take_cookie ck ep l) as [[y l1]|]; [|done]; cbn [mbind option_bind]; intros [= <- <-]; cbn [app]; f_equiv; by apply IH.
Qed.

Lemma get_packet_keeps st t s st1 txs : inv st [] -> ath9k_htc_tx_get_packet st t = Some (s, st1) ->
  keeps st (ath9k_htc_tx_process st1 s txs).
Proof.
  intros Hi; unfold ath9k_htc_tx_get_packet; destruct (get_htc_epid_queue _) as [n|]; [|done]; cbn [mbind option_bind].
  destruct (take_cookie _ _ _) as [[x l]|] eqn:Et; [|done]; cbn [mbind option_bind]; intros [= -> <-].
  apply take_cookie_perm in Et; pose proof (inv_leave st n l [s] Hi Et) as Hr.
  pose proof (tx_process_inv _ s txs [] Hr) as P; destruct (ath9k_htc_tx_process _ s txs) as [st' o]; destruct P as (H1 & E & R & D & _).
  split_and!; [done | | done]; unfold balanced; cbn [fst snd]; rewrite R, E.
  change [core s] with (core <$> [s]); rewrite <- fmap_app; f_equiv; by apply outstanding_setq.
Qed.

Lemma txstatus_one_keeps allocated st t : inv st [] -> keeps st (txstatus_one allocated st t).
Proof.
  intros Hi; unfold txstatus_one; destruct (ath9k_htc_tx_get_packet st t) as [[s st1]|] eqn:E; [by eapply get_packet_keeps|].
  by destruct allocated; apply keeps_nothing.
Qed.

Lemma check_wake_keeps st : inv st [] -> keeps st (ath9k_htc_check_wake_queues st).
Proof.
  intros Hi; unfold ath9k_htc_check_wake_queues; destruct (_ && _); [|by apply keeps_nothing].
  split_and!; [done | unfold balanced; by rewrite app_nil_r | done].
Qed.

Lemma txstatus_loop_keeps allocated event n st i : inv st [] -> (1 + 3 * (i + n) <= length event)%nat ->
  exists r, txstatus_loop allocated st event n i = Some r /\ keeps st r.
Proof.
  revert st i; induction n as [|n IH]; intros st i Hi Hl; cbn [txstatus_loop]; [eexists; split; [done|]; by apply keeps_nothing|].
  destruct (lookup_lt_is_Some_2 event (1 + 3 * i)) as [ck ->]; [lia|]; destruct (lookup_lt_is_Some_2 event (2 + 3 * i)) as [rt ->]; [lia|].
  destruct (lookup_lt_is_Some_2 event (3 + 3 * i)) as [fl ->]; [lia|]; cbn [mbind option_bind].
  pose proof (txstatus_one_keeps allocated st (TxStatus ck rt fl) Hi) as K1; destruct (txstatus_one _ _ _) as [st1 o1].
  destruct (IH st1 (S i)) as ([st2 o2] & -> & K2); [apply K1 | lia|]; cbn [mbind option_bind]; eexists; split; [done|].
  destruct K1 as (? & B1 & D1), K2 as (? & B2 & D2); cbn [fst snd] in *; split_and!; cbn [fst snd];
    [done | by eapply balanced_trans | by rewrite dropped_app, D1, D2].
Qed.

(** The event has the bytes of the statuses it counts. *)
Definition event_ok (event : list Z) : Prop :=
  match event with [] => False | cnt :: _ => (1 + 3 * Z.to_nat cnt <= length event)%nat end.

Lemma wmi_txstatus_keeps allocated st event : inv st [] -> event_ok event ->
  exists r, wmi_txstatus_event allocated st event = Some r /\ keeps st r.
Proof.
  intros Hi He; unfold wmi_txstatus_event; destruct (draining st); [eexists; split; [done|]; by apply keeps_nothing|].
  unfold ath9k_htc_txstatus; destruct event as [|cnt event]; [done|]; cbn [lookup list_lookup mbind option_bind].
  destruct (txstatus_loop_keeps allocated (cnt :: event) (Z.to_nat cnt) st 0 Hi He) as ([st1 o1] & -> & K1); cbn [mbind option_bind].
  pose proof (keeps_then st (st1, o1) ath9k_htc_check_wake_queues K1 check_wake_keeps) as K; cbn beta iota in K.
  destruct (ath9k_htc_check_wake_queues st1) as [st2 o2]; by eexists.
Qed.

(** *** Timeouts and draining *)

Lemma filter_partition {A} (f : A -> bool) l : l ≡ₚ List.filter (fun x => negb (f x)) l ++ List.filter f l.
Proof.
  induction l as [|x l IH]; [done|]; cbn [List.filter]; destruct (f x); cbn [negb].
  - rewrite <- Permutation_middle; by f_equiv.
  - cbn [app]; by f_equiv.
Qed.

Lemma cleanup_queue_keeps interval now st n : inv st [] -> keeps st (ath9k_htc_tx_cleanup_queue interval now st n).
Proof. intros Hi; apply keeps_leave; [done|]; apply (filter_partition (check_packet interval now)). Qed.

Lemma cleanup_queues_keeps interval now ns st : inv st [] -> keeps st (cleanup_queues interval now st ns).
Proof.
  revert st; induction ns as [|n ns IH]; intros st Hi; cbn [cleanup_queues]; [by apply keeps_nothing|].
  apply (keeps_then st (ath9k_htc_tx_cleanup_queue interval now st n) (fun st => cleanup_queues interval now st ns)); [|done].
  by apply cleanup_queue_keeps.
Qed.

Lemma match_events_keeps evs st : inv st [] -> let '(st', rest, o) := match_events st evs in keeps st (st', o).
Proof.
  revert st; induction evs as [|[t count] evs IH]; intros st Hi; cbn [match_events]; [by apply keeps_nothing|].
  destruct (ath9k_htc_tx_get_packet st t) as [[s st1]|] eqn:E.
  - pose proof (get_packet_keeps st t s st1 (Some t) Hi E) as K1; destruct (ath9k_htc_tx_process st1 s (Some t)) as [st2 o1].
    specialize (IH st2 (proj1 K1)); destruct (match_events st2 evs) as [[st3 rest] o2].
    destruct K1 as (? & B1 & D1), IH as (? & B2 & D2); cbn [fst snd] in *; split_and!; cbn [fst snd];
      [done | by eapply balanced_trans | by rewrite dropped_app, D1, D2].
  - specialize (IH st Hi); by destruct (match_events st evs) as [[st3 rest] o2].
Qed.

Lemma cleanup_timer_keeps interval now st : inv st [] -> keeps st (ath9k_htc_tx_cleanup_timer interval now st).
Proof.
  intros Hi; unfold ath9k_htc_tx_cleanup_timer; pose proof (match_events_keeps (pending_tx_events st) st Hi) as K1.
  destruct (match_events _ _) as [[st1 rest] o1].
  assert (K1' : keeps st (upd_events st1 rest, o1)) by exact K1.
  pose proof (keeps_then st _ (fun st => let '(st2, o2) := cleanup_queues interval now st all_queues in
    let '(st3, o3) := ath9k_htc_check_wake_queues st2 in (st3, o2 ++ o3)) K1') as K; cbn beta iota in K.
  destruct (cleanup_queues interval now (upd_events st1 rest) all_queues) as [st2 o2]; destruct (ath9k_htc_check_wake_queues st2) as [st3 o3].
  apply K; intros st' Hi'; apply (keeps_then st' (cleanup_queues interval now st' all_queues) ath9k_htc_check_wake_queues).
  - by apply cleanup_queues_keeps.
  - apply check_wake_keeps.
Qed.

Lemma failed_keeps st : inv st [] -> keeps st (process_all (upd_failed st []) (tx_failed st)).
Proof.
  intros (Hs & Hq & H0 & Hc).
  assert (E : outstanding st ≡ₚ outstanding (upd_failed st []) ++ tx_failed st)
    by (unfold outstanding; cbn [in_flight qs tx_failed upd_failed]; by rewrite app_nil_r, app_assoc).
  rewrite app_nil_r, E in Hs, Hc; assert (Hi : inv (upd_failed st []) (tx_failed st ++ [])) by (rewrite app_nil_r; done).
  pose proof (process_all_inv _ _ _ Hi) as P; destruct (process_all _ _) as [st' o]; destruct P as (H1 & E1 & R & D & _).
  split_and!; [done | | done]; unfold balanced; cbn [fst snd]; rewrite R, E1, <- fmap_app; by f_equiv.
Qed.

Lemma failed_tasklet_keeps st : inv st [] -> keeps st (ath9k_tx_failed_tasklet st).
Proof. intros Hi; unfold ath9k_tx_failed_tasklet; destruct (draining st); [by apply keeps_nothing | by apply failed_keeps]. Qed.

Lemma drainq_keeps st n : inv st [] -> keeps st (ath9k_htc_tx_drainq st n).
Proof. intros Hi; by apply keeps_leave. Qed.

Lemma drain_queues_keeps ns st : inv st [] -> keeps st (drain_queues st ns).
Proof.
  revert st; induction ns as [|n ns IH]; intros st Hi; cbn [drain_queues]; [by apply keeps_nothing|].
  apply (keeps_then st (ath9k_htc_tx_drainq st n) (fun st => drain_queues st ns)); [by apply drainq_keeps | done].
Qed.

(** *** Completions *)

(** The host-target layer completes frame [i] of those in flight. *)
Definition complete_flight (st : state) (i : nat) (ok : bool) (jiffies : Z) : state * list out :=
  match in_flight st !! i with
  | None => (st, [])
  | Some s => ath9k_htc_txep (upd_flight st (delete i (in_flight st)) (uncounted st)) s (epid (ctl s)) ok jiffies
  end.

Lemma slots_inv_cookies slots fs gs : slots_inv slots fs -> cookie_of <$> gs = cookie_of <$> fs -> Forall frame_ok gs -> slots_inv slots gs.
Proof. intros (? & ? & ? & ?) E ?; unfold slots_inv; by rewrite E. Qed.

(** Frames that complete move to other queues. *)
Lemma keeps_moved st st' l ok now : inv st [] -> tx_slot st' = tx_slot st -> queued_cnt st' = queued_cnt st -> uncounted st' = uncounted st ->
  queues_inv (qs st') ->
  (exists rest, outstanding st ≡ₚ rest ++ l /\ outstanding st' ≡ₚ rest ++ ((fun s => completed s ok now) <$> l)) ->
  keeps st (st', []).
Proof.
  intros (Hs & Hq & H0 & Hc) E1 E2 E3 Hq' (rest & P & P').
  assert (Ec : forall {B} (f : skb -> B), (forall s, f (completed s ok now) = f s) -> f <$> ((fun s => completed s ok now) <$> l) = f <$> l).
  { intros B f Hf; clear -Hf; induction l as [|x l IH]; [done|]; rewrite !fmap_cons, Hf; by f_equal. }
  split_and!; [split_and!| |done]; cbn [fst snd].
  - rewrite app_nil_r, P', E1 in *; rewrite P in Hs; eapply slots_inv_cookies; [exact Hs | |].
    + rewrite !fmap_app; f_equal; apply Ec; intros; apply cookie_of_completed.
    + destruct Hs as (_ & F & _); apply Forall_app in F as [F1 F2]; apply Forall_app; split; [done|].
      apply Forall_fmap; eapply Forall_impl; [|exact F2]; intros s; apply frame_ok_completed.
  - done.
  - by rewrite E2.
  - rewrite app_nil_r, P', E2, E3 in *; rewrite P in Hc; by rewrite !length_app, length_fmap in *.
  - unfold balanced; cbn [fst snd reported omap list_omap]; rewrite app_nil_r, P, P', !fmap_app; f_equiv.
    rewrite Ec; [done|]; intros; apply core_completed.
Qed.

Lemma complete_flight_keeps st i ok now : inv st [] -> keeps st (complete_flight st i ok now).
Proof.
  intros Hi; unfold complete_flight; destruct (in_flight st !! i) as [s|] eqn:E; [|by apply keeps_nothing].
  pose proof (delete_Permutation _ _ _ E) as Pd; pose proof Hi as (Hs & Hq & _).
  set (fl := delete i (in_flight st)) in *; clearbody fl.
  assert (Hok : frame_ok s).
  { destruct Hs as (_ & F & _); rewrite app_nil_r in F; unfold outstanding in F; rewrite Pd in F; by apply Forall_cons_1 in F as [? _]. }
  unfold ath9k_htc_txep; destruct ok; cbn [negb].
  - destruct Hok as [_ [n En]]; rewrite En; cbn [qs upd_flight].
    apply (keeps_moved st _ [s] true now); try done; cbn [qs upd_qs upd_flight].
    + apply queues_inv_setq; [done|]; apply Forall_app; split; [apply Hq | by repeat constructor].
    + set (q := qs st); destruct (queued_split q n) as (a & b & Eq).
      exists (fl ++ queued q ++ tx_failed st).
      unfold outstanding; cbn [qs upd_qs upd_flight in_flight tx_failed]; fold q; split.
      * rewrite Pd; cbn [app]; by rewrite Permutation_cons_append.
      * rewrite Eq; rewrite <- (setq_same q n) at 2; rewrite Eq; cbn [fmap list_fmap].
        rewrite <- !app_assoc; do 3 apply Permutation_app_head; rewrite (app_assoc b); apply Permutation_app_comm.
  - apply (keeps_moved st _ [s] false now); try done; exists (fl ++ queued (qs st) ++ tx_failed st).
    unfold outstanding; cbn [qs upd_failed upd_flight in_flight tx_failed fmap list_fmap]; split; [rewrite Pd; cbn [app]; by rewrite Permutation_cons_append | by rewrite <- !app_assoc].
Qed.

Lemma flush_keeps st now : inv st [] -> keeps st (flush_flight st now, []).
Proof.
  intros Hi; apply (keeps_moved st _ (in_flight st) false now); try done; [apply Hi|].
  exists (queued (qs st) ++ tx_failed st); unfold outstanding, flush_flight; cbn [qs upd_failed upd_flight in_flight tx_failed app]; split.
  - apply Permutation_app_comm.
  - by rewrite <- app_assoc.
Qed.

Lemma drain_keeps st now : inv st [] -> keeps st (ath9k_htc_tx_drain st now).
Proof.
  intros Hi; unfold ath9k_htc_tx_drain; set (st0 := upd_flags st _ true).
  assert (K0 : keeps st (flush_flight st0 now, [])) by exact (flush_keeps st0 now Hi).
  pose proof (keeps_then st _ (fun st1 => let '(st2, o1) := drain_queues st1 all_queues in
    let '(st3, o2) := process_all (upd_failed st2 []) (tx_failed st2) in (st3, o1 ++ o2)) K0) as K; cbn beta iota in K.
  destruct (drain_queues (flush_flight st0 now) all_queues) as [st2 o1]; destruct (process_all _ _) as [st3 o2]; cbn [app] in K.
  enough (keeps st (st3, o1 ++ o2)) as K' by exact K'; apply K; intros st' Hi'.
  apply (keeps_then st' (drain_queues st' all_queues) (fun st => process_all (upd_failed st []) (tx_failed st))).
  - by apply drain_queues_keeps.
  - apply failed_keeps.
Qed.

(** *** Sending *)

(** No other endpoint is the management endpoint. *)
Definition mgmt_apart : Prop :=
  cab_ep eps <> mgmt_ep eps /\ data_be_ep eps <> mgmt_ep eps /\ data_bk_ep eps <> mgmt_ep eps /\
  data_vi_ep eps <> mgmt_ep eps /\ data_vo_ep eps <> mgmt_ep eps.

#[local] Instance mgmt_apart_dec : Decision mgmt_apart.
Proof. unfold mgmt_apart; apply _. Defined.

Lemma data_ep_known ep : is_data_ep ep = true -> is_Some (get_htc_epid_queue ep).
Proof.
  unfold is_data_ep, get_htc_epid_queue; rewrite !orb_true_iff; intros [[[[E|E]|E]|E]|E]; rewrite E; by repeat case_match.
Qed.

(** What the frame is when it comes back: the probe response has been given
    the timestamp of the interface. *)
Definition sent_data (s : skb) : list Z :=
  match vif (info s) with
  | Some v => if negb (ieee80211_is_data (frame_control (data s))) && ieee80211_is_probe_resp (frame_control (data s))
              then take 24 (data s) ++ tsfadjust v ++ drop 32 (data s) else data s
  | None => data s
  end.

Lemma tx_data_fields rts v s sta_idx vif_idx slot is_cab : let s' := ath9k_htc_tx_data rts v s sta_idx vif_idx slot is_cab in
  exists h, data s' = h ++ data s /\ length h = sizeof_tx_frame_hdr /\ (h ++ data s).[10] = u8 slot /\ info s' = info s /\
    epid (ctl s') = if is_cab then cab_ep eps else get_htc_epid (queue_mapping (info s)).
Proof.
  cbn zeta; unfold ath9k_htc_tx_data; destruct (key_fields (info s)) as [kt ki]; cbn [data info ctl epid].
  eexists; split; [done|]; split_and!; done.
Qed.

(** The header the driver puts on is the one it takes off. *)
Lemma strip_tx_start conf sta s slot is_cab s' : mgmt_apart -> 0 <= slot < 256 ->
  ath9k_htc_tx_start conf sta s slot is_cab = Some s' ->
  cookie_of s' = slot /\ core s' = (sent_data s, info s) /\ is_Some (get_htc_epid_queue (epid (ctl s'))).
Proof.
  intros (H1 & H2 & H3 & H4 & H5) Hs; unfold ath9k_htc_tx_start.
  destruct (match vif (info s) with Some v => _ | None => _ end) as [vi|] eqn:Ev; [|done]; cbn [mbind option_bind]; intros [= <-].
  assert (Eu : u8 slot = slot) by (apply wrap_small; unfold is_uint; lia); unfold cookie_of, core, sent_data.
  destruct (ieee80211_is_data (frame_control (data s))) eqn:Ed; cbn [negb andb].
  - set (sx := match sta with Some i => i | None => _ end).
    destruct (tx_data_fields (rts_threshold conf) (vif (info s)) s sx vi slot is_cab) as (h & Ed' & Hl & Hc & Ei & Ee).
    set (s' := ath9k_htc_tx_data _ _ _ _ _ _ _) in *; clearbody s'; unfold strip_drv_header.
    assert (En : epid (ctl s') <> mgmt_ep eps /\ is_data_ep (epid (ctl s')) = true).
    { rewrite Ee; unfold is_data_ep; destruct is_cab; [by rewrite Z.eqb_refl, !orb_true_r|].
      unfold get_htc_epid; repeat case_match; (split; [done|]); by rewrite Z.eqb_refl, ?orb_true_r. }
    destruct En as [En Ek]; rewrite (proj2 (Z.eqb_neq _ _)), Ek, Ed', Hc, Ei by done; cbn [fst snd data set_sk_data].
    rewrite <- Hl, drop_app_length; split_and!; [done | by repeat case_match | by apply data_ep_known].
  - unfold ath9k_htc_tx_mgmt, strip_drv_header; destruct (key_fields (info s)) as [kt ki]; cbn [data info ctl epid].
    rewrite Z.eqb_refl; cbn [fst snd data set_sk_data app drop]; split_and!; [done | by repeat case_match |].
    unfold get_htc_epid_queue; by rewrite Z.eqb_refl.
Qed.

Lemma get_slot_spec st fs : slots_inv (tx_slot st) fs ->
  let '(st', slot) := ath9k_htc_tx_get_slot st in
  if slot <? 0 then st' = st
  else 0 <= slot < 256 /\ tx_slot st !! Z.to_nat slot = Some false /\ st' = upd_slot st (<[Z.to_nat slot := true]> (tx_slot st)).
Proof.
  intros (Hl & _); unfold ath9k_htc_tx_get_slot; rewrite take_ge by lia.
  destruct (list_find _ (tx_slot st)) as [[i b]|] eqn:E; [|done]; apply list_find_Some in E as (Ei & -> & _).
  pose proof (lookup_lt_Some _ _ _ Ei); rewrite Hl in *; unfold MAX_TX_BUF_NUM in *.
  rewrite (proj2 (Z.ltb_ge _ _)), Nat2Z.id by lia; split_and!; [lia..|done|done].
Qed.

Lemma clear_set_slot st slot : tx_slot st !! slot = Some false ->
  ath9k_htc_tx_clear_slot (upd_slot st (<[slot := true]> (tx_slot st))) (Z.of_nat slot) = st.
Proof.
  intros E; unfold ath9k_htc_tx_clear_slot; rewrite Nat2Z.id; cbn [tx_slot upd_slot].
  rewrite list_insert_insert_eq, (list_insert_id _ _ _ E); by destruct st.
Qed.

(** A frame is accepted with a slot of its own, or nothing changes. *)
Lemma tx_one_spec conf st sta headroom sent is_cab s : mgmt_apart -> inv st [] ->
  let '(ok, st', o) := tx_one conf st sta headroom sent is_cab s in
  if ok then exists s' d slot, o = [] /\ pad_header headroom (data s) = Some d /\ core s' = (sent_data (set_sk_data s d), info s) /\
    st' = upd_flight (upd_slot st (<[slot := true]> (tx_slot st))) (in_flight st ++ [s']) (uncounted st) /\
    slots_inv (<[slot := true]> (tx_slot st)) (s' :: outstanding st)
  else st' = st /\ reported o = [].
Proof.
  intros Ha (Hs & _); rewrite app_nil_r in Hs; unfold tx_one; destruct (pad_header headroom (data s)) as [d|]; [|done].
  pose proof (get_slot_spec st (outstanding st) Hs) as G; destruct (ath9k_htc_tx_get_slot st) as [st1 slot].
  destruct (slot <? 0); [done|]; destruct G as (Hr & Hsl & ->).
  pose proof (clear_set_slot st (Z.to_nat slot) Hsl) as Ecl; rewrite Z2Nat.id in Ecl by lia.
  destruct (ath9k_htc_tx_start conf sta (set_sk_data s d) slot is_cab) as [s'|] eqn:Es; [|by rewrite Ecl].
  destruct sent; [|by rewrite Ecl]; destruct (strip_tx_start _ _ _ _ _ _ Ha Hr Es) as (Ec & Eo & Hep).
  exists s', d, (Z.to_nat slot); split_and!; try done; apply slots_inv_add; try done; rewrite Ec; lia.
Qed.

(** What an operation adds to the frames held. *)
Definition adds (st : state) (r : state * list out) (new : list (list Z * tx_info)) : Prop :=
  inv r.1 [] /\ new ++ (core <$> outstanding st) ≡ₚ (core <$> outstanding r.1) ++ reported r.2.

Lemma keeps_adds st r : keeps st r -> adds st r [].
Proof. by intros (? & ? & _). Qed.

(** The frame a send accepts, as mac80211 will get it back. *)
Definition accepted (conf : tx_conf) (st : state) (sta : option Z) (headroom : Z) (sent is_cab : bool) (s : skb) : list (list Z * tx_info) :=
  match (tx_one conf st sta headroom sent is_cab s).1.1, pad_header headroom (data s) with
  | true, Some d => [(sent_data (set_sk_data s d), info s)]
  | _, _ => []
  end.

Lemma outstanding_send st s' u : outstanding (upd_flight st (in_flight st ++ [s']) u) ≡ₚ s' :: outstanding st.
Proof. unfold outstanding; cbn [in_flight qs tx_failed upd_flight]; rewrite <- app_assoc; symmetry; apply Permutation_middle. Qed.

(** An accepted frame that is counted, or will be. *)
Lemma accepted_adds st slot s' u c x : inv st [] -> slots_inv (<[slot := true]> (tx_slot st)) (s' :: outstanding st) -> core s' = x ->
  0 <= c -> c + Z.of_nat u = queued_cnt st + Z.of_nat (uncounted st) + 1 ->
  adds st (upd_cnt (upd_flight (upd_slot st (<[slot := true]> (tx_slot st))) (in_flight st ++ [s']) u) c, []) [x].
Proof.
  intros (_ & Hq & _ & Hc) Hs <- Hc0 Hcu; unfold adds, inv; cbn [fst snd reported omap list_omap].
  change (outstanding (upd_cnt _ _)) with (outstanding (upd_flight st (in_flight st ++ [s']) u)); rewrite !app_nil_r in *.
  rewrite outstanding_send; split_and!; try done; cbn [length queued_cnt uncounted upd_cnt upd_flight]; lia.
Qed.

Lemma tx_adds conf st sta headroom sent s : mgmt_apart -> inv st [] ->
  adds st (ath9k_htc_tx conf st sta headroom sent s) (accepted conf st sta headroom sent false s).
Proof.
  intros Ha Hi; pose proof (tx_one_spec conf st sta headroom sent false s Ha Hi) as T; unfold ath9k_htc_tx, accepted.
  destruct (tx_one _ _ _ _ _ _ _) as [[[] st'] o]; cbn [fst snd].
  - destruct T as (s' & d & slot & -> & -> & Ec & -> & Hs).
    apply (accepted_adds st slot s' (S (uncounted st)) (queued_cnt st)); try done; [apply Hi | lia].
  - destruct T as [-> Hr]; split; [done|]; cbn [fst snd]; by rewrite Hr, app_nil_r.
Qed.

Lemma send_buffered_adds conf st headroom sent s : mgmt_apart -> inv st [] ->
  adds st (ath9k_htc_send_buffered conf st headroom sent s) (accepted conf st None headroom sent true s).
Proof.
  intros Ha Hi; pose proof (tx_one_spec conf st None headroom sent true s Ha Hi) as T; unfold ath9k_htc_send_buffered, accepted.
  destruct (tx_one _ _ _ _ _ _ _) as [[[] st'] o]; cbn [fst snd].
  - destruct T as (s' & d & slot & -> & -> & Ec & -> & Hs).
    apply (accepted_adds st slot s' (uncounted st) (queued_cnt st + 1)); try done; [destruct Hi as (_ & _ & ? & _); lia | lia].
  - destruct T as [-> Hr]; split; [done|]; cbn [fst snd]; by rewrite Hr, app_nil_r.
Qed.

Lemma tx_count_keeps st : inv st [] -> keeps st (ath9k_htc_tx_count st).
Proof.
  intros Hi; unfold ath9k_htc_tx_count; destruct (uncounted st) as [|u] eqn:Eu; [by apply keeps_nothing|].
  destruct Hi as (Hs & Hq & H0 & Hc); unfold ath9k_htc_check_stop_queues; set (st1 := upd_cnt (upd_flight st (in_flight st) u) _).
  assert (Hi1 : inv st1 []).
  { split_and!; try done; cbn [queued_cnt uncounted upd_cnt upd_flight st1] in *; [lia|].
    change (outstanding st1) with (outstanding st); rewrite Eu in Hc; lia. }
  destruct (_ && _); [|by apply keeps_nothing]; split_and!; [exact Hi1 | unfold balanced; by rewrite app_nil_r | done].
Qed.

(** ** Runs *)

Inductive op :=
  | OTx (conf : tx_conf) (sta : option Z) (headroom : Z) (sent : bool) (s : skb)
  | OCount
  | OCab (conf : tx_conf) (headroom : Z) (sent : bool) (s : skb)
  | OComplete (i : nat) (ok : bool) (jiffies : Z)
  | OStatus (allocated : bool) (event : list Z)
  | OFailed
  | OTimer (interval jiffies : Z)
  | ODrain (jiffies : Z).

(** The state, the effects and the frames accepted. *)
Definition run_op (st : state) (o : op) : option (state * list out * list (list Z * tx_info)) :=
  match o with
  | OTx conf sta headroom sent s => Some (ath9k_htc_tx conf st sta headroom sent s, accepted conf st sta headroom sent false s)
  | OCount => Some (ath9k_htc_tx_count st, [])
  | OCab conf headroom sent s => Some (ath9k_htc_send_buffered conf st headroom sent s, accepted conf st None headroom sent true s)
  | OComplete i ok jiffies => Some (complete_flight st i ok jiffies, [])
  | OStatus allocated event => r ← wmi_txstatus_event allocated st event; Some (r, [])
  | OFailed => Some (ath9k_tx_failed_tasklet st, [])
  | OTimer interval jiffies => Some (ath9k_htc_tx_cleanup_timer interval jiffies st, [])
  | ODrain jiffies => Some (ath9k_htc_tx_drain st jiffies, [])
  end.

Fixpoint run (st : state) (ops : list op) : option (state * list out * list (list Z * tx_info)) :=
  match ops with
  | [] => Some (st, [], [])
  | o :: ops => '(st, out1, new1) ← run_op st o; '(st, out2, new2) ← run st ops; Some (st, out1 ++ out2, new1 ++ new2)
  end.

Definition op_ok (o : op) : Prop := match o with OStatus _ event => event_ok event | _ => True end.

Lemma run_op_ok st o : mgmt_apart -> inv st [] -> op_ok o -> exists r new, run_op st o = Some (r, new) /\ adds st r new.
Proof.
  intros Ha Hi Ho; destruct o; cbn [run_op]; try (eexists _, _; split; [done|]).
  - by apply tx_adds.
  - by apply keeps_adds, tx_count_keeps.
  - by apply send_buffered_adds.
  - by apply keeps_adds, complete_flight_keeps.
  - destruct (wmi_txstatus_keeps allocated st event Hi Ho) as (r & -> & K); exists r, []; split; [done|]; by apply keeps_adds.
  - by apply keeps_adds, failed_tasklet_keeps.
  - by apply keeps_adds, cleanup_timer_keeps.
  - by apply keeps_adds, drain_keeps.
Qed.

Lemma run_ok st ops : mgmt_apart -> inv st [] -> Forall op_ok ops ->
  exists st' out new, run st ops = Some (st', out, new) /\ inv st' [] /\
    new ++ (core <$> outstanding st) ≡ₚ (core <$> outstanding st') ++ reported out.
Proof.
  intros Ha; revert st; induction ops as [|o ops IH]; intros st Hi Hf; [exists st, [], []; split_and!; [done|done|by rewrite app_nil_r]|].
  apply Forall_cons_1 in Hf as [Ho Hf]; destruct (run_op_ok st o Ha Hi Ho) as ([st1 out1] & new1 & E1 & Hi1 & P1); cbn [fst snd] in *.
  destruct (IH st1 Hi1 Hf) as (st2 & out2 & new2 & E2 & Hi2 & P2); cbn [run]; rewrite E1; cbn [mbind option_bind]; rewrite E2; cbn [mbind option_bind].
  exists st2, (out1 ++ out2), (new1 ++ new2); split_and!; [done|done|]; rewrite reported_app.
  rewrite (Permutation_app_comm new1), <- app_assoc, P1, app_assoc, P2, <- app_assoc; apply Permutation_app_head, Permutation_app_comm.
Qed.

(** ** Queues after draining and after the timer *)

Lemma tx_process_queues st s txs : let '(st', _) := ath9k_htc_tx_process st s txs in
  qs st' = qs st /\ in_flight st' = in_flight st /\ tx_failed st' = tx_failed st.
Proof.
  unfold ath9k_htc_tx_process; destruct (strip_drv_header s) as [slot s']; destruct (slot <? 0); [done|].
  destruct txs as [t|], (vif (info s')) as [v|]; try done; destruct (txok (ctl s')); [|done].
  unfold ath9k_htc_check_tx_aggr; destruct (find_sta _ _ _) as [[i tids]|]; [|done].
  destruct (_ && _); [|done]; by destruct (_ && _).
Qed.

Lemma process_all_queues st l : let '(st', _) := process_all st l in
  qs st' = qs st /\ in_flight st' = in_flight st /\ tx_failed st' = tx_failed st.
Proof.
  revert st; induction l as [|s l IH]; intros st; [done|]; cbn [process_all].
  pose proof (tx_process_queues st s None) as P; destruct (ath9k_htc_tx_process st s None) as [st1 o1].
  specialize (IH st1); destruct (process_all st1 l) as [st2 o2]; destruct P as (? & ? & ?), IH as (? & ? & ?); split_and!; congruence.
Qed.

Lemma drain_queues_empty ns st : let '(st', _) := drain_queues st ns in
  in_flight st' = in_flight st /\ tx_failed st' = tx_failed st /\
  forall n, getq (qs st') n = if decide (n ∈ ns) then [] else getq (qs st) n.
Proof.
  revert st; induction ns as [|m ns IH]; intros st; cbn [drain_queues]; [done|]; unfold ath9k_htc_tx_drainq.
  pose proof (process_all_queues (upd_qs st (setq (qs st) m [])) (getq (qs st) m)) as P; destruct (process_all _ _) as [st1 o1].
  destruct P as (Eq & Ef & Et); specialize (IH st1); destruct (drain_queues st1 ns) as [st2 o2]; destruct IH as (E1 & E2 & E3).
  split_and!; [by rewrite E1 | by rewrite E2 |]; intros n; rewrite E3, Eq; cbn [qs upd_qs]; rewrite getq_setq.
  destruct (decide (n ∈ ns)), (decide (n ∈ m :: ns)) as [Hi|Hi], (decide (m = n)); try done;
    exfalso; rewrite elem_of_cons in Hi; intuition congruence.
Qed.

Lemma drain_outstanding st now : outstanding (ath9k_htc_tx_drain st now).1 = [].
Proof.
  unfold ath9k_htc_tx_drain; set (st0 := flush_flight _ now).
  pose proof (drain_queues_empty all_queues st0) as D; destruct (drain_queues st0 all_queues) as [st1 o1]; destruct D as (E1 & E2 & E3).
  pose proof (process_all_queues (upd_failed st1 []) (tx_failed st1)) as P; destruct (process_all _ _) as [st2 o2].
  destruct P as (Q1 & Q2 & Q3); unfold outstanding, queued; cbn [fst in_flight qs tx_failed upd_flags upd_events]; rewrite Q1, Q2, Q3.
  cbn [in_flight qs tx_failed upd_failed]; rewrite E1; cbn [st0 flush_flight in_flight upd_failed upd_flight app].
  unfold all_queues; cbn [fmap list_fmap]; by rewrite !E3.
Qed.

Lemma no_slots slots : slots_inv slots [] -> slots = repeat false MAX_TX_BUF_NUM.
Proof.
  intros (Hl & _ & _ & Hs); apply list_eq; intros i; destruct (decide (i < MAX_TX_BUF_NUM)%nat) as [Hi|Hi].
  - destruct (lookup_lt_is_Some_2 slots i) as [b Eb]; [lia|]; rewrite Eb; destruct b; [apply Hs in Eb; by apply elem_of_nil in Eb|].
    symmetry; rewrite <- (repeat_length false MAX_TX_BUF_NUM) in Hi; apply lookup_lt_is_Some_2 in Hi as [x Hx]; rewrite Hx; f_equal.
    apply list_elem_of_lookup_2, list_elem_of_In, repeat_spec in Hx; done.
  - rewrite !(proj2 (lookup_ge_None _ _)); [done | rewrite repeat_length; lia | lia].
Qed.

Lemma cleanup_queues_filtered interval now ns st : let '(st', _) := cleanup_queues interval now st ns in
  forall n, getq (qs st') n =
    if decide (n ∈ ns) then List.filter (fun s => negb (check_packet interval now s)) (getq (qs st) n) else getq (qs st) n.
Proof.
  revert st; induction ns as [|m ns IH]; intros st; cbn [cleanup_queues]; [done|]; unfold ath9k_htc_tx_cleanup_queue.
  set (keep := List.filter (fun s => negb (check_packet interval now s)) (getq (qs st) m)).
  pose proof (process_all_queues (upd_qs st (setq (qs st) m keep)) (List.filter (check_packet interval now) (getq (qs st) m))) as P.
  destruct (process_all _ _) as [st1 o1]; destruct P as (Eq & _ & _); specialize (IH st1); destruct (cleanup_queues interval now st1 ns) as [st2 o2].
  intros n; rewrite IH, Eq; cbn [qs upd_qs]; rewrite getq_setq.
  assert (Ef : List.filter (fun s => negb (check_packet interval now s)) keep = keep).
  { unfold keep; clear; induction (getq (qs st) m) as [|x l IHl]; [done|]; cbn [List.filter]; destruct (check_packet _ _ x) eqn:E; cbn [negb]; [done|].
    cbn [List.filter]; rewrite E; cbn [negb]; by f_equal. }
  destruct (decide (m = n)) as [<-|Hne].
  - rewrite (decide_True (P := m ∈ m :: ns)) by (by left); by destruct (decide (m ∈ ns)).
  - destruct (decide (n ∈ ns)), (decide (n ∈ m :: ns)) as [Hi|Hi]; try done; exfalso; rewrite elem_of_cons in Hi; intuition congruence.
Qed.

End Driver.

(** ** Properties *)

Definition init (sta : list (Z * list Z * list aggr_state)) : state :=
  State false false 0 (Queues [] [] [] [] [] []) [] (repeat false MAX_TX_BUF_NUM) [] [] 0 sta.

Lemma init_inv eps sta : inv eps (init sta) [].
Proof.
  split_and!; [split_and!; [done | constructor | constructor |] | intros []; constructor | done | done].
  intros i; split; [|intros Hi; by apply elem_of_nil in Hi]; intros Hi; exfalso.
  apply list_elem_of_lookup_2, list_elem_of_In, repeat_spec in Hi; done.
Qed.

(** C34: from the start of the driver, over any interleaving of sends, counts,
    completions, status events, timeouts and drains: every frame accepted is
    reported to mac80211 exactly once or still held; the slots that are taken
    are exactly the cookies of the frames held, which are all different; and
    the counter that stops the queues, with the senders that have yet to count,
    is never below the number of frames held. *)
Theorem tx_frames_reported_once eps ht band5 sta ops : mgmt_apart eps -> Forall op_ok ops ->
  exists st out new, run eps ht band5 (init sta) ops = Some (st, out, new) /\
    new ≡ₚ (core eps <$> outstanding st) ++ reported out /\
    NoDup (cookie_of eps <$> outstanding st) /\
    (forall i : nat, tx_slot st !! i = Some true <-> Z.of_nat i ∈ cookie_of eps <$> outstanding st) /\
    Z.of_nat (length (outstanding st)) <= queued_cnt st + Z.of_nat (uncounted st).
Proof.
  intros Ha Ho; destruct (run_ok eps ht band5 (init sta) ops Ha (init_inv eps sta) Ho) as (st & out & new & E & Hi & P).
  exists st, out, new; destruct Hi as ((_ & _ & Hn & Hs) & _ & _ & Hc); rewrite app_nil_r in *; split_and!; try done.
Qed.

(** Draining reports every frame the driver and the layer below it hold,
    and leaves no frame and no slot taken. *)
Theorem tx_drain_empties eps ht band5 sta ops st out new now : mgmt_apart eps -> Forall op_ok ops ->
  run eps ht band5 (init sta) ops = Some (st, out, new) ->
  let '(st', o) := ath9k_htc_tx_drain eps ht band5 st now in
  outstanding st' = [] /\ tx_slot st' = repeat false MAX_TX_BUF_NUM /\ reported o ≡ₚ core eps <$> outstanding st.
Proof.
  intros Ha Ho E; destruct (run_ok eps ht band5 (init sta) ops Ha (init_inv eps sta) Ho) as (st0 & out0 & new0 & E0 & Hi & _).
  rewrite E in E0; injection E0 as <- <- <-; pose proof (drain_keeps eps ht band5 st now Hi) as ((Hs & _) & B & _).
  pose proof (drain_outstanding eps ht band5 st now) as Eo; destruct (ath9k_htc_tx_drain _ _ _ st now) as [st' o]; cbn [fst snd] in *.
  unfold balanced in B; rewrite Eo in *; split_and!; [done | by apply (no_slots eps) | by rewrite B].
Qed.

(** After the cleanup timer no frame waits for a status that has waited
    longer than the timeout; the frames that went are reported. *)
Theorem tx_timeout_reports eps ht band5 sta ops st out new interval now n : mgmt_apart eps -> Forall op_ok ops ->
  run eps ht band5 (init sta) ops = Some (st, out, new) ->
  let '(st', o) := ath9k_htc_tx_cleanup_timer eps ht band5 interval now st in
  Forall (fun s => check_packet interval now s = false) (getq (qs st') n) /\
  core eps <$> outstanding st ≡ₚ (core eps <$> outstanding st') ++ reported o.
Proof.
  intros Ha Ho E; destruct (run_ok eps ht band5 (init sta) ops Ha (init_inv eps sta) Ho) as (st0 & out0 & new0 & E0 & Hi & _).
  rewrite E in E0; injection E0 as <- <- <-; pose proof (cleanup_timer_keeps eps ht band5 interval now st Hi) as (_ & B & _); revert B.
  unfold ath9k_htc_tx_cleanup_timer; destruct (match_events _ _ _ st (pending_tx_events st)) as [[st1 rest] o1].
  pose proof (cleanup_queues_filtered eps ht band5 interval now all_queues (upd_events st1 rest)) as F.
  destruct (cleanup_queues _ _ _ _ _ _ _) as [st2 o2]; destruct (ath9k_htc_check_wake_queues st2) as [st3 o3] eqn:Ew.
  assert (Eq : qs st3 = qs st2) by (unfold ath9k_htc_check_wake_queues in Ew; destruct (_ && _); by injection Ew as <- _).
  intros B; split; [|exact B]; rewrite Eq, F, decide_True by (destruct n; unfold all_queues; rewrite !elem_of_cons; tauto).
  apply List.Forall_forall; intros s [_ Hs]%filter_In; by destruct (check_packet interval now s).
Qed.

(** ** Witnesses *)

Definition demo_eps : endpoints := Eps 2 3 4 5 6 7.
Definition demo_conf : tx_conf := Conf (2 ^ 32 - 1) None (fun _ => 0).
Definition demo_header : list Z := [0x88; 1; 0; 0] ++ repeat 2 6 ++ repeat 4 6 ++ repeat 6 6 ++ [0x10; 0; 5; 0].
Definition demo_skb (body : list Z) : skb :=
  Skb (demo_header ++ body) (Info (Some (Vif 0 (repeat 0 8) false)) false None 0 false) (Ctl 0 0 false 0 0).
Definition demo_tx (body : list Z) : op := OTx demo_conf (Some 1) 8 true (demo_skb body).
(** Acknowledged at rate 3 of endpoint 7. *)
Definition demo_status (ck : Z) : op := OStatus true [1; ck; 0x73; 1].
Definition demo_run := run demo_eps true false (init [(0, repeat 2 6, repeat AGGR_STOP 8)]).
Definition demo_ops : list op := [demo_tx [1; 2; 3]; OCount; OComplete 0 true 100; demo_status 0; demo_tx [4]; OCount; OComplete 0 true 150].

Lemma demo_apart : mgmt_apart demo_eps.
Proof. by_eval. Defined.

Lemma demo_ops_ok : Forall op_ok demo_ops.
Proof. repeat constructor. Defined.

Lemma tx_frames_reported_once_witness : exists st out new, demo_run demo_ops = Some (st, out, new) /\
    new ≡ₚ (core demo_eps <$> outstanding st) ++ reported out /\
    NoDup (cookie_of demo_eps <$> outstanding st) /\
    (forall i : nat, tx_slot st !! i = Some true <-> Z.of_nat i ∈ cookie_of demo_eps <$> outstanding st) /\
    Z.of_nat (length (outstanding st)) <= queued_cnt st + Z.of_nat (uncounted st).
Proof. exact (tx_frames_reported_once demo_eps true false _ demo_ops demo_apart demo_ops_ok). Defined.

Lemma tx_drain_empties_witness :
  match demo_run demo_ops with
  | Some (st, out, new) =>
      let '(st', o) := ath9k_htc_tx_drain demo_eps true false st 200 in
      outstanding st' = [] /\ tx_slot st' = repeat false MAX_TX_BUF_NUM /\ reported o ≡ₚ core demo_eps <$> outstanding st
  | None => False
  end.
Proof.
  unfold demo_run; destruct (run demo_eps true false (init [(0, repeat 2 6, repeat AGGR_STOP 8)]) demo_ops) as [[[st out] new]|] eqn:E;
    [exact (tx_drain_empties demo_eps true false _ demo_ops st out new 200 demo_apart demo_ops_ok E) | by vm_compute in E].
Defined.

Lemma tx_timeout_reports_witness :
  match demo_run demo_ops with
  | Some (st, out, new) =>
      let '(st', o) := ath9k_htc_tx_cleanup_timer demo_eps true false 300 500 st in
      Forall (fun s => check_packet 300 500 s = false) (getq (qs st') Qvo) /\
      core demo_eps <$> outstanding st ≡ₚ (core demo_eps <$> outstanding st') ++ reported o
  | None => False
  end.
Proof.
  unfold demo_run; destruct (run demo_eps true false (init [(0, repeat 2 6, repeat AGGR_STOP 8)]) demo_ops) as [[[st out] new]|] eqn:E;
    [exact (tx_timeout_reports demo_eps true false _ demo_ops st out new 300 500 Qvo demo_apart demo_ops_ok E) | by vm_compute in E].
Defined.

(** ** Flaws *)

(** The count of an event is not checked against its length. *)
Example txstatus_reads_past : demo_run [OStatus true (13 :: repeat 0 36)] = None.
Proof. by vm_compute. Qed.

(** A frame that is done before its sender has counted it is counted for
    ever. *)
Example tx_count_drifts :
  (fun r => (outstanding r.1.1, queued_cnt r.1.1, uncounted r.1.1)) <$>
    demo_run [demo_tx [1]; OComplete 0 true 100; demo_status 0; OCount] = Some ([], 1, 0%nat).
Proof. by vm_compute. Qed.

(** The two bytes put between header and body are still there when the frame
    is reported. *)
Example tx_padding_not_removed :
  (fun r => (reported r.1.2).*1) <$> demo_run [demo_tx [1; 2; 3]; OCount; OComplete 0 true 100; demo_status 0] =
    Some [demo_header ++ [5; 0] ++ [1; 2; 3]].
Proof. by vm_compute. Qed.

Definition acks (o : list out) : list (list Z * bool) :=
  omap (fun x => match x with TxStatusOut s r => Some (drop 28 (data s), stat_ack r) | _ => None end) o.

(** The status of a frame that has timed out is taken for that of the next
    frame in its slot. *)
Example tx_stale_status :
  (fun r => acks r.1.2) <$>
    demo_run [demo_tx [1]; OCount; OComplete 0 true 100; OTimer 300 500; demo_tx [2]; OCount; OComplete 0 true 500; demo_status 0] =
    Some [([1], false); ([2], true)].
Proof. by vm_compute. Qed.

End HtcTx.
