(* ===== verification/Wmi.v ===== *)
(** * WMI: commands to the target and events from it

    [drivers/net/wireless/ath/ath9k/wmi.c].  A command is sent under a mutex
    and its caller waits for the response, which the receive callback matches
    by command number and copies into the caller's buffer.  A call is split
    where it waits: [wmi_cmd_begin], then received frames, then [wmi_cmd_end]
    with a response or after the timeout.  Buffers are named by the number of
    the call they belong to; a call's buffer is on its stack and dead once it
    has returned.  Register access ([htc_drv_init.c] beside it) is built on
    commands. *)

From S2P Require Import Prelude.

Module Wmi.

Definition ENOMEM : Z := 12.
Definition EPROTO : Z := 71.
Definition ETIMEDOUT : Z := 110.
Definition sizeof_wmi_cmd_hdr : nat := 4.
Definition WMI_SWBA_EVENTID : Z := 0x1002.
Definition WMI_FATAL_EVENTID : Z := 0x1003.
Definition WMI_TXSTATUS_EVENTID : Z := 0x1007.

(** The response buffer recorded: the call it belongs to and its length. *)
Record wmi := Wmi { stopped : bool; cmd_rsp_buf : option nat; cmd_rsp_len : Z; last_cmd_id : Z; cmd_wait : nat;
  tx_seq_id : Z; wmi_event_queue : list (list Z) }.

(** The call that holds the mutex, with the contents of its buffer. *)
Record call := Call { call_no : nat; call_buf : list Z }.

(** [calls] counts the calls so far; [sent] are the frames handed to HTC. *)
Record sys := Sys { w : wmi; current : option call; calls : nat; sent : list (list Z) }.

(** An access outside a received frame, and a write to the buffer of a call
    that has returned. *)
Inductive fault := ReadPastFrame | WriteToDeadBuffer.

Definition set_wait (x : wmi) (n : nat) : wmi :=
  Wmi (stopped x) (cmd_rsp_buf x) (cmd_rsp_len x) (last_cmd_id x) n (tx_seq_id x) (wmi_event_queue x).
Definition set_events (x : wmi) (q : list (list Z)) : wmi :=
  Wmi (stopped x) (cmd_rsp_buf x) (cmd_rsp_len x) (last_cmd_id x) (cmd_wait x) (tx_seq_id x) q.

Definition ath9k_init_wmi : wmi := Wmi false None 0 0 0 0 [].

Definition ath9k_deinit_wmi (x : wmi) : wmi :=
  Wmi true (cmd_rsp_buf x) (cmd_rsp_len x) (last_cmd_id x) (cmd_wait x) (tx_seq_id x) (wmi_event_queue x).

Definition ath9k_wmi_event_drain (x : wmi) : wmi := set_events x [].

(** ** Receiving *)

(** [skb_pull] leaves a buffer that is too short as it is. *)
Definition ath9k_wmi_rsp_callback (s : sys) (skb : list Z) : sum fault sys :=
  let data := if (length skb <? sizeof_wmi_cmd_hdr)%nat then skb else drop sizeof_wmi_cmd_hdr skb in
  let len := cmd_rsp_len (w s) in
  let woken := set_wait (w s) (S (cmd_wait (w s))) in
  match cmd_rsp_buf (w s) with
  | Some buf =>
      if negb (len =? 0) then
        if Z.of_nat (length data) <? len then inl ReadPastFrame
        else match current s with
        | Some c => if (call_no c =? buf)%nat
                    then inr (Sys woken (Some (Call buf (take (Z.to_nat len) data))) (calls s) (sent s))
                    else inl WriteToDeadBuffer
        | None => inl WriteToDeadBuffer
        end
      else inr (Sys woken (current s) (calls s) (sent s))
  | None => inr (Sys woken (current s) (calls s) (sent s))
  end.

Definition ath9k_wmi_ctrl_rx (s : sys) (skb : list Z) : sum fault sys :=
  if stopped (w s) then inr s
  else if (length skb <? 2)%nat then inl ReadPastFrame
  else
    let cmd_id := get_be16 skb 0 in
    if negb (Z.land cmd_id 0x1000 =? 0)
    then inr (Sys (set_events (w s) (wmi_event_queue (w s) ++ [skb])) (current s) (calls s) (sent s))
    else if negb (cmd_id =? last_cmd_id (w s)) then inr s
    else ath9k_wmi_rsp_callback s skb.

Fixpoint rx_all (s : sys) (frames : list (list Z)) : sum fault sys :=
  match frames with
  | [] => inr s
  | f :: frames => match ath9k_wmi_ctrl_rx s f with inr s => rx_all s frames | inl e => inl e end
  end.

(** ** Events *)

(** The handler an event is given to; [None] is a null pointer, which
    [skb_pull] returns for a frame without a whole header. *)
Inductive event := SwbaEvent (data : option (list Z)) | FatalEvent | TxStatusEvent (data : option (list Z)) | Ignored.

(** [drain]: the transmit path is being drained. *)
Definition event_of (drain : bool) (skb : list Z) : event :=
  let cmd_id := get_be16 skb 0 in
  let data := if (length skb <? sizeof_wmi_cmd_hdr)%nat then None else Some (drop sizeof_wmi_cmd_hdr skb) in
  if cmd_id =? WMI_SWBA_EVENTID then SwbaEvent data
  else if cmd_id =? WMI_FATAL_EVENTID then FatalEvent
  else if cmd_id =? WMI_TXSTATUS_EVENTID then (if drain then Ignored else TxStatusEvent data)
  else Ignored.

(** The tasklet takes events until the queue is empty. *)
Definition ath9k_wmi_event_tasklet (drain : bool) (x : wmi) : wmi * list event :=
  (set_events x [], event_of drain <$> wmi_event_queue x).

(** ** Commands *)

Definition ath9k_wmi_cmd_issue (x : wmi) (skb : list Z) (cmd : Z) : wmi * list Z :=
  let seq := u16 (tx_seq_id x + 1) in
  (Wmi (stopped x) (cmd_rsp_buf x) (cmd_rsp_len x) (last_cmd_id x) (cmd_wait x) seq (wmi_event_queue x),
   put_be16 cmd ++ put_be16 seq ++ skb).

(** What a call meets: the device is gone, the frame was allocated, the
    result of the host-target layer, the frames received until it returns. *)
Record env := Env { unplugged : bool; allocated : bool; ret : Z; frames : list (list Z) }.

(** The call up to the wait: [inl] is a call that returns at once.  [rsp] is
    the initial contents of the buffer of the caller, if it gives one, and
    [rsp_len] the length it asks for. *)
Definition wmi_cmd_begin (s : sys) (e : env) (cmd_id : Z) (cmd_buf : list Z)
    (rsp : option (list Z)) (rsp_len : Z) : sum (Z * sys) sys :=
  if unplugged e then inl (0, s)
  else if negb (allocated e) then inl (- ENOMEM, s)
  else if stopped (w s) then inl (- EPROTO, s)
  else
    let n := calls s in
    let x := w s in
    let buf := match rsp with Some _ => Some n | None => None end in
    let x := Wmi (stopped x) buf rsp_len (u16 cmd_id) (cmd_wait x) (tx_seq_id x) (wmi_event_queue x) in
    let '(x, skb) := ath9k_wmi_cmd_issue x cmd_buf cmd_id in
    if negb (ret e =? 0) then inl (ret e, Sys x None (S n) (sent s))
    else inr (Sys x (Some (Call n (match rsp with Some b => b | None => [] end))) (S n) (sent s ++ [skb])).

(** The end of the wait: the code, and the contents of the buffer. *)
Definition wmi_cmd_end (s : sys) : Z * list Z * sys :=
  let buf := match current s with Some c => call_buf c | None => [] end in
  match cmd_wait (w s) with
  | S n => (0, buf, Sys (set_wait (w s) n) None (calls s) (sent s))
  | O => (- ETIMEDOUT, buf, Sys (w s) None (calls s) (sent s))
  end.

Definition ath9k_wmi_cmd (s : sys) (e : env) (cmd_id : Z) (cmd_buf : list Z)
    (rsp : option (list Z)) (rsp_len : Z) : sum fault (Z * list Z * sys) :=
  match wmi_cmd_begin s e cmd_id cmd_buf rsp rsp_len with
  | inl (code, s) => inr (code, match rsp with Some b => b | None => [] end, s)
  | inr s => match rx_all s (frames e) with inl f => inl f | inr s => inr (wmi_cmd_end s) end
  end.

(** ** Registers  ([htc_drv_init.c])

    Writes are sent one by one, or collected while some caller has buffering
    enabled and sent together. *)

Definition EIO : Z := 5.
Definition WMI_REG_READ_CMDID : Z := 20.
Definition WMI_REG_WRITE_CMDID : Z := 21.
Definition MAX_CMD_NUMBER : nat := 62.

(** What a command was for: one register write, collected ones, or anything
    else. *)
Inductive request := Single (entry : Z * Z) | Batch (entries : list (Z * Z)) | Other (cmd : Z) (buf : list Z).

(** An attempt to send a command: what it met, and whether WMI was stopped. *)
Record attempt := Attempt { what : request; met : env; when_stopped : bool }.

(** [multi_write] holds the entries below [multi_write_idx]; [attempts] are
    the commands tried so far. *)
Record regs := Regs { rsys : sys; mwrite_cnt : Z; multi_write : list (Z * Z); attempts : list attempt }.

Inductive reg_fault := CmdFault (f : fault) | ArrayOverrun.

Definition reg_entry (e : Z * Z) : list Z := put_be32 (e.1) ++ put_be32 (e.2).
Definition write_request (entries : list (Z * Z)) : Z * list Z := (WMI_REG_WRITE_CMDID, concat (reg_entry <$> entries)).

(** A command other than a register write. *)
Definition other_cmd (st : regs) (e : env) (cmd : Z) (buf rsp : list Z) : sum reg_fault (Z * list Z * regs) :=
  match ath9k_wmi_cmd (rsys st) e cmd buf (Some rsp) (Z.of_nat (length rsp)) with
  | inl f => inl (CmdFault f)
  | inr (r, data, s) =>
      inr (r, data, Regs s (mwrite_cnt st) (multi_write st) (attempts st ++ [Attempt (Other cmd buf) e (stopped (w (rsys st)))]))
  end.

Definition entries_of (r : request) : list (Z * Z) :=
  match r with Single en => [en] | Batch l => l | Other _ _ => [] end.

(** A write command; the caller does not look at the result but to log it.
    [stack] is the old contents of the response variable. *)
Definition write_cmd (st : regs) (e : env) (r : request) (stack : list Z) : sum reg_fault regs :=
  match ath9k_wmi_cmd (rsys st) e WMI_REG_WRITE_CMDID (concat (reg_entry <$> entries_of r)) (Some (take 4 stack)) 4 with
  | inl f => inl (CmdFault f)
  | inr (_, _, s) =>
      inr (Regs s (mwrite_cnt st) (multi_write st) (attempts st ++ [Attempt r e (stopped (w (rsys st)))]))
  end.

Definition set_multi_write (st : regs) (mw : list (Z * Z)) : regs := Regs (rsys st) (mwrite_cnt st) mw (attempts st).

Definition ath9k_regwrite_single (st : regs) (e : env) (val reg : Z) : sum reg_fault regs :=
  write_cmd st e (Single (reg, val)) (put_le32 val).

(** The part of a buffered write under [multi_write_mutex]. *)
Definition ath9k_regwrite_buffer (st : regs) (e : env) (stack : list Z) (val reg : Z) : sum reg_fault regs :=
  if (MAX_CMD_NUMBER <=? length (multi_write st))%nat then inl ArrayOverrun
  else
    let st := set_multi_write st (multi_write st ++ [(reg, val)]) in
    if (length (multi_write st) =? MAX_CMD_NUMBER)%nat then
      match write_cmd st e (Batch (multi_write st)) stack with
      | inl f => inl f
      | inr st => inr (set_multi_write st [])
      end
    else inr st.

(** A write tests the count outside the mutex; other callers may run before
    it goes on. *)
Definition regwrite_test (st : regs) : bool := negb (mwrite_cnt st =? 0).
Definition regwrite_by (buffered : bool) (st : regs) (e : env) (stack : list Z) (val reg : Z) : sum reg_fault regs :=
  if buffered then ath9k_regwrite_buffer st e stack val reg
  else ath9k_regwrite_single st e val reg.

(** A write that is not interrupted. *)
Definition ath9k_regwrite (st : regs) (e : env) (stack : list Z) (val reg : Z) : sum reg_fault regs :=
  regwrite_by (regwrite_test st) st e stack val reg.

Definition add_mwrite_cnt (st : regs) (n : Z) : regs := Regs (rsys st) (mwrite_cnt st + n) (multi_write st) (attempts st).

Definition ath9k_enable_regwrite_buffer (st : regs) : regs := add_mwrite_cnt st 1.

(** A flush counts down first, outside the mutex, and then sends what waits. *)
Definition regwrite_flush_dec (st : regs) : regs := add_mwrite_cnt st (- 1).
Definition regwrite_flush_locked (st : regs) (e : env) (stack : list Z) : sum reg_fault regs :=
  if negb (length (multi_write st) =? 0)%nat then
    match write_cmd st e (Batch (multi_write st)) stack with
    | inl f => inl f
    | inr st => inr (set_multi_write st [])
    end
  else inr st.

(** A flush that is not interrupted. *)
Definition ath9k_regwrite_flush (st : regs) (e : env) (stack : list Z) : sum reg_fault regs :=
  regwrite_flush_locked (regwrite_flush_dec st) e stack.

(** [stack] is the old contents of the variable the response goes to. *)
Definition ath9k_regread (st : regs) (e : env) (stack : list Z) (reg_offset : Z) : sum reg_fault (Z * regs) :=
  match other_cmd st e WMI_REG_READ_CMDID (put_be32 reg_offset) (take 4 stack) with
  | inl f => inl f
  | inr (r, val, st) => inr (if negb (r =? 0) then u32 (- EIO) else get_be32 val 0, st)
  end.

Definition ath9k_multi_regread (st : regs) (e : env) (stack : list Z) (addr : list Z) : sum reg_fault (list Z * regs) :=
  let count := length addr in
  if (8 <? count)%nat then inl ArrayOverrun
  else
    match other_cmd st e WMI_REG_READ_CMDID (concat (put_be32 <$> addr)) (take (4 * count) stack) with
    | inl f => inl f
    | inr (_, val, st) => inr ((fun i => get_be32 val (4 * i)) <$> seq 0 count, st)
    end.

Definition ath9k_reg_rmw (st : regs) (e e' : env) (stack : list Z) (reg_offset set clr : Z) : sum reg_fault (Z * regs) :=
  match ath9k_regread st e stack reg_offset with
  | inl f => inl f
  | inr (val, st) =>
      let val := Z.lor (Z.land val (Z.lxor clr (2 ^ 32 - 1))) set in
      match ath9k_regwrite st e' stack val reg_offset with
      | inl f => inl f
      | inr st => inr (val, st)
      end
  end.

(** *** Callers that run side by side

    Where a caller is: between calls, in a write after the test of the count
    with what it found, or in a flush after the count down. *)
Inductive point := Ready | Decided (buffered : bool) (val reg : Z) | Flushing.

Record conc := Conc { cregs : regs; callers : list point }.

Inductive action :=
| Enable (i : nat) | TestCount (i : nat) (val reg : Z) | DoWrite (i : nat) (e : env) (stack : list Z)
| FlushDec (i : nat) | FlushSend (i : nat) (e : env) (stack : list Z)
| OtherCmd (i : nat) (e : env) (cmd : Z) (buf rsp : list Z)
| StopWmi.

Definition at_ (c : conc) (i : nat) : option point := callers c !! i.
Definition move (c : conc) (st : regs) (i : nat) (p : point) : conc := Conc st (<[i := p]> (callers c)).

(** [None]: the caller is not where it could do this. *)
Definition act (c : conc) (a : action) : option (sum reg_fault conc) :=
  let st := cregs c in
  let to i p r := match r with inl f => inl f | inr st => inr (move c st i p) end in
  match a with
  | Enable i => match at_ c i with Some Ready => Some (inr (move c (ath9k_enable_regwrite_buffer st) i Ready)) | _ => None end
  | TestCount i val reg => match at_ c i with Some Ready => Some (inr (move c st i (Decided (regwrite_test st) val reg))) | _ => None end
  | DoWrite i e stack => match at_ c i with Some (Decided b val reg) => Some (to i Ready (regwrite_by b st e stack val reg)) | _ => None end
  | FlushDec i => match at_ c i with
                  | Some Ready => if 0 <? mwrite_cnt st then Some (inr (move c (regwrite_flush_dec st) i Flushing)) else None
                  | _ => None end
  | FlushSend i e stack => match at_ c i with Some Flushing => Some (to i Ready (regwrite_flush_locked st e stack)) | _ => None end
  | OtherCmd i e cmd buf rsp =>
      match at_ c i with
      | Some Ready => Some match other_cmd st e cmd buf rsp with inl f => inl f | inr (_, _, st) => inr (move c st i Ready) end
      | _ => None end
  | StopWmi => Some (inr (Conc (Regs (Sys (ath9k_deinit_wmi (w (rsys st))) (current (rsys st)) (calls (rsys st)) (sent (rsys st)))
                                  (mwrite_cnt st) (multi_write st) (attempts st)) (callers c)))
  end.

Fixpoint run_acts (c : conc) (acts : list action) : option (sum reg_fault conc) :=
  match acts with
  | [] => Some (inr c)
  | a :: acts => match act c a with Some (inr c) => run_acts c acts | r => r end
  end.

(** ** Commands that are answered *)

Definition clean (s : sys) : Prop := stopped (w s) = false /\ cmd_wait (w s) = 0%nat /\ current s = None.

Definition is_event (f : list Z) : bool := negb (Z.land (get_be16 f 0) 0x1000 =? 0).

(** A frame that is not taken for the response to command [cmd]. *)
Definition other_frame (cmd : Z) (f : list Z) : bool :=
  (2 <=? length f)%nat && (is_event f || negb (get_be16 f 0 =? u16 cmd)).

(** A response to [cmd] with at least [n] bytes of data. *)
Definition response_to (cmd : Z) (n : nat) (f : list Z) : bool :=
  (sizeof_wmi_cmd_hdr + n <=? length f)%nat && negb (is_event f) && (get_be16 f 0 =? u16 cmd).

(** A command, and what is received while it waits. *)
Record exchange := Exchange { x_cmd : Z; x_buf : list Z; x_rsp : list Z; x_pre : list (list Z); x_resp : list Z; x_post : list (list Z) }.

Definition env_of (x : exchange) : env := Env false true 0 (x_pre x ++ x_resp x :: x_post x).
Definition answered (x : exchange) : bool :=
  forallb (other_frame (x_cmd x)) (x_pre x) && response_to (x_cmd x) (length (x_rsp x)) (x_resp x) && forallb (other_frame (x_cmd x)) (x_post x).

(** The data of the response. *)
Definition answer (x : exchange) : list Z := take (length (x_rsp x)) (drop sizeof_wmi_cmd_hdr (x_resp x)).

Fixpoint run_cmds (s : sys) (xs : list exchange) : sum fault (list (Z * list Z) * sys) :=
  match xs with
  | [] => inr ([], s)
  | x :: xs =>
      match ath9k_wmi_cmd s (env_of x) (x_cmd x) (x_buf x) (Some (x_rsp x)) (Z.of_nat (length (x_rsp x))) with
      | inl f => inl f
      | inr (code, data, s) => match run_cmds s xs with inl f => inl f | inr (rs, s) => inr ((code, data) :: rs, s) end
      end
  end.

(** The frames of successive commands: each has the next sequence number. *)
Fixpoint requests (seq : Z) (xs : list (Z * list Z)) : list (list Z) :=
  match xs with
  | [] => []
  | (cmd, buf) :: xs => (put_be16 cmd ++ put_be16 (u16 (seq + 1)) ++ buf) :: requests (u16 (seq + 1)) xs
  end.

(** A response to a register write that is received in time. *)
Record answer4 := Answer { a_pre : list (list Z); a_resp : list Z; a_post : list (list Z) }.

Definition write_exchange (a : answer4) (entries : list (Z * Z)) (stack : list Z) : exchange :=
  Exchange WMI_REG_WRITE_CMDID (concat (reg_entry <$> entries)) (take 4 stack) (a_pre a) (a_resp a) (a_post a).

(** ** What the callers and the target see *)

(** The requests of a command, and whether its frame reaches the
    host-target layer, and is accepted there. *)
Definition request_of (r : request) : Z * list Z :=
  match r with Other cmd buf => (cmd, buf) | r => write_request (entries_of r) end.
Definition issued (a : attempt) : bool := negb (unplugged (met a)) && allocated (met a) && negb (when_stopped a).
Definition handed_over (a : attempt) : bool := issued a && (ret (met a) =? 0).

(** The frames of attempts: an attempt that gets as far as the host-target
    layer takes a number, also when that layer refuses it. *)
Fixpoint frames_of (seq : Z) (l : list attempt) : list (list Z) :=
  match l with
  | [] => []
  | a :: l =>
      if issued a then (if handed_over a then requests seq [request_of (what a)] else []) ++ frames_of (u16 (seq + 1)) l
      else frames_of seq l
  end.
Fixpoint seq_after (seq : Z) (l : list attempt) : Z :=
  match l with [] => seq | a :: l => seq_after (if issued a then u16 (seq + 1) else seq) l end.

Definition singles (r : request) : list (Z * Z) := match r with Single en => [en] | _ => [] end.
Definition batched (r : request) : list (Z * Z) := match r with Batch l => l | _ => [] end.
Definition size_ok (r : request) : Prop := match r with Batch l => (0 < length l <= MAX_CMD_NUMBER)%nat | _ => True end.

(** What is received while a command waits: whole frames, at most one of
    them a response to it, with the data asked for. *)
Fixpoint frames_ok (cmd : Z) (n : nat) (fs : list (list Z)) : bool :=
  match fs with
  | [] => true
  | f :: fs => if other_frame cmd f then frames_ok cmd n fs
               else response_to cmd n f && forallb (other_frame cmd) fs
  end.

Definition act_ok (a : action) : bool :=
  match a with
  | DoWrite _ e stack | FlushSend _ e stack => (4 <=? length stack)%nat && frames_ok WMI_REG_WRITE_CMDID 4 (frames e)
  | OtherCmd _ e cmd _ rsp => frames_ok cmd (length rsp) (frames e)
  | _ => true
  end.

(** No command waits, and the buffer has room. *)
Definition idle (s : sys) : Prop := cmd_wait (w s) = 0%nat /\ current s = None.
Definition conc_ok (c : conc) : Prop :=
  idle (rsys (cregs c)) /\ 0 <= mwrite_cnt (cregs c) /\ (length (multi_write (cregs c)) < MAX_CMD_NUMBER)%nat.

Definition ready (p : point) : bool := match p with Ready => true | _ => false end.
Definition flushing (p : point) : bool := match p with Flushing => true | _ => false end.

(** Nobody has buffering enabled or is about to flush. *)
Definition quiet (c : conc) : bool := (mwrite_cnt (cregs c) =? 0) && forallb (negb ∘ flushing) (callers c).

(** Between calls, with nothing left in the buffer. *)
Definition between_calls (c : conc) : Prop :=
  conc_ok c /\ forallb ready (callers c) = true /\ (mwrite_cnt (cregs c) = 0 -> multi_write (cregs c) = []).

(** What is collected along a run. *)
Fixpoint trace {X} (f : conc -> action -> list X) (c : conc) (acts : list action) : list X :=
  match acts with
  | [] => []
  | a :: acts => f c a ++ match act c a with Some (inr c) => trace f c acts | _ => [] end
  end.

(** The writes asked for by caller [i], and those performed, by everyone. *)
Definition asked_by (i : nat) (c : conc) (a : action) : list (Z * Z) :=
  match a with TestCount j val reg => if decide (j = i) then [(reg, val)] else [] | _ => [] end.
Definition performs (c : conc) (a : action) : list (nat * bool * (Z * Z)) :=
  match a with
  | DoWrite i _ _ => match at_ c i with Some (Decided b val reg) => [(i, b, (reg, val))] | _ => [] end
  | _ => []
  end.
Definition performed_by (i : nat) (c : conc) (a : action) : list (Z * Z) := snd <$> filter (fun p => p.1.1 = i) (performs c a).
Definition performed_as (b : bool) (c : conc) (a : action) : list (Z * Z) := snd <$> filter (fun p => p.1.2 = b) (performs c a).
Definition performed (c : conc) (a : action) : list (Z * Z) := snd <$> performs c a.

(** A write caller [i] has still to perform. *)
Definition pending (c : conc) (i : nat) : list (Z * Z) :=
  match at_ c i with Some (Decided _ val reg) => [(reg, val)] | _ => [] end.

(** A write put into the buffer when nobody will flush it, and a single write
    that is sent while others wait. *)
Definition strays (c : conc) (a : action) : list nat :=
  match a with
  | DoWrite i _ _ => match at_ c i with Some (Decided true _ _) => if quiet c then [i] else [] | _ => [] end
  | _ => []
  end.
Definition overtakes (c : conc) (a : action) : list nat :=
  match a with
  | DoWrite i _ _ => match at_ c i with
                     | Some (Decided false _ _) => match multi_write (cregs c) with [] => [] | _ => [i] end
                     | _ => [] end
  | _ => []
  end.

(** A caller does something while another one is inside a call. *)
Definition actor (a : action) : option nat :=
  match a with
  | Enable i | TestCount i _ _ | DoWrite i _ _ | FlushDec i | FlushSend i _ _ | OtherCmd i _ _ _ _ => Some i
  | StopWmi => None
  end.
Definition intrudes (c : conc) (a : action) : list nat :=
  match actor a with
  | Some i => if forallb ready (<[i := Ready]> (callers c)) then [] else [i]
  | None => []
  end.

(** Frames that are not a response only add to the event queue. *)
Lemma rx_all_other cmd fs s : stopped (w s) = false -> last_cmd_id (w s) = u16 cmd -> forallb (other_frame cmd) fs = true ->
  rx_all s fs = inr (Sys (set_events (w s) (wmi_event_queue (w s) ++ filter (fun f => is_event f) fs)) (current s) (calls s) (sent s)).
Proof.
  revert s; induction fs as [|f fs IH]; intros s Hs Hl H; simpl.
  - rewrite filter_nil, app_nil_r; by destruct s as [[]].
  - simpl in H; apply andb_true_iff in H as [Hf H]; apply andb_true_iff in Hf as [Hf1 Hf2].
    apply Nat.leb_le in Hf1; unfold ath9k_wmi_ctrl_rx; rewrite Hs.
    destruct (Nat.ltb_spec (length f) 2); [lia|]; fold (is_event f) in *.
    rewrite filter_cons; destruct (is_event f) eqn:E.
    + rewrite IH by done; simpl; rewrite <- app_assoc; done.
    + simpl in Hf2; rewrite Hl, Hf2, IH by done; done.
Qed.

Lemma rx_all_app fs fs' s : rx_all s (fs ++ fs') = match rx_all s fs with inl f => inl f | inr s => rx_all s fs' end.
Proof. revert s; induction fs as [|f fs IH]; intros s; simpl; [done|]; destruct (ath9k_wmi_ctrl_rx s f); done. Qed.

(** One command whose response comes in time. *)
Lemma cmd_answered s x : clean s -> answered x = true ->
  ath9k_wmi_cmd s (env_of x) (x_cmd x) (x_buf x) (Some (x_rsp x)) (Z.of_nat (length (x_rsp x))) =
  inr (0, answer x,
       Sys (Wmi false (Some (calls s)) (Z.of_nat (length (x_rsp x))) (u16 (x_cmd x)) 0 (u16 (tx_seq_id (w s) + 1))
              (wmi_event_queue (w s) ++ filter (fun f => is_event f) (frames (env_of x))))
         None (S (calls s)) (sent s ++ [put_be16 (x_cmd x) ++ put_be16 (u16 (tx_seq_id (w s) + 1)) ++ x_buf x])).
Proof.
  intros (Hs & Hw & Hc) H; unfold answered in H; rewrite !andb_true_iff in H; destruct H as [[Hpre Hresp] Hpost].
  unfold response_to in Hresp; rewrite !andb_true_iff in Hresp; destruct Hresp as [[Hl He] Hid].
  apply Nat.leb_le in Hl; apply negb_true_iff in He.
  unfold ath9k_wmi_cmd, wmi_cmd_begin; simpl; rewrite Hs; simpl.
  rewrite rx_all_app, (rx_all_other (x_cmd x)) by done; simpl.
  unfold ath9k_wmi_ctrl_rx; simpl; unfold sizeof_wmi_cmd_hdr in *.
  destruct (Nat.ltb_spec (length (x_resp x)) 2); [lia|]; fold (is_event (x_resp x)); rewrite He, Hid; simpl.
  unfold ath9k_wmi_rsp_callback; simpl; unfold sizeof_wmi_cmd_hdr.
  destruct (Nat.ltb_spec (length (x_resp x)) 4); [lia|].
  rewrite Nat.eqb_refl, list.filter_app, list.filter_cons, He, Hw; rewrite app_assoc.
  unfold answer, sizeof_wmi_cmd_hdr.
  destruct (Z.eqb_spec (Z.of_nat (length (x_rsp x))) 0) as [Hz|Hz]; simpl.
  - rewrite (rx_all_other (x_cmd x)) by done; unfold wmi_cmd_end; simpl.
    destruct (x_rsp x); [|simpl in *; lia]; done.
  - destruct (Z.ltb_spec (Z.of_nat (length (drop 4 (x_resp x)))) (Z.of_nat (length (x_rsp x)))) as [Hd|Hd];
      [rewrite length_drop in Hd; lia|].
    rewrite (rx_all_other (x_cmd x)) by done; unfold wmi_cmd_end; simpl; by rewrite Nat2Z.id.
Qed.

(** A write command that is answered. *)
Lemma write_cmd_answered st a r stack : clean (rsys st) -> (4 <= length stack)%nat -> answered (write_exchange a [] stack) = true ->
  exists st', write_cmd st (env_of (write_exchange a [] stack)) r stack = inr st' /\ clean (rsys st') /\
    sent (rsys st') = sent (rsys st) ++ requests (tx_seq_id (w (rsys st))) [write_request (entries_of r)].
Proof.
  intros Hc Hl Ha; pose proof (cmd_answered _ (write_exchange a (entries_of r) stack) Hc Ha) as H; simpl in H.
  rewrite firstn_length_le in H by lia; unfold write_cmd; change 4 with (Z.of_nat 4).
  eexists; split; [unfold env_of in *; simpl in *; by rewrite H | done].
Qed.

(** ** Commands answered in time *)

(** From a clean state, commands whose responses arrive in time all return 0 with the data of their own response, whatever events and other frames arrive between; the state is clean again, the requests carry consecutive sequence numbers, and the events go to their handlers in the order they came. *)
Theorem wmi_commands_answered (s : sys) (xs : list exchange) (Hc : clean s) (Ha : forallb answered xs = true) :
  exists s', run_cmds s xs = inr ((fun x => (0, answer x)) <$> xs, s') /\ clean s' /\
    sent s' = sent s ++ requests (tx_seq_id (w s)) ((fun x => (x_cmd x, x_buf x)) <$> xs) /\
    forall drain, (ath9k_wmi_event_tasklet drain (w s')).2 =
      (ath9k_wmi_event_tasklet drain (w s)).2 ++ (event_of drain <$> filter (fun f => is_event f) (concat (frames ∘ env_of <$> xs))).
Proof.
  revert s Hc Ha; induction xs as [|x xs IH]; intros s Hc Ha.
  - exists s; simpl; split_and!; [done..|by rewrite app_nil_r|intros drain; by rewrite app_nil_r].
  - simpl in Ha; apply andb_true_iff in Ha as [Hx Ha]; simpl run_cmds.
    rewrite (cmd_answered _ _ Hc Hx).
    match goal with |- context [run_cmds ?s0 xs] => destruct (IH s0 ltac:(by repeat split) Ha) as (s' & -> & Hc' & Hs & He) end.
    exists s'; split_and!; [done..| |].
    + rewrite Hs; simpl; rewrite <- app_assoc; done.
    + intros drain; rewrite He; unfold ath9k_wmi_event_tasklet; cbn [snd w wmi_event_queue].
      rewrite fmap_cons, fmap_app; cbn [concat]; rewrite list.filter_app, fmap_app, app_assoc; reflexivity.
Qed.

Definition demo_exchange : exchange :=
  Exchange WMI_REG_READ_CMDID [0; 0; 0x40; 0x20] [0xaa; 0xbb; 0xcc; 0xdd]
    [[0x10; 0x03; 0; 0]; [0; 3; 0; 7; 1]] [0; 20; 0; 1; 0; 2; 1; 0xff] [[0x10; 0x07; 0; 0; 1; 5; 0x31; 1]].

Lemma wmi_commands_answered_witness :
  exists s', run_cmds (Sys ath9k_init_wmi None 0 []) [demo_exchange; demo_exchange] = inr ([(0, [0; 2; 1; 0xff]); (0, [0; 2; 1; 0xff])], s') /\ clean s'.
Proof.
  destruct (wmi_commands_answered (Sys ath9k_init_wmi None 0 []) [demo_exchange; demo_exchange] ltac:(by repeat split) eq_refl) as (s' & H & Hc & _).
  exists s'; split; [exact H | exact Hc].
Defined.

(** ** Late responses *)

(** A command that is not answered. *)
Lemma cmd_timeout s fs cmd_id buf rsp : clean s -> forallb (other_frame cmd_id) fs = true ->
  exists s', ath9k_wmi_cmd s (Env false true 0 fs) cmd_id buf (Some rsp) (Z.of_nat (length rsp)) = inr (- ETIMEDOUT, rsp, s') /\
    clean s' /\ cmd_rsp_buf (w s') = Some (calls s) /\ cmd_rsp_len (w s') = Z.of_nat (length rsp) /\
    last_cmd_id (w s') = u16 cmd_id /\ calls s' = S (calls s) /\
    sent s' = sent s ++ requests (tx_seq_id (w s)) [(cmd_id, buf)] /\ tx_seq_id (w s') = u16 (tx_seq_id (w s) + 1).
Proof.
  intros (Hs & Hw & Hc) Hf; unfold ath9k_wmi_cmd, wmi_cmd_begin; simpl; rewrite Hs; simpl.
  rewrite (rx_all_other cmd_id) by done; unfold wmi_cmd_end; simpl; rewrite Hw.
  eexists; split; [done|]; repeat split; simpl; done.
Qed.

(** The response to a command that timed out, if it comes before the next command, is copied to the stack buffer of the call that has already returned. *)
Theorem wmi_late_response_corrupts (s : sys) (fs : list (list Z)) (cmd_id : Z) (buf rsp late : list Z)
    (Hc : clean s) (Hr : rsp <> []) (Hf : forallb (other_frame cmd_id) fs = true) (Hl : response_to cmd_id (length rsp) late = true) :
  exists s', ath9k_wmi_cmd s (Env false true 0 fs) cmd_id buf (Some rsp) (Z.of_nat (length rsp)) = inr (- ETIMEDOUT, rsp, s') /\
    ath9k_wmi_ctrl_rx s' late = inl WriteToDeadBuffer.
Proof.
  destruct (cmd_timeout s fs cmd_id buf rsp Hc Hf) as (s' & -> & (Hs & Hw & Hcu) & Hb & Hn & Hid & _ & _).
  exists s'; split; [done|].
  unfold response_to in Hl; rewrite !andb_true_iff in Hl; destruct Hl as [[Hl He] Hi].
  apply Nat.leb_le in Hl; apply negb_true_iff in He; unfold sizeof_wmi_cmd_hdr in Hl.
  unfold ath9k_wmi_ctrl_rx; rewrite Hs; destruct (Nat.ltb_spec (length late) 2); [lia|].
  fold (is_event late); rewrite He, Hid, Hi; simpl.
  unfold ath9k_wmi_rsp_callback, sizeof_wmi_cmd_hdr; rewrite Hb, Hn, Hcu.
  destruct (Nat.ltb_spec (length late) 4); [lia|].
  destruct (Z.eqb_spec (Z.of_nat (length rsp)) 0); [destruct rsp; [done | simpl in *; lia]|]; simpl.
  destruct (Z.ltb_spec (Z.of_nat (length (drop 4 late))) (Z.of_nat (length rsp))) as [H1|]; [|done].
  rewrite length_drop in H1; lia.
Qed.

Lemma wmi_late_response_corrupts_witness :
  exists s', ath9k_wmi_cmd (Sys ath9k_init_wmi None 0 []) (Env false true 0 []) WMI_REG_READ_CMDID [0; 0; 0x40; 0x20] (Some [9; 9; 9; 9]) 4
      = inr (- ETIMEDOUT, [9; 9; 9; 9], s') /\
    ath9k_wmi_ctrl_rx s' [0; 20; 0; 1; 0; 2; 1; 0xff] = inl WriteToDeadBuffer.
Proof.
  exact (wmi_late_response_corrupts (Sys ath9k_init_wmi None 0 []) [] WMI_REG_READ_CMDID [0; 0; 0x40; 0x20] [9; 9; 9; 9]
    [0; 20; 0; 1; 0; 2; 1; 0xff] ltac:(by repeat split) ltac:(done) eq_refl eq_refl).
Defined.

(** A late response that comes while the next command of the same kind waits
    is taken for its answer: the second read, of register 0x8000, returns the
    value of register 0x4020. *)
Example wmi_late_response_answers_next :
  let s := match ath9k_wmi_cmd (Sys ath9k_init_wmi None 0 []) (Env false true 0 []) WMI_REG_READ_CMDID (put_be32 0x4020) (Some [9; 9; 9; 9]) 4 with
           | inr (_, _, s) => s | inl _ => Sys ath9k_init_wmi None 0 [] end in
  let response_to_first := put_be16 WMI_REG_READ_CMDID ++ put_be16 1 ++ put_be32 0xdeadbeef in
  match ath9k_regread (Regs s 0 [] []) (Env false true 0 [response_to_first]) [0; 0; 0; 0] 0x8000 with
  | inr (v, st) => v = 0xdeadbeef /\ sent (rsys st) !! 1%nat = Some (put_be16 WMI_REG_READ_CMDID ++ put_be16 2 ++ put_be32 0x8000)
  | inl _ => False
  end.
Proof. vm_compute; split; reflexivity. Qed.

(** A response shorter than the data asked for is read past its end, and so
    is a frame without a whole command number. *)
Example wmi_short_frames :
  ath9k_wmi_cmd (Sys ath9k_init_wmi None 0 []) (Env false true 0 [[0; 20; 0; 1; 7]]) WMI_REG_READ_CMDID (put_be32 0x4020) (Some [9; 9; 9; 9]) 4
    = inl ReadPastFrame /\
  ath9k_wmi_ctrl_rx (Sys ath9k_init_wmi None 0 []) [0x10] = inl ReadPastFrame /\
  event_of false [0x10; 0x02] = SwbaEvent None.
Proof. vm_compute; done. Qed.

(** ** Register access *)

(** ** Register access *)

(** *** Any command, whatever it meets *)

Lemma response_split cmd n fs : frames_ok cmd n fs = true ->
  forallb (other_frame cmd) fs = true \/
  exists pre r post, fs = pre ++ r :: post /\ forallb (other_frame cmd) pre = true /\ response_to cmd n r = true /\
    forallb (other_frame cmd) post = true.
Proof.
  induction fs as [|f fs IH]; simpl; [by left|]; destruct (other_frame cmd f) eqn:E; intros H.
  - destruct (IH H) as [H'|(pre & r & post & -> & Hp & Hr & Hq)]; [by left|].
    right; exists (f :: pre), r, post; simpl; by rewrite E.
  - apply andb_true_iff in H as [Hr Hq]; right; by exists [], f, fs.
Qed.

Lemma cmd_any s e cmd buf rsp : idle s -> frames_ok cmd (length rsp) (frames e) = true ->
  exists r data s', ath9k_wmi_cmd s e cmd buf (Some rsp) (Z.of_nat (length rsp)) = inr (r, data, s') /\
    idle s' /\ stopped (w s') = stopped (w s) /\
    forall q, request_of q = (cmd, buf) -> let a := Attempt q e (stopped (w s)) in
      sent s' = sent s ++ frames_of (tx_seq_id (w s)) [a] /\ tx_seq_id (w s') = seq_after (tx_seq_id (w s)) [a].
Proof.
  intros [Hw Hc] Hf; destruct e as [un al re fs]; simpl in Hf.
  unfold handed_over, issued; cbn [seq_after frames_of]; unfold handed_over, issued; cbn [met when_stopped what unplugged allocated ret].
  destruct un; [eexists _, _, _; split; [reflexivity|]; split_and!; try done; intros q _; cbn; by rewrite app_nil_r|].
  destruct al; [|eexists _, _, _; split; [reflexivity|]; split_and!; try done; intros q _; cbn; by rewrite app_nil_r].
  destruct (stopped (w s)) eqn:Hs.
  { unfold ath9k_wmi_cmd, wmi_cmd_begin; cbn; rewrite Hs; eexists _, _, _; split; [reflexivity|]; split_and!; try done; intros q _; cbn; by rewrite app_nil_r. }
  destruct (Z.eqb_spec re 0) as [->|Hr].
  2:{ unfold ath9k_wmi_cmd, wmi_cmd_begin; cbn; rewrite Hs; cbn; apply Z.eqb_neq in Hr; rewrite Hr.
      eexists _, _, _; split; [reflexivity|]; split_and!; try done; intros q _; cbn; by rewrite app_nil_r. }
  destruct (response_split _ _ _ Hf) as [Hn|(pre & r & post & -> & Hp & Hrs & Hq)].
  - destruct (cmd_timeout s fs cmd buf rsp) as (s' & He & (Hs' & Hw' & Hc') & _ & _ & _ & _ & Hse); [done..|].
    eexists _, _, s'; split; [exact He|]; split_and!; [done..|]; intros q Hq; cbn; rewrite Hq, app_nil_r; exact Hse.
  - pose proof (cmd_answered s (Exchange cmd buf rsp pre r post) ltac:(done)) as H.
    unfold answered, env_of in H; cbn [x_cmd x_buf x_rsp x_pre x_resp x_post] in H; rewrite Hp, Hrs, Hq in H; specialize (H eq_refl).
    eexists _, _, _; split; [exact H|]; split_and!; [done..|]; intros q Hq'; cbn; by rewrite Hq'.
Qed.

(** What a command changes: the attempt is recorded, and its frame sent. *)
Definition tried (st st' : regs) (l : list attempt) : Prop :=
  idle (rsys st') /\ attempts st' = attempts st ++ l /\ mwrite_cnt st' = mwrite_cnt st /\
  sent (rsys st') = sent (rsys st) ++ frames_of (tx_seq_id (w (rsys st))) l /\
  tx_seq_id (w (rsys st')) = seq_after (tx_seq_id (w (rsys st))) l.

Lemma tried_nil st st' : idle (rsys st) -> rsys st' = rsys st -> attempts st' = attempts st -> mwrite_cnt st' = mwrite_cnt st ->
  tried st st' [].
Proof. intros Hi Hr Ha Hm; unfold tried; rewrite Hr, Ha; cbn; rewrite !app_nil_r; done. Qed.

Lemma write_cmd_tried st e r stack : idle (rsys st) -> (4 <= length stack)%nat ->
  frames_ok WMI_REG_WRITE_CMDID 4 (frames e) = true -> request_of r = write_request (entries_of r) ->
  exists st' a, write_cmd st e r stack = inr st' /\ what a = r /\ tried st st' [a] /\ multi_write st' = multi_write st.
Proof.
  intros Hi Hl Hf Hr; unfold write_cmd.
  destruct (cmd_any (rsys st) e WMI_REG_WRITE_CMDID (concat (reg_entry <$> entries_of r)) (take 4 stack)) as (c & d & s' & He & Hi' & _ & Hq);
    [done|by rewrite firstn_length_le|].
  rewrite firstn_length_le in He by done; change (Z.of_nat 4) with 4 in He; rewrite He.
  destruct (Hq r Hr) as [H1 H2]; eexists _, _; split_and!; [done| |by unfold tried|done]; done.
Qed.

Lemma other_cmd_tried st e cmd buf rsp : idle (rsys st) -> frames_ok cmd (length rsp) (frames e) = true ->
  exists r d st' a, other_cmd st e cmd buf rsp = inr (r, d, st') /\ what a = Other cmd buf /\ tried st st' [a] /\
    multi_write st' = multi_write st.
Proof.
  intros Hi Hf; unfold other_cmd.
  destruct (cmd_any (rsys st) e cmd buf rsp) as (c & d & s' & He & Hi' & _ & Hq); [done..|].
  rewrite He; destruct (Hq (Other cmd buf) eq_refl) as [H1 H2]; eexists _, _, _, _; split_and!; [done| |by unfold tried|done]; done.
Qed.

(** What one action adds to the attempts, and where the write it performs
    goes. *)
Definition goes_to (c c' : conc) (a : action) (l : list attempt) : Prop :=
  let reqs := what <$> l in
  Forall size_ok reqs /\
  concat (batched <$> reqs) ++ multi_write (cregs c') = multi_write (cregs c) ++ performed_as true c a /\
  concat (singles <$> reqs) = performed_as false c a /\
  (overtakes c a = [] -> concat (entries_of <$> reqs) ++ multi_write (cregs c') = multi_write (cregs c) ++ performed c a).

Lemma goes_nil c c' a : multi_write (cregs c') = multi_write (cregs c) -> performs c a = [] -> goes_to c c' a [].
Proof. intros Hm Hp; unfold goes_to, performed_as, performed; rewrite Hm, Hp; cbn; rewrite !app_nil_r; done. Qed.

Lemma single_goes c i e stack val reg : conc_ok c -> (4 <= length stack)%nat -> frames_ok WMI_REG_WRITE_CMDID 4 (frames e) = true ->
  at_ c i = Some (Decided false val reg) ->
  exists st' l, ath9k_regwrite_single (cregs c) e val reg = inr st' /\ tried (cregs c) st' l /\ (length (multi_write st') < MAX_CMD_NUMBER)%nat /\
    goes_to c (move c st' i Ready) (DoWrite i e stack) l.
Proof.
  intros (Hi & Hn & Hl) Hs Hf Hat; unfold ath9k_regwrite_single.
  destruct (write_cmd_tried (cregs c) e (Single (reg, val)) (put_le32 val)) as (st' & a & -> & Ha & Ht & Hm); [done..|].
  eexists _, [a]; split_and!; [done..|by rewrite Hm|].
  unfold goes_to, performed_as, performed, overtakes, performs; cbn [fmap list_fmap]; rewrite Ha, Hat; cbn; rewrite Hm.
  split_and!; [by repeat constructor|by rewrite app_nil_r|done|].
  destruct (multi_write (cregs c)); [done|discriminate].
Qed.

Lemma buffer_goes c i e stack val reg : conc_ok c -> (4 <= length stack)%nat -> frames_ok WMI_REG_WRITE_CMDID 4 (frames e) = true ->
  at_ c i = Some (Decided true val reg) ->
  exists st' l, ath9k_regwrite_buffer (cregs c) e stack val reg = inr st' /\ tried (cregs c) st' l /\ (length (multi_write st') < MAX_CMD_NUMBER)%nat /\
    goes_to c (move c st' i Ready) (DoWrite i e stack) l.
Proof.
  intros (Hi & Hn & Hl) Hs Hf Hat; unfold ath9k_regwrite_buffer.
  destruct (Nat.leb_spec MAX_CMD_NUMBER (length (multi_write (cregs c)))); [lia|].
  set (st1 := set_multi_write _ _).
  destruct (Nat.eqb_spec (length (multi_write st1)) MAX_CMD_NUMBER) as [E|E]; subst st1; cbn [multi_write set_multi_write] in *;
    rewrite length_app in E; cbn [length] in E.
  - destruct (write_cmd_tried (set_multi_write (cregs c) (multi_write (cregs c) ++ [(reg, val)])) e
      (Batch (multi_write (cregs c) ++ [(reg, val)])) stack) as (st' & a & -> & Ha & Ht & Hm); [done..|].
    eexists _, [a]; split_and!; [done|exact Ht|cbn; unfold MAX_CMD_NUMBER; lia|].
    unfold goes_to, performed_as, performed, performs; cbn [fmap list_fmap]; rewrite Ha, Hat; cbn; rewrite !app_nil_r.
    split_and!; [|done..]; apply Forall_singleton; cbn; rewrite length_app; cbn; lia.
  - eexists _, []; split_and!; [done|by apply tried_nil|cbn; rewrite length_app; cbn; lia|].
    unfold goes_to, performed_as, performed, performs; rewrite Hat; cbn; split_and!; done.
Qed.

Lemma flush_goes c i e stack : conc_ok c -> (4 <= length stack)%nat -> frames_ok WMI_REG_WRITE_CMDID 4 (frames e) = true ->
  exists st' l, regwrite_flush_locked (cregs c) e stack = inr st' /\ tried (cregs c) st' l /\ multi_write st' = [] /\
    goes_to c (move c st' i Ready) (FlushSend i e stack) l.
Proof.
  intros (Hi & Hn & Hl) Hs Hf; unfold regwrite_flush_locked.
  destruct (Nat.eqb_spec (length (multi_write (cregs c))) 0) as [E|E]; cbn [negb].
  - apply length_zero_iff_nil in E; eexists _, []; split_and!; [done|by apply tried_nil|done|by apply goes_nil].
  - destruct (write_cmd_tried (cregs c) e (Batch (multi_write (cregs c))) stack) as (st' & a & -> & Ha & Ht & Hm); [done..|].
    eexists _, [a]; split_and!; [done|exact Ht|done|].
    unfold goes_to, performed_as, performed, performs; cbn [fmap list_fmap]; rewrite Ha; cbn; rewrite !app_nil_r.
    split_and!; [|done..]; apply Forall_singleton; cbn; lia.
Qed.

(** Every action that a caller can take goes through. *)
Lemma act_goes c a r : conc_ok c -> act_ok a = true -> act c a = Some r ->
  exists c' l, r = inr c' /\ conc_ok c' /\ attempts (cregs c') = attempts (cregs c) ++ l /\
    sent (rsys (cregs c')) = sent (rsys (cregs c)) ++ frames_of (tx_seq_id (w (rsys (cregs c)))) l /\
    tx_seq_id (w (rsys (cregs c'))) = seq_after (tx_seq_id (w (rsys (cregs c)))) l /\
    goes_to c c' a l.
Proof.
  intros Hc Hok Hact; pose proof Hc as (Hi & Hn & Hl).
  assert (Hplain : forall st' i p l, tried (cregs c) st' l -> (length (multi_write st') < MAX_CMD_NUMBER)%nat -> goes_to c (move c st' i p) a l ->
    exists c' l, @inr reg_fault conc (move c st' i p) = inr c' /\ conc_ok c' /\ attempts (cregs c') = attempts (cregs c) ++ l /\
    sent (rsys (cregs c')) = sent (rsys (cregs c)) ++ frames_of (tx_seq_id (w (rsys (cregs c)))) l /\
    tx_seq_id (w (rsys (cregs c'))) = seq_after (tx_seq_id (w (rsys (cregs c)))) l /\ goes_to c c' a l).
  { intros st' i p l (Hi' & Ha & Hm & Hs & Hq) Hl' Hg; exists (move c st' i p), l; split_and!; [done| |done..].
    unfold conc_ok; cbn; rewrite Hm; done. }
  destruct a as [i|i val reg|i e stack|i|i e stack|i e cmd buf rsp|]; cbn [act act_ok] in Hact, Hok;
    try (destruct (at_ c i) as [[|b v1 r1|]|] eqn:Hat; try discriminate).
  - injection Hact as <-; exists (move c (ath9k_enable_regwrite_buffer (cregs c)) i Ready), []; cbn; rewrite !app_nil_r.
    split_and!; [done| |done..|by apply goes_nil]; unfold conc_ok; cbn; split_and!; [done|lia|done].
  - injection Hact as <-; apply (Hplain _ _ _ []); [by apply tried_nil|done|by apply goes_nil].
  - apply andb_true_iff in Hok as [Hs Hf]; apply Nat.leb_le in Hs; injection Hact as <-; unfold regwrite_by; destruct b.
    + destruct (buffer_goes c i e stack v1 r1) as (st' & l & -> & Ht & Hl' & Hg); [done..|]; by apply (Hplain _ _ _ l).
    + destruct (single_goes c i e stack v1 r1) as (st' & l & -> & Ht & Hl' & Hg); [done..|]; by apply (Hplain _ _ _ l).
  - destruct (Z.ltb_spec 0 (mwrite_cnt (cregs c))); [|done]; injection Hact as <-.
    exists (move c (regwrite_flush_dec (cregs c)) i Flushing), []; cbn; rewrite !app_nil_r.
    split_and!; [done| |done..|by apply goes_nil]; unfold conc_ok; cbn; split_and!; [done|lia|done].
  - apply andb_true_iff in Hok as [Hs Hf]; apply Nat.leb_le in Hs; injection Hact as <-.
    destruct (flush_goes c i e stack) as (st' & l & -> & Ht & Hm & Hg); [done..|].
    apply (Hplain _ _ _ l); [done|rewrite Hm; unfold MAX_CMD_NUMBER; cbn; lia|done].
  - injection Hact as <-; destruct (other_cmd_tried (cregs c) e cmd buf rsp Hi Hok) as (cd & d & st' & a & -> & Ha & Ht & Hm).
    apply (Hplain _ _ _ [a]); [done|by rewrite Hm|].
    unfold goes_to, performed_as, performed, performs; cbn [fmap list_fmap]; rewrite Ha; cbn; rewrite Hm, !app_nil_r.
    split_and!; try done; by repeat constructor.
  - injection Hact as <-; eexists _, []; split; [reflexivity|]; cbn; rewrite !app_nil_r; split_and!; [done..|by apply goes_nil].
Qed.
Lemma frames_of_app q l l' : frames_of q (l ++ l') = frames_of q l ++ frames_of (seq_after q l) l'.
Proof. revert q; induction l as [|a l IH]; intros q; cbn; [done|]; destruct (issued a); rewrite IH, ?app_assoc; done. Qed.

Lemma seq_after_app q l l' : seq_after q (l ++ l') = seq_after (seq_after q l) l'.
Proof. revert q; induction l as [|a l IH]; intros q; cbn; done. Qed.

(** All actions of a run, one after the other. *)
Lemma run_goes c acts : conc_ok c -> forallb act_ok acts = true -> run_acts c acts <> None ->
  exists c' l, run_acts c acts = Some (inr c') /\ conc_ok c' /\ attempts (cregs c') = attempts (cregs c) ++ l /\
    sent (rsys (cregs c')) = sent (rsys (cregs c)) ++ frames_of (tx_seq_id (w (rsys (cregs c)))) l /\
    Forall size_ok (what <$> l) /\
    concat (batched <$> (what <$> l)) ++ multi_write (cregs c') = multi_write (cregs c) ++ trace (performed_as true) c acts /\
    concat (singles <$> (what <$> l)) = trace (performed_as false) c acts /\
    (trace overtakes c acts = [] ->
     concat (entries_of <$> (what <$> l)) ++ multi_write (cregs c') = multi_write (cregs c) ++ trace performed c acts).
Proof.
  revert c; induction acts as [|a acts IH]; intros c Hc Hok Hrun.
  { exists c, []; cbn; rewrite !app_nil_r; done. }
  cbn [forallb] in Hok; apply andb_true_iff in Hok as [Ha Hok]; cbn [run_acts trace] in *.
  destruct (act c a) as [r|] eqn:E; [|done].
  destruct (act_goes c a r Hc Ha E) as (c1 & l1 & -> & Hc1 & Hat1 & Hs1 & Hq1 & Hz1 & Hb1 & Hg1 & Ho1).
  destruct (IH c1 Hc1 Hok Hrun) as (c' & l & Hr & Hc' & Hat & Hs & Hz & Hb & Hg & Ho).
  exists c', (l1 ++ l); rewrite !fmap_app, !concat_app; split_and!; [done|done| | | | | |].
  - by rewrite Hat, Hat1, <- app_assoc.
  - by rewrite Hs, Hs1, Hq1, frames_of_app, <- app_assoc.
  - by apply Forall_app.
  - by rewrite <- app_assoc, Hb, app_assoc, Hb1, <- app_assoc.
  - by rewrite Hg, Hg1.
  - intros [Hx Hy]%app_eq_nil; by rewrite <- app_assoc, (Ho Hy), app_assoc, (Ho1 Hx), <- app_assoc.
Qed.

(** A caller performs its writes in the order it asks for them. *)
Lemma pending_move c st i p j : is_Some (at_ c i) ->
  pending (move c st i p) j = if decide (j = i) then match p with Decided _ val reg => [(reg, val)] | _ => [] end else pending c j.
Proof.
  intros Hi; unfold pending, at_, move; cbn; destruct (decide (j = i)) as [->|Hne].
  - by rewrite list_lookup_insert_eq by (by apply lookup_lt_is_Some).
  - by rewrite list_lookup_insert_ne by done.
Qed.

Lemma own_order c acts c' i : run_acts c acts = Some (inr c') ->
  pending c i ++ trace (asked_by i) c acts = trace (performed_by i) c acts ++ pending c' i.
Proof.
  revert c; induction acts as [|a acts IH]; intros c Hrun; cbn [run_acts trace] in *.
  { injection Hrun as <-; by rewrite app_nil_r. }
  destruct (act c a) as [[f|c1]|] eqn:E; [done| |done]; specialize (IH c1 Hrun).
  cut (pending c i ++ asked_by i c a = performed_by i c a ++ pending c1 i).
  { intros H; by rewrite app_assoc, H, <- app_assoc, IH, app_assoc. }
  clear IH Hrun; unfold performed_by, performs, asked_by.
  destruct a as [j|j val reg|j e stack|j|j e stack|j e cmd buf rsp|]; cbn [act] in E;
    try (destruct (at_ c j) as [[|b v1 r1|]|] eqn:Hat; try discriminate);
    try match type of E with context [match ?x with inl _ => _ | inr _ => _ end] => destruct x as [|]; [discriminate|] end;
    try (destruct (0 <? mwrite_cnt (cregs c)); [|done]);
    try match goal with p : (Z * list Z) * regs |- _ => destruct p as [[]] end;
    injection E as <-; try rewrite pending_move by (by eexists).
  all: cbn [filter]; try (unfold pending at 1); rewrite ?Hat, ?app_nil_r; cbn.
  all: try (destruct (decide (i = j)) as [->|]; [rewrite ?Hat, ?decide_True by done|rewrite ?decide_False by congruence]; cbn; rewrite ?Hat, ?app_nil_r; done).
  done.
Qed.

(** Nothing waits once the last caller has flushed, but for a write that was
    put into the buffer behind it. *)
Lemma quiet_move c st i p : is_Some (at_ c i) -> quiet (move c st i p) = true ->
  mwrite_cnt st = 0 /\ flushing p = false /\ forall j q, j <> i -> at_ c j = Some q -> flushing q = false.
Proof.
  intros Hi H; unfold quiet, move in H; cbn in H; apply andb_true_iff in H as [Hn%Z.eqb_eq Hf].
  rewrite forallb_forall in Hf; split_and!; [done| |].
  - apply negb_true_iff, Hf, list_elem_of_In, (list_elem_of_lookup_2 _ i).
    by rewrite list_lookup_insert_eq by (by apply lookup_lt_is_Some).
  - intros j q Hne Hj; apply negb_true_iff, Hf, list_elem_of_In, (list_elem_of_lookup_2 _ j).
    by rewrite list_lookup_insert_ne.
Qed.

Lemma quiet_back c st i p q : at_ c i = Some q -> flushing q = false -> mwrite_cnt st = mwrite_cnt (cregs c) ->
  quiet (move c st i p) = true -> quiet c = true.
Proof.
  intros Hi Hq Hm H; destruct (quiet_move c st i p) as (Hn & _ & Hf); [by eexists|done|].
  unfold quiet; apply andb_true_iff; split; [by rewrite <- Hm; apply Z.eqb_eq|].
  apply forallb_forall; intros x (j & Hj)%list_elem_of_In%list_elem_of_lookup_1; apply negb_true_iff.
  destruct (decide (j = i)) as [->|Hne]; [unfold at_ in Hi; congruence|by apply (Hf j x)].
Qed.

Lemma act_quiet c a c' : conc_ok c -> act_ok a = true -> act c a = Some (inr c') -> strays c a = [] ->
  (quiet c = true -> multi_write (cregs c) = []) -> quiet c' = true -> multi_write (cregs c') = [].
Proof.
  intros Hc Hok E Hst Hw Hq; pose proof Hc as (Hi & Hn & _).
  destruct a as [i|i val reg|i e stack|i|i e stack|i e cmd buf rsp|]; cbn [act act_ok] in E, Hok;
    try (destruct (at_ c i) as [[|b v1 r1|]|] eqn:Hat; try discriminate).
  - injection E as <-; destruct (quiet_move _ _ _ _ ltac:(by eexists) Hq) as (H0 & _); cbn in H0; lia.
  - injection E as <-; apply Hw, (quiet_back _ _ _ _ _ Hat eq_refl eq_refl Hq).
  - apply andb_true_iff in Hok as [Hs Hf]; apply Nat.leb_le in Hs; unfold regwrite_by in E; destruct b.
    + destruct (buffer_goes c i e stack v1 r1) as (st' & l & Hb & (_ & _ & Hm & _) & _); [done..|]; rewrite Hb in E; injection E as <-.
      pose proof (quiet_back _ _ _ _ _ Hat eq_refl Hm Hq) as Hqc; unfold strays in Hst; rewrite Hat, Hqc in Hst; done.
    + destruct (write_cmd_tried (cregs c) e (Single (r1, v1)) (put_le32 v1)) as (st' & a & Hb & _ & (_ & _ & Hm & _) & Hmw); [done..|].
      unfold ath9k_regwrite_single in E; rewrite Hb in E; injection E as <-; cbn; rewrite Hmw; apply Hw, (quiet_back _ _ _ _ _ Hat eq_refl Hm Hq).
  - destruct (0 <? mwrite_cnt (cregs c)); [|done]; injection E as <-.
    destruct (quiet_move _ _ _ _ ltac:(by eexists) Hq) as (_ & H0 & _); done.
  - apply andb_true_iff in Hok as [Hs Hf]; apply Nat.leb_le in Hs.
    destruct (flush_goes c i e stack) as (st' & l & Hb & _ & Hm & _); [done..|]; rewrite Hb in E; by injection E as <-.
  - destruct (other_cmd_tried (cregs c) e cmd buf rsp Hi Hok) as (cd & d & st' & a & Hb & _ & (_ & _ & Hm & _) & Hmw).
    rewrite Hb in E; injection E as <-; cbn; rewrite Hmw; apply Hw, (quiet_back _ _ _ _ _ Hat eq_refl Hm Hq).
  - injection E as <-; exact (Hw Hq).
Qed.

Lemma act_keeps_ok c a c' : conc_ok c -> act_ok a = true -> act c a = Some (inr c') -> conc_ok c'.
Proof. intros Hc Ha E; destruct (act_goes c a _ Hc Ha E) as (c1 & l & H & H1 & _); by injection H as <-. Qed.

Lemma run_quiet c acts c' : conc_ok c -> forallb act_ok acts = true -> run_acts c acts = Some (inr c') -> trace strays c acts = [] ->
  (quiet c = true -> multi_write (cregs c) = []) -> quiet c' = true -> multi_write (cregs c') = [].
Proof.
  revert c; induction acts as [|a acts IH]; intros c Hc Hok Hrun Hs Hw; cbn [run_acts trace forallb] in *; [by injection Hrun as <-|].
  apply andb_true_iff in Hok as [Ha Hok]; destruct (act c a) as [[f|c1]|] eqn:E; [done| |done].
  apply app_eq_nil in Hs as [Hs1 Hs]; apply (IH c1); [by apply (act_keeps_ok c a)|done..|].
  by apply (act_quiet c a).
Qed.

(** Callers that do not interleave: a write finds the count as it tested it. *)
Definition settled (c : conc) : Prop :=
  (quiet c = true -> multi_write (cregs c) = []) /\
  forall i b val reg, at_ c i = Some (Decided b val reg) ->
    b = regwrite_test (cregs c) /\ (b = false -> multi_write (cregs c) = []).

Lemma is_ready p : ready p = true -> p = Ready.
Proof. by destruct p. Qed.

Lemma alone c a i : actor a = Some i -> intrudes c a = [] -> forall j p, j <> i -> at_ c j = Some p -> p = Ready.
Proof.
  intros Ha H j p Hne Hj; unfold intrudes in H; rewrite Ha in H.
  destruct (forallb ready _) eqn:E; [|done]; rewrite forallb_forall in E.
  apply is_ready, E, list_elem_of_In, (list_elem_of_lookup_2 _ j); by rewrite list_lookup_insert_ne.
Qed.

Lemma ready_quiet c : mwrite_cnt (cregs c) = 0 -> (forall j p, at_ c j = Some p -> p = Ready) -> quiet c = true.
Proof.
  intros Hn Hr; unfold quiet; rewrite Hn; cbn; apply forallb_forall.
  intros x (j & Hj)%list_elem_of_In%list_elem_of_lookup_1; by rewrite (Hr j x Hj).
Qed.

Lemma act_serial c a c' : conc_ok c -> act_ok a = true -> act c a = Some (inr c') -> intrudes c a = [] -> settled c ->
  strays c a = [] /\ overtakes c a = [] /\ settled c'.
Proof.
  intros Hc Hok E Hin [Hw Hd].
  assert (Hso : strays c a = [] /\ overtakes c a = []).
  { destruct a as [i|i val reg|i e stack|i|i e stack|i e cmd buf rsp|]; try done; unfold strays, overtakes.
    destruct (at_ c i) as [[|b v1 r1|]|] eqn:Hat; try done; destruct (Hd _ _ _ _ Hat) as [Hb Hm]; destruct b.
    - unfold quiet; unfold regwrite_test in Hb; symmetry in Hb; apply negb_true_iff in Hb; by rewrite Hb.
    - by rewrite Hm. }
  destruct Hso as [Hs Ho]; split_and!; [done..|]; split; [by apply (act_quiet c a)|].
  destruct (actor a) as [i|] eqn:Ha; [|destruct a; try done; by injection E as <-].
  pose proof (alone c a i Ha Hin) as Hal; intros j b val reg Hj.
  assert (Hmove : forall st p, is_Some (at_ c i) -> at_ (move c st i p) j = Some (Decided b val reg) -> p = Decided b val reg).
  { intros st p Hi H; unfold at_, move in H; cbn in H; destruct (decide (j = i)) as [->|Hne].
    - rewrite list_lookup_insert_eq in H by (by apply lookup_lt_is_Some); by injection H.
    - rewrite list_lookup_insert_ne in H by done; by specialize (Hal j _ Hne H). }
  destruct a as [k|k v r|k e stack|k|k e stack|k e cmd buf rsp|]; cbn [actor] in Ha; try discriminate; injection Ha as ->;
    cbn [act] in E; destruct (at_ c i) as [[|b1 v1 r1|]|] eqn:Hat; try discriminate;
    try match type of E with context [match ?x with inl _ => _ | inr _ => _ end] => destruct x as [|]; [discriminate|] end;
    try (destruct (0 <? mwrite_cnt (cregs c)); [|done]);
    try match goal with p : (Z * list Z) * regs |- _ => destruct p as [[]] end;
    injection E as <-; pose proof (Hmove _ _ ltac:(by eexists) Hj) as Hp; try discriminate.
  injection Hp as <- -> ->; split; [done|]; intros Ht; unfold regwrite_test in Ht; apply negb_false_iff, Z.eqb_eq in Ht.
  apply Hw, ready_quiet; [done|]; intros j' p Hj'; destruct (decide (j' = i)) as [->|]; [by rewrite Hat in Hj'; injection Hj'|by apply (Hal j')].
Qed.

Lemma run_serial c acts : conc_ok c -> forallb act_ok acts = true -> settled c -> trace intrudes c acts = [] ->
  trace strays c acts = [] /\ trace overtakes c acts = [].
Proof.
  revert c; induction acts as [|a acts IH]; intros c Hc Hok Hse Hi; cbn [trace forallb] in *; [done|].
  apply andb_true_iff in Hok as [Ha Hok]; apply app_eq_nil in Hi as [Hi1 Hi].
  destruct (act c a) as [[f|c1]|] eqn:E.
  - destruct (act_goes c a _ Hc Ha E) as (c1 & l & H & _); discriminate.
  - destruct (act_serial c a c1) as (-> & -> & Hse1); [done..|]; cbn; apply IH; [by apply (act_keeps_ok c a)|done..].
  - split; rewrite app_nil_r; destruct a as [i|i v r|i e stack|i|i e stack|i e cmd buf rsp|]; try done; cbn in E |- *;
      destruct (at_ c i) as [[|[] v1 r1|]|]; done.
Qed.

Lemma start_settled c : between_calls c -> settled c /\ (forall i, pending c i = []).
Proof.
  intros (Hc & Hr & Hm); rewrite forallb_forall in Hr.
  assert (H : forall i p, at_ c i = Some p -> p = Ready).
  { intros i p Hi; apply is_ready, Hr, list_elem_of_In; by apply (list_elem_of_lookup_2 _ i). }
  split; [split|].
  - intros [Hn%Z.eqb_eq _]%andb_true_iff; by apply Hm.
  - intros i b v r Hi; discriminate (H i _ Hi).
  - intros i; unfold pending; destruct (at_ c i) as [p|] eqn:E; [by rewrite (H i p E)|done].
Qed.

(** C36: callers write registers, enable and flush the buffering and send
    other commands, and their steps interleave in any way, the test of the
    count and the count down outside the mutex: no fault occurs (whole frames
    are received, and no response comes twice or after its command has timed
    out), and the buffer never runs over.  Every write performed is in
    exactly one write command, or still waits: the collected ones in their
    order, in commands of 1 to 62 entries, and the single ones in theirs;
    every caller performs its writes in its own order.  The frames sent are
    those of the commands that were handed over, numbered; the writes of a
    command that is not (device gone, no memory, WMI stopped, refused below)
    are lost, and no others.  All writes are sent in one order as long as no
    single write is sent while collected ones wait, and none is left behind
    when nobody has buffering enabled as long as none is collected after the
    last flush; when calls do not interleave neither happens. *)
Theorem regwrites_in_order (c : conc) (acts : list action)
    (Hc : between_calls c) (Hok : forallb act_ok acts = true) (Hrun : run_acts c acts <> None) :
  exists c' l, run_acts c acts = Some (inr c') /\ conc_ok c' /\ attempts (cregs c') = attempts (cregs c) ++ l /\
    sent (rsys (cregs c')) = sent (rsys (cregs c)) ++ frames_of (tx_seq_id (w (rsys (cregs c)))) l /\
    Forall size_ok (what <$> l) /\
    concat (batched <$> (what <$> l)) ++ multi_write (cregs c') = multi_write (cregs c) ++ trace (performed_as true) c acts /\
    concat (singles <$> (what <$> l)) = trace (performed_as false) c acts /\
    (forall i, trace (asked_by i) c acts = trace (performed_by i) c acts ++ pending c' i) /\
    (trace overtakes c acts = [] ->
     concat (entries_of <$> (what <$> l)) ++ multi_write (cregs c') = multi_write (cregs c) ++ trace performed c acts) /\
    (trace strays c acts = [] -> quiet c' = true -> multi_write (cregs c') = []) /\
    (trace intrudes c acts = [] -> trace overtakes c acts = [] /\ trace strays c acts = []).
Proof.
  destruct (start_settled c Hc) as [Hse Hpe]; destruct Hc as (Hc & _).
  destruct (run_goes c acts Hc Hok Hrun) as (c' & l & Hr & Hc' & Ha & Hs & Hz & Hb & Hg & Ho).
  exists c', l; split_and!; [done..| |done| |].
  - intros i; rewrite <- (own_order c acts c' i Hr), Hpe; done.
  - intros Hst; apply (run_quiet c acts c' Hc Hok Hr Hst), Hse.
  - intros Hi; destruct (run_serial c acts Hc Hok Hse Hi); done.
Qed.

Definition demo_regs : regs := Regs (Sys ath9k_init_wmi None 0 []) 0 [] [].
Definition demo_answer : answer4 := Answer [[0x10; 0x03; 0; 0]] [0; 21; 0; 1; 0; 0; 0; 0] [].
Definition demo_env : env := Env false true 0 [[0x10; 0x03; 0; 0]; [0; 21; 0; 1; 0; 0; 0; 0]].
Definition demo_conc : conc := Conc demo_regs [Ready; Ready].

(** A single write, and two collected ones around a read of the other caller. *)
Definition demo_acts : list action :=
  [TestCount 0 1 0x8000; DoWrite 0 demo_env [0; 0; 0; 0]; Enable 0; TestCount 0 2 0x8004; DoWrite 0 demo_env [0; 0; 0; 0];
   OtherCmd 1 (Env false true 0 [[0; 20; 0; 2; 0; 0; 0; 9]]) WMI_REG_READ_CMDID (put_be32 0x4020) [0; 0; 0; 0];
   TestCount 0 3 0x8008; DoWrite 0 demo_env [0; 0; 0; 0]; FlushDec 0; FlushSend 0 demo_env [0; 0; 0; 0]].

Lemma regwrites_in_order_witness : exists c' l,
  run_acts demo_conc demo_acts = Some (inr c') /\
  concat (entries_of <$> (what <$> l)) = [(0x8000, 1); (0x8004, 2); (0x8008, 3)] /\
  sent (rsys (cregs c')) = frames_of 0 l /\ length (frames_of 0 l) = 3%nat /\ multi_write (cregs c') = [].
Proof.
  destruct (regwrites_in_order demo_conc demo_acts) as (c' & l & Hr & _ & Ha & Hs & _ & _ & _ & _ & Ho & Hm & Hi).
  - split; [split; [done | split; [done | vm_compute; lia]]|done].
  - reflexivity.
  - vm_compute; discriminate.
  - destruct (Hi ltac:(reflexivity)) as [H1 H2].
    assert (E : multi_write (cregs c') = []) by (apply (Hm H2); assert (Some (inr c') = run_acts demo_conc demo_acts) as Hr' by done;
      vm_compute in Hr'; injection Hr' as ->; reflexivity).
    exists c', l; split; [exact Hr|]; specialize (Ho H1); rewrite E, app_nil_r in Ho.
    split; [rewrite Ho; reflexivity|]; split; [exact Hs|]; split; [|exact E].
    change (sent _) with (@nil (list Z)) in Hs at 2; cbn [app] in Hs; change (tx_seq_id _) with 0 in Hs.
    rewrite <- Hs; assert (Some (inr c') = run_acts demo_conc demo_acts) as Hr' by done; vm_compute in Hr'; injection Hr' as ->; reflexivity.
Defined.

(** The frame of the flush cannot be allocated: the two writes collected are
    gone, and the caller is not told. *)
Example lost_write :
  let c := Conc demo_regs [Ready] in
  let acts := [Enable 0; TestCount 0 1 0x8000; DoWrite 0 demo_env [0; 0; 0; 0]; FlushDec 0; FlushSend 0 (Env false false 0 []) [0; 0; 0; 0]] in
  match run_acts c acts with
  | Some (inr c') => sent (rsys (cregs c')) = [] /\ multi_write (cregs c') = [] /\ trace performed c acts = [(0x8000, 1)] /\
                     trace intrudes c acts = []
  | _ => False
  end.
Proof. vm_compute; done. Qed.

(** Caller 0 finds buffering enabled by caller 1, which then flushes; the
    write of caller 0 goes into the buffer and stays there. *)
Example stranded_write :
  let acts := [Enable 1; TestCount 0 1 0x8000; FlushDec 1; FlushSend 1 demo_env [0; 0; 0; 0]; DoWrite 0 demo_env [0; 0; 0; 0]] in
  match run_acts demo_conc acts with
  | Some (inr c') => sent (rsys (cregs c')) = [] /\ multi_write (cregs c') = [(0x8000, 1)] /\ quiet c' = true /\ trace strays demo_conc acts = [0%nat]
  | _ => False
  end.
Proof. vm_compute; done. Qed.

(** Caller 1 has counted down and not yet flushed: of two writes of caller 0
    to one register the second is sent first. *)
Example overtaken_write :
  let acts := [Enable 1; TestCount 0 1 0x8000; DoWrite 0 demo_env [0; 0; 0; 0]; FlushDec 1; TestCount 0 2 0x8000; DoWrite 0 demo_env [0; 0; 0; 0];
               FlushSend 1 demo_env [0; 0; 0; 0]] in
  match run_acts demo_conc acts with
  | Some (inr c') => concat (entries_of <$> (what <$> attempts (cregs c'))) = [(0x8000, 2); (0x8000, 1)] /\
                     trace performed demo_conc acts = [(0x8000, 1); (0x8000, 2)] /\ length (sent (rsys (cregs c'))) = 2%nat
  | _ => False
  end.
Proof. vm_compute; done. Qed.


(** With buffering off, a read-modify-write whose read is answered with [v] sends [v] with the bits of [clr] cleared and those of [set] set, in one read and one write command, and returns that value. *)
Theorem reg_rmw_updates (st : regs) (rd : answer4) (wr : answer4) (stack : list Z) (reg v set clr : Z)
    (Hc : clean (rsys st)) (Hn : mwrite_cnt st = 0) (Hl : length stack = 4%nat) (Hv : is_u32 v)
    (Hrd : answered (Exchange WMI_REG_READ_CMDID (put_be32 reg) stack (a_pre rd) (a_resp rd) (a_post rd)) = true)
    (Hd : take 4 (drop 4 (a_resp rd)) = put_be32 v)
    (Hwr : answered (write_exchange wr [] stack) = true) :
  let new := Z.lor (Z.land v (Z.lxor clr (2 ^ 32 - 1))) set in
  exists st',
    ath9k_reg_rmw st (Env false true 0 (a_pre rd ++ a_resp rd :: a_post rd)) (env_of (write_exchange wr [] stack)) stack reg set clr
      = inr (new, st') /\ clean (rsys st') /\
    sent (rsys st') = sent (rsys st) ++ requests (tx_seq_id (w (rsys st))) [(WMI_REG_READ_CMDID, put_be32 reg); write_request [(reg, new)]].
Proof.
  intros new; set (x := Exchange WMI_REG_READ_CMDID (put_be32 reg) stack (a_pre rd) (a_resp rd) (a_post rd)).
  pose proof (cmd_answered (rsys st) x Hc Hrd) as Hx; unfold env_of in Hx; simpl in Hx.
  unfold ath9k_reg_rmw, ath9k_regread, other_cmd; rewrite firstn_all2 by lia; rewrite Hl in *.
  rewrite Hx; unfold answer; simpl x_rsp; simpl x_resp; rewrite Hl; unfold sizeof_wmi_cmd_hdr; rewrite Hd; cbn [negb Z.eqb].
  assert (Hg : get_be32 (put_be32 v) 0 = v).
  { rewrite get_be32_val by kint; unfold put_be32, put_be16, byte_at; simpl.
    rewrite !u8_mod, !u16_mod, !shiftr8, !shiftr16; unfold is_uint in Hv; arith. }
  rewrite Hg; fold new; unfold ath9k_regwrite, regwrite_test; simpl mwrite_cnt; rewrite Hn; cbn [negb Z.eqb].
  unfold regwrite_by, ath9k_regwrite_single.
  match goal with |- context [write_cmd ?st1 _ _ _] => 
    destruct (write_cmd_answered st1 wr (Single (reg, new)) (put_le32 new) ltac:(by repeat split) ltac:(done)) as (s & Hw & Hcs & Hs) end.
  { unfold answered in *; simpl in *; rewrite length_take, Nat.min_l in Hwr by lia; exact Hwr. }
  unfold env_of in *; simpl in *; rewrite Hw; eexists; split_and!; [done|done|]; simpl.
  rewrite Hs, <- app_assoc; done.
Qed.

Lemma reg_rmw_updates_witness : exists st',
  ath9k_reg_rmw demo_regs (Env false true 0 [[0; 20; 0; 1; 0; 0; 0; 0xf0]]) (env_of (write_exchange demo_answer [] [0; 0; 0; 0]))
    [0; 0; 0; 0] 0x8000 1 0x10 = inr (0xe1, st') /\ clean (rsys st').
Proof.
  destruct (reg_rmw_updates demo_regs (Answer [] [0; 20; 0; 1; 0; 0; 0; 0xf0] []) demo_answer [0; 0; 0; 0] 0x8000 0xf0 1 0x10
    ltac:(by repeat split) eq_refl eq_refl ltac:(by_eval) eq_refl eq_refl eq_refl) as (st' & H & Hc & _).
  exists st'; split; [exact H | exact Hc].
Defined.

(** A read that times out returns the error code as a register value, and a
    read-modify-write then writes it to the register. *)
Example rmw_writes_error_code :
  match ath9k_reg_rmw demo_regs (Env false true 0 []) (env_of (write_exchange demo_answer [] [0; 0; 0; 0])) [0; 0; 0; 0] 0x8000 1 0x10 with
  | inr (v, st) => v = 0xffffffeb /\ sent (rsys st) !! 1%nat = Some (put_be16 WMI_REG_WRITE_CMDID ++ put_be16 2 ++ put_be32 0x8000 ++ put_be32 0xffffffeb)
  | inl _ => False
  end.
Proof. vm_compute; split; reflexivity. Qed.

(** Once the device is gone a read returns what was on the stack. *)
Example unplugged_read_is_stack st : 
  match ath9k_regread st (Env true true 0 []) [0xde; 0xad; 0xbe; 0xef] 0x8000 with
  | inr (v, st') => v = 0xdeadbeef /\ rsys st' = rsys st
  | inl _ => False
  end.
Proof. by split. Qed.

(** While writes are collected a read does not see them: of two
    read-modify-writes of one register only the second has an effect. *)
Example buffered_rmw_loses_update :
  let rd := Env false true 0 [[0; 20; 0; 1; 0; 0; 0; 0]] in
  let st := ath9k_enable_regwrite_buffer demo_regs in
  match ath9k_reg_rmw st rd rd [0; 0; 0; 0] 0x8000 1 0 with
  | inr (_, st) => match ath9k_reg_rmw st rd rd [0; 0; 0; 0] 0x8000 2 0 with
                   | inr (_, st) => multi_write st = [(0x8000, 1); (0x8000, 2)]
                   | inl _ => False end
  | inl _ => False
  end.
Proof. vm_compute; reflexivity. Qed.

End Wmi.
