(* ===== verification/HtcRx.v ===== *)
(** * The receive path of ath9k_htc

    [drivers/net/wireless/ath/ath9k/htc_drv_txrx.c], the part below the
    transmit path ([HtcTx]).  The host-target layer gives each received frame to [ath9k_htc_rxep],
    which stores it in a free receive buffer; a tasklet checks the frames,
    translates their status and gives them to mac80211.  The tasklet lets go of
    the lock of the buffer list while it delivers a frame, and the receiver
    does between its choice of a buffer and its use, so both are split there. *)

From S2P Require Import Prelude Ieee80211 HtcTx.

Module HtcRx.
Import Ieee80211.

Definition ENOMEM : Z := 12.
Definition ATH9K_HTC_RXBUF : nat := 256.
Definition HTC_RX_FRAME_HEADER_SIZE : nat := 40.
Definition FCS_LEN : Z := 4.
Definition ATH9K_RXERR_CRC : Z := 0x01.
Definition ATH9K_RXERR_PHY : Z := 0x02.
Definition ATH9K_RXERR_DECRYPT : Z := 0x08.
Definition ATH9K_RXERR_MIC : Z := 0x10.
Definition ATH9K_RX_GI : Z := 0x04.
Definition ATH9K_RX_2040 : Z := 0x08.
Definition ATH9K_RXKEYIX_INVALID : Z := 255.
Definition ATH9K_RSSI_BAD : Z := -128.
Definition ATH_DEFAULT_NOISE_FLOOR : Z := -95.
Definition ATH_RSSI_DUMMY_MARKER : Z := 0x127.
Definition ATH_RSSI_LPF_LEN : Z := 10.
Definition RSSI_LPF_THRESHOLD : Z := -20.
Definition ATH_RSSI_EP_MULTIPLIER : Z := 128.
Definition RX_FLAG_MMIC_ERROR : Z := 2 ^ 0.
Definition RX_FLAG_DECRYPTED : Z := 2 ^ 1.
Definition RX_FLAG_FAILED_FCS_CRC : Z := 2 ^ 5.
Definition RX_FLAG_SHORTPRE : Z := 2 ^ 8.
Definition RX_FLAG_HT : Z := 2 ^ 9.
Definition RX_FLAG_40MHZ : Z := 2 ^ 10.
Definition RX_FLAG_SHORT_GI : Z := 2 ^ 11.
Definition RX_FLAG_MACTIME_END : Z := 2 ^ 21.

(** Conversion to [int8_t]. *)
Definition s8 (z : Z) : Z := (z + 128) mod 256 - 128.

(** ** Signal strength *)

(** C division truncates. *)
Definition ATH_RSSI_IN (x : Z) : Z := x * ATH_RSSI_EP_MULTIPLIER.
Definition ATH_LPF_RSSI (x y len : Z) : Z :=
  if negb (x =? ATH_RSSI_DUMMY_MARKER) then Z.quot (x * (len - 1) + y) len else y.
Definition ATH_RSSI_LPF (x y : Z) : Z :=
  if RSSI_LPF_THRESHOLD <=? y then ATH_LPF_RSSI x (ATH_RSSI_IN y) ATH_RSSI_LPF_LEN else x.
Definition ATH_EP_RND (x mul : Z) : Z :=
  if Z.quot mul 2 <=? Z.rem x mul then Z.quot (x + (mul - 1)) mul else Z.quot x mul.

(** ** Rates *)

(** A rate by its codes for long and short preamble. *)
Definition RATE (hw_rate : Z) (short : bool) : Z * Z := (hw_rate, if short then Z.lor hw_rate 0x04 else 0).

Definition ath9k_legacy_rates : list (Z * Z) :=
  [RATE 0x1b false; RATE 0x1a true; RATE 0x19 true; RATE 0x18 true; RATE 0x0b false; RATE 0x0f false;
   RATE 0x0a false; RATE 0x0e false; RATE 0x09 false; RATE 0x0d false; RATE 0x08 false; RATE 0x0c false].

(** Band 0 is 2.4 GHz; the 5 GHz band has no CCK rates. *)
Definition band_bitrates (band : Z) : list (Z * Z) :=
  if band =? 0 then ath9k_legacy_rates else drop 4 ath9k_legacy_rates.

Fixpoint find_rate (i : Z) (bitrates : list (Z * Z)) (rx_rate : Z) : option (Z * Z) :=
  match bitrates with
  | [] => None
  | (hw_value, hw_value_short) :: bitrates =>
      if hw_value =? rx_rate then Some (i, 0)
      else if hw_value_short =? rx_rate then Some (i, RX_FLAG_SHORTPRE)
      else find_rate (i + 1) bitrates rx_rate
  end.

(** The rate index and the flags added. *)
Definition ath9k_process_rate (band rx_rate rs_flags : Z) : Z * Z :=
  if bit_set rx_rate 0x80 then
    let flag := RX_FLAG_HT in
    let flag := if bit_set rs_flags ATH9K_RX_2040 then Z.lor flag RX_FLAG_40MHZ else flag in
    let flag := if bit_set rs_flags ATH9K_RX_GI then Z.lor flag RX_FLAG_SHORT_GI else flag in
    (Z.land rx_rate 0x7f, flag)
  else
    match find_rate 0 (band_bitrates band) rx_rate with
    | Some r => r
    | None => (0, 0)
    end.

(** ** Frames *)

(** A buffer from the host-target layer: its bytes, and what lies behind. *)
Record skb := Skb { data : list Z; tail : list Z }.

(** [struct ath_htc_rx_status], at the front of a frame. *)
Definition rs_datalen (d : list Z) : Z := get_be16 d 8.
Definition rs_status (d : list Z) : Z := d.[10].
Definition rs_rssi (d : list Z) : Z := s8 (d.[12]).
Definition rs_keyix (d : list Z) : Z := d.[19].
Definition rs_rate (d : list Z) : Z := d.[20].
Definition rs_antenna (d : list Z) : Z := d.[21].
Definition rs_moreaggr (d : list Z) : Z := d.[24].
Definition rs_flags (d : list Z) : Z := d.[26].
Definition rs_tstamp (d : list Z) : Z := Z.lor (Z.shiftl (get_be32 d 0) 32) (get_be32 d 4).

(** [struct ieee80211_rx_status], the fields the driver sets. *)
Record rx_status := Status { mactime : Z; band : Z; freq : Z; signal : Z; antenna : Z; rate_idx : Z; flag : Z }.

Record rx := Rx { last_rssi : Z; avgbrssi : Z }.

(** The removal of the padding between header and body. *)
Definition remove_padding (fc : Z) (d : list Z) : list Z :=
  let padpos := HtcTx.ath9k_cmn_padpos fc in
  let padsize := Z.land padpos 3 in
  if negb (padsize =? 0) && (padpos + padsize + FCS_LEN <=? Z.of_nat (length d))
  then take (Z.to_nat padpos) d ++ drop (Z.to_nat (padpos + padsize)) d
  else d.

Section Receive.
Context (monitor : bool) (keymap : Z -> bool) (chan_band center_freq : Z).

(** The errors: [None] drops the frame, [Some] gives the flags to set and the
    status that is left. *)
Definition rx_errors (fc status : Z) : option (Z * Z) :=
  if negb (status =? 0) then
    let flag := if bit_set status ATH9K_RXERR_CRC then RX_FLAG_FAILED_FCS_CRC else 0 in
    if bit_set status ATH9K_RXERR_PHY then None
    else
      let '(flag, status) :=
        if bit_set status ATH9K_RXERR_DECRYPT then (flag, status)
        else if bit_set status ATH9K_RXERR_MIC then
          if ieee80211_is_ctl fc then (flag, Z.land status (Z.lnot ATH9K_RXERR_MIC))
          else (Z.lor flag RX_FLAG_MMIC_ERROR, status)
        else (flag, status) in
      let ok := if monitor then Z.lor (Z.lor ATH9K_RXERR_DECRYPT ATH9K_RXERR_MIC) ATH9K_RXERR_CRC
                else Z.lor ATH9K_RXERR_DECRYPT ATH9K_RXERR_MIC in
      if bit_set status (Z.lnot ok) then None else Some (flag, status)
  else Some (0, status).

(** Whether the hardware has decrypted the frame [d]. *)
Definition hw_decrypted (fc status keyix hdrlen : Z) (d : list Z) : bool :=
  negb (bit_set status ATH9K_RXERR_DECRYPT) &&
  (if negb (keyix =? ATH9K_RXKEYIX_INVALID) then true
   else ieee80211_has_protected fc && (hdrlen + 4 <=? Z.of_nat (length d)) &&
        keymap (Z.shiftr (d.[Z.to_nat (hdrlen + 3)]) 6)).

(** The averaged signal strength, and the strength reported. *)
Definition rx_rssi (last rssi moreaggr : Z) : Z * Z :=
  let last := if negb (rssi =? ATH9K_RSSI_BAD) && (moreaggr =? 0) then ATH_RSSI_LPF last rssi else last in
  let rssi := if negb (last =? ATH_RSSI_DUMMY_MARKER) then s8 (ATH_EP_RND last ATH_RSSI_EP_MULTIPLIER) else rssi in
  (last, if rssi <? 0 then 0 else rssi).

Definition ath9k_rx_prepare (r : rx) (s : skb) : option (skb * rx_status) * rx :=
  let st := data s in
  if (length st <? HTC_RX_FRAME_HEADER_SIZE)%nat then (None, r)
  else if negb (rs_datalen st =? Z.of_nat (length st - HTC_RX_FRAME_HEADER_SIZE)) then (None, r)
  else
    let d := drop HTC_RX_FRAME_HEADER_SIZE st in
    let fc := frame_control (d ++ tail s) in
    let hdrlen := ieee80211_get_hdrlen_from_skb d in
    let d := remove_padding fc d in
    match rx_errors fc (rs_status st) with
    | None => (None, r)
    | Some (flag, status) =>
        let flag := if hw_decrypted fc status (rs_keyix st) hdrlen d then Z.lor flag RX_FLAG_DECRYPTED else flag in
        let '(idx, rate_flag) := ath9k_process_rate chan_band (rs_rate st) (rs_flags st) in
        let '(last, rssi) := rx_rssi (last_rssi r) (rs_rssi st) (rs_moreaggr st) in
        let avg := if ieee80211_is_beacon fc then rssi else avgbrssi r in
        (Some (Skb d (tail s),
           Status (rs_tstamp st) chan_band center_freq (rssi + ATH_DEFAULT_NOISE_FLOOR) (rs_antenna st) idx
             (Z.lor (Z.lor flag rate_flag) RX_FLAG_MACTIME_END)),
         Rx last avg)
    end.

(** ** Receive buffers *)

Record rxbuf := Buf { name : nat; in_process : bool; buf_skb : option skb }.

(** The frames given to mac80211 and those freed.  [picked] is the buffer a
    receiver has chosen, with its frame; [delivering] the one whose frame the
    tasklet is handing over. *)
Record pool := Pool { bufs : list rxbuf; rxs : rx; picked : option (nat * skb); delivering : option nat;
  delivered : list (skb * rx_status); freed : list skb }.

(** [n] allocations succeed. *)
Definition ath9k_rx_init (n : nat) : Z * list rxbuf :=
  if (n <? ATH9K_HTC_RXBUF)%nat then (- ENOMEM, [])
  else (0, (fun i => Buf i false None) <$> seq 0 ATH9K_HTC_RXBUF).

(** The frames freed with the buffers. *)
Definition ath9k_rx_cleanup (l : list rxbuf) : list skb := omap buf_skb l.

Definition ath9k_host_rx_init (r : rx) : rx := Rx ATH_RSSI_DUMMY_MARKER (avgbrssi r).

(** The first buffer of the list with a given [in_process]. *)
Definition first_buf (busy : bool) (l : list rxbuf) : option rxbuf :=
  List.find (fun b => Bool.eqb (in_process b) busy) l.

Definition set_buf (n : nat) (busy : bool) (s : option skb) (l : list rxbuf) : list rxbuf :=
  (fun b => if (name b =? n)%nat then Buf n busy s else b) <$> l.

Definition rxep_pick (p : pool) (s : skb) : pool :=
  match first_buf false (bufs p) with
  | None => Pool (bufs p) (rxs p) (picked p) (delivering p) (delivered p) (freed p ++ [s])
  | Some b => Pool (bufs p) (rxs p) (Some (name b, s)) (delivering p) (delivered p) (freed p)
  end.

Definition rxep_fill (p : pool) : pool :=
  match picked p with
  | None => p
  | Some (n, s) => Pool (set_buf n true (Some s) (bufs p)) (rxs p) None (delivering p) (delivered p) (freed p)
  end.

Definition ath9k_htc_rxep (p : pool) (s : skb) : pool := rxep_fill (rxep_pick p s).

(** [list_move_tail] of the emptied buffer. *)
Definition requeue (n : nat) (l : list rxbuf) : list rxbuf :=
  filter (fun b => name b <> n) l ++ [Buf n false None].

(** One turn of the tasklet up to the delivery; [None] leaves the loop. *)
Definition tasklet_take (p : pool) : option pool :=
  match first_buf true (bufs p) with
  | None => None
  | Some b =>
      match buf_skb b with
      | None => Some (Pool (requeue (name b) (bufs p)) (rxs p) (picked p) None (delivered p) (freed p))
      | Some s =>
          match ath9k_rx_prepare (rxs p) s with
          | (None, r) => Some (Pool (requeue (name b) (bufs p)) r (picked p) None (delivered p) (freed p ++ [s]))
          | (Some out, r) => Some (Pool (bufs p) r (picked p) (Some (name b)) (delivered p ++ [out]) (freed p))
          end
      end
  end.

Definition tasklet_done (p : pool) : pool :=
  match delivering p with
  | None => p
  | Some n => Pool (requeue n (bufs p)) (rxs p) (picked p) None (delivered p) (freed p)
  end.

(** The tasklet when it is not interrupted. *)
Fixpoint ath9k_rx_tasklet (fuel : nat) (p : pool) : option pool :=
  match fuel with
  | O => None
  | S fuel => match tasklet_take p with
              | None => Some p
              | Some p => ath9k_rx_tasklet fuel (tasklet_done p)
              end
  end.

(** ** Interleaving: one receiver and one tasklet *)

Inductive op := Pick (s : skb) | Fill | Take | Done.

Definition step (p : pool) (o : op) : option pool :=
  match o with
  | Pick s => match picked p with None => Some (rxep_pick p s) | Some _ => None end
  | Fill => match picked p with Some _ => Some (rxep_fill p) | None => None end
  | Take => match delivering p with None => tasklet_take p | Some _ => None end
  | Done => match delivering p with Some _ => Some (tasklet_done p) | None => None end
  end.

Fixpoint run (p : pool) (ops : list op) : option pool :=
  match ops with
  | [] => Some p
  | o :: ops => step p o ≫= fun p => run p ops
  end.

(** The abstract receiver: a queue of at most 256 frames.  The frame that is
    being delivered is still in it. *)
Record queue := Queue { pending : list skb; qrxs : rx; claimed : option skb; busy : bool;
  qdelivered : list (skb * rx_status); qfreed : list skb }.

Definition qstep (q : queue) (o : op) : option queue :=
  match o, claimed q, busy q, pending q with
  | Pick s, None, _, _ =>
      if (length (pending q) <? ATH9K_HTC_RXBUF)%nat
      then Some (Queue (pending q) (qrxs q) (Some s) (busy q) (qdelivered q) (qfreed q))
      else Some (Queue (pending q) (qrxs q) None (busy q) (qdelivered q) (qfreed q ++ [s]))
  | Fill, Some s, _, _ => Some (Queue (pending q ++ [s]) (qrxs q) None (busy q) (qdelivered q) (qfreed q))
  | Take, _, false, s :: rest =>
      match ath9k_rx_prepare (qrxs q) s with
      | (Some out, r) => Some (Queue (s :: rest) r (claimed q) true (qdelivered q ++ [out]) (qfreed q))
      | (None, r) => Some (Queue rest r (claimed q) false (qdelivered q) (qfreed q ++ [s]))
      end
  | Done, _, true, _ :: rest => Some (Queue rest (qrxs q) (claimed q) false (qdelivered q) (qfreed q))
  | _, _, _, _ => None
  end.

Fixpoint qrun (q : queue) (ops : list op) : option queue :=
  match ops with
  | [] => Some q
  | o :: ops => qstep q o ≫= fun q => qrun q ops
  end.

(** What a pool of buffers stands for. *)
Definition held (l : list rxbuf) : list skb := omap buf_skb (filter (fun b => in_process b = true) l).
Definition abs (p : pool) : queue :=
  Queue (held (bufs p)) (rxs p) (snd <$> picked p) (bool_decide (is_Some (delivering p))) (delivered p) (freed p).

(** ** The buffers are a queue and a free list *)

Definition full (x : nat * skb) : rxbuf := Buf x.1 true (Some x.2).
Definition empty (n : nat) : rxbuf := Buf n false None.
Definition layout (ps : list (nat * skb)) (fs : list nat) : list rxbuf := (full <$> ps) ++ (empty <$> fs).

(** Used buffers come first, in the order they were filled; the buffer a
    receiver has chosen is the first free one, and the frame being delivered
    is in the first used one. *)
Definition pool_ok (p : pool) (ps : list (nat * skb)) (fs : list nat) : Prop :=
  bufs p = layout ps fs /\ NoDup (ps.*1 ++ fs) /\ (length ps + length fs)%nat = ATH9K_HTC_RXBUF /\
  (forall n s, picked p = Some (n, s) -> head fs = Some n) /\
  (forall n, delivering p = Some n -> head (ps.*1) = Some n).

Lemma first_used ps fs : first_buf true (layout ps fs) = full <$> head ps.
Proof. destruct ps as [|x ps]; [|done]; unfold layout; simpl; induction fs; done. Qed.

Lemma first_free ps fs : first_buf false (layout ps fs) = empty <$> head fs.
Proof. unfold layout; induction ps; simpl; [by destruct fs | done]. Qed.

Lemma held_layout ps fs : held (layout ps fs) = ps.*2.
Proof.
  unfold held, layout; induction ps as [|x ps IH]; [by induction fs|].
  rewrite !fmap_cons; simpl; f_equal; exact IH.
Qed.

Lemma names_layout ps fs : name <$> layout ps fs = ps.*1 ++ fs.
Proof.
  unfold layout; rewrite fmap_app, <- !list_fmap_compose; f_equal.
  induction fs; simpl; [done|]; by f_equal.
Qed.

Lemma set_buf_other n busy s l : n ∉ name <$> l -> set_buf n busy s l = l.
Proof.
  induction l as [|b l IH]; simpl; [done|]; intros H; apply not_elem_of_cons in H as [Hn H].
  rewrite IH by done; destruct (Nat.eqb_spec (name b) n); [congruence|done].
Qed.

Lemma set_buf_app n busy s l l' : set_buf n busy s (l ++ l') = set_buf n busy s l ++ set_buf n busy s l'.
Proof. apply fmap_app. Qed.

Lemma set_buf_layout n s ps fs : NoDup (ps.*1 ++ n :: fs) ->
  set_buf n true (Some s) (layout ps (n :: fs)) = layout (ps ++ [(n, s)]) fs.
Proof.
  intros H; apply list.NoDup_app in H as (_ & Hd & Hf); apply list.NoDup_cons in Hf as [Hn _].
  unfold layout; rewrite set_buf_app, fmap_app; simpl.
  rewrite set_buf_other by (rewrite <- list_fmap_compose; intros Hin; apply (Hd n Hin); by constructor).
  rewrite Nat.eqb_refl; simpl; rewrite <- app_assoc; simpl; do 3 f_equal.
  apply set_buf_other; rewrite <- list_fmap_compose; intros Hin; apply Hn.
  apply list_elem_of_fmap in Hin as (x & -> & Hx); done.
Qed.

Lemma filter_names n (l : list rxbuf) : n ∉ name <$> l -> filter (fun b => name b <> n) l = l.
Proof.
  induction l as [|b l IH]; simpl; [done|]; intros H; apply not_elem_of_cons in H as [Hn H].
  rewrite list.filter_cons, IH by done; rewrite decide_True by congruence; done.
Qed.

Lemma requeue_layout n s ps fs : NoDup (n :: ps.*1 ++ fs) ->
  requeue n (layout ((n, s) :: ps) fs) = layout ps (fs ++ [n]).
Proof.
  intros H; apply list.NoDup_cons in H as [Hn _]; unfold requeue.
  change (layout ((n, s) :: ps) fs) with (full (n, s) :: layout ps fs).
  rewrite list.filter_cons; simpl; rewrite decide_False by (intros E; by apply E).
  rewrite filter_names by (by rewrite names_layout).
  unfold layout; by rewrite fmap_app, <- app_assoc.
Qed.

(** One step keeps the layout and is the step of the abstract queue. *)
Lemma step_refines p ps fs o : pool_ok p ps fs ->
  match step p o with
  | Some p' => qstep (abs p) o = Some (abs p') /\ exists ps' fs', pool_ok p' ps' fs'
  | None => qstep (abs p) o = None
  end.
Proof.
  intros (Hb & Hnd & Hl & Hp & Hd); destruct p as [bs r pk dl out fr]; simpl in *; subst bs.
  unfold abs; simpl; rewrite held_layout.
  destruct o as [s| | |]; simpl.
  - destruct pk as [[n s']|]; [done|]; unfold rxep_pick; simpl; rewrite first_free, length_fmap.
    destruct fs as [|n fs]; simpl.
    + destruct (Nat.ltb_spec (length ps) ATH9K_HTC_RXBUF); [simpl in Hl; lia|].
      split; [by rewrite held_layout|]; by exists ps, [].
    + destruct (Nat.ltb_spec (length ps) ATH9K_HTC_RXBUF); [|simpl in Hl; lia].
      split; [by rewrite held_layout|]; exists ps, (n :: fs); split_and!; try done; simpl.
      by intros ? ? [= -> _].
  - destruct pk as [[n s]|]; [|done]; unfold rxep_fill; simpl.
    destruct fs as [|n' fs]; [by specialize (Hp n s eq_refl)|].
    specialize (Hp n s eq_refl); injection Hp as ->.
    rewrite set_buf_layout by done; rewrite held_layout, fmap_app; split; [done|].
    exists (ps ++ [(n, s)]), fs; split_and!; simpl; try done.
    + by rewrite fmap_app, <- app_assoc.
    + rewrite length_app; simpl in *; lia.
    + intros m Hm; specialize (Hd m Hm); by destruct ps.
  - destruct dl as [m|]; [by destruct pk|].
    unfold tasklet_take; simpl; rewrite first_used; destruct ps as [|[n s] ps]; [by destruct pk|]; simpl.
    destruct (ath9k_rx_prepare r s) as [[o|] r'] eqn:E; simpl.
    + split; [by rewrite held_layout; destruct pk|].
      exists ((n, s) :: ps), fs; split_and!; try done; simpl; by intros ? [= ->].
    + rewrite requeue_layout by done; rewrite held_layout; split; [by destruct pk|].
      exists ps, (fs ++ [n]); split_and!; simpl; try done.
      * rewrite app_assoc; simpl in Hnd; by rewrite <- Permutation_cons_append.
      * rewrite length_app; simpl in *; lia.
      * intros k t Hk; specialize (Hp k t Hk); by destruct fs.
  - destruct dl as [m|]; [|by destruct pk].
    unfold tasklet_done; simpl; specialize (Hd m eq_refl); destruct ps as [|[n s] ps]; [done|]; injection Hd as ->.
    rewrite requeue_layout by done; rewrite held_layout; split; [by destruct pk|].
    exists ps, (fs ++ [m]); split_and!; simpl; try done.
    + rewrite app_assoc; simpl in Hnd; by rewrite <- Permutation_cons_append.
    + rewrite length_app; simpl in *; lia.
    + intros k t Hk; specialize (Hp k t Hk); by destruct fs.
Qed.

Lemma run_refines ops p ps fs : pool_ok p ps fs ->
  match run p ops with
  | Some p' => qrun (abs p) ops = Some (abs p') /\ exists ps' fs', pool_ok p' ps' fs'
  | None => qrun (abs p) ops = None
  end.
Proof.
  revert p ps fs; induction ops as [|o ops IH]; intros p ps fs H; simpl; [by split; [|exists ps, fs]|].
  pose proof (step_refines p ps fs o H) as Hs; destruct (step p o) as [p'|]; simpl; [|by rewrite Hs].
  destruct Hs as (-> & ps' & fs' & H'); simpl; exact (IH p' ps' fs' H').
Qed.

(** The driver after [ath9k_rx_init], for a given filter state. *)
Definition fresh (r : rx) : pool := Pool (ath9k_rx_init ATH9K_HTC_RXBUF).2 r None None [] [].

Lemma fresh_ok r : pool_ok (fresh r) [] (seq 0 ATH9K_HTC_RXBUF).
Proof.
  unfold pool_ok, fresh, ath9k_rx_init, layout; rewrite Nat.ltb_irrefl; split_and!; simpl; try done.
  apply (NoDup_seq 0 ATH9K_HTC_RXBUF).
Qed.

(** The frames of a queue, prepared in order: those handed up, those dropped,
    and the filter state. *)
Fixpoint prepare_all (r : rx) (l : list skb) : list (skb * rx_status) * list skb * rx :=
  match l with
  | [] => ([], [], r)
  | s :: l =>
      let '(o, r) := ath9k_rx_prepare r s in
      let '(up, down, r) := prepare_all r l in
      match o with Some x => (x :: up, down, r) | None => (up, s :: down, r) end
  end.

Lemma tasklet_drains fuel p ps fs : pool_ok p ps fs -> delivering p = None -> (length ps < fuel)%nat ->
  let '(up, down, r) := prepare_all (rxs p) (ps.*2) in
  exists p' fs', ath9k_rx_tasklet fuel p = Some p' /\ pool_ok p' [] fs' /\ rxs p' = r /\
    delivered p' = delivered p ++ up /\ freed p' = freed p ++ down /\ picked p' = picked p.
Proof.
  revert p ps fs; induction fuel as [|fuel IH]; intros p ps fs Hok Hd Hl; [lia|].
  destruct ps as [|[n s] ps].
  - simpl; unfold tasklet_take; rewrite (proj1 Hok), first_used; simpl.
    exists p, fs; rewrite !app_nil_r; done.
  - pose proof (step_refines p _ _ Take Hok) as Hs; simpl in Hs; rewrite Hd in Hs.
    simpl ath9k_rx_tasklet; unfold tasklet_take in *; rewrite (proj1 Hok), first_used in *; simpl in *.
    destruct (ath9k_rx_prepare (rxs p) s) as [[o|] r] eqn:E.
    + set (p1 := Pool (layout ((n, s) :: ps) fs) r (picked p) (Some n) (delivered p ++ [o]) (freed p)) in *.
      assert (Hok1 : pool_ok p1 ((n, s) :: ps) fs).
      { destruct Hok as (_ & Hnd & Hlen & Hp & _); split_and!; try done; simpl; by intros ? [= ->]. }
      pose proof (step_refines p1 _ _ Done Hok1) as (_ & ps2 & fs2 & H2); simpl in *.
      assert (ps2.*2 = ps.*2 /\ length ps2 = length ps) as [Hps Hlen].
      { destruct H2 as (Hb & _); unfold tasklet_done, p1 in Hb; simpl in Hb.
        rewrite requeue_layout in Hb by apply Hok1.
        rewrite <- (held_layout ps2 fs2), <- Hb, held_layout; split; [done|].
        rewrite <- (length_fmap snd ps2), <- (held_layout ps2 fs2), <- Hb, held_layout; apply length_fmap. }
      specialize (IH (tasklet_done p1) ps2 fs2 H2 eq_refl ltac:(lia)); rewrite Hps in IH; unfold tasklet_done, p1 in IH; simpl in IH.
      change (list_fmap (nat * skb)%type skb snd ps) with (ps.*2) in *.
      revert IH; destruct (prepare_all r ps.*2) as [[up down] r']; intros IH; destruct IH as (p' & fs' & Ht & Hp' & Hr & Hdl & Hfr & Hpk).
      exists p', fs'; rewrite Hdl, Hfr, <- app_assoc; split_and!; try done; exact Ht.
    + set (p1 := Pool (requeue n (layout ((n, s) :: ps) fs)) r (picked p) None (delivered p) (freed p ++ [s])) in *.
      destruct Hs as (_ & ps2 & fs2 & H2).
      assert (ps2.*2 = ps.*2 /\ length ps2 = length ps) as [Hps Hlen].
      { destruct H2 as (Hb & _); simpl in Hb.
        rewrite requeue_layout in Hb by apply Hok.
        rewrite <- (held_layout ps2 fs2), <- Hb, held_layout; split; [done|].
        rewrite <- (length_fmap snd ps2), <- (held_layout ps2 fs2), <- Hb, held_layout; apply length_fmap. }
      specialize (IH p1 ps2 fs2 H2 eq_refl ltac:(lia)); rewrite Hps in IH; unfold p1 in IH; simpl in IH.
      change (list_fmap (nat * skb)%type skb snd ps) with (ps.*2) in *.
      revert IH; destruct (prepare_all r ps.*2) as [[up down] r']; intros IH; destruct IH as (p' & fs' & Ht & Hp' & Hr & Hdl & Hfr & Hpk).
      exists p', fs'; rewrite Hdl, Hfr, <- app_assoc; split_and!; try done; exact Ht.
Qed.

(** ** The checks of a frame *)

(** The error bits that let a frame through. *)
Definition allowed_errors : Z :=
  if monitor then Z.lor (Z.lor ATH9K_RXERR_DECRYPT ATH9K_RXERR_MIC) ATH9K_RXERR_CRC else Z.lor ATH9K_RXERR_DECRYPT ATH9K_RXERR_MIC.

Lemma bit_set_pow x n : 0 <= n -> bit_set x (2 ^ n) = Z.testbit x n.
Proof.
  intros Hn; unfold bit_set; destruct (Z.eqb_spec (Z.land x (2 ^ n)) 0) as [E|E]; simpl.
  - symmetry; pose proof (f_equal (fun z => Z.testbit z n) E) as Hb; simpl in Hb.
    rewrite Z.land_spec, Z.pow2_bits_true, andb_true_r, Z.testbit_0_l in Hb by done; done.
  - symmetry; apply not_false_is_true; intros Hb; apply E; bits_ext i; rewrite Z.testbit_0_l, Z.pow2_bits_eqb by done.
    destruct (Z.eqb_spec n i) as [->|]; [by rewrite Hb | apply andb_false_r].
Qed.

Lemma bit_set_mono x m m' : Z.land m m' = m -> bit_set x m = true -> bit_set x m' = true.
Proof.
  unfold bit_set; rewrite !negb_true_iff, !Z.eqb_neq; intros Hm Hx H; apply Hx.
  by rewrite <- Hm, (Z.land_comm m), Z.land_assoc, H, Z.land_0_l.
Qed.

(** What the error handling lets through, and the flags it sets. *)
Lemma rx_errors_spec fc status :
  match rx_errors fc status with
  | None => bit_set status (Z.lnot allowed_errors) = true
  | Some (f, status') =>
      bit_set status (Z.lnot allowed_errors) = false /\
      bit_set status' ATH9K_RXERR_DECRYPT = bit_set status ATH9K_RXERR_DECRYPT /\
      f = Z.lor (if bit_set status ATH9K_RXERR_CRC then RX_FLAG_FAILED_FCS_CRC else 0)
            (if negb (bit_set status ATH9K_RXERR_DECRYPT) && bit_set status ATH9K_RXERR_MIC && negb (ieee80211_is_ctl fc)
             then RX_FLAG_MMIC_ERROR else 0)
  end.
Proof.
  unfold rx_errors; destruct (Z.eqb_spec status 0) as [->|]; cbn [negb]; [done|].
  fold allowed_errors.
  destruct (bit_set status ATH9K_RXERR_PHY) eqn:Ep.
  { eapply bit_set_mono; [|exact Ep]; unfold allowed_errors; by destruct monitor. }
  assert (Hc : bit_set (Z.land status (Z.lnot ATH9K_RXERR_MIC)) (Z.lnot allowed_errors) = bit_set status (Z.lnot allowed_errors)).
  { unfold bit_set; rewrite <- Z.land_assoc; do 3 f_equal; unfold allowed_errors; by destruct monitor. }
  assert (Hx : bit_set (Z.land status (Z.lnot ATH9K_RXERR_MIC)) ATH9K_RXERR_DECRYPT = bit_set status ATH9K_RXERR_DECRYPT).
  { unfold bit_set; rewrite <- Z.land_assoc; done. }
  destruct (bit_set status ATH9K_RXERR_DECRYPT) eqn:Ed; simpl.
  - destruct (bit_set status (Z.lnot allowed_errors)) eqn:E; [done|]; rewrite Z.lor_0_r; done.
  - destruct (bit_set status ATH9K_RXERR_MIC) eqn:Em; simpl.
    + destruct (ieee80211_is_ctl fc); simpl; [rewrite Hc|];
        (destruct (bit_set status (Z.lnot allowed_errors)) eqn:E; [done|]); rewrite ?Z.lor_0_r; done.
    + destruct (bit_set status (Z.lnot allowed_errors)) eqn:E; [done|]; rewrite Z.lor_0_r; done.
Qed.

Lemma low_bits x n : 0 <= n < 8 -> Z.land x 0xff = 0 -> Z.testbit x n = false.
Proof.
  intros Hn H; apply (f_equal (fun z => Z.testbit z n)) in H; rewrite Z.land_spec, Z.testbit_0_l in H.
  change 0xff with (Z.ones 8) in H; rewrite Z.ones_spec_low, andb_true_r in H by lia; done.
Qed.

(** A rate adds none of the flags below bit 8. *)
Lemma find_rate_flag i l r x : find_rate i l r = Some x -> x.2 = 0 \/ x.2 = RX_FLAG_SHORTPRE.
Proof.
  revert i; induction l as [|[a b] l IH]; intros i; simpl; [done|].
  destruct (a =? r); [intros [= <-]; by left|]; destruct (b =? r); [intros [= <-]; by right|]; apply IH.
Qed.

Lemma rate_flag_bits rate flags n : 0 <= n < 8 -> Z.testbit (ath9k_process_rate chan_band rate flags).2 n = false.
Proof.
  intros Hn; unfold ath9k_process_rate; destruct (bit_set rate 0x80); simpl.
  - apply low_bits; [done|].
    by destruct (bit_set flags ATH9K_RX_2040), (bit_set flags ATH9K_RX_GI).
  - destruct (find_rate 0 (band_bitrates chan_band) rate) as [x|] eqn:E; [|apply Z.testbit_0_l].
    destruct (find_rate_flag _ _ _ _ E) as [->| ->]; [apply Z.testbit_0_l|].
    apply low_bits; done.
Qed.

(** The frame as mac80211 gets it. *)
Definition rx_frame (s : skb) : list Z :=
  let d := drop HTC_RX_FRAME_HEADER_SIZE (data s) in remove_padding (frame_control (d ++ tail s)) d.

(** The whole check of a frame by its parts. *)
Lemma rx_prepare_spec r s :
  let st := data s in
  let fc := frame_control (drop HTC_RX_FRAME_HEADER_SIZE st ++ tail s) in
  let hdrlen := ieee80211_get_hdrlen_from_skb (drop HTC_RX_FRAME_HEADER_SIZE st) in
  match ath9k_rx_prepare r s with
  | (None, r') => r' = r /\ ~ ((HTC_RX_FRAME_HEADER_SIZE <= length st)%nat /\
      rs_datalen st = Z.of_nat (length st - HTC_RX_FRAME_HEADER_SIZE) /\ bit_set (rs_status st) (Z.lnot allowed_errors) = false)
  | (Some (s', x), r') =>
      ((HTC_RX_FRAME_HEADER_SIZE <= length st)%nat /\
       rs_datalen st = Z.of_nat (length st - HTC_RX_FRAME_HEADER_SIZE) /\ bit_set (rs_status st) (Z.lnot allowed_errors) = false) /\
      data s' = rx_frame s /\
      Z.testbit (flag x) 0 = (negb (bit_set (rs_status st) ATH9K_RXERR_DECRYPT) && bit_set (rs_status st) ATH9K_RXERR_MIC && negb (ieee80211_is_ctl fc)) /\
      Z.testbit (flag x) 1 = hw_decrypted fc (rs_status st) (rs_keyix st) hdrlen (rx_frame s) /\
      Z.testbit (flag x) 5 = bit_set (rs_status st) ATH9K_RXERR_CRC /\
      signal x = (rx_rssi (last_rssi r) (rs_rssi st) (rs_moreaggr st)).2 + ATH_DEFAULT_NOISE_FLOOR /\
      last_rssi r' = (rx_rssi (last_rssi r) (rs_rssi st) (rs_moreaggr st)).1
  end.
Proof.
  cbv zeta; unfold ath9k_rx_prepare.
  destruct (Nat.ltb_spec (length (data s)) HTC_RX_FRAME_HEADER_SIZE); [split; [done|intros (? & _); lia]|].
  destruct (Z.eqb_spec (rs_datalen (data s)) (Z.of_nat (length (data s) - HTC_RX_FRAME_HEADER_SIZE))) as [Hdl|]; cbn [negb];
    [|split; [done|by intros (_ & ? & _)]].
  fold (rx_frame s).
  set (fc := frame_control _); pose proof (rx_errors_spec fc (rs_status (data s))) as He.
  destruct (rx_errors fc (rs_status (data s))) as [[f status]|]; [|split; [done|intros (_ & _ & ?); congruence]].
  destruct He as (Hok & Hdec & ->).
  pose proof (rate_flag_bits (rs_rate (data s)) (rs_flags (data s))) as Hr.
  destruct (ath9k_process_rate chan_band (rs_rate (data s)) (rs_flags (data s))) as [idx rf]; cbn [snd] in Hr.
  destruct (rx_rssi (last_rssi r) (rs_rssi (data s)) (rs_moreaggr (data s))) as [last rssi]; cbn [data flag signal last_rssi fst snd].
  assert (Hh : forall h d, hw_decrypted fc status (rs_keyix (data s)) h d = hw_decrypted fc (rs_status (data s)) (rs_keyix (data s)) h d).
  { intros; unfold hw_decrypted; by rewrite Hdec. }
  rewrite Hh; split_and!; try done;
    rewrite !Z.lor_spec, Hr by lia; destruct (hw_decrypted _ _ _ _ _);
    rewrite ?Z.lor_spec; repeat case_match; done.
Qed.

Lemma quot_bounds a b lo hi : 0 < b -> 0 <= hi -> lo * b <= a < (hi + 1) * b -> lo <= Z.quot a b <= hi.
Proof.
  intros Hb Hh [H1 H2]; split.
  - apply Z.quot_le_mono with (c := b) in H1; [|done]; rewrite Z.quot_mul in H1 by lia; done.
  - destruct (Z.leb_spec 0 a).
    + apply Z.lt_succ_r, Z.quot_lt_upper_bound; lia.
    + pose proof (Z.quot_le_mono a 0 b); rewrite Z.quot_0_l in *; lia.
Qed.

Lemma rx_rssi_bounds last rssi moreaggr : -2560 <= last <= 16256 -> -128 <= rssi <= 127 ->
  -2560 <= (rx_rssi last rssi moreaggr).1 <= 16256 /\ 0 <= (rx_rssi last rssi moreaggr).2 <= 127.
Proof.
  intros Hl Hr.
  assert (Hn : -2560 <= (rx_rssi last rssi moreaggr).1 <= 16256).
  { unfold rx_rssi; simpl; destruct (negb _ && _); [|done].
    unfold ATH_RSSI_LPF, ATH_LPF_RSSI, ATH_RSSI_IN, ATH_RSSI_LPF_LEN, RSSI_LPF_THRESHOLD, ATH_RSSI_EP_MULTIPLIER.
    destruct (Z.leb_spec (-20) rssi); [|done]; destruct (negb _); [apply quot_bounds|]; lia. }
  split; [done|]; unfold rx_rssi in *; simpl in *.
  set (l := if negb _ && _ then _ else _) in *.
  assert (Hq : -20 <= ATH_EP_RND l ATH_RSSI_EP_MULTIPLIER <= 127).
  { unfold ATH_EP_RND, ATH_RSSI_EP_MULTIPLIER; destruct (Z.quot 128 2 <=? Z.rem l 128); apply quot_bounds; lia. }
  assert (Hs : s8 (ATH_EP_RND l ATH_RSSI_EP_MULTIPLIER) = ATH_EP_RND l ATH_RSSI_EP_MULTIPLIER) by (unfold s8; rewrite Z.mod_small; lia).
  rewrite Hs; destruct (negb (l =? ATH_RSSI_DUMMY_MARKER)); repeat case_match; lia.
Qed.

(** ** Properties of the receive path *)

(** C35: Under any interleaving of one receiver and the tasklet the receive buffers implement a first-in first-out queue of at most 256 frames: the same steps are possible, the same frames are freed, and those delivered are the same in the same order. *)
Theorem rx_pool_refines_queue (r : rx) (ops : list op) :
  abs <$> run (fresh r) ops = qrun (Queue [] r None false [] []) ops.
Proof.
  pose proof (run_refines ops (fresh r) _ _ (fresh_ok r)) as H.
  assert (E : abs (fresh r) = Queue [] r None false [] []).
  { unfold abs; rewrite (proj1 (fresh_ok r)), held_layout; done. }
  rewrite E in H; destruct (run (fresh r) ops); [destruct H as [-> _]|rewrite H]; done.
Qed.

(** In any reachable state between two deliveries the tasklet ends after as many turns as frames are pending: it delivers those that pass the checks in order, frees the others, and leaves no frame behind. *)
Theorem rx_tasklet_terminates (r : rx) (ops : list op) (p : pool) (fuel : nat)
    (Hrun : run (fresh r) ops = Some p) (Hd : delivering p = None) (Hf : (length (held (bufs p)) < fuel)%nat) :
  let '(up, down, r') := prepare_all (rxs p) (held (bufs p)) in
  exists p', ath9k_rx_tasklet fuel p = Some p' /\ held (bufs p') = [] /\ rxs p' = r' /\
    delivered p' = delivered p ++ up /\ freed p' = freed p ++ down.
Proof.
  pose proof (run_refines ops (fresh r) _ _ (fresh_ok r)) as H; rewrite Hrun in H; destruct H as (_ & ps & fs & Hok).
  pose proof (proj1 Hok) as Hb; rewrite Hb, held_layout in *; rewrite length_fmap in Hf.
  pose proof (tasklet_drains fuel p ps fs Hok Hd Hf) as HH.
  revert HH; destruct (prepare_all (rxs p) ps.*2) as [[up down] r']; intros HH; destruct HH as (p' & fs' & H1 & (Hb' & _) & H2 & H3 & H4 & _).
  exists p'; rewrite Hb', held_layout; done.
Qed.

(** A frame is handed up exactly when it has a whole status header, the length in that header is its own, and its error bits are at most decryption and MIC failures, or also a bad checksum on a monitor interface. *)
Theorem rx_prepare_accepts_iff (r : rx) (s : skb) :
  is_Some (ath9k_rx_prepare r s).1 <->
  (HTC_RX_FRAME_HEADER_SIZE <= length (data s))%nat /\
  rs_datalen (data s) = Z.of_nat (length (data s) - HTC_RX_FRAME_HEADER_SIZE) /\
  bit_set (rs_status (data s)) (Z.lnot allowed_errors) = false.
Proof.
  pose proof (rx_prepare_spec r s) as H; cbv zeta in H.
  destruct (ath9k_rx_prepare r s) as [[[s' x]|] r']; simpl.
  - split; [intros _; apply H | intros _; by eexists].
  - split; [by intros [? [=]] | intros Hc; by destruct (proj2 H)].
Qed.

(** A frame handed up carries a Michael error flag exactly when the hardware reports one, no decryption error, and it is not a control frame; a checksum flag exactly when the hardware reports that; it is marked as decrypted only if there was no decryption error. *)
Theorem rx_prepare_flags (r : rx) (s s' : skb) (x : rx_status) (r' : rx) (H : ath9k_rx_prepare r s = (Some (s', x), r')) :
  let fc := frame_control (drop HTC_RX_FRAME_HEADER_SIZE (data s) ++ tail s) in
  let err := bit_set (rs_status (data s)) in
  (bit_set (flag x) RX_FLAG_MMIC_ERROR = true <->
     err ATH9K_RXERR_MIC = true /\ err ATH9K_RXERR_DECRYPT = false /\ ieee80211_is_ctl fc = false) /\
  bit_set (flag x) RX_FLAG_FAILED_FCS_CRC = err ATH9K_RXERR_CRC /\
  (bit_set (flag x) RX_FLAG_DECRYPTED = true -> err ATH9K_RXERR_DECRYPT = false).
Proof.
  intros fc err; pose proof (rx_prepare_spec r s) as Hs; cbv zeta in Hs; rewrite H in Hs.
  destruct Hs as (_ & _ & H0 & H1 & H5 & _ & _); unfold RX_FLAG_MMIC_ERROR, RX_FLAG_FAILED_FCS_CRC, RX_FLAG_DECRYPTED.
  rewrite !bit_set_pow by lia; rewrite H0, H1, H5; fold fc; unfold err; split_and!; [|done|].
  - rewrite !andb_true_iff, !negb_true_iff; tauto.
  - unfold hw_decrypted; by destruct (bit_set (rs_status (data s)) ATH9K_RXERR_DECRYPT).
Qed.

(** A frame with the padding the target puts between header and body comes out as header and body. *)
Theorem rx_unpads_frame (r : rx) (st hdr pad body tl : list Z)
    (Hst : length st = HTC_RX_FRAME_HEADER_SIZE) (Hh : Z.of_nat (length hdr) = HtcTx.ath9k_cmn_padpos (frame_control hdr))
    (Hp : Z.of_nat (length pad) = Z.land (Z.of_nat (length hdr)) 3) (Hb : (4 <= length body)%nat)
    (Hlen : rs_datalen st = Z.of_nat (length hdr + length pad + length body)) (Herr : rs_status st = 0) :
  exists x r', ath9k_rx_prepare r (Skb (st ++ hdr ++ pad ++ body) tl) = (Some (Skb (hdr ++ body) tl, x), r').
Proof.
  set (s := Skb (st ++ hdr ++ pad ++ body) tl); pose proof (rx_prepare_spec r s) as H; cbv zeta in H.
  assert (Hpos : 24 <= HtcTx.ath9k_cmn_padpos (frame_control hdr)).
  { unfold HtcTx.ath9k_cmn_padpos, IEEE80211_QOS_CTL_LEN; repeat case_match; lia. }
  assert (Hf : forall i l, (i < 40)%nat -> (st ++ l).[i] = st.[i]).
  { intros i l Hi; unfold byte_at; rewrite !nth_lookup, lookup_app_l by (rewrite Hst; done); done. }
  assert (Hd : drop HTC_RX_FRAME_HEADER_SIZE (st ++ hdr ++ pad ++ body) = hdr ++ pad ++ body).
  { rewrite drop_app_length'; done. }
  assert (Hfc : forall l, frame_control (hdr ++ l) = frame_control hdr).
  { intros l; unfold frame_control, get_le16, byte_at; rewrite !nth_lookup, !lookup_app_l by lia; done. }
  assert (Hdl : rs_datalen (data s) = rs_datalen st).
  { unfold rs_datalen, get_be16; simpl; rewrite !Hf by lia; done. }
  assert (Hs0 : rs_status (data s) = 0) by (unfold rs_status; simpl; rewrite Hf by lia; exact Herr).
  assert (Hfr : rx_frame s = hdr ++ body).
  { unfold rx_frame; simpl; rewrite Hd, <- app_assoc, Hfc; unfold remove_padding; rewrite <- Hh, <- Hp.
    rewrite <- Nat2Z.inj_add, !Nat2Z.id, !length_app.
    destruct (Z.eqb_spec (Z.of_nat (length pad)) 0) as [E|E]; simpl; [destruct pad; [done|simpl in E; lia]|].
    destruct (Z.leb_spec (Z.of_nat (length hdr + length pad) + FCS_LEN) (Z.of_nat (length hdr + (length pad + length body))));
      [|unfold FCS_LEN in *; lia].
    rewrite take_app_length; f_equal; rewrite app_assoc, drop_app_length'; [done | by rewrite length_app]. }
  destruct (ath9k_rx_prepare r s) as [[[s' x]|] r'] eqn:E.
  - destruct H as (_ & Hd' & _); exists x, r'; do 3 f_equal.
    assert (Ht : tail s' = tl).
    { unfold ath9k_rx_prepare in E; repeat case_match; by simplify_eq. }
    destruct s'; simpl in *; by rewrite Hd', Hfr, Ht.
  - destruct (proj2 H); rewrite Hdl, Hs0; simpl; split_and!; [rewrite length_app; lia | | done].
    rewrite Hlen, !length_app, Hst; f_equal; lia.
Qed.

(** The signal strength reported stays between -95 and 32 dBm, whatever the target reports. *)
Theorem rx_signal_bounds (r : rx) (s s' : skb) (x : rx_status) (r' : rx)
    (Hr : -2560 <= last_rssi r <= 16256) (H : ath9k_rx_prepare r s = (Some (s', x), r')) :
  -95 <= signal x <= 32 /\ -2560 <= last_rssi r' <= 16256.
Proof.
  pose proof (rx_prepare_spec r s) as Hs; cbv zeta in Hs; rewrite H in Hs; destruct Hs as (_ & _ & _ & _ & _ & -> & ->).
  pose proof (rx_rssi_bounds (last_rssi r) (rs_rssi (data s)) (rs_moreaggr (data s)) Hr) as [Hb1 Hb2].
  { unfold rs_rssi, s8; arith. }
  unfold ATH_DEFAULT_NOISE_FLOOR; lia.
Qed.

End Receive.

(** The padding the transmit path puts behind a header is what the receive path removes, for a body of at least four bytes. *)
Theorem tx_padding_undone (headroom : Z) (d d' : list Z)
    (H : HtcTx.pad_header headroom d = Some d') (Hl : HtcTx.ath9k_cmn_padpos (frame_control d) + 4 <= Z.of_nat (length d)) :
  remove_padding (frame_control d') d' = d.
Proof.
  set (fc := frame_control d) in *.
  assert (Hpos : 24 <= HtcTx.ath9k_cmn_padpos fc).
  { unfold HtcTx.ath9k_cmn_padpos, IEEE80211_QOS_CTL_LEN; repeat case_match; lia. }
  unfold HtcTx.pad_header in H; fold fc in H; unfold remove_padding.
  set (pp := HtcTx.ath9k_cmn_padpos fc) in *.
  assert (Hps : 0 <= Z.land pp 3 < 4) by (change 3 with (Z.ones 2); rewrite Z.land_ones by lia; arith).
  destruct (Z.eqb_spec (Z.land pp 3) 0) as [E|E]; cbn [negb andb] in H.
  - injection H as <-; fold fc pp; rewrite E; done.
  - destruct (Z.ltb_spec pp (Z.of_nat (length d))); [|lia].
    destruct (headroom <? Z.land pp 3); [done|]; injection H as <-.
    assert (Hfc : frame_control (take (Z.to_nat pp) d ++ drop (Z.to_nat (pp - Z.land pp 3)) d) = fc).
    { unfold fc, frame_control, get_le16, byte_at; rewrite !nth_lookup.
      rewrite !lookup_app_l, !lookup_take_lt by (rewrite ?length_take; lia); done. }
    rewrite Hfc; fold pp; destruct (Z.eqb_spec (Z.land pp 3) 0); [lia|]; cbn [negb andb].
    rewrite length_app, length_take, length_drop; unfold FCS_LEN.
    destruct (Z.leb_spec (pp + Z.land pp 3 + 4) (Z.of_nat (Z.to_nat pp `min` length d + (length d - Z.to_nat (pp - Z.land pp 3))))); [|lia].
    rewrite take_app_length' by (rewrite length_take; lia).
    rewrite drop_app_ge, drop_drop, length_take by (rewrite length_take; lia).
    replace (Z.to_nat (pp - Z.land pp 3) + (Z.to_nat (pp + Z.land pp 3) - Z.to_nat pp `min` length d))%nat with (Z.to_nat pp) by lia.
    apply take_drop.
Qed.

(** A QoS data frame to the access point. *)
Definition demo_hdr : list Z := [0x88; 0x01; 0; 0] ++ repeat 2 20 ++ [0; 0].
Definition demo_status (len err : Z) : list Z :=
  [0; 0; 0; 0; 0; 0; 0; 9; 0; len; err; 0; 30; 0; 0; 0; 0; 0; 0; 255; 0x0b; 1; 0; 0; 0; 0; 0; 0] ++ repeat 0 12.
Definition demo_frame : skb := Skb (demo_status 36 0 ++ demo_hdr ++ [0; 0] ++ [1; 2; 3; 4; 5; 6; 7; 8]) [].
Definition rx0 : rx := ath9k_host_rx_init (Rx 0 0).

Lemma tx_padding_undone_witness :
  HtcTx.pad_header 128 (demo_hdr ++ [1; 2; 3; 4; 5; 6; 7; 8]) = Some (demo_hdr ++ [0; 0] ++ [1; 2; 3; 4; 5; 6; 7; 8]) /\
  remove_padding 0x0188 (demo_hdr ++ [0; 0] ++ [1; 2; 3; 4; 5; 6; 7; 8]) = demo_hdr ++ [1; 2; 3; 4; 5; 6; 7; 8].
Proof.
  split; [reflexivity|].
  exact (tx_padding_undone 128 (demo_hdr ++ [1; 2; 3; 4; 5; 6; 7; 8]) (demo_hdr ++ [0; 0] ++ [1; 2; 3; 4; 5; 6; 7; 8]) eq_refl ltac:(by_eval)).
Defined.

Definition demo_rx (r : rx) (s : skb) : option (skb * rx_status) * rx := ath9k_rx_prepare false (fun _ => false) 0 2412 r s.
Definition demo_out : skb * rx_status :=
  (Skb (demo_hdr ++ [1; 2; 3; 4; 5; 6; 7; 8]) [], Status 9 0 2412 (-65) 1 4 RX_FLAG_MACTIME_END).

Lemma rx_prepare_flags_witness : demo_rx rx0 demo_frame = (Some demo_out, Rx 3840 0) /\
  bit_set (flag demo_out.2) RX_FLAG_FAILED_FCS_CRC = false.
Proof.
  split; [reflexivity|].
  exact (proj1 (proj2 (rx_prepare_flags false (fun _ => false) 0 2412 rx0 demo_frame demo_out.1 demo_out.2 (Rx 3840 0) eq_refl))).
Defined.

Lemma rx_unpads_frame_witness : exists x r', demo_rx rx0 demo_frame = (Some (Skb (demo_hdr ++ [1; 2; 3; 4; 5; 6; 7; 8]) [], x), r').
Proof.
  exact (rx_unpads_frame false (fun _ => false) 0 2412 rx0 (demo_status 36 0) demo_hdr [0; 0] [1; 2; 3; 4; 5; 6; 7; 8] []
    eq_refl eq_refl eq_refl ltac:(by_eval) eq_refl eq_refl).
Defined.

Lemma rx_signal_bounds_witness : -95 <= signal demo_out.2 <= 32.
Proof.
  exact (proj1 (rx_signal_bounds false (fun _ => false) 0 2412 rx0 demo_frame demo_out.1 demo_out.2 (Rx 3840 0) ltac:(by_eval) eq_refl)).
Defined.

(** Two good frames and one with a bad checksum wait. *)
Definition demo_ops : list op :=
  [Pick demo_frame; Fill; Pick (Skb (demo_status 0 1) [0; 0]); Fill; Pick demo_frame; Fill].

Definition demo_pool : pool :=
  match run false (fun _ => false) 0 2412 (fresh rx0) demo_ops with Some p => p | None => fresh rx0 end.

Lemma rx_tasklet_terminates_witness :
  exists p', ath9k_rx_tasklet false (fun _ => false) 0 2412 4 demo_pool = Some p' /\ held (bufs p') = [] /\
    length (delivered p') = 2%nat /\ freed p' = [Skb (demo_status 0 1) [0; 0]].
Proof.
  destruct (rx_tasklet_terminates false (fun _ => false) 0 2412 rx0 demo_ops demo_pool 4
    ltac:(vm_compute; reflexivity) ltac:(vm_compute; reflexivity) ltac:(vm_compute; lia)) as (p' & H1 & H2 & _ & H3 & H4).
  exists p'; split; [exact H1|]; split; [exact H2|]; rewrite H3, H4; split; vm_compute; reflexivity.
Defined.

(** The filter uses the value 0x127 for "no value yet", but it is also an
    average the filter can reach: the next frame then starts it anew. *)
Example rssi_marker_is_a_value :
  let lpf l y := (rx_rssi l y 0).1 in
  let last := lpf (lpf (lpf ATH_RSSI_DUMMY_MARKER (-5)) 54) 15 in
  last = ATH_RSSI_DUMMY_MARKER /\ lpf last 60 = ATH_RSSI_IN 60 /\ lpf (last - 1) 60 = 1032.
Proof. vm_compute; done. Qed.

(** With no bytes behind the status header the frame control field is read
    from behind the frame, and the empty frame is handed up. *)
Example rx_empty_frame_reads_behind :
  (demo_rx rx0 (Skb (demo_status 0 0) [0x80; 0])).2 <> (demo_rx rx0 (Skb (demo_status 0 0) [0x08; 0])).2 /\
  (fun o => data o.1) <$> (demo_rx rx0 (Skb (demo_status 0 0) [0x08; 0])).1 = Some [].
Proof. vm_compute; done. Qed.

End HtcRx.
