(* ===== verification/HtcSta.v ===== *)
(** * Interfaces and stations of ath9k_htc

    [drivers/net/wireless/ath/ath9k/htc_drv_main.c] and the beacon slots of
    [htc_drv_beacon.c].  The driver keeps small bitmaps and tables of the
    interfaces and stations it has created on the target; each change is a
    command to the target ([Wmi]), whose result is an argument here.  The
    commands are recorded with their results, and [target] is what the target
    then holds.  Operations run under the mutex of the driver.  Hardware
    registers, power save and ANI are left out. *)

From S2P Require Import Prelude.

Module HtcSta.

Definition EOPNOTSUPP : Z := 95.
Definition ENOBUFS : Z := 105.
Definition EINVAL : Z := 22.
Definition ATH9K_HTC_MAX_VIF : Z := 2.
Definition ATH9K_HTC_MAX_STA : Z := 8.
Definition ATH9K_HTC_MAX_BCN_VIF : nat := 2.
Definition ATH9K_HTC_MAX_TID : Z := 8.
Definition ATH_HTC_RATE_MAX : nat := 30.
Definition HTC_M_STA : Z := 1.
Definition HTC_M_IBSS : Z := 0.
Definition HTC_M_HOSTAP : Z := 6.
Definition HTC_M_MONITOR : Z := 8.
Definition IEEE80211_HT_MAX_AMPDU_FACTOR : Z := 13.

Inductive iftype := STATION | ADHOC | AP | MONITOR | OTHER.

#[global] Instance iftype_eq_dec : EqDecision iftype.
Proof. solve_decision. Defined.

(** ** Commands *)

(** The commands, with the fields other than addresses. *)
Inductive cmd :=
| VapCreate (opmode index : Z)
| VapRemove (index : Z)
| NodeCreate (sta_index vif_index : Z) (is_vif_sta : bool) (maxampdu : Z)
| NodeRemove (sta_index : Z)
| TxAggr (sta_index tidno : Z) (enable : bool).

(** The interfaces and stations of the target. *)
Definition apply_cmd (s : list Z * list Z) (c : cmd * Z) : list Z * list Z :=
  if c.2 =? 0 then
    match c.1 with
    | VapCreate _ i => (s.1 ++ [i], s.2)
    | VapRemove i => (filter (fun j => j <> i) s.1, s.2)
    | NodeCreate i _ _ _ => (s.1, s.2 ++ [i])
    | NodeRemove i => (s.1, filter (fun j => j <> i) s.2)
    | TxAggr _ _ _ => s
    end
  else s.
Definition target (cmds : list (cmd * Z)) : list Z * list Z := foldl apply_cmd ([], []) cmds.

(** ** State *)

(** [struct ath9k_htc_vif] with the type of its interface; [vif_id] stands for
    the address of the interface. *)
Record avp := Avp { vif_id : nat; vif_type : iftype; index : Z; avp_bslot : nat }.

Record priv := Priv { vif_slot : Z; mon_vif_idx : Z; sta_slot : Z; vif_sta_pos : list Z;
  num_ibss_vif : Z; num_sta_vif : Z; num_ap_vif : Z; nvifs : Z; nstations : Z;
  opmode : iftype; is_monitoring : bool; bslot : list (option nat); cmds : list (cmd * Z) }.

(** An access to [vif_sta_pos] outside the array. *)
Inductive fault := PosOutOfRange.

Definition set_vifs (p : priv) (slot n : Z) : priv :=
  Priv slot (mon_vif_idx p) (sta_slot p) (vif_sta_pos p) (num_ibss_vif p) (num_sta_vif p) (num_ap_vif p) n (nstations p)
    (opmode p) (is_monitoring p) (bslot p) (cmds p).
Definition set_stas (p : priv) (slot n : Z) : priv :=
  Priv (vif_slot p) (mon_vif_idx p) slot (vif_sta_pos p) (num_ibss_vif p) (num_sta_vif p) (num_ap_vif p) (nvifs p) n
    (opmode p) (is_monitoring p) (bslot p) (cmds p).
Definition set_pos (p : priv) (pos : list Z) : priv :=
  Priv (vif_slot p) (mon_vif_idx p) (sta_slot p) pos (num_ibss_vif p) (num_sta_vif p) (num_ap_vif p) (nvifs p) (nstations p)
    (opmode p) (is_monitoring p) (bslot p) (cmds p).
Definition set_mon (p : priv) (i : Z) (b : bool) : priv :=
  Priv (vif_slot p) i (sta_slot p) (vif_sta_pos p) (num_ibss_vif p) (num_sta_vif p) (num_ap_vif p) (nvifs p) (nstations p)
    (opmode p) b (bslot p) (cmds p).
Definition set_counts (p : priv) (ibss sta ap : Z) : priv :=
  Priv (vif_slot p) (mon_vif_idx p) (sta_slot p) (vif_sta_pos p) ibss sta ap (nvifs p) (nstations p)
    (opmode p) (is_monitoring p) (bslot p) (cmds p).
Definition set_mode (p : priv) (m : iftype) : priv :=
  Priv (vif_slot p) (mon_vif_idx p) (sta_slot p) (vif_sta_pos p) (num_ibss_vif p) (num_sta_vif p) (num_ap_vif p) (nvifs p) (nstations p)
    m (is_monitoring p) (bslot p) (cmds p).
Definition set_bslots (p : priv) (b : list (option nat)) : priv :=
  Priv (vif_slot p) (mon_vif_idx p) (sta_slot p) (vif_sta_pos p) (num_ibss_vif p) (num_sta_vif p) (num_ap_vif p) (nvifs p) (nstations p)
    (opmode p) (is_monitoring p) b (cmds p).
Definition wmi_cmd (p : priv) (c : cmd) (r : Z) : priv :=
  Priv (vif_slot p) (mon_vif_idx p) (sta_slot p) (vif_sta_pos p) (num_ibss_vif p) (num_sta_vif p) (num_ap_vif p) (nvifs p) (nstations p)
    (opmode p) (is_monitoring p) (bslot p) (cmds p ++ [(c, r)]).

(** [ffz] of an octet: the position of the first zero bit. *)
Fixpoint ffz_from (n : nat) (i : Z) (w : Z) : Z :=
  match n with
  | O => i
  | S n => if Z.testbit w i then ffz_from n (i + 1) w else i
  end.
Definition ffz (w : Z) : Z := ffz_from 8 0 w.

Definition set_slot (w i : Z) : Z := u8 (Z.lor w (Z.shiftl 1 i)).
Definition clear_slot (w i : Z) : Z := u8 (Z.land w (Z.lnot (Z.shiftl 1 i))).

(** [vif_sta_pos[i]]. *)
Definition get_pos (p : priv) (i : Z) : option Z := vif_sta_pos p !! Z.to_nat i.
Definition put_pos (p : priv) (i sta : Z) : option priv :=
  if (Z.to_nat i <? length (vif_sta_pos p))%nat then Some (set_pos p (<[Z.to_nat i := sta]> (vif_sta_pos p))) else None.

(** ** Stations *)

(** [sta] is [None] for the station of an interface itself, and the A-MPDU
    factor of a peer.  The result is the code, the state and the index. *)
Definition ath9k_htc_add_station (p : priv) (avp_index : Z) (sta : option Z) (r : Z) : sum fault (Z * priv * Z) :=
  if ATH9K_HTC_MAX_STA <=? nstations p then inr (- ENOBUFS, p, 0)
  else
    let sta_idx := ffz (sta_slot p) in
    if (sta_idx <? 0) || (ATH9K_HTC_MAX_STA <? sta_idx) then inr (- ENOBUFS, p, 0)
    else
      let maxampdu := match sta with
                      | Some factor => u16 (Z.shiftl 1 (IEEE80211_HT_MAX_AMPDU_FACTOR + factor))
                      | None => 0xffff end in
      let p := wmi_cmd p (NodeCreate sta_idx avp_index (match sta with Some _ => false | None => true end) maxampdu) r in
      if negb (r =? 0) then inr (r, p, sta_idx)
      else
        let p := set_stas p (set_slot (sta_slot p) sta_idx) (u16 (nstations p + 1)) in
        match sta with
        | Some _ => inr (0, p, sta_idx)
        | None => match put_pos p avp_index sta_idx with Some p => inr (0, p, sta_idx) | None => inl PosOutOfRange end
        end.

Definition drop_station (p : priv) (sta_idx r : Z) : Z * priv :=
  let p := wmi_cmd p (NodeRemove sta_idx) r in
  if negb (r =? 0) then (r, p)
  else (0, set_stas p (clear_slot (sta_slot p) sta_idx) (u16 (nstations p - 1))).

(** [sta] is the index of a peer. *)
Definition ath9k_htc_remove_station (p : priv) (avp_index : Z) (sta : option Z) (r : Z) : sum fault (Z * priv) :=
  match sta with
  | Some idx => inr (drop_station p idx r)
  | None => match get_pos p avp_index with Some idx => inr (drop_station p idx r) | None => inl PosOutOfRange end
  end.

(** ** Beacon slots *)

Fixpoint free_bslot (i : nat) (l : list (option nat)) : option nat :=
  match l with
  | [] => None
  | None :: _ => Some i
  | Some _ :: l => free_bslot (S i) l
  end.

Definition ath9k_htc_assign_bslot (p : priv) (a : avp) : priv * avp :=
  let i := match free_bslot 0 (bslot p) with Some i => i | None => avp_bslot a end in
  (set_bslots p (<[i := Some (vif_id a)]> (bslot p)), Avp (vif_id a) (vif_type a) (index a) i).

Definition ath9k_htc_remove_bslot (p : priv) (a : avp) : priv := set_bslots p (<[avp_bslot a := None]> (bslot p)).

Definition beaconing (t : iftype) : bool := match t with AP | ADHOC => true | _ => false end.

(** ** Interfaces *)

Definition INC_VIF (p : priv) (t : iftype) : priv :=
  match t with
  | STATION => set_counts p (num_ibss_vif p) (u8 (num_sta_vif p + 1)) (num_ap_vif p)
  | ADHOC => set_counts p (u8 (num_ibss_vif p + 1)) (num_sta_vif p) (num_ap_vif p)
  | AP => set_counts p (num_ibss_vif p) (num_sta_vif p) (u8 (num_ap_vif p + 1))
  | _ => p
  end.
Definition DEC_VIF (p : priv) (t : iftype) : priv :=
  match t with
  | STATION => set_counts p (num_ibss_vif p) (u8 (num_sta_vif p - 1)) (num_ap_vif p)
  | ADHOC => set_counts p (u8 (num_ibss_vif p - 1)) (num_sta_vif p) (num_ap_vif p)
  | AP => set_counts p (num_ibss_vif p) (num_sta_vif p) (u8 (num_ap_vif p - 1))
  | _ => p
  end.

Definition ath9k_htc_set_opmode (p : priv) : priv :=
  set_mode p (if negb (num_ibss_vif p =? 0) then ADHOC else if negb (num_ap_vif p =? 0) then AP else STATION).

Definition target_opmode (t : iftype) : option Z :=
  match t with STATION => Some HTC_M_STA | ADHOC => Some HTC_M_IBSS | AP => Some HTC_M_HOSTAP | _ => None end.

(** [r1], [r2], [r3] are the results of the commands in the order they are
    sent. *)
Definition ath9k_htc_add_interface (p : priv) (id : nat) (t : iftype) (r1 r2 r3 : Z) : sum fault (Z * priv * avp) :=
  match target_opmode t with
  | None => inr (- EOPNOTSUPP, p, Avp id t 0 0)
  | Some m =>
      let idx := u8 (ffz (vif_slot p)) in
      let a := Avp id t idx 0 in
      let p := wmi_cmd p (VapCreate m idx) r1 in
      if negb (r1 =? 0) then inr (r1, p, a)
      else
        match ath9k_htc_add_station p idx None r2 with
        | inl f => inl f
        | inr (ret, p, _) =>
            if negb (ret =? 0) then inr (r3, wmi_cmd p (VapRemove idx) r3, a)
            else
              let p := set_vifs p (set_slot (vif_slot p) idx) (u16 (nvifs p + 1)) in
              let p := INC_VIF p t in
              let '(p, a) := if beaconing t then ath9k_htc_assign_bslot p a else (p, a) in
              inr (0, ath9k_htc_set_opmode p, a)
        end
  end.

Definition ath9k_htc_remove_interface (p : priv) (a : avp) (r1 r2 : Z) : sum fault priv :=
  let p := wmi_cmd p (VapRemove (index a)) r1 in
  let p := set_vifs p (clear_slot (vif_slot p) (index a)) (u16 (nvifs p - 1)) in
  match ath9k_htc_remove_station p (index a) None r2 with
  | inl f => inl f
  | inr (_, p) =>
      let p := DEC_VIF p (vif_type a) in
      let p := if beaconing (vif_type a) then ath9k_htc_remove_bslot p a else p in
      inr (ath9k_htc_set_opmode p)
  end.

(** ** The monitor interface *)

Definition remove_monitor_vif (p : priv) (r : Z) : priv :=
  let p := wmi_cmd p (VapRemove (mon_vif_idx p)) r in
  set_vifs p (clear_slot (vif_slot p) (mon_vif_idx p)) (u16 (nvifs p - 1)).

Definition ath9k_htc_add_monitor_interface (p : priv) (r1 r2 r3 : Z) : sum fault (Z * priv) :=
  if (ATH9K_HTC_MAX_VIF <=? nvifs p) || (ATH9K_HTC_MAX_STA <=? nstations p) then inr (- ENOBUFS, p)
  else
    let sta_idx := ffz (sta_slot p) in
    if (sta_idx <? 0) || (ATH9K_HTC_MAX_STA <? sta_idx) then inr (- ENOBUFS, p)
    else
      let idx := u8 (ffz (vif_slot p)) in
      let p := wmi_cmd p (VapCreate HTC_M_MONITOR idx) r1 in
      if negb (r1 =? 0) then inr (r1, p)
      else
        let p := set_mon p idx (is_monitoring p) in
        let p := set_vifs p (set_slot (vif_slot p) idx) (nvifs p) in
        let p := if nvifs p =? 0 then set_mode p MONITOR else p in
        let p := set_vifs p (vif_slot p) (u16 (nvifs p + 1)) in
        let p := wmi_cmd p (NodeCreate sta_idx idx true 0xffff) r2 in
        if negb (r2 =? 0) then inr (r2, remove_monitor_vif p r3)
        else
          let p := set_stas p (set_slot (sta_slot p) sta_idx) (u16 (nstations p + 1)) in
          match put_pos p (mon_vif_idx p) sta_idx with
          | None => inl PosOutOfRange
          | Some p => inr (0, set_mon p (mon_vif_idx p) true)
          end.

Definition ath9k_htc_remove_monitor_interface (p : priv) (r1 r2 : Z) : sum fault (Z * priv) :=
  let p := remove_monitor_vif p r1 in
  match get_pos p (mon_vif_idx p) with
  | None => inl PosOutOfRange
  | Some sta_idx =>
      let '(ret, p) := drop_station p sta_idx r2 in
      if negb (ret =? 0) then inr (ret, p)
      else inr (0, set_mon p (mon_vif_idx p) false)
  end.

(** The part of [ath9k_htc_config] that adds and removes it. *)
Definition config_monitor (p : priv) (changed monitor : bool) (r1 r2 r3 : Z) : sum fault priv :=
  if changed then
    if monitor && negb (is_monitoring p) then
      match ath9k_htc_add_monitor_interface p r1 r2 r3 with inl f => inl f | inr (_, p) => inr p end
    else if is_monitoring p then
      match ath9k_htc_remove_monitor_interface p r1 r2 with inl f => inl f | inr (_, p) => inr p end
    else inr p
  else inr p.

(** ** Rates and aggregation *)

(** The rates of a band are in units of 100 kbit/s; [supp] are the bits of the
    rates the station supports.  A write behind the 30 rates is [None]. *)
Definition store_rate (rates : list Z) (r : Z) : option (list Z) :=
  if (length rates <? ATH_HTC_RATE_MAX)%nat then Some (rates ++ [u8 r]) else None.

Fixpoint legacy_rates (bitrates : list Z) (i : Z) (supp : Z) (rates : list Z) : option (list Z) :=
  match bitrates with
  | [] => Some rates
  | b :: bitrates =>
      if Z.testbit supp i then
        match store_rate rates (Z.quot (b * 2) 10) with
        | Some rates => legacy_rates bitrates (i + 1) supp rates
        | None => None
        end
      else legacy_rates bitrates (i + 1) supp rates
  end.

(** [n] turns are left, from MCS [i] on. *)
Fixpoint ht_rates (n : nat) (i : Z) (rx_mask : list Z) (rates : list Z) : option (list Z) :=
  match n with
  | O => Some rates
  | S n =>
      match (if bit_set (rx_mask.[Z.to_nat (i / 8)]) (Z.shiftl 1 (i mod 8)) then store_rate rates i else Some rates) with
      | None => None
      | Some rates => if (length rates =? ATH_HTC_RATE_MAX)%nat then Some rates else ht_rates n (i + 1) rx_mask rates
      end
  end.

Record ht_cap := HtCap { cap : Z; rx_mask : list Z }.
Record target_rate := TargetRate { tr_sta_index : Z; capflags : Z; legacy : list Z; ht : list Z }.

Definition WLAN_RC_DS_FLAG : Z := 0x01.
Definition WLAN_RC_40_FLAG : Z := 0x02.
Definition WLAN_RC_SGI_FLAG : Z := 0x04.
Definition WLAN_RC_HT_FLAG : Z := 0x08.

(** [ht] is the HT capability of a station that has one; [ht20] and [ht40] say
    what the channel is. *)
Definition ht_caps (h : ht_cap) (ht20 ht40 : bool) : Z :=
  let caps := WLAN_RC_HT_FLAG in
  let caps := if negb ((rx_mask h).[1] =? 0) then Z.lor caps WLAN_RC_DS_FLAG else caps in
  let caps := if bit_set (cap h) 0x0002 && ht40 then Z.lor caps WLAN_RC_40_FLAG else caps in
  if ht40 && bit_set (cap h) 0x0040 then Z.lor caps WLAN_RC_SGI_FLAG
  else if ht20 && bit_set (cap h) 0x0020 then Z.lor caps WLAN_RC_SGI_FLAG
  else caps.

Definition ath9k_htc_setup_rate (bitrates : list Z) (supp : Z) (h : option ht_cap) (ht20 ht40 : bool) (sta_index : Z) : option target_rate :=
  match legacy_rates bitrates 0 supp [] with
  | None => None
  | Some legacy =>
      match h with
      | None => Some (TargetRate sta_index 0 legacy [])
      | Some h => match ht_rates 77 0 (rx_mask h) [] with
                  | None => None
                  | Some ht => Some (TargetRate sta_index (ht_caps h ht20 ht40) legacy ht)
                  end
      end
  end.

(** [start] is the action [IEEE80211_AMPDU_TX_START]; [tids] says for each TID
    of the station whether aggregation has been started. *)
Definition ath9k_htc_tx_aggr_oper (p : priv) (sta_index : Z) (tids : list bool) (start : bool) (tid r : Z) : Z * priv * list bool :=
  if ATH9K_HTC_MAX_TID <=? tid then (- EINVAL, p, tids)
  else
    let p := wmi_cmd p (TxAggr sta_index (Z.land tid 0xf) start) r in
    (r, p, <[Z.to_nat tid := start && (r =? 0)]> tids).

(** ** Slots *)

(** Bitmap [w] has the bits of [l]. *)
Definition slot_is (w : Z) (l : list Z) : Prop := forall i, 0 <= i < 8 -> Z.testbit w i = bool_decide (i ∈ l).

(** A table of at most [b] entries: its bitmap, its counter and what the
    target holds agree. *)
Definition table (w n b : Z) (tgt l : list Z) : Prop :=
  Forall (fun i => 0 <= i < b) l /\ NoDup l /\ slot_is w l /\ n = Z.of_nat (length l) /\ tgt ≡ₚ l.

Lemma slot_is_perm w l l' : l ≡ₚ l' -> slot_is w l -> slot_is w l'.
Proof. intros H Hw i Hi; rewrite Hw by done; apply bool_decide_ext; by rewrite H. Qed.

Lemma table_perm w n b tgt l l' : l ≡ₚ l' -> table w n b tgt l -> table w n b tgt l'.
Proof.
  intros H (H1 & H2 & H3 & H4 & H5); split_and!; [by rewrite <- H|by rewrite <- H|by eapply slot_is_perm|by rewrite <- H|].
  by rewrite <- H.
Qed.

Lemma slot_is_set w l i : 0 <= i < 8 -> slot_is w l -> slot_is (set_slot w i) (i :: l).
Proof.
  intros Hi Hw j Hj; unfold set_slot, u8; rewrite wrap_spec by lia; destruct (Z.ltb_spec j 8); [|lia]; simpl.
  rewrite Z.lor_spec, Hw by done; rewrite Z.shiftl_spec by lia.
  destruct (Z.eq_dec i j) as [->|Hn].
  - rewrite Z.sub_diag, orb_true_r; symmetry; apply bool_decide_eq_true_2; by constructor.
  - assert (Z.testbit 1 (j - i) = false) as ->.
    { destruct (Z.ltb_spec (j - i) 0); [by apply Z.testbit_neg_r|]. rewrite Z.bits_above_log2; simpl; lia. }
    rewrite orb_false_r; apply bool_decide_ext; rewrite elem_of_cons; intuition congruence.
Qed.

Lemma slot_is_clear w l i : 0 <= i < 8 -> i ∉ l -> slot_is w (i :: l) -> slot_is (clear_slot w i) l.
Proof.
  intros Hi Hl Hw j Hj; unfold clear_slot, u8; rewrite wrap_spec by lia; destruct (Z.ltb_spec j 8); [|lia]; simpl.
  rewrite Z.land_spec, Z.lnot_spec, Z.shiftl_spec, Hw by lia.
  destruct (Z.eq_dec i j) as [->|Hn].
  - rewrite Z.sub_diag, andb_false_r; symmetry; by apply bool_decide_eq_false_2.
  - assert (Z.testbit 1 (j - i) = false) as ->.
    { destruct (Z.ltb_spec (j - i) 0); [by apply Z.testbit_neg_r|]. rewrite Z.bits_above_log2; simpl; lia. }
    rewrite andb_true_r; apply bool_decide_ext; rewrite elem_of_cons; intuition congruence.
Qed.

Lemma ffz_from_spec n i w : let r := ffz_from n i w in
  i <= r <= i + Z.of_nat n /\ (forall j, i <= j < r -> Z.testbit w j = true) /\ (r < i + Z.of_nat n -> Z.testbit w r = false).
Proof.
  revert i; induction n as [|n IH]; intros i; simpl; [split_and!; lia|].
  destruct (Z.testbit w i) eqn:E; [|split; [lia|split; [lia|done]]].
  destruct (IH (i + 1)) as (H1 & H2 & H3); split; [lia|split; [|intros; apply H3; lia]].
  intros j Hj; destruct (Z.eq_dec j i) as [->|]; [done|apply H2; lia].
Qed.

(** A bound on the first free position. *)
Lemma ffz_free w l b : 0 <= b <= 8 -> slot_is w l -> NoDup l -> Z.of_nat (length l) < b -> 0 <= ffz w < b /\ ffz w ∉ l.
Proof.
  intros Hb Hw Hnd Hl; pose proof (ffz_from_spec 8 0 w) as (H1 & H2 & H3); fold (ffz w) in *; simpl in *.
  assert (Hr : ffz w < b).
  { destruct (Z.ltb_spec (ffz w) b); [done|]; exfalso.
    assert (Hs : seqZ 0 b ⊆+ l).
    { apply NoDup_submseteq; [apply NoDup_seqZ|]; intros j Hj; apply elem_of_seqZ in Hj.
      specialize (H2 j ltac:(lia)); rewrite Hw in H2 by lia; by apply bool_decide_eq_true_1 in H2. }
    apply submseteq_length in Hs; rewrite length_seqZ in Hs; lia. }
  split; [lia|]; specialize (H3 ltac:(lia)); rewrite Hw in H3 by lia; by apply bool_decide_eq_false_1 in H3.
Qed.

Lemma table_add w n b tgt l l' : 0 <= b <= 8 -> table w n b tgt l -> Z.of_nat (length l) < b -> l' ≡ₚ ffz w :: l ->
  table (set_slot w (ffz w)) (u16 (n + 1)) b (tgt ++ [ffz w]) l'.
Proof.
  intros Hb (H1 & H2 & H3 & -> & H5) Hl Hp; destruct (ffz_free w l b) as [Hr Hn]; try done.
  eapply table_perm; [symmetry; exact Hp|]; split_and!.
  - by constructor.
  - by constructor.
  - apply slot_is_set; [lia|done].
  - unfold u16; rewrite wrap_small by (unfold is_uint; lia); simpl; lia.
  - rewrite H5; symmetry; apply Permutation_cons_append.
Qed.

Lemma filter_ne_perm i (l : list Z) l' : NoDup l -> l ≡ₚ i :: l' -> filter (fun j => j <> i) l ≡ₚ l'.
Proof.
  intros Hn Hp; rewrite Hp in Hn; apply list.NoDup_cons in Hn as [Hi _]; rewrite Hp.
  rewrite list.filter_cons, decide_False by (intros H; by apply H).
  replace (filter (fun j => j <> i) l') with l'; [done|].
  clear - Hi; induction l' as [|x l' IH]; [done|]; apply not_elem_of_cons in Hi as [Hx Hi].
  rewrite list.filter_cons, decide_True by congruence; f_equal; by apply IH.
Qed.

Lemma table_remove w n b tgt l l' i : 0 <= b <= 8 -> table w n b tgt l -> l ≡ₚ i :: l' ->
  table (clear_slot w i) (u16 (n - 1)) b (filter (fun j => j <> i) tgt) l'.
Proof.
  intros Hb H Hp; apply (table_perm _ _ _ _ _ _ Hp) in H; destruct H as (H1 & H2 & H3 & -> & H5).
  apply list.Forall_cons in H1 as [Hi H1]; pose proof H2 as H2'; apply list.NoDup_cons in H2 as [Hn H2].
  assert (Z.of_nat (length l') <= 8).
  { assert (Hs : l' ⊆+ seqZ 0 b).
    { apply NoDup_submseteq; [done|]; intros j Hj; rewrite list.Forall_forall in H1; apply elem_of_seqZ; apply H1 in Hj; lia. }
    apply submseteq_length in Hs; rewrite length_seqZ in Hs; lia. }
  split_and!; [done|done|apply slot_is_clear; [lia|done|done]| |].
  - unfold u16; rewrite wrap_small by (unfold is_uint; simpl; lia); simpl; lia.
  - rewrite <- (filter_ne_perm i (i :: l') l') by done; by rewrite H5.
Qed.

Lemma target_snoc cs c r : target (cs ++ [(c, r)]) = apply_cmd (target cs) (c, r).
Proof. unfold target; by rewrite foldl_app. Qed.

Lemma target_failed cs c r : r <> 0 -> target (cs ++ [(c, r)]) = target cs.
Proof. intros Hr; rewrite target_snoc; unfold apply_cmd; simpl; by destruct (Z.eqb_spec r 0). Qed.

(** ** The driver and mac80211 *)

(** What mac80211 knows: interfaces it has added and the indices of the peers
    it has added. *)
Record world := World { drv : priv; ifs : list avp; peers : list Z }.

Inductive op :=
| AddIf (id : nat) (t : iftype) (r1 r2 r3 : Z)
| RemIf (k : nat) (r1 r2 : Z)
| AddSta (avp_index factor r : Z)
| RemSta (k : nat) (r : Z)
| Config (monitor : bool) (r1 r2 r3 : Z).

Definition step (w : world) (o : op) : sum fault world :=
  match o with
  | AddIf id t r1 r2 r3 =>
      match ath9k_htc_add_interface (drv w) id t r1 r2 r3 with
      | inl f => inl f
      | inr (ret, p, a) => inr (World p (if ret =? 0 then ifs w ++ [a] else ifs w) (peers w))
      end
  | RemIf k r1 r2 =>
      match ifs w !! k with
      | None => inr w
      | Some a => match ath9k_htc_remove_interface (drv w) a r1 r2 with
                  | inl f => inl f
                  | inr p => inr (World p (delete k (ifs w)) (peers w))
                  end
      end
  | AddSta i factor r =>
      match ath9k_htc_add_station (drv w) i (Some factor) r with
      | inl f => inl f
      | inr (ret, p, idx) => inr (World p (ifs w) (if ret =? 0 then peers w ++ [idx] else peers w))
      end
  | RemSta k r =>
      match peers w !! k with
      | None => inr w
      | Some idx => match ath9k_htc_remove_station (drv w) 0 (Some idx) r with
                    | inl f => inl f
                    | inr (_, p) => inr (World p (ifs w) (delete k (peers w)))
                    end
      end
  | Config monitor r1 r2 r3 =>
      match config_monitor (drv w) true monitor r1 r2 r3 with
      | inl f => inl f
      | inr p => inr (World p (ifs w) (peers w))
      end
  end.

Fixpoint run (w : world) (ops : list op) : sum fault world :=
  match ops with
  | [] => inr w
  | o :: ops => match step w o with inl f => inl f | inr w => run w ops end
  end.

Definition idxs (w : world) : list Z :=
  (index <$> ifs w) ++ (if is_monitoring (drv w) then [mon_vif_idx (drv w)] else []).
Definition self_sta (p : priv) (i : Z) : Z := default 0 (get_pos p i).
Definition sids (w : world) : list Z := (self_sta (drv w) <$> idxs w) ++ peers w.

(** What is asked of mac80211 and of the target: no more interfaces than the
    driver has room for, and no removal is refused, nor the station of a new
    interface.  The target may refuse any other command. *)
Definition legal (w : world) (o : op) : bool :=
  match o with
  | AddIf id t r1 r2 _ => (length (idxs w) <? 2)%nat && (length (sids w) <? 8)%nat && bool_decide (id ∉ vif_id <$> ifs w) &&
                          (negb (r1 =? 0) || (r2 =? 0))
  | RemIf _ r1 r2 => (r1 =? 0) && (r2 =? 0)
  | AddSta _ _ _ => true
  | RemSta _ r => r =? 0
  | Config _ r1 r2 r3 => if is_monitoring (drv w) then (r1 =? 0) && (r2 =? 0) else r3 =? 0
  end.

Fixpoint run_legal (w : world) (ops : list op) : bool :=
  match ops with
  | [] => true
  | o :: ops => legal w o && match step w o with inl _ => true | inr w => run_legal w ops end
  end.

Definition init : world :=
  World (Priv 0 0 0 [0; 0] 0 0 0 0 0 STATION false [None; None] []) [] [].

(** The tables of the driver, those of the target and mac80211 agree. *)
Definition vtab (p : priv) (l : list Z) : Prop := table (vif_slot p) (nvifs p) 2 (target (cmds p)).1 l.
Definition stab (p : priv) (l : list Z) : Prop := table (sta_slot p) (nstations p) 8 (target (cmds p)).2 l.

(** [il] are the indices of the interfaces, [pl] those of the peers. *)
Definition ptab (p : priv) (il pl : list Z) : Prop :=
  length (vif_sta_pos p) = 2%nat /\ vtab p il /\ stab p ((self_sta p <$> il) ++ pl).
Definition tables_ok (w : world) : Prop := ptab (drv w) (idxs w) (peers w).

(** ** The operations on the tables *)

(** What the operations on stations leave alone. *)
Definition same_vifs (p p' : priv) : Prop :=
  vif_slot p' = vif_slot p /\ nvifs p' = nvifs p /\ mon_vif_idx p' = mon_vif_idx p /\ is_monitoring p' = is_monitoring p /\
  bslot p' = bslot p /\ num_ibss_vif p' = num_ibss_vif p /\ num_sta_vif p' = num_sta_vif p /\ num_ap_vif p' = num_ap_vif p /\
  (target (cmds p')).1 = (target (cmds p)).1.

Lemma vtab_same p p' l : same_vifs p p' -> vtab p l -> vtab p' l.
Proof. unfold vtab; intros (E1 & E2 & _ & _ & _ & _ & _ & _ & E3); by rewrite E1, E2, E3. Qed.

Lemma put_pos_ok p i x : length (vif_sta_pos p) = 2%nat -> 0 <= i < 2 -> put_pos p i x = Some (set_pos p (<[Z.to_nat i := x]> (vif_sta_pos p))).
Proof. intros Hl Hi; unfold put_pos; rewrite Hl; destruct (Nat.ltb_spec (Z.to_nat i) 2); [done|lia]. Qed.

Lemma add_station_ok p i sta r sl : stab p sl -> length (vif_sta_pos p) = 2%nat -> (sta = None -> 0 <= i < 2) ->
  exists ret p' idx, ath9k_htc_add_station p i sta r = inr (ret, p', idx) /\ same_vifs p p' /\
    ((ret <> 0 /\ stab p' sl /\ vif_sta_pos p' = vif_sta_pos p /\ (Z.of_nat (length sl) < 8 -> r <> 0)) \/
     (ret = 0 /\ stab p' (idx :: sl) /\
      vif_sta_pos p' = match sta with None => <[Z.to_nat i := idx]> (vif_sta_pos p) | Some _ => vif_sta_pos p end)).
Proof.
  intros Hs Hl Hi; unfold ath9k_htc_add_station; pose proof Hs as (H1 & H2 & H3 & H4 & H5); unfold ATH9K_HTC_MAX_STA.
  destruct (Z.leb_spec 8 (nstations p)).
  { eexists _, _, _; split_and!; [done|done|left]; split_and!; [done..|lia]. }
  destruct (ffz_free (sta_slot p) sl 8) as [Hr Hn]; try done; [lia|].
  destruct (Z.ltb_spec (ffz (sta_slot p)) 0); [lia|]; destruct (Z.ltb_spec 8 (ffz (sta_slot p))); [lia|]; cbn [orb].
  destruct (Z.eqb_spec r 0) as [->|Hr0]; cbn [negb].
  - assert (Ht : forall p1, sta_slot p1 = set_slot (sta_slot p) (ffz (sta_slot p)) -> nstations p1 = u16 (nstations p + 1) ->
      (target (cmds p1)).2 = (target (cmds p)).2 ++ [ffz (sta_slot p)] -> stab p1 (ffz (sta_slot p) :: sl)).
    { intros p1 E1 E2 E3; unfold stab; rewrite E1, E2, E3; eapply table_add; [lia|exact Hs|lia|done]. }
    destruct sta as [f|].
    + eexists _, _, _; split_and!; [done|by repeat split; simpl; rewrite ?target_snoc|right]; split_and!; [done| |done].
      apply Ht; simpl; [done..|by rewrite target_snoc].
    + rewrite put_pos_ok by (simpl; auto).
      eexists _, _, _; split_and!; [done|by repeat split; simpl; rewrite ?target_snoc|right]; split_and!; [done| |done].
      apply Ht; simpl; [done..|by rewrite target_snoc].
  - eexists _, _, _; split_and!; [done|by repeat split; simpl; rewrite ?target_failed|left].
    split_and!; [done| |done|done]; unfold stab; simpl; by rewrite target_failed.
Qed.

Lemma drop_station_ok p idx sl sl' : stab p sl -> sl ≡ₚ idx :: sl' ->
  exists p', drop_station p idx 0 = (0, p') /\ same_vifs p p' /\ stab p' sl' /\ vif_sta_pos p' = vif_sta_pos p.
Proof.
  intros Hs Hp; unfold drop_station; simpl; eexists; split_and!; [done|by repeat split; simpl; rewrite ?target_snoc| |done].
  unfold stab; simpl; rewrite target_snoc; eapply table_remove; [lia|exact Hs|done].
Qed.

(** Writing the entry of a new interface leaves the others. *)
Lemma self_sta_other p p' i x (l : list Z) : vif_sta_pos p' = <[Z.to_nat i := x]> (vif_sta_pos p) -> 0 <= i -> i ∉ l -> Forall (fun j => 0 <= j) l ->
  self_sta p' <$> l = self_sta p <$> l.
Proof.
  intros Hp Hi Hn Hl; apply list_fmap_ext; intros k j Hj; unfold self_sta, get_pos; rewrite Hp.
  rewrite list_lookup_insert_ne; [done|]; intros E; apply Hn.
  assert (0 <= j) by (by apply (Forall_lookup_1 _ _ _ _ Hl) in Hj).
  replace i with j by lia; by eapply list_elem_of_lookup_2.
Qed.

Lemma self_sta_new p p' i x : vif_sta_pos p' = <[Z.to_nat i := x]> (vif_sta_pos p) -> length (vif_sta_pos p) = 2%nat -> 0 <= i < 2 -> self_sta p' i = x.
Proof. intros Hp Hl Hi; unfold self_sta, get_pos; rewrite Hp, list_lookup_insert_eq by lia; done. Qed.

Lemma self_sta_same p p' (l : list Z) : vif_sta_pos p' = vif_sta_pos p -> self_sta p' <$> l = self_sta p <$> l.
Proof. intros H; apply list_fmap_ext; intros; unfold self_sta, get_pos; by rewrite H. Qed.

Lemma ptab_perm p il il' pl pl' : il ≡ₚ il' -> pl ≡ₚ pl' -> ptab p il pl -> ptab p il' pl'.
Proof.
  intros Hi Hp (Hl & Hv & Hs); split_and!; [done|by eapply table_perm|]; eapply table_perm; [|exact Hs].
  by rewrite Hi, Hp.
Qed.

Lemma vtab_range p il i : vtab p il -> i ∈ il -> 0 <= i < 2.
Proof. intros (H & _) Hi; rewrite list.Forall_forall in H; by apply H. Qed.

Lemma vtab_nonneg p il : vtab p il -> Forall (fun j => 0 <= j) il.
Proof. intros (H & _); eapply list.Forall_impl; [exact H|]; simpl; intros; lia. Qed.

(** The entry of a new interface for a new station. *)
Lemma ptab_new p p' i il pl sta : ptab p il pl -> vtab p' (i :: il) -> i ∉ il -> 0 <= i < 2 ->
  vif_sta_pos p' = <[Z.to_nat i := sta]> (vif_sta_pos p) -> stab p' (sta :: (self_sta p <$> il) ++ pl) -> ptab p' (i :: il) pl.
Proof.
  intros (Hl & Hv & Hs) Hv' Hn Hi Hp Hs'; split_and!; [by rewrite Hp, length_insert|done|].
  simpl; rewrite (self_sta_new p p' i sta) by done.
  rewrite (self_sta_other p p' i sta) by (first [done | lia | by eapply vtab_nonneg]); done.
Qed.

Lemma add_interface_ok p il pl id t r1 r2 r3 : ptab p il pl -> (length il < 2)%nat ->
  (length ((self_sta p <$> il) ++ pl) < 8)%nat -> r1 <> 0 \/ r2 = 0 ->
  exists ret p' a, ath9k_htc_add_interface p id t r1 r2 r3 = inr (ret, p', a) /\
    is_monitoring p' = is_monitoring p /\ mon_vif_idx p' = mon_vif_idx p /\
    ((ret <> 0 /\ ptab p' il pl) \/ (ret = 0 /\ ptab p' (index a :: il) pl)).
Proof.
  intros Hok Hil Hsl Hr; pose proof Hok as (Hl & Hv & Hs); unfold ath9k_htc_add_interface.
  destruct (target_opmode t) as [m|] eqn:Em; [|eexists _, _, _; split_and!; [done..|by left]].
  pose proof Hv as (Hv1 & Hv2 & Hv3 & Hv4 & Hv5).
  destruct (ffz_free (vif_slot p) il 2) as [Hf Hn]; try done; try lia.
  set (i := ffz (vif_slot p)) in *.
  assert (Hu : u8 i = i) by (apply wrap_small; unfold is_uint; lia); rewrite Hu.
  destruct (Z.eqb_spec r1 0) as [->|Hr1]; cbn [negb].
  - destruct Hr as [| ->]; [done|]; set (p1 := wmi_cmd p (VapCreate m i) 0).
    assert (Hs1 : stab p1 ((self_sta p <$> il) ++ pl)) by (unfold stab, p1; simpl; by rewrite target_snoc).
    destruct (add_station_ok p1 i None 0 _ Hs1 Hl ltac:(intros _; lia)) as (ret & p2 & sidx & -> & Hsame & Hcase).
    destruct Hcase as [(_ & _ & _ & Hbad)|(-> & Hs2 & Hpos)]; [exfalso; apply Hbad; [lia|done]|]; cbn [negb Z.eqb].
    pose proof Hsame as (Ev & En & Em1 & Em2 & _ & _ & _ & _ & Et).
    assert (Hfin : forall p3, vif_slot p3 = set_slot (vif_slot p) i -> nvifs p3 = u16 (nvifs p + 1) -> cmds p3 = cmds p2 ->
      vif_sta_pos p3 = vif_sta_pos p2 -> sta_slot p3 = sta_slot p2 -> nstations p3 = nstations p2 -> ptab p3 (i :: il) pl).
    { intros p3 E1 E2 E3 E4 E5 E6; apply (ptab_new p p3 i il pl sidx); try done.
      - unfold vtab; rewrite E1, E2, E3, Et; unfold p1; simpl; rewrite target_snoc; simpl.
        eapply table_add; [lia|exact Hv|lia|done].
      - by rewrite E4, Hpos.
      - unfold stab in *; by rewrite E5, E6, E3. }
    destruct t; simpl in *; try done;
      (eexists _, _, _; split; [reflexivity|]; simpl; split; [done|split; [done|right; split; [done|]]];
       apply Hfin; simpl; rewrite ?Ev, ?En; done).
  - eexists _, _, _; split_and!; [done..|left]; split; [done|]; split_and!; [done| |];
      unfold vtab, stab; simpl; by rewrite target_failed.
Qed.

Lemma ptab_get_pos p il pl i : ptab p il pl -> i ∈ il -> get_pos p i = Some (self_sta p i).
Proof.
  intros (Hl & Hv & _) Hi; pose proof (vtab_range _ _ _ Hv Hi); unfold self_sta, get_pos.
  destruct (vif_sta_pos p !! Z.to_nat i) eqn:E; [done|]; apply lookup_ge_None in E; lia.
Qed.

(** Removal of an interface and of its station. *)
Lemma ptab_remove p p1 i il il' pl : ptab p il pl -> il ≡ₚ i :: il' ->
  vif_slot p1 = clear_slot (vif_slot p) i -> nvifs p1 = u16 (nvifs p - 1) -> vif_sta_pos p1 = vif_sta_pos p ->
  sta_slot p1 = sta_slot p -> nstations p1 = nstations p -> target (cmds p1) = apply_cmd (target (cmds p)) (VapRemove i, 0) ->
  exists p2, drop_station p1 (self_sta p i) 0 = (0, p2) /\ same_vifs p1 p2 /\ ptab p2 il' pl.
Proof.
  intros Hok Hp E1 E2 E3 E4 E5 E6; pose proof Hok as (Hl & Hv & Hs).
  assert (Hs1 : stab p1 ((self_sta p <$> il) ++ pl)) by (unfold stab; rewrite E4, E5, E6; exact Hs).
  destruct (drop_station_ok p1 (self_sta p i) _ ((self_sta p <$> il') ++ pl) Hs1) as (p2 & Hd & Hsame & Hs2 & Hpos).
  { by rewrite Hp. }
  exists p2; split_and!; [done|done|]; split_and!; [by rewrite Hpos, E3| |].
  - eapply vtab_same; [exact Hsame|]; unfold vtab; rewrite E1, E2, E6; simpl; eapply table_remove; [lia|exact Hv|done].
  - rewrite (self_sta_same p p2) by (by rewrite Hpos, E3); done.
Qed.

Lemma remove_interface_ok p il il' pl a : ptab p il pl -> il ≡ₚ index a :: il' ->
  exists p', ath9k_htc_remove_interface p a 0 0 = inr p' /\ is_monitoring p' = is_monitoring p /\ mon_vif_idx p' = mon_vif_idx p /\ ptab p' il' pl.
Proof.
  intros Hok Hp; unfold ath9k_htc_remove_interface, ath9k_htc_remove_station.
  set (p1 := set_vifs _ _ _).
  assert (Hg : get_pos p1 (index a) = Some (self_sta p (index a))).
  { apply (ptab_get_pos p il pl); [done|]; rewrite Hp; by constructor. }
  rewrite Hg; destruct (ptab_remove p p1 (index a) il il' pl Hok Hp) as (p2 & -> & Hsame & Hok2); try done.
  { unfold p1; simpl; by rewrite target_snoc. }
  destruct Hsame as (_ & _ & Em1 & Em2 & _).
  eexists; split; [reflexivity|]; destruct (vif_type a); simpl; rewrite Em1, Em2; done.
Qed.

Lemma remove_monitor_ok p il il' pl : ptab p il pl -> il ≡ₚ mon_vif_idx p :: il' ->
  exists p', ath9k_htc_remove_monitor_interface p 0 0 = inr (0, p') /\ is_monitoring p' = false /\ ptab p' il' pl.
Proof.
  intros Hok Hp; unfold ath9k_htc_remove_monitor_interface.
  set (p1 := remove_monitor_vif p 0).
  assert (Hg : get_pos p1 (mon_vif_idx p1) = Some (self_sta p (mon_vif_idx p))).
  { apply (ptab_get_pos p il pl); [done|]; rewrite Hp; by constructor. }
  rewrite Hg; destruct (ptab_remove p p1 (mon_vif_idx p) il il' pl Hok Hp) as (p2 & -> & _ & Hok2); try done.
  { unfold p1; simpl; by rewrite target_snoc. }
  eexists; split; [reflexivity|done].
Qed.

Lemma add_monitor_ok p il pl r1 r2 : ptab p il pl -> is_monitoring p = false ->
  exists ret p', ath9k_htc_add_monitor_interface p r1 r2 0 = inr (ret, p') /\
    ((is_monitoring p' = false /\ ptab p' il pl) \/ (is_monitoring p' = true /\ ptab p' (mon_vif_idx p' :: il) pl)).
Proof.
  intros Hok Hm; pose proof Hok as (Hl & Hv & Hs); unfold ath9k_htc_add_monitor_interface, ATH9K_HTC_MAX_VIF, ATH9K_HTC_MAX_STA.
  pose proof Hv as (Hv1 & Hv2 & Hv3 & Hv4 & Hv5); pose proof Hs as (Hs1 & Hs2 & Hs3 & Hs4 & Hs5).
  destruct (Z.leb_spec 2 (nvifs p)); [eexists _, _; split; [done|by left]|].
  destruct (Z.leb_spec 8 (nstations p)); [eexists _, _; split; [done|by left]|]; cbn [orb].
  destruct (ffz_free (vif_slot p) il 2) as [Hf Hn]; try done; try lia.
  destruct (ffz_free (sta_slot p) ((self_sta p <$> il) ++ pl) 8) as [Hf' Hn']; try done; try lia.
  set (i := ffz (vif_slot p)) in *; set (j := ffz (sta_slot p)) in *.
  destruct (Z.ltb_spec j 0); [lia|]; destruct (Z.ltb_spec 8 j); [lia|]; cbn [orb].
  assert (Hu : u8 i = i) by (apply wrap_small; unfold is_uint; lia); rewrite Hu.
  destruct (Z.eqb_spec r1 0) as [->|Hr1]; cbn [negb].
  2:{ eexists _, _; split; [done|left; split; [done|]]; split_and!; [done| |]; unfold vtab, stab; simpl; by rewrite target_failed. }
  set (pm := if nvifs _ =? 0 then _ else _).
  assert (Em : pm = set_mode pm (opmode pm) /\ vif_slot pm = set_slot (vif_slot p) i /\ nvifs pm = nvifs p /\ vif_sta_pos pm = vif_sta_pos p /\
    sta_slot pm = sta_slot p /\ nstations pm = nstations p /\ mon_vif_idx pm = i /\ is_monitoring pm = false /\ cmds pm = cmds p ++ [(VapCreate HTC_M_MONITOR i, 0)]).
  { unfold pm; simpl; destruct (nvifs p =? 0); simpl; repeat split; done. }
  clearbody pm; destruct Em as (_ & E1 & E2 & E3 & E4 & E5 & E6 & E7 & E8).
  assert (Hv' : table (vif_slot pm) (u16 (nvifs pm + 1)) 2 ((target (cmds p)).1 ++ [i]) (i :: il)).
  { rewrite E1, E2; eapply table_add; [lia|exact Hv|lia|done]. }
  destruct (Z.eqb_spec r2 0) as [->|Hr2]; cbn [negb].
  - rewrite put_pos_ok by (simpl; rewrite ?E3, ?E6; done); simpl.
    eexists _, _; split; [done|right; split; [done|]]; simpl; rewrite E6.
    apply (ptab_new p _ i il pl j); try done; simpl.
    + unfold vtab; simpl; rewrite target_snoc, E8, target_snoc; exact Hv'.
    + by rewrite E3.
    + unfold stab; simpl; rewrite E4, E5, target_snoc, E8, target_snoc; simpl; eapply table_add; [lia|exact Hs|lia|done].
  - eexists _, _; split; [done|left]; simpl; split; [done|]; split_and!; [by rewrite <- Hl, <- E3| |].
    + unfold vtab; simpl; rewrite target_snoc, target_failed, E8, target_snoc, E6 by done; simpl.
      eapply table_remove; [lia|exact Hv'|done].
    + unfold stab; simpl; rewrite target_snoc, target_failed, E8, target_snoc, E4, E5 by done; simpl.
      rewrite (self_sta_same p) by (simpl; by rewrite E3); exact Hs.
Qed.

Lemma delete_perm {A} (l : list A) k x : l !! k = Some x -> l ≡ₚ x :: delete k l.
Proof. apply delete_Permutation. Qed.

Lemma step_tables_ok w o : tables_ok w -> legal w o = true -> exists w', step w o = inr w' /\ tables_ok w'.
Proof.
  intros Hok Hleg; unfold tables_ok in Hok; destruct o as [id t r1 r2 r3|k r1 r2|i f r|k r|m r1 r2 r3]; simpl in Hleg.
  - rewrite !andb_true_iff in Hleg; destruct Hleg as [[[H1 H2] _] H4]; apply Nat.ltb_lt in H1, H2.
    destruct (add_interface_ok (drv w) (idxs w) (peers w) id t r1 r2 r3 Hok H1 H2) as (ret & p' & a & E & Em1 & Em2 & Hc).
    { apply orb_true_iff in H4; rewrite negb_true_iff, Z.eqb_neq, Z.eqb_eq in H4; done. }
    simpl; rewrite E; eexists; split; [done|]; unfold tables_ok, idxs; simpl.
    destruct Hc as [[Hr Hp]|[-> Hp]].
    + destruct (Z.eqb_spec ret 0); [done|]; unfold idxs in Hp; by rewrite Em1, Em2.
    + cbn [Z.eqb]; rewrite Em1, Em2, fmap_app; simpl; eapply ptab_perm; [|reflexivity|exact Hp]; unfold idxs.
      rewrite <- app_assoc; simpl; apply Permutation_middle.
  - apply andb_true_iff in Hleg as [H1 H2]; apply Z.eqb_eq in H1 as ->, H2 as ->; simpl.
    destruct (ifs w !! k) as [a|] eqn:Ek; [|by eexists].
    destruct (remove_interface_ok (drv w) (idxs w) ((index <$> delete k (ifs w)) ++ if is_monitoring (drv w) then [mon_vif_idx (drv w)] else []) (peers w) a Hok)
      as (p' & E & Em1 & Em2 & Hp).
    { unfold idxs; by rewrite (delete_perm _ _ _ Ek) at 1. }
    rewrite E; eexists; split; [done|]; unfold tables_ok, idxs; simpl; by rewrite Em1, Em2.
  - simpl; destruct (add_station_ok (drv w) i (Some f) r _ (proj2 (proj2 Hok)) (proj1 Hok)) as (ret & p' & idx & E & Hs & Hc); [done|].
    rewrite E; eexists; split; [done|]; pose proof Hs as (_ & _ & Em2 & Em1 & _).
    destruct Hok as (Hl & Hv & _).
    destruct Hc as [(Hr & Hst & Hpos & _)|(-> & Hst & Hpos)]; unfold tables_ok, idxs in *; simpl; rewrite Em1, Em2.
    + destruct (Z.eqb_spec ret 0); [done|]; split_and!; [by rewrite Hpos|by eapply vtab_same|]; by rewrite (self_sta_same (drv w)).
    + cbn [Z.eqb]; split_and!; [by rewrite Hpos|by eapply vtab_same|]; rewrite (self_sta_same (drv w)) by done.
      eapply table_perm; [|exact Hst]; rewrite app_assoc; apply Permutation_cons_append.
  - apply Z.eqb_eq in Hleg as ->; cbn [step]; destruct (peers w !! k) as [idx|] eqn:Ek; [|by eexists].
    cbn [ath9k_htc_remove_station].
    destruct Hok as (Hl & Hv & Hst).
    destruct (drop_station_ok (drv w) idx _ ((self_sta (drv w) <$> idxs w) ++ delete k (peers w)) Hst) as (p' & E & Hs & Hst' & Hpos).
    { rewrite (delete_perm _ _ _ Ek) at 1; symmetry; apply Permutation_middle. }
    rewrite E; eexists; split; [done|]; pose proof Hs as (_ & _ & Em2 & Em1 & _); unfold tables_ok, idxs in *; simpl; rewrite Em1, Em2.
    split_and!; [by rewrite Hpos|by eapply vtab_same|]; by rewrite (self_sta_same (drv w)).
  - simpl; unfold config_monitor; destruct (is_monitoring (drv w)) eqn:Em.
    + apply andb_true_iff in Hleg as [H1 H2]; apply Z.eqb_eq in H1 as ->, H2 as ->; rewrite andb_false_r.
      destruct (remove_monitor_ok (drv w) (idxs w) (index <$> ifs w) (peers w) Hok) as (p' & E & Em' & Hp).
      { unfold idxs; rewrite Em; symmetry; apply Permutation_cons_append. }
      rewrite E; eexists; split; [done|]; unfold tables_ok, idxs; simpl; by rewrite Em', app_nil_r.
    + apply Z.eqb_eq in Hleg as ->; rewrite andb_true_r; destruct m; [|by eexists].
      destruct (add_monitor_ok (drv w) (idxs w) (peers w) r1 r2 Hok Em) as (ret & p' & E & Hc).
      rewrite E; eexists; split; [done|]; unfold tables_ok, idxs in *; simpl; rewrite Em, app_nil_r in Hc.
      destruct Hc as [[Em' Hp]|[Em' Hp]]; rewrite Em'; [by rewrite app_nil_r|].
      eapply ptab_perm; [apply Permutation_cons_append|reflexivity|exact Hp].
Qed.

Lemma table_nil b : table 0 0 b [] [].
Proof.
  split; [by apply Forall_nil_2|]; split; [by apply list.NoDup_nil|]; split; [|done].
  intros i _; rewrite Z.testbit_0_l; symmetry; apply bool_decide_eq_false_2, not_elem_of_nil.
Qed.

Lemma init_tables_ok : tables_ok init.
Proof. split; [done|]; split; apply table_nil. Qed.

(** Under any sequence of interface, station and monitor operations that mac80211 may make, in which the target refuses nothing but the creation of interfaces, peers and monitors, no table is overrun and the bitmaps, counters and index table of the driver, the interfaces and stations on the target and those mac80211 knows agree. *)
Theorem tables_consistent (ops : list op) (H : run_legal init ops = true) :
  exists w, run init ops = inr w /\ tables_ok w.
Proof.
  revert H; generalize init_tables_ok; generalize init; induction ops as [|o ops IH]; intros w Hok H; [by exists w|].
  simpl in H; apply andb_true_iff in H as [Hl H].
  destruct (step_tables_ok w o Hok Hl) as (w' & E & Hok'); simpl; rewrite E in *; by apply IH.
Qed.

Definition demo_ops : list op :=
  [AddIf 1 AP 0 0 0; AddSta 0 2 0; Config true 0 5 0; Config true 0 0 0; AddSta 0 0 (-5); AddSta 0 1 0; Config false 0 0 0; RemSta 0 0; AddIf 2 STATION 0 0 0; RemIf 0 0 0].

Lemma tables_consistent_witness : exists w, run init demo_ops = inr w /\ tables_ok w.
Proof. exact (tables_consistent demo_ops ltac:(vm_compute; reflexivity)). Defined.

(** When the station of a new interface cannot be created, and the interface is then removed from the target, the driver reports success for an interface that is in none of its tables. *)
Theorem add_interface_masks_failure (p : priv) (id : nat) (t : iftype)
    (Ht : target_opmode t <> None) (Hn : ATH9K_HTC_MAX_STA <= nstations p) :
  exists p' a, ath9k_htc_add_interface p id t 0 0 0 = inr (0, p', a) /\ vif_slot p' = vif_slot p /\ nvifs p' = nvifs p /\
    cmds p' = cmds p ++ [(VapCreate (default 0 (target_opmode t)) (index a), 0); (VapRemove (index a), 0)].
Proof.
  unfold ath9k_htc_add_interface; destruct (target_opmode t) as [m|]; [|done]; simpl.
  unfold ath9k_htc_add_station; simpl; destruct (Z.leb_spec ATH9K_HTC_MAX_STA (nstations p)); [|lia]; simpl.
  eexists _, _; split_and!; [done..|]; simpl; by rewrite <- app_assoc.
Qed.

Definition full_house : priv :=
  Priv 0x01 0 0xff [0; 0] 0 0 1 1 8 AP false [Some 1%nat; None] [].

Lemma add_interface_masks_failure_witness : exists p' a,
  ath9k_htc_add_interface full_house 2 STATION 0 0 0 = inr (0, p', a) /\ nvifs p' = 1.
Proof.
  destruct (add_interface_masks_failure full_house 2 STATION ltac:(done) ltac:(by_eval)) as (p' & a & H & _ & Hn & _).
  exists p', a; split; [exact H | exact Hn].
Defined.

(** mac80211 then removes that interface: the counter goes below the
    interfaces there are and the station of the first interface is deleted. *)
Example masked_failure_removes_other :
  match ath9k_htc_add_interface full_house 2 STATION 0 0 0 with
  | inr (_, p, a) => match ath9k_htc_remove_interface p a 0 0 with
                     | inr p => (nvifs p, sta_slot p, cmds p !! 3%nat) = (0, 0xfe, Some (NodeRemove 0, 0))
                     | inl _ => False end
  | inl _ => False
  end.
Proof. vm_compute; reflexivity. Qed.

(** A monitor interface takes one of the two places, but is not counted when
    interfaces are added: the second one is written behind [vif_sta_pos]. *)
Example third_interface_overruns :
  run init [Config true 0 0 0; AddIf 1 STATION 0 0 0; AddIf 2 AP 0 0 0] = inl PosOutOfRange.
Proof. vm_compute; reflexivity. Qed.

(** If the target refuses to remove the station of the monitor interface the
    next change removes that interface again, and with it the place that
    another interface has got in between. *)
Example monitor_removed_twice :
  match run init [Config true 0 0 0; Config false 0 (-110) 0; AddIf 1 AP 0 0 0; Config false 0 0 0] with
  | inr w => (vif_slot (drv w), nvifs (drv w), index <$> ifs w) = (0, 0, [0])
  | inl _ => False
  end.
Proof. vm_compute; reflexivity. Qed.

(** The largest A-MPDU length, 64 KiB, does not fit in 16 bits: the target is
    told zero. *)
Example max_ampdu_is_zero :
  match ath9k_htc_add_station (drv init) 0 (Some 3) 0 with
  | inr (_, p, _) => cmds p = [(NodeCreate 0 0 false 0, 0)]
  | inl _ => False
  end.
Proof. vm_compute; reflexivity. Qed.

(** ** Rates *)

(** The rates the station supports, in units of 500 kbit/s. *)
Definition legacy_of (bitrates : list Z) (supp : Z) : list Z :=
  omap (fun x => if Z.testbit supp (Z.of_nat x.1) then Some (u8 (Z.quot (x.2 * 2) 10)) else None) (imap pair bitrates).

Definition mcs_in (rx_mask : list Z) (i : Z) : bool := Z.testbit (rx_mask.[Z.to_nat (i / 8)]) (i mod 8).

Lemma length_omap_le {A B} (f : A -> option B) (l : list A) : (length (omap f l) <= length l)%nat.
Proof. induction l as [|x l IH]; csimpl; [done|]; destruct (f x); csimpl; lia. Qed.

Lemma legacy_rates_ok bs i supp acc : (length acc + length bs <= 30)%nat ->
  legacy_rates bs (Z.of_nat i) supp acc =
  Some (acc ++ omap (fun x => if Z.testbit supp (Z.of_nat x.1) then Some (u8 (Z.quot (x.2 * 2) 10)) else None) (imap (fun j b => (i + j, b)%nat) bs)).
Proof.
  revert i acc; induction bs as [|b bs IH]; intros i acc Hl; simpl; [by rewrite app_nil_r|].
  simpl in Hl; rewrite Nat.add_0_r, Z.add_1_r, <- Nat2Z.inj_succ.
  assert (Hi : imap ((fun j b => (i + j, b)%nat) ∘ S) bs = imap (fun j b => (S i + j, b)%nat) bs).
  { apply imap_ext; intros k x _; simpl; f_equal; lia. }
  rewrite Hi; destruct (Z.testbit supp (Z.of_nat i)).
  - unfold store_rate, ATH_HTC_RATE_MAX; destruct (Nat.ltb_spec (length acc) 30); [|lia].
    rewrite IH by (rewrite length_app; simpl; lia); by rewrite <- app_assoc.
  - apply IH; lia.
Qed.

Lemma mcs_bit m i : 0 <= i -> bit_set (m.[Z.to_nat (i / 8)]) (Z.shiftl 1 (i mod 8)) = mcs_in m i.
Proof.
  intros Hi; assert (Hk : 0 <= i mod 8 < 8) by (apply Z.mod_pos_bound; lia); unfold bit_set, mcs_in.
  set (x := m.[_]); set (k := i mod 8) in *; rewrite Z.shiftl_1_l.
  destruct (Z.testbit x k) eqn:E.
  - apply negb_true_iff, Z.eqb_neq; intros H0; apply (f_equal (fun z => Z.testbit z k)) in H0.
    rewrite Z.land_spec, E, Z.pow2_bits_true, Z.testbit_0_l in H0 by lia; done.
  - apply negb_false_iff, Z.eqb_eq; bits_ext j; rewrite Z.testbit_0_l, Z.pow2_bits_eqb by lia.
    destruct (Z.eqb_spec k j) as [<-|]; [by rewrite E|apply andb_false_r].
Qed.

Lemma ht_rates_ok n i m acc : 0 <= i -> i + Z.of_nat n <= 256 -> (length acc < 30)%nat ->
  ht_rates n i m acc = Some (take 30 (acc ++ filter (fun j => mcs_in m j) (seqZ i (Z.of_nat n)))).
Proof.
  revert i acc; induction n as [|n IH]; intros i acc Hi Hn Hl.
  - simpl; rewrite app_nil_r, take_ge by lia; done.
  - cbn [ht_rates]; rewrite mcs_bit, seqZ_cons by lia; rewrite list.filter_cons.
    replace (Z.pred (Z.of_nat (S n))) with (Z.of_nat n) by lia; rewrite <- Z.add_1_r.
    destruct (mcs_in m i) eqn:E.
    + unfold store_rate, ATH_HTC_RATE_MAX; destruct (Nat.ltb_spec (length acc) 30); [|lia].
      rewrite length_app; simpl (length [u8 i]).
      assert (Hu : u8 i = i) by (apply wrap_small; unfold is_uint; lia); rewrite Hu.
      rewrite decide_True by done.
      destruct (Nat.eqb_spec (length acc + 1) 30) as [E30|E30].
      * rewrite take_app_ge by lia; replace (30 - length acc)%nat with 1%nat by lia; done.
      * rewrite IH by (rewrite ?length_app; simpl; lia); by rewrite <- app_assoc.
    + unfold ATH_HTC_RATE_MAX; destruct (Nat.eqb_spec (length acc) 30); [lia|].
      rewrite decide_False by (by rewrite Is_true_false); by apply IH; lia.
Qed.

(** Setting up the rates of a station writes no more than the 30 entries of each table, and the tables are the supported rates of the band and the first 30 supported MCS indices, in order. *)
Theorem setup_rate_tables (bitrates : list Z) (supp : Z) (h : ht_cap) (ht20 ht40 : bool) (sta : Z) (Hl : (length bitrates <= 30)%nat) :
  exists tr, ath9k_htc_setup_rate bitrates supp (Some h) ht20 ht40 sta = Some tr /\ legacy tr = legacy_of bitrates supp /\
    ht tr = take 30 (filter (fun i => mcs_in (rx_mask h) i) (seqZ 0 77)) /\ (length (legacy tr) <= 30)%nat /\ (length (ht tr) <= 30)%nat.
Proof.
  assert (He : legacy_rates bitrates 0 supp [] = Some (legacy_of bitrates supp)) by exact (legacy_rates_ok bitrates 0 supp [] ltac:(simpl; lia)).
  unfold ath9k_htc_setup_rate; rewrite He, ht_rates_ok by (simpl; lia).
  eexists; split; [done|]; cbn [legacy ht app]; split_and!; try done.
  - unfold legacy_of; etransitivity; [apply length_omap_le|]; by rewrite length_imap.
  - rewrite length_take; lia.
Qed.

Lemma setup_rate_tables_witness : exists tr,
  ath9k_htc_setup_rate [10; 20; 55; 110] 0x5 (Some (HtCap 0x22 [0xff; 0; 0; 0; 0; 0; 0; 0; 0; 0])) true false 3 = Some tr /\ legacy tr = [2; 11] /\ ht tr = [0; 1; 2; 3; 4; 5; 6; 7].
Proof.
  destruct (setup_rate_tables [10; 20; 55; 110] 0x5 (HtCap 0x22 [0xff; 0; 0; 0; 0; 0; 0; 0; 0; 0]) true false 3 ltac:(simpl; lia)) as (tr & H1 & H2 & H3 & _).
  exists tr; split; [exact H1|]; split; [exact H2 | exact H3].
Defined.

End HtcSta.
