(* ===== verification/Elems.v ===== *)
(** * Information elements

    Parsing in [net/mac80211/util.c] and [net/wireless/scan.c], and the
    building of probe requests from them, also [util.c].  A buffer is the list
    of its bytes and a pointer into it an offset; a read outside the buffer is
    [None].  [crc32_be] belongs to the kernel. *)

From S2P Require Import Prelude.

Module Elems.

Definition WLAN_EID_SSID : Z := 0.
Definition WLAN_EID_SUPP_RATES : Z := 1.
Definition WLAN_EID_FH_PARAMS : Z := 2.
Definition WLAN_EID_DS_PARAMS : Z := 3.
Definition WLAN_EID_CF_PARAMS : Z := 4.
Definition WLAN_EID_TIM : Z := 5.
Definition WLAN_EID_IBSS_PARAMS : Z := 6.
Definition WLAN_EID_COUNTRY : Z := 7.
Definition WLAN_EID_REQUEST : Z := 10.
Definition WLAN_EID_CHALLENGE : Z := 16.
Definition WLAN_EID_PWR_CONSTRAINT : Z := 32.
Definition WLAN_EID_CHANNEL_SWITCH : Z := 37.
Definition WLAN_EID_QUIET : Z := 40.
Definition WLAN_EID_ERP_INFO : Z := 42.
Definition WLAN_EID_HT_CAPABILITY : Z := 45.
Definition WLAN_EID_RSN : Z := 48.
Definition WLAN_EID_EXT_SUPP_RATES : Z := 50.
Definition WLAN_EID_TIMEOUT_INTERVAL : Z := 56.
Definition WLAN_EID_SUPPORTED_REGULATORY_CLASSES : Z := 59.
Definition WLAN_EID_EXT_CHANSWITCH_ANN : Z := 60.
Definition WLAN_EID_HT_OPERATION : Z := 61.
Definition WLAN_EID_MESH_CONFIG : Z := 113.
Definition WLAN_EID_MESH_ID : Z := 114.
Definition WLAN_EID_PEER_MGMT : Z := 117.
Definition WLAN_EID_RANN : Z := 126.
Definition WLAN_EID_PREQ : Z := 130.
Definition WLAN_EID_PREP : Z := 131.
Definition WLAN_EID_PERR : Z := 132.
Definition WLAN_EID_VHT_CAPABILITY : Z := 191.
Definition WLAN_EID_VHT_OPERATION : Z := 192.
Definition WLAN_EID_VENDOR_SPECIFIC : Z := 221.

(** ** The result of parsing *)

(** The pointers of [struct ieee802_11_elems]. *)
Inductive field := ssid | supp_rates | fh_params | ds_params | cf_params | tim | ibss_params | challenge | wpa | rsn
  | erp_info | ext_supp_rates | wmm_info | wmm_param | ht_cap_elem | ht_operation | vht_cap_elem | vht_operation
  | mesh_config | mesh_id | peering | preq | prep | perr | rann | ch_switch_ie | country_elem | pwr_constr_elem
  | quiet_elem | timeout_int.

#[global] Instance field_eq_dec : EqDecision field.
Proof. solve_decision. Defined.

(** [at_field e f] is the offset of the data and its length; the structure
    keeps the length only of fields whose size is not fixed. *)
Record elems := Elems { at_field : field -> option (nat * Z); num_of_quiet_elem : Z; parse_error : bool }.

Definition set_field (e : elems) (f : field) (v : nat * Z) : elems :=
  Elems (fun g => if decide (g = f) then Some v else at_field e g) (num_of_quiet_elem e) (parse_error e).
Definition set_error (e : elems) : elems := Elems (at_field e) (num_of_quiet_elem e) true.
Definition count_quiet (e : elems) : elems := Elems (at_field e) (u8 (num_of_quiet_elem e + 1)) (parse_error e).
Definition no_elems : elems := Elems (fun _ => None) 0 false.

(** ** The elements of fixed meaning *)

Inductive size := AnySize | AtLeast (n : Z) | Exactly (n : Z).

#[global] Instance size_eq_dec : EqDecision size.
Proof. solve_decision. Defined.

Definition size_ok (s : size) (elen : Z) : bool :=
  match s with AnySize => true | AtLeast n => n <=? elen | Exactly n => elen =? n end.

(** The field an element is stored in and the size it must have. *)
Definition rules : list (Z * (field * size)) :=
  [(WLAN_EID_SSID, (ssid, AnySize)); (WLAN_EID_SUPP_RATES, (supp_rates, AnySize)); (WLAN_EID_FH_PARAMS, (fh_params, AnySize));
   (WLAN_EID_DS_PARAMS, (ds_params, AnySize)); (WLAN_EID_CF_PARAMS, (cf_params, AnySize)); (WLAN_EID_TIM, (tim, AtLeast 4));
   (WLAN_EID_IBSS_PARAMS, (ibss_params, AnySize)); (WLAN_EID_CHALLENGE, (challenge, AnySize)); (WLAN_EID_RSN, (rsn, AnySize));
   (WLAN_EID_ERP_INFO, (erp_info, AnySize)); (WLAN_EID_EXT_SUPP_RATES, (ext_supp_rates, AnySize));
   (WLAN_EID_HT_CAPABILITY, (ht_cap_elem, AtLeast 26)); (WLAN_EID_HT_OPERATION, (ht_operation, AtLeast 22));
   (WLAN_EID_VHT_CAPABILITY, (vht_cap_elem, AtLeast 12)); (WLAN_EID_VHT_OPERATION, (vht_operation, AtLeast 5));
   (WLAN_EID_MESH_ID, (mesh_id, AnySize)); (WLAN_EID_MESH_CONFIG, (mesh_config, AtLeast 7)); (WLAN_EID_PEER_MGMT, (peering, AnySize));
   (WLAN_EID_PREQ, (preq, AnySize)); (WLAN_EID_PREP, (prep, AnySize)); (WLAN_EID_PERR, (perr, AnySize)); (WLAN_EID_RANN, (rann, AtLeast 21));
   (WLAN_EID_CHANNEL_SWITCH, (ch_switch_ie, Exactly 3)); (WLAN_EID_COUNTRY, (country_elem, AnySize));
   (WLAN_EID_PWR_CONSTRAINT, (pwr_constr_elem, Exactly 1)); (WLAN_EID_TIMEOUT_INTERVAL, (timeout_int, AnySize))].

Definition elem_rule (id : Z) : option (field * size) := snd <$> List.find (fun r => fst r =? id) rules.

(** The elements of which a second one is an error. *)
Definition once (id : Z) : bool := existsb (fun r => fst r =? id) rules || (id =? WLAN_EID_EXT_CHANSWITCH_ANN).

Section Parser.
Context (crc32_be : Z -> list Z -> Z).

Record state := St { el : elems; seen_elems : Z -> bool; crc : Z }.

Definition add_crc (s : state) (b : list Z) (pos : nat) (elen : Z) : state :=
  St (el s) (seen_elems s) (crc32_be (crc s) (take (Z.to_nat elen + 2) (drop (pos - 2) b))).

(** A vendor element: Microsoft's WPA and WMM elements are kept, the last
    one of each kind. *)
Definition vendor_elem (calc_crc : bool) (b : list Z) (pos : nat) (elen : Z) (s : state) : option state :=
  if 4 <=? elen then
    b0 ← b !! pos;
    b1 ← b !! (pos + 1)%nat;
    b2 ← b !! (pos + 2)%nat;
    if (b0 =? 0x00) && (b1 =? 0x50) && (b2 =? 0xf2) then
      let s := if calc_crc then add_crc s b pos elen else s in
      b3 ← b !! (pos + 3)%nat;
      if b3 =? 1 then Some (St (set_field (el s) wpa (pos, elen)) (seen_elems s) (crc s))
      else if (5 <=? elen) && (b3 =? 2) then
        b4 ← b !! (pos + 4)%nat;
        if b4 =? 0 then Some (St (set_field (el s) wmm_info (pos, elen)) (seen_elems s) (crc s))
        else if b4 =? 1 then Some (St (set_field (el s) wmm_param (pos, elen)) (seen_elems s) (crc s))
        else Some s
      else Some s
    else Some s
  else Some s.

(** One element whose data is at [pos]. *)
Definition parse_elem (filter : Z) (b : list Z) (pos : nat) (id elen : Z) (s : state) : option state :=
  let calc_crc := negb (filter =? 0) in
  if once id && seen_elems s id then Some (St (set_error (el s)) (seen_elems s) (crc s))
  else
    let s := if calc_crc && (id <? 64) && Z.testbit filter id then add_crc s b pos elen else s in
    let mark s := St (el s) (fun j => (j =? id) || seen_elems s j) (crc s) in
    match elem_rule id with
    | Some (f, sz) =>
        if size_ok sz elen then Some (mark (St (set_field (el s) f (pos, elen)) (seen_elems s) (crc s)))
        else Some (St (set_error (el s)) (seen_elems s) (crc s))
    | None =>
        if id =? WLAN_EID_VENDOR_SPECIFIC then mark <$> vendor_elem calc_crc b pos elen s
        else if id =? WLAN_EID_QUIET then
          let e := match at_field (el s) quiet_elem with None => set_field (el s) quiet_elem (pos, elen) | Some _ => el s end in
          Some (mark (St (count_quiet e) (seen_elems s) (crc s)))
        else Some (mark s)
    end.

Fixpoint parse_loop (fuel : nat) (filter : Z) (b : list Z) (pos left : nat) (s : state) : option state :=
  match fuel with
  | O => None
  | S fuel =>
      if (2 <=? left)%nat then
        id ← b !! pos;
        elen ← b !! (pos + 1)%nat;
        let left := (left - 2)%nat in
        if Z.of_nat left <? elen then Some (St (set_error (el s)) (seen_elems s) (crc s))
        else
          s ← parse_elem filter b (pos + 2) id elen s;
          parse_loop fuel filter b (pos + 2 + Z.to_nat elen) (left - Z.to_nat elen) s
      else Some (if (left =? 0)%nat then s else St (set_error (el s)) (seen_elems s) (crc s))
  end.

Definition ieee802_11_parse_elems_crc (start : list Z) (filter crc0 : Z) : option (elems * Z) :=
  (fun s => (el s, crc s)) <$> parse_loop (S (length start)) filter start 0 (length start) (St no_elems (fun _ => false) crc0).

Definition ieee802_11_parse_elems (start : list Z) : option elems := fst <$> ieee802_11_parse_elems_crc start 0 0.

(** ** Searching *)

(** The loop of [cfg80211_find_ie]: the place it stops at and the length
    left, which can be negative. *)
Fixpoint find_ie_loop (fuel : nat) (eid : Z) (ies : list Z) (pos : nat) (len : Z) : option (nat * Z) :=
  match fuel with
  | O => None
  | S fuel =>
      if 2 <? len then
        id ← ies !! pos;
        if id =? eid then Some (pos, len)
        else
          l ← ies !! (pos + 1)%nat;
          find_ie_loop fuel eid ies (pos + Z.to_nat l + 2) (len - (l + 2))
      else Some (pos, len)
  end.

(** The outer [None] is a read outside the buffer, the inner a null pointer. *)
Definition find_ie_at (eid : Z) (ies : list Z) (pos : nat) (len : Z) : option (option nat) :=
  r ← find_ie_loop (S (length ies)) eid ies pos len;
  let '(pos, len) := r in
  if len <? 2 then Some None
  else
    l ← ies !! (pos + 1)%nat;
    if len <? 2 + l then Some None else Some (Some pos).

Definition cfg80211_find_ie (eid : Z) (ies : list Z) : option (option nat) := find_ie_at eid ies 0 (Z.of_nat (length ies)).

Fixpoint find_vendor_loop (fuel : nat) (oui oui_type : Z) (ies : list Z) (pos : nat) : option (option nat) :=
  match fuel with
  | O => None
  | S fuel =>
      if (pos <? length ies)%nat then
        r ← find_ie_at WLAN_EID_VENDOR_SPECIFIC ies pos (Z.of_nat (length ies - pos));
        match r with
        | None => Some None
        | Some pos =>
            if (length ies - pos <? 6)%nat then Some None
            else
              let ie_oui := Z.lor (Z.lor (Z.shiftl (ies.[pos + 2]) 16) (Z.shiftl (ies.[pos + 3]) 8)) (ies.[pos + 4]) in
              if (ie_oui =? oui) && (ies.[pos + 5] =? oui_type) then Some (Some pos)
              else find_vendor_loop fuel oui oui_type ies (pos + 2 + Z.to_nat (ies.[pos + 1]))
        end
      else Some None
  end.

Definition cfg80211_find_vendor_ie (oui oui_type : Z) (ies : list Z) : option (option nat) :=
  find_vendor_loop (S (length ies)) oui oui_type ies 0.

(** ** Splitting *)

Definition ieee80211_id_in_list (ids : list Z) (id : Z) : bool := existsb (fun i => i =? id) ids.

Fixpoint ie_split_loop (fuel : nat) (ies ids : list Z) (pos : nat) : option nat :=
  match fuel with
  | O => None
  | S fuel =>
      if (pos <? length ies)%nat then
        id ← ies !! pos;
        if ieee80211_id_in_list ids id then
          l ← ies !! (pos + 1)%nat;
          ie_split_loop fuel ies ids (pos + 2 + Z.to_nat l)
        else Some pos
      else Some pos
  end.

Definition ieee80211_ie_split (ies ids : list Z) (offset : nat) : option nat :=
  ie_split_loop (S (length ies)) ies ids offset.

(** ** Probe requests *)

(** A band: the rates in units of 100 kbit/s, whether it is the 2.4 GHz band,
    and the contents of its HT and VHT elements, if it has them. *)
Record sband := Sband { bitrates : list Z; is_2ghz : bool; ht_cap : option (Z * Z * Z * list Z); vht_cap : option (Z * list Z) }.

(** HT capabilities, factor, density and MCS set (16 bytes). *)
Definition ieee80211_ie_build_ht_cap (h : Z * Z * Z * list Z) : list Z :=
  let '(cap, factor, density, mcs) := h in
  [WLAN_EID_HT_CAPABILITY; 26] ++ put_le16 cap ++ [u8 (Z.lor factor (Z.shiftl density 2))] ++ mcs ++ repeat 0 7.

(** VHT capabilities and MCS set (8 bytes). *)
Definition ieee80211_ie_build_vht_cap (v : Z * list Z) : list Z :=
  let '(cap, mcs) := v in [WLAN_EID_VHT_CAPABILITY; 12] ++ put_le32 cap ++ mcs.

Definition before_extrates : list Z := [WLAN_EID_SSID; WLAN_EID_SUPP_RATES; WLAN_EID_REQUEST].
Definition before_ht : list Z :=
  [WLAN_EID_SSID; WLAN_EID_SUPP_RATES; WLAN_EID_REQUEST; WLAN_EID_EXT_SUPP_RATES; WLAN_EID_DS_PARAMS; WLAN_EID_SUPPORTED_REGULATORY_CLASSES].

Definition preq_rates (bitrates : list Z) (rate_mask : Z) : list Z :=
  omap (fun x => if Z.testbit rate_mask (Z.of_nat x.1) then Some (u8 (x.2 / 5)) else None) (imap pair bitrates).

(** A buffer of a given size that is being filled: the bytes written, and
    whether the rest has been given up for lack of room. *)
Record out := Out { written : list Z; full : bool }.

Definition put (buffer_len : nat) (o : out) (l : list Z) : out :=
  if full o then o
  else if (buffer_len - length (written o) <? length l)%nat then Out (written o) true
  else Out (written o ++ l) false.

(** The custom elements from [offset] to [noffset]; unsigned subtraction of a
    larger offset leaves no room. *)
Definition put_ies (buffer_len : nat) (o : out) (ie : list Z) (offset noffset : nat) : option out :=
  if full o then Some o
  else if (noffset <? offset)%nat || (buffer_len - length (written o) <? noffset - offset)%nat then Some (Out (written o) true)
  else if (length ie <? noffset)%nat then None
  else Some (put buffer_len o (take (noffset - offset) (drop offset ie))).

Definition ieee80211_build_preq_ies (buffer_len : nat) (ie : list Z) (sb : sband) (rate_mask channel : Z) : option (list Z) :=
  let rates := preq_rates (bitrates sb) rate_mask in
  if (32 <? length rates)%nat then None
  else
    let supp_rates_len := Nat.min (length rates) 8 in
    let o := put buffer_len (Out [] false) (WLAN_EID_SUPP_RATES :: Z.of_nat supp_rates_len :: take supp_rates_len rates) in
    noffset ← (if (length ie =? 0)%nat || full o then Some 0%nat else ieee80211_ie_split ie before_extrates 0);
    o ← put_ies buffer_len o ie 0 noffset;
    let offset := noffset in
    let ext_rates_len := (length rates - supp_rates_len)%nat in
    let o := if (0 <? ext_rates_len)%nat
             then put buffer_len o (WLAN_EID_EXT_SUPP_RATES :: Z.of_nat ext_rates_len :: drop supp_rates_len rates) else o in
    let o := if negb (channel =? 0) && is_2ghz sb then put buffer_len o [WLAN_EID_DS_PARAMS; 1; channel] else o in
    noffset ← (if (length ie =? 0)%nat || full o then Some offset else ieee80211_ie_split ie before_ht offset);
    o ← put_ies buffer_len o ie offset noffset;
    let offset := noffset in
    let o := match ht_cap sb with Some h => put buffer_len o (ieee80211_ie_build_ht_cap h) | None => o end in
    o ← (if (length ie =? 0)%nat then Some o else put_ies buffer_len o ie offset (length ie));
    let o := match vht_cap sb with Some v => put buffer_len o (ieee80211_ie_build_vht_cap v) | None => o end in
    Some (written o).

(** ** Well-formed elements *)

(** An element by its number and data; a parsed one by the offset of its
    data, its number and its length. *)
Definition encode1 (e : Z * list Z) : list Z := e.1 :: Z.of_nat (length e.2) :: e.2.
Definition encode (es : list (Z * list Z)) : list Z := concat (encode1 <$> es).

Record part := Part { off : nat; id : Z; len : Z }.
Fixpoint layout (pos : nat) (es : list (Z * list Z)) : list part :=
  match es with
  | [] => []
  | (i, d) :: es => Part (pos + 2) i (Z.of_nat (length d)) :: layout (pos + 2 + length d) es
  end.

(** No further element can be read. *)
Definition stuck (rest : list Z) : Prop :=
  (length rest < 2)%nat \/ Z.of_nat (length rest) - 2 < rest.[1].

Lemma length_encode1 e : length (encode1 e) = S (S (length e.2)).
Proof. done. Qed.

(** Every buffer is a sequence of elements and a rest. *)
Lemma decompose b : bytes b -> exists es rest, b = encode es ++ rest /\ stuck rest.
Proof.
  remember (length b) as n eqn:Hn; revert b Hn; induction n as [n IH] using lt_wf_ind; intros b Hn Hb.
  destruct b as [|i [|l b]]; [by exists [], []; split; [|left; simpl; lia]|by exists [], [i]; split; [|left; simpl; lia]|].
  apply list.Forall_cons in Hb as [Hi Hb]; apply list.Forall_cons in Hb as [Hl Hb].
  destruct (Z.ltb_spec (Z.of_nat (length b)) l) as [Hs|Hs].
  - exists [], (i :: l :: b); split; [done|right]; simpl length; unfold byte_at; simpl; lia.
  - unfold is_uint in Hl; simpl in Hn.
    destruct (IH (length (drop (Z.to_nat l) b)) ltac:(rewrite length_drop; lia) _ eq_refl) as (es & rest & E & Hst).
    { by apply Forall_drop. }
    exists ((i, take (Z.to_nat l) b) :: es), rest; split; [|done].
    unfold encode; rewrite fmap_cons; cbn [concat]; fold (encode es); rewrite <- app_assoc, <- E; unfold encode1; simpl.
    rewrite length_take, Nat.min_l by lia; rewrite Z2Nat.id by lia; by rewrite take_drop.
Qed.

Definition good (x : part) : bool := match elem_rule (id x) with Some (_, sz) => size_ok sz (len x) | None => true end.

(** The field a vendor element is kept in. *)
Definition vendor_field (b : list Z) (x : part) : option field :=
  if (id x =? WLAN_EID_VENDOR_SPECIFIC) && (4 <=? len x) &&
     ((b.[off x] =? 0x00) && (b.[off x + 1] =? 0x50) && (b.[off x + 2] =? 0xf2)) then
    if b.[off x + 3] =? 1 then Some wpa
    else if (5 <=? len x) && (b.[off x + 3] =? 2) then
      if b.[off x + 4] =? 0 then Some wmm_info else if b.[off x + 4] =? 1 then Some wmm_param else None
    else None
  else None.

Definition once_ids (l : list part) : list Z := filter (fun i => once i) (id <$> l).
Definition place (x : part) : nat * Z := (off x, len x).

(** What has been recorded after the elements [l] of [b]. *)
Record recorded (b : list Z) (l : list part) (e : elems) (seen : Z -> bool) : Prop := {
  rec_rule : forall i f sz, elem_rule i = Some (f, sz) -> at_field e f = place <$> List.find (fun x => (id x =? i) && size_ok sz (len x)) l;
  rec_seen : forall i, seen i = existsb (fun x => (id x =? i) && good x) l;
  rec_error : parse_error e = false <-> forallb good l = true /\ NoDup (once_ids l);
  rec_quiet : at_field e quiet_elem = place <$> List.find (fun x => id x =? WLAN_EID_QUIET) l;
  rec_count : num_of_quiet_elem e = u8 (Z.of_nat (length (filter (fun x => id x = WLAN_EID_QUIET) l)));
  rec_vendor : forall f, f = wpa \/ f = wmm_info \/ f = wmm_param ->
    at_field e f = place <$> List.find (fun x => bool_decide (vendor_field b x = Some f)) (rev l) }.

Lemma rules_inj : forallb (fun r => forallb (fun r' => implb (bool_decide (r.2.1 = r'.2.1)) (r.1 =? r'.1)) rules) rules = true.
Proof. reflexivity. Qed.

Lemma elem_rule_in i f sz : elem_rule i = Some (f, sz) -> In (i, (f, sz)) rules.
Proof.
  unfold elem_rule; destruct (List.find _ rules) as [[j [g t]]|] eqn:E; [|done]; simpl; intros [= -> ->].
  apply find_some in E as [Hin Hj]; simpl in Hj; apply Z.eqb_eq in Hj as ->; done.
Qed.

Lemma elem_rule_inj i j f sz sz' : elem_rule i = Some (f, sz) -> elem_rule j = Some (f, sz') -> i = j.
Proof.
  intros Hi Hj; apply elem_rule_in in Hi, Hj; pose proof rules_inj as H.
  rewrite forallb_forall in H; specialize (H _ Hi); rewrite forallb_forall in H; specialize (H _ Hj); simpl in H.
  rewrite bool_decide_eq_true_2 in H by done; by apply Z.eqb_eq in H.
Qed.

Lemma rule_fields i f sz : elem_rule i = Some (f, sz) -> f <> quiet_elem /\ f <> wpa /\ f <> wmm_info /\ f <> wmm_param.
Proof.
  clear crc32_be; intros H; apply elem_rule_in in H.
  assert (Hf : forallb (fun r => negb (bool_decide (r.2.1 = quiet_elem)) && negb (bool_decide (r.2.1 = wpa)) &&
    negb (bool_decide (r.2.1 = wmm_info)) && negb (bool_decide (r.2.1 = wmm_param))) rules = true) by reflexivity.
  rewrite forallb_forall in Hf; specialize (Hf _ H); simpl in Hf; rewrite !andb_true_iff, !negb_true_iff, !bool_decide_eq_false in Hf; tauto.
Qed.

Lemma once_rule i f sz : elem_rule i = Some (f, sz) -> once i = true.
Proof.
  intros H; apply elem_rule_in in H; unfold once; apply orb_true_iff; left; apply existsb_exists.
  eexists; split; [exact H|]; simpl; apply Z.eqb_refl.
Qed.

Lemma find_snoc {A} (p : A -> bool) l x :
  List.find p (l ++ [x]) = match List.find p l with Some y => Some y | None => if p x then Some x else None end.
Proof. induction l as [|y l IH]; simpl; [done|]; by destruct (p y). Qed.

Lemma existsb_find_none {A} (p : A -> bool) l : existsb p l = false -> List.find p l = None.
Proof. induction l as [|y l IH]; simpl; [done|]; destruct (p y); simpl; [done|exact IH]. Qed.

Lemma existsb_find_some {A} (p : A -> bool) l : existsb p l = true -> is_Some (List.find p l).
Proof. induction l as [|y l IH]; simpl; [done|]; destruct (p y); simpl; [by eexists|exact IH]. Qed.

Lemma existsb_ext {A} (p q : A -> bool) l : (forall y, p y = q y) -> existsb p l = existsb q l.
Proof. intros H; induction l as [|y l IH]; simpl; [done|]; by rewrite H, IH. Qed.

Lemma once_ids_snoc l x : once_ids (l ++ [x]) = once_ids l ++ (if once (id x) then [id x] else []).
Proof.
  unfold once_ids; rewrite fmap_app, list.filter_app; simpl; f_equal.
  rewrite list.filter_cons, list.filter_nil; destruct (once (id x)); done.
Qed.

(** Seen elements, when all are good. *)
Lemma seen_once_ids l i : once i = true -> forallb good l = true ->
  existsb (fun x => (id x =? i) && good x) l = bool_decide (i ∈ once_ids l).
Proof.
  intros Ho Hg; apply Bool.eq_iff_eq_true; rewrite bool_decide_eq_true, existsb_exists; split.
  - intros (x & Hx & H); apply andb_true_iff in H as [H _]; apply Z.eqb_eq in H as <-.
    apply list_elem_of_filter; split; [by apply Is_true_true|]; apply list_elem_of_fmap_2, list_elem_of_In; done.
  - intros H; apply list_elem_of_filter in H as [_ H]; apply list_elem_of_fmap in H as (x & -> & Hx); apply list_elem_of_In in Hx.
    exists x; split; [done|]; rewrite Z.eqb_refl; rewrite forallb_forall in Hg; by apply Hg.
Qed.

Lemma error_snoc l x : existsb (fun y => (id y =? id x) && good y) l = false \/ once (id x) = false ->
  (forallb good (l ++ [x]) = true /\ NoDup (once_ids (l ++ [x]))) <-> ((forallb good l = true /\ NoDup (once_ids l)) /\ good x = true).
Proof.
  intros Hx; rewrite forallb_app, andb_true_iff, once_ids_snoc; simpl; rewrite andb_true_r.
  split; [intros [[Hl Hgx] Hn]; apply list.NoDup_app in Hn as (Hn & _); done|].
  intros [[Hl Hn] Hgx]; split; [done|]; destruct (once (id x)) eqn:Ho; [|by rewrite app_nil_r].
  destruct Hx as [Hx|]; [|done]; rewrite seen_once_ids in Hx by done; apply bool_decide_eq_false in Hx.
  apply list.NoDup_app; split_and!; [done| |by apply list.NoDup_singleton].
  intros i Hi Hi'; apply list_elem_of_singleton in Hi' as ->; done.
Qed.

Lemma vendor_not_rule : elem_rule WLAN_EID_VENDOR_SPECIFIC = None /\ elem_rule WLAN_EID_QUIET = None.
Proof. done. Qed.

(** The field a vendor element sets, as the parser computes it. *)
Lemma vendor_elem_spec cc b x s : 0 <= len x -> (off x + Z.to_nat (len x) <= length b)%nat -> id x = WLAN_EID_VENDOR_SPECIFIC ->
  exists s', vendor_elem cc b (off x) (len x) s = Some s' /\ seen_elems s' = seen_elems s /\
    el s' = match vendor_field b x with Some f => set_field (el s) f (place x) | None => el s end.
Proof.
  intros Hl Hb Hid; unfold vendor_elem, vendor_field; rewrite Hid; cbn [andb Z.eqb WLAN_EID_VENDOR_SPECIFIC Pos.eqb].
  destruct (Z.leb_spec 4 (len x)); [|by eexists; split; [|split]]; cbn [andb].
  rewrite (lookup_byte_at b (off x)), (lookup_byte_at b (off x + 1)), (lookup_byte_at b (off x + 2)) by lia; simpl.
  destruct ((b.[off x] =? 0) && (b.[off x + 1] =? 80) && (b.[off x + 2] =? 242)); [|by eexists; split; [|split]].
  rewrite (lookup_byte_at b (off x + 3)) by lia; simpl.
  assert (Hcc : forall s0, el (if cc then add_crc s0 b (off x) (len x) else s0) = el s0 /\
    seen_elems (if cc then add_crc s0 b (off x) (len x) else s0) = seen_elems s0) by (intros; by destruct cc).
  destruct (Hcc s) as [He Hs]; set (s1 := if cc then _ else s) in *.
  destruct (b.[off x + 3] =? 1); [eexists; split; [done|]; simpl; by rewrite Hs, He|].
  destruct (Z.leb_spec 5 (len x)); [|eexists; split; [done|]; simpl; by rewrite Hs, He]; cbn [andb].
  destruct (b.[off x + 3] =? 2); [|eexists; split; [done|]; simpl; by rewrite Hs, He].
  rewrite (lookup_byte_at b (off x + 4)) by lia; simpl.
  destruct (b.[off x + 4] =? 0); [eexists; split; [done|]; simpl; by rewrite Hs, He|].
  destruct (b.[off x + 4] =? 1); eexists; split; [done| |done|]; simpl; by rewrite Hs, He.
Qed.

Lemma vendor_field_id b x f : vendor_field b x = Some f -> id x = WLAN_EID_VENDOR_SPECIFIC /\ (f = wpa \/ f = wmm_info \/ f = wmm_param).
Proof. unfold vendor_field; destruct (Z.eqb_spec (id x) WLAN_EID_VENDOR_SPECIFIC); simpl; [|done]; repeat case_match; intros [= <-]; auto. Qed.

Lemma rev_snoc_find b l x f : vendor_field b x <> Some f ->
  List.find (fun y => bool_decide (vendor_field b y = Some f)) (rev (l ++ [x])) = List.find (fun y => bool_decide (vendor_field b y = Some f)) (rev l).
Proof. intros H; rewrite rev_app_distr; simpl; by rewrite bool_decide_eq_false_2. Qed.

Lemma quiet_count_snoc l x : u8 (Z.of_nat (length (filter (fun y => id y = WLAN_EID_QUIET) (l ++ [x])))) =
  u8 (u8 (Z.of_nat (length (filter (fun y => id y = WLAN_EID_QUIET) l))) + (if id x =? WLAN_EID_QUIET then 1 else 0)).
Proof.
  rewrite list.filter_app, length_app, list.filter_cons, list.filter_nil; unfold u8, wrap.
  rewrite Zplus_mod_idemp_l; destruct (Z.eqb_spec (id x) WLAN_EID_QUIET).
  - rewrite decide_True by done; simpl; f_equal; lia.
  - rewrite decide_False by done; simpl; f_equal; lia.
Qed.

(** Case analysis on a search in [l]. *)
Ltac dfind l E := match goal with |- context [List.find ?p l] => destruct (List.find p l) eqn:E end.

(** An element that changes neither fields nor counts, with the flag it
    leaves and the mark it may set. *)
Lemma recorded_plain b l x e e' seen seen' : recorded b l e seen -> at_field e' = at_field e -> num_of_quiet_elem e' = num_of_quiet_elem e ->
  (forall i, seen' i = seen i || ((id x =? i) && good x)) ->
  (forall i f sz, elem_rule i = Some (f, sz) -> (id x =? i) && size_ok sz (len x) = true -> seen i = true) ->
  id x <> WLAN_EID_QUIET -> vendor_field b x = None ->
  (parse_error e' = false <-> forallb good (l ++ [x]) = true /\ NoDup (once_ids (l ++ [x]))) ->
  recorded b (l ++ [x]) e' seen'.
Proof.
  intros [R S E Q C V] Ha Hn Hs Hr Hq Hv He; split; try done.
  - intros i f sz Hi; rewrite Ha, find_snoc, (R i f sz Hi).
    dfind l Ef; [done|]; destruct ((id x =? i) && size_ok sz (len x)) eqn:Ex; [|done].
    specialize (Hr i f sz Hi Ex); rewrite S in Hr.
    assert (Hp : existsb (fun y => (id y =? i) && size_ok sz (len y)) l = true).
    { apply existsb_exists in Hr as (y & Hy & Hy'); apply existsb_exists; exists y; split; [done|].
      apply andb_true_iff in Hy' as [H1 H2]; apply Z.eqb_eq in H1; unfold good in H2; rewrite H1, Hi in H2.
      by rewrite H1, Z.eqb_refl. }
    apply existsb_find_some in Hp; rewrite Ef in Hp; by destruct Hp.
  - intros i; rewrite Hs, S, existsb_app; simpl; by rewrite orb_false_r.
  - rewrite Ha, Q, find_snoc; destruct (Z.eqb_spec (id x) WLAN_EID_QUIET); [done|]; by dfind l Ef.
  - rewrite Hn, C, quiet_count_snoc; destruct (Z.eqb_spec (id x) WLAN_EID_QUIET); [done|]; unfold u8; by rewrite Z.add_0_r, wrap_wrap.
  - intros f Hf; rewrite Ha, rev_snoc_find, V by (rewrite ?Hv; done); done.
Qed.

Lemma mark_spec (seen : Z -> bool) x i : (fun j => (j =? id x) || seen j) i = seen i || (id x =? i).
Proof. simpl; by rewrite orb_comm, Z.eqb_sym. Qed.

Lemma parse_elem_records filter b l x s : recorded b l (el s) (seen_elems s) ->
  0 <= len x -> (off x + Z.to_nat (len x) <= length b)%nat ->
  exists s', parse_elem filter b (off x) (id x) (len x) s = Some s' /\ recorded b (l ++ [x]) (el s') (seen_elems s').
Proof.
  intros H Hl Hb; unfold parse_elem.
  destruct (once (id x) && seen_elems s (id x)) eqn:Hdup.
  - apply andb_true_iff in Hdup as [Ho Hd]; eexists; split; [done|]; simpl.
    assert (Hv : vendor_field b x = None).
    { destruct (vendor_field b x) eqn:E; [|done]; apply vendor_field_id in E as [E _]; by rewrite E in Ho. }
    eapply recorded_plain; try done.
    + intros i; destruct (Z.eqb_spec (id x) i) as [<-|]; simpl; [by rewrite Hd | by rewrite orb_false_r].
    + intros i f sz _ Hi; apply andb_true_iff in Hi as [Hi _]; by apply Z.eqb_eq in Hi as <-.
    + intros Hq; by rewrite Hq in Ho.
    + simpl; split; [done|intros [Hg Hn]; exfalso].
      rewrite forallb_app in Hg; apply andb_true_iff in Hg as [Hg _].
      rewrite (rec_seen _ _ _ _ H), seen_once_ids in Hd by done; apply bool_decide_eq_true in Hd.
      rewrite once_ids_snoc, Ho in Hn; apply list.NoDup_app in Hn as (_ & Hn & _); apply (Hn _ Hd); by constructor.
  - assert (Hns : existsb (fun y => (id y =? id x) && good y) l = false \/ once (id x) = false).
    { apply andb_false_iff in Hdup as [|Hdup]; [by right|left]; by rewrite <- (rec_seen _ _ _ _ H). }
    set (s1 := if _ && _ && _ then _ else s).
    assert (H1 : recorded b l (el s1) (seen_elems s1)) by (unfold s1; by destruct (_ && _ && _)).
    clearbody s1; clear H s Hdup; rename s1 into s, H1 into H; pose proof H as [R S E Q C V].
    assert (Herr : parse_error (el s) = false /\ good x = true <-> forallb good (l ++ [x]) = true /\ NoDup (once_ids (l ++ [x]))).
    { rewrite error_snoc by done; by rewrite E. }
    destruct (elem_rule (id x)) as [[f sz]|] eqn:Hr.
    + pose proof (once_rule _ _ _ Hr) as Ho; destruct Hns as [Hns|]; [|congruence].
      pose proof (rule_fields _ _ _ Hr) as (Hf1 & Hf2 & Hf3 & Hf4).
      assert (Hv : vendor_field b x = None).
      { destruct (vendor_field b x) eqn:Ev; [|done]; apply vendor_field_id in Ev as [Ev _]; by rewrite Ev in Hr. }
      assert (Hq : id x <> WLAN_EID_QUIET) by (intros Hq; by rewrite Hq in Hr).
      assert (Hg : good x = size_ok sz (len x)) by (unfold good; by rewrite Hr).
      destruct (size_ok sz (len x)) eqn:Hsz; (eexists; split; [done|]; simpl).
      * split; simpl.
        -- intros i g sz' Hi; rewrite find_snoc; destruct (decide (g = f)) as [->|Hgf].
           ++ pose proof (elem_rule_inj _ _ _ _ _ Hi Hr) as ->; rewrite Hr in Hi; injection Hi as <-.
              rewrite existsb_find_none, Z.eqb_refl, Hsz; [done|].
              erewrite existsb_ext; [exact Hns|]; intros y; simpl; destruct (Z.eqb_spec (id y) (id x)) as [Ey|]; [|done].
              unfold good; by rewrite Ey, Hr.
           ++ rewrite (R i g sz' Hi); dfind l Ef; [done|]; destruct (Z.eqb_spec (id x) i) as [<-|]; [|done].
              rewrite Hr in Hi; by injection Hi as <- _.
        -- intros i; rewrite existsb_app; simpl; rewrite orb_false_r, <- S, Hg, andb_true_r, orb_comm, Z.eqb_sym; done.
        -- rewrite <- Herr; rewrite Hg; tauto.
        -- rewrite decide_False by congruence; rewrite Q, find_snoc; destruct (Z.eqb_spec (id x) WLAN_EID_QUIET); [done|]; by dfind l Ef.
        -- rewrite C, quiet_count_snoc; destruct (Z.eqb_spec (id x) WLAN_EID_QUIET); [done|]; unfold u8; by rewrite Z.add_0_r, wrap_wrap.
        -- intros g Hgv; rewrite decide_False by (intros ->; tauto); rewrite rev_snoc_find, V by (rewrite ?Hv; done); done.
      * eapply recorded_plain; try done.
        -- intros i; by rewrite Hg, andb_false_r, orb_false_r.
        -- intros i g sz' Hi Hx; apply andb_true_iff in Hx as [Hx Hx']; apply Z.eqb_eq in Hx as <-; rewrite Hr in Hi; congruence.
        -- simpl; rewrite <- Herr, Hg; split; [done|intros [_ ?]; done].
    + assert (Hg : good x = true) by (unfold good; by rewrite Hr).
      assert (Hnr : forall i f sz, elem_rule i = Some (f, sz) -> (id x =? i) && size_ok sz (len x) = true -> seen_elems s i = true).
      { intros i f sz Hi Hx; apply andb_true_iff in Hx as [Hx _]; apply Z.eqb_eq in Hx as <-; congruence. }
      assert (Hmk : forall i, ((i =? id x) || seen_elems s i) = seen_elems s i || ((id x =? i) && good x)).
      { intros i; by rewrite Hg, andb_true_r, orb_comm, Z.eqb_sym. }
      assert (Herr' : parse_error (el s) = false <-> forallb good (l ++ [x]) = true /\ NoDup (once_ids (l ++ [x]))).
      { rewrite <- Herr, Hg; tauto. }
      destruct (Z.eqb_spec (id x) WLAN_EID_VENDOR_SPECIFIC) as [Hid|Hid].
      * destruct (vendor_elem_spec (negb (filter =? 0)) b x s Hl Hb Hid) as (s' & -> & Hse & He); simpl.
        eexists; split; [done|]; simpl; rewrite Hse, He; destruct (vendor_field b x) as [f|] eqn:Ev.
        -- pose proof (vendor_field_id _ _ _ Ev) as [_ Hf]; split; simpl.
           ++ intros i g sz Hi; pose proof (rule_fields _ _ _ Hi); rewrite decide_False by (intros ->; tauto).
              rewrite find_snoc, (R i g sz Hi); dfind l Ef; [done|].
              destruct (Z.eqb_spec (id x) i) as [<-|]; [congruence|done].
           ++ intros i; rewrite existsb_app; simpl; rewrite orb_false_r, <- S; apply Hmk.
           ++ exact Herr'.
           ++ rewrite decide_False by (destruct Hf as [-> | [-> | ->]]; done); rewrite Q, find_snoc.
              dfind l Ef; [done|]; by rewrite Hid.
           ++ rewrite C, quiet_count_snoc, Hid; simpl; unfold u8; by rewrite Z.add_0_r, wrap_wrap.
           ++ intros g Hgv; destruct (decide (g = f)) as [->|Hne].
              ** rewrite rev_app_distr; simpl; by rewrite bool_decide_eq_true_2.
              ** rewrite rev_snoc_find, V by (try done; congruence); done.
        -- eapply recorded_plain; try done; by rewrite Hid.
      * destruct (Z.eqb_spec (id x) WLAN_EID_QUIET) as [Hq|Hq].
        -- assert (Hv : vendor_field b x = None).
           { destruct (vendor_field b x) eqn:Ev; [|done]; apply vendor_field_id in Ev as [Ev _]; done. }
           eexists; split; [done|]; simpl; set (e := match at_field (el s) quiet_elem with Some _ => _ | None => _ end).
           assert (Hat : forall g, g <> quiet_elem -> at_field e g = at_field (el s) g).
           { intros g Hne; unfold e; destruct (at_field (el s) quiet_elem); [done|]; simpl; by rewrite decide_False. }
           assert (Hpe : parse_error e = parse_error (el s) /\ num_of_quiet_elem e = num_of_quiet_elem (el s)).
           { unfold e; by destruct (at_field (el s) quiet_elem). }
           destruct Hpe as [Hpe Hne]; split; simpl.
           ++ intros i g sz Hi; pose proof (rule_fields _ _ _ Hi); rewrite Hat by tauto; rewrite find_snoc, (R i g sz Hi).
              dfind l Ef; [done|]; destruct (Z.eqb_spec (id x) i) as [<-|]; [congruence|done].
           ++ intros i; rewrite existsb_app; simpl; rewrite orb_false_r, <- S; apply Hmk.
           ++ rewrite Hpe; exact Herr'.
           ++ rewrite find_snoc, Hq; unfold e; rewrite Q; dfind l Ef; simpl; [by rewrite Q|done].
           ++ rewrite Hne, C, quiet_count_snoc, Hq; done.
           ++ intros g Hgv; rewrite Hat by (intros ->; destruct Hgv as [?|[?|?]]; done).
              rewrite rev_snoc_find, V by (rewrite ?Hv; done); done.
        -- eexists; split; [done|]; simpl; eapply recorded_plain; try done.
           destruct (vendor_field b x) eqn:Ev; [|done]; apply vendor_field_id in Ev as [Ev _]; done.
Qed.

Lemma drop_encode1 pos b i d l : drop pos b = encode1 (i, d) ++ l ->
  b !! pos = Some i /\ b !! (pos + 1)%nat = Some (Z.of_nat (length d)) /\ drop (pos + 2 + length d) b = l /\
  (pos + 2 + length d + length l = length b)%nat.
Proof.
  intros H; pose proof (f_equal length H) as Hl; rewrite length_drop, length_app, length_encode1 in Hl; simpl in Hl.
  split_and!; try lia.
  - rewrite <- (Nat.add_0_r pos), <- lookup_drop, H; done.
  - rewrite <- lookup_drop, H; done.
  - rewrite <- Nat.add_assoc, <- drop_drop, H; simpl; by rewrite drop_app_length.
Qed.

Lemma recorded_nil b : recorded b [] no_elems (fun _ => false).
Proof.
  assert (Hn : NoDup (once_ids [])) by apply base.NoDup_nil_2.
  split; try done.
Qed.

Lemma parse_loop_records fuel filter b es rest pos left l s : drop pos b = encode es ++ rest -> stuck rest ->
  (pos + left = length b)%nat -> (length es < fuel)%nat -> recorded b l (el s) (seen_elems s) ->
  exists s' e seen, parse_loop fuel filter b pos left s = Some s' /\ recorded b (l ++ layout pos es) e seen /\
    el s' = if (length rest =? 0)%nat then e else set_error e.
Proof.
  revert es pos left l s; induction fuel as [|fuel IH]; intros es pos left l s Hd Hst Hp Hf Hr; [lia|].
  destruct es as [|[i d] es].
  - simpl in Hd; exists (if (length rest =? 0)%nat then s else St (set_error (el s)) (seen_elems s) (crc s)), (el s), (seen_elems s).
    cbn [parse_loop layout]; rewrite app_nil_r; split_and!; [|done|by destruct (length rest =? 0)%nat].
    assert (Hlr : left = length rest) by (rewrite <- Hd, length_drop; lia).
    destruct (Nat.leb_spec 2 left) as [H2|H2]; [|subst left; done].
    destruct rest as [|i [|n rest]]; [simpl in Hlr; lia..|]; destruct Hst as [Hst|Hst]; [simpl in Hst; lia|].
    assert (H0 : b !! pos = Some i) by (rewrite <- (Nat.add_0_r pos), <- lookup_drop, Hd; done).
    assert (H1 : b !! (pos + 1)%nat = Some n) by (rewrite <- lookup_drop, Hd; done).
    rewrite H0, H1; simpl; unfold byte_at in Hst; simpl in Hst, Hlr.
    destruct (Z.ltb_spec (Z.of_nat (left - 2)) n); [done|lia].
  - change (encode ((i, d) :: es)) with (encode1 (i, d) ++ encode es) in Hd; rewrite <- app_assoc in Hd.
    destruct (drop_encode1 _ _ _ _ _ Hd) as (H0 & H1 & H2 & H3).
    cbn [parse_loop layout]; destruct (Nat.leb_spec 2 left); [|lia]; rewrite H0, H1; cbn [mbind option_bind].
    destruct (Z.ltb_spec (Z.of_nat (left - 2)) (Z.of_nat (length d))); [lia|].
    destruct (parse_elem_records filter b l (Part (pos + 2) i (Z.of_nat (length d))) s Hr) as (s1 & E & Hr1); [simpl; lia..|].
    simpl in E; rewrite E; cbn [mbind option_bind]; rewrite Nat2Z.id.
    destruct (IH es (pos + 2 + length d)%nat (left - 2 - length d)%nat _ _ H2 Hst ltac:(lia) ltac:(simpl in Hf; lia) Hr1) as (s' & e & seen & -> & Hr' & He).
    exists s', e, seen; split_and!; [done| |done]; by rewrite <- app_assoc in Hr'.
Qed.

Lemma length_es_encode es : (length es <= length (encode es))%nat.
Proof. induction es as [|e es IH]; [done|]; unfold encode; rewrite fmap_cons; cbn [concat]; fold (encode es); rewrite length_app, length_encode1; simpl; lia. Qed.

Lemma parse_crc_records es rest filter crc0 : stuck rest ->
  exists e seen c, ieee802_11_parse_elems_crc (encode es ++ rest) filter crc0 = Some (if (length rest =? 0)%nat then e else set_error e, c) /\
    recorded (encode es ++ rest) (layout 0 es) e seen.
Proof.
  intros Hst; unfold ieee802_11_parse_elems_crc.
  destruct (parse_loop_records (S (length (encode es ++ rest))) filter (encode es ++ rest) es rest 0 (length (encode es ++ rest)) []
    (St no_elems (fun _ => false) crc0)) as (s' & e & seen & E & Hr & He); try done.
  { rewrite length_app; pose proof (length_es_encode es); lia. }
  { apply recorded_nil. }
  rewrite E; exists e, seen, (crc s'); split; [simpl; by rewrite He|exact Hr].
Qed.

Lemma layout_bounds es pos x : In x (layout pos es) -> 0 <= len x /\ (pos <= off x)%nat /\ (off x + Z.to_nat (len x) <= pos + length (encode es))%nat.
Proof.
  revert pos; induction es as [|[i d] es IH]; intros pos; [done|].
  change (encode ((i, d) :: es)) with (encode1 (i, d) ++ encode es); rewrite length_app, length_encode1; simpl.
  intros [<-|H]; simpl; [lia|]; apply IH in H; lia.
Qed.

Lemma field_cases f : (exists i sz, elem_rule i = Some (f, sz)) \/ f = quiet_elem \/ f = wpa \/ f = wmm_info \/ f = wmm_param.
Proof.
  assert (H : forallb (fun r => bool_decide (elem_rule r.1 = Some r.2)) rules = true) by reflexivity.
  assert (Hr : forall i sz, In (i, (f, sz)) rules -> elem_rule i = Some (f, sz)).
  { intros i sz Hin; rewrite forallb_forall in H; specialize (H _ Hin); by apply bool_decide_eq_true in H. }
  destruct f; try tauto; left; eexists _, _; apply Hr; simpl; tauto.
Qed.
End Parser.

(** ** Searching and splitting well-formed elements *)

Lemma encode_cons i d es : encode ((i, d) :: es) = encode1 (i, d) ++ encode es.
Proof. done. Qed.
Lemma encode_app es es' : encode (es ++ es') = encode es ++ encode es'.
Proof. unfold encode; by rewrite fmap_app, concat_app. Qed.

(** The offset of the first element [eid]; behind them, an empty last one. *)
Fixpoint first_ie (eid : Z) (pos : nat) (es : list (Z * list Z)) : option nat :=
  match es with
  | [] => None
  | [(i, [])] => Some pos
  | (i, d) :: es => if i =? eid then Some pos else first_ie eid (pos + 2 + length d) es
  end.

Lemma find_ie_at_ok fuel eid b pos es : drop pos b = encode es -> (length es < fuel)%nat ->
  (r ← find_ie_loop fuel eid b pos (Z.of_nat (length (encode es)));
   let '(pos, len) := r in
   if len <? 2 then Some None else l ← b !! (pos + 1)%nat; if len <? 2 + l then Some None else Some (Some pos))
  = Some (first_ie eid pos es).
Proof.
  revert pos es; induction fuel as [|fuel IH]; intros pos es Hd Hf; [lia|].
  destruct es as [|[i d] es]; [done|]; rewrite encode_cons in *.
  destruct (drop_encode1 _ _ _ _ _ Hd) as (H0 & H1 & H2 & H3).
  rewrite length_app, length_encode1; cbn [find_ie_loop snd].
  destruct (Z.ltb_spec 2 (Z.of_nat (S (S (length d)) + length (encode es)))) as [Hl|Hl].
  - rewrite H0; cbn [mbind option_bind].
    assert (Hne : first_ie eid pos ((i, d) :: es) = if i =? eid then Some pos else first_ie eid (pos + 2 + length d) es).
    { destruct d, es as [|[] ?]; simpl in *; try done; lia. }
    rewrite Hne; destruct (Z.eqb_spec i eid).
    + cbn [mbind option_bind]; destruct (Z.ltb_spec (Z.of_nat (S (S (length d)) + length (encode es))) 2); [lia|].
      rewrite H1; cbn [mbind option_bind].
      destruct (Z.ltb_spec (Z.of_nat (S (S (length d)) + length (encode es))) (2 + Z.of_nat (length d))); [lia|done].
    + rewrite H1; cbn [mbind option_bind]; rewrite Nat2Z.id.
      replace (Z.of_nat (S (S (length d)) + length (encode es)) - (Z.of_nat (length d) + 2)) with (Z.of_nat (length (encode es))) by lia.
      replace (pos + length d + 2)%nat with (pos + 2 + length d)%nat by lia.
      apply IH; [exact H2 | simpl in Hf; lia].
  - assert (Hd0 : length d = 0%nat /\ length (encode es) = 0%nat) by lia; destruct Hd0 as [Hd0 He0].
    apply length_zero_iff_nil in Hd0 as ->.
    assert (es = []) as -> by (pose proof (length_es_encode es); destruct es; [done|simpl in *; lia]).
    cbn [mbind option_bind]; simpl length; rewrite H1; done.
Qed.

Fixpoint take_ids (ids : list Z) (es : list (Z * list Z)) : list (Z * list Z) :=
  match es with
  | [] => []
  | e :: es => if ieee80211_id_in_list ids e.1 then e :: take_ids ids es else []
  end.

Lemma take_ids_prefix ids es : exists es', es = take_ids ids es ++ es'.
Proof. induction es as [|e es [es' IH]]; [by exists []|]; simpl; destruct (ieee80211_id_in_list ids e.1); [exists es'; simpl; by f_equal|by exists (e :: es)]. Qed.

Lemma take_ids_in ids es e : In e (take_ids ids es) -> ieee80211_id_in_list ids e.1 = true.
Proof. induction es as [|x es IH]; [done|]; simpl; destruct (ieee80211_id_in_list ids x.1) eqn:E; [|done]; intros [<-|H]; auto. Qed.

Lemma ie_split_loop_ok fuel b ids pos es : drop pos b = encode es -> (length es < fuel)%nat -> (pos <= length b)%nat ->
  ie_split_loop fuel b ids pos = Some (pos + length (encode (take_ids ids es)))%nat.
Proof.
  revert pos es; induction fuel as [|fuel IH]; intros pos es Hd Hf Hp; [lia|].
  pose proof (f_equal length Hd) as Hl; rewrite length_drop in Hl.
  destruct es as [|[i d] es].
  - simpl in *; destruct (Nat.ltb_spec pos (length b)); [lia|]; f_equal; lia.
  - rewrite encode_cons in *; destruct (drop_encode1 _ _ _ _ _ Hd) as (H0 & H1 & H2 & H3).
    cbn [ie_split_loop take_ids fst]; rewrite length_app, length_encode1 in Hl.
    destruct (Nat.ltb_spec pos (length b)); [|lia]; rewrite H0; cbn [mbind option_bind].
    destruct (ieee80211_id_in_list ids i); [|simpl; f_equal; lia].
    rewrite H1; cbn [mbind option_bind]; rewrite Nat2Z.id, (IH _ es) by (first [exact H2 | simpl in Hf; lia | lia]).
    rewrite encode_cons, length_app, length_encode1; simpl; f_equal; lia.
Qed.

Lemma ie_split_ok es1 es2 ids : 
  ieee80211_ie_split (encode (es1 ++ es2)) ids (length (encode es1)) = Some (length (encode (es1 ++ take_ids ids es2))).
Proof.
  unfold ieee80211_ie_split; rewrite (ie_split_loop_ok _ _ _ _ es2).
  - by rewrite encode_app, length_app.
  - by rewrite encode_app, drop_app_length.
  - rewrite encode_app, length_app; pose proof (length_es_encode es2); lia.
  - rewrite encode_app, length_app; lia.
Qed.

(** ** Building a probe request *)

(** The elements of a probe request when there is room for all. *)
Definition ht_elem (h : Z * Z * Z * list Z) : Z * list Z := (WLAN_EID_HT_CAPABILITY, drop 2 (ieee80211_ie_build_ht_cap h)).
Definition vht_elem (v : Z * list Z) : Z * list Z := (WLAN_EID_VHT_CAPABILITY, drop 2 (ieee80211_ie_build_vht_cap v)).

Definition sband_ok (sb : sband) : Prop :=
  (forall h, ht_cap sb = Some h -> length h.2 = 16%nat) /\ (forall v, vht_cap sb = Some v -> length v.2 = 8%nat).

Definition preq_parts (sb : sband) (rates : list Z) (channel : Z) (p1 p2 p3 : list (Z * list Z)) : list (list (Z * list Z)) :=
  [[(WLAN_EID_SUPP_RATES, take 8 rates)]; p1;
   (if (8 <? length rates)%nat then [(WLAN_EID_EXT_SUPP_RATES, drop 8 rates)] else []);
   (if negb (channel =? 0) && is_2ghz sb then [(WLAN_EID_DS_PARAMS, [channel])] else []); p2;
   (match ht_cap sb with Some h => [ht_elem h] | None => [] end); p3;
   (match vht_cap sb with Some v => [vht_elem v] | None => [] end)].

(** The buffer after some of the parts: all of them, or those that fitted. *)
Definition filled (n : nat) (parts : list (list (Z * list Z))) (o : out) : Prop :=
  (length (written o) <= n)%nat /\
  exists done rest, parts = done ++ rest /\ written o = encode (concat done) /\ (if full o then (n < length (encode (concat parts)))%nat else rest = []).

Lemma filled_nil n : filled n [] (Out [] false).
Proof. split; [simpl; lia|]; by exists [], []. Qed.

Lemma length_encode_concat_app ps p : length (encode (concat (ps ++ [p]))) = (length (encode (concat ps)) + length (encode p))%nat.
Proof. by rewrite concat_app, encode_app, length_app; simpl; rewrite app_nil_r. Qed.

Lemma filled_full n ps p o : filled n ps o -> full o = true -> filled n (ps ++ [p]) o.
Proof.
  intros (Hl & d & r & -> & Hw & Hf) E; split; [done|]; exists d, (r ++ [p]); rewrite E in Hf; split_and!; [by rewrite app_assoc|done|].
  rewrite E, length_encode_concat_app; lia.
Qed.

Lemma filled_put n ps p o : filled n ps o -> filled n (ps ++ [p]) (put n o (encode p)).
Proof.
  intros H; unfold put; destruct (full o) eqn:E; [by apply filled_full|].
  destruct H as (Hl & d & r & -> & Hw & Hf); rewrite E in Hf; subst r; rewrite app_nil_r in *.
  destruct (Nat.ltb_spec (n - length (written o)) (length (encode p))) as [Hn|Hn].
  - split; [done|]; exists d, [p]; simpl; split_and!; [done|done|]; rewrite length_encode_concat_app, <- Hw; lia.
  - split; [simpl; rewrite length_app; lia|]; exists (d ++ [p]), []; simpl; split_and!; [by rewrite app_nil_r| |done].
    by rewrite concat_app, encode_app, Hw; simpl; rewrite app_nil_r.
Qed.

Lemma filled_skip n ps o : filled n ps o -> filled n (ps ++ [[]]) o.
Proof.
  intros H; destruct (full o) eqn:E; [by apply filled_full|].
  destruct H as (Hl & d & r & -> & Hw & Hf); rewrite E in Hf; subst r; rewrite app_nil_r.
  split; [done|]; exists (d ++ [[]]), []; split_and!; [by rewrite app_nil_r| |by rewrite E].
  by rewrite concat_app; simpl; rewrite !app_nil_r.
Qed.

(** The custom elements behind [es1]. *)
Lemma filled_put_ies n ps o ies es1 p es2 : filled n ps o -> ies = encode (es1 ++ p ++ es2) ->
  exists o', put_ies n o ies (length (encode es1)) (length (encode (es1 ++ p))) = Some o' /\ filled n (ps ++ [p]) o'.
Proof.
  intros H ->; unfold put_ies; destruct (full o) eqn:E; [eexists; split; [done|by apply filled_full]|].
  rewrite !encode_app, !length_app.
  destruct (Nat.ltb_spec (length (encode es1) + length (encode p)) (length (encode es1))); [lia|]; cbn [orb].
  replace (length (encode es1) + length (encode p) - length (encode es1))%nat with (length (encode p)) by lia.
  pose proof (filled_put n ps p o H) as Hp; unfold put in *; rewrite E in *.
  destruct (Nat.ltb_spec (n - length (written o)) (length (encode p))); [by eexists|].
  destruct (Nat.ltb_spec (length (encode es1) + (length (encode p) + length (encode es2))) (length (encode es1) + length (encode p))); [lia|].
  rewrite drop_app_length, take_app_length.
  destruct (Nat.ltb_spec (n - length (written o)) (length (encode p))); [lia|by eexists].
Qed.

Lemma encode_ht h : length h.2 = 16%nat -> ieee80211_ie_build_ht_cap h = encode [ht_elem h].
Proof.
  destruct h as [[[cap factor] density] mcs]; intros Hl; unfold encode, ht_elem, encode1; simpl.
  rewrite app_nil_r, !length_app; simpl in Hl; rewrite Hl; done.
Qed.

Lemma encode_vht v : length v.2 = 8%nat -> ieee80211_ie_build_vht_cap v = encode [vht_elem v].
Proof.
  destruct v as [cap mcs]; intros Hl; unfold encode, vht_elem, encode1; simpl.
  simpl in Hl; rewrite Hl, app_nil_r; done.
Qed.

(** A split of the custom elements behind [es1], unless there is no need. *)
Lemma split_part es1 r ids (skip : bool) : exists p r', r = p ++ r' /\ Forall (fun e => ieee80211_id_in_list ids e.1 = true) p /\
  (if skip then Some (length (encode es1)) else ieee80211_ie_split (encode (es1 ++ r)) ids (length (encode es1))) = Some (length (encode (es1 ++ p))).
Proof.
  destruct skip; [by exists [], r; split_and!; [|by apply Forall_nil_2|rewrite app_nil_r]|].
  destruct (take_ids_prefix ids r) as [r' Hr]; exists (take_ids ids r), r'; split_and!; [done| |apply ie_split_ok].
  apply list.Forall_forall; intros e He; apply list_elem_of_In in He; by apply take_ids_in in He.
Qed.

Lemma filled_last_ies n ps o es1 p : filled n ps o -> exists o',
  (if (length (encode (es1 ++ p)) =? 0)%nat then Some o else put_ies n o (encode (es1 ++ p)) (length (encode es1)) (length (encode (es1 ++ p)))) = Some o' /\
  filled n (ps ++ [p]) o'.
Proof.
  intros H; destruct (Nat.eqb_spec (length (encode (es1 ++ p))) 0) as [E|E].
  - eexists; split; [done|]; pose proof (length_es_encode (es1 ++ p)) as Hl.
    assert (p = []) as -> by (rewrite length_app in Hl; destruct p; [done|simpl in Hl; lia]); by apply filled_skip.
  - apply (filled_put_ies n ps o _ es1 p [] H); by rewrite app_nil_r.
Qed.

Lemma filled_if n ps o (c : bool) p : filled n ps o -> filled n (ps ++ [if c then p else []]) (if c then put n o (encode p) else o).
Proof. destruct c; [apply filled_put | apply filled_skip]. Qed.

Lemma encode_rates eid l n : length l = n -> eid :: Z.of_nat n :: l = encode [(eid, l)].
Proof. intros <-; unfold encode, encode1; simpl; by rewrite app_nil_r. Qed.

Lemma build_preq_filled n es sb mask channel : sband_ok sb -> (length (preq_rates (bitrates sb) mask) <= 32)%nat ->
  exists o p1 p2 p3, ieee80211_build_preq_ies n (encode es) sb mask channel = Some (written o) /\ es = p1 ++ p2 ++ p3 /\
    Forall (fun e => ieee80211_id_in_list before_extrates e.1 = true) p1 /\
    filled n (preq_parts sb (preq_rates (bitrates sb) mask) channel p1 p2 p3) o.
Proof.
  intros [Hht Hvht] Hr; set (rates := preq_rates (bitrates sb) mask) in *.
  unfold ieee80211_build_preq_ies; fold rates; destruct (Nat.ltb_spec 32 (length rates)); [lia|]; cbv zeta.
  assert (Hm : (length rates `min` 8)%nat = length (take 8 rates)) by (rewrite length_take; lia).
  replace (take (length rates `min` 8) rates) with (take 8 rates) by (destruct (Nat.le_ge_cases (length rates) 8); [rewrite Nat.min_l, !take_ge by lia|rewrite Nat.min_r by lia]; done).
  rewrite Hm, (encode_rates _ (take 8 rates)) by done.
  pose proof (filled_put n [] [(WLAN_EID_SUPP_RATES, take 8 rates)] _ (filled_nil n)) as H1; simpl app in H1.
  set (o1 := put n (Out [] false) _) in *; clearbody o1.
  destruct (split_part [] es before_extrates ((length (encode es) =? 0)%nat || full o1)) as (p1 & r1 & -> & Hp1 & E1).
  simpl app in E1; simpl (length (encode [])) in E1; rewrite E1; cbn [mbind option_bind]; clear E1.
  destruct (filled_put_ies n _ o1 (encode (p1 ++ r1)) [] p1 r1 H1 eq_refl) as (o2 & E2 & H2).
  simpl app in E2; simpl (length (encode [])) in E2; rewrite E2; cbn [mbind option_bind]; clear E2.
  assert (Hext : (0 <? length rates - length (take 8 rates))%nat = (8 <? length rates)%nat).
  { rewrite length_take; apply Bool.eq_iff_eq_true; rewrite !Nat.ltb_lt; lia. }
  rewrite Hext; apply (filled_if _ _ _ (8 <? length rates)%nat [(WLAN_EID_EXT_SUPP_RATES, drop 8 rates)]) in H2.
  apply (filled_if _ _ _ (negb (channel =? 0) && is_2ghz sb) [(WLAN_EID_DS_PARAMS, [channel])]) in H2.
  match type of H2 with filled _ _ ?o => set (o4 := o) in H2 end.
  assert (Ho4 : (if negb (channel =? 0) && is_2ghz sb then put n (if (8 <? length rates)%nat then put n o2 (WLAN_EID_EXT_SUPP_RATES :: Z.of_nat (length rates - length (take 8 rates)) :: drop (length (take 8 rates)) rates) else o2) [WLAN_EID_DS_PARAMS; 1; channel]
    else (if (8 <? length rates)%nat then put n o2 (WLAN_EID_EXT_SUPP_RATES :: Z.of_nat (length rates - length (take 8 rates)) :: drop (length (take 8 rates)) rates) else o2)) = o4).
  { unfold o4; destruct (Nat.ltb_spec 8 (length rates)); [|done].
    rewrite length_take, Nat.min_l by lia; by rewrite (encode_rates _ (drop 8 rates)) by (rewrite length_drop; lia). }
  rewrite Ho4; clearbody o4; clear Ho4.
  destruct (split_part p1 r1 before_ht ((length (encode (p1 ++ r1)) =? 0)%nat || full o4)) as (p2 & p3 & -> & _ & E4).
  rewrite E4; cbn [mbind option_bind]; clear E4.
  destruct (filled_put_ies n _ o4 (encode (p1 ++ p2 ++ p3)) p1 p2 p3 H2 eq_refl) as (o5 & E5 & H5); rewrite E5; cbn [mbind option_bind]; clear E5.
  set (o6 := match ht_cap sb with Some _ => _ | None => o5 end).
  apply (filled_if _ _ _ (bool_decide (is_Some (ht_cap sb))) (match ht_cap sb with Some h => [ht_elem h] | None => [] end)) in H5.
  assert (Ho6 : (if bool_decide (is_Some (ht_cap sb)) then put n o5 (encode (match ht_cap sb with Some h => [ht_elem h] | None => [] end)) else o5) = o6).
  { unfold o6; destruct (ht_cap sb) as [h|]; [|done]; simpl; by rewrite encode_ht by auto. }
  rewrite Ho6 in H5; clearbody o6; clear Ho6.
  destruct (filled_last_ies n _ o6 (p1 ++ p2) p3 H5) as (o7 & E7 & H7).
  rewrite <- app_assoc in E7; rewrite E7; cbn [mbind option_bind].
  apply (filled_if _ _ _ (bool_decide (is_Some (vht_cap sb))) (match vht_cap sb with Some v => [vht_elem v] | None => [] end)) in H7.
  eexists _, p1, p2, p3; split_and!; [reflexivity|done|done|].
  unfold preq_parts; destruct (ht_cap sb), (vht_cap sb) as [v|] eqn:Ev; simpl in H7; rewrite <- ?app_assoc in H7; simpl in H7;
    rewrite ?encode_vht by auto; exact H7.
Qed.

(** ** Properties *)

(** Every buffer parses without a read outside of it; each element with a fixed meaning is recorded at its first occurrence of the right size, the vendor elements at their last; and there is a parse error exactly when bytes are left over, an element has the wrong size, or one that must be unique is repeated. *)
Theorem parse_elems_spec (crc32_be : Z -> list Z -> Z) (es : list (Z * list Z)) (rest : list Z) (Hst : stuck rest) :
  let b := encode es ++ rest in
  let l := layout 0 es in
  exists e, ieee802_11_parse_elems crc32_be b = Some e /\
    (forall i f sz, elem_rule i = Some (f, sz) ->
       at_field e f = place <$> List.find (fun x => (id x =? i) && size_ok sz (len x)) l) /\
    at_field e quiet_elem = place <$> List.find (fun x => id x =? WLAN_EID_QUIET) l /\
    num_of_quiet_elem e = u8 (Z.of_nat (length (filter (fun x => id x = WLAN_EID_QUIET) l))) /\
    (forall f, f = wpa \/ f = wmm_info \/ f = wmm_param ->
       at_field e f = place <$> List.find (fun x => bool_decide (vendor_field b x = Some f)) (rev l)) /\
    (parse_error e = false <-> rest = [] /\ forallb good l = true /\ NoDup (once_ids l)).
Proof.
  cbv zeta; unfold ieee802_11_parse_elems.
  destruct (parse_crc_records crc32_be es rest 0 0 Hst) as (e & seen & c & -> & [R S E Q C V]).
  eexists; split; [reflexivity|].
  destruct (Nat.eqb_spec (length rest) 0) as [Hr|Hr]; simpl.
  - apply length_zero_iff_nil in Hr; split_and!; try done; rewrite E; tauto.
  - split_and!; try done; split; [done|]; by intros [-> _].
Qed.

(** A crc of four bytes, as an example. *)
Definition sum_crc (crc : Z) (l : list Z) : Z := u32 (fold_left Z.add l crc).

Lemma parse_elems_spec_witness : exists e,
  ieee802_11_parse_elems sum_crc (encode [(0, [65; 66]); (45, [1; 2]); (0, [67])] ++ [48; 5; 1]) = Some e /\
  at_field e ssid = Some (2%nat, 2) /\ at_field e ht_cap_elem = None /\ parse_error e <> false.
Proof.
  destruct (parse_elems_spec sum_crc [(0, [65; 66]); (45, [1; 2]); (0, [67])] [48; 5; 1] ltac:(right; by_eval)) as (e & H & R & _ & _ & _ & E).
  exists e; split; [exact H|]; split; [exact (R 0 ssid AnySize eq_refl)|]; split; [exact (R 45 ht_cap_elem (AtLeast 26) eq_refl)|].
  intros Hf; apply E in Hf as [Hf _]; discriminate Hf.
Defined.

(** Whatever bytes are received, parsing ends, reads only the buffer, and every pointer it records has its whole element inside the buffer and the size its structure needs. *)
Theorem parse_elems_in_bounds (crc32_be : Z -> list Z -> Z) (b : list Z) (filter crc : Z) (Hb : bytes b) :
  exists e c, ieee802_11_parse_elems_crc crc32_be b filter crc = Some (e, c) /\
    forall f o n, at_field e f = Some (o, n) -> 0 <= n /\ (o + Z.to_nat n <= length b)%nat /\
      forall i sz, elem_rule i = Some (f, sz) -> size_ok sz n = true.
Proof.
  destruct (decompose b Hb) as (es & rest & -> & Hst).
  destruct (parse_crc_records crc32_be es rest filter crc Hst) as (e & seen & c & E & Hrec); rewrite E.
  eexists _, _; split; [reflexivity|]; intros f o n Hf.
  assert (Ha : at_field e f = Some (o, n)) by (by destruct (length rest =? 0)%nat).
  assert (Hx : exists x, In x (layout 0 es) /\ place x = (o, n) /\ forall i sz, elem_rule i = Some (f, sz) -> size_ok sz (len x) = true).
  { destruct (field_cases f) as [(i & sz & Hi)|Hq].
    - rewrite (rec_rule _ _ _ _ Hrec i f sz Hi) in Ha.
      destruct (List.find _ (layout 0 es)) as [x|] eqn:Ef; [|done]; injection Ha as Ha.
      apply find_some in Ef as [Hin Hp]; apply andb_true_iff in Hp as [_ Hp]; exists x; split_and!; [done|by unfold place; f_equal|].
      intros j sz' Hj; pose proof (elem_rule_inj _ _ _ _ _ Hi Hj) as ->; rewrite Hi in Hj; by injection Hj as <-.
    - assert (Hnr : forall i sz, elem_rule i <> Some (f, sz)) by (intros i sz Hi; pose proof (rule_fields _ _ _ Hi); intuition congruence).
      destruct Hq as [->|Hv].
      + rewrite (rec_quiet _ _ _ _ Hrec) in Ha; destruct (List.find _ (layout 0 es)) as [x|] eqn:Ef; [|done]; injection Ha as Ha.
        apply find_some in Ef as [Hin _]; exists x; split_and!; [done|by unfold place; f_equal|]; intros i sz Hi; by destruct (Hnr i sz).
      + rewrite (rec_vendor _ _ _ _ Hrec f Hv) in Ha; destruct (List.find _ (rev (layout 0 es))) as [x|] eqn:Ef; [|done]; injection Ha as Ha.
        apply find_some in Ef as [Hin _]; apply in_rev in Hin; exists x; split_and!; [done|by unfold place; f_equal|]; intros i sz Hi; by destruct (Hnr i sz). }
  destruct Hx as (x & Hin & Hp & Hs); unfold place in Hp; injection Hp as <- <-.
  apply layout_bounds in Hin; rewrite length_app; split_and!; [lia|lia|exact Hs].
Qed.

Lemma parse_elems_in_bounds_witness : exists e c, ieee802_11_parse_elems_crc sum_crc [0; 1; 65; 5; 3; 1; 2; 3; 1] 0x21 0 = Some (e, c) /\ at_field e tim = None.
Proof.
  destruct (parse_elems_in_bounds sum_crc [0; 1; 65; 5; 3; 1; 2; 3; 1] 0x21 0 ltac:(by_eval)) as (e & c & H & Hb).
  exists e, c; split; [exact H|]; destruct (at_field e tim) as [[o n]|] eqn:E; [|reflexivity].
  vm_compute in H; injection H as <- <-; discriminate E.
Defined.

(** Searching well-formed elements returns the first one with the number asked for; but when there is none and the last element is empty, that one is returned. *)
Theorem find_ie_first (eid : Z) (es : list (Z * list Z)) :
  cfg80211_find_ie eid (encode es) = Some (first_ie eid 0 es).
Proof.
  unfold cfg80211_find_ie, find_ie_at; apply (find_ie_at_ok _ eid (encode es) 0 es); [done|pose proof (length_es_encode es); lia].
Qed.

(** An empty SSID, and nothing else, is returned as the RSN element. *)
Example find_ie_wrong_element : cfg80211_find_ie WLAN_EID_RSN [WLAN_EID_SSID; 0] = Some (Some 0%nat).
Proof. reflexivity. Qed.

(** A vendor element of less than four bytes is compared with the bytes of
    the element behind it. *)
Example find_vendor_crosses : cfg80211_find_vendor_ie 0x0050f2 1 [221; 0; 0x00; 0x50; 0xf2; 1] = Some (Some 0%nat).
Proof. vm_compute; reflexivity. Qed.

(** A probe request never exceeds its buffer and is cut between parts only; with room for everything it is the rates, the elements of the user in their order with the extended rates, channel and capabilities put between them. *)
Theorem build_preq_fits (n : nat) (es : list (Z * list Z)) (sb : sband) (rate_mask channel : Z)
    (Hsb : sband_ok sb) (Hr : (length (preq_rates (bitrates sb) rate_mask) <= 32)%nat) :
  exists out p1 p2 p3 k, ieee80211_build_preq_ies n (encode es) sb rate_mask channel = Some out /\ es = p1 ++ p2 ++ p3 /\
    let parts := preq_parts sb (preq_rates (bitrates sb) rate_mask) channel p1 p2 p3 in
    (length out <= n)%nat /\ out = encode (concat (take k parts)) /\
    ((length (encode (concat parts)) <= n)%nat -> out = encode (concat parts)).
Proof.
  destruct (build_preq_filled n es sb rate_mask channel Hsb Hr) as (o & p1 & p2 & p3 & E & Hes & _ & Hl & d & r & Hp & Hw & Hf).
  exists (written o), p1, p2, p3, (length d); cbv zeta; split_and!; [done|done|done| |].
  - by rewrite Hp, take_app_length.
  - intros Hn; destruct (full o); [lia|]; subst r; rewrite app_nil_r in Hp; by rewrite Hp.
Qed.

Definition demo_sband : sband :=
  Sband [10; 20; 55; 110; 60; 90; 120; 180; 240; 360; 480; 540] true (Some (0x0102, 3, 6, repeat 0xff 16)) None.

Lemma demo_sband_ok : sband_ok demo_sband.
Proof. split; intros x H; [injection H as <-; reflexivity | discriminate H]. Defined.

Definition user_ies : list (Z * list Z) := [(10, [1; 2]); (59, [7]); (221, [0; 1; 2; 3])].

Lemma build_preq_fits_witness : exists out,
  ieee80211_build_preq_ies 30 (encode user_ies) demo_sband 0xfff 6 = Some out /\ (length out <= 30)%nat.
Proof.
  destruct (build_preq_fits 30 user_ies demo_sband 0xfff 6 demo_sband_ok ltac:(vm_compute; lia)) as (out & _ & _ & _ & _ & H & _ & Hl & _).
  exists out; split; [exact H | exact Hl].
Defined.

Definition data_of (b : list Z) (v : option (nat * Z)) : list Z :=
  match v with Some (o, n) => take (Z.to_nat n) (drop o b) | None => [] end.

(** Data found by its place in the layout. *)
Lemma find_data es1 i d es2 sz : Forall (fun e => e.1 <> i) es1 -> size_ok sz (Z.of_nat (length d)) = true ->
  data_of (encode (es1 ++ (i, d) :: es2))
    (place <$> List.find (fun x => (id x =? i) && size_ok sz (len x)) (layout 0 (es1 ++ (i, d) :: es2))) = d.
Proof.
  intros Hf Hsz.
  assert (H : forall pos pre, length pre = pos -> data_of (pre ++ encode (es1 ++ (i, d) :: es2))
    (place <$> List.find (fun x => (id x =? i) && size_ok sz (len x)) (layout pos (es1 ++ (i, d) :: es2))) = d); [|exact (H 0%nat [] eq_refl)].
  induction es1 as [|[j e] es1 IH]; intros pos pre Hp.
  - simpl; rewrite Z.eqb_refl, Hsz; simpl; rewrite encode_cons, Nat2Z.id; unfold encode1; simpl.
    rewrite <- Hp.
    replace (pre ++ i :: Z.of_nat (length d) :: d ++ encode es2) with ((pre ++ [i; Z.of_nat (length d)]) ++ d ++ encode es2) by (by rewrite <- app_assoc).
    rewrite drop_app_length' by (rewrite length_app; simpl; lia); by rewrite take_app_length.
  - apply list.Forall_cons in Hf as [Hj Hf]; simpl in Hj; cbn [app layout]; simpl List.find.
    destruct (Z.eqb_spec j i); [done|]; cbn [andb]; rewrite encode_cons, app_assoc.
    apply IH; [done|]; rewrite length_app, length_encode1; simpl; lia.
Qed.

(** With room for everything the receiver of a probe request parses the rates back: the first eight from the supported and the others from the extended rates. *)
Theorem preq_rates_roundtrip (crc32_be : Z -> list Z -> Z) (n : nat) (es : list (Z * list Z)) (sb : sband) (rate_mask channel : Z)
    (Hsb : sband_ok sb) (Hr : (8 < length (preq_rates (bitrates sb) rate_mask) <= 32)%nat)
    (Hn : forall p1 p2 p3, es = p1 ++ p2 ++ p3 ->
       (length (encode (concat (preq_parts sb (preq_rates (bitrates sb) rate_mask) channel p1 p2 p3))) <= n)%nat) :
  exists out e, ieee80211_build_preq_ies n (encode es) sb rate_mask channel = Some out /\
    ieee802_11_parse_elems crc32_be out = Some e /\
    data_of out (at_field e supp_rates) ++ data_of out (at_field e ext_supp_rates) = preq_rates (bitrates sb) rate_mask.
Proof.
  destruct (build_preq_filled n es sb rate_mask channel Hsb ltac:(lia)) as (o & p1 & p2 & p3 & E & Hes & Hp1 & Hl & d & r & Hp & Hw & Hf).
  set (rates := preq_rates (bitrates sb) rate_mask) in *; specialize (Hn p1 p2 p3 Hes).
  assert (Hout : exists es2, written o = encode ((WLAN_EID_SUPP_RATES, take 8 rates) :: p1 ++ (WLAN_EID_EXT_SUPP_RATES, drop 8 rates) :: es2)).
  { destruct (full o); [lia|]; subst r; rewrite app_nil_r in Hp; rewrite Hw, <- Hp; unfold preq_parts.
    destruct (Nat.ltb_spec 8 (length rates)); [|lia]; eexists; simpl; reflexivity. }
  destruct Hout as [es2 Hout]; set (all := (WLAN_EID_SUPP_RATES, take 8 rates) :: p1 ++ (WLAN_EID_EXT_SUPP_RATES, drop 8 rates) :: es2) in *.
  destruct (parse_crc_records crc32_be all [] 0 0 ltac:(left; simpl; lia)) as (e & seen & c & Ep & Hrec).
  rewrite app_nil_r in Ep, Hrec; exists (written o), e; split_and!; [done|by unfold ieee802_11_parse_elems; rewrite Hout, Ep|].
  rewrite (rec_rule _ _ _ _ Hrec WLAN_EID_SUPP_RATES supp_rates AnySize eq_refl), (rec_rule _ _ _ _ Hrec WLAN_EID_EXT_SUPP_RATES ext_supp_rates AnySize eq_refl), Hout.
  pose proof (find_data [] WLAN_EID_SUPP_RATES (take 8 rates) (p1 ++ (WLAN_EID_EXT_SUPP_RATES, drop 8 rates) :: es2) AnySize ltac:(by apply Forall_nil_2) eq_refl) as H1.
  assert (Hne : Forall (fun e => e.1 <> WLAN_EID_EXT_SUPP_RATES) ((WLAN_EID_SUPP_RATES, take 8 rates) :: p1)).
  { constructor; [done|]; eapply list.Forall_impl; [exact Hp1|]; simpl; intros x Hx Heq; by rewrite Heq in Hx. }
  pose proof (find_data _ WLAN_EID_EXT_SUPP_RATES (drop 8 rates) es2 AnySize Hne eq_refl) as H2.
  fold all in H2; simpl app in H1; fold all in H1.
  transitivity (take 8 rates ++ drop 8 rates); [|apply take_drop]; f_equal; [exact H1 | exact H2].
Qed.

Lemma preq_rates_roundtrip_witness : exists out e,
  ieee80211_build_preq_ies 200 (encode [(10, [1; 2])]) demo_sband 0xfff 6 = Some out /\ ieee802_11_parse_elems sum_crc out = Some e /\
  data_of out (at_field e supp_rates) ++ data_of out (at_field e ext_supp_rates) = [2; 4; 11; 22; 12; 18; 24; 36; 48; 72; 96; 108].
Proof.
  apply (preq_rates_roundtrip sum_crc 200 [(10, [1; 2])] demo_sband 0xfff 6 demo_sband_ok).
  - vm_compute; lia.
  - intros p1 p2 p3 H; unfold preq_parts; rewrite !concat_cons, !encode_app, !length_app.
    assert (Hl : (length (encode p1) + (length (encode p2) + length (encode p3)) = 4)%nat).
    { rewrite <- !length_app, <- !encode_app, <- H; reflexivity. }
    vm_compute (length (encode [_])); simpl; lia.
Defined.

End Elems.
