(* ===== verification/RxHandlers.v ===== *)
(** * Receive handlers: acceptance and decryption

    [net/mac80211/rx.c] before and at decryption: which interface a frame is
    for ([prepare_for_handlers]), duplicate detection and the class filter
    ([ieee80211_rx_h_check], [ieee80211_rx_mesh_check]), the selection of the
    key and the call of the cipher ([ieee80211_rx_h_decrypt]), and the checks
    that drop what should have been protected.  Keys are shared objects: the
    station and the interface hold indices into one store, and a cipher that
    advances a counter updates the store.  [None] is a load outside the frame
    or outside an array.  Debug counters are left out. *)

From stdpp Require Import sets.
From S2P Require Import Prelude Ieee80211 Frame Ethernet Wep Tkip AesCcm Ccmp Bip Defrag.

Module RxHandlers.
Import Ieee80211 Frame.
Import Ethernet (nl80211_iftype(..), one_of).

Definition NUM_DEFAULT_KEYS : Z := 4.
Definition NUM_DEFAULT_MGMT_KEYS : Z := 2.
Definition WLAN_CATEGORY_MESH_ACTION : Z := 13.
Definition NL80211_PLINK_ESTAB : Z := 4.
Definition EACCES : Z := 13.

Definition is_multicast_ether_addr : list Z -> bool := Defrag.is_multicast_ether_addr.
Definition addr (off : nat) (skb : list Z) : list Z := sub skb off ETH_ALEN.
Definition ether_addr_equal (a b : list Z) : bool := bool_decide (a = b).

(** ** Keys, stations, interfaces *)

(** [conf.cipher] with the member of the union [u] it selects. *)
Inductive key_material :=
  | WepKey (wep104 : bool) (k : Wep.wep_key)
  | TkipKey (k : Tkip.tkip_key)
  | CcmpKey (tfm : AuthCipher AesCcm.wf_scratch) (k : Ccmp.ccmp_key)
  | CmacKey (tfm : FrameMac) (k : Bip.cmac_key)
  | HwOnlyKey (cipher keyidx : Z).

Record ieee80211_key := Key { material : key_material; tainted : bool; tx_rx_count : Z }.

Record sta_info := Sta {
  sta_addr : list Z; ptk : option nat; gtk : list (option nat); last_seq_ctrl : list Z;
  assoc : bool; authorized : bool; mfp : bool; plink_state : Z;
  num_duplicates : Z; wep_weak_iv_count : Z }.

Definition set_last_seq (s : sta_info) (i : nat) (sc : Z) : sta_info :=
  Sta (sta_addr s) (ptk s) (gtk s) (<[i := sc]> (last_seq_ctrl s)) (assoc s) (authorized s) (mfp s) (plink_state s)
    (num_duplicates s) (wep_weak_iv_count s).
Definition count_duplicate (s : sta_info) : sta_info :=
  Sta (sta_addr s) (ptk s) (gtk s) (last_seq_ctrl s) (assoc s) (authorized s) (mfp s) (plink_state s)
    (u64 (num_duplicates s + 1)) (wep_weak_iv_count s).
Definition set_weak (s : sta_info) (n : Z) : sta_info :=
  Sta (sta_addr s) (ptk s) (gtk s) (last_seq_ctrl s) (assoc s) (authorized s) (mfp s) (plink_state s) (num_duplicates s) n.

(** The interface; [vlan_sta] is [u.vlan.sta], [bssid] that of [u.ibss],
    [remote_addr] that of [u.wds]. *)
Record sub_if_data := Sdata {
  vif_type : nl80211_iftype; vif_addr : list Z; if_keys : list (option nat); default_mgmt_key : option nat;
  drop_unencrypted : bool; control_port_protocol : list Z; use_4addr : bool; vlan_sta : bool; promisc : bool;
  bssid : list Z; remote_addr : list Z }.

(** The flags in the control block of the frame. *)
Record rx_status := Status {
  ra_match : bool; is_amsdu : bool; deferred_release : bool; fragmented : bool;
  decrypted : bool; iv_stripped : bool; mmic_stripped : bool; mmic_error : bool }.

Definition set_ra_match (b : bool) (st : rx_status) : rx_status :=
  Status b (is_amsdu st) (deferred_release st) (fragmented st) (decrypted st) (iv_stripped st) (mmic_stripped st) (mmic_error st).
Definition set_decrypted (st : rx_status) : rx_status :=
  Status (ra_match st) (is_amsdu st) (deferred_release st) (fragmented st) true (iv_stripped st) (mmic_stripped st) (mmic_error st).

Record rx_data := Rx {
  skb : list Z; stat : rx_status; key : option nat; seqno_idx : nat; security_idx : nat; tkip_iv : Z * Z }.

Definition set_key (rx : rx_data) (k : option nat) : rx_data :=
  Rx (skb rx) (stat rx) k (seqno_idx rx) (security_idx rx) (tkip_iv rx).
Definition fc (rx : rx_data) : Z := frame_control (skb rx).

(** ** Which interface a frame is for *)

(** The offset of the BSSID, [None] for NULL. *)
Definition ieee80211_get_bssid (hdr : list Z) (iftype : nl80211_iftype) : option nat :=
  let fc := frame_control hdr in
  if bool_decide (length hdr < 16)%nat then None
  else if ieee80211_is_data fc then
    if bool_decide (length hdr < 24)%nat then None
    else if ieee80211_has_a4 fc then None
    else if ieee80211_has_tods fc then Some off_addr1
    else if ieee80211_has_fromds fc then Some off_addr2
    else Some off_addr3
  else if ieee80211_is_mgmt fc then
    if bool_decide (length hdr < 24)%nat then None else Some off_addr3
  else if ieee80211_is_ctl fc then
    if ieee80211_is_pspoll fc then Some off_addr1
    else if ieee80211_is_back_req fc then
      match iftype with
      | NL80211_IFTYPE_STATION => Some off_addr2
      | NL80211_IFTYPE_AP | NL80211_IFTYPE_AP_VLAN => Some off_addr1
      | _ => None
      end
    else None
  else None.

Definition ieee80211_bssid_match (raddr a : list Z) : bool :=
  ether_addr_equal raddr a || ether_addr_equal raddr (repeat 0xff 6).

(** The frame is not for this interface, or is to be handled, with
    [IEEE80211_RX_RA_MATCH] kept or cleared; [ibss_new] reports the call of
    [ieee80211_ibss_rx_no_sta]. *)
Inductive prepared := NotOurs | Handle (ra_match ibss_new : bool).

Definition prepare_for_handlers (sd : sub_if_data) (has_sta : bool) (skb : list Z) : prepared :=
  let fc := frame_control skb in
  let b := ieee80211_get_bssid skb (vif_type sd) in
  let multicast := is_multicast_ether_addr skb in
  let to_us := ether_addr_equal (vif_addr sd) (addr off_addr1 skb) in
  match vif_type sd with
  | NL80211_IFTYPE_STATION =>
      if bool_decide (b = None) && negb (use_4addr sd) then NotOurs
      else if negb multicast && negb to_us then
        if negb (promisc sd) || use_4addr sd then NotOurs else Handle false false
      else Handle true false
  | NL80211_IFTYPE_ADHOC =>
      match b with
      | None => NotOurs
      | Some b =>
          if ieee80211_is_beacon fc then Handle true false
          else if negb (ieee80211_bssid_match (addr b skb) (bssid sd)) then NotOurs
          else if negb multicast && negb to_us then
            if negb (promisc sd) then NotOurs else Handle false false
          else Handle true (negb has_sta)
      end
  | NL80211_IFTYPE_MESH_POINT =>
      if negb multicast && negb to_us then
        if negb (promisc sd) then NotOurs else Handle false false
      else Handle true false
  | NL80211_IFTYPE_AP_VLAN | NL80211_IFTYPE_AP =>
      match b with
      | None => if negb to_us then NotOurs else Handle true false
      | Some b =>
          if ieee80211_bssid_match (addr b skb) (vif_addr sd) then Handle true false
          else if ieee80211_is_public_action skb (Z.of_nat (length skb)) then Handle true false
          else if negb (ieee80211_is_beacon fc) then NotOurs
          else Handle false false
      end
  | NL80211_IFTYPE_WDS =>
      if bool_decide (b <> None) || negb (ieee80211_is_data fc) then NotOurs
      else if negb (ether_addr_equal (remote_addr sd) (addr off_addr2 skb)) then NotOurs
      else Handle true false
  | NL80211_IFTYPE_P2P_DEVICE =>
      if negb (ieee80211_is_public_action skb (Z.of_nat (length skb))) && negb (ieee80211_is_probe_req fc) &&
         negb (ieee80211_is_probe_resp fc) && negb (ieee80211_is_beacon fc) then NotOurs
      else Handle to_us false
  | _ => Handle true false
  end.

(** ** Duplicates and frame classes *)

Definition ieee80211_rx_mesh_check (sd : sub_if_data) (sta : option sta_info) (skb : list Z) : rx_result :=
  let fc := frame_control skb in
  let data_drop :=
    ieee80211_is_data fc &&
    (if is_multicast_ether_addr skb
     then ieee80211_has_tods fc || negb (ieee80211_has_fromds fc) || ether_addr_equal (addr off_addr3 skb) (vif_addr sd)
     else negb (ieee80211_has_a4 fc) || ether_addr_equal (addr off_addr4 skb) (vif_addr sd)) in
  if data_drop then RX_DROP_MONITOR
  else if (match sta with Some s => negb (plink_state s =? NL80211_PLINK_ESTAB) | None => true end) then
    if negb (ieee80211_is_mgmt fc) then RX_DROP_MONITOR
    else if ieee80211_is_action fc then
      if Z.of_nat (length skb) <? IEEE80211_MIN_ACTION_SIZE then RX_DROP_MONITOR
      else
        let category := skb.[24] in
        if negb (category =? WLAN_CATEGORY_MESH_ACTION) && negb (category =? WLAN_CATEGORY_SELF_PROTECTED)
        then RX_DROP_MONITOR else RX_CONTINUE
    else if ieee80211_is_probe_req fc || ieee80211_is_probe_resp fc || ieee80211_is_beacon fc || ieee80211_is_auth fc
    then RX_CONTINUE
    else RX_DROP_MONITOR
  else RX_CONTINUE.

(** The two bytes of [seq_ctrl], [None] when they are not in the frame. *)
Definition read_seq_ctrl (skb : list Z) : option Z :=
  if bool_decide (off_seq_ctrl + 2 <= length skb)%nat then Some (seq_ctrl skb) else None.

(** The duplicate filter: the station, [dot11FrameDuplicateCount], and whether
    the frame is a duplicate. *)
Definition duplicate_filter (sta : sta_info) (dup_count : Z) (rx : rx_data) : option (sta_info * Z * bool) :=
  let hdr := skb rx in
  sc ← read_seq_ctrl hdr;
  last ← last_seq_ctrl sta !! seqno_idx rx;
  if ieee80211_has_retry (fc rx) && (last =? sc) then
    if ra_match (stat rx) then Some (count_duplicate sta, u32 (dup_count + 1), true) else Some (sta, dup_count, true)
  else Some (set_last_seq sta (seqno_idx rx) sc, dup_count, false).

(** [spurious] is the result of [cfg80211_rx_spurious_frame]. *)
Definition class_filter (spurious : list Z -> bool) (sd : sub_if_data) (sta : option sta_info) (skb : list Z) : rx_result :=
  let fc := frame_control skb in
  if bool_decide (length skb < 16)%nat then RX_DROP_MONITOR
  else if bool_decide (vif_type sd = NL80211_IFTYPE_MESH_POINT) then ieee80211_rx_mesh_check sd sta skb
  else if (ieee80211_is_data fc || ieee80211_is_pspoll fc) &&
       negb (one_of (vif_type sd) [NL80211_IFTYPE_ADHOC; NL80211_IFTYPE_WDS]) &&
       negb (match sta with Some s => assoc s | None => false end) then
    let rest :=
      if bool_decide (vif_type sd = NL80211_IFTYPE_AP) && spurious (addr off_addr2 skb)
      then RX_DROP_UNUSABLE else RX_DROP_MONITOR in
    if bool_decide (sta <> None) && bool_decide (vif_type sd = NL80211_IFTYPE_STATION) && ieee80211_is_data_present fc then
      let hdrlen := Z.to_nat (ieee80211_hdrlen fc) in
      if bool_decide (length skb < hdrlen + 8)%nat then RX_DROP_MONITOR
      else if bool_decide (sub skb (hdrlen + 6) 2 = control_port_protocol sd) then RX_CONTINUE
      else rest
    else rest
  else RX_CONTINUE.

Definition ieee80211_rx_h_check (spurious : list Z -> bool) (sd : sub_if_data) (sta : option sta_info) (dup_count : Z)
    (rx : rx_data) : option (rx_result * option sta_info * Z) :=
  match sta with
  | Some s =>
      if negb (is_multicast_ether_addr (skb rx)) then
        '(s, n, dup) ← duplicate_filter s dup_count rx;
        Some (if dup : bool then RX_DROP_UNUSABLE else class_filter spurious sd (Some s) (skb rx), Some s, n)
      else Some (class_filter spurious sd sta (skb rx), sta, dup_count)
  | None => Some (class_filter spurious sd sta (skb rx), sta, dup_count)
  end.

(** ** Robust management frames *)

(** [ieee80211_is_robust_mgmt_frame] on a buffer: the category of an
    unprotected action frame is the byte behind the header. *)
Definition robust_mgmt (skb : list Z) : option bool :=
  let fc := frame_control skb in
  if ieee80211_is_action fc && negb (ieee80211_has_protected fc) && bool_decide (length skb < 25)%nat then None
  else Some (ieee80211_is_robust_mgmt_frame skb).

Definition ieee80211_is_unicast_robust_mgmt_frame (skb : list Z) : option bool :=
  if bool_decide (length skb < 24)%nat || is_multicast_ether_addr skb then Some false else robust_mgmt skb.

Definition ieee80211_is_multicast_robust_mgmt_frame (skb : list Z) : option bool :=
  if bool_decide (length skb < 24)%nat || negb (is_multicast_ether_addr skb) then Some false else robust_mgmt skb.

(** The key index of the MMIE at the end of the frame, or -1. *)
Definition ieee80211_get_mmie_keyidx (skb : list Z) : Z :=
  if bool_decide (length skb < 24 + Bip.MMIE_LEN)%nat || negb (is_multicast_ether_addr skb) then -1
  else if negb (ieee80211_is_robust_mgmt_frame skb) then -1
  else
    let mmie := drop (length skb - Bip.MMIE_LEN) skb in
    if negb (mmie.[0] =? Bip.WLAN_EID_MMIE) || negb (mmie.[1] =? Z.of_nat Bip.MMIE_LEN - 2) then -1
    else get_le16 mmie 2.

(** ** Key selection *)

Definition is_wep (k : ieee80211_key) : bool := match material k with WepKey _ _ => true | _ => false end.

(** The first key of the first [NUM_DEFAULT_KEYS] slots. *)
Definition first_key (slots : list (option nat)) : option nat := head (omap id (take (Z.to_nat NUM_DEFAULT_KEYS) slots)).

Definition or_else (a b : option nat) : option nat := match a with Some _ => a | None => b end.

(** How selection ends: return at once with [rx->key] left at [k], or go on to
    decrypt with [k]. *)
Inductive selection := Return (r : rx_result) (k : option nat) | Use (k : option nat).

Section Select.
Context (keys : list ieee80211_key) (sd : sub_if_data) (sta : option sta_info) (st : rx_status) (skb : list Z).

Definition sta_gtk (i : Z) : option (option nat) :=
  match sta with Some s => gtk s !! Z.to_nat i | None => Some None end.

(** The frame carries an MMIE: the integrity group key with its index. *)
Definition select_igtk (idx : Z) : option selection :=
  if (idx <? NUM_DEFAULT_KEYS) || (NUM_DEFAULT_KEYS + NUM_DEFAULT_MGMT_KEYS <=? idx) then Some (Return RX_DROP_MONITOR None)
  else
    k ← sta_gtk idx;
    k' ← if_keys sd !! Z.to_nat idx;
    Some (Use (or_else k k')).

(** The frame is not protected: a key that could have been used. *)
Definition select_unprotected : option nat :=
  if ieee80211_is_mgmt (frame_control skb) && is_multicast_ether_addr skb && bool_decide (default_mgmt_key sd <> None)
  then default_mgmt_key sd
  else or_else (s ← sta; first_key (gtk s)) (first_key (if_keys sd)).

(** The frame is protected and there is no pairwise key for it. *)
Definition select_by_keyid : option selection :=
  let hdrlen := Z.to_nat (ieee80211_hdrlen (frame_control skb)) in
  if bool_decide (length skb < 8 + hdrlen)%nat then Some (Return RX_DROP_UNUSABLE None)
  else
    let keyidx := Z.shiftr (skb.[hdrlen + 3]) 6 in
    k ← (if is_multicast_ether_addr skb then sta_gtk keyidx else Some None);
    match k with
    | Some r => Some (Use (Some r))
    | None =>
        k ← if_keys sd !! Z.to_nat keyidx;
        match k with
        | Some r =>
            key ← keys !! r;
            Some (Use (if negb (is_wep key) && negb (is_multicast_ether_addr skb) then None else Some r))
        | None => Some (Use None)
        end
    end.

Definition select_key : option selection :=
  let fc := frame_control skb in
  let sta_ptk := s ← sta; ptk s in
  let mmie_keyidx := if ieee80211_has_protected fc then -1 else ieee80211_get_mmie_keyidx skb in
  let done_by_hw := decrypted st && iv_stripped st in
  if negb (is_multicast_ether_addr skb) && bool_decide (sta_ptk <> None) then
    if done_by_hw then Some (Return RX_CONTINUE sta_ptk)
    else if negb (ieee80211_has_protected fc) then Some (Return RX_CONTINUE sta_ptk)
    else Some (Use sta_ptk)
  else if 0 <=? mmie_keyidx then
    if done_by_hw then Some (Return RX_CONTINUE None) else select_igtk mmie_keyidx
  else if negb (ieee80211_has_protected fc) then Some (Return RX_CONTINUE select_unprotected)
  else if done_by_hw then Some (Return RX_CONTINUE None)
  else select_by_keyid.
End Select.

(** ** Decryption *)

(** Whether the RC4 transform was allocated, the driver takes TKIP phase-1
    keys, and the results of [skb_linearize] (or [pskb_may_pull]) and
    [pskb_trim]. *)
Record env := Env { wep_rx_tfm : bool; update_tkip_key : bool; linear : bool; trimmed : bool }.

Section Decrypt.
Context `{StreamCipher}.
Context (crc32_le : Z -> list Z -> Z).

(** What a cipher leaves: the result, its key material, the frame, the count of
    weak IVs and the TKIP counter to commit. *)
Record opened := Opened { o_result : rx_result; o_key : key_material; o_skb : list Z; o_weak : Z; o_iv : Z * Z }.

(** The switch on the cipher; [Some None] is its [default]. *)
Definition run_cipher (ev : env) (sta : option sta_info) (rx : rx_data) (m : key_material) : option (option opened) :=
  let weak := match sta with Some s => wep_weak_iv_count s | None => 0 end in
  let has_sta := bool_decide (sta <> None) in
  match m with
  | WepKey l k =>
      '(r, w, d) ← Wep.ieee80211_crypto_wep_decrypt crc32_le (wep_rx_tfm ev) k has_sta (decrypted (stat rx))
        (iv_stripped (stat rx)) (linear ev) (trimmed ev) weak (skb rx);
      Some (Some (Opened r m d w (tkip_iv rx)))
  | TkipKey k =>
      let '(r, k, d, iv) := Tkip.ieee80211_crypto_tkip_decrypt crc32_le (wep_rx_tfm ev) k (security_idx rx) (sta_addr <$> sta)
        (decrypted (stat rx)) (update_tkip_key ev) (linear ev) (skb rx) in
      Some (Some (Opened r (TkipKey k) d weak (default (tkip_iv rx) iv)))
  | CcmpKey tfm k =>
      let '(r, k, d) := Ccmp.ieee80211_crypto_ccmp_decrypt k (security_idx rx) has_sta (decrypted (stat rx))
        (linear ev) (trimmed ev) (skb rx) in
      Some (Some (Opened r (CcmpKey tfm k) d weak (tkip_iv rx)))
  | CmacKey tfm k =>
      '(r, k, d) ← Bip.ieee80211_crypto_aes_cmac_decrypt k (decrypted (stat rx)) (skb rx);
      Some (Some (Opened r (CmacKey tfm k) d weak (tkip_iv rx)))
  | HwOnlyKey _ _ => Some None
  end.

Definition ieee80211_rx_h_decrypt (ev : env) (sd : sub_if_data) (keys : list ieee80211_key) (sta : option sta_info)
    (rx : rx_data) : option (rx_result * list ieee80211_key * option sta_info * rx_data) :=
  if negb (ra_match (stat rx)) then Some (RX_CONTINUE, keys, sta, rx)
  else
    sel ← select_key keys sd sta (stat rx) (skb rx);
    match sel with
    | Return r k => Some (r, keys, sta, set_key rx k)
    | Use None => Some (RX_DROP_MONITOR, keys, sta, set_key rx None)
    | Use (Some i) =>
        let rx := set_key rx (Some i) in
        k ← keys !! i;
        if tainted k then Some (RX_DROP_MONITOR, keys, sta, rx)
        else
          let k := Key (material k) (tainted k) (s32 (tx_rx_count k + 1)) in
          out ← run_cipher ev sta rx (material k);
          match out with
          | None => Some (RX_DROP_UNUSABLE, <[i := k]> keys, sta, rx)
          | Some o =>
              Some (o_result o, <[i := Key (o_key o) (tainted k) (tx_rx_count k)]> keys, (fun s => set_weak s (o_weak o)) <$> sta,
                    Rx (o_skb o) (set_decrypted (stat rx)) (key rx) (seqno_idx rx) (security_idx rx) (o_iv o))
          end
    end.
End Decrypt.

(** ** Dropping what should have been protected *)

Definition ieee80211_802_1x_port_control (sta : option sta_info) : Z :=
  if negb (match sta with Some s => authorized s | None => false end) then - EACCES else 0.

Definition ieee80211_drop_unencrypted (sd : sub_if_data) (rx : rx_data) (fc : Z) : Z :=
  if decrypted (stat rx) then 0
  else if negb (ieee80211_has_protected fc) && negb (ieee80211_is_nullfunc fc) && ieee80211_is_data fc &&
          (bool_decide (key rx <> None) || drop_unencrypted sd) then - EACCES
  else 0.

(** The event for user space about an unprotected frame. *)
Inductive unprot := UnprotDeauth | UnprotDisassoc.

Definition report_unprot (fc : Z) : list unprot :=
  if ieee80211_is_deauth fc then [UnprotDeauth] else if ieee80211_is_disassoc fc then [UnprotDisassoc] else [].

Definition ieee80211_drop_unencrypted_mgmt (sta : option sta_info) (rx : rx_data) : option (Z * list unprot) :=
  let fc := frame_control (skb rx) in
  if decrypted (stat rx) then Some (0, [])
  else if match sta with Some s => mfp s | None => false end then
    unicast ← (if ieee80211_has_protected fc then Some false else ieee80211_is_unicast_robust_mgmt_frame (skb rx));
    if unicast && bool_decide (key rx <> None) then Some (- EACCES, report_unprot fc)
    else
      multicast ← ieee80211_is_multicast_robust_mgmt_frame (skb rx);
      if multicast && (ieee80211_get_mmie_keyidx (skb rx) <? 0) then Some (- EACCES, report_unprot fc)
      else if ieee80211_is_action fc && bool_decide (key rx = None) then
        robust ← robust_mgmt (skb rx);
        Some (if robust : bool then (- EACCES, []) else (0, []))
      else Some (0, [])
  else Some (0, []).

(** The handler that passes management frames on; the events are the report of
    an overlapping beacon (with its flag [IEEE80211_RX_BEACON_REPORTED]) and
    the unprotected frame. *)
Definition ieee80211_rx_h_mgmt_check (sd : sub_if_data) (sta : option sta_info) (beacon_reported : bool) (rx : rx_data) :
    option (rx_result * bool * list unprot) :=
  let fc := frame_control (skb rx) in
  if bool_decide (length (skb rx) < 24)%nat then Some (RX_DROP_MONITOR, beacon_reported, [])
  else if negb (ieee80211_is_mgmt fc) then Some (RX_DROP_MONITOR, beacon_reported, [])
  else
    let reported := beacon_reported || (bool_decide (vif_type sd = NL80211_IFTYPE_AP) && ieee80211_is_beacon fc) in
    if negb (ra_match (stat rx)) then Some (RX_DROP_MONITOR, reported, [])
    else
      '(err, evs) ← ieee80211_drop_unencrypted_mgmt sta rx;
      Some (if negb (err =? 0) then RX_DROP_UNUSABLE else RX_CONTINUE, reported, evs).

(** ** Lemmas: duplicates *)

Definition sta_ok (s : sta_info) : Prop := length (last_seq_ctrl s) = 17%nat.
Definition frame_ok (f : rx_data) : Prop := (24 <= length (skb f))%nat /\ (seqno_idx f < 17)%nat.

(** The handler over a sequence of frames of one station. *)
Fixpoint check_run (spurious : list Z -> bool) (sd : sub_if_data) (sta : option sta_info) (n : Z) (fs : list rx_data) :
    option (list rx_result * option sta_info * Z) :=
  match fs with
  | [] => Some ([], sta, n)
  | f :: fs =>
      '(r, sta, n) ← ieee80211_rx_h_check spurious sd sta n f;
      '(rs, sta, n) ← check_run spurious sd sta n fs;
      Some (r :: rs, sta, n)
  end.

Definition unicast (f : rx_data) : bool := negb (is_multicast_ether_addr (skb f)).

(** The sequence control of the last unicast frame on index [i], duplicates
    included; before the first, what the station holds. *)
Definition last_seen (s : sta_info) (hist : list rx_data) (i : nat) : Z :=
  fold_left (fun sc g => if unicast g && (seqno_idx g =? i)%nat then seq_ctrl (skb g) else sc) hist (nth i (last_seq_ctrl s) 0).

Definition is_duplicate (s : sta_info) (hist : list rx_data) (f : rx_data) : bool :=
  unicast f && (ieee80211_has_retry (fc f) && (last_seen s hist (seqno_idx f) =? seq_ctrl (skb f))).

(** Nothing but the sequence controls and the count of duplicates differs. *)
Definition same_sta (s s' : sta_info) : Prop :=
  sta_addr s = sta_addr s' /\ ptk s = ptk s' /\ gtk s = gtk s' /\ assoc s = assoc s' /\ authorized s = authorized s' /\
  mfp s = mfp s' /\ plink_state s = plink_state s' /\ wep_weak_iv_count s = wep_weak_iv_count s'.

Lemma class_filter_same spurious sd s s' skb : same_sta s s' ->
  class_filter spurious sd (Some s) skb = class_filter spurious sd (Some s') skb.
Proof.
  intros (_ & _ & _ & Ha & _ & _ & Hp & _); unfold class_filter, ieee80211_rx_mesh_check; rewrite Ha, Hp.
  repeat rewrite bool_decide_true by done; done.
Qed.

Lemma check_step spurious sd s n f : sta_ok s -> frame_ok f -> exists s' n',
  ieee80211_rx_h_check spurious sd (Some s) n f =
    Some (if is_duplicate s [] f then RX_DROP_UNUSABLE else class_filter spurious sd (Some s) (skb f), Some s', n') /\
  sta_ok s' /\ same_sta s s' /\
  forall i, (i < 17)%nat -> nth i (last_seq_ctrl s') 0 = last_seen s [f] i.
Proof.
  intros Hs [Hl Hi]; unfold ieee80211_rx_h_check, is_duplicate, last_seen, unicast; cbn [fold_left].
  destruct (is_multicast_ether_addr (skb f)); cbn [negb andb].
  { exists s, n; repeat split; done. }
  unfold duplicate_filter, read_seq_ctrl; rewrite bool_decide_true by (unfold off_seq_ctrl; lia); cbn [mbind option_bind].
  destruct (lookup_lt_is_Some_2 (last_seq_ctrl s) (seqno_idx f)) as [l E]; [unfold sta_ok in Hs; lia|].
  rewrite E; cbn [mbind option_bind]; rewrite (nth_lookup_Some _ _ 0 _ E); fold (fc f).
  assert (Hstore : exists s' n',
    Some (class_filter spurious sd (Some (set_last_seq s (seqno_idx f) (seq_ctrl (skb f)))) (skb f),
          Some (set_last_seq s (seqno_idx f) (seq_ctrl (skb f))), n) =
    Some (class_filter spurious sd (Some s) (skb f), Some s', n') /\ sta_ok s' /\ same_sta s s' /\
    forall i, (i < 17)%nat ->
      nth i (last_seq_ctrl s') 0 = (if (seqno_idx f =? i)%nat then seq_ctrl (skb f) else nth i (last_seq_ctrl s) 0)).
  { eexists _, _; split; [erewrite class_filter_same; [reflexivity|repeat split]|].
    split; [unfold sta_ok, set_last_seq; cbn; by rewrite length_insert|]; split; [repeat split|]; intros i Hi'.
    cbn [last_seq_ctrl set_last_seq]; rewrite !nth_lookup; destruct (Nat.eqb_spec (seqno_idx f) i) as [<-|Hne];
      [by rewrite list_lookup_insert_eq by (unfold sta_ok in Hs; lia) | by rewrite list_lookup_insert_ne]. }
  destruct (ieee80211_has_retry (fc f)); cbn [andb]; [destruct (Z.eqb_spec l (seq_ctrl (skb f))) as [Hd|_]|].
  - assert (G : forall i, nth i (last_seq_ctrl s) 0 = (if (seqno_idx f =? i)%nat then seq_ctrl (skb f) else nth i (last_seq_ctrl s) 0)).
    { intros i; destruct (Nat.eqb_spec (seqno_idx f) i) as [<-|]; [|done]; by rewrite (nth_lookup_Some _ _ 0 _ E). }
    destruct (ra_match (stat f)); eexists _, _; (split; [reflexivity|]; split; [exact Hs|]; split; [repeat split|]); intros i _; apply G.
  - apply Hstore.
  - apply Hstore.
Qed.

Lemma last_seen_step s s' f hist i : nth i (last_seq_ctrl s') 0 = last_seen s [f] i ->
  last_seen s' hist i = last_seen s (f :: hist) i.
Proof. unfold last_seen; by intros ->. Qed.

Lemma check_run_spec spurious sd s n fs : sta_ok s -> Forall frame_ok fs -> exists rs s' n',
  check_run spurious sd (Some s) n fs = Some (rs, Some s', n') /\ length rs = length fs /\
  forall i f, fs !! i = Some f -> rs !! i =
    Some (if is_duplicate s (take i fs) f then RX_DROP_UNUSABLE else class_filter spurious sd (Some s) (skb f)).
Proof.
  revert s n; induction fs as [|f fs IH]; intros s n Hs Hf; [by exists [], s, n|].
  apply list.Forall_cons in Hf as [Hf Hfs].
  destruct (check_step spurious sd s n f Hs Hf) as (s1 & n1 & E1 & Hs1 & Hsame & Hseq).
  destruct (IH s1 n1 Hs1 Hfs) as (rs & s2 & n2 & E2 & Hl & Hrs).
  cbn [check_run]; rewrite E1; cbn [mbind option_bind]; rewrite E2; cbn [mbind option_bind].
  eexists _, _, _; split; [reflexivity|]; split; [cbn; by rewrite Hl|]; intros [|i] g Hg; cbn in Hg.
  { by simplify_eq. }
  cbn [take]; etransitivity; [exact (Hrs i g Hg)|]; rewrite <- (class_filter_same spurious sd s s1 (skb g)) by done.
  assert (Hg' : frame_ok g) by (by eapply Forall_lookup_1 in Hfs).
  unfold is_duplicate; rewrite (last_seen_step s s1 f (take i fs) (seqno_idx g)); [done|]; apply Hseq, Hg'.
Qed.

(** ** Lemmas: the key of a frame *)

Section RightKey.
Context (keys : list ieee80211_key) (sd : sub_if_data) (sta : option sta_info) (skb : list Z).

Definition key_id : nat := Z.to_nat (Z.shiftr (skb.[Z.to_nat (ieee80211_hdrlen (frame_control skb)) + 3]) 6).

(** The keys a protected frame may be opened with. *)
Inductive frame_key : nat -> Prop :=
  | pairwise_key s i : is_multicast_ether_addr skb = false -> sta = Some s -> ptk s = Some i -> frame_key i
  | default_wep_key i k : is_multicast_ether_addr skb = false -> (s ← sta; ptk s) = None ->
      if_keys sd !! key_id = Some (Some i) -> keys !! i = Some k -> is_wep k = true -> frame_key i
  | station_group_key s i : is_multicast_ether_addr skb = true -> sta = Some s ->
      gtk s !! key_id = Some (Some i) -> frame_key i
  | interface_group_key i : is_multicast_ether_addr skb = true ->
      (forall s, sta = Some s -> gtk s !! key_id = Some None) ->
      if_keys sd !! key_id = Some (Some i) -> frame_key i.

Lemma select_by_keyid_right i : (is_multicast_ether_addr skb = false -> (s ← sta; ptk s) = None) ->
  select_by_keyid keys sd sta skb = Some (Use (Some i)) -> frame_key i.
Proof.
  intros Hptk; unfold select_by_keyid; case_bool_decide; [done|]; fold key_id.
  destruct (is_multicast_ether_addr skb) eqn:Em; unfold sta_gtk.
  - destruct sta as [s|] eqn:Es; [destruct (gtk s !! _) as [[r|]|] eqn:Eg|]; cbn [mbind option_bind]; try done.
    + intros [= <-]; by eapply station_group_key.
    + destruct (if_keys sd !! _) as [[r|]|] eqn:Ek; cbn [mbind option_bind]; try done.
      destruct (keys !! r); cbn [mbind option_bind negb]; [|done]; rewrite andb_false_r; intros [= <-].
      apply interface_group_key; [done| |done]; intros s' E; by simplify_eq.
    + destruct (if_keys sd !! _) as [[r|]|] eqn:Ek; cbn [mbind option_bind]; try done.
      destruct (keys !! r); cbn [mbind option_bind negb]; [|done]; rewrite andb_false_r; intros [= <-].
      apply interface_group_key; [done| |done]; intros s' E; by simplify_eq.
  - cbn [mbind option_bind]; destruct (if_keys sd !! _) as [[r|]|] eqn:Ek; cbn [mbind option_bind]; try done.
    destruct (keys !! r) as [k|] eqn:Er; cbn [mbind option_bind negb]; [|done]; rewrite andb_true_r.
    destruct (is_wep k) eqn:Ew; cbn [negb]; [|done]; intros [= <-]; eapply default_wep_key; eauto.
Qed.

Lemma select_by_keyid_return r k : select_by_keyid keys sd sta skb = Some (Return r k) -> r = RX_DROP_UNUSABLE.
Proof.
  unfold select_by_keyid; case_bool_decide; [by intros [= <- _]|].
  destruct (if is_multicast_ether_addr skb then _ else _) as [[?|]|]; cbn [mbind option_bind]; try done.
  destruct (if_keys sd !! _) as [[i|]|]; cbn [mbind option_bind]; try done.
  by destruct (keys !! i).
Qed.

(** Selection for a protected frame the device has not stripped. *)
Lemma select_protected st sel : ieee80211_has_protected (frame_control skb) = true ->
  decrypted st && iv_stripped st = false -> select_key keys sd sta st skb = Some sel ->
  match sel with
  | Return r k => r = RX_DROP_UNUSABLE
  | Use (Some i) => frame_key i
  | Use None => True
  end.
Proof.
  intros Hp Hst; unfold select_key; rewrite Hp, Hst; cbn [negb].
  destruct (is_multicast_ether_addr skb) eqn:Em; cbn [negb andb].
  - change (0 <=? -1) with false; cbn [andb]; intros E; destruct sel as [r k|[i|]]; [|apply select_by_keyid_right; [congruence|done]|done].
    by eapply select_by_keyid_return.
  - destruct (s ← sta; ptk s) as [i|] eqn:Ep; case_bool_decide as D; try done.
    + intros [= <-]; destruct sta as [s|] eqn:Es; [|done]; by eapply pairwise_key.
    + change (0 <=? -1) with false; cbn [andb]; intros E; destruct sel as [r k|[i|]]; [|by eapply select_by_keyid_right|done].
      by eapply select_by_keyid_return.
Qed.
End RightKey.

(** ** Lemmas: the length of action frames *)

Lemma robust_mgmt_reads_past skb : robust_mgmt skb = None <->
  ieee80211_is_action (frame_control skb) = true /\ ieee80211_has_protected (frame_control skb) = false /\ (length skb < 25)%nat.
Proof.
  unfold robust_mgmt; destruct (ieee80211_is_action _), (ieee80211_has_protected _); cbn [andb negb]; try (split; [done|intuition congruence]).
  case_bool_decide; (split; [done|]); intuition lia.
Qed.

Lemma drop_mgmt_reads_past sta rx : ieee80211_drop_unencrypted_mgmt sta rx = None ->
  ieee80211_is_action (fc rx) = true /\ ieee80211_has_protected (fc rx) = false /\ (length (skb rx) < 25)%nat /\
  decrypted (stat rx) = false /\ exists s, sta = Some s /\ mfp s = true.
Proof.
  unfold ieee80211_drop_unencrypted_mgmt, ieee80211_is_unicast_robust_mgmt_frame, ieee80211_is_multicast_robust_mgmt_frame.
  fold (fc rx); destruct (decrypted (stat rx)); [done|]; destruct sta as [s|]; [|done]; destruct (mfp s) eqn:Em; [|done].
  destruct (robust_mgmt (skb rx)) as [r|] eqn:Er.
  - destruct (ieee80211_has_protected (fc rx)), (is_multicast_ether_addr (skb rx)); cbn [negb];
      repeat (case_match || cbn [mbind option_bind]); done.
  - intros _; apply robust_mgmt_reads_past in Er as (Ea & Ep & Hl); fold (fc rx) in Ea, Ep; repeat split; eauto.
Qed.

(** ** Properties *)

Section Properties.
Context `{StreamCipher}.
Context (crc32_le : Z -> list Z -> Z).

(** C5: a protected frame that the decryption handler passes on, other than one
    the device decrypted and stripped, was opened by the cipher of a key the
    frame may use: the pairwise key of a unicast frame (without one, only a WEP
    key of the interface), the group key the frame's key index selects for a
    multicast frame, first the station's, then the interface's.  The key is not
    tainted, and the frame goes on marked as decrypted. *)
Theorem decrypt_uses_right_key ev sd keys sta rx keys' sta' rx' :
  ra_match (stat rx) = true -> ieee80211_has_protected (fc rx) = true -> decrypted (stat rx) && iv_stripped (stat rx) = false ->
  ieee80211_rx_h_decrypt crc32_le ev sd keys sta rx = Some (RX_CONTINUE, keys', sta', rx') ->
  exists i k o, key rx' = Some i /\ keys !! i = Some k /\ frame_key keys sd sta (skb rx) i /\ tainted k = false /\
    run_cipher crc32_le ev sta rx (material k) = Some (Some o) /\ o_result o = RX_CONTINUE /\
    skb rx' = o_skb o /\ decrypted (stat rx') = true /\
    keys' = <[i := Key (o_key o) false (s32 (tx_rx_count k + 1))]> keys.
Proof.
  intros Hra Hp Hst; unfold ieee80211_rx_h_decrypt; rewrite Hra; cbn [negb].
  destruct (select_key keys sd sta (stat rx) (skb rx)) as [sel|] eqn:Es; cbn [mbind option_bind]; [|done].
  pose proof (select_protected keys sd sta (skb rx) (stat rx) sel Hp Hst Es) as Hsel.
  destruct sel as [r k|[i|]]; [intros [= -> _ _ _]; done| |done].
  destruct (keys !! i) as [k|] eqn:Ek; cbn [mbind option_bind]; [|done].
  destruct (tainted k) eqn:Et; [done|].
  change (run_cipher crc32_le ev sta (set_key rx (Some i)) (material (Key (material k) false (s32 (tx_rx_count k + 1)))))
    with (run_cipher crc32_le ev sta rx (material k)).
  destruct (run_cipher crc32_le ev sta rx (material k)) as [[o|]|] eqn:Er; cbn [mbind option_bind]; try done.
  intros [= Hr <- <- <-]; exists i, k, o; cbn; repeat split; done.
Qed.

End Properties.

(** Over every sequence of frames with complete headers from one station,
    the check handler never fails, and drops as duplicate exactly the unicast
    retransmissions whose sequence control is that of the last unicast frame
    seen on the same index; every other frame gets the verdict of the class
    filter, whatever was received before. *)
Theorem duplicates_exact spurious sd s n fs : sta_ok s -> Forall frame_ok fs -> exists rs s' n',
  check_run spurious sd (Some s) n fs = Some (rs, Some s', n') /\
  length rs = length fs /\
  forall i f, fs !! i = Some f ->
    rs !! i = Some (if is_duplicate s (take i fs) f then RX_DROP_UNUSABLE else class_filter spurious sd (Some s) (skb f)).
Proof. apply check_run_spec. Qed.

(** The check handler reads behind the end of exactly the unicast frames
    from known stations that are shorter than 24 bytes, such as every PS-Poll:
    duplicate detection takes [seq_ctrl] from frames that have none. *)
Theorem check_reads_past_header spurious sd sta n rx : (forall s, sta = Some s -> sta_ok s) -> (seqno_idx rx < 17)%nat ->
  ieee80211_rx_h_check spurious sd sta n rx = None <->
  sta <> None /\ is_multicast_ether_addr (skb rx) = false /\ (length (skb rx) < 24)%nat.
Proof.
  intros Hs Hi; unfold ieee80211_rx_h_check; destruct sta as [s|]; [|split; [done|by intros []]].
  destruct (is_multicast_ether_addr (skb rx)); cbn [negb]; [split; [done|by intros (_ & ? & _)]|].
  unfold duplicate_filter, read_seq_ctrl; case_bool_decide as D; unfold off_seq_ctrl in D; cbn [mbind option_bind].
  - destruct (lookup_lt_is_Some_2 (last_seq_ctrl s) (seqno_idx rx)) as [l ->]; [rewrite (Hs s eq_refl); lia|].
    cbn [mbind option_bind]; split; [|lia].
    destruct (_ && _); [destruct (ra_match (stat rx))|]; done.
  - split; [|done]; intros _; repeat split; [done|lia].
Qed.

(** The check of unprotected management frames reads behind the end of
    exactly one kind of frame: an unprotected action frame of 24 bytes, the
    length both guards let pass, from a station with management frame
    protection. *)
Theorem mgmt_check_reads_past sd sta br rx :
  ieee80211_rx_h_mgmt_check sd sta br rx = None <->
  length (skb rx) = 24%nat /\ ieee80211_is_mgmt (fc rx) = true /\ ieee80211_is_action (fc rx) = true /\
  ieee80211_has_protected (fc rx) = false /\ ra_match (stat rx) = true /\ decrypted (stat rx) = false /\
  exists s, sta = Some s /\ mfp s = true.
Proof.
  unfold ieee80211_rx_h_mgmt_check; fold (fc rx); split.
  - case_bool_decide as D24; [done|]; destruct (ieee80211_is_mgmt (fc rx)) eqn:Emg; [cbn [negb]|done].
    destruct (ra_match (stat rx)); [cbn [negb]|done].
    destruct (ieee80211_drop_unencrypted_mgmt sta rx) as [[err evs]|] eqn:Ed; [done|intros _].
    destruct (drop_mgmt_reads_past sta rx Ed) as (Ea & Ep & Hl & Hd & Hs); repeat split; try done; lia.
  - intros (Hl & -> & Ha & Hp & -> & Hd & s & -> & Hm); rewrite bool_decide_false by lia; cbn [negb].
    unfold ieee80211_drop_unencrypted_mgmt, ieee80211_is_unicast_robust_mgmt_frame, ieee80211_is_multicast_robust_mgmt_frame.
    fold (fc rx); rewrite Hd, Hm, Hp, !(bool_decide_false (length (skb rx) < 24)%nat) by lia; cbn [orb].
    rewrite (proj2 (robust_mgmt_reads_past (skb rx))) by (fold (fc rx); repeat split; [done|done|lia]).
    by destruct (is_multicast_ether_addr (skb rx)).
Qed.

(** ** Witnesses *)

(** A station with a CCMP pairwise key (key 0) on an interface whose group key
    (key 1) is also CCMP. *)
Definition demo_keys : list ieee80211_key :=
  [Key (CcmpKey Ccmp.demo_cipher Ccmp.demo_key) false 0; Key (CcmpKey Ccmp.demo_cipher Ccmp.demo_key) false 0].
Definition demo_sta : sta_info :=
  Sta (repeat 0x22 6) (Some 0%nat) (repeat None 6) (repeat 0xffff 17) true true true 0 0 0.
Definition demo_sdata : sub_if_data :=
  Sdata Ethernet.NL80211_IFTYPE_STATION (repeat 0x10 6) (None :: Some 1%nat :: repeat None 4) None true [0x88; 0x8e]
    false false false (repeat 0x22 6) (repeat 0 6).
Definition demo_status (dec : bool) : rx_status := Status true false false false dec false false false.

(** A protected QoS data frame to [a1] with packet number [pn] under key index 1. *)
Definition demo_protected (a1 : list Z) (pn : Z) : list Z :=
  [0x88; 0x42; 0; 0] ++ a1 ++ repeat 0x22 6 ++ repeat 0x33 6 ++ [0x50; 0; 5; 0] ++ Ccmp.ccmp_pn2hdr (Ccmp.pn_bytes pn) 1 ++ repeat 9 20.
Definition demo_rx (skb : list Z) (dec : bool) : rx_data := Rx skb (demo_status dec) None 5 5 (0, 0).
Definition demo_env : env := Env true false true true.

(** A unicast frame is opened with the pairwise key; a multicast one with the
    group key its key index selects. *)
Example unicast_key : select_key demo_keys demo_sdata (Some demo_sta) (demo_status true) (demo_protected (repeat 0x10 6) 8) = Some (Use (Some 0%nat)).
Proof. vm_compute; reflexivity. Qed.
Example multicast_key : select_key demo_keys demo_sdata (Some demo_sta) (demo_status true) (demo_protected (repeat 0xff 6) 8) = Some (Use (Some 1%nat)).
Proof. vm_compute; reflexivity. Qed.

(** Without a pairwise key a unicast frame is not opened with a CCMP key of the
    interface. *)
Example no_group_key_for_unicast :
  select_key demo_keys demo_sdata None (demo_status true) (demo_protected (repeat 0x10 6) 8) = Some (Use None).
Proof. vm_compute; reflexivity. Qed.

Lemma decrypt_uses_right_key_witness : exists i k o,
  i = 1%nat /\ demo_keys !! i = Some k /\
  frame_key demo_keys demo_sdata (Some demo_sta) (demo_protected (repeat 0xff 6) 8) i /\ o_result o = RX_CONTINUE.
Proof.
  destruct (@ieee80211_rx_h_decrypt Wep.toy_stream Wep.toy_crc32 demo_env demo_sdata demo_keys (Some demo_sta)
    (demo_rx (demo_protected (repeat 0xff 6) 8) true)) as [[[[r ks] s] rx']|] eqn:E.
  - assert (C : option_map (fun x => (x.1.1.1, key x.2)) (@ieee80211_rx_h_decrypt Wep.toy_stream Wep.toy_crc32 demo_env demo_sdata
      demo_keys (Some demo_sta) (demo_rx (demo_protected (repeat 0xff 6) 8) true)) = Some (RX_CONTINUE, Some 1%nat)) by (vm_compute; reflexivity).
    rewrite E in C; injection C as -> C.
    destruct (@decrypt_uses_right_key Wep.toy_stream Wep.toy_crc32 demo_env demo_sdata demo_keys (Some demo_sta)
      (demo_rx (demo_protected (repeat 0xff 6) 8) true) ks s rx' eq_refl eq_refl eq_refl E) as (i & k & o & Hk & Hl & Hf & _ & _ & Ho & _).
    exists i, k, o; rewrite Hk in C; injection C as ->; done.
  - exfalso; enough (C : bool_decide (is_Some (@ieee80211_rx_h_decrypt Wep.toy_stream Wep.toy_crc32 demo_env demo_sdata demo_keys
      (Some demo_sta) (demo_rx (demo_protected (repeat 0xff 6) 8) true))) = true) by (rewrite E in C; discriminate); vm_compute; reflexivity.
Defined.

(** A data frame to a unicast address with sequence control [sc], sent again
    when [retry]. *)
Definition demo_data (retry : bool) (sc : Z) : rx_data :=
  demo_rx ([0x88; if retry then 0x0a else 0x02; 0; 0] ++ repeat 0x10 6 ++ repeat 0x22 6 ++ repeat 0x33 6 ++ put_le16 sc ++ [5; 0] ++ repeat 9 8) false.

Lemma duplicates_exact_witness : exists s' n',
  check_run (fun _ => false) demo_sdata (Some demo_sta) 0
    [demo_data false 0x50; demo_data true 0x50; demo_data true 0x60; demo_data false 0x60; demo_data true 0x50] =
    Some ([RX_CONTINUE; RX_DROP_UNUSABLE; RX_CONTINUE; RX_CONTINUE; RX_CONTINUE], s', n').
Proof.
  destruct (duplicates_exact (fun _ => false) demo_sdata demo_sta 0
    [demo_data false 0x50; demo_data true 0x50; demo_data true 0x60; demo_data false 0x60; demo_data true 0x50])
    as (rs & s' & n' & E & Hl & Hr); [reflexivity | repeat constructor; cbn; lia |].
  exists (Some s'), n'; rewrite E; do 2 f_equal.
  destruct rs as [|r0 [|r1 [|r2 [|r3 [|r4 [|]]]]]]; try discriminate.
  pose proof (Hr 0%nat _ eq_refl) as R0; pose proof (Hr 1%nat _ eq_refl) as R1; pose proof (Hr 2%nat _ eq_refl) as R2.
  pose proof (Hr 3%nat _ eq_refl) as R3; pose proof (Hr 4%nat _ eq_refl) as R4.
  injection R0 as ->; injection R1 as ->; injection R2 as ->; injection R3 as ->; injection R4 as ->; reflexivity.
Defined.

(** A PS-Poll of the access point's station. *)
Definition demo_pspoll : rx_data := demo_rx ([0xa4; 0x10; 1; 0xc0] ++ repeat 0x10 6 ++ repeat 0x22 6) false.

Lemma check_reads_past_header_witness : ieee80211_is_pspoll (fc demo_pspoll) = true /\
  ieee80211_rx_h_check (fun _ => false) demo_sdata (Some demo_sta) 0 demo_pspoll = None.
Proof.
  split; [reflexivity|]; apply check_reads_past_header; [by intros s [= <-] | cbn; lia |].
  repeat split; [done | cbn; lia].
Defined.

End RxHandlers.
