(* ===== verification/RxData.v ===== *)
(** * Receive handlers: from decryption to delivery

    [net/mac80211/rx.c] behind [ieee80211_rx_h_decrypt]: power save and its
    poll frames, the statistics of the station, defragmentation and the Michael
    MIC (the components [Defrag] and [Tkip] on the shared keys), and the
    delivery of data frames and A-MSDUs, in the order [ieee80211_rx_handlers]
    calls them.  A mesh interface has one more handler, which is not modelled.
    A fragment in the cache keeps the control block it came with; a reassembled
    frame has that of its first fragment.  What the handlers call outside the
    receive path is an event.  Left out: device and LED statistics, signal and
    rate of the last frame, the power save timer, and the alignment of the
    delivered buffer.  [None] is a load outside a frame or an array. *)

From stdpp Require Import sets.
From S2P Require Import Prelude Ieee80211 Frame Ethernet Wep Tkip AesCcm Reorder Ccmp Bip Defrag RxHandlers.

Module RxData.
Import Ieee80211 Frame RxHandlers.
Import Ethernet (nl80211_iftype(..), one_of).

(** ** State *)

(** The power save flags of a station: asleep, blocked by the driver, in a
    service period, a poll or a trigger that waits for the driver, and the
    4-address event. *)
Record sta_power := Power { ps_sta : bool; ps_driver : bool; sp : bool; pspoll : bool; uapsd : bool; four_addr_event : bool }.

Record sta_stats := Stats { last_rx : Z; rx_fragments : Z; rx_bytes : Z; rx_packets : Z }.

(** [num_sta_ps] is that of the access point; [frag_status] holds the control
    block of the first fragment of each cache entry. *)
Record world := World {
  keys : list ieee80211_key; sta : option sta_info; power : sta_power; stats : sta_stats; num_sta_ps : Z;
  frags : Defrag.cache; frag_status : list rx_status; pspolling : bool }.

Definition set_power (w : world) (p : sta_power) (n : Z) : world :=
  World (keys w) (sta w) p (stats w) n (frags w) (frag_status w) (pspolling w).
Definition set_stats (w : world) (s : sta_stats) : world :=
  World (keys w) (sta w) (power w) s (num_sta_ps w) (frags w) (frag_status w) (pspolling w).
Definition set_crypt (w : world) (ks : list ieee80211_key) (s : option sta_info) : world :=
  World ks s (power w) (stats w) (num_sta_ps w) (frags w) (frag_status w) (pspolling w).
Definition set_frags (w : world) (c : Defrag.cache) (st : list rx_status) : world :=
  World (keys w) (sta w) (power w) (stats w) (num_sta_ps w) c st (pspolling w).
Definition set_pspolling (w : world) (b : bool) : world :=
  World (keys w) (sta w) (power w) (stats w) (num_sta_ps w) (frags w) (frag_status w) b.

(** The device handles power save; frames are not bridged; the access point of
    an [AP_VLAN]; the trigger-enabled queues of the station. *)
Record local := Local { HZ : Z; ap_link_ps : bool; dont_bridge : bool; bss : option sub_if_data; uapsd_queues : Z }.

(** What one frame meets: the results of allocations and [skb_linearize], the
    room of the buffer, [jiffies], and the stations of the interface. *)
Record rx_env := RxEnv {
  crypt : env; jiffies : Z; lin_defrag : bool; lin_mic : bool; lin_amsdu : bool; tailroom : list Z -> Z; expanded : bool;
  freed : list Z -> list Z; alloc : nat -> bool; headroom : Z; copied : bool; sta_info_get : list Z -> bool }.

(** [Deliver to_air buf eth]: the Ethernet frame [eth], made of the 802.11
    frame [buf], goes to the network stack or back to the air. *)
Inductive event :=
  | Deliver (to_air : bool) (buf eth : list Z)
  | SendPspoll | NotifySleep | NotifyAwake | DeliverWakeup | PollResponse | DeliverUapsd | Unexpected4addr | RxNotify | MicFailure (keyidx : Z).

Definition handler : Type := world -> rx_data -> option (rx_result * world * rx_data * list event).

(** ** Power save *)

Definition ieee80211_rx_h_check_more_data : handler := fun w rx =>
  if negb (pspolling w) then Some (RX_CONTINUE, w, rx, [])
  else if negb (ieee80211_has_fromds (fc rx)) then Some (RX_CONTINUE, w, rx, [])
  else if negb (ieee80211_is_data (fc rx)) then Some (RX_CONTINUE, w, rx, [])
  else if negb (ieee80211_has_moredata (fc rx)) then Some (RX_CONTINUE, set_pspolling w false, rx, [])
  else Some (RX_CONTINUE, w, rx, [SendPspoll]).

Definition ieee802_1d_to_ac : list Z := [2; 3; 3; 2; 1; 1; 0; 0].

Section Handlers.
Context `{StreamCipher}.
Context (crc32_le : Z -> list Z -> Z).
Context (lo : local) (sd : sub_if_data) (ev : rx_env).

Definition is_ap : bool := one_of (vif_type sd) [NL80211_IFTYPE_AP; NL80211_IFTYPE_AP_VLAN].

Definition sta_ps_start (w : world) : world * list event :=
  if negb is_ap then (w, [])
  else
    let p := power w in
    (set_power w (Power true (ps_driver p) (sp p) (pspoll p) (uapsd p) (four_addr_event p)) (s32 (num_sta_ps w + 1)),
     if negb (ap_link_ps lo) then [NotifySleep] else []).

(** [ieee80211_sta_ps_deliver_wakeup] ends the service period; when the
    buffered frames are queued, [clear_sta_ps_flags] ends the sleep. *)
Definition ieee80211_sta_ps_deliver_wakeup (w : world) : world * list event :=
  let p := power w in
  let flags_cleared ps drv := Power ps drv false (pspoll p) (uapsd p) (four_addr_event p) in
  let awake := if negb (ap_link_ps lo) then [NotifyAwake] else [] in
  if negb is_ap then (set_power w (flags_cleared (ps_sta p) (ps_driver p)) (num_sta_ps w), awake ++ [DeliverWakeup])
  else (set_power w (flags_cleared false false) (if ps_sta p then s32 (num_sta_ps w - 1) else num_sta_ps w), awake ++ [DeliverWakeup]).

Definition sta_ps_end (w : world) : world * list event :=
  if ps_driver (power w) then (w, []) else ieee80211_sta_ps_deliver_wakeup w.

(** The driver's report of a transition; the code and the state. *)
Definition ieee80211_sta_ps_transition (w : world) (start : bool) : Z * world * list event :=
  let in_ps := ps_sta (power w) in
  if (start && in_ps) || (negb start && negb in_ps) then (-22, w, [])
  else let '(w, e) := if start then sta_ps_start w else sta_ps_end w in (0, w, e).

Definition ieee80211_rx_h_uapsd_and_pspoll : handler := fun w rx =>
  let p := power w in
  if bool_decide (sta w = None) || negb (ra_match (stat rx)) then Some (RX_CONTINUE, w, rx, [])
  else if negb is_ap then Some (RX_CONTINUE, w, rx, [])
  else if ap_link_ps lo then Some (RX_CONTINUE, w, rx, [])
  else if negb (ps_sta p) then Some (RX_CONTINUE, w, rx, [])
  else if ieee80211_is_pspoll (fc rx) then
    if negb (sp p) then
      if negb (ps_driver p) then Some (RX_QUEUED, w, rx, [PollResponse])
      else Some (RX_QUEUED, set_power w (Power (ps_sta p) (ps_driver p) (sp p) true (uapsd p) (four_addr_event p)) (num_sta_ps w), rx, [])
    else Some (RX_QUEUED, w, rx, [])
  else if negb (ieee80211_has_morefrags (fc rx)) && negb (deferred_release (stat rx)) && ieee80211_has_pm (fc rx) &&
          (ieee80211_is_data_qos (fc rx) || ieee80211_is_qos_nullfunc (fc rx)) then
    let tid := Z.land ((skb rx).[ieee80211_get_qos_ctl (skb rx)]) IEEE80211_QOS_CTL_TID_MASK in
    ac ← ieee802_1d_to_ac !! Z.to_nat (Z.land tid 7);
    if Z.land (uapsd_queues lo) (Z.shiftl 1 ac) =? 0 then Some (RX_CONTINUE, w, rx, [])
    else if sp p then Some (RX_CONTINUE, w, rx, [])
    else if negb (ps_driver p) then Some (RX_CONTINUE, w, rx, [DeliverUapsd])
    else Some (RX_CONTINUE, set_power w (Power (ps_sta p) (ps_driver p) (sp p) (pspoll p) true (four_addr_event p)) (num_sta_ps w), rx, [])
  else Some (RX_CONTINUE, w, rx, []).

(** [test_and_set_sta_flag] of the 4-address event, and the report. *)
Definition report_4addr (w : world) : world * list event :=
  let p := power w in
  if four_addr_event p then (w, [])
  else (set_power w (Power (ps_sta p) (ps_driver p) (sp p) (pspoll p) (uapsd p) true) (num_sta_ps w), [Unexpected4addr]).

(** The time of the last frame; [None] compares a BSSID that is NULL. *)
Definition update_last_rx (w : world) (s : sta_info) (rx : rx_data) : option sta_stats :=
  let t := stats w in
  let now := Stats (jiffies ev) (rx_fragments t) (rx_bytes t) (rx_packets t) in
  if bool_decide (vif_type sd = NL80211_IFTYPE_ADHOC) then
    b ← ieee80211_get_bssid (skb rx) NL80211_IFTYPE_ADHOC;
    Some (if ether_addr_equal (addr b (skb rx)) (bssid sd) && authorized s then now else t)
  else Some (if negb (is_multicast_ether_addr (skb rx)) then now else t).

Definition ps_transition (w : world) (rx : rx_data) : world * list event :=
  if negb (ap_link_ps lo) && negb (ieee80211_has_morefrags (fc rx)) && negb (deferred_release (stat rx)) && is_ap then
    if ps_sta (power w) then
      if ieee80211_is_data (fc rx) && negb (ieee80211_has_pm (fc rx)) then sta_ps_end w else (w, [])
    else if ieee80211_has_pm (fc rx) then sta_ps_start w else (w, [])
  else (w, []).

Definition count_packet (w : world) : world :=
  let t := stats w in set_stats w (Stats (last_rx t) (rx_fragments t) (rx_bytes t) (u64 (rx_packets t + 1))).

Definition ieee80211_rx_h_sta_process : handler := fun w rx =>
  match sta w with
  | None => Some (RX_CONTINUE, w, rx, [])
  | Some s =>
      t ← update_last_rx w s rx;
      let w := set_stats w t in
      if negb (ra_match (stat rx)) then Some (RX_CONTINUE, w, rx, [])
      else
        let t := stats w in
        let w := set_stats w (Stats (last_rx t) (u64 (rx_fragments t + 1)) (u64 (rx_bytes t + Z.of_nat (length (skb rx)))) (rx_packets t)) in
        let '(w, e) := ps_transition w rx in
        let e := (if bool_decide (vif_type sd = NL80211_IFTYPE_STATION) then [RxNotify] else []) ++ e in
        if ieee80211_is_nullfunc (fc rx) || ieee80211_is_qos_nullfunc (fc rx) then
          if ieee80211_has_a4 (fc rx) &&
             (bool_decide (vif_type sd = NL80211_IFTYPE_AP) ||
              (bool_decide (vif_type sd = NL80211_IFTYPE_AP_VLAN) && negb (vlan_sta sd)))
          then let '(w, e') := report_4addr w in Some (RX_DROP_MONITOR, w, rx, e ++ e')
          else Some (RX_QUEUED, count_packet w, rx, e)
        else Some (RX_CONTINUE, w, rx, e)
  end.

(** ** Reassembly and the Michael MIC *)

Definition set_rx (rx : rx_data) (d : list Z) (st : rx_status) : rx_data :=
  Rx d st (key rx) (seqno_idx rx) (security_idx rx) (tkip_iv rx).
Definition set_fragmented (st : rx_status) : rx_status :=
  Status (ra_match st) (is_amsdu st) (deferred_release st) true (decrypted st) (iv_stripped st) (mmic_stripped st) (mmic_error st).

(** The key of the frame: [None] is a dangling reference. *)
Definition rx_key (w : world) (rx : rx_data) : option (option ieee80211_key) :=
  match key rx with Some i => k ← keys w !! i; Some (Some k) | None => Some None end.

Definition defrag_key (k : option ieee80211_key) : option Defrag.rx_key :=
  (fun k => match material k with CcmpKey _ c => Defrag.CcmpKey c | _ => Defrag.OtherKey end) <$> k.

Definition defrag_env : Defrag.env := Defrag.Env (jiffies ev) (lin_defrag ev) (tailroom ev) (expanded ev) (freed ev).
Definition defrag_rx (k : option ieee80211_key) (rx : rx_data) : Defrag.rx_data :=
  Defrag.Rx (skb rx) (defrag_key k) (Z.of_nat (seqno_idx rx)) (security_idx rx).

Definition frag_number (skb : list Z) : Z := Z.land (seq_ctrl skb) IEEE80211_SCTL_FRAG.
Definition frame_number (skb : list Z) : Z := Z.shiftr (Z.land (seq_ctrl skb) IEEE80211_SCTL_SEQ) 4.

(** The control block of the frame a last fragment completes. *)
Definition head_status (w : world) (rx : rx_data) : option rx_status :=
  '(_, found) ← Defrag.ieee80211_reassemble_find (HZ lo) (frags w) (jiffies ev) (frag_number (skb rx)) (frame_number (skb rx))
    (Z.of_nat (seqno_idx rx)) (skb rx);
  i ← found; frag_status w !! i.

Definition ieee80211_rx_h_defragment : handler := fun w rx =>
  k ← rx_key w rx;
  '(c, o) ← Defrag.ieee80211_rx_h_defragment (HZ lo) defrag_env (frags w) (defrag_rx k rx);
  match o with
  | Defrag.Queued =>
      let st := if frag_number (skb rx) =? 0 then <[Defrag.fragment_next (frags w) := stat rx]> (frag_status w) else frag_status w in
      Some (RX_QUEUED, set_frags w c st, rx, [])
  | Defrag.Drop r d => Some (r, set_frags w c (frag_status w), set_rx rx d (stat rx), [])
  | Defrag.Continue d eff =>
      st ← (if Defrag.fragmented eff then set_fragmented <$> head_status w rx else Some (stat rx));
      let w := set_frags w c (frag_status w) in
      let w := if bool_decide (sta w <> None) && bool_decide (Defrag.counted eff <> None) then count_packet w else w in
      Some (RX_CONTINUE, w, set_rx rx d st, [])
  end.

(** The key as the MIC check sees it: of another cipher it reads the index. *)
Definition mic_key (k : ieee80211_key) : Tkip.tkip_key * bool :=
  let other idx := (Tkip.TKey [] idx [] Tkip.ctx0 [] 0, false) in
  match material k with
  | TkipKey k => (k, true)
  | WepKey _ k => other (Wep.key_idx k)
  | CcmpKey _ k => other (Ccmp.keyidx k)
  | CmacKey _ k => other (Bip.keyidx k)
  | HwOnlyKey _ i => other i
  end.

Definition store_mic_key (w : world) (rx : rx_data) (k : option (Tkip.tkip_key * bool)) : world :=
  match key rx, k with
  | Some i, Some (t, true) =>
      match keys w !! i with
      | Some old => set_crypt w (<[i := Key (TkipKey t) (tainted old) (tx_rx_count old)]> (keys w)) (sta w)
      | None => w
      end
  | _, _ => w
  end.

Definition ieee80211_rx_h_michael_mic_verify : handler := fun w rx =>
  k ← rx_key w rx;
  let st := stat rx in
  let flags := Tkip.MicRx (mmic_stripped st) (iv_stripped st) (mmic_error st) (decrypted st)
    (bool_decide (vif_type sd = NL80211_IFTYPE_AP)) (lin_mic ev) in
  let '(r, k, d, failure) := Tkip.ieee80211_rx_h_michael_mic_verify (mic_key <$> k) flags (security_idx rx) (tkip_iv rx) (skb rx) in
  Some (r, store_mic_key w rx k, set_rx rx d st, match failure with Some i => [MicFailure i] | None => [] end).

(** ** Delivery *)

Definition pae_group_addr : list Z := [0x01; 0x80; 0xC2; 0x00; 0x00; 0x03].
Definition h_dest (eth : list Z) : list Z := sub eth 0 6.
Definition h_proto (eth : list Z) : list Z := sub eth 12 2.

Definition port_control_frame (eth : list Z) : bool :=
  ether_addr_equal (h_proto eth) (control_port_protocol sd) &&
  (ether_addr_equal (h_dest eth) (vif_addr sd) || ether_addr_equal (h_dest eth) pae_group_addr).

Definition ieee80211_frame_allowed (w : world) (rx : rx_data) (fc : Z) (eth : list Z) : bool :=
  if port_control_frame eth then true
  else if negb (ieee80211_802_1x_port_control (sta w) =? 0) || negb (ieee80211_drop_unencrypted sd rx fc =? 0) then false
  else true.

(** [sdata] is the interface the frame is delivered on. *)
Definition ieee80211_deliver_skb (sdata : sub_if_data) (rx : rx_data) (buf eth : list Z) : list event :=
  if one_of (vif_type sdata) [NL80211_IFTYPE_AP; NL80211_IFTYPE_AP_VLAN] && negb (dont_bridge lo) && ra_match (stat rx) &&
     (negb (bool_decide (vif_type sdata = NL80211_IFTYPE_AP_VLAN)) || negb (vlan_sta sdata)) then
    if Ethernet.is_multicast_ether_addr eth then
      Deliver false buf eth :: (if copied ev then [Deliver true buf eth] else [])
    else if sta_info_get ev (h_dest eth) then [Deliver true buf eth]
    else [Deliver false buf eth]
  else [Deliver false buf eth].

Definition linear_skb (rx : rx_data) : Ethernet.sk_buff := Ethernet.Skb (skb rx) (headroom ev) false 0 0.

Definition ieee80211_rx_h_amsdu : handler := fun w rx =>
  let c := fc rx in
  if negb (ieee80211_is_data c) then Some (RX_CONTINUE, w, rx, [])
  else if negb (ieee80211_is_data_present c) then Some (RX_DROP_MONITOR, w, rx, [])
  else if negb (is_amsdu (stat rx)) then Some (RX_CONTINUE, w, rx, [])
  else if ieee80211_has_a4 c && bool_decide (vif_type sd = NL80211_IFTYPE_AP_VLAN) && negb (vlan_sta sd)
  then Some (RX_DROP_UNUSABLE, w, rx, [])
  else if is_multicast_ether_addr (skb rx) &&
          (bool_decide (vif_type sd = NL80211_IFTYPE_AP_VLAN) && vlan_sta sd ||
           bool_decide (vif_type sd = NL80211_IFTYPE_STATION) && use_4addr sd)
  then Some (RX_DROP_UNUSABLE, w, rx, [])
  else if negb (lin_amsdu ev) then Some (RX_DROP_UNUSABLE, w, rx, [])
  else
    r ← Ethernet.ieee80211_amsdu_to_8023s (alloc ev) (linear_skb rx) (vif_addr sd) (vif_type sd) true;
    match r with
    | inl _ => None
    | inr frames =>
        Some (RX_QUEUED, w, rx,
          flat_map (fun eth => if ieee80211_frame_allowed w rx c eth then ieee80211_deliver_skb sd rx (skb rx) eth else [])
            (default [] frames))
    end.

(** The Ethernet frame and whether it is for the control port; [inl] has the
    code of an error. *)
Definition __ieee80211_data_to_8023 (rx : rx_data) : option (Z + list Z * bool) :=
  let a4 := ieee80211_has_a4 (fc rx) in
  if a4 && bool_decide (vif_type sd = NL80211_IFTYPE_AP_VLAN) && negb (vlan_sta sd) then Some (inl (-1))
  else
    let station := bool_decide (vif_type sd = NL80211_IFTYPE_STATION) in
    let mismatch := station && negb (Bool.eqb (use_4addr sd) a4) in
    if mismatch && negb (use_4addr sd) then Some (inl (-1))
    else if is_multicast_ether_addr (skb rx) && bool_decide (vif_type sd = NL80211_IFTYPE_AP_VLAN) && vlan_sta sd
    then Some (inl (-1))
    else
      '(ret, o) ← Ethernet.ieee80211_data_to_8023 (linear_skb rx) (vif_addr sd) (vif_type sd);
      match o with
      | None => Some (inl ret)
      | Some s =>
          let eth := Ethernet.data s in
          if ether_addr_equal (h_proto eth) (control_port_protocol sd) then Some (inr (eth, true))
          else if mismatch then Some (inl (-1))
          else Some (inr (eth, false))
      end.

Definition ieee80211_rx_h_data : handler := fun w rx =>
  let c := fc rx in
  if negb (ieee80211_is_data c) then Some (RX_CONTINUE, w, rx, [])
  else if negb (ieee80211_is_data_present c) then Some (RX_DROP_MONITOR, w, rx, [])
  else if ieee80211_has_a4 c && bool_decide (vif_type sd = NL80211_IFTYPE_AP) then
    if bool_decide (sta w <> None) then let '(w, e) := report_4addr w in Some (RX_DROP_MONITOR, w, rx, e)
    else Some (RX_DROP_MONITOR, w, rx, [])
  else
    r ← __ieee80211_data_to_8023 rx;
    match r with
    | inl _ => Some (RX_DROP_UNUSABLE, w, rx, [])
    | inr (eth, port_control) =>
        if negb (ieee80211_frame_allowed w rx c eth) then Some (RX_DROP_MONITOR, w, rx, [])
        else
          let sdata := if bool_decide (vif_type sd = NL80211_IFTYPE_AP_VLAN) && (port_control : bool)
            then default sd (bss lo) else sd in
          Some (RX_QUEUED, w, rx, ieee80211_deliver_skb sdata rx (skb rx) eth)
    end.

(** ** The sequence of handlers *)

Definition rx_h_decrypt : handler := fun w rx =>
  '(r, ks, s, rx) ← ieee80211_rx_h_decrypt crc32_le (crypt ev) sd (keys w) (sta w) rx;
  Some (r, set_crypt w ks s, rx, []).

(** [CALL_RXH]: the handlers in order, until one does not continue. *)
Fixpoint call_rxh (hs : list handler) : handler := fun w rx =>
  match hs with
  | [] => Some (RX_CONTINUE, w, rx, [])
  | h :: hs =>
      '(r, w, rx, e) ← h w rx;
      if bool_decide (r = RX_CONTINUE) then
        '(r, w, rx, e') ← call_rxh hs w rx; Some (r, w, rx, e ++ e')
      else Some (r, w, rx, e)
  end.

(** The handlers up to the delivery of data frames; control and management
    frames continue behind them. *)
Definition ieee80211_rx_handlers : handler := call_rxh
  [rx_h_decrypt; ieee80211_rx_h_check_more_data; ieee80211_rx_h_uapsd_and_pspoll; ieee80211_rx_h_sta_process;
   ieee80211_rx_h_defragment; ieee80211_rx_h_michael_mic_verify; ieee80211_rx_h_amsdu; ieee80211_rx_h_data].

End Handlers.

(** ** Lemmas: the heads of the fragment cache *)

Definition head_of (c : Defrag.cache) (j : nat) : option (list Z) :=
  e ← Defrag.fragments c !! j; head (Defrag.skb_list e).

(** Every pending frame of [c'] begins as one of [c] does. *)
Definition heads_within (c' c : Defrag.cache) : Prop := forall j d, head_of c' j = Some d -> head_of c j = Some d.

Lemma heads_set c i e e' : Defrag.fragments c !! i = Some e ->
  (forall d, head (Defrag.skb_list e') = Some d -> head (Defrag.skb_list e) = Some d) ->
  heads_within (Defrag.set_entry c i e') c.
Proof.
  intros He Hh j d; unfold head_of, Defrag.set_entry; cbn [Defrag.fragments].
  destruct (decide (i = j)) as [<-|Hne].
  - rewrite list_lookup_insert_eq by (by eapply lookup_lt_Some); rewrite He; apply Hh.
  - by rewrite list_lookup_insert_ne.
Qed.

Lemma heads_trans a b c : heads_within a b -> heads_within b c -> heads_within a c.
Proof. unfold heads_within; eauto. Qed.

Lemma find_from_heads hz n c now frag sq q hdr idx c' r : Defrag.find_from hz n c now frag sq q hdr idx = Some (c', r) ->
  heads_within c' c /\ forall i, r = Some i -> exists d, head_of c' i = Some d.
Proof.
  revert c idx; induction n as [|n IH]; intros c idx; [intros [= <- <-]; split; [by intros ? ?|done]|].
  cbn [Defrag.find_from]; set (i := match idx with O => _ | S i => i end).
  destruct (Defrag.fragments c !! i) as [e|] eqn:He; cbn [mbind option_bind]; [|done].
  destruct (Defrag.skb_list e) as [|f l] eqn:Hl; [apply IH|].
  destruct (_ || _); [apply IH|]; destruct (negb _); [apply IH|]; destruct (Reorder.time_after _ _).
  - intros E; destruct (IH _ _ E) as [Hw Hi]; split; [|done]; eapply heads_trans; [exact Hw|]; by eapply heads_set.
  - intros [= <- <-]; split; [by intros ? ?|]; intros ? [= <-]; exists f; unfold head_of; rewrite He; cbn; by rewrite Hl.
Qed.

Lemma check_pn_list f e e' : Defrag.check_pn f e = Some (Some e') -> Defrag.skb_list e' = Defrag.skb_list e.
Proof.
  unfold Defrag.check_pn; destruct (Defrag.ccmp e); [|by intros [= <-]].
  destruct (Defrag.rx_pn_of f) as [[p|]|]; cbn [mbind option_bind]; [|done..]; destruct (memcmp _ _); by intros [= <-].
Qed.

(** A later fragment: the heads stay, and what is completed begins with one. *)
Lemma next_fragment_heads dev c i f frag d0 c' o : head_of c i = Some d0 ->
  Defrag.rx_next_fragment dev c i f frag = Some (c', o) ->
  heads_within c' c /\ forall d eff, o = Defrag.Continue d eff -> Defrag.fragmented eff = true /\ exists rest, d = d0 ++ rest.
Proof.
  unfold head_of, Defrag.rx_next_fragment; destruct (Defrag.fragments c !! i) as [e|] eqn:He; cbn [mbind option_bind]; [|done].
  intros Hd; destruct (Defrag.check_pn f e) as [[e'|]|] eqn:Hc; cbn [mbind option_bind]; [| |done].
  2: { intros [= <- <-]; split; [intros ? ? ?; done|done]. }
  rewrite (check_pn_list f e e' Hc); destruct (Defrag.skb_list e) as [|h l] eqn:Hl; [done|]; injection Hd as ->; cbn [app].
  destruct (ieee80211_has_morefrags _).
  { intros [= <- <-]; split; [|done]; eapply heads_set; [exact He|]; cbn; by rewrite Hl. }
  assert (Hw : forall b, heads_within (Defrag.set_entry c i (Defrag.set_skbs b [])) c) by (intros b; by eapply heads_set).
  destruct (_ && _); intros [= <- <-]; (split; [apply Hw|try done]).
  intros d eff [= <- <-]; split; [done|]; eauto.
Qed.

Definition is_first (o : Defrag.outcome) (skb : list Z) : bool :=
  match o with Defrag.Queued => frag_number skb =? 0 | _ => false end.

Lemma defrag_heads hz dev c f c' o : Defrag.ieee80211_rx_h_defragment hz dev c f = Some (c', o) ->
  (forall j d, head_of c' j = Some d ->
     if is_first o (Defrag.rx_skb f) && (j =? Defrag.fragment_next c)%nat then d = Defrag.rx_skb f else head_of c j = Some d) /\
  (forall d eff, o = Defrag.Continue d eff ->
     if Defrag.fragmented eff then exists c1 i h rest,
       Defrag.ieee80211_reassemble_find hz c (Defrag.jiffies dev) (frag_number (Defrag.rx_skb f)) (frame_number (Defrag.rx_skb f))
         (Defrag.seqno_idx f) (Defrag.rx_skb f) = Some (c1, Some i) /\ head_of c i = Some h /\ d = h ++ rest
     else d = Defrag.rx_skb f).
Proof.
  unfold Defrag.ieee80211_rx_h_defragment; fold (frag_number (Defrag.rx_skb f)) (frame_number (Defrag.rx_skb f)).
  destruct (ieee80211_is_ctl _); [intros [= <- <-]; split; [done|by intros d eff [= <- <-]]|].
  destruct (_ || _); [intros [= <- <-]; split; [done|by intros d eff [= <- <-]]|].
  destruct (negb (Defrag.linearized dev)); [by intros [= <- <-]|].
  destruct (frag_number (Defrag.rx_skb f) =? 0) eqn:Hf.
  - unfold Defrag.rx_first_fragment, Defrag.ieee80211_reassemble_add.
    destruct (Defrag.fragments c !! Defrag.fragment_next c) as [e|] eqn:He; cbn [mbind option_bind]; [|done].
    destruct (Defrag.rx_pn_of f) as [rpn|]; cbn [mbind option_bind]; [|done]; intros E.
    assert (Ho : o = Defrag.Queued /\ exists e', Defrag.skb_list e' = [Defrag.rx_skb f] /\
      Defrag.fragments c' = <[Defrag.fragment_next c := e']> (Defrag.fragments c)).
    { revert E; destruct rpn as [pn|]; [destruct (ieee80211_has_protected _)|]; cbn [Defrag.fragments];
        rewrite ?list_lookup_insert_eq by (by eapply lookup_lt_Some); cbn [mbind option_bind]; intros [= <- <-];
        (split; [done|]); unfold Defrag.set_entry; cbn [Defrag.fragments]; rewrite ?list_insert_insert_eq; eexists; (split; [|reflexivity]); done. }
    destruct Ho as [-> (e' & Hl & Hc)]; split; [|done]; intros j d; unfold is_first; rewrite Hf; cbn [andb].
    unfold head_of; rewrite Hc; destruct (Nat.eqb_spec j (Defrag.fragment_next c)) as [->|Hne];
      [|by rewrite list_lookup_insert_ne by done].
    rewrite list_lookup_insert_eq by (by eapply lookup_lt_Some); cbn; rewrite Hl; by intros [= <-].
  - destruct (Defrag.ieee80211_reassemble_find _ _ _ _ _ _ _) as [[c1 r]|] eqn:Hfind; cbn [mbind option_bind]; [|done].
    destruct (find_from_heads _ _ _ _ _ _ _ _ _ _ _ Hfind) as [Hw Hi]; unfold is_first; rewrite Hf.
    destruct r as [i|]; [|intros [= <- <-]; split; [by intros j d Hd; apply Hw|done]].
    destruct (Hi i eq_refl) as [d0 Hd0]; intros E; destruct (next_fragment_heads _ _ _ _ _ _ _ _ Hd0 E) as [Hw' Ho].
    split; [intros j d Hd; destruct o; by apply Hw, Hw'|].
    intros d eff ->; destruct (Ho d eff eq_refl) as [-> [rest ->]]; exists c1, i, d0, rest; repeat split; by apply Hw.
Qed.

Lemma defrag_drops hz dev c f c' r d : Defrag.ieee80211_rx_h_defragment hz dev c f = Some (c', Defrag.Drop r d) -> r <> RX_CONTINUE.
Proof.
  unfold Defrag.ieee80211_rx_h_defragment, Defrag.rx_first_fragment, Defrag.rx_next_fragment.
  repeat (case_match || (match goal with |- mbind _ ?x = _ -> _ => destruct x as [[]|]; cbn [mbind option_bind] end)); try done.
  all: intros [= ]; by subst.
Qed.

(** ** Lemmas: one handler after the other *)

Section Triples.
Context (I : world -> Prop) (E : event -> Prop).

(** Whatever the result, [I] holds behind the handler and its events satisfy
    [E]; when it continues, [Q] holds of state and frame. *)
Definition triple (P : world -> rx_data -> Prop) (h : handler) (Q : world -> rx_data -> Prop) : Prop :=
  forall w rx r w' rx' e, P w rx -> h w rx = Some (r, w', rx', e) -> I w' /\ Forall E e /\ (r = RX_CONTINUE -> Q w' rx').

Lemma call_rxh_nil P : (forall w rx, P w rx -> I w) -> triple P (call_rxh []) P.
Proof. intros HI w rx r w' rx' e HP [= <- <- <- <-]; split; [by eapply HI|]; split; [constructor|done]. Qed.

Lemma call_rxh_cons P Q R h hs : triple P h Q -> triple Q (call_rxh hs) R -> triple P (call_rxh (h :: hs)) R.
Proof.
  intros Hh Hs w rx r w' rx' e HP; cbn [call_rxh].
  destruct (h w rx) as [[[[r1 w1] rx1] e1]|] eqn:E1; cbn [mbind option_bind]; [|done].
  destruct (Hh _ _ _ _ _ _ HP E1) as (HI & He & HQ); case_bool_decide as D; [|intros [= <- <- <- <-]; done].
  destruct (call_rxh hs w1 rx1) as [[[[r2 w2] rx2] e2]|] eqn:E2; cbn [mbind option_bind]; [|done].
  intros [= <- <- <- <-]; destruct (Hs _ _ _ _ _ _ (HQ D) E2) as (HI' & He' & HR); split; [done|]; split; [|done].
  by apply Forall_app.
Qed.

(** A handler that leaves the frame alone. *)
Lemma triple_keeps P h :
  (forall w rx r w' rx' e, h w rx = Some (r, w', rx', e) -> P w rx -> rx' = rx /\ P w' rx /\ I w' /\ Forall E e) -> triple P h P.
Proof. intros Hk w rx r w' rx' e HP Eh; destruct (Hk _ _ _ _ _ _ Eh HP) as (-> & ? & ? & ?); done. Qed.
End Triples.

(** What the power save handlers do not touch. *)
Definition same_core (w w' : world) : Prop :=
  keys w' = keys w /\ sta w' = sta w /\ frags w' = frags w /\ frag_status w' = frag_status w.

Definition no_delivery (e : event) : Prop := match e with Deliver _ _ _ => False | _ => True end.

Lemma same_core_trans a b c : same_core a b -> same_core b c -> same_core a c.
Proof. unfold same_core; intuition congruence. Qed.

Lemma check_more_data_core w rx r w' rx' e : ieee80211_rx_h_check_more_data w rx = Some (r, w', rx', e) ->
  rx' = rx /\ same_core w w' /\ Forall no_delivery e.
Proof.
  unfold ieee80211_rx_h_check_more_data; repeat case_match; intros [= <- <- <- <-]; repeat split; repeat constructor.
Qed.

Section Core.
Context (lo : local) (sd : sub_if_data) (ev : rx_env).

Lemma uapsd_core w rx r w' rx' e : ieee80211_rx_h_uapsd_and_pspoll lo sd w rx = Some (r, w', rx', e) ->
  rx' = rx /\ same_core w w' /\ Forall no_delivery e.
Proof.
  unfold ieee80211_rx_h_uapsd_and_pspoll.
  repeat (case_match || (destruct (ieee802_1d_to_ac !! _); cbn [mbind option_bind])); intros Eq; simplify_eq;
    repeat split; repeat constructor.
Qed.

Lemma ps_transition_core w rx : same_core w (ps_transition lo sd w rx).1 /\ Forall no_delivery (ps_transition lo sd w rx).2.
Proof.
  unfold ps_transition, sta_ps_end, ieee80211_sta_ps_deliver_wakeup, sta_ps_start.
  repeat case_match; simplify_eq; repeat split; repeat constructor.
Qed.

Lemma report_4addr_core w : same_core w (report_4addr w).1 /\ Forall no_delivery (report_4addr w).2.
Proof. unfold report_4addr; case_match; repeat split; repeat constructor. Qed.

Lemma sta_process_core w rx r w' rx' e : ieee80211_rx_h_sta_process lo sd ev w rx = Some (r, w', rx', e) ->
  rx' = rx /\ same_core w w' /\ Forall no_delivery e.
Proof.
  unfold ieee80211_rx_h_sta_process; destruct (sta w) as [s|]; [|intros [= <- <- <- <-]; repeat split; constructor].
  destruct (update_last_rx sd ev w s rx) as [t|]; cbn [mbind option_bind]; [|done].
  destruct (negb (ra_match (stat rx))); [intros [= <- <- <- <-]; repeat split; constructor|].
  set (w1 := set_stats _ (Stats _ _ _ _)); pose proof (ps_transition_core w1 rx) as [Hc He].
  destruct (ps_transition lo sd w1 rx) as [w2 e2]; cbn [fst snd] in *.
  assert (H12 : same_core w w2) by (eapply same_core_trans; [|exact Hc]; repeat split).
  assert (Hn : Forall no_delivery ((if bool_decide (vif_type sd = NL80211_IFTYPE_STATION) then [RxNotify] else []) ++ e2))
    by (apply Forall_app; split; [case_match; repeat constructor|done]); revert Hn.
  set (e0 := _ ++ e2); clearbody e0; intros Hn; destruct (_ || _); [|intros [= <- <- <- <-]; done].
  destruct (_ && _); [|intros [= <- <- <- <-]; done].
  pose proof (report_4addr_core w2) as [Hc' He']; destruct (report_4addr w2) as [w3 e3]; intros [= <- <- <- <-].
  split; [done|]; split; [by eapply same_core_trans|by apply Forall_app].
Qed.
End Core.

(** ** Lemmas: where the content of a frame comes from *)

Section Origin.
Context `{StreamCipher}.
Context (crc32_le : Z -> list Z -> Z).
Context (lo : local) (sd : sub_if_data) (p : nat).

(** The handlers over a sequence of frames. *)
Fixpoint rx_run (w : world) (fs : list (rx_env * rx_data)) : option (world * list event) :=
  match fs with
  | [] => Some (w, [])
  | (ev, f) :: fs =>
      '(_, w, _, e) ← ieee80211_rx_handlers crc32_le lo sd ev w f;
      '(w, e') ← rx_run w fs;
      Some (w, e ++ e')
  end.

(** A unicast frame, header complete, from the station to us. *)
Definition to_us (f : rx_data) : Prop :=
  is_multicast_ether_addr (skb f) = false /\ ra_match (stat f) = true /\ (24 <= length (skb f))%nat.

Definition has_ptk (s : option sta_info) : Prop := (x ← s; ptk x) = Some p.

(** A frame of the sequence that decryption left as [d] and marked. *)
Definition opened (w0 : world) (fs : list (rx_env * rx_data)) (d : list Z) : Prop :=
  exists pre ev f post w e w' rx', fs = pre ++ (ev, f) :: post /\ rx_run w0 pre = Some (w, e) /\
    rx_h_decrypt crc32_le sd ev w f = Some (RX_CONTINUE, w', rx', []) /\ skb rx' = d /\ decrypted (stat rx') = true.

Definition clean (w0 : world) (fs : list (rx_env * rx_data)) (d : list Z) (st : rx_status) : Prop :=
  decrypted st = true /\ opened w0 fs d \/
  decrypted st = false /\ ieee80211_has_protected (frame_control d) = false /\ (2 <= length d)%nat.

Lemma clean_snoc w0 fs x d st : clean w0 fs d st -> clean w0 (fs ++ [x]) d st.
Proof.
  intros [[Hd (pre & ev & f & post & w & e & w' & rx' & -> & Hr)]|Hc]; [left|by right].
  split; [done|]; exists pre, ev, f, (post ++ [x]), w, e, w', rx'; by rewrite <- app_assoc.
Qed.

(** The pairwise key stays, and what is pending begins with clean frames. *)
Definition world_ok (w0 : world) (fs : list (rx_env * rx_data)) (w : world) : Prop :=
  has_ptk (sta w) /\
  forall j d st, head_of (frags w) j = Some d -> frag_status w !! j = Some st -> clean w0 fs d st.

Lemma world_ok_keys w0 fs w w' : sta w' = sta w -> frags w' = frags w -> frag_status w' = frag_status w ->
  world_ok w0 fs w -> world_ok w0 fs w'.
Proof. intros Hs Hf Ht [Hp Hc]; split; [by rewrite Hs|]; rewrite Hf, Ht; apply Hc. Qed.

Lemma world_ok_core w0 fs w w' : same_core w w' -> world_ok w0 fs w -> world_ok w0 fs w'.
Proof. intros (_ & Hs & Hf & Ht); by apply world_ok_keys. Qed.

(** What decryption does to a unicast frame when there is a pairwise key. *)
Lemma decrypt_unicast ev ks s rx r ks' s' rx' : to_us rx -> has_ptk s ->
  ieee80211_rx_h_decrypt crc32_le ev sd ks s rx = Some (r, ks', s', rx') ->
  has_ptk s' /\ (r = RX_CONTINUE -> key rx' = Some p /\
    (decrypted (stat rx') = true \/
     decrypted (stat rx') = false /\ skb rx' = skb rx /\ ieee80211_has_protected (frame_control (skb rx)) = false)).
Proof.
  intros (Hu & Hra & _) Hp; unfold ieee80211_rx_h_decrypt, select_key; rewrite Hra, Hu; cbn [negb andb].
  unfold has_ptk in *; rewrite Hp; rewrite bool_decide_true by done; cbn [andb].
  destruct (decrypted (stat rx) && iv_stripped (stat rx)) eqn:Ed; cbn [mbind option_bind].
  { intros [= <- <- <- <-]; split; [done|]; intros _; split; [done|]; left; by apply andb_prop in Ed as [? _]. }
  destruct (ieee80211_has_protected _) eqn:Epr; cbn [negb mbind option_bind].
  2: { intros [= <- <- <- <-]; split; [done|]; intros _; split; [done|]; cbn; destruct (decrypted (stat rx)); auto. }
  destruct (ks !! p) as [k|]; cbn [mbind option_bind]; [|done]; destruct (tainted k); [by intros [= <- <- <- <-]|].
  destruct (run_cipher _ _ _ _ _) as [[o|]|]; cbn [mbind option_bind]; [| by intros [= <- <- <- <-] | done].
  intros [= <- <- <- <-]; split; [destruct s; done|]; intros _; split; [done|]; by left.
Qed.

(** The frame as each stage leaves it. *)
Definition after_decrypt w0 fs (w : world) (rx : rx_data) : Prop :=
  world_ok w0 fs w /\ key rx <> None /\ clean w0 fs (skb rx) (stat rx).
Definition after_defrag w0 fs (w : world) (rx : rx_data) : Prop :=
  world_ok w0 fs w /\ key rx <> None /\ exists d rest, skb rx = d ++ rest /\ clean w0 fs d (stat rx).
Definition after_mic w0 fs (w : world) (rx : rx_data) : Prop :=
  world_ok w0 fs w /\ key rx <> None /\
  exists d rest, skb rx `prefix_of` d ++ rest /\ clean w0 fs d (stat rx) /\
    (decrypted (stat rx) = false -> ieee80211_has_protected (fc rx) = false).

(** A delivered frame is a port control frame, or its first fragment was opened. *)
Definition event_ok w0 fs (e : event) : Prop :=
  match e with
  | Deliver _ buf eth => port_control_frame sd eth = true \/ exists d rest, buf `prefix_of` d ++ rest /\ opened w0 fs d
  | _ => True
  end.

Lemma no_delivery_ok w0 fs e : Forall no_delivery e -> Forall (event_ok w0 fs) e.
Proof. intros H1; eapply list.Forall_impl; [exact H1|]; by intros []. Qed.

Abbreviation tri w0 fs := (triple (world_ok w0 fs) (event_ok w0 fs)).

Lemma core_triple w0 fs h :
  (forall w rx r w' rx' e, h w rx = Some (r, w', rx', e) -> rx' = rx /\ same_core w w' /\ Forall no_delivery e) ->
  tri w0 fs (after_decrypt w0 fs) h (after_decrypt w0 fs).
Proof.
  intros Hh; apply triple_keeps; intros w rx r w' rx' e Eh (Hw & Hk & Hc); destruct (Hh _ _ _ _ _ _ Eh) as (-> & Hs & He).
  pose proof (world_ok_core _ _ _ _ Hs Hw); split; [done|]; split; [done|]; split; [done|]; by apply no_delivery_ok.
Qed.

Lemma defrag_triple w0 fs ev : tri w0 fs (after_decrypt w0 fs) (ieee80211_rx_h_defragment lo ev) (after_defrag w0 fs).
Proof.
  intros w rx r w' rx' e ([Hp Hw] & Hk & Hc); unfold ieee80211_rx_h_defragment.
  destruct (rx_key w rx) as [k|]; cbn [mbind option_bind]; [|done].
  destruct (Defrag.ieee80211_rx_h_defragment _ _ _ _) as [[c o]|] eqn:Ed; cbn [mbind option_bind]; [|done].
  destruct (defrag_heads _ _ _ _ _ _ Ed) as [Hh Ho]; cbn [Defrag.rx_skb defrag_rx] in Hh, Ho.
  assert (Hkeep : is_first o (skb rx) = false -> world_ok w0 fs (set_frags w c (frag_status w))).
  { intros Hf; split; [done|]; intros j d st Hj; apply Hw; specialize (Hh j d Hj); by rewrite Hf in Hh. }
  destruct o as [d eff|r1 d|].
  - specialize (Hkeep eq_refl); specialize (Ho d eff eq_refl).
    assert (Hw' : forall st, rx' = set_rx rx d st -> (exists h rest, d = h ++ rest /\ clean w0 fs h st) ->
      forall b : bool, world_ok w0 fs (if b then count_packet (set_frags w c (frag_status w)) else set_frags w c (frag_status w)) /\
      Forall (event_ok w0 fs) [] /\
      (RX_CONTINUE = RX_CONTINUE -> after_defrag w0 fs (if b then count_packet (set_frags w c (frag_status w)) else set_frags w c (frag_status w)) rx')).
    { intros st -> (h & rest & Ed' & Hcl) b.
      assert (Hb : world_ok w0 fs (if b then count_packet (set_frags w c (frag_status w)) else set_frags w c (frag_status w)))
        by (destruct b; [apply (world_ok_core w0 fs (set_frags w c (frag_status w))); [repeat split|done] | done]).
      split; [done|]; split; [constructor|]; intros _; split; [done|]; split; [done|]; by exists h, rest. }
    destruct (Defrag.fragmented eff); cbn [mbind option_bind].
    + destruct Ho as (c1 & i & h & rest & Hf & Hhd & Hd); unfold head_status; cbn [Defrag.jiffies defrag_env Defrag.seqno_idx defrag_rx] in Hf; rewrite Hf.
      cbn [mbind option_bind]; destruct (frag_status w !! i) as [st|] eqn:Hst; cbn [fmap option_fmap option_map mbind option_bind]; [|done].
      intros [= <- <- <- <-]; apply (Hw' (set_fragmented st)); [done|]; exists h, rest; split; [done|]; exact (Hw i h st Hhd Hst).
    + intros [= <- <- <- <-]; apply (Hw' (stat rx)); [done|]; exists d, []; split; [by rewrite app_nil_r|]; rewrite Ho; exact Hc.
  - intros [= <- <- <- <-]; split; [by apply Hkeep|]; split; [constructor|].
    intros ->; exfalso; by eapply (defrag_drops _ _ _ _ _ _ _ Ed).
  - intros [= <- <- <- <-]; split; [|split; [constructor|done]]; cbn [is_first] in *.
    destruct (frag_number (skb rx) =? 0) eqn:Ef; [|by apply Hkeep].
    split; [done|]; intros j d st Hj Hs; cbn [frags frag_status set_frags] in *; specialize (Hh j d Hj); cbn [andb] in Hh.
    destruct (Nat.eqb_spec j (Defrag.fragment_next (frags w))) as [->|Hne].
    + subst d; apply list_lookup_insert_Some in Hs as [(_ & <- & _)|[Hne _]]; [exact Hc|done].
    + rewrite list_lookup_insert_ne in Hs by done; by eapply Hw.
Qed.

Lemma michael_frame k f q iv d r k' d' i : Tkip.ieee80211_rx_h_michael_mic_verify k f q iv d = (r, k', d', i) ->
  d' = d \/ d' = take (length d - 8) d /\ (18 <= length d)%nat.
Proof.
  unfold Tkip.ieee80211_rx_h_michael_mic_verify.
  destruct (negb (ieee80211_is_data_present _)); [by intros [= <- <- <- <-]; left|].
  destruct (_ || _); [repeat case_match; intros [= <- <- <- <-]; by left|].
  destruct k as [[k []]|]; [|intros [= <- <- <- <-]; by left..].
  destruct (negb _); [intros [= <- <- <- <-]; by left|]; destruct (_ && _); [intros [= <- <- <- <-]; by left|].
  destruct (Tkip.mmic_error f); [intros [= <- <- <- <-]; by left|].
  case_bool_decide as D; [intros [= <- <- <- <-]; by left|]; destruct (negb _); [intros [= <- <- <- <-]; by left|].
  destruct (memcmp _ _); intros [= <- <- <- <-]; [|by left..]; right; split; [done|].
  pose proof (hdrlen_bounds (frame_control d)); unfold Tkip.MICHAEL_MIC_LEN in D; lia.
Qed.

Lemma data_present_not_null c : ieee80211_is_data_present c = true -> ieee80211_is_nullfunc c = false.
Proof.
  unfold ieee80211_is_data_present, ieee80211_is_nullfunc; rewrite Z.eqb_eq, Z.eqb_neq; intros Hp Hn.
  set (m := Z.lor IEEE80211_FCTL_FTYPE 0x40) in Hp; set (n := Z.lor IEEE80211_FCTL_FTYPE IEEE80211_FCTL_STYPE) in Hn.
  assert (E : Z.land (Z.land c n) m = Z.land c m) by (rewrite <- Z.land_assoc; f_equal; reflexivity).
  rewrite Hp, Hn in E; discriminate E.
Qed.

Lemma frame_control_take n d : (2 <= n)%nat -> frame_control (take n d) = frame_control d.
Proof. intros Hn; unfold frame_control, get_le16; by rewrite !byte_at_take by lia. Qed.

Lemma mic_triple w0 fs ev : tri w0 fs (after_defrag w0 fs) (ieee80211_rx_h_michael_mic_verify sd ev) (after_mic w0 fs).
Proof.
  intros w rx r w' rx' e (Hw & Hk & d & rest & Hd & Hc); unfold ieee80211_rx_h_michael_mic_verify.
  destruct (rx_key w rx) as [k|]; cbn [mbind option_bind]; [|done].
  destruct (Tkip.ieee80211_rx_h_michael_mic_verify _ _ _ _ _) as [[[r1 k1] d1] i1] eqn:Em; intros [= <- <- <- <-].
  assert (Hw' : world_ok w0 fs (store_mic_key w rx k1)).
  { apply (world_ok_keys w0 fs w); unfold store_mic_key; repeat case_match; done. }
  split; [done|]; split; [destruct i1; repeat constructor|]; intros _; split; [done|]; split; [done|].
  exists d, rest; cbn [skb set_rx stat].
  assert (Hpre : d1 `prefix_of` d ++ rest /\ frame_control d1 = frame_control (skb rx)).
  { destruct (michael_frame _ _ _ _ _ _ _ _ _ Em) as [->|[-> Hl]]; rewrite <- Hd; [done|].
    split; [exists (drop (length (skb rx) - 8) (skb rx)); by rewrite take_drop|]; apply frame_control_take; lia. }
  destruct Hpre as [Hpre Hfc]; split; [done|]; split; [done|]; intros Hdec; unfold fc; cbn [skb set_rx]; rewrite Hfc, Hd.
  destruct Hc as [[Ht _]|(_ & Hpr & Hl)]; [congruence|]; by rewrite frame_control_header.
Qed.

(** A frame that is allowed is a port control frame or was decrypted. *)
Lemma allowed_ok w0 fs w rx eth (to_air : bool) : after_mic w0 fs w rx ->
  ieee80211_is_data (fc rx) = true -> ieee80211_is_data_present (fc rx) = true ->
  ieee80211_frame_allowed sd w rx (fc rx) eth = true -> event_ok w0 fs (Deliver to_air (skb rx) eth).
Proof.
  intros (_ & Hk & d & rest & Hpre & Hc & Hpr) Hd Hp; unfold ieee80211_frame_allowed; cbn [event_ok].
  destruct (port_control_frame sd eth); [by left|]; unfold ieee80211_drop_unencrypted.
  destruct (decrypted (stat rx)) eqn:Edec.
  - intros _; right; exists d, rest; split; [done|]; destruct Hc as [[_ Ho]|(Hf & _)]; [done|congruence].
  - rewrite (Hpr eq_refl), Hd, (data_present_not_null _ Hp), (bool_decide_true (key rx <> None)) by done; cbn [negb andb orb].
    by destruct (_ =? 0).
Qed.

Lemma deliver_ok w0 fs w rx eth sdata ev : after_mic w0 fs w rx ->
  ieee80211_is_data (fc rx) = true -> ieee80211_is_data_present (fc rx) = true ->
  ieee80211_frame_allowed sd w rx (fc rx) eth = true -> Forall (event_ok w0 fs) (ieee80211_deliver_skb lo ev sdata rx (skb rx) eth).
Proof.
  intros Ha Hd Hp Hal; pose proof (fun b => allowed_ok w0 fs w rx eth b Ha Hd Hp Hal) as Hok.
  unfold ieee80211_deliver_skb; repeat case_match; repeat (apply Forall_nil_2 || (apply Forall_cons_2; [apply Hok|])).
Qed.

Lemma amsdu_triple w0 fs ev : tri w0 fs (after_mic w0 fs) (ieee80211_rx_h_amsdu lo sd ev) (after_mic w0 fs).
Proof.
  intros w rx r w' rx' e Ha; pose proof Ha as (Hw & _); unfold ieee80211_rx_h_amsdu.
  destruct (ieee80211_is_data (fc rx)) eqn:Ed; cbn [negb]; [|by intros [= <- <- <- <-]].
  destruct (ieee80211_is_data_present (fc rx)) eqn:Ep; cbn [negb]; [|by intros [= <- <- <- <-]].
  destruct (negb _); [by intros [= <- <- <- <-]|]; destruct (_ && _); [by intros [= <- <- <- <-]|].
  destruct (_ && _); [by intros [= <- <- <- <-]|]; destruct (negb _); [by intros [= <- <- <- <-]|].
  destruct (Ethernet.ieee80211_amsdu_to_8023s _ _ _ _ _) as [[[]|frames]|]; cbn [mbind option_bind]; [done| |done].
  intros [= <- <- <- <-]; split; [done|]; split; [|done]; apply Forall_flat_map, list.Forall_forall; intros eth _.
  destruct (ieee80211_frame_allowed sd w rx (fc rx) eth) eqn:Eal; [by eapply deliver_ok|constructor].
Qed.

Lemma data_triple w0 fs ev : tri w0 fs (after_mic w0 fs) (ieee80211_rx_h_data lo sd ev) (after_mic w0 fs).
Proof.
  intros w rx r w' rx' e Ha; pose proof Ha as (Hw & _); unfold ieee80211_rx_h_data.
  destruct (ieee80211_is_data (fc rx)) eqn:Ed; cbn [negb]; [|by intros [= <- <- <- <-]].
  destruct (ieee80211_is_data_present (fc rx)) eqn:Ep; cbn [negb]; [|by intros [= <- <- <- <-]].
  destruct (_ && _).
  { case_bool_decide; [|by intros [= <- <- <- <-]]; pose proof (report_4addr_core w) as [Hs He].
    destruct (report_4addr w) as [w1 e1]; intros [= <- <- <- <-]; split; [by eapply world_ok_core|]; split; [|done].
    by apply no_delivery_ok. }
  destruct (__ieee80211_data_to_8023 sd ev rx) as [[z|[eth pc]]|]; cbn [mbind option_bind]; [by intros [= <- <- <- <-]| |done].
  destruct (ieee80211_frame_allowed sd w rx (fc rx) eth) eqn:Eal; cbn [negb]; [|by intros [= <- <- <- <-]].
  intros [= <- <- <- <-]; split; [done|]; split; [|done]; by eapply deliver_ok.
Qed.

Lemma opened_app w0 fs post d : opened w0 fs d -> opened w0 (fs ++ post) d.
Proof.
  intros (pre & ev & f & post' & w & e & w' & rx' & -> & Hr); exists pre, ev, f, (post' ++ post), w, e, w', rx'.
  by rewrite <- app_assoc.
Qed.

Lemma event_ok_app w0 fs post e : event_ok w0 fs e -> event_ok w0 (fs ++ post) e.
Proof. destruct e; try done; intros [Hc|(d & rest & Hb & Ho)]; [by left|right]; exists d, rest; split; [done|by apply opened_app]. Qed.

Lemma rx_run_app w fs gs : rx_run w (fs ++ gs) = '(w, e) ← rx_run w fs; '(w, e') ← rx_run w gs; Some (w, e ++ e').
Proof.
  revert w; induction fs as [|[ev f] fs IH]; intros w; cbn [app rx_run mbind option_bind]; [by destruct (rx_run w gs) as [[]|]|].
  destruct (ieee80211_rx_handlers crc32_le lo sd ev w f) as [[[[r w1] rx1] e1]|]; cbn [mbind option_bind]; [|done].
  rewrite IH; destruct (rx_run w1 fs) as [[w2 e2]|]; cbn [mbind option_bind]; [|done].
  destruct (rx_run w2 gs) as [[w3 e3]|]; cbn [mbind option_bind]; [by rewrite app_assoc|done].
Qed.

(** One frame through all handlers. *)
Lemma frame_ok_step w0 fs w e ev f r w' rx' e' : rx_run w0 fs = Some (w, e) -> world_ok w0 fs w -> to_us f ->
  ieee80211_rx_handlers crc32_le lo sd ev w f = Some (r, w', rx', e') ->
  world_ok w0 (fs ++ [(ev, f)]) w' /\ Forall (event_ok w0 (fs ++ [(ev, f)])) e'.
Proof.
  intros Hrun [Hp Hw] Hf; set (fs' := fs ++ [(ev, f)]).
  assert (Hdec : tri w0 fs' (fun w1 rx => w1 = w /\ rx = f) (rx_h_decrypt crc32_le sd ev) (after_decrypt w0 fs')).
  { intros w1 rx r1 w2 rx2 e2 [-> ->]; unfold rx_h_decrypt.
    destruct (ieee80211_rx_h_decrypt _ _ _ _ _ _) as [[[[r3 ks] s] rx3]|] eqn:Eq; cbn [mbind option_bind]; [|done].
    intros [= <- <- <- <-]; destruct (decrypt_unicast _ _ _ _ _ _ _ _ Hf Hp Eq) as [Hp' Hc].
    assert (Hok : world_ok w0 fs' (set_crypt w ks s)) by (split; [done|]; intros j d st Hj Hs; apply clean_snoc; by eapply Hw).
    split; [done|]; split; [constructor|]; intros ->; destruct (Hc eq_refl) as [Hk Hcl].
    split; [done|]; split; [by rewrite Hk|]; destruct Hcl as [Hd|(Hd & Es & Hpr)]; [left|right].
    - split; [done|]; exists fs, ev, f, [], w, e, (set_crypt w ks s), rx3; split_and!; try done.
      unfold rx_h_decrypt; by rewrite Eq.
    - rewrite Es; split_and!; try done; destruct Hf as (_ & _ & Hl); lia. }
  assert (Hall : tri w0 fs' (fun w1 rx => w1 = w /\ rx = f) (ieee80211_rx_handlers crc32_le lo sd ev) (after_mic w0 fs')).
  { unfold ieee80211_rx_handlers.
    eapply call_rxh_cons; [exact Hdec|]; eapply call_rxh_cons; [apply core_triple, check_more_data_core|].
    eapply call_rxh_cons; [apply core_triple, uapsd_core|]; eapply call_rxh_cons; [apply core_triple, sta_process_core|].
    eapply call_rxh_cons; [apply defrag_triple|]; eapply call_rxh_cons; [apply mic_triple|].
    eapply call_rxh_cons; [apply amsdu_triple|]; eapply call_rxh_cons; [apply data_triple|].
    apply call_rxh_nil; by intros ? ? []. }
  intros Eq; destruct (Hall _ _ _ _ _ _ (conj eq_refl eq_refl) Eq) as (Hi & He & _); done.
Qed.

(** And a sequence of them, behind the frames [fs0]. *)
Lemma frames_ok w0 fs0 w e0 fs w' e : rx_run w0 fs0 = Some (w, e0) -> world_ok w0 fs0 w -> Forall (fun x => to_us x.2) fs ->
  rx_run w fs = Some (w', e) -> world_ok w0 (fs0 ++ fs) w' /\ Forall (event_ok w0 (fs0 ++ fs)) e.
Proof.
  revert fs0 w e0 e; induction fs as [|[ev f] fs IH]; intros fs0 w e0 e Hr0 Hw Hf.
  { intros [= <- <-]; rewrite app_nil_r; split; [done|constructor]. }
  apply list.Forall_cons in Hf as [Hf Hfs]; cbn [rx_run].
  destruct (ieee80211_rx_handlers crc32_le lo sd ev w f) as [[[[r w1] rx1] e1]|] eqn:E1; cbn [mbind option_bind]; [|done].
  destruct (rx_run w1 fs) as [[w2 e2]|] eqn:E2; cbn [mbind option_bind]; [|done]; intros [= <- <-].
  destruct (frame_ok_step w0 fs0 w e0 ev f r w1 rx1 e1 Hr0 Hw Hf E1) as [Hw1 He1].
  assert (Hr1 : rx_run w0 (fs0 ++ [(ev, f)]) = Some (w1, e0 ++ e1)).
  { rewrite (rx_run_app w0 fs0 [(ev, f)]), Hr0; cbn [mbind option_bind rx_run]; rewrite E1; cbn [mbind option_bind]; by rewrite app_nil_r. }
  destruct (IH _ _ _ _ Hr1 Hw1 Hfs E2) as [Hw2 He2]; rewrite <- app_assoc in Hw2, He2; split; [done|].
  apply Forall_app; split; [|done]; eapply list.Forall_impl; [exact He1|]; intros x Hx; change ((ev, f) :: fs) with ([(ev, f)] ++ fs).
  rewrite app_assoc; by apply event_ok_app.
Qed.

End Origin.

(** ** Lemmas: management frames pass between decryption and their check *)




Lemma call_rxh_app hs hs' w rx : call_rxh (hs ++ hs') w rx =
  '(r, w, rx, e) ← call_rxh hs w rx;
  if bool_decide (r = RX_CONTINUE) then '(r, w, rx, e') ← call_rxh hs' w rx; Some (r, w, rx, e ++ e') else Some (r, w, rx, e).
Proof.
  revert w rx; induction hs as [|h hs IH]; intros w rx; cbn [app call_rxh mbind option_bind].
  - rewrite bool_decide_true by done; destruct (call_rxh hs' w rx) as [[[[? ?] ?] ?]|]; done.
  - destruct (h w rx) as [[[[r w1] rx1] e1]|]; cbn [mbind option_bind]; [|done]; case_bool_decide as D;
      cbn [mbind option_bind]; [rewrite IH|by rewrite bool_decide_false].
    destruct (call_rxh hs w1 rx1) as [[[[r2 w2] rx2] e2]|]; cbn [mbind option_bind]; [|done].
    case_bool_decide; cbn [mbind option_bind]; [|done].
    destruct (call_rxh hs' w2 rx2) as [[[[r3 w3] rx3] e3]|]; cbn [mbind option_bind]; [|done].
    by rewrite app_assoc.
Qed.

Section Mgmt.
Context `{StreamCipher}.
Context (crc32_le : Z -> list Z -> Z).
Context (lo : local) (sd : sub_if_data) (ev : rx_env).








End Mgmt.





(** ** Lemmas: sleeping stations *)

(** [n] other stations of the access point sleep. *)
Definition counted (n : Z) (w : world) : Prop := num_sta_ps w = s32 (n + if ps_sta (power w) then 1 else 0).

Definition same_sleep (w w' : world) : Prop := num_sta_ps w' = num_sta_ps w /\ ps_sta (power w') = ps_sta (power w).

Lemma counted_same n w w' : same_sleep w w' -> counted n w -> counted n w'.
Proof. unfold counted; by intros [-> ->]. Qed.

Section Sleep.
Context (lo : local) (sd : sub_if_data) (ev : rx_env) (n : Z).

Lemma ps_start_counted w : ps_sta (power w) = false -> counted n w -> counted n (sta_ps_start lo sd w).1.
Proof.
  unfold counted, sta_ps_start; intros Hp Hc; destruct (negb (is_ap sd)); [done|].
  cbn [fst num_sta_ps power set_power ps_sta]; rewrite Hc, Hp, s32_add; f_equal; lia.
Qed.

Lemma ps_end_counted w : counted n w -> counted n (sta_ps_end lo sd w).1.
Proof.
  unfold counted, sta_ps_end, ieee80211_sta_ps_deliver_wakeup; intros Hc; destruct (ps_driver (power w)); [done|].
  destruct (negb (is_ap sd)); [done|]; cbn [fst num_sta_ps power set_power ps_sta].
  rewrite Hc; destruct (ps_sta (power w)); [|done].
  replace (s32 (n + 1) - 1) with (s32 (n + 1) + -1) by lia; rewrite s32_add; f_equal; lia.
Qed.

Lemma transition_counted w start : counted n w -> counted n (ieee80211_sta_ps_transition lo sd w start).1.2.
Proof.
  intros Hc; unfold ieee80211_sta_ps_transition; destruct (_ || _) eqn:E; [done|].
  destruct start; [|pose proof (ps_end_counted w Hc); by destruct (sta_ps_end lo sd w)].
  assert (Hp : ps_sta (power w) = false) by (destruct (ps_sta (power w)); [discriminate E|done]).
  pose proof (ps_start_counted w Hp Hc); by destruct (sta_ps_start lo sd w).
Qed.

(** Every handler keeps the count. *)
Definition keeps_count (h : handler) : Prop := forall w rx r w' rx' e, h w rx = Some (r, w', rx', e) -> counted n w -> counted n w'.

Lemma call_rxh_count hs : Forall keeps_count hs -> keeps_count (call_rxh hs).
Proof.
  intros Hh; induction Hh as [|h hs Hk Hh IH]; intros w rx r w' rx' e; cbn [call_rxh]; [by intros [= <- <- <- <-]|].
  destruct (h w rx) as [[[[r1 w1] rx1] e1]|] eqn:E1; cbn [mbind option_bind]; [|done].
  case_bool_decide; [|intros [= <- <- <- <-]; by eapply Hk].
  destruct (call_rxh hs w1 rx1) as [[[[r2 w2] rx2] e2]|] eqn:E2; cbn [mbind option_bind]; [|done].
  intros [= <- <- <- <-] Hc; eapply IH; [exact E2|]; by eapply Hk.
Qed.

Lemma same_keeps h : (forall w rx r w' rx' e, h w rx = Some (r, w', rx', e) -> same_sleep w w') -> keeps_count h.
Proof. intros Hs w rx r w' rx' e Eh; eapply counted_same; by eapply Hs. Qed.

Lemma check_more_data_count : keeps_count ieee80211_rx_h_check_more_data.
Proof. apply same_keeps; intros *; unfold ieee80211_rx_h_check_more_data; repeat case_match; by intros [= <- <- <- <-]. Qed.

Lemma uapsd_count : keeps_count (ieee80211_rx_h_uapsd_and_pspoll lo sd).
Proof.
  apply same_keeps; intros *; unfold ieee80211_rx_h_uapsd_and_pspoll.
  repeat (case_match || (destruct (ieee802_1d_to_ac !! _); cbn [mbind option_bind])); intros Eq; by simplify_eq.
Qed.

Lemma report_4addr_sleep w : same_sleep w (report_4addr w).1.
Proof. unfold report_4addr; by case_match. Qed.

Lemma ps_transition_count w rx : counted n w -> counted n (ps_transition lo sd w rx).1.
Proof.
  intros Hc; unfold ps_transition; destruct (_ && _); [|done]; destruct (ps_sta (power w)) eqn:Ep.
  - destruct (_ && _); [by apply ps_end_counted|done].
  - destruct (ieee80211_has_pm _); [by apply ps_start_counted|done].
Qed.

Lemma sta_process_count : keeps_count (ieee80211_rx_h_sta_process lo sd ev).
Proof.
  intros w rx r w' rx' e; unfold ieee80211_rx_h_sta_process; destruct (sta w) as [s|]; [|by intros [= <- <- <- <-]].
  destruct (update_last_rx sd ev w s rx) as [t|]; cbn [mbind option_bind]; [|done].
  destruct (negb (ra_match (stat rx))); [by intros [= <- <- <- <-]|].
  set (w1 := set_stats _ (Stats _ _ _ _)); intros Eh Hc.
  pose proof (ps_transition_count w1 rx Hc) as H2; destruct (ps_transition lo sd w1 rx) as [w2 e2]; cbn [fst] in H2.
  revert Eh; destruct (_ || _); [|by intros [= <- <- <- <-]]; destruct (_ && _); [|by intros [= <- <- <- <-]].
  pose proof (report_4addr_sleep w2) as Hr; destruct (report_4addr w2) as [w3 e3]; intros [= <- <- <- <-].
  by eapply counted_same.
Qed.

Lemma defrag_count : keeps_count (ieee80211_rx_h_defragment lo ev).
Proof.
  apply same_keeps; intros *; unfold ieee80211_rx_h_defragment; destruct (rx_key w rx); cbn [mbind option_bind]; [|done].
  destruct (Defrag.ieee80211_rx_h_defragment _ _ _ _) as [[c [d eff| |]]|]; cbn [mbind option_bind]; [|by intros [= <- <- <- <-]..|done].
  destruct (if Defrag.fragmented eff then _ else _); cbn [mbind option_bind]; [|done].
  intros [= <- <- <- <-]; by destruct (_ && _).
Qed.

Lemma mic_count : keeps_count (ieee80211_rx_h_michael_mic_verify sd ev).
Proof.
  apply same_keeps; intros *; unfold ieee80211_rx_h_michael_mic_verify; destruct (rx_key w rx); cbn [mbind option_bind]; [|done].
  destruct (Tkip.ieee80211_rx_h_michael_mic_verify _ _ _ _ _) as [[[? ?] ?] ?]; intros [= <- <- <- <-].
  unfold store_mic_key; repeat case_match; done.
Qed.

Lemma amsdu_count : keeps_count (ieee80211_rx_h_amsdu lo sd ev).
Proof.
  apply same_keeps; intros *; unfold ieee80211_rx_h_amsdu; repeat (case_match; try by intros [= <- <- <- <-]).
  destruct (Ethernet.ieee80211_amsdu_to_8023s _ _ _ _ _) as [[|]|]; cbn [mbind option_bind]; [done|by intros [= <- <- <- <-]|done].
Qed.

Lemma data_count : keeps_count (ieee80211_rx_h_data lo sd ev).
Proof.
  apply same_keeps; intros *; unfold ieee80211_rx_h_data.
  destruct (negb _); [by intros [= <- <- <- <-]|]; destruct (negb _); [by intros [= <- <- <- <-]|]; destruct (_ && _).
  { case_bool_decide; [|by intros [= <- <- <- <-]]; pose proof (report_4addr_sleep w); destruct (report_4addr w).
    by intros [= <- <- <- <-]. }
  destruct (__ieee80211_data_to_8023 sd ev rx) as [[|[]]|]; cbn [mbind option_bind]; [by intros [= <- <- <- <-]| |done].
  case_match; by intros [= <- <- <- <-].
Qed.
End Sleep.

Lemma handlers_count `{StreamCipher} crc32_le lo sd ev n : keeps_count n (ieee80211_rx_handlers crc32_le lo sd ev).
Proof.
  apply call_rxh_count; repeat (apply Forall_nil_2 || apply Forall_cons_2);
    [| apply check_more_data_count | apply uapsd_count | apply sta_process_count | apply defrag_count | apply mic_count
     | apply amsdu_count | apply data_count].
  apply same_keeps; intros *; unfold rx_h_decrypt.
  destruct (ieee80211_rx_h_decrypt _ _ _ _ _ _) as [[[[? ?] ?] ?]|]; cbn [mbind option_bind]; [by intros [= <- <- <- <-]|done].
Qed.

(** ** Lemmas: protected management frames *)

Section Mfp.
Context `{StreamCipher}.
Context (crc32_le : Z -> list Z -> Z).
Context (sd : sub_if_data) (ks : list ieee80211_key) (s : sta_info).






End Mfp.


(** ** Properties *)

Section Properties.
Context `{StreamCipher}.
Context (crc32_le : Z -> list Z -> Z).

(** C2: for a station with a pairwise key, over every sequence of unicast frames
    through all handlers, starting without pending fragments: whatever is
    delivered, to the network stack or back to the air, is a frame for the
    control port, or it was made of a frame that begins with what decryption
    left of a frame of the sequence and marked as decrypted.  A frame sent in
    the clear is not delivered. *)
Theorem plaintext_not_delivered lo sd p w0 fs w es : has_ptk p (sta w0) -> (forall j, head_of (frags w0) j = None) ->
  Forall (fun x => to_us x.2) fs -> rx_run crc32_le lo sd w0 fs = Some (w, es) ->
  forall to_air buf eth, Deliver to_air buf eth ∈ es ->
    port_control_frame sd eth = true \/
    exists pre ev f post w1 e1 w2 rx rest, fs = pre ++ (ev, f) :: post /\ rx_run crc32_le lo sd w0 pre = Some (w1, e1) /\
      rx_h_decrypt crc32_le sd ev w1 f = Some (RX_CONTINUE, w2, rx, []) /\ decrypted (stat rx) = true /\
      buf `prefix_of` skb rx ++ rest.
Proof.
  intros Hp Hh Hf Hrun to_air buf eth Hin.
  assert (W0 : world_ok crc32_le lo sd p w0 [] w0) by (split; [done|]; intros j d st Hj; by rewrite Hh in Hj).
  destruct (frames_ok crc32_le lo sd p w0 [] w0 [] fs w es eq_refl W0 Hf Hrun) as [_ He]; cbn [app] in He.
  rewrite Forall_forall in He; apply list_elem_of_In in Hin; destruct (He _ Hin) as [Hc|(d & rest & Hb & Ho)]; [by left|right].
  destruct Ho as (pre & ev & f & post & w1 & e1 & w2 & rx & Hs & Hr & Hd & Hx & Hdec); subst d.
  by exists pre, ev, f, post, w1, e1, w2, rx, rest.
Qed.


(** What changes the sleep of the station: its frames, and the driver. *)
Inductive ps_op := Frame (ev : rx_env) (f : rx_data) | Transition (start : bool).

Fixpoint ps_run lo sd (w : world) (ops : list ps_op) : option world :=
  match ops with
  | [] => Some w
  | Frame ev f :: ops => '(_, w, _, _) ← ieee80211_rx_handlers crc32_le lo sd ev w f; ps_run lo sd w ops
  | Transition start :: ops => ps_run lo sd (ieee80211_sta_ps_transition lo sd w start).1.2 ops
  end.

(** Over every sequence of received frames and transitions reported by the
    driver, the access point's count of sleeping stations stays the number of
    the other stations that sleep and one if this one does: no sequence counts
    a station twice or not at all. *)
Theorem sleepers_counted lo sd n w ops w' : counted n w -> ps_run lo sd w ops = Some w' -> counted n w'.
Proof.
  revert w; induction ops as [|[ev f|start] ops IH]; intros w Hc; cbn [ps_run]; [by intros [= <-]| |].
  - destruct (ieee80211_rx_handlers crc32_le lo sd ev w f) as [[[[r w1] rx1] e1]|] eqn:E; cbn [mbind option_bind]; [|done].
    apply IH; by eapply handlers_count.
  - by apply IH, transition_counted.
Qed.

End Properties.

(** ** Concrete runs *)

Definition demo_local : local := Local 100 false false None 0.
Definition demo_ev : rx_env :=
  RxEnv demo_env 1000 true true true (fun _ => 4096) true (fun d => d) (fun _ => true) 64 true (fun _ => false).
Definition empty_entry : Defrag.fragment_entry := Defrag.Entry 0 0 0 0 0 [] false (repeat 0 6).
Definition awake : sta_power := Power false false false false false false.
Definition demo_world : world :=
  World demo_keys (Some demo_sta) awake (Stats 0 0 0 0) 3 (Defrag.Cache (repeat empty_entry 4) 0) (repeat (demo_status false) 4) false.

(** The header of a QoS data frame from the access point to us; [fc1] is the
    second byte of the frame control field, [sc] the sequence control. *)
Definition from_ap (fc1 sc : Z) : list Z :=
  [0x88; fc1; 0; 0] ++ repeat 0x10 6 ++ repeat 0x22 6 ++ repeat 0x33 6 ++ put_le16 sc ++ [5; 0].
Definition llc (ethertype : list Z) : list Z := [0xaa; 0xaa; 0x03; 0; 0; 0] ++ ethertype.

(** What the access point sends with packet number [pn]. *)
Definition sealed (fc1 sc pn : Z) (payload : list Z) : list Z :=
  (@Ccmp.ccmp_encrypt_skb Ccmp.demo_cipher (Ccmp.Key (pn - 1) (Ccmp.rx_pn Ccmp.demo_key) 0 1) (TxSkb None 8 8 (from_ap fc1 sc ++ payload))).2.

Definition plain_eapol : list Z := from_ap 0x02 0x50 ++ llc [0x88; 0x8e] ++ [1; 2; 3].
Definition plain_ip : list Z := from_ap 0x02 0x60 ++ llc [8; 0] ++ [1; 2; 3].
Definition sealed_ip : list Z := sealed 0x42 0x70 8 (llc [8; 0] ++ [4; 5; 6]).
Definition demo_frames (ds : list (list Z)) : list (rx_env * rx_data) := (fun d => (demo_ev, demo_rx d false)) <$> ds.
Abbreviation demo_run ds := (@rx_run Wep.toy_stream Wep.toy_crc32 demo_local demo_sdata demo_world (demo_frames ds)).

(** The control port frame and the encrypted frame are delivered, the frame in
    the clear is not. *)
Example mixed_traffic : option_map snd (demo_run [plain_eapol; plain_ip; sealed_ip]) =
  Some [RxNotify; Deliver false plain_eapol (repeat 0x10 6 ++ repeat 0x33 6 ++ [0x88; 0x8e; 1; 2; 3]); RxNotify; RxNotify;
        Deliver false (from_ap 0x42 0x70 ++ llc [8; 0] ++ [4; 5; 6]) (repeat 0x10 6 ++ repeat 0x33 6 ++ [8; 0; 4; 5; 6])].
Proof. vm_compute; reflexivity. Qed.

(** A fragment in the clear joins a frame whose first fragment was encrypted:
    the sequence of packet numbers is checked against the key's last accepted
    number, which another encrypted frame has advanced, and not against the
    fragment, which has none.  The station delivers what was never encrypted. *)
Example plaintext_fragment_delivered :
  option_map snd (demo_run [sealed 0x46 0x70 8 (llc [8; 0] ++ [4; 5; 6]);
                            sealed 0x42 0x80 9 (llc [8; 0] ++ [7]);
                            from_ap 0x02 0x71 ++ [0xba; 0xad]]) =
  Some [RxNotify; RxNotify;
        Deliver false (from_ap 0x42 0x80 ++ llc [8; 0] ++ [7]) (repeat 0x10 6 ++ repeat 0x33 6 ++ [8; 0; 7]); RxNotify;
        Deliver false (from_ap 0x46 0x70 ++ llc [8; 0] ++ [4; 5; 6; 0xba; 0xad])
          (repeat 0x10 6 ++ repeat 0x33 6 ++ [8; 0; 4; 5; 6; 0xba; 0xad])].
Proof. vm_compute; reflexivity. Qed.

Lemma plaintext_not_delivered_witness : exists w es, demo_run [plain_eapol; plain_ip; sealed_ip] = Some (w, es) /\ length es = 5%nat /\
  forall to_air buf eth, Deliver to_air buf eth ∈ es ->
    port_control_frame demo_sdata eth = true \/
    exists pre ev f post w1 e1 w2 rx rest, demo_frames [plain_eapol; plain_ip; sealed_ip] = pre ++ (ev, f) :: post /\
      @rx_run Wep.toy_stream Wep.toy_crc32 demo_local demo_sdata demo_world pre = Some (w1, e1) /\
      @rx_h_decrypt Wep.toy_stream Wep.toy_crc32 demo_sdata ev w1 f = Some (RX_CONTINUE, w2, rx, []) /\ decrypted (stat rx) = true /\
      buf `prefix_of` skb rx ++ rest.
Proof.
  pose proof mixed_traffic as C; destruct (demo_run [plain_eapol; plain_ip; sealed_ip]) as [[w es]|] eqn:E; [|discriminate C].
  exists w, es; split; [done|]; split; [by injection C as ->|].
  apply (@plaintext_not_delivered Wep.toy_stream Wep.toy_crc32 demo_local demo_sdata 0 demo_world
    (demo_frames [plain_eapol; plain_ip; sealed_ip]) w es); [reflexivity | | | exact E].
  - intros [|[|[|[|j]]]]; reflexivity.
  - repeat (apply Forall_cons_2; [split; [vm_compute; reflexivity|split; [reflexivity|apply Nat.leb_le; vm_compute; reflexivity]]|]).
    apply Forall_nil_2.
Defined.

(** A deauthentication of the access point, protected under the pairwise key;
    the interface also has an integrity group key. *)
Definition mfp_keys : list ieee80211_key := demo_keys ++ [Key (CmacKey Bip.demo_mac Bip.demo_key) false 0].
Definition mfp_sdata : sub_if_data :=
  Sdata Ethernet.NL80211_IFTYPE_STATION (repeat 0x10 6) [None; Some 1%nat; None; None; Some 2%nat; None] (Some 2%nat) true [0x88; 0x8e]
    false false false (repeat 0x22 6) (repeat 0 6).
Definition mfp_world : world :=
  World mfp_keys (Some demo_sta) awake (Stats 0 0 0 0) 3 (Defrag.Cache (repeat empty_entry 4) 0) (repeat (demo_status false) 4) false.
Definition deauth_header (fc1 : Z) : list Z := [0xc0; fc1; 0; 0] ++ repeat 0x10 6 ++ repeat 0x22 6 ++ repeat 0x22 6 ++ [0x50; 0].
Definition mfp_receive (f : rx_data) : option (rx_result * list Z) :=
  '(r, w, rx, _) ← @ieee80211_rx_handlers Wep.toy_stream Wep.toy_crc32 demo_local mfp_sdata demo_ev mfp_world f;
  '(r', _, _) ← ieee80211_rx_h_mgmt_check mfp_sdata (sta w) false rx;
  Some (if bool_decide (r = RX_CONTINUE) then r' else r, skb rx).

Example deauth_forged : mfp_receive (Rx (deauth_header 0 ++ [3; 0]) (demo_status false) None 16 16 (0, 0)) =
  Some (RX_DROP_UNUSABLE, deauth_header 0 ++ [3; 0]).
Proof. vm_compute; reflexivity. Qed.




(** The access point's side: the station goes to sleep with a frame that has
    the power management bit, polls, wakes up, and the driver reports it
    asleep again. *)
Definition ap_sdata : sub_if_data :=
  Sdata Ethernet.NL80211_IFTYPE_AP (repeat 0x10 6) (repeat None 6) None false [0x88; 0x8e] false false false (repeat 0 6) (repeat 0 6).
Definition null_frame (fc1 : Z) : rx_data :=
  demo_rx ([0x48; fc1; 0; 0] ++ repeat 0x10 6 ++ repeat 0x22 6 ++ repeat 0x10 6 ++ [0x50; 0]) false.
Definition ap_ops : list ps_op :=
  [Frame demo_ev (null_frame 0x11); Frame demo_ev (null_frame 0x11); Frame demo_ev (null_frame 0x01); Transition true; Transition true].

Lemma sleepers_counted_witness : exists w,
  @ps_run Wep.toy_stream Wep.toy_crc32 demo_local ap_sdata demo_world ap_ops = Some w /\ ps_sta (power w) = true /\ num_sta_ps w = 4.
Proof.
  destruct (@ps_run Wep.toy_stream Wep.toy_crc32 demo_local ap_sdata demo_world ap_ops) as [w|] eqn:E.
  - exists w; split; [done|].
    assert (Hp : option_map (fun w => ps_sta (power w)) (@ps_run Wep.toy_stream Wep.toy_crc32 demo_local ap_sdata demo_world ap_ops) = Some true)
      by (vm_compute; reflexivity).
    rewrite E in Hp; injection Hp as Hp; split; [done|].
    pose proof (@sleepers_counted Wep.toy_stream Wep.toy_crc32 demo_local ap_sdata 3 demo_world ap_ops w eq_refl E) as Hc.
    unfold counted in Hc; rewrite Hp in Hc; exact Hc.
  - exfalso; assert (Hn : bool_decide (is_Some (@ps_run Wep.toy_stream Wep.toy_crc32 demo_local ap_sdata demo_world ap_ops)) = true)
      by (vm_compute; reflexivity); rewrite E in Hn; discriminate Hn.
Defined.

End RxData.
