(* ===== verification/TxFrag.v ===== *)
(** * Transmission: sequence numbers and fragmentation

    [net/mac80211/tx.c]: the handlers that number a frame
    ([ieee80211_tx_h_sequence]) and split it ([ieee80211_tx_h_fragment]), and
    that the fragments are what the receive path of [Defrag] puts together.  A
    socket buffer is its memory from the data pointer on, with the length and
    the tail pointer apart, since the code moves one without the other. *)

From stdpp Require Import sets.
From S2P Require Import Prelude Ieee80211 Frame Reorder Ccmp Defrag.

Module TxFrag.
Import Ieee80211 Frame.

Definition FCS_LEN : Z := 4.
Definition EINVAL : Z := 22.
Definition ENOMEM : Z := 12.

(** The flags and the rate table of [struct ieee80211_tx_info] used here. *)
Record tx_info := Info {
  ctl_dontfrag : bool; ctl_ampdu : bool; clear_ps_filt : bool; first_fragment : bool; more_frames : bool;
  assign_seq : bool; rate_ctrl_probe : bool; rate_idx : list Z }.

Record sk_buff := Skb { mem : list Z; len : nat; tail : nat; info : tx_info }.

(** The bytes that are sent. *)
Definition frame (s : sk_buff) : list Z := take (len s) (mem s).

(** A buffer whose tail is where the data ends. *)
Definition packed (d : list Z) (i : tx_info) : sk_buff := Skb d (length d) (length d) i.

Definition set_info (s : sk_buff) (i : tx_info) : sk_buff := Skb (mem s) (len s) (tail s) i.
Definition set_mem (s : sk_buff) (m : list Z) : sk_buff := Skb m (len s) (tail s) (info s).

(** [skb_put] and the copy to the place it returns. *)
Definition skb_put (s : sk_buff) (d : list Z) : sk_buff :=
  Skb (take (tail s) (mem s) ++ d ++ drop (tail s + length d) (mem s)) (len s + length d) (tail s + length d) (info s).

(** ** Sequence numbers *)

(** [sequence_number] of the interface and [tid_seq] of the station. *)
Record counters := Counters { sequence_number : Z; tid_seq : list Z }.

Definition put_seq_ctrl (m : list Z) (sc : Z) : list Z := take off_seq_ctrl m ++ put_le16 sc ++ drop (off_seq_ctrl + 2) m.

(** [None] is an index outside [tid_seq]; [monitor] tells that the interface is
    a monitor. *)
Definition ieee80211_tx_h_sequence (monitor has_sta : bool) (c : counters) (s : sk_buff) : option (counters * sk_buff) :=
  let fc := frame_control (mem s) in
  let i := info s in
  if monitor then Some (c, s)
  else if ieee80211_is_ctl fc then Some (c, s)
  else if ieee80211_hdrlen fc <? 24 then Some (c, s)
  else if ieee80211_is_qos_nullfunc fc then Some (c, s)
  else if negb (ieee80211_is_data_qos fc) then
    let i := Info (ctl_dontfrag i) (ctl_ampdu i) (clear_ps_filt i) (first_fragment i) (more_frames i) true (rate_ctrl_probe i) (rate_idx i) in
    Some (Counters (u16 (sequence_number c + 0x10)) (tid_seq c),
          Skb (put_seq_ctrl (mem s) (sequence_number c)) (len s) (tail s) i)
  else if negb has_sta then Some (c, s)
  else
    let tid := Z.to_nat (Z.land ((mem s).[ieee80211_get_qos_ctl (mem s)]) IEEE80211_QOS_CTL_TID_MASK) in
    sq ← tid_seq c !! tid;
    Some (Counters (sequence_number c) (<[tid := Z.land (sq + 0x10) IEEE80211_SCTL_SEQ]> (tid_seq c)),
          set_mem s (put_seq_ctrl (mem s) sq)).

(** ** Fragmentation *)

(** The control block of a further fragment. *)
Definition fragment_info (i : tx_info) (more : bool) : tx_info :=
  Info (ctl_dontfrag i) (ctl_ampdu i) false false (more || more_frames i) (assign_seq i) (rate_ctrl_probe i) (rate_idx i).

(** The loop over the rest of the frame: [alloc k] is the [k]-th allocation.
    The result has the fragments made and whether an allocation failed. *)
Fixpoint fragment_loop (fuel : nat) (alloc : nat -> bool) (k : nat) (skb : sk_buff) (hdrlen per_fragm pos rem : Z) :
    option (list sk_buff * bool) :=
  if rem =? 0 then Some ([], false)
  else
    match fuel with
    | O => None
    | S fuel =>
        let fraglen := if per_fragm >? rem then rem else per_fragm in
        let rem := rem - fraglen in
        if negb (alloc k) then Some ([], true)
        else
          let header := take (Z.to_nat hdrlen) (mem skb) in
          let data := take (Z.to_nat fraglen) (drop (Z.to_nat pos) (mem skb)) in
          let tmp := packed (header ++ data) (fragment_info (info skb) (negb (rem =? 0))) in
          '(tmps, failed) ← fragment_loop fuel alloc (S k) skb hdrlen per_fragm (pos + fraglen) rem;
          Some (tmp :: tmps, failed)
    end.

(** The code, the first fragment and the fragments behind it; [None] is a loop
    that does not end. *)
Definition ieee80211_fragment (alloc : nat -> bool) (skb : sk_buff) (hdrlen frag_threshold : Z) : option (Z * sk_buff * list sk_buff) :=
  let per_fragm := frag_threshold - hdrlen - FCS_LEN in
  let pos := hdrlen + per_fragm in
  let rem := Z.of_nat (len skb) - hdrlen - per_fragm in
  if rem <? 0 then Some (- EINVAL, skb, [])
  else
    '(tmps, failed) ← fragment_loop (Z.to_nat rem) alloc 0 skb hdrlen per_fragm pos rem;
    if (failed : bool) then Some (- ENOMEM, skb, tmps)
    else Some (0, Skb (mem skb) (Z.to_nat (hdrlen + per_fragm)) (tail skb) (info skb), tmps).

Definition put_frame_control (m : list Z) (fc : Z) : list Z := put_le16 fc ++ drop 2 m.

(** The header of fragment [fragnum]. *)
Definition mark_fragment (is_last : bool) (fragnum : Z) (s : sk_buff) : sk_buff :=
  let i := info s in
  let i := if is_last then i
    else Info (ctl_dontfrag i) (ctl_ampdu i) (clear_ps_filt i) (first_fragment i) (more_frames i) (assign_seq i) false
           (match rate_idx i with r :: _ => r :: repeat (-1) 3 | [] => [] end) in
  let fc := frame_control (mem s) in
  let m := put_frame_control (mem s)
    (if is_last then Z.land fc (Z.lnot IEEE80211_FCTL_MOREFRAGS) else Z.lor fc IEEE80211_FCTL_MOREFRAGS) in
  Skb (put_seq_ctrl m (Z.lor (seq_ctrl m) (Z.land fragnum IEEE80211_SCTL_FRAG))) (len s) (tail s) i.

Fixpoint mark_fragments (fragnum : Z) (l : list sk_buff) : list sk_buff :=
  match l with
  | [] => []
  | s :: l => mark_fragment (match l with [] => true | _ => false end) fragnum s :: mark_fragments (fragnum + 1) l
  end.

(** [offloaded] tells that the driver has [set_frag_threshold]. *)
Definition ieee80211_tx_h_fragment (alloc : nat -> bool) (offloaded : bool) (frag_threshold : Z) (skb : sk_buff) :
    option (tx_result * list sk_buff) :=
  let i := info skb in
  if ctl_dontfrag i then Some (TX_CONTINUE, [skb])
  else if offloaded then Some (TX_CONTINUE, [skb])
  else if ctl_ampdu i then Some (TX_DROP, [skb])
  else
    let hdrlen := ieee80211_hdrlen (frame_control (mem skb)) in
    if Z.of_nat (len skb) + FCS_LEN <=? u32 frag_threshold then Some (TX_DROP, [skb])
    else
      '(err, skb, tmps) ← ieee80211_fragment alloc skb hdrlen frag_threshold;
      if negb (err =? 0) then Some (TX_DROP, skb :: tmps)
      else Some (TX_CONTINUE, mark_fragments 0 (skb :: tmps)).

(** ** Lemmas: headers *)

(** The header [h] with another frame control and sequence control field. *)
Definition rewritten (h : list Z) (fc sc : Z) : list Z :=
  put_le16 fc ++ take 20 (drop 2 h) ++ put_le16 sc ++ drop 24 h.

Lemma rewrite_app h c fc sc : (24 <= length h)%nat -> put_seq_ctrl (put_frame_control (h ++ c) fc) sc = rewritten h fc sc ++ c.
Proof.
  intros Hl; unfold put_seq_ctrl, put_frame_control, rewritten, off_seq_ctrl.
  rewrite (drop_app_le h c 2) by lia; rewrite (take_app_ge (put_le16 fc)) by (cbn; lia).
  rewrite (drop_app_ge (put_le16 fc)) by (cbn; lia).
  replace (length (put_le16 fc)) with 2%nat by done; rewrite drop_app_le by (rewrite length_drop; lia); rewrite drop_drop.
  rewrite take_app_le by (rewrite length_drop; lia); by rewrite <- !app_assoc.
Qed.

Lemma length_rewritten h fc sc : (24 <= length h)%nat -> length (rewritten h fc sc) = length h.
Proof. intros Hl; unfold rewritten; rewrite !length_app, length_take, !length_drop; cbn [length put_le16]; lia. Qed.

Lemma rewritten_fc h fc sc t : is_u16 fc -> frame_control (rewritten h fc sc ++ t) = fc.
Proof.
  intros Hf; unfold rewritten; rewrite <- app_assoc, frame_control_header by (cbn; lia); by apply get_put_le16.
Qed.

Lemma rewritten_sc h fc sc t : (24 <= length h)%nat -> is_u16 sc -> seq_ctrl (rewritten h fc sc ++ t) = sc.
Proof.
  intros Hl Hs; unfold seq_ctrl, off_seq_ctrl, rewritten; rewrite <- !app_assoc, app_assoc.
  rewrite (get_le16_app_r _ _ 22 0) by (rewrite length_app, length_take, length_drop; change (length (put_le16 fc)) with 2%nat; lia).
  unfold get_le16; rewrite !byte_at_header by (cbn; lia); by apply get_put_le16.
Qed.

(** What lies between the two fields is that of [h]. *)
Lemma rewritten_mid h fc sc t off n : (24 <= length h)%nat -> (2 <= off)%nat -> (off + n <= 22)%nat ->
  sub (rewritten h fc sc ++ t) off n = sub h off n.
Proof.
  intros Hl Ho Hn; unfold rewritten, sub; rewrite <- !app_assoc, (drop_app_ge (put_le16 fc)) by (cbn; lia).
  replace (length (put_le16 fc)) with 2%nat by done.
  rewrite drop_app_le by (rewrite length_take, length_drop; lia).
  rewrite take_app_le by (rewrite length_drop, length_take, length_drop; lia).
  rewrite skipn_firstn_comm, drop_drop, take_take; f_equal; [lia|f_equal; lia].
Qed.

(** ** Lemmas: the bit of further fragments *)

Definition mf_same (fc fc' : Z) : Prop :=
  Z.land fc' (Z.lnot IEEE80211_FCTL_MOREFRAGS) = Z.land fc (Z.lnot IEEE80211_FCTL_MOREFRAGS).

Lemma mf_masked fc fc' m : mf_same fc fc' -> Z.land (Z.lnot IEEE80211_FCTL_MOREFRAGS) m = m -> Z.land fc' m = Z.land fc m.
Proof. intros E Em; by rewrite <- Em, !Z.land_assoc, E. Qed.

Lemma mf_preds fc fc' : mf_same fc fc' ->
  ieee80211_is_ctl fc' = ieee80211_is_ctl fc /\ ieee80211_has_protected fc' = ieee80211_has_protected fc /\
  ieee80211_hdrlen fc' = ieee80211_hdrlen fc /\ Z.land fc' IEEE80211_FCTL_FTYPE = Z.land fc IEEE80211_FCTL_FTYPE.
Proof.
  intros R; unfold ieee80211_hdrlen, ieee80211_is_data, ieee80211_is_data_qos,
    ieee80211_has_a4, ieee80211_has_order, ieee80211_is_ctl, ieee80211_has_protected.
  rewrite !(mf_masked fc fc') by (done || reflexivity); done.
Qed.

(** The frame control field of fragment [i] of [n + 1]. *)
Definition frag_fc (is_last : bool) (fc : Z) : Z :=
  if is_last then Z.land fc (Z.lnot IEEE80211_FCTL_MOREFRAGS) else Z.lor fc IEEE80211_FCTL_MOREFRAGS.

Lemma frag_fc_same b fc : mf_same fc (frag_fc b fc).
Proof.
  unfold mf_same, frag_fc; destruct b; [by rewrite <- Z.land_assoc, Z.land_diag|].
  rewrite Z.land_lor_distr_l; replace (Z.land IEEE80211_FCTL_MOREFRAGS (Z.lnot IEEE80211_FCTL_MOREFRAGS)) with 0 by reflexivity.
  apply Z.lor_0_r.
Qed.

Lemma frag_fc_more b fc : ieee80211_has_morefrags (frag_fc b fc) = negb b.
Proof.
  unfold ieee80211_has_morefrags, frag_fc; destruct b; cbn [negb].
  - rewrite <- Z.land_assoc; replace (Z.land (Z.lnot IEEE80211_FCTL_MOREFRAGS) IEEE80211_FCTL_MOREFRAGS) with 0 by reflexivity.
    by rewrite Z.land_0_r.
  - apply negb_true_iff, Z.eqb_neq; rewrite Z.land_lor_distr_l; intros E; apply Z.lor_eq_0_iff in E as [_ E]; discriminate E.
Qed.

Lemma frag_fc_u16 b fc : is_u16 fc -> is_u16 (frag_fc b fc).
Proof.
  intros Hf; unfold frag_fc; destruct b; [|apply is_uint_lor; [lia|done|by_eval]].
  apply is_uint_bits; [lia| |].
  - apply Z.land_nonneg; left; by destruct Hf.
  - intros n Hn; by rewrite Z.land_spec, (is_uint_bit 16) by done.
Qed.

(** ** Lemmas: the fragments *)

(** A sequence number field without a fragment number. *)
Definition fresh_seq (h : list Z) : Prop := Z.land (seq_ctrl h) IEEE80211_SCTL_FRAG = 0.

(** Fragment [k]: the header, rewritten, with the bytes [c] behind it. *)
Definition frag_hdr (h : list Z) (is_last : bool) (k : Z) : list Z :=
  rewritten h (frag_fc is_last (frame_control h)) (Z.lor (seq_ctrl h) (Z.land k IEEE80211_SCTL_FRAG)).

Lemma put_frame_control_seq h c fc : (24 <= length h)%nat -> seq_ctrl (put_frame_control (h ++ c) fc) = seq_ctrl h.
Proof.
  intros Hl; unfold seq_ctrl, off_seq_ctrl, put_frame_control; rewrite (drop_app_le h c 2) by lia.
  rewrite (get_le16_app_r (put_le16 fc) _ 2 20) by done; unfold get_le16; rewrite !byte_at_header by (rewrite length_drop; lia).
  by rewrite !byte_at_drop.
Qed.

Lemma mark_fragment_mem last k h c s : (24 <= length h)%nat -> mem s = h ++ c ->
  mem (mark_fragment last k s) = frag_hdr h last k ++ c.
Proof.
  intros Hl Hm; unfold mark_fragment; cbn [mem]; rewrite Hm, frame_control_header by lia.
  rewrite put_frame_control_seq by done; by apply rewrite_app.
Qed.

(** A list of frames made of the header and the chunks, numbered from [k]. *)
Fixpoint frag_frames (h : list Z) (k : Z) (cs : list (list Z)) : list (list Z) :=
  match cs with
  | [] => []
  | c :: cs => (frag_hdr h (match cs with [] => true | _ => false end) k ++ c) :: frag_frames h (k + 1) cs
  end.

Lemma length_frag_hdr h l k : (24 <= length h)%nat -> length (frag_hdr h l k) = length h.
Proof. apply length_rewritten. Qed.

Lemma mark_fragment_frame last k h c x s : (24 <= length h)%nat -> mem s = h ++ c ++ x -> len s = length (h ++ c) ->
  frame (mark_fragment last k s) = frag_hdr h last k ++ c.
Proof.
  intros Hl Hm Hlen; unfold frame; rewrite (mark_fragment_mem last k h (c ++ x)) by (done || by rewrite Hm).
  change (len (mark_fragment last k s)) with (len s); rewrite Hlen, app_assoc, take_app_length'; [done|].
  by rewrite !length_app, length_frag_hdr.
Qed.

(** [s] is a fragment with the chunk [c]; memory behind it does not matter. *)
Definition carries (h : list Z) (s : sk_buff) (c : list Z) : Prop :=
  exists x, mem s = h ++ c ++ x /\ len s = length (h ++ c).

Lemma mark_fragments_frames h k ss cs : (24 <= length h)%nat -> Forall2 (carries h) ss cs ->
  frame <$> mark_fragments k ss = frag_frames h k cs.
Proof.
  intros Hl Hf; revert k; induction Hf as [|s c ss cs (x & Hm & Hn) Hf IH]; intros k; [done|].
  cbn [mark_fragments frag_frames fmap list_fmap]; rewrite <- IH, (mark_fragment_frame _ _ h c x) by done.
  by destruct Hf.
Qed.

(** The loop cuts what lies behind [pos] in chunks of [per], the last shorter. *)
Lemma fragment_loop_spec alloc skb h p per : (forall k, alloc k = true) -> mem skb = h ++ p -> 0 < per ->
  forall fuel k pos, (length h <= pos)%nat -> (pos <= length (h ++ p))%nat ->
  (length (h ++ p) - pos <= fuel)%nat -> exists tmps cs,
  fragment_loop fuel alloc k skb (Z.of_nat (length h)) per (Z.of_nat pos) (Z.of_nat (length (h ++ p) - pos)) = Some (tmps, false) /\
  Forall2 (carries h) tmps cs /\ concat cs = drop pos (h ++ p) /\ Forall (fun c => 0 < Z.of_nat (length c) <= per) cs /\
  Z.of_nat (length cs) * per < Z.of_nat (length (h ++ p) - pos) + per /\
  Forall (fun s => tail s = len s) tmps.
Proof.
  intros Ha Hm Hper; induction fuel as [|fuel IH]; intros k pos Hh Hp Hf.
  { exists [], []; cbn [fragment_loop]; rewrite (proj2 (Z.eqb_eq _ 0)) by lia.
    split_and!; try done; [by rewrite drop_ge by lia|cbn [length]; lia]. }
  set (rem := (length (h ++ p) - pos)%nat) in *; cbn [fragment_loop]; destruct (Z.eqb_spec (Z.of_nat rem) 0) as [E|E].
  { exists [], []; split_and!; try done; [by rewrite drop_ge by lia|cbn [length]; lia]. }
  rewrite Ha; cbn [negb].
  set (fl := Z.to_nat (if per >? Z.of_nat rem then Z.of_nat rem else per)).
  assert (Hfl : (if per >? Z.of_nat rem then Z.of_nat rem else per) = Z.of_nat fl) by (unfold fl; rewrite Z.gtb_ltb; destruct (Z.ltb_spec (Z.of_nat rem) per); lia).
  assert (Hfr : (0 < fl <= rem)%nat /\ Z.of_nat fl <= per /\ (Z.of_nat fl < per -> fl = rem))
    by (rewrite Z.gtb_ltb in Hfl; destruct (Z.ltb_spec (Z.of_nat rem) per); lia).
  rewrite Hfl; destruct (IH (S k) (pos + fl)%nat) as (tmps & cs & El & Hc & Hcat & Hlen & Hn & Ht); [lia..|].
  replace (Z.of_nat pos + Z.of_nat fl) with (Z.of_nat (pos + fl)) by lia.
  replace (Z.of_nat rem - Z.of_nat fl) with (Z.of_nat (length (h ++ p) - (pos + fl))) by lia.
  rewrite El; cbn [mbind option_bind]; rewrite !Nat2Z.id, Hm, take_app_length.
  eexists _, (take fl (drop pos (h ++ p)) :: cs); split; [reflexivity|]; split; [constructor; [|exact Hc]|].
  { exists []; unfold packed; cbn [mem len]; by rewrite app_nil_r. }
  split; [cbn [concat]; rewrite Hcat, <- drop_drop; apply take_drop|].
  split; [constructor; [rewrite length_take, length_drop; lia|done]|]; split; [|constructor; done].
  cbn [length]; destruct (decide (fl = rem)); [|nia].
  assert (cs = []) as ->; [|cbn [length]; lia].
  destruct cs as [|c cs]; [done|]; apply list.Forall_cons in Hlen as [Hc0 _]; exfalso.
  assert (L : length (concat (c :: cs)) = 0%nat) by (rewrite Hcat, length_drop; lia); cbn [concat] in L; rewrite length_app in L; lia.
Qed.

(** What the handler makes of a frame that is longer than the threshold. *)
Definition fragmentable (h p : list Z) (i : tx_info) (thr : Z) : Prop :=
  ctl_dontfrag i = false /\ ctl_ampdu i = false /\ (24 <= length h)%nat /\
  Z.of_nat (length h) = ieee80211_hdrlen (frame_control h) /\
  256 <= thr < Z.of_nat (length (h ++ p)) + FCS_LEN /\ Z.of_nat (length (h ++ p)) < 2 ^ 31.

(** The bytes of payload in a fragment. *)
Definition per_fragm (h : list Z) (thr : Z) : Z := thr - Z.of_nat (length h) - FCS_LEN.

Lemma per_fragm_pos h p i thr : fragmentable h p i thr -> 216 <= per_fragm h thr.
Proof.
  intros (_ & _ & _ & Hh & Ht & _); unfold per_fragm, FCS_LEN; pose proof (hdrlen_bounds (frame_control h)); lia.
Qed.

Lemma tx_fragment_spec alloc h p i thr : (forall k, alloc k = true) -> fragmentable h p i thr -> exists fs c0 cs,
  ieee80211_tx_h_fragment alloc false thr (packed (h ++ p) i) = Some (TX_CONTINUE, fs) /\
  frame <$> fs = frag_frames h 0 (c0 :: cs) /\ p = c0 ++ concat cs /\ cs <> [] /\
  Forall (fun c => 0 < Z.of_nat (length c) <= per_fragm h thr) (c0 :: cs) /\
  Z.of_nat (length (c0 :: cs)) * per_fragm h thr < Z.of_nat (length p) + per_fragm h thr /\
  exists s0 rest, fs = s0 :: rest /\ tail s0 = length (h ++ p) /\ mem s0 = frag_hdr h false 0 ++ p /\
    len s0 = (length h + Z.to_nat (per_fragm h thr))%nat.
Proof.
  intros Ha Hf; pose proof (per_fragm_pos _ _ _ _ Hf) as Hper; destruct Hf as (Hd & Hag & H24 & Hh & Ht & Hlen).
  set (per := per_fragm h thr) in *; assert (Eper : thr - Z.of_nat (length h) - FCS_LEN = per) by reflexivity.
  unfold ieee80211_tx_h_fragment, packed; cbn [info len mem]; rewrite Hd, Hag, frame_control_header, <- Hh by lia.
  unfold FCS_LEN in *; rewrite (proj2 (Z.leb_gt _ _)) by (unfold u32; rewrite wrap_small; unfold is_uint; lia).
  unfold ieee80211_fragment; cbn [len mem tail info]; unfold FCS_LEN; rewrite Eper.
  assert (Hp : (Z.to_nat per <= length p)%nat) by (rewrite length_app in Ht; lia).
  rewrite (proj2 (Z.ltb_ge _ 0)) by (rewrite length_app; lia).
  destruct (fragment_loop_spec alloc (packed (h ++ p) i) h p per Ha eq_refl ltac:(lia)
    (length (h ++ p) - (length h + Z.to_nat per)) 0 (length h + Z.to_nat per)%nat) as (tmps & cs & El & Hc & Hcat & Hcl & Hn & Htl);
    [lia | rewrite length_app; lia | lia |].
  replace (Z.to_nat (Z.of_nat (length (h ++ p)) - Z.of_nat (length h) - per)) with (length (h ++ p) - (length h + Z.to_nat per))%nat by lia.
  replace (Z.of_nat (length (h ++ p)) - Z.of_nat (length h) - per) with (Z.of_nat (length (h ++ p) - (length h + Z.to_nat per)))
    by (rewrite length_app in *; lia).
  replace (Z.of_nat (length h) + per) with (Z.of_nat (length h + Z.to_nat per)) by lia.
  unfold packed in El; rewrite El; cbn [mbind option_bind negb Z.eqb]; rewrite Nat2Z.id.
  set (s0 := Skb (h ++ p) (length h + Z.to_nat per) (length (h ++ p)) i).
  assert (Ecat : concat cs = drop (Z.to_nat per) p) by (rewrite Hcat, drop_app_ge by lia; f_equal; lia).
  assert (Hcs : cs <> []) by (intros ->; cbn [concat] in Ecat; apply (f_equal length) in Ecat; rewrite length_drop in Ecat; cbn [length] in Ecat;
    rewrite length_app in Ht; lia).
  exists (mark_fragments 0 (s0 :: tmps)), (take (Z.to_nat per) p), cs; split; [done|]; split.
  { apply mark_fragments_frames; [done|]; constructor; [|done]; exists (drop (Z.to_nat per) p); cbn [mem len s0].
    rewrite take_drop; split; [done|]; rewrite length_app, length_take; lia. }
  split; [by rewrite Ecat, take_drop|]; split; [done|]; split; [constructor; [rewrite length_take; lia|done]|].
  split; [cbn [length]; rewrite length_app in Hn; lia|].
  eexists _, _; split; [reflexivity|]; split; [done|].
  assert (Hne : match tmps with [] => true | _ => false end = false) by (destruct Hc; [by destruct Hcs|done]); rewrite Hne.
  split; [by apply mark_fragment_mem|done].
Qed.

Lemma frag_frames_lookup h k cs i f : frag_frames h k cs !! i = Some f ->
  exists c, cs !! i = Some c /\ f = frag_hdr h (bool_decide (S i = length cs)) (k + Z.of_nat i) ++ c.
Proof.
  revert k i; induction cs as [|c cs IH]; intros k i; [done|]; destruct i as [|i]; cbn [frag_frames].
  - intros [= <-]; exists c; split; [done|]; rewrite Z.add_0_r; destruct cs; [done|]; by rewrite bool_decide_false.
  - intros Hi; change (frag_frames h (k + 1) cs !! i = Some f) in Hi; destruct (IH _ _ Hi) as (c' & Hc & ->); exists c'; split; [done|].
    replace (k + 1 + Z.of_nat i) with (k + Z.of_nat (S i)) by lia.
    by rewrite (bool_decide_ext (S (S i) = length (c :: cs)) (S i = length cs)) by (cbn [length]; lia).
Qed.

Lemma length_frag_frames h k cs : length (frag_frames h k cs) = length cs.
Proof. revert k; induction cs as [|c cs IH]; intros k; [done|]; cbn; by rewrite IH. Qed.

(** ** Lemmas: what the receiver reads in a fragment *)

Section Receive.
Context (h : list Z) (key : option Defrag.rx_key) (sno : Z) (sec : nat).
Hypothesis Hbytes : bytes h.
Hypothesis H24 : (24 <= length h)%nat.
Hypothesis Hhdr : Z.of_nat (length h) = ieee80211_hdrlen (frame_control h).
Hypothesis Hctl : ieee80211_is_ctl (frame_control h) = false.
Hypothesis Hmc : Defrag.is_multicast_ether_addr h = false.
Hypothesis Hprot : ieee80211_has_protected (frame_control h) = false.
Hypothesis Hfresh : fresh_seq h.

Definition received (f : list Z) : Defrag.rx_data := Defrag.Rx f key sno sec.

Lemma frag_hdr_fc b k c : frame_control (frag_hdr h b k ++ c) = frag_fc b (frame_control h).
Proof. apply rewritten_fc, frag_fc_u16, get_le16_range, Hbytes. Qed.

Lemma frag_hdr_sc b k c : 0 <= k < 16 -> seq_ctrl (frag_hdr h b k ++ c) = Z.lor (seq_ctrl h) k.
Proof.
  intros Hk; unfold frag_hdr; assert (E : Z.land k IEEE80211_SCTL_FRAG = k)
    by (change IEEE80211_SCTL_FRAG with (Z.ones 4); rewrite Z.land_ones, Z.mod_small by lia; done).
  rewrite E, rewritten_sc; [done|done|]; apply is_uint_lor; [lia|by apply get_le16_range|unfold is_uint; lia].
Qed.

Lemma received_frag b k c : 0 <= k < 16 -> Defrag.frag_no (received (frag_hdr h b k ++ c)) = k.
Proof.
  intros Hk; unfold Defrag.frag_no, received; cbn [Defrag.rx_skb]; rewrite frag_hdr_sc by done.
  rewrite Z.land_lor_distr_l; unfold fresh_seq in Hfresh; rewrite Hfresh, Z.lor_0_l.
  change IEEE80211_SCTL_FRAG with (Z.ones 4); rewrite Z.land_ones, Z.mod_small by lia; done.
Qed.

Lemma received_seq b k c : 0 <= k < 16 ->
  Defrag.seq_no (received (frag_hdr h b k ++ c)) = Z.shiftr (Z.land (seq_ctrl h) IEEE80211_SCTL_SEQ) 4.
Proof.
  intros Hk; unfold Defrag.seq_no, received; cbn [Defrag.rx_skb]; rewrite frag_hdr_sc by done; f_equal.
  rewrite Z.land_lor_distr_l; replace (Z.land k IEEE80211_SCTL_SEQ) with 0; [apply Z.lor_0_r|].
  replace k with (Z.land k (Z.ones 4)) by (rewrite Z.land_ones, Z.mod_small by lia; done).
  rewrite <- Z.land_assoc; replace (Z.land (Z.ones 4) IEEE80211_SCTL_SEQ) with 0 by reflexivity; by rewrite Z.land_0_r.
Qed.

Lemma received_peer b b' k k' c c' : Defrag.of_peer (frag_hdr h b k ++ c) (frag_hdr h b' k' ++ c').
Proof.
  unfold Defrag.of_peer, Defrag.addr1, Defrag.addr2; rewrite !frag_hdr_fc.
  unfold frag_hdr; rewrite !rewritten_mid by (unfold off_addr1, off_addr2, ETH_ALEN; lia); split; [|done].
  destruct (mf_preds _ _ (frag_fc_same b (frame_control h))) as (_ & _ & _ & ->).
  by destruct (mf_preds _ _ (frag_fc_same b' (frame_control h))) as (_ & _ & _ & ->).
Qed.

Lemma received_body b k c : Defrag.body (received (frag_hdr h b k ++ c)) = c.
Proof.
  unfold Defrag.body, received; cbn [Defrag.rx_skb]; rewrite frag_hdr_fc.
  destruct (mf_preds _ _ (frag_fc_same b (frame_control h))) as (_ & _ & -> & _); rewrite <- Hhdr.
  unfold Defrag.skb_pull; rewrite (proj2 (Z.ltb_ge _ _)) by (rewrite length_app, length_frag_hdr; lia).
  rewrite Nat2Z.id; apply drop_app_length'; symmetry; by apply length_frag_hdr.
Qed.

Lemma received_protected b k c : Defrag.protected_first (received (frag_hdr h b k ++ c)) = false.
Proof.
  unfold Defrag.protected_first, received; cbn [Defrag.rx_skb Defrag.key]; rewrite frag_hdr_fc.
  destruct (mf_preds _ _ (frag_fc_same b (frame_control h))) as (_ & -> & _); rewrite Hprot; by destruct key as [[]|].
Qed.

Lemma received_unicast b k c : Defrag.is_multicast_ether_addr (frag_hdr h b k ++ c) = false.
Proof.
  pose proof (rewritten_mid h (frag_fc b (frame_control h)) (Z.lor (seq_ctrl h) (Z.land k IEEE80211_SCTL_FRAG)) c off_addr1 1 H24) as E.
  unfold off_addr1 in E; specialize (E ltac:(lia) ltac:(lia)); fold (frag_hdr h b k) in E.
  unfold Defrag.is_multicast_ether_addr, off_addr1 in *; rewrite <- Hmc; do 2 f_equal.
  assert (G : forall l : list Z, l.[4] = (sub l 4 1).[0])
    by (intros l; unfold sub; by rewrite byte_at_take, byte_at_drop by lia).
  by rewrite G, (G h), E.
Qed.

(** The fragments are those of one frame. *)
Lemma received_fragments c0 cs : cs <> [] -> (length (c0 :: cs) <= 16)%nat ->
  exists f0 fs, frag_frames h 0 (c0 :: cs) = f0 :: fs /\ f0 = frag_hdr h false 0 ++ c0 /\
    Defrag.fragments_of (received f0) (received <$> fs) /\ Defrag.body <$> (received <$> fs) = cs /\ length fs = length cs /\
    forall i f, fs !! i = Some f -> Defrag.more (received f) = negb (bool_decide (S i = length cs)).
Proof.
  intros Hcs Hn; cbn [frag_frames]; assert (E : match cs with [] => true | _ => false end = false) by (by destruct cs).
  rewrite E; exists (frag_hdr h false 0 ++ c0), (frag_frames h (0 + 1) cs); split; [done|]; split; [done|].
  split; [|split; [|split; [apply length_frag_frames|]]].
  - split; [by rewrite received_frag|]; split; [unfold Defrag.more; cbn [Defrag.rx_skb received]; by rewrite frag_hdr_fc, frag_fc_more|].
    intros i f Hi; apply list_lookup_fmap_Some in Hi as (g & -> & Hg).
    destruct (frag_frames_lookup _ _ _ _ _ Hg) as (c & Hc & ->); apply lookup_lt_Some in Hc as Hlt; cbn [length] in Hn.
    split; [rewrite received_frag; lia|]; split; [by rewrite !received_seq by lia|]; split; [done|]; split; [apply received_peer|].
    by rewrite received_protected.
  - apply list_eq; intros i; rewrite !list_lookup_fmap; destruct (frag_frames h (0 + 1) cs !! i) as [f|] eqn:Ef; cbn [fmap option_fmap option_map].
    + destruct (frag_frames_lookup _ _ _ _ _ Ef) as (c & -> & ->); by rewrite received_body.
    + apply lookup_ge_None in Ef; rewrite length_frag_frames in Ef; symmetry; by apply lookup_ge_None.
  - intros i f Hf; destruct (frag_frames_lookup _ _ _ _ _ Hf) as (c & Hc & ->); unfold Defrag.more; cbn [Defrag.rx_skb received].
    by rewrite frag_hdr_fc, frag_fc_more.
Qed.
End Receive.

(** ** Lemmas: the frame put together again *)

Lemma put_get_le16 l i : bytes l -> (i + 2 <= length l)%nat -> put_le16 (get_le16 l i) = take 2 (drop i l).
Proof.
  intros Hb Hl; rewrite get_le16_val by done.
  assert (E : drop i l = l.[i] :: l.[i + 1] :: drop (i + 2) l).
  { rewrite (drop_S l (l.[i]) i) by (apply lookup_byte_at; lia); f_equal.
    replace (S i) with (i + 1)%nat by lia; rewrite (drop_S l (l.[i + 1]) (i + 1)) by (apply lookup_byte_at; lia); do 2 f_equal; lia. }
  rewrite E; cbn [take]; unfold put_le16; rewrite !u8_mod, shiftr8.
  pose proof (byte_at_range l i Hb) as R1; pose proof (byte_at_range l (i + 1) Hb) as R2; unfold is_uint in R1, R2.
  repeat f_equal; arith.
Qed.

(** A header that only gets the bit of further fragments. *)
Lemma first_hdr h p : bytes h -> (24 <= length h)%nat ->
  frag_hdr h false 0 ++ p = put_frame_control (h ++ p) (Z.lor (frame_control h) IEEE80211_FCTL_MOREFRAGS).
Proof.
  intros Hb Hl; unfold frag_hdr, rewritten, put_frame_control; rewrite Z.land_0_l, Z.lor_0_r, drop_app_le by lia.
  unfold seq_ctrl, off_seq_ctrl; rewrite put_get_le16 by (done || lia); cbn [frag_fc]; rewrite <- !app_assoc; f_equal.
  rewrite <- (take_drop 20 (drop 2 h)) at 2; rewrite <- !app_assoc; f_equal; rewrite drop_drop; cbn [Nat.add].
  rewrite <- (take_drop 2 (drop 22 h)) at 2; rewrite <- !app_assoc, drop_drop; done.
Qed.

(** What the receiver meets when the fragments come in a row. *)
Definition prompt (HZ t0 : Z) (ev : Defrag.env) : Prop :=
  Defrag.linearized ev = true /\ Defrag.expanded ev = true /\
  Reorder.time_after (Defrag.jiffies ev) (u64 (t0 + 2 * HZ)) = false.

Lemma zip_snoc {A B} (l : list A) (k : list B) a b : length l = length k -> zip (l ++ [a]) (k ++ [b]) = zip l k ++ [(a, b)].
Proof. intros Hl; by rewrite zip_with_app. Qed.

Lemma Forall_zip {A B} (P : A -> Prop) (Q : B -> Prop) (R : A * B -> Prop) l k :
  (forall a b, P a -> Q b -> R (a, b)) -> Forall P l -> Forall Q k -> Forall R (zip l k).
Proof.
  intros HR Hl; revert k; induction Hl as [|a l Ha Hl IH]; intros [|b k] Hk; try constructor;
    apply Forall_cons_1 in Hk as [Hb Hk]; [by apply HR|by apply IH].
Qed.

(** What [Defrag] asks of a frame, apart from the time. *)
Definition joins (f : Defrag.rx_data) : Prop :=
  Defrag.rx_ok f /\ ieee80211_is_ctl (frame_control (Defrag.rx_skb f)) = false /\
  Defrag.is_multicast_ether_addr (Defrag.rx_skb f) = false.

Lemma reassemble_list HZ c ev0 f0 evs fs :
  length (Defrag.fragments c) = Defrag.IEEE80211_FRAGMENT_MAX -> (Defrag.fragment_next c < Defrag.IEEE80211_FRAGMENT_MAX)%nat ->
  length evs = length fs -> fs <> [] -> Defrag.fragments_of f0 fs ->
  (forall i f, fs !! i = Some f -> Defrag.more f = negb (bool_decide (S i = length fs))) ->
  Forall joins (f0 :: fs) -> Forall (prompt HZ (Defrag.jiffies ev0)) (ev0 :: evs) ->
  exists c' eff, Defrag.defrag_run HZ c (zip (ev0 :: evs) (f0 :: fs)) =
    Some (c', repeat Defrag.Queued (length fs) ++ [Defrag.Continue (Defrag.rx_skb f0 ++ concat (Defrag.body <$> fs)) eff]).
Proof.
  intros Hc Hn Hl Hne Hfr Hmore Hok Hpr; destruct fs as [|fl fm _] using rev_ind; [done|]; clear Hne.
  destruct evs as [|el em _] using rev_ind; [rewrite length_app in Hl; cbn in Hl; lia|].
  rewrite !length_app, !Nat.add_1_r in Hl; apply Nat.succ_inj in Hl.
  assert (Hin : Forall (Defrag.in_time HZ (Defrag.jiffies ev0)) (zip (ev0 :: em ++ [el]) (f0 :: fm ++ [fl])))
    by (apply (Forall_zip (prompt HZ (Defrag.jiffies ev0)) joins _ (ev0 :: em ++ [el]) (f0 :: fm ++ [fl])); [|done..];
        intros ev f (? & ? & ?) (? & ? & ?); split_and!; done).
  apply Forall_cons_1 in Hpr as [_ Hpr]; apply Forall_app in Hpr as [_ Hpl]; apply Forall_cons_1 in Hpl as [(_ & Hx & _) _].
  assert (Es : snd <$> zip em fm = fm) by (rewrite snd_zip; [done|lia]).
  cbn [zip zip_with] in *; fold (zip (em ++ [el]) (fm ++ [fl])) in *; rewrite zip_snoc in * by done.
  destruct (Defrag.frame_reassembles HZ c ev0 f0 (zip em fm) el fl Hc Hn Hin) as (c' & E); rewrite ?Es; try done.
  - apply list.Forall_forall; intros f Hf; apply list_elem_of_lookup in Hf as (i & Hi); apply lookup_lt_Some in Hi as Hlt.
    specialize (Hmore i f); rewrite lookup_app_l in Hmore by done; rewrite (Hmore Hi), length_app; cbn [length].
    by rewrite bool_decide_false by lia.
  - specialize (Hmore (length fm) fl); rewrite lookup_app_r, Nat.sub_diag in Hmore by lia; rewrite (Hmore eq_refl), length_app; cbn [length].
    by rewrite bool_decide_true by lia.
  - rewrite Es in E; exists c'; eexists; rewrite E; do 2 f_equal.
    rewrite length_zip_with, Hl, Nat.min_id, length_app, Nat.add_1_r; reflexivity.
Qed.

(** ** Lemmas: numbering *)

(** The counter that numbers a frame for a station. *)
Inductive counter_id := NoCounter | Global | Tid (n : nat).

#[global] Instance counter_id_eq_dec : EqDecision counter_id.
Proof. solve_decision. Defined.

Definition tid_of (m : list Z) : nat := Z.to_nat (Z.land (m.[ieee80211_get_qos_ctl m]) IEEE80211_QOS_CTL_TID_MASK).

Definition counter_of (m : list Z) : counter_id :=
  let fc := frame_control m in
  if ieee80211_is_ctl fc || (ieee80211_hdrlen fc <? 24) || ieee80211_is_qos_nullfunc fc then NoCounter
  else if ieee80211_is_data_qos fc then Tid (tid_of m) else Global.

Definition counter (c : counters) (i : counter_id) : Z :=
  match i with NoCounter => 0 | Global => sequence_number c | Tid n => default 0 (tid_seq c !! n) end.

(** Counters hold sequence control fields with fragment number zero. *)
Definition number (x : Z) : Prop := is_u16 x /\ Z.land x IEEE80211_SCTL_FRAG = 0.

Definition counters_ok (c : counters) : Prop :=
  number (sequence_number c) /\ length (tid_seq c) = 16%nat /\ Forall number (tid_seq c).

Lemma number_mod x : number x <-> is_u16 x /\ x mod 16 = 0.
Proof. unfold number; change IEEE80211_SCTL_FRAG with (Z.ones 4); by rewrite Z.land_ones by lia. Qed.

Lemma number_next x : number x -> number (u16 (x + 16)) /\ Z.land (x + 16) IEEE80211_SCTL_SEQ = u16 (x + 16).
Proof.
  rewrite !number_mod; intros (Hx & Hm); unfold is_uint in *; unfold u16, wrap; split; [arith|].
  change IEEE80211_SCTL_SEQ with (Z.land (Z.ones 16) (Z.lnot (Z.ones 4))).
  rewrite Z.land_assoc, Z.land_ones, <- Z.ldiff_land, Z.ldiff_ones_r, Z.shiftr_div_pow2, Z.shiftl_mul_pow2 by lia; arith.
Qed.

Lemma tid_range m : (tid_of m < 16)%nat.
Proof.
  unfold tid_of; change IEEE80211_QOS_CTL_TID_MASK with (Z.ones 4); rewrite Z.land_ones by lia.
  pose proof (Z.mod_pos_bound (m.[ieee80211_get_qos_ctl m]) (2 ^ 4)); lia.
Qed.

(** One frame. *)
Lemma sequence_spec c s : counters_ok c ->
  exists c' s', ieee80211_tx_h_sequence false true c s = Some (c', s') /\ counters_ok c' /\
    len s' = len s /\ tail s' = tail s /\
    mem s' = (if decide (counter_of (mem s) = NoCounter) then mem s else put_seq_ctrl (mem s) (counter c (counter_of (mem s)))) /\
    forall i, counter c' i = if decide (i = counter_of (mem s) /\ i <> NoCounter) then u16 (counter c i + 16) else counter c i.
Proof.
  intros Hc; assert (Hno : exists c' s', Some (c, s) = Some (c', s') /\ counters_ok c' /\ len s' = len s /\ tail s' = tail s /\
    mem s' = (if decide (NoCounter = NoCounter) then mem s else put_seq_ctrl (mem s) (counter c NoCounter)) /\
    forall i, counter c' i = if decide (i = NoCounter /\ i <> NoCounter) then u16 (counter c i + 16) else counter c i).
  { exists c, s; rewrite decide_True by done; do 5 (split; [done|]); intros i; by rewrite decide_False by naive_solver. }
  unfold ieee80211_tx_h_sequence, counter_of; destruct Hc as (Hg & Hl & Ht).
  destruct (ieee80211_is_ctl _) eqn:E1; cbn [orb negb]; [done|].
  destruct (_ <? 24) eqn:E2; cbn [orb negb]; [done|].
  destruct (ieee80211_is_qos_nullfunc _) eqn:E3; cbn [orb negb]; [done|].
  destruct (ieee80211_is_data_qos _) eqn:E4; cbn [negb].
  - fold (tid_of (mem s)); pose proof (tid_range (mem s)) as Hr.
    destruct (lookup_lt_is_Some_2 (tid_seq c) (tid_of (mem s))) as [sq Esq]; [lia|]; rewrite Esq; cbn [mbind option_bind].
    destruct (number_next sq) as [Hn En]; [by eapply Forall_lookup_1|].
    eexists _, _; split; [reflexivity|]; rewrite decide_False by done; cbn [counter tid_seq sequence_number mem len tail set_mem]; rewrite Esq.
    split; [split; [done|cbn [tid_seq]; split; [by rewrite length_insert|rewrite En; by apply Forall_insert]]|].
    do 3 (split; [done|]).
    intros [| |n]; cbn [counter tid_seq sequence_number]; try by rewrite decide_False by naive_solver.
    destruct (decide (n = tid_of (mem s))) as [->|Hne].
    + rewrite decide_True by done; rewrite list_lookup_insert_eq by lia; by rewrite Esq.
    + rewrite decide_False by naive_solver; by rewrite list_lookup_insert_ne by done.
  - destruct (number_next _ Hg) as [Hn En].
    eexists _, _; split; [reflexivity|]; rewrite decide_False by done; cbn [counter tid_seq sequence_number mem len tail].
    split_and!; try done.
    intros [| |n]; cbn [counter tid_seq sequence_number]; try by rewrite decide_False by naive_solver.
    by rewrite decide_True by done.
Qed.

Fixpoint sequence_run (c : counters) (l : list sk_buff) : option (counters * list sk_buff) :=
  match l with
  | [] => Some (c, [])
  | s :: l =>
      '(c, s') ← ieee80211_tx_h_sequence false true c s; '(c, l') ← sequence_run c l; Some (c, s' :: l')
  end.

(** How many of the frames [l] take the counter [i]. *)
Definition taken (i : counter_id) (l : list sk_buff) : Z :=
  Z.of_nat (length (filter (fun s => counter_of (mem s) = i) l)).

Lemma counter_u16 c i : counters_ok c -> is_u16 (counter c i).
Proof.
  intros ((Hg & _) & _ & Ht); destruct i as [| |n]; cbn [counter]; [unfold is_uint; lia|done|].
  destruct (tid_seq c !! n) eqn:E; cbn [default]; [|unfold is_uint; lia]; by apply (Forall_lookup_1 _ _ _ _ Ht E).
Qed.

(** ** Properties *)

Definition unprotected_unicast (h : list Z) : Prop :=
  ieee80211_is_ctl (frame_control h) = false /\ Defrag.is_multicast_ether_addr h = false /\
  ieee80211_has_protected (frame_control h) = false.

(** C8: a frame longer than the threshold, with room for its payload in
    sixteen fragments, leaves the transmit handler as fragments that a receiver
    which meets them in a row and in time puts together to the frame that was
    sent: the same bytes but for the bit that says more fragments follow, which
    is the first fragment's. *)
Theorem fragments_reassemble alloc h p i thr HZ c key sno sec :
  (forall k, alloc k = true) -> fragmentable h p i thr -> bytes h -> unprotected_unicast h -> fresh_seq h ->
  Z.of_nat (length p) <= 16 * per_fragm h thr -> Defrag.rx_ok (received key sno sec []) ->
  length (Defrag.fragments c) = Defrag.IEEE80211_FRAGMENT_MAX -> (Defrag.fragment_next c < Defrag.IEEE80211_FRAGMENT_MAX)%nat ->
  exists fs, ieee80211_tx_h_fragment alloc false thr (packed (h ++ p) i) = Some (TX_CONTINUE, fs) /\
    forall ev0 evs, length (ev0 :: evs) = length fs -> Forall (prompt HZ (Defrag.jiffies ev0)) (ev0 :: evs) ->
    exists c' eff, Defrag.defrag_run HZ c (zip (ev0 :: evs) (received key sno sec <$> (frame <$> fs))) =
      Some (c', repeat Defrag.Queued (length evs) ++
        [Defrag.Continue (put_frame_control (h ++ p) (Z.lor (frame_control h) IEEE80211_FCTL_MOREFRAGS)) eff]).
Proof.
  intros Ha Hf Hb (Hctl & Hmc & Hprot) Hfresh Hn Hok Hlen Hnext; pose proof (per_fragm_pos _ _ _ _ Hf) as Hper.
  destruct (tx_fragment_spec alloc h p i thr Ha Hf) as (fs & c0 & cs & E & Efr & Ep & Hcs & _ & Hcount & _).
  destruct Hf as (_ & _ & H24 & Hh & _); exists fs; split; [done|]; intros ev0 evs Hev Hpr; rewrite Efr.
  assert (Hlf : length fs = length (c0 :: cs)) by (by rewrite <- (length_fmap frame fs), Efr, length_frag_frames).
  destruct (received_fragments h key sno sec Hb H24 Hh Hprot Hfresh c0 cs Hcs) as (f0 & gs & Eg & -> & Hfo & Hbody & Hlg & Hmore); [nia|].
  rewrite Eg; cbn [fmap list_fmap]; cbn [length] in *.
  assert (Hj : forall b k x, joins (received key sno sec (frag_hdr h b k ++ x))).
  { intros b k x; split; [done|]; unfold received; cbn [Defrag.rx_skb]; rewrite received_unicast, frag_hdr_fc by done.
    destruct (mf_preds _ _ (frag_fc_same b (frame_control h))) as (-> & _); done. }
  destruct (reassemble_list HZ c ev0 (received key sno sec (frag_hdr h false 0 ++ c0)) evs (received key sno sec <$> gs))
    as (c' & eff & Er); rewrite ?length_fmap; try done; [lia|by intros ->%fmap_nil_inv; destruct cs| | |].
  - intros k f Hk; apply list_lookup_fmap_Some in Hk as (g & -> & Hg); rewrite (Hmore k g Hg), Hlg; done.
  - constructor; [apply Hj|]; apply list.Forall_forall; intros f Hin; apply list_elem_of_fmap in Hin as (g & -> & Hg).
    apply list_elem_of_lookup in Hg as (k & Hk).
    destruct (frag_frames_lookup h 0 (c0 :: cs) (S k) g) as (x & _ & ->); [by rewrite Eg|apply Hj].
  - exists c', eff; rewrite Er, length_fmap, Hbody, Ep, <- first_hdr by done; unfold received; cbn [Defrag.rx_skb].
    rewrite <- app_assoc; do 4 f_equal; lia.
Qed.

(** Every fragment with its check sequence fits the threshold, carries at
    least a byte of payload, and there are no more of them than the payload
    fills. *)
Theorem fragments_fit alloc h p i thr : (forall k, alloc k = true) -> fragmentable h p i thr ->
  exists fs, ieee80211_tx_h_fragment alloc false thr (packed (h ++ p) i) = Some (TX_CONTINUE, fs) /\
    Forall (fun s => Z.of_nat (length h) < Z.of_nat (length (frame s)) /\ Z.of_nat (length (frame s)) + FCS_LEN <= thr) fs /\
    (2 <= length fs)%nat /\ (Z.of_nat (length fs) - 1) * per_fragm h thr < Z.of_nat (length p).
Proof.
  intros Ha Hf; pose proof Hf as (_ & _ & H24 & _).
  destruct (tx_fragment_spec alloc h p i thr Ha Hf) as (fs & c0 & cs & E & Efr & Ep & Hcs & Hsz & Hcount & _).
  assert (Hlf : length fs = length (c0 :: cs)) by (by rewrite <- (length_fmap frame fs), Efr, length_frag_frames).
  exists fs; split; [done|]; split; [|rewrite Hlf; split; [destruct cs; [done|cbn [length]; lia]|lia]].
  apply Forall_lookup; intros k s Hk; assert (Hg : (frame <$> fs) !! k = Some (frame s)) by (by rewrite list_lookup_fmap, Hk).
  rewrite Efr in Hg; destruct (frag_frames_lookup _ _ _ _ _ Hg) as (x & Hx & ->); pose proof (Forall_lookup_1 _ _ _ _ Hsz Hx) as Hxs.
  cbn beta in Hxs; unfold per_fragm in Hxs; rewrite length_app, length_frag_hdr by done; lia.
Qed.

(** The first fragment is cut by writing its length alone, so its tail stays
    where the whole frame ended: a message integrity code that the encryption
    puts at the tail lands there, and the fragment is sent with the first bytes
    of the next fragment, in the clear, where the code belongs. *)
Theorem first_fragment_mic_misplaced alloc h p i thr mic : (forall k, alloc k = true) -> fragmentable h p i thr ->
  per_fragm h thr + Z.of_nat (length mic) <= Z.of_nat (length p) ->
  exists s0 rest, ieee80211_tx_h_fragment alloc false thr (packed (h ++ p) i) = Some (TX_CONTINUE, s0 :: rest) /\
    frame (skb_put s0 mic) = frame s0 ++ take (length mic) (drop (Z.to_nat (per_fragm h thr)) p).
Proof.
  intros Ha Hf Hm; pose proof (per_fragm_pos _ _ _ _ Hf) as Hper; pose proof Hf as (_ & _ & H24 & _).
  destruct (tx_fragment_spec alloc h p i thr Ha Hf) as (fs & c0 & cs & E & _ & _ & _ & _ & _ & s0 & rest & -> & Ht & Hmem & Hl).
  set (per := per_fragm h thr) in *; exists s0, rest; split; [done|]; unfold frame, skb_put; cbn [mem len].
  assert (L : length (frag_hdr h false 0) = length h) by (by apply length_frag_hdr).
  assert (T : take (length (h ++ p)) (frag_hdr h false 0 ++ p) = frag_hdr h false 0 ++ p)
    by (apply take_ge; rewrite !length_app; lia).
  rewrite Hmem, Hl, Ht, T, <- L, take_app_le by (rewrite length_app; lia).
  rewrite !take_app_ge by lia; rewrite <- app_assoc; f_equal.
  replace (length (frag_hdr h false 0) + Z.to_nat per + length mic - length (frag_hdr h false 0))%nat
    with (Z.to_nat per + length mic)%nat by lia.
  replace (length (frag_hdr h false 0) + Z.to_nat per - length (frag_hdr h false 0))%nat with (Z.to_nat per) by lia.
  by rewrite take_take_drop.
Qed.

(** C33: the frames of an interface to a station are numbered per queue: the
    counter of its TID for QoS data, the counter of the interface for other
    frames, each a multiple of sixteen that grows by sixteen and wraps, so that
    no frame leaves with a fragment number or takes the number of another
    queue; nothing else of a frame changes. *)
Theorem frames_numbered c l : counters_ok c ->
  exists c' l', sequence_run c l = Some (c', l') /\ counters_ok c' /\ length l' = length l /\
    forall k s, l !! k = Some s -> exists s', l' !! k = Some s' /\ len s' = len s /\ tail s' = tail s /\
      mem s' = (if decide (counter_of (mem s) = NoCounter) then mem s
                else put_seq_ctrl (mem s) (u16 (counter c (counter_of (mem s)) + 16 * taken (counter_of (mem s)) (take k l)))).
Proof.
  revert c; induction l as [|s l IH]; intros c Hc; [by exists c, []|].
  destruct (sequence_spec c s Hc) as (c1 & s1 & E1 & Hc1 & Hn & Ht & Hm & Hcnt); destruct (IH c1 Hc1) as (c2 & l2 & E2 & Hc2 & Hl & H2).
  cbn [sequence_run]; rewrite E1; cbn [mbind option_bind]; rewrite E2; cbn [mbind option_bind].
  exists c2, (s1 :: l2); split; [done|]; split; [done|]; split; [cbn [length]; by rewrite Hl|]; intros [|k] s' Hk.
  - injection Hk as <-; exists s1; split_and!; try done; cbn [take taken]; unfold taken; cbn [filter list_filter length Z.of_nat].
    rewrite Hm, Z.mul_0_r, Z.add_0_r; unfold u16; by rewrite wrap_small by (by apply counter_u16).
  - destruct (H2 k s' Hk) as (s2 & Hk2 & Hn2 & Ht2 & Hm2); exists s2; split_and!; try done; rewrite Hm2.
    destruct (decide (counter_of (mem s') = NoCounter)) as [|Hne]; [done|]; f_equal.
    rewrite Hcnt; unfold taken; cbn [take]; rewrite filter_cons.
    destruct (decide (counter_of (mem s) = counter_of (mem s'))) as [He|He].
    + rewrite decide_True by done; cbn [length]; unfold u16, wrap; rewrite Zplus_mod_idemp_l; f_equal; lia.
    + by rewrite decide_False by naive_solver.
Qed.

(** ** Witnesses *)

Definition demo_info : tx_info := Info false false true true false false true [3; 2; 1; 0].
(** A QoS data frame of TID 5 to an access point, sequence number 7. *)
Definition demo_hdr : list Z :=
  [0x88; 0x01; 0; 0] ++ repeat 2 6 ++ repeat 4 6 ++ repeat 6 6 ++ [0x70; 0; 5; 0].
Definition demo_payload : list Z := (fun k => Z.of_nat k mod 251) <$> seq 0 500.

Lemma demo_fragmentable : fragmentable demo_hdr demo_payload demo_info 256.
Proof. unfold fragmentable; assert (length (demo_hdr ++ demo_payload) = 526%nat) as -> by (vm_compute; done);
  unfold FCS_LEN; do 2 (split; [done|]); split; [cbn; lia|]; split; [done|lia]. Qed.

Lemma demo_ok : bytes demo_hdr /\ unprotected_unicast demo_hdr /\ fresh_seq demo_hdr.
Proof. split; [unfold is_uint; repeat (constructor; [lia|]); constructor|]; split; [split_and!; reflexivity|reflexivity]. Qed.

Lemma demo_per : per_fragm demo_hdr 256 = 226.
Proof. reflexivity. Qed.

Lemma demo_length : Z.of_nat (length demo_payload) = 500.
Proof. reflexivity. Qed.

(** Three fragments, the last short. *)
Example demo_fragments :
  match ieee80211_tx_h_fragment (fun _ => true) false 256 (packed (demo_hdr ++ demo_payload) demo_info) with
  | Some (TX_CONTINUE, fs) => (fun s => (Z.of_nat (length (frame s)), frame_control (mem s), seq_ctrl (mem s), rate_idx (info s))) <$> fs
  | _ => []
  end = [(252, 0x588, 0x70, [3; -1; -1; -1]); (252, 0x588, 0x71, [3; -1; -1; -1]); (74, 0x188, 0x72, [3; 2; 1; 0])].
Proof. vm_compute; reflexivity. Qed.

(** The second allocation fails: what was made stays with the frame. *)
Example demo_no_memory :
  match ieee80211_tx_h_fragment (fun k => bool_decide (k < 1)%nat) false 256 (packed (demo_hdr ++ demo_payload) demo_info) with
  | Some (TX_DROP, fs) => Some ((fun s => Z.of_nat (length (frame s))) <$> fs)
  | _ => None
  end = Some [526; 252].
Proof. vm_compute; reflexivity. Qed.

Lemma fragments_fit_witness : exists fs,
  ieee80211_tx_h_fragment (fun _ => true) false 256 (packed (demo_hdr ++ demo_payload) demo_info) = Some (TX_CONTINUE, fs) /\
  (2 <= length fs <= 3)%nat.
Proof.
  destruct (fragments_fit (fun _ => true) demo_hdr demo_payload demo_info 256 (fun _ => eq_refl) demo_fragmentable) as (fs & E & _ & H2 & Hn).
  exists fs; split; [exact E|]; rewrite demo_per, demo_length in Hn; lia.
Defined.

Definition demo_mic : list Z := [0xaa; 0xbb; 0xcc; 0xdd; 0xee; 0xff; 0; 1].

Lemma first_fragment_mic_misplaced_witness : exists s0 rest,
  ieee80211_tx_h_fragment (fun _ => true) false 256 (packed (demo_hdr ++ demo_payload) demo_info) = Some (TX_CONTINUE, s0 :: rest) /\
  frame (skb_put s0 demo_mic) = frame s0 ++ [226; 227; 228; 229; 230; 231; 232; 233].
Proof.
  destruct (first_fragment_mic_misplaced (fun _ => true) demo_hdr demo_payload demo_info 256 demo_mic (fun _ => eq_refl) demo_fragmentable)
    as (s0 & rest & E & F); [rewrite demo_per, demo_length; cbn; lia|exists s0, rest; split; [exact E|rewrite F; reflexivity]].
Defined.

Definition demo_env (t : Z) : Defrag.env := Defrag.Env t true (fun _ => 0) true id.
Definition demo_cache : Defrag.cache :=
  Defrag.Cache (repeat (Defrag.Entry 0 0 0 0 0 [] false []) Defrag.IEEE80211_FRAGMENT_MAX) 0.

Lemma fragments_reassemble_witness : exists fs,
  ieee80211_tx_h_fragment (fun _ => true) false 256 (packed (demo_hdr ++ demo_payload) demo_info) = Some (TX_CONTINUE, fs) /\
  (length fs = 3%nat -> exists c' eff,
    Defrag.defrag_run 100 demo_cache (zip [demo_env 10; demo_env 11; demo_env 12] (received None 5 5 <$> (frame <$> fs))) =
    Some (c', [Defrag.Queued; Defrag.Queued;
      Defrag.Continue (put_frame_control (demo_hdr ++ demo_payload) 0x588) eff])).
Proof.
  destruct demo_ok as (Hb & Hu & Hs).
  destruct (fragments_reassemble (fun _ => true) demo_hdr demo_payload demo_info 256 100 demo_cache None 5 5%nat
    (fun _ => eq_refl) demo_fragmentable Hb Hu Hs) as (fs & E & H);
    [rewrite demo_per, demo_length; lia|split; [cbn; lia|done]|done|cbn; unfold Defrag.IEEE80211_FRAGMENT_MAX; lia|].
  exists fs; split; [exact E|]; intros Hl; apply (H (demo_env 10) [demo_env 11; demo_env 12]); [by rewrite Hl|].
  repeat (constructor; [split_and!; reflexivity|]); constructor.
Defined.

Definition demo_counters : counters := Counters 0xfff0 (repeat 0 5 ++ [0xfff0] ++ repeat 0 10).

Lemma frames_numbered_witness : exists c' l',
  sequence_run demo_counters (repeat (packed (demo_hdr ++ [1]) demo_info) 2) = Some (c', l') /\ counters_ok c' /\ length l' = 2%nat.
Proof.
  destruct (frames_numbered demo_counters (repeat (packed (demo_hdr ++ [1]) demo_info) 2)) as (c' & l' & E & Hc & Hl & _).
  - unfold counters_ok, number, is_uint; split; [by cbn|]; split; [done|]; repeat (constructor; [by cbn|]); constructor.
  - by exists c', l'.
Defined.

(** The wrap-around of a TID's counter. *)
Example demo_wraps :
  match sequence_run demo_counters (repeat (packed (demo_hdr ++ [1]) demo_info) 2) with
  | Some (c, l) => (tid_seq c !! 5%nat, (fun s => seq_ctrl (mem s)) <$> l)
  | None => (None, [])
  end = (Some 16, [0xfff0; 0]).
Proof. vm_compute; reflexivity. Qed.

End TxFrag.
