(* ===== verification/Tim.v ===== *)
(** * The traffic indication map of an access point

    [__bss_tim_set], [__bss_tim_clear] of [net/mac80211/sta_info.c] and
    [__ieee80211_beacon_add_tim] of [tx.c], which writes the map into a beacon.
    What a station reads there with [ieee80211_check_tim] is its own bit. *)

From S2P Require Import Prelude Ieee80211.

Module Tim.
Import Ieee80211.

Definition WLAN_EID_TIM : Z := 5.
Definition IEEE80211_MAX_AID : Z := 2007.
Definition IEEE80211_MAX_TIM_LEN : nat := 251.
(** [sizeof(ps->tim)] with 64-bit longs. *)
Definition TIM_SIZE : nat := 256.

Definition __bss_tim_set (tim : list Z) (id : Z) : list Z :=
  alter (fun b => u8 (Z.lor b (Z.shiftl 1 (id mod 8)))) (Z.to_nat (id / 8)) tim.
Definition __bss_tim_clear (tim : list Z) (id : Z) : list Z :=
  alter (fun b => u8 (Z.land b (Z.lnot (Z.shiftl 1 (id mod 8))))) (Z.to_nat (id / 8)) tim.

(** [bitmap_empty] on the bits up to [IEEE80211_MAX_AID]. *)
Definition bitmap_empty (tim : list Z) : bool :=
  forallb (fun i => tim.[i] =? 0) (seq 0 IEEE80211_MAX_TIM_LEN).

(** The two loops: the first byte in use, made even, and the last. *)
Definition tim_n1 (tim : list Z) : Z :=
  match List.find (fun i => negb (tim.[i] =? 0)) (seq 0 IEEE80211_MAX_TIM_LEN) with
  | Some i => Z.land (Z.of_nat i) 0xfe
  | None => 0
  end.
Definition tim_n2 (tim : list Z) (n1 : Z) : Z :=
  match List.find (fun i => negb (tim.[i] =? 0)) (rev (seq (Z.to_nat n1) (IEEE80211_MAX_TIM_LEN - Z.to_nat n1))) with
  | Some i => Z.of_nat i
  | None => n1
  end.

(** [dtim_count], [dtim_bc_mc] and the element, for a map, the number of
    stations in power save, the last count, the period and whether multicast
    frames are buffered. *)
Definition __ieee80211_beacon_add_tim (tim : list Z) (num_sta_ps dtim_count dtim_period : Z) (have_bc : bool) : Z * bool * list Z :=
  let have_bits := (num_sta_ps >? 0) && negb (bitmap_empty tim) in
  let dtim_count := if dtim_count =? 0 then dtim_period - 1 else dtim_count - 1 in
  let aid0 := if (dtim_count =? 0) && have_bc then 1 else 0 in
  let head := [u8 dtim_count; u8 dtim_period] in
  let n1 := tim_n1 tim in
  let n2 := tim_n2 tim n1 in
  (dtim_count, aid0 =? 1,
   if have_bits then
     [WLAN_EID_TIM; u8 (n2 - n1 + 4)] ++ head ++ [u8 (Z.lor n1 aid0)] ++ take (Z.to_nat (n2 - n1 + 1)) (drop (Z.to_nat n1) tim)
   else [WLAN_EID_TIM; 4] ++ head ++ [aid0; 0]).

(** The bit of an association id. *)
Definition tim_bit (tim : list Z) (id : Z) : bool := Z.testbit (tim.[Z.to_nat (id / 8)]) (id mod 8).

(** ** Lemmas: bits of the map *)

Lemma tim_byte_alter f tim i j : (i < length tim)%nat -> (alter f i tim).[j] = if decide (j = i) then f (tim.[i]) else tim.[j].
Proof.
  intros Hi; unfold byte_at; rewrite !nth_lookup; destruct (decide (j = i)) as [->|Hn].
  - destruct (lookup_lt_is_Some_2 tim i Hi) as [x Hx]; by rewrite list_lookup_alter_eq, Hx.
  - by rewrite list_lookup_alter_ne by done.
Qed.

Definition tim_ok (tim : list Z) : Prop := bytes tim /\ length tim = TIM_SIZE.

Lemma set_bit_spec b k j : 0 <= k < 8 -> 0 <= j < 8 -> Z.testbit (u8 (Z.lor b (Z.shiftl 1 k))) j = (j =? k) || Z.testbit b j.
Proof.
  intros Hk Hj; unfold u8, wrap; rewrite Z.mod_pow2_bits_low, Z.lor_spec, Z.shiftl_1_l, Z.pow2_bits_eqb by lia.
  by rewrite orb_comm, Z.eqb_sym.
Qed.

Lemma clear_bit_spec b k j : 0 <= k < 8 -> 0 <= j < 8 ->
  Z.testbit (u8 (Z.land b (Z.lnot (Z.shiftl 1 k)))) j = negb (j =? k) && Z.testbit b j.
Proof.
  intros Hk Hj; unfold u8, wrap; rewrite Z.mod_pow2_bits_low, Z.land_spec, Z.lnot_spec, Z.shiftl_1_l, Z.pow2_bits_eqb by lia.
  by rewrite andb_comm, Z.eqb_sym.
Qed.

Lemma alter_bytes f tim i : (forall b, is_u8 (f b)) -> bytes tim -> bytes (alter f i tim).
Proof.
  intros Hf Hb; apply Forall_lookup; intros j x Hj; destruct (decide (j = i)) as [->|Hn].
  - rewrite list_lookup_alter_eq in Hj; destruct (tim !! i); simplify_eq/=; apply Hf.
  - rewrite list_lookup_alter_ne in Hj by done; by apply (Forall_lookup_1 _ _ _ _ Hb Hj).
Qed.

Lemma tim_set_ok tim id : tim_ok tim -> tim_ok (__bss_tim_set tim id).
Proof. intros (Hb & Hl); split; [apply alter_bytes; [intros; apply u8_range|done]|unfold __bss_tim_set; by rewrite length_alter]. Qed.

Lemma tim_clear_ok tim id : tim_ok tim -> tim_ok (__bss_tim_clear tim id).
Proof. intros (Hb & Hl); split; [apply alter_bytes; [intros; apply u8_range|done]|unfold __bss_tim_clear; by rewrite length_alter]. Qed.

Lemma tim_index id : 0 <= id <= IEEE80211_MAX_AID -> (Z.to_nat (id / 8) < IEEE80211_MAX_TIM_LEN)%nat /\ 0 <= id mod 8 < 8.
Proof. unfold IEEE80211_MAX_AID, IEEE80211_MAX_TIM_LEN; intros H; arith. Qed.

Lemma same_bit id id' : 0 <= id -> 0 <= id' -> Z.to_nat (id' / 8) = Z.to_nat (id / 8) -> id' mod 8 = id mod 8 -> id' = id.
Proof. intros H H' E E'; arith. Qed.

Lemma tim_bit_set tim id id' : tim_ok tim -> 0 <= id <= IEEE80211_MAX_AID -> 0 <= id' <= IEEE80211_MAX_AID ->
  tim_bit (__bss_tim_set tim id) id' = bool_decide (id' = id) || tim_bit tim id'.
Proof.
  intros (_ & Hl) Hid Hid'; pose proof (tim_index _ Hid) as [Hi Hm]; pose proof (tim_index _ Hid') as [Hi' Hm'].
  unfold tim_bit, __bss_tim_set; rewrite tim_byte_alter by (rewrite Hl; unfold IEEE80211_MAX_TIM_LEN, TIM_SIZE in *; lia).
  destruct (decide _) as [E|E]; [rewrite set_bit_spec by done; rewrite E|by rewrite bool_decide_false by (by intros ->)].
  destruct (Z.eqb_spec (id' mod 8) (id mod 8)) as [Em|Em]; [|by rewrite bool_decide_false by (by intros ->)].
  by rewrite bool_decide_true by (apply same_bit; lia).
Qed.

Lemma tim_bit_clear tim id id' : tim_ok tim -> 0 <= id <= IEEE80211_MAX_AID -> 0 <= id' <= IEEE80211_MAX_AID ->
  tim_bit (__bss_tim_clear tim id) id' = negb (bool_decide (id' = id)) && tim_bit tim id'.
Proof.
  intros (_ & Hl) Hid Hid'; pose proof (tim_index _ Hid) as [Hi Hm]; pose proof (tim_index _ Hid') as [Hi' Hm'].
  unfold tim_bit, __bss_tim_clear; rewrite tim_byte_alter by (rewrite Hl; unfold IEEE80211_MAX_TIM_LEN, TIM_SIZE in *; lia).
  destruct (decide _) as [E|E]; [rewrite clear_bit_spec by done; rewrite E|by rewrite bool_decide_false by (by intros ->)].
  destruct (Z.eqb_spec (id' mod 8) (id mod 8)) as [Em|Em]; [|by rewrite bool_decide_false by (by intros ->)].
  by rewrite bool_decide_true by (apply same_bit; lia).
Qed.

(** ** Lemmas: the search for the bytes in use *)

Lemma find_first (f : nat -> bool) a n :
  match List.find f (seq a n) with
  | Some x => (a <= x < a + n)%nat /\ f x = true /\ forall y, (a <= y < x)%nat -> f y = false
  | None => forall y, (a <= y < a + n)%nat -> f y = false
  end.
Proof.
  revert a; induction n as [|n IH]; intros a; cbn [seq List.find]; [lia|]; destruct (f a) eqn:E; [split; [lia|split; [done|lia]]|].
  specialize (IH (S a)); destruct (List.find f (seq (S a) n)) as [x|].
  - destruct IH as (Hx & Hf & Hy); split; [lia|split; [done|]]; intros y Hya; destruct (decide (y = a)) as [->|]; [done|apply Hy; lia].
  - intros y Hy; destruct (decide (y = a)) as [->|]; [done|apply IH; lia].
Qed.

Lemma find_last (f : nat -> bool) a n :
  match List.find f (rev (seq a n)) with
  | Some x => (a <= x < a + n)%nat /\ f x = true /\ forall y, (x < y < a + n)%nat -> f y = false
  | None => forall y, (a <= y < a + n)%nat -> f y = false
  end.
Proof.
  induction n as [|n IH]; [cbn; lia|]; rewrite seq_S, rev_app_distr; cbn [rev app List.find].
  destruct (f (a + n)%nat) eqn:E; [split; [lia|split; [done|lia]]|]; destruct (List.find f (rev (seq a n))) as [x|].
  - destruct IH as (Hx & Hf & Hy); split; [lia|split; [done|]]; intros y Hya; destruct (decide (y = a + n)%nat) as [->|]; [done|apply Hy; lia].
  - intros y Hy; destruct (decide (y = a + n)%nat) as [->|]; [done|apply IH; lia].
Qed.

Lemma land_fe x : 0 <= x < 256 -> Z.land x 0xfe = x - x mod 2.
Proof.
  intros Hx; replace 0xfe with (Z.land 255 (Z.lnot (Z.ones 1))) by reflexivity.
  rewrite Z.land_assoc; change 255 with (Z.ones 8); rewrite Z.land_ones, Z.mod_small by lia.
  rewrite <- Z.ldiff_land, Z.ldiff_ones_r, Z.shiftr_div_pow2, Z.shiftl_mul_pow2 by lia; arith.
Qed.

(** What the search for the first and the last byte finds. *)
Lemma tim_range tim : bitmap_empty tim = false -> exists a b : nat, tim_n1 tim = Z.of_nat a /\ tim_n2 tim (tim_n1 tim) = Z.of_nat b /\
  (a <= b < IEEE80211_MAX_TIM_LEN)%nat /\ Z.land (Z.of_nat a) 0xfe = Z.of_nat a /\
  forall j, (j < IEEE80211_MAX_TIM_LEN)%nat -> (j < a \/ b < j)%nat -> tim.[j] = 0.
Proof.
  intros He; unfold tim_n1; pose proof (find_first (fun i => negb (tim.[i] =? 0)) 0 IEEE80211_MAX_TIM_LEN) as H1.
  destruct (List.find _ (seq 0 _)) as [x|].
  2: { exfalso; apply not_true_iff_false in He; apply He, forallb_forall; intros y Hy; apply in_seq in Hy; specialize (H1 y ltac:(lia)).
       by apply negb_false_iff in H1. }
  destruct H1 as (Hx & Hfx & Hlow); unfold IEEE80211_MAX_TIM_LEN in *.
  assert (Ea : Z.land (Z.of_nat x) 0xfe = Z.of_nat (x - x mod 2)) by (rewrite land_fe by lia; rewrite Nat2Z.inj_sub, Nat2Z.inj_mod by apply Nat.Div0.mod_le; done).
  rewrite Ea; set (a := (x - x mod 2)%nat) in *; assert (Hax : (a <= x)%nat) by (unfold a; lia).
  unfold tim_n2; rewrite Nat2Z.id; pose proof (find_last (fun i => negb (tim.[i] =? 0)) a (251 - a)) as H2.
  destruct (List.find _ (rev _)) as [b|]; [|specialize (H2 x ltac:(lia)); cbn beta in H2; congruence].
  destruct H2 as (Hb & Hfb & Hhi); exists a, b; split; [done|]; split; [done|]; split; [lia|]; split.
  - rewrite <- Ea, <- Z.land_assoc, Z.land_diag; done.
  - intros j Hj [Hja|Hjb]; [specialize (Hlow j ltac:(lia))|specialize (Hhi j ltac:(lia))].
    + apply negb_false_iff, Z.eqb_eq in Hlow; done.
    + apply negb_false_iff, Z.eqb_eq in Hhi; done.
Qed.

Lemma bitmap_empty_bit tim id : bitmap_empty tim = true -> 0 <= id <= IEEE80211_MAX_AID -> tim_bit tim id = false.
Proof.
  intros He Hid; pose proof (tim_index _ Hid) as [Hi _]; unfold tim_bit.
  apply forallb_forall with (x := Z.to_nat (id / 8)) in He; [|apply in_seq; lia]; apply Z.eqb_eq in He; rewrite He; apply Z.testbit_0_l.
Qed.

(** What a station reads in an element of a given control byte and map. *)
Lemma check_element c p ctl chunk id : bytes (c :: p :: ctl :: chunk) -> (1 <= length chunk)%nat ->
  Z.land ctl 0xfe + Z.of_nat (length chunk) <= 251 -> 0 <= id <= IEEE80211_MAX_AID ->
  let n1 := Z.land ctl 0xfe in
  ieee80211_check_tim (Some (c :: p :: ctl :: chunk)) (Z.of_nat (length chunk) + 3) id =
  Some ((n1 <=? id / 8) && (id / 8 <=? n1 + Z.of_nat (length chunk) - 1) && Z.testbit (chunk.[Z.to_nat (id / 8 - n1)]) (id mod 8)).
Proof.
  intros Hb Hc Hn Hid n1; assert (Hn1 : 0 <= n1).
  { apply Z.land_nonneg; right; lia. }
  assert (E2 : (c :: p :: ctl :: chunk).[2] = ctl) by done.
  rewrite check_tim_spec; rewrite ?E2; unfold sizeof_ieee80211_tim_ie, IEEE80211_MAX_AID in *; fold n1; cbn [length]; try lia;
    [|done|unfold is_uint; lia].
  unfold tim_bitmap_bit; rewrite E2; fold n1; f_equal; unfold off_virtual_map; f_equal; f_equal; lia.
Qed.

(** The element of a beacon, read by a station. *)
Lemma beacon_element tim num_sta_ps dtim_count dtim_period have_bc id :
  tim_ok tim -> 0 <= id <= IEEE80211_MAX_AID ->
  let el := (__ieee80211_beacon_add_tim tim num_sta_ps dtim_count dtim_period have_bc).2 in
  el.[0] = WLAN_EID_TIM /\ Z.of_nat (length el) = el.[1] + 2 /\
  ieee80211_check_tim (Some (drop 2 el)) (el.[1]) id = Some ((num_sta_ps >? 0) && tim_bit tim id).
Proof.
  intros (Hb & Hl) Hid; unfold __ieee80211_beacon_add_tim; set (cnt := if dtim_count =? 0 then _ else _).
  set (aid0 := if _ && _ then 1 else 0); assert (Ha : is_u8 aid0 /\ Z.land aid0 0xfe = 0) by (unfold aid0; by destruct (_ && _)).
  cbn [snd]; destruct Ha as [Ha8 Ha]; destruct (_ && negb _) eqn:Eh.
  - apply andb_true_iff in Eh as [Hn He]; apply negb_true_iff in He; rewrite Hn; cbn [andb].
    destruct (tim_range tim He) as (a & b & E1 & E2 & Hab & Hev & Hz); rewrite E2, E1; clear E1 E2.
    unfold IEEE80211_MAX_TIM_LEN in *; set (chunk := take _ (drop _ tim)).
    assert (Lc : length chunk = (b - a + 1)%nat) by (unfold chunk; rewrite length_take, length_drop, Hl; unfold TIM_SIZE; lia).
    assert (Eu : u8 (Z.of_nat b - Z.of_nat a + 4) = Z.of_nat (length chunk) + 3) by (rewrite Lc; unfold u8; rewrite wrap_small; unfold is_uint; lia).
    set (ctl := u8 (Z.lor (Z.of_nat a) aid0)).
    assert (Efe : Z.land ctl 254 = Z.of_nat a).
    { unfold ctl, u8; rewrite wrap_small by (apply is_uint_lor; [lia|unfold is_uint; lia|done]).
      by rewrite Z.land_lor_distr_l, Hev, Ha, Z.lor_0_r. }
    cbn [app]; change (byte_at (_ :: ?x :: ?l) 1) with x; rewrite Eu; split; [done|]; split; [cbn [length]; lia|]; cbn [drop].
    pose proof (tim_index _ Hid) as [Hi Hm]; unfold IEEE80211_MAX_TIM_LEN in *; assert (0 <= id / 8) by (apply Z.div_pos; lia).
    rewrite check_element; rewrite ?Efe; [|by repeat apply Forall_cons_2; try apply u8_range; apply Forall_take, Forall_drop|lia..|done].
    f_equal; unfold tim_bit; destruct (Z.leb_spec (Z.of_nat a) (id / 8)), (Z.leb_spec (id / 8) (Z.of_nat a + Z.of_nat (length chunk) - 1)); cbn [andb].
    + unfold chunk; rewrite byte_at_take, byte_at_drop by lia; do 2 f_equal; lia.
    + rewrite Hz by lia; by rewrite Z.testbit_0_l.
    + rewrite Hz by lia; by rewrite Z.testbit_0_l.
    + rewrite Hz by lia; by rewrite Z.testbit_0_l.
  - assert (E : (num_sta_ps >? 0) && tim_bit tim id = false).
    { destruct (num_sta_ps >? 0); cbn [andb] in *; [|done]; apply bitmap_empty_bit; [by apply negb_false_iff|done]. }
    rewrite E; cbn [app]; split; [done|]; split; [done|]; cbn [drop]; change (byte_at (_ :: ?x :: ?l) 1) with x.
    rewrite (check_element _ _ aid0 [0] id); rewrite ?Ha; [|repeat apply Forall_cons_2; try apply u8_range; try done|cbn [length]; lia..|done].
    f_equal; apply andb_false_iff; right; unfold byte_at; by destruct (Z.to_nat _) as [|[]]; cbn [nth]; rewrite Z.testbit_0_l.
Qed.

(** ** Properties *)

(** C32: whatever the map, the count and the period, the element that the
    beacon carries tells each station with an association id, read with
    [ieee80211_check_tim], the bit of that station, and no station has a bit
    when none is in power save. *)
Theorem beacon_tim_roundtrip tim num_sta_ps dtim_count dtim_period have_bc id :
  tim_ok tim -> 0 <= id <= IEEE80211_MAX_AID ->
  let el := (__ieee80211_beacon_add_tim tim num_sta_ps dtim_count dtim_period have_bc).2 in
  el.[0] = WLAN_EID_TIM /\ Z.of_nat (length el) = el.[1] + 2 /\
  ieee80211_check_tim (Some (drop 2 el)) (el.[1]) id = Some ((num_sta_ps >? 0) && tim_bit tim id).
Proof. apply beacon_element. Qed.

(** ** Witnesses *)

Definition demo_tim : list Z := __bss_tim_set (__bss_tim_set (repeat 0 TIM_SIZE) 300) 77.

(** Stations 77 and 300 asleep, multicast frames at the DTIM: the map of the
    element goes from byte 8 to byte 37. *)
Example demo_element : __ieee80211_beacon_add_tim demo_tim 2 1 3 true =
  (0, true, [5; 33; 0; 3; 9; 0; 32] ++ repeat 0 27 ++ [16]).
Proof. vm_compute; reflexivity. Qed.

Lemma beacon_tim_roundtrip_witness :
  ieee80211_check_tim (Some (drop 2 (__ieee80211_beacon_add_tim demo_tim 2 1 3 true).2)) 33 300 = Some true /\
  ieee80211_check_tim (Some (drop 2 (__ieee80211_beacon_add_tim demo_tim 2 1 3 true).2)) 33 301 = Some false.
Proof.
  assert (Hok : tim_ok demo_tim) by (split; [by_eval|reflexivity]).
  split.
  - apply (beacon_tim_roundtrip demo_tim 2 1 3 true 300 Hok); unfold IEEE80211_MAX_AID; lia.
  - apply (beacon_tim_roundtrip demo_tim 2 1 3 true 301 Hok); unfold IEEE80211_MAX_AID; lia.
Defined.
End Tim.
