(* ===== verification/PsBuffer.v ===== *)
(** * Frames buffered for sleeping stations

    An access point keeps the frames of stations in power save: per station and
    access category those sent while it sleeps and those the hardware filtered,
    per interface the multicast frames, and it announces them in the traffic
    indication map.  [net/mac80211/tx.c] fills the buffers, [sta_info.c] empties
    them when a station polls, wakes up or lets the frames expire, [status.c]
    takes filtered frames back.  A socket buffer has an address, [ptr]; the
    events say what happens to it when it leaves the buffers. *)

From stdpp Require Import sets.
From S2P Require Import Prelude Ieee80211 Frame Reorder Tim.

Module PsBuffer.
Import Ieee80211 Frame.

Definition TOTAL_MAX_TX_BUFFER : Z := 512.
Definition STA_MAX_TX_BUFFER : nat := 64.
Definition AP_MAX_BC_BUFFER : nat := 128.
Definition IEEE80211_NUM_TIDS : Z := 16.
Definition IEEE80211_QOS_CTL_EOSP : Z := 0x0010.
Definition IEEE80211_AC_BE : nat := 2.

(** [IEEE80211_AC_VO] to [IEEE80211_AC_BK]. *)
Definition acs : list nat := [0; 1; 2; 3]%nat.

(** The control block of a frame, as far as it is used here: [mapping] is the
    queue, [stamp] is [control.jiffies]. *)
Record sk_buff := Skb {
  ptr : nat; data : list Z; mapping : nat; stamp : Z;
  no_ps_buffer : bool; send_after_dtim : bool; status_eosp : bool; req_tx_status : bool;
  need_txprocessing : bool; retransmission : bool; retried : bool }.

(** [struct ps_data] of an access point. *)
Record ps_data := Ps { tim : list Z; bc_buf : list sk_buff; num_sta_ps : Z; dtim_count : Z; dtim_bc_mc : bool }.

(** [struct sta_info]; [sta_bss] is the access point of a station of an AP or
    AP_VLAN interface. *)
Record sta_info := Sta {
  sta_bss : option nat; aid : Z; uapsd_queues : Z; max_sp : Z; listen_interval : Z; beacon_int : Z;
  dead : bool; ps_sta : bool; ps_driver : bool; sp : bool; pspoll : bool; uapsd : bool; clear_ps_filt : bool;
  driver_buffered_tids : Z; tx_filtered : list (list sk_buff); ps_tx_buf : list (list sk_buff);
  tx_filtered_count : Z }.

(** [struct ieee80211_local]: the counter, the access points among the
    interfaces and the stations. *)
Record local := Local { total_ps_buffered : Z; aps : list ps_data; stas : list sta_info }.

Record hw_conf := Hw { ap_link_ps : bool; host_broadcast_ps_buffering : bool; HZ : Z }.

(** What leaves the buffers: a frame freed, frames queued to be sent, a frame
    that goes on through the transmit handlers; the response to a poll without
    frames, and what the driver is told. *)
Inductive event :=
| Freed (s : sk_buff)
| Pending (l : list sk_buff)
| Transmit (s : sk_buff)
| NullResponse (tid : Z)
| AllowBuffered (tids num : Z) (more_data : bool)
| ReleaseBuffered (tids n : Z) (more_data : bool)
| NotifyAwake
| NotifySleep
| BeaconTim (a : nat) (el : list Z)
| UnblockWork.

(** ** Updates *)

Definition set_total (l : local) (n : Z) : local := Local n (aps l) (stas l).
Definition set_ap (l : local) (a : nat) (p : ps_data) : local := Local (total_ps_buffered l) (<[a := p]> (aps l)) (stas l).
Definition set_sta (l : local) (i : nat) (s : sta_info) : local := Local (total_ps_buffered l) (aps l) (<[i := s]> (stas l)).

Definition set_tim (p : ps_data) (t : list Z) : ps_data := Ps t (bc_buf p) (num_sta_ps p) (dtim_count p) (dtim_bc_mc p).
Definition set_bc (p : ps_data) (q : list sk_buff) : ps_data := Ps (tim p) q (num_sta_ps p) (dtim_count p) (dtim_bc_mc p).
Definition add_sleeper (p : ps_data) (n : Z) : ps_data := Ps (tim p) (bc_buf p) (s32 (num_sta_ps p + n)) (dtim_count p) (dtim_bc_mc p).

Definition set_bufs (s : sta_info) (flt ps : list (list sk_buff)) : sta_info :=
  Sta (sta_bss s) (aid s) (uapsd_queues s) (max_sp s) (listen_interval s) (beacon_int s) (dead s) (ps_sta s) (ps_driver s) (sp s)
    (pspoll s) (uapsd s) (clear_ps_filt s) (driver_buffered_tids s) flt ps (tx_filtered_count s).
Definition set_flags (s : sta_info) (dd ps drv period poll ua : bool) : sta_info :=
  Sta (sta_bss s) (aid s) (uapsd_queues s) (max_sp s) (listen_interval s) (beacon_int s) dd ps drv period poll ua
    (clear_ps_filt s) (driver_buffered_tids s) (tx_filtered s) (ps_tx_buf s) (tx_filtered_count s).
Definition set_ps_sta (s : sta_info) (b : bool) : sta_info := set_flags s (dead s) b (ps_driver s) (sp s) (pspoll s) (uapsd s).
Definition set_ps_driver (s : sta_info) (b : bool) : sta_info := set_flags s (dead s) (ps_sta s) b (sp s) (pspoll s) (uapsd s).
Definition set_sp (s : sta_info) (b : bool) : sta_info := set_flags s (dead s) (ps_sta s) (ps_driver s) b (pspoll s) (uapsd s).
Definition set_tids (s : sta_info) (t : Z) : sta_info :=
  Sta (sta_bss s) (aid s) (uapsd_queues s) (max_sp s) (listen_interval s) (beacon_int s) (dead s) (ps_sta s) (ps_driver s) (sp s)
    (pspoll s) (uapsd s) (clear_ps_filt s) t (tx_filtered s) (ps_tx_buf s) (tx_filtered_count s).
Definition count_filtered (s : sta_info) : sta_info :=
  Sta (sta_bss s) (aid s) (uapsd_queues s) (max_sp s) (listen_interval s) (beacon_int s) (dead s) (ps_sta s) (ps_driver s) (sp s)
    (pspoll s) (uapsd s) true (driver_buffered_tids s) (tx_filtered s) (ps_tx_buf s) (u64 (tx_filtered_count s + 1)).

Definition set_data (s : sk_buff) (d : list Z) : sk_buff :=
  Skb (ptr s) d (mapping s) (stamp s) (no_ps_buffer s) (send_after_dtim s) (status_eosp s) (req_tx_status s)
    (need_txprocessing s) (retransmission s) (retried s).
Definition set_no_ps_buffer (s : sk_buff) : sk_buff :=
  Skb (ptr s) (data s) (mapping s) (stamp s) true (send_after_dtim s) (status_eosp s) (req_tx_status s)
    (need_txprocessing s) (retransmission s) (retried s).

Definition queue (bufs : list (list sk_buff)) (ac : nat) : list sk_buff := default [] (bufs !! ac).
Definition map_fc (f : Z -> Z) (d : list Z) : list Z := put_le16 (f (frame_control d)) ++ drop 2 d.

Definition is_empty {A} (q : list A) : bool := match q with [] => true | _ => false end.

(** ** The traffic indication map *)

Definition ieee80211_tids_for_ac (ac : nat) : Z :=
  match ac with
  | 0%nat => Z.lor (Z.shiftl 1 6) (Z.shiftl 1 7)
  | 1%nat => Z.lor (Z.shiftl 1 4) (Z.shiftl 1 5)
  | 2%nat => Z.lor (Z.shiftl 1 0) (Z.shiftl 1 3)
  | 3%nat => Z.lor (Z.shiftl 1 1) (Z.shiftl 1 2)
  | _ => 0
  end.

(** The categories that are left out when not all are delivery-enabled. *)
Definition ignored_acs (uapsd_queues : Z) : Z := if uapsd_queues =? 15 then 0 else uapsd_queues.

(** The loop over the categories. *)
Fixpoint indicate_loop (s : sta_info) (ignore : Z) (l : list nat) : bool :=
  match l with
  | [] => false
  | ac :: l =>
      if Z.testbit ignore (Z.of_nat ac) then indicate_loop s ignore l
      else if negb (is_empty (queue (tx_filtered s) ac)) || negb (is_empty (queue (ps_tx_buf s) ac)) then true
      else negb (Z.land (driver_buffered_tids s) (ieee80211_tids_for_ac ac) =? 0) || indicate_loop s ignore l
  end.

Definition indicate_tim (s : sta_info) : bool :=
  if dead s then false else indicate_loop s (ignored_acs (uapsd_queues s)) acs.

Section Hw.
Context (hw : hw_conf).

Definition sta_info_recalc_tim (l : local) (i : nat) : local :=
  match stas l !! i with
  | Some s =>
      match sta_bss s with
      | Some a =>
          if ap_link_ps hw then l
          else
            match aps l !! a with
            | Some p => set_ap l a (set_tim p ((if indicate_tim s then Tim.__bss_tim_set else Tim.__bss_tim_clear) (tim p) (aid s)))
            | None => l
            end
      | None => l
      end
  | None => l
  end.

(** ** Buffering *)

(** One interface and one station of [purge_old_ps_buffers]: what is left, what
    is counted, what is freed. *)
Definition purge_ap (p : ps_data) : ps_data * Z * list event :=
  match bc_buf p with
  | s :: q => (set_bc p q, Z.of_nat (length q), [Freed s])
  | [] => (p, 0, [])
  end.

Fixpoint purge_acs (bufs : list (list sk_buff)) (l : list nat) : list (list sk_buff) * Z * list event :=
  match l with
  | [] => (bufs, 0, [])
  | ac :: l =>
      match queue bufs ac with
      | s :: q => (<[ac := q]> bufs, Z.of_nat (length q), [Freed s])
      | [] => purge_acs bufs l
      end
  end.

Definition purge_sta (s : sta_info) : sta_info * Z * list event :=
  if dead s then (s, 0, [])
  else let '(b, n, e) := purge_acs (ps_tx_buf s) (rev acs) in (set_bufs s (tx_filtered s) b, n, e).

(** A loop over a list that changes its elements, counts and emits events. *)
Fixpoint sweep {A} (f : A -> A * Z * list event) (l : list A) : list A * Z * list event :=
  match l with
  | [] => ([], 0, [])
  | x :: l => let '(x, n, e) := f x in let '(l, m, e') := sweep f l in (x :: l, n + m, e ++ e')
  end.

Definition purge_old_ps_buffers (l : local) : local * list event :=
  let '(aps, n, e) := sweep purge_ap (aps l) in
  let '(stas, m, e') := sweep purge_sta (stas l) in
  (Local (n + m) aps stas, e ++ e').

Definition purge_if_full (l : local) : local * list event :=
  if TOTAL_MAX_TX_BUFFER <=? total_ps_buffered l then purge_old_ps_buffers l else (l, []).

(** Room for a frame in a queue of at most [max] frames: the oldest goes. *)
Definition make_room (max : nat) (q : list sk_buff) : list sk_buff * Z * list event :=
  match q with
  | s :: q' => if (max <=? length q)%nat then (q', 0, [Freed s]) else (q, 1, [])
  | [] => (q, 1, [])
  end.

Inductive verdict := Continue (s : sk_buff) | Queued.

(** [bss] is the access point of an AP or AP_VLAN interface. *)
Definition ieee80211_tx_h_multicast_ps_buf (bss : option nat) (l : local) (skb : sk_buff) : option (local * verdict * list event) :=
  match bss with
  | None => Some (l, Continue skb, [])
  | Some a =>
      p ← aps l !! a;
      if ieee80211_has_order (frame_control (data skb)) then Some (l, Continue skb, [])
      else if num_sta_ps p =? 0 then Some (l, Continue skb, [])
      else
        let skb := Skb (ptr skb) (data skb) (mapping skb) (stamp skb) (no_ps_buffer skb) true (status_eosp skb) (req_tx_status skb)
          (need_txprocessing skb) (retransmission skb) (retried skb) in
        if negb (host_broadcast_ps_buffering hw) then Some (l, Continue skb, [])
        else
          let '(l, e) := purge_if_full l in
          p ← aps l !! a;
          let '(q, n, e') := make_room AP_MAX_BC_BUFFER (bc_buf p) in
          Some (set_ap (set_total l (total_ps_buffered l + n)) a (set_bc p (q ++ [skb])), Queued, e ++ e')
  end.

(** [None] is an index outside the queues. *)
Definition ieee80211_tx_h_unicast_ps_buf (jiffies : Z) (sta : option nat) (l : local) (skb : sk_buff) :
    option (local * verdict * list event) :=
  match sta with
  | None => Some (l, Continue skb, [])
  | Some i =>
      s ← stas l !! i;
      if (ps_sta s || ps_driver s) && negb (no_ps_buffer skb) then
        let ac := mapping skb in
        let fc := frame_control (data skb) in
        if ieee80211_is_mgmt fc && negb (ieee80211_is_deauth fc) && negb (ieee80211_is_disassoc fc) && negb (ieee80211_is_action fc)
        then Some (l, Continue (set_no_ps_buffer skb), [])
        else
          let '(l, e) := purge_if_full l in
          s ← stas l !! i;
          q ← ps_tx_buf s !! ac;
          let '(q, n, e') := make_room STA_MAX_TX_BUFFER q in
          let skb := Skb (ptr skb) (data skb) (mapping skb) jiffies (no_ps_buffer skb) (send_after_dtim skb) (status_eosp skb)
            (req_tx_status skb) true (retransmission skb) (retried skb) in
          let l := set_sta (set_total l (total_ps_buffered l + n)) i (set_bufs s (tx_filtered s) (<[ac := q ++ [skb]]> (ps_tx_buf s))) in
          Some (sta_info_recalc_tim l i, Queued, e ++ e')
      else Some (l, Continue skb, [])
  end.

Definition ieee80211_tx_h_ps_buf (jiffies : Z) (ps_buffered unicast : bool) (sta bss : option nat) (l : local) (skb : sk_buff) :
    option (local * verdict * list event) :=
  if ps_buffered then Some (l, Continue skb, [])
  else if unicast then ieee80211_tx_h_unicast_ps_buf jiffies sta l skb
  else ieee80211_tx_h_multicast_ps_buf bss l skb.

(** A frame the hardware filtered: the header without the bits of an earlier
    release, and its category. *)
Definition clear_qos_eosp (d : list Z) : list Z :=
  alter (fun q => if Z.land q IEEE80211_QOS_CTL_EOSP =? 0 then q else Z.land q (Z.lnot IEEE80211_QOS_CTL_EOSP))
    (ieee80211_get_qos_ctl d) d.

Definition ieee802_1d_to_ac : list nat := [2; 3; 3; 2; 1; 1; 0; 0]%nat.

Definition filtered_frame (jiffies : Z) (skb : sk_buff) : sk_buff * nat :=
  let d := data skb in
  let d := if ieee80211_has_moredata (frame_control d) then map_fc (fun fc => Z.land fc (Z.lnot IEEE80211_FCTL_MOREDATA)) d else d in
  let '(d, ac) :=
    if ieee80211_is_data_qos (frame_control d) then
      let tid := Z.land (d.[ieee80211_get_qos_ctl d]) IEEE80211_QOS_CTL_TID_MASK in
      (clear_qos_eosp d, default 0%nat (ieee802_1d_to_ac !! Z.to_nat (Z.land tid 7)))
    else (d, IEEE80211_AC_BE) in
  (Skb (ptr skb) d (mapping skb) jiffies false false false (req_tx_status skb) true true (retried skb), ac).

Definition ieee80211_handle_filtered_frame (jiffies : Z) (l : local) (i : nat) (skb : sk_buff) : option (local * list event) :=
  s ← stas l !! i;
  let '(skb, ac) := filtered_frame jiffies skb in
  let s := count_filtered s in
  let l := set_sta l i s in
  if ps_sta s && (length (queue (tx_filtered s) ac) <? STA_MAX_TX_BUFFER)%nat then
    let l := set_sta l i (set_bufs s (<[ac := queue (tx_filtered s) ac ++ [skb]]> (tx_filtered s)) (ps_tx_buf s)) in
    Some (sta_info_recalc_tim l i, [])
  else if negb (ps_sta s) && negb (retried skb) then
    Some (l, [Pending [Skb (ptr skb) (data skb) (mapping skb) (stamp skb) (no_ps_buffer skb) (send_after_dtim skb) (status_eosp skb)
                        (req_tx_status skb) (need_txprocessing skb) (retransmission skb) true]])
  else Some (l, [Freed skb]).

(** ** Delivery *)

Definition clear_sta_ps_flags (l : local) (i : nat) : local :=
  match stas l !! i with
  | Some s =>
      match sta_bss s with
      | Some a =>
          let l := match aps l !! a with
            | Some p => if ps_sta s then set_ap l a (add_sleeper p (-1)) else l
            | None => l
            end in
          set_sta l i (set_ps_sta (set_ps_driver s false) false)
      | None => l
      end
  | None => l
  end.

(** The queues of a station, spliced category by category. *)
Definition spliced (flt ps : list (list sk_buff)) : list sk_buff := concat ((fun ac => queue flt ac ++ queue ps ac) <$> acs).

Definition no_frames : list (list sk_buff) := [[]; []; []; []].

Definition ieee80211_sta_ps_deliver_wakeup (l : local) (i : nat) : option (local * list event) :=
  s ← stas l !! i;
  let pending := spliced (tx_filtered s) (ps_tx_buf s) in
  let buffered := length (concat (ps_tx_buf s)) in
  let l := set_sta l i (set_bufs (set_tids (set_sp s false) 0) no_frames no_frames) in
  let l := clear_sta_ps_flags l i in
  let l := set_total l (total_ps_buffered l - Z.of_nat buffered) in
  Some (sta_info_recalc_tim l i, (if ap_link_ps hw then [] else [NotifyAwake]) ++ [Pending pending]).

Inductive release_type := PSPOLL | UAPSD.

#[global] Instance release_type_eq_dec : EqDecision release_type.
Proof. solve_decision. Defined.

(** Up to [n] frames, filtered ones first; the number from [ps_tx_buf]. *)
Fixpoint dequeue_frames (n : nat) (flt ps : list sk_buff) : list sk_buff * nat * list sk_buff * list sk_buff :=
  match n with
  | O => ([], 0%nat, flt, ps)
  | S n =>
      match flt, ps with
      | s :: flt, _ => let '(l, k, flt, ps) := dequeue_frames n flt ps in (s :: l, k, flt, ps)
      | [], s :: ps => let '(l, k, flt, ps) := dequeue_frames n [] ps in (s :: l, S k, flt, ps)
      | [], [] => ([], 0%nat, [], [])
      end
  end.

(** The state of the loop over the categories. *)
Record response := Resp {
  found : bool; more_data : bool; release_tids : Z; frames : list sk_buff; taken : Z;
  r_filtered : list (list sk_buff); r_ps : list (list sk_buff) }.

Definition hweight16 (x : Z) : Z := Z.of_nat (length (filter (fun b => Z.testbit x (Z.of_nat b) = true) (seq 0 16))).

(** [ffs], from one; zero when no bit is set. *)
Definition ffs (x : Z) : Z :=
  match filter (fun b => Z.testbit x (Z.of_nat b) = true) (seq 0 32) with b :: _ => Z.of_nat b + 1 | [] => 0 end.

(** The body of the loop that looks for frames. *)
Definition response_fetch (dtids : Z) (n_frames : nat) (ac : nat) (r : response) : response :=
  let tids := Z.land dtids (ieee80211_tids_for_ac ac) in
  if negb (tids =? 0) then Resp true (more_data r) tids (frames r) (taken r) (r_filtered r) (r_ps r)
  else
    let '(fs, k, flt, ps) := dequeue_frames n_frames (queue (r_filtered r) ac) (queue (r_ps r) ac) in
    Resp (negb (is_empty fs)) (more_data r) 0 (frames r ++ fs) (taken r + Z.of_nat k)
      (<[ac := flt]> (r_filtered r)) (<[ac := ps]> (r_ps r)).

Fixpoint response_acs (reason : release_type) (dtids ignored : Z) (n_frames : nat) (l : list nat) (r : response) : response :=
  match l with
  | [] => r
  | ac :: l =>
      if Z.testbit ignored (Z.of_nat ac) then response_acs reason dtids ignored n_frames l r
      else
        let r' := if found r then r else response_fetch dtids n_frames ac r in
        if negb (found r) && bool_decide (reason = PSPOLL) && (1 <? hweight16 (release_tids r')) then
          Resp (found r') true (Z.shiftl 1 (ffs (release_tids r') - 1)) (frames r') (taken r') (r_filtered r') (r_ps r')
        else if negb (is_empty (queue (r_filtered r') ac)) || negb (is_empty (queue (r_ps r') ac)) then
          Resp (found r') true (release_tids r') (frames r') (taken r') (r_filtered r') (r_ps r')
        else response_acs reason dtids ignored n_frames l r'
  end.

(** The headers of the frames sent, the last ending the service period, and the
    TIDs they belong to. *)
Fixpoint release_frames (reason : release_type) (more : bool) (l : list sk_buff) : list sk_buff * Z :=
  match l with
  | [] => ([], 0)
  | s :: l =>
      let last := is_empty l in
      let d := map_fc (fun fc => if more || negb last then Z.lor fc IEEE80211_FCTL_MOREDATA
                                 else Z.land fc (u16 (Z.lnot IEEE80211_FCTL_MOREDATA))) (data s) in
      let qos := ieee80211_is_data_qos (frame_control d) || ieee80211_is_qos_nullfunc (frame_control d) in
      let q := ieee80211_get_qos_ctl d in
      let d := if last && bool_decide (reason = UAPSD) && qos then alter (fun x => Z.lor x IEEE80211_QOS_CTL_EOSP) q d else d in
      let s := Skb (ptr s) d (mapping s) (stamp s) true (send_after_dtim s) (last || status_eosp s) (last || req_tx_status s)
        (need_txprocessing s) (retransmission s) (retried s) in
      let tid := if qos then Z.land (d.[q]) IEEE80211_QOS_CTL_TID_MASK else 0 in
      let '(l, tids) := release_frames reason more l in
      (s :: l, Z.lor (u16 (Z.shiftl 1 tid)) tids)
  end.

Definition ieee80211_sta_ps_deliver_response (l : local) (i : nat) (n_frames : nat) (ignored : Z) (reason : release_type) :
    option (local * list event) :=
  s ← stas l !! i;
  let s := set_sp s true in
  let r := response_acs reason (driver_buffered_tids s) ignored n_frames acs
    (Resp false false 0 [] 0 (tx_filtered s) (ps_tx_buf s)) in
  let l := set_sta (set_total l (total_ps_buffered l - taken r)) i (set_bufs s (r_filtered r) (r_ps r)) in
  if negb (found r) then Some (l, [NullResponse (7 - Z.shiftl (ffs (Z.lnot ignored) - 1) 1)])
  else if release_tids r =? 0 then
    let '(fs, tids) := release_frames reason (more_data r) (frames r) in
    Some (sta_info_recalc_tim l i, [AllowBuffered tids (Z.of_nat (length fs)) (more_data r); Pending fs])
  else Some (l, [ReleaseBuffered (release_tids r) (Z.of_nat n_frames) (more_data r)]).

Definition ieee80211_sta_ps_deliver_poll_response (l : local) (i : nat) : option (local * list event) :=
  s ← stas l !! i; ieee80211_sta_ps_deliver_response l i 1 (ignored_acs (uapsd_queues s)) PSPOLL.

Definition service_frames (max_sp : Z) : nat :=
  if max_sp =? 1 then 2 else if max_sp =? 2 then 4 else if max_sp =? 3 then 6 else if max_sp =? 0 then 8 else Z.to_nat max_sp.

Definition ieee80211_sta_ps_deliver_uapsd (l : local) (i : nat) : option (local * list event) :=
  s ← stas l !! i;
  if uapsd_queues s =? 0 then Some (l, [])
  else ieee80211_sta_ps_deliver_response l i (service_frames (max_sp s)) (u8 (Z.lnot (uapsd_queues s))) UAPSD.

(** ** Expiry *)

Definition sta_info_buffer_expired (jiffies : Z) (s : sta_info) (skb : sk_buff) : bool :=
  let timeout := s32 (Z.quot (s32 (s32 (listen_interval s * beacon_int s) * 32)) 15625 * HZ hw) in
  let timeout := if timeout <? 10 * HZ hw then 10 * HZ hw else timeout in
  Reorder.time_after jiffies (u64 (stamp skb + timeout)).

(** The loops over a queue. *)
Fixpoint expire (jiffies : Z) (s : sta_info) (q : list sk_buff) : list sk_buff * list sk_buff :=
  match q with
  | [] => ([], [])
  | skb :: q' =>
      if sta_info_buffer_expired jiffies s skb then let '(gone, q) := expire jiffies s q' in (skb :: gone, q) else ([], q)
  end.

Definition sta_info_cleanup_expire_buffered_ac (jiffies : Z) (l : local) (i : nat) (ac : nat) : option (local * bool * list event) :=
  s ← stas l !! i;
  let '(gone, flt) := expire jiffies s (queue (tx_filtered s) ac) in
  let '(gone', ps) := expire jiffies s (queue (ps_tx_buf s) ac) in
  let l := set_sta (set_total l (total_ps_buffered l - Z.of_nat (length gone'))) i
    (set_bufs s (<[ac := flt]> (tx_filtered s)) (<[ac := ps]> (ps_tx_buf s))) in
  Some (sta_info_recalc_tim l i, negb (is_empty ps && is_empty flt), Freed <$> gone ++ gone').

Fixpoint expire_acs (jiffies : Z) (l : local) (i : nat) (k : list nat) : option (local * bool * list event) :=
  match k with
  | [] => Some (l, false, [])
  | ac :: k =>
      '(l, b, e) ← sta_info_cleanup_expire_buffered_ac jiffies l i ac;
      '(l, b', e') ← expire_acs jiffies l i k;
      Some (l, (b : bool) || b', e ++ e')
  end.

Definition sta_info_cleanup_expire_buffered (jiffies : Z) (l : local) (i : nat) : option (local * bool * list event) :=
  s ← stas l !! i;
  if bool_decide (sta_bss s = None) then Some (l, false, []) else expire_acs jiffies l i acs.

(** The timer, over the stations in the list; whether it is needed again. *)
Fixpoint sta_info_cleanup (jiffies : Z) (l : local) (k : list nat) : option (local * bool * list event) :=
  match k with
  | [] => Some (l, false, [])
  | i :: k =>
      s ← stas l !! i;
      '(l, b, e) ← (if dead s then Some (l, false, []) else sta_info_cleanup_expire_buffered jiffies l i);
      '(l, b', e') ← sta_info_cleanup jiffies l k;
      Some (l, (b : bool) || b', e ++ e')
  end.

(** ** Stations and interfaces that come and go *)

Definition ieee80211_sta_set_buffered (l : local) (i : nat) (tid : Z) (buffered : bool) : option (local * list event) :=
  s ← stas l !! i;
  if IEEE80211_NUM_TIDS <=? tid then Some (l, [])
  else
    let t := if buffered then Z.setbit (driver_buffered_tids s) tid else Z.clearbit (driver_buffered_tids s) tid in
    Some (sta_info_recalc_tim (set_sta l i (set_tids s t)) i, []).

Definition ieee80211_sta_block_awake (l : local) (i : nat) (block : bool) : option (local * list event) :=
  s ← stas l !! i;
  if block then Some (set_sta l i (set_ps_driver s true), [])
  else if ps_driver s then Some (l, [UnblockWork])
  else Some (l, []).

Definition sta_unblock (l : local) (i : nat) : option (local * list event) :=
  s ← stas l !! i;
  if dead s then Some (l, [])
  else if negb (ps_sta s) then ieee80211_sta_ps_deliver_wakeup l i
  else if pspoll s then
    ieee80211_sta_ps_deliver_poll_response (set_sta l i (set_flags s (dead s) (ps_sta s) false (sp s) false (uapsd s))) i
  else if uapsd s then
    ieee80211_sta_ps_deliver_uapsd (set_sta l i (set_flags s (dead s) (ps_sta s) false (sp s) (pspoll s) false)) i
  else Some (set_sta l i (set_ps_driver s false), []).

Definition sta_ps_start (l : local) (i : nat) : option (local * list event) :=
  s ← stas l !! i;
  match sta_bss s with
  | None => Some (l, [])
  | Some a =>
      p ← aps l !! a;
      Some (set_sta (set_ap l a (add_sleeper p 1)) i (set_ps_sta s true), if ap_link_ps hw then [] else [NotifySleep])
  end.

(** The purge of all queues, category by category. *)
Definition purged (s : sta_info) : list sk_buff := concat ((fun ac => queue (ps_tx_buf s) ac ++ queue (tx_filtered s) ac) <$> acs).

Definition purge_queues (l : local) (i : nat) : option (local * list event) :=
  s ← stas l !! i;
  Some (set_sta (set_total l (total_ps_buffered l - Z.of_nat (length (concat (ps_tx_buf s))))) i (set_bufs s no_frames no_frames),
        Freed <$> purged s).

Definition cleanup_single_sta (l : local) (i : nat) : option (local * list event) :=
  s ← stas l !! i;
  if ps_sta s then
    match sta_bss s with
    | None => Some (l, [])
    | Some a =>
        p ← aps l !! a;
        purge_queues (sta_info_recalc_tim (set_ap (set_sta l i (set_ps_sta s false)) a (add_sleeper p (-1))) i) i
    end
  else purge_queues l i.

(** [__sta_info_destroy] marks the station, which leaves the list. *)
Definition __sta_info_destroy (l : local) (i : nat) : option (local * list event) :=
  s ← stas l !! i;
  Some (set_sta l i (set_flags s true (ps_sta s) (ps_driver s) (sp s) (pspoll s) (uapsd s)), []).

(** The part of [ieee80211_stop_ap] that frees the multicast frames. *)
Definition ieee80211_stop_ap (l : local) (a : nat) : option (local * list event) :=
  p ← aps l !! a;
  Some (set_ap (set_total l (total_ps_buffered l - Z.of_nat (length (bc_buf p)))) a (set_bc p []), Freed <$> bc_buf p).

(** The loop of [ieee80211_get_buffered_bc]; [prepare] tells whether
    [ieee80211_tx_prepare] lets the frame continue. *)
Fixpoint bc_loop (prepare : sk_buff -> bool) (q : list sk_buff) : list sk_buff * Z * list event :=
  match q with
  | [] => ([], 0, [])
  | s :: q =>
      let s := if negb (is_empty q) && (2 <=? Z.of_nat (length (data s)))
        then set_data s (map_fc (fun fc => Z.lor fc IEEE80211_FCTL_MOREDATA) (data s)) else s in
      if prepare s then (q, 1, [Transmit s])
      else let '(q, n, e) := bc_loop prepare q in (q, n + 1, Freed s :: e)
  end.

(** [ready] stands for a channel context and a beacon. *)
Definition ieee80211_get_buffered_bc (prepare : sk_buff -> bool) (ready : bool) (l : local) (a : nat) : option (local * list event) :=
  p ← aps l !! a;
  if negb ready then Some (l, [])
  else if negb (dtim_count p =? 0) || negb (dtim_bc_mc p) then Some (l, [])
  else
    let '(q, n, e) := bc_loop prepare (bc_buf p) in
    Some (set_ap (set_total l (total_ps_buffered l - n)) a (set_bc p q), e).

(** The beacon, which counts down to the DTIM, announces the frames. *)
Definition beacon (dtim_period : Z) (l : local) (a : nat) : option (local * list event) :=
  p ← aps l !! a;
  let '(n, bc, el) := Tim.__ieee80211_beacon_add_tim (tim p) (num_sta_ps p) (dtim_count p) dtim_period (negb (is_empty (bc_buf p))) in
  Some (set_ap l a (Ps (tim p) (bc_buf p) (num_sta_ps p) n bc), [BeaconTim a el]).

(** ** Runs *)

(** The operations; the receive path calls [sta_ps_start] for stations that are
    awake. *)
Inductive op :=
| Tx (jiffies : Z) (ps_buffered unicast : bool) (sta bss : option nat) (skb : sk_buff)
| Filtered (jiffies : Z) (i : nat) (skb : sk_buff)
| Wakeup (i : nat)
| Poll (i : nat)
| Trigger (i : nat)
| Cleanup (jiffies : Z)
| SetBuffered (i : nat) (tid : Z) (buffered : bool)
| BlockAwake (i : nat) (block : bool)
| Unblock (i : nat)
| Sleep (i : nat)
| Destroy (i : nat)
| Released (i : nat)
| StopAp (a : nat)
| Beacon (a : nat) (dtim_period : Z)
| BufferedBc (a : nat) (ready : bool) (refused : list nat).

Definition run_op (o : op) (l : local) : option (local * list event) :=
  match o with
  | Tx j b u sta bss skb =>
      '(l, v, e) ← ieee80211_tx_h_ps_buf j b u sta bss l skb;
      Some (l, e ++ match v with Continue s => [Transmit s] | Queued => [] end)
  | Filtered j i skb => ieee80211_handle_filtered_frame j l i skb
  | Wakeup i => ieee80211_sta_ps_deliver_wakeup l i
  | Poll i => ieee80211_sta_ps_deliver_poll_response l i
  | Trigger i => ieee80211_sta_ps_deliver_uapsd l i
  | Cleanup j => '(l, _, e) ← sta_info_cleanup j l (seq 0 (length (stas l))); Some (l, e)
  | SetBuffered i t b => ieee80211_sta_set_buffered l i t b
  | BlockAwake i b => ieee80211_sta_block_awake l i b
  | Unblock i => sta_unblock l i
  | Sleep i => s ← stas l !! i; if ps_sta s then Some (l, []) else sta_ps_start l i
  | Destroy i => __sta_info_destroy l i
  | Released i => cleanup_single_sta l i
  | StopAp a => ieee80211_stop_ap l a
  | Beacon a n => beacon n l a
  | BufferedBc a r refused => ieee80211_get_buffered_bc (fun s => bool_decide (ptr s ∉ refused)) r l a
  end.

Fixpoint run (ops : list op) (l : local) : option (local * list event) :=
  match ops with
  | [] => Some (l, [])
  | o :: ops => '(l, e) ← run_op o l; '(l, e') ← run ops l; Some (l, e ++ e')
  end.
End Hw.

(** ** Lemmas: lists of buffers *)

Definition zsum (l : list Z) : Z := foldr Z.add 0 l.

Lemma zsum_insert {A} (f : A -> Z) l i x y : l !! i = Some x -> zsum (f <$> <[i := y]> l) = zsum (f <$> l) - f x + f y.
Proof.
  unfold zsum; revert i; induction l as [|z l IH]; intros i Hi; [done|]; destruct i as [|i]; cbn in *; [simplify_eq; lia|].
  specialize (IH i Hi); etransitivity; [apply (f_equal (Z.add (f z))); exact IH|lia].
Qed.

Lemma concat_insert_perm {A B} (f : A -> list B) l i x y : l !! i = Some x ->
  concat (f <$> <[i := y]> l) ++ f x ≡ₚ concat (f <$> l) ++ f y.
Proof.
  revert i; induction l as [|z l IH]; intros i Hi; [done|]; destruct i as [|i]; cbn in Hi.
  - simplify_eq; cbn; solve_Permutation.
  - specialize (IH i Hi); cbn; rewrite <- !app_assoc, IH; done.
Qed.

Lemma insert_perm {A} (l : list (list A)) i x y : l !! i = Some x -> concat (<[i := y]> l) ++ x ≡ₚ concat l ++ y.
Proof. intros Hi; pose proof (concat_insert_perm id l i x y Hi) as E; by rewrite !list_fmap_id in E. Qed.

Lemma zsum_app l k : zsum (l ++ k) = zsum l + zsum k.
Proof. induction l as [|x l IH]; cbn; [done|]; unfold zsum in *; rewrite IH; lia. Qed.

Lemma length_concat_zsum {A} (l : list (list A)) : Z.of_nat (length (concat l)) = zsum ((fun q => Z.of_nat (length q)) <$> l).
Proof. induction l as [|x l IH]; cbn; [done|]; rewrite length_app, Nat2Z.inj_add, IH; done. Qed.

Lemma queue_lookup bufs ac : (ac < length bufs)%nat -> bufs !! ac = Some (queue bufs ac).
Proof. intros H; unfold queue; by destruct (lookup_lt_is_Some_2 bufs ac H) as [q ->]. Qed.

Lemma queue_insert bufs ac ac' q : (ac < length bufs)%nat ->
  queue (<[ac := q]> bufs) ac' = if decide (ac' = ac) then q else queue bufs ac'.
Proof.
  intros H; unfold queue; destruct (decide (ac' = ac)) as [->|Hn]; [by rewrite list_lookup_insert_eq|by rewrite list_lookup_insert_ne by done].
Qed.

Lemma four_queues (bufs : list (list sk_buff)) : length bufs = 4%nat -> bufs = queue bufs <$> acs.
Proof. by intros H; destruct bufs as [|? [|? [|? [|? [|]]]]]. Qed.

Lemma spliced_perm flt ps : length flt = 4%nat -> length ps = 4%nat -> spliced flt ps ≡ₚ concat flt ++ concat ps.
Proof.
  intros Hf Hp; rewrite (four_queues flt Hf) at 2; rewrite (four_queues ps Hp) at 2; unfold spliced; cbn [acs fmap list_fmap concat].
  solve_Permutation.
Qed.

Lemma purged_perm s : length (tx_filtered s) = 4%nat -> length (ps_tx_buf s) = 4%nat ->
  purged s ≡ₚ concat (tx_filtered s) ++ concat (ps_tx_buf s).
Proof.
  intros Hf Hp; unfold purged; rewrite Permutation_app_comm; by apply (spliced_perm (ps_tx_buf s) (tx_filtered s)).
Qed.

Lemma sweep_spec {A} (f : A -> A * Z * list event) l :
  sweep f l = ((fun x => (f x).1.1) <$> l, zsum ((fun x => (f x).1.2) <$> l), concat ((fun x => (f x).2) <$> l)).
Proof.
  induction l as [|x l IH]; [done|]; cbn [sweep]; rewrite IH; destruct (f x) as [[y n] e] eqn:E; cbn [fmap list_fmap concat]; rewrite E; done.
Qed.

(** ** Lemmas: where a frame is *)

Definition held_sta (s : sta_info) : list nat := ptr <$> concat (tx_filtered s) ++ concat (ps_tx_buf s).
Definition held_ap (p : ps_data) : list nat := ptr <$> bc_buf p.
Definition held (l : local) : list nat := concat (held_ap <$> aps l) ++ concat (held_sta <$> stas l).

Definition out_event (e : event) : list nat :=
  match e with Freed s => [ptr s] | Pending l => ptr <$> l | Transmit s => [ptr s] | _ => [] end.
Definition out (e : list event) : list nat := concat (out_event <$> e).

(** The frames the counter should count. *)
Definition counted_sta (s : sta_info) : Z := Z.of_nat (length (concat (ps_tx_buf s))).
Definition counted_ap (p : ps_data) : Z := Z.of_nat (length (bc_buf p)).
Definition counted (l : local) : Z := zsum (counted_ap <$> aps l) + zsum (counted_sta <$> stas l).
Definition slack (l : local) : Z := counted l - total_ps_buffered l.

(** What an operation does to the frames: [added] come in, those of the events
    go out, and the counter follows. *)
Record moves (l l' : local) (added : list nat) (e : list event) : Prop := Moves {
  m_aps : length (aps l') = length (aps l);
  m_stas : length (stas l') = length (stas l);
  m_ptrs : held l' ++ out e ≡ₚ held l ++ added;
  m_slack : slack l' = slack l }.

(** The same where the buffers may have been purged. *)
Record keeps (l l' : local) (added : list nat) (e : list event) : Prop := Keeps {
  k_aps : length (aps l') = length (aps l);
  k_stas : length (stas l') = length (stas l);
  k_ptrs : held l' ++ out e ≡ₚ held l ++ added;
  k_slack : slack l' = slack l \/ TOTAL_MAX_TX_BUFFER <= total_ps_buffered l /\ 0 <= slack l' }.

Lemma out_app e e' : out (e ++ e') = out e ++ out e'.
Proof. unfold out; by rewrite fmap_app, concat_app. Qed.

Lemma out_freed l : out (Freed <$> l) = ptr <$> l.
Proof. induction l as [|s l IH]; [done|]; unfold out in *; cbn in *; by rewrite IH. Qed.

Lemma moves_refl l : moves l l [] [].
Proof. split; done. Qed.

Lemma moves_keeps l l' added e : moves l l' added e -> keeps l l' added e.
Proof. intros []; split; auto. Qed.

Lemma moves_out l l' added e e' : out e' = out e -> moves l l' added e -> moves l l' added e'.
Proof. intros E []; split; [done..| |done]; by rewrite E. Qed.

Lemma moves_trans l l1 l2 a b e1 e2 : moves l l1 a e1 -> moves l1 l2 b e2 -> moves l l2 (a ++ b) (e1 ++ e2).
Proof.
  intros [Ha Hs Hp Hk] [Ha' Hs' Hp' Hk']; split; [congruence|congruence| |congruence].
  rewrite out_app; transitivity ((held l2 ++ out e2) ++ out e1); [solve_Permutation|]; rewrite Hp'.
  transitivity ((held l1 ++ out e1) ++ b); [solve_Permutation|]; rewrite Hp; solve_Permutation.
Qed.

Lemma moves_before l l1 l2 a e : moves l l1 [] [] -> moves l1 l2 a e -> moves l l2 a e.
Proof. apply (moves_trans l l1 l2 [] a [] e). Qed.

Lemma moves_after l l1 l2 a e : moves l l1 a e -> moves l1 l2 [] [] -> moves l l2 a e.
Proof. intros H1 H2; pose proof (moves_trans _ _ _ _ _ _ _ H1 H2) as H; by rewrite !app_nil_r in H. Qed.

Lemma keeps_moves l l1 l2 a b e1 e2 : keeps l l1 a e1 -> moves l1 l2 b e2 -> keeps l l2 (a ++ b) (e1 ++ e2).
Proof.
  intros [Ha Hs Hp Hk] [Ha' Hs' Hp' Hk']; split; [congruence|congruence| |rewrite Hk'; done].
  rewrite out_app; transitivity ((held l2 ++ out e2) ++ out e1); [solve_Permutation|]; rewrite Hp'.
  transitivity ((held l1 ++ out e1) ++ b); [solve_Permutation|]; rewrite Hp; solve_Permutation.
Qed.

(** The change of one station, of one access point and of the counter. *)
Lemma moves_sta l i s s' n added e : stas l !! i = Some s -> held_sta s' ++ out e ≡ₚ held_sta s ++ added ->
  n = counted_sta s' - counted_sta s -> moves l (set_sta (set_total l (total_ps_buffered l + n)) i s') added e.
Proof.
  intros Hi Hp ->; assert (Hs : slack (set_sta (set_total l (total_ps_buffered l + (counted_sta s' - counted_sta s))) i s') = slack l)
    by (unfold slack, counted; cbn [set_sta set_total aps stas total_ps_buffered]; rewrite (zsum_insert _ _ _ s) by done; lia).
  split; cbn [set_sta set_total aps stas]; [done|by rewrite length_insert| |done].
  unfold held; cbn [set_sta set_total aps stas]; pose proof (concat_insert_perm held_sta (stas l) i s s' Hi) as E.
  apply (Permutation_app_inv_r (held_sta s)).
  transitivity (concat (held_ap <$> aps l) ++ (concat (held_sta <$> <[i:=s']> (stas l)) ++ held_sta s) ++ out e); [solve_Permutation|].
  rewrite E; transitivity (concat (held_ap <$> aps l) ++ concat (held_sta <$> stas l) ++ (held_sta s' ++ out e)); [solve_Permutation|].
  rewrite Hp; solve_Permutation.
Qed.

Lemma moves_ap l a p p' n added e : aps l !! a = Some p -> held_ap p' ++ out e ≡ₚ held_ap p ++ added ->
  n = counted_ap p' - counted_ap p -> moves l (set_ap (set_total l (total_ps_buffered l + n)) a p') added e.
Proof.
  intros Hi Hp ->; assert (Hs : slack (set_ap (set_total l (total_ps_buffered l + (counted_ap p' - counted_ap p))) a p') = slack l)
    by (unfold slack, counted; cbn [set_ap set_total aps stas total_ps_buffered]; rewrite (zsum_insert _ _ _ p) by done; lia).
  split; cbn [set_ap set_total aps stas]; [by rewrite length_insert|done| |done].
  unfold held; cbn [set_ap set_total aps stas]; pose proof (concat_insert_perm held_ap (aps l) a p p' Hi) as E.
  apply (Permutation_app_inv_r (held_ap p)).
  transitivity ((concat (held_ap <$> <[a:=p']> (aps l)) ++ held_ap p) ++ concat (held_sta <$> stas l) ++ out e); [solve_Permutation|].
  rewrite E; transitivity (concat (held_ap <$> aps l) ++ concat (held_sta <$> stas l) ++ (held_ap p' ++ out e)); [solve_Permutation|].
  rewrite Hp; solve_Permutation.
Qed.

Lemma set_total_same l : set_total l (total_ps_buffered l) = l.
Proof. by destruct l. Qed.

(** Changes that touch no frame. *)
Lemma moves_set_sta l i s s' : stas l !! i = Some s -> tx_filtered s' = tx_filtered s -> ps_tx_buf s' = ps_tx_buf s ->
  moves l (set_sta l i s') [] [].
Proof.
  intros Hi Hf Hp; rewrite <- (set_total_same l) at 2; replace (total_ps_buffered l) with (total_ps_buffered l + 0) by lia.
  apply (moves_sta l i s); [done|unfold held_sta; by rewrite Hf, Hp|unfold counted_sta; rewrite Hp; lia].
Qed.

Lemma moves_set_ap l a p p' : aps l !! a = Some p -> bc_buf p' = bc_buf p -> moves l (set_ap l a p') [] [].
Proof.
  intros Hi Hb; rewrite <- (set_total_same l) at 2; replace (total_ps_buffered l) with (total_ps_buffered l + 0) by lia.
  apply (moves_ap l a p); [done|unfold held_ap; by rewrite Hb|unfold counted_ap; rewrite Hb; lia].
Qed.

Lemma moves_recalc hw l i : moves l (sta_info_recalc_tim hw l i) [] [].
Proof.
  unfold sta_info_recalc_tim; destruct (stas l !! i) as [s|]; [|apply moves_refl]; destruct (sta_bss s) as [a|]; [|apply moves_refl].
  destruct (ap_link_ps hw); [apply moves_refl|]; destruct (aps l !! a) as [p|] eqn:E; [|apply moves_refl]; by eapply moves_set_ap.
Qed.

(** ** Lemmas: purging *)

Definition nonempty_in (b b' : list (list sk_buff)) : Prop :=
  forall ac, (length (queue b' ac) <= length (queue b ac))%nat.

Lemma purge_acs_spec bufs l : Forall (fun ac => (ac < length bufs)%nat) l -> let '(b, n, e) := purge_acs bufs l in
  (ptr <$> concat b) ++ out e ≡ₚ ptr <$> concat bufs /\ n <= Z.of_nat (length (concat b)) /\ length b = length bufs /\ nonempty_in bufs b.
Proof.
  induction l as [|ac l IH]; intros Hl; cbn [purge_acs].
  { split; [by rewrite app_nil_r|]; split; [lia|]; split; [done|]; by intros ac. }
  apply Forall_cons_1 in Hl as [Hac Hl]; destruct (queue bufs ac) as [|s q] eqn:E; [by apply IH|].
  pose proof (queue_lookup bufs ac Hac) as Hq; rewrite E in Hq; pose proof (insert_perm bufs ac _ q Hq) as Hp.
  assert (Hp' : concat (<[ac := q]> bufs) ++ [s] ≡ₚ concat bufs).
  { apply (Permutation_app_inv_r q); rewrite <- Hp; solve_Permutation. }
  split; [rewrite <- Hp', fmap_app; done|]; split; [|split; [by rewrite length_insert|]].
  - assert (Hq' : (<[ac := q]> bufs) !! ac = Some q) by (by apply list_lookup_insert_eq).
    apply list_elem_of_split_length in Hq' || apply elem_of_list_split_length in Hq'.
    destruct Hq' as (l1 & l2 & -> & _); rewrite concat_app; cbn [concat]; rewrite !length_app; lia.
  - intros ac'; rewrite queue_insert by done; destruct (decide _) as [->|]; [rewrite E; cbn; lia|done].
Qed.

(** ** The invariant *)

Definition bounded (bufs : list (list sk_buff)) : Prop :=
  length bufs = 4%nat /\ forall ac, (length (queue bufs ac) <= STA_MAX_TX_BUFFER)%nat.

Record wf_sta (s : sta_info) : Prop := WfSta {
  wf_filtered : bounded (tx_filtered s);
  wf_ps : bounded (ps_tx_buf s);
  wf_aid : 0 <= aid s <= Tim.IEEE80211_MAX_AID }.

Record wf_ap (p : ps_data) : Prop := WfAp {
  wf_tim : Tim.tim_ok (tim p);
  wf_bc : (length (bc_buf p) <= AP_MAX_BC_BUFFER)%nat }.

(** [s'] is the station [s] with no more frames to announce. *)
Record shrinks (s s' : sta_info) : Prop := Shrinks {
  sh_bss : sta_bss s' = sta_bss s;
  sh_aid : aid s' = aid s;
  sh_wf : wf_sta s -> wf_sta s';
  sh_sleep : ps_sta s' = ps_sta s;
  sh_tim : indicate_tim s' = true -> indicate_tim s = true }.

Lemma bounded_sub b b' : bounded b -> length b' = length b -> nonempty_in b b' -> bounded b'.
Proof. intros [Hl Hb] Hl' Hn; split; [congruence|]; intros ac; specialize (Hb ac); specialize (Hn ac); lia. Qed.

Lemma empty_sub (b b' : list (list sk_buff)) ac : nonempty_in b b' -> is_empty (queue b ac) = true -> is_empty (queue b' ac) = true.
Proof. intros Hn; specialize (Hn ac); destruct (queue b ac), (queue b' ac); cbn in *; by try lia. Qed.

Lemma indicate_loop_sub s s' ig l : driver_buffered_tids s' = driver_buffered_tids s ->
  nonempty_in (tx_filtered s) (tx_filtered s') -> nonempty_in (ps_tx_buf s) (ps_tx_buf s') ->
  indicate_loop s' ig l = true -> indicate_loop s ig l = true.
Proof.
  intros Ht Hf Hp; induction l as [|ac l IH]; [done|]; cbn [indicate_loop]; destruct (Z.testbit ig _); [done|].
  destruct (is_empty (queue (tx_filtered s) ac)) eqn:E1; [|done]; destruct (is_empty (queue (ps_tx_buf s) ac)) eqn:E2; [|done].
  rewrite (empty_sub _ _ _ Hf E1), (empty_sub _ _ _ Hp E2), Ht; cbn [negb orb]; intros [->|H]%orb_true_iff; [done|].
  rewrite (IH H); apply orb_true_r.
Qed.

Lemma shrinks_bufs s flt ps : length flt = length (tx_filtered s) -> length ps = length (ps_tx_buf s) ->
  nonempty_in (tx_filtered s) flt -> nonempty_in (ps_tx_buf s) ps -> shrinks s (set_bufs s flt ps).
Proof.
  intros Lf Lp Hf Hp; split; try done.
  - intros [Wf Wp Wa]; split; [by apply (bounded_sub (tx_filtered s))|by apply (bounded_sub (ps_tx_buf s))|done].
  - unfold indicate_tim; cbn [set_bufs dead uapsd_queues]; destruct (dead s); [done|]; by apply indicate_loop_sub.
Qed.

Lemma shrinks_refl s : shrinks s s.
Proof. by split. Qed.

Lemma shrinks_trans s s1 s2 : shrinks s s1 -> shrinks s1 s2 -> shrinks s s2.
Proof. intros [] []; split; [congruence|congruence|auto|congruence|auto]. Qed.

Lemma purge_sta_spec s : wf_sta s -> let '(s', n, e) := purge_sta s in
  held_sta s' ++ out e ≡ₚ held_sta s /\ n <= counted_sta s' /\ shrinks s s'.
Proof.
  intros Hw; unfold purge_sta; destruct (dead s).
  { split; [by rewrite app_nil_r|]; split; [unfold counted_sta; lia|apply shrinks_refl]. }
  pose proof (wf_ps _ Hw) as [Hl _]; pose proof (purge_acs_spec (ps_tx_buf s) (rev acs)) as H.
  destruct (purge_acs (ps_tx_buf s) (rev acs)) as [[b n] e]; destruct H as (Hp & Hn & Hlb & Hs).
  { rewrite Hl; cbn; repeat (apply Forall_cons_2; [lia|]); apply Forall_nil_2. }
  split; [|split; [done|apply shrinks_bufs; [done|done|intros ac; lia|done]]].
  unfold held_sta; cbn [set_bufs tx_filtered ps_tx_buf]; rewrite !fmap_app, <- app_assoc, Hp; done.
Qed.

Lemma purge_ap_spec p : let '(p', n, e) := purge_ap p in
  held_ap p' ++ out e ≡ₚ held_ap p /\ n = counted_ap p' /\ tim p' = tim p /\ num_sta_ps p' = num_sta_ps p /\
  (length (bc_buf p') <= length (bc_buf p))%nat.
Proof.
  unfold purge_ap, held_ap, counted_ap; destruct (bc_buf p) as [|s q] eqn:E.
  - rewrite E; split; [done|]; split; [done|]; split; [done|]; split; [done|]; cbn; lia.
  - cbn [set_bc bc_buf tim num_sta_ps]; split; [cbn; by rewrite Permutation_app_comm|]; split; [done|]; split; [done|]; split; [done|]; cbn; lia.
Qed.

(** The permutation summed over a sweep. *)
Lemma sweep_perm {A} (f : A -> A * Z * list event) (h : A -> list nat) l :
  Forall (fun x => h (f x).1.1 ++ out (f x).2 ≡ₚ h x) l ->
  concat (h <$> ((fun x => (f x).1.1) <$> l)) ++ out (concat ((fun x => (f x).2) <$> l)) ≡ₚ concat (h <$> l).
Proof.
  induction 1 as [|x l Hx Hl IH]; [done|]; cbn [fmap list_fmap concat]; rewrite out_app, <- Hx.
  etransitivity; [|apply Permutation_app_head; exact IH]; solve_Permutation.
Qed.

Lemma sweep_sum {A} (f : A -> A * Z * list event) (c : A -> Z) l : Forall (fun x => (f x).1.2 <= c (f x).1.1) l ->
  zsum ((fun x => (f x).1.2) <$> l) <= zsum (c <$> ((fun x => (f x).1.1) <$> l)).
Proof. unfold zsum; induction 1 as [|x l Hx Hl IH]; [done|]; cbn in *; by apply Z.add_le_mono. Qed.

(** The stations and access points after a purge. *)
Lemma purge_spec l : Forall wf_sta (stas l) -> let '(l', e) := purge_old_ps_buffers l in
  length (aps l') = length (aps l) /\ length (stas l') = length (stas l) /\ held l' ++ out e ≡ₚ held l /\ 0 <= slack l' /\
  (forall i s', stas l' !! i = Some s' -> exists s, stas l !! i = Some s /\ shrinks s s') /\
  (forall a p', aps l' !! a = Some p' -> exists p, aps l !! a = Some p /\ tim p' = tim p /\ num_sta_ps p' = num_sta_ps p /\
    (length (bc_buf p') <= length (bc_buf p))%nat).
Proof.
  intros Hw; unfold purge_old_ps_buffers; rewrite !sweep_spec; cbn [aps stas]; rewrite !length_fmap.
  assert (Hs : Forall (fun s => held_sta (purge_sta s).1.1 ++ out (purge_sta s).2 ≡ₚ held_sta s /\
    (purge_sta s).1.2 <= counted_sta (purge_sta s).1.1 /\ shrinks s (purge_sta s).1.1) (stas l)).
  { eapply list.Forall_impl; [exact Hw|]; intros s Hws; pose proof (purge_sta_spec s Hws); by destruct (purge_sta s) as [[]]. }
  assert (Ha : Forall (fun p => held_ap (purge_ap p).1.1 ++ out (purge_ap p).2 ≡ₚ held_ap p /\
    (purge_ap p).1.2 <= counted_ap (purge_ap p).1.1) (aps l)).
  { apply list.Forall_forall; intros p _; pose proof (purge_ap_spec p); destruct (purge_ap p) as [[]]; cbn; split; [tauto|lia]. }
  do 2 (split; [done|]); split; [|split; [|split]].
  - unfold held; cbn [aps stas]; rewrite out_app.
    rewrite <- (sweep_perm purge_ap held_ap (aps l)), <- (sweep_perm purge_sta held_sta (stas l)) by
      (eapply list.Forall_impl; [eassumption|]; cbn; tauto); solve_Permutation.
  - unfold slack, counted; cbn [aps stas total_ps_buffered].
    pose proof (sweep_sum purge_ap counted_ap (aps l) ltac:(eapply list.Forall_impl; [exact Ha|cbn; tauto])).
    pose proof (sweep_sum purge_sta counted_sta (stas l) ltac:(eapply list.Forall_impl; [exact Hs|cbn; tauto])); lia.
  - intros i s'; rewrite list_lookup_fmap; destruct (stas l !! i) as [s|] eqn:E; [|done]; intros [= <-]; exists s; split; [done|].
    apply (Forall_lookup_1 _ _ _ _ Hs E).
  - intros a p'; rewrite list_lookup_fmap; destruct (aps l !! a) as [p|] eqn:E; [|done]; intros [= <-]; exists p; split; [done|].
    pose proof (purge_ap_spec p); destruct (purge_ap p) as [[]]; tauto.
Qed.

(** The stations of the access point [a] that sleep. *)
Definition sleeps_at (a : nat) (s : sta_info) : Z := if bool_decide (sta_bss s = Some a) && ps_sta s then 1 else 0.
Definition sleepers (a : nat) (l : list sta_info) : Z := zsum (sleeps_at a <$> l).

(** The buffers are bounded, the access points count their sleeping stations,
    and a station with frames to announce has its bit, [x] apart.  Two stations
    of an access point have different association ids. *)
Record inv (hw : hw_conf) (x : option nat) (l : local) : Prop := Inv {
  i_stas : forall i s, stas l !! i = Some s -> wf_sta s;
  i_aps : forall a p, aps l !! a = Some p -> wf_ap p;
  i_bss : forall i s a, stas l !! i = Some s -> sta_bss s = Some a -> is_Some (aps l !! a);
  i_ids : forall i j s s' a, stas l !! i = Some s -> stas l !! j = Some s' -> sta_bss s = Some a -> sta_bss s' = Some a ->
    aid s = aid s' -> i = j;
  i_count : forall a p, aps l !! a = Some p -> num_sta_ps p = s32 (sleepers a (stas l));
  i_tim : ap_link_ps hw = false -> forall i s a p, x <> Some i -> stas l !! i = Some s -> sta_bss s = Some a -> aps l !! a = Some p ->
    indicate_tim s = true -> Tim.tim_bit (tim p) (aid s) = true }.

Section Inv.
Context (hw : hw_conf).

Lemma inv_weaken x l : inv hw None l -> inv hw x l.
Proof. intros []; split; eauto. Qed.

Lemma inv_total x l n : inv hw x l -> inv hw x (set_total l n).
Proof. by intros []; split. Qed.

Lemma lookup_insert_cases {A} (l : list A) i x j y : <[i := x]> l !! j = Some y ->
  j = i /\ y = x /\ (i < length l)%nat \/ j <> i /\ l !! j = Some y.
Proof.
  intros H; destruct (decide (j = i)) as [->|Hn]; [left|right; by rewrite list_lookup_insert_ne in H].
  apply lookup_lt_Some in H as Hl; rewrite length_insert in Hl; rewrite list_lookup_insert_eq in H by done; by simplify_eq.
Qed.

(** A station that changes, its counter of sleepers with it. *)
Lemma inv_change x l i s s' ps' : inv hw x l -> stas l !! i = Some s -> wf_sta s' -> sta_bss s' = sta_bss s -> aid s' = aid s ->
  length ps' = length (aps l) ->
  (forall a p', ps' !! a = Some p' -> exists p, aps l !! a = Some p /\ wf_ap p' /\ tim p' = tim p /\
    num_sta_ps p' = s32 (num_sta_ps p - sleeps_at a s + sleeps_at a s')) ->
  x = Some i \/ (indicate_tim s' = true -> indicate_tim s = true) ->
  inv hw x (Local (total_ps_buffered l) ps' (<[i := s']> (stas l))).
Proof.
  intros [Hs Ha Hb Hid Hc Ht] Hi Hw Ebss Eaid El Hps Htim; split; cbn [stas aps].
  - intros j sj Hj; apply lookup_insert_cases in Hj as [(-> & -> & _)|(_ & Hj)]; [done|by eapply Hs].
  - intros a p' Hp'; by destruct (Hps _ _ Hp') as (p & _ & ? & _).
  - intros j sj a Hj Hba; assert (Hsome : is_Some (aps l !! a)).
    { apply lookup_insert_cases in Hj as [(-> & -> & _)|(_ & Hj)]; [rewrite Ebss in Hba|]; by eapply Hb. }
    apply lookup_lt_is_Some in Hsome; by apply lookup_lt_is_Some; rewrite El.
  - intros j k sj sk a Hj Hk Hbj Hbk E.
    apply lookup_insert_cases in Hj as [(-> & -> & _)|(Hnj & Hj)], Hk as Hk'; apply lookup_insert_cases in Hk as [(-> & -> & _)|(Hnk & Hk)];
      rewrite ?Ebss, ?Eaid in *; eauto.
  - intros a p' Hp'; destruct (Hps _ _ Hp') as (p & Hp & _ & _ & ->); rewrite (Hc _ _ Hp); unfold sleepers.
    rewrite (zsum_insert _ _ _ s) by done.
    by rewrite <- Z.add_sub_swap, <- Z.add_sub_assoc, s32_add, Z.add_sub_assoc, Z.add_sub_swap.
  - intros Hl j sj a p' Hx Hj Hba Hp' Hind; destruct (Hps _ _ Hp') as (p & Hp & _ & -> & _).
    apply lookup_insert_cases in Hj as [(-> & -> & _)|(Hnj & Hj)].
    + destruct Htim as [->|Htim]; [done|]; rewrite Ebss in Hba; rewrite Eaid; eauto.
    + by eapply Ht.
Qed.

Lemma s32_idem n : s32 (s32 n) = s32 n.
Proof. pose proof (s32_add n 0) as E; by rewrite !Z.add_0_r in E. Qed.

Lemma inv_set_sta x l i s s' : inv hw x l -> stas l !! i = Some s -> wf_sta s' -> sta_bss s' = sta_bss s -> aid s' = aid s ->
  ps_sta s' = ps_sta s -> x = Some i \/ (indicate_tim s' = true -> indicate_tim s = true) -> inv hw x (set_sta l i s').
Proof.
  intros Hinv Hi Hw Ebss Eaid Eps Htim; apply (inv_change x l i s); try done.
  intros a p Hp; exists p; split; [done|]; split; [by eapply i_aps|]; split; [done|].
  unfold sleeps_at; rewrite Ebss, Eps; rewrite (i_count _ _ _ Hinv _ _ Hp), Z.sub_add, s32_idem; done.
Qed.

Lemma inv_shrinks x l i s s' : inv hw x l -> stas l !! i = Some s -> shrinks s s' -> inv hw x (set_sta l i s').
Proof.
  intros Hinv Hi [Hb Ha Hw Hs Ht]; apply (inv_set_sta x l i s); auto; apply Hw; by eapply i_stas.
Qed.

(** The access point and the station change together. *)
Lemma inv_toggle x l i s s' a p n : inv hw x l -> stas l !! i = Some s -> wf_sta s' -> sta_bss s' = sta_bss s -> aid s' = aid s ->
  sta_bss s = Some a -> aps l !! a = Some p -> n = sleeps_at a s' - sleeps_at a s ->
  x = Some i \/ (indicate_tim s' = true -> indicate_tim s = true) -> inv hw x (set_sta (set_ap l a (add_sleeper p n)) i s').
Proof.
  intros Hinv Hi Hw Ebss Eaid Hb Hp -> Htim; apply (inv_change x l i s); try done; cbn [set_ap aps]; [by rewrite length_insert|].
  intros a' p' Hp'; apply lookup_insert_cases in Hp' as [(-> & -> & _)|(Hn & Hp')].
  - exists p; split; [done|]; split; [by destruct (i_aps _ _ _ Hinv _ _ Hp)|]; split; [done|]; cbn [add_sleeper num_sta_ps]; f_equal; lia.
  - exists p'; split; [done|]; split; [by eapply i_aps|]; split; [done|].
    assert (Es : forall t, sta_bss t = Some a -> sleeps_at a' t = 0) by (intros t Et; unfold sleeps_at; rewrite Et; by rewrite bool_decide_false by (intros [= ->]; done)).
    rewrite !Es by congruence; rewrite (i_count _ _ _ Hinv _ _ Hp'), Z.sub_0_r, Z.add_0_r, s32_idem; done.
Qed.

Lemma inv_set_ap x l a p p' : inv hw x l -> aps l !! a = Some p -> wf_ap p' -> tim p' = tim p -> num_sta_ps p' = num_sta_ps p ->
  inv hw x (set_ap l a p').
Proof.
  intros [Hs Ha Hb Hid Hc Ht] Hp Hw Et En; split; cbn [set_ap stas aps]; try done.
  - intros b q Hq; apply lookup_insert_cases in Hq as [(-> & -> & _)|(_ & Hq)]; eauto.
  - intros i s b Hi Hbs; apply lookup_lt_is_Some; rewrite length_insert; apply lookup_lt_is_Some; eauto.
  - intros b q Hq; apply lookup_insert_cases in Hq as [(-> & -> & _)|(_ & Hq)]; [rewrite En|]; eauto.
  - intros Hl i s b q Hx Hi Hbs Hq Hind; apply lookup_insert_cases in Hq as [(-> & -> & _)|(_ & Hq)]; [rewrite Et|]; eauto.
Qed.

Lemma inv_recalc l i : inv hw (Some i) l -> inv hw None (sta_info_recalc_tim hw l i).
Proof.
  intros Hinv; pose proof Hinv as [Hs Ha Hb Hid Hc Ht]; unfold sta_info_recalc_tim.
  assert (Hsame : (ap_link_ps hw = false -> forall s a p, stas l !! i = Some s -> sta_bss s = Some a -> aps l !! a = Some p -> False) -> inv hw None l).
  { intros Hn; split; try done; intros Hl j s a p _ Hj Hbs Hp Hind; destruct (decide (j = i)) as [->|]; [exfalso; eauto|eapply Ht; eauto; congruence]. }
  destruct (stas l !! i) as [s|] eqn:Ei; [|apply Hsame; congruence].
  destruct (sta_bss s) as [a|] eqn:Eb; [|apply Hsame; congruence].
  destruct (ap_link_ps hw) eqn:El; [by apply Hsame|].
  destruct (aps l !! a) as [p|] eqn:Ep; [|apply Hsame; congruence].
  pose proof (Ha _ _ Ep) as [Wt Wb]; pose proof (wf_aid _ (Hs _ _ Ei)) as Wa; set (t := _ (tim p) (aid s)).
  assert (Ht' : Tim.tim_ok t) by (unfold t; destruct (indicate_tim s); [by apply Tim.tim_set_ok|by apply Tim.tim_clear_ok]).
  split; cbn [set_ap stas aps]; try done.
  - intros b q Hq; apply lookup_insert_cases in Hq as [(-> & -> & _)|(_ & Hq)]; [by split|eauto].
  - intros j sj b Hj Hbs; apply lookup_lt_is_Some; rewrite length_insert; apply lookup_lt_is_Some; eauto.
  - intros b q Hq; apply lookup_insert_cases in Hq as [(-> & -> & _)|(_ & Hq)]; cbn [set_tim num_sta_ps]; eauto.
  - intros _ j sj b q _ Hj Hbs Hq Hind; apply lookup_insert_cases in Hq as [(-> & -> & _)|(Hnb & Hq)]; cbn [set_tim tim].
    + pose proof (wf_aid _ (Hs _ _ Hj)) as Wj; unfold t; destruct (decide (j = i)) as [->|Hji].
      * simplify_eq; rewrite Hind, Tim.tim_bit_set by done; by rewrite bool_decide_true.
      * assert (Hne : aid sj <> aid s) by (intros E; apply Hji; by eapply Hid).
        assert (Hold : Tim.tim_bit (tim p) (aid sj) = true) by (eapply Ht; eauto; congruence).
        destruct (indicate_tim s); [rewrite Tim.tim_bit_set by done; by rewrite Hold, orb_true_r|].
        rewrite Tim.tim_bit_clear by done; by rewrite bool_decide_false, Hold.
    + eapply Ht; eauto; intros [= ->]; congruence.
Qed.

Lemma inv_purge l : inv hw None l -> inv hw None (purge_old_ps_buffers l).1.
Proof.
  intros [Hs Ha Hb Hid Hc Ht]; pose proof (purge_spec l) as H; destruct (purge_old_ps_buffers l) as [l' e]; cbn [fst].
  destruct H as (La & Ls & _ & _ & Hst & Hap); [apply Forall_lookup; exact Hs|].
  assert (Hw : forall a, sleepers a (stas l') = sleepers a (stas l)).
  { intros a; unfold sleepers; f_equal; apply list_eq_same_length with (n := length (stas l)); [by rewrite length_fmap|by rewrite length_fmap|].
    intros i x y _ Hx Hy; apply list_lookup_fmap_Some in Hx as (s' & -> & Hs'); apply list_lookup_fmap_Some in Hy as (s & -> & Hs0).
    destruct (Hst _ _ Hs') as (s2 & Hs2 & [Eb _ _ Ep _]); simplify_eq; unfold sleeps_at; by rewrite Eb, Ep. }
  split.
  - intros i s' Hi; destruct (Hst _ _ Hi) as (s & Hsi & Sh); apply (sh_wf _ _ Sh); eauto.
  - intros a p' Hp; destruct (Hap _ _ Hp) as (p & Hpa & Et & _ & Hl); destruct (Ha _ _ Hpa); split; [by rewrite Et|lia].
  - intros i s' a Hi Hba; destruct (Hst _ _ Hi) as (s & Hsi & Sh); rewrite (sh_bss _ _ Sh) in Hba.
    apply lookup_lt_is_Some; rewrite La; apply lookup_lt_is_Some; eauto.
  - intros i j s s' a Hi Hj Hbi Hbj E; destruct (Hst _ _ Hi) as (t & Hti & []), (Hst _ _ Hj) as (t' & Htj & []).
    apply (Hid i j t t' a); congruence.
  - intros a p' Hp; destruct (Hap _ _ Hp) as (p & Hpa & _ & -> & _); rewrite Hw; eauto.
  - intros Hl i s' a p' _ Hi Hba Hp Hind; destruct (Hst _ _ Hi) as (s & Hsi & []), (Hap _ _ Hp) as (p & Hpa & -> & _).
    rewrite sh_aid0; eapply Ht; eauto; congruence.
Qed.
End Inv.

(** ** Lemmas: one operation *)

Section Steps.
Context (hw : hw_conf).

(** An operation that succeeds, keeps the invariant and the frames. *)
Definition ok (l : local) (added : list nat) (r : option (local * list event)) : Prop :=
  exists l' e, r = Some (l', e) /\ inv hw None l' /\ moves l l' added e.

Definition event_of (v : verdict) : list event := match v with Continue s => [Transmit s] | Queued => [] end.

Definition ok_tx (l : local) (s : sk_buff) (r : option (local * verdict * list event)) : Prop :=
  exists l' v e, r = Some (l', v, e) /\ inv hw None l' /\ keeps l l' [ptr s] (e ++ event_of v).

Lemma ok_moves l l' added e : inv hw None l' -> moves l l' added e -> ok l added (Some (l', e)).
Proof. intros Hi Hm; by exists l', e. Qed.

Lemma continue_ok l s s' : inv hw None l -> ptr s' = ptr s -> ok_tx l s (Some (l, Continue s', [])).
Proof.
  intros Hi Hp; exists l, (Continue s'), []; split; [done|]; split; [done|]; apply moves_keeps; split; try done; cbn; by rewrite Hp.
Qed.

Lemma room_spec max q : (1 <= max)%nat -> (length q <= max)%nat -> let '(q', n, e) := make_room max q in
  (ptr <$> q') ++ out e ≡ₚ ptr <$> q /\ n = Z.of_nat (length q') + 1 - Z.of_nat (length q) /\ (length q' + 1 <= max)%nat.
Proof.
  intros Hm Hq; unfold make_room; destruct q as [|s q].
  { cbn; split; [done|lia]. }
  destruct (Nat.leb_spec max (length (s :: q))) as [Hl|Hl]; cbn [length] in *.
  - split; [cbn; by rewrite Permutation_app_comm|lia].
  - split; [by rewrite app_nil_r|lia].
Qed.

Lemma purge_if_full_spec l : inv hw None l -> let '(l', e) := purge_if_full l in inv hw None l' /\ keeps l l' [] e.
Proof.
  intros Hi; unfold purge_if_full; destruct (Z.leb_spec TOTAL_MAX_TX_BUFFER (total_ps_buffered l)) as [Hl|Hl].
  2: { split; [done|apply moves_keeps, moves_refl]. }
  pose proof (inv_purge hw l Hi) as Hi'; pose proof (purge_spec l) as H; destruct (purge_old_ps_buffers l) as [l' e].
  destruct H as (La & Ls & Hp & Hsl & _); [apply Forall_lookup; apply (i_stas _ _ _ Hi)|].
  split; [done|]; split; [done|done|by rewrite app_nil_r|auto].
Qed.

Lemma bounded_insert b ac q : bounded b -> (length q <= STA_MAX_TX_BUFFER)%nat -> (ac < 4)%nat -> bounded (<[ac := q]> b).
Proof.
  intros [Hl Hb] Hq Hac; split; [by rewrite length_insert|]; intros ac'; rewrite queue_insert by lia; destruct (decide _); [done|apply Hb].
Qed.

(** A frame put at the end of a queue of [ps_tx_buf]. *)
Lemma held_insert_ps s ac q q' (e : list nat) added : ps_tx_buf s !! ac = Some q -> (ptr <$> q') ++ e ≡ₚ (ptr <$> q) ++ added ->
  held_sta (set_bufs s (tx_filtered s) (<[ac := q']> (ps_tx_buf s))) ++ e ≡ₚ held_sta s ++ added.
Proof.
  intros Hac Hp; unfold held_sta; cbn [set_bufs tx_filtered ps_tx_buf]; rewrite !fmap_app, <- !app_assoc; apply Permutation_app_head.
  pose proof (fmap_Permutation ptr _ _ (insert_perm (ps_tx_buf s) ac q q' Hac)) as E; rewrite !fmap_app in E.
  apply (Permutation_app_inv_r (ptr <$> q)); transitivity (((ptr <$> concat (<[ac:=q']> (ps_tx_buf s))) ++ (ptr <$> q)) ++ e); [solve_Permutation|].
  rewrite E, <- app_assoc, Hp; solve_Permutation.
Qed.

Lemma held_insert_filtered s ac q q' (e : list nat) added : tx_filtered s !! ac = Some q -> (ptr <$> q') ++ e ≡ₚ (ptr <$> q) ++ added ->
  held_sta (set_bufs s (<[ac := q']> (tx_filtered s)) (ps_tx_buf s)) ++ e ≡ₚ held_sta s ++ added.
Proof.
  intros Hac Hp; unfold held_sta; cbn [set_bufs tx_filtered ps_tx_buf]; rewrite !fmap_app.
  pose proof (fmap_Permutation ptr _ _ (insert_perm (tx_filtered s) ac q q' Hac)) as E; rewrite !fmap_app in E.
  apply (Permutation_app_inv_r (ptr <$> q)).
  transitivity (((ptr <$> concat (<[ac:=q']> (tx_filtered s))) ++ (ptr <$> q)) ++ (ptr <$> concat (ps_tx_buf s)) ++ e); [solve_Permutation|].
  rewrite E; transitivity ((ptr <$> concat (tx_filtered s)) ++ (ptr <$> concat (ps_tx_buf s)) ++ ((ptr <$> q') ++ e)); [solve_Permutation|].
  rewrite Hp; solve_Permutation.
Qed.

Lemma counted_insert s flt ac q q' : ps_tx_buf s !! ac = Some q ->
  counted_sta (set_bufs s flt (<[ac := q']> (ps_tx_buf s))) = counted_sta s + Z.of_nat (length q') - Z.of_nat (length q).
Proof.
  intros Hac; unfold counted_sta; cbn [set_bufs ps_tx_buf]; rewrite !length_concat_zsum, (zsum_insert _ _ _ q) by done; lia.
Qed.

Lemma unicast_ok j st l skb : inv hw None l -> (forall i, st = Some i -> is_Some (stas l !! i)) -> (mapping skb < 4)%nat ->
  ok_tx l skb (ieee80211_tx_h_unicast_ps_buf hw j st l skb).
Proof.
  intros Hinv Hst Hm; unfold ieee80211_tx_h_unicast_ps_buf; destruct st as [i|]; [|by apply continue_ok].
  destruct (Hst i eq_refl) as [s Hi]; rewrite Hi; cbn [mbind option_bind]; destruct (_ && negb (no_ps_buffer skb)); [|by apply continue_ok].
  destruct (_ && negb (ieee80211_is_action _)); [by apply continue_ok|].
  pose proof (purge_if_full_spec l Hinv) as Hp; destruct (purge_if_full l) as [l1 e1]; destruct Hp as [Hinv1 Hk1].
  destruct (lookup_lt_is_Some_2 (stas l1) i) as [s1 Hi1]; [rewrite (k_stas _ _ _ _ Hk1); by eapply lookup_lt_Some|].
  rewrite Hi1; cbn [mbind option_bind]; pose proof (i_stas _ _ _ Hinv1 _ _ Hi1) as Hw; destruct (wf_ps _ Hw) as [Hl4 Hb].
  rewrite (queue_lookup (ps_tx_buf s1) (mapping skb)) by lia; cbn [mbind option_bind].
  pose proof (queue_lookup (ps_tx_buf s1) (mapping skb) ltac:(lia)) as Hq; set (q := queue (ps_tx_buf s1) (mapping skb)) in *.
  pose proof (room_spec STA_MAX_TX_BUFFER q ltac:(unfold STA_MAX_TX_BUFFER; lia) (Hb _)) as Hr.
  destruct (make_room STA_MAX_TX_BUFFER q) as [[q' n] e2]; destruct Hr as (Hp & Hn & Hlen).
  set (skb' := Skb _ _ _ _ _ _ _ _ _ _ _); set (s2 := set_bufs s1 _ _); eexists _, Queued, _; split; [reflexivity|]; split.
  - apply inv_recalc; apply (inv_set_sta hw (Some i) (set_total l1 _) i s1); try done; [by apply inv_total, inv_weaken| |by left].
    destruct Hw; split; [done|apply bounded_insert; [done|rewrite length_app; cbn; lia|done]|done].
  - cbn [event_of]; rewrite app_nil_r; change [ptr skb] with ([] ++ [ptr skb]); eapply keeps_moves; [exact Hk1|].
    eapply moves_after; [|apply moves_recalc].
    apply (moves_sta l1 i s1); [done| |unfold s2; rewrite (counted_insert _ _ _ q) by done; rewrite length_app; cbn [length]; lia].
    apply (held_insert_ps s1 _ q); [done|]; rewrite fmap_app, <- Hp; cbn; solve_Permutation.
Qed.

Lemma multicast_ok bss l skb : inv hw None l -> (forall a, bss = Some a -> is_Some (aps l !! a)) ->
  ok_tx l skb (ieee80211_tx_h_multicast_ps_buf hw bss l skb).
Proof.
  intros Hinv Hst; unfold ieee80211_tx_h_multicast_ps_buf; destruct bss as [a|]; [|by apply continue_ok].
  destruct (Hst a eq_refl) as [p Ha]; rewrite Ha; cbn [mbind option_bind].
  destruct (ieee80211_has_order _); [by apply continue_ok|]; destruct (num_sta_ps p =? 0); [by apply continue_ok|].
  set (skb' := Skb _ _ _ _ _ _ _ _ _ _ _); destruct (negb (host_broadcast_ps_buffering hw)); [by apply continue_ok|].
  pose proof (purge_if_full_spec l Hinv) as Hp; destruct (purge_if_full l) as [l1 e1]; destruct Hp as [Hinv1 Hk1].
  destruct (lookup_lt_is_Some_2 (aps l1) a) as [p1 Ha1]; [rewrite (k_aps _ _ _ _ Hk1); by eapply lookup_lt_Some|].
  rewrite Ha1; cbn [mbind option_bind]; pose proof (i_aps _ _ _ Hinv1 _ _ Ha1) as [Wt Wb].
  pose proof (room_spec AP_MAX_BC_BUFFER (bc_buf p1) ltac:(unfold AP_MAX_BC_BUFFER; lia) Wb) as Hr.
  destruct (make_room AP_MAX_BC_BUFFER (bc_buf p1)) as [[q' n] e2]; destruct Hr as (Hp & Hn & Hlen).
  eexists _, Queued, _; split; [reflexivity|]; split.
  - apply (inv_set_ap hw None (set_total l1 _) a p1); try done; [by apply inv_total|].
    split; [done|]; cbn [set_bc bc_buf]; rewrite length_app; cbn [length]; lia.
  - cbn [event_of]; rewrite app_nil_r; change [ptr skb] with ([] ++ [ptr skb]); eapply keeps_moves; [exact Hk1|].
    apply (moves_ap l1 a p1); [done| |unfold counted_ap; cbn [set_bc bc_buf]; rewrite length_app; cbn [length]; lia].
    unfold held_ap; cbn [set_bc bc_buf]; rewrite fmap_app, <- Hp; cbn; solve_Permutation.
Qed.

Lemma ac_of_tid n : (default 0%nat (ieee802_1d_to_ac !! n) < 4)%nat.
Proof.
  destruct (ieee802_1d_to_ac !! n) as [x|] eqn:E; cbn; [|lia].
  eapply (Forall_lookup_1 (fun x => (x < 4)%nat)); [|exact E]; unfold ieee802_1d_to_ac; repeat (apply Forall_cons_2; [lia|]); apply Forall_nil_2.
Qed.

Lemma filtered_ok j l i skb : inv hw None l -> is_Some (stas l !! i) -> ok l [ptr skb] (ieee80211_handle_filtered_frame hw j l i skb).
Proof.
  intros Hinv [s Hi]; unfold ieee80211_handle_filtered_frame; rewrite Hi; cbn [mbind option_bind].
  destruct (filtered_frame j skb) as [skb' ac] eqn:E.
  assert (Hsk : ptr skb' = ptr skb /\ (ac < 4)%nat).
  { unfold filtered_frame in E; destruct (if ieee80211_is_data_qos _ then _ else _) as [d k] eqn:Ed; simplify_eq; split; [done|].
    destruct (ieee80211_is_data_qos _); simplify_eq; [apply ac_of_tid|unfold IEEE80211_AC_BE; lia]. }
  destruct Hsk as [Hptr Hac]; set (s1 := count_filtered s); set (l1 := set_sta l i s1).
  assert (Hm1 : moves l l1 [] []) by (by apply (moves_set_sta l i s)).
  assert (Hi1 : stas l1 !! i = Some s1) by (unfold l1; cbn [set_sta stas]; apply list_lookup_insert_eq; by eapply lookup_lt_Some).
  assert (Hw : wf_sta s1) by (by destruct (i_stas _ _ _ Hinv _ _ Hi)).
  assert (Hinv1 : inv hw None l1) by (apply (inv_set_sta hw None l i s); auto).
  change (ps_sta s1) with (ps_sta s); change (tx_filtered s1) with (tx_filtered s); destruct (wf_filtered _ Hw) as [Hl4 Hb].
  change (tx_filtered s1) with (tx_filtered s) in *; destruct (ps_sta s && _) eqn:Ec; [|destruct (negb (ps_sta s) && _)].
  - apply andb_true_iff in Ec as [_ Hlt%Nat.ltb_lt]; apply ok_moves.
    + apply inv_recalc, (inv_set_sta hw (Some i) l1 i s1); try done; [by apply inv_weaken| |by left].
      destruct Hw; split; [apply bounded_insert; [done|rewrite length_app; cbn [length]; lia|done]|done|done].
    + eapply moves_before; [exact Hm1|]; eapply moves_after; [|apply moves_recalc].
      rewrite <- (set_total_same l1) at 2; replace (total_ps_buffered l1) with (total_ps_buffered l1 + 0) by lia.
      apply (moves_sta l1 i s1); [done| |unfold counted_sta; cbn [set_bufs ps_tx_buf]; lia].
      apply (held_insert_filtered s1 ac (queue (tx_filtered s) ac)); [apply queue_lookup; change (tx_filtered s1) with (tx_filtered s); lia|].
      rewrite fmap_app; cbn; by rewrite Hptr, app_nil_r.
  - apply ok_moves; [done|]; eapply moves_before; [exact Hm1|].
    split; try done; cbn; by rewrite Hptr.
  - apply ok_moves; [done|]; eapply moves_before; [exact Hm1|].
    split; try done; cbn; by rewrite Hptr.
Qed.

(** *** Delivery *)

Lemma clear_total l i n : set_total (clear_sta_ps_flags l i) n = clear_sta_ps_flags (set_total l n) i.
Proof.
  unfold clear_sta_ps_flags; cbn [set_total stas aps]; destruct (stas l !! i) as [s|]; [|done]; destruct (sta_bss s) as [a|]; [|done].
  by destruct (aps l !! a) as [p|]; [destruct (ps_sta s)|].
Qed.

Lemma clear_total_same l i : total_ps_buffered (clear_sta_ps_flags l i) = total_ps_buffered l.
Proof.
  unfold clear_sta_ps_flags; destruct (stas l !! i) as [s|]; [|done]; destruct (sta_bss s) as [a|]; [|done].
  by destruct (aps l !! a) as [p|]; [destruct (ps_sta s)|].
Qed.

Lemma wf_set_flags s dd ps drv period poll ua : wf_sta s -> wf_sta (set_flags s dd ps drv period poll ua).
Proof. by intros []; split. Qed.

Lemma clear_ok l i : inv hw (Some i) l -> inv hw (Some i) (clear_sta_ps_flags l i) /\ moves l (clear_sta_ps_flags l i) [] [].
Proof.
  intros Hinv; unfold clear_sta_ps_flags; destruct (stas l !! i) as [s|] eqn:Hi; [|split; [done|apply moves_refl]].
  destruct (sta_bss s) as [a|] eqn:Hb; [|split; [done|apply moves_refl]]; pose proof (i_stas _ _ _ Hinv _ _ Hi) as Hw.
  destruct (i_bss _ _ _ Hinv _ _ _ Hi Hb) as [p Hp]; rewrite Hp; destruct (ps_sta s) eqn:Es.
  - split.
    + apply (inv_toggle hw (Some i) l i s _ a p); try done; [by do 2 apply wf_set_flags| |by left].
      unfold sleeps_at; cbn [set_ps_sta set_ps_driver set_flags sta_bss ps_sta]; by rewrite Hb, Es, bool_decide_true.
    + eapply moves_before.
      * by apply (moves_set_ap l a p (add_sleeper p (-1))).
      * by apply (moves_set_sta _ i s).
  - split; [|by apply (moves_set_sta l i s)].
    apply (inv_set_sta hw (Some i) l i s); try done; [by do 2 apply wf_set_flags|by left].
Qed.

Lemma bounded_no_frames : bounded no_frames.
Proof. split; [done|]; intros ac; unfold queue; destruct (no_frames !! ac) as [q|] eqn:E; cbn; [|lia].
  assert (Forall (fun q => q = []) no_frames) as F by (unfold no_frames; repeat (apply Forall_cons_2; [done|]); apply Forall_nil_2).
  rewrite (Forall_lookup_1 _ _ _ _ F E); cbn; lia. Qed.

Lemma held_spliced s : wf_sta s -> ptr <$> spliced (tx_filtered s) (ps_tx_buf s) ≡ₚ held_sta s.
Proof. intros [[] [] _]; unfold held_sta; by rewrite spliced_perm by done. Qed.

Lemma wakeup_ok l i : inv hw None l -> is_Some (stas l !! i) -> ok l [] (ieee80211_sta_ps_deliver_wakeup hw l i).
Proof.
  intros Hinv [s Hi]; unfold ieee80211_sta_ps_deliver_wakeup; rewrite Hi; cbn [mbind option_bind].
  rewrite clear_total_same, clear_total; set (s' := set_bufs _ _ _); set (n := total_ps_buffered _ - _).
  pose proof (i_stas _ _ _ Hinv _ _ Hi) as Hw; set (l1 := set_total (set_sta l i s') n).
  assert (Hm : moves l l1 [] [Pending (spliced (tx_filtered s) (ps_tx_buf s))]).
  { unfold l1, n; change (set_total (set_sta l i s') ?m) with (set_sta (set_total l m) i s'); cbn [set_sta total_ps_buffered].
    rewrite <- Z.add_opp_r; apply (moves_sta l i s); [done| |unfold counted_sta; cbn; lia].
    unfold out; cbn [fmap list_fmap out_event concat]; rewrite !app_nil_r, (held_spliced s Hw); done. }
  assert (Hinv1 : inv hw (Some i) l1).
  { apply inv_total, (inv_set_sta hw (Some i) l i s); try done; [by apply inv_weaken| |by left].
    destruct Hw; split; [apply bounded_no_frames|apply bounded_no_frames|done]. }
  destruct (clear_ok l1 i Hinv1) as [Hinv2 Hm2]; apply ok_moves; [by apply inv_recalc|].
  apply moves_out with [Pending (spliced (tx_filtered s) (ps_tx_buf s))]; [by destruct (ap_link_ps hw)|].
  eapply moves_after; [exact Hm|]; eapply moves_after; [exact Hm2|apply moves_recalc].
Qed.

Lemma dequeue_spec n flt ps : let '(l, k, flt', ps') := dequeue_frames n flt ps in
  l ++ flt' ++ ps' = flt ++ ps /\ (length ps' + k = length ps)%nat /\ (length flt' <= length flt)%nat /\ (length ps' <= length ps)%nat.
Proof.
  revert flt ps; induction n as [|n IH]; intros flt ps; cbn [dequeue_frames]; [split_and!; (done || lia)|].
  destruct flt as [|s flt]; [destruct ps as [|s ps]; [split_and!; (done || lia)|]|].
  - specialize (IH [] ps); destruct (dequeue_frames n [] ps) as [[[l k] flt'] ps']; destruct IH as (E & Hk & Hf & Hp).
    cbn [app length] in *; split; [by rewrite E|lia].
  - specialize (IH flt ps); destruct (dequeue_frames n flt ps) as [[[l k] flt'] ps']; destruct IH as (E & Hk & Hf & Hp).
    cbn [app length] in *; split; [by rewrite E|lia].
Qed.

Record response_ok (flt ps : list (list sk_buff)) (r : response) : Prop := ResponseOk {
  ro_filtered : length (r_filtered r) = 4%nat;
  ro_ps : length (r_ps r) = 4%nat;
  ro_sub_filtered : nonempty_in flt (r_filtered r);
  ro_sub_ps : nonempty_in ps (r_ps r);
  ro_perm : concat (r_filtered r) ++ concat (r_ps r) ++ frames r ≡ₚ concat flt ++ concat ps;
  ro_taken : taken r = Z.of_nat (length (concat ps)) - Z.of_nat (length (concat (r_ps r)));
  ro_found : found r = false -> frames r = [];
  ro_tids : release_tids r <> 0 -> frames r = [] }.

Lemma nonempty_insert b b' ac q : (ac < length b')%nat -> nonempty_in b b' -> (length q <= length (queue b' ac))%nat -> nonempty_in b (<[ac := q]> b').
Proof. intros Hac Hn Hq ac'; rewrite queue_insert by done; destruct (decide _) as [->|]; [|done]; specialize (Hn ac); lia. Qed.

Lemma length_concat_insert (b : list (list sk_buff)) ac q q' : b !! ac = Some q ->
  Z.of_nat (length (concat (<[ac := q']> b))) = Z.of_nat (length (concat b)) + Z.of_nat (length q') - Z.of_nat (length q).
Proof. intros H; rewrite !length_concat_zsum, (zsum_insert _ _ _ q) by done; lia. Qed.

Lemma fetch_ok flt ps dtids n ac r : (ac < 4)%nat -> found r = false -> response_ok flt ps r -> response_ok flt ps (response_fetch dtids n ac r).
Proof.
  intros Hac Hf [Lf Lp Sf Sp Hp Ht Hfd Htd]; unfold response_fetch; destruct (negb _); [by split; cbn; auto|].
  pose proof (dequeue_spec n (queue (r_filtered r) ac) (queue (r_ps r) ac)) as H.
  destruct (dequeue_frames n _ _) as [[[l k] flt'] ps']; destruct H as (E & Hk & Hlf & Hlp).
  pose proof (queue_lookup (r_filtered r) ac ltac:(lia)) as Qf; pose proof (queue_lookup (r_ps r) ac ltac:(lia)) as Qp.
  pose proof (insert_perm _ ac _ flt' Qf) as Pf; pose proof (insert_perm _ ac _ ps' Qp) as Pp.
  split; cbn [r_filtered r_ps frames taken found release_tids]; [by rewrite length_insert|by rewrite length_insert| | | | | |done].
  - apply nonempty_insert; [lia|done|done].
  - apply nonempty_insert; [lia|done|done].
  - rewrite <- Hp, (Hfd Hf); cbn [app]; rewrite app_nil_r.
    apply (Permutation_app_inv_r (queue (r_filtered r) ac ++ queue (r_ps r) ac)).
    transitivity ((concat (<[ac:=flt']> (r_filtered r)) ++ queue (r_filtered r) ac) ++ (concat (<[ac:=ps']> (r_ps r)) ++ queue (r_ps r) ac) ++ l);
      [solve_Permutation|]; rewrite Pf, Pp.
    transitivity (concat (r_filtered r) ++ concat (r_ps r) ++ (l ++ flt' ++ ps')); [solve_Permutation|]; rewrite E; solve_Permutation.
  - rewrite (length_concat_insert _ _ _ _ Qp); lia.
  - intros Hn; rewrite (Hfd Hf); destruct l; [done|done].
Qed.

Lemma response_acs_ok flt ps reason dtids ig n l r : Forall (fun ac => (ac < 4)%nat) l -> response_ok flt ps r ->
  response_ok flt ps (response_acs reason dtids ig n l r).
Proof.
  revert r; induction l as [|ac l IH]; intros r Hl Hr; [done|]; apply Forall_cons_1 in Hl as [Hac Hl]; cbn [response_acs].
  destruct (Z.testbit ig _); [by apply IH|]; set (r' := if found r then r else _).
  assert (Hr' : response_ok flt ps r') by (unfold r'; destruct (found r) eqn:Ef; [done|by apply fetch_ok]).
  assert (Hm : forall t, (t <> 0 -> frames r' = []) -> response_ok flt ps (Resp (found r') true t (frames r') (taken r') (r_filtered r') (r_ps r')))
    by (intros t Htt; destruct Hr'; by split).
  destruct (negb (found r) && _ && _) eqn:Em.
  - apply Hm; intros _; apply andb_true_iff in Em as [_ Hw]; apply (ro_tids _ _ _ Hr'); intros E0; by rewrite E0 in Hw.
  - destruct (_ || _); [apply Hm; apply (ro_tids _ _ _ Hr')|by apply IH].
Qed.

Lemma release_ptrs reason more l : ptr <$> (release_frames reason more l).1 = ptr <$> l.
Proof.
  induction l as [|s l IH]; [done|]; cbn [release_frames]; destruct (release_frames reason more l) as [l' t]; cbn in *; by rewrite IH.
Qed.

Lemma response_ok_step l i n ig reason : inv hw None l -> is_Some (stas l !! i) ->
  ok l [] (ieee80211_sta_ps_deliver_response hw l i n ig reason).
Proof.
  intros Hinv [s Hi]; unfold ieee80211_sta_ps_deliver_response; rewrite Hi; cbn [mbind option_bind]; set (s1 := set_sp s true).
  pose proof (i_stas _ _ _ Hinv _ _ Hi) as Hw; pose proof Hw as [[Lf _] [Lp _] _].
  set (r0 := Resp false false 0 [] 0 (tx_filtered s1) (ps_tx_buf s1)); set (r := response_acs _ _ _ _ _ r0).
  assert (Hr : response_ok (tx_filtered s) (ps_tx_buf s) r).
  { apply response_acs_ok; [repeat (apply Forall_cons_2; [lia|]); apply Forall_nil_2|].
    split; try done; cbn; [by intros ac|by intros ac|by rewrite app_nil_r|lia]. }
  destruct Hr as [Rf Rp Sf Sp Hp Ht Hfd Htd]; set (s2 := set_bufs s1 (r_filtered r) (r_ps r)).
  assert (Hsh : shrinks s s2).
  { apply (shrinks_trans _ s1); [unfold s1; split; try done; by apply wf_set_flags|apply shrinks_bufs; [rewrite Rf; exact (eq_sym Lf)|rewrite Rp; exact (eq_sym Lp)|done|done]]. }
  set (l1 := set_sta _ i s2); assert (Hinv1 : inv hw None l1) by (by apply (inv_shrinks hw None (set_total l _) i s); [apply inv_total| |]).
  assert (Hm : forall e, out e = ptr <$> frames r -> moves l l1 [] e).
  { intros e He; unfold l1; rewrite <- Z.add_opp_r; apply (moves_sta l i s); [done| |unfold counted_sta, s2; cbn [set_bufs ps_tx_buf]; rewrite Ht; lia].
    rewrite He, app_nil_r; unfold held_sta; cbn [set_bufs tx_filtered ps_tx_buf s2]; by rewrite <- fmap_app, <- app_assoc, Hp. }
  destruct (found r) eqn:Ef; cbn [negb]; [destruct (Z.eqb_spec (release_tids r) 0) as [E0|E0]|].
  - pose proof (release_ptrs reason (more_data r) (frames r)) as Hrel; destruct (release_frames _ _ _) as [fs tids]; cbn [fst] in Hrel.
    apply ok_moves; [by apply inv_recalc, inv_weaken|].
    eapply moves_after; [|apply moves_recalc]; apply Hm; unfold out; cbn; by rewrite app_nil_r.
  - apply ok_moves; [done|]; apply Hm; by rewrite (Htd E0).
  - apply ok_moves; [done|]; apply Hm; by rewrite (Hfd eq_refl).
Qed.

Lemma poll_ok l i : inv hw None l -> is_Some (stas l !! i) -> ok l [] (ieee80211_sta_ps_deliver_poll_response hw l i).
Proof.
  intros Hinv Hi; unfold ieee80211_sta_ps_deliver_poll_response; destruct Hi as [s Hi]; rewrite Hi; cbn [mbind option_bind].
  apply response_ok_step; [done|by exists s].
Qed.

Lemma uapsd_ok l i : inv hw None l -> is_Some (stas l !! i) -> ok l [] (ieee80211_sta_ps_deliver_uapsd hw l i).
Proof.
  intros Hinv Hi; unfold ieee80211_sta_ps_deliver_uapsd; destruct Hi as [s Hi]; rewrite Hi; cbn [mbind option_bind].
  destruct (uapsd_queues s =? 0); [apply ok_moves; [done|apply moves_refl]|apply response_ok_step; [done|by exists s]].
Qed.

(** *** Expiry and the rest *)

Lemma expire_spec j s q : let '(gone, q') := expire hw j s q in gone ++ q' = q.
Proof.
  induction q as [|skb q IH]; [done|]; cbn [expire]; destruct (sta_info_buffer_expired hw j s skb); [|done].
  destruct (expire hw j s q) as [gone q']; cbn; by rewrite IH.
Qed.

Lemma stas_recalc l i : stas (sta_info_recalc_tim hw l i) = stas l.
Proof. unfold sta_info_recalc_tim; repeat case_match; done. Qed.

Lemma length_aps_recalc l i : length (aps (sta_info_recalc_tim hw l i)) = length (aps l).
Proof. apply (m_aps _ _ _ _ (moves_recalc hw l i)). Qed.

Definition ok_expire (l : local) (r : option (local * bool * list event)) : Prop :=
  exists l' b e, r = Some (l', b, e) /\ inv hw None l' /\ moves l l' [] e.

Lemma expire_ac_ok j l i ac : inv hw None l -> is_Some (stas l !! i) -> (ac < 4)%nat ->
  ok_expire l (sta_info_cleanup_expire_buffered_ac hw j l i ac).
Proof.
  intros Hinv [s Hi] Hac; unfold sta_info_cleanup_expire_buffered_ac; rewrite Hi; cbn [mbind option_bind].
  pose proof (i_stas _ _ _ Hinv _ _ Hi) as Hw; pose proof Hw as [[Lf _] [Lp _] _].
  pose proof (expire_spec j s (queue (tx_filtered s) ac)) as Ef; destruct (expire hw j s (queue (tx_filtered s) ac)) as [g flt].
  pose proof (expire_spec j s (queue (ps_tx_buf s) ac)) as Ep; destruct (expire hw j s (queue (ps_tx_buf s) ac)) as [g' ps].
  pose proof (queue_lookup (tx_filtered s) ac ltac:(lia)) as Qf; pose proof (queue_lookup (ps_tx_buf s) ac ltac:(lia)) as Qp.
  rewrite <- Ef in Qf; rewrite <- Ep in Qp; set (s' := set_bufs _ _ _); set (l1 := set_sta _ i s').
  eexists _, _, _; split; [reflexivity|]; split.
  - apply inv_recalc, inv_weaken; apply (inv_shrinks hw None (set_total l _) i s); [by apply inv_total|done|].
    apply shrinks_bufs; [by rewrite length_insert|by rewrite length_insert| |]; (apply nonempty_insert; [lia|by intros ac'|]).
    + rewrite <- Ef, length_app; lia.
    + rewrite <- Ep, length_app; lia.
  - eapply moves_after; [|apply moves_recalc]; unfold l1; rewrite <- Z.add_opp_r; apply (moves_sta l i s); [done| |].
    + rewrite out_freed, app_nil_r; unfold held_sta, s'; cbn [set_bufs tx_filtered ps_tx_buf]; rewrite <- fmap_app; apply fmap_Permutation.
      apply (Permutation_app_inv_r (flt ++ ps)); pose proof (insert_perm _ ac _ flt Qf) as Pf; pose proof (insert_perm _ ac _ ps Qp) as Pp.
      transitivity ((concat (<[ac:=flt]> (tx_filtered s)) ++ g ++ flt) ++ (concat (<[ac:=ps]> (ps_tx_buf s)) ++ g' ++ ps)); [solve_Permutation|].
      rewrite Pf, Pp; solve_Permutation.
    + unfold s'; rewrite (counted_insert _ _ _ _ _ Qp), length_app; lia.
Qed.

Lemma expire_acs_ok j l i k : inv hw None l -> is_Some (stas l !! i) -> Forall (fun ac => (ac < 4)%nat) k -> ok_expire l (expire_acs hw j l i k).
Proof.
  revert l; induction k as [|ac k IH]; intros l Hinv Hi Hk; [exists l, false, []; split; [done|split; [done|apply moves_refl]]|].
  apply Forall_cons_1 in Hk as [Hac Hk]; destruct (expire_ac_ok j l i ac Hinv Hi Hac) as (l1 & b & e & E & Hinv1 & Hm1).
  assert (Hi1 : is_Some (stas l1 !! i)) by (apply lookup_lt_is_Some; rewrite (m_stas _ _ _ _ Hm1); by apply lookup_lt_is_Some).
  destruct (IH l1 Hinv1 Hi1 Hk) as (l2 & b' & e' & E' & Hinv2 & Hm2); cbn [expire_acs]; rewrite E; cbn [mbind option_bind].
  rewrite E'; cbn [mbind option_bind]; eexists _, _, _; split; [reflexivity|]; split; [done|].
  change (@nil nat) with ([] ++ [] : list nat); by eapply moves_trans.
Qed.

Lemma cleanup_ok j l k : inv hw None l -> Forall (fun i => is_Some (stas l !! i)) k -> ok_expire l (sta_info_cleanup hw j l k).
Proof.
  revert l; induction k as [|i k IH]; intros l Hinv Hk; [exists l, false, []; split; [done|split; [done|apply moves_refl]]|].
  apply Forall_cons_1 in Hk as [[s Hi] Hk]; cbn [sta_info_cleanup]; rewrite Hi; cbn [mbind option_bind].
  assert (H : ok_expire l (if dead s then Some (l, false, []) else sta_info_cleanup_expire_buffered hw j l i)).
  { assert (Hr : ok_expire l (Some (l, false, []))) by (exists l, false, []; split; [done|split; [done|apply moves_refl]]).
    destruct (dead s); [done|]; unfold sta_info_cleanup_expire_buffered; rewrite Hi; cbn [mbind option_bind]; case_bool_decide; [done|].
    apply expire_acs_ok; [done|by exists s|repeat (apply Forall_cons_2; [lia|]); apply Forall_nil_2]. }
  destruct H as (l1 & b & e & E & Hinv1 & Hm1); rewrite E; cbn [mbind option_bind].
  destruct (IH l1 Hinv1) as (l2 & b' & e' & E' & Hinv2 & Hm2).
  { eapply list.Forall_impl; [exact Hk|]; intros i' Hi'; apply lookup_lt_is_Some; rewrite (m_stas _ _ _ _ Hm1); by apply lookup_lt_is_Some. }
  rewrite E'; cbn [mbind option_bind]; eexists _, _, _; split; [reflexivity|]; split; [done|].
  change (@nil nat) with ([] ++ [] : list nat); by eapply moves_trans.
Qed.

(** A station of which only flags change. *)
Lemma flags_ok l i s dd drv period poll ua : inv hw None l -> stas l !! i = Some s -> (dead s = true -> dd = true) ->
  let l' := set_sta l i (set_flags s dd (ps_sta s) drv period poll ua) in inv hw None l' /\ moves l l' [] [].
Proof.
  intros Hinv Hi Hd; split; [|by apply (moves_set_sta l i s)]; apply (inv_set_sta hw None l i s); try done.
  - apply wf_set_flags; by apply (i_stas _ _ _ Hinv _ _ Hi).
  - right; unfold indicate_tim; cbn [set_flags dead uapsd_queues]; destruct dd; [done|]; by destruct (dead s); [discriminate (Hd eq_refl)|].
Qed.

Lemma ok_before l l1 added r : inv hw None l1 -> moves l l1 [] [] -> (inv hw None l1 -> ok l1 added r) -> ok l added r.
Proof.
  intros Hinv Hm Hr; destruct (Hr Hinv) as (l2 & e & E & Hinv2 & Hk); exists l2, e; split; [done|]; split; [done|].
  by eapply moves_before.
Qed.

Lemma unblock_ok l i : inv hw None l -> is_Some (stas l !! i) -> ok l [] (sta_unblock hw l i).
Proof.
  intros Hinv [s Hi]; unfold sta_unblock; rewrite Hi; cbn [mbind option_bind]; destruct (dead s) eqn:Ed; [apply ok_moves; [done|apply moves_refl]|].
  destruct (negb (ps_sta s)); [apply wakeup_ok; [done|by exists s]|].
  assert (Hset : forall s', is_Some (stas (set_sta l i s') !! i)) by
    (intros s'; apply lookup_lt_is_Some; cbn [set_sta stas]; rewrite length_insert; by eapply lookup_lt_Some).
  destruct (pspoll s).
  { destruct (flags_ok l i s false false (sp s) false (uapsd s) Hinv Hi) as [H1 H2]; [congruence|]; eapply ok_before; [exact H1|exact H2|].
    intros _; apply poll_ok; [done|apply Hset]. }
  destruct (uapsd s).
  { destruct (flags_ok l i s false false (sp s) false false Hinv Hi) as [H1 H2]; [congruence|]; eapply ok_before; [exact H1|exact H2|].
    intros _; apply uapsd_ok; [done|apply Hset]. }
  destruct (flags_ok l i s (dead s) false (sp s) (pspoll s) (uapsd s) Hinv Hi) as [H1 H2]; [done|]; by apply ok_moves.
Qed.

Lemma set_buffered_ok l i t b : inv hw None l -> is_Some (stas l !! i) -> ok l [] (ieee80211_sta_set_buffered hw l i t b).
Proof.
  intros Hinv [s Hi]; unfold ieee80211_sta_set_buffered; rewrite Hi; cbn [mbind option_bind].
  destruct (_ <=? t); [apply ok_moves; [done|apply moves_refl]|]; set (t' := if b then _ else _); apply ok_moves.
  - apply inv_recalc, (inv_set_sta hw (Some i) l i s); try done; [by apply inv_weaken| |by left].
    by destruct (i_stas _ _ _ Hinv _ _ Hi).
  - eapply moves_after; [|apply moves_recalc]; by apply (moves_set_sta l i s).
Qed.

Lemma block_ok l i b : inv hw None l -> is_Some (stas l !! i) -> ok l [] (ieee80211_sta_block_awake l i b).
Proof.
  intros Hinv [s Hi]; unfold ieee80211_sta_block_awake; rewrite Hi; cbn [mbind option_bind]; destruct b.
  - destruct (flags_ok l i s (dead s) true (sp s) (pspoll s) (uapsd s) Hinv Hi) as [H1 H2]; [done|]; by apply ok_moves.
  - destruct (ps_driver s); (apply ok_moves; [done|]); [by apply (moves_out l l [] [])|apply moves_refl].
Qed.

Lemma sleep_ok l i s : inv hw None l -> stas l !! i = Some s -> ps_sta s = false -> ok l [] (sta_ps_start hw l i).
Proof.
  intros Hinv Hi Hs; unfold sta_ps_start; rewrite Hi; cbn [mbind option_bind]; destruct (sta_bss s) as [a|] eqn:Hb.
  2: { apply ok_moves; [done|apply moves_refl]. }
  destruct (i_bss _ _ _ Hinv _ _ _ Hi Hb) as [p Hp]; rewrite Hp; cbn [mbind option_bind].
  pose proof (i_stas _ _ _ Hinv _ _ Hi) as Hw; apply ok_moves.
  - apply (inv_toggle hw None l i s _ a p); try done; [by apply wf_set_flags| |by right].
    unfold sleeps_at; cbn [set_ps_sta set_flags sta_bss ps_sta]; by rewrite Hb, Hs, bool_decide_true.
  - apply (moves_out _ _ [] []); [by destruct (ap_link_ps hw)|].
    eapply moves_before; [by apply (moves_set_ap l a p (add_sleeper p 1))|by apply (moves_set_sta _ i s)].
Qed.

Lemma purge_queues_ok l i : inv hw None l -> is_Some (stas l !! i) -> ok l [] (purge_queues l i).
Proof.
  intros Hinv [s Hi]; unfold purge_queues; rewrite Hi; cbn [mbind option_bind].
  pose proof (i_stas _ _ _ Hinv _ _ Hi) as Hw; pose proof Hw as [[Lf _] [Lp _] _].
  assert (Hno : forall b, nonempty_in b no_frames).
  { intros b ac; unfold queue at 1; destruct (no_frames !! ac) as [q|] eqn:E; cbn; [|lia].
    assert (Forall (fun q => q = []) no_frames) as F by (unfold no_frames; repeat (apply Forall_cons_2; [done|]); apply Forall_nil_2).
    rewrite (Forall_lookup_1 _ _ _ _ F E); cbn; lia. }
  apply ok_moves.
  - apply (inv_shrinks hw None (set_total l _) i s); [by apply inv_total|done|]; apply shrinks_bufs; [done|done|apply Hno|apply Hno].
  - rewrite <- Z.add_opp_r; apply (moves_sta l i s); [done| |unfold counted_sta; cbn; lia].
    rewrite out_freed, app_nil_r, purged_perm by done; done.
Qed.

Lemma cleanup_single_ok l i : inv hw None l -> is_Some (stas l !! i) -> ok l [] (cleanup_single_sta hw l i).
Proof.
  intros Hinv [s Hi]; unfold cleanup_single_sta; rewrite Hi; cbn [mbind option_bind]; destruct (ps_sta s) eqn:Es.
  2: { apply purge_queues_ok; [done|by exists s]. }
  destruct (sta_bss s) as [a|] eqn:Hb; [|apply ok_moves; [done|apply moves_refl]].
  destruct (i_bss _ _ _ Hinv _ _ _ Hi Hb) as [p Hp]; rewrite Hp; cbn [mbind option_bind].
  change (set_ap (set_sta l i ?s') a ?p') with (set_sta (set_ap l a p') i s'); set (l1 := set_sta _ _ _).
  pose proof (i_stas _ _ _ Hinv _ _ Hi) as Hw.
  assert (Hinv1 : inv hw None l1).
  { apply (inv_toggle hw None l i s _ a p); try done; [by apply wf_set_flags| |by right].
    unfold sleeps_at; cbn [set_ps_sta set_flags sta_bss ps_sta]; by rewrite Hb, Es, bool_decide_true. }
  eapply ok_before with (l1 := sta_info_recalc_tim hw l1 i); [by apply inv_recalc, inv_weaken| |].
  - eapply moves_after; [|apply moves_recalc]; eapply moves_before; [by apply (moves_set_ap l a p (add_sleeper p (-1)))|by apply (moves_set_sta _ i s)].
  - intros Hinv2; apply purge_queues_ok; [done|]; rewrite stas_recalc; unfold l1; cbn [set_sta stas set_ap].
    apply lookup_lt_is_Some; rewrite length_insert; by eapply lookup_lt_Some.
Qed.

Lemma bc_loop_spec prepare q : let '(q', n, e) := bc_loop prepare q in
  (ptr <$> q') ++ out e ≡ₚ ptr <$> q /\ n = Z.of_nat (length q) - Z.of_nat (length q') /\ (length q' <= length q)%nat.
Proof.
  induction q as [|s q IH]; [done|]; cbn [bc_loop]; set (s' := if _ && _ then _ else s); assert (Ep : ptr s' = ptr s) by (unfold s'; by destruct (_ && _)).
  destruct (prepare s').
  { cbn [length]; split; [|lia]; unfold out; cbn; rewrite Ep; by rewrite Permutation_app_comm. }
  destruct (bc_loop prepare q) as [[q' n] e]; destruct IH as (Hp & Hn & Hl); cbn [length]; split; [|lia].
  change (out (Freed s' :: e)) with (ptr s' :: out e); rewrite Ep, <- Permutation_middle, Hp; done.
Qed.

Lemma ap_ok l a p p' n e : inv hw None l -> aps l !! a = Some p -> tim p' = tim p -> num_sta_ps p' = num_sta_ps p ->
  (length (bc_buf p') <= length (bc_buf p))%nat -> held_ap p' ++ out e ≡ₚ held_ap p -> n = counted_ap p' - counted_ap p ->
  ok l [] (Some (set_ap (set_total l (total_ps_buffered l + n)) a p', e)).
Proof.
  intros Hinv Hp Et En Hl Hh Hn; apply ok_moves.
  - apply (inv_set_ap hw None (set_total l _) a p); [by apply inv_total|done| |done|done].
    destruct (i_aps _ _ _ Hinv _ _ Hp); split; [by rewrite Et|lia].
  - apply (moves_ap l a p); [done|by rewrite app_nil_r|done].
Qed.

Lemma stop_ap_ok l a : inv hw None l -> is_Some (aps l !! a) -> ok l [] (ieee80211_stop_ap l a).
Proof.
  intros Hinv [p Hp]; unfold ieee80211_stop_ap; rewrite Hp; cbn [mbind option_bind]; rewrite <- Z.add_opp_r.
  apply (ap_ok l a p); [done|done|done|done|cbn; lia|by rewrite out_freed|unfold counted_ap; cbn; lia].
Qed.

Lemma buffered_bc_ok prepare ready l a : inv hw None l -> is_Some (aps l !! a) -> ok l [] (ieee80211_get_buffered_bc prepare ready l a).
Proof.
  intros Hinv [p Hp]; unfold ieee80211_get_buffered_bc; rewrite Hp; cbn [mbind option_bind].
  destruct (negb ready); [apply ok_moves; [done|apply moves_refl]|]; destruct (_ || _); [apply ok_moves; [done|apply moves_refl]|].
  pose proof (bc_loop_spec prepare (bc_buf p)) as H; destruct (bc_loop prepare (bc_buf p)) as [[q n] e]; destruct H as (Hq & Hn & Hl).
  rewrite <- Z.add_opp_r; apply (ap_ok l a p); [done|done|done|done|done|done|unfold counted_ap; cbn [set_bc bc_buf]; lia].
Qed.

Lemma beacon_ok n l a : inv hw None l -> is_Some (aps l !! a) -> ok l [] (beacon n l a).
Proof.
  intros Hinv [p Hp]; unfold beacon; rewrite Hp; cbn [mbind option_bind]; destruct (Tim.__ieee80211_beacon_add_tim _ _ _ _ _) as [[c bc] el].
  apply ok_moves; [apply (inv_set_ap hw None l a p); try done; by destruct (i_aps _ _ _ Hinv _ _ Hp)|].
  apply (moves_out _ _ [] []); [done|]; by apply (moves_set_ap l a p).
Qed.

(** ** Lemmas: runs *)

(** The indices an operation uses, of [na] access points and [ns] stations; a
    frame has one of the four queues. *)
Definition valid (na ns : nat) (o : op) : Prop :=
  match o with
  | Tx _ _ _ sta bss s => (forall i, sta = Some i -> (i < ns)%nat) /\ (forall a, bss = Some a -> (a < na)%nat) /\ (mapping s < 4)%nat
  | Filtered _ i _ | Wakeup i | Poll i | Trigger i | SetBuffered i _ _ | BlockAwake i _ | Unblock i | Sleep i | Destroy i | Released i => (i < ns)%nat
  | StopAp a | Beacon a _ | BufferedBc a _ _ => (a < na)%nat
  | Cleanup _ => True
  end.

Definition added (o : op) : list nat := match o with Tx _ _ _ _ _ s | Filtered _ _ s => [ptr s] | _ => [] end.

Lemma ps_op_ok o l : inv hw None l -> valid (length (aps l)) (length (stas l)) o ->
  exists l' e, run_op hw o l = Some (l', e) /\ inv hw None l' /\ keeps l l' (added o) e.
Proof.
  intros Hinv Hv; assert (Hm : forall r, ok l (added o) r -> exists l' e, r = Some (l', e) /\ inv hw None l' /\ keeps l l' (added o) e).
  { intros r (l' & e & -> & Hi & Hm); exists l', e; split; [done|]; split; [done|by apply moves_keeps]. }
  destruct o as [j b u st bss s|j i s|i|i|i|j|i t b|i b|i|i|i|i|a|a n|a r k]; cbn [valid run_op added] in *;
    try (apply lookup_lt_is_Some in Hv); [|apply Hm..].
  - destruct Hv as (Hst & Hbss & Hmap); assert (H : ok_tx l s (ieee80211_tx_h_ps_buf hw j b u st bss l s)).
    { unfold ieee80211_tx_h_ps_buf; destruct b; [by apply continue_ok|]; destruct u.
      - apply unicast_ok; [done| |done]; intros i Ei; apply lookup_lt_is_Some_2; auto.
      - apply multicast_ok; [done|]; intros a Ea; apply lookup_lt_is_Some_2; auto. }
    destruct H as (l' & v & e & -> & Hi & Hk); cbn [mbind option_bind]; by exists l', (e ++ event_of v).
  - by apply filtered_ok.
  - by apply wakeup_ok.
  - by apply poll_ok.
  - by apply uapsd_ok.
  - destruct (cleanup_ok j l (seq 0 (length (stas l))) Hinv) as (l' & b & e & -> & Hi & Hmv).
    { apply list.Forall_forall; intros i Hin; apply elem_of_seq in Hin; apply lookup_lt_is_Some_2; lia. }
    cbn [mbind option_bind]; by apply ok_moves.
  - by apply set_buffered_ok.
  - by apply block_ok.
  - by apply unblock_ok.
  - destruct Hv as [s Hi]; rewrite Hi; cbn [mbind option_bind]; destruct (ps_sta s) eqn:E; [apply ok_moves; [done|apply moves_refl]|].
    by apply (sleep_ok l i s).
  - destruct Hv as [s Hi]; unfold __sta_info_destroy; rewrite Hi; cbn [mbind option_bind].
    destruct (flags_ok l i s true (ps_driver s) (sp s) (pspoll s) (uapsd s) Hinv Hi) as [H1 H2]; [done|]; by apply ok_moves.
  - by apply cleanup_single_ok.
  - by apply stop_ap_ok.
  - by apply beacon_ok.
  - by apply buffered_bc_ok.
Qed.

Lemma ps_run_ok ops l : inv hw None l -> Forall (valid (length (aps l)) (length (stas l))) ops ->
  exists l' e, run hw ops l = Some (l', e) /\ inv hw None l' /\ length (aps l') = length (aps l) /\ length (stas l') = length (stas l) /\
    held l' ++ out e ≡ₚ held l ++ concat (added <$> ops) /\ (0 <= slack l -> 0 <= slack l') /\
    ((forall n l1 e1, run hw (take n ops) l = Some (l1, e1) -> total_ps_buffered l1 < TOTAL_MAX_TX_BUFFER) -> slack l' = slack l).
Proof.
  revert l; induction ops as [|o ops IH]; intros l Hinv Hv.
  { exists l, []; split; [done|]; split; [done|]; done. }
  apply Forall_cons_1 in Hv as [Ho Hv]; destruct (ps_op_ok o l Hinv Ho) as (l1 & e1 & E1 & Hinv1 & [Ka Ks Kp Kl]).
  rewrite <- Ka, <- Ks in Hv; destruct (IH l1 Hinv1 Hv) as (l2 & e2 & E2 & Hinv2 & Ka2 & Ks2 & Kp2 & Kl2 & Kx2).
  cbn [run]; rewrite E1; cbn [mbind option_bind]; rewrite E2; cbn [mbind option_bind]; exists l2, (e1 ++ e2).
  split; [done|]; split; [done|]; split; [congruence|]; split; [congruence|]; split; [|split].
  - rewrite out_app; cbn [fmap list_fmap concat]; transitivity ((held l2 ++ out e2) ++ out e1); [solve_Permutation|].
    rewrite Kp2; transitivity ((held l1 ++ out e1) ++ concat (added <$> ops)); [solve_Permutation|]; rewrite Kp; solve_Permutation.
  - intros H; apply Kl2; destruct Kl as [->|[_ ?]]; done.
  - intros Hx; rewrite Kx2.
    + destruct Kl as [->|[Hge _]]; [done|]; specialize (Hx 0%nat l [] eq_refl); lia.
    + intros n l3 e3 E3; apply (Hx (S n) l3 (e1 ++ e3)); cbn [take run]; rewrite E1; cbn [mbind option_bind]; rewrite E3; done.
Qed.

(** *** What a station with frames sees *)

Lemma indicate_from s ac : dead s = false -> (ac < 4)%nat -> Z.testbit (ignored_acs (uapsd_queues s)) (Z.of_nat ac) = false ->
  queue (tx_filtered s) ac ++ queue (ps_tx_buf s) ac <> [] -> indicate_tim s = true.
Proof.
  intros Hd Hac Hig Hq; unfold indicate_tim; rewrite Hd; assert (Hin : ac ∈ acs).
  { unfold acs; repeat (destruct ac as [|ac]; [set_solver|]); lia. }
  induction acs as [|b l IH]; [by apply elem_of_nil in Hin|]; cbn [indicate_loop].
  apply elem_of_cons in Hin as [<-|Hin].
  - rewrite Hig; destruct (queue (tx_filtered s) ac); [|done]; cbn [is_empty negb orb app] in *; by destruct (queue (ps_tx_buf s) ac).
  - destruct (Z.testbit _ (Z.of_nat b)); [by apply IH|]; destruct (_ || _); [done|]; by rewrite IH, orb_true_r.
Qed.

Lemma sleeps_01 a s : 0 <= sleeps_at a s <= 1.
Proof. unfold sleeps_at; destruct (_ && _); lia. Qed.

Lemma sleepers_range a l : 0 <= sleepers a l <= Z.of_nat (length l).
Proof.
  induction l as [|s l IH]; [done|]; pose proof (sleeps_01 a s); unfold sleepers, zsum in *; cbn [fmap list_fmap foldr length]; lia.
Qed.

Lemma sleepers_bounds a i s l : l !! i = Some s -> sta_bss s = Some a -> ps_sta s = true -> 1 <= sleepers a l <= Z.of_nat (length l).
Proof.
  intros Hi Hb Hp; split; [|apply sleepers_range]; revert i Hi; induction l as [|t l IH]; intros i Hi; [done|].
  pose proof (sleepers_range a l); pose proof (sleeps_01 a t); unfold sleepers, zsum in *; cbn [fmap list_fmap foldr].
  destruct i as [|i]; cbn in Hi; [|specialize (IH i Hi); lia].
  simplify_eq; unfold sleeps_at at 1; rewrite Hb, Hp, bool_decide_true by done; cbn [andb]; lia.
Qed.

End Steps.

(** ** Lemmas: the answer to a poll *)

Definition ready (ignored : Z) (flt ps : list (list sk_buff)) (ac : nat) : bool :=
  negb (Z.testbit ignored (Z.of_nat ac)) && negb (is_empty (queue flt ac ++ queue ps ac)).

Lemma is_empty_app {A} (a b : list A) : is_empty (a ++ b) = is_empty a && is_empty b.
Proof. by destruct a. Qed.

Lemma fetch_empty n ac r : (ac < length (r_filtered r))%nat -> (ac < length (r_ps r))%nat -> found r = false -> frames r = [] -> release_tids r = 0 ->
  is_empty (queue (r_filtered r) ac ++ queue (r_ps r) ac) = true -> response_fetch 0 n ac r = r.
Proof.
  intros Lf Lp Hf Hfr Ht He; unfold response_fetch; rewrite Z.land_0_l; cbn [Z.eqb negb].
  pose proof (queue_lookup _ _ Lf) as Qf; pose proof (queue_lookup _ _ Lp) as Qp.
  destruct (queue (r_filtered r) ac); [|done]; destruct (queue (r_ps r) ac); [|done].
  assert (dequeue_frames n [] [] = ([], 0%nat, [], [])) as -> by (by destruct n).
  rewrite !list_insert_id, app_nil_r, Z.add_0_r by done; destruct r; cbn in *; by subst.
Qed.

Definition with_more (b : bool) (r : response) : response :=
  Resp (found r) (b || more_data r) (release_tids r) (frames r) (taken r) (r_filtered r) (r_ps r).

Lemma response_found reason ig n l r : found r = true -> more_data r = false ->
  response_acs reason 0 ig n l r = with_more (existsb (ready ig (r_filtered r) (r_ps r)) l) r.
Proof.
  intros Hf Hm; induction l as [|ac l IH]; [by destruct r; cbn in *; subst|]; cbn [response_acs existsb].
  unfold ready at 1; destruct (Z.testbit ig _); cbn [negb andb orb]; [done|]; rewrite Hf; cbn [negb andb].
  rewrite is_empty_app, negb_andb; destruct (_ || _) eqn:E; [by unfold with_more; rewrite Hf|done].
Qed.

(** The first category with frames, and those behind it. *)
Fixpoint first_ready (ig : Z) (flt ps : list (list sk_buff)) (l : list nat) : option (nat * list nat) :=
  match l with
  | [] => None
  | ac :: l => if ready ig flt ps ac then Some (ac, l) else first_ready ig flt ps l
  end.

Lemma response_spec reason ig n l r : Forall (fun ac => (ac < length (r_filtered r))%nat /\ (ac < length (r_ps r))%nat) l ->
  found r = false -> more_data r = false -> frames r = [] -> release_tids r = 0 -> (0 < n)%nat ->
  response_acs reason 0 ig n l r =
  match first_ready ig (r_filtered r) (r_ps r) l with
  | None => r
  | Some (ac, l') => let r1 := response_fetch 0 n ac r in with_more (existsb (ready ig (r_filtered r1) (r_ps r1)) (ac :: l')) r1
  end.
Proof.
  intros Hl Hf Hm Hfr Ht Hn; induction l as [|ac l IH]; [done|]; apply Forall_cons_1 in Hl as [[Lf Lp] Hl]; specialize (IH Hl).
  cbn [response_acs first_ready]; unfold ready at 1; destruct (Z.testbit ig (Z.of_nat ac)) eqn:Eb; cbn [negb andb]; [done|]; rewrite Hf.
  destruct (is_empty (queue (r_filtered r) ac ++ queue (r_ps r) ac)) eqn:Ee; cbn [negb].
  - rewrite (fetch_empty n ac r) by done; rewrite Ht; cbn [negb andb]; rewrite andb_false_r, is_empty_app in *.
    apply andb_true_iff in Ee as [-> ->]; done.
  - cbn zeta; set (r1 := response_fetch 0 n ac r).
    assert (Hr1 : found r1 = true /\ more_data r1 = false /\ release_tids r1 = 0).
    { unfold r1, response_fetch; rewrite Z.land_0_l; cbn [Z.eqb negb]; destruct n as [|n]; [lia|].
      destruct (queue (r_filtered r) ac) as [|x flt] eqn:Qf; [destruct (queue (r_ps r) ac) as [|x ps] eqn:Qp; [done|]|]; cbn [dequeue_frames].
      - by destruct (dequeue_frames n [] ps) as [[[]]].
      - by destruct (dequeue_frames n flt (queue (r_ps r) ac)) as [[[]]]. }
    destruct Hr1 as (F1 & M1 & T1); rewrite T1; change (hweight16 0) with 0; cbn [negb andb]; rewrite andb_false_r.
    cbn [existsb]; unfold ready at 1; rewrite Eb, is_empty_app, negb_andb; cbn [negb andb].
    destruct (_ || _) eqn:E; cbn [orb]; [by unfold with_more; rewrite T1|by apply response_found].
Qed.

Lemma first_ready_split ig flt ps l ac l' : first_ready ig flt ps l = Some (ac, l') ->
  exists pre, l = pre ++ ac :: l' /\ Forall (fun b => ready ig flt ps b = false) pre /\ ready ig flt ps ac = true.
Proof.
  induction l as [|b l IH]; [done|]; cbn [first_ready]; destruct (ready ig flt ps b) eqn:E.
  - intros [= -> ->]; by exists [].
  - intros H; destruct (IH H) as (pre & -> & Hp & Hr); exists (b :: pre); split; [done|]; split; [by constructor|done].
Qed.

Lemma first_ready_none ig flt ps l : first_ready ig flt ps l = None -> List.find (ready ig flt ps) l = None.
Proof. induction l as [|b l IH]; [done|]; cbn; by destruct (ready ig flt ps b). Qed.

Lemma first_ready_find ig flt ps l ac l' : first_ready ig flt ps l = Some (ac, l') -> List.find (ready ig flt ps) l = Some ac.
Proof. induction l as [|b l IH]; [done|]; cbn; destruct (ready ig flt ps b); [by intros [= -> ->]|done]. Qed.

Lemma dequeue_take n flt ps : (dequeue_frames n flt ps).1.1.1 = take n (flt ++ ps).
Proof.
  revert flt ps; induction n as [|n IH]; intros flt ps; [done|]; cbn [dequeue_frames].
  destruct flt as [|s flt]; [destruct ps as [|s ps]; [done|]|].
  - specialize (IH [] ps); destruct (dequeue_frames n [] ps) as [[[l k] flt'] ps']; cbn in *; by rewrite IH.
  - specialize (IH flt ps); destruct (dequeue_frames n flt ps) as [[[l k] flt'] ps']; cbn in *; by rewrite IH.
Qed.

Lemma byte_alter_ne f (d : list Z) i j : j <> i -> (alter f i d).[j] = d.[j].
Proof. intros Hn; unfold byte_at; rewrite !nth_lookup, list_lookup_alter_ne by done; done. Qed.

Lemma qos_ctl_offset d : (24 <= ieee80211_get_qos_ctl d)%nat.
Proof. unfold ieee80211_get_qos_ctl; destruct (ieee80211_has_a4 _); lia. Qed.

Lemma map_fc_fc f d : is_u16 (f (frame_control d)) -> frame_control (map_fc f d) = f (frame_control d).
Proof.
  intros Hf; unfold map_fc, frame_control at 1; unfold get_le16; rewrite !byte_at_header by (cbn; lia); by apply get_put_le16.
Qed.

Lemma moredata_set fc (b : bool) : is_u16 fc ->
  let fc' := if b then Z.lor fc IEEE80211_FCTL_MOREDATA else Z.land fc (u16 (Z.lnot IEEE80211_FCTL_MOREDATA)) in
  is_u16 fc' /\ ieee80211_has_moredata fc' = b.
Proof.
  intros Hf; destruct b; cbn zeta; (split; [|unfold ieee80211_has_moredata]).
  - apply is_uint_lor; [lia|done|by_eval].
  - apply negb_true_iff, Z.eqb_neq; rewrite Z.land_lor_distr_l; intros E; apply Z.lor_eq_0_iff in E as [_ E]; discriminate E.
  - apply is_uint_land; [lia|done|by vm_compute].
  - apply negb_false_iff, Z.eqb_eq; rewrite <- Z.land_assoc; replace (Z.land (u16 _) _) with 0 by reflexivity; apply Z.land_0_r.
Qed.

Lemma release_lookup reason more l : Forall (fun f => bytes (data f)) l -> forall j f, (release_frames reason more l).1 !! j = Some f ->
  no_ps_buffer f = true /\ ieee80211_has_moredata (frame_control (data f)) = more || negb (bool_decide (S j = length l)).
Proof.
  induction 1 as [|s l Hs Hl IH]; [done|]; intros j f; cbn [release_frames]; set (d := map_fc _ (data s)).
  set (d' := if _ && _ && _ then _ else d); destruct (release_frames reason more l) as [l' t]; cbn [fst] in *; intros Hj.
  destruct j as [|j]; cbn in Hj.
  - simplify_eq; cbn [no_ps_buffer data]; split; [done|].
    assert (Ed : frame_control d' = frame_control d).
    { unfold d'; destruct (_ && _); [|done]; pose proof (qos_ctl_offset d); unfold frame_control, get_le16.
      by rewrite !byte_alter_ne by lia. }
    pose proof (moredata_set (frame_control (data s)) (more || negb (is_empty l)) ltac:(by apply get_le16_range)) as [Hu Hm].
    rewrite Ed; unfold d; rewrite map_fc_fc by done; rewrite Hm; f_equal; destruct l; cbn; [by rewrite bool_decide_true|by rewrite bool_decide_false].
  - destruct (IH j f Hj) as [-> ->]; split; [done|]; f_equal; f_equal; cbn [length]; apply bool_decide_ext; lia.
Qed.

Lemma ready_same ig flt ps flt' ps' l : (forall b, b ∈ l -> queue flt' b = queue flt b /\ queue ps' b = queue ps b) ->
  Forall (fun b => ready ig flt ps b = false) l -> existsb (ready ig flt' ps') l = false.
Proof.
  induction l as [|b l IH]; intros Hq Hf; [done|]; apply Forall_cons_1 in Hf as [Hb Hf]; cbn [existsb].
  destruct (Hq b) as [E1 E2]; [set_solver|]; unfold ready in *; rewrite E1, E2, Hb; apply IH; [set_solver|done].
Qed.

(** What the loop over the categories finds. *)
Lemma response_first reason ig n flt ps ac later : length flt = 4%nat -> length ps = 4%nat ->
  first_ready ig flt ps acs = Some (ac, later) -> (0 < n)%nat ->
  let r := response_acs reason 0 ig n acs (Resp false false 0 [] 0 flt ps) in
  let q := queue flt ac ++ queue ps ac in
  found r = true /\ release_tids r = 0 /\ frames r = take n q /\ queue (r_filtered r) ac ++ queue (r_ps r) ac = drop n q /\
  (forall b, b <> ac -> queue (r_filtered r) b = queue flt b /\ queue (r_ps r) b = queue ps b) /\
  more_data r = existsb (ready ig (r_filtered r) (r_ps r)) acs.
Proof.
  intros Lf Lp Er Hn r q; destruct (first_ready_split _ _ _ _ _ _ Er) as (pre & Epre & Hpre & Hready).
  assert (Hac : (ac < 4)%nat /\ ac ∉ pre).
  { split; [|intros Hin; apply list.Forall_forall with (x := ac) in Hpre; [congruence|done]].
    assert (Hin : Forall (fun b => (b < 4)%nat) acs) by (unfold acs; repeat (apply Forall_cons_2; [lia|]); apply Forall_nil_2).
    rewrite Epre in Hin; apply Forall_app in Hin as [_ Hin]; by apply Forall_cons_1 in Hin as [? _]. }
  destruct Hac as [Hac Hnot]; unfold r; rewrite response_spec; cbn [found more_data frames release_tids r_filtered r_ps]; try done.
  2: { unfold acs; rewrite Lf, Lp; repeat (apply Forall_cons_2; [lia|]); apply Forall_nil_2. }
  rewrite Er; cbn zeta; unfold response_fetch; rewrite Z.land_0_l; cbn [Z.eqb negb r_filtered r_ps frames more_data taken].
  pose proof (dequeue_take n (queue flt ac) (queue ps ac)) as Hl; pose proof (dequeue_spec n (queue flt ac) (queue ps ac)) as Hd.
  destruct (dequeue_frames n _ _) as [[[fs k] flt'] ps']; cbn [fst] in Hl; destruct Hd as (Hd & _); fold q in Hl, Hd.
  set (F := <[ac := flt']> flt); set (P := <[ac := ps']> ps).
  unfold with_more; cbn [found more_data frames release_tids r_filtered r_ps]; rewrite orb_false_r; cbn [app].
  assert (Hne : is_empty q = false) by (unfold ready in Hready; fold q in Hready; apply andb_true_iff in Hready as [_ H]; by apply negb_true_iff in H).
  assert (Hother : forall b, b <> ac -> queue F b = queue flt b /\ queue P b = queue ps b)
    by (intros b Hb; unfold F, P; rewrite !queue_insert by lia; by rewrite !decide_False by done).
  split; [rewrite Hl; destruct q; [done|]; destruct n; [lia|done]|]; split; [done|]; split; [done|]; split; [|split; [done|]].
  - unfold F, P; rewrite !queue_insert by lia; rewrite !decide_True by done.
    apply (app_inv_head (take n q)); rewrite take_drop, <- Hl; done.
  - rewrite Epre, existsb_app; rewrite (ready_same ig flt ps F P pre); [done| |done].
    intros b Hb; apply Hother; by intros ->.
Qed.

(** ** Properties *)

(** C22: whatever happens - frames sent and filtered, stations that sleep, poll,
    wake, let frames expire, are blocked or removed, multicast frames released,
    buffers purged - every frame given to the buffers is there or has left them
    in exactly one event. *)
Theorem ps_frames_conserved hw ops l : inv hw None l -> Forall (valid (length (aps l)) (length (stas l))) ops ->
  exists l' e, run hw ops l = Some (l', e) /\ held l' ++ out e ≡ₚ held l ++ concat (added <$> ops).
Proof. intros Hi Hv; destruct (ps_run_ok hw ops l Hi Hv) as (l' & e & E & _ & _ & _ & Hp & _); by exists l', e. Qed.

(** C23: the state stays well-formed: four queues of at most 64 frames each per
    station, at most 128 multicast frames per access point, a map of 256
    bytes, the number of sleeping stations of each access point, and a bit set
    for each station with frames to announce. *)
Theorem ps_state_well_formed hw ops l : inv hw None l -> Forall (valid (length (aps l)) (length (stas l))) ops ->
  exists l' e, run hw ops l = Some (l', e) /\ inv hw None l'.
Proof. intros Hi Hv; destruct (ps_run_ok hw ops l Hi Hv) as (l' & e & E & Hi' & _); by exists l', e. Qed.

(** C7: after any run, a sleeping station for which a frame is buffered in a
    category it does not trigger itself finds its bit in the next beacon: what
    the access point writes, the station reads. *)
Theorem sleeping_station_told hw ops l l' e i s a ac dtim_period :
  ap_link_ps hw = false -> inv hw None l -> Forall (valid (length (aps l)) (length (stas l))) ops -> Z.of_nat (length (stas l)) < 2 ^ 31 ->
  run hw ops l = Some (l', e) -> stas l' !! i = Some s -> sta_bss s = Some a -> dead s = false -> ps_sta s = true ->
  (ac < 4)%nat -> Z.testbit (ignored_acs (uapsd_queues s)) (Z.of_nat ac) = false -> queue (tx_filtered s) ac ++ queue (ps_tx_buf s) ac <> [] ->
  exists l'' el, beacon dtim_period l' a = Some (l'', [BeaconTim a el]) /\
    ieee80211_check_tim (Some (drop 2 el)) (el.[1]) (aid s) = Some true.
Proof.
  intros Hl Hinv Hv Hlen E Hi Hb Hd Hps Hac Hig Hq; destruct (ps_run_ok hw ops l Hinv Hv) as (l1 & e1 & E1 & Hinv1 & _ & Hs & _).
  rewrite E in E1; simplify_eq; destruct (i_bss _ _ _ Hinv1 _ _ _ Hi Hb) as [p Hp]; unfold beacon; rewrite Hp; cbn [mbind option_bind].
  pose proof (Tim.beacon_element (tim p) (num_sta_ps p) (dtim_count p) dtim_period (negb (is_empty (bc_buf p))) (aid s)) as H.
  destruct (Tim.__ieee80211_beacon_add_tim _ _ _ _ _) as [[c bc] el]; eexists _, el; split; [reflexivity|]; cbn [snd] in H.
  destruct H as (_ & _ & ->); [apply (wf_tim _ (i_aps _ _ _ Hinv1 _ _ Hp))|apply (wf_aid _ (i_stas _ _ _ Hinv1 _ _ Hi))|].
  rewrite (i_tim _ _ _ Hinv1 Hl i s a p) by (try done; by eapply indicate_from); f_equal; rewrite andb_true_r.
  rewrite (i_count _ _ _ Hinv1 _ _ Hp); pose proof (sleepers_bounds a i s (stas l1) Hi Hb Hps) as Hn; rewrite Hs in Hn.
  unfold s32; rewrite Z.mod_small by lia; rewrite Z.gtb_ltb; apply Z.ltb_lt; lia.
Qed.

(** The counter of buffered frames never counts more than there are, and
    counts them all as long as it stays below the limit, so that no purge
    takes place. *)
Theorem ps_counter hw ops l : inv hw None l -> Forall (valid (length (aps l)) (length (stas l))) ops -> total_ps_buffered l = counted l ->
  exists l' e, run hw ops l = Some (l', e) /\ total_ps_buffered l' <= counted l' /\
    ((forall n l1 e1, run hw (take n ops) l = Some (l1, e1) -> total_ps_buffered l1 < TOTAL_MAX_TX_BUFFER) -> total_ps_buffered l' = counted l').
Proof.
  intros Hi Hv Ht; destruct (ps_run_ok hw ops l Hi Hv) as (l' & e & E & _ & _ & _ & _ & Hs & Hx); exists l', e; split; [done|].
  unfold slack in *; split; [lia|]; intros H; specialize (Hx H); lia.
Qed.

(** A poll or trigger frame of a station for which the driver holds nothing
    releases the oldest frames, filtered ones first, of the most urgent category
    that has any, as many as asked for; the others stay in order.  Each frame
    released says in its header whether more follow it or stay behind; without
    frames the answer is a null frame. *)
Theorem response_oldest_first hw l i s n ignored reason : inv hw None l -> stas l !! i = Some s -> driver_buffered_tids s = 0 -> (0 < n)%nat ->
  (forall ac, Forall (fun f => bytes (data f)) (queue (tx_filtered s) ac ++ queue (ps_tx_buf s) ac)) ->
  exists l' e s', ieee80211_sta_ps_deliver_response hw l i n ignored reason = Some (l', e) /\ stas l' !! i = Some s' /\
  match List.find (ready ignored (tx_filtered s) (ps_tx_buf s)) acs with
  | None => tx_filtered s' = tx_filtered s /\ ps_tx_buf s' = ps_tx_buf s /\ e = [NullResponse (7 - Z.shiftl (ffs (Z.lnot ignored) - 1) 1)]
  | Some ac => exists tids fs more, e = [AllowBuffered tids (Z.of_nat (length fs)) more; Pending fs] /\
      let q := queue (tx_filtered s) ac ++ queue (ps_tx_buf s) ac in
      ptr <$> fs = ptr <$> take n q /\
      queue (tx_filtered s') ac ++ queue (ps_tx_buf s') ac = drop n q /\
      (forall b, b <> ac -> queue (tx_filtered s') b = queue (tx_filtered s) b /\ queue (ps_tx_buf s') b = queue (ps_tx_buf s) b) /\
      more = existsb (ready ignored (tx_filtered s') (ps_tx_buf s')) acs /\
      forall j f, fs !! j = Some f ->
        no_ps_buffer f = true /\ ieee80211_has_moredata (frame_control (data f)) = more || negb (bool_decide (S j = length fs))
  end.
Proof.
  intros Hinv Hi Ht Hn Hbytes; pose proof (i_stas _ _ _ Hinv _ _ Hi) as [[Lf _] [Lp _] _].
  unfold ieee80211_sta_ps_deliver_response; rewrite Hi; cbn [mbind option_bind].
  change (driver_buffered_tids (set_sp s true)) with (driver_buffered_tids s); rewrite Ht.
  change (tx_filtered (set_sp s true)) with (tx_filtered s); change (ps_tx_buf (set_sp s true)) with (ps_tx_buf s).
  assert (Hlen : (i < length (stas l))%nat) by (by eapply lookup_lt_Some).
  set (r := response_acs _ _ _ _ _ _); set (s' := set_bufs _ _ _).
  assert (Hs' : forall t, <[i := s']> (stas l) !! i = Some t <-> t = s') by (intros t; rewrite list_lookup_insert_eq by done; naive_solver).
  destruct (first_ready ignored (tx_filtered s) (ps_tx_buf s) acs) as [[ac later]|] eqn:Er.
  - rewrite (first_ready_find _ _ _ _ _ _ Er).
    destruct (response_first reason ignored n (tx_filtered s) (ps_tx_buf s) ac later Lf Lp Er Hn) as (Ef & Et & Efr & Eq & Eo & Em).
    fold r in Ef, Et, Efr, Eq, Eo, Em; rewrite Ef, Et; cbn [negb Z.eqb].
    pose proof (release_ptrs reason (more_data r) (frames r)) as Hptr; pose proof (release_lookup reason (more_data r) (frames r)) as Hlook.
    destruct (release_frames reason (more_data r) (frames r)) as [fs tids]; cbn [fst] in Hptr, Hlook.
    eexists _, _, s'; split; [reflexivity|]; split; [rewrite stas_recalc; by apply Hs'|].
    exists tids, fs, (more_data r); split; [done|]; split; [by rewrite Hptr, Efr|]; split; [exact Eq|]; split; [exact Eo|]; split; [exact Em|].
    intros j f Hj; assert (Hfs : length fs = length (frames r)) by (by rewrite <- (length_fmap ptr fs), Hptr, length_fmap).
    rewrite Hfs; apply Hlook; [|done]; rewrite Efr; apply Forall_take, Hbytes.
  - rewrite (first_ready_none _ _ _ _ Er).
    assert (Er' : r = Resp false false 0 [] 0 (tx_filtered s) (ps_tx_buf s)).
    { unfold r; rewrite response_spec; cbn [found more_data frames release_tids r_filtered r_ps]; try done; [by rewrite Er|].
      rewrite Lf, Lp; unfold acs; repeat (apply Forall_cons_2; [lia|]); apply Forall_nil_2. }
    unfold s'; rewrite Er'; cbn [found negb]; eexists _, _, (set_bufs (set_sp s true) (tx_filtered s) (ps_tx_buf s)); split; [reflexivity|]; split; [|done].
    cbn [set_sta stas set_total]; by apply list_lookup_insert_eq.
Qed.

(** ** Witnesses *)

Definition demo_hw : hw_conf := Hw false true 100.
Definition demo_sta (id tids : Z) : sta_info :=
  Sta (Some 0%nat) id 0 0 10 100 false false false false false false false tids no_frames no_frames 0.
Definition demo_ap : ps_data := Ps (repeat 0 Tim.TIM_SIZE) [] 0 0 false.
Definition demo_local : local := Local 0 [demo_ap] [demo_sta 77 0; demo_sta 300 0; demo_sta 5 0].
(** A data frame of category [ac]. *)
Definition demo_frame (k ac : nat) : sk_buff := Skb k ([0x08; 0x02] ++ repeat 0 30) ac 0 false false false false false false false.
Definition unicast (i k ac : nat) : op := Tx 1000 false true (Some i) (Some 0%nat) (demo_frame k ac).

(** Two frames for the sleeping station 300, a multicast frame, the beacon and
    a poll, and the end of the sleep of station 77. *)
Definition demo_ops : list op :=
  [Sleep 0; Sleep 1; unicast 1 1 2; unicast 1 2 0; unicast 0 3 2; Tx 1001 false false None (Some 0%nat) (demo_frame 4 2);
   Beacon 0 1; Poll 1; Wakeup 0].

Lemma demo_wf id tids : 0 <= id <= Tim.IEEE80211_MAX_AID -> wf_sta (demo_sta id tids).
Proof. intros H; split; [apply bounded_no_frames|apply bounded_no_frames|done]. Qed.

Lemma demo_inv : inv demo_hw None demo_local.
Proof.
  assert (Hst : forall i s, stas demo_local !! i = Some s -> (i = 0%nat /\ s = demo_sta 77 0) \/ (i = 1%nat /\ s = demo_sta 300 0) \/ (i = 2%nat /\ s = demo_sta 5 0))
    by (intros [|[|[|i]]] s H; cbn in H; simplify_eq; auto).
  assert (Hap : forall a p, aps demo_local !! a = Some p -> a = 0%nat /\ p = demo_ap) by (intros [|a] p H; cbn in H; simplify_eq; auto).
  split.
  - intros i s H; destruct (Hst _ _ H) as [(_ & ->)|[(_ & ->)|(_ & ->)]]; apply demo_wf; unfold Tim.IEEE80211_MAX_AID; lia.
  - intros a p H; destruct (Hap _ _ H) as (_ & ->); split; [split; [by_eval|done]|cbn; lia].
  - intros i s a H Ha; destruct (Hst _ _ H) as [(_ & ->)|[(_ & ->)|(_ & ->)]]; simplify_eq/=; by eexists.
  - intros i j s s' a Hi Hj _ _; destruct (Hst _ _ Hi) as [(-> & ->)|[(-> & ->)|(-> & ->)]], (Hst _ _ Hj) as [(-> & ->)|[(-> & ->)|(-> & ->)]];
      cbn [demo_sta aid]; lia.
  - intros a p H; by destruct (Hap _ _ H) as (-> & ->).
  - intros _ i s a p _ H _ _; by destruct (Hst _ _ H) as [(_ & ->)|[(_ & ->)|(_ & ->)]].
Qed.

Lemma demo_valid : Forall (valid 1 3) demo_ops.
Proof.
  unfold demo_ops, unicast; repeat apply Forall_cons_2; try apply Forall_nil_2; cbn [valid demo_frame mapping]; try lia;
    (split; [intros i [= <-] || done; lia|split; [intros a [= <-]; lia|lia]]).
Qed.

Lemma ps_frames_conserved_witness : exists l' e, run demo_hw demo_ops demo_local = Some (l', e) /\ held l' ++ out e ≡ₚ [1; 2; 3; 4]%nat.
Proof.
  destruct (ps_frames_conserved demo_hw demo_ops demo_local demo_inv demo_valid) as (l' & e & E & Hp).
  exists l', e; split; [exact E|]; exact Hp.
Defined.

Lemma ps_state_well_formed_witness : exists l' e, run demo_hw demo_ops demo_local = Some (l', e) /\ inv demo_hw None l'.
Proof. apply (ps_state_well_formed demo_hw demo_ops demo_local demo_inv demo_valid). Defined.

Lemma ps_counter_witness : exists l' e, run demo_hw demo_ops demo_local = Some (l', e) /\ total_ps_buffered l' <= counted l'.
Proof.
  destruct (ps_counter demo_hw demo_ops demo_local demo_inv demo_valid eq_refl) as (l' & e & E & Hp & _); by exists l', e.
Defined.

(** What leaves the buffers in the run: the frame of the most urgent category
    for the poll, those of station 77 when it wakes; one frame stays. *)
Example demo_run :
  match run demo_hw demo_ops demo_local with Some (l, e) => (held l, out e, total_ps_buffered l) | None => ([], [], 0) end =
  ([4; 1]%nat, [2; 3]%nat, 2).
Proof. vm_compute; reflexivity. Qed.

Abbreviation demo_buffered := (run demo_hw (take 6 demo_ops) demo_local).

Lemma sleeping_station_told_witness : exists l e s l'' el, demo_buffered = Some (l, e) /\ stas l !! 1%nat = Some s /\
  beacon 1 l 0 = Some (l'', [BeaconTim 0 el]) /\ ieee80211_check_tim (Some (drop 2 el)) (el.[1]) 300 = Some true.
Proof.
  assert (Hv : Forall (valid 1 3) (take 6 demo_ops)) by (apply Forall_take, demo_valid).
  assert (Hc : match demo_buffered with
    | Some (l, _) => match stas l !! 1%nat with
        | Some s => bool_decide (sta_bss s = Some 0%nat) && negb (dead s) && ps_sta s && (aid s =? 300) && (uapsd_queues s =? 0) &&
                    negb (is_empty (queue (tx_filtered s) 2 ++ queue (ps_tx_buf s) 2))
        | None => false end
    | None => false end = true) by (vm_compute; reflexivity).
  destruct demo_buffered as [[l e]|] eqn:E; [|done]; destruct (stas l !! 1%nat) as [s|] eqn:Es; [|done].
  rewrite !andb_true_iff, !negb_true_iff in Hc; destruct Hc as (((((Hb & Hd) & Hp) & Ha%Z.eqb_eq) & Hu%Z.eqb_eq) & Hq).
  apply bool_decide_eq_true in Hb.
  destruct (sleeping_station_told demo_hw (take 6 demo_ops) demo_local l e 1 s 0 2 1 eq_refl demo_inv Hv) as (l'' & el & Eb & Ec);
    [cbn; lia|exact E|done|done|done|done|lia|by rewrite Hu|by intros Hn; rewrite Hn in Hq|].
  exists l, e, s, l'', el; rewrite Ha in Ec; done.
Defined.

(** Station 300 with frames in two categories. *)
Definition demo_asleep : sta_info :=
  set_bufs (set_ps_sta (demo_sta 300 0) true) [[]; []; [demo_frame 1 2]; []] [[demo_frame 2 0; demo_frame 3 0]; []; [demo_frame 4 2]; []].
Definition demo_told : ps_data := set_tim (add_sleeper demo_ap 1) (Tim.__bss_tim_set (repeat 0 Tim.TIM_SIZE) 300).
Definition demo_full : local := Local 3 [demo_told] [demo_asleep].

Lemma demo_full_inv : inv demo_hw None demo_full.
Proof.
  assert (Hst : forall i s, stas demo_full !! i = Some s -> i = 0%nat /\ s = demo_asleep) by (intros [|i] s H; cbn in H; simplify_eq; auto).
  assert (Hap : forall a p, aps demo_full !! a = Some p -> a = 0%nat /\ p = demo_told) by (intros [|a] p H; cbn in H; simplify_eq; auto).
  assert (Hb : forall b, length b = 4%nat -> Forall (fun q : list sk_buff => (length q <= STA_MAX_TX_BUFFER)%nat) b -> bounded b).
  { intros b Hlb Hf; split; [done|]; intros ac; unfold queue; destruct (b !! ac) as [q|] eqn:E; cbn; [|lia]; apply (Forall_lookup_1 _ _ _ _ Hf E). }
  split.
  - intros i s H; destruct (Hst _ _ H) as (_ & ->); split; [apply Hb; [done|by_eval]|apply Hb; [done|by_eval]|unfold Tim.IEEE80211_MAX_AID; cbn; lia].
  - intros a p H; destruct (Hap _ _ H) as (_ & ->); split; [split; [by_eval|by vm_compute]|cbn; lia].
  - intros i s a H Ha; destruct (Hst _ _ H) as (_ & ->); simplify_eq/=; by eexists.
  - intros i j s s' a Hi Hj _ _ _; destruct (Hst _ _ Hi) as (-> & _), (Hst _ _ Hj) as (-> & _); done.
  - intros a p H; by destruct (Hap _ _ H) as (-> & ->).
  - intros _ i s a p _ H Ha Hp _; destruct (Hst _ _ H) as (_ & ->), (Hap _ _ Hp) as (_ & ->); vm_compute; reflexivity.
Qed.

Lemma response_oldest_first_witness : exists l' e s',
  ieee80211_sta_ps_deliver_response demo_hw demo_full 0 1 0 PSPOLL = Some (l', e) /\ stas l' !! 0%nat = Some s' /\
  exists tids fs, e = [AllowBuffered tids (Z.of_nat (length fs)) true; Pending fs] /\ ptr <$> fs = [2%nat].
Proof.
  assert (Hc : match ieee80211_sta_ps_deliver_response demo_hw demo_full 0 1 0 PSPOLL with
    | Some (_, [AllowBuffered _ _ m; Pending _]) => m | _ => false end = true) by (vm_compute; reflexivity).
  destruct (response_oldest_first demo_hw demo_full 0 demo_asleep 1 0 PSPOLL demo_full_inv eq_refl eq_refl ltac:(lia))
    as (l' & e & s' & E & Hs & H).
  { intros [|[|[|[|ac]]]]; try by_eval; unfold queue; cbn; rewrite ?lookup_nil; apply Forall_nil_2. }
  rewrite E in Hc; change (List.find _ acs) with (Some 0%nat) in H; destruct H as (tids & fs & more & -> & Hp & _).
  eexists l', _, s'; split; [exact E|]; split; [exact Hs|]; exists tids, fs; rewrite Hc; split; [done|exact Hp].
Defined.

(** The frames of other categories that the driver holds are not counted: the
    station is told that its only frame is the last. *)
Example driver_frames_forgotten :
  match ieee80211_sta_ps_deliver_poll_response demo_hw
    (Local 1 [add_sleeper demo_ap 1] [set_bufs (set_ps_sta (demo_sta 300 1) true) no_frames [[demo_frame 2 0]; []; []; []]]) 0 with
  | Some (_, [AllowBuffered _ n more; Pending [f]]) => (n, more, ieee80211_has_moredata (frame_control (data f)))
  | _ => (0, true, true)
  end = (1, false, false).
Proof. vm_compute; reflexivity. Qed.

(** Three stations asleep with 512 frames; the next frame purges.  The categories
    above the one that loses a frame are not counted: the counter says 62 of
    510 frames, and is negative when the stations have woken up. *)
Definition fill (i : nat) (n ac : nat) : list op := repeat (unicast i 0 ac) n.
Definition crowd : list op :=
  [Sleep 0; Sleep 1; Sleep 2] ++
  concat ((fun i => fill i 64 0 ++ fill i 64 1 ++ fill i 64 2 ++ fill i 1 3) <$> [0; 1]%nat) ++
  fill 2 64 0 ++ fill 2 62 2 ++ [unicast 2 1 2].

Example purge_miscounts :
  match run demo_hw crowd demo_local, run demo_hw (crowd ++ [Wakeup 0; Wakeup 1; Wakeup 2]) demo_local with
  | Some (l, _), Some (l', _) => (total_ps_buffered l, counted l, total_ps_buffered l', counted l')
  | _, _ => (0, 0, 0, 0)
  end = (62, 510, -448, 0).
Proof. vm_compute; reflexivity. Qed.

End PsBuffer.
