(* ===== verification/TxHandlers.v ===== *)
(** * Transmit handlers

    [net/mac80211/tx.c]: the handlers a frame passes before the driver gets it,
    in the order of [invoke_tx_handlers].  The handlers of the power save
    buffers are in [PsBuffer], those that number and split a frame in [TxFrag],
    the ciphers in modules of their own.  The device has rate control of its
    own, as that of ath9k_htc, so that [ieee80211_tx_h_rate_ctrl] and
    [ieee80211_tx_h_calculate_duration] are not called;
    [ieee80211_tx_h_dynamic_ps], which always lets a frame continue, is left
    out.  Keys are the shared store of [RxHandlers].  [None] is an index or a
    load outside an array or a frame. *)

From stdpp Require Import sets.
From S2P Require Import Prelude Ieee80211 Frame Ethernet Wep Tkip AesCcm Ccmp Bip Defrag RxHandlers TxFrag.

Module TxHandlers.
Import Ieee80211 Frame.
Import Ethernet (nl80211_iftype(..)).

Definition IEEE80211_ENCRYPT_HEADROOM : Z := 8.
Definition IEEE80211_ENCRYPT_TAILROOM : Z := 18.

(** A key of the store with the flags that matter when it encrypts: in the
    hardware, those of [conf.flags]. *)
Record tx_key := TxKey {
  key : RxHandlers.ieee80211_key; uploaded : bool; conf : hw_flags; generate_mmic : bool; sw_mgmt_tx : bool }.

Definition material (k : tx_key) : RxHandlers.key_material := RxHandlers.material (key k).

Record sta_info := Sta { ptk : option nat; assoc : bool; mfp : bool; tx_packets : Z; tx_fragments : Z; tx_bytes : Z }.

Record sub_if_data := Sdata {
  vif_type : nl80211_iftype; drop_unencrypted : bool; control_port_protocol : Z; control_port_no_encrypt : bool;
  default_unicast_key : option nat; default_multicast_key : option nat; default_mgmt_key : option nat;
  num_mcast_sta : Z; off_channel : bool }.

Record local := Local { sw_scanning : bool; offloaded : bool; frag_threshold : Z; tx_headroom : Z; wep_tx_tfm : bool }.

(** What the handlers change besides the frame. *)
Record world := World { keys : list tx_key; wep_iv : Z; sta : option sta_info; counters : TxFrag.counters }.

(** The flags of the frame and of [struct ieee80211_tx_data]. *)
Record tx_flags := Flags {
  injected : bool; dont_encrypt : bool; unicast : bool; ps_buffered : bool; retransmission : bool; mic_test : bool }.

Record tx_data := Tx {
  skb : TxFrag.sk_buff; flags : tx_flags; protocol : Z; headroom : Z; tailroom : Z; sel : option nat; hw_key : bool }.

Definition hdr (tx : tx_data) : list Z := TxFrag.mem (skb tx).
Definition fc (tx : tx_data) : Z := frame_control (hdr tx).
Definition is_multicast (tx : tx_data) : bool := RxHandlers.is_multicast_ether_addr (hdr tx).

Definition set_skb (tx : tx_data) (s : TxFrag.sk_buff) : tx_data :=
  Tx s (flags tx) (protocol tx) (headroom tx) (tailroom tx) (sel tx) (hw_key tx).
Definition set_sel (tx : tx_data) (r : option nat) (hw : bool) : tx_data :=
  Tx (skb tx) (flags tx) (protocol tx) (headroom tx) (tailroom tx) r hw.

Definition set_keys (w : world) (k : list tx_key) : world := World k (wep_iv w) (sta w) (counters w).
Definition set_material (k : tx_key) (m : RxHandlers.key_material) : tx_key :=
  TxKey (RxHandlers.Key m (RxHandlers.tainted (key k)) (RxHandlers.tx_rx_count (key k))) (uploaded k) (conf k) (generate_mmic k) (sw_mgmt_tx k).
Definition count_use (k : tx_key) : tx_key :=
  TxKey (RxHandlers.Key (material k) (RxHandlers.tainted (key k)) (s32 (RxHandlers.tx_rx_count (key k) + 1)))
    (uploaded k) (conf k) (generate_mmic k) (sw_mgmt_tx k).

Section Handlers.
Context `{StreamCipher}.
Context (crc32_le : Z -> list Z -> Z).
Context (lo : local) (sd : sub_if_data).

(** ** Association *)

Definition ieee80211_tx_h_check_assoc (w : world) (tx : tx_data) : tx_result :=
  if injected (flags tx) then TX_CONTINUE
  else if sw_scanning lo && off_channel sd && negb (ieee80211_is_probe_req (fc tx)) && negb (ieee80211_is_nullfunc (fc tx)) then TX_DROP
  else if bool_decide (vif_type sd = NL80211_IFTYPE_WDS) then TX_CONTINUE
  else if bool_decide (vif_type sd = NL80211_IFTYPE_MESH_POINT) then TX_CONTINUE
  else if ps_buffered (flags tx) then TX_CONTINUE
  else
    let assoc := match sta w with Some s => assoc s | None => false end in
    if unicast (flags tx) then if negb assoc && ieee80211_is_data (fc tx) then TX_DROP else TX_CONTINUE
    else if bool_decide (vif_type sd = NL80211_IFTYPE_AP) && ieee80211_is_data (fc tx) && (num_mcast_sta sd =? 0) then TX_DROP
    else TX_CONTINUE.

Definition ieee80211_tx_h_check_control_port_protocol (tx : tx_data) : tx_data :=
  let f := flags tx in
  if (control_port_protocol sd =? protocol tx) && control_port_no_encrypt sd then
    Tx (skb tx) (Flags (injected f) true (unicast f) (ps_buffered f) (retransmission f) (mic_test f)) (protocol tx)
      (headroom tx) (tailroom tx) (sel tx) (hw_key tx)
  else tx.

(** ** The key *)

Definition ieee80211_use_mfp (w : world) (tx : tx_data) : bool :=
  ieee80211_is_mgmt (fc tx) && match sta w with Some s => mfp s | None => false end && ieee80211_is_robust_mgmt_frame (hdr tx).

(** The chain of conditions; [None] is a frame dropped as not encrypted. *)
Definition choose_key (w : world) (tx : tx_data) : option (option nat) :=
  let robust := ieee80211_is_robust_mgmt_frame (hdr tx) in
  let sta_mfp := match sta w with Some s => mfp s | None => false end in
  if dont_encrypt (flags tx) then Some None
  else
    match (s ← sta w; ptk s) with
    | Some r => Some (Some r)
    | None =>
        if ieee80211_is_mgmt (fc tx) && is_multicast tx && robust && bool_decide (default_mgmt_key sd <> None) then Some (default_mgmt_key sd)
        else if is_multicast tx && bool_decide (default_multicast_key sd <> None) then Some (default_multicast_key sd)
        else if negb (is_multicast tx) && bool_decide (default_unicast_key sd <> None) then Some (default_unicast_key sd)
        else if injected (flags tx) then Some None
        else if negb (drop_unencrypted sd) then Some None
        else if protocol tx =? control_port_protocol sd then Some None
        else if robust && negb (ieee80211_is_action (fc tx) && sta_mfp) then Some None
        else if ieee80211_is_mgmt (fc tx) && negb robust then Some None
        else None
    end.

(** The switch on the cipher: whether the key is kept, and [skip_hw]. *)
Definition key_applies (w : world) (tx : tx_data) (k : tx_key) : bool * bool :=
  match material k with
  | RxHandlers.WepKey _ _ | RxHandlers.TkipKey _ => (ieee80211_is_data_present (fc tx), false)
  | RxHandlers.CcmpKey _ _ =>
      if negb (ieee80211_is_data_present (fc tx)) && negb (ieee80211_use_mfp w tx) then (false, false)
      else (true, sw_mgmt_tx k && ieee80211_is_mgmt (fc tx))
  | RxHandlers.CmacKey _ _ => (ieee80211_is_mgmt (fc tx), false)
  | RxHandlers.HwOnlyKey _ _ => (true, false)
  end.

Definition ieee80211_tx_h_select_key (w : world) (tx : tx_data) : option (tx_result * world * tx_data) :=
  match choose_key w tx with
  | None => Some (TX_DROP, w, tx)
  | Some None => Some (TX_CONTINUE, w, set_sel tx None (hw_key tx))
  | Some (Some r) =>
      k ← keys w !! r;
      let w := set_keys w (<[r := count_use k]> (keys w)) in
      let '(kept, skip_hw) := key_applies w tx k in
      if negb kept then Some (TX_CONTINUE, w, set_sel tx None (hw_key tx))
      else if RxHandlers.tainted (key k) then Some (TX_DROP, w, set_sel tx (Some r) (hw_key tx))
      else Some (TX_CONTINUE, w, set_sel tx (Some r) (hw_key tx || (negb skip_hw && uploaded k)))
  end.

(** ** The Michael MIC *)

Definition ieee80211_tx_h_michael_mic_add (w : world) (tx : tx_data) : option (tx_result * tx_data) :=
  match sel tx with
  | None => Some (TX_CONTINUE, tx)
  | Some r =>
      k ← keys w !! r;
      let tkip := match material k with RxHandlers.TkipKey t => Some t | _ => None end in
      let '(res, s) := Tkip.ieee80211_tx_h_michael_mic_add tkip
        (Tkip.MicTx (mic_test (flags tx)) (TxFrag.ctl_dontfrag (TxFrag.info (skb tx))) (offloaded lo) (generate_mmic k))
        (TxSkb (if hw_key tx then Some (conf k) else None) (headroom tx) (tailroom tx) (TxFrag.frame (skb tx))) in
      Some (res, Tx (TxFrag.packed (Frame.tx_data s) (TxFrag.info (skb tx))) (flags tx) (protocol tx) (Frame.headroom s) (Frame.tailroom s)
        (sel tx) (bool_decide (tx_hw s <> None)))
  end.

(** ** Encryption *)

(** The buffers of the fragments: the first is the frame's, the others were
    allocated by [ieee80211_fragment]. *)
Definition buffers (hw : option hw_flags) (tx : tx_data) (l : list TxFrag.sk_buff) : list tx_skb :=
  match l with
  | [] => []
  | s :: l =>
      TxSkb hw (headroom tx) (tailroom tx) (TxFrag.frame s) ::
      ((fun s => TxSkb hw (tx_headroom lo + IEEE80211_ENCRYPT_HEADROOM)
                   (frag_threshold lo + IEEE80211_ENCRYPT_TAILROOM - Z.of_nat (TxFrag.len s)) (TxFrag.frame s)) <$> l)
  end.

(** CCMP puts its MIC at the tail of the buffer, which is not the end of the
    data in a first fragment; the other ciphers write behind the data. *)
Definition ccmp_sent (s : TxFrag.sk_buff) (out : list Z) : list Z :=
  let n := (length out - Ccmp.CCMP_MIC_LEN)%nat in
  TxFrag.frame (TxFrag.skb_put
    (TxFrag.Skb (take n out ++ drop (TxFrag.len s) (TxFrag.mem s)) n (TxFrag.tail s + (n - TxFrag.len s)) (TxFrag.info s)) (drop n out)).

Definition ieee80211_crypto_hw_encrypt (hw_key : bool) (skbs : list TxFrag.sk_buff) : tx_result * list (list Z) :=
  if negb hw_key && bool_decide (skbs <> []) then (TX_DROP, TxFrag.frame <$> skbs)
  else (TX_CONTINUE, (fun s => set_protected (TxFrag.frame s)) <$> skbs).

Definition ieee80211_tx_h_encrypt (w : world) (tx : tx_data) (skbs : list TxFrag.sk_buff) : option (tx_result * world * list (list Z)) :=
  match sel tx with
  | None => Some (TX_CONTINUE, w, TxFrag.frame <$> skbs)
  | Some r =>
      k ← keys w !! r;
      let bufs := buffers (if hw_key tx then Some (conf k) else None) tx skbs in
      let put m := set_keys w (<[r := set_material k m]> (keys w)) in
      match material k with
      | RxHandlers.WepKey l wk =>
          let '(res, iv, ds) := Wep.ieee80211_crypto_wep_encrypt crc32_le (wep_tx_tfm lo) wk (wep_iv w) bufs in
          Some (res, World (keys w) iv (sta w) (counters w), ds)
      | RxHandlers.TkipKey tk =>
          let '(res, tk, ds) := Tkip.ieee80211_crypto_tkip_encrypt crc32_le (wep_tx_tfm lo) tk bufs in
          Some (res, put (RxHandlers.TkipKey tk), ds)
      | RxHandlers.CcmpKey tfm ck =>
          let '(res, ck, ds) := Ccmp.ieee80211_crypto_ccmp_encrypt ck bufs in
          Some (res, put (RxHandlers.CcmpKey tfm ck), if hw_key tx then ds else zip_with ccmp_sent skbs ds)
      | RxHandlers.CmacKey tfm mk =>
          '(res, mk, ds) ← Bip.ieee80211_crypto_aes_cmac_encrypt mk bufs;
          Some (res, put (RxHandlers.CmacKey tfm mk), ds)
      | RxHandlers.HwOnlyKey _ _ =>
          let '(res, ds) := ieee80211_crypto_hw_encrypt (hw_key tx) skbs in Some (res, w, ds)
      end
  end.

Definition ieee80211_tx_h_stats (w : world) (skbs : list TxFrag.sk_buff) : world :=
  match sta w with
  | None => w
  | Some s =>
      World (keys w) (wep_iv w)
        (Some (Sta (ptk s) (assoc s) (mfp s) (u64 (tx_packets s + 1)) (u64 (tx_fragments s + Z.of_nat (length skbs)))
          (u64 (tx_bytes s + foldr Z.add 0 ((fun s => Z.of_nat (TxFrag.len s)) <$> skbs))))) (counters w)
  end.

(** ** All handlers *)

(** What becomes of a frame: the frames for the driver, each with whether the
    hardware encrypts it; dropped; kept by a handler. *)
Inductive outcome := Sent (hw : bool) (frames : list (list Z)) | Dropped | Kept.

(** [queued] is the verdict of [ieee80211_tx_h_ps_buf]. *)
Definition invoke_tx_handlers (alloc : nat -> bool) (queued : bool) (w : world) (tx : tx_data) : option (outcome * world) :=
  match ieee80211_tx_h_check_assoc w tx with
  | TX_DROP => Some (Dropped, w)
  | TX_CONTINUE =>
      if queued then Some (Kept, w)
      else
        let tx := ieee80211_tx_h_check_control_port_protocol tx in
        '(res, w, tx) ← ieee80211_tx_h_select_key w tx;
        match res with
        | TX_DROP => Some (Dropped, w)
        | TX_CONTINUE =>
            if retransmission (flags tx) then Some (Sent (hw_key tx) [TxFrag.frame (skb tx)], w)
            else
              '(res, tx) ← ieee80211_tx_h_michael_mic_add w tx;
              match res with
              | TX_DROP => Some (Dropped, w)
              | TX_CONTINUE =>
                  '(c, s) ← TxFrag.ieee80211_tx_h_sequence (bool_decide (vif_type sd = NL80211_IFTYPE_MONITOR))
                    (bool_decide (sta w <> None)) (counters w) (skb tx);
                  let w := World (keys w) (wep_iv w) (sta w) c in
                  '(res, skbs) ← TxFrag.ieee80211_tx_h_fragment alloc (offloaded lo) (frag_threshold lo) s;
                  match res with
                  | TX_DROP => Some (Dropped, w)
                  | TX_CONTINUE =>
                      let w := ieee80211_tx_h_stats w skbs in
                      '(res, w, ds) ← ieee80211_tx_h_encrypt w tx skbs;
                      match res with
                      | TX_DROP => Some (Dropped, w)
                      | TX_CONTINUE => Some (Sent (hw_key tx) ds, w)
                      end
                  end
              end
        end
  end.
End Handlers.

(** ** Lemmas: the Protected bit *)

Lemma has_protected_bit c : Z.testbit c 14 = true -> ieee80211_has_protected c = true.
Proof.
  intros H; apply negb_true_iff, Z.eqb_neq; intros E; apply (f_equal (fun x => Z.testbit x 14)) in E.
  rewrite Z.land_spec, H, Z.bits_0 in E; discriminate E.
Qed.

Lemma set_protected_has d : ieee80211_has_protected (frame_control (set_protected d)) = true.
Proof.
  apply has_protected_bit; unfold set_protected, frame_control at 1, get_le16; cbn [put_le16 app Nat.add]; unfold byte_at; cbn [nth].
  rewrite Z.lor_spec, Z.shiftl_spec by lia; change (14 - 8) with 6; apply orb_true_iff; right.
  unfold u8, wrap; rewrite Z.mod_pow2_bits_low, Z.shiftr_spec, Z.lor_spec by lia; by rewrite orb_true_r.
Qed.

Lemma fc_take2 d d' : take 2 d = take 2 d' -> frame_control d = frame_control d'.
Proof.
  intros E; unfold frame_control, get_le16; change (0 + 1)%nat with 1%nat.
  rewrite <- (byte_at_take 2 d 0), <- (byte_at_take 2 d 1), <- (byte_at_take 2 d' 0), <- (byte_at_take 2 d' 1) by lia; by rewrite E.
Qed.

Lemma take2_hdr (d x : list Z) c : (2 <= length d)%nat -> take 2 (take (Z.to_nat (ieee80211_hdrlen c)) d ++ x) = take 2 d.
Proof.
  intros Hd; pose proof (hdrlen_bounds c); rewrite take_app_le by (rewrite length_take; lia); rewrite take_take; f_equal; lia.
Qed.

(** A cipher that leaves the Protected bit set. *)
Definition protects {K} (enc : K -> tx_skb -> Z * K * list Z) : Prop :=
  forall k s, (2 <= length (Frame.tx_data s))%nat -> ieee80211_has_protected (frame_control (Frame.tx_data s)) = true ->
    ieee80211_has_protected (frame_control (enc k s).2) = true.

Lemma protects_take2 {K} (enc : K -> tx_skb -> Z * K * list Z) :
  (forall k s, (2 <= length (Frame.tx_data s))%nat -> take 2 (enc k s).2 = take 2 (Frame.tx_data s)) -> protects enc.
Proof. intros He k s Hl Hp; by rewrite (fc_take2 _ _ (He k s Hl)). Qed.

Lemma set_protected_length d : (2 <= length (set_protected d))%nat.
Proof. unfold set_protected; cbn; lia. Qed.

Lemma walk_protected {K} (enc : K -> tx_skb -> Z * K * list Z) k l r k' ds : protects enc ->
  protect_walk enc k (ieee80211_tx_set_protected l) = (r, k', ds) ->
  r = TX_CONTINUE -> Forall (fun f => ieee80211_has_protected (frame_control f) = true) ds.
Proof.
  intros He; revert k r k' ds; induction l as [|s l IH]; intros k r k' ds; cbn [ieee80211_tx_set_protected fmap list_fmap protect_walk].
  { intros [= <- <- <-] _; constructor. }
  pose proof (He k (protected_skb s) (set_protected_length _) (set_protected_has _)) as Hs.
  destruct (enc k (protected_skb s)) as [[ret k1] d]; cbn [snd] in Hs; destruct (ret <? 0); [by intros [= <- <- <-]|].
  destruct (protect_walk enc k1 _) as [[r1 k2] ds1] eqn:E; intros [= <- <- <-] Hr; constructor; [done|by eapply IH].
Qed.

Section Ciphers.
Context `{StreamCipher}.
Context (crc32_le : Z -> list Z -> Z).

Lemma wep_protects tfm k : protects (Wep.wep_encrypt_skb crc32_le tfm k).
Proof.
  intros iv s Hl Hp; assert (Hadd : forall iv n i, match Wep.ieee80211_wep_add_iv iv s n i with
    | (_, d, j) => take 2 d = take 2 (set_protected (Frame.tx_data s)) /\ (2 <= length d)%nat /\ (10 <= default 10 j)%nat end).
  { intros iv' n i; unfold Wep.ieee80211_wep_add_iv; pose proof (set_protected_length (Frame.tx_data s)).
    destruct (_ || _); [by split|]; set (d := set_protected (Frame.tx_data s)) in *; pose proof (hdrlen_bounds (frame_control d)).
    destruct (match tx_hw s with Some _ => _ | None => _ end).
    - split; [by apply take2_hdr|]; split; [rewrite length_app, length_take; lia|cbn [from_option id]; lia].
    - destruct (Wep.ieee80211_wep_get_iv _ _ _); split; [by apply take2_hdr|]; split; [rewrite length_app, length_take; lia|cbn [from_option id]; lia]. }
  assert (Hfc : forall d, take 2 d = take 2 (set_protected (Frame.tx_data s)) -> ieee80211_has_protected (frame_control d) = true)
    by (intros d Hd; rewrite (fc_take2 _ _ Hd); apply set_protected_has).
  unfold Wep.wep_encrypt_skb; destruct (tx_hw s) as [f|] eqn:Eh.
  - destruct (generate_iv f || put_iv_space f); [|done]; specialize (Hadd iv (Z.of_nat (length (Wep.key_bytes k))) (Wep.key_idx k)).
    destruct (Wep.ieee80211_wep_add_iv _ _ _ _) as [[iv' d] j]; cbn [snd]; apply Hfc, Hadd.
  - unfold Wep.ieee80211_wep_encrypt; specialize (Hadd iv (Z.of_nat (length (Wep.key_bytes k))) (Wep.key_idx k)).
    destruct (Wep.ieee80211_wep_add_iv _ _ _ _) as [[iv' d] [j|]]; [|apply Hfc, Hadd]; destruct Hadd as (Ht & Hd & Hj); cbn in Hj.
    destruct (Wep.ieee80211_wep_encrypt_data _ _ _ _); cbn [snd]; apply Hfc; [|done].
    rewrite take_app_le by (rewrite length_take; lia); rewrite take_take; rewrite <- Ht; f_equal; lia.
Qed.

Lemma tkip_protects tfm : protects (Tkip.tkip_encrypt_skb crc32_le tfm).
Proof.
  apply protects_take2; intros k s Hl; unfold Tkip.tkip_encrypt_skb; destruct (match tx_hw s with Some f => negb (generate_iv f) && _ | None => false end); [done|].
  destruct (_ || _); [done|]; destruct (match tx_hw s with Some f => put_iv_space f | None => false end); [by apply take2_hdr|].
  destruct (tx_hw s); [by apply take2_hdr|].
  destruct (Tkip.ieee80211_tkip_encrypt_data _ _ _ _ _) as [k' [d|]]; cbn [snd]; by apply take2_hdr.
Qed.
End Ciphers.

Lemma ccmp_protects (tfm : AuthCipher AesCcm.wf_scratch) : protects (@Ccmp.ccmp_encrypt_skb tfm).
Proof.
  apply protects_take2; intros k s Hl; unfold Ccmp.ccmp_encrypt_skb; destruct (match tx_hw s with Some f => negb (generate_iv f) && _ | None => false end); [done|].
  destruct (_ || _); [done|]; destruct (match tx_hw s with Some f => put_iv_space f | None => false end); [by apply take2_hdr|].
  destruct (tx_hw s); [by apply take2_hdr|]; destruct (seal _ _); cbn [snd]; by apply take2_hdr.
Qed.

(** The frames of software CCMP. *)
Lemma ccmp_walk_length (tfm : AuthCipher AesCcm.wf_scratch) k l r k' ds : Forall (fun s => tx_hw s = None) l ->
  protect_walk (@Ccmp.ccmp_encrypt_skb tfm) k (ieee80211_tx_set_protected l) = (r, k', ds) -> r = TX_CONTINUE ->
  Forall (fun d => (10 <= length d)%nat) ds.
Proof.
  intros Hl; revert k r k' ds; induction Hl as [|s l Hs Hl IH]; intros k r k' ds; cbn [ieee80211_tx_set_protected fmap list_fmap protect_walk].
  { intros [= <- <- <-] _; constructor. }
  destruct (Ccmp.ccmp_encrypt_skb k (protected_skb s)) as [[ret k1] d] eqn:E; destruct (Z.ltb_spec ret 0); [by intros [= <- <- <-]|].
  destruct (protect_walk _ k1 _) as [[r1 k2] ds1] eqn:E2; intros [= <- <- <-] Hr; constructor; [|by eapply IH].
  revert E; unfold Ccmp.ccmp_encrypt_skb; cbn [protected_skb tx_hw Frame.tx_data]; rewrite Hs; destruct (_ || _); [intros [= <- <- <-]; lia|].
  destruct (seal _ _) as [c m]; intros [= <- <- <-]; rewrite !length_app, length_take.
  pose proof (set_protected_length (Frame.tx_data s)); pose proof (hdrlen_bounds (frame_control (set_protected (Frame.tx_data s)))).
  unfold Ccmp.ccmp_pn2hdr; cbn [length app]; lia.
Qed.

Lemma ccmp_sent_fc s d : (TxFrag.len s <= TxFrag.tail s)%nat -> (10 <= length d)%nat -> take 2 (ccmp_sent s d) = take 2 d.
Proof.
  intros Hs Hd; unfold ccmp_sent, TxFrag.frame, TxFrag.skb_put; cbn [TxFrag.mem TxFrag.len TxFrag.tail TxFrag.info].
  unfold Ccmp.CCMP_MIC_LEN in *; set (n := (length d - 8)%nat); set (t := (TxFrag.tail s + (n - TxFrag.len s))%nat).
  assert (Ln : length (take n d) = n) by (rewrite length_take; lia).
  rewrite take_take, Nat.min_l by lia; rewrite take_app_le by (rewrite length_take, length_app; lia).
  rewrite take_take, Nat.min_l by lia; rewrite take_app_le by lia; rewrite take_take; f_equal; lia.
Qed.

(** ** Lemmas: fragments *)

Lemma fragment_tails alloc off thr s r l : TxFrag.tail s = TxFrag.len s -> 0 <= thr ->
  TxFrag.ieee80211_tx_h_fragment alloc off thr s = Some (r, l) -> Forall (fun s => (TxFrag.len s <= TxFrag.tail s)%nat) l.
Proof.
  intros Ht Hthr; assert (H1 : Forall (fun s => (TxFrag.len s <= TxFrag.tail s)%nat) [s]) by (constructor; [lia|constructor]).
  unfold TxFrag.ieee80211_tx_h_fragment; destruct (TxFrag.ctl_dontfrag _); [by intros [= <- <-]|]; destruct off; [by intros [= <- <-]|].
  destruct (TxFrag.ctl_ampdu _); [by intros [= <- <-]|]; destruct (_ <=? _); [by intros [= <- <-]|].
  set (hl := ieee80211_hdrlen _).
  assert (Hloop : forall fuel k per pos rem ts b, TxFrag.fragment_loop fuel alloc k s hl per pos rem = Some (ts, b) ->
    Forall (fun s => (TxFrag.len s <= TxFrag.tail s)%nat) ts).
  { induction fuel as [|fuel IH]; intros k per pos rem ts b; cbn [TxFrag.fragment_loop]; (destruct (rem =? 0); [intros [= <- <-]; constructor|]); [done|].
    destruct (negb (alloc k)); [intros [= <- <-]; constructor|]; set (tmp := TxFrag.packed _ _).
    destruct (TxFrag.fragment_loop fuel _ _ _ _ _ _ _) as [[ts' b']|] eqn:E; cbn [mbind option_bind]; [|done]; intros [= <- <-].
    constructor; [done|by eapply IH]. }
  assert (Hmark : forall n l, Forall (fun s => (TxFrag.len s <= TxFrag.tail s)%nat) l -> Forall (fun s => (TxFrag.len s <= TxFrag.tail s)%nat) (TxFrag.mark_fragments n l)).
  { intros n l' Hl'; revert n; induction Hl' as [|x l' Hx Hl' IH]; intros n; cbn [TxFrag.mark_fragments]; constructor; [done|apply IH]. }
  unfold TxFrag.ieee80211_fragment; destruct (Z.ltb_spec (Z.of_nat (TxFrag.len s) - hl - (thr - hl - TxFrag.FCS_LEN)) 0) as [Hlt|Hge].
  { cbn [mbind option_bind]; change (negb (- TxFrag.EINVAL =? 0)) with true; cbn iota; by intros [= <- <-]. }
  destruct (TxFrag.fragment_loop _ _ _ _ _ _ _ _) as [[ts b]|] eqn:E; cbn [mbind option_bind]; [|done]; pose proof (Hloop _ _ _ _ _ _ _ E) as Hts.
  destruct b; cbn [mbind option_bind].
  - change (negb (- TxFrag.ENOMEM =? 0)) with true; cbn iota; intros [= <- <-]; constructor; [lia|done].
  - change (negb (0 =? 0)) with false; cbn iota; intros [= <- <-]; apply (Hmark 0 (TxFrag.Skb _ _ _ _ :: ts)); constructor; [|done].
    cbn [TxFrag.len TxFrag.tail]; lia.
Qed.

(** ** Lemmas: what is sent is protected *)

Definition protected (d : list Z) : Prop := ieee80211_has_protected (frame_control d) = true.

Definition is_cmac (k : tx_key) : bool := match material k with RxHandlers.CmacKey _ _ => true | _ => false end.

Lemma buffers_data lo hw tx l : Frame.tx_data <$> buffers lo hw tx l = TxFrag.frame <$> l.
Proof.
  destruct l as [|s l]; [done|]; unfold buffers; cbn [fmap list_fmap]; f_equal.
  induction l as [|t l IH]; cbn [fmap list_fmap]; [done|by rewrite IH].
Qed.

Lemma buffers_hw lo hw tx l : Forall (fun s => tx_hw s = hw) (buffers lo hw tx l).
Proof. destruct l as [|s l]; [constructor|]; constructor; [done|]; apply Forall_fmap, list.Forall_forall; done. Qed.

Lemma ccmp_sent_protected l ds : Forall (fun s => (TxFrag.len s <= TxFrag.tail s)%nat) l -> Forall (fun d => (10 <= length d)%nat) ds ->
  Forall protected ds -> Forall protected (zip_with ccmp_sent l ds).
Proof.
  intros Hl; revert ds; induction Hl as [|s l Hs Hl IH]; intros [|d ds] Hd Hp; try constructor;
    apply Forall_cons_1 in Hd as [Hd Hds]; apply Forall_cons_1 in Hp as [Hp Hps]; [|by apply IH].
  unfold protected; by rewrite (fc_take2 _ d) by (by apply ccmp_sent_fc).
Qed.

Section Protected.
Context `{StreamCipher}.
Context (crc32_le : Z -> list Z -> Z).
Context (lo : local) (sd : sub_if_data).

Lemma encrypt_protected w tx l w' ds r k : sel tx = Some r -> keys w !! r = Some k -> is_cmac k = false ->
  Forall (fun s => (TxFrag.len s <= TxFrag.tail s)%nat) l ->
  ieee80211_tx_h_encrypt crc32_le lo w tx l = Some (TX_CONTINUE, w', ds) -> Forall protected ds.
Proof.
  intros Hs Hk Hc Hl; unfold ieee80211_tx_h_encrypt; rewrite Hs, Hk; cbn [mbind option_bind]; unfold is_cmac in Hc.
  set (bufs := buffers _ _ _ _); destruct (material k) as [wl wk|tk|tfm ck|tfm mk|c i]; [| | |done|].
  - destruct (Wep.ieee80211_crypto_wep_encrypt _ _ _ _ _) as [[res iv] ds'] eqn:E; intros [= -> <- <-].
    exact (walk_protected _ _ _ _ _ _ (wep_protects crc32_le _ wk) E eq_refl).
  - destruct (Tkip.ieee80211_crypto_tkip_encrypt _ _ _ _) as [[res iv] ds'] eqn:E; intros [= -> <- <-].
    exact (walk_protected _ _ _ _ _ _ (tkip_protects crc32_le _) E eq_refl).
  - destruct (Ccmp.ieee80211_crypto_ccmp_encrypt _ _) as [[res iv] ds'] eqn:E; intros [= -> <- Hds].
    pose proof (walk_protected _ _ _ _ _ _ (ccmp_protects tfm) E eq_refl) as Hp.
    destruct (hw_key tx); [by subst ds|]; subst ds; apply ccmp_sent_protected; [done| |done].
    exact (ccmp_walk_length tfm _ _ _ _ _ (buffers_hw _ _ _ _) E eq_refl).
  - unfold ieee80211_crypto_hw_encrypt; destruct (_ && _); [done|]; intros [= <- <-].
    apply Forall_fmap, list.Forall_forall; intros s _; apply set_protected_has.
Qed.

(** The key a data frame is for: the pairwise key of the station, else the
    default key for its kind of address. *)
Definition key_of (w : world) (tx : tx_data) : option nat :=
  match (s ← sta w; ptk s) with
  | Some r => Some r
  | None => if is_multicast tx then default_multicast_key sd else default_unicast_key sd
  end.

Definition control_port (tx : tx_data) : bool := control_port_protocol sd =? protocol tx.

(** Frames that must not leave in the clear: there is a key, and the frame is
    not a control port frame sent without; or there is none, on an interface
    that drops what is not encrypted, and the frame is neither injected nor one
    of the control port. *)
Definition must_protect (w : world) (tx : tx_data) : bool :=
  ieee80211_is_data_present (fc tx) && negb (dont_encrypt (flags tx)) && negb (retransmission (flags tx)) &&
  match key_of w tx with
  | Some _ => negb (control_port tx && control_port_no_encrypt sd)
  | None => drop_unencrypted sd && negb (injected (flags tx)) && negb (control_port tx)
  end.

(** Integrity group keys are not used for data. *)
Definition data_keys (w : world) : Prop := forall r k,
  Some r ∈ [(s ← sta w; ptk s); default_unicast_key sd; default_multicast_key sd] -> keys w !! r = Some k -> is_cmac k = false.

Lemma data_present_type c : ieee80211_is_data_present c = true ->
  ieee80211_is_data c = true /\ ieee80211_is_mgmt c = false /\ ieee80211_is_qos_nullfunc c = false.
Proof.
  unfold ieee80211_is_data_present, ieee80211_is_data, ieee80211_is_mgmt, ieee80211_is_qos_nullfunc.
  rewrite Z.eqb_eq, Z.eqb_eq, !Z.eqb_neq; intros Hp; set (m := Z.lor IEEE80211_FCTL_FTYPE 0x40) in Hp.
  assert (E : Z.land c IEEE80211_FCTL_FTYPE = IEEE80211_FTYPE_DATA).
  { replace IEEE80211_FCTL_FTYPE with (Z.land m IEEE80211_FCTL_FTYPE) by reflexivity; by rewrite Z.land_assoc, Hp. }
  split_and!; [done|by rewrite E|]; set (n := Z.lor IEEE80211_FCTL_FTYPE IEEE80211_FCTL_STYPE); intros Hn.
  assert (E2 : Z.land (Z.land c n) m = Z.land c m) by (rewrite <- Z.land_assoc; f_equal; reflexivity).
  rewrite Hp, Hn in E2; discriminate E2.
Qed.

Lemma data_not_robust tx : ieee80211_is_mgmt (fc tx) = false -> ieee80211_is_robust_mgmt_frame (hdr tx) = false.
Proof.
  intros Hm; unfold ieee80211_is_mgmt in Hm; apply Z.eqb_neq in Hm.
  assert (G : forall s, Z.land s IEEE80211_FCTL_FTYPE = 0 -> (Z.land (fc tx) (Z.lor IEEE80211_FCTL_FTYPE IEEE80211_FCTL_STYPE) =? s) = false).
  { intros s Hs; apply Z.eqb_neq; intros E; apply Hm.
    replace IEEE80211_FCTL_FTYPE with (Z.land (Z.lor IEEE80211_FCTL_FTYPE IEEE80211_FCTL_STYPE) IEEE80211_FCTL_FTYPE) by reflexivity.
    by rewrite Z.land_assoc, E, Hs. }
  unfold ieee80211_is_robust_mgmt_frame, ieee80211_is_disassoc, ieee80211_is_deauth, ieee80211_is_action; fold (fc tx).
  by rewrite !G by reflexivity.
Qed.

(** What select_key does to a data frame that must be protected. *)
Lemma choose_data_key w tx : must_protect w tx = true ->
  choose_key sd w (ieee80211_tx_h_check_control_port_protocol sd tx) = Some <$> key_of w tx.
Proof.
  unfold must_protect; rewrite !andb_true_iff, !negb_true_iff; intros [[[Hp Hd] Hr] Hk].
  destruct (data_present_type _ Hp) as (_ & Hm & _); pose proof (data_not_robust tx Hm) as Hrob.
  unfold ieee80211_tx_h_check_control_port_protocol; fold (control_port tx).
  assert (Hcp : control_port tx && control_port_no_encrypt sd = false).
  { destruct (key_of w tx); [by apply negb_true_iff|]; rewrite !andb_true_iff, !negb_true_iff in Hk; by destruct Hk as [_ ->]. }
  rewrite Hcp; unfold choose_key, key_of in *; rewrite Hd, Hm, Hrob; cbn [andb].
  destruct (s ← sta w; ptk s); [done|]; destruct (is_multicast tx); cbn [negb andb].
  all: destruct (default_multicast_key sd), (default_unicast_key sd); cbn [fmap option_fmap option_map] in *; try done.
  all: repeat first [rewrite bool_decide_true by done | rewrite bool_decide_false by (intros Hn; by apply Hn)]; cbn [andb]; try done.
  all: rewrite !andb_true_iff, !negb_true_iff in Hk; destruct Hk as [[Hdu Hi] Hk]; rewrite Hdu, Hi; cbn [negb]; unfold control_port in Hk.
  all: by rewrite Z.eqb_sym, Hk.
Qed.

Lemma select_data_key w tx w' tx' : must_protect w tx = true -> data_keys w ->
  ieee80211_tx_h_select_key sd w (ieee80211_tx_h_check_control_port_protocol sd tx) = Some (TX_CONTINUE, w', tx') ->
  exists r k, sel tx' = Some r /\ keys w' !! r = Some k /\ is_cmac k = false /\ retransmission (flags tx') = false.
Proof.
  intros Hm Hk; unfold ieee80211_tx_h_select_key; rewrite choose_data_key by done.
  assert (Hp : ieee80211_is_data_present (fc tx) = true /\ retransmission (flags tx) = false).
  { unfold must_protect in Hm; rewrite !andb_true_iff, !negb_true_iff in Hm; tauto. }
  set (tx1 := ieee80211_tx_h_check_control_port_protocol sd tx).
  assert (E1 : fc tx1 = fc tx /\ retransmission (flags tx1) = retransmission (flags tx))
    by (unfold tx1, ieee80211_tx_h_check_control_port_protocol; by destruct (_ && _)).
  destruct Hp as [Hp Hr], E1 as [E1 E2]; destruct (key_of w tx) as [r|] eqn:Er; cbn [fmap option_fmap option_map]; [|done].
  destruct (keys w !! r) as [k|] eqn:Ek; cbn [mbind option_bind]; [|done].
  assert (Hc : is_cmac k = false).
  { apply (Hk r); [|done]; unfold key_of in Er; destruct (s ← sta w; ptk s); [rewrite Er; by left|].
    destruct (is_multicast tx); rewrite <- Er; [right; right; left|right; left]. }
  destruct (key_applies _ tx1 k) as [kept hw] eqn:Ea; assert (kept = true) as ->.
  { revert Ea; unfold key_applies; rewrite E1, Hp; unfold is_cmac in Hc; destruct (material k); cbn [negb andb]; by intros [= <- _]. }
  cbn [negb]; destruct (RxHandlers.tainted _); [done|]; intros [= <- <-].
  exists r, (count_use k); split; [done|]; cbn [keys set_keys]; rewrite list_lookup_insert_eq by (by apply lookup_lt_Some in Ek).
  split; [done|]; split; [exact Hc|]; cbn [flags set_sel]; by rewrite E2.
Qed.

Lemma mic_keeps w tx r tx' rk : sel tx = Some rk -> ieee80211_tx_h_michael_mic_add lo w tx = Some (r, tx') ->
  sel tx' = sel tx /\ TxFrag.tail (skb tx') = TxFrag.len (skb tx').
Proof.
  intros Hs; unfold ieee80211_tx_h_michael_mic_add; rewrite Hs; destruct (keys w !! rk); cbn [mbind option_bind]; [|done].
  destruct (Tkip.ieee80211_tx_h_michael_mic_add _ _ _) as [res s]; by intros [= <- <-].
Qed.

Lemma sequence_tail m hs c s c' s' : TxFrag.ieee80211_tx_h_sequence m hs c s = Some (c', s') ->
  TxFrag.tail s = TxFrag.len s -> TxFrag.tail s' = TxFrag.len s'.
Proof.
  unfold TxFrag.ieee80211_tx_h_sequence; repeat (destruct (_ : bool); [by intros [= <- <-]|]).
  destruct (TxFrag.tid_seq c !! _); cbn [mbind option_bind]; [by intros [= <- <-]|done].
Qed.
End Protected.

(** ** Lemmas: a frame and its peer *)












Section Peers.
Context `{StreamCipher}.
Context (crc32_le : Z -> list Z -> Z).






End Peers.

(** ** Properties *)

Section Properties.
Context `{StreamCipher}.
Context (crc32_le : Z -> list Z -> Z).
Context (lo : local) (sd : sub_if_data).

(** C4: Whatever the handlers do with a data frame that must be protected
    (there is a key for it, or the interface drops what is not encrypted),
    every frame they give to the driver has the Protected bit: no path, no
    fragment and no failing allocation sends it in the clear. *)
Theorem sent_data_protected alloc queued w tx hw ds w' : 0 <= frag_threshold lo ->
  must_protect sd w tx = true -> data_keys sd w ->
  invoke_tx_handlers crc32_le lo sd alloc queued w tx = Some (Sent hw ds, w') ->
  Forall protected ds.
Proof.
  intros Ht Hm Hk; unfold invoke_tx_handlers; destruct (ieee80211_tx_h_check_assoc _ _ _ _); [|done]; destruct queued; [done|].
  destruct (ieee80211_tx_h_select_key _ _ _) as [[[[] w1] tx1]|] eqn:Es; cbn [mbind option_bind]; [|done|done].
  destruct (select_data_key sd _ _ _ _ Hm Hk Es) as (r & k & Hs & Hr & Hc & ->).
  destruct (ieee80211_tx_h_michael_mic_add _ _ _) as [[[] tx2]|] eqn:Em; cbn [mbind option_bind]; [|done|done].
  destruct (mic_keeps lo _ _ _ _ _ Hs Em) as [Hs2 Hl].
  destruct (TxFrag.ieee80211_tx_h_sequence _ _ _ _) as [[c s]|] eqn:Eq; cbn [mbind option_bind]; [|done].
  pose proof (sequence_tail _ _ _ _ _ _ Eq Hl) as Hl2.
  destruct (TxFrag.ieee80211_tx_h_fragment _ _ _ _) as [[[] skbs]|] eqn:Ef; cbn [mbind option_bind]; [|done|done].
  pose proof (fragment_tails _ _ _ _ _ _ Hl2 Ht Ef) as Hfr.
  set (w2 := ieee80211_tx_h_stats _ _); assert (Hw2 : keys w2 !! r = Some k) by (unfold w2, ieee80211_tx_h_stats; by destruct (sta w1)).
  destruct (ieee80211_tx_h_encrypt _ _ w2 tx2 skbs) as [[[[] w3] ds3]|] eqn:Ee; cbn [mbind option_bind]; [|done|done].
  intros [= <- <- <-]; apply (encrypt_protected crc32_le lo w2 tx2 skbs w3 ds3 r k); congruence || done.
Qed.

End Properties.

(** ** Concrete runs *)

Definition demo_sdata : sub_if_data := Sdata NL80211_IFTYPE_STATION true 0x888e true None (Some 1%nat) None 0 false.
Definition demo_local (thr : Z) : local := Local false false thr 32 true.
Definition demo_key (m : RxHandlers.key_material) : tx_key := TxKey (RxHandlers.Key m false 0) false (Hw false false) false false.
Definition demo_counters : TxFrag.counters := TxFrag.Counters 0x10 (repeat 0x70 16).
Definition demo_world : world :=
  World [demo_key (RxHandlers.CcmpKey Ccmp.demo_cipher Ccmp.demo_key); demo_key (RxHandlers.CcmpKey Ccmp.demo_cipher Ccmp.demo_key)] 0
    (Some (Sta (Some 0%nat) true false 0 0 0)) demo_counters.
Definition demo_info (dontfrag : bool) : TxFrag.tx_info := TxFrag.Info dontfrag false true true false false true [3; 2; 1; 0].
Definition demo_hdr : list Z := [0x88; 0x01; 0; 0] ++ repeat 0x10 6 ++ repeat 0x22 6 ++ repeat 0x32 6 ++ [0; 0; 5; 0].
Definition demo_tx (dontfrag : bool) (proto : Z) (p : list Z) : tx_data :=
  Tx (TxFrag.packed (demo_hdr ++ p) (demo_info dontfrag)) (Flags false false true false false false) proto 32 32 None false.

Abbreviation demo_send thr tx := (@invoke_tx_handlers Wep.toy_stream Wep.toy_crc32 (demo_local thr) demo_sdata (fun _ => true) false demo_world tx).

(** A control port frame leaves in the clear, a data frame does not; an
    interface without a key drops it. *)
Example in_the_clear : match demo_send 256 (demo_tx true 0x888e [1; 2; 3]) with
  | Some (Sent _ [d], _) => ieee80211_has_protected (frame_control d) = false | _ => False end.
Proof. vm_compute; reflexivity. Qed.

Example dropped_without_key : option_map fst (@invoke_tx_handlers Wep.toy_stream Wep.toy_crc32 (demo_local 256) demo_sdata (fun _ => true) false
  (World [] 0 (Some (Sta None true false 0 0 0)) demo_counters) (demo_tx true 0x800 [1; 2; 3])) = Some Dropped.
Proof. vm_compute; reflexivity. Qed.

Lemma demo_data_keys : data_keys demo_sdata demo_world.
Proof.
  intros r k Hr; unfold demo_world; cbn [keys]; assert (r = 0%nat \/ r = 1%nat) as [-> | ->]; [|by intros [= <-]..].
  cbn [mbind option_bind demo_world sta ptk demo_sdata default_unicast_key default_multicast_key] in Hr; set_solver.
Qed.

(** Three fragments, all of them protected. *)
Lemma sent_data_protected_witness :
  match demo_send 256 (demo_tx false 0x800 (repeat 9 500)) with
  | Some (Sent false ds, _) => length ds = 3%nat /\ Forall protected ds
  | _ => False
  end.
Proof.
  assert (C : match demo_send 256 (demo_tx false 0x800 (repeat 9 500)) with
    | Some (Sent false ds, _) => length ds = 3%nat | _ => False end) by (vm_compute; reflexivity).
  pose proof (fun hw ds w' => @sent_data_protected Wep.toy_stream Wep.toy_crc32 (demo_local 256) demo_sdata (fun _ => true) false demo_world
    (demo_tx false 0x800 (repeat 9 500)) hw ds w' ltac:(cbn; lia) ltac:(vm_compute; reflexivity) demo_data_keys) as T.
  destruct (demo_send 256 (demo_tx false 0x800 (repeat 9 500))) as [[[[] ds| |] w']|]; try contradiction.
  split; [exact C|]; exact (T false ds w' eq_refl).
Defined.


End TxHandlers.
