(* ===== verification/TxQueue.v ===== *)
(** * Transmit queues

    [net/mac80211/util.c] and [tx.c]: the queues of the hardware with the
    reasons they are stopped for, the frames that wait for a stopped queue
    ([local->pending]) and the tasklet that sends them, and the queues of the
    network interfaces, which follow those of the hardware.  A call of the driver is a
    parameter: it may stop and wake queues.  Queue numbers are below
    [IEEE80211_MAX_QUEUES]; a frame carries its hardware queue and its interface. *)

From stdpp Require Import sets.
From S2P Require Import Prelude.

Module TxQueue.

Definition IEEE80211_MAX_QUEUES : nat := 16.
Definition IEEE80211_NUM_ACS : nat := 4.

Definition IEEE80211_QUEUE_STOP_REASON_DRIVER : Z := 0.
Definition IEEE80211_QUEUE_STOP_REASON_AGGREGATION : Z := 3.
Definition IEEE80211_QUEUE_STOP_REASON_SKB_ADD : Z := 5.

(** [info->hw_queue], the interface of [info->control.vif] or NULL, the TID of
    a QoS data frame, [IEEE80211_TX_INTFL_NEED_TXPROCESSING] and
    [IEEE80211_TX_CTL_AMPDU]. *)
Record sk_buff := Skb { frame_id : Z; hw_queue : nat; vif : option nat; tid : option nat; need_txprocessing : bool; ctl_ampdu : bool }.

(** A queue of a network interface: the hardware queue of its access category,
    and whether it is stopped. *)
Record subqueue := Sub { sub_hw_queue : nat; stopped : bool }.

(** [cab_queue] is [None] for [IEEE80211_INVAL_HW_QUEUE]. *)
Record sub_if_data := Sdata { has_dev : bool; offchannel : bool; cab_queue : option nat; subqueues : list subqueue }.

(** [sent] are the frames given to the driver, [freed] those dropped. *)
Record local := Local {
  queues : nat; queue_stop_reasons : list Z; pending : list (list sk_buff); tx_pending_tasklet : bool;
  interfaces : list sub_if_data; sent : list sk_buff; freed : list sk_buff }.

Definition reasons (l : local) (q : nat) : Z := default 0 (queue_stop_reasons l !! q).
Definition waiting (l : local) (q : nat) : list sk_buff := default [] (pending l !! q).

Definition set_reasons (l : local) (q : nat) (r : Z) : local :=
  Local (queues l) (<[q := r]> (queue_stop_reasons l)) (pending l) (tx_pending_tasklet l) (interfaces l) (sent l) (freed l).
Definition set_pending (l : local) (q : nat) (p : list sk_buff) : local :=
  Local (queues l) (queue_stop_reasons l) (<[q := p]> (pending l)) (tx_pending_tasklet l) (interfaces l) (sent l) (freed l).
Definition set_tasklet (l : local) (b : bool) : local :=
  Local (queues l) (queue_stop_reasons l) (pending l) b (interfaces l) (sent l) (freed l).
Definition set_interfaces (l : local) (vs : list sub_if_data) : local :=
  Local (queues l) (queue_stop_reasons l) (pending l) (tx_pending_tasklet l) vs (sent l) (freed l).
Definition add_sent (l : local) (s : sk_buff) : local :=
  Local (queues l) (queue_stop_reasons l) (pending l) (tx_pending_tasklet l) (interfaces l) (sent l ++ [s]) (freed l).
Definition ieee80211_free_txskb (l : local) (s : sk_buff) : local :=
  Local (queues l) (queue_stop_reasons l) (pending l) (tx_pending_tasklet l) (interfaces l) (sent l) (freed l ++ [s]).

(** ** Stopping and waking queues *)

Definition n_acs (l : local) : nat := if bool_decide (queues l < IEEE80211_NUM_ACS)%nat then 1 else IEEE80211_NUM_ACS.

(** The loop over the access categories of an interface. *)
Definition for_acs (n : nat) (f : subqueue -> subqueue) (v : sub_if_data) : sub_if_data :=
  Sdata (has_dev v) (offchannel v) (cab_queue v) ((f <$> take n (subqueues v)) ++ drop n (subqueues v)).

Definition is_cab (v : sub_if_data) (queue : nat) : bool := bool_decide (cab_queue v = Some queue).
Definition netif_stop_subqueue (a : subqueue) : subqueue := Sub (sub_hw_queue a) true.
Definition netif_wake_subqueue (a : subqueue) : subqueue := Sub (sub_hw_queue a) false.

Definition stop_interface (l : local) (queue : nat) (v : sub_if_data) : sub_if_data :=
  if negb (has_dev v) then v
  else for_acs (n_acs l) (fun a => if (sub_hw_queue a =? queue)%nat || is_cab v queue then netif_stop_subqueue a else a) v.

Definition __ieee80211_stop_queue (l : local) (queue : nat) (reason : Z) : local :=
  if bool_decide (queues l <= queue)%nat then l
  else if Z.testbit (reasons l queue) reason then l
  else
    let l := set_reasons l queue (Z.setbit (reasons l queue) reason) in
    set_interfaces l (stop_interface l queue <$> interfaces l).

Definition wake_interface (l : local) (queue : nat) (v : sub_if_data) : sub_if_data :=
  if negb (has_dev v) then v
  else if offchannel v then v
  else if match cab_queue v with Some c => negb (reasons l c =? 0) | None => false end then v
  else
    for_acs (n_acs l) (fun a =>
      if (sub_hw_queue a =? queue)%nat ||
         (is_cab v queue && (reasons l (sub_hw_queue a) =? 0) && bool_decide (waiting l (sub_hw_queue a) = []))
      then netif_wake_subqueue a else a) v.

Definition ieee80211_propagate_queue_wake (l : local) (queue : nat) : local :=
  set_interfaces l (wake_interface l queue <$> interfaces l).

Definition __ieee80211_wake_queue (l : local) (queue : nat) (reason : Z) : local :=
  if bool_decide (queues l <= queue)%nat then l
  else if negb (Z.testbit (reasons l queue) reason) then l
  else
    let l := set_reasons l queue (Z.clearbit (reasons l queue) reason) in
    if negb (reasons l queue =? 0) then l
    else if bool_decide (waiting l queue = []) then ieee80211_propagate_queue_wake l queue
    else set_tasklet l true.

(** The functions that take the lock. *)
Definition ieee80211_stop_queue_by_reason := __ieee80211_stop_queue.
Definition ieee80211_wake_queue_by_reason := __ieee80211_wake_queue.
Definition ieee80211_stop_queue (l : local) (queue : nat) : local :=
  ieee80211_stop_queue_by_reason l queue IEEE80211_QUEUE_STOP_REASON_DRIVER.
Definition ieee80211_wake_queue (l : local) (queue : nat) : local :=
  ieee80211_wake_queue_by_reason l queue IEEE80211_QUEUE_STOP_REASON_DRIVER.

(** The loop over the queues of the hardware. *)
Definition for_queues (f : local -> nat -> local) (l : local) : local := fold_left f (seq 0 (queues l)) l.

Definition ieee80211_stop_queues_by_reason (l : local) (reason : Z) : local :=
  for_queues (fun l i => __ieee80211_stop_queue l i reason) l.
Definition ieee80211_wake_queues_by_reason (l : local) (reason : Z) : local :=
  for_queues (fun l i => __ieee80211_wake_queue l i reason) l.
Definition ieee80211_stop_queues (l : local) : local := ieee80211_stop_queues_by_reason l IEEE80211_QUEUE_STOP_REASON_DRIVER.
Definition ieee80211_wake_queues (l : local) : local := ieee80211_wake_queues_by_reason l IEEE80211_QUEUE_STOP_REASON_DRIVER.
Definition ieee80211_queue_stopped (l : local) (queue : nat) : bool :=
  if bool_decide (queues l <= queue)%nat then true else negb (reasons l queue =? 0).

(** ** Frames that wait *)

Definition ieee80211_add_pending_skb (l : local) (skb : sk_buff) : local :=
  let queue := hw_queue skb in
  if bool_decide (vif skb = None) then ieee80211_free_txskb l skb
  else
    let l := __ieee80211_stop_queue l queue IEEE80211_QUEUE_STOP_REASON_SKB_ADD in
    let l := set_pending l queue (waiting l queue ++ [skb]) in
    __ieee80211_wake_queue l queue IEEE80211_QUEUE_STOP_REASON_SKB_ADD.

(** The loop over the frames. *)
Definition add_one (l : local) (skb : sk_buff) : local :=
  if bool_decide (vif skb = None) then ieee80211_free_txskb l skb
  else
    let l := __ieee80211_stop_queue l (hw_queue skb) IEEE80211_QUEUE_STOP_REASON_SKB_ADD in
    set_pending l (hw_queue skb) (waiting l (hw_queue skb) ++ [skb]).

(** [fn], called under the lock, does not touch the queues: it has no effect
    here. *)
Definition ieee80211_add_pending_skbs_fn (l : local) (skbs : list sk_buff) : local :=
  ieee80211_wake_queues_by_reason (fold_left add_one skbs l) IEEE80211_QUEUE_STOP_REASON_SKB_ADD.

Definition ieee80211_clear_tx_pending (l : local) : local :=
  for_queues (fun l i => set_pending (fold_left ieee80211_free_txskb (waiting l i) l) i []) l.

(** When interface [v] goes down: its frames are taken from the queues. *)
Definition purge_queue (v : nat) (l : local) (i : nat) : local :=
  let gone := filter (fun s => vif s = Some v) (waiting l i) in
  set_pending (fold_left ieee80211_free_txskb gone l) i (filter (fun s => vif s <> Some v) (waiting l i)).
Definition ieee80211_do_stop (v : nat) (l : local) : local := fold_left (purge_queue v) (seq 0 IEEE80211_MAX_QUEUES) l.

(** ** The off-channel operation *)

Definition all_subqueues (f : subqueue -> subqueue) (off : bool) (v : sub_if_data) : sub_if_data :=
  Sdata (has_dev v) off (cab_queue v) (if has_dev v then f <$> subqueues v else subqueues v).

(** The interfaces are running and neither monitors nor P2P devices. *)
Definition ieee80211_offchannel_stop_vifs (l : local) : local := set_interfaces l (all_subqueues netif_stop_subqueue true <$> interfaces l).
Definition ieee80211_offchannel_return (l : local) : local := set_interfaces l (all_subqueues netif_wake_subqueue false <$> interfaces l).

(** ** Sending *)

(** What the driver does to its queues. *)
Inductive queue_op := Stop (q : nat) | Wake (q : nat).

Definition driver_op (l : local) (o : queue_op) : local :=
  match o with Stop q => ieee80211_stop_queue l q | Wake q => ieee80211_wake_queue l q end.

Section Sending.
(** The driver, by the frames it got before: the operations in its [tx] call. *)
Context (driver : list sk_buff -> sk_buff -> list queue_op).

Definition drv_tx (l : local) (skb : sk_buff) : local :=
  fold_left driver_op (driver (sent l) skb) (add_sent l skb).

(** The result is false when frames had to wait. *)
Fixpoint ieee80211_tx_frags (txpending : bool) (skbs : list sk_buff) (l : local) : local * bool :=
  match skbs with
  | [] => (l, true)
  | skb :: rest =>
      let q := hw_queue skb in
      if negb (reasons l q =? 0) || (negb txpending && bool_decide (waiting l q <> [])) then
        (set_pending l q (if txpending then skbs ++ waiting l q else waiting l q ++ skbs), false)
      else ieee80211_tx_frags txpending rest (drv_tx l skb)
  end.

(** [ieee80211_tx_pending_skb] for a frame that needs no processing. *)
Definition tx_pending_skb (l : local) (skb : sk_buff) : local * bool := ieee80211_tx_frags true [skb] l.
End Sending.

(** ** The tasklet *)

Section Tasklet.
(** A state that has the queues in it, and [ieee80211_tx_pending_skb] on it. *)
Context {S : Type} (get : S -> local) (put : local -> S -> S) (process : S -> sk_buff -> S * bool).

Definition update (f : local -> local) (s : S) : S := put (f (get s)) s.

(** The loop over queue [i]; [None] is a loop that does not end. *)
Fixpoint drain (fuel : nat) (i : nat) (s : S) : option S :=
  match waiting (get s) i with
  | [] => Some s
  | skb :: rest =>
      match fuel with
      | O => None
      | Datatypes.S fuel =>
          let s := update (fun l => set_pending l i rest) s in
          if bool_decide (vif skb = None) then drain fuel i (update (fun l => ieee80211_free_txskb l skb) s)
          else
            let '(s, txok) := process s skb in
            if txok then drain fuel i s else Some s
      end
  end.

Definition tx_pending_queue (s : S) (i : nat) : option S :=
  if negb (reasons (get s) i =? 0) || bool_decide (waiting (get s) i = []) then Some s
  else
    s ← drain (length (waiting (get s) i)) i s;
    Some (if bool_decide (waiting (get s) i = []) then update (fun l => ieee80211_propagate_queue_wake l i) s else s).

Fixpoint tx_pending_queues (qs : list nat) (s : S) : option S :=
  match qs with
  | [] => Some s
  | i :: qs => s ← tx_pending_queue s i; tx_pending_queues qs s
  end.

Definition ieee80211_tx_pending (s : S) : option S :=
  tx_pending_queues (seq 0 (queues (get s))) (update (fun l => set_tasklet l false) s).
End Tasklet.

(** ** Lemmas: the invariant *)

(** Queue [q] is stopped, or has frames that wait; [D] is the queue the
    tasklet is sending from. *)
Definition blocked (D : nat -> Prop) (l : local) (q : nat) : Prop := D q \/ reasons l q <> 0 \/ waiting l q <> [].

(** A queue of an interface is stopped only because of its hardware queue or of
    the queue for multicast frames. *)
Definition covered (D : nat -> Prop) (l : local) (v : sub_if_data) (a : subqueue) : Prop :=
  stopped a = true -> blocked D l (sub_hw_queue a) \/ exists c, cab_queue v = Some c /\ blocked D l c.

Definition iface_ok (D : nat -> Prop) (l : local) (v : sub_if_data) : Prop :=
  (length (subqueues v) <= n_acs l)%nat /\
  (has_dev v = true -> offchannel v = false -> Forall (covered D l v) (subqueues v)).

Definition on_queue (q : nat) (fs : list sk_buff) : list sk_buff := filter (fun s => hw_queue s = q) fs.

(** [W] are the queues the tasklet has not come to, [fl] frames taken from a
    queue that the driver is to get next, [subs] those submitted so far. *)
Record inv (W D : nat -> Prop) (fl subs : list sk_buff) (l : local) : Prop := Inv {
  inv_lengths : length (queue_stop_reasons l) = IEEE80211_MAX_QUEUES /\ length (pending l) = IEEE80211_MAX_QUEUES /\ (queues l <= IEEE80211_MAX_QUEUES)%nat;
  inv_frames : forall q, Forall (fun s => hw_queue s = q /\ vif s <> None /\ (q < queues l)%nat) (waiting l q);
  inv_wakeup : forall q, W q \/ (waiting l q <> [] -> reasons l q <> 0 \/ tx_pending_tasklet l = true);
  inv_ifaces : Forall (iface_ok D l) (interfaces l);
  inv_fifo : forall q, on_queue q (sent l) ++ on_queue q fl ++ waiting l q = on_queue q subs }.

Lemma reasons_set l q r q' : (q < length (queue_stop_reasons l))%nat -> reasons (set_reasons l q r) q' = if decide (q = q') then r else reasons l q'.
Proof.
  intros Hq; unfold reasons; cbn [set_reasons queue_stop_reasons]; case_decide as E; [subst; by rewrite list_lookup_insert_eq|].
  by rewrite list_lookup_insert_ne.
Qed.

Lemma waiting_set l q p q' : (q < length (pending l))%nat -> waiting (set_pending l q p) q' = if decide (q = q') then p else waiting l q'.
Proof.
  intros Hq; unfold waiting; cbn [set_pending pending]; case_decide as E; [subst; by rewrite list_lookup_insert_eq|].
  by rewrite list_lookup_insert_ne.
Qed.

Lemma on_queue_app q a b : on_queue q (a ++ b) = on_queue q a ++ on_queue q b.
Proof. apply list.filter_app. Qed.

Lemma on_queue_all q q' fs : Forall (fun s => hw_queue s = q) fs -> on_queue q' fs = if decide (q = q') then fs else [].
Proof.
  induction 1 as [|s fs Hs Hf IH]; [by case_decide|]; unfold on_queue in *; rewrite filter_cons, IH, Hs; by repeat case_decide.
Qed.

Lemma for_acs_all n f v : (length (subqueues v) <= n)%nat -> for_acs n f v = Sdata (has_dev v) (offchannel v) (cab_queue v) (f <$> subqueues v).
Proof. intros Hn; unfold for_acs; by rewrite take_ge, drop_ge, app_nil_r by done. Qed.

Lemma covered_mono D D' l l' v a : (forall q, blocked D l q -> blocked D' l' q) -> covered D l v a -> covered D' l' v a.
Proof. intros Hm Hc Hs; destruct (Hc Hs) as [Hb | (c & Hc' & Hb)]; [left; auto|right; eauto]. Qed.

Lemma iface_mono D D' l l' v : n_acs l' = n_acs l -> (forall q, blocked D l q -> blocked D' l' q) -> iface_ok D l v -> iface_ok D' l' v.
Proof.
  intros Hn Hm [Hl Hc]; split; [by rewrite Hn|]; intros Hd Ho; eapply list.Forall_impl; [by apply Hc|]; intros a; by apply covered_mono.
Qed.

Lemma setbit_nonzero a n : 0 <= n -> Z.setbit a n <> 0.
Proof. intros Hn E; apply (f_equal (fun x => Z.testbit x n)) in E; by rewrite Z.setbit_eq, Z.bits_0 in E. Qed.

Lemma stop_inv W D fl subs l q r : 0 <= r -> inv W D fl subs l -> inv W D fl subs (__ieee80211_stop_queue l q r).
Proof.
  intros Hr [(Hl1 & Hl2 & Hq) Hf Hw Hi Ho]; unfold __ieee80211_stop_queue; case_bool_decide as Eq; [by constructor|].
  destruct (Z.testbit _ _); [by constructor|]; set (l1 := set_reasons _ _ _).
  assert (Er : forall q', reasons l1 q' = if decide (q = q') then Z.setbit (reasons l q) r else reasons l q') by (intros; apply reasons_set; lia).
  assert (Hb : forall q', blocked D l q' -> blocked D l1 q').
  { intros q' [H1 | [H1 | H1]]; [by left| |by right; right]; right; left; rewrite Er; case_decide; [by apply setbit_nonzero|done]. }
  constructor; cbn [set_interfaces queue_stop_reasons pending queues tx_pending_tasklet interfaces sent]; try done.
  - split_and!; try done; unfold l1; cbn [set_reasons queue_stop_reasons]; by rewrite length_insert.
  - intros q'; destruct (Hw q') as [|Hw']; [by left|right]; intros Hn; destruct (Hw' Hn) as [|]; [left|by right].
    change (reasons l1 q' <> 0); rewrite Er; case_decide; [by apply setbit_nonzero|done].
  - apply Forall_fmap; eapply list.Forall_impl; [exact Hi|]; intros v Hv; unfold compose, stop_interface; destruct (has_dev v) eqn:Ed; cbn [negb].
    2: by apply (iface_mono D D l).
    destruct Hv as [Hn Hc]; change (n_acs l1) with (n_acs l); rewrite for_acs_all by done; split; cbn [subqueues has_dev offchannel cab_queue].
    { by rewrite length_fmap. }
    intros _ Hoff; apply Forall_fmap; eapply list.Forall_impl; [by apply Hc|]; intros a Ha; unfold compose.
    assert (Hbq : blocked D l1 q) by (right; left; rewrite Er, decide_True by done; by apply setbit_nonzero).
    destruct (_ || _) eqn:E; [|by apply (covered_mono D D l)].
    intros _; apply orb_true_iff in E as [E%Nat.eqb_eq | E]; cbn [sub_hw_queue netif_stop_subqueue cab_queue].
    + left; rewrite E; exact Hbq.
    + right; exists q; apply bool_decide_eq_true in E; by split.
Qed.

(** Waking makes up for one queue that is neither stopped nor has frames. *)
Lemma propagate_inv W D fl subs l q : waiting l q = [] -> inv (fun x => W x \/ x = q) (fun x => D x \/ x = q) fl subs l ->
  inv W D fl subs (ieee80211_propagate_queue_wake l q).
Proof.
  intros Hq0 [Hl Hf Hw Hi Ho]; constructor; cbn [ieee80211_propagate_queue_wake set_interfaces queue_stop_reasons pending queues tx_pending_tasklet interfaces sent]; try done.
  - intros q'; destruct (Hw q') as [[Hd | ->] | Hw']; [by left| |by right]; right; intros Hn; by destruct Hn.
  - apply Forall_fmap; eapply list.Forall_impl; [exact Hi|]; intros v [Hn Hc]; unfold compose, wake_interface.
    destruct (has_dev v) eqn:Ed; cbn [negb]; [|split; [done|intros Hd; by rewrite Ed in Hd]].
    destruct (offchannel v) eqn:Eo; [split; [done|intros _ Hoff; by rewrite Eo in Hoff]|]; specialize (Hc eq_refl eq_refl).
    destruct (match cab_queue v with Some _ => _ | None => _ end) eqn:Ec.
    { split; [done|]; intros _ _; apply list.Forall_forall; intros a _ _; right; destruct (cab_queue v) as [c|]; [|done].
      exists c; split; [done|]; right; left; by apply Z.eqb_neq, negb_true_iff. }
    rewrite for_acs_all by done; split; cbn [subqueues has_dev offchannel cab_queue]; [by rewrite length_fmap|]; intros _ _.
    apply Forall_fmap; eapply list.Forall_impl; [exact Hc|]; intros a Ha; unfold compose.
    destruct (_ || _) eqn:E; [done|]; apply orb_false_iff in E as [E1%Nat.eqb_neq E2]; intros Hs.
    assert (Hbl : forall x, blocked (fun x => D x \/ x = q) l x -> x <> q -> blocked D l x) by (intros x [[Hd | ->] | Hx] Hne; [by left|done|by right]).
    destruct (Ha Hs) as [Hb | (c & Hc' & Hb)]; [left; by apply Hbl|]; destruct (decide (c = q)) as [-> | Hne]; [|right; exists c; split; [done|by apply Hbl]].
    left; unfold is_cab in E2; rewrite bool_decide_true in E2 by done; cbn [andb] in E2; apply andb_false_iff in E2 as [E2%Z.eqb_neq | E2].
    + by right; left.
    + right; right; intros E; by rewrite bool_decide_true in E2.
Qed.

Lemma wake_inv W D fl subs l q r : inv W D fl subs l -> inv W D fl subs (__ieee80211_wake_queue l q r).
Proof.
  intros Hinv; pose proof Hinv as [(Hl1 & Hl2 & Hq) Hf Hw Hi Ho]; unfold __ieee80211_wake_queue; case_bool_decide as Eq; [done|].
  destruct (Z.testbit _ _) eqn:Et; cbn [negb]; [|done]; set (l1 := set_reasons _ _ _).
  assert (Er : forall q', reasons l1 q' = if decide (q = q') then Z.clearbit (reasons l q) r else reasons l q') by (intros; apply reasons_set; lia).
  assert (Hl : length (queue_stop_reasons l1) = IEEE80211_MAX_QUEUES) by (unfold l1; cbn [set_reasons queue_stop_reasons]; by rewrite length_insert).
  assert (H1 : inv (fun x => W x \/ x = q) (fun x => D x \/ x = q) fl subs l1).
  { constructor; try done.
    - intros q'; destruct (decide (q' = q)) as [->|Hne]; [left; by right|]; destruct (Hw q') as [Hd | Hw']; [left; by left|right].
      intros Hn; rewrite Er, decide_False by done; exact (Hw' Hn).
    - eapply list.Forall_impl; [exact Hi|]; intros v; apply iface_mono; [done|]; intros x [Hd | Hx]; [left; by left|].
      destruct (decide (x = q)) as [->|Hne]; [left; by right|right]; rewrite Er, decide_False by done; exact Hx. }
  assert (Hdrop : forall l2, reasons l2 = reasons l1 -> waiting l2 = waiting l1 -> pending l2 = pending l1 -> queues l2 = queues l1 ->
    queue_stop_reasons l2 = queue_stop_reasons l1 -> interfaces l2 = interfaces l1 -> sent l2 = sent l1 ->
    (tx_pending_tasklet l2 = tx_pending_tasklet l1 /\ reasons l1 q <> 0 \/ tx_pending_tasklet l2 = true /\ waiting l1 q <> []) -> inv W D fl subs l2).
  { intros l2 E1 E2 E3 E4 E5 E6 E7 Hor; destruct H1 as [Hl' Hf' Hw' Hi' Ho']; constructor; rewrite ?E2, ?E3, ?E4, ?E5, ?E6, ?E7; try done; try (by destruct Hl').
    - intros q'; rewrite E1; destruct (Hw' q') as [[Hd | ->] | Hq']; [by left| |].
      + right; intros Hn; destruct Hor as [[_ Hr] | [Ht _]]; [by left|by right].
      + right; intros Hn; destruct Hor as [[-> _] | [Ht _]]; [by apply Hq'|by right].
    - eapply list.Forall_impl; [exact Hi'|]; intros v; apply iface_mono; [unfold n_acs; by rewrite E4|]; unfold blocked; rewrite E1, E2.
      intros x [[Hd | ->] | Hx]; [by left| |by right]; right; destruct Hor as [[_ Hr] | [_ Hn]]; [by left|by right]. }
  destruct (reasons l1 q =? 0) eqn:Ez; cbn [negb]; [|apply Hdrop; try done; left; split; [done|by apply Z.eqb_neq]].
  case_bool_decide as En; [by apply propagate_inv|]; apply Hdrop; try done; right; by split.
Qed.

Lemma inv_widen (W W' D D' : nat -> Prop) fl subs l : (forall q, W q -> W' q) -> (forall q, D q -> D' q) -> inv W D fl subs l -> inv W' D' fl subs l.
Proof.
  intros HW HD [Hl Hf Hw Hi Ho]; constructor; try done.
  - intros q; destruct (Hw q); [left; auto|by right].
  - eapply list.Forall_impl; [exact Hi|]; intros v; apply iface_mono; [done|]; intros q [Hd | Hx]; [left; auto|by right].
Qed.

Definition frame_ok (l : local) (q : nat) (s : sk_buff) : Prop := hw_queue s = q /\ vif s <> None /\ (q < queues l)%nat.

Lemma set_pending_inv (W D : nat -> Prop) fl fl' subs subs' l q p : (q < queues l)%nat -> Forall (frame_ok l q) p ->
  (D q /\ W q \/ reasons l q <> 0 \/ waiting l q <> []) -> (waiting l q <> [] -> D q \/ p <> []) ->
  (forall q', on_queue q' (sent l) ++ on_queue q' fl' ++ (if decide (q = q') then p else waiting l q') = on_queue q' subs') ->
  inv W D fl subs l -> inv W D fl' subs' (set_pending l q p).
Proof.
  intros Hq Hp Hb Hn Ho' [(Hl1 & Hl2 & Hlq) Hf Hw Hi Ho].
  assert (Ew : forall q', waiting (set_pending l q p) q' = if decide (q = q') then p else waiting l q') by (intros; apply waiting_set; lia).
  constructor; cbn [set_pending queue_stop_reasons pending queues tx_pending_tasklet interfaces sent].
  - split_and!; try done; by rewrite length_insert.
  - intros q'; rewrite Ew; case_decide as E; [subst; exact Hp|apply Hf].
  - intros q'; rewrite Ew; case_decide as E; [subst q'|apply Hw]; change (reasons (set_pending l q p) q) with (reasons l q).
    destruct Hb as [[_ Hd] | [Hr | Hx]]; [by left|right; by left|]; destruct (Hw q) as [|Hw']; [by left|right; intros _; by apply Hw'].
  - eapply list.Forall_impl; [exact Hi|]; intros v; apply iface_mono; [done|]; unfold blocked; intros x [Hd | [Hr | Hx]]; [by left|by right; left|].
    rewrite Ew; case_decide as E; [subst x; destruct (Hn Hx); [by left|by right; right]|by right; right].
  - intros q'; rewrite Ew; apply Ho'.
Qed.

Lemma stop_frame l q r : waiting (__ieee80211_stop_queue l q r) = waiting l /\ sent (__ieee80211_stop_queue l q r) = sent l /\
  queues (__ieee80211_stop_queue l q r) = queues l.
Proof. unfold __ieee80211_stop_queue; case_bool_decide; [done|]; by destruct (Z.testbit _ _). Qed.

Lemma wake_frame l q r : waiting (__ieee80211_wake_queue l q r) = waiting l /\ sent (__ieee80211_wake_queue l q r) = sent l /\
  queues (__ieee80211_wake_queue l q r) = queues l.
Proof.
  unfold __ieee80211_wake_queue; case_bool_decide; [done|]; destruct (Z.testbit _ _); cbn [negb]; [|done].
  destruct (_ =? 0); cbn [negb]; [|done]; by case_bool_decide.
Qed.

Lemma driver_ops_inv W D fl subs os l : inv W D fl subs l -> inv W D fl subs (fold_left driver_op os l) /\
  waiting (fold_left driver_op os l) = waiting l /\ queues (fold_left driver_op os l) = queues l.
Proof.
  revert l; induction os as [|o os IH]; intros l Hinv; [done|]; cbn [fold_left]; destruct o as [q|q]; cbn [driver_op].
  - destruct (stop_frame l q IEEE80211_QUEUE_STOP_REASON_DRIVER) as (<- & _ & <-); apply IH, stop_inv; done.
  - destruct (wake_frame l q IEEE80211_QUEUE_STOP_REASON_DRIVER) as (<- & _ & <-); apply IH, wake_inv; done.
Qed.

Section Driver.
Context (driver : list sk_buff -> sk_buff -> list queue_op).

Lemma drv_tx_inv W D skb fl subs l : inv W D (skb :: fl) subs l ->
  inv W D fl subs (drv_tx driver l skb) /\ waiting (drv_tx driver l skb) = waiting l /\ queues (drv_tx driver l skb) = queues l.
Proof.
  intros [Hl Hf Hw Hi Ho]; unfold drv_tx; apply (driver_ops_inv W D fl subs _ (add_sent l skb)); constructor; try done.
  intros q; cbn [add_sent sent]; rewrite on_queue_app, <- app_assoc; etransitivity; [|apply Ho]; f_equal.
  rewrite app_assoc; f_equal; symmetry; apply (on_queue_app q [skb] fl).
Qed.

Lemma tx_frags_inv W D b q skbs subs l : Forall (frame_ok l q) skbs -> (b = false -> waiting l q = []) -> inv W D skbs subs l ->
  let r := ieee80211_tx_frags driver b skbs l in
  inv W D [] subs r.1 /\ queues r.1 = queues l /\ (r.2 = true -> waiting r.1 = waiting l) /\ (r.2 = false -> reasons r.1 q <> 0).
Proof.
  revert l; induction skbs as [|skb skbs IH]; intros l Hs Hb Hinv; cbn [ieee80211_tx_frags]; [done|].
  pose proof Hs as [(Eq & Hv & Hq) Hs']%Forall_cons_1; rewrite Eq.
  assert (Ew : negb b && bool_decide (waiting l q <> []) = false).
  { destruct b; [done|]; cbn [negb andb]; rewrite Hb by done; apply bool_decide_false; intros Hx; by apply Hx. }
  rewrite Ew, orb_false_r; destruct (reasons l q =? 0) eqn:Er; cbn [negb].
  - destruct (drv_tx_inv _ _ _ _ _ _ Hinv) as (H1 & H2 & H3); rewrite <- H2, <- H3; apply IH; [|by rewrite H2|done].
    eapply list.Forall_impl; [exact Hs'|]; intros s; unfold frame_ok; by rewrite H3.
  - apply Z.eqb_neq in Er; cbn [fst snd]; split; [|done]; pose proof Hinv as [(Hl1 & Hl2 & Hlq) Hf Hw Hi Ho].
    assert (Eqs : forall q', on_queue q' (skb :: skbs) = if decide (q = q') then skb :: skbs else []).
    { intros; apply on_queue_all; eapply list.Forall_impl; [exact Hs|]; by intros s (? & _). }
    apply (set_pending_inv W D (skb :: skbs) [] subs); try done.
    + destruct b; apply Forall_app; split; try done; apply Hf.
    + by right; left.
    + intros _; right; destruct b; [done|]; intros E; by apply app_nil in E as [_ ?].
    + intros q'; rewrite <- (Ho q'), Eqs; change (on_queue q' []) with (@nil sk_buff); cbn [app]; case_decide as E; [subst q'|done]; f_equal.
      destruct b; [done|]; rewrite Hb by done; by rewrite app_nil_r.
Qed.

Lemma drain_inv W i subs l fuel : (i < queues l)%nat -> (length (waiting l i) <= fuel)%nat -> W i -> inv W (fun x => x = i) [] subs l ->
  exists l', drain id (fun l _ => l) (tx_pending_skb driver) fuel i l = Some l' /\ inv W (fun x => x = i) [] subs l' /\
    queues l' = queues l /\ (waiting l' i = [] \/ reasons l' i <> 0).
Proof.
  intros Hi Hfu HW; revert l Hi Hfu; induction fuel as [|fuel IH]; intros l Hi Hfu Hinv; cbn [drain]; change (id l) with l.
  { destruct (waiting l i) eqn:E; [|cbn [length] in Hfu; lia]; exists l; rewrite E; split_and!; [done|done|done|by left]. }
  destruct (waiting l i) as [|skb rest] eqn:E; [exists l; rewrite E; split_and!; [done|done|done|by left]|].
  pose proof Hinv as [Hl Hf Hw Hif Ho]; pose proof (Hf i) as Hfi; rewrite E in Hfi; pose proof Hfi as [(Eq & Hv & Hq) Hrest]%Forall_cons_1.
  rewrite bool_decide_false by done; unfold update; change (id l) with l; set (l1 := set_pending l i rest).
  assert (H1 : inv W (fun x => x = i) [skb] subs l1).
  { apply (set_pending_inv W _ [] [skb] subs); try done; [by left|by left|]; intros q'; rewrite <- (Ho q').
    change (on_queue q' []) with (@nil sk_buff); cbn [app]; f_equal; rewrite (on_queue_all i) by (constructor; [done|constructor]).
    case_decide as Ed; [subst q'; by rewrite E|done]. }
  assert (Ew1 : waiting l1 i = rest) by (unfold l1; rewrite waiting_set, decide_True by (done || (destruct Hl as (_ & -> & ?); lia)); done).
  assert (Hs1 : Forall (frame_ok l1 i) [skb]) by (constructor; [done|constructor]).
  destruct (tx_frags_inv W (fun x => x = i) true i [skb] subs l1 Hs1 ltac:(done) H1) as (H2 & H3 & H4 & H5); unfold tx_pending_skb.
  destruct (ieee80211_tx_frags driver true [skb] l1) as [l2 []]; cbn [fst snd] in *.
  - destruct (IH l2) as (l' & E' & H6 & H7 & H8); [by rewrite H3| |done|]; [rewrite H4, Ew1 by done; cbn [length] in Hfu; lia|].
    exists l'; rewrite H7, H3; by split_and!.
  - exists l2; rewrite H3; split_and!; try done; right; by apply H5.
Qed.

Lemma tx_pending_queue_inv (W : nat -> Prop) i subs l : (i < queues l)%nat -> inv (fun x => W x \/ x = i) (fun _ => False) [] subs l ->
  exists l', tx_pending_queue id (fun l _ => l) (tx_pending_skb driver) l i = Some l' /\ inv W (fun _ => False) [] subs l' /\ queues l' = queues l.
Proof.
  intros Hi Hinv; unfold tx_pending_queue; change (id l) with l; destruct (_ || _) eqn:E.
  - exists l; split; [done|]; split; [|done]; destruct Hinv as [Hl Hf Hw Hif Ho]; constructor; try done.
    intros q; destruct (Hw q) as [[ | -> ] | Hq]; [by left| |by right]; right; intros Hn; apply orb_true_iff in E as [E | E].
    + left; by apply negb_true_iff, Z.eqb_neq in E.
    + by apply bool_decide_eq_true in E.
  - destruct (drain_inv (fun x => W x \/ x = i) i subs l (length (waiting l i))) as (l' & -> & H1 & H2 & H3); try done; [by right| |].
    { revert Hinv; apply inv_widen; [done|]; by intros. }
    clear E; cbn [mbind option_bind]; change (id l') with l'; unfold update; change (id l') with l'.
    assert (H1' : inv (fun x => W x \/ x = i) (fun x => False \/ x = i) [] subs l') by (revert H1; apply inv_widen; [done|auto]).
    case_bool_decide as En.
    + eexists; split; [done|]; split; [by apply propagate_inv|exact H2].
    + destruct H3 as [|Hr]; [done|]; eexists; split; [done|]; split; [|exact H2]; destruct H1 as [Hl Hf Hw Hif Ho]; constructor; try done.
      * intros q; destruct (Hw q) as [[ | -> ] | Hq]; [by left| |by right]; right; intros _; by left.
      * eapply list.Forall_impl; [exact Hif|]; intros v; apply iface_mono; [done|]; intros x [-> | Hx]; [right; by left|by right].
Qed.

Lemma tx_pending_queues_inv qs subs l : Forall (fun i => (i < queues l)%nat) qs -> inv (fun x => x ∈ qs) (fun _ => False) [] subs l ->
  exists l', tx_pending_queues id (fun l _ => l) (tx_pending_skb driver) qs l = Some l' /\
    inv (fun _ => False) (fun _ => False) [] subs l' /\ queues l' = queues l.
Proof.
  revert l; induction qs as [|i qs IH]; intros l Hs Hinv; cbn [tx_pending_queues].
  { exists l; split; [done|]; split; [|done]; revert Hinv; apply inv_widen; [set_solver|done]. }
  apply Forall_cons_1 in Hs as [Hi Hs]; destruct (tx_pending_queue_inv (fun x => x ∈ qs) i subs l Hi) as (l1 & -> & H1 & H2).
  { revert Hinv; apply inv_widen; [set_solver|done]. }
  cbn [mbind option_bind]; destruct (IH l1) as (l' & E & H3 & H4); [by rewrite H2|done|]; exists l'; by rewrite H4.
Qed.

Lemma tx_pending_inv subs l : inv (fun _ => False) (fun _ => False) [] subs l ->
  exists l', ieee80211_tx_pending id (fun l _ => l) (tx_pending_skb driver) l = Some l' /\ inv (fun _ => False) (fun _ => False) [] subs l' /\ queues l' = queues l.
Proof.
  intros Hinv; unfold ieee80211_tx_pending, update; change (id l) with l.
  apply (tx_pending_queues_inv _ subs (set_tasklet l false)).
  - apply list.Forall_forall; intros x Hx; apply elem_of_seq in Hx; cbn [set_tasklet queues]; lia.
  - destruct Hinv as [Hl Hf Hw Hi Ho]; constructor; try done; intros q; destruct (decide (q < queues l)%nat) as [Hq|Hq].
    { left; apply elem_of_seq; lia. }
    right; intros Hn; change (waiting (set_tasklet l false) q) with (waiting l q) in Hn; pose proof (Hf q) as Hfq.
    destruct (waiting l q); [done|]; apply Forall_cons_1 in Hfq as [(_ & _ & ?) _]; lia.
Qed.
End Driver.

(** ** Lemmas: the tasklet on any state *)

Section TaskletRule.
Context {S : Type} (get : S -> local) (put : local -> S -> S) (process : S -> sk_buff -> S * bool).
(** [P fl s]: the state is in order, with the frames [fl] taken out. *)
Context (P : list sk_buff -> S -> Prop).
Context (Hget : forall l s, get (put l s) = l).
Context (Hpop : forall s i skb rest, waiting (get s) i = skb :: rest -> P [] s -> P [skb] (update get put (fun l => set_pending l i rest) s)).
Context (Hfree : forall s skb, P [skb] s -> P [] (update get put (fun l => ieee80211_free_txskb l skb) s)).
Context (Hproc : forall s skb s' ok, process s skb = (s', ok) -> P [skb] s ->
  P [] s' /\ (ok = true -> forall i, (length (waiting (get s') i) <= length (waiting (get s) i))%nat)).
Context (Hwake : forall s i, P [] s -> P [] (update get put (fun l => ieee80211_propagate_queue_wake l i) s)).
Context (Hflag : forall s, P [] s -> P [] (update get put (fun l => set_tasklet l false) s)).

Lemma waiting_pop l i skb rest : waiting l i = skb :: rest -> waiting (set_pending l i rest) i = rest.
Proof.
  intros E; rewrite waiting_set, decide_True; [done..|]; destruct (decide (i < length (pending l))%nat); [done|].
  unfold waiting in E; by rewrite lookup_ge_None_2 in E by lia.
Qed.

Lemma drain_rule fuel i s : (length (waiting (get s) i) <= fuel)%nat -> P [] s -> exists s', drain get put process fuel i s = Some s' /\ P [] s'.
Proof.
  revert s; induction fuel as [|fuel IH]; intros s Hf Hs; cbn [drain]; destruct (waiting (get s) i) as [|skb rest] eqn:E; try (by exists s); [cbn [length] in Hf; lia|].
  pose proof (Hpop s i skb rest E Hs) as H1; set (s1 := update get put _ s) in *.
  assert (E1 : waiting (get s1) i = rest) by (unfold s1, update; rewrite Hget; by apply (waiting_pop _ _ skb)).
  cbn [length] in Hf; case_bool_decide.
  - apply IH; [|by apply Hfree]; unfold update; rewrite Hget; change (length (waiting (get s1) i) <= fuel)%nat; rewrite E1; lia.
  - destruct (process s1 skb) as [s2 ok] eqn:Ep; destruct (Hproc _ _ _ _ Ep H1) as [H2 Hl]; destruct ok; [|by exists s2].
    apply IH; [|done]; specialize (Hl eq_refl i); rewrite E1 in Hl; lia.
Qed.

Lemma tx_pending_rule s : P [] s -> exists s', ieee80211_tx_pending get put process s = Some s' /\ P [] s'.
Proof.
  intros Hs; unfold ieee80211_tx_pending; generalize (seq 0 (queues (get s))) as qs; intros qs; apply Hflag in Hs.
  revert Hs; generalize (update get put (fun l => set_tasklet l false) s) as s1; clear s; induction qs as [|i qs IH]; intros s Hs; cbn [tx_pending_queues]; [by exists s|].
  unfold tx_pending_queue; destruct (_ || _); cbn [mbind option_bind]; [by apply IH|].
  destruct (drain_rule (length (waiting (get s) i)) i s ltac:(lia) Hs) as (s1 & -> & H1); cbn [mbind option_bind]; apply IH; case_bool_decide; [by apply Hwake|done].
Qed.
End TaskletRule.

(** ** Runs *)

(** The operations, each a critical section; a transmission and the tasklet
    with what the driver does meanwhile. *)
Inductive op :=
  | OStop (q : nat) (r : Z) | OWake (q : nat) (r : Z) | OStopAll (r : Z) | OWakeAll (r : Z)
  | OTx (driver : list sk_buff -> sk_buff -> list queue_op) (skbs : list sk_buff)
  | OAdd (skb : sk_buff) | OAddAll (skbs : list sk_buff)
  | OPending (driver : list sk_buff -> sk_buff -> list queue_op)
  | OLeave | OReturn.

Definition step (o : op) (l : local) : option local :=
  match o with
  | OStop q r => Some (ieee80211_stop_queue_by_reason l q r)
  | OWake q r => Some (ieee80211_wake_queue_by_reason l q r)
  | OStopAll r => Some (ieee80211_stop_queues_by_reason l r)
  | OWakeAll r => Some (ieee80211_wake_queues_by_reason l r)
  | OTx driver skbs => Some (ieee80211_tx_frags driver false skbs l).1
  | OAdd skb => Some (ieee80211_add_pending_skb l skb)
  | OAddAll skbs => Some (ieee80211_add_pending_skbs_fn l skbs)
  | OPending driver => ieee80211_tx_pending id (fun l _ => l) (tx_pending_skb driver) l
  | OLeave => Some (ieee80211_offchannel_stop_vifs l)
  | OReturn => Some (ieee80211_offchannel_return l)
  end.

Fixpoint run (os : list op) (l : local) : option local :=
  match os with [] => Some l | o :: os => l ← step o l; run os l end.

(** The frames an operation submits. *)
Definition frames_of (o : op) : list sk_buff :=
  match o with OTx _ skbs | OAddAll skbs => skbs | OAdd skb => [skb] | _ => [] end.
Definition submitted (os : list op) : list sk_buff := concat (frames_of <$> os).

(** Frames have an interface and a queue of the hardware; the fragments of one
    frame have the same queue.  Reasons are bit numbers. *)
Definition op_ok (n : nat) (o : op) : Prop :=
  Forall (fun s => vif s <> None /\ (hw_queue s < n)%nat) (frames_of o) /\
  match o with
  | OStop _ r | OStopAll r => 0 <= r
  | OTx _ skbs => forall s s', s ∈ skbs -> s' ∈ skbs -> hw_queue s = hw_queue s'
  | _ => True
  end.

(** The device when it starts. *)
Definition idle (n : nat) (vs : list sub_if_data) : local := Local n (repeat 0 IEEE80211_MAX_QUEUES) (repeat [] IEEE80211_MAX_QUEUES) false vs [] [].

Definition idle_ok (n : nat) (vs : list sub_if_data) : Prop :=
  (n <= IEEE80211_MAX_QUEUES)%nat /\
  Forall (fun v => (length (subqueues v) <= n_acs (idle n vs))%nat /\ Forall (fun a => stopped a = false) (subqueues v)) vs.

Abbreviation settled := (inv (fun _ => False) (fun _ => False)).

Lemma for_queues_inv W D fl subs f l : (forall l i, inv W D fl subs l -> inv W D fl subs (f l i)) -> inv W D fl subs l -> inv W D fl subs (for_queues f l).
Proof.
  intros Hf; unfold for_queues; generalize (seq 0 (queues l)) as qs; intros qs; revert l; induction qs as [|q qs IH]; intros l Hl; [done|]; cbn [fold_left].
  by apply IH, Hf.
Qed.

Lemma stop_reason l q r : (q < queues l)%nat -> length (queue_stop_reasons l) = IEEE80211_MAX_QUEUES -> (queues l <= IEEE80211_MAX_QUEUES)%nat -> 0 <= r ->
  reasons (__ieee80211_stop_queue l q r) q <> 0.
Proof.
  intros Hq Hl Hn Hr; unfold __ieee80211_stop_queue; rewrite bool_decide_false by lia; destruct (Z.testbit (reasons l q) r) eqn:E.
  - intros Ez; by rewrite Ez, Z.bits_0 in E.
  - change (reasons (set_reasons l q (Z.setbit (reasons l q) r)) q <> 0); rewrite reasons_set, decide_True by (done || lia); by apply setbit_nonzero.
Qed.

Lemma add_one_inv subs l skb : vif skb <> None -> (hw_queue skb < queues l)%nat -> settled [] subs l ->
  settled [] (subs ++ [skb]) (add_one l skb) /\ queues (add_one l skb) = queues l.
Proof.
  intros Hv Hq Hinv; unfold add_one; rewrite bool_decide_false by done; pose proof Hinv as [(Hl1 & Hl2 & Hlq) _ _ _ _].
  destruct (stop_frame l (hw_queue skb) IEEE80211_QUEUE_STOP_REASON_SKB_ADD) as (Ew & _ & Eq).
  pose proof (stop_reason l (hw_queue skb) IEEE80211_QUEUE_STOP_REASON_SKB_ADD Hq Hl1 Hlq ltac:(unfold IEEE80211_QUEUE_STOP_REASON_SKB_ADD; lia)) as Hr.
  assert (H1 : settled [] subs (__ieee80211_stop_queue l (hw_queue skb) IEEE80211_QUEUE_STOP_REASON_SKB_ADD)) by (by apply stop_inv).
  set (l1 := __ieee80211_stop_queue _ _ _) in *; split; [|by cbn [set_pending queues]]; pose proof H1 as [_ Hf _ _ Ho].
  apply (set_pending_inv _ _ [] [] subs); try done; [by rewrite Eq| | | |].
  - apply Forall_app; split; [apply Hf|]; constructor; [|constructor]; unfold frame_ok; by rewrite Eq.
  - by right; left.
  - intros _; right; intros E; by apply app_nil in E as [_ ?].
  - intros q'; rewrite on_queue_app, <- (Ho q'); change (on_queue q' []) with (@nil sk_buff); cbn [app]; rewrite <- app_assoc; f_equal.
    rewrite (on_queue_all (hw_queue skb)) by (constructor; [done|constructor]); case_decide as E; [by subst|by rewrite app_nil_r].
Qed.

Lemma add_all_inv subs l skbs : Forall (fun s => vif s <> None /\ (hw_queue s < queues l)%nat) skbs -> settled [] subs l ->
  settled [] (subs ++ skbs) (fold_left add_one skbs l).
Proof.
  revert subs l; induction skbs as [|skb skbs IH]; intros subs l Hs Hinv; [by rewrite app_nil_r|]; apply Forall_cons_1 in Hs as [[Hv Hq] Hs].
  destruct (add_one_inv subs l skb Hv Hq Hinv) as [H1 H2]; cbn [fold_left]; rewrite (app_assoc subs [skb] skbs : subs ++ skb :: skbs = _).
  apply IH; [by rewrite H2|done].
Qed.

Lemma tx_op_inv driver skbs subs l : op_ok (queues l) (OTx driver skbs) -> settled [] subs l ->
  settled [] (subs ++ skbs) (ieee80211_tx_frags driver false skbs l).1.
Proof.
  intros [Hs Hsame] Hinv; destruct skbs as [|skb skbs]; [by rewrite app_nil_r|]; set (q := hw_queue skb).
  assert (Hok : Forall (frame_ok l q) (skb :: skbs)).
  { apply list.Forall_forall; intros s Hin; unfold frame_ok; pose proof (Hsame s skb Hin ltac:(left)) as E.
    apply list.Forall_forall with (x := s) in Hs as [Hv Hq]; [|done]; fold q in E; rewrite E in Hq; done. }
  assert (Eqs : forall q', on_queue q' (skb :: skbs) = if decide (q = q') then skb :: skbs else []).
  { intros; apply on_queue_all; eapply list.Forall_impl; [exact Hok|]; by intros s (? & _). }
  pose proof Hinv as [Hl Hf Hw Hi Ho]; destruct (decide (waiting l q = [])) as [E|E].
  - apply (tx_frags_inv driver (fun _ => False) (fun _ => False) false q (skb :: skbs) (subs ++ skb :: skbs) l Hok); [done|].
    constructor; try done; intros q'; rewrite on_queue_app, <- (Ho q'), Eqs; change (on_queue q' []) with (@nil sk_buff); cbn [app].
    rewrite <- !app_assoc; f_equal; case_decide as Ed; [subst q'; by rewrite E, app_nil_r|by rewrite app_nil_r].
  - cbn [ieee80211_tx_frags]; fold q; rewrite (bool_decide_true _ E), orb_true_r; cbn [fst].
    assert (Hq : (q < queues l)%nat) by (by apply Forall_cons_1 in Hok as [(_ & _ & ?) _]).
    apply (set_pending_inv _ _ [] [] subs); try done; [apply Forall_app; split; [apply Hf|done]|by right; right| |].
    + intros _; right; intros En; by apply app_nil in En as [_ ?].
    + intros q'; rewrite on_queue_app, <- (Ho q'), Eqs; change (on_queue q' []) with (@nil sk_buff); cbn [app]; rewrite <- app_assoc; f_equal.
      case_decide as Ed; [by subst|by rewrite app_nil_r].
Qed.

Lemma all_subqueues_inv subs l f off : (off = true \/ forall a, stopped (f a) = false) -> settled [] subs l ->
  settled [] subs (set_interfaces l (all_subqueues f off <$> interfaces l)).
Proof.
  intros Hf [Hl Hfr Hw Hi Ho]; constructor; try done; apply Forall_fmap; eapply list.Forall_impl; [exact Hi|]; intros v [Hn Hc]; unfold compose.
  split; cbn [all_subqueues subqueues has_dev offchannel]; [by destruct (has_dev v); rewrite ?length_fmap|].
  intros Hd Ho'; destruct Hf as [-> | Hf]; [done|]; rewrite Hd; apply Forall_fmap, list.Forall_forall; intros a _; unfold compose, covered; by rewrite Hf.
Qed.

Lemma for_queues_queues f l : (forall l i, queues (f l i) = queues l) -> queues (for_queues f l) = queues l.
Proof.
  intros Hf; unfold for_queues; generalize (seq 0 (queues l)) as qs; intros qs; revert l; induction qs as [|q qs IH]; intros l; [done|].
  cbn [fold_left]; by rewrite IH, Hf.
Qed.

Lemma add_all_queues skbs l : queues (fold_left add_one skbs l) = queues l.
Proof.
  revert l; induction skbs as [|skb skbs IH]; intros l; [done|]; cbn [fold_left]; rewrite IH; unfold add_one; case_bool_decide; [done|].
  cbn [set_pending queues]; by destruct (stop_frame l (hw_queue skb) IEEE80211_QUEUE_STOP_REASON_SKB_ADD) as (_ & _ & ->).
Qed.

Lemma driver_queues os l : queues (fold_left driver_op os l) = queues l.
Proof.
  revert l; induction os as [|o os IH]; intros l; [done|]; cbn [fold_left]; rewrite IH; destruct o as [q|q]; cbn [driver_op].
  - apply (stop_frame l q IEEE80211_QUEUE_STOP_REASON_DRIVER).
  - apply (wake_frame l q IEEE80211_QUEUE_STOP_REASON_DRIVER).
Qed.

Lemma tx_frags_queues driver b skbs l : queues (ieee80211_tx_frags driver b skbs l).1 = queues l.
Proof.
  revert l; induction skbs as [|skb skbs IH]; intros l; [done|]; cbn [ieee80211_tx_frags]; destruct (_ || _); [done|]; rewrite IH.
  unfold drv_tx; by rewrite driver_queues.
Qed.

Lemma wake_all_inv W D fl subs l r : inv W D fl subs l -> inv W D fl subs (ieee80211_wake_queues_by_reason l r).
Proof. apply for_queues_inv; intros; by apply wake_inv. Qed.

Lemma add_pending_one l skb : vif skb <> None -> ieee80211_add_pending_skb l skb =
  __ieee80211_wake_queue (add_one l skb) (hw_queue skb) IEEE80211_QUEUE_STOP_REASON_SKB_ADD.
Proof. intros Hv; unfold ieee80211_add_pending_skb, add_one; by rewrite bool_decide_false by done. Qed.

Lemma step_inv o subs l : op_ok (queues l) o -> settled [] subs l ->
  exists l', step o l = Some l' /\ settled [] (subs ++ frames_of o) l' /\ queues l' = queues l.
Proof.
  intros Ho Hinv; destruct o as [q r|q r|r|r|driver skbs|skb|skbs|driver| |]; cbn [step frames_of]; rewrite ?app_nil_r.
  - eexists; split; [done|]; split; [apply stop_inv; [apply Ho|done]|apply stop_frame].
  - eexists; split; [done|]; split; [by apply wake_inv|apply wake_frame].
  - eexists; split; [done|]; split; [apply for_queues_inv; [intros; apply stop_inv; [apply Ho|done]|done]|].
    apply for_queues_queues; intros; apply stop_frame.
  - eexists; split; [done|]; split; [by apply wake_all_inv|]; apply for_queues_queues; intros; apply wake_frame.
  - eexists; split; [done|]; split; [by apply tx_op_inv|apply tx_frags_queues].
  - destruct Ho as [[[Hv Hq] _]%Forall_cons_1 _]; destruct (add_one_inv subs l skb Hv Hq Hinv) as [H1 H2].
    eexists; split; [done|]; rewrite add_pending_one by done; split; [by apply wake_inv|].
    by destruct (wake_frame (add_one l skb) (hw_queue skb) IEEE80211_QUEUE_STOP_REASON_SKB_ADD) as (_ & _ & ->).
  - eexists; split; [done|]; split; [apply wake_all_inv, add_all_inv; [apply Ho|done]|].
    unfold ieee80211_add_pending_skbs_fn, ieee80211_wake_queues_by_reason; rewrite for_queues_queues by (intros; apply wake_frame); apply add_all_queues.
  - by apply tx_pending_inv.
  - eexists; split; [done|]; split; [apply all_subqueues_inv; [by left|done]|done].
  - eexists; split; [done|]; split; [apply all_subqueues_inv; [by right|done]|done].
Qed.

Lemma run_inv os subs l : Forall (op_ok (queues l)) os -> settled [] subs l ->
  exists l', run os l = Some l' /\ settled [] (subs ++ submitted os) l' /\ queues l' = queues l.
Proof.
  revert subs l; induction os as [|o os IH]; intros subs l Ho Hinv; cbn [run].
  { exists l; unfold submitted; cbn [fmap list_fmap concat]; by rewrite app_nil_r. }
  apply Forall_cons_1 in Ho as [Ho Hos]; destruct (step_inv o subs l Ho Hinv) as (l1 & -> & H1 & H2); cbn [mbind option_bind].
  destruct (IH (subs ++ frames_of o) l1) as (l' & E & H3 & H4); [by rewrite H2|done|]; exists l'; rewrite H4, H2; split; [done|]; split; [|done].
  unfold submitted in *; cbn [fmap list_fmap concat]; by rewrite app_assoc.
Qed.

Lemma idle_inv n vs : idle_ok n vs -> settled [] [] (idle n vs).
Proof.
  intros [Hn Hv]; assert (Ew : forall q, waiting (idle n vs) q = []).
  { intros q; unfold waiting, idle; cbn [pending]; rewrite <- nth_lookup; apply nth_repeat. }
  constructor.
  - done.
  - intros q; by rewrite Ew.
  - intros q; right; by rewrite Ew.
  - eapply list.Forall_impl; [exact Hv|]; intros v [Hl Ha]; split; [done|]; intros _ _; eapply list.Forall_impl; [exact Ha|].
    intros a Hs Ht; by rewrite Hs in Ht.
  - intros q; by rewrite Ew.
Qed.

(** ** Lemmas: a driver that takes every frame *)

Abbreviation eager := (fun (_ : list sk_buff) (_ : sk_buff) => @nil queue_op).

(** No reason and no call of the tasklet is added. *)
Definition calm (l l' : local) : Prop := queue_stop_reasons l' = queue_stop_reasons l /\ tx_pending_tasklet l' = tx_pending_tasklet l.

Lemma eager_frags b skbs l : calm l (ieee80211_tx_frags eager b skbs l).1.
Proof. revert l; induction skbs as [|skb skbs IH]; intros l; cbn [ieee80211_tx_frags]; [done|]; destruct (_ || _); [done|]; apply (IH (add_sent l skb)). Qed.

Lemma eager_drain fuel i l l' : drain id (fun l _ => l) (tx_pending_skb eager) fuel i l = Some l' -> calm l l'.
Proof.
  revert l; induction fuel as [|fuel IH]; intros l; cbn [drain]; change (id l) with l; destruct (waiting l i) as [|skb rest]; try done; try by intros [= <-].
  case_bool_decide; [intros E; by apply IH in E|]; unfold tx_pending_skb; set (l1 := update _ _ _ _).
  pose proof (eager_frags true [skb] l1) as [H1 H2]; destruct (ieee80211_tx_frags _ _ _ _) as [l2 []]; cbn [fst] in *; [|intros [= <-]; by split; rewrite ?H1, ?H2].
  intros E; apply IH in E as [H3 H4]; split; [by rewrite H3, H1|by rewrite H4, H2].
Qed.

Lemma eager_tasklet l l' : ieee80211_tx_pending id (fun l _ => l) (tx_pending_skb eager) l = Some l' ->
  queue_stop_reasons l' = queue_stop_reasons l /\ tx_pending_tasklet l' = false.
Proof.
  unfold ieee80211_tx_pending, update; change (id l) with l; set (l0 := set_tasklet l false).
  enough (H : forall qs l l', tx_pending_queues id (fun l _ => l) (tx_pending_skb eager) qs l = Some l' -> calm l l') by (intros E; by apply H in E).
  clear l0 l l'; intros qs; induction qs as [|i qs IH]; intros l l'; cbn [tx_pending_queues]; [by intros [= <-]|].
  unfold tx_pending_queue; change (id l) with l; destruct (_ || _); cbn [mbind option_bind]; [apply IH|].
  destruct (drain _ _ _ _ _ _) as [l1|] eqn:E; cbn [mbind option_bind]; [|done]; apply eager_drain in E as [H1 H2].
  intros E; apply IH in E as [H3 H4]; case_bool_decide; split; by rewrite ?H3, ?H4, <- ?H1, <- ?H2.
Qed.

(** ** Properties *)


(** C21: As long as no interface is taken down, no wake-up is lost: after every
    run of stops, wakes, transmissions, pending frames, calls of the tasklet and
    channel switches, when no reason to stop a queue is left, one call of the tasklet, with a driver that takes its frames, gives
    the driver every frame that waits and leaves every queue of the interfaces
    on the channel awake; and if a frame waits, the tasklet is to be called.
    (Every frame has an interface and a queue of the device.  Taking an
    interface down purges its frames, and a wake-up with them:
    [purge_loses_wakeup].) *)
Theorem queues_wake_up n vs os : idle_ok n vs -> Forall (op_ok n) os ->
  exists l, run os (idle n vs) = Some l /\
    ((forall q, reasons l q = 0) ->
     (forall q, waiting l q <> [] -> tx_pending_tasklet l = true) /\
     exists l', ieee80211_tx_pending id (fun l _ => l) (tx_pending_skb eager) l = Some l' /\
       (forall q, on_queue q (sent l') = on_queue q (submitted os)) /\
       forall v a, v ∈ interfaces l' -> has_dev v = true -> offchannel v = false -> a ∈ subqueues v -> stopped a = false).
Proof.
  intros Hn Ho; destruct (run_inv os [] (idle n vs) Ho (idle_inv n vs Hn)) as (l & E & Hinv & _); exists l; split; [done|]; intros Hr; split.
  { destruct Hinv as [_ _ Hw _ _]; intros q Hq; destruct (Hw q) as [|Hw']; [done|]; destruct (Hw' Hq) as [Hx|]; [by destruct Hx|done]. }
  destruct (tx_pending_inv eager _ l Hinv) as (l' & E' & [_ _ Hw Hi Hf] & _); exists l'; destruct (eager_tasklet _ _ E') as [H1 H2].
  assert (Hr' : forall q, reasons l' q = 0) by (intros q; unfold reasons; rewrite H1; apply Hr).
  assert (Hw' : forall q, waiting l' q = []).
  { intros q; destruct (waiting l' q) eqn:Eq; [done|]; destruct (Hw q) as [|Hq]; [done|]; rewrite Eq, Hr', H2 in Hq; destruct Hq as [Hx|]; [done|by destruct Hx|done]. }
  split; [done|]; split; [intros q; rewrite <- Hf, Hw'; by rewrite app_nil_r|]; intros v a Hv Hd Hoff Ha.
  apply list.Forall_forall with (x := v) in Hi as [_ Hc]; [|done]; specialize (Hc Hd Hoff); apply list.Forall_forall with (x := a) in Hc; [|done].
  assert (Hnb : forall q, ~ blocked (fun _ => False) l' q) by (intros q [|[Hx|Hx]]; [done|by rewrite Hr' in Hx|by rewrite Hw' in Hx]).
  destruct (stopped a) eqn:Es; [|done]; exfalso; destruct (Hc Es) as [Hb | (c & _ & Hb)]; by apply Hnb in Hb.
Qed.

(** ** Concrete runs *)

(** A station and an access point with a queue for multicast frames. *)
Definition demo_ifs : list sub_if_data :=
  [Sdata true false None ((fun q => Sub q false) <$> seq 0 4); Sdata true false (Some 4%nat) ((fun q => Sub q false) <$> seq 0 4)].
Definition demo_frame (i : Z) (q v : nat) : sk_buff := Skb i q (Some v) None false false.

(** A driver that stops a queue with every second frame. *)
Definition demo_driver (got : list sk_buff) (s : sk_buff) : list queue_op :=
  if bool_decide (length got mod 2 = 1)%nat then [Stop (hw_queue s)] else [].

Definition demo_ops : list op :=
  [OTx demo_driver [demo_frame 1 0 0]; OTx demo_driver [demo_frame 2 0 0; demo_frame 3 0 0]; OAdd (demo_frame 4 0 1);
   OLeave; OTx demo_driver [demo_frame 5 4 1]; OReturn; OStopAll 4; OWake 0 0; OWakeAll 4; OPending demo_driver; OWake 4 0; OWake 0 0].

Lemma demo_idle : idle_ok 5 demo_ifs.
Proof. unfold idle_ok, IEEE80211_MAX_QUEUES, demo_ifs; split; [lia|]; repeat constructor. Qed.

Lemma demo_run_ok : Forall (op_ok 5) demo_ops.
Proof. repeat (constructor; [split; [repeat (constructor; [cbn; split; [done|lia]|]); constructor|try done; try lia; set_solver]|]); constructor. Qed.


Lemma queues_wake_up_witness : exists l l', run demo_ops (idle 5 demo_ifs) = Some l /\ tx_pending_tasklet l = true /\
  ieee80211_tx_pending id (fun l _ => l) (tx_pending_skb eager) l = Some l' /\ on_queue 0 (sent l') = demo_frame 1 0 0 :: demo_frame 2 0 0 :: demo_frame 3 0 0 :: [demo_frame 4 0 1].
Proof.
  destruct (queues_wake_up 5 demo_ifs demo_ops demo_idle demo_run_ok) as (l & E & H).
  assert (C : match run demo_ops (idle 5 demo_ifs) with
    | Some l => forallb (Z.eqb 0) (queue_stop_reasons l) && bool_decide (waiting l 0 <> []) = true | None => False end) by (vm_compute; reflexivity).
  rewrite E in C; apply andb_true_iff in C as [C1 C2]; destruct H as [Hw (l' & E' & Hs & _)].
  - intros q; unfold reasons; destruct (queue_stop_reasons l !! q) as [r|] eqn:Er; [|reflexivity]; rewrite forallb_forall in C1.
    apply list_elem_of_lookup_2, list_elem_of_In, C1, Z.eqb_eq in Er; subst r; reflexivity.
  - exists l, l'; split; [exact E|]; split; [apply (Hw 0%nat); apply bool_decide_eq_true in C2; exact C2|]; split; [exact E'|]; rewrite Hs; vm_compute; reflexivity.
Defined.

(** A frame purged when its interface goes down takes a wake-up with it: the
    hardware queue is awake and empty, the tasklet is through, and the queue of
    the other interface stays stopped. *)
Example purge_loses_wakeup :
  let l := ieee80211_stop_queue (idle 5 demo_ifs) 0 in
  let l := (ieee80211_tx_frags eager false [demo_frame 1 0 0] l).1 in
  let l := ieee80211_do_stop 0 (ieee80211_wake_queue l 0) in
  match ieee80211_tx_pending id (fun l _ => l) (tx_pending_skb eager) l with
  | Some l => reasons l 0 = 0 /\ waiting l 0 = [] /\ tx_pending_tasklet l = false /\
      (v ← interfaces l !! 1%nat; stopped <$> head (subqueues v)) = Some true
  | None => False
  end.
Proof. vm_compute; done. Qed.

(** The tasklet wakes the queues of the interfaces although the driver stopped
    the hardware queue with the last frame. *)
Example tasklet_wakes_stopped :
  let full (_ : list sk_buff) (s : sk_buff) := [Stop (hw_queue s)] in
  let l := ieee80211_stop_queue (idle 5 demo_ifs) 0 in
  let l := (ieee80211_tx_frags full false [demo_frame 1 0 0] l).1 in
  match ieee80211_tx_pending id (fun l _ => l) (tx_pending_skb full) (ieee80211_wake_queue l 0) with
  | Some l => reasons l 0 = 1 /\ (v ← interfaces l !! 1%nat; stopped <$> head (subqueues v)) = Some false
  | None => False
  end.
Proof. vm_compute; done. Qed.

End TxQueue.
