(* ===== verification/AggTx.v ===== *)
(** * Block-ack sessions, originator side

    [net/mac80211/agg-tx.c], the work item of [ht.c], the part of the transmit
    path that asks for sessions ([ieee80211_tx_prep_agg] of [tx.c]) and the block-ack
    requests of [status.c]: one station with a session for each TID.  The
    receive side of the work item is that of [AggRx]; frames that leave a
    session wait on the queues of [TxQueue].  Each operation is a critical
    section of [ampdu_mlme.mtx] or of the lock of the station.  The driver's
    [ampdu_action] is a parameter; its calls are logged. *)

From stdpp Require Import sets.
From S2P Require Import Prelude Ieee80211 Reorder AggRx PsBuffer TxQueue.

Module AggTx.
Import TxQueue (sk_buff, frame_id, tid, need_txprocessing, ctl_ampdu).
Import AggRx (sta_info, sta_addr, block_ba, vif_type, vif_addr, nl80211_iftype(..), IEEE80211_NUM_TIDS).

Definition HT_AGG_MAX_RETRIES : Z := 15.
Definition HT_AGG_BURST_RETRIES : Z := 3.
Definition HT_AGG_RETRIES_PERIOD (HZ : Z) : Z := 15 * HZ.
Definition STA_MAX_TX_BUFFER : nat := 64.
Definition WLAN_ACTION_ADDBA_REQ : Z := 0.
Definition WLAN_REASON_QSTA_NOT_USE : Z := 37.
Definition IEEE80211_BAR_CTRL_ACK_POLICY_NORMAL : Z := 0x0000.
Definition IEEE80211_BAR_CTRL_CBMTID_COMPRESSED_BA : Z := 0x0004.
Definition IEEE80211_BAR_CTRL_TID_INFO_SHIFT : Z := 12.
Definition EINVAL : Z := 22.
Definition ENOENT : Z := 2.
Definition EALREADY : Z := 114.
Definition EBUSY : Z := 16.
Definition EAGAIN : Z := 11.
Definition ENOMEM : Z := 12.

Inductive ampdu_action := IEEE80211_AMPDU_TX_START | IEEE80211_AMPDU_TX_STOP_CONT | IEEE80211_AMPDU_TX_STOP_FLUSH
  | IEEE80211_AMPDU_TX_STOP_FLUSH_CONT | IEEE80211_AMPDU_TX_OPERATIONAL.

Inductive agg_stop_reason := AGG_STOP_DECLINED | AGG_STOP_LOCAL_REQUEST | AGG_STOP_PEER_REQUEST | AGG_STOP_DESTROY_STA.

#[global] Instance agg_stop_reason_eq_dec : EqDecision agg_stop_reason.
Proof. solve_decision. Defined.
#[global] Instance nl80211_iftype_eq_dec : EqDecision nl80211_iftype.
Proof. solve_decision. Defined.

(** The bits of [tid_tx->state]. *)
Record agg_bits := Bits {
  drv_ready : bool; response_received : bool; operational : bool; stopping : bool; want_start : bool; want_stop : bool }.

(** The times a timer is set to; [None] when it is not running. *)
Record tid_ampdu_tx := TidTx {
  state : agg_bits; pending : list sk_buff; timeout : Z; dialog_token : Z; stop_initiator : Z; tx_stop : bool; buf_size : Z;
  last_tx : Z; addba_resp_timer : option Z; session_timer : option Z; failed_bar_ssn : Z; bar_pending : bool }.

Definition set_bits (t : tid_ampdu_tx) (b : agg_bits) : tid_ampdu_tx :=
  TidTx b (pending t) (timeout t) (dialog_token t) (stop_initiator t) (tx_stop t) (buf_size t) (last_tx t) (addba_resp_timer t)
    (session_timer t) (failed_bar_ssn t) (bar_pending t).
Definition set_pending (t : tid_ampdu_tx) (p : list sk_buff) : tid_ampdu_tx :=
  TidTx (state t) p (timeout t) (dialog_token t) (stop_initiator t) (tx_stop t) (buf_size t) (last_tx t) (addba_resp_timer t)
    (session_timer t) (failed_bar_ssn t) (bar_pending t).
Definition set_stop (t : tid_ampdu_tx) (initiator : Z) (tx : bool) : tid_ampdu_tx :=
  TidTx (state t) (pending t) (timeout t) (dialog_token t) initiator tx (buf_size t) (last_tx t) (addba_resp_timer t)
    (session_timer t) (failed_bar_ssn t) (bar_pending t).
Definition set_buf_size (t : tid_ampdu_tx) (n : Z) : tid_ampdu_tx :=
  TidTx (state t) (pending t) (timeout t) (dialog_token t) (stop_initiator t) (tx_stop t) n (last_tx t) (addba_resp_timer t)
    (session_timer t) (failed_bar_ssn t) (bar_pending t).
Definition set_timers (t : tid_ampdu_tx) (a s : option Z) : tid_ampdu_tx :=
  TidTx (state t) (pending t) (timeout t) (dialog_token t) (stop_initiator t) (tx_stop t) (buf_size t) (last_tx t) a s
    (failed_bar_ssn t) (bar_pending t).
Definition set_last_tx (t : tid_ampdu_tx) (j : Z) : tid_ampdu_tx :=
  TidTx (state t) (pending t) (timeout t) (dialog_token t) (stop_initiator t) (tx_stop t) (buf_size t) j (addba_resp_timer t)
    (session_timer t) (failed_bar_ssn t) (bar_pending t).
Definition set_bar (t : tid_ampdu_tx) (ssn : Z) (b : bool) : tid_ampdu_tx :=
  TidTx (state t) (pending t) (timeout t) (dialog_token t) (stop_initiator t) (tx_stop t) (buf_size t) (last_tx t) (addba_resp_timer t)
    (session_timer t) ssn b.

Definition set_drv_ready (b : agg_bits) := Bits true (response_received b) (operational b) (stopping b) (want_start b) (want_stop b).
Definition set_response_received (b : agg_bits) := Bits (drv_ready b) true (operational b) (stopping b) (want_start b) (want_stop b).
Definition set_operational (v : bool) (b : agg_bits) := Bits (drv_ready b) (response_received b) v (stopping b) (want_start b) (want_stop b).
Definition set_stopping (b : agg_bits) := Bits (drv_ready b) (response_received b) (operational b) true (want_start b) (want_stop b).
Definition set_want_start (v : bool) (b : agg_bits) := Bits (drv_ready b) (response_received b) (operational b) (stopping b) v (want_stop b).
Definition set_want_stop (v : bool) (b : agg_bits) := Bits (drv_ready b) (response_received b) (operational b) (stopping b) (want_start b) v.

(** What the driver is told and tells: a call with its buffer size and its
    result, and its report that a session is stopped. *)
Inductive drv_event := Call (a : ampdu_action) (buf_size ret : Z) | StopReported.

(** The state: [ampdu_mlme] of the station (its receive side in [rx], with the
    work item and the frames sent), the queues of the device, and what the
    driver saw. *)
Record mlme := Mlme {
  sta : sta_info; tid_tx : list (option tid_ampdu_tx); tid_start_tx : list (option tid_ampdu_tx);
  last_addba_req_time : list Z; addba_req_num : list Z; dialog_token_allocator : Z; tid_seq : list Z;
  rx : AggRx.agg_state; queue : TxQueue.local; agg_queue_stop : list Z; drv_log : list (nat * drv_event) }.

Definition session (s : mlme) (tid : nat) : option tid_ampdu_tx := mjoin (tid_tx s !! tid).
Definition starting (s : mlme) (tid : nat) : option tid_ampdu_tx := mjoin (tid_start_tx s !! tid).

Definition ieee80211_assign_tid_tx (s : mlme) (tid : nat) (t : option tid_ampdu_tx) : mlme :=
  Mlme (sta s) (<[tid := t]> (tid_tx s)) (tid_start_tx s) (last_addba_req_time s) (addba_req_num s) (dialog_token_allocator s)
    (tid_seq s) (rx s) (queue s) (agg_queue_stop s) (drv_log s).
Definition assign_start (s : mlme) (tid : nat) (t : option tid_ampdu_tx) : mlme :=
  Mlme (sta s) (tid_tx s) (<[tid := t]> (tid_start_tx s)) (last_addba_req_time s) (addba_req_num s) (dialog_token_allocator s)
    (tid_seq s) (rx s) (queue s) (agg_queue_stop s) (drv_log s).
Definition set_requests (s : mlme) (times nums : list Z) (token : Z) : mlme :=
  Mlme (sta s) (tid_tx s) (tid_start_tx s) times nums token (tid_seq s) (rx s) (queue s) (agg_queue_stop s) (drv_log s).
Definition set_rx (s : mlme) (r : AggRx.agg_state) : mlme :=
  Mlme (sta s) (tid_tx s) (tid_start_tx s) (last_addba_req_time s) (addba_req_num s) (dialog_token_allocator s)
    (tid_seq s) r (queue s) (agg_queue_stop s) (drv_log s).
Definition set_queue (s : mlme) (q : TxQueue.local) (refs : list Z) : mlme :=
  Mlme (sta s) (tid_tx s) (tid_start_tx s) (last_addba_req_time s) (addba_req_num s) (dialog_token_allocator s)
    (tid_seq s) (rx s) q refs (drv_log s).
Definition log (s : mlme) (tid : nat) (e : drv_event) : mlme :=
  Mlme (sta s) (tid_tx s) (tid_start_tx s) (last_addba_req_time s) (addba_req_num s) (dialog_token_allocator s)
    (tid_seq s) (rx s) (queue s) (agg_queue_stop s) (drv_log s ++ [(tid, e)]).
Definition update_session (s : mlme) (tid : nat) (f : tid_ampdu_tx -> tid_ampdu_tx) : mlme :=
  ieee80211_assign_tid_tx s tid (f <$> session s tid).
Definition send (s : mlme) (f : list Z) : mlme := set_rx s (AggRx.send (rx s) f).

(** [ieee80211_queue_work] of the work item. *)
Definition queue_work (s : mlme) : mlme :=
  let r := rx s in
  set_rx s (AggRx.Agg (AggRx.sessions r) (AggRx.timer_expired r) (AggRx.stop_requested r) true (AggRx.sent r) (AggRx.drv_calls r) (AggRx.agg_freed r)).

(** ** The device and the moment *)

(** [ampdu_action] given, hardware flags, [max_tx_aggregation_subframes],
    [ht_cap.ht_supported] of the peer, [vif.hw_queue]. *)
Record hw_conf := Hw {
  has_ampdu_action : bool; ampdu_aggregation : bool; ampdu_setup_in_hw : bool; max_tx_aggregation_subframes : Z;
  peer_ht_supported : bool; vif_hw_queue : list nat; HZ : Z }.

(** The clock, the results of allocations, what the driver answers (with the
    starting sequence number it chose) and does when it is given a frame, and
    the jiffies of a number of time units. *)
Record env := Env {
  jiffies : Z; alloc : bool; drv : ampdu_action -> nat -> Z -> Z -> Z * Z; driver : list sk_buff -> sk_buff -> list TxQueue.queue_op;
  TU_TO_JIFFIES : Z -> Z }.

Section Ops.
Context (hw : hw_conf).

Definition ieee80211_ac_from_tid (tid : nat) : nat := default 0%nat (PsBuffer.ieee802_1d_to_ac !! Nat.land tid 7).
Definition queue_of (tid : nat) : nat := default 0%nat (vif_hw_queue hw !! ieee80211_ac_from_tid tid).

(** A call of the driver: the state, the result and the sequence number. *)
Definition drv_ampdu_action (ev : env) (s : mlme) (a : ampdu_action) (tid : nat) (ssn buf_size : Z) : mlme * Z * Z :=
  let '(ret, ssn) := drv ev a tid ssn buf_size in (log s tid (Call a buf_size ret), ret, ssn).

(** ** Frames *)

Definition ieee80211_send_addba_request (ev : env) (s : mlme) (tid : nat) (dialog_token start_seq_num agg_size timeout : Z) : mlme :=
  if negb (alloc ev) then s
  else send s (AggRx.mgmt_header (sta s) (sta_addr (sta s)) ++ [AggRx.WLAN_CATEGORY_BACK; WLAN_ACTION_ADDBA_REQ; dialog_token] ++
    put_le16 (AggRx.addba_capab 1 (Z.of_nat tid) agg_size) ++ put_le16 timeout ++ put_le16 (u16 (Z.shiftl start_seq_num 4))).

Definition ieee80211_send_bar (ev : env) (s : mlme) (ra : list Z) (tid ssn : Z) : mlme :=
  if negb (alloc ev) then s
  else
    let bar_control := Z.lor (Z.lor IEEE80211_BAR_CTRL_ACK_POLICY_NORMAL IEEE80211_BAR_CTRL_CBMTID_COMPRESSED_BA)
      (u16 (Z.shiftl tid IEEE80211_BAR_CTRL_TID_INFO_SHIFT)) in
    send s (put_le16 (Z.lor Ieee80211.IEEE80211_FTYPE_CTL Ieee80211.IEEE80211_STYPE_BACK_REQ) ++ [0; 0] ++ ra ++ vif_addr (sta s) ++
      put_le16 bar_control ++ put_le16 ssn).

(** ** Queues *)

Definition refs (s : mlme) (q : nat) : Z := default 0 (agg_queue_stop s !! q).

Definition ieee80211_stop_queue_agg (s : mlme) (tid : nat) : mlme :=
  let q := queue_of tid in
  let n := s32 (refs s q + 1) in
  set_queue s (if n =? 1 then TxQueue.ieee80211_stop_queue_by_reason (queue s) q TxQueue.IEEE80211_QUEUE_STOP_REASON_AGGREGATION else queue s)
    (<[q := n]> (agg_queue_stop s)).

Definition ieee80211_wake_queue_agg (s : mlme) (tid : nat) : mlme :=
  let q := queue_of tid in
  let n := s32 (refs s q - 1) in
  set_queue s (if n =? 0 then TxQueue.ieee80211_wake_queue_by_reason (queue s) q TxQueue.IEEE80211_QUEUE_STOP_REASON_AGGREGATION else queue s)
    (<[q := n]> (agg_queue_stop s)).

(** The frames of the session go to the queue of the device. *)
Definition ieee80211_agg_splice_packets (s : mlme) (tid : nat) : mlme :=
  let s := ieee80211_stop_queue_agg s tid in
  match session s tid with
  | None => s
  | Some t =>
      if bool_decide (pending t = []) then s
      else
        let q := queue_of tid in
        let s := update_session s tid (fun t => set_pending t []) in
        set_queue s (TxQueue.set_pending (queue s) q (TxQueue.waiting (queue s) q ++ pending t)) (agg_queue_stop s)
  end.

Definition ieee80211_agg_splice_finish (s : mlme) (tid : nat) : mlme := ieee80211_wake_queue_agg s tid.

Definition ieee80211_remove_tid_tx (s : mlme) (tid : nat) : mlme :=
  let s := ieee80211_agg_splice_packets s tid in
  let s := ieee80211_assign_tid_tx s tid None in
  ieee80211_agg_splice_finish s tid.

(** ** Stopping *)

Definition stop_action (reason : agg_stop_reason) : ampdu_action :=
  match reason with AGG_STOP_DESTROY_STA => IEEE80211_AMPDU_TX_STOP_FLUSH | _ => IEEE80211_AMPDU_TX_STOP_CONT end.

Definition ___ieee80211_stop_tx_ba_session (ev : env) (s : mlme) (tid : nat) (reason : agg_stop_reason) : mlme * Z :=
  match session s tid with
  | None => (s, - ENOENT)
  | Some t =>
      if stopping (state t) then
        if bool_decide (reason <> AGG_STOP_DESTROY_STA) then (s, - EALREADY)
        else
          let '(s, _, _) := drv_ampdu_action ev s IEEE80211_AMPDU_TX_STOP_FLUSH_CONT tid 0 0 in
          (ieee80211_remove_tid_tx s tid, 0)
      else if want_start (state t) then (ieee80211_assign_tid_tx s tid None, 0)
      else
        let s := update_session s tid (fun t => set_bits t (set_stopping (state t))) in
        let s := update_session s tid (fun t => set_timers t None None) in
        let s := update_session s tid (fun t => set_bits t (set_operational false (state t))) in
        let s := update_session s tid (fun t => set_stop t
          (if bool_decide (reason = AGG_STOP_PEER_REQUEST) then AggRx.WLAN_BACK_RECIPIENT else AggRx.WLAN_BACK_INITIATOR)
          (bool_decide (reason = AGG_STOP_LOCAL_REQUEST))) in
        let '(s, _, _) := drv_ampdu_action ev s (stop_action reason) tid 0 0 in
        (if bool_decide (reason = AGG_STOP_DESTROY_STA) then ieee80211_remove_tid_tx s tid else s, 0)
  end.

Definition ieee80211_stop_tx_ba_session (s : mlme) (tid : nat) : mlme * Z :=
  if negb (has_ampdu_action hw) then (s, - EINVAL)
  else if bool_decide (IEEE80211_NUM_TIDS <= tid)%nat then (s, - EINVAL)
  else
    match session s tid with
    | None => (s, - ENOENT)
    | Some t =>
        if stopping (state t) then (s, 0)
        else (queue_work (update_session s tid (fun t => set_bits t (set_want_stop true (state t)))), 0)
    end.

Definition ieee80211_stop_tx_ba_cb (ev : env) (s : mlme) (ra : list Z) (tid : nat) : mlme :=
  if bool_decide (IEEE80211_NUM_TIDS <= tid)%nat then s
  else
    match session s tid with
    | None => s
    | Some t =>
        if negb (stopping (state t)) then s
        else
          let s := log s tid StopReported in
          let s := if (stop_initiator t =? AggRx.WLAN_BACK_INITIATOR) && tx_stop t
            then set_rx s (AggRx.ieee80211_send_delba (alloc ev) (rx s) (sta s) ra (Z.of_nat tid) AggRx.WLAN_BACK_INITIATOR WLAN_REASON_QSTA_NOT_USE)
            else s in
          ieee80211_remove_tid_tx s tid
    end.

(** ** Timers *)

Definition sta_addba_resp_timer_expired (s : mlme) (tid : nat) : mlme :=
  match session s tid with
  | None => s
  | Some t => if response_received (state t) then s else (ieee80211_stop_tx_ba_session s tid).1
  end.

(** [time_is_after_jiffies(a)] is [time_before(jiffies, a)]. *)
Definition sta_tx_agg_session_timer_expired (ev : env) (s : mlme) (tid : nat) : mlme :=
  match session s tid with
  | None => s
  | Some t =>
      if stopping (state t) then s
      else
        let expires := u64 (last_tx t + TU_TO_JIFFIES ev (timeout t)) in
        if Reorder.time_after expires (jiffies ev)
        then update_session s tid (fun t => set_timers t (addba_resp_timer t) (Some expires))
        else (ieee80211_stop_tx_ba_session s tid).1
  end.

(** ** Starting *)

Definition new_session (timeout token : Z) : tid_ampdu_tx :=
  TidTx (Bits false false false false true false) [] timeout token 0 false 0 0 None None 0 false.

Definition ieee80211_start_tx_ba_session (ev : env) (s : mlme) (tid : nat) (timeout : Z) : mlme * Z :=
  if negb (has_ampdu_action hw) then (s, - EINVAL)
  else if bool_decide (IEEE80211_NUM_TIDS <= tid)%nat || negb (ampdu_aggregation hw) || ampdu_setup_in_hw hw then (s, - EINVAL)
  else if bool_decide (vif_type (sta s) = IFTYPE_OTHER) then (s, - EINVAL)
  else if block_ba (sta s) then (s, - EINVAL)
  else if bool_decide (vif_type (sta s) = IFTYPE_ADHOC) && negb (peer_ht_supported hw) then (s, - EINVAL)
  else
    let num := default 0 (addba_req_num s !! tid) in
    if num >? HT_AGG_MAX_RETRIES then (s, - EBUSY)
    else if (num >? HT_AGG_BURST_RETRIES) &&
        Reorder.time_after (u64 (default 0 (last_addba_req_time s !! tid) + HT_AGG_RETRIES_PERIOD (HZ hw))) (jiffies ev)
    then (s, - EBUSY)
    else if bool_decide (session s tid <> None) || bool_decide (starting s tid <> None) then (s, - EAGAIN)
    else if negb (alloc ev) then (s, - ENOMEM)
    else
      let token := u8 (dialog_token_allocator s + 1) in
      let s := set_requests s (last_addba_req_time s) (addba_req_num s) token in
      (queue_work (assign_start s tid (Some (new_session timeout token))), 0).

Definition ieee80211_tx_ba_session_handle_start (ev : env) (s : mlme) (tid : nat) : mlme :=
  let s := update_session s tid (fun t => set_bits t (set_want_start false (state t))) in
  let start_seq_num := Z.shiftr (default 0 (tid_seq s !! tid)) 4 in
  let '(s, ret, start_seq_num) := drv_ampdu_action ev s IEEE80211_AMPDU_TX_START tid start_seq_num 0 in
  if negb (ret =? 0) then
    let s := ieee80211_agg_splice_packets s tid in
    let s := ieee80211_assign_tid_tx s tid None in
    ieee80211_agg_splice_finish s tid
  else
    let s := update_session s tid (fun t => set_timers t (Some (u64 (jiffies ev + HZ hw))) (session_timer t)) in
    let s := set_requests s (<[tid := jiffies ev]> (last_addba_req_time s))
      (<[tid := u8 (default 0 (addba_req_num s !! tid) + 1)]> (addba_req_num s)) (dialog_token_allocator s) in
    match session s tid with
    | None => s
    | Some t => ieee80211_send_addba_request ev s tid (dialog_token t) (u16 start_seq_num) (max_tx_aggregation_subframes hw) (timeout t)
    end.

Definition ieee80211_agg_tx_operational (ev : env) (s : mlme) (tid : nat) : mlme :=
  let size := match session s tid with Some t => buf_size t | None => 0 end in
  let '(s, _, _) := drv_ampdu_action ev s IEEE80211_AMPDU_TX_OPERATIONAL tid 0 size in
  let s := ieee80211_agg_splice_packets s tid in
  let s := update_session s tid (fun t => set_bits t (set_operational true (state t))) in
  ieee80211_agg_splice_finish s tid.

Definition ieee80211_start_tx_ba_cb (ev : env) (s : mlme) (tid : nat) : mlme :=
  if bool_decide (IEEE80211_NUM_TIDS <= tid)%nat then s
  else
    match session s tid with
    | None => s
    | Some t =>
        let s' := update_session s tid (fun t => set_bits t (set_drv_ready (state t))) in
        if drv_ready (state t) then s'
        else if response_received (state t) then ieee80211_agg_tx_operational ev s' tid
        else s'
    end.

Definition ieee80211_process_addba_resp (ev : env) (s : mlme) (mgmt : list Z) : mlme :=
  let capab := get_le16 mgmt 29 in
  let tid := Z.to_nat (AggRx.addba_tid capab) in
  let size := u8 (AggRx.addba_buf_size capab) in
  match session s tid with
  | None => s
  | Some t =>
      if negb (mgmt.[26] =? dialog_token t) then s
      else
        let s := update_session s tid (fun t => set_timers t None (session_timer t)) in
        if want_stop (state t) || stopping (state t) then s
        else if (get_le16 mgmt 27 =? AggRx.WLAN_STATUS_SUCCESS) && negb (size =? 0) then
          if response_received (state t) then s
          else
            let s := update_session s tid (fun t => set_bits t (set_response_received (state t))) in
            let s := update_session s tid (fun t => set_buf_size t size) in
            let s := if drv_ready (state t) then ieee80211_agg_tx_operational ev s tid else s in
            let s := set_requests s (last_addba_req_time s) (<[tid := 0]> (addba_req_num s)) (dialog_token_allocator s) in
            if timeout t =? 0 then s
            else update_session s tid (fun t =>
              set_last_tx (set_timers t (addba_resp_timer t) (Some (u64 (jiffies ev + TU_TO_JIFFIES ev (timeout t))))) (jiffies ev))
        else (___ieee80211_stop_tx_ba_session ev s tid AGG_STOP_DECLINED).1
  end.

(** ** The transmit path *)

Definition with_flags (skb : sk_buff) (need ampdu : bool) : sk_buff :=
  TxQueue.Skb (frame_id skb) (TxQueue.hw_queue skb) (TxQueue.vif skb) (tid skb) need ampdu.

(** The state, the frame, and whether it was queued.  The state that is tested
    again under the lock is the same here. *)
Definition ieee80211_tx_prep_agg (ev : env) (s : mlme) (skb : sk_buff) (t : tid_ampdu_tx) (tid : nat) : mlme * sk_buff * bool :=
  if operational (state t) then
    let skb := with_flags skb (need_txprocessing skb) true in
    (if timeout t =? 0 then s else update_session s tid (fun t => set_last_tx t (jiffies ev)), skb, false)
  else if want_start (state t) then (s, skb, false)
  else
    let skb := with_flags skb true (ctl_ampdu skb) in
    let pend := pending t ++ [skb] in
    let '(pend, purge) := if bool_decide (STA_MAX_TX_BUFFER < length pend)%nat then (tail pend, head pend) else (pend, None) in
    let s := update_session s tid (fun t => set_pending t pend) in
    (match purge with Some p => set_queue s (TxQueue.ieee80211_free_txskb (queue s) p) (agg_queue_stop s) | None => s end, skb, true).

(** [ieee80211_tx]: of the preparation what concerns sessions; the handlers
    between that and [__ieee80211_tx] leave the frame as it is.  A frame with a
    TID is a QoS data frame to this station, and [skb_get_queue_mapping] is the
    access category of its TID.  The result is false when the frame had to
    wait. *)
Definition ieee80211_tx (ev : env) (s : mlme) (skb : sk_buff) (txpending : bool) : mlme * bool :=
  let skb := with_flags skb false (ctl_ampdu skb) in
  let '(s, skb, queued) :=
    match tid skb with
    | Some tid =>
        if ampdu_aggregation hw && negb (ampdu_setup_in_hw hw) then
          match session s tid with
          | Some t => ieee80211_tx_prep_agg ev s skb t tid
          | None => (s, skb, false)
          end
        else (s, skb, false)
    | None => (s, skb, false)
    end in
  if (queued : bool) then (s, true)
  else
    let skb := TxQueue.Skb (frame_id skb) (match tid skb with Some t => queue_of t | None => TxQueue.hw_queue skb end)
      (TxQueue.vif skb) (tid skb) (need_txprocessing skb) (ctl_ampdu skb) in
    let '(q, ok) := TxQueue.ieee80211_tx_frags (driver ev) txpending [skb] (queue s) in
    (set_queue s q (agg_queue_stop s), ok).

Definition ieee80211_tx_pending_skb (ev : env) (s : mlme) (skb : sk_buff) : mlme * bool :=
  if need_txprocessing skb then ieee80211_tx ev s skb true
  else
    let '(q, ok) := TxQueue.ieee80211_tx_frags (driver ev) true [skb] (queue s) in
    (set_queue s q (agg_queue_stop s), ok).

Definition put_queue (q : TxQueue.local) (s : mlme) : mlme := set_queue s q (agg_queue_stop s).

Definition ieee80211_tx_pending (ev : env) (s : mlme) : option mlme :=
  TxQueue.ieee80211_tx_pending queue put_queue (ieee80211_tx_pending_skb ev) s.

(** ** Block-ack requests *)

Definition ieee80211_check_pending_bar (ev : env) (s : mlme) (addr : list Z) (tid : nat) : mlme :=
  match session s tid with
  | None => s
  | Some t =>
      if negb (bar_pending t) then s
      else ieee80211_send_bar ev (update_session s tid (fun t => set_bar t (failed_bar_ssn t) false)) addr (Z.of_nat tid) (failed_bar_ssn t)
  end.

Definition ieee80211_set_bar_pending (s : mlme) (tid : nat) (ssn : Z) : mlme := update_session s tid (fun t => set_bar t ssn true).

(** ** The work item, DELBA, tearing down *)

Definition stop_rx (ev : env) (s : mlme) (tid : nat) (initiator reason : Z) (tx : bool) : mlme :=
  set_rx s (AggRx.stop_rx_ba_session (alloc ev) (rx s) (sta s) (Z.of_nat tid) initiator reason tx).

Definition WLAN_REASON_UNSPECIFIED : Z := 1.
Definition WLAN_REASON_QSTA_LEAVE_QBSS : Z := 36.
Definition WLAN_REASON_QSTA_TIMEOUT : Z := 39.

Definition clear_timer_expired (s : mlme) (tid : nat) : mlme :=
  let r := rx s in
  set_rx s (AggRx.Agg (AggRx.sessions r) (<[tid := false]> (AggRx.timer_expired r)) (AggRx.stop_requested r) (AggRx.ba_work r)
    (AggRx.sent r) (AggRx.drv_calls r) (AggRx.agg_freed r)).
Definition clear_stop_requested (s : mlme) (tid : nat) : mlme :=
  let r := rx s in
  set_rx s (AggRx.Agg (AggRx.sessions r) (AggRx.timer_expired r) (<[tid := false]> (AggRx.stop_requested r)) (AggRx.ba_work r)
    (AggRx.sent r) (AggRx.drv_calls r) (AggRx.agg_freed r)).
Definition set_work (s : mlme) (b : bool) : mlme :=
  let r := rx s in
  set_rx s (AggRx.Agg (AggRx.sessions r) (AggRx.timer_expired r) (AggRx.stop_requested r) b (AggRx.sent r) (AggRx.drv_calls r) (AggRx.agg_freed r)).

(** The receive side of one round of the loop. *)
Definition work_rx (ev : env) (s : mlme) (tid : nat) : mlme :=
  let s := if default false (AggRx.timer_expired (rx s) !! tid)
    then stop_rx ev (clear_timer_expired s tid) tid AggRx.WLAN_BACK_RECIPIENT WLAN_REASON_QSTA_TIMEOUT true else s in
  if default false (AggRx.stop_requested (rx s) !! tid)
  then stop_rx ev (clear_stop_requested s tid) tid AggRx.WLAN_BACK_RECIPIENT WLAN_REASON_UNSPECIFIED true else s.

Definition work_tid (ev : env) (s : mlme) (tid : nat) : mlme :=
  let s := work_rx ev s tid in
  match starting s tid with
  | Some t =>
      let s := assign_start s tid None in
      let s := match session s tid with Some _ => s | None => ieee80211_assign_tid_tx s tid (Some t) end in
      ieee80211_tx_ba_session_handle_start ev s tid
  | None =>
      match session s tid with
      | Some t =>
          if want_stop (state t) then
            (___ieee80211_stop_tx_ba_session ev (update_session s tid (fun t => set_bits t (set_want_stop false (state t)))) tid AGG_STOP_LOCAL_REQUEST).1
          else s
      | None => s
      end
  end.

Definition ieee80211_ba_session_work (ev : env) (s : mlme) : mlme :=
  if block_ba (sta s) then s else fold_left (work_tid ev) (seq 0 IEEE80211_NUM_TIDS) s.

Definition ieee80211_sta_tear_down_BA_sessions (ev : env) (s : mlme) (reason : agg_stop_reason) : mlme :=
  fold_left (fun s tid =>
    let s := (___ieee80211_stop_tx_ba_session ev s tid reason).1 in
    stop_rx ev s tid AggRx.WLAN_BACK_RECIPIENT WLAN_REASON_QSTA_LEAVE_QBSS
      (bool_decide (reason <> AGG_STOP_DESTROY_STA) && bool_decide (reason <> AGG_STOP_PEER_REQUEST)))
    (seq 0 IEEE80211_NUM_TIDS) (set_work s false).

Definition ieee80211_process_delba (ev : env) (s : mlme) (mgmt : list Z) : mlme :=
  match AggRx.ieee80211_process_delba (alloc ev) (rx s) (sta s) mgmt with
  | Some r => set_rx s r
  | None =>
      let tid := Z.to_nat (Z.shiftr (Z.land (get_le16 mgmt 26) AggRx.IEEE80211_DELBA_PARAM_TID_MASK) 12) in
      (___ieee80211_stop_tx_ba_session ev s tid AGG_STOP_PEER_REQUEST).1
  end.

(** ** Runs *)

(** What can happen: requests of the rate control, the work item, the driver
    reporting a start or a stop, the timers, frames from the peer, the end of
    all sessions, frames of the host, the tasklet, status of frames, and the
    driver stopping and waking queues. *)
Inductive op :=
  | OStart (tid : nat) (timeout : Z) | OStop (tid : nat) | OWork | OStartCb (tid : nat) | OStopCb (ra : list Z) (tid : nat)
  | OAddbaTimer (tid : nat) | OSessionTimer (tid : nat) | OAddbaResp (mgmt : list Z) | ODelba (mgmt : list Z)
  | OTearDown (reason : agg_stop_reason) | OBlock (b : bool) | OTx (skb : sk_buff) | OPending
  | OAcked (addr : list Z) (tid : nat) | OBarFailed (tid : nat) (ssn : Z) | OQueue (o : TxQueue.queue_op).

Definition set_block (s : mlme) (b : bool) : mlme :=
  let st := sta s in
  Mlme (AggRx.Sta (sta_addr st) b (AggRx.ht_cap st) (vif_type st) (vif_addr st) (AggRx.bssid st)) (tid_tx s) (tid_start_tx s)
    (last_addba_req_time s) (addba_req_num s) (dialog_token_allocator s) (tid_seq s) (rx s) (queue s) (agg_queue_stop s) (drv_log s).

(** A timer that is not running does not fire. *)
Definition fire (get : tid_ampdu_tx -> option Z) (clear : tid_ampdu_tx -> tid_ampdu_tx) (handler : mlme -> nat -> mlme) (s : mlme) (tid : nat) : mlme :=
  match t ← session s tid; get t with
  | Some _ => handler (update_session s tid clear) tid
  | None => s
  end.

Definition step (ev : env) (o : op) (s : mlme) : option mlme :=
  match o with
  | OStart tid timeout => Some (ieee80211_start_tx_ba_session ev s tid timeout).1
  | OStop tid => Some (ieee80211_stop_tx_ba_session s tid).1
  | OWork => Some (if AggRx.ba_work (rx s) then ieee80211_ba_session_work ev (set_work s false) else s)
  | OStartCb tid => Some (ieee80211_start_tx_ba_cb ev s tid)
  | OStopCb ra tid => Some (ieee80211_stop_tx_ba_cb ev s ra tid)
  | OAddbaTimer tid => Some (fire addba_resp_timer (fun t => set_timers t None (session_timer t)) sta_addba_resp_timer_expired s tid)
  | OSessionTimer tid => Some (fire session_timer (fun t => set_timers t (addba_resp_timer t) None) (sta_tx_agg_session_timer_expired ev) s tid)
  | OAddbaResp mgmt => Some (ieee80211_process_addba_resp ev s mgmt)
  | ODelba mgmt => Some (ieee80211_process_delba ev s mgmt)
  | OTearDown reason => Some (ieee80211_sta_tear_down_BA_sessions ev s reason)
  | OBlock b => Some (set_block s b)
  | OTx skb => Some (ieee80211_tx ev s skb false).1
  | OPending => ieee80211_tx_pending ev s
  | OAcked addr tid => Some (ieee80211_check_pending_bar ev s addr tid)
  | OBarFailed tid ssn => Some (ieee80211_set_bar_pending s tid ssn)
  | OQueue o => Some (put_queue (TxQueue.driver_op (queue s) o) s)
  end.

Fixpoint run (os : list (env * op)) (s : mlme) : option mlme :=
  match os with [] => Some s | (ev, o) :: os => s ← step ev o s; run os s end.

End Ops.

(** ** Lemmas: one TID *)

(** The events of a TID. *)
Definition events (tid : nat) (l : list (nat * drv_event)) : list drv_event := snd <$> filter (fun e => e.1 = tid) l.

Definition view_log (s : mlme) (t : nat) : list drv_event := events t (drv_log s).

Lemma session_insert (l : list (option tid_ampdu_tx)) i o t : (i < length l)%nat \/ o = None ->
  mjoin (<[i := o]> l !! t) = if decide (i = t) then o else mjoin (l !! t).
Proof.
  intros Hi; case_decide as E; [subst t|by rewrite list_lookup_insert_ne]; destruct (decide (i < length l)%nat) as [Hl|Hl].
  - by rewrite list_lookup_insert_eq.
  - destruct Hi as [ | -> ]; [done|]; rewrite list_insert_ge by lia; by rewrite lookup_ge_None_2 by lia.
Qed.

Lemma session_none_out (l : list (option tid_ampdu_tx)) i : (length l <= i)%nat -> mjoin (l !! i) = None.
Proof. intros Hl; by rewrite lookup_ge_None_2. Qed.

Lemma log_log s tid e t : view_log (log s tid e) t = if decide (tid = t) then view_log s t ++ [e] else view_log s t.
Proof.
  unfold view_log, events; cbn [log drv_log]; rewrite list.filter_app, fmap_app, filter_cons, filter_nil; cbn [fst].
  case_decide; cbn [fmap list_fmap snd]; by rewrite ?app_nil_r.
Qed.

Lemma session_update s tid f t : session (update_session s tid f) t = if decide (tid = t) then f <$> session s t else session s t.
Proof.
  unfold update_session, session at 1; cbn [ieee80211_assign_tid_tx tid_tx].
  rewrite session_insert; [by case_decide; subst|]; destruct (decide (tid < length (tid_tx s))%nat); [by left|right].
  unfold session; by rewrite session_none_out by lia.
Qed.

Lemma session_assign s tid o t : (tid < length (tid_tx s))%nat \/ o = None ->
  session (ieee80211_assign_tid_tx s tid o) t = if decide (tid = t) then o else session s t.
Proof. intros Ho; unfold session at 1; cbn [ieee80211_assign_tid_tx tid_tx]; by rewrite session_insert. Qed.

Lemma starting_assign s tid o t : (tid < length (tid_start_tx s))%nat \/ o = None ->
  starting (assign_start s tid o) t = if decide (tid = t) then o else starting s t.
Proof. intros Ho; unfold starting at 1; cbn [assign_start tid_start_tx]; by rewrite session_insert. Qed.

(** What leaves a part of the state alone. *)
Lemma session_log s tid e t : session (log s tid e) t = session s t. Proof. done. Qed.
Lemma session_queue s q r t : session (set_queue s q r) t = session s t. Proof. done. Qed.
Lemma session_rx s r t : session (set_rx s r) t = session s t. Proof. done. Qed.
Lemma session_requests s a b c t : session (set_requests s a b c) t = session s t. Proof. done. Qed.
Lemma session_start s tid o t : session (assign_start s tid o) t = session s t. Proof. done. Qed.
Lemma starting_log s tid e t : starting (log s tid e) t = starting s t. Proof. done. Qed.
Lemma starting_queue s q r t : starting (set_queue s q r) t = starting s t. Proof. done. Qed.
Lemma starting_rx s r t : starting (set_rx s r) t = starting s t. Proof. done. Qed.
Lemma starting_requests s a b c t : starting (set_requests s a b c) t = starting s t. Proof. done. Qed.
Lemma starting_tx s tid o t : starting (ieee80211_assign_tid_tx s tid o) t = starting s t. Proof. done. Qed.
Lemma starting_update s tid f t : starting (update_session s tid f) t = starting s t. Proof. done. Qed.
Lemma log_queue s q r t : view_log (set_queue s q r) t = view_log s t. Proof. done. Qed.
Lemma log_rx s r t : view_log (set_rx s r) t = view_log s t. Proof. done. Qed.
Lemma log_requests s a b c t : view_log (set_requests s a b c) t = view_log s t. Proof. done. Qed.
Lemma log_tx s tid o t : view_log (ieee80211_assign_tid_tx s tid o) t = view_log s t. Proof. done. Qed.
Lemma log_start s tid o t : view_log (assign_start s tid o) t = view_log s t. Proof. done. Qed.
Lemma log_update s tid f t : view_log (update_session s tid f) t = view_log s t. Proof. done. Qed.

Create Rewrite HintDb agg.
#[local] Hint Rewrite session_log session_queue session_rx session_requests session_start session_update starting_log starting_queue starting_rx
  starting_requests starting_tx starting_update log_queue log_rx log_requests log_tx log_start log_update log_log : agg.

Lemma set_pending_nil t : pending t = [] -> set_pending t [] = t.
Proof. destruct t; cbn [pending]; by intros ->. Qed.

Section Lemmas.
Context (hw : hw_conf).

Lemma splice_same s tid t : starting (ieee80211_agg_splice_packets hw s tid) t = starting s t /\
  view_log (ieee80211_agg_splice_packets hw s tid) t = view_log s t /\ length (tid_tx (ieee80211_agg_splice_packets hw s tid)) = length (tid_tx s) /\
  length (tid_start_tx (ieee80211_agg_splice_packets hw s tid)) = length (tid_start_tx s).
Proof.
  unfold ieee80211_agg_splice_packets; destruct (session _ _); [case_bool_decide|]; try done.
  split_and!; try done; cbn [set_queue tid_tx update_session ieee80211_assign_tid_tx]; by rewrite length_insert.
Qed.

Lemma session_splice s tid t : session (ieee80211_agg_splice_packets hw s tid) t =
  if decide (tid = t) then (fun t => set_pending t []) <$> session s t else session s t.
Proof.
  unfold ieee80211_agg_splice_packets; set (s1 := ieee80211_stop_queue_agg hw s tid); change (session s t) with (session s1 t).
  destruct (session s1 tid) as [x|] eqn:E; [case_bool_decide as Ep|].
  - case_decide; [subst t; rewrite E; cbn [fmap option_fmap option_map]; by rewrite set_pending_nil|done].
  - by autorewrite with agg.
  - case_decide; [subst t; by rewrite E|done].
Qed.

Lemma session_finish s tid t : session (ieee80211_agg_splice_finish hw s tid) t = session s t. Proof. done. Qed.

Lemma session_remove s tid t : session (ieee80211_remove_tid_tx hw s tid) t = if decide (tid = t) then None else session s t.
Proof.
  unfold ieee80211_remove_tid_tx; rewrite session_finish, session_assign, session_splice by (by right); by case_decide.
Qed.

Lemma remove_same s tid t : starting (ieee80211_remove_tid_tx hw s tid) t = starting s t /\ view_log (ieee80211_remove_tid_tx hw s tid) t = view_log s t.
Proof. destruct (splice_same s tid t) as (H1 & H2 & _); by rewrite <- H1, <- H2. Qed.

(** ** Lemmas: what the driver sees *)

(** The session of a TID as the driver knows it. *)
Inductive dstate := Idle | Started | Operating | Stopping.

(** What may come next, and what it leads to. *)
Definition drv_step (d : dstate) (e : drv_event) : option dstate :=
  match d, e with
  | Idle, Call IEEE80211_AMPDU_TX_START _ ret => Some (if ret =? 0 then Started else Idle)
  | Started, Call IEEE80211_AMPDU_TX_OPERATIONAL _ _ => Some Operating
  | Started, Call IEEE80211_AMPDU_TX_STOP_CONT _ _ | Operating, Call IEEE80211_AMPDU_TX_STOP_CONT _ _ => Some Stopping
  | Started, Call IEEE80211_AMPDU_TX_STOP_FLUSH _ _ | Operating, Call IEEE80211_AMPDU_TX_STOP_FLUSH _ _ => Some Idle
  | Stopping, Call IEEE80211_AMPDU_TX_STOP_FLUSH_CONT _ _ | Stopping, StopReported => Some Idle
  | _, _ => None
  end.

Definition drv_view (evs : list drv_event) : option dstate := fold_left (fun d e => d ← d; drv_step d e) evs (Some Idle).

Definition view (o : option tid_ampdu_tx) : dstate :=
  match o with
  | None => Idle
  | Some t => if stopping (state t) then Stopping else if operational (state t) then Operating else Started
  end.

Lemma drv_view_snoc evs e : drv_view (evs ++ [e]) = (d ← drv_view evs; drv_step d e).
Proof. unfold drv_view; by rewrite fold_left_app. Qed.

(** A session between two operations. *)
Definition sess_ok (t : tid_ampdu_tx) : Prop :=
  let b := state t in
  want_start b = false /\ operational b = drv_ready b && response_received b && negb (stopping b) /\
  (operational b = true -> pending t = []) /\ (length (pending t) <= STA_MAX_TX_BUFFER)%nat.

(** A session that waits for the answer of the peer will end. *)
Definition sess_ends (t : tid_ampdu_tx) : Prop :=
  let b := state t in
  stopping b = false -> response_received b = false -> want_stop b = true \/ addba_resp_timer t <> None.

Definition tid_ok (P : tid_ampdu_tx -> Prop) (o st : option tid_ampdu_tx) (evs : list drv_event) : Prop :=
  drv_view evs = Some (view o) /\ (forall t, o = Some t -> sess_ok t /\ P t) /\
  (forall t, st = Some t -> o = None /\ exists timeout token, t = new_session timeout token).

Definition sizes (s : mlme) : Prop := length (tid_tx s) = IEEE80211_NUM_TIDS /\ length (tid_start_tx s) = IEEE80211_NUM_TIDS.

Definition agg_inv (s : mlme) : Prop := sizes s /\ forall t, tid_ok sess_ends (session s t) (starting s t) (view_log s t).

Definition same_at (s s' : mlme) (t : nat) : Prop := session s' t = session s t /\ starting s' t = starting s t /\ view_log s' t = view_log s t.

(** All but one TID are in order. *)
Definition agg_others (tid : nat) (s : mlme) : Prop :=
  sizes s /\ (forall t, t <> tid -> tid_ok sess_ends (session s t) (starting s t) (view_log s t)).

(** That one is as well, but may not end. *)
Definition agg_weak (tid : nat) (s : mlme) : Prop :=
  sizes s /\ (forall t, t <> tid -> tid_ok sess_ends (session s t) (starting s t) (view_log s t)) /\
  tid_ok (fun _ => True) (session s tid) (starting s tid) (view_log s tid).

Lemma inv_weaken_at s tid : agg_inv s -> agg_weak tid s.
Proof.
  intros [Hs Hi]; split; [done|]; split; [intros; apply Hi|]; destruct (Hi tid) as (H1 & H2 & H3); split; [done|]; split; [|done].
  intros t Ht; by destruct (H2 t Ht).
Qed.

Lemma weak_others s tid : agg_weak tid s -> agg_others tid s.
Proof. by intros (H1 & H2 & _). Qed.

Lemma inv_others s tid : agg_inv s -> agg_others tid s.
Proof. intros H; by apply weak_others, inv_weaken_at. Qed.

Lemma inv_one s s' tid : agg_others tid s -> sizes s' -> (forall t, t <> tid -> same_at s s' t) ->
  tid_ok sess_ends (session s' tid) (starting s' tid) (view_log s' tid) -> agg_inv s'.
Proof.
  intros [_ Hi] Hs Ho Ht; split; [done|]; intros t; destruct (decide (t = tid)) as [->|Hne]; [done|].
  destruct (Ho t Hne) as (-> & -> & ->); by apply Hi.
Qed.

Lemma session_in s tid t : sizes s -> session s tid = Some t -> (tid < IEEE80211_NUM_TIDS)%nat.
Proof. intros [<- _] H; destruct (decide (tid < length (tid_tx s))%nat); [done|]; unfold session in H; by rewrite session_none_out in H by lia. Qed.

Lemma sizes_update s tid f : sizes s -> sizes (update_session s tid f).
Proof. intros [H1 H2]; split; [|done]; cbn [update_session ieee80211_assign_tid_tx tid_tx]; by rewrite length_insert. Qed.
Lemma sizes_assign s tid o : sizes s -> sizes (ieee80211_assign_tid_tx s tid o).
Proof. intros [H1 H2]; split; [|done]; cbn [ieee80211_assign_tid_tx tid_tx]; by rewrite length_insert. Qed.
Lemma sizes_start s tid o : sizes s -> sizes (assign_start s tid o).
Proof. intros [H1 H2]; split; [done|]; cbn [assign_start tid_start_tx]; by rewrite length_insert. Qed.
Lemma sizes_splice s tid : sizes s -> sizes (ieee80211_agg_splice_packets hw s tid).
Proof. intros [H1 H2]; destruct (splice_same s tid 0) as (_ & _ & H3 & H4); by split; rewrite ?H3, ?H4. Qed.
Lemma sizes_remove s tid : sizes s -> sizes (ieee80211_remove_tid_tx hw s tid).
Proof. intros H; apply (sizes_assign _ tid None), sizes_splice, H. Qed.

Lemma same_refl s t : same_at s s t. Proof. done. Qed.
Lemma same_trans s1 s2 s3 t : same_at s1 s2 t -> same_at s2 s3 t -> same_at s1 s3 t.
Proof. intros (H1 & H2 & H3) (H4 & H5 & H6); split_and!; congruence. Qed.
Lemma same_remove s tid t : t <> tid -> same_at s (ieee80211_remove_tid_tx hw s tid) t.
Proof. intros Hne; destruct (remove_same s tid t) as [H1 H2]; split_and!; [by rewrite session_remove, decide_False|done|done]. Qed.
Lemma same_update s tid f t : t <> tid -> same_at s (update_session s tid f) t.
Proof. intros Hne; split_and!; autorewrite with agg; by rewrite ?decide_False. Qed.
Lemma same_log s tid e t : t <> tid -> same_at s (log s tid e) t.
Proof. intros Hne; split_and!; autorewrite with agg; by rewrite ?decide_False. Qed.

Lemma others_update s tid f : agg_others tid s -> agg_others tid (update_session s tid f).
Proof.
  intros [H1 H2]; split; [by apply sizes_update|]; intros t Ht; destruct (same_update s tid f t Ht) as (-> & -> & ->); by apply H2.
Qed.

(** *** Stopping *)

Lemma sess_stop_inv ev s tid reason : agg_weak tid s -> agg_inv (___ieee80211_stop_tx_ba_session hw ev s tid reason).1.
Proof.
  intros Hinv; pose proof Hinv as (Hs & Hoth & Hi); pose proof (weak_others _ _ Hinv) as Hot; unfold ___ieee80211_stop_tx_ba_session; destruct (session s tid) as [t|] eqn:E.
  2: { apply (inv_one s s tid); [done|done|done|]; rewrite E; by destruct Hi as (H1 & _ & H3). }
  pose proof Hi as (Hv & Hk & Hst); destruct (Hk t eq_refl) as [(Hws & Hop & Hp & Hl) _]; cbn [view] in Hv.
  unfold drv_ampdu_action; destruct (stopping (state t)) eqn:Es.
  - case_bool_decide.
    { apply (inv_one s s tid); [done|done|done|]; rewrite E; split; [cbn [view]; by rewrite Es|]; split; [|done].
      intros ? [= <-]; split; [by unfold sess_ok; rewrite Es|intros Hx; by rewrite Es in Hx]. }
    destruct (drv ev _ _ _ _) as [ret ssn]; cbn [fst]; apply (inv_one s _ tid); [done|by apply sizes_remove| |].
    + intros x Hx; eapply same_trans; [by apply (same_log s tid (Call IEEE80211_AMPDU_TX_STOP_FLUSH_CONT 0 ret))|by apply same_remove].
    + destruct (remove_same (log s tid (Call IEEE80211_AMPDU_TX_STOP_FLUSH_CONT 0 ret)) tid tid) as [-> ->].
      rewrite session_remove, log_log, !decide_True by done; split; [by rewrite drv_view_snoc, Hv|]; split; [done|].
      intros t' Ht'; destruct (Hst t' Ht') as [Hx _]; done.
  - rewrite Hws; set (s4 := update_session _ tid (fun t => set_stop t _ _)); destruct (drv ev _ _ _ _) as [ret ssn]; cbn [fst].
    assert (E4 : exists t', session s4 tid = Some t' /\ stopping (state t') = true /\ sess_ok t').
    { unfold s4; autorewrite with agg; rewrite !decide_True, E by done; eexists; split; [reflexivity|]; split; [done|].
      unfold sess_ok; cbn; rewrite Hws, andb_false_r; by split_and!. }
    destruct E4 as (t' & E4 & Es' & Hok').
    assert (Hs4 : sizes s4) by (by apply sizes_update, sizes_update, sizes_update, sizes_update).
    assert (Ho : forall x, x <> tid -> same_at s (log s4 tid (Call (stop_action reason) 0 ret)) x).
    { intros x Hx; eapply same_trans; [|by apply same_log]; unfold s4; do 3 (eapply same_trans; [|by apply same_update]); by apply same_update. }
    assert (Hlog : drv_view (view_log (log s4 tid (Call (stop_action reason) 0 ret)) tid) = drv_step (if operational (state t) then Operating else Started) (Call (stop_action reason) 0 ret)).
    { rewrite log_log, decide_True, drv_view_snoc by done; change (view_log s4 tid) with (view_log s tid); by rewrite Hv. }
    set (s5 := log s4 _ _) in *; case_bool_decide as Ed.
    + apply (inv_one s _ tid); [done|by apply sizes_remove| |].
      * intros x Hx; eapply same_trans; [by apply Ho|by apply same_remove].
      * destruct (remove_same s5 tid tid) as [-> ->]; rewrite session_remove, decide_True by done; subst reason; split; [rewrite Hlog; by destruct (operational _)|].
        split; [done|]; intros x Hx; by destruct (Hst x Hx).
    + apply (inv_one s _ tid); [done|done|done|]; change (session s5 tid) with (session s4 tid); rewrite E4; split; [|split].
      * rewrite Hlog; cbn [view]; rewrite Es'; destruct reason, (operational _); done.
      * intros ? [= <-]; split; [done|intros Hx; by rewrite Es' in Hx].
      * intros x Hx; by destruct (Hst x Hx).
Qed.

(** An update that keeps the driver's view and a session in order. *)
Lemma update_inv s tid f : agg_inv s ->
  (forall t, session s tid = Some t -> sess_ok t -> sess_ends t -> sess_ok (f t) /\ sess_ends (f t) /\ view (Some (f t)) = view (Some t)) ->
  agg_inv (update_session s tid f).
Proof.
  intros Hinv Hf; pose proof Hinv as [Hs Hi]; apply (inv_one s _ tid); [by apply inv_others|by apply sizes_update|intros; by apply same_update|].
  autorewrite with agg; rewrite decide_True by done; destruct (Hi tid) as (Hv & Hk & Hst).
  destruct (session s tid) as [t|] eqn:E; cbn [fmap option_fmap option_map]; [|done]; destruct (Hk t eq_refl) as [K1 K2].
  destruct (Hf t eq_refl K1 K2) as (H1 & H2 & H3); split; [by rewrite Hv, H3|]; split; [by intros ? [= <-]|]; intros x Hx; by destruct (Hst x Hx).
Qed.

Lemma same_inv s s' : agg_inv s -> tid_tx s' = tid_tx s -> tid_start_tx s' = tid_start_tx s -> drv_log s' = drv_log s -> agg_inv s'.
Proof. intros [[H1 H2] Hi] E1 E2 E3; split; [by split; rewrite ?E1, ?E2|]; intros t; unfold session, starting, view_log; rewrite E1, E2, E3; apply Hi. Qed.

(** An update of what the invariant does not speak of. *)
Lemma update_other s tid f : agg_inv s ->
  (forall t, state (f t) = state t /\ pending (f t) = pending t /\ addba_resp_timer (f t) = addba_resp_timer t) -> agg_inv (update_session s tid f).
Proof.
  intros Hinv Hf; apply update_inv; [done|]; intros t _ H1 H2; destruct (Hf t) as (E1 & E2 & E3).
  unfold sess_ok, sess_ends, view; by rewrite E1, E2, E3.
Qed.

Context (Hdrv : has_ampdu_action hw = true).

Lemma api_stop_inv s tid : agg_inv s -> agg_inv (ieee80211_stop_tx_ba_session hw s tid).1.
Proof.
  intros Hinv; unfold ieee80211_stop_tx_ba_session; rewrite Hdrv; cbn [negb]; case_bool_decide; [done|]; destruct (session s tid) as [t|] eqn:E; [|done].
  destruct (stopping (state t)) eqn:Es; [done|]; cbn [fst]; set (s1 := update_session _ _ _); enough (agg_inv s1) by (by apply (same_inv s1)).
  apply update_inv; [done|]; intros t' Ht' H1 H2; split; [done|]; split; [|done]; intros _ _; by left.
Qed.

(** A fired response timer asks for the session to be stopped. *)
Lemma addba_timer_inv s tid : agg_inv s -> agg_inv (fire addba_resp_timer (fun t => set_timers t None (session_timer t)) (sta_addba_resp_timer_expired hw) s tid).
Proof.
  intros Hinv; pose proof Hinv as [Hs Hi]; unfold fire; destruct (session s tid) as [t|] eqn:E; cbn [mbind option_bind]; [|done].
  destruct (addba_resp_timer t) as [x|]; [|done]; set (s1 := update_session _ _ _).
  assert (E1 : session s1 tid = Some (set_timers t None (session_timer t))) by (unfold s1; autorewrite with agg; by rewrite decide_True, E).
  pose proof (session_in _ _ _ Hs E) as Hlt; unfold IEEE80211_NUM_TIDS in Hlt.
  unfold sta_addba_resp_timer_expired, ieee80211_stop_tx_ba_session; rewrite E1, Hdrv; cbn [state set_timers negb].
  rewrite bool_decide_false by (unfold IEEE80211_NUM_TIDS; lia).
  destruct (response_received (state t)) eqn:Er; [|destruct (stopping (state t)) eqn:Es].
  - apply update_inv; [done|]; intros t' Ht' H1 H2; rewrite E in Ht'; injection Ht' as <-; split; [done|]; split; [|done].
    intros _ Hx; cbn in Hx; by rewrite Er in Hx.
  - apply update_inv; [done|]; intros t' Ht' H1 H2; rewrite E in Ht'; injection Ht' as <-; split; [done|]; split; [|done].
    intros Hx; cbn in Hx; by rewrite Es in Hx.
  - cbn [fst]; set (s2 := update_session s1 _ _); enough (agg_inv s2) by (by apply (same_inv s2)).
    apply (inv_one s _ tid); [by apply inv_others|by apply sizes_update, sizes_update| |].
    { intros y Hy; eapply same_trans; by apply same_update. }
    destruct (Hi tid) as (Hv & Hk & Hst); rewrite E in *; destruct (Hk t eq_refl) as [H1 H2].
    unfold s2; autorewrite with agg; rewrite !decide_True, E1 by done; cbn [fmap option_fmap option_map]; split; [exact Hv|]; split.
    + intros ? [= <-]; split; [done|]; intros _ _; by left.
    + intros y Hy; by destruct (Hst y Hy).
Qed.

Lemma session_timer_inv ev s tid : agg_inv s ->
  agg_inv (fire session_timer (fun t => set_timers t (addba_resp_timer t) None) (sta_tx_agg_session_timer_expired hw ev) s tid).
Proof.
  intros Hinv; unfold fire; destruct (t ← session s tid; session_timer t); [|done]; set (s1 := update_session _ _ _).
  assert (H1 : agg_inv s1) by (by apply update_other).
  unfold sta_tx_agg_session_timer_expired; destruct (session s1 tid) as [t|]; [|done]; destruct (stopping _); [done|].
  destruct (Reorder.time_after _ _); [|by apply api_stop_inv]; by apply update_other.
Qed.

(** *** Starting *)

Lemma api_start_inv ev s tid timeout : agg_inv s -> agg_inv (ieee80211_start_tx_ba_session hw ev s tid timeout).1.
Proof.
  intros Hinv; pose proof Hinv as [Hs Hi]; unfold ieee80211_start_tx_ba_session; rewrite Hdrv; cbn [negb].
  destruct (bool_decide (IEEE80211_NUM_TIDS <= tid)%nat) eqn:Et; [done|]; cbn [orb]; apply bool_decide_eq_false in Et.
  do 6 (match goal with |- agg_inv (if ?b then _ else _).1 => destruct b; [done|] end).
  destruct (bool_decide (session s tid <> None)) eqn:E1; [done|]; destruct (bool_decide (starting s tid <> None)) eqn:E2; [done|]; cbn [orb].
  destruct (negb (alloc ev)); [done|]; apply bool_decide_eq_false, dec_stable in E1; cbn [fst]; set (t := new_session _ _); set (s1 := assign_start _ _ _).
  enough (agg_inv s1) by (by apply (same_inv s1)); assert (Hlt : (tid < length (tid_start_tx s))%nat) by (destruct Hs as [_ ->]; lia).
  apply (inv_one s _ tid); [by apply inv_others|by apply sizes_start| |].
  - intros x Hx; split_and!; [done| |done]; unfold s1; rewrite starting_assign by (by left); by rewrite decide_False.
  - change (session s1 tid) with (session s tid); change (view_log s1 tid) with (view_log s tid); unfold s1; rewrite starting_assign, decide_True by (done || by left).
    destruct (Hi tid) as (Hv & Hk & Hst); rewrite E1 in *; split; [done|]; split; [done|]; intros ? [= <-]; split; [done|]; by eexists _, _.
Qed.

(** A session that goes live, in the middle of the work item. *)
Lemma handle_start_inv ev s tid timeout token : sizes s ->
  (forall t, t <> tid -> tid_ok sess_ends (session s t) (starting s t) (view_log s t)) ->
  session s tid = Some (new_session timeout token) -> starting s tid = None -> drv_view (view_log s tid) = Some Idle ->
  agg_inv (ieee80211_tx_ba_session_handle_start hw ev s tid).
Proof.
  intros Hs Ho Es Est Hv; unfold ieee80211_tx_ba_session_handle_start, drv_ampdu_action; set (s1 := update_session _ _ _); destruct (drv ev _ _ _ _) as [ret ssn].
  set (s2 := log s1 tid _); assert (Hs2 : sizes s2) by (by apply sizes_update).
  assert (Ho2 : forall x, x <> tid -> same_at s s2 x) by (intros x Hx; eapply same_trans; [by apply same_update|by apply same_log]).
  assert (Hv2 : drv_view (view_log s2 tid) = Some (if ret =? 0 then Started else Idle)).
  { unfold s2; rewrite log_log, decide_True, drv_view_snoc by done; change (view_log s1 tid) with (view_log s tid); by rewrite Hv. }
  assert (E2 : session s2 tid = Some (TidTx (Bits false false false false false false) [] timeout token 0 false 0 0 None None 0 false))
    by (unfold s2, s1; autorewrite with agg; by rewrite decide_True, Es).
  assert (Hend : forall s', sizes s' -> (forall x, x <> tid -> same_at s2 s' x) ->
    tid_ok sess_ends (session s' tid) (starting s' tid) (view_log s' tid) -> agg_inv s').
  { intros s' Hs' Ho' Ht; split; [done|]; intros x; destruct (decide (x = tid)) as [->|Hx]; [done|].
    destruct (same_trans _ _ _ _ (Ho2 x Hx) (Ho' x Hx)) as (-> & -> & ->); by apply Ho. }
  assert (Est2 : starting s2 tid = None) by done; destruct (ret =? 0); cbn [negb].
  - set (s3 := update_session s2 _ _); set (s4 := set_requests _ _ _ _).
    assert (E4 : session s4 tid = Some (TidTx (Bits false false false false false false) [] timeout token 0 false 0 0 (Some (u64 (jiffies ev + HZ hw))) None 0 false))
      by (unfold s4, s3; autorewrite with agg; by rewrite decide_True, E2).
    rewrite E4; assert (H4 : agg_inv s4).
    { apply Hend; [by apply sizes_update|intros x Hx; by apply same_update|]; rewrite E4; change (view_log s4 tid) with (view_log s2 tid).
      split; [done|]; split; [|intros x Hx; change (starting s4 tid) with (starting s2 tid) in Hx; by rewrite Est2 in Hx].
      intros ? [= <-]; split; [unfold sess_ok, STA_MAX_TX_BUFFER; cbn; split_and!; try done; lia|]; intros _ _; by right. }
    unfold ieee80211_send_addba_request; destruct (negb _); [done|]; by apply (same_inv s4).
  - apply (Hend (ieee80211_remove_tid_tx hw s2 tid)); [by apply sizes_remove|intros; by apply same_remove|].
    destruct (remove_same s2 tid tid) as [-> ->]; rewrite session_remove, decide_True by done; split; [done|]; split; [done|]; intros x Hx; by rewrite Est2 in Hx.
Qed.

Lemma operational_inv ev s tid t : agg_others tid s -> session s tid = Some t -> stopping (state t) = false -> operational (state t) = false ->
  drv_ready (state t) = true -> response_received (state t) = true -> drv_view (view_log s tid) = Some Started -> want_start (state t) = false ->
  starting s tid = None -> agg_inv (ieee80211_agg_tx_operational hw ev s tid).
Proof.
  intros Hinv Es Hst Hop Hdr Hrr Hv Hws Hsta; unfold ieee80211_agg_tx_operational, drv_ampdu_action; destruct (drv ev _ _ _ _) as [ret ssn].
  set (s1 := log s tid _); set (s2 := ieee80211_agg_splice_packets hw s1 tid); set (s3 := update_session s2 tid _).
  enough (agg_inv s3) by (by apply (same_inv s3)); destruct (splice_same s1 tid tid) as (H1 & H2 & _); fold s2 in H1, H2.
  apply (inv_one s _ tid); [done|apply sizes_update, sizes_splice, Hinv| |].
  - intros x Hx; eapply same_trans; [by apply same_log|]; eapply same_trans; [|by apply same_update].
    destruct (splice_same s1 tid x) as (H3 & H4 & _); split_and!; [|done|done]; unfold s2; by rewrite session_splice, decide_False.
  - change (starting s3 tid) with (starting s2 tid); change (view_log s3 tid) with (view_log s2 tid); rewrite H1, H2; unfold s3; rewrite session_update.
    unfold s2; rewrite session_splice, !decide_True by done; change (session s1 tid) with (session s tid); rewrite Es; cbn [fmap option_fmap option_map].
    split; [unfold s1; rewrite log_log, decide_True, drv_view_snoc by done; rewrite Hv; cbn; by rewrite Hst|]; split.
    + intros ? [= <-]; split; [|intros _ Hx; cbn in Hx; by rewrite Hrr in Hx].
      unfold sess_ok, STA_MAX_TX_BUFFER; cbn; rewrite Hst, Hdr, Hrr; split_and!; try done; lia.
    + intros x Hx; change (starting s1 tid) with (starting s tid) in Hx; by rewrite Hsta in Hx.
Qed.

(** No first report of a start comes after the response of the peer and the
    stop of the session. *)
Definition timely (s : mlme) (o : op) : Prop :=
  match o with
  | OStartCb tid => forall t, session s tid = Some t -> drv_ready (state t) || negb (stopping (state t)) || negb (response_received (state t)) = true
  | _ => True
  end.

Lemma start_cb_inv ev s tid : agg_inv s -> timely s (OStartCb tid) -> agg_inv (ieee80211_start_tx_ba_cb hw ev s tid).
Proof.
  intros Hinv Hti; pose proof Hinv as [Hs Hi]; unfold ieee80211_start_tx_ba_cb; case_bool_decide; [done|]; destruct (session s tid) as [t|] eqn:E; [|done].
  specialize (Hti t E); destruct (Hi tid) as (Hv & Hk & Hsta); rewrite E in *; destruct (Hk t eq_refl) as [(H1 & H2 & H3 & H4) H5].
  set (s1 := update_session _ _ _); destruct (drv_ready (state t)) eqn:Hd; cbn [orb andb] in Hti, H2.
  { apply update_inv; [done|]; intros t' Ht' K1 K2; rewrite E in Ht'; injection Ht' as <-; split; [|by split].
    unfold sess_ok in K1 |- *; rewrite Hd in K1; exact K1. }
  assert (E1 : session s1 tid = Some (set_bits t (set_drv_ready (state t)))) by (unfold s1; autorewrite with agg; by rewrite decide_True, E).
  assert (Hno : starting s tid = None) by (destruct (starting s tid) as [x|] eqn:Ex; [|done]; by destruct (Hsta x eq_refl)).
  destruct (response_received (state t)) eqn:Er; cbn [negb] in Hti.
  - rewrite orb_false_r in Hti; apply negb_true_iff in Hti; eapply (operational_inv ev s1 tid _); try exact E1; try done.
    + by apply others_update, inv_others.
    + cbn [view] in Hv; by rewrite Hti, H2 in Hv.
  - apply update_inv; [done|]; intros t' Ht' K1 K2; rewrite E in Ht'; injection Ht' as <-; split; [|split; [exact K2|done]].
    unfold sess_ok; cbn; rewrite Er, H2; by split_and!.
Qed.

Lemma stop_cb_inv ev s ra tid : agg_inv s -> agg_inv (ieee80211_stop_tx_ba_cb hw ev s ra tid).
Proof.
  intros Hinv; pose proof Hinv as [Hs Hi]; unfold ieee80211_stop_tx_ba_cb; case_bool_decide; [done|]; destruct (session s tid) as [t|] eqn:E; [|done].
  destruct (stopping (state t)) eqn:Est; cbn [negb]; [|done]; set (s1 := log s tid StopReported); set (s2 := if _ : bool then _ else s1).
  assert (E2 : sizes s2 /\ (forall x, same_at s1 s2 x)) by (unfold s2; by case_match). destruct E2 as [Hs2 Hsame].
  apply (inv_one s _ tid); [by apply inv_others|by apply sizes_remove| |].
  - intros x Hx; eapply same_trans; [by apply (same_log s tid StopReported)|]; eapply same_trans; [by apply Hsame|by apply same_remove].
  - destruct (remove_same s2 tid tid) as [-> ->], (Hsame tid) as (_ & -> & ->); rewrite session_remove, decide_True by done.
    destruct (Hi tid) as (Hv & Hk & Hst); rewrite E in *; cbn [view] in Hv; rewrite Est in Hv; split; [|split; [done|intros x Hx; by destruct (Hst x Hx)]].
    unfold s1; by rewrite log_log, decide_True, drv_view_snoc, Hv by done.
Qed.

Lemma addba_resp_inv ev s mgmt : agg_inv s -> agg_inv (ieee80211_process_addba_resp hw ev s mgmt).
Proof.
  intros Hinv; pose proof Hinv as [Hs Hi]; unfold ieee80211_process_addba_resp; set (tid := Z.to_nat _); destruct (session s tid) as [t|] eqn:E; [|done].
  destruct (negb _); [done|]; set (s1 := update_session s tid (fun t => set_timers t None (session_timer t))).
  destruct (Hi tid) as (Hv & Hk & Hsta); rewrite E in *; destruct (Hk t eq_refl) as [(H1 & H2 & H3 & H4) H5].
  assert (E1 : session s1 tid = Some (set_timers t None (session_timer t))) by (unfold s1; autorewrite with agg; by rewrite decide_True, E).
  assert (Hno : starting s tid = None) by (destruct (starting s tid) as [x|] eqn:Ex; [|done]; by destruct (Hsta x eq_refl)).
  assert (Hends : want_stop (state t) || stopping (state t) || response_received (state t) = true -> agg_inv s1).
  { intros Hor; apply update_inv; [done|]; intros t' Ht' K1 K2; rewrite E in Ht'; injection Ht' as <-; split; [done|]; split; [|done].
    intros Hx Hy; cbn in Hx, Hy |- *; rewrite Hx, Hy, !orb_false_r in Hor; by left. }
  destruct (want_stop (state t) || stopping (state t)) eqn:Ews; [by apply Hends|]; apply orb_false_iff in Ews as [Hws Hst].
  destruct ((get_le16 mgmt 27 =? _) && _).
  - destruct (response_received (state t)) eqn:Er; [by apply Hends; rewrite orb_true_r|]; rewrite andb_false_r in H2.
    set (s3 := update_session _ tid (fun t => set_buf_size t _)).
    assert (E3 : exists t3, session s3 tid = Some t3 /\ state t3 = set_response_received (state t) /\ pending t3 = pending t).
    { unfold s3; autorewrite with agg; rewrite !decide_True, E1 by done; by eexists. }
    destruct E3 as (t3 & E3 & Et3 & Ep3); assert (Ho3 : agg_others tid s3) by (by do 3 apply others_update; apply inv_others).
    set (s4 := if drv_ready (state t) then _ else s3).
    enough (H4' : agg_inv s4).
    { set (s5 := set_requests s4 _ _ _); assert (H5' : agg_inv s5) by (by apply (same_inv s4)); destruct (_ =? 0); [done|]; by apply update_other. }
    unfold s4; destruct (drv_ready (state t)) eqn:Ed.
    + eapply (operational_inv ev s3 tid t3); try done; try (rewrite Et3; done).
      cbn [view] in Hv; rewrite Hst, H2 in Hv; exact Hv.
    + apply (inv_one s3 _ tid); [done|apply Ho3|done|]; rewrite E3; split; [|split].
      * cbn [view] in Hv |- *; rewrite Et3; exact Hv.
      * intros ? [= <-]; unfold sess_ok, sess_ends; rewrite Et3, Ep3; cbn; rewrite Ed; split; [|done]; by split_and!.
      * intros x Hx; change (starting s3 tid) with (starting s tid) in Hx; by rewrite Hno in Hx.
  - apply sess_stop_inv; split; [by apply sizes_update|]; split; [by apply (others_update s tid); apply inv_others|].
    rewrite E1; split; [exact Hv|]; split; [by intros ? [= <-]|]; intros x Hx; change (starting s1 tid) with (starting s tid) in Hx; by rewrite Hno in Hx.
Qed.

(** *** The work item and the end of all sessions *)

Lemma work_tid_inv ev s tid : agg_inv s -> (tid < IEEE80211_NUM_TIDS)%nat -> agg_inv (work_tid hw ev s tid).
Proof.
  intros Hinv Hlt; unfold work_tid; set (s1 := work_rx ev s tid).
  assert (H1 : agg_inv s1) by (apply (same_inv s); [done| | |]; unfold s1, work_rx; by repeat case_match).
  clearbody s1; clear Hinv s; pose proof H1 as [Hs Hi]; destruct (Hi tid) as (Hv & Hk & Hst); destruct (starting s1 tid) as [t|] eqn:Es.
  - destruct (Hst t eq_refl) as (En & timeout & token & ->); set (s2 := assign_start s1 tid None); change (session s2 tid) with (session s1 tid); rewrite En.
    rewrite En in Hv; set (s3 := ieee80211_assign_tid_tx s2 tid _); apply (handle_start_inv ev s3 tid timeout token).
    + by apply sizes_assign, sizes_start.
    + intros x Hx; unfold s3, s2; rewrite session_assign by (left; cbn [assign_start tid_tx]; destruct Hs as [-> _]; done).
      rewrite decide_False by done; autorewrite with agg; rewrite starting_assign, decide_False by (done || by right); apply Hi.
    + unfold s3; rewrite session_assign, decide_True by (done || (left; cbn [s2 assign_start tid_tx]; destruct Hs as [-> _]; done)); done.
    + unfold s3, s2; autorewrite with agg; by rewrite starting_assign, decide_True by (done || by right).
    + exact Hv.
  - destruct (session s1 tid) as [t|] eqn:E; [|done]; destruct (want_stop (state t)); [|done]; apply sess_stop_inv.
    split; [by apply sizes_update|]; split; [by apply (others_update s1 tid); apply inv_others|].
    autorewrite with agg; rewrite decide_True, E, Es by done; cbn [fmap option_fmap option_map]; split; [exact Hv|]; split; [|done].
    intros ? [= <-]; by destruct (Hk t eq_refl).
Qed.

Lemma fold_tids_inv f s : (forall s tid, agg_inv s -> (tid < IEEE80211_NUM_TIDS)%nat -> agg_inv (f s tid)) -> agg_inv s ->
  agg_inv (fold_left f (seq 0 IEEE80211_NUM_TIDS) s).
Proof.
  intros Hf; assert (Hs : Forall (fun i => (i < IEEE80211_NUM_TIDS)%nat) (seq 0 IEEE80211_NUM_TIDS)) by (apply list.Forall_forall; intros x Hx; apply elem_of_seq in Hx; lia).
  revert s Hs; generalize (seq 0 IEEE80211_NUM_TIDS) as l; intros l; induction l as [|x l IH]; intros s Hs Hinv; [done|].
  apply Forall_cons_1 in Hs as [Hx Hs]; cbn [fold_left]; apply IH; [done|]; by apply Hf.
Qed.

Lemma work_inv ev s : agg_inv s -> agg_inv (ieee80211_ba_session_work hw ev s).
Proof. intros Hinv; unfold ieee80211_ba_session_work; destruct (block_ba _); [done|]; apply fold_tids_inv; [|done]; intros; by apply work_tid_inv. Qed.

Lemma tear_down_inv ev s reason : agg_inv s -> agg_inv (ieee80211_sta_tear_down_BA_sessions hw ev s reason).
Proof.
  intros Hinv; unfold ieee80211_sta_tear_down_BA_sessions; apply fold_tids_inv; [|by apply (same_inv s)]; intros s' tid H' _.
  apply (same_inv (___ieee80211_stop_tx_ba_session hw ev s' tid reason).1); [|done|done|done]; by apply sess_stop_inv, inv_weaken_at.
Qed.

Lemma delba_inv ev s mgmt : agg_inv s -> agg_inv (ieee80211_process_delba hw ev s mgmt).
Proof.
  intros Hinv; unfold ieee80211_process_delba; destruct (AggRx.ieee80211_process_delba _ _ _ _); [by apply (same_inv s)|]; by apply sess_stop_inv, inv_weaken_at.
Qed.

(** *** Frames *)

Lemma prep_inv ev s skb t tid s' skb' b : agg_inv s -> session s tid = Some t ->
  ieee80211_tx_prep_agg ev s skb t tid = (s', skb', b) -> agg_inv s'.
Proof.
  intros Hinv E; unfold ieee80211_tx_prep_agg; destruct (operational (state t)) eqn:Eo.
  { intros [= <- <- <-]; destruct (_ =? 0); [done|]; by apply update_other. }
  destruct (want_start _); [by intros [= <- <- <-]|]; set (pend := pending t ++ _).
  destruct (if bool_decide _ then _ else _) as [p g] eqn:Ep; intros [= <- <- <-]; set (s1 := update_session _ _ _).
  assert (H1 : agg_inv s1); [|by destruct g; [apply (same_inv s1)|]].
  apply update_inv; [done|]; intros t' Ht' (K1 & K2 & K3 & K4) K5; rewrite E in Ht'; injection Ht' as <-; split; [|by split].
  unfold sess_ok; cbn [set_pending state pending]; rewrite Eo in *; split_and!; try done.
  assert (Hl : length pend = (length (pending t) + 1)%nat) by (unfold pend; by rewrite length_app).
  case_bool_decide as B; injection Ep as <- <-; [|lia]; destruct pend; cbn [tail length] in *; lia.
Qed.

Lemma tx_inv ev s skb b : agg_inv s -> agg_inv (ieee80211_tx hw ev s skb b).1.
Proof.
  intros Hinv; unfold ieee80211_tx; set (r := match tid _ with Some _ => _ | None => _ end).
  assert (Hr : agg_inv r.1.1).
  { unfold r; destruct (tid _) as [x|]; [|done]; destruct (_ && _); [|done]; destruct (session s x) as [t|] eqn:E; [|done].
    destruct (ieee80211_tx_prep_agg ev s _ t x) as [[s' skb'] q] eqn:Ep; by apply prep_inv in Ep. }
  destruct r as [[s' skb'] []]; cbn [fst] in *; [done|]; destruct (TxQueue.ieee80211_tx_frags _ _ _ _) as [q ok]; by apply (same_inv s').
Qed.

(** ** Lemmas: where the frames are *)

Definition pend_of (o : option tid_ampdu_tx) : list sk_buff := match o with Some t => pending t | None => [] end.
Definition held (s : mlme) : list sk_buff := concat (pend_of <$> tid_tx s).

(** All frames: with the driver, dropped, on the queues of the device, in the
    sessions. *)
Definition frames (s : mlme) : list sk_buff :=
  TxQueue.sent (queue s) ++ TxQueue.freed (queue s) ++ concat (TxQueue.pending (queue s)) ++ held s.

(** Frames only change places. *)
Definition moved (s s' : mlme) : Prop :=
  frames s' ≡ₚ frames s /\ length (TxQueue.pending (queue s')) = length (TxQueue.pending (queue s)).

Lemma moved_refl s : moved s s. Proof. done. Qed.
Lemma moved_trans s1 s2 s3 : moved s1 s2 -> moved s2 s3 -> moved s1 s3.
Proof. intros [H1 H2] [H3 H4]; split; [by rewrite H3|congruence]. Qed.

Lemma concat_insert {A} (l : list (list A)) i p : (i < length l)%nat -> concat (<[i := p]> l) ++ default [] (l !! i) ≡ₚ concat l ++ p.
Proof.
  intros Hi; destruct (lookup_lt_is_Some_2 l i Hi) as [x Hx]; rewrite Hx; cbn [default].
  rewrite <- (take_drop_middle l i x Hx) at 2; rewrite insert_take_drop by done; rewrite !concat_app; cbn [concat].
  rewrite <- !app_assoc; apply Permutation_app_head; rewrite (Permutation_app_comm p), <- app_assoc, (Permutation_app_comm x), <- !app_assoc.
  apply Permutation_app_head, Permutation_app_comm.
Qed.

Lemma held_assign s tid o : (tid < length (tid_tx s))%nat -> held (ieee80211_assign_tid_tx s tid o) ++ pend_of (session s tid) ≡ₚ held s ++ pend_of o.
Proof.
  intros Hl; unfold held; cbn [ieee80211_assign_tid_tx tid_tx]; rewrite list_fmap_insert.
  assert (E : pend_of (session s tid) = default [] ((pend_of <$> tid_tx s) !! tid)) by (unfold session; rewrite list_lookup_fmap; by destruct (tid_tx s !! tid)).
  rewrite E; apply concat_insert; by rewrite length_fmap.
Qed.

Lemma moved_assign s tid o : pend_of (session s tid) = pend_of o -> moved s (ieee80211_assign_tid_tx s tid o).
Proof.
  intros Ho; split; [|done]; unfold frames; do 3 apply Permutation_app_head; destruct (decide (tid < length (tid_tx s))%nat) as [Hl|Hl].
  - apply (Permutation_app_inv_r (pend_of (session s tid))); rewrite held_assign by done; by rewrite Ho.
  - unfold held; cbn [ieee80211_assign_tid_tx tid_tx]; by rewrite list_insert_ge by lia.
Qed.

Lemma moved_update s tid f : (forall t, pending (f t) = pending t) -> moved s (update_session s tid f).
Proof. intros Hf; apply moved_assign; destruct (session s tid); cbn [fmap option_fmap option_map pend_of]; by rewrite ?Hf. Qed.

(** The queues of the device. *)
Definition same_frames (l l' : TxQueue.local) : Prop :=
  TxQueue.sent l' = TxQueue.sent l /\ TxQueue.freed l' = TxQueue.freed l /\ TxQueue.pending l' = TxQueue.pending l.

Lemma stop_same l q r : same_frames l (TxQueue.__ieee80211_stop_queue l q r).
Proof. unfold TxQueue.__ieee80211_stop_queue; case_bool_decide; [done|]; by destruct (Z.testbit _ _). Qed.
Lemma wake_same l q r : same_frames l (TxQueue.__ieee80211_wake_queue l q r).
Proof.
  unfold TxQueue.__ieee80211_wake_queue; case_bool_decide; [done|]; destruct (negb (Z.testbit _ _)); [done|]; destruct (negb _); [done|]; by case_bool_decide.
Qed.
Lemma driver_same os l : same_frames l (fold_left TxQueue.driver_op os l).
Proof.
  revert l; induction os as [|o os IH]; intros l; [done|]; cbn [fold_left]; destruct (IH (TxQueue.driver_op l o)) as (E1 & E2 & E3); unfold same_frames; rewrite E1, E2, E3.
  destruct o; [apply stop_same|apply wake_same].
Qed.

Lemma moved_queue s q refs : same_frames (queue s) q -> moved s (set_queue s q refs).
Proof. intros (E1 & E2 & E3); split; unfold frames; cbn [set_queue queue]; rewrite ?E1, ?E2, E3; done. Qed.

Lemma moved_stop_agg s tid : moved s (ieee80211_stop_queue_agg hw s tid).
Proof. apply moved_queue; destruct (_ =? 1); [apply stop_same|done]. Qed.
Lemma moved_wake_agg s tid : moved s (ieee80211_wake_queue_agg hw s tid).
Proof. apply moved_queue; destruct (_ =? 0); [apply wake_same|done]. Qed.

Context (Hqueues : Forall (fun q => (q < TxQueue.IEEE80211_MAX_QUEUES)%nat) (vif_hw_queue hw)).

Lemma queue_of_bound tid : (queue_of hw tid < TxQueue.IEEE80211_MAX_QUEUES)%nat.
Proof.
  unfold queue_of; destruct (vif_hw_queue hw !! ieee80211_ac_from_tid tid) as [q|] eqn:E; cbn [default]; [|unfold TxQueue.IEEE80211_MAX_QUEUES; lia].
  by eapply Forall_lookup_1 in Hqueues.
Qed.

Definition queues_ok (s : mlme) : Prop := length (TxQueue.pending (queue s)) = TxQueue.IEEE80211_MAX_QUEUES.

Lemma moved_splice s tid : queues_ok s -> (tid < length (tid_tx s))%nat \/ session s tid = None -> moved s (ieee80211_agg_splice_packets hw s tid).
Proof.
  intros Hq Hlt; unfold ieee80211_agg_splice_packets; set (s1 := ieee80211_stop_queue_agg hw s tid).
  pose proof (moved_stop_agg s tid) as H1; fold s1 in H1; destruct (session s1 tid) as [t|] eqn:E; [case_bool_decide; [done|]|done].
  destruct Hlt as [Hlt|Hlt]; [|change (session s1 tid) with (session s tid) in E; by rewrite Hlt in E].
  eapply moved_trans; [exact H1|]; split; [|by cbn [set_queue queue TxQueue.set_pending TxQueue.pending]; rewrite length_insert].
  assert (Hq1 : length (TxQueue.pending (queue s1)) = TxQueue.IEEE80211_MAX_QUEUES) by (destruct H1 as [_ ->]; exact Hq).
  unfold frames; cbn [set_queue queue TxQueue.set_pending TxQueue.sent TxQueue.freed TxQueue.pending update_session ieee80211_assign_tid_tx].
  do 2 apply Permutation_app_head; set (w := TxQueue.waiting (queue s1) (queue_of hw tid)).
  pose proof (concat_insert (TxQueue.pending (queue s1)) (queue_of hw tid) (w ++ pending t)) as Hc; fold (TxQueue.waiting (queue s1) (queue_of hw tid)) in Hc; fold w in Hc.
  specialize (Hc ltac:(rewrite Hq1; apply queue_of_bound)).
  pose proof (held_assign s1 tid ((fun t => set_pending t []) <$> session s1 tid) Hlt) as Hh; rewrite E in Hh; cbn [fmap option_fmap option_map pend_of set_pending pending] in Hh.
  rewrite app_nil_r in Hh; change (held (set_queue _ _ _)) with (held (ieee80211_assign_tid_tx s1 tid ((fun t => set_pending t []) <$> session s1 tid))).
  rewrite E; cbn [fmap option_fmap option_map]; apply (Permutation_app_inv_r (pending t ++ w)).
  set (A := concat (<[_ := _]> _)) in *; set (B := held (ieee80211_assign_tid_tx s1 tid _)) in *; set (C := concat (TxQueue.pending _)) in *.
  transitivity ((A ++ w) ++ (B ++ pending t)); [solve_Permutation|]; rewrite Hh; change (default [] _) with w in Hc; rewrite Hc; solve_Permutation.
Qed.

Lemma in_or_none s tid : sizes s -> (tid < length (tid_tx s))%nat \/ session s tid = None.
Proof. intros Hs; destruct (session s tid) as [t|] eqn:E; [left|by right]; rewrite (proj1 Hs); by eapply session_in. Qed.

Lemma moved_remove s tid : queues_ok s -> sizes s -> moved s (ieee80211_remove_tid_tx hw s tid).
Proof.
  intros Hq Hs; unfold ieee80211_remove_tid_tx; set (s1 := ieee80211_agg_splice_packets hw s tid).
  eapply moved_trans; [by apply moved_splice, in_or_none|]; eapply moved_trans; [|apply moved_wake_agg]; apply moved_assign.
  unfold s1; rewrite session_splice, decide_True by done; by destruct (session s tid).
Qed.

Lemma queues_moved s s' : moved s s' -> queues_ok s -> queues_ok s'.
Proof. intros [_ H1] H2; unfold queues_ok; by rewrite H1. Qed.

Lemma stop_moved ev s tid reason : queues_ok s -> agg_weak tid s -> moved s (___ieee80211_stop_tx_ba_session hw ev s tid reason).1.
Proof.
  intros Hq (Hs & _ & Hi); unfold ___ieee80211_stop_tx_ba_session, drv_ampdu_action; destruct (session s tid) as [t|] eqn:E; [|done].
  destruct Hi as (_ & Hk & _); destruct (Hk t eq_refl) as [(Hws & _) _]; destruct (stopping _).
  - case_bool_decide; [done|]; destruct (drv ev _ _ _ _); by apply (moved_remove (log s tid _)).
  - rewrite Hws; set (s4 := update_session _ tid (fun t => set_stop t _ _)); destruct (drv ev _ _ _ _) as [ret ssn]; cbn [fst].
    assert (H4 : moved s s4) by (unfold s4; do 3 (eapply moved_trans; [|by apply moved_update]); by apply moved_update).
    case_bool_decide; [|exact H4]; eapply moved_trans; [exact H4|]; apply (moved_remove (log s4 tid _)); [by apply (queues_moved s)|].
    by apply sizes_update, sizes_update, sizes_update, sizes_update.
Qed.

Lemma api_stop_moved s tid : moved s (ieee80211_stop_tx_ba_session hw s tid).1.
Proof.
  unfold ieee80211_stop_tx_ba_session; destruct (negb _); [done|]; case_bool_decide; [done|]; destruct (session s tid); [|done].
  destruct (stopping _); [done|]; by apply (moved_update s tid).
Qed.

Lemma api_start_moved ev s tid timeout : moved s (ieee80211_start_tx_ba_session hw ev s tid timeout).1.
Proof. unfold ieee80211_start_tx_ba_session; by repeat match goal with |- moved _ (if ?b then _ else _).1 => destruct b; [done|] end. Qed.

Lemma fire_moved get clear handler s tid : (forall t, pending (clear t) = pending t) -> (forall s, moved s (handler s tid)) -> moved s (fire get clear handler s tid).
Proof. intros Hc Hh; unfold fire; destruct (mbind _ _); [|done]; eapply moved_trans; [by apply (moved_update s tid clear)|done]. Qed.

Lemma addba_timer_moved s tid : moved s (sta_addba_resp_timer_expired hw s tid).
Proof. unfold sta_addba_resp_timer_expired; destruct (session s tid); [|done]; destruct (response_received _); [done|]; apply api_stop_moved. Qed.

Lemma session_timer_moved ev s tid : moved s (sta_tx_agg_session_timer_expired hw ev s tid).
Proof.
  unfold sta_tx_agg_session_timer_expired; destruct (session s tid); [|done]; destruct (stopping _); [done|]; destruct (Reorder.time_after _ _); [|apply api_stop_moved].
  by apply moved_update.
Qed.

Lemma handle_start_moved ev s tid : queues_ok s -> sizes s -> moved s (ieee80211_tx_ba_session_handle_start hw ev s tid).
Proof.
  intros Hq Hs; unfold ieee80211_tx_ba_session_handle_start, drv_ampdu_action; set (s1 := update_session _ _ _); assert (H1 : moved s s1) by (by apply moved_update).
  destruct (drv ev _ _ _ _) as [ret ssn]; set (s2 := log s1 tid _); destruct (ret =? 0); cbn [negb].
  - set (s3 := update_session s2 _ _); set (s4 := set_requests _ _ _ _); assert (H4 : moved s s4) by (eapply moved_trans; [exact H1|]; by apply (moved_update s2 tid)).
    destruct (session s4 tid); [|done]; unfold ieee80211_send_addba_request; by destruct (negb _).
  - eapply moved_trans; [exact H1|]; apply (moved_remove s2 tid); [by apply (queues_moved s)|by apply sizes_update].
Qed.

Lemma operational_moved ev s tid : queues_ok s -> sizes s -> moved s (ieee80211_agg_tx_operational hw ev s tid).
Proof.
  intros Hq Hs; unfold ieee80211_agg_tx_operational, drv_ampdu_action; destruct (drv ev _ _ _ _) as [ret ssn]; set (s1 := log s tid _).
  eapply moved_trans; [apply (moved_splice s1 tid); [done|by apply in_or_none]|]; eapply moved_trans; [by apply (moved_update _ tid (fun t => set_bits t (set_operational true (state t))))|apply moved_wake_agg].
Qed.

Lemma start_cb_moved ev s tid : queues_ok s -> sizes s -> moved s (ieee80211_start_tx_ba_cb hw ev s tid).
Proof.
  intros Hq Hs; unfold ieee80211_start_tx_ba_cb; case_bool_decide; [done|]; destruct (session s tid); [|done]; set (s1 := update_session _ _ _).
  assert (H1 : moved s s1) by (by apply moved_update); destruct (drv_ready _); [done|]; destruct (response_received _); [|done].
  eapply moved_trans; [exact H1|]; apply operational_moved; [by apply (queues_moved s)|by apply sizes_update].
Qed.

Lemma stop_cb_moved ev s ra tid : queues_ok s -> sizes s -> moved s (ieee80211_stop_tx_ba_cb hw ev s ra tid).
Proof.
  intros Hq Hs; unfold ieee80211_stop_tx_ba_cb; case_bool_decide; [done|]; destruct (session s tid); [|done]; destruct (negb _); [done|].
  set (s2 := if _ : bool then _ else log s tid StopReported); assert (H2 : moved s s2 /\ sizes s2) by (unfold s2; by case_match).
  destruct H2; eapply moved_trans; [done|]; apply moved_remove; [by apply (queues_moved s)|done].
Qed.

Lemma addba_resp_moved ev s mgmt : queues_ok s -> agg_inv s -> moved s (ieee80211_process_addba_resp hw ev s mgmt).
Proof.
  intros Hq Hinv; pose proof Hinv as [Hs Hi]; unfold ieee80211_process_addba_resp; set (tid := Z.to_nat _); destruct (session s tid) as [t|] eqn:E; [|done].
  destruct (negb _); [done|]; set (s1 := update_session s tid _); assert (H1 : moved s s1) by (by apply moved_update).
  destruct (_ || _); [done|]; destruct (_ && _).
  - destruct (response_received _); [done|]; set (s3 := update_session _ tid (fun t => set_buf_size t _)).
    assert (H3 : moved s s3) by (eapply moved_trans; [exact H1|]; eapply moved_trans; by apply moved_update).
    set (s4 := if drv_ready (state t) then _ else s3).
    assert (H4 : moved s s4).
    { unfold s4; destruct (drv_ready _); [|done]; eapply moved_trans; [exact H3|]; apply operational_moved; [by apply (queues_moved s)|].
      by do 3 apply sizes_update. }
    destruct (timeout t =? 0); [done|]; eapply moved_trans; [exact H4|]; by apply (moved_update (set_requests s4 _ _ _) tid).
  - eapply moved_trans; [exact H1|]; apply stop_moved; [by apply (queues_moved s)|]; split; [by apply sizes_update|].
    split; [by apply (others_update s tid), inv_others|]; destruct (Hi tid) as (Hv & Hk & Hst); unfold s1; autorewrite with agg; rewrite decide_True, E in * by done.
    cbn [fmap option_fmap option_map]; split; [exact Hv|]; split; [intros ? [= <-]; split; [by destruct (Hk t eq_refl)|done]|].
    intros x Hx; by destruct (Hst x Hx).
Qed.

Lemma work_tid_moved ev s tid : queues_ok s -> agg_inv s -> (tid < IEEE80211_NUM_TIDS)%nat -> moved s (work_tid hw ev s tid).
Proof.
  intros Hq Hinv Hlt; unfold work_tid; set (s1 := work_rx ev s tid); assert (H1 : moved s s1 /\ agg_inv s1).
  { split; [unfold s1, work_rx; by repeat case_match|]; apply (same_inv s); [done| | |]; unfold s1, work_rx; by repeat case_match. }
  destruct H1 as [H1 Hi1]; eapply moved_trans; [exact H1|]; pose proof (queues_moved _ _ H1 Hq) as Hq1; clearbody s1; pose proof Hi1 as [Hs Hi].
  destruct (Hi tid) as (Hv & Hk & Hst); destruct (starting s1 tid) as [t|] eqn:Es.
  - destruct (Hst t eq_refl) as (En & timeout & token & ->); set (s2 := assign_start s1 tid None); change (session s2 tid) with (session s1 tid); rewrite En.
    eapply moved_trans; [apply (moved_assign s2 tid (Some (new_session timeout token))); change (session s2 tid) with (session s1 tid); by rewrite En|].
    apply handle_start_moved; [done|by apply sizes_assign, sizes_start].
  - destruct (session s1 tid) as [t|] eqn:E; [|done]; destruct (want_stop (state t)); [|done]; eapply moved_trans; [by apply (moved_update s1 tid (fun t => set_bits t (set_want_stop false (state t))))|].
    apply stop_moved; [done|]; split; [by apply sizes_update|]; split; [by apply (others_update s1 tid), inv_others|].
    autorewrite with agg; rewrite decide_True, E, Es by done; cbn [fmap option_fmap option_map]; split; [exact Hv|]; split; [|done].
    intros ? [= <-]; by destruct (Hk t eq_refl).
Qed.

Lemma fold_tids_moved f s : (forall s tid, queues_ok s -> agg_inv s -> (tid < IEEE80211_NUM_TIDS)%nat -> moved s (f s tid) /\ agg_inv (f s tid)) ->
  queues_ok s -> agg_inv s -> moved s (fold_left f (seq 0 IEEE80211_NUM_TIDS) s).
Proof.
  intros Hf; assert (Hs : Forall (fun i => (i < IEEE80211_NUM_TIDS)%nat) (seq 0 IEEE80211_NUM_TIDS)) by (apply list.Forall_forall; intros x Hx; apply elem_of_seq in Hx; lia).
  revert s Hs; generalize (seq 0 IEEE80211_NUM_TIDS) as l; intros l; induction l as [|x l IH]; intros s Hs Hq Hinv; [done|].
  apply Forall_cons_1 in Hs as [Hx Hs]; cbn [fold_left]; destruct (Hf s x Hq Hinv Hx) as [H1 H2]; eapply moved_trans; [exact H1|].
  apply IH; [done|by apply (queues_moved s)|done].
Qed.

Lemma work_moved ev s : queues_ok s -> agg_inv s -> moved s (ieee80211_ba_session_work hw ev s).
Proof.
  intros Hq Hinv; unfold ieee80211_ba_session_work; destruct (block_ba _); [done|]; apply fold_tids_moved; [|done..].
  intros; split; [by apply work_tid_moved|by apply work_tid_inv].
Qed.

Lemma tear_down_moved ev s reason : queues_ok s -> agg_inv s -> moved s (ieee80211_sta_tear_down_BA_sessions hw ev s reason).
Proof.
  intros Hq Hinv; unfold ieee80211_sta_tear_down_BA_sessions; apply (fold_tids_moved _ (set_work s false)); [|done|by apply (same_inv s)].
  intros s' tid Hq' H' _; split; [by apply stop_moved, inv_weaken_at|].
  apply (same_inv (___ieee80211_stop_tx_ba_session hw ev s' tid reason).1); [by apply sess_stop_inv, inv_weaken_at|done|done|done].
Qed.

Lemma delba_moved ev s mgmt : queues_ok s -> agg_inv s -> moved s (ieee80211_process_delba hw ev s mgmt).
Proof.
  intros Hq Hinv; unfold ieee80211_process_delba; destruct (AggRx.ieee80211_process_delba _ _ _ _); [done|]; by apply stop_moved, inv_weaken_at.
Qed.

(** *** Sending *)

Definition on_device (l : TxQueue.local) : list sk_buff := TxQueue.sent l ++ TxQueue.freed l ++ concat (TxQueue.pending l).

Lemma frames_split s : frames s = on_device (queue s) ++ held s.
Proof. unfold frames, on_device; by rewrite <- !app_assoc. Qed.

Lemma on_device_put l q p : (q < length (TxQueue.pending l))%nat -> on_device (TxQueue.set_pending l q p) ++ TxQueue.waiting l q ≡ₚ on_device l ++ p.
Proof.
  intros Hq; unfold on_device; cbn [TxQueue.set_pending TxQueue.sent TxQueue.freed TxQueue.pending]; rewrite <- !app_assoc.
  do 2 apply Permutation_app_head; by apply concat_insert.
Qed.

Lemma tx_frags_one drv b skb l : (TxQueue.hw_queue skb < length (TxQueue.pending l))%nat ->
  let r := TxQueue.ieee80211_tx_frags drv b [skb] l in
  on_device r.1 ≡ₚ on_device l ++ [skb] /\ length (TxQueue.pending r.1) = length (TxQueue.pending l) /\ (r.2 = true -> TxQueue.pending r.1 = TxQueue.pending l).
Proof.
  intros Hq; cbn [TxQueue.ieee80211_tx_frags]; destruct (_ || _); cbn [fst snd].
  - split; [|split; [cbn [TxQueue.set_pending TxQueue.pending]; by rewrite length_insert|done]].
    set (w := TxQueue.waiting l _); apply (Permutation_app_inv_r w); etransitivity; [by apply on_device_put|]; destruct b; fold w; solve_Permutation.
  - unfold TxQueue.drv_tx; destruct (driver_same (drv (TxQueue.sent l) skb) (TxQueue.add_sent l skb)) as (E1 & E2 & E3).
    unfold on_device; rewrite E1, E2, E3; cbn [TxQueue.add_sent TxQueue.sent TxQueue.freed TxQueue.pending]; split; [solve_Permutation|done].
Qed.

Definition queue_ok (f : sk_buff) : Prop := (TxQueue.hw_queue f < TxQueue.IEEE80211_MAX_QUEUES)%nat.

(** The state is in order, and the frames in it with those of [fl] are those
    given so far. *)
Record cons (given : list Z) (fl : list sk_buff) (s : mlme) : Prop := Cons {
  c_inv : agg_inv s; c_queues : queues_ok s; c_ok : Forall queue_ok (frames s ++ fl); c_ids : frame_id <$> (frames s ++ fl) ≡ₚ given }.

Lemma cons_moved given fl s s' : cons given fl s -> moved s s' -> agg_inv s' -> cons given fl s'.
Proof.
  intros [H1 H2 H3 H4] Hm Hi; constructor; [done|by apply (queues_moved s)| |]; destruct Hm as [Hm _]; by rewrite Hm.
Qed.

(** A frame that is put somewhere, perhaps with other flags. *)
Lemma cons_placed given skb skb' s s' : cons given [skb] s -> frames s' ≡ₚ frames s ++ [skb'] -> frame_id skb' = frame_id skb -> queue_ok skb' ->
  queues_ok s' -> agg_inv s' -> cons given [] s'.
Proof.
  intros [H1 H2 H3 H4] Hf Hid Hok Hq Hi; constructor; [done|done| |]; rewrite app_nil_r, Hf.
  - apply Forall_app in H3 as [H3 _]; apply Forall_app; split; [done|]; by constructor.
  - rewrite <- H4, !fmap_app; cbn [fmap list_fmap]; by rewrite Hid.
Qed.

Lemma put_queue_inv s q : agg_inv s -> agg_inv (put_queue q s). Proof. intros; by apply (same_inv s). Qed.

Lemma send_cons ev b given skb skb' s : cons given [skb] s -> frame_id skb' = frame_id skb -> queue_ok skb' ->
  let r := TxQueue.ieee80211_tx_frags (driver ev) b [skb'] (queue s) in
  cons given [] (put_queue r.1 s) /\ (r.2 = true -> TxQueue.pending r.1 = TxQueue.pending (queue s)).
Proof.
  intros Hc Hid Hok; pose proof Hc as [H1 H2 H3 H4]; destruct (tx_frags_one (driver ev) b skb' (queue s)) as (Hf & Hl & Hp); [by rewrite H2|].
  split; [|done]; apply (cons_placed given skb skb' s); [done| |done|done|by unfold queues_ok; cbn [put_queue set_queue queue]; rewrite Hl|by apply put_queue_inv].
  rewrite !frames_split; change (held (put_queue _ s)) with (held s); cbn [put_queue set_queue queue]; rewrite Hf; solve_Permutation.
Qed.

(** Either the frame goes on, with the state as it was but for the sessions, or
    it is held. *)
Lemma prep_cons ev s skb t x given s' skb' b : cons given [skb] s -> session s x = Some t ->
  ieee80211_tx_prep_agg ev s skb t x = (s', skb', b) ->
  frame_id skb' = frame_id skb /\ TxQueue.hw_queue skb' = TxQueue.hw_queue skb /\ tid skb' = tid skb /\
  TxQueue.pending (queue s') = TxQueue.pending (queue s) /\
  if b then cons given [] s' else cons given [skb] s'.
Proof.
  intros Hc E Ep; pose proof Hc as [H1 H2 H3 H4]; pose proof (prep_inv ev s skb t x s' skb' b H1 E Ep) as Hi; revert Ep; unfold ieee80211_tx_prep_agg.
  destruct (operational (state t)); [|destruct (want_start _)].
  - intros [= <- <- <-]; destruct (_ =? 0); do 3 (split; [done|]); (split; [done|]); [done|]; apply (cons_moved _ _ s); [done|by apply moved_update|done].
  - by intros [= <- <- <-].
  - set (skb1 := with_flags skb true (ctl_ampdu skb)); set (pend := pending t ++ [skb1]).
    destruct (if bool_decide _ then _ else _) as [p g] eqn:Ep; intros [= <- <- <-]; set (s1 := update_session _ _ _) in *.
    do 3 (split; [done|]); split; [by destruct g|]; apply (cons_placed given skb skb1 s); [done| |done| | |done].
    + assert (Hs1 : held s1 ++ pending t ≡ₚ held s ++ p).
      { assert (Es1 : s1 = ieee80211_assign_tid_tx s x (Some (set_pending t p))) by (unfold s1, update_session; by rewrite E).
        rewrite Es1; pose proof (held_assign s x (Some (set_pending t p))) as Hh; rewrite E in Hh; apply Hh; rewrite (proj1 (proj1 H1)); by eapply session_in; [apply H1|]. }
      assert (Hp : p ++ (match g with Some y => [y] | None => [] end) ≡ₚ pend).
      { revert Ep; case_bool_decide; intros [= <- <-]; [|by rewrite app_nil_r]; destruct pend as [|y pend']; [done|]; cbn [tail head]; by rewrite Permutation_app_comm. }
      apply (Permutation_app_inv_r (pending t)).
      transitivity (on_device (queue s) ++ (match g with Some y => [y] | None => [] end) ++ (held s1 ++ pending t)).
      { rewrite frames_split; destruct g as [y|]; [|solve_Permutation].
        cbn [set_queue queue]; change (held (set_queue _ _ _)) with (held s1); unfold on_device at 1; cbn [TxQueue.ieee80211_free_txskb TxQueue.sent TxQueue.freed TxQueue.pending].
        change (queue s1) with (queue s); unfold on_device; solve_Permutation. }
      rewrite Hs1, frames_split; transitivity (on_device (queue s) ++ held s ++ (p ++ match g with Some y => [y] | None => [] end)); [solve_Permutation|].
      rewrite Hp; unfold pend; solve_Permutation.
    + by apply Forall_app in H3 as [_ [H3 _]%Forall_cons_1].
    + destruct g; exact H2.
Qed.

Lemma tx_cons ev s skb b given : cons given [skb] s ->
  let r := ieee80211_tx hw ev s skb b in
  cons given [] r.1 /\ (r.2 = true -> TxQueue.pending (queue r.1) = TxQueue.pending (queue s)).
Proof.
  intros Hc; unfold ieee80211_tx; set (skb1 := with_flags skb false (ctl_ampdu skb)).
  assert (Hc1 : cons given [skb1] s).
  { destruct Hc as [H1 H2 H3 H4]; constructor; [done|done| |]; [apply Forall_app in H3 as [H3 [H5 _]%Forall_cons_1]; apply Forall_app; split; [done|by constructor]|].
    rewrite <- H4, !fmap_app; done. }
  set (r := match tid skb1 with Some _ => _ | None => _ end).
  assert (Hr : frame_id r.1.2 = frame_id skb /\ queue_ok r.1.2 /\ TxQueue.pending (queue r.1.1) = TxQueue.pending (queue s) /\
    if r.2 then cons given [] r.1.1 else cons given [skb1] r.1.1).
  { assert (Hok : queue_ok skb1) by (by destruct Hc1 as [_ _ [_ [H _]%Forall_cons_1]%Forall_app _]).
    unfold r; destruct (tid skb1) as [x|]; [|done]; destruct (_ && _); [|done]; destruct (session s x) as [t|] eqn:E; [|done].
    destruct (ieee80211_tx_prep_agg ev s skb1 t x) as [[s' skb'] q] eqn:Ep; destruct (prep_cons ev s skb1 t x given s' skb' q Hc1 E Ep) as (K1 & K2 & K3 & K4 & K5).
    cbn [fst snd]; split; [done|]; split; [unfold queue_ok; by rewrite K2|done]. }
  destruct r as [[s' skb'] []]; cbn [fst snd] in *; destruct Hr as (K1 & K2 & K3 & K4); [done|].
  set (skb2 := TxQueue.Skb _ _ _ _ _ _); assert (Hok2 : queue_ok skb2) by (unfold queue_ok, skb2; cbn [TxQueue.hw_queue]; destruct (tid skb'); [apply queue_of_bound|done]).
  destruct (send_cons ev b given skb1 skb2 s' K4 K1 Hok2) as [H1 H2]; destruct (TxQueue.ieee80211_tx_frags _ _ _ _) as [q ok]; cbn [fst snd] in *.
  split; [done|]; intros Hb; cbn [set_queue queue]; by rewrite H2.
Qed.

Lemma pending_cons ev given s : cons given [] s -> exists s', ieee80211_tx_pending hw ev s = Some s' /\ cons given [] s'.
Proof.
  unfold ieee80211_tx_pending; apply (TxQueue.tx_pending_rule queue put_queue (ieee80211_tx_pending_skb hw ev) (cons given)).
  - done.
  - intros s' i skb rest E [H1 H2 H3 H4]; unfold TxQueue.update.
    assert (Hi : (i < length (TxQueue.pending (queue s')))%nat).
    { destruct (decide (i < length (TxQueue.pending (queue s')))%nat); [done|]; unfold TxQueue.waiting in E; by rewrite lookup_ge_None_2 in E by lia. }
    assert (Hf : frames (put_queue (TxQueue.set_pending (queue s') i rest) s') ++ [skb] ≡ₚ frames s').
    { pose proof (on_device_put (queue s') i rest Hi) as Hd; rewrite E in Hd; rewrite !frames_split; cbn [put_queue set_queue queue].
      apply (Permutation_app_inv_r rest); change (held (put_queue _ _)) with (held s'); set (A := on_device (TxQueue.set_pending _ _ _)) in *.
      transitivity ((A ++ skb :: rest) ++ held s'); [solve_Permutation|]; rewrite Hd; solve_Permutation. }
    rewrite app_nil_r in H3, H4; constructor; [by apply put_queue_inv|unfold queues_ok; cbn [put_queue set_queue queue TxQueue.set_pending TxQueue.pending]; by rewrite length_insert| |]; by rewrite Hf.
  - intros s' skb Hc; apply (cons_placed given skb skb s'); [done| |done| |by destruct Hc|by apply put_queue_inv; destruct Hc].
    + rewrite !frames_split; cbn [TxQueue.update put_queue set_queue queue]; change (held (TxQueue.update _ _ _ _)) with (held s'); unfold on_device.
      cbn [TxQueue.ieee80211_free_txskb TxQueue.sent TxQueue.freed TxQueue.pending]; solve_Permutation.
    + by destruct Hc as [_ _ [_ [H _]%Forall_cons_1]%Forall_app _].
  - intros s' skb s2 ok; unfold ieee80211_tx_pending_skb; destruct (need_txprocessing skb).
    + intros E Hc; destruct (tx_cons ev s' skb true given Hc) as [K1 K2]; rewrite E in *; split; [done|]; intros Hb i; unfold TxQueue.waiting; cbn [fst snd] in *; by rewrite K2.
    + intros E Hc; assert (Hok : queue_ok skb) by (by destruct Hc as [_ _ [_ [H _]%Forall_cons_1]%Forall_app _]).
      destruct (send_cons ev true given skb skb s' Hc eq_refl Hok) as [K1 K2]; destruct (TxQueue.ieee80211_tx_frags _ _ _ _) as [q b]; injection E as <- <-; cbn [fst snd] in *.
      split; [done|]; intros Hb i; unfold TxQueue.waiting; cbn [set_queue queue]; by rewrite K2.
  - intros s' i Hc; apply (cons_moved _ _ s'); [done|by apply moved_queue|by apply put_queue_inv; destruct Hc].
  - intros s' Hc; apply (cons_moved _ _ s'); [done|by apply moved_queue|by apply put_queue_inv; destruct Hc].
Qed.
(** *** Any step *)

(** What a step gives the state: the frame of the host. *)
Definition given_by (o : op) : list Z := match o with OTx skb => [frame_id skb] | _ => [] end.

(** The frames of the host are for a queue of the device. *)
Definition op_ok (o : op) : Prop := match o with OTx skb => queue_ok skb | _ => True end.

Lemma put_moved q s : same_frames (queue s) q -> moved s (put_queue q s). Proof. apply moved_queue. Qed.

(** Both at once, for the operations that change the sessions. *)
Lemma step_keeps ev o s : agg_inv s -> queues_ok s -> timely s o -> match o with OTx _ | OPending => False | _ => True end ->
  exists s', step hw ev o s = Some s' /\ agg_inv s' /\ moved s s'.
Proof.
  intros Hi Hq Ht; pose proof Hi as [Hs _]; destruct o; intros Ho; try done; cbn [step]; eexists; (split; [reflexivity|]).
  - split; [by apply api_start_inv|apply api_start_moved].
  - split; [by apply api_stop_inv|apply api_stop_moved].
  - destruct (AggRx.ba_work _); [|done]; assert (H1 : agg_inv (set_work s false)) by (by apply (same_inv s)).
    split; [by apply work_inv|]; by apply (work_moved ev (set_work s false)).
  - split; [by apply start_cb_inv|by apply start_cb_moved].
  - split; [by apply stop_cb_inv|by apply stop_cb_moved].
  - split; [by apply addba_timer_inv|]; apply fire_moved; [done|intros; apply addba_timer_moved].
  - split; [by apply session_timer_inv|]; apply fire_moved; [done|intros; apply session_timer_moved].
  - split; [by apply addba_resp_inv|by apply addba_resp_moved].
  - split; [by apply delba_inv|by apply delba_moved].
  - split; [by apply tear_down_inv|by apply tear_down_moved].
  - split; [by apply (same_inv s)|done].
  - unfold ieee80211_check_pending_bar; destruct (session s _) as [t|]; [|done]; destruct (negb _); [done|]; set (s1 := update_session _ _ _).
    assert (H1 : agg_inv s1 /\ moved s s1) by (split; [by apply update_other|by apply moved_update]).
    unfold ieee80211_send_bar; destruct (negb _); [done|]; destruct H1; split; [by apply (same_inv s1)|done].
  - split; [by apply update_other|by apply moved_update].
  - split; [by apply put_queue_inv|]; apply put_moved; destruct o; [apply stop_same|apply wake_same].
Qed.

Lemma step_cons ev o s given : cons given [] s -> timely s o -> op_ok o -> exists s', step hw ev o s = Some s' /\ cons (given_by o ++ given) [] s'.
Proof.
  intros Hc Ht Ho; assert (Hk : (exists skb, o = OTx skb) \/ o = OPending \/ match o with OTx _ | OPending => False | _ => True end) by (destruct o; eauto).
  destruct Hk as [[skb ->]|[ -> |Hk]].
  - eexists; split; [reflexivity|]; cbn [given_by app op_ok] in *.
    assert (Hc' : cons (frame_id skb :: given) [skb] s); [|by destruct (tx_cons ev s skb false _ Hc')].
    destruct Hc as [H1 H2 H3 H4]; rewrite app_nil_r in *; constructor; [done|done|apply Forall_app; split; [done|by constructor]|].
    rewrite fmap_app, H4; cbn [fmap list_fmap]; by rewrite Permutation_app_comm.
  - cbn [given_by app step]; by apply pending_cons.
  - destruct Hc as [H1 H2 H3 H4]; destruct (step_keeps ev o s H1 H2 Ht Hk) as (s' & E & Hi & Hm); exists s'; split; [done|].
    assert (Hg : given_by o = []) by (destruct o; done); rewrite Hg; by apply (cons_moved _ _ s).
Qed.

(** A run whose start reports come in time. *)
Fixpoint timely_run (os : list (env * op)) (s : mlme) : Prop :=
  match os with
  | [] => True
  | (ev, o) :: os => timely s o /\ match step hw ev o s with Some s' => timely_run os s' | None => True end
  end.

Definition submitted (os : list (env * op)) : list Z := concat ((fun p => given_by p.2) <$> os).

Lemma run_cons os s given : cons given [] s -> Forall (fun p => op_ok p.2) os -> timely_run os s ->
  exists s', run hw os s = Some s' /\ cons (submitted os ++ given) [] s'.
Proof.
  revert s given; induction os as [|[ev o] os IH]; intros s given Hc Ho Ht; [by exists s|].
  apply Forall_cons_1 in Ho as [Ho Hos]; cbn [timely_run run] in *; destruct Ht as [Ht Hr], (step_cons ev o s given Hc Ht Ho) as (s1 & E & Hc1).
  rewrite E in *; cbn [mbind option_bind]; destruct (IH s1 _ Hc1 Hos Hr) as (s' & E' & Hc'); exists s'; split; [done|].
  destruct Hc' as [H1 H2 H3 H4]; constructor; try done; rewrite H4; unfold submitted; cbn [fmap list_fmap concat snd]; solve_Permutation.
Qed.
(** *** One frame *)

(** A frame that is held: the oldest goes when there are too many. *)
Lemma prep_held ev s skb t x : session s x = Some t -> operational (state t) = false -> want_start (state t) = false ->
  (length (pending t) <= STA_MAX_TX_BUFFER)%nat ->
  exists s' t' gone, ieee80211_tx_prep_agg ev s skb t x = (s', with_flags skb true (ctl_ampdu skb), true) /\ session s' x = Some t' /\
    gone ++ pending t' = pending t ++ [with_flags skb true (ctl_ampdu skb)] /\ (gone = [] \/ length (pending t') = STA_MAX_TX_BUFFER) /\
    TxQueue.sent (queue s') = TxQueue.sent (queue s) /\ TxQueue.pending (queue s') = TxQueue.pending (queue s) /\ TxQueue.freed (queue s') = TxQueue.freed (queue s) ++ gone.
Proof.
  intros E H1 H2 Hl; unfold ieee80211_tx_prep_agg; rewrite H1, H2; set (skb' := with_flags _ _ _); remember (pending t ++ [skb']) as pend eqn:Epend.
  assert (Hp : length pend = (length (pending t) + 1)%nat) by (by rewrite Epend, length_app).
  assert (Es : forall p, session (update_session s x (fun t => set_pending t p)) x = Some (set_pending t p)) by (intros; rewrite session_update, decide_True, E; done).
  case_bool_decide as B.
  - destruct pend as [|y pend']; [cbn [length] in Hp; lia|]; cbn [tail head]; eexists _, (set_pending t pend'), [y]; split; [reflexivity|]; split; [apply Es|].
    cbn [length set_pending pending] in *; split_and!; try done; right; lia.
  - eexists _, (set_pending t pend), []; split; [reflexivity|]; split; [apply Es|]; cbn [set_pending pending]; split_and!; try done; [by left|].
    cbn [update_session ieee80211_assign_tid_tx queue]; by rewrite app_nil_r.
Qed.

(** A frame that goes on to the device. *)
Definition to_device (ev : env) (s : mlme) (skb : sk_buff) (x : nat) (ampdu : bool) (s' : mlme) : Prop :=
  queue s' = (TxQueue.ieee80211_tx_frags (driver ev) false [TxQueue.Skb (frame_id skb) (queue_of hw x) (TxQueue.vif skb) (tid skb) false ampdu] (queue s)).1.

(** A frame that waits in the session. *)
Definition in_session (s : mlme) (skb : sk_buff) (x : nat) (s' : mlme) : Prop :=
  exists t t' gone, session s x = Some t /\ session s' x = Some t' /\
    gone ++ pending t' = pending t ++ [with_flags skb true (ctl_ampdu skb)] /\ (gone = [] \/ length (pending t') = STA_MAX_TX_BUFFER) /\
    TxQueue.sent (queue s') = TxQueue.sent (queue s) /\ TxQueue.pending (queue s') = TxQueue.pending (queue s) /\ TxQueue.freed (queue s') = TxQueue.freed (queue s) ++ gone.

Lemma tx_by_view ev s skb x : agg_inv s -> tid skb = Some x -> ampdu_aggregation hw = true -> ampdu_setup_in_hw hw = false ->
  let s' := (ieee80211_tx hw ev s skb false).1 in
  match view (session s x) with
  | Idle => to_device ev s skb x (ctl_ampdu skb) s'
  | Operating => to_device ev s skb x true s'
  | Started | Stopping => in_session s skb x s'
  end.
Proof.
  intros [Hs Hi] Ex Ha Hh; destruct (Hi x) as (_ & Hk & _); unfold ieee80211_tx, to_device, in_session; set (skb1 := with_flags skb false (ctl_ampdu skb)).
  change (tid skb1) with (tid skb); rewrite Ex, Ha, Hh; cbn [andb negb]; destruct (session s x) as [t|] eqn:E; cbn [view].
  2: { cbn [tid with_flags skb1]; rewrite Ex; destruct (TxQueue.ieee80211_tx_frags _ _ _ _); reflexivity. }
  destruct (Hk t eq_refl) as [(H1 & H2 & H3 & H4) _]; destruct (operational (state t)) eqn:Eo.
  - assert (Est : stopping (state t) = false) by (destruct (stopping (state t)); [by rewrite andb_false_r in H2|done]); rewrite Est.
    unfold ieee80211_tx_prep_agg; rewrite Eo; cbn [with_flags tid skb1]; rewrite Ex.
    assert (Eq : queue (if timeout t =? 0 then s else update_session s x (fun t => set_last_tx t (jiffies ev))) = queue s) by (by destruct (_ =? 0)).
    rewrite Eq; by destruct (TxQueue.ieee80211_tx_frags _ _ _ _).
  - destruct (prep_held ev s skb1 t x E Eo H1 H4) as (s' & t' & gone & Ep & K); rewrite Ep; cbn [fst].
    destruct (stopping (state t)); exists t, t', gone; exact (conj eq_refl K).
Qed.
End Lemmas.

(** ** Lemmas: setting up a session *)

Section Handshake.
Context (hw : hw_conf).

Definition bits0 : agg_bits := Bits false false false false false false.

(** A session the driver was asked for and the peer was sent a request for. *)
Definition asked (ev : env) (timeout token : Z) : tid_ampdu_tx :=
  TidTx bits0 [] timeout token 0 false 0 0 (Some (u64 (jiffies ev + HZ hw))) None 0 false.

Definition request_frame (s : mlme) (tid : nat) (token ssn timeout : Z) : list Z :=
  AggRx.mgmt_header (sta s) (sta_addr (sta s)) ++ [AggRx.WLAN_CATEGORY_BACK; WLAN_ACTION_ADDBA_REQ; token] ++
    put_le16 (AggRx.addba_capab 1 (Z.of_nat tid) (max_tx_aggregation_subframes hw)) ++ put_le16 timeout ++ put_le16 (u16 (Z.shiftl ssn 4)).

Lemma start_accepted ev s tid timeout : sizes s -> (ieee80211_start_tx_ba_session hw ev s tid timeout).2 = 0 ->
  let s1 := (ieee80211_start_tx_ba_session hw ev s tid timeout).1 in
  starting s1 tid = Some (new_session timeout (u8 (dialog_token_allocator s + 1))) /\ session s1 = session s /\ drv_log s1 = drv_log s /\
  sta s1 = sta s /\ tid_seq s1 = tid_seq s /\ length (tid_tx s1) = length (tid_tx s) /\ length (tid_start_tx s1) = length (tid_start_tx s) /\
  (tid < IEEE80211_NUM_TIDS)%nat /\ session s tid = None.
Proof.
  intros [Hs1 Hs2]; unfold ieee80211_start_tx_ba_session; destruct (negb (has_ampdu_action hw)); [done|].
  destruct (bool_decide (IEEE80211_NUM_TIDS <= tid)%nat) eqn:Et; [done|]; apply bool_decide_eq_false in Et; cbn [orb].
  do 6 (match goal with |- (if ?b then _ else _).2 = 0 -> _ => destruct b; [done|] end).
  destruct (bool_decide (session s tid <> None)) eqn:En; [done|]; apply bool_decide_eq_false, dec_stable in En; cbn [orb].
  do 2 (match goal with |- (if ?b then _ else _).2 = 0 -> _ => destruct b; [done|] end); intros _; cbn [fst].
  split; [|split_and!; try done; [|lia]; cbn [queue_work set_rx assign_start set_requests tid_start_tx]; by rewrite length_insert].
  change (starting (queue_work ?s) tid) with (starting s tid); rewrite starting_assign, decide_True; [done|done|].
  left; cbn [set_requests tid_start_tx]; lia.
Qed.

Lemma work_asks ev s tid timeout token ssn : sizes s -> (tid < IEEE80211_NUM_TIDS)%nat -> session s tid = None -> starting s tid = Some (new_session timeout token) ->
  alloc ev = true -> drv ev IEEE80211_AMPDU_TX_START tid (Z.shiftr (default 0 (tid_seq s !! tid)) 4) 0 = (0, ssn) ->
  let s2 := work_tid hw ev s tid in
  session s2 tid = Some (asked ev timeout token) /\ view_log s2 tid = view_log s tid ++ [Call IEEE80211_AMPDU_TX_START 0 0] /\
  exists l, AggRx.sent (rx s2) = l ++ [request_frame s tid token (u16 ssn) timeout].
Proof.
  intros [Hs1 Hs2] Hlt En Est Ha Hd; unfold work_tid; set (s1 := work_rx ev s tid).
  assert (H1 : session s1 = session s /\ starting s1 = starting s /\ view_log s1 = view_log s /\ tid_tx s1 = tid_tx s /\ tid_seq s1 = tid_seq s /\ sta s1 = sta s)
    by (unfold s1, work_rx; by repeat case_match).
  clearbody s1; destruct H1 as (E1 & E2 & E3 & E4 & E5 & E6); rewrite E2, Est; set (s2 := assign_start s1 tid None).
  change (session s2 tid) with (session s1 tid); rewrite E1, En; set (s3 := ieee80211_assign_tid_tx s2 tid _).
  assert (S3 : session s3 tid = Some (new_session timeout token)).
  { unfold s3; rewrite session_assign, decide_True; [done|done|left; change (tid_tx s2) with (tid_tx s1); rewrite E4; lia]. }
  unfold ieee80211_tx_ba_session_handle_start, drv_ampdu_action; set (s4 := update_session s3 _ _).
  change (tid_seq s4) with (tid_seq s1); rewrite E5, Hd; cbn [negb Z.eqb]; set (s5 := update_session (log s4 _ _) _ _); set (s6 := set_requests _ _ _ _).
  assert (S6 : session s6 tid = Some (asked ev timeout token)) by (unfold s6, s5, s4; autorewrite with agg; rewrite !decide_True, S3 by done; done).
  rewrite S6; unfold ieee80211_send_addba_request; rewrite Ha; cbn [negb asked dialog_token]; split; [exact S6|]; split.
  - unfold s6, s5, send; autorewrite with agg; rewrite decide_True by done; change (view_log s4 tid) with (view_log s1 tid); by rewrite E3.
  - cbn [send set_rx rx AggRx.send AggRx.sent]; eexists; change (sta s6) with (sta s1); by rewrite E6.
Qed.

Lemma operational_at ev s tid t : session s tid = Some t -> exists ret,
  session (ieee80211_agg_tx_operational hw ev s tid) tid = Some (set_bits (set_pending t []) (set_operational true (state t))) /\
  view_log (ieee80211_agg_tx_operational hw ev s tid) tid = view_log s tid ++ [Call IEEE80211_AMPDU_TX_OPERATIONAL (buf_size t) ret].
Proof.
  intros E; unfold ieee80211_agg_tx_operational, drv_ampdu_action; rewrite E; destruct (drv ev _ _ _ _) as [ret ssn]; exists ret; set (s1 := log s tid _).
  unfold ieee80211_agg_splice_finish, ieee80211_wake_queue_agg; autorewrite with agg; rewrite session_splice, !decide_True by done.
  change (session s1 tid) with (session s tid); rewrite E; split; [done|]; destruct (splice_same hw s1 tid tid) as (_ & -> & _).
  unfold s1; by rewrite log_log, decide_True.
Qed.

(** The driver reports the start. *)
Lemma started_at ev s tid t : (tid < IEEE80211_NUM_TIDS)%nat -> session s tid = Some t -> drv_ready (state t) = false -> pending t = [] -> exists ret,
  session (ieee80211_start_tx_ba_cb hw ev s tid) tid =
    Some (set_bits t (if response_received (state t) then set_operational true (set_drv_ready (state t)) else set_drv_ready (state t))) /\
  view_log (ieee80211_start_tx_ba_cb hw ev s tid) tid =
    view_log s tid ++ (if response_received (state t) then [Call IEEE80211_AMPDU_TX_OPERATIONAL (buf_size t) ret] else []).
Proof.
  intros Ht E Hd Hp; unfold ieee80211_start_tx_ba_cb; rewrite bool_decide_false by lia; rewrite E, Hd; set (s1 := update_session _ _ _).
  assert (E1 : session s1 tid = Some (set_bits t (set_drv_ready (state t)))) by (unfold s1; autorewrite with agg; by rewrite decide_True, E).
  destruct (response_received (state t)) eqn:Er; [|exists 0; split; [done|]; by rewrite app_nil_r].
  destruct (operational_at ev s1 tid _ E1) as (ret & H1 & H2); exists ret; rewrite H1, H2; split; [|done].
  destruct t; cbn [pending] in Hp; by subst.
Qed.

(** The peer grants the request. *)
Lemma granted_at ev s g tid t size tmo : (tid < IEEE80211_NUM_TIDS)%nat -> session s tid = Some t -> pending t = [] ->
  AggRx.parse_addba_resp g = Some (AggRx.Build_addba_resp (dialog_token t) 0 (AggRx.addba_capab 1 (Z.of_nat tid) size) tmo) -> 0 < size < 256 ->
  stopping (state t) = false -> want_stop (state t) = false -> response_received (state t) = false -> exists ret t',
  session (ieee80211_process_addba_resp hw ev s g) tid = Some t' /\
  state t' = (if drv_ready (state t) then set_operational true (set_response_received (state t)) else set_response_received (state t)) /\
  buf_size t' = size /\ pending t' = [] /\ addba_resp_timer t' = None /\
  view_log (ieee80211_process_addba_resp hw ev s g) tid =
    view_log s tid ++ (if drv_ready (state t) then [Call IEEE80211_AMPDU_TX_OPERATIONAL size ret] else []).
Proof.
  intros Ht E Hp Hg Hsz H1 H2 H3; unfold AggRx.parse_addba_resp in Hg; destruct (_ && _ && _); [|done]; injection Hg as G1 G2 G3 _.
  unfold IEEE80211_NUM_TIDS in Ht; destruct (AggRx.addba_fields (Z.of_nat tid) size) as (F1 & _ & F3); [lia|lia|].
  unfold ieee80211_process_addba_resp; rewrite G1, G2, G3, F1, F3, Nat2Z.id, E, Z.eqb_refl, H1, H2, H3; cbn [negb orb].
  assert (Hu : u8 size = size) by (rewrite u8_mod, Z.mod_small by lia; done); rewrite Hu.
  destruct (Z.eqb_spec size 0) as [?|_]; [lia|]; cbn [negb andb]; change (0 =? AggRx.WLAN_STATUS_SUCCESS) with true; cbn [andb].
  set (s3 := update_session _ tid (fun t => set_buf_size t size)).
  set (t3 := set_buf_size (set_bits (set_timers t None (session_timer t)) (set_response_received (state t))) size).
  assert (E3 : session s3 tid = Some t3) by (unfold s3; autorewrite with agg; rewrite !decide_True, E by done; done).
  set (s4 := if drv_ready (state t) then _ else s3).
  assert (E4 : exists ret, session s4 tid = Some (set_bits t3 (if drv_ready (state t) then set_operational true (set_response_received (state t)) else set_response_received (state t))) /\
    view_log s4 tid = view_log s tid ++ (if drv_ready (state t) then [Call IEEE80211_AMPDU_TX_OPERATIONAL size ret] else [])).
  { unfold s4; destruct (drv_ready (state t)); [|exists 0; rewrite E3, app_nil_r; done].
    destruct (operational_at ev s3 tid _ E3) as (ret & K1 & K2); exists ret; rewrite K1, K2; split; [|done].
    unfold t3; destruct t; cbn [pending] in Hp; by subst. }
  destruct E4 as (ret & E4 & L4); exists ret; destruct (timeout t =? 0).
  - eexists; split; [exact E4|]; split_and!; try done.
  - autorewrite with agg; rewrite decide_True, E4 by done; eexists; split; [reflexivity|]; split_and!; done.
Qed.

Lemma request_fields s tid token ssn timeout : AggRx.wf_sta (sta s) -> (tid < IEEE80211_NUM_TIDS)%nat -> is_u16 timeout -> 0 <= max_tx_aggregation_subframes hw <= 64 ->
  let f := request_frame s tid token ssn timeout in
  f.[26] = token /\ get_le16 f 27 = AggRx.addba_capab 1 (Z.of_nat tid) (max_tx_aggregation_subframes hw) /\ get_le16 f 29 = timeout /\
  Z.shiftr (get_le16 f 31) 4 = ssn mod 4096.
Proof.
  intros Hw Ht Htmo Hmax; pose proof (AggRx.mgmt_header_length (sta s) (sta_addr (sta s)) Hw ltac:(by destruct Hw)) as Hl.
  unfold IEEE80211_NUM_TIDS in Ht; pose proof (AggRx.addba_capab_u16 (Z.of_nat tid) (max_tx_aggregation_subframes hw) ltac:(lia) ltac:(lia)) as Hc.
  intros f; unfold f, request_frame; set (h := AggRx.mgmt_header _ _) in *; set (c := AggRx.addba_capab _ _ _) in *; set (tl := [_; _; token] ++ _).
  assert (Hx : is_u16 (u16 (Z.shiftl ssn 4))) by (rewrite u16_mod; unfold is_uint; apply Z.mod_pos_bound; lia).
  pose proof (fun i => byte_at_app_r h tl 24 i Hl) as Hby; pose proof (fun i => get_le16_app_r h tl 24 i Hl) as Hle.
  rewrite (Hby 2%nat : _.[26] = _), (Hle 3%nat : get_le16 _ 27 = _), (Hle 5%nat : get_le16 _ 29 = _), (Hle 7%nat : get_le16 _ 31 = _).
  rewrite (get_put_le16 c Hc : get_le16 tl 3 = _), (get_put_le16 timeout Htmo : get_le16 tl 5 = _), (get_put_le16 _ Hx : get_le16 tl 7 = _).
  split_and!; try done; rewrite u16_mod, Z.shiftl_mul_pow2, Z.shiftr_div_pow2 by lia; change (2 ^ 4) with 16; change 65536 with (4096 * 16).
  by rewrite Z.mul_mod_distr_r, Z.div_mul by lia.
Qed.

(** A peer that can and may have the session. *)
Definition peer_willing (e : AggRx.addba_env) (p : sta_info) (tid : nat) (ssn : Z) : Prop :=
  AggRx.wf_sta p /\ block_ba p = false /\ AggRx.alloc_resp e = true /\ AggRx.alloc_session e = true /\ AggRx.alloc_buffers e = true /\
  0 < AggRx.max_rx_aggregation_subframes e /\ (AggRx.drv_ampdu_action e (Z.of_nat tid) ssn).1 = 0.

Lemma peer_grants e r p f tid token ssn timeout size : peer_willing e p tid ssn -> (tid < IEEE80211_NUM_TIDS)%nat -> length (AggRx.sessions r) = IEEE80211_NUM_TIDS ->
  is_u16 timeout -> 0 <= size <= 64 ->
  f.[26] = token -> get_le16 f 27 = AggRx.addba_capab 1 (Z.of_nat tid) size -> get_le16 f 29 = timeout -> Z.shiftr (get_le16 f 31) 4 = ssn ->
  let r' := AggRx.ieee80211_process_addba_request e r p f in
  0 < AggRx.granted_buf_size e size <= 64 /\
  exists g t, AggRx.sent r' = AggRx.sent r ++ [g] /\
    AggRx.parse_addba_resp g = Some (AggRx.Build_addba_resp token 0 (AggRx.addba_capab 1 (Z.of_nat tid) (AggRx.granted_buf_size e size)) timeout) /\
    AggRx.sessions r' !! tid = Some (Some t) /\ Reorder.buf_size t = AggRx.granted_buf_size e size /\ Reorder.timeout t = timeout /\
    (Reorder.ring_size (AggRx.granted_buf_size e size) -> 0 <= (AggRx.drv_ampdu_action e (Z.of_nat tid) ssn).2 < 4096 ->
      Reorder.window t (AggRx.drv_ampdu_action e (Z.of_nat tid) ssn).2).
Proof.
  intros (Hw & Hb & Ha & Has & Hab & Hmax & Hd) Ht Hl Htmo Hsz F1 F2 F3 F4 r'.
  assert (Hg : 0 < AggRx.granted_buf_size e size <= 64).
  { unfold AggRx.granted_buf_size, AggRx.IEEE80211_MAX_AMPDU_BUF; destruct (Z.eqb_spec size 0); case_match eqn:Eg; lia. }
  split; [done|]; unfold r', AggRx.ieee80211_process_addba_request; rewrite F1, F2, F3, F4, Hb, Ha; clear r'.
  unfold IEEE80211_NUM_TIDS in *; destruct (AggRx.addba_fields (Z.of_nat tid) size) as (-> & -> & ->); [lia|lia|]; cbn [negb andb orb Z.eqb Pos.eqb].
  assert (Egt : (size >? AggRx.IEEE80211_MAX_AMPDU_BUF) = false) by (unfold AggRx.IEEE80211_MAX_AMPDU_BUF; lia); rewrite Egt; set (g := AggRx.granted_buf_size e size) in *.
  pose proof (AggRx.addba_setup_status e r p (Z.of_nat tid) token g timeout ssn) as [_ [_ Hst]]; specialize (Hst (conj Has (conj Hab Hd))).
  pose proof (AggRx.addba_setup_session e r p (Z.of_nat tid) token g timeout ssn Hst) as Hse; rewrite Nat2Z.id, Hl in Hse; destruct (Hse Ht) as (t & T1 & T2 & T3 & _ & T5).
  pose proof (AggRx.sent_addba_setup e r p (Z.of_nat tid) token g timeout ssn) as Hsent; destruct (AggRx.addba_setup e r p _ token g timeout ssn) as [s1 status]; cbn [fst snd] in *.
  rewrite Hst; destruct (AggRx.parse_sent_addba_resp s1 p (Z.of_nat tid) token 0 g timeout Hw) as (f' & Ef & Ep); [done|done|lia|lia|].
  exists f', t; rewrite Ef, Hsent; split_and!; try done; intros Hr Hn; by destruct (T5 Hr Hn).
Qed.
End Handshake.

(** ** Properties *)

(** A station that was just added. *)
Definition mlme0 (st : sta_info) (seqs : list Z) (n : nat) (vs : list TxQueue.sub_if_data) : mlme :=
  Mlme st (repeat None IEEE80211_NUM_TIDS) (repeat None IEEE80211_NUM_TIDS) (repeat 0 IEEE80211_NUM_TIDS) (repeat 0 IEEE80211_NUM_TIDS) 0 seqs
    (AggRx.Agg (repeat None IEEE80211_NUM_TIDS) (repeat false IEEE80211_NUM_TIDS) (repeat false IEEE80211_NUM_TIDS) false [] [] [])
    (TxQueue.idle n vs) (repeat 0 TxQueue.IEEE80211_MAX_QUEUES) [].

Lemma mjoin_repeat_none {A} n i : mjoin (repeat (@None A) n !! i) = None.
Proof. revert i; induction n as [|n IH]; intros [|i]; cbn [repeat]; [done|done|done|apply IH]. Qed.

Lemma mlme0_cons st seqs n vs : cons [] [] (mlme0 st seqs n vs).
Proof.
  constructor; [|done|constructor|done]; split; [done|]; intros x; unfold session, starting; cbn [mlme0 tid_tx tid_start_tx].
  by rewrite !mjoin_repeat_none.
Qed.

(** The conditions on the device and the run that all properties share. *)
Definition proper (hw : hw_conf) (os : list (env * op)) (s : mlme) : Prop :=
  has_ampdu_action hw = true /\ Forall (fun q => (q < TxQueue.IEEE80211_MAX_QUEUES)%nat) (vif_hw_queue hw) /\
  Forall (fun p => op_ok p.2) os /\ timely_run hw os s.

Lemma proper_run hw os st seqs n vs : proper hw os (mlme0 st seqs n vs) ->
  exists s', run hw os (mlme0 st seqs n vs) = Some s' /\ cons (submitted os) [] s'.
Proof.
  intros (H1 & H2 & H3 & H4); destruct (run_cons hw H1 H2 os _ [] (mlme0_cons st seqs n vs) H3 H4) as (s' & E & Hc).
  exists s'; split; [done|]; by rewrite app_nil_r in Hc.
Qed.

(** A report of a start that is not in time breaks the contract. *)
Lemma late_report_breaks hw ev s tid t : (tid < IEEE80211_NUM_TIDS)%nat -> session s tid = Some t ->
  drv_ready (state t) = false -> response_received (state t) = true -> stopping (state t) = true ->
  drv_view (view_log s tid) = Some Stopping -> drv_view (view_log (ieee80211_start_tx_ba_cb hw ev s tid) tid) = None.
Proof.
  intros Ht E Hd Hr Hst Hv; unfold ieee80211_start_tx_ba_cb; rewrite bool_decide_false by lia; rewrite E, Hd, Hr; set (s1 := update_session _ _ _).
  assert (E1 : session s1 tid = Some (set_bits t (set_drv_ready (state t)))) by (unfold s1; autorewrite with agg; by rewrite decide_True, E).
  destruct (operational_at hw ev s1 tid _ E1) as (ret & _ & H2); rewrite H2, drv_view_snoc; unfold s1; by rewrite log_update, Hv.
Qed.

Lemma session_range s tid t : sizes s -> session s tid = Some t -> (tid < IEEE80211_NUM_TIDS)%nat.
Proof.
  intros [<- _]; unfold session; destruct (tid_tx s !! tid) eqn:E; [|done]; intros _; by apply lookup_lt_Some in E.
Qed.

(** C9: whatever happens to a station, in whatever order (requests, work,
    reports of the driver, timers, frames of the peer and of the host), as long
    as the driver does not report a start for the first time when the peer has
    answered and the session was stopped, the
    driver is called in the order its contract asks for on every TID: started,
    operational, stopped, and started again only after the stop; and what it was
    last told agrees with the session.  A session is operational exactly when
    both the driver and
    the peer have said yes, holds at most 64 frames, none when operational, and
    a session that waits for its peer has a timer that will end it, or its stop
    was asked for.  The condition on the reports is exact: the first such late
    report makes the driver be told to operate a session it is stopping, which
    its contract forbids.  (The device supports A-MPDU actions, and its queues
    are numbered below 16.) *)
Theorem driver_protocol hw os st seqs n vs : proper hw os (mlme0 st seqs n vs) ->
  exists s', run hw os (mlme0 st seqs n vs) = Some s' /\
    (forall x, drv_view (view_log s' x) = Some (view (session s' x)) /\ forall t, session s' x = Some t -> sess_ok t /\ sess_ends t) /\
    forall ev x t, session s' x = Some t -> drv_ready (state t) || negb (stopping (state t)) || negb (response_received (state t)) = false ->
      exists s'', step hw ev (OStartCb x) s' = Some s'' /\ drv_view (view_log s'' x) = None.
Proof.
  intros Hp; destruct (proper_run _ _ _ _ _ _ Hp) as (s' & E & [[Hsz Hi] _ _ _]); exists s'; split; [done|]; split.
  - intros x; by destruct (Hi x) as (H1 & H2 & _).
  - intros ev x t Et Hl; rewrite !orb_false_iff, !negb_false_iff in Hl; destruct Hl as [[H1 H2] H3].
    eexists; split; [reflexivity|]; apply (late_report_breaks _ _ _ _ t); try done; [by apply (session_range s' x t)|].
    destruct (Hi x) as (Hv & _); rewrite Hv, Et; cbn [view]; by rewrite H2.
Qed.

(** C11: no frame of the host is lost or doubled by the sessions: at any moment
    each is with the driver, dropped, on a queue of the device or held by
    a session. *)
Theorem agg_frames_conserved hw os st seqs n vs : proper hw os (mlme0 st seqs n vs) ->
  exists s', run hw os (mlme0 st seqs n vs) = Some s' /\ frame_id <$> frames s' ≡ₚ submitted os.
Proof. intros Hp; destruct (proper_run _ _ _ _ _ _ Hp) as (s' & E & [_ _ _ H4]); exists s'; split; [done|]; by rewrite app_nil_r in H4. Qed.

(** C10: a data frame goes to the driver in an A-MPDU exactly when, from what the
    driver was told, the session of its TID operates; while the driver starts or
    stops the session the frame waits with the session, the oldest being
    dropped when more than 64 wait; else it goes on as it is. *)
Theorem ampdu_when_operating hw os st seqs n vs ev skb x : proper hw os (mlme0 st seqs n vs) ->
  tid skb = Some x -> ampdu_aggregation hw = true -> ampdu_setup_in_hw hw = false ->
  exists s', run hw os (mlme0 st seqs n vs) = Some s' /\
    match drv_view (view_log s' x) with
    | Some Idle => to_device hw ev s' skb x (ctl_ampdu skb) (ieee80211_tx hw ev s' skb false).1
    | Some Operating => to_device hw ev s' skb x true (ieee80211_tx hw ev s' skb false).1
    | Some Started | Some Stopping => in_session s' skb x (ieee80211_tx hw ev s' skb false).1
    | None => False
    end.
Proof.
  intros Hp Hx Ha Hh; destruct (proper_run _ _ _ _ _ _ Hp) as (s' & E & [Hi _ _ _]); exists s'; split; [done|].
  pose proof Hi as [_ Hv]; destruct (Hv x) as (-> & _); by apply (tx_by_view hw ev s' skb x).
Qed.

(** C12: a session is set up by the two sides together: the request that the work
    item sends after an accepted start is granted by a peer that can and may, and
    with its response and the driver's report, in either order, the
    session is operational with the window the peer has: the smaller of what
    was asked for (64 for none) and what the peer takes.  The peer's window
    starts at the sequence number the driver chose, and the driver is told to
    start and then to operate with the size granted. *)
Theorem addba_handshake hw ev1 ev2 ev3 ev4 e s r p tid timeout ssn (first : bool) :
  sizes s -> AggRx.wf_sta (sta s) -> is_u16 timeout -> 0 <= max_tx_aggregation_subframes hw <= 64 -> length (AggRx.sessions r) = IEEE80211_NUM_TIDS ->
  (ieee80211_start_tx_ba_session hw ev1 s tid timeout).2 = 0 -> alloc ev2 = true ->
  drv ev2 IEEE80211_AMPDU_TX_START tid (Z.shiftr (default 0 (tid_seq s !! tid)) 4) 0 = (0, ssn) -> peer_willing e p tid (u16 ssn mod 4096) ->
  let s2 := work_tid hw ev2 (ieee80211_start_tx_ba_session hw ev1 s tid timeout).1 tid in
  let size := AggRx.granted_buf_size e (max_tx_aggregation_subframes hw) in
  exists l f g t, AggRx.sent (rx s2) = l ++ [f] /\
    AggRx.sent (AggRx.ieee80211_process_addba_request e r p f) = AggRx.sent r ++ [g] /\
    AggRx.sessions (AggRx.ieee80211_process_addba_request e r p f) !! tid = Some (Some t) /\ Reorder.buf_size t = size /\ Reorder.timeout t = timeout /\
    (let ssn' := (AggRx.drv_ampdu_action e (Z.of_nat tid) (u16 ssn mod 4096)).2 in Reorder.ring_size size -> 0 <= ssn' < 4096 -> Reorder.window t ssn') /\
    let s3 := if first then ieee80211_start_tx_ba_cb hw ev4 (ieee80211_process_addba_resp hw ev3 s2 g) tid
      else ieee80211_process_addba_resp hw ev3 (ieee80211_start_tx_ba_cb hw ev4 s2 tid) g in
    exists t' ret, session s3 tid = Some t' /\ operational (state t') = true /\ buf_size t' = size /\ pending t' = [] /\
      view_log s3 tid = view_log s tid ++ [Call IEEE80211_AMPDU_TX_START 0 0; Call IEEE80211_AMPDU_TX_OPERATIONAL size ret].
Proof.
  intros Hs Hw Htmo Hmax Hl Hok Ha Hd Hp s2 size; destruct (start_accepted hw ev1 s tid timeout Hs Hok) as (A1 & A2 & A3 & A4 & A5 & A6 & A7 & Ht & An).
  unfold s2; clear s2; set (s1 := (ieee80211_start_tx_ba_session _ _ _ _ _).1) in *; set (token := u8 _) in A1.
  assert (Hs1 : sizes s1) by (destruct Hs; split; congruence).
  destruct (work_asks hw ev2 s1 tid timeout token ssn Hs1 Ht ltac:(by rewrite A2) A1 Ha ltac:(by rewrite A5)) as (B1 & B2 & l & B3).
  set (s2 := work_tid hw ev2 s1 tid) in *; assert (E1 : view_log s1 tid = view_log s tid) by (unfold view_log; by rewrite A3).
  destruct (request_fields hw s1 tid token (u16 ssn) timeout ltac:(by rewrite A4) Ht Htmo Hmax) as (F1 & F2 & F3 & F4).
  set (f := request_frame hw s1 tid token (u16 ssn) timeout) in *.
  destruct (peer_grants e r p f tid token _ timeout _ Hp Ht Hl Htmo Hmax F1 F2 F3 F4) as (Hg & g & t & G1 & G2 & G3 & G4 & G5 & G6).
  exists l, f, g, t; do 6 (split; [done|]); destruct first; cbn zeta.
  - destruct (granted_at hw ev3 s2 g tid _ size timeout Ht B1 eq_refl G2) as (ret & t1 & C1 & C2 & C3 & C4 & _ & C6); try done; [unfold size in *; lia|].
    destruct (started_at hw ev4 (ieee80211_process_addba_resp hw ev3 s2 g) tid t1 Ht C1) as (ret' & D1 & D2); [by rewrite C2|done|].
    rewrite C2 in D1; eexists _, ret'; split; [exact D1|]; split_and!; try done; rewrite D2, C6, C2, B2, E1, C3; cbn; by rewrite app_nil_r, <- app_assoc.
  - destruct (started_at hw ev4 s2 tid _ Ht B1 eq_refl eq_refl) as (ret' & D1 & D2); cbn in D1, D2; rewrite app_nil_r in D2.
    set (t1 := set_bits _ _) in D1.
    destruct (granted_at hw ev3 (ieee80211_start_tx_ba_cb hw ev4 s2 tid) g tid t1 size timeout Ht D1 eq_refl G2) as (ret & t2 & C1 & C2 & C3 & C4 & _ & C6); try done; [unfold size in *; lia|].
    exists t2, ret; rewrite C2, C6, D2, B2, E1; split_and!; try done; by rewrite <- app_assoc.
Qed.

(** ** Examples *)

Definition demo_hw : hw_conf := Hw true true false 32 true [0%nat; 1%nat; 2%nat; 3%nat] 100.
Definition demo_env : env := Env 1000 true (fun _ _ ssn _ => (0, ssn)) (fun _ _ => []) (fun tu => tu).
Definition demo_skb (i : Z) (x : nat) : sk_buff := TxQueue.Skb i 0 (Some 0%nat) (Some x) false false.
Definition demo_sta : mlme := mlme0 AggRx.sample_sta (repeat 160 IEEE80211_NUM_TIDS) 4 TxQueue.demo_ifs.
Definition demo_resp : list Z :=
  repeat 0 24 ++ [AggRx.WLAN_CATEGORY_BACK; AggRx.WLAN_ACTION_ADDBA_RESP; 1] ++ put_le16 0 ++ put_le16 (AggRx.addba_capab 1 0 16) ++ put_le16 0.

(** A session is set up and stopped, with frames all along. *)
Definition demo_ops : list (env * op) :=
  (fun o => (demo_env, o)) <$>
    [OTx (demo_skb 1 0); OStart 0 0; OTx (demo_skb 2 0); OWork; OTx (demo_skb 3 0); OAddbaResp demo_resp; OStartCb 0; OTx (demo_skb 4 0);
     OPending; OTx (demo_skb 5 0); OStop 0; OWork; OTx (demo_skb 6 0); OStopCb [] 0; OPending; OTx (demo_skb 7 0)].

Ltac timely_tac :=
  vm_compute; repeat match goal with |- _ /\ _ => split | |- True => exact I | |- _ => by intros ? [= <-] end.

Lemma demo_proper k : proper demo_hw (take k demo_ops) demo_sta.
Proof.
  split; [done|]; split; [repeat constructor; unfold TxQueue.IEEE80211_MAX_QUEUES; lia|]; split.
  - apply Forall_take; repeat constructor; unfold op_ok, queue_ok, TxQueue.IEEE80211_MAX_QUEUES; cbn; lia.
  - do 17 (destruct k as [|k]; [timely_tac|]); timely_tac.
Qed.

Definition after (k : nat) : option mlme := run demo_hw (take k demo_ops) demo_sta.

Example demo_views :
  (fun k => s ← after k; drv_view (view_log s 0)) <$> [1%nat; 3%nat; 4%nat; 6%nat; 7%nat; 11%nat; 12%nat; 14%nat] =
  [Some Idle; Some Idle; Some Started; Some Started; Some Operating; Some Operating; Some Stopping; Some Idle].
Proof. vm_compute. reflexivity. Qed.

(** The frames as the driver gets them: those of the session in A-MPDUs. *)
Example demo_sent : (fun s => (fun f => (frame_id f, ctl_ampdu f)) <$> TxQueue.sent (queue s)) <$> after 16 =
  Some [(1, false); (2, false); (3, true); (4, true); (5, true); (6, false); (7, false)].
Proof. vm_compute. reflexivity. Qed.

Lemma driver_protocol_witness : exists s', after 13 = Some s' /\ forall x,
  drv_view (view_log s' x) = Some (view (session s' x)) /\ forall t, session s' x = Some t -> sess_ok t /\ sess_ends t.
Proof.
  destruct (driver_protocol demo_hw (take 13 demo_ops) AggRx.sample_sta (repeat 160 IEEE80211_NUM_TIDS) 4 TxQueue.demo_ifs (demo_proper 13)) as (s' & E & H & _).
  exists s'; split; [exact E | exact H].
Defined.

Lemma agg_frames_conserved_witness : exists s', after 13 = Some s' /\ frame_id <$> frames s' ≡ₚ [1; 2; 3; 4; 5; 6].
Proof. apply (agg_frames_conserved demo_hw (take 13 demo_ops)), demo_proper. Defined.

(** The fourth frame would be the first in an A-MPDU; the sixth waits. *)
Lemma ampdu_when_operating_witness :
  (exists s', after 7 = Some s' /\ to_device demo_hw demo_env s' (demo_skb 4 0) 0 true (ieee80211_tx demo_hw demo_env s' (demo_skb 4 0) false).1) /\
  (exists s', after 12 = Some s' /\ in_session s' (demo_skb 6 0) 0 (ieee80211_tx demo_hw demo_env s' (demo_skb 6 0) false).1).
Proof.
  split.
  - destruct (ampdu_when_operating demo_hw (take 7 demo_ops) AggRx.sample_sta (repeat 160 IEEE80211_NUM_TIDS) 4 TxQueue.demo_ifs demo_env (demo_skb 4 0) 0
      (demo_proper 7) eq_refl eq_refl eq_refl) as (s' & E & H); exists s'; split; [exact E|].
    assert (Hv : drv_view (view_log s' 0) = Some Operating) by (vm_compute in E; injection E as <-; reflexivity); rewrite Hv in H; exact H.
  - destruct (ampdu_when_operating demo_hw (take 12 demo_ops) AggRx.sample_sta (repeat 160 IEEE80211_NUM_TIDS) 4 TxQueue.demo_ifs demo_env (demo_skb 6 0) 0
      (demo_proper 12) eq_refl eq_refl eq_refl) as (s' & E & H); exists s'; split; [exact E|].
    assert (Hv : drv_view (view_log s' 0) = Some Stopping) by (vm_compute in E; injection E as <-; reflexivity); rewrite Hv in H; exact H.
Defined.

Lemma addba_handshake_witness :
  let s2 := work_tid demo_hw demo_env (ieee80211_start_tx_ba_session demo_hw demo_env demo_sta 5 100).1 5 in
  exists l f g t, AggRx.sent (rx s2) = l ++ [f] /\
    AggRx.sent (AggRx.ieee80211_process_addba_request AggRx.sample_env AggRx.sample_state AggRx.sample_sta f) = [] ++ [g] /\
    AggRx.sessions (AggRx.ieee80211_process_addba_request AggRx.sample_env AggRx.sample_state AggRx.sample_sta f) !! 5%nat = Some (Some t) /\
    Reorder.buf_size t = 32 /\ Reorder.timeout t = 100 /\ (Reorder.ring_size 32 -> 0 <= 10 < 4096 -> Reorder.window t 10) /\
    let s3 := ieee80211_start_tx_ba_cb demo_hw demo_env (ieee80211_process_addba_resp demo_hw demo_env s2 g) 5 in
    exists t' ret, session s3 5 = Some t' /\ operational (state t') = true /\ buf_size t' = 32 /\ pending t' = [] /\
      view_log s3 5 = [] ++ [Call IEEE80211_AMPDU_TX_START 0 0; Call IEEE80211_AMPDU_TX_OPERATIONAL 32 ret].
Proof.
  apply (addba_handshake demo_hw demo_env demo_env demo_env demo_env AggRx.sample_env demo_sta AggRx.sample_state AggRx.sample_sta 5 100 10 true);
    [done|done|unfold is_uint; lia|cbn; lia|done|by vm_compute|done|by vm_compute|].
  split_and!; done.
Defined.

(** The driver's report of a start that is processed after the session was
    stopped: the driver is told to operate a session it is stopping. *)
Definition late_report : list (env * op) :=
  (fun o => (demo_env, o)) <$> [OStart 0 0; OWork; OAddbaResp demo_resp; OStop 0; OWork; OStartCb 0].

Lemma late_start_report : (fun s => (view_log s 0, drv_view (view_log s 0), (fun t => (stopping (state t), operational (state t))) <$> session s 0)) <$>
    run demo_hw late_report demo_sta =
  Some ([Call IEEE80211_AMPDU_TX_START 0 0; Call IEEE80211_AMPDU_TX_STOP_CONT 0 0; Call IEEE80211_AMPDU_TX_OPERATIONAL 16 0], None, Some (true, true)).
Proof. vm_compute. reflexivity. Qed.

(** A session asked for just before sessions are blocked and torn down: its
    work is cancelled, and it stays behind in [tid_start_tx], where it makes new
    requests fail until some other request queues the work. *)
Definition left_behind : list (env * op) :=
  (fun o => (demo_env, o)) <$> [OStart 0 0; OBlock true; OTearDown AGG_STOP_LOCAL_REQUEST; OBlock false; OWork].

Lemma start_left_behind : (fun s => (AggRx.ba_work (rx s), drv_log s, (ieee80211_start_tx_ba_session demo_hw demo_env s 0 0).2)) <$>
    run demo_hw left_behind demo_sta = Some (false, [], - EAGAIN).
Proof. vm_compute. reflexivity. Qed.
End AggTx.
