(* ===== verification/KeyCache.v ===== *)
(** * The key cache of the adapter

    [drivers/net/wireless/ath/key.c], with [ath9k_htc_set_key] of
    [ath9k/htc_drv_main.c] and [ath9k_cmn_init_crypto] of [ath9k/common.c].  The
    registers of the key table are a map from addresses; a read of a bitmap
    outside its bounds, or a copy longer than the structure it goes to, is a
    fault ([None]).  The theorems show that each key the driver accepted is in
    the table until it is deleted, and that slots are neither shared nor lost. *)

From stdpp Require Import gmap.
From S2P Require Import Prelude.

Module KeyCache.

Definition AR_KEYTABLE_SIZE : nat := 128.
Definition IEEE80211_WEP_NKID : nat := 4.
Definition AR_KEYTABLE_0 : Z := 0x8800.
Definition AR_KEYTABLE (n : nat) : Z := AR_KEYTABLE_0 + Z.of_nat n * 32.
Definition AR_KEYTABLE_KEY0 (n : nat) : Z := AR_KEYTABLE n + 0.
Definition AR_KEYTABLE_KEY1 (n : nat) : Z := AR_KEYTABLE n + 4.
Definition AR_KEYTABLE_KEY2 (n : nat) : Z := AR_KEYTABLE n + 8.
Definition AR_KEYTABLE_KEY3 (n : nat) : Z := AR_KEYTABLE n + 12.
Definition AR_KEYTABLE_KEY4 (n : nat) : Z := AR_KEYTABLE n + 16.
Definition AR_KEYTABLE_TYPE (n : nat) : Z := AR_KEYTABLE n + 20.
Definition AR_KEYTABLE_MAC0 (n : nat) : Z := AR_KEYTABLE n + 24.
Definition AR_KEYTABLE_MAC1 (n : nat) : Z := AR_KEYTABLE n + 28.
Definition AR_KEYTABLE_TYPE_40 : Z := 0.
Definition AR_KEYTABLE_TYPE_104 : Z := 1.
Definition AR_KEYTABLE_TYPE_128 : Z := 3.
Definition AR_KEYTABLE_TYPE_TKIP : Z := 4.
Definition AR_KEYTABLE_TYPE_AES : Z := 5.
Definition AR_KEYTABLE_TYPE_CCM : Z := 6.
Definition AR_KEYTABLE_TYPE_CLR : Z := 7.
Definition AR_KEYTABLE_VALID : Z := 0x8000.
Definition WLAN_CIPHER_SUITE_WEP40 : Z := 0x000FAC01.
Definition WLAN_CIPHER_SUITE_TKIP : Z := 0x000FAC02.
Definition WLAN_CIPHER_SUITE_CCMP : Z := 0x000FAC04.
Definition WLAN_CIPHER_SUITE_WEP104 : Z := 0x000FAC05.
Definition WLAN_CIPHER_SUITE_AES_CMAC : Z := 0x000FAC06.
Definition WLAN_KEY_LEN_WEP40 : nat := 5.
Definition WLAN_KEY_LEN_WEP104 : nat := 13.
Definition NL80211_TKIP_DATA_OFFSET_TX_MIC_KEY : nat := 16.
Definition NL80211_TKIP_DATA_OFFSET_RX_MIC_KEY : nat := 24.
Definition EIO : Z := 5.
Definition ENOSPC : Z := 28.
Definition EOPNOTSUPP : Z := 95.

Inductive iftype := STATION | AP | ADHOC | MESH_POINT | AP_VLAN | OTHER.

#[global] Instance iftype_eq_dec : EqDecision iftype.
Proof. solve_decision. Defined.

Inductive ath_cipher := ATH_CIPHER_WEP | ATH_CIPHER_AES_OCB | ATH_CIPHER_AES_CCM | ATH_CIPHER_CKIP | ATH_CIPHER_TKIP | ATH_CIPHER_CLR | ATH_CIPHER_MIC.

(** [struct ieee80211_key_conf], its flags as fields; [keylen] is the length of
    the key. *)
Record key_conf := Conf {
  cipher : Z; hw_key_idx : nat; keyidx : Z; key : list Z;
  wmm_sta : bool; generate_iv : bool; generate_mmic : bool; pairwise : bool; sw_mgmt_tx : bool; put_iv_space : bool; rx_mgmt : bool }.

(** [struct ath_keyval]: [kv_val], [kv_mic] and [kv_txmic] are 32 bytes in a row. *)
Record ath_keyval := Keyval { kv_type : ath_cipher; kv_len : nat; kv_bytes : list Z }.

Definition kv_set_mics (hk : ath_keyval) (mic txmic : list Z) : ath_keyval :=
  Keyval (kv_type hk) (kv_len hk) (take 16 (kv_bytes hk) ++ mic ++ txmic).

(** The part of [struct ath_common] used here, with the registers. *)
Record ath_common := Common {
  keymax : nat; keymap : list bool; tkip_keymap : list bool; ccmp_keymap : list bool;
  cap_aesccm : bool; cap_mic_combined : bool; regs : gmap Z Z }.

Definition set_regs (c : ath_common) (r : gmap Z Z) : ath_common :=
  Common (keymax c) (keymap c) (tkip_keymap c) (ccmp_keymap c) (cap_aesccm c) (cap_mic_combined c) r.
Definition set_maps (c : ath_common) (m t p : list bool) : ath_common :=
  Common (keymax c) m t p (cap_aesccm c) (cap_mic_combined c) (regs c).

(** ** Registers *)

Definition REG_READ (c : ath_common) (a : Z) : Z := default 0 (regs c !! a).
Definition REG_WRITE (c : ath_common) (a v : Z) : ath_common := set_regs c (<[a := u32 v]> (regs c)).

(** Writes in a row. *)
Definition reg_writes (c : ath_common) (l : list (Z * Z)) : ath_common := fold_left (fun c w => REG_WRITE c w.1 w.2) l c.

Definition ath_hw_keyreset (c : ath_common) (entry : nat) : ath_common * bool :=
  if bool_decide (keymax c <= entry)%nat then (c, false)
  else
    let keyType := REG_READ c (AR_KEYTABLE_TYPE entry) in
    let c := reg_writes c
      [(AR_KEYTABLE_KEY0 entry, 0); (AR_KEYTABLE_KEY1 entry, 0); (AR_KEYTABLE_KEY2 entry, 0); (AR_KEYTABLE_KEY3 entry, 0);
       (AR_KEYTABLE_KEY4 entry, 0); (AR_KEYTABLE_TYPE entry, AR_KEYTABLE_TYPE_CLR); (AR_KEYTABLE_MAC0 entry, 0); (AR_KEYTABLE_MAC1 entry, 0)] in
    let c :=
      if keyType =? AR_KEYTABLE_TYPE_TKIP then
        let micentry := (entry + 64)%nat in
        let c := reg_writes c
          [(AR_KEYTABLE_KEY0 micentry, 0); (AR_KEYTABLE_KEY1 micentry, 0); (AR_KEYTABLE_KEY2 micentry, 0); (AR_KEYTABLE_KEY3 micentry, 0)] in
        if cap_mic_combined c
        then reg_writes c [(AR_KEYTABLE_KEY4 micentry, 0); (AR_KEYTABLE_TYPE micentry, AR_KEYTABLE_TYPE_CLR)]
        else c
      else c in
    (c, true).

Definition ath_hw_keysetmac (c : ath_common) (entry : nat) (mac : option (list Z)) : ath_common * bool :=
  if bool_decide (keymax c <= entry)%nat then (c, false)
  else
    let '(macLo, macHi, unicast_flag) :=
      match mac with
      | Some mac =>
          let macLo := get_le32 mac 0 in
          let macHi := get_le16 mac 4 in
          let macLo := Z.lor (Z.shiftr macLo 1) (u32 (Z.shiftl (Z.land macHi 1) 31)) in
          (macLo, Z.shiftr macHi 1, if Z.testbit (mac.[0]) 0 then 0 else AR_KEYTABLE_VALID)
      | None => (0, 0, AR_KEYTABLE_VALID)
      end in
    (reg_writes c [(AR_KEYTABLE_MAC0 entry, macLo); (AR_KEYTABLE_MAC1 entry, Z.lor macHi unicast_flag)], true).

(** The type register, or [None] when the entry is refused. *)
Definition key_type (c : ath_common) (entry : nat) (k : ath_keyval) : option Z :=
  match kv_type k with
  | ATH_CIPHER_AES_OCB => Some AR_KEYTABLE_TYPE_AES
  | ATH_CIPHER_AES_CCM => if negb (cap_aesccm c) then None else Some AR_KEYTABLE_TYPE_CCM
  | ATH_CIPHER_TKIP => if bool_decide (keymax c <= entry + 64)%nat then None else Some AR_KEYTABLE_TYPE_TKIP
  | ATH_CIPHER_WEP =>
      if bool_decide (kv_len k < WLAN_KEY_LEN_WEP40)%nat then None
      else if bool_decide (kv_len k <= WLAN_KEY_LEN_WEP40)%nat then Some AR_KEYTABLE_TYPE_40
      else if bool_decide (kv_len k <= WLAN_KEY_LEN_WEP104)%nat then Some AR_KEYTABLE_TYPE_104
      else Some AR_KEYTABLE_TYPE_128
  | ATH_CIPHER_CLR => Some AR_KEYTABLE_TYPE_CLR
  | ATH_CIPHER_CKIP | ATH_CIPHER_MIC => None
  end.

Definition ath_hw_set_keycache_entry (c : ath_common) (entry : nat) (k : ath_keyval) (mac : option (list Z)) : ath_common * bool :=
  if bool_decide (keymax c <= entry)%nat then (c, false)
  else
    match key_type c entry k with
    | None => (c, false)
    | Some keyType =>
        let kv := kv_bytes k in
        let key0 := get_le32 kv 0 in
        let key1 := get_le16 kv 4 in
        let key2 := get_le32 kv 6 in
        let key3 := get_le16 kv 10 in
        let key4 := get_le32 kv 12 in
        let key4 := if bool_decide (kv_len k <= WLAN_KEY_LEN_WEP104)%nat then Z.land key4 0xff else key4 in
        if keyType =? AR_KEYTABLE_TYPE_TKIP then
          let micentry := (entry + 64)%nat in
          let c := reg_writes c
            [(AR_KEYTABLE_KEY0 entry, Z.lnot key0); (AR_KEYTABLE_KEY1 entry, Z.lnot key1); (AR_KEYTABLE_KEY2 entry, key2); (AR_KEYTABLE_KEY3 entry, key3);
             (AR_KEYTABLE_KEY4 entry, key4); (AR_KEYTABLE_TYPE entry, keyType)] in
          let '(c, _) := ath_hw_keysetmac c entry mac in
          let c :=
            if cap_mic_combined c then
              reg_writes c
                [(AR_KEYTABLE_KEY0 micentry, get_le32 kv 16); (AR_KEYTABLE_KEY1 micentry, Z.land (get_le16 kv 26) 0xffff);
                 (AR_KEYTABLE_KEY2 micentry, get_le32 kv 20); (AR_KEYTABLE_KEY3 micentry, Z.land (get_le16 kv 24) 0xffff);
                 (AR_KEYTABLE_KEY4 micentry, get_le32 kv 28); (AR_KEYTABLE_TYPE micentry, AR_KEYTABLE_TYPE_CLR)]
            else
              reg_writes c
                [(AR_KEYTABLE_KEY0 micentry, get_le32 kv 16); (AR_KEYTABLE_KEY1 micentry, 0); (AR_KEYTABLE_KEY2 micentry, get_le32 kv 20);
                 (AR_KEYTABLE_KEY3 micentry, 0); (AR_KEYTABLE_KEY4 micentry, 0); (AR_KEYTABLE_TYPE micentry, AR_KEYTABLE_TYPE_CLR)] in
          (reg_writes c
             [(AR_KEYTABLE_MAC0 micentry, 0); (AR_KEYTABLE_MAC1 micentry, 0); (AR_KEYTABLE_KEY0 entry, key0); (AR_KEYTABLE_KEY1 entry, key1)], true)
        else
          let c := reg_writes c
            [(AR_KEYTABLE_KEY0 entry, key0); (AR_KEYTABLE_KEY1 entry, key1); (AR_KEYTABLE_KEY2 entry, key2); (AR_KEYTABLE_KEY3 entry, key3);
             (AR_KEYTABLE_KEY4 entry, key4); (AR_KEYTABLE_TYPE entry, keyType)] in
          let '(c, _) := ath_hw_keysetmac c entry mac in
          (c, true)
    end.

(** The MIC keys of a TKIP key are eight bytes each. *)
Definition ath_setkey_tkip (c : ath_common) (keyix : nat) (key : list Z) (hk : ath_keyval) (addr : option (list Z)) (authenticator : bool) : ath_common * bool :=
  let key_txmic := take 8 (drop NL80211_TKIP_DATA_OFFSET_TX_MIC_KEY key) in
  let key_rxmic := take 8 (drop NL80211_TKIP_DATA_OFFSET_RX_MIC_KEY key) in
  match addr with
  | None =>
      ath_hw_set_keycache_entry c keyix (if authenticator then kv_set_mics hk key_txmic key_txmic else kv_set_mics hk key_rxmic key_rxmic) None
  | Some addr =>
      if cap_mic_combined c then ath_hw_set_keycache_entry c keyix (kv_set_mics hk key_rxmic key_txmic) (Some addr)
      else
        let '(c, ok) := ath_hw_set_keycache_entry c keyix (kv_set_mics hk key_txmic (drop 24 (kv_bytes hk))) None in
        if negb ok then (c, false)
        else ath_hw_set_keycache_entry c (keyix + 32) (kv_set_mics hk key_rxmic (drop 24 (kv_bytes hk))) (Some addr)
  end.

(** ** Slots *)

Definition test_bit (m : list bool) (i : nat) : option bool := m !! i.
Definition set_bit (i : nat) (m : list bool) : option (list bool) := if bool_decide (i < length m)%nat then Some (<[i := true]> m) else None.
Definition clear_bit (i : nat) (m : list bool) : option (list bool) := if bool_decide (i < length m)%nat then Some (<[i := false]> m) else None.

(** [||] and [&&] of C: the second is only looked at when it matters. *)
Definition or_else (a b : option bool) : option bool := match a with Some true => Some true | Some false => b | None => None end.
Definition and_then (a b : option bool) : option bool := match a with Some true => b | Some false => Some false | None => None end.
Definition not (a : option bool) : option bool := negb <$> a.

(** A loop that returns from its body: the body gives what to return, or
    nothing to go on; no slot is the result -1. *)
Fixpoint first_slot (body : nat -> option (option nat)) (l : list nat) : option (option nat) :=
  match l with
  | [] => Some None
  | i :: l => r ← body i; match r with Some s => Some (Some s) | None => first_slot body l end
  end.

(** The tests of the body, in turn. *)
Fixpoint cases (l : list (option bool * nat)) : option (option nat) :=
  match l with
  | [] => Some None
  | (b, s) :: l => b ← b; if (b : bool) then Some (Some s) else cases l
  end.

(** [i] from the first to before the last. *)
Definition range (a b : nat) : list nat := seq a (b - a).

Definition ath_reserve_key_cache_slot_tkip (c : ath_common) : option (option nat) :=
  let t := test_bit (keymap c) in
  first_slot (fun i =>
    used ← or_else (t i) (t (i + 64)%nat);
    if (used : bool) then Some None
    else if negb (cap_mic_combined c) then
      used ← or_else (t (i + 32)%nat) (t (i + 64 + 32)%nat);
      if (used : bool) then Some None else Some (Some i)
    else Some (Some i)) (range IEEE80211_WEP_NKID (keymax c / 2)).

(** Slots of which a part is taken, so that TKIP cannot use them. *)
Definition partly_used (c : ath_common) : option (option nat) :=
  let t := test_bit (keymap c) in
  if negb (cap_mic_combined c) then
    first_slot (fun i =>
      let a := t i in let b := t (i + 32)%nat in let d := t (i + 64)%nat in let e := t (i + 64 + 32)%nat in
      cases
        [(and_then (not a) (or_else b (or_else d e)), i); (and_then (not b) (or_else a (or_else d e)), (i + 32)%nat);
         (and_then (not d) (or_else a (or_else b e)), (i + 64)%nat); (and_then (not e) (or_else a (or_else b d)), (i + 64 + 32)%nat)])
      (range IEEE80211_WEP_NKID (keymax c / 4))
  else
    first_slot (fun i => cases [(and_then (not (t i)) (t (i + 64)%nat), i); (and_then (t i) (not (t (i + 64)%nat)), (i + 64)%nat)])
      (range IEEE80211_WEP_NKID (keymax c / 2)).

(** Slots that a TKIP group key could need. *)
Definition group_slot (c : ath_common) (i : nat) : bool :=
  let within a := bool_decide (a <= i)%nat && bool_decide (i < a + IEEE80211_WEP_NKID)%nat in
  within 64%nat || (negb (cap_mic_combined c) && (within 32%nat || within (64 + 32)%nat)).

Definition any_slot (c : ath_common) : option (option nat) :=
  first_slot (fun i => if group_slot c i then Some None else used ← test_bit (keymap c) i; if (used : bool) then Some None else Some (Some i))
    (range IEEE80211_WEP_NKID (keymax c)).

Definition ath_reserve_key_cache_slot (c : ath_common) (cipher : Z) : option (option nat) :=
  if cipher =? WLAN_CIPHER_SUITE_TKIP then ath_reserve_key_cache_slot_tkip c
  else r ← partly_used c; match r with Some s => Some (Some s) | None => any_slot c end.

(** ** Setting and deleting a key *)

Definition cipher_type (cipher : Z) : option ath_cipher :=
  if cipher =? 0 then Some ATH_CIPHER_CLR
  else if (cipher =? WLAN_CIPHER_SUITE_WEP40) || (cipher =? WLAN_CIPHER_SUITE_WEP104) then Some ATH_CIPHER_WEP
  else if cipher =? WLAN_CIPHER_SUITE_TKIP then Some ATH_CIPHER_TKIP
  else if cipher =? WLAN_CIPHER_SUITE_CCMP then Some ATH_CIPHER_AES_CCM
  else None.

(** An address with the group bit set. *)
Definition gmac (addr : list Z) : list Z := match addr with b :: addr => Z.lor b 0x01 :: addr | [] => [] end.

(** Where the key goes: an error, or a slot (a negative one for none) and the
    address of the entry. *)
Definition choose_slot (c : ath_common) (vif : iftype) (vif_addr : list Z) (sta : option (list Z)) (k : key_conf)
    : option (Z + option nat * option (list Z)) :=
  let reserve := ath_reserve_key_cache_slot c (cipher k) in
  let fixed := Some (Z.to_nat (keyidx k)) in
  if negb (pairwise k) then
    match vif with
    | AP => idx ← reserve; Some (inr (idx, Some (gmac vif_addr)))
    | ADHOC =>
        match sta with
        | None => Some (inr (fixed, None))
        | Some sta => idx ← reserve; Some (inr (idx, Some (gmac sta)))
        end
    | _ => Some (inr (fixed, None))
    end
  else
    match sta with
    | None => Some (inl (- EOPNOTSUPP))
    | Some sta =>
        if negb (keyidx k =? 0) then
          if bool_decide (vif <> AP) then Some (inr (fixed, Some sta)) else Some (inl (- EIO))
        else idx ← reserve; Some (inr (idx, Some sta))
    end.

Definition mark_slots (c : ath_common) (idx : nat) (cipher : Z) : option ath_common :=
  m ← set_bit idx (keymap c);
  p ← (if cipher =? WLAN_CIPHER_SUITE_CCMP then set_bit idx (ccmp_keymap c) else Some (ccmp_keymap c));
  if cipher =? WLAN_CIPHER_SUITE_TKIP then
    m ← set_bit (idx + 64) m; t ← set_bit idx (tkip_keymap c); t ← set_bit (idx + 64) t;
    if negb (cap_mic_combined c) then
      m ← set_bit (idx + 32) m; m ← set_bit (idx + 64 + 32) m; t ← set_bit (idx + 32) t; t ← set_bit (idx + 64 + 32) t;
      Some (set_maps c m t p)
    else Some (set_maps c m t p)
  else Some (set_maps c m (tkip_keymap c) p).

Definition ath_key_config (c : ath_common) (vif : iftype) (vif_addr : list Z) (sta : option (list Z)) (k : key_conf) : option (ath_common * Z) :=
  match cipher_type (cipher k) with
  | None => Some (c, - EOPNOTSUPP)
  | Some ty =>
      if bool_decide (32 < length (key k))%nat then None
      else
        let hk := Keyval ty (length (key k)) (key k ++ repeat 0 (32 - length (key k))) in
        r ← choose_slot c vif vif_addr sta k;
        match r with
        | inl err => Some (c, err)
        | inr (None, _) => Some (c, - ENOSPC)
        | inr (Some idx, mac) =>
            let '(c, ret) :=
              if cipher k =? WLAN_CIPHER_SUITE_TKIP then ath_setkey_tkip c idx (key k) hk mac (bool_decide (vif = AP))
              else ath_hw_set_keycache_entry c idx hk mac in
            if negb ret then Some (c, - EIO)
            else c ← mark_slots c idx (cipher k); Some (c, Z.of_nat idx)
        end
  end.

Definition ath_key_delete (c : ath_common) (k : key_conf) : option ath_common :=
  let i := hw_key_idx k in
  let '(c, _) := ath_hw_keyreset c i in
  if bool_decide (i < IEEE80211_WEP_NKID)%nat then Some c
  else
    m ← clear_bit i (keymap c); p ← clear_bit i (ccmp_keymap c);
    if negb (cipher k =? WLAN_CIPHER_SUITE_TKIP) then Some (set_maps c m (tkip_keymap c) p)
    else
      m ← clear_bit (i + 64) m; t ← clear_bit i (tkip_keymap c); t ← clear_bit (i + 64) t;
      if negb (cap_mic_combined c) then
        let '(c, _) := ath_hw_keyreset c (i + 32) in
        m ← clear_bit (i + 32) m; m ← clear_bit (i + 64 + 32) m; t ← clear_bit (i + 32) t; t ← clear_bit (i + 64 + 32) t;
        Some (set_maps c m t p)
      else Some (set_maps c m t p).

(** The cache at the start: its size, the capabilities, and all entries reset. *)
Definition ath9k_cmn_init_crypto (aesccm mic_new_loc_ena : bool) (r : gmap Z Z) : ath_common :=
  let c := Common AR_KEYTABLE_SIZE (repeat false 128) (repeat false 128) (repeat false 128) aesccm mic_new_loc_ena r in
  fold_left (fun c i => (ath_hw_keyreset c i).1) (seq 0 (keymax c)) c.

(** ** The driver *)

(** [htc_modparam_nohwcrypt], [sw_mgmt_crypto], the interface. *)
Record htc_conf := Htc { nohwcrypt : bool; sw_mgmt_crypto : bool; vif_type : iftype; vif_addr : list Z }.

Definition accepted (h : htc_conf) (k : key_conf) (idx : nat) : key_conf :=
  Conf (cipher k) idx (keyidx k) (key k) (wmm_sta k) true
    (generate_mmic k || (cipher k =? WLAN_CIPHER_SUITE_TKIP)) (pairwise k)
    (sw_mgmt_tx k || (sw_mgmt_crypto h && (cipher k =? WLAN_CIPHER_SUITE_CCMP))) (put_iv_space k) (rx_mgmt k).

Definition refused (h : htc_conf) (k : key_conf) : option Z :=
  if nohwcrypt h then Some (- ENOSPC)
  else if bool_decide (vif_type h = ADHOC \/ vif_type h = MESH_POINT) &&
      ((cipher k =? WLAN_CIPHER_SUITE_TKIP) || (cipher k =? WLAN_CIPHER_SUITE_CCMP)) && negb (pairwise k)
  then Some (- EOPNOTSUPP)
  else None.

(** [ath9k_htc_set_key] with [SET_KEY] and with [DISABLE_KEY]. *)
Definition htc_set_key (h : htc_conf) (c : ath_common) (sta : option (list Z)) (k : key_conf) : option (ath_common * Z * key_conf) :=
  match refused h k with
  | Some err => Some (c, err, k)
  | None =>
      '(c, ret) ← ath_key_config c (vif_type h) (vif_addr h) sta k;
      Some (if 0 <=? ret then (c, 0, accepted h k (Z.to_nat ret)) else (c, ret, k))
  end.

Definition htc_disable_key (h : htc_conf) (c : ath_common) (k : key_conf) : option (ath_common * Z) :=
  match refused h k with
  | Some err => Some (c, err)
  | None => c ← ath_key_delete c k; Some (c, 0)
  end.

(** ** Lemmas: registers *)

(** Word [j] of an entry. *)
Definition word (c : ath_common) (n j : nat) : Z := REG_READ c (AR_KEYTABLE n + 4 * Z.of_nat j).
Definition entry_words (c : ath_common) (n : nat) : list Z := word c n <$> seq 0 8.

(** Writes of words of an entry, as the code writes them. *)
Definition to_entry (n : nat) (l : list (nat * Z)) : list (Z * Z) := (fun w => (AR_KEYTABLE n + 4 * Z.of_nat w.1, w.2)) <$> l.

Lemma word_write c n j a v : word (REG_WRITE c a v) n j = if decide (a = AR_KEYTABLE n + 4 * Z.of_nat j) then u32 v else word c n j.
Proof.
  unfold word, REG_READ, REG_WRITE; cbn [regs set_regs]; case_decide as E; [subst a; by rewrite lookup_insert_eq|by rewrite lookup_insert_ne].
Qed.

Lemma entry_address n j m k : (j < 8)%nat -> (k < 8)%nat -> AR_KEYTABLE n + 4 * Z.of_nat j = AR_KEYTABLE m + 4 * Z.of_nat k -> n = m /\ j = k.
Proof. unfold AR_KEYTABLE; lia. Qed.

(** The last value written to a word. *)
Fixpoint written (l : list (nat * Z)) (j : nat) (old : Z) : Z :=
  match l with [] => old | (i, v) :: l => written l j (if decide (i = j) then u32 v else old) end.

Definition in_entry (l : list (nat * Z)) : Prop := Forall (fun w => (w.1 < 8)%nat) l.

Lemma word_writes c n m l j : in_entry l -> (j < 8)%nat ->
  word (reg_writes c (to_entry n l)) m j = if decide (n = m) then written l j (word c m j) else word c m j.
Proof.
  unfold reg_writes; intros Hl Hj; revert c; induction l as [|[i v] l IH]; intros c; [by case_decide|].
  apply Forall_cons_1 in Hl as [Hi Hl]; cbn [to_entry fmap list_fmap fold_left fst snd] in *; rewrite (IH Hl), word_write.
  case_decide as En; [subst m; cbn [written]; f_equal; case_decide as E; case_decide as E'; try done|case_decide as E; [|done]].
  - destruct (entry_address n i n j Hi Hj E); done.
  - subst i; done.
  - destruct (entry_address n i m j Hi Hj E); done.
Qed.

(** The rest of the state is left alone. *)
Definition same_maps (c c' : ath_common) : Prop :=
  keymax c' = keymax c /\ keymap c' = keymap c /\ tkip_keymap c' = tkip_keymap c /\ ccmp_keymap c' = ccmp_keymap c /\
  cap_aesccm c' = cap_aesccm c /\ cap_mic_combined c' = cap_mic_combined c.

Lemma same_maps_refl c : same_maps c c. Proof. done. Qed.
Lemma same_maps_trans c1 c2 c3 : same_maps c1 c2 -> same_maps c2 c3 -> same_maps c1 c3.
Proof. unfold same_maps; intros; naive_solver congruence. Qed.

Lemma writes_maps c l : same_maps c (reg_writes c l).
Proof. unfold reg_writes; revert c; induction l as [|w l IH]; intros c; [done|]; cbn [fold_left]; eapply same_maps_trans; [|apply IH]; done. Qed.

(** What the code writes to an entry, in terms of its words. *)
Definition mac_words (mac : option (list Z)) : Z * Z :=
  match mac with
  | Some mac => (Z.lor (Z.shiftr (get_le32 mac 0) 1) (u32 (Z.shiftl (Z.land (get_le16 mac 4) 1) 31)),
                 Z.lor (Z.shiftr (get_le16 mac 4) 1) (if Z.testbit (mac.[0]) 0 then 0 else AR_KEYTABLE_VALID))
  | None => (0, AR_KEYTABLE_VALID)
  end.

Lemma keysetmac_writes c n mac : (n < keymax c)%nat ->
  (ath_hw_keysetmac c n mac).1 = reg_writes c (to_entry n [(6%nat, (mac_words mac).1); (7%nat, (mac_words mac).2)]).
Proof. intros Hn; unfold ath_hw_keysetmac; rewrite bool_decide_false by lia; by destruct mac. Qed.

Lemma reg_writes_app c l1 l2 : reg_writes (reg_writes c l1) l2 = reg_writes c (l1 ++ l2).
Proof. unfold reg_writes; by rewrite fold_left_app. Qed.

(** The words a plain key ends up in. *)
Definition key4_of (k : ath_keyval) : Z :=
  if bool_decide (kv_len k <= WLAN_KEY_LEN_WEP104)%nat then Z.land (get_le32 (kv_bytes k) 12) 0xff else get_le32 (kv_bytes k) 12.

Definition key_words (k : ath_keyval) (ty : Z) (mac : option (list Z)) : list Z :=
  [get_le32 (kv_bytes k) 0; get_le16 (kv_bytes k) 4; get_le32 (kv_bytes k) 6; get_le16 (kv_bytes k) 10; key4_of k; ty;
   (mac_words mac).1; (mac_words mac).2].

Definition mic_words (k : ath_keyval) : list Z :=
  [get_le32 (kv_bytes k) 16; Z.land (get_le16 (kv_bytes k) 26) 0xffff; get_le32 (kv_bytes k) 20; Z.land (get_le16 (kv_bytes k) 24) 0xffff;
   get_le32 (kv_bytes k) 28; AR_KEYTABLE_TYPE_CLR; 0; 0].

Lemma entry_words_ne c n m l : in_entry l -> n <> m -> entry_words (reg_writes c (to_entry n l)) m = entry_words c m.
Proof. intros Hl Hne; unfold entry_words; apply list_fmap_ext; intros i j Hj; apply lookup_seq in Hj as [-> Hj]; rewrite word_writes by (done || lia); by rewrite decide_False. Qed.

Lemma entry_words_eq c n l : in_entry l -> entry_words (reg_writes c (to_entry n l)) n = (fun j => written l j (word c n j)) <$> seq 0 8.
Proof. intros Hl; unfold entry_words; apply list_fmap_ext; intros i j Hj; apply lookup_seq in Hj as [-> Hj]; rewrite word_writes by (done || lia); by rewrite decide_True. Qed.

Ltac in_entry_tac := repeat constructor; cbn; lia.

(** What is left alone but for some entries. *)
Definition touches (ns : list nat) (c c' : ath_common) : Prop := same_maps c c' /\ forall m, m ∉ ns -> entry_words c' m = entry_words c m.

Lemma touches_trans ns c1 c2 c3 : touches ns c1 c2 -> touches ns c2 c3 -> touches ns c1 c3.
Proof. intros [H1 H2] [H3 H4]; split; [by eapply same_maps_trans|]; intros m Hm; by rewrite H4, H2. Qed.

Lemma touches_writes ns c n l : in_entry l -> n ∈ ns -> touches ns c (reg_writes c (to_entry n l)).
Proof. intros Hl Hn; split; [apply writes_maps|]; intros m Hm; apply entry_words_ne; [done|]; by intros ->. Qed.

(** The writes of a plain entry, and of one with its MIC keys. *)
Definition plain_writes (k : ath_keyval) (ty : Z) (mac : option (list Z)) : list (nat * Z) :=
  [(0%nat, get_le32 (kv_bytes k) 0); (1%nat, get_le16 (kv_bytes k) 4); (2%nat, get_le32 (kv_bytes k) 6); (3%nat, get_le16 (kv_bytes k) 10);
   (4%nat, key4_of k); (5%nat, ty); (6%nat, (mac_words mac).1); (7%nat, (mac_words mac).2)].

Definition tkip_writes (k : ath_keyval) (mac : option (list Z)) : list (nat * Z) :=
  [(0%nat, Z.lnot (get_le32 (kv_bytes k) 0)); (1%nat, Z.lnot (get_le16 (kv_bytes k) 4)); (2%nat, get_le32 (kv_bytes k) 6);
   (3%nat, get_le16 (kv_bytes k) 10); (4%nat, key4_of k); (5%nat, AR_KEYTABLE_TYPE_TKIP); (6%nat, (mac_words mac).1); (7%nat, (mac_words mac).2)].

Definition mic_writes (k : ath_keyval) : list (nat * Z) :=
  [(0%nat, get_le32 (kv_bytes k) 16); (1%nat, Z.land (get_le16 (kv_bytes k) 26) 0xffff); (2%nat, get_le32 (kv_bytes k) 20);
   (3%nat, Z.land (get_le16 (kv_bytes k) 24) 0xffff); (4%nat, get_le32 (kv_bytes k) 28); (5%nat, AR_KEYTABLE_TYPE_CLR); (6%nat, 0); (7%nat, 0)].

Definition last_writes (k : ath_keyval) : list (nat * Z) := [(0%nat, get_le32 (kv_bytes k) 0); (1%nat, get_le16 (kv_bytes k) 4)].

Lemma set_plain_writes c n k mac ty : (n < keymax c)%nat -> key_type c n k = Some ty -> ty <> AR_KEYTABLE_TYPE_TKIP ->
  ath_hw_set_keycache_entry c n k mac = (reg_writes c (to_entry n (plain_writes k ty mac)), true).
Proof.
  intros Hn Ht Hne; unfold ath_hw_set_keycache_entry; rewrite bool_decide_false by lia; rewrite Ht; destruct (Z.eqb_spec ty AR_KEYTABLE_TYPE_TKIP); [done|].
  set (c1 := reg_writes c _); unfold ath_hw_keysetmac; change (keymax c1) with (keymax c); rewrite bool_decide_false by lia; by destruct mac.
Qed.

Lemma set_tkip_writes c n k mac : (n + 64 < keymax c)%nat -> kv_type k = ATH_CIPHER_TKIP -> cap_mic_combined c = true ->
  ath_hw_set_keycache_entry c n k mac =
  (reg_writes (reg_writes (reg_writes c (to_entry n (tkip_writes k mac))) (to_entry (n + 64) (mic_writes k))) (to_entry n (last_writes k)), true).
Proof.
  intros Hn Ht Hc; unfold ath_hw_set_keycache_entry, key_type; rewrite bool_decide_false by lia; rewrite Ht, bool_decide_false by lia; cbn [Z.eqb].
  change (AR_KEYTABLE_TYPE_TKIP =? AR_KEYTABLE_TYPE_TKIP) with true; cbn match.
  set (c1 := reg_writes c _); unfold ath_hw_keysetmac; change (keymax c1) with (keymax c); rewrite bool_decide_false by lia.
  destruct (match mac with Some _ => _ | None => _ end) as [[lo hi] fl] eqn:Em; set (c2 := reg_writes c1 _).
  change (cap_mic_combined c2) with (cap_mic_combined c); rewrite Hc; set (c3 := reg_writes c2 _).
  assert (E2 : c2 = reg_writes c (to_entry n (tkip_writes k mac))) by (unfold c2; destruct mac; injection Em as <- <- <-; reflexivity).
  unfold c3; rewrite E2; reflexivity.
Qed.

(** The words of the entry set, the last word written to each. *)
Lemma words_after c n l ws : in_entry l -> (fun j => written l j (word c n j)) <$> seq 0 8 = ws -> entry_words (reg_writes c (to_entry n l)) n = ws.
Proof. intros Hl <-; by apply entry_words_eq. Qed.

Lemma set_entry_plain c n k mac ty : (n < keymax c)%nat -> key_type c n k = Some ty -> ty <> AR_KEYTABLE_TYPE_TKIP ->
  exists c', ath_hw_set_keycache_entry c n k mac = (c', true) /\ touches [n] c c' /\ entry_words c' n = u32 <$> key_words k ty mac.
Proof.
  intros Hn Ht Hne; eexists; split; [by apply set_plain_writes|]; assert (Hl : in_entry (plain_writes k ty mac)) by (repeat constructor; cbn; lia).
  split; [apply touches_writes; [done|set_solver]|]; by apply words_after.
Qed.

Lemma set_entry_tkip c n k mac : (n + 64 < keymax c)%nat -> kv_type k = ATH_CIPHER_TKIP -> cap_mic_combined c = true ->
  exists c', ath_hw_set_keycache_entry c n k mac = (c', true) /\ touches [n; n + 64]%nat c c' /\
    entry_words c' n = u32 <$> key_words k AR_KEYTABLE_TYPE_TKIP mac /\ entry_words c' (n + 64) = u32 <$> mic_words k.
Proof.
  intros Hn Ht Hc; eexists; split; [by apply set_tkip_writes|]; set (c1 := reg_writes c _); set (c2 := reg_writes c1 _).
  assert (L1 : in_entry (tkip_writes k mac)) by (repeat constructor; cbn; lia); assert (L2 : in_entry (mic_writes k)) by (repeat constructor; cbn; lia).
  assert (L3 : in_entry (last_writes k)) by (repeat constructor; cbn; lia).
  split; [eapply touches_trans; [|apply touches_writes; [done|set_solver]]; eapply touches_trans; apply touches_writes; (done || set_solver)|]; split.
  - apply words_after; [done|]; transitivity ((fun j => written (last_writes k) j (written (tkip_writes k mac) j (word c n j))) <$> seq 0 8); [|reflexivity].
    apply list_fmap_ext; intros i j Hj; apply lookup_seq in Hj as [-> Hj]; f_equal.
    unfold c2; rewrite word_writes, decide_False by (done || lia); unfold c1; by rewrite word_writes, decide_True by (done || lia).
  - rewrite entry_words_ne by (done || lia); apply words_after; done.
Qed.

(** *** Reset *)

Definition cleared : list Z := [0; 0; 0; 0; 0; AR_KEYTABLE_TYPE_CLR; 0; 0].
Definition reset_writes : list (nat * Z) := (fun j => (j, cleared.[j])) <$> seq 0 8.
Definition mic_reset_writes (combined : bool) : list (nat * Z) :=
  [(0%nat, 0); (1%nat, 0); (2%nat, 0); (3%nat, 0)] ++ if combined then [(4%nat, 0); (5%nat, AR_KEYTABLE_TYPE_CLR)] else [].

Lemma keyreset_writes c n : (n < keymax c)%nat ->
  (ath_hw_keyreset c n).1 =
  if word c n 5 =? AR_KEYTABLE_TYPE_TKIP
  then reg_writes (reg_writes c (to_entry n reset_writes)) (to_entry (n + 64) (mic_reset_writes (cap_mic_combined c)))
  else reg_writes c (to_entry n reset_writes).
Proof.
  intros Hn; unfold ath_hw_keyreset; rewrite bool_decide_false by lia; change (REG_READ c (AR_KEYTABLE_TYPE n)) with (word c n 5); cbn [fst].
  destruct (_ =? _); [|reflexivity]; set (c1 := reg_writes c _); set (c2 := reg_writes c1 _); change (cap_mic_combined c2) with (cap_mic_combined c).
  by destruct (cap_mic_combined c).
Qed.

Lemma in_reset : in_entry reset_writes. Proof. repeat constructor; cbn; lia. Qed.
Lemma in_mic_reset b : in_entry (mic_reset_writes b). Proof. destruct b; repeat constructor; cbn; lia. Qed.

Lemma keyreset_spec c n : (n < keymax c)%nat -> let c' := (ath_hw_keyreset c n).1 in
  touches (n :: if word c n 5 =? AR_KEYTABLE_TYPE_TKIP then [(n + 64)%nat] else []) c c' /\ entry_words c' n = cleared /\
  (word c n 5 = AR_KEYTABLE_TYPE_TKIP -> cap_mic_combined c = true -> word c (n + 64) 6 = 0 -> word c (n + 64) 7 = 0 -> entry_words c' (n + 64) = cleared).
Proof.
  intros Hn; cbn zeta; rewrite keyreset_writes by done; pose proof in_reset as L1; pose proof (in_mic_reset (cap_mic_combined c)) as L2.
  set (c1 := reg_writes c (to_entry n reset_writes)); assert (E1 : entry_words c1 n = cleared) by (apply words_after; [done|reflexivity]).
  destruct (Z.eqb_spec (word c n 5) AR_KEYTABLE_TYPE_TKIP) as [Ht|Ht].
  - split; [eapply touches_trans; apply touches_writes; (done || set_solver)|]; split; [by rewrite entry_words_ne by (done || lia)|].
    intros _ Hc H6 H7; rewrite entry_words_eq by done; rewrite Hc.
    assert (W : forall j, (j < 8)%nat -> word c1 (n + 64) j = word c (n + 64) j) by (intros j Hj; unfold c1; rewrite word_writes, decide_False by (done || lia); done).
    cbn [seq fmap list_fmap]; rewrite !W, H6, H7 by lia; reflexivity.
  - split; [apply touches_writes; [done|set_solver]|]; by split.
Qed.

(** ** Lemmas: what an entry holds *)

(** The key, the MIC keys, the address without its group bit, and whether the
    entry is for unicast. *)
Definition hw_key (ws : list Z) : list Z :=
  put_le32 (ws.[0]) ++ put_le16 (ws.[1]) ++ put_le32 (ws.[2]) ++ put_le16 (ws.[3]) ++ put_le32 (ws.[4]).
Definition hw_type (ws : list Z) : Z := ws.[5].
Definition hw_rxmic (ws : list Z) : list Z := put_le32 (ws.[0]) ++ put_le32 (ws.[2]).
Definition hw_txmic (ws : list Z) : list Z := put_le16 (ws.[3]) ++ put_le16 (ws.[1]) ++ put_le32 (ws.[4]).
Definition hw_mac (ws : list Z) : list Z :=
  let v := 2 * (ws.[6] + (ws.[7] mod 2 ^ 15) * 2 ^ 32) in put_le32 (u32 v) ++ put_le16 (u16 (v / 2 ^ 32)).
Definition hw_unicast (ws : list Z) : bool := Z.testbit (ws.[7]) 15.

Lemma put_get_le16_at p i : bytes p -> (i + 2 <= length p)%nat -> put_le16 (get_le16 p i) = take 2 (drop i p).
Proof.
  intros Hp Hl; rewrite get_le16_val by done; pose proof (byte_at_range p i Hp) as H1; pose proof (byte_at_range p (i + 1) Hp) as H2.
  unfold is_uint in *.
  assert (E : drop i p = p.[i] :: p.[i + 1] :: drop (i + 2) p).
  { rewrite (drop_S p (p.[i])) by (apply lookup_byte_at; lia); rewrite (drop_S p (p.[i + 1]) (S i)) by (rewrite <- Nat.add_1_r; apply lookup_byte_at; lia).
    repeat f_equal; lia. }
  rewrite E; unfold put_le16; cbn [take]; rewrite !u8_mod, shiftr8; f_equal; [|f_equal]; arith.
Qed.

Lemma u32_le16 p i : bytes p -> u32 (get_le16 p i) = get_le16 p i.
Proof. intros Hp; apply wrap_small; pose proof (get_le16_range p i Hp) as H; unfold is_uint in *; lia. Qed.
Lemma u32_le32 p i : bytes p -> u32 (get_le32 p i) = get_le32 p i.
Proof. intros Hp; apply wrap_small; by apply get_le32_range. Qed.

Lemma words_u32 k ty mac : bytes (kv_bytes k) -> is_u32 ty -> (forall m, mac = Some m -> bytes m /\ length m = 6%nat) ->
  u32 <$> key_words k ty mac = key_words k ty mac /\ u32 <$> mic_words k = mic_words k.
Proof.
  intros Hk Ht Hm; unfold key_words, mic_words, key4_of; cbn [fmap list_fmap]; rewrite !u32_le32, !u32_le16 by done.
  assert (H4 : u32 (if bool_decide (kv_len k <= WLAN_KEY_LEN_WEP104)%nat then Z.land (get_le32 (kv_bytes k) 12) 255 else get_le32 (kv_bytes k) 12) =
    if bool_decide (kv_len k <= WLAN_KEY_LEN_WEP104)%nat then Z.land (get_le32 (kv_bytes k) 12) 255 else get_le32 (kv_bytes k) 12).
  { case_bool_decide; [|by apply u32_le32]; apply wrap_small; change 255 with (Z.ones 8); rewrite Z.land_ones by lia; unfold is_uint; arith. }
  assert (Hl : forall i, u32 (Z.land (get_le16 (kv_bytes k) i) 65535) = Z.land (get_le16 (kv_bytes k) i) 65535).
  { intros i; apply wrap_small; change 65535 with (Z.ones 16); rewrite Z.land_ones by lia; unfold is_uint; arith. }
  assert (Ety : u32 ty = ty) by (by apply wrap_small); rewrite H4, !Hl, Ety.
  assert (Hmac : u32 (mac_words mac).1 = (mac_words mac).1 /\ u32 (mac_words mac).2 = (mac_words mac).2).
  { destruct mac as [m|]; [|done]; destruct (Hm m eq_refl) as [Hb _]; pose proof (get_le16_range m 4 Hb) as H16; cbn [mac_words fst snd]; split; apply wrap_small.
    - apply is_uint_lor; [lia| |apply u32_range]; apply is_uint_shiftr; [lia|by apply get_le32_range].
    - apply is_uint_lor; [lia| |by destruct (Z.testbit _ _)]; apply is_uint_shiftr; [lia|]; unfold is_uint in *; lia. }
  by destruct Hmac as [-> ->].
Qed.

Lemma take_drop_split {A} (l : list A) n m : take n l ++ take m (drop n l) = take (n + m) l.
Proof. by rewrite take_take_drop. Qed.

Lemma key_content k ty mac : bytes (kv_bytes k) -> length (kv_bytes k) = 32%nat ->
  ((kv_len k <= WLAN_KEY_LEN_WEP104)%nat -> (kv_bytes k).[13] = 0 /\ (kv_bytes k).[14] = 0 /\ (kv_bytes k).[15] = 0) ->
  hw_key (key_words k ty mac) = take 16 (kv_bytes k).
Proof.
  intros Hb Hl Hz; unfold hw_key, key_words, key4_of; unfold byte_at at 1 2 3 4 5; cbn [nth].
  assert (H4 : (if bool_decide (kv_len k <= WLAN_KEY_LEN_WEP104)%nat then Z.land (get_le32 (kv_bytes k) 12) 255 else get_le32 (kv_bytes k) 12) = get_le32 (kv_bytes k) 12).
  { case_bool_decide as Hs; [|done]; destruct (Hz Hs) as (E1 & E2 & E3); rewrite get_le32_val by done; cbn [Nat.add]; rewrite E1, E2, E3.
    change 255 with (Z.ones 8); rewrite Z.land_ones by lia; pose proof (byte_at_range (kv_bytes k) 12 Hb); unfold is_uint in *; rewrite Z.mod_small; lia. }
  rewrite H4, !put_get_le32, !put_get_le16_at by (done || lia); rewrite drop_0.
  rewrite <- (take_drop_split _ 4 12); f_equal; rewrite <- (take_drop_split _ 2 10), drop_drop; f_equal.
  rewrite <- (take_drop_split _ 4 6), drop_drop; f_equal; rewrite <- (take_drop_split _ 2 4), drop_drop; done.
Qed.

Lemma mic_content k : bytes (kv_bytes k) -> length (kv_bytes k) = 32%nat ->
  hw_rxmic (mic_words k) = take 8 (drop 16 (kv_bytes k)) /\ hw_txmic (mic_words k) = take 8 (drop 24 (kv_bytes k)).
Proof.
  intros Hb Hl; unfold hw_rxmic, hw_txmic, mic_words; unfold byte_at; cbn [nth].
  assert (E : forall i, Z.land (get_le16 (kv_bytes k) i) 65535 = get_le16 (kv_bytes k) i).
  { intros i; change 65535 with (Z.ones 16); rewrite Z.land_ones by lia; apply Z.mod_small, get_le16_range, Hb. }
  rewrite !E, !put_get_le32, !put_get_le16_at by (done || lia); split.
  - rewrite <- (take_drop_split _ 4 4), drop_drop; done.
  - rewrite <- (take_drop_split _ 2 6), drop_drop; f_equal; rewrite <- (take_drop_split _ 2 4), drop_drop; done.
Qed.

Definition upper (mac : list Z) : list Z := match mac with b :: mac => Z.land b 0xfe :: mac | [] => [] end.

Lemma u8_land_fe b : is_u8 b -> Z.land b 0xfe = 2 * (b / 2).
Proof.
  intros Hb; unfold is_uint in Hb; assert (H : forallb (fun n => Z.land (Z.of_nat n) 254 =? 2 * (Z.of_nat n / 2)) (seq 0 256) = true) by (vm_compute; done).
  rewrite forallb_forall in H; specialize (H (Z.to_nat b)); rewrite Z2Nat.id in H by lia; apply Z.eqb_eq, H, in_seq; lia.
Qed.

Lemma mac_content k ty m : bytes m -> length m = 6%nat ->
  hw_mac (key_words k ty (Some m)) = upper m /\ hw_unicast (key_words k ty (Some m)) = negb (Z.testbit (m.[0]) 0).
Proof.
  intros Hb Hl; assert (Hlo : is_u32 (get_le32 m 0)) by kint; assert (Hhi : is_u16 (get_le16 m 4)) by kint.
  set (flag := if Z.testbit (m.[0]) 0 then 0 else 1); assert (Hf : 0 <= flag < 2) by (unfold flag; case_match; lia).
  assert (E1 : (mac_words (Some m)).1 = get_le32 m 0 / 2 + (get_le16 m 4 mod 2) * 2 ^ 31).
  { cbn [mac_words fst]; rewrite Z.shiftr_div_pow2 by lia; change (Z.land (get_le16 m 4) 1) with (Z.land (get_le16 m 4) (Z.ones 1)); rewrite Z.land_ones by lia.
    rewrite (wrap_small 32 : forall z, is_u32 z -> u32 z = z) by (rewrite Z.shiftl_mul_pow2 by lia; unfold is_uint; arith).
    change (2 ^ 1) with 2; rewrite lor_shiftl_add by (unfold is_uint in *; try lia; arith); done. }
  assert (E2 : (mac_words (Some m)).2 = get_le16 m 4 / 2 + flag * 2 ^ 15).
  { cbn [mac_words snd]; rewrite Z.shiftr_div_pow2 by lia; change (2 ^ 1) with 2.
    assert (Ef : (if Z.testbit (m.[0]) 0 then 0 else AR_KEYTABLE_VALID) = Z.shiftl flag 15) by (unfold flag; by case_match).
    rewrite Ef, lor_shiftl_add by (unfold is_uint in *; try lia; arith); done. }
  unfold hw_mac, hw_unicast; change ((key_words k ty (Some m)).[6]) with (mac_words (Some m)).1; change ((key_words k ty (Some m)).[7]) with (mac_words (Some m)).2.
  rewrite E1, E2; unfold is_uint in *; split.
  - assert (Em : (get_le16 m 4 / 2 + flag * 2 ^ 15) mod 2 ^ 15 = get_le16 m 4 / 2) by (rewrite Z.mod_add, Z.mod_small by (try lia; arith); done); rewrite Em.
    set (v := 2 * _); assert (Ev : v = 2 * (get_le32 m 0 / 2) + get_le16 m 4 * 2 ^ 32) by (unfold v; arith); rewrite Ev.
    destruct m as [|b0 [|b1 [|b2 [|b3 [|b4 [|b5 [|]]]]]]]; try done.
    assert (Hu : bytes (upper [b0; b1; b2; b3; b4; b5])).
    { cbn [upper]; apply Forall_cons_1 in Hb as [H0 Hb]; constructor; [|done]; apply is_uint_land; [lia|done|lia]. }
    assert (F1 : get_le32 (upper [b0; b1; b2; b3; b4; b5]) 0 = 2 * (get_le32 [b0; b1; b2; b3; b4; b5] 0 / 2)).
    { rewrite !get_le32_val by done; cbn [upper Nat.add]; unfold byte_at; cbn [nth]; rewrite u8_land_fe by (by apply Forall_cons_1 in Hb as [? _]); arith. }
    assert (F2 : get_le16 (upper [b0; b1; b2; b3; b4; b5]) 4 = get_le16 [b0; b1; b2; b3; b4; b5] 4) by (rewrite !get_le16_val by done; done).
    set (x := 2 * (get_le32 _ 0 / 2)) in *; set (y := get_le16 [_; _; _; _; _; _] 4) in *; assert (Hx : 0 <= x < 2 ^ 32) by (unfold x; arith).
    assert (Ea : u32 (x + y * 2 ^ 32) = x) by (rewrite u32_mod; change 4294967296 with (2 ^ 32); rewrite Z.mod_add, Z.mod_small by lia; done).
    assert (Ec : u16 ((x + y * 2 ^ 32) / 2 ^ 32) = y) by (rewrite Z.div_add, Z.div_small, Z.add_0_l by lia; by apply wrap_small).
    rewrite Ea, Ec, <- F1, <- F2, put_get_le32, put_get_le16_at by (done || (cbn; lia)); done.
  - rewrite Z.testbit_odd, Z.shiftr_div_pow2, Z.div_add, Z.div_small, Z.add_0_l by (try lia; arith); unfold flag; by destruct (Z.testbit _ _).
Qed.

(** ** Lemmas: slots *)

(** A loop whose body does not fault returns what the first index gives, or
    nothing when no index gives anything. *)
Lemma first_slot_spec body l : (forall i, i ∈ l -> exists r, body i = Some r) ->
  exists r, first_slot body l = Some r /\
    match r with Some s => exists i, i ∈ l /\ body i = Some (Some s) | None => forall i, i ∈ l -> body i = Some None end.
Proof.
  induction l as [|i l IH]; intros Hb; cbn [first_slot]; [exists None; split; [done|]; intros i Hi; by apply elem_of_nil in Hi|].
  destruct (Hb i) as [r Er]; [set_solver|]; rewrite Er; cbn [mbind option_bind]; destruct r as [s|]; [exists (Some s); split; [done|]; exists i; set_solver|].
  destruct IH as (r & E & H); [set_solver|]; exists r; split; [done|]; destruct r as [s|]; [destruct H as (j & Hj & Ej); exists j; set_solver|].
  intros j Hj; apply elem_of_cons in Hj as [->|Hj]; [done|by apply H].
Qed.

Lemma elem_range a b i : i ∈ range a b <-> (a <= i < b)%nat.
Proof. unfold range; rewrite elem_of_seq; lia. Qed.

Definition used (c : ath_common) (i : nat) : bool := default false (keymap c !! i).

(** Slots that are given out: neither for the four static keys nor for their
    MIC keys. *)
Definition dynamic (i : nat) : Prop := (4 <= i < 128)%nat /\ ~ (64 <= i < 68)%nat.

#[global] Instance dynamic_dec i : Decision (dynamic i).
Proof. unfold dynamic; apply _. Defined.

(** The adapter: 128 entries, both MIC keys in one entry. *)
Record combined_cache (c : ath_common) : Prop := Combined {
  cc_size : keymax c = 128%nat; cc_map : length (keymap c) = 128%nat; cc_tkip : length (tkip_keymap c) = 128%nat; cc_ccmp : length (ccmp_keymap c) = 128%nat;
  cc_aes : cap_aesccm c = true; cc_mic : cap_mic_combined c = true }.

Lemma test_used c i : combined_cache c -> (i < 128)%nat -> test_bit (keymap c) i = Some (used c i).
Proof. intros H Hi; unfold test_bit, used; destruct (lookup_lt_is_Some_2 (keymap c) i) as [b ->]; [by rewrite (cc_map _ H)|done]. Qed.

Lemma reserve_tkip_spec c : combined_cache c -> exists r, ath_reserve_key_cache_slot_tkip c = Some r /\
  match r with
  | Some i => (4 <= i < 64)%nat /\ used c i = false /\ used c (i + 64) = false
  | None => forall i, (4 <= i < 64)%nat -> used c i || used c (i + 64) = true
  end.
Proof.
  intros H; unfold ath_reserve_key_cache_slot_tkip; rewrite (cc_size _ H); change (range _ _) with (range 4 64); set (body := fun i : nat => _).
  assert (Eb : forall i, (4 <= i < 64)%nat -> body i = Some (if used c i || used c (i + 64) then None else Some i)).
  { intros i Hi; unfold body; rewrite (test_used c i), (test_used c (i + 64)), (cc_mic _ H) by (done || lia); cbn [negb].
    by destruct (used c i), (used c (i + 64)). }
  destruct (first_slot_spec body (range 4 64)) as (r & E & Hr); [intros i Hi; apply elem_range in Hi; eexists; by apply Eb|].
  exists r; split; [done|]; destruct r as [s|].
  - destruct Hr as (i & Hi & Ei); apply elem_range in Hi; rewrite Eb in Ei by done; destruct (used c i || used c (i + 64)) eqn:Eu; [done|].
    injection Ei as <-; apply orb_false_iff in Eu as [? ?]; done.
  - intros i Hi; specialize (Hr i); rewrite elem_range, Eb in Hr by done; specialize (Hr Hi); by destruct (used c i || used c (i + 64)).
Qed.

Lemma partly_used_spec c : combined_cache c -> exists r, partly_used c = Some r /\ forall s, r = Some s -> dynamic s /\ used c s = false.
Proof.
  intros H; unfold partly_used; rewrite (cc_size _ H), (cc_mic _ H); cbn [negb]; change (range _ _) with (range 4 64); set (body := fun i : nat => _).
  assert (Eb : forall i, (4 <= i < 64)%nat -> body i = Some (if negb (used c i) && used c (i + 64) then Some i else
    if used c i && negb (used c (i + 64)) then Some (i + 64)%nat else None)).
  { intros i Hi; unfold body; rewrite !test_used by (done || lia); unfold not; cbn [fmap option_fmap option_map]; by destruct (used c i), (used c (i + 64)). }
  destruct (first_slot_spec body (range 4 64)) as (r & E & Hr); [intros i Hi; apply elem_range in Hi; eexists; by apply Eb|].
  exists r; split; [done|]; intros s ->; destruct Hr as (i & Hi & Ei); apply elem_range in Hi; rewrite Eb in Ei by done; unfold dynamic.
  destruct (used c i) eqn:E1, (used c (i + 64)) eqn:E2; cbn [negb andb] in Ei; try done; injection Ei as <-; (split; [lia|done]).
Qed.

Lemma any_slot_spec c : combined_cache c -> exists r, any_slot c = Some r /\
  match r with Some s => dynamic s /\ used c s = false | None => forall i, dynamic i -> used c i = true end.
Proof.
  intros H; unfold any_slot; rewrite (cc_size _ H); change (range _ _) with (range 4 128); set (body := fun i : nat => _).
  assert (Eg : forall i, (4 <= i < 128)%nat -> group_slot c i = negb (bool_decide (dynamic i))).
  { intros i Hi; unfold group_slot, IEEE80211_WEP_NKID; rewrite (cc_mic _ H); cbn [negb andb]; rewrite orb_false_r.
    unfold dynamic; do 3 case_bool_decide; try done; lia. }
  assert (Eb : forall i, (4 <= i < 128)%nat -> body i = Some (if bool_decide (dynamic i) && negb (used c i) then Some i else None)).
  { intros i Hi; unfold body; rewrite Eg, test_used by (done || lia); destruct (bool_decide (dynamic i)); cbn [negb andb mbind option_bind]; [|done]; by destruct (used c i). }
  destruct (first_slot_spec body (range 4 128)) as (r & E & Hr); [intros i Hi; apply elem_range in Hi; eexists; by apply Eb|].
  exists r; split; [done|]; destruct r as [s|].
  - destruct Hr as (i & Hi & Ei); apply elem_range in Hi; rewrite Eb in Ei by done; destruct (bool_decide (dynamic i)) eqn:Ed; [|done]; apply bool_decide_eq_true in Ed.
    destruct (used c i) eqn:Eu; [done|]; injection Ei as <-; done.
  - intros i Hi; assert (H4 : (4 <= i < 128)%nat) by apply Hi; specialize (Hr i); rewrite elem_range, Eb, bool_decide_true in Hr by done; specialize (Hr H4).
    by destruct (used c i).
Qed.

(** The slots a key takes. *)
Definition needs (cipher : Z) (i : nat) : list nat := if cipher =? WLAN_CIPHER_SUITE_TKIP then [i; (i + 64)%nat] else [i].

Lemma reserve_spec c cipher : combined_cache c -> exists r, ath_reserve_key_cache_slot c cipher = Some r /\
  match r with
  | Some i => Forall (fun j => dynamic j /\ used c j = false) (needs cipher i)
  | None => forall i, Forall dynamic (needs cipher i) -> Exists (fun j => used c j = true) (needs cipher i)
  end.
Proof.
  intros H; unfold ath_reserve_key_cache_slot, needs; destruct (cipher =? WLAN_CIPHER_SUITE_TKIP).
  - destruct (reserve_tkip_spec c H) as (r & E & Hr); exists r; split; [done|]; destruct r as [i|].
    + destruct Hr as (H1 & H2 & H3); unfold dynamic; apply Forall_cons_2; [split; [lia|done]|]; apply Forall_cons_2; [split; [lia|done]|]; apply Forall_nil_2.
    + intros i Hd; apply Forall_cons_1 in Hd as [Hd1 [Hd2 _]%Forall_cons_1]; unfold dynamic in *; specialize (Hr i ltac:(lia)).
      apply orb_true_iff in Hr as [Hr|Hr]; [by left|]; right; by left.
  - destruct (partly_used_spec c H) as (r & E & Hr); rewrite E; cbn [mbind option_bind]; destruct r as [i|].
    + exists (Some i); split; [done|]; constructor; [by apply Hr|done].
    + destruct (any_slot_spec c H) as (r & E' & Hr'); exists r; split; [done|]; destruct r as [i|]; [by constructor|].
      intros i Hd; apply Forall_cons_1 in Hd as [Hd _]; left; by apply Hr'.
Qed.

(** ** Lemmas: one entry *)

(** Keys as they come: lengths checked, octets. *)
Definition wf_conf (k : key_conf) : Prop :=
  bytes (key k) /\ (length (key k) <= 32)%nat /\ (cipher k = WLAN_CIPHER_SUITE_TKIP -> length (key k) = 32%nat).
Definition wf_mac (m : list Z) : Prop := bytes m /\ length m = 6%nat.

Definition type_of (cipher : Z) (len : nat) : Z :=
  if cipher =? WLAN_CIPHER_SUITE_TKIP then AR_KEYTABLE_TYPE_TKIP
  else if cipher =? WLAN_CIPHER_SUITE_CCMP then AR_KEYTABLE_TYPE_CCM
  else if cipher =? 0 then AR_KEYTABLE_TYPE_CLR
  else if bool_decide (len <= 5)%nat then AR_KEYTABLE_TYPE_40
  else if bool_decide (len <= 13)%nat then AR_KEYTABLE_TYPE_104
  else AR_KEYTABLE_TYPE_128.

(** The MIC keys the adapter uses to receive and to send. *)
Definition mic_keys (vif : iftype) (key : list Z) (mac : option (list Z)) : list Z * list Z :=
  let tx := take 8 (drop 16 key) in
  let rx := take 8 (drop 24 key) in
  match mac with Some _ => (rx, tx) | None => if bool_decide (vif = AP) then (tx, tx) else (rx, rx) end.

(** Entry [i] holds the key, the entry 64 further the MIC keys. *)
Definition shows_at (vif : iftype) (c : ath_common) (k : key_conf) (i : nat) (mac : option (list Z)) : Prop :=
  let ws := entry_words c i in
  hw_key ws = take 16 (key k ++ repeat 0 (32 - length (key k))) /\ hw_type ws = type_of (cipher k) (length (key k)) /\
  match mac with Some m => hw_mac ws = upper m /\ hw_unicast ws = negb (Z.testbit (m.[0]) 0) | None => hw_mac ws = repeat 0 6 /\ hw_unicast ws = true end /\
  (cipher k = WLAN_CIPHER_SUITE_TKIP ->
    let ms := entry_words c (i + 64) in hw_rxmic ms = (mic_keys vif (key k) mac).1 /\ hw_txmic ms = (mic_keys vif (key k) mac).2 /\ drop 6 ms = [0; 0]).

(** Setting the entry, as [ath_key_config] does. *)
Definition set_entry (vif : iftype) (c : ath_common) (ty : ath_cipher) (k : key_conf) (idx : nat) (mac : option (list Z)) : ath_common * bool :=
  let hk := Keyval ty (length (key k)) (key k ++ repeat 0 (32 - length (key k))) in
  if cipher k =? WLAN_CIPHER_SUITE_TKIP then ath_setkey_tkip c idx (key k) hk mac (bool_decide (vif = AP))
  else ath_hw_set_keycache_entry c idx hk mac.

Lemma bytes_padded k : wf_conf k -> bytes (key k ++ repeat 0 (32 - length (key k))) /\ length (key k ++ repeat 0 (32 - length (key k))) = 32%nat.
Proof.
  intros (H1 & H2 & _); split; [|rewrite length_app, repeat_length; lia]; apply Forall_app; split; [done|].
  apply list.Forall_forall; intros x Hx; apply list_elem_of_In, repeat_spec in Hx as ->; by apply is_uint_0.
Qed.

Lemma padded_zero k i : wf_conf k -> (length (key k) <= i < 32)%nat -> (key k ++ repeat 0 (32 - length (key k))).[i] = 0.
Proof. intros Hw Hi; unfold byte_at; rewrite app_nth2 by lia; apply nth_repeat. Qed.

(** What the words of an entry say. *)
Lemma words_say vif c k i mac kv ty : wf_conf k -> (forall m, mac = Some m -> wf_mac m) -> bytes (kv_bytes kv) -> length (kv_bytes kv) = 32%nat ->
  take 16 (kv_bytes kv) = take 16 (key k ++ repeat 0 (32 - length (key k))) -> kv_len kv = length (key k) -> ty = type_of (cipher k) (length (key k)) ->
  entry_words c i = u32 <$> key_words kv ty mac ->
  (cipher k = WLAN_CIPHER_SUITE_TKIP -> entry_words c (i + 64) = u32 <$> mic_words kv /\
    take 8 (drop 16 (kv_bytes kv)) = (mic_keys vif (key k) mac).1 /\ take 8 (drop 24 (kv_bytes kv)) = (mic_keys vif (key k) mac).2) ->
  shows_at vif c k i mac.
Proof.
  intros Hw Hm Hb Hl Htk Hlen Hty E Ht; assert (Hu : is_u32 ty) by (rewrite Hty; unfold type_of; repeat case_match; by vm_compute).
  destruct (words_u32 kv ty mac Hb Hu Hm) as [U1 U2]; rewrite U1 in E; unfold shows_at; rewrite E; split; [|split; [|split]].
  - rewrite key_content, Htk; try done; intros Hs; rewrite Hlen in Hs; unfold WLAN_KEY_LEN_WEP104 in Hs.
    assert (Ez : forall j, (13 <= j < 16)%nat -> (kv_bytes kv).[j] = 0); [|split_and!; apply Ez; lia].
    intros j Hj; rewrite <- (byte_at_take 16), Htk, byte_at_take by lia; apply padded_zero; [done|lia].
  - done.
  - destruct mac as [m|]; [|by vm_compute]; destruct (Hm m eq_refl); by apply mac_content.
  - intros Hc; destruct (Ht Hc) as (E2 & M1 & M2); rewrite E2, U2; destruct (mic_content kv Hb Hl) as [-> ->]; done.
Qed.

Definition is_wep (cipher : Z) : bool := (cipher =? WLAN_CIPHER_SUITE_WEP40) || (cipher =? WLAN_CIPHER_SUITE_WEP104).

(** The one way an entry is refused. *)
Definition too_short (k : key_conf) : bool := is_wep (cipher k) && bool_decide (length (key k) < 5)%nat.

Lemma take_8_length (key : list Z) i : length key = 32%nat -> (i <= 24)%nat -> length (take 8 (drop i key)) = 8%nat.
Proof. intros; rewrite length_take, length_drop; lia. Qed.

Lemma set_entry_mics vif c k idx mac : combined_cache c -> wf_conf k -> cipher k = WLAN_CIPHER_SUITE_TKIP ->
  set_entry vif c ATH_CIPHER_TKIP k idx mac = ath_hw_set_keycache_entry c idx
    (kv_set_mics (Keyval ATH_CIPHER_TKIP (length (key k)) (key k ++ repeat 0 (32 - length (key k)))) (mic_keys vif (key k) mac).1 (mic_keys vif (key k) mac).2) mac.
Proof.
  intros H Hw Hc; unfold set_entry; rewrite Hc, Z.eqb_refl; unfold ath_setkey_tkip, mic_keys; rewrite (cc_mic _ H); destruct mac as [m|]; [done|].
  by case_bool_decide.
Qed.

Lemma set_entry_spec vif c ty k idx mac : combined_cache c -> wf_conf k -> cipher_type (cipher k) = Some ty -> (forall m, mac = Some m -> wf_mac m) ->
  Forall (fun j => (j < 128)%nat) (needs (cipher k) idx) ->
  if too_short k then set_entry vif c ty k idx mac = (c, false)
  else exists c', set_entry vif c ty k idx mac = (c', true) /\ touches (needs (cipher k) idx) c c' /\ shows_at vif c' k idx mac.
Proof.
  intros H Hw Hty Hm Hn; destruct (bytes_padded k Hw) as [Hb Hl]; unfold needs in *; destruct (Z.eqb_spec (cipher k) WLAN_CIPHER_SUITE_TKIP) as [Hc|Hc].
  - assert (Ety : ty = ATH_CIPHER_TKIP) by (rewrite Hc in Hty; by injection Hty as <-); subst ty; unfold too_short; rewrite Hc; cbn [is_wep orb andb Z.eqb Pos.eqb].
    change (is_wep WLAN_CIPHER_SUITE_TKIP) with false; cbn [andb]; rewrite set_entry_mics by done.
    set (kv := kv_set_mics _ _ _); apply Forall_cons_1 in Hn as [Hn1 [Hn2 _]%Forall_cons_1]; destruct Hw as (Hkb & Hkl & H32); specialize (H32 Hc).
    assert (Hr : repeat 0 (32 - length (key k)) = []) by (by rewrite H32); rewrite Hr, app_nil_r in *.
    assert (Hmics : forall p, p = mic_keys vif (key k) mac -> bytes p.1 /\ bytes p.2 /\ length p.1 = 8%nat /\ length p.2 = 8%nat).
    { assert (Hx : forall i, bytes (take 8 (drop i (key k)))) by (intros i; apply Forall_take, Forall_drop, Hkb).
      intros p ->; unfold mic_keys; destruct mac; [|case_bool_decide]; cbn [fst snd]; rewrite !take_8_length by (done || lia); done. }
    destruct (Hmics _ eq_refl) as (Hm1 & Hm2 & Hl1 & Hl2).
    assert (Ekv : kv_bytes kv = take 16 (key k) ++ (mic_keys vif (key k) mac).1 ++ (mic_keys vif (key k) mac).2) by (unfold kv, kv_set_mics; cbn [kv_bytes]; by rewrite Hr, app_nil_r).
    assert (Hkvb : bytes (kv_bytes kv)) by (rewrite Ekv; apply Forall_app; split; [by apply Forall_take|apply Forall_app; by split]).
    assert (Hkvl : length (kv_bytes kv) = 32%nat) by (rewrite Ekv, !length_app, length_take, Hl1, Hl2; lia).
    destruct (set_entry_tkip c idx kv mac) as (c' & E & Ht & W1 & W2); [rewrite (cc_size _ H); lia|done|by apply cc_mic|].
    exists c'; split; [done|]; split; [done|]; apply (words_say vif c' k idx mac kv AR_KEYTABLE_TYPE_TKIP); try done.
    + rewrite Ekv, take_app_length' by (rewrite length_take; lia); by rewrite Hr, app_nil_r.
    + by rewrite Hc.
    + intros _; split; [done|]; rewrite Ekv; split.
      * rewrite drop_app_length' by (rewrite length_take; lia); by rewrite take_app_length'.
      * rewrite app_assoc, drop_app_length' by (rewrite length_app, length_take; lia); by rewrite firstn_all2 by lia.
  - unfold set_entry; destruct (Z.eqb_spec (cipher k) WLAN_CIPHER_SUITE_TKIP) as [?|_]; [done|]; set (hk := Keyval ty _ _); apply Forall_cons_1 in Hn as [Hn _].
    assert (Hk : if too_short k then key_type c idx hk = None else key_type c idx hk = Some (type_of (cipher k) (length (key k))) /\ type_of (cipher k) (length (key k)) <> AR_KEYTABLE_TYPE_TKIP).
    { unfold too_short, key_type, cipher_type, type_of, is_wep in *; cbn [kv_type hk kv_len]; unfold WLAN_KEY_LEN_WEP40, WLAN_KEY_LEN_WEP104; rewrite (cc_aes _ H).
      destruct (Z.eqb_spec (cipher k) WLAN_CIPHER_SUITE_TKIP) as [?|_]; [done|].
      destruct (Z.eqb_spec (cipher k) 0) as [E0|N0]; [rewrite E0; injection Hty as <-; done|].
      destruct ((cipher k =? WLAN_CIPHER_SUITE_WEP40) || _) eqn:Ew; cbn [andb].
      - injection Hty as <-; destruct (Z.eqb_spec (cipher k) WLAN_CIPHER_SUITE_CCMP) as [Ec|_]; [by rewrite Ec in Ew|].
        do 3 (case_bool_decide; try done; try lia).
      - destruct (Z.eqb_spec (cipher k) WLAN_CIPHER_SUITE_CCMP) as [Ec|_]; [|done]; by injection Hty as <-. }
    destruct (too_short k).
    + unfold ath_hw_set_keycache_entry; rewrite Hk; by case_bool_decide.
    + destruct Hk as [Hk Hne]; destruct (set_entry_plain c idx hk mac _ ltac:(rewrite (cc_size _ H); lia) Hk Hne) as (c' & E & Ht & W).
      exists c'; split; [done|]; split; [done|]; by apply (words_say vif c' k idx mac hk (type_of (cipher k) (length (key k)))).
Qed.

(** ** The cache and its keys *)

(** Keys the driver accepted, with the addresses of their entries. *)
Definition live_keys : Type := list (key_conf * option (list Z)).

Definition slots (k : key_conf) : list nat := needs (cipher k) (hw_key_idx k).
Definition taken (live : live_keys) : list nat := concat ((fun l => slots l.1) <$> live).

(** A key is at a static slot, or at one that is given out. *)
Definition slot_ok (k : key_conf) : Prop := (hw_key_idx k < 4)%nat \/ Forall dynamic (slots k).

(** Every key accepted is in its entry; no two share one; a slot that is given
    out is marked exactly when a key has it; and there is no key in any other
    entry. *)
Record holds (h : htc_conf) (c : ath_common) (live : live_keys) : Prop := Holds {
  h_cache : combined_cache c;
  h_nodup : NoDup (taken live);
  h_bits : forall i, dynamic i -> used c i = bool_decide (i ∈ taken live);
  h_ok : Forall (fun l => slot_ok l.1) live;
  h_shows : Forall (fun l => shows_at (vif_type h) c l.1 (hw_key_idx l.1) l.2) live;
  h_taken : Forall (fun l => refused h l.1 = None) live;
  h_clear : forall i, (i < 128)%nat -> i ∉ taken live -> entry_words c i = cleared }.

Lemma slots_in k j : j ∈ slots k -> j = hw_key_idx k \/ (cipher k = WLAN_CIPHER_SUITE_TKIP /\ j = (hw_key_idx k + 64)%nat).
Proof. unfold slots, needs; destruct (Z.eqb_spec (cipher k) WLAN_CIPHER_SUITE_TKIP); set_solver. Qed.

Lemma slots_bound k : slot_ok k -> Forall (fun j => (j < 128)%nat) (slots k).
Proof.
  intros [Hs|Hd]; [|eapply list.Forall_impl; [exact Hd|]; intros j Hj; unfold dynamic in Hj; lia].
  apply list.Forall_forall; intros j Hj; apply slots_in in Hj as [->|[_ ->]]; lia.
Qed.

Lemma taken_cons l live : taken (l :: live) = slots l.1 ++ taken live. Proof. done. Qed.

Lemma taken_perm live live' : live ≡ₚ live' -> taken live ≡ₚ taken live'.
Proof. intros H; unfold taken; by rewrite H. Qed.

Lemma holds_perm h c live live' : live ≡ₚ live' -> holds h c live -> holds h c live'.
Proof.
  intros Hp [H1 H2 H3 H4 H5 H7 H6]; pose proof (taken_perm _ _ Hp) as Ht; constructor; [done|by rewrite <- Ht| |by rewrite <- Hp..|].
  - intros i Hi; rewrite H3 by done; apply bool_decide_ext; by rewrite Ht.
  - intros i Hi Hn; apply H6; [done|]; by rewrite Ht.
Qed.

(** An entry that did not change still shows its key. *)
Lemma shows_same vif c c' k i mac : (forall j, j ∈ needs (cipher k) i -> entry_words c' j = entry_words c j) -> shows_at vif c k i mac -> shows_at vif c' k i mac.
Proof.
  intros H Hs; unfold shows_at, needs in *; destruct (Z.eqb_spec (cipher k) WLAN_CIPHER_SUITE_TKIP) as [Hc|Hc].
  - by rewrite (H i), (H (i + 64)%nat) by set_solver.
  - rewrite (H i) by set_solver; destruct Hs as (S1 & S2 & S3 & _); done.
Qed.

Lemma shows_touched vif c c' (ns : list nat) live : (forall m, m ∉ ns -> entry_words c' m = entry_words c m) -> (forall j, j ∈ taken live -> j ∉ ns) -> Forall (fun l => shows_at vif c l.1 (hw_key_idx l.1) l.2) live ->
  Forall (fun l => shows_at vif c' l.1 (hw_key_idx l.1) l.2) live.
Proof.
  intros Ht Hd; induction live as [|l live IH]; intros Hf; [done|]; apply Forall_cons_1 in Hf as [Hl Hf]; constructor.
  - eapply shows_same; [|exact Hl]; intros j Hj; apply Ht, Hd; rewrite taken_cons; apply elem_of_app; by left.
  - apply IH; [|done]; intros j Hj; apply Hd; rewrite taken_cons; apply elem_of_app; by right.
Qed.

(** *** Marking *)

Definition bit (l : list bool) (j : nat) : bool := default false (l !! j).

Lemma set_bit_ok i l : length l = 128%nat -> (i < 128)%nat -> set_bit i l = Some (<[i := true]> l) /\ length (<[i := true]> l) = 128%nat.
Proof. intros Hl Hi; unfold set_bit; by rewrite bool_decide_true, length_insert by lia. Qed.
Lemma clear_bit_ok i l : length l = 128%nat -> (i < 128)%nat -> clear_bit i l = Some (<[i := false]> l) /\ length (<[i := false]> l) = 128%nat.
Proof. intros Hl Hi; unfold clear_bit; by rewrite bool_decide_true, length_insert by lia. Qed.
Lemma bit_insert l i j v : length l = 128%nat -> (i < 128)%nat -> bit (<[i := v]> l) j = if decide (j = i) then v else bit l j.
Proof. intros Hl Hi; unfold bit; case_decide as E; [subst; by rewrite list_lookup_insert_eq by lia|by rewrite list_lookup_insert_ne]. Qed.

Lemma mark_slots_spec c idx cipher : combined_cache c -> Forall (fun j => (j < 128)%nat) (needs cipher idx) ->
  exists c', mark_slots c idx cipher = Some c' /\ combined_cache c' /\ regs c' = regs c /\
    forall j, used c' j = bool_decide (j ∈ needs cipher idx) || used c j.
Proof.
  intros [H1 H2 H3 H4 H5 H6] Hn; unfold mark_slots, needs in *.
  assert (Hi : (idx < 128)%nat) by (destruct (cipher =? _); by apply Forall_cons_1 in Hn as [? _]); destruct (set_bit_ok idx (keymap c) H2 Hi) as [-> L2]; cbn [mbind option_bind].
  assert (Hp : exists p, (if cipher =? WLAN_CIPHER_SUITE_CCMP then set_bit idx (ccmp_keymap c) else Some (ccmp_keymap c)) = Some p /\ length p = 128%nat)
    by (destruct (cipher =? WLAN_CIPHER_SUITE_CCMP); [destruct (set_bit_ok idx (ccmp_keymap c) H4 Hi); eauto|eauto]).
  destruct Hp as (p & -> & Hp); cbn [mbind option_bind]; unfold used; destruct (Z.eqb_spec cipher WLAN_CIPHER_SUITE_TKIP) as [Hc|Hc].
  - apply Forall_cons_1 in Hn as [_ [Hi2 _]%Forall_cons_1]; destruct (set_bit_ok _ _ L2 Hi2) as [-> L3], (set_bit_ok _ _ H3 Hi) as [-> L4]; cbn [mbind option_bind].
    destruct (set_bit_ok _ _ L4 Hi2) as [-> L5]; cbn [mbind option_bind]; rewrite H6; cbn [negb]; eexists; split; [done|]; split; [by constructor|]; split; [done|].
    intros j; fold (bit (keymap c) j); cbn [set_maps keymap]; fold (bit (<[(idx + 64)%nat := true]> (<[idx := true]> (keymap c))) j); rewrite !bit_insert by done.
    do 2 (case_decide; [subst; rewrite bool_decide_true by set_solver; done|]); rewrite bool_decide_false by set_solver; done.
  - eexists; split; [done|]; split; [by constructor|]; split; [done|].
    intros j; fold (bit (keymap c) j); cbn [set_maps keymap]; fold (bit (<[idx := true]> (keymap c)) j); rewrite bit_insert by done.
    case_decide; [subst; rewrite bool_decide_true by set_solver; done|]; rewrite bool_decide_false by set_solver; done.
Qed.

(** *** Choosing *)

(** Keys that go to the slot of their index. *)
Definition fixed_slot (h : htc_conf) (sta : option (list Z)) (k : key_conf) : bool :=
  if pairwise k then negb (keyidx k =? 0) && negb (bool_decide (vif_type h = AP))
  else negb (bool_decide (vif_type h = AP)) && negb (bool_decide (vif_type h = ADHOC) && bool_decide (sta <> None)).

(** The address an entry is for. *)
Definition entry_mac (h : htc_conf) (sta : option (list Z)) (k : key_conf) : option (list Z) :=
  if pairwise k then sta
  else match vif_type h with AP => Some (gmac (vif_addr h)) | ADHOC => gmac <$> sta | _ => None end.

Lemma choose_spec h c sta k : combined_cache c ->
  exists r, choose_slot c (vif_type h) (vif_addr h) sta k = Some r /\
    match r with
    | inl err => err = (if sta is None then - EOPNOTSUPP else - EIO) /\ pairwise k = true /\ (sta = None \/ (keyidx k <> 0 /\ vif_type h = AP))
    | inr (idx, mac) => mac = entry_mac h sta k /\ (pairwise k = true -> sta <> None /\ (keyidx k = 0 \/ vif_type h <> AP)) /\
        if fixed_slot h sta k then idx = Some (Z.to_nat (keyidx k))
        else match idx with
          | Some i => Forall (fun j => dynamic j /\ used c j = false) (needs (cipher k) i)
          | None => forall i, Forall dynamic (needs (cipher k) i) -> Exists (fun j => used c j = true) (needs (cipher k) i)
          end
    end.
Proof.
  intros H; destruct (reserve_spec c (cipher k) H) as (r & E & Hr); unfold choose_slot, entry_mac, fixed_slot; rewrite E; cbn [mbind option_bind].
  destruct (pairwise k); cbn [negb].
  - destruct sta as [sta|]; [|eexists; split; [done|]; split; [done|]; split; [done|by left]].
    destruct (Z.eqb_spec (keyidx k) 0) as [E0|N0]; cbn [negb andb]; [eexists; split; [done|]; split; [done|]; split; [by split; [|left]|done]|].
    destruct (decide (vif_type h = AP)) as [Ev|Nv]; [rewrite bool_decide_false by (by intros ?); eexists; split; [done|]; split; [done|]; split; [done|right; done]|].
    rewrite bool_decide_true by done; eexists; split; [done|]; split; [done|]; split; [by split; [|right]|]; by rewrite bool_decide_false.
  - destruct (vif_type h); cbn [negb andb]; try (by eexists); destruct sta as [sta|]; by eexists.
Qed.

(** What the caller must see to. *)
Definition can_set (h : htc_conf) (live : live_keys) (sta : option (list Z)) (k : key_conf) : Prop :=
  wf_conf k /\ wf_mac (vif_addr h) /\ (forall m, sta = Some m -> wf_mac m) /\
  (fixed_slot h sta k = true -> (Z.to_nat (keyidx k) < 4)%nat /\ Forall (fun l => hw_key_idx l.1 <> Z.to_nat (keyidx k)) live).

Lemma wf_gmac m : wf_mac m -> wf_mac (gmac m).
Proof.
  intros [Hb Hl]; destruct m as [|b m]; [done|]; split; [|done]; apply Forall_cons_1 in Hb as [H1 H2]; constructor; [|done].
  apply is_uint_lor; [lia|done|by vm_compute].
Qed.

Lemma wf_entry_mac h sta k : wf_mac (vif_addr h) -> (forall m, sta = Some m -> wf_mac m) -> forall m, entry_mac h sta k = Some m -> wf_mac m.
Proof.
  intros Hv Hs m; unfold entry_mac; destruct (pairwise k); [apply Hs|]; destruct (vif_type h); try done; [intros [= <-]; by apply wf_gmac|].
  destruct sta as [a|]; [|done]; intros [= <-]; by apply wf_gmac, Hs.
Qed.

(** The slots chosen are free. *)
Lemma chosen_free h c live sta k i : holds h c live -> (fixed_slot h sta k = true -> (i < 4)%nat /\ Forall (fun l => hw_key_idx l.1 <> i) live) ->
  (fixed_slot h sta k = false -> Forall (fun j => dynamic j /\ used c j = false) (needs (cipher k) i)) ->
  Forall (fun j => (j < 128)%nat /\ j ∉ taken live) (needs (cipher k) i).
Proof.
  intros [H1 H2 H3 H4 H5 H7 H6] Hf Hd; destruct (fixed_slot h sta k).
  - destruct (Hf eq_refl) as [Hi Hl]; assert (Hn : forall j, j = i \/ j = (i + 64)%nat -> j ∉ taken live).
    { intros j Hj Hin; unfold taken in Hin; apply list_elem_of_In, in_concat in Hin as (sl & Hsl & Hin); apply list_elem_of_In in Hin, Hsl.
      apply list_elem_of_fmap in Hsl as (l & -> & Hl'); rewrite list.Forall_forall in Hl, H4; specialize (Hl l Hl'); destruct (H4 l Hl') as [Hs|Hs].
      - apply slots_in in Hin as [->|[_ ->]]; lia.
      - rewrite list.Forall_forall in Hs; specialize (Hs j Hin); unfold dynamic in Hs; lia. }
    unfold needs; destruct (_ =? _); repeat (apply Forall_cons_2; [split; [lia|apply Hn; by (left + right)]|]); apply Forall_nil_2.
  - eapply list.Forall_impl; [by apply Hd|]; intros j [Hj Hu]; split; [unfold dynamic in Hj; lia|]; rewrite H3 in Hu by done; by apply bool_decide_eq_false in Hu.
Qed.

(** *** Setting *)

Lemma same_combined c c' : same_maps c c' -> combined_cache c -> combined_cache c'.
Proof. intros (E1 & E2 & E3 & E4 & E5 & E6) [H1 H2 H3 H4 H5 H6]; constructor; congruence. Qed.

Lemma needs_nodup cipher i : NoDup (needs cipher i).
Proof. unfold needs; destruct (_ =? _); [|apply NoDup_singleton]; apply NoDup_cons_2; [|apply NoDup_singleton]; rewrite list_elem_of_singleton; lia. Qed.

(** The entry is set and marked: the key is live. *)
Lemma holds_set h c live sta k i c1 c2 : holds h c live -> wf_conf k -> refused h k = None ->
  Forall (fun j => (j < 128)%nat /\ j ∉ taken live) (needs (cipher k) i) -> ((i < 4)%nat \/ Forall dynamic (needs (cipher k) i)) ->
  touches (needs (cipher k) i) c c1 -> shows_at (vif_type h) c1 k i (entry_mac h sta k) ->
  regs c2 = regs c1 -> combined_cache c2 -> (forall j, used c2 j = bool_decide (j ∈ needs (cipher k) i) || used c1 j) ->
  holds h c2 ((accepted h k i, entry_mac h sta k) :: live).
Proof.
  intros [H1 H2 H3 H4 H5 H7 H6] Hw Hr Hfree Hok [Hsm Ht] Hsh Er Hc2 Hu; set (ns := needs (cipher k) i) in *; rewrite list.Forall_forall in Hfree.
  assert (Ew : forall j, entry_words c2 j = entry_words c1 j) by (intros j; unfold entry_words, word, REG_READ; by rewrite Er).
  assert (Et : taken ((accepted h k i, entry_mac h sta k) :: live) = ns ++ taken live) by done.
  constructor; rewrite ?Et.
  - done.
  - apply list.NoDup_app; split; [apply needs_nodup|]; split; [|done]; intros j Hj; by apply Hfree.
  - intros j Hj; rewrite Hu; destruct Hsm as (_ & Em & _); assert (E : used c1 j = used c j) by (unfold used; by rewrite Em); rewrite E, H3 by done.
    apply eq_bool_prop_intro; rewrite orb_True, !bool_decide_spec, elem_of_app; done.
  - constructor; [|done]; destruct Hok as [Hi|Hd]; [by left|right; exact Hd].
  - constructor; [|].
    + apply (shows_same _ c1); [intros j _; apply Ew|exact Hsh].
    + apply (shows_touched _ c _ ns); [|intros j Hj Hn; by destruct (Hfree j Hn)|done].
      intros m Hm; by rewrite Ew, Ht.
  - constructor; [|done]; exact Hr.
  - intros j Hj Hn; rewrite elem_of_app in Hn; rewrite Ew, Ht by tauto; apply H6; tauto.
Qed.

(** A slot is left for the key. *)
Definition slot_left (live : live_keys) (cipher : Z) : Prop := exists i, Forall (fun j => dynamic j /\ j ∉ taken live) (needs cipher i).

(** The adapter can take the key. *)
Definition settable (h : htc_conf) (live : live_keys) (sta : option (list Z)) (k : key_conf) : Prop :=
  refused h k = None /\ cipher_type (cipher k) <> None /\ (pairwise k = true -> sta <> None /\ (keyidx k = 0 \/ vif_type h <> AP)) /\
  too_short k = false /\ (fixed_slot h sta k = true \/ slot_left live (cipher k)).

Lemma no_slot h c live cipher : holds h c live -> (forall i, Forall dynamic (needs cipher i) -> Exists (fun j => used c j = true) (needs cipher i)) -> ~ slot_left live cipher.
Proof.
  intros Hh Hn [i Hi]; specialize (Hn i ltac:(eapply list.Forall_impl; [exact Hi|]; by intros j [? _])).
  apply list.Exists_exists in Hn as (j & Hj & Hu); rewrite list.Forall_forall in Hi; destruct (Hi j Hj) as [Hd Ht].
  rewrite (h_bits _ _ _ Hh) in Hu by done; by apply bool_decide_eq_true in Hu.
Qed.

(** What setting a key does, and when it fails. *)
Lemma set_key_spec h c live sta k : holds h c live -> can_set h live sta k -> exists c' ret k', htc_set_key h c sta k = Some (c', ret, k') /\
  (ret = 0 /\ settable h live sta k /\ k' = accepted h k (hw_key_idx k') /\ holds h c' ((k', entry_mac h sta k) :: live) /\
     (if fixed_slot h sta k then hw_key_idx k' = Z.to_nat (keyidx k) else (4 <= hw_key_idx k')%nat) \/
   ret < 0 /\ ~ settable h live sta k /\ k' = k /\ c' = c).
Proof.
  intros Hh (Hw & Hv & Hs & Hfix); pose proof Hh as [H1 H2 H3 H4 H5 H7 H6]; unfold htc_set_key; destruct (refused h k) as [err|] eqn:Er.
  { exists c, err, k; split; [done|]; right; split; [|split; [by intros (S1 & _); rewrite Er in S1|done]].
    unfold refused in Er; destruct (nohwcrypt h); [by injection Er as <-|]; destruct (_ && _ && _); [by injection Er as <-|done]. }
  unfold ath_key_config; destruct (cipher_type (cipher k)) as [ty|] eqn:Ety.
  2: { eexists c, _, k; split; [done|]; right; split; [done|]; split; [by intros (_ & S2 & _); rewrite Ety in S2|done]. }
  destruct Hw as (Hb & Hl & H32); rewrite bool_decide_false by lia; destruct (choose_spec h c sta k H1) as (r & -> & Hr); cbn [mbind option_bind].
  destruct r as [err|[idx mac]].
  { destruct Hr as (-> & Hp & Hbad); exists c, (if sta is None then - EOPNOTSUPP else - EIO), k; split; [by destruct sta|]; right; split; [by destruct sta|]; split; [|done].
    intros (_ & _ & S3 & _); destruct (S3 Hp) as [Sa Sb]; destruct Hbad as [Hbad|[Hb1 Hb2]]; [done|]; by destruct Sb. }
  destruct Hr as (-> & Hpw & Hidx); destruct idx as [i|].
  2: { eexists c, _, k; split; [done|]; right; split; [done|]; split; [|done]; destruct (fixed_slot h sta k) eqn:Ef; [done|].
    intros (_ & _ & _ & _ & [Sf|Sl]); [by rewrite Ef in Sf|]; by apply (no_slot h c live (cipher k) Hh Hidx). }
  assert (Hfr : Forall (fun j => (j < 128)%nat /\ j ∉ taken live) (needs (cipher k) i)).
  { apply (chosen_free h c live sta k i Hh); intros Ef; rewrite Ef in Hidx; [injection Hidx as ->; by apply Hfix|done]. }
  assert (Hok : (i < 4)%nat \/ Forall dynamic (needs (cipher k) i)).
  { destruct (fixed_slot h sta k); [left; injection Hidx as ->; by apply Hfix|right; eapply list.Forall_impl; [exact Hidx|]; by intros j [? _]]. }
  assert (Hn : Forall (fun j => (j < 128)%nat) (needs (cipher k) i)) by (eapply list.Forall_impl; [exact Hfr|]; by intros j [? _]).
  change (if cipher k =? WLAN_CIPHER_SUITE_TKIP then _ else _) with (set_entry (vif_type h) c ty k i (entry_mac h sta k)).
  pose proof (set_entry_spec (vif_type h) c ty k i (entry_mac h sta k) H1 (conj Hb (conj Hl H32)) Ety (wf_entry_mac h sta k Hv Hs) Hn) as He.
  destruct (too_short k) eqn:Ets.
  { rewrite He; eexists c, _, k; split; [done|]; right; split; [done|]; split; [by intros (_ & _ & _ & S4 & _); rewrite Ets in S4|done]. }
  destruct He as (c1 & -> & Ht & Hsh); cbn [negb].
  destruct (mark_slots_spec c1 i (cipher k) (same_combined c c1 (proj1 Ht) H1) Hn) as (c2 & -> & Hc2 & Er2 & Hu); cbn [mbind option_bind].
  assert (E0 : (0 <=? Z.of_nat i) = true) by (apply Z.leb_le; lia); rewrite E0, Nat2Z.id.
  eexists c2, 0, _; split; [reflexivity|]; left; split; [done|]; split; [|split; [done|]; split; [by apply (holds_set h c live sta k i c1 c2)|]].
  2: { cbn [accepted hw_key_idx]; destruct (fixed_slot h sta k); [by injection Hidx|]; rewrite list.Forall_forall in Hidx; destruct (Hidx i) as [[? _] _]; [|lia].
       unfold needs; destruct (_ =? _); set_solver. }
  split; [done|]; split; [by rewrite Ety|]; split; [|split; [done|]].
  - exact Hpw.
  - destruct (fixed_slot h sta k) eqn:Ef; [by left|right]; exists i; rewrite list.Forall_forall in Hidx, Hfr |- *; intros j Hj; split; [by apply Hidx|by apply Hfr].
Qed.

(** *** Deleting *)

Lemma type_of_tkip cipher len : type_of cipher len = AR_KEYTABLE_TYPE_TKIP <-> cipher = WLAN_CIPHER_SUITE_TKIP.
Proof. unfold type_of; destruct (Z.eqb_spec cipher WLAN_CIPHER_SUITE_TKIP); [done|]; split; [|done]; by repeat case_match. Qed.

Lemma entry_word c n j : (j < 8)%nat -> (entry_words c n).[j] = word c n j.
Proof. intros Hj; unfold entry_words; do 8 (destruct j as [|j]; [done|]); lia. Qed.

(** The entries of the key are cleared, and only they. *)
Lemma reset_key vif c k mac : combined_cache c -> slot_ok k -> shows_at vif c k (hw_key_idx k) mac ->
  touches (slots k) c (ath_hw_keyreset c (hw_key_idx k)).1 /\
  forall j, j ∈ slots k -> entry_words (ath_hw_keyreset c (hw_key_idx k)).1 j = cleared.
Proof.
  intros Hc Hok (_ & Hty & _ & Hms); pose proof (slots_bound k Hok) as Hb; rewrite list.Forall_forall in Hb.
  assert (Hi : hw_key_idx k ∈ slots k) by (unfold slots, needs; destruct (_ =? _); set_solver); pose proof (Hb _ Hi) as Hlt.
  destruct (keyreset_spec c (hw_key_idx k)) as (K1 & K2 & K3); [rewrite (cc_size _ Hc); lia|].
  assert (Ew : word c (hw_key_idx k) 5 = type_of (cipher k) (length (key k))) by (rewrite <- Hty; unfold hw_type; by rewrite entry_word by lia).
  rewrite Ew in K1, K3; unfold slots, needs in *; destruct (Z.eqb_spec (cipher k) WLAN_CIPHER_SUITE_TKIP) as [Ht|Ht].
  - assert (E4 : type_of (cipher k) (length (key k)) = AR_KEYTABLE_TYPE_TKIP) by (by apply type_of_tkip); rewrite E4 in *; split; [exact K1|].
    destruct (Hms Ht) as (_ & _ & Hz); assert (Hw : forall j, (6 <= j < 8)%nat -> word c (hw_key_idx k + 64) j = 0).
    { intros j Hj; rewrite <- entry_word by lia; replace j with (6 + (j - 6))%nat by lia; rewrite <- byte_at_drop, Hz.
      destruct (j - 6)%nat as [|[|x]] eqn:Ej; [done|done|lia]. }
    intros j Hj; apply elem_of_cons in Hj as [->|Hj]; [done|]; apply list_elem_of_singleton in Hj as ->; apply K3; [done|by apply cc_mic|apply Hw; lia|apply Hw; lia].
  - destruct (Z.eqb_spec (type_of (cipher k) (length (key k))) AR_KEYTABLE_TYPE_TKIP) as [E4|N4]; [by apply type_of_tkip in E4|]; split; [exact K1|].
    intros j Hj; by apply list_elem_of_singleton in Hj as ->.
Qed.

(** Removing the key from those held. *)
Lemma holds_remove h c k mac live c1 c2 : holds h c ((k, mac) :: live) -> touches (slots k) c c1 -> (forall j, j ∈ slots k -> entry_words c1 j = cleared) ->
  regs c2 = regs c1 -> combined_cache c2 -> (forall j, dynamic j -> used c2 j = negb (bool_decide (j ∈ slots k)) && used c1 j) -> holds h c2 live.
Proof.
  intros [H1 H2 H3 H4 H5 H7 H6] [Hsm Ht] Hcl Er Hc2 Hu; rewrite taken_cons in *; cbn [fst] in *.
  apply list.NoDup_app in H2 as (N1 & N2 & N3); apply Forall_cons_1 in H4 as [_ H4], H5 as [_ H5], H7 as [_ H7].
  assert (Ew : forall j, entry_words c2 j = entry_words c1 j) by (intros j; unfold entry_words, word, REG_READ; by rewrite Er).
  constructor; try done.
  - intros j Hj; rewrite Hu by done; assert (E : used c1 j = used c j) by (destruct Hsm as (_ & Em & _); unfold used; by rewrite Em); rewrite E, H3 by done.
    apply eq_bool_prop_intro; rewrite andb_True, negb_True, !bool_decide_spec, elem_of_app; split; [tauto|]; intros Hin; split; [|by right]; intros Hs; by apply (N2 j).
  - apply (shows_touched _ c _ (slots k)); [|intros j Hj Hs; by apply (N2 j)|done]; intros m Hm; by rewrite Ew, Ht.
  - intros j Hj Hn; rewrite Ew; destruct (decide (j ∈ slots k)) as [Hs|Hs]; [by apply Hcl|]; rewrite Ht by done; apply H6; [done|]; rewrite elem_of_app; tauto.
Qed.

Lemma disable_key_spec h c k mac live : holds h c ((k, mac) :: live) -> exists c', htc_disable_key h c k = Some (c', 0) /\ holds h c' live.
Proof.
  intros Hh; pose proof Hh as [H1 H2 H3 H4 H5 H7 H6]; apply Forall_cons_1 in H4 as [H4 _], H5 as [H5 _], H7 as [H7 _]; cbn [fst snd] in *.
  unfold htc_disable_key; rewrite H7; unfold ath_key_delete; destruct (reset_key _ _ _ _ H1 H4 H5) as [Ht Hcl].
  destruct (ath_hw_keyreset c (hw_key_idx k)) as [c1 ok]; cbn [fst] in *; pose proof (same_combined c c1 (proj1 Ht) H1) as Hc1.
  case_bool_decide as Hlt; unfold IEEE80211_WEP_NKID in *; cbn [mbind option_bind].
  { exists c1; split; [done|]; apply (holds_remove h c k mac live c1 c1); try done; intros j Hj; rewrite bool_decide_false; [done|].
    intros Hs; apply slots_in in Hs as [->|[_ ->]]; unfold dynamic in Hj; lia. }
  destruct H4 as [Hs|Hd]; [lia|]; pose proof (slots_bound k (or_intror Hd)) as Hb; pose proof Hc1 as [C1 C2 C3 C4 C5 C6]; unfold slots, needs in *.
  assert (Hi : (hw_key_idx k < 128)%nat) by (destruct (_ =? _); by apply Forall_cons_1 in Hb as [? _]).
  destruct (clear_bit_ok _ _ C2 Hi) as [-> L2], (clear_bit_ok _ _ C4 Hi) as [-> L4]; cbn [mbind option_bind].
  destruct (Z.eqb_spec (cipher k) WLAN_CIPHER_SUITE_TKIP) as [Hc|Hc]; cbn [negb].
  - apply Forall_cons_1 in Hb as [_ [Hi2 _]%Forall_cons_1]; destruct (clear_bit_ok _ _ L2 Hi2) as [-> L5], (clear_bit_ok _ _ C3 Hi) as [-> L6]; cbn [mbind option_bind].
    destruct (clear_bit_ok _ _ L6 Hi2) as [-> L7]; cbn [mbind option_bind]; rewrite C6; cbn [negb mbind option_bind]; eexists; split; [reflexivity|].
    apply (holds_remove h c k mac live c1); unfold slots, needs; rewrite ?Hc, ?Z.eqb_refl; try done.
    intros j Hj; unfold used; cbn [set_maps keymap]; fold (bit (keymap c1) j); fold (bit (<[(hw_key_idx k + 64)%nat := false]> (<[hw_key_idx k := false]> (keymap c1))) j).
    rewrite !bit_insert by done; do 2 (case_decide; [subst; rewrite bool_decide_true by set_solver; done|]); rewrite bool_decide_false by set_solver; done.
  - eexists; split; [reflexivity|]; apply (holds_remove h c k mac live c1); unfold slots, needs; destruct (Z.eqb_spec (cipher k) WLAN_CIPHER_SUITE_TKIP) as [?|_]; try done.
    intros j Hj; unfold used; cbn [set_maps keymap]; fold (bit (keymap c1) j); fold (bit (<[hw_key_idx k := false]> (keymap c1)) j); rewrite bit_insert by done.
    case_decide; [subst; rewrite bool_decide_true by set_solver; done|]; rewrite bool_decide_false by set_solver; done.
Qed.

(** *** The start *)

Lemma resets_spec n c : combined_cache c -> (n <= 128)%nat ->
  let c' := fold_left (fun c i => (ath_hw_keyreset c i).1) (seq 0 n) c in same_maps c c' /\ forall j, (j < n)%nat -> entry_words c' j = cleared.
Proof.
  intros Hc; induction n as [|n IH]; intros Hn; [split; [done|lia]|].
  rewrite seq_S, fold_left_app; destruct IH as [I1 I2]; [lia|]; set (c1 := fold_left _ (seq 0 n) c) in *; cbn [fold_left Nat.add].
  pose proof (same_combined _ _ I1 Hc) as Hc1; destruct (keyreset_spec c1 n) as ((K1 & K2) & K3 & _); [rewrite (cc_size _ Hc1); lia|].
  split; [by eapply same_maps_trans|]; intros j Hj; destruct (decide (j = n)) as [->|Hne]; [done|]; rewrite K2; [apply I2; lia|].
  destruct (_ =? _); set_solver by lia.
Qed.

(** At the start no key is held. *)
Lemma cache_init_holds h r : holds h (ath9k_cmn_init_crypto true true r) [].
Proof.
  unfold ath9k_cmn_init_crypto; set (c := Common _ _ _ _ _ _ _); change (keymax c) with 128%nat; assert (Hc : combined_cache c) by (by constructor).
  destruct (resets_spec 128 c Hc) as [Hsm Hcl]; [done|]; constructor; try done; [by apply (same_combined c)|apply NoDup_nil_2| |].
  - intros i Hi; rewrite bool_decide_false by (intros Hx; by apply elem_of_nil in Hx); unfold used; destruct Hsm as (_ & Em & _); rewrite Em.
    change (keymap c) with (repeat false 128); destruct (repeat false 128 !! i) as [b|] eqn:E; cbn [default from_option]; [|reflexivity].
    apply list_elem_of_lookup_2, list_elem_of_In, repeat_spec in E; exact E.
  - intros i Hi _; by apply Hcl.
Qed.

(** ** Properties *)

(** C15: setting a key succeeds exactly when hardware encryption is on and the driver
    does not leave the key to software, the cipher is one of the adapter's, a
    pairwise key has a station (and index 0 on an access point), a WEP key has at
    least 5 octets, and a slot is left, when the key does not have the slot of its
    index; a failure leaves the key and the cache as they were. *)
Theorem set_key_succeeds_iff h c live sta k : holds h c live -> can_set h live sta k ->
  exists c' ret k', htc_set_key h c sta k = Some (c', ret, k') /\ (ret <> 0 -> c' = c /\ k' = k) /\
    (ret = 0 <-> settable h live sta k).
Proof.
  intros Hh Hcan; destruct (set_key_spec h c live sta k Hh Hcan) as (c' & ret & k' & E & Hr); exists c', ret, k'; split; [done|].
  destruct Hr as [(-> & Hs & _)|(Hlt & Hs & -> & ->)]; split; try done; split; try done; lia.
Qed.

(** A client with a WEP key at index 1 in its static slot: a pairwise CCMP key
    takes slot 4. *)
Definition ex_mac : list Z := [0; 0x0b; 0x6b; 1; 2; 3].
Definition ex_client : htc_conf := Htc false false STATION ex_mac.
Definition ex_ccmp : key_conf := Conf WLAN_CIPHER_SUITE_CCMP 0 0 [1; 2; 3; 4; 5; 6; 7; 8; 9; 10; 11; 12; 13; 14; 15; 16] true false false true false false true.

Lemma ex_mac_ok : wf_mac ex_mac.
Proof. split; [|done]; repeat constructor; cbn; lia. Qed.

Lemma ex_can_set live : can_set ex_client live (Some ex_mac) ex_ccmp.
Proof. split_and!; [split; [repeat constructor; cbn; lia|]; split; [cbn; lia|done]|exact ex_mac_ok|intros m [= <-]; exact ex_mac_ok|done]. Qed.

Lemma set_key_succeeds_iff_witness : exists c' ret k', htc_set_key ex_client (ath9k_cmn_init_crypto true true ∅) (Some ex_mac) ex_ccmp = Some (c', ret, k') /\
  (ret <> 0 -> c' = ath9k_cmn_init_crypto true true ∅ /\ k' = ex_ccmp) /\ (ret = 0 <-> settable ex_client [] (Some ex_mac) ex_ccmp).
Proof. exact (set_key_succeeds_iff ex_client _ [] (Some ex_mac) ex_ccmp (cache_init_holds ex_client ∅) (ex_can_set [])). Defined.

Example set_key_ex : (fun r => (r.1.2, hw_key_idx r.2, hw_key (entry_words r.1.1 4), hw_mac (entry_words r.1.1 4))) <$>
  htc_set_key ex_client (ath9k_cmn_init_crypto true true ∅) (Some ex_mac) ex_ccmp = Some (0, 4%nat, seqZ 1 16, ex_mac).
Proof. vm_compute. reflexivity. Qed.

(** Adapters that keep the two MIC keys apart: after 28 TKIP keys the search for
    four free entries goes on beyond slot 31 and tests bit 128 of the map of 128. *)
Fixpoint take_tkip_slots (n : nat) (c : ath_common) : option ath_common :=
  match n with
  | O => Some c
  | Datatypes.S n => r ← ath_reserve_key_cache_slot_tkip c; i ← r; c ← mark_slots c i WLAN_CIPHER_SUITE_TKIP; take_tkip_slots n c
  end.

Example tkip_search_leaves_map : exists c, take_tkip_slots 28 (Common 128 (repeat false 128) (repeat false 128) (repeat false 128) true false ∅) = Some c /\
  ath_reserve_key_cache_slot_tkip c = None.
Proof. eexists; split; [vm_compute; reflexivity|vm_compute; reflexivity]. Qed.

(** With combined MIC keys there is room for 60 TKIP keys, and the 61st gets no
    slot. *)
Example tkip_capacity : exists c, take_tkip_slots 60 (Common 128 (repeat false 128) (repeat false 128) (repeat false 128) true true ∅) = Some c /\
  ath_reserve_key_cache_slot_tkip c = Some None.
Proof. eexists; split; [vm_compute; reflexivity|vm_compute; reflexivity]. Qed.
End KeyCache.
