(* ===== verification/KeyMgmt.v ===== *)
(** * Keys of an interface

    [net/mac80211/key.c] with its callers in [cfg.c], [sta_info.c], [pm.c] and
    [util.c], and the room [ieee80211_skb_resize] of [tx.c] makes for
    encryption: the keys of one interface and its stations, what the driver is
    told about them, and the count of keys that need room.  Keys and stations
    are objects in a store; following a pointer to one that was freed is a fault
    ([None]).  The driver is an interface ([KeyDriver]), which [KeyCache]
    implements. *)

From stdpp Require Import gmap.
From S2P Require Import Prelude KeyCache.

Module KeyMgmt.
Import KeyCache (key_conf(..), cipher, hw_key_idx, keyidx, key, wmm_sta, generate_iv, generate_mmic, pairwise, sw_mgmt_tx, put_iv_space, rx_mgmt, iftype(..), iftype_eq_dec, EIO, ENOSPC, EOPNOTSUPP, WLAN_CIPHER_SUITE_WEP40, WLAN_CIPHER_SUITE_WEP104, WLAN_CIPHER_SUITE_TKIP,
  WLAN_CIPHER_SUITE_CCMP, WLAN_CIPHER_SUITE_AES_CMAC).

Definition NUM_DEFAULT_KEYS : nat := 4.
Definition NUM_DEFAULT_MGMT_KEYS : nat := 2.
Definition IEEE80211_NUM_TIDS : nat := 16.
Definition WEP_IV_LEN : Z := 4.
Definition WEP_ICV_LEN : Z := 4.
Definition TKIP_IV_LEN : Z := 8.
Definition TKIP_ICV_LEN : Z := 4.
Definition CCMP_HDR_LEN : Z := 8.
Definition CCMP_MIC_LEN : Z := 8.
Definition CCMP_PN_LEN : nat := 6.
Definition CMAC_PN_LEN : nat := 6.
Definition MMIE_LEN : Z := 18.
Definition MICHAEL_MIC_LEN : Z := 8.
Definition IEEE80211_ENCRYPT_HEADROOM : Z := 8.
Definition IEEE80211_ENCRYPT_TAILROOM : Z := 18.
Definition ENOENT : Z := 2.
Definition ENETDOWN : Z := 100.
Definition EINVAL : Z := 22.
Definition ENOMEM : Z := 12.

(** ** The driver *)

(** A key with the address of its station. *)
Definition driver_keys : Type := list (key_conf * option (list Z)).

(** What a key is for: the place mac80211 keeps it in. *)
Inductive purpose := Pairwise (sta : option (list Z)) | Group (sta : option (list Z)) (idx : Z).

Definition purpose_of (k : key_conf) (sta : option (list Z)) : purpose := if pairwise k then Pairwise sta else Group sta (keyidx k).

(** The driver may choose the slot and set flags. *)
Definition same_key (k k' : key_conf) : Prop :=
  cipher k' = cipher k /\ keyidx k' = keyidx k /\ key k' = key k /\ pairwise k' = pairwise k.

(** [set_key] of [struct ieee80211_ops], and the contract mac80211 and the
    driver have: a key that is set is one the driver knows, and no other key it
    holds is for the same purpose; only keys it holds are disabled; it then
    holds exactly the keys that were set and not disabled. *)
Class KeyDriver (D : Type) := {
  drv_set_key : D -> option (list Z) -> key_conf -> option (D * Z * key_conf);
  drv_disable_key : D -> key_conf -> option (D * Z);
  drv_key_ok : option (list Z) -> key_conf -> Prop;
  drv_holds : D -> driver_keys -> Prop;
  drv_holds_perm d l l' : l ≡ₚ l' -> drv_holds d l -> drv_holds d l';
  drv_set_law d l sta k : drv_holds d l -> drv_key_ok sta k -> Forall (fun x => purpose_of x.1 x.2 <> purpose_of k sta) l ->
    exists d' ret k', drv_set_key d sta k = Some (d', ret, k') /\ same_key k k' /\ drv_holds d' (if ret =? 0 then (k', sta) :: l else l);
  drv_disable_law d l sta k : drv_holds d ((k, sta) :: l) -> exists d' ret, drv_disable_key d k = Some (d', ret) /\ drv_holds d' l;
  drv_key_ok_same sta k k' : same_key k k' -> drv_key_ok sta k -> drv_key_ok sta k' }.

(** ** State *)

(** The receive counters of a key. *)
Inductive counters := TkipRx (rx : list (Z * Z)) | CcmpRx (rx_pn : list (list Z)) | CmacRx (rx_pn : list Z) | NoCounters.

(** [struct ieee80211_key]: [linked] when [local] and [sdata] are set,
    [uploaded] for [KEY_FLAG_UPLOADED_TO_HARDWARE]. *)
Record ieee80211_key := Key { conf : key_conf; iv_len : Z; icv_len : Z; rx : counters; key_sta : option nat; linked : bool; uploaded : bool }.

Record sta_info := Sta { sta_addr : list Z; ptk : option nat; gtk : list (option nat); sta_uploaded : bool; wme : bool; assoc : bool; mfp : bool }.

(** The interface: its type, whether it is running, [u.mgd.mfp], the security of
    a mesh, the station entry of its access point, [ops->set_key] given,
    [IEEE80211_HW_SUPPORTS_PER_STA_GTK], and WEP usable. *)
Record iface := Iface { vif_type : iftype; running : bool; mgd_mfp : bool; mesh_sec : bool; ap : option nat; has_set_key : bool; per_sta_gtk : bool; wep_ok : bool }.

Record sub_if_data := Sdata {
  keys : list (option nat); default_unicast_key : option nat; default_multicast_key : option nat; default_mgmt_key : option nat;
  key_list : list nat; crypto_tx_tailroom_needed_cnt : Z }.

Record state (D : Type) := State { store : gmap nat ieee80211_key; stas : gmap nat sta_info; sdata : sub_if_data; drv : D }.
Arguments State {D}.
Arguments store {D}.
Arguments stas {D}.
Arguments sdata {D}.
Arguments drv {D}.

Section Ops.
Context {D : Type} `{KeyDriver D} (vif : iface).
Implicit Types s : state D.

Definition set_store s (m : gmap nat ieee80211_key) : state D := State m (stas s) (sdata s) (drv s).
Definition set_stas s (m : gmap nat sta_info) : state D := State (store s) m (sdata s) (drv s).
Definition set_sdata s (d : sub_if_data) : state D := State (store s) (stas s) d (drv s).
Definition set_drv s (d : D) : state D := State (store s) (stas s) (sdata s) d.

Definition set_conf (k : ieee80211_key) (c : key_conf) : ieee80211_key := Key c (iv_len k) (icv_len k) (rx k) (key_sta k) (linked k) (uploaded k).
Definition set_uploaded (k : ieee80211_key) (b : bool) : ieee80211_key := Key (conf k) (iv_len k) (icv_len k) (rx k) (key_sta k) (linked k) b.
Definition set_linked (k : ieee80211_key) (sta : option nat) : ieee80211_key := Key (conf k) (iv_len k) (icv_len k) (rx k) sta true (uploaded k).

Definition set_keys (d : sub_if_data) (l : list (option nat)) : sub_if_data :=
  Sdata l (default_unicast_key d) (default_multicast_key d) (default_mgmt_key d) (key_list d) (crypto_tx_tailroom_needed_cnt d).
Definition set_defaults (d : sub_if_data) (u m g : option nat) : sub_if_data := Sdata (keys d) u m g (key_list d) (crypto_tx_tailroom_needed_cnt d).
Definition set_list (d : sub_if_data) (l : list nat) : sub_if_data :=
  Sdata (keys d) (default_unicast_key d) (default_multicast_key d) (default_mgmt_key d) l (crypto_tx_tailroom_needed_cnt d).
Definition set_count (d : sub_if_data) (n : Z) : sub_if_data :=
  Sdata (keys d) (default_unicast_key d) (default_multicast_key d) (default_mgmt_key d) (key_list d) n.

(** Changing the count by [n]. *)
Definition tailroom s (n : Z) : state D := set_sdata s (set_count (sdata s) (crypto_tx_tailroom_needed_cnt (sdata s) + n)).
Definition increment_tailroom_need_count s : state D := tailroom s 1.

(** The station of a key. *)
Definition sta_of s (st : option nat) : option (option sta_info) :=
  match st with Some i => t ← stas s !! i; Some (Some t) | None => Some None end.

(** The hardware does all of the encryption. *)
Definition no_room (c : key_conf) : bool := negb (generate_mmic c || generate_iv c || put_iv_space c).

Definition software_cipher (cipher : Z) : bool :=
  (cipher =? WLAN_CIPHER_SUITE_WEP40) || (cipher =? WLAN_CIPHER_SUITE_WEP104) || (cipher =? WLAN_CIPHER_SUITE_TKIP) ||
  (cipher =? WLAN_CIPHER_SUITE_CCMP) || (cipher =? WLAN_CIPHER_SUITE_AES_CMAC).

Definition unsupported_ret (c : key_conf) : Z := if software_cipher (cipher c) then 0 else - EINVAL.

(** Keys the driver is not asked to take. *)
Definition not_asked (k : ieee80211_key) (sta : option sta_info) : bool :=
  negb (has_set_key vif) ||
  match sta with Some t => (negb (pairwise (conf k)) && negb (per_sta_gtk vif)) || negb (sta_uploaded t) | None => false end ||
  (bool_decide (vif_type vif = AP_VLAN) && negb (pairwise (conf k))).

Definition ieee80211_key_enable_hw_accel s (id : nat) : option (state D * Z) :=
  k ← store s !! id; sta ← sta_of s (key_sta k);
  if not_asked k sta then Some (s, unsupported_ret (conf k))
  else
    '(d, ret, c) ← drv_set_key (drv s) (sta_addr <$> sta) (conf k);
    let s := set_drv s d in
    if ret =? 0 then
      let s := set_store s (<[id := set_uploaded (set_conf k c) true]> (store s)) in
      Some (if no_room c then tailroom s (-1) else s, 0)
    else Some (set_store s (<[id := set_conf k c]> (store s)), unsupported_ret c).

Definition ieee80211_key_disable_hw_accel s (id : nat) : option (state D) :=
  k ← store s !! id;
  if negb (has_set_key vif) || negb (uploaded k) then Some s
  else
    sta ← sta_of s (key_sta k);
    let s := if no_room (conf k) then increment_tailroom_need_count s else s in
    '(d, _) ← drv_disable_key (drv s) (conf k);
    let s := set_drv s d in
    Some (set_store s (<[id := set_uploaded k false]> (store s))).

Definition key_at s (idx : Z) (lo hi : nat) : option nat :=
  if (Z.of_nat lo <=? idx) && (idx <? Z.of_nat hi) then mjoin (keys (sdata s) !! Z.to_nat idx) else None.

Definition __ieee80211_set_default_key s (idx : Z) (uni multi : bool) : state D :=
  let key := key_at s idx 0 NUM_DEFAULT_KEYS in
  let d := sdata s in
  set_sdata s (set_defaults d (if uni then key else default_unicast_key d) (if multi then key else default_multicast_key d) (default_mgmt_key d)).

Definition __ieee80211_set_default_mgmt_key s (idx : Z) : state D :=
  let key := key_at s idx NUM_DEFAULT_KEYS (NUM_DEFAULT_KEYS + NUM_DEFAULT_MGMT_KEYS) in
  let d := sdata s in
  set_sdata s (set_defaults d (default_unicast_key d) (default_multicast_key d) key).

Definition set_ptk (t : sta_info) (v : option nat) : sta_info := Sta (sta_addr t) v (gtk t) (sta_uploaded t) (wme t) (assoc t) (mfp t).
Definition set_gtk (t : sta_info) (l : list (option nat)) : sta_info := Sta (sta_addr t) (ptk t) l (sta_uploaded t) (wme t) (assoc t) (mfp t).

(** The index of the old key, or that of the new one. *)
Definition replace_idx s (old new : option nat) : option Z :=
  match old, new with
  | Some i, _ | None, Some i => k ← store s !! i; Some (keyidx (conf k))
  | None, None => None
  end.

(** The branch of a key that is not a station's. *)
Definition replace_slot s (idx : Z) (old new : option nat) : option (state D) :=
  let defunikey := bool_decide (old <> None) && bool_decide (old = default_unicast_key (sdata s)) in
  let defmultikey := bool_decide (old <> None) && bool_decide (old = default_multicast_key (sdata s)) in
  let defmgmtkey := bool_decide (old <> None) && bool_decide (old = default_mgmt_key (sdata s)) in
  let none := bool_decide (new = None) in
  let s := if defunikey && none then __ieee80211_set_default_key s (-1) true false else s in
  let s := if defmultikey && none then __ieee80211_set_default_key s (-1) false true else s in
  let s := if defmgmtkey && none then __ieee80211_set_default_mgmt_key s (-1) else s in
  let s := set_sdata s (set_keys (sdata s) (<[Z.to_nat idx := new]> (keys (sdata s)))) in
  match new with
  | None => Some s
  | Some i =>
      k ← store s !! i;
      let s := if defunikey then __ieee80211_set_default_key s (keyidx (conf k)) true false else s in
      let s := if defmultikey then __ieee80211_set_default_key s (keyidx (conf k)) false true else s in
      Some (if defmgmtkey then __ieee80211_set_default_mgmt_key s (keyidx (conf k)) else s)
  end.

Definition __ieee80211_key_replace s (sta : option nat) (pairwise : bool) (old new : option nat) : option (state D) :=
  let s := match new with Some i => set_sdata s (set_list (sdata s) (key_list (sdata s) ++ [i])) | None => s end in
  s ← match sta with
  | Some st =>
      t ← stas s !! st;
      if pairwise then Some (set_stas s (<[st := set_ptk t new]> (stas s)))
      else idx ← replace_idx s old new; Some (set_stas s (<[st := set_gtk t (<[Z.to_nat idx := new]> (gtk t))]> (stas s)))
  | None => idx ← replace_idx s old new; replace_slot s idx old new
  end;
  Some (match old with Some i => set_sdata s (set_list (sdata s) (filter (fun j => j <> i) (key_list (sdata s)))) | None => s end).

(** ** Keys come and go *)

(** What the allocation and the crypto API answer. *)
Record key_params := Params { p_cipher : Z; p_key : list Z; p_seq : option (list Z); alloc_ok : bool; setup_ok : bool }.

(** The packet numbers of a key come in the other byte order. *)
Definition rx_pn_of (n : nat) (seq : option (list Z)) : list Z := match seq with Some q => rev (take n q) | None => repeat 0 n end.

Definition ieee80211_key_alloc (p : key_params) (idx : Z) : option (ieee80211_key + Z) :=
  if (idx <? 0) || (Z.of_nat (NUM_DEFAULT_KEYS + NUM_DEFAULT_MGMT_KEYS) <=? idx) then None
  else if negb (alloc_ok p) then Some (inr (- ENOMEM))
  else
    let c := Conf (p_cipher p) 0 idx (p_key p) false false false false false false false in
    let make iv icv rx := Some (inl (Key c iv icv rx None false false)) in
    if (p_cipher p =? WLAN_CIPHER_SUITE_WEP40) || (p_cipher p =? WLAN_CIPHER_SUITE_WEP104) then make WEP_IV_LEN WEP_ICV_LEN NoCounters
    else if p_cipher p =? WLAN_CIPHER_SUITE_TKIP then
      let iv := match p_seq p with Some q => (get_le32 q 2, get_le16 q 0) | None => (0, 0) end in
      make TKIP_IV_LEN TKIP_ICV_LEN (TkipRx (repeat iv IEEE80211_NUM_TIDS))
    else if p_cipher p =? WLAN_CIPHER_SUITE_CCMP then
      if negb (setup_ok p) then Some (inr (- ENOMEM))
      else make CCMP_HDR_LEN CCMP_MIC_LEN (CcmpRx (repeat (rx_pn_of CCMP_PN_LEN (p_seq p)) (IEEE80211_NUM_TIDS + 1)))
    else if p_cipher p =? WLAN_CIPHER_SUITE_AES_CMAC then
      if negb (setup_ok p) then Some (inr (- ENOMEM)) else make 0 MMIE_LEN (CmacRx (rx_pn_of CMAC_PN_LEN (p_seq p)))
    else make 0 0 NoCounters.

(** [kfree] of the key, after what goes before. *)
Definition __ieee80211_key_destroy s (id : option nat) : option (state D) :=
  match id with
  | None => Some s
  | Some id =>
      k ← store s !! id;
      s ← (if linked k then ieee80211_key_disable_hw_accel s id else Some s);
      let s := if linked k then tailroom s (-1) else s in
      Some (set_store s (delete id (store s)))
  end.

(** The key in the place a new one goes to. *)
Definition old_key s (sta : option nat) (c : key_conf) : option (option nat) :=
  match sta with
  | Some st => t ← stas s !! st; Some (if pairwise c then ptk t else mjoin (gtk t !! Z.to_nat (keyidx c)))
  | None => Some (mjoin (keys (sdata s) !! Z.to_nat (keyidx c)))
  end.

Definition set_wmm (k : ieee80211_key) : ieee80211_key :=
  let c := conf k in
  set_conf k (Conf (cipher c) (hw_key_idx c) (keyidx c) (key c) true (generate_iv c) (generate_mmic c) (pairwise c) (sw_mgmt_tx c) (put_iv_space c) (rx_mgmt c)).

(** Whether the other side could use QoS. *)
Definition qos_peer s (sta : option nat) : option bool :=
  match sta with
  | Some st => t ← stas s !! st; Some (wme t)
  | None =>
      if bool_decide (vif_type vif = STATION)
      then match ap vif with Some a => Some (match stas s !! a with Some t => wme t | None => false end) | None => Some false end
      else Some false
  end.

Definition ieee80211_key_link s (id : nat) (sta : option nat) : option (state D * Z) :=
  k ← store s !! id;
  let k := set_linked k sta in
  q ← qos_peer s sta;
  let k := if q : bool then set_wmm k else k in
  let s := set_store s (<[id := k]> (store s)) in
  old ← old_key s sta (conf k);
  let s := increment_tailroom_need_count s in
  s ← __ieee80211_key_replace s sta (pairwise (conf k)) old (Some id);
  s ← __ieee80211_key_destroy s old;
  ieee80211_key_enable_hw_accel s id.

Definition __ieee80211_key_free s (id : option nat) : option (state D) :=
  match id with
  | None => Some s
  | Some i =>
      k ← store s !! i;
      s ← (if linked k then __ieee80211_key_replace s (key_sta k) (pairwise (conf k)) (Some i) None else Some s);
      __ieee80211_key_destroy s (Some i)
  end.

(** Over a list of keys, in turn. *)
Fixpoint for_keys (f : state D -> nat -> option (state D)) (l : list nat) s : option (state D) :=
  match l with [] => Some s | i :: l => s ← f s i; for_keys f l s end.

Definition ieee80211_enable_keys s : option (state D) :=
  if negb (running vif) then Some s
  else
    let s := set_sdata s (set_count (sdata s) 0) in
    for_keys (fun s i => r ← ieee80211_key_enable_hw_accel (increment_tailroom_need_count s) i; Some r.1) (key_list (sdata s)) s.

Definition ieee80211_disable_keys s : option (state D) := for_keys ieee80211_key_disable_hw_accel (key_list (sdata s)) s.

Definition ieee80211_free_keys s : option (state D) := for_keys (fun s i => __ieee80211_key_free s (Some i)) (key_list (sdata s)) s.

(** ** From user space *)

Definition set_conf_flags (c : key_conf) (pw rxm : bool) : key_conf :=
  Conf (cipher c) (hw_key_idx c) (keyidx c) (key c) (wmm_sta c) (generate_iv c) (generate_mmic c) pw (sw_mgmt_tx c) (put_iv_space c) rxm.

(** [IEEE80211_KEY_FLAG_RX_MGMT] of a key that is not linked yet. *)
Definition rx_mgmt_flag s (k : ieee80211_key) : option bool :=
  match vif_type vif with
  | STATION => Some (mgd_mfp vif)
  | AP | AP_VLAN => sta ← sta_of s (key_sta k); Some (match sta with Some t => mfp t | None => false end)
  | ADHOC => Some false
  | MESH_POINT => Some (mesh_sec vif)
  | OTHER => Some false
  end.

(** A key for the station [mac], if any; the new object is [id]. *)
Definition ieee80211_add_key s (id : nat) (key_idx : Z) (pw : bool) (mac : option nat) (p : key_params) : option (state D * Z) :=
  if negb (running vif) then Some (s, - ENETDOWN)
  else if ((p_cipher p =? WLAN_CIPHER_SUITE_WEP40) || (p_cipher p =? WLAN_CIPHER_SUITE_TKIP) || (p_cipher p =? WLAN_CIPHER_SUITE_WEP104)) && negb (wep_ok vif)
  then Some (s, - EINVAL)
  else
    r ← ieee80211_key_alloc p key_idx;
    match r with
    | inr err => Some (s, err)
    | inl k =>
        let s := set_store s (<[id := set_conf k (set_conf_flags (conf k) pw false)]> (store s)) in
        if match mac with Some st => match stas s !! st with Some t => negb (assoc t) | None => true end | None => false end
        then s ← __ieee80211_key_free s (Some id); Some (s, - ENOENT)
        else
          k ← store s !! id;
          m ← rx_mgmt_flag s k;
          let s := set_store s (<[id := set_conf k (set_conf_flags (conf k) pw m)]> (store s)) in
          '(s, err) ← ieee80211_key_link s id mac;
          if err =? 0 then Some (s, 0)
          else s ← __ieee80211_key_free s (Some id); Some (s, err)
    end.

Definition ieee80211_del_key s (key_idx : Z) (pw : bool) (mac : option nat) : option (state D * Z) :=
  let key :=
    match mac with
    | Some st => match stas s !! st with Some t => if pw then ptk t else mjoin (gtk t !! Z.to_nat key_idx) | None => None end
    | None => mjoin (keys (sdata s) !! Z.to_nat key_idx)
    end in
  match key with
  | None => Some (s, - ENOENT)
  | Some i => s ← __ieee80211_key_free s (Some i); Some (s, 0)
  end.

(** [sta_info_insert] and the part of [__sta_info_destroy] about keys, after
    which the station is freed. *)
Definition add_sta s (st : nat) (addr : list Z) (up w a m : bool) : state D :=
  set_stas s (<[st := Sta addr None (repeat None (NUM_DEFAULT_KEYS + NUM_DEFAULT_MGMT_KEYS)) up w a m]> (stas s)).

Definition free_gtk (st : nat) s (i : nat) : option (state D) := t ← stas s !! st; __ieee80211_key_free s (mjoin (gtk t !! i)).

Definition __sta_info_destroy s (st : nat) : option (state D) :=
  s ← for_keys (free_gtk st) (seq 0 NUM_DEFAULT_KEYS) s;
  t ← stas s !! st;
  s ← __ieee80211_key_free s (ptk t);
  Some (set_stas s (delete st (stas s))).

(** ** Room for encryption *)

(** A buffer: its head and tail room, and whether it is shared. *)
Record skb_room := Room { headroom : Z; tail : Z; cloned : bool }.

(** [ieee80211_skb_resize], [None] when there is no memory; what
    [pskb_expand_head] leaves is a parameter. *)
Definition ieee80211_skb_resize (pskb_expand_head : skb_room -> Z -> Z -> option skb_room) s (b : skb_room) (head_need : Z) (may_encrypt : bool) : option skb_room :=
  let tail_need := if may_encrypt && negb (crypto_tx_tailroom_needed_cnt (sdata s) =? 0) then Z.max (IEEE80211_ENCRYPT_TAILROOM - tail b) 0 else 0 in
  if cloned b || negb (head_need =? 0) || negb (tail_need =? 0) then pskb_expand_head b head_need tail_need else Some b.

(** The room [ieee80211_xmit] makes. *)
Definition xmit_room (pskb_expand_head : skb_room -> Z -> Z -> option skb_room) s (tx_headroom : Z) (b : skb_room) (may_encrypt : bool) : option skb_room :=
  let need := tx_headroom + (if may_encrypt then IEEE80211_ENCRYPT_HEADROOM else 0) in
  ieee80211_skb_resize pskb_expand_head s b (Z.max 0 (need - headroom b)) may_encrypt.

(** ** Runs *)

Inductive op :=
  | OAdd (id : nat) (key_idx : Z) (pw : bool) (mac : option nat) (p : key_params) | ODel (key_idx : Z) (pw : bool) (mac : option nat)
  | ODefault (idx : Z) (uni multi : bool) | ODefaultMgmt (idx : Z) | OAddSta (st : nat) (addr : list Z) (up w a m : bool) | ODelSta (st : nat)
  | OSuspend | OResume | OFreeAll.

Definition step (o : op) s : option (state D) :=
  match o with
  | OAdd id key_idx pw mac p => fst <$> ieee80211_add_key s id key_idx pw mac p
  | ODel key_idx pw mac => fst <$> ieee80211_del_key s key_idx pw mac
  | ODefault idx uni multi => Some (__ieee80211_set_default_key s idx uni multi)
  | ODefaultMgmt idx => Some (__ieee80211_set_default_mgmt_key s idx)
  | OAddSta st addr up w a m => Some (add_sta s st addr up w a m)
  | ODelSta st => __sta_info_destroy s st
  | OSuspend => ieee80211_disable_keys s
  | OResume => ieee80211_enable_keys s
  | OFreeAll => ieee80211_free_keys s
  end.

Fixpoint run (os : list op) s : option (state D) :=
  match os with [] => Some s | o :: os => s ← step o s; run os s end.
End Ops.

(** ** Lemmas: pointers *)

(** The places that point to keys. *)
Inductive place := SKey (i : nat) | SPtk (st : nat) | SGtk (st i : nat).

#[global] Instance place_eq_dec : EqDecision place.
Proof. solve_decision. Defined.

Definition place_of (k : ieee80211_key) : place :=
  match key_sta k with
  | Some st => if pairwise (conf k) then SPtk st else SGtk st (Z.to_nat (keyidx (conf k)))
  | None => SKey (Z.to_nat (keyidx (conf k)))
  end.

Section Lemmas.
Context {D : Type} `{KeyDriver D} (vif : iface).
Implicit Types s : state D.

Definition ptr s (p : place) : option nat :=
  match p with
  | SKey i => mjoin (keys (sdata s) !! i)
  | SPtk st => t ← stas s !! st; ptk t
  | SGtk st i => t ← stas s !! st; mjoin (gtk t !! i)
  end.

Definition set_ptr s (p : place) (v : option nat) : state D :=
  match p with
  | SKey i => set_sdata s (set_keys (sdata s) (<[i := v]> (keys (sdata s))))
  | SPtk st => match stas s !! st with Some t => set_stas s (<[st := set_ptk t v]> (stas s)) | None => s end
  | SGtk st i => match stas s !! st with Some t => set_stas s (<[st := set_gtk t (<[i := v]> (gtk t))]> (stas s)) | None => s end
  end.

(** The arrays have their sizes, and there are no group management keys of a
    station. *)
Definition sizes s : Prop :=
  length (keys (sdata s)) = 6%nat /\ forall st t, stas s !! st = Some t -> length (gtk t) = 6%nat /\ forall i, (4 <= i)%nat -> mjoin (gtk t !! i) = None.

Definition valid s (p : place) : Prop :=
  match p with SKey i => (i < 6)%nat | SPtk st => is_Some (stas s !! st) | SGtk st i => is_Some (stas s !! st) /\ (i < 4)%nat end.

Lemma mjoin_insert {A} (l : list (option A)) i j v : (i < length l)%nat -> mjoin (<[i := v]> l !! j) = if decide (i = j) then v else mjoin (l !! j).
Proof. intros Hi; case_decide as E; [subst; by rewrite list_lookup_insert_eq|by rewrite list_lookup_insert_ne]. Qed.

Lemma ptr_set s p v q : sizes s -> valid s p -> ptr (set_ptr s p v) q = if decide (p = q) then v else ptr s q.
Proof.
  intros [Hk Hg] Hv; destruct p as [i|st|st i]; cbn [set_ptr valid] in *.
  - destruct q as [j|st'|st' j]; cbn [ptr set_sdata sdata set_keys keys stas]; [|done|done]; rewrite mjoin_insert by lia.
    destruct (decide (i = j)); [by rewrite decide_True by congruence|by rewrite decide_False by congruence].
  - destruct Hv as [t Ht]; rewrite Ht; destruct q as [j|st'|st' j]; cbn [ptr set_stas stas sdata]; [done| |].
    + destruct (decide (st = st')) as [->|Hne]; [rewrite lookup_insert_eq, decide_True by done; done|rewrite lookup_insert_ne, decide_False by congruence; done].
    + rewrite decide_False by done; destruct (decide (st = st')) as [->|Hne]; [rewrite lookup_insert_eq, Ht; done|by rewrite lookup_insert_ne].
  - destruct Hv as [[t Ht] Hi]; rewrite Ht; destruct (Hg st t Ht) as [Hl _]; destruct q as [j|st'|st' j]; cbn [ptr set_stas stas sdata]; [done| |].
    + rewrite decide_False by done; destruct (decide (st = st')) as [->|Hne]; [rewrite lookup_insert_eq, Ht; done|by rewrite lookup_insert_ne].
    + destruct (decide (st = st')) as [->|Hne].
      * rewrite lookup_insert_eq, Ht; cbn [mbind option_bind set_gtk gtk]; rewrite mjoin_insert by lia.
        destruct (decide (i = j)); [by rewrite decide_True by congruence|by rewrite decide_False by congruence].
      * rewrite lookup_insert_ne, decide_False by congruence; done.
Qed.

Lemma sizes_set s p v : sizes s -> valid s p -> sizes (set_ptr s p v).
Proof.
  intros [Hk Hg] Hv; destruct p as [i|st|st i]; cbn [set_ptr valid] in *.
  - split; [by cbn; rewrite length_insert|done].
  - destruct Hv as [t Ht]; rewrite Ht; split; [done|]; intros st' t' E; cbn [set_stas stas] in E; destruct (decide (st = st')) as [->|Hne].
    + rewrite lookup_insert_eq in E; injection E as <-; by apply (Hg st' t).
    + rewrite lookup_insert_ne in E by done; by apply (Hg st').
  - destruct Hv as [[t Ht] Hi]; rewrite Ht; destruct (Hg st t Ht) as [Hl Hn]; split; [done|]; intros st' t' E; cbn [set_stas stas] in E; destruct (decide (st = st')) as [->|Hne].
    + rewrite lookup_insert_eq in E; injection E as <-; cbn [set_gtk gtk]; split; [by rewrite length_insert|]; intros j Hj; rewrite mjoin_insert by lia.
      rewrite decide_False by lia; by apply Hn.
    + rewrite lookup_insert_ne in E by done; by apply (Hg st').
Qed.

(** The address of a station. *)
Definition addr s (st : option nat) : option (list Z) := st ← st; sta_addr <$> stas s !! st.

Lemma addr_set s p v st : addr (set_ptr s p v) st = addr s st.
Proof.
  destruct st as [st|]; [|done]; unfold addr; cbn [mbind option_bind]; destruct p as [i|st'|st' i]; cbn [set_ptr]; [done| |].
  all: destruct (stas s !! st') as [t|] eqn:E; [|done]; cbn [set_stas stas]; destruct (decide (st' = st)) as [->|Hne]; [by rewrite lookup_insert_eq, E|by rewrite lookup_insert_ne].
Qed.

Lemma valid_set s p v q : valid (set_ptr s p v) q <-> valid s q.
Proof.
  assert (Hs : forall st, is_Some (stas (set_ptr s p v) !! st) <-> is_Some (stas s !! st)); [|destruct q; cbn [valid]; by rewrite ?Hs].
  intros st; destruct p as [i|st'|st' i]; cbn [set_ptr]; [done| |].
  all: destruct (stas s !! st') as [t|] eqn:E; [|done]; cbn [set_stas stas]; destruct (decide (st' = st)) as [->|Hne]; [rewrite lookup_insert_eq, E; done|by rewrite lookup_insert_ne].
Qed.

(** Software encryption with the key fits in the room the frames get. *)
Definition roomy (k : ieee80211_key) : Prop :=
  iv_len k <= IEEE80211_ENCRYPT_HEADROOM /\ icv_len k + (if cipher (conf k) =? WLAN_CIPHER_SUITE_TKIP then MICHAEL_MIC_LEN else 0) <= IEEE80211_ENCRYPT_TAILROOM.

(** The keys [m] are those of the list, each where it belongs, and nothing else
    is pointed to. *)
Record linked_keys (m : gmap nat ieee80211_key) s : Prop := Linked {
  l_sizes : sizes s;
  l_nodup : NoDup (key_list (sdata s));
  l_list : forall id, id ∈ key_list (sdata s) <-> is_Some (m !! id);
  l_keys : forall id k, m !! id = Some k -> linked k = true /\ 0 <= keyidx (conf k) /\ valid s (place_of k) /\ ptr s (place_of k) = Some id /\ (pairwise (conf k) = true -> key_sta k <> None);
  l_room : forall id k, m !! id = Some k -> roomy k;
  l_ptrs : forall p id, ptr s p = Some id -> exists k, m !! id = Some k /\ place_of k = p;
  l_unicast : forall id, default_unicast_key (sdata s) = Some id -> exists i, (i < 4)%nat /\ ptr s (SKey i) = Some id;
  l_multicast : forall id, default_multicast_key (sdata s) = Some id -> exists i, (i < 4)%nat /\ ptr s (SKey i) = Some id;
  l_mgmt : forall id, default_mgmt_key (sdata s) = Some id -> exists i, (4 <= i < 6)%nat /\ ptr s (SKey i) = Some id;
  l_addr : forall st st' a, addr s (Some st) = Some a -> addr s (Some st') = Some a -> st = st' }.

(** What [__ieee80211_key_replace] does: the place gets the new key, the list
    changes, and a default key that was the old one is the new one. *)
Definition new_default (p : place) (lo hi : nat) (old v d : option nat) : option nat :=
  match p with
  | SKey i => if bool_decide (old <> None /\ old = d) then (if bool_decide (lo <= i < hi)%nat then v else None) else d
  | _ => d
  end.

Record replaced s (p : place) (old v : option nat) s' : Prop := Replaced {
  r_ptr : forall q, ptr s' q = if decide (p = q) then v else ptr s q;
  r_list : key_list (sdata s') = let l := key_list (sdata s) ++ option_list v in match old with Some o => filter (fun j => j <> o) l | None => l end;
  r_uni : default_unicast_key (sdata s') = new_default p 0 4 old v (default_unicast_key (sdata s));
  r_multi : default_multicast_key (sdata s') = new_default p 0 4 old v (default_multicast_key (sdata s));
  r_mgmt : default_mgmt_key (sdata s') = new_default p 4 6 old v (default_mgmt_key (sdata s));
  r_sizes : sizes s';
  r_valid : forall q, valid s' q <-> valid s q;
  r_addr : forall st, addr s' st = addr s st;
  r_same : store s' = store s /\ drv s' = drv s /\ crypto_tx_tailroom_needed_cnt (sdata s') = crypto_tx_tailroom_needed_cnt (sdata s) }.

Lemma replaced_sta s p v old : (forall i, p <> SKey i) -> sizes s -> valid s p ->
  replaced s p old v
    (let s0 := match v with Some i => set_sdata s (set_list (sdata s) (key_list (sdata s) ++ [i])) | None => s end in
     let s1 := set_ptr s0 p v in
     match old with Some i => set_sdata s1 (set_list (sdata s1) (filter (fun j => j <> i) (key_list (sdata s1)))) | None => s1 end).
Proof.
  intros Hp Hs Hv; cbn zeta; set (s0 := match v with Some i => _ | None => s end).
  assert (E0 : stas s0 = stas s /\ keys (sdata s0) = keys (sdata s) /\ key_list (sdata s0) = key_list (sdata s) ++ option_list v /\ store s0 = store s /\ drv s0 = drv s /\
    crypto_tx_tailroom_needed_cnt (sdata s0) = crypto_tx_tailroom_needed_cnt (sdata s) /\ default_unicast_key (sdata s0) = default_unicast_key (sdata s) /\
    default_multicast_key (sdata s0) = default_multicast_key (sdata s) /\ default_mgmt_key (sdata s0) = default_mgmt_key (sdata s)).
  { unfold s0; destruct v; cbn; rewrite ?app_nil_r; by split_and!. }
  destruct E0 as (A1 & A2 & A3 & A4 & A5 & A6 & A7 & A8 & A9).
  assert (Hs0 : sizes s0) by (unfold sizes; by rewrite A1, A2); assert (Hv0 : valid s0 p) by (destruct p; cbn [valid] in *; by rewrite ?A1).
  set (s1 := set_ptr s0 p v); assert (E1 : sdata s1 = sdata s0 /\ store s1 = store s0 /\ drv s1 = drv s0).
  { unfold s1; destruct p as [i|st|st i]; [by destruct (Hp i)| |]; cbn [set_ptr]; by case_match. }
  destruct E1 as (B1 & B2 & B3); set (s2 := match old with Some i => _ | None => s1 end).
  assert (E2 : stas s2 = stas s1 /\ keys (sdata s2) = keys (sdata s1) /\ store s2 = store s1 /\ drv s2 = drv s1 /\
    key_list (sdata s2) = match old with Some o => filter (fun j => j <> o) (key_list (sdata s1)) | None => key_list (sdata s1) end /\
    crypto_tx_tailroom_needed_cnt (sdata s2) = crypto_tx_tailroom_needed_cnt (sdata s1) /\ default_unicast_key (sdata s2) = default_unicast_key (sdata s1) /\
    default_multicast_key (sdata s2) = default_multicast_key (sdata s1) /\ default_mgmt_key (sdata s2) = default_mgmt_key (sdata s1)) by (unfold s2; by destruct old).
  destruct E2 as (C1 & C2 & C3 & C4 & C5 & C6 & C7 & C8 & C9).
  assert (Hd : forall lo hi d, new_default p lo hi old v d = d) by (intros; destruct p as [i|st|st i]; [by destruct (Hp i)|done|done]).
  constructor; rewrite ?Hd; try congruence.
  - intros q; transitivity (ptr s1 q); [destruct q; cbn [ptr]; by rewrite ?C1, ?C2|]; unfold s1; rewrite ptr_set by done; case_decide; [done|].
    destruct q; cbn [ptr]; by rewrite ?A1, ?A2.
  - rewrite C5, B1, A3; by destruct old.
  - unfold sizes; rewrite C1, C2; by apply sizes_set.
  - intros q; transitivity (valid s1 q); [destruct q; cbn [valid]; by rewrite ?C1|]; unfold s1; rewrite valid_set; destruct q; cbn [valid]; by rewrite ?A1.
  - intros st; transitivity (addr s1 st); [unfold addr; by rewrite C1|]; unfold s1; rewrite addr_set; unfold addr; by rewrite A1.
  - split_and!; congruence.
Qed.

(** The default keys that follow a slot of the interface. *)
Lemma default_uni s idx v u m : keys (sdata s) !! Z.to_nat idx = Some v -> 0 <= idx ->
  __ieee80211_set_default_key s idx u m =
  set_sdata s (set_defaults (sdata s) (if u then (if bool_decide (0 <= Z.to_nat idx < 4)%nat then v else None) else default_unicast_key (sdata s))
    (if m then (if bool_decide (0 <= Z.to_nat idx < 4)%nat then v else None) else default_multicast_key (sdata s)) (default_mgmt_key (sdata s))).
Proof.
  intros E Hi; unfold __ieee80211_set_default_key, key_at, NUM_DEFAULT_KEYS; rewrite E; cbn [mjoin option_join].
  replace ((Z.of_nat 0 <=? idx) && (idx <? Z.of_nat 4)) with (bool_decide (0 <= Z.to_nat idx < 4)%nat); [by case_bool_decide|].
  case_bool_decide; symmetry; [apply andb_true_iff; split|apply andb_false_iff; right]; [apply Z.leb_le|apply Z.ltb_lt|apply Z.ltb_ge]; lia.
Qed.

Lemma default_mgmt s idx v : keys (sdata s) !! Z.to_nat idx = Some v -> 0 <= idx ->
  __ieee80211_set_default_mgmt_key s idx =
  set_sdata s (set_defaults (sdata s) (default_unicast_key (sdata s)) (default_multicast_key (sdata s)) (if bool_decide (4 <= Z.to_nat idx < 6)%nat then v else None)).
Proof.
  intros E Hi; unfold __ieee80211_set_default_mgmt_key, key_at, NUM_DEFAULT_KEYS, NUM_DEFAULT_MGMT_KEYS; rewrite E; cbn [mjoin option_join].
  replace ((Z.of_nat 4 <=? idx) && (idx <? Z.of_nat (4 + 2))) with (bool_decide (4 <= Z.to_nat idx < 6)%nat); [by case_bool_decide|].
  symmetry; case_bool_decide; [apply andb_true_iff; split; [apply Z.leb_le|apply Z.ltb_lt]; lia|].
  destruct (Z.leb_spec (Z.of_nat 4) idx); [apply Z.ltb_ge; lia|done].
Qed.

(** The slot of the interface and its default keys, after it was replaced. *)
Definition slot_replaced s (i : nat) (old v : option nat) : state D :=
  let d := sdata s in
  set_sdata s (Sdata (<[i := v]> (keys d)) (new_default (SKey i) 0 4 old v (default_unicast_key d)) (new_default (SKey i) 0 4 old v (default_multicast_key d))
    (new_default (SKey i) 4 6 old v (default_mgmt_key d)) (key_list d) (crypto_tx_tailroom_needed_cnt d)).

Lemma slot_replace s idx old v (Hi : 0 <= idx < 6) : length (keys (sdata s)) = 6%nat -> (forall i, v = Some i -> exists k, store s !! i = Some k /\ keyidx (conf k) = idx) ->
  replace_slot s idx old v = Some (slot_replaced s (Z.to_nat idx) old v).
Proof.
  intros Hl Hv; unfold replace_slot, slot_replaced, new_default.
  assert (Hn : bool_decide (v = None) = match v with None => true | Some _ => false end) by (case_bool_decide; by destruct v); rewrite Hn; clear Hn; rewrite <- !bool_decide_and.
  set (u := bool_decide (old <> None /\ old = default_unicast_key _)); set (m := bool_decide (old <> None /\ old = default_multicast_key _)).
  set (g := bool_decide (old <> None /\ old = default_mgmt_key _)); clearbody u m g; cbn zeta; destruct v as [i|].
  - destruct (Hv i eq_refl) as (k & Hk & <-); rewrite !andb_false_r; cbn [set_sdata store]; rewrite Hk; cbn [mbind option_bind]; f_equal.
    assert (E : (<[Z.to_nat (keyidx (conf k)) := Some i]> (keys (sdata s))) !! Z.to_nat (keyidx (conf k)) = Some (Some i)) by (apply list_lookup_insert_eq; lia).
    destruct u, m, g; rewrite ?(default_uni _ _ (Some i)), ?(default_mgmt _ _ (Some i)) by (first [exact E|lia]); reflexivity.
  - rewrite !andb_true_r; destruct u, m, g; repeat case_bool_decide; reflexivity.
Qed.

(** The index of the place of a key that is replaced. *)
Lemma replace_effect s (sta : option nat) (pw : bool) idx p old v :
  p = match sta with Some st => if pw then SPtk st else SGtk st (Z.to_nat idx) | None => SKey (Z.to_nat idx) end ->
  0 <= idx -> sizes s -> valid s p -> (old <> None \/ v <> None) ->
  (forall i, old = Some i -> exists k, store s !! i = Some k /\ ((pw = true /\ sta <> None) \/ keyidx (conf k) = idx)) ->
  (forall i, v = Some i -> exists k, store s !! i = Some k /\ keyidx (conf k) = idx) ->
  exists s', __ieee80211_key_replace s sta pw old v = Some s' /\ replaced s p old v s'.
Proof.
  intros Ep Hi Hs Hv Hne Hold Hnew.
  set (s0 := match v with Some i => set_sdata s (set_list (sdata s) (key_list (sdata s) ++ [i])) | None => s end).
  assert (A1 : stas s0 = stas s) by (unfold s0; by destruct v); assert (A2 : store s0 = store s) by (unfold s0; by destruct v).
  assert (Hidx : pw = false \/ sta = None -> replace_idx s0 old v = Some idx).
  { intros Hp; unfold replace_idx; rewrite A2; destruct old as [o|].
    - destruct (Hold o eq_refl) as (k & -> & [[-> ?]|Ek]); [destruct Hp; done|]; cbn [mbind option_bind]; by rewrite Ek.
    - destruct v as [n|]; [|by destruct Hne]; destruct (Hnew n eq_refl) as (k & -> & Ek); cbn [mbind option_bind]; by rewrite Ek. }
  unfold __ieee80211_key_replace; fold s0; destruct sta as [st|].
  - assert (Hnk : forall i, p <> SKey i) by (intros i; subst p; by destruct pw); assert (Ht : exists t, stas s !! st = Some t) by (subst p; destruct pw; [exact Hv|exact (proj1 Hv)]).
    destruct Ht as [t Ht]; rewrite A1, Ht; cbn [mbind option_bind]; eexists; split; [|by apply (replaced_sta s p v old Hnk Hs Hv)].
    fold s0; subst p; destruct pw; cbn [set_ptr]; rewrite A1, Ht; [reflexivity|]; rewrite Hidx by (by left); reflexivity.
  - rewrite Hidx by (by right); cbn [mbind option_bind]; subst p; cbn [valid] in Hv; assert (Hi' : 0 <= idx < 6) by lia.
    assert (B : keys (sdata s0) = keys (sdata s) /\ key_list (sdata s0) = key_list (sdata s) ++ option_list v /\ drv s0 = drv s /\
      crypto_tx_tailroom_needed_cnt (sdata s0) = crypto_tx_tailroom_needed_cnt (sdata s) /\ default_unicast_key (sdata s0) = default_unicast_key (sdata s) /\
      default_multicast_key (sdata s0) = default_multicast_key (sdata s) /\ default_mgmt_key (sdata s0) = default_mgmt_key (sdata s))
      by (unfold s0; destruct v; cbn; rewrite ?app_nil_r; by split_and!).
    destruct B as (B1 & B2 & B3 & B4 & B5 & B6 & B7); destruct Hs as [Hl Hg].
    rewrite slot_replace by (rewrite ?B1, ?A2; done); cbn [mbind option_bind]; set (r := slot_replaced s0 (Z.to_nat idx) old v).
    eexists; split; [reflexivity|]; set (s' := match old with Some i => _ | None => r end).
    assert (C : stas s' = stas s /\ keys (sdata s') = <[Z.to_nat idx := v]> (keys (sdata s)) /\ store s' = store s /\ drv s' = drv s) by (unfold s', r; destruct old; cbn; by rewrite A1, A2, B1, B3).
    destruct C as (C1 & C2 & C3 & C4); constructor.
    2-5: unfold s', r; destruct old; cbn; rewrite ?B2, ?B5, ?B6, ?B7; done.
    + intros q; transitivity (ptr (set_ptr s (SKey (Z.to_nat idx)) v) q); [destruct q; cbn [ptr set_ptr set_sdata sdata set_keys keys stas]; by rewrite ?C1, ?C2|by apply ptr_set].
    + unfold sizes; rewrite C1, C2, length_insert; done.
    + intros q; destruct q; cbn [valid]; by rewrite ?C1.
    + intros st; unfold addr; by rewrite C1.
    + split_and!; [done|done|]; unfold s', r; destruct old; cbn; done.
Qed.

(** ** Lemmas: the keys that are linked *)

Definition del_opt (o : option nat) (m : gmap nat ieee80211_key) : gmap nat ieee80211_key := match o with Some i => delete i m | None => m end.
Definition put_opt (v : option (nat * ieee80211_key)) (m : gmap nat ieee80211_key) : gmap nat ieee80211_key := match v with Some (i, k) => <[i := k]> m | None => m end.

Lemma lookup_put_del v old m i k : (forall j k, v = Some (j, k) -> m !! j = None) ->
  put_opt v (del_opt old m) !! i = Some k <-> v = Some (i, k) \/ (m !! i = Some k /\ old <> Some i).
Proof.
  intros Hf; assert (Hd : del_opt old m !! i = Some k <-> m !! i = Some k /\ old <> Some i).
  { destruct old as [o|]; cbn [del_opt]; [rewrite lookup_delete_Some; naive_solver|naive_solver]. }
  destruct v as [[j k']|]; cbn [put_opt]; [|rewrite Hd; naive_solver]; rewrite lookup_insert_Some, Hd; specialize (Hf j k' eq_refl).
  split; [intros [[-> ->]|[? ?]]; [by left|by right]|]; intros [[= -> ->]|[Hm ?]]; [by left|right]; split; [congruence|done].
Qed.

(** A key that may be put at [p]. *)
Record fits (p : place) (k : ieee80211_key) : Prop := Fits {
  f_linked : linked k = true; f_room : roomy k; f_idx : 0 <= keyidx (conf k); f_place : place_of k = p; f_pw : pairwise (conf k) = true -> key_sta k <> None }.

Lemma replaced_default m s p old v s' lo hi d :
  linked_keys m s -> ptr s p = old -> (forall q, ptr s' q = if decide (p = q) then v else ptr s q) ->
  (forall id, d = Some id -> exists i, (lo <= i < hi)%nat /\ ptr s (SKey i) = Some id) ->
  forall id, new_default p lo hi old v d = Some id -> exists i, (lo <= i < hi)%nat /\ ptr s' (SKey i) = Some id.
Proof.
  intros Hl Hp Hq Hd id; unfold new_default; destruct p as [i|st|st i].
  - case_bool_decide as Ho; [case_bool_decide as Hr; [|done]; intros ->; exists i; by rewrite Hq, decide_True|].
    intros ->; destruct (Hd id eq_refl) as (j & Hj & Ej); exists j; split; [done|]; rewrite Hq; case_decide as E; [|done].
    injection E as ->; destruct Ho; rewrite <- Hp, Ej; done.
  - intros E; destruct (Hd id E) as (j & Hj & Ej); exists j; by rewrite Hq, decide_False.
  - intros E; destruct (Hd id E) as (j & Hj & Ej); exists j; by rewrite Hq, decide_False.
Qed.

Lemma linked_change m s p old vk s' : linked_keys m s -> ptr s p = old -> valid s p -> replaced s p old (fst <$> vk) s' ->
  (forall id k, vk = Some (id, k) -> m !! id = None /\ fits p k) -> linked_keys (put_opt vk (del_opt old m)) s'.
Proof.
  intros Hl Hp Hv Hr Hk; pose proof (fun i k => lookup_put_del vk old m i k (fun j k' E => proj1 (Hk j k' E))) as Hlk.
  assert (Hold : forall i k, m !! i = Some k -> old <> Some i -> place_of k <> p).
  { intros i k Hm Ho Ep; apply (l_keys _ _ Hl) in Hm as (_ & _ & _ & Hq & _); rewrite Ep in Hq; congruence. }
  constructor.
  - exact (r_sizes _ _ _ _ _ Hr).
  - rewrite (r_list _ _ _ _ _ Hr); cbn zeta; assert (Hn : NoDup (key_list (sdata s) ++ option_list (fst <$> vk))); [|destruct old; [by apply list.NoDup_filter|done]].
    destruct vk as [[id k]|]; cbn; [|rewrite app_nil_r; exact (l_nodup _ _ Hl)]; apply list.NoDup_app; split_and!; [exact (l_nodup _ _ Hl)| |by apply NoDup_singleton].
    intros j Hj ->%list_elem_of_singleton; apply (l_list _ _ Hl) in Hj as [k' Hj]; destruct (Hk id k eq_refl); congruence.
  - intros i; rewrite (r_list _ _ _ _ _ Hr); cbn zeta.
    assert (Hi : i ∈ key_list (sdata s) ++ option_list (fst <$> vk) <-> is_Some (m !! i) \/ exists k, vk = Some (i, k)).
    { rewrite elem_of_app, (l_list _ _ Hl); destruct vk as [[id k]|]; cbn; [rewrite list_elem_of_singleton|rewrite elem_of_nil]; naive_solver. }
    transitivity ((is_Some (m !! i) \/ exists k, vk = Some (i, k)) /\ old <> Some i); [destruct old; [rewrite list_elem_of_filter|]; rewrite Hi; naive_solver|].
    assert (Hno : forall k, vk = Some (i, k) -> old <> Some i).
    { intros k E Eo; destruct (Hk i k E) as [Em _]; rewrite Eo in Hp; apply (l_ptrs _ _ Hl) in Hp as (k' & ? & _); congruence. }
    split; [intros [[[k Hm]|[k E]] Ho]; exists k; apply Hlk; [by right|by left]|]; intros [k [E|[Hm Ho]]%Hlk]; [split; [right; by exists k|by eapply Hno]|split; [by left; exists k|done]].
  - intros i k [E|[Hm Ho]]%Hlk.
    + destruct (Hk i k E) as [_ [F1 F0 F2 F3 F4]]; split_and!; try done; [by apply (r_valid _ _ _ _ _ Hr); rewrite F3|rewrite (r_ptr _ _ _ _ _ Hr), decide_True by done; by rewrite E].
    + pose proof (Hold i k Hm Ho) as Hne; apply (l_keys _ _ Hl) in Hm as (A & B & C & E & F); split_and!; try done; [by apply (r_valid _ _ _ _ _ Hr)|].
      by rewrite (r_ptr _ _ _ _ _ Hr), decide_False by congruence.
  - intros i k [E|[Hm Ho]]%Hlk; [exact (f_room _ _ (proj2 (Hk i k E)))|exact (l_room _ _ Hl i k Hm)].
  - intros q i; rewrite (r_ptr _ _ _ _ _ Hr); case_decide as Eq.
    + destruct vk as [[id k]|]; cbn; [|done]; intros [= ->]; exists k; split; [apply Hlk; by left|]; destruct (Hk i k eq_refl) as [_ F]; by rewrite (f_place _ _ F).
    + intros E; destruct (l_ptrs _ _ Hl q i E) as (k & Hm & Ep); exists k; split; [|done]; apply Hlk; right; split; [done|]; intros Ho.
      rewrite Ho in Hp; apply (l_ptrs _ _ Hl) in Hp as (k' & Hm' & Ep'); congruence.
  - rewrite (r_uni _ _ _ _ _ Hr); intros id E; eapply replaced_default in E; [destruct E as (j & ? & ?); exists j; split; [lia|done]|exact Hl|exact Hp|exact (r_ptr _ _ _ _ _ Hr)|].
    intros j Ej; destruct (l_unicast _ _ Hl j Ej) as (x & ? & ?); exists x; split; [lia|done].
  - rewrite (r_multi _ _ _ _ _ Hr); intros id E; eapply replaced_default in E; [destruct E as (j & ? & ?); exists j; split; [lia|done]|exact Hl|exact Hp|exact (r_ptr _ _ _ _ _ Hr)|].
    intros j Ej; destruct (l_multicast _ _ Hl j Ej) as (x & ? & ?); exists x; split; [lia|done].
  - rewrite (r_mgmt _ _ _ _ _ Hr); intros id E; eapply replaced_default in E; [exact E|exact Hl|exact Hp|exact (r_ptr _ _ _ _ _ Hr)|exact (l_mgmt _ _ Hl)].
  - intros st st' a; rewrite !(r_addr _ _ _ _ _ Hr); exact (l_addr _ _ Hl st st' a).
Qed.

(** Keys whose flags or slot the driver changed. *)
Definition like (k k' : ieee80211_key) : Prop := key_sta k' = key_sta k /\ linked k' = linked k /\ same_key (conf k) (conf k') /\ iv_len k' = iv_len k /\ icv_len k' = icv_len k.

Definition mlike (m m' : gmap nat ieee80211_key) : Prop :=
  forall j, match m !! j, m' !! j with Some k, Some k' => like k k' | None, None => True | _, _ => False end.

Lemma like_roomy k k' : like k k' -> roomy k -> roomy k'.
Proof. intros (_ & _ & (A & _) & B & C); unfold roomy; by rewrite A, B, C. Qed.

Lemma like_refl k : like k k. Proof. by repeat split. Qed.
Lemma like_trans k1 k2 k3 : like k1 k2 -> like k2 k3 -> like k1 k3.
Proof. intros (A & B & (C1 & C2 & C3 & C4) & E1 & E2) (A' & B' & (C1' & C2' & C3' & C4') & E1' & E2'); repeat split; congruence. Qed.

Lemma mlike_refl m : mlike m m.
Proof. intros j; destruct (m !! j); [apply like_refl|done]. Qed.

Lemma mlike_trans m1 m2 m3 : mlike m1 m2 -> mlike m2 m3 -> mlike m1 m3.
Proof. intros H1 H2 j; specialize (H1 j); specialize (H2 j); do 3 (destruct (_ !! j)); try done; by eapply like_trans. Qed.

Lemma mlike_insert m i k k' : m !! i = Some k -> like k k' -> mlike m (<[i := k']> m).
Proof. intros Hm Hk j; destruct (decide (i = j)) as [->|Hne]; [by rewrite lookup_insert_eq, Hm|rewrite lookup_insert_ne by done; destruct (m !! j); [apply like_refl|done]]. Qed.

Lemma mlike_delete m m' i : mlike m m' -> mlike (delete i m) (delete i m').
Proof. intros Hm j; destruct (decide (i = j)) as [->|Hne]; [by rewrite !lookup_delete_eq|rewrite !lookup_delete_ne by done; apply Hm]. Qed.

Lemma like_place k k' : like k k' -> place_of k' = place_of k.
Proof. intros (A & _ & (_ & B & _ & C) & _); unfold place_of; by rewrite A, B, C. Qed.

(** States with the same pointers, stations and lists. *)
Definition same_ptrs s s' : Prop := stas s' = stas s /\ exists n, sdata s' = set_count (sdata s) n.

Lemma same_ptrs_refl s : same_ptrs s s. Proof. split; [done|]; exists (crypto_tx_tailroom_needed_cnt (sdata s)); by destruct (sdata s). Qed.
Lemma same_ptrs_trans s1 s2 s3 : same_ptrs s1 s2 -> same_ptrs s2 s3 -> same_ptrs s1 s3.
Proof. intros [A [n B]] [A' [n' B']]; split; [congruence|]; exists n'; by rewrite B', B. Qed.
Lemma same_ptrs_count s n : same_ptrs s (set_sdata s (set_count (sdata s) n)). Proof. split; [done|by exists n]. Qed.

Lemma same_ptrs_eq s s' : same_ptrs s s' -> (forall q, ptr s' q = ptr s q) /\ (forall q, valid s' q <-> valid s q) /\ (forall st, addr s' st = addr s st) /\ (sizes s -> sizes s').
Proof.
  intros [A [n B]]; split_and!.
  - intros q; destruct q; cbn [ptr]; by rewrite ?A, ?B.
  - intros q; destruct q; cbn [valid]; by rewrite ?A.
  - intros st; unfold addr; by rewrite A.
  - unfold sizes; by rewrite A, B.
Qed.

Lemma linked_like m m' s s' : linked_keys m s -> mlike m m' -> same_ptrs s s' -> linked_keys m' s'.
Proof.
  intros [L1 L2 L3 L4 L0 L5 L6 L7 L8 L9] Hm Hs; destruct (same_ptrs_eq _ _ Hs) as (P1 & P2 & P3 & P4); destruct Hs as [A [n B]].
  constructor; rewrite ?B; cbn [set_count key_list default_unicast_key default_multicast_key default_mgmt_key]; auto.
  - intros i; rewrite L3; specialize (Hm i); unfold is_Some; destruct (m !! i), (m' !! i); naive_solver.
  - intros i k Hi; specialize (Hm i); rewrite Hi in Hm; destruct (m !! i) as [k0|] eqn:E; [|done]; destruct (L4 i k0 E) as (Q1 & Q2 & Q3 & Q4 & Q5).
    rewrite (like_place _ _ Hm), P2, P1; destruct Hm as (R1 & R2 & (R3 & R4 & R5 & R6) & _); rewrite R1, R2, R4, R6; done.
  - intros i k Hi; specialize (Hm i); rewrite Hi in Hm; destruct (m !! i) as [k0|] eqn:E; [|done]; eapply like_roomy; [exact Hm|by eapply L0].
  - intros q i; rewrite P1; intros E; destruct (L5 q i E) as (k & Hi & Hq); specialize (Hm i); rewrite Hi in Hm; destruct (m' !! i) as [k'|]; [|done].
    exists k'; split; [done|]; by rewrite (like_place _ _ Hm).
  - intros i; setoid_rewrite P1; apply L6.
  - intros i; setoid_rewrite P1; apply L7.
  - intros i; setoid_rewrite P1; apply L8.
  - intros st st' a; rewrite !P3; apply L9.
Qed.

(** ** Lemmas: what the driver holds *)

(** The keys of a store with what [f] says of each. *)
Definition pick {A} (f : ieee80211_key -> option A) (m : gmap nat ieee80211_key) : list A := omap (fun x => f x.2) (map_to_list m).

Lemma elem_pick {A} (f : ieee80211_key -> option A) m x : x ∈ pick f m <-> exists i k, m !! i = Some k /\ f k = Some x.
Proof.
  unfold pick; rewrite list_elem_of_omap; split.
  - intros [[i k] [Hin E]]; apply elem_of_map_to_list in Hin; by exists i, k.
  - intros (i & k & Hm & E); exists (i, k); split; [by apply elem_of_map_to_list|done].
Qed.

Lemma pick_delete {A} (f : ieee80211_key -> option A) m i k : m !! i = Some k -> pick f m ≡ₚ option_list (f k) ++ pick f (delete i m).
Proof. intros Hm; unfold pick; rewrite <- (map_to_list_delete m i k Hm); cbn [omap list_omap snd]; by destruct (f k). Qed.

Lemma pick_insert {A} (f : ieee80211_key -> option A) m i k : pick f (<[i := k]> m) ≡ₚ option_list (f k) ++ pick f (delete i m).
Proof. rewrite (pick_delete f (<[i := k]> m) i k) by apply lookup_insert_eq; by rewrite delete_insert_eq. Qed.

Lemma pick_ext {A} (f g : ieee80211_key -> option A) m : (forall i k, m !! i = Some k -> f k = g k) -> pick f m = pick g m.
Proof.
  intros Hfg; unfold pick; assert (Hf : forall i k, (i, k) ∈ map_to_list m -> f k = g k) by (intros i k Hin; apply elem_of_map_to_list in Hin; by eapply Hfg).
  induction (map_to_list m) as [|[i k] l IH]; [done|]; cbn [omap list_omap snd]; rewrite (Hf i k) by left; by rewrite IH by (intros j k' Hin; apply (Hf j); by right).
Qed.

Lemma pick_none {A} (f : ieee80211_key -> option A) m i k : m !! i = Some k -> f k = None -> pick f m ≡ₚ pick f (delete i m).
Proof. intros Hm E; rewrite (pick_delete f m i k Hm), E; done. Qed.

(** What the driver holds for a key, and whether the key needs room in frames. *)
Definition held s (k : ieee80211_key) : option (key_conf * option (list Z)) := if uploaded k then Some (conf k, addr s (key_sta k)) else None.
Definition counted (k : ieee80211_key) : option unit := if linked k && negb (uploaded k && no_room (conf k)) then Some tt else None.

(** The kinds of key the driver is asked to take. *)
Definition may_ask (k : ieee80211_key) : bool :=
  has_set_key vif && (bool_decide (key_sta k = None) || pairwise (conf k) || per_sta_gtk vif) && negb (bool_decide (vif_type vif = AP_VLAN) && negb (pairwise (conf k))).

(** The driver holds the uploaded keys, and the count, with [n] to come, is that
    of the keys that need room. *)
Record hw (n : Z) s : Prop := Hw {
  h_drv : drv_holds (drv s) (pick (held s) (store s));
  h_count : crypto_tx_tailroom_needed_cnt (sdata s) + n = Z.of_nat (length (pick counted (store s)));
  h_up : forall i k, store s !! i = Some k -> uploaded k = true -> linked k = true /\ has_set_key vif = true;
  h_ok : forall i k, store s !! i = Some k -> linked k = true -> may_ask k = true -> drv_key_ok (addr s (key_sta k)) (conf k) }.

Lemma hw_tailroom n d s : hw n s -> hw (n - d) (tailroom s d).
Proof. intros [A B C E]; constructor; try done; cbn; lia. Qed.

(** A key is changed, and the driver with it. *)
Lemma hw_insert n n' s i k k' d c : hw n s -> store s !! i = Some k -> key_sta k' = key_sta k -> same_key (conf k) (conf k') ->
  drv_holds d (option_list (held s k') ++ pick (held s) (delete i (store s))) -> (uploaded k' = true -> linked k' = true /\ has_set_key vif = true) ->
  (linked k' = true -> linked k = true) ->
  crypto_tx_tailroom_needed_cnt (sdata s) + n + Z.of_nat (length (option_list (counted k'))) = c + n' + Z.of_nat (length (option_list (counted k))) ->
  hw n' (State (<[i := k']> (store s)) (stas s) (set_count (sdata s) c) d).
Proof.
  intros [A B C E] Hk Hsta Hsame Hd Hup Hl Hc; constructor; cbn [store stas sdata drv set_count crypto_tx_tailroom_needed_cnt].
  - eapply drv_holds_perm; [|exact Hd]; symmetry; apply pick_insert.
  - rewrite (pick_insert counted), length_app; rewrite (pick_delete counted _ i k Hk), length_app in B; lia.
  - intros j kj [[<- <-]|[Hne Hj]]%lookup_insert_Some; [exact Hup|by eapply C].
  - intros j kj [[<- <-]|[Hne Hj]]%lookup_insert_Some; [|intros; by apply (E j)]; intros Hlk Hask; change (drv_key_ok (addr s (key_sta k')) (conf k')); rewrite Hsta.
    eapply drv_key_ok_same; [exact Hsame|]; apply (E i k Hk (Hl Hlk)); unfold may_ask in *; destruct Hsame as (_ & _ & _ & Epw); by rewrite <- Hsta, <- Epw.
Qed.

Lemma sta_of_linked m s i k : linked_keys m s -> m !! i = Some k -> exists t, sta_of s (key_sta k) = Some t /\ addr s (key_sta k) = sta_addr <$> t /\ (t = None <-> key_sta k = None).
Proof.
  intros Hl Hk; apply (l_keys _ _ Hl) in Hk as (_ & _ & Hv & _); unfold place_of in Hv; destruct (key_sta k) as [st|]; [|by exists None].
  assert (Ht : is_Some (stas s !! st)) by (destruct (pairwise (conf k)); [exact Hv|exact (proj1 Hv)]); destruct Ht as [t Ht].
  exists (Some t); unfold sta_of, addr; cbn [mbind option_bind]; rewrite Ht; done.
Qed.

(** No two keys are for the same purpose. *)
Lemma purposes_differ m s i k j k' : linked_keys m s -> m !! i = Some k -> m !! j = Some k' ->
  purpose_of (conf k') (addr s (key_sta k')) = purpose_of (conf k) (addr s (key_sta k)) -> j = i.
Proof.
  intros Hl Hi Hj E; enough (Ep : place_of k' = place_of k).
  { apply (l_keys _ _ Hl) in Hi as (_ & _ & _ & Hi & _), Hj as (_ & _ & _ & Hj & _); congruence. }
  destruct (sta_of_linked _ _ _ _ Hl Hi) as (t & Ht & Ea & Et), (sta_of_linked _ _ _ _ Hl Hj) as (t' & Ht' & Ea' & Et').
  assert (Hs : addr s (key_sta k') = addr s (key_sta k) -> key_sta k' = key_sta k).
  { intros Eq; destruct (key_sta k') as [st'|] eqn:E1, (key_sta k) as [st|] eqn:E2; try done.
    - destruct t as [t|]; [|by destruct Et as [Et _]; specialize (Et eq_refl)]; f_equal; eapply (l_addr _ _ Hl); [rewrite Eq|]; exact Ea.
    - rewrite Ea' in Eq; destruct t'; [done|]; by apply Et'.
    - rewrite Ea in Eq; destruct t; [done|]; symmetry; by apply Et. }
  unfold purpose_of in E; unfold place_of; destruct (pairwise (conf k')) eqn:P1, (pairwise (conf k)) eqn:P2; try done.
  - injection E as E1; rewrite (Hs E1); apply (l_keys _ _ Hl) in Hi as (_ & _ & _ & _ & Hn); by destruct (key_sta k); [|destruct (Hn P2)].
  - injection E as E1 E2; rewrite (Hs E1); by destruct (key_sta k); rewrite E2.
Qed.

Lemma set_count_id d : set_count d (crypto_tx_tailroom_needed_cnt d) = d. Proof. by destruct d. Qed.

Lemma not_asked_may s k t : sta_of s (key_sta k) = Some t -> not_asked vif k t = false -> may_ask k = true.
Proof.
  intros Ht; unfold not_asked, may_ask; destruct (key_sta k) as [st|] eqn:Ek; cbn [sta_of] in Ht.
  - destruct (stas s !! st) as [t'|]; [|done]; injection Ht as <-; destruct (has_set_key vif), (pairwise (conf k)), (per_sta_gtk vif), (sta_uploaded t'), (bool_decide (vif_type vif = AP_VLAN)); done.
  - injection Ht as <-; destruct (has_set_key vif), (pairwise (conf k)), (per_sta_gtk vif), (bool_decide (vif_type vif = AP_VLAN)); done.
Qed.

Lemma enable_spec n s i k : hw n s -> linked_keys (store s) s -> store s !! i = Some k -> uploaded k = false ->
  exists s' r, ieee80211_key_enable_hw_accel vif s i = Some (s', r) /\ hw n s' /\ mlike (store s) (store s') /\ same_ptrs s s' /\ (forall j, j <> i -> store s' !! j = store s !! j).
Proof.
  intros Hh Hl Hk Hu; destruct (sta_of_linked _ _ _ _ Hl Hk) as (t & Ht & Ea & _); unfold ieee80211_key_enable_hw_accel; rewrite Hk; cbn [mbind option_bind].
  rewrite Ht; cbn [mbind option_bind]; destruct (not_asked vif k t) eqn:Hna; [eexists s, _; split_and!; [reflexivity|done|apply mlike_refl|apply same_ptrs_refl|done]|].
  pose proof (proj1 (l_keys _ _ Hl i k Hk)) as Hlk; destruct (drv_set_law (drv s) (pick (held s) (store s)) (addr s (key_sta k)) (conf k)) as (d & ret & c & E & Hsame & Hd).
  { exact (h_drv _ _ Hh). } { by apply (h_ok _ _ Hh i k Hk Hlk), (not_asked_may s k t). }
  { apply list.Forall_forall; intros x (j & kj & Hj & Ex)%elem_pick; unfold held in Ex; destruct (uploaded kj) eqn:Huj; [|done]; injection Ex as <-; cbn [fst snd].
    intros Ep; rewrite (purposes_differ _ _ _ _ _ _ Hl Hk Hj Ep) in Hj; congruence. }
  rewrite <- Ea, E; cbn [mbind option_bind]; assert (Hnone : held s k = None) by (unfold held; by rewrite Hu); pose proof (pick_none (held s) _ _ _ Hk Hnone) as Hp.
  assert (Hck : counted k = Some tt) by (unfold counted; by rewrite Hlk, Hu).
  assert (Hst : forall kx, like k kx -> mlike (store s) (<[i := kx]> (store s)) /\ forall j, j <> i -> <[i := kx]> (store s) !! j = store s !! j)
    by (intros kx Hx; split; [by eapply mlike_insert|intros; by apply lookup_insert_ne]).
  destruct (ret =? 0).
  - set (k' := set_uploaded (set_conf k c) true); exists (State (<[i := k']> (store s)) (stas s) (set_count (sdata s) (crypto_tx_tailroom_needed_cnt (sdata s) + if no_room c then -1 else 0)) d), 0.
    split; [destruct (no_room c); [done|]; rewrite Z.add_0_r, set_count_id; done|]; split; [|split_and!; [by apply Hst|split; [done|by eexists]|by apply Hst]].
    eapply (hw_insert n n s i k k'); try done; [| |rewrite Hck; unfold counted; cbn [k' set_uploaded set_conf linked uploaded conf]; rewrite Hlk; destruct (no_room c); cbn; lia].
    + eapply drv_holds_perm; [|exact Hd]; unfold held at 2; cbn [k' set_uploaded set_conf linked uploaded conf key_sta option_list app]; by rewrite Hp.
    + intros _; split; [done|]; unfold not_asked in Hna; by destruct (has_set_key vif).
  - exists (State (<[i := set_conf k c]> (store s)) (stas s) (set_count (sdata s) (crypto_tx_tailroom_needed_cnt (sdata s))) d), (unsupported_ret c).
    split; [by rewrite set_count_id|]; split; [|split_and!; [by apply Hst|split; [done|by eexists]|by apply Hst]].
    eapply (hw_insert n n s i k (set_conf k c)); try done; [| |rewrite Hck; unfold counted; cbn [set_conf linked uploaded conf]; rewrite Hlk, Hu; cbn; lia].
    + eapply drv_holds_perm; [|exact Hd]; unfold held at 2; cbn [set_conf uploaded]; by rewrite Hu, Hp.
    + cbn [set_conf uploaded]; by rewrite Hu.
Qed.

Lemma disable_spec n s i k : hw n s -> store s !! i = Some k -> is_Some (sta_of s (key_sta k)) ->
  exists s' k', ieee80211_key_disable_hw_accel vif s i = Some s' /\ hw n s' /\ store s' = <[i := k']> (store s) /\ like k k' /\ uploaded k' = false /\ same_ptrs s s'.
Proof.
  intros Hh Hk [t Ht]; unfold ieee80211_key_disable_hw_accel; rewrite Hk; cbn [mbind option_bind].
  destruct (uploaded k) eqn:Hu; [destruct (h_up _ _ Hh i k Hk Hu) as [Hlk ->]|]; cbn [negb orb]; rewrite ?orb_true_r; cbn [mbind option_bind].
  2: { exists s, k; split_and!; try done; [by rewrite insert_id|apply same_ptrs_refl]. }
  rewrite Ht; cbn [mbind option_bind]; assert (Hheld : held s k = Some (conf k, addr s (key_sta k))) by (unfold held; by rewrite Hu).
  destruct (drv_disable_law (drv s) (pick (held s) (delete i (store s))) (addr s (key_sta k)) (conf k)) as (d & ret & E & Hd).
  { eapply drv_holds_perm; [|exact (h_drv _ _ Hh)]; by rewrite (pick_delete (held s) _ _ _ Hk), Hheld. }
  assert (Edrv : drv (if no_room (conf k) then increment_tailroom_need_count s else s) = drv s) by (by destruct (no_room _)); rewrite Edrv, E; cbn [mbind option_bind].
  exists (State (<[i := set_uploaded k false]> (store s)) (stas s) (set_count (sdata s) (crypto_tx_tailroom_needed_cnt (sdata s) + if no_room (conf k) then 1 else 0)) d), (set_uploaded k false).
  split; [destruct (no_room _); [done|]; rewrite Z.add_0_r, set_count_id; done|]; split; [|split_and!; try done; split; [done|by eexists]].
  eapply (hw_insert n n s i k); try done; unfold counted; cbn [set_uploaded linked uploaded conf]; rewrite Hlk, Hu; destruct (no_room _); cbn; lia.
Qed.

Lemma hw_delete n n' s i k : hw n s -> store s !! i = Some k -> uploaded k = false -> n' = n - Z.of_nat (length (option_list (counted k))) -> hw n' (set_store s (delete i (store s))).
Proof.
  intros [A B C E] Hk Hu ->; constructor; cbn [set_store store sdata stas drv].
  - eapply drv_holds_perm; [|exact A]; change (held (set_store s (delete i (store s)))) with (held s); apply (pick_none (held s) _ i k Hk); unfold held; by rewrite Hu.
  - rewrite (pick_delete counted _ i k Hk), length_app in B; lia.
  - intros j kj [_ Hj]%lookup_delete_Some; by eapply C.
  - intros j kj [_ Hj]%lookup_delete_Some; by apply (E j).
Qed.

Lemma destroy_spec s i k : hw 0 s -> store s !! i = Some k -> is_Some (sta_of s (key_sta k)) ->
  exists s', __ieee80211_key_destroy vif s (Some i) = Some s' /\ hw 0 s' /\ store s' = delete i (store s) /\ same_ptrs s s'.
Proof.
  intros Hh Hk Ht; unfold __ieee80211_key_destroy; rewrite Hk; cbn [mbind option_bind]; destruct (linked k) eqn:Hlk.
  - destruct (disable_spec 0 s i k Hh Hk Ht) as (s1 & k' & -> & Hh1 & E1 & Hlike & Hu & Hp); cbn [mbind option_bind]; eexists; split; [reflexivity|].
    assert (E2 : store (tailroom s1 (-1)) !! i = Some k') by (cbn; by rewrite E1, lookup_insert_eq).
    split; [eapply (hw_delete 1 0 (tailroom s1 (-1)) i k'); [by apply (hw_tailroom 0 (-1))|done|done|]|].
    + unfold counted; by rewrite (proj1 (proj2 Hlike)), Hlk, Hu.
    + split; [cbn; by rewrite E1, delete_insert_eq|]; eapply same_ptrs_trans; [exact Hp|]; split; [done|by eexists].
  - cbn [mbind option_bind]; eexists; split; [reflexivity|]; assert (Hu : uploaded k = false) by (destruct (uploaded k) eqn:Hu; [|done]; destruct (h_up _ _ Hh i k Hk Hu); congruence).
    split; [eapply (hw_delete 0 0); try done; unfold counted; by rewrite Hlk|]; split; [done|]; split; [done|]; exists (crypto_tx_tailroom_needed_cnt (sdata s)); by rewrite set_count_id.
Qed.

Lemma hw_replaced n s p old v s' : replaced s p old v s' -> hw n s -> hw n s'.
Proof.
  intros Hr [A B C E]; destruct (r_same _ _ _ _ _ Hr) as (E1 & E2 & E3); constructor; rewrite ?E1, ?E2, ?E3; try done.
  - rewrite (pick_ext (held s') (held s)); [done|]; intros i k _; unfold held; by rewrite (r_addr _ _ _ _ _ Hr).
  - intros i k; rewrite (r_addr _ _ _ _ _ Hr); apply E.
Qed.

(** ** Lemmas: the operations *)

(** The keys, their pointers and what the driver holds agree. *)
Definition ok s : Prop := linked_keys (store s) s /\ hw 0 s.

Lemma sta_of_valid s k : valid s (place_of k) -> is_Some (sta_of s (key_sta k)).
Proof.
  unfold place_of, sta_of; destruct (key_sta k) as [st|]; [|by eexists]; intros Hv; assert (Ht : is_Some (stas s !! st)) by (destruct (pairwise (conf k)); [exact Hv|exact (proj1 Hv)]).
  destruct Ht as [t ->]; by eexists.
Qed.

Record freed s s' (i : nat) (k : ieee80211_key) : Prop := Freed {
  fr_ok : ok s'; fr_store : store s' = delete i (store s);
  fr_ptr : forall q, ptr s' q = if decide (place_of k = q) then None else ptr s q;
  fr_valid : forall q, valid s' q <-> valid s q; fr_addr : forall st, addr s' st = addr s st }.

Lemma free_spec s i k : ok s -> store s !! i = Some k -> exists s', __ieee80211_key_free vif s (Some i) = Some s' /\ freed s s' i k.
Proof.
  intros [Hl Hh] Hk; destruct (l_keys _ _ Hl i k Hk) as (Hlk & Hi & Hv & Hp & Hpw); unfold __ieee80211_key_free; rewrite Hk; cbn [mbind option_bind]; rewrite Hlk.
  destruct (replace_effect s (key_sta k) (pairwise (conf k)) (keyidx (conf k)) (place_of k) (Some i) None eq_refl Hi (l_sizes _ _ Hl) Hv) as (s1 & -> & Hr); try done; [by left| |].
  { intros j [= <-]; exists k; split; [done|by right]. }
  cbn [mbind option_bind]; destruct (r_same _ _ _ _ _ Hr) as (E1 & _); assert (Hl1 : linked_keys (delete i (store s)) s1) by (by apply (linked_change (store s) s (place_of k) (Some i) None)).
  destruct (destroy_spec s1 i k (hw_replaced _ _ _ _ _ _ Hr Hh)) as (s' & -> & Hh' & Es & Hsp); [by rewrite E1|by apply sta_of_valid, (r_valid _ _ _ _ _ Hr)|].
  exists s'; split; [done|]; destruct (same_ptrs_eq _ _ Hsp) as (P1 & P2 & P3 & _); rewrite E1 in Es; constructor; [|done| | |].
  - split; [|done]; rewrite Es; eapply linked_like; [exact Hl1|apply mlike_refl|done].
  - intros q; rewrite P1; apply (r_ptr _ _ _ _ _ Hr).
  - intros q; rewrite P2; apply (r_valid _ _ _ _ _ Hr).
  - intros st; rewrite P3; apply (r_addr _ _ _ _ _ Hr).
Qed.

Lemma free_unlinked s i k : linked_keys (delete i (store s)) s -> hw 0 s -> store s !! i = Some k -> linked k = false -> key_sta k = None ->
  exists s', __ieee80211_key_free vif s (Some i) = Some s' /\ ok s'.
Proof.
  intros Hl Hh Hk Hlk Hs; unfold __ieee80211_key_free; rewrite Hk; cbn [mbind option_bind]; rewrite Hlk; cbn [mbind option_bind].
  destruct (destroy_spec s i k Hh Hk) as (s' & -> & Hh' & Es & Hsp); [by rewrite Hs; eexists|]; exists s'; split; [done|]; split; [|done].
  rewrite Es; eapply linked_like; [exact Hl|apply mlike_refl|done].
Qed.

(** A key is linked. *)
Lemma hw_link s i k k' : hw 0 s -> store s !! i = Some k -> linked k = false -> linked k' = true -> uploaded k' = false ->
  (may_ask k' = true -> drv_key_ok (addr s (key_sta k')) (conf k')) -> hw 1 (set_store s (<[i := k']> (store s))).
Proof.
  intros [A B C E] Hk Hlk Hlk' Hu' Hok; assert (Hu : uploaded k = false) by (destruct (uploaded k) eqn:Hu; [|done]; destruct (C i k Hk Hu); congruence).
  constructor; cbn [set_store store sdata stas drv].
  - eapply drv_holds_perm; [|exact A]; change (held (set_store s (<[i := k']> (store s)))) with (held s); rewrite (pick_insert (held s)); unfold held at 2; rewrite Hu'.
    apply (pick_none (held s) _ i k Hk); unfold held; by rewrite Hu.
  - rewrite (pick_insert counted), length_app; rewrite (pick_delete counted _ i k Hk), length_app in B; revert B; unfold counted at 1 3; rewrite Hlk, Hlk', Hu'; cbn; lia.
  - intros j kj [[<- <-]|[Hne Hj]]%lookup_insert_Some; [congruence|by eapply C].
  - intros j kj [[<- <-]|[Hne Hj]]%lookup_insert_Some; [intros _; exact Hok|by apply (E j)].
Qed.

Lemma old_key_ptr s k : valid s (place_of k) -> (pairwise (conf k) = true -> key_sta k <> None) -> old_key s (key_sta k) (conf k) = Some (ptr s (place_of k)).
Proof.
  intros Hv Hpw; unfold old_key; unfold place_of in *; destruct (key_sta k) as [st|]; [|done].
  destruct (pairwise (conf k)); cbn [valid] in Hv; [destruct Hv as [t Ht]|destruct Hv as [[t Ht] _]]; cbn [ptr]; rewrite Ht; done.
Qed.

Lemma qos_peer_ok s k : valid s (place_of k) -> exists q, qos_peer vif s (key_sta k) = Some q.
Proof.
  intros Hv; apply sta_of_valid in Hv as [t Ht]; unfold qos_peer, sta_of in *; destruct (key_sta k) as [st|].
  - destruct (stas s !! st); [|done]; by eexists.
  - case_bool_decide; [destruct (ap vif)|]; by eexists.
Qed.

Lemma put_del_eq o i k (m : gmap nat ieee80211_key) : o <> Some i -> <[i := k]> (del_opt o (delete i m)) = del_opt o (<[i := k]> m).
Proof.
  intros Ho; destruct o as [o|]; cbn [del_opt]; [|by rewrite insert_delete_eq].
  rewrite delete_insert_ne by congruence; by rewrite delete_delete, insert_delete_eq.
Qed.

(** What [ieee80211_key_link] makes of the key before it is put in its place. *)
Lemma linking s i k sta : linked_keys (delete i (store s)) s -> hw 0 s -> store s !! i = Some k -> linked k = false ->
  let k1 := set_linked k sta in roomy k -> 0 <= keyidx (conf k) -> valid s (place_of k1) -> (pairwise (conf k) = true -> sta <> None) ->
  (may_ask k1 = true -> drv_key_ok (addr s sta) (conf k)) ->
  forall k2, k2 = k1 \/ k2 = set_wmm k1 -> let s2 := increment_tailroom_need_count (set_store s (<[i := k2]> (store s))) in
  hw 0 s2 /\ fits (place_of k1) k2 /\ linked_keys (delete i (store s)) s2 /\ uploaded k2 = false.
Proof.
  intros Hl Hh Hk Hlk k1 Hro Hi Hv Hpw Hok k2 E s2; assert (Hu : uploaded k = false) by (destruct (uploaded k) eqn:Hu; [|done]; destruct (h_up _ _ Hh i k Hk Hu); congruence).
  assert (Hlike : like k1 k2) by (destruct E as [-> | ->]; [apply like_refl|by repeat split]); assert (Hu2 : uploaded k2 = false) by (by destruct E as [-> | ->]).
  pose proof Hlike as (L1 & L2 & Hsame & _); pose proof Hsame as (M1 & M2 & M3 & M4).
  assert (H1 : hw 1 (set_store s (<[i := k2]> (store s)))).
  { apply (hw_link s i k k2); try done; rewrite L1; intros Hask; eapply drv_key_ok_same; [exact Hsame|]; apply Hok; revert Hask; unfold may_ask; by rewrite L1, M4. }
  split_and!; try done; [exact (hw_tailroom 1 1 _ H1)| |by eapply linked_like; [exact Hl|apply mlike_refl|]; split; [done|by eexists]].
  constructor; [by rewrite L2|by apply (like_roomy k1)|by rewrite M2|by apply like_place|by rewrite M4, L1].
Qed.

Lemma link_spec s i k sta : linked_keys (delete i (store s)) s -> hw 0 s -> store s !! i = Some k -> linked k = false ->
  roomy k -> 0 <= keyidx (conf k) -> valid s (place_of (set_linked k sta)) -> (pairwise (conf k) = true -> sta <> None) ->
  (may_ask (set_linked k sta) = true -> drv_key_ok (addr s sta) (conf k)) ->
  exists s' r, ieee80211_key_link vif s i sta = Some (s', r) /\ ok s' /\ is_Some (store s' !! i).
Proof.
  intros Hl Hh Hk Hlk Hro Hi Hv Hpw Hok; unfold ieee80211_key_link; rewrite Hk; cbn [mbind option_bind].
  destruct (qos_peer_ok s (set_linked k sta) Hv) as [q Hq]; cbn [key_sta set_linked] in Hq; rewrite Hq; cbn [mbind option_bind].
  set (k2 := if q then set_wmm (set_linked k sta) else set_linked k sta); destruct (linking s i k sta Hl Hh Hk Hlk Hro Hi Hv Hpw Hok k2) as (H2 & Hf & Hl2 & Hu2); [unfold k2; destruct q; auto|].
  set (s1 := set_store s (<[i := k2]> (store s))) in *; set (s2 := increment_tailroom_need_count s1) in *; pose proof Hf as [F1 F0 F2 F3 F4].
  assert (Esta : key_sta k2 = sta) by (unfold k2; by destruct q); assert (Hv2 : valid s1 (place_of k2)) by (by rewrite F3).
  pose proof (old_key_ptr s1 k2 Hv2 F4) as Eold; rewrite Esta in Eold; rewrite Eold; cbn [mbind option_bind].
  set (old := ptr s1 (place_of k2)); assert (Ho2 : ptr s2 (place_of k2) = old) by done.
  assert (Hold : forall o, old = Some o -> o <> i /\ exists ko, store s2 !! o = Some ko /\ place_of ko = place_of k2 /\ 0 <= keyidx (conf ko)).
  { intros o Eo; rewrite <- Ho2 in Eo; destruct (l_ptrs _ _ Hl2 _ _ Eo) as (ko & [Hne Hko]%lookup_delete_Some & Ep); split; [done|]; exists ko.
    split; [by cbn; rewrite lookup_insert_ne|]; split; [done|]; apply (l_keys _ _ Hl2 o ko); by rewrite lookup_delete_ne. }
  destruct (replace_effect s2 sta (pairwise (conf k2)) (keyidx (conf k2)) (place_of k2) old (Some i)) as (s3 & -> & Hr); try done.
  { unfold place_of; by rewrite Esta. } { exact (l_sizes _ _ Hl2). } { by right. }
  { intros o Eo; destruct (Hold o Eo) as (_ & ko & Hko & Ep & Hpos); exists ko; split; [done|]; revert Ep F4; unfold place_of; rewrite Esta.
    destruct sta as [st|], (pairwise (conf k2)), (key_sta ko) as [st'|]; try destruct (pairwise (conf ko)); intros Ep F4; try done; try (by left); right; injection Ep as Ep; lia. }
  { intros o [= <-]; exists k2; split; [by cbn; rewrite lookup_insert_eq|done]. }
  cbn [mbind option_bind]; destruct (r_same _ _ _ _ _ Hr) as (E1 & _); assert (Hno : old <> Some i) by (intros Eo; by destruct (Hold i Eo)).
  assert (Hl3 : linked_keys (del_opt old (store s3)) s3).
  { rewrite E1; change (store s2) with (<[i := k2]> (store s)); rewrite <- put_del_eq by done; change (<[i := k2]> ?m) with (put_opt (Some (i, k2)) m).
    apply (linked_change _ s2 (place_of k2)); try done; intros j kj [= <- <-]; split; [apply lookup_delete_eq|by rewrite F3]. }
  assert (H4 : exists s4, __ieee80211_key_destroy vif s3 old = Some s4 /\ hw 0 s4 /\ store s4 = del_opt old (store s3) /\ same_ptrs s3 s4).
  { pose proof (hw_replaced _ _ _ _ _ _ Hr H2) as H3; destruct old as [o|] eqn:Eo; [|by exists s3; split_and!; [..|apply same_ptrs_refl]].
    destruct (Hold o eq_refl) as (_ & ko & Hko & Ep & _); apply (destroy_spec s3 o ko H3); [by rewrite E1|]; apply sta_of_valid, (r_valid _ _ _ _ _ Hr); by rewrite Ep. }
  destruct H4 as (s4 & -> & H4 & E4 & Hs4); cbn [mbind option_bind]; assert (Hl4 : linked_keys (store s4) s4) by (rewrite E4; eapply linked_like; [exact Hl3|apply mlike_refl|done]).
  assert (Hk4 : store s4 !! i = Some k2).
  { rewrite E4, E1; destruct old as [o|] eqn:Eo; cbn [del_opt]; [rewrite lookup_delete_ne by congruence|]; apply lookup_insert_eq. }
  destruct (enable_spec 0 s4 i k2 H4 Hl4 Hk4 Hu2) as (s5 & r & -> & H5 & Hm & Hs5 & _); exists s5, r; split; [done|]; split.
  - split; [|done]; eapply linked_like; [exact Hl4|exact Hm|done].
  - specialize (Hm i); rewrite Hk4 in Hm; destruct (store s5 !! i); [by eexists|done].
Qed.

(** The key of a place is freed, if there is one. *)
Lemma free_ptr s p : ok s -> valid s p -> exists s', __ieee80211_key_free vif s (ptr s p) = Some s' /\ ok s' /\
  (forall q, ptr s' q = if decide (p = q) then None else ptr s q) /\ (forall q, valid s' q <-> valid s q) /\ (forall st, addr s' st = addr s st).
Proof.
  intros Hok Hv; destruct (ptr s p) as [i|] eqn:Ep.
  - destruct (l_ptrs _ _ (proj1 Hok) p i Ep) as (k & Hk & <-); destruct (free_spec s i k Hok Hk) as (s' & -> & [A B C E F]); by exists s'.
  - exists s; split_and!; try done; intros q; case_decide; [by subst|done].
Qed.

Lemma hw_alloc s i k : hw 0 s -> store s !! i = None -> linked k = false -> uploaded k = false -> hw 0 (set_store s (<[i := k]> (store s))).
Proof.
  intros [A B C E] Hi Hlk Hu; constructor; cbn [set_store store sdata stas drv].
  - eapply drv_holds_perm; [|exact A]; change (held (set_store s (<[i := k]> (store s)))) with (held s); rewrite (pick_insert (held s)), delete_id by done.
    unfold held at 2; by rewrite Hu.
  - rewrite (pick_insert counted), length_app, delete_id by done; rewrite B; unfold counted at 2; rewrite Hlk; cbn; lia.
  - intros j kj [[<- <-]|[Hne Hj]]%lookup_insert_Some; [congruence|by eapply C].
  - intros j kj [[<- <-]|[Hne Hj]]%lookup_insert_Some; [congruence|intros; by apply (E j)].
Qed.

Lemma alloc_spec p idx : 0 <= idx < 6 -> exists r, ieee80211_key_alloc p idx = Some r /\
  forall k, r = inl k -> cipher (conf k) = p_cipher p /\ keyidx (conf k) = idx /\ key (conf k) = p_key p /\ linked k = false /\ uploaded k = false /\ key_sta k = None /\ roomy k.
Proof.
  intros Hi; unfold ieee80211_key_alloc, NUM_DEFAULT_KEYS, NUM_DEFAULT_MGMT_KEYS; replace ((idx <? 0) || (Z.of_nat (4 + 2) <=? idx)) with false by (symmetry; apply orb_false_iff; split; [apply Z.ltb_ge|apply Z.leb_gt]; lia).
  cbn zeta; repeat case_match; eexists; (split; [reflexivity|]); intros k [= <-]; split_and!; try done.
  all: split; cbn; try case_match; done.
Qed.

(** The driver takes a key like this one, if it may be asked to. *)
Definition key_fits s (key_idx : Z) (pw : bool) (mac : option nat) (p : key_params) : Prop :=
  forall k, cipher (conf k) = p_cipher p -> keyidx (conf k) = key_idx -> key (conf k) = p_key p -> pairwise (conf k) = pw -> key_sta k = mac -> may_ask k = true ->
    drv_key_ok (addr s mac) (conf k).

Lemma add_key_spec s i key_idx pw mac p : ok s -> store s !! i = None -> 0 <= key_idx < 6 -> (pw = true -> mac <> None) -> (mac <> None -> pw = false -> key_idx < 4) ->
  key_fits s key_idx pw mac p -> exists s' r, ieee80211_add_key vif s i key_idx pw mac p = Some (s', r) /\ ok s'.
Proof.
  intros [Hl Hh] Hi Hidx Hpw Hg Hfit; unfold ieee80211_add_key; destruct (negb (running vif)); [by eexists s, _|]; destruct (_ && _); [by eexists s, _|].
  destruct (alloc_spec p key_idx Hidx) as ([k|err] & -> & Ha); cbn [mbind option_bind]; [|by eexists s, _]; destruct (Ha k eq_refl) as (A1 & A2 & A3 & A4 & A5 & A6 & A7).
  set (put := fun m => set_conf k (set_conf_flags (conf k) pw m)); set (s1 := set_store s (<[i := put false]> (store s))); cbn zeta.
  change (set_store s (<[i := set_conf k (set_conf_flags (conf k) pw false)]> (store s))) with s1.
  assert (Hput : forall m, linked_keys (delete i (store (set_store s (<[i := put m]> (store s))))) (set_store s (<[i := put m]> (store s))) /\ hw 0 (set_store s (<[i := put m]> (store s)))).
  { intros m; split; [|by apply hw_alloc]; cbn [set_store store]; rewrite delete_insert_id by done; eapply linked_like; [exact Hl|apply mlike_refl|].
    split; [done|]; exists (crypto_tx_tailroom_needed_cnt (sdata s)); by rewrite set_count_id. }
  destruct (match mac with Some _ => _ | None => false end) eqn:Hm.
  { destruct (Hput false) as [P1 P2]; destruct (free_unlinked s1 i (put false) P1 P2) as (s' & -> & Hok); try done; [by cbn; rewrite lookup_insert_eq|]; cbn [mbind option_bind]; by eexists s', _. }
  assert (Es1 : store s1 !! i = Some (put false)) by (by cbn; rewrite lookup_insert_eq); rewrite Es1; cbn [mbind option_bind].
  assert (Hrx : exists m, rx_mgmt_flag vif s1 (put false) = Some m).
  { unfold rx_mgmt_flag; cbn [put set_conf key_sta]; rewrite A6; cbn; destruct (vif_type vif); by eexists. }
  destruct Hrx as [m ->]; cbn [mbind option_bind]; change (set_conf (put false) _) with (put m); set (s2 := set_store s (<[i := put m]> (store s))); destruct (Hput m) as [P1 P2].
  assert (Es2 : set_store s1 (<[i := put m]> (store s1)) = s2) by (unfold s2, s1, set_store; cbn; by rewrite insert_insert_eq); rewrite Es2.
  assert (Hlink : exists s' r, ieee80211_key_link vif s2 i mac = Some (s', r) /\ ok s' /\ is_Some (store s' !! i)).
  { apply (link_spec s2 i (put m) mac); try done; [by cbn; rewrite lookup_insert_eq|cbn; lia| |exact (Hfit (set_linked (put m) mac) A1 A2 A3 eq_refl eq_refl)].
    unfold place_of; cbn [set_linked key_sta conf put set_conf set_conf_flags pairwise keyidx]; rewrite A2; destruct mac as [st|]; cbn [valid]; [|lia].
    assert (Hst : is_Some (stas s !! st)) by (destruct (stas s !! st) eqn:Est; [by eexists|]; change (stas s1 !! st) with (stas s !! st) in Hm; by rewrite Est in Hm); destruct pw; cbn [valid]; [exact Hst|]; split; [exact Hst|]; specialize (Hg ltac:(done) eq_refl); lia. }
  destruct Hlink as (s3 & r & -> & Hok3 & [k3 Hk3]); cbn [mbind option_bind]; destruct (r =? 0); [by eexists s3, _|].
  destruct (free_spec s3 i k3 Hok3 Hk3) as (s4 & -> & [Hok4 _ _ _ _]); cbn [mbind option_bind]; by eexists s4, _.
Qed.

Lemma del_key_spec s key_idx pw mac : ok s -> 0 <= key_idx < 6 -> exists s' r, ieee80211_del_key vif s key_idx pw mac = Some (s', r) /\ ok s'.
Proof.
  intros Hok Hi; unfold ieee80211_del_key; set (key := match mac with Some _ => _ | None => _ end).
  assert (Hp : forall i, key = Some i -> exists p, ptr s p = Some i).
  { intros i; unfold key; destruct mac as [st|]; [|intros E; by exists (SKey (Z.to_nat key_idx))]; destruct (stas s !! st) as [t|] eqn:Et; [|done]; intros E.
    exists (if pw then SPtk st else SGtk st (Z.to_nat key_idx)); by destruct pw; cbn [ptr]; rewrite Et. }
  clearbody key; destruct key as [i|]; [|by eexists s, _]; destruct (Hp i eq_refl) as [p Ep]; destruct (l_ptrs _ _ (proj1 Hok) p i Ep) as (k & Hk & _).
  destruct (free_spec s i k Hok Hk) as (s' & -> & [Hok' _ _ _ _]); cbn [mbind option_bind]; by eexists s', _.
Qed.

Lemma key_at_ptr s idx lo hi i : key_at s idx lo hi = Some i -> exists j, (lo <= j < hi)%nat /\ ptr s (SKey j) = Some i.
Proof.
  unfold key_at; destruct (_ && _) eqn:E; [|done]; apply andb_true_iff in E as [E1%Z.leb_le E2%Z.ltb_lt]; intros Hi; exists (Z.to_nat idx); split; [lia|exact Hi].
Qed.

Lemma ok_defaults s u m g : ok s -> (forall i, u = Some i -> exists j, (j < 4)%nat /\ ptr s (SKey j) = Some i) -> (forall i, m = Some i -> exists j, (j < 4)%nat /\ ptr s (SKey j) = Some i) ->
  (forall i, g = Some i -> exists j, (4 <= j < 6)%nat /\ ptr s (SKey j) = Some i) -> ok (set_sdata s (set_defaults (sdata s) u m g)).
Proof. intros [[L1 L2 L3 L4 L0 L5 L6 L7 L8 L9] [A B C E]] Hu Hm Hg; split; constructor; done. Qed.

Lemma default_key_ok s idx uni multi : ok s -> ok (__ieee80211_set_default_key s idx uni multi).
Proof.
  intros Hok; pose proof (proj1 Hok) as Hl; assert (Hat : forall i, key_at s idx 0 NUM_DEFAULT_KEYS = Some i -> exists j, (j < 4)%nat /\ ptr s (SKey j) = Some i).
  { intros i (j & Hj & Ej)%key_at_ptr; exists j; unfold NUM_DEFAULT_KEYS in Hj; split; [lia|done]. }
  unfold __ieee80211_set_default_key; apply ok_defaults; [done|destruct uni|destruct multi|]; try exact Hat; [exact (l_unicast _ _ Hl)|exact (l_multicast _ _ Hl)|exact (l_mgmt _ _ Hl)].
Qed.

Lemma default_mgmt_key_ok s idx : ok s -> ok (__ieee80211_set_default_mgmt_key s idx).
Proof.
  intros Hok; pose proof (proj1 Hok) as Hl; apply ok_defaults; [done|exact (l_unicast _ _ Hl)|exact (l_multicast _ _ Hl)|].
  intros i (j & Hj & Ej)%key_at_ptr; by exists j.
Qed.

(** Stations come and go. *)
Lemma hw_stas s m : hw 0 s -> linked_keys (store s) s -> (forall st, valid s (SPtk st) -> stas s !! st = m !! st \/ forall i k, store s !! i = Some k -> key_sta k <> Some st) -> hw 0 (set_stas s m).
Proof.
  intros [A B C E] Hl Hm; assert (Ha : forall i k, store s !! i = Some k -> addr (set_stas s m) (key_sta k) = addr s (key_sta k)).
  { intros i k Hi; destruct (sta_of_linked _ _ _ _ Hl Hi) as (t & Ht & _); destruct (key_sta k) as [st|] eqn:Es; [|done]; unfold sta_of in Ht; destruct (stas s !! st) as [t'|] eqn:Et; [|done].
    unfold addr; cbn [mbind option_bind set_stas stas]; destruct (Hm st) as [<-|Hno]; [by eexists|by rewrite Et|by destruct (Hno i k Hi)]. }
  constructor; cbn [set_stas store sdata drv]; try done.
  - rewrite (pick_ext (held (set_stas s m)) (held s)); [done|]; intros i k Hi; unfold held; by rewrite (Ha i k Hi).
  - intros i k Hi Hlk Hask; rewrite (Ha i k Hi); by apply (E i k).
Qed.

Lemma add_sta_ok s st a up w as_ mf : ok s -> stas s !! st = None -> (forall st', addr s (Some st') <> Some a) -> ok (add_sta s st a up w as_ mf).
Proof.
  intros [Hl Hh] Hst Ha; set (s' := add_sta s st a up w as_ mf).
  assert (Hlk : forall st', stas s' !! st' = if decide (st = st') then Some (Sta a None (repeat None 6) up w as_ mf) else stas s !! st').
  { intros st'; cbn; destruct (decide (st = st')) as [->|Hne]; [by rewrite lookup_insert_eq|by rewrite lookup_insert_ne]. }
  assert (Hrep : forall i, mjoin ((repeat None 6 : list (option nat)) !! i) = None) by (intros i; do 6 (destruct i as [|i]; [done|]); done).
  assert (Hp : forall q, ptr s' q = ptr s q).
  { intros [i|st'|st' i]; cbn [ptr]; [done| |]; rewrite Hlk; case_decide as E; [subst; by rewrite Hst|done|subst; rewrite Hst; apply Hrep|done]. }
  assert (Hv : forall q, valid s q -> valid s' q) by (intros [i|st'|st' i]; cbn [valid]; rewrite ?Hlk; [done| |]; case_decide; intros Hv; try done; split; [by eexists|by destruct Hv]).
  split; [|apply hw_stas; try done; intros st' [t Ht]; left; rewrite lookup_insert_ne; [done|congruence]].
  destruct Hl as [L1 L2 L3 L4 L0 L5 L6 L7 L8 L9]; constructor; try done.
  - split; [exact (proj1 L1)|]; intros st' t; rewrite Hlk; case_decide; [intros [= <-]; split; [done|intros i _; apply Hrep]|apply L1].
  - intros i k Hi; destruct (L4 i k Hi) as (Q1 & Q2 & Q3 & Q4 & Q5); rewrite Hp; auto.
  - intros q i; rewrite Hp; apply L5.
  - intros st1 st2 x; unfold addr; cbn [mbind option_bind]; rewrite !Hlk; repeat case_decide; subst; try done; cbn [fmap option_fmap option_map sta_addr].
    + intros [= <-] E; destruct (Ha st2 E).
    + intros E [= <-]; destruct (Ha st1 E).
    + apply L9.
Qed.

Lemma del_sta_ok s st : ok s -> ptr s (SPtk st) = None -> (forall i, ptr s (SGtk st i) = None) -> ok (set_stas s (delete st (stas s))).
Proof.
  intros [Hl Hh] Hptk Hgtk; set (s' := set_stas s (delete st (stas s))).
  assert (Hno : forall i k, store s !! i = Some k -> key_sta k <> Some st).
  { intros i k Hi Es; apply (l_keys _ _ Hl) in Hi as (_ & _ & _ & Hp & _); unfold place_of in Hp; rewrite Es in Hp; destruct (pairwise _); [congruence|by rewrite Hgtk in Hp]. }
  assert (Hlk : forall st', stas s' !! st' = if decide (st = st') then None else stas s !! st').
  { intros st'; cbn; destruct (decide (st = st')) as [->|Hne]; [by rewrite lookup_delete_eq|by rewrite lookup_delete_ne]. }
  assert (Hp : forall q, ptr s' q = ptr s q).
  { intros [i|st'|st' i]; cbn [ptr]; [done| |]; rewrite Hlk; case_decide as E; try done; subst; symmetry; [exact Hptk|exact (Hgtk i)]. }
  split; [|apply hw_stas; try done; intros st' _; destruct (decide (st = st')) as [<-|Hne]; [right; exact Hno|left; by rewrite lookup_delete_ne]].
  pose proof Hl as [L1 L2 L3 L4 L0 L5 L6 L7 L8 L9]; constructor; try done.
  - split; [exact (proj1 L1)|]; intros st' t; rewrite Hlk; case_decide; [done|apply L1].
  - intros i k Hi; destruct (L4 i k Hi) as (Q1 & Q2 & Q3 & Q4 & Q5); rewrite Hp; split_and!; auto; revert Q3; pose proof (Hno i k Hi) as Hne.
    unfold place_of; destruct (key_sta k) as [st'|]; [|done]; destruct (pairwise (conf k)); cbn [valid]; rewrite Hlk, decide_False by congruence; done.
  - intros q i; rewrite Hp; apply L5.
  - intros st1 st2 x; unfold addr; cbn [mbind option_bind]; rewrite !Hlk; repeat case_decide; subst; try done; apply L9.
Qed.

Lemma destroy_sta_spec s st : ok s -> is_Some (stas s !! st) -> exists s', __sta_info_destroy vif s st = Some s' /\ ok s'.
Proof.
  intros Hok Hst; unfold __sta_info_destroy; assert (Hg : forall l s, Forall (fun i => (i < 4)%nat) l -> ok s -> is_Some (stas s !! st) ->
    exists s', for_keys (free_gtk vif st) l s = Some s' /\ ok s' /\ is_Some (stas s' !! st) /\ forall i, i ∈ l \/ ptr s (SGtk st i) = None -> ptr s' (SGtk st i) = None).
  { clear; induction l as [|i l IH]; intros s Hl Hok [t Ht]; cbn [for_keys]; [exists s; split_and!; try done; by intros i [Hi%elem_of_nil|Hi]|].
    apply Forall_cons_1 in Hl as [Hi Hl]; assert (Ef : free_gtk vif st s i = __ieee80211_key_free vif s (ptr s (SGtk st i))) by (unfold free_gtk; cbn [ptr]; by rewrite Ht); rewrite Ef.
    destruct (free_ptr s (SGtk st i) Hok) as (s1 & -> & Hok1 & P1 & P2 & _); [split; [by eexists|done]|]; cbn [mbind option_bind].
    destruct (IH s1 Hl Hok1) as (s2 & -> & Hok2 & Hst2 & P3); [by apply (P2 (SPtk st)); eexists|]; exists s2; split_and!; try done.
    intros j Hj; apply P3; rewrite P1; destruct Hj as [[->|Hj]%elem_of_cons|Hj]; [right; by rewrite decide_True|by left|right; case_decide; done]. }
  destruct (Hg (seq 0 NUM_DEFAULT_KEYS) s) as (s1 & -> & Hok1 & [t Ht] & P1); [by repeat constructor|done|done|]; cbn [mbind option_bind]; rewrite Ht; cbn [mbind option_bind].
  assert (Ep : ptk t = ptr s1 (SPtk st)) by (cbn [ptr]; by rewrite Ht); rewrite Ep; destruct (free_ptr s1 (SPtk st) Hok1) as (s2 & -> & Hok2 & P2 & P3 & _); [by eexists|].
  cbn [mbind option_bind]; eexists; split; [reflexivity|]; apply del_sta_ok; [done|by rewrite P2, decide_True|]; intros i; rewrite P2, decide_False by done.
  destruct (decide (i < 4)%nat) as [Hi|Hi]; [apply P1; left; apply list_elem_of_In, in_seq; unfold NUM_DEFAULT_KEYS; lia|].
  cbn [ptr]; rewrite Ht; cbn [mbind option_bind]; apply (l_sizes _ _ (proj1 Hok1)) in Ht as [_ Hn]; apply Hn; lia.
Qed.

(** Suspend, resume and the end. *)
Lemma disable_keys_spec l s : ok s -> Forall (fun i => is_Some (store s !! i)) l -> exists s', for_keys (ieee80211_key_disable_hw_accel vif) l s = Some s' /\
  ok s' /\ same_ptrs s s' /\ forall i k, store s' !! i = Some k -> uploaded k = true -> (i ∉ l) /\ store s !! i = Some k.
Proof.
  revert s; induction l as [|i l IH]; intros s Hok Hl; cbn [for_keys]; [exists s; split_and!; try done; [apply same_ptrs_refl|intros i k Hi _; split; [apply not_elem_of_nil|done]]|].
  apply Forall_cons_1 in Hl as [[k Hk] Hl]; destruct Hok as [Hlk Hh]; destruct (sta_of_linked _ _ _ _ Hlk Hk) as (t & Ht & _).
  destruct (disable_spec 0 s i k Hh Hk) as (s1 & k' & -> & Hh1 & Es & Hlike & Hu & Hp); [by eexists|]; cbn [mbind option_bind].
  assert (Hok1 : ok s1) by (split; [eapply linked_like; [exact Hlk|rewrite Es; by eapply mlike_insert|done]|done]).
  destruct (IH s1 Hok1) as (s2 & -> & Hok2 & Hp2 & Hs2); [rewrite Es; eapply list.Forall_impl; [exact Hl|]; intros j Hj; by apply lookup_insert_is_Some'; right|].
  exists s2; split_and!; try done; [by eapply same_ptrs_trans|]; intros j kj Hj Huj; destruct (Hs2 j kj Hj Huj) as [Hnl Hs]; rewrite Es in Hs.
  apply lookup_insert_Some in Hs as [[-> ->]|[Hne Hs]]; [congruence|]; split; [by apply not_elem_of_cons|done].
Qed.

(** Every key is counted when none is uploaded. *)
Lemma count_keys s : ok s -> (forall i k, store s !! i = Some k -> uploaded k = false) -> length (pick counted (store s)) = length (key_list (sdata s)).
Proof.
  intros [Hl _] Hu; assert (Hp : key_list (sdata s) ≡ₚ (map_to_list (store s)).*1).
  { apply NoDup_Permutation; [exact (l_nodup _ _ Hl)|apply NoDup_fst_map_to_list|]; intros i; rewrite (l_list _ _ Hl), list_elem_of_fmap; split.
    - intros [k Hk]; exists (i, k); split; [done|by apply elem_of_map_to_list].
    - intros ([j k] & -> & Hj%elem_of_map_to_list); by eexists. }
  rewrite Hp, length_fmap; clear Hp; unfold pick; assert (Hc : forall i k, (i, k) ∈ map_to_list (store s) -> counted k = Some tt).
  { intros i k Hi%elem_of_map_to_list; unfold counted; by rewrite (proj1 (l_keys _ _ Hl i k Hi)), (Hu i k Hi). }
  induction (map_to_list (store s)) as [|[i k] l IH]; [done|]; cbn [omap list_omap snd length]; rewrite (Hc i k) by left; cbn [length].
  by rewrite IH by (intros j kj Hj; apply (Hc j); by right).
Qed.

Lemma enable_keys_spec l s : hw (Z.of_nat (length l)) s -> linked_keys (store s) s -> NoDup l -> Forall (fun i => exists k, store s !! i = Some k /\ uploaded k = false) l ->
  exists s', for_keys (fun s i => r ← ieee80211_key_enable_hw_accel vif (increment_tailroom_need_count s) i; Some r.1) l s = Some s' /\ ok s'.
Proof.
  revert s; induction l as [|i l IH]; intros s Hh Hlk Hn Hl; cbn [for_keys]; [by exists s|]; apply Forall_cons_1 in Hl as [(k & Hk & Hu) Hl]; apply list.NoDup_cons in Hn as [Hni Hn].
  set (s1 := increment_tailroom_need_count s); assert (Hh1 : hw (Z.of_nat (length l)) s1).
  { replace (Z.of_nat (length l)) with (Z.of_nat (length (i :: l)) - 1) by (cbn [length]; lia); by apply hw_tailroom. }
  assert (Hl1 : linked_keys (store s1) s1) by (eapply linked_like; [exact Hlk|apply mlike_refl|]; split; [done|by eexists]).
  destruct (enable_spec _ s1 i k Hh1 Hl1 Hk Hu) as (s2 & r & -> & Hh2 & Hm & Hp & Hs2); cbn [mbind option_bind fst].
  destruct (IH s2 Hh2) as (s3 & -> & Hok3); [by eapply linked_like|done| |by exists s3].
  apply list.Forall_forall; intros j Hj; rewrite Hs2 by (intros ->; done); rewrite list.Forall_forall in Hl; by apply Hl.
Qed.

Lemma resume_spec s : ok s -> (forall i k, store s !! i = Some k -> uploaded k = false) -> exists s', ieee80211_enable_keys vif s = Some s' /\ ok s'.
Proof.
  intros Hok Hu; pose proof Hok as [Hl Hh]; unfold ieee80211_enable_keys; destruct (running vif); cbn [negb]; [|by exists s].
  set (s0 := set_sdata s (set_count (sdata s) 0)); change (key_list (sdata s)) with (key_list (sdata s0)); apply enable_keys_spec.
  - destruct Hh as [A B C E]; constructor; try done; cbn; by rewrite (count_keys s Hok Hu).
  - eapply linked_like; [exact Hl|apply mlike_refl|]; split; [done|by eexists].
  - exact (l_nodup _ _ Hl).
  - apply list.Forall_forall; intros i Hi; apply (l_list _ _ Hl) in Hi as [k Hk]; exists k; split; [done|by apply (Hu i)].
Qed.

Lemma free_keys_spec l s : ok s -> NoDup l -> Forall (fun i => is_Some (store s !! i)) l -> exists s', for_keys (fun s i => __ieee80211_key_free vif s (Some i)) l s = Some s' /\ ok s' /\
  forall i, store s' !! i <> None -> (i ∉ l) /\ store s !! i <> None.
Proof.
  revert s; induction l as [|i l IH]; intros s Hok Hn Hl; cbn [for_keys]; [exists s; split_and!; try done; intros i Hi; split; [apply not_elem_of_nil|done]|].
  apply Forall_cons_1 in Hl as [[k Hk] Hl]; apply list.NoDup_cons in Hn as [Hni Hn]; destruct (free_spec s i k Hok Hk) as (s1 & -> & [Hok1 Es _ _ _]); cbn [mbind option_bind].
  destruct (IH s1 Hok1 Hn) as (s2 & -> & Hok2 & Hs2).
  { apply list.Forall_forall; intros j Hj; rewrite Es, lookup_delete_ne by (intros ->; done); rewrite list.Forall_forall in Hl; by apply Hl. }
  exists s2; split_and!; try done; intros j Hj; destruct (Hs2 j Hj) as [Hnl Hs]; rewrite Es in Hs; destruct (decide (i = j)) as [->|Hne]; [by rewrite lookup_delete_eq in Hs|].
  rewrite lookup_delete_ne in Hs by done; split; [apply not_elem_of_cons; split; congruence|done].
Qed.

(** ** Runs *)

(** What user space, [cfg80211] and the rest of mac80211 guarantee: objects are
    new, indices are checked, pairwise keys have a station, group keys of a
    station are not management keys, the driver knows the key's kind, and keys are
    only given back to the driver when it has none. *)
Definition op_ok (o : op) s : Prop :=
  match o with
  | OAdd i key_idx pw mac p => store s !! i = None /\ 0 <= key_idx < 6 /\ (pw = true -> mac <> None) /\ (mac <> None -> pw = false -> key_idx < 4) /\ key_fits s key_idx pw mac p
  | ODel key_idx pw mac => 0 <= key_idx < 6
  | OAddSta st a up w as_ mf => stas s !! st = None /\ forall st', addr s (Some st') <> Some a
  | ODelSta st => is_Some (stas s !! st)
  | OResume => forall i k, store s !! i = Some k -> uploaded k = false
  | ODefault _ _ _ | ODefaultMgmt _ | OSuspend | OFreeAll => True
  end.

Lemma step_ok o s : ok s -> op_ok o s -> exists s', step vif o s = Some s' /\ ok s'.
Proof.
  intros Hok Ho; pose proof (proj1 Hok) as Hl; assert (Hall : Forall (fun i => is_Some (store s !! i)) (key_list (sdata s))) by (apply list.Forall_forall; intros i Hi; by apply (l_list _ _ Hl)).
  destruct o; cbn [op_ok step] in *.
  - destruct Ho as (H1 & H2 & H3 & H4 & H5); destruct (add_key_spec s id key_idx pw mac p Hok H1 H2 H3 H4 H5) as (s' & r & -> & Hok'); by exists s'.
  - destruct (del_key_spec s key_idx pw mac Hok Ho) as (s' & r & -> & Hok'); by exists s'.
  - eexists; split; [reflexivity|by apply default_key_ok].
  - eexists; split; [reflexivity|by apply default_mgmt_key_ok].
  - eexists; split; [reflexivity|destruct Ho as [H1 H2]; by apply add_sta_ok].
  - by apply destroy_sta_spec.
  - destruct (disable_keys_spec (key_list (sdata s)) s Hok Hall) as (s' & E & Hok' & _); by exists s'.
  - by apply resume_spec.
  - destruct (free_keys_spec (key_list (sdata s)) s Hok (l_nodup _ _ Hl) Hall) as (s' & E & Hok' & _); by exists s'.
Qed.

Fixpoint run_ok (os : list op) s : Prop :=
  match os with [] => True | o :: os => op_ok o s /\ forall s', step vif o s = Some s' -> run_ok os s' end.

Lemma run_ok_spec os s : ok s -> run_ok os s -> exists s', run vif os s = Some s' /\ ok s'.
Proof.
  revert s; induction os as [|o os IH]; intros s Hok Hr; [by exists s|]; destruct Hr as [Ho Hr]; destruct (step_ok o s Hok Ho) as (s1 & E & Hok1).
  cbn [run]; rewrite E; cbn [mbind option_bind]; by apply IH, Hr.
Qed.

(** The interface when it is set up. *)
Definition start (d : D) : state D := State ∅ ∅ (Sdata (repeat None 6) None None None [] 0) d.

Lemma start_ok d : drv_holds d [] -> ok (start d).
Proof.
  intros Hd; assert (Hp : forall q, ptr (start d) q = None) by (intros [i|st|st i]; [do 6 (destruct i as [|i]; [done|]); done|done|done]).
  split; constructor; try done; cbn [start sdata key_list store].
  - apply NoDup_nil_2.
  - intros i; split; [intros Hi; by apply elem_of_nil in Hi|intros [k Hk]; by rewrite lookup_empty in Hk].
  - intros q i; by rewrite Hp.
Qed.

(** ** Properties *)

(** C14: whatever the driver, as long as it keeps to its contract, and whatever
    user space, suspend, resume and the removal of stations do, provided that
    the group keys of a station have an index below 4, no step follows a
    pointer to a key or station that was freed; the list of keys has every key
    once; every key is in the place of its station and index and nothing else is
    in any place; and the default keys are keys of the interface.  (The other
    conditions of [op_ok]: objects are new and stations have addresses of their
    own, indices are 0 to 5, pairwise keys have a station, stations removed
    exist, keys are given back on resume only when the driver has none, and the
    driver may be asked to take the key.  A group management key of a station,
    index 4 or 5, keeps a pointer to the station when that is freed:
    [station_mgmt_key_dangles].) *)
Theorem key_pointers_valid d os : drv_holds d [] -> run_ok os (start d) -> exists s, run vif os (start d) = Some s /\
  NoDup (key_list (sdata s)) /\ (forall i, i ∈ key_list (sdata s) <-> is_Some (store s !! i)) /\
  (forall i k, store s !! i = Some k -> linked k = true /\ is_Some (sta_of s (key_sta k)) /\ ptr s (place_of k) = Some i) /\
  (forall p i, ptr s p = Some i -> exists k, store s !! i = Some k /\ place_of k = p) /\
  (forall i, default_unicast_key (sdata s) = Some i \/ default_multicast_key (sdata s) = Some i -> exists j, (j < 4)%nat /\ ptr s (SKey j) = Some i) /\
  (forall i, default_mgmt_key (sdata s) = Some i -> exists j, (4 <= j < 6)%nat /\ ptr s (SKey j) = Some i).
Proof.
  intros Hd Hr; destruct (run_ok_spec os (start d) (start_ok d Hd) Hr) as (s & E & [Hl _]); exists s; split_and!; try done.
  - exact (l_nodup _ _ Hl).
  - exact (l_list _ _ Hl).
  - intros i k Hk; destruct (l_keys _ _ Hl i k Hk) as (A & _ & B & C & _); split_and!; [done|by apply sta_of_valid|done].
  - exact (l_ptrs _ _ Hl).
  - intros i [Hi|Hi]; [exact (l_unicast _ _ Hl i Hi)|exact (l_multicast _ _ Hl i Hi)].
  - exact (l_mgmt _ _ Hl).
Qed.


End Lemmas.

(** ** The adapter *)

Section Htc.
Context (h : KeyCache.htc_conf).

(** The cache holds the keys; the static slots are for the interface's own keys. *)
Definition htc_holds (c : KeyCache.ath_common) (l : driver_keys) : Prop :=
  KeyCache.holds h c ((fun x => (x.1, KeyCache.entry_mac h x.2 x.1)) <$> l) /\
  Forall (fun x => (hw_key_idx x.1 < 4)%nat -> pairwise x.1 = false /\ x.2 = None /\ 0 <= keyidx x.1 /\ hw_key_idx x.1 = Z.to_nat (keyidx x.1)) l.

(** Keys the driver does not take at all: it is told not to encrypt, or does not
    know the cipher (management group keys). *)
Definition htc_declines (k : key_conf) : Prop := KeyCache.refused h k <> None \/ KeyCache.cipher_type (cipher k) = None.

(** Keys the adapter's driver knows what to do with: those it declines, and
    those with addresses of 6 octets, keys of at most 32 (32 exactly for TKIP),
    and of which only the interface's own group keys 0 to 3 go to a static
    slot. *)
Definition htc_key_ok (sta : option (list Z)) (k : key_conf) : Prop :=
  htc_declines k \/
  KeyCache.wf_conf k /\ KeyCache.wf_mac (KeyCache.vif_addr h) /\ (forall m, sta = Some m -> KeyCache.wf_mac m) /\
  (KeyCache.fixed_slot h sta k = true -> pairwise k = false /\ sta = None /\ 0 <= keyidx k < 4).

Lemma htc_holds_perm c l l' : l ≡ₚ l' -> htc_holds c l -> htc_holds c l'.
Proof. intros Hp [A B]; split; [by eapply KeyCache.holds_perm; [|exact A]; rewrite Hp|by rewrite <- Hp]. Qed.

(** Keys that are declined change nothing. *)
Lemma htc_declined c sta k : htc_declines k -> exists ret, KeyCache.htc_set_key h c sta k = Some (c, ret, k) /\ ret <> 0.
Proof.
  intros Hno; unfold KeyCache.htc_set_key; destruct (KeyCache.refused h k) as [err|] eqn:Er.
  - exists err; split; [done|]; unfold KeyCache.refused in Er; repeat case_match; by simplify_eq.
  - destruct Hno as [|Ec]; [done|]; unfold KeyCache.ath_key_config; rewrite Ec; by exists (- KeyCache.EOPNOTSUPP).
Qed.

Lemma htc_set_law c l sta k : htc_holds c l -> htc_key_ok sta k -> Forall (fun x => purpose_of x.1 x.2 <> purpose_of k sta) l ->
  exists c' ret k', KeyCache.htc_set_key h c sta k = Some (c', ret, k') /\ same_key k k' /\ htc_holds c' (if ret =? 0 then (k', sta) :: l else l).
Proof.
  intros [A B] [Hno|(O1 & O2 & O3 & O4)] Hl; [destruct (htc_declined c sta k Hno) as (ret & -> & Hr); exists c, ret, k; split_and!; try done;
    by rewrite (proj2 (Z.eqb_neq _ _) Hr)|]; destruct (KeyCache.set_key_spec h c ((fun x => (x.1, KeyCache.entry_mac h x.2 x.1)) <$> l) sta k A) as (c' & ret & k' & E & Hr).
  { split_and!; try done; intros Hf; destruct (O4 Hf) as (P1 & -> & P3); split; [lia|]; apply Forall_fmap, list.Forall_forall; intros x Hx Hi; cbn in Hi.
    rewrite list.Forall_forall in B, Hl; destruct (B x Hx) as (Q1 & Q2 & Q3 & Q4); [lia|]; apply (Hl x Hx); unfold purpose_of; rewrite P1, Q1, Q2; f_equal; lia. }
  exists c', ret, k'; split; [done|]; destruct Hr as [(-> & _ & Ek & Hh & Hi)|(Hlt & _ & -> & ->)]; [|split; [done|]; by replace (ret =? 0) with false by (symmetry; apply Z.eqb_neq; lia)].
  assert (Hsame : same_key k k') by (rewrite Ek; done); split; [done|]; destruct Hsame as (S1 & S2 & S3 & S4); split.
  - cbn [Z.eqb fmap list_fmap fst snd]; assert (Em : KeyCache.entry_mac h sta k' = KeyCache.entry_mac h sta k) by (unfold KeyCache.entry_mac; by rewrite S4); by rewrite Em.
  - cbn [Z.eqb]; apply Forall_cons_2; [|done]; cbn [fst snd]; intros Hs; destruct (KeyCache.fixed_slot h sta k) eqn:Hf; [|lia]; destruct (O4 eq_refl) as (P1 & P2 & P3).
    rewrite S2, S4, Hi; split_and!; try done; lia.
Qed.

Lemma htc_disable_law c l sta k : htc_holds c ((k, sta) :: l) -> exists c' ret, KeyCache.htc_disable_key h c k = Some (c', ret) /\ htc_holds c' l.
Proof.
  intros [A B]; apply Forall_cons_1 in B as [_ B]; cbn [fmap list_fmap fst snd] in A; destruct (KeyCache.disable_key_spec h c k _ _ A) as (c' & E & Hh).
  by exists c', 0.
Qed.

Lemma htc_key_ok_same sta k k' : same_key k k' -> htc_key_ok sta k -> htc_key_ok sta k'.
Proof.
  intros (S1 & S2 & S3 & S4) [Hno|Hok]; [left|right]; [unfold htc_declines, KeyCache.refused in *; by rewrite S1, S4|].
  destruct Hok as (O1 & O2 & O3 & O4); unfold KeyCache.wf_conf, KeyCache.fixed_slot in *; rewrite S1, S2, S3, S4; done.
Qed.

#[local] Instance htc_driver : KeyDriver KeyCache.ath_common := {|
  drv_set_key := KeyCache.htc_set_key h; drv_disable_key := KeyCache.htc_disable_key h; drv_key_ok := htc_key_ok; drv_holds := htc_holds;
  drv_holds_perm := htc_holds_perm; drv_set_law := htc_set_law; drv_disable_law := htc_disable_law; drv_key_ok_same := htc_key_ok_same |}.

(** C13: mac80211 on top of the adapter's driver, from the reset of the cache, in
    runs in which, of the keys the driver does not decline, only the interface's own
    group keys 0 to 3 go to the static slots (no pairwise key has a non-zero
    index except on an access point, and no group key a station on a client): at
    any time the key cache holds exactly the keys mac80211 believes are uploaded,
    each with its key, its type and the address of its station, no two in the same
    entry, and every other entry is cleared.  (The other conditions are those of
    [op_ok], and that addresses have 6 octets and keys at most 32, for TKIP
    exactly.  A pairwise key of non-zero index shares its entry with the
    group key of that index: [wep_keys_share_entry].) *)
Theorem keys_in_hardware vif r os : run_ok vif os (start (KeyCache.ath9k_cmn_init_crypto true true r)) ->
  exists s, run vif os (start (KeyCache.ath9k_cmn_init_crypto true true r)) = Some s /\
  (forall i k, store s !! i = Some k -> uploaded k = true ->
    KeyCache.shows_at (KeyCache.vif_type h) (drv s) (conf k) (hw_key_idx (conf k)) (KeyCache.entry_mac h (addr s (key_sta k)) (conf k))) /\
  (forall i j k k', store s !! i = Some k -> store s !! j = Some k' -> uploaded k = true -> uploaded k' = true -> i <> j ->
    forall n, n ∈ KeyCache.slots (conf k) -> n ∉ KeyCache.slots (conf k')) /\
  (forall n, (n < 128)%nat -> (forall i k, store s !! i = Some k -> uploaded k = true -> n ∉ KeyCache.slots (conf k)) -> KeyCache.entry_words (drv s) n = KeyCache.cleared).
Proof.
  intros Hr; assert (H0 : drv_holds (KeyDriver := htc_driver) (KeyCache.ath9k_cmn_init_crypto true true r) []) by (split; [apply KeyCache.cache_init_holds|constructor]).
  destruct (run_ok_spec vif os _ (start_ok vif (KeyCache.ath9k_cmn_init_crypto true true r) H0) Hr) as (s & E & [Hl [[A B] _ _ _]]); exists s; split; [done|]; destruct A as [_ A2 _ _ A5 _ A7].
  assert (Hheld : forall i k, store s !! i = Some k -> uploaded k = true -> held s k = Some (conf k, addr s (key_sta k))) by (intros i k _ Hu; unfold held; by rewrite Hu).
  split_and!.
  - intros i k Hk Hu; rewrite list.Forall_forall in A5; apply (A5 (conf k, KeyCache.entry_mac h (addr s (key_sta k)) (conf k))).
    apply list_elem_of_fmap; exists (conf k, addr s (key_sta k)); split; [done|]; apply elem_pick; exists i, k; split; [done|by eapply Hheld].
  - intros i j k k' Hk Hk' Hu Hu' Hne n Hn Hn'; assert (Hj : delete i (store s) !! j = Some k') by (by rewrite lookup_delete_ne).
    rewrite (KeyCache.taken_perm _ ((fun x => (x.1, KeyCache.entry_mac h x.2 x.1)) <$> (conf k, addr s (key_sta k)) :: pick (held s) (delete i (store s)))) in A2
      by (rewrite (pick_delete (held s) _ i k Hk), (Hheld i k Hk Hu); done).
    cbn [fmap list_fmap] in A2; rewrite KeyCache.taken_cons in A2; apply list.NoDup_app in A2 as (_ & A2 & _); apply (A2 n Hn); unfold KeyCache.taken.
    apply list_elem_of_In, in_concat; exists (KeyCache.slots (conf k')); split; [|by apply list_elem_of_In]; apply list_elem_of_In, list_elem_of_fmap.
    exists (conf k', KeyCache.entry_mac h (addr s (key_sta k')) (conf k')); split; [done|]; apply list_elem_of_fmap; exists (conf k', addr s (key_sta k')); split; [done|].
    apply elem_pick; exists j, k'; split; [done|by eapply Hheld].
  - intros n Hn Hno; apply A7; [done|]; intros Ht; unfold KeyCache.taken in Ht; apply list_elem_of_In, in_concat in Ht as (l & Hl1 & Hl2).
    apply list_elem_of_In, list_elem_of_fmap in Hl1 as (x & -> & Hx); apply list_elem_of_fmap in Hx as (y & -> & Hy); apply elem_pick in Hy as (i & k & Hk & Ey).
    unfold held in Ey; destruct (uploaded k) eqn:Hu; [|done]; injection Ey as <-; apply (Hno i k Hk Hu); by apply list_elem_of_In.
Qed.
End Htc.

(** ** Examples *)

(** A client whose access point gives it a pairwise CCMP key. *)
Definition ex_vif : iface := Iface STATION true true false (Some 7%nat) true false true.
Definition ex_key : list Z := [1; 2; 3; 4; 5; 6; 7; 8; 9; 10; 11; 12; 13; 14; 15; 16].
Definition ex_params (cipher : Z) : key_params := Params cipher ex_key None true true.
Definition ex_ops : list op :=
  [OAddSta 7 KeyCache.ex_mac true true true true; OAdd 0 0 true (Some 7%nat) (ex_params WLAN_CIPHER_SUITE_CCMP); ODefault 0 true true; OSuspend; ODel 0 true (Some 7%nat);
   ODefaultMgmt 4; OFreeAll].

Lemma ex_run_ok r : run_ok (H := htc_driver KeyCache.ex_client) ex_vif ex_ops (start (KeyCache.ath9k_cmn_init_crypto true true r)).
Proof.
  split; [split; [done|intros st'; done]|]; intros s1 E; injection E as <-; split.
  { split; [done|]; split; [lia|]; split; [done|]; split; [done|]; intros k E1 E2 E3 E4 _ _; cbn in E1, E3; right; split; [|split; [exact KeyCache.ex_mac_ok|split]].
    - unfold KeyCache.wf_conf; rewrite E1, E3; split; [repeat constructor; cbn; lia|]; split; [cbn; lia|done].
    - intros m Em; injection Em as <-; exact KeyCache.ex_mac_ok.
    - unfold KeyCache.fixed_slot; by rewrite E2, E4. }
  intros s2 _; do 5 (split; [cbn; lia || done|intros ? _]); done.
Qed.

Definition ex_start : state KeyCache.ath_common := start (KeyCache.ath9k_cmn_init_crypto true true ∅).

Lemma ex_start_holds : drv_holds (KeyDriver := htc_driver KeyCache.ex_client) (KeyCache.ath9k_cmn_init_crypto true true ∅) [].
Proof. split; [apply KeyCache.cache_init_holds|constructor]. Qed.

Lemma key_pointers_valid_witness : exists s, run (H := htc_driver KeyCache.ex_client) ex_vif ex_ops ex_start = Some s /\ NoDup (key_list (sdata s)).
Proof.
  destruct (key_pointers_valid (H := htc_driver KeyCache.ex_client) ex_vif _ ex_ops ex_start_holds (ex_run_ok ∅)) as (s & E & Hn & _).
  exists s. split; [exact E|exact Hn].
Defined.

Lemma keys_in_hardware_witness : exists s, run (H := htc_driver KeyCache.ex_client) ex_vif ex_ops ex_start = Some s /\
  forall i k, store s !! i = Some k -> uploaded k = true ->
    KeyCache.shows_at STATION (drv s) (conf k) (hw_key_idx (conf k)) (KeyCache.entry_mac KeyCache.ex_client (addr s (key_sta k)) (conf k)).
Proof.
  destruct (keys_in_hardware KeyCache.ex_client ex_vif ∅ ex_ops (ex_run_ok ∅)) as (s & E & Hs & _).
  exists s. split; [exact E|exact Hs].
Defined.

Definition ex_expand (b : skb_room) (hd tl : Z) : option skb_room := Some (Room (headroom b + hd) (tail b + tl) false).


(** The pairwise key, then a group key in its static slot; suspend and resume
    bring them back; the driver has mac80211 make the IVs, so both keys need room. *)
Example keys_in_hardware_ex :
  (fun s => (crypto_tx_tailroom_needed_cnt (sdata s), (fun x => (x.1, uploaded x.2, hw_key_idx (conf x.2))) <$> map_to_list (store s),
             KeyCache.hw_key (KeyCache.entry_words (drv s) 1), KeyCache.hw_mac (KeyCache.entry_words (drv s) 4))) <$>
    run (H := htc_driver KeyCache.ex_client) ex_vif
      [OAddSta 7 KeyCache.ex_mac true true true true; OAdd 0 0 true (Some 7%nat) (ex_params WLAN_CIPHER_SUITE_CCMP); OAdd 1 1 false None (ex_params WLAN_CIPHER_SUITE_CCMP);
       OSuspend; OResume] ex_start
  = Some (2, [(1%nat, true, 1%nat); (0%nat, true, 4%nat)], ex_key, KeyCache.ex_mac).
Proof. vm_compute. reflexivity. Qed.

(** A pairwise WEP key of index 1 goes to slot 1, and so does the group key of
    that index: both are marked as uploaded, and the entry has the second one. *)
Definition ex_wep (b : Z) : key_params := Params WLAN_CIPHER_SUITE_WEP40 [b; b; b; b; b] None true true.
Example wep_keys_share_entry :
  (fun s => ((fun x => (x.1, uploaded x.2, pairwise (conf x.2), hw_key_idx (conf x.2))) <$> map_to_list (store s), take 5 (KeyCache.hw_key (KeyCache.entry_words (drv s) 1)))) <$>
    run (H := htc_driver KeyCache.ex_client) ex_vif
      [OAddSta 7 KeyCache.ex_mac true true true true; OAdd 0 1 true (Some 7%nat) (ex_wep 5); OAdd 1 1 false None (ex_wep 6)] ex_start
  = Some ([(1%nat, true, false, 1%nat); (0%nat, true, true, 1%nat)], [6; 6; 6; 6; 6]).
Proof. vm_compute. reflexivity. Qed.

(** A key the driver leaves to software is counted, and frames get room. *)
Definition ex_soft : KeyCache.htc_conf := KeyCache.Htc true false STATION KeyCache.ex_mac.
Definition ex_soft_start : state KeyCache.ath_common := start (KeyCache.Common 128 [] [] [] true true ∅).

Example room_ex : (fun s => (crypto_tx_tailroom_needed_cnt (sdata s), xmit_room ex_expand s 64 (Room 10 0 false) true)) <$>
    run (H := htc_driver ex_soft) ex_vif
      [OAddSta 7 KeyCache.ex_mac true true true true; OAdd 0 0 true (Some 7%nat) (ex_params WLAN_CIPHER_SUITE_CCMP)] ex_soft_start
  = Some (1, Some (Room 72 18 false)).
Proof. vm_compute. reflexivity. Qed.

(** [__sta_info_destroy] frees only the first four group keys of a station: a
    group management key of it keeps its pointer to the station, which the next
    operation on that key follows. *)
Example station_mgmt_key_dangles : let os := [OAddSta 7 KeyCache.ex_mac true true true true; OAdd 0 4 false (Some 7%nat) (ex_params WLAN_CIPHER_SUITE_AES_CMAC); ODelSta 7] in
  (fun s => (key_sta <$> store s !! 0%nat, sta_addr <$> stas s !! 7%nat)) <$> run (H := htc_driver ex_soft) ex_vif os ex_soft_start = Some (Some (Some 7%nat), None) /\
  run (H := htc_driver ex_soft) ex_vif (os ++ [OFreeAll]) ex_soft_start = None.
Proof. split; vm_compute; reflexivity. Qed.

(** [ieee80211_add_key] asks the key, which has no station yet, for its station:
    an access point marks no key for management frames, though the station has
    negotiated their protection. *)
Example ap_key_rx_mgmt : (fun s => (fun k => (key_sta k, rx_mgmt (conf k))) <$> store s !! 0%nat) <$>
    run (H := htc_driver ex_soft) (Iface AP true true false None true false true)
      [OAddSta 7 KeyCache.ex_mac true true true true; OAdd 0 0 true (Some 7%nat) (ex_params WLAN_CIPHER_SUITE_CCMP)] ex_soft_start
  = Some (Some (Some 7%nat, false)).
Proof. vm_compute. reflexivity. Qed.
End KeyMgmt.
