(* ===== verification/OffChan.v ===== *)
(** * Scanning and remaining on a channel

    [net/mac80211/scan.c] (scan requests, the scan state machine, hardware
    scans), [offchannel.c] and the remain-on-channel part of [cfg.c]: the two
    users of the radio that leave the operating channel.  Events that user space,
    the driver and the air see go to a log; what the driver and the kernel answer
    is the environment of an operation.  Work items run when they are pending; the
    timers' order is that of the operations. *)

From stdpp Require Import gmap.
From S2P Require Import Prelude.

Module OffChan.

Definition EBUSY : Z := 16.
Definition ENOMEM : Z := 12.
Definition ENOENT : Z := 2.
Definition EOPNOTSUPP : Z := 95.
Definition IEEE80211_NUM_BANDS : nat := 3.

(** ** Data *)

(** [struct ieee80211_channel], two of its flags in use here and one more. *)
Record channel := Chan { c_id : Z; band : nat; passive : bool; no_ibss : bool; disabled : bool }.

#[global] Instance channel_eq_dec : EqDecision channel.
Proof. solve_decision. Defined.

(** [struct cfg80211_scan_request]; [internal] for [int_scan_req]. *)
Record request := Req { rq_id : nat; channels : list channel; n_ssids : nat; low_priority : bool; internal : bool }.

Inductive mac80211_scan_state := SCAN_DECISION | SCAN_SET_CHANNEL | SCAN_SEND_PROBE | SCAN_SUSPEND | SCAN_RESUME | SCAN_ABORT.

(** The state of a delayed work: idle, on its timer, or queued. *)
Inductive work_state := Idle | Timer (expires : Z) | Queued.

(** [struct ieee80211_roc_work] without its dependents; [r_id] stands for its
    address. *)
Record roc_info := Info {
  r_id : nat; r_sdata : nat; r_chan : channel; started : bool; abort : bool; hw_begun : bool; notified : bool;
  hw_start_time : Z; duration : Z; frame : option Z; cookie : Z; mgmt_tx_cookie : Z; work : work_state }.

(** Dependents have no dependents. *)
Record roc := Roc { info : roc_info; dependents : list roc_info }.

Inductive iftype := STATION | MONITOR | P2P_DEVICE | OTHER.

#[global] Instance iftype_eq_dec : EqDecision iftype.
Proof. solve_decision. Defined.

(** An interface: [polling] for the flags of beacon and connection polls. *)
Record iface := Iface {
  if_type : iftype; running : bool; associated : bool; tx_empty : bool; beacon_int : Z; polling : bool;
  enable_beacon : bool; off_channel : bool; beacon_stopped : bool }.

Inductive event :=
  | ScanDone (id : nat) (aborted : bool)   (* [cfg80211_scan_done] *)
  | Probe (c : channel)                    (* a probe request is sent *)
  | Tune (c : channel)                     (* [drv_config] *)
  | Ready (id : nat) (cookie : Z)          (* [cfg80211_ready_on_channel] *)
  | Expired (id : nat) (cookie : Z)        (* [cfg80211_remain_on_channel_expired] *)
  | FrameTx (f : Z)                        (* a frame is handed to transmission *)
  | FrameStatus (f : Z)                    (* [cfg80211_mgmt_tx_status], not acknowledged *)
  | Nullfunc (i : nat) (ps : bool) | Beacon (i : nat) (on : bool)
  | HwScan (l : list channel) | HwRoc (c : channel) (dur : Z) | CancelHwScan | CancelHwRoc.

(** The scan part of [struct ieee80211_local]; the first five are the bits of
    [scanning]. *)
Record scan_info := Scan {
  sw_scanning : bool; hw_scanning : bool; onchannel_scanning : bool; completed : bool; aborted : bool;
  scan_req : option request; scan_sdata : option nat; hw_scan_req : option (list channel); hw_scan_band : nat;
  scan_channel : option channel; scan_channel_idx : nat; next_scan_state : mac80211_scan_state; leave_oper_channel_time : Z; scan_work : bool }.

(** The rest of it. *)
Record local := Local {
  scan : scan_info; roc_list : list roc; hw_roc_start : bool; hw_roc_done : bool; hw_roc_start_time : Z; roc_cookie_counter : Z;
  tmp_channel : option channel; oper_channel : channel; hw_channel : channel;
  interfaces : list iface; conf_ps : bool; offchannel_ps_enabled : bool; dynamic_ps_timer : bool; log : list event }.

(** The driver: its operations and what does not change. *)
Record hw := Hw {
  ops_hw_scan : bool; ops_roc : bool; ops_flush : bool; use_chanctx : bool; ps_nullfunc_stack : bool; ps_sdata : bool; dynamic_ps_timeout : Z;
  listen_interval : Z; HZ : Z; usecs_to_jiffies : Z -> Z; msecs_to_jiffies : Z -> Z; jiffies_to_msecs : Z -> Z }.

(** What is answered during an operation: [jiffies], the latency user space
    wants, the channels the driver fails to set, its other answers, and the
    allocator's. *)
Record env := Env { jiffies : Z; latency : Z; config_fails : channel -> bool; hw_scan_rc : Z; roc_rc : Z; cancel_rc : Z; alloc_ok : bool }.

(** ** Setters *)

Definition set_scan (l : local) (s : scan_info) : local :=
  Local s (roc_list l) (hw_roc_start l) (hw_roc_done l) (hw_roc_start_time l) (roc_cookie_counter l) (tmp_channel l) (oper_channel l) (hw_channel l)
    (interfaces l) (conf_ps l) (offchannel_ps_enabled l) (dynamic_ps_timer l) (log l).
Definition set_rocs (l : local) (r : list roc) : local :=
  Local (scan l) r (hw_roc_start l) (hw_roc_done l) (hw_roc_start_time l) (roc_cookie_counter l) (tmp_channel l) (oper_channel l) (hw_channel l)
    (interfaces l) (conf_ps l) (offchannel_ps_enabled l) (dynamic_ps_timer l) (log l).
Definition set_roc_works (l : local) (start done : bool) (t : Z) : local :=
  Local (scan l) (roc_list l) start done t (roc_cookie_counter l) (tmp_channel l) (oper_channel l) (hw_channel l)
    (interfaces l) (conf_ps l) (offchannel_ps_enabled l) (dynamic_ps_timer l) (log l).
Definition set_counter (l : local) (n : Z) : local :=
  Local (scan l) (roc_list l) (hw_roc_start l) (hw_roc_done l) (hw_roc_start_time l) n (tmp_channel l) (oper_channel l) (hw_channel l)
    (interfaces l) (conf_ps l) (offchannel_ps_enabled l) (dynamic_ps_timer l) (log l).
Definition set_tmp (l : local) (c : option channel) : local :=
  Local (scan l) (roc_list l) (hw_roc_start l) (hw_roc_done l) (hw_roc_start_time l) (roc_cookie_counter l) c (oper_channel l) (hw_channel l)
    (interfaces l) (conf_ps l) (offchannel_ps_enabled l) (dynamic_ps_timer l) (log l).
Definition set_hw_channel (l : local) (c : channel) : local :=
  Local (scan l) (roc_list l) (hw_roc_start l) (hw_roc_done l) (hw_roc_start_time l) (roc_cookie_counter l) (tmp_channel l) (oper_channel l) c
    (interfaces l) (conf_ps l) (offchannel_ps_enabled l) (dynamic_ps_timer l) (log l).
Definition set_ifaces (l : local) (i : list iface) : local :=
  Local (scan l) (roc_list l) (hw_roc_start l) (hw_roc_done l) (hw_roc_start_time l) (roc_cookie_counter l) (tmp_channel l) (oper_channel l) (hw_channel l)
    i (conf_ps l) (offchannel_ps_enabled l) (dynamic_ps_timer l) (log l).
Definition set_ps (l : local) (conf enabled timer : bool) : local :=
  Local (scan l) (roc_list l) (hw_roc_start l) (hw_roc_done l) (hw_roc_start_time l) (roc_cookie_counter l) (tmp_channel l) (oper_channel l) (hw_channel l)
    (interfaces l) conf enabled timer (log l).
Definition emit (l : local) (e : event) : local :=
  Local (scan l) (roc_list l) (hw_roc_start l) (hw_roc_done l) (hw_roc_start_time l) (roc_cookie_counter l) (tmp_channel l) (oper_channel l) (hw_channel l)
    (interfaces l) (conf_ps l) (offchannel_ps_enabled l) (dynamic_ps_timer l) (log l ++ [e]).

(** The bits of [scanning]. *)
Definition set_bits (s : scan_info) (sw hwb on co ab : bool) : scan_info :=
  Scan sw hwb on co ab (scan_req s) (scan_sdata s) (hw_scan_req s) (hw_scan_band s) (scan_channel s) (scan_channel_idx s) (next_scan_state s)
    (leave_oper_channel_time s) (scan_work s).
Definition set_req (s : scan_info) (r : option request) (i : option nat) : scan_info :=
  Scan (sw_scanning s) (hw_scanning s) (onchannel_scanning s) (completed s) (aborted s) r i (hw_scan_req s) (hw_scan_band s) (scan_channel s)
    (scan_channel_idx s) (next_scan_state s) (leave_oper_channel_time s) (scan_work s).
Definition set_hw_req (s : scan_info) (r : option (list channel)) (b : nat) : scan_info :=
  Scan (sw_scanning s) (hw_scanning s) (onchannel_scanning s) (completed s) (aborted s) (scan_req s) (scan_sdata s) r b (scan_channel s)
    (scan_channel_idx s) (next_scan_state s) (leave_oper_channel_time s) (scan_work s).
Definition set_position (s : scan_info) (c : option channel) (idx : nat) (st : mac80211_scan_state) (t : Z) : scan_info :=
  Scan (sw_scanning s) (hw_scanning s) (onchannel_scanning s) (completed s) (aborted s) (scan_req s) (scan_sdata s) (hw_scan_req s) (hw_scan_band s) c
    idx st t (scan_work s).
Definition set_work (s : scan_info) (w : bool) : scan_info :=
  Scan (sw_scanning s) (hw_scanning s) (onchannel_scanning s) (completed s) (aborted s) (scan_req s) (scan_sdata s) (hw_scan_req s) (hw_scan_band s)
    (scan_channel s) (scan_channel_idx s) (next_scan_state s) (leave_oper_channel_time s) w.

Definition scanning (l : local) : bool :=
  let s := scan l in sw_scanning s || hw_scanning s || onchannel_scanning s || completed s || aborted s.
Definition queue_scan_work (l : local) : local := set_scan l (set_work (scan l) true).
Definition goto (l : local) (st : mac80211_scan_state) : local :=
  let s := scan l in set_scan l (set_position s (scan_channel s) (scan_channel_idx s) st (leave_oper_channel_time s)).

Definition upd_iface (l : local) (i : nat) (f : iface -> iface) : local := set_ifaces l (alter f i (interfaces l)).

(** Times are [unsigned long]. *)
Definition time_after (a b : Z) : bool := 2 ^ 63 <=? u64 (b - a).
Definition time_before (a b : Z) : bool := time_after b a.

Section Ops.
Context (h : hw) (e : env).

(** ** The radio *)

(** [ieee80211_hw_config]: the channel is that of the scan, of a ROC or the
    operating one; [changed] when the caller says so. *)
Definition ieee80211_hw_conf_chan (l : local) : channel :=
  match scan_channel (scan l) with Some c => c | None => match tmp_channel l with Some c => c | None => oper_channel l end end.

Definition ieee80211_hw_config (l : local) (changed : bool) : local * bool :=
  if use_chanctx h then (l, false)
  else
    let c := ieee80211_hw_conf_chan l in
    if changed || negb (bool_decide (c = hw_channel l)) then (emit (set_hw_channel l c) (Tune c), config_fails e c) else (l, false).

Definition hw_config (l : local) (changed : bool) : local := (ieee80211_hw_config l changed).1.

(** ** Leaving and coming back, [offchannel.c] *)

Definition ieee80211_offchannel_ps_enable (i : nat) (l : local) : local :=
  let l := set_ps l (conf_ps l) false false in
  let l := if conf_ps l then hw_config (set_ps l false true (dynamic_ps_timer l)) false else l in
  if negb (offchannel_ps_enabled l) || negb (ps_nullfunc_stack h) then emit l (Nullfunc i true) else l.

Definition ieee80211_offchannel_ps_disable (i : nat) (l : local) : local :=
  if negb (ps_sdata h) then emit l (Nullfunc i false)
  else if offchannel_ps_enabled l then hw_config (set_ps l true (offchannel_ps_enabled l) (dynamic_ps_timer l)) false
  else if 0 <? dynamic_ps_timeout h then set_ps (emit l (Nullfunc i false)) (conf_ps l) (offchannel_ps_enabled l) true
  else l.

(** A function over the interfaces, in turn. *)
Definition for_ifaces (f : nat -> iface -> local -> local) (l : local) : local :=
  fold_left (fun l i => match interfaces l !! i with Some t => f i t l | None => l end) (seq 0 (length (interfaces l))) l.

Definition set_off_channel (b : bool) (t : iface) : iface :=
  Iface (if_type t) (running t) (associated t) (tx_empty t) (beacon_int t) (polling t) (enable_beacon t) b (beacon_stopped t).
Definition set_beacon (on stopped : bool) (t : iface) : iface :=
  Iface (if_type t) (running t) (associated t) (tx_empty t) (beacon_int t) (polling t) on (off_channel t) stopped.

Definition leave_iface (i : nat) (t : iface) (l : local) : local :=
  if negb (running t) || bool_decide (if_type t = P2P_DEVICE) then l
  else
    let l := if negb (bool_decide (if_type t = MONITOR)) then upd_iface l i (set_off_channel true) else l in
    let l := if enable_beacon t then emit (upd_iface l i (set_beacon false true)) (Beacon i false) else l in
    if bool_decide (if_type t = STATION) && associated t then ieee80211_offchannel_ps_enable i l else l.

Definition ieee80211_offchannel_stop_vifs (l : local) : local := if use_chanctx h then l else for_ifaces leave_iface l.

Definition return_iface (i : nat) (t : iface) (l : local) : local :=
  if bool_decide (if_type t = P2P_DEVICE) then l
  else
    let l := if negb (bool_decide (if_type t = MONITOR)) then upd_iface l i (set_off_channel false) else l in
    if negb (running t) then l
    else
      let l := if bool_decide (if_type t = STATION) && associated t then ieee80211_offchannel_ps_disable i l else l in
      if beacon_stopped t then emit (upd_iface l i (set_beacon true false)) (Beacon i true) else l.

Definition ieee80211_offchannel_return (l : local) : local := if use_chanctx h then l else for_ifaces return_iface l.

(** ** Remaining on a channel *)

Definition set_notified (r : roc_info) (f : option Z) : roc_info :=
  Info (r_id r) (r_sdata r) (r_chan r) (started r) (abort r) (hw_begun r) true (hw_start_time r) (duration r) f (cookie r) (mgmt_tx_cookie r) (work r).
Definition set_started (r : roc_info) (w : work_state) : roc_info :=
  Info (r_id r) (r_sdata r) (r_chan r) true (abort r) (hw_begun r) (notified r) (hw_start_time r) (duration r) (frame r) (cookie r) (mgmt_tx_cookie r) w.
Definition set_roc_work (r : roc_info) (w : work_state) : roc_info :=
  Info (r_id r) (r_sdata r) (r_chan r) (started r) (abort r) (hw_begun r) (notified r) (hw_start_time r) (duration r) (frame r) (cookie r) (mgmt_tx_cookie r) w.
Definition set_abort (r : roc_info) : roc_info :=
  Info (r_id r) (r_sdata r) (r_chan r) (started r) true (hw_begun r) (notified r) (hw_start_time r) (duration r) (frame r) (cookie r) (mgmt_tx_cookie r) (work r).
Definition set_begun (r : roc_info) (t : Z) : roc_info :=
  Info (r_id r) (r_sdata r) (r_chan r) (started r) (abort r) true (notified r) t (duration r) (frame r) (cookie r) (mgmt_tx_cookie r) (work r).
Definition set_duration (r : roc_info) (d : Z) : roc_info :=
  Info (r_id r) (r_sdata r) (r_chan r) (started r) (abort r) (hw_begun r) (notified r) (hw_start_time r) d (frame r) (cookie r) (mgmt_tx_cookie r) (work r).
Definition set_cookie (r : roc_info) (c : Z) : roc_info :=
  Info (r_id r) (r_sdata r) (r_chan r) (started r) (abort r) (hw_begun r) (notified r) (hw_start_time r) (duration r) (frame r) c (mgmt_tx_cookie r) (work r).
Definition set_info (r : roc) (i : roc_info) : roc := Roc i (dependents r).

Definition ieee80211_handle_roc_started (l : local) (r : roc_info) : local * roc_info :=
  if notified r then (l, r)
  else if negb (mgmt_tx_cookie r =? 0) then
    match frame r with Some f => (emit l (FrameTx f), set_notified r None) | None => (l, set_notified r None) end
  else (emit l (Ready (r_id r) (cookie r)), set_notified r (frame r)).

(** Of several, in turn. *)
Fixpoint handle_all (l : local) (ds : list roc_info) : local * list roc_info :=
  match ds with
  | [] => (l, [])
  | d :: ds => let '(l, d) := ieee80211_handle_roc_started l d in let '(l, ds) := handle_all l ds in (l, d :: ds)
  end.

Definition notify_destroy_one (l : local) (r : roc_info) : local :=
  let l := match frame r with Some f => emit l (FrameStatus f) | None => l end in
  if mgmt_tx_cookie r =? 0 then emit l (Expired (r_id r) (cookie r)) else l.

Definition ieee80211_roc_notify_destroy (l : local) (r : roc) : local := fold_left notify_destroy_one (dependents r) (notify_destroy_one l (info r)).

(** ** Deferred scans and the next ROC *)

Definition ieee80211_can_scan (l : local) (i : nat) : bool :=
  bool_decide (roc_list l = []) &&
  match interfaces l !! i with Some t => negb (bool_decide (if_type t = STATION) && polling t) | None => true end.

Definition ieee80211_run_deferred_scan (l : local) : local :=
  match scan_req (scan l), scan_sdata (scan l) with
  | Some _, Some i => if scanning l then l else if ieee80211_can_scan l i then queue_scan_work l else l
  | _, _ => l
  end.

(** [queue_delayed_work] leaves a work alone that is pending. *)
Definition queue_roc (r : roc_info) (w : work_state) : roc_info := match work r with Idle => set_roc_work r w | _ => r end.

Definition ieee80211_remain_on_channel_expired (l : local) : local := set_roc_works l (hw_roc_start l) true (hw_roc_start_time l).

Definition ieee80211_start_next_roc (l : local) : local :=
  match roc_list l with
  | [] => ieee80211_run_deferred_scan l
  | r :: rs =>
      if started (info r) then l
      else if ops_roc h then
        let dur := if duration (info r) =? 0 then 10 else duration (info r) in
        let l := emit l (HwRoc (r_chan (info r)) dur) in
        let l := set_rocs l (set_info r (set_started (info r) (work (info r))) :: rs) in
        if negb (roc_rc e =? 0) then ieee80211_remain_on_channel_expired l else l
      else set_rocs l (set_info r (queue_roc (info r) (Timer (u64 (jiffies e + HZ h / 2)))) :: rs)
  end.

(** The end of [ieee80211_sw_roc_work], after [list_del]. *)
Definition finish_roc (l : local) (r : roc) : local :=
  let l := ieee80211_roc_notify_destroy l r in
  if started (info r) then ieee80211_start_next_roc (ieee80211_offchannel_return (hw_config (set_tmp l None) false)) else l.

Definition is_roc (id : nat) (r : roc) : bool := bool_decide (r_id (info r) = id).
Definition find_roc (l : local) (id : nat) : option roc := List.find (is_roc id) (roc_list l).
Definition list_del (l : local) (id : nat) : local := set_rocs l (List.filter (fun r => negb (is_roc id r)) (roc_list l)).
Definition upd_roc (l : local) (id : nat) (r' : roc) : local := set_rocs l ((fun r => if is_roc id r then r' else r) <$> roc_list l).

Definition ieee80211_sw_roc_work (l : local) (id : nat) : local :=
  match find_roc l id with
  | None => l
  | Some r =>
      let r := set_info r (set_roc_work (info r) Idle) in
      let l := upd_roc l id r in
      if abort (info r) then finish_roc (list_del l id) r
      else if match roc_list l with r0 :: _ => negb (is_roc id r0) | [] => true end then l
      else if negb (started (info r)) then
        let l := hw_config (set_tmp l (Some (r_chan (info r)))) false in
        let '(l, i) := ieee80211_handle_roc_started l (info r) in
        let '(l, ds) := handle_all l (dependents r) in
        let r := Roc i ds in
        if duration i =? 0 then finish_roc (list_del l id) r
        else upd_roc l id (set_info r (set_started i (Timer (u64 (jiffies e + msecs_to_jiffies h (duration i))))))
      else finish_roc (list_del l id) r
  end.

(** The driver says that a ROC it does began. *)
Definition ieee80211_ready_on_channel (l : local) : local := set_roc_works l true (hw_roc_done l) (jiffies e).

(** The dependents of a ROC the driver began: those that last longer go to the
    list, with what is left of their time. *)
Fixpoint begin_dependents (l : local) (dur : Z) (ds : list roc_info) : local * Z * list roc_info * list roc :=
  match ds with
  | [] => (l, dur, [], [])
  | d :: ds =>
      let '(l, d) := ieee80211_handle_roc_started l d in
      let '(dur, moved, d) := if dur <? duration d then (duration d, true, set_duration d (duration d - dur)) else (dur, false, d) in
      let '(l, dur, keep, out) := begin_dependents l dur ds in
      if moved : bool then (l, dur, keep, out ++ [Roc d []]) else (l, dur, d :: keep, out)
  end.

Definition ieee80211_hw_roc_start (l : local) : local :=
  let l := set_roc_works l false (hw_roc_done l) (hw_roc_start_time l) in
  match roc_list l with
  | [] => l
  | r :: rs =>
      if negb (started (info r)) then l
      else
        let '(l, i) := ieee80211_handle_roc_started l (set_begun (info r) (hw_roc_start_time l)) in
        let '(l, dur, keep, out) := begin_dependents l (duration i) (dependents r) in
        set_rocs l (Roc (set_duration i dur) keep :: out ++ rs)
  end.

Definition ieee80211_hw_roc_done (l : local) : local :=
  let l := set_roc_works l (hw_roc_start l) false (hw_roc_start_time l) in
  match roc_list l with
  | [] => l
  | r :: rs => if negb (started (info r)) then l else ieee80211_start_next_roc (ieee80211_roc_notify_destroy (set_rocs l rs) r)
  end.

(** The interface [i] goes down: its ROCs leave the list, then each is ended,
    those in software by their work, which is waited for. *)
Definition ieee80211_roc_purge (l : local) (i : nat) : local :=
  let mine := List.filter (fun r => bool_decide (r_sdata (info r) = i)) (roc_list l) in
  let l := set_rocs l (List.filter (fun r => negb (bool_decide (r_sdata (info r) = i))) (roc_list l)) in
  if ops_roc h then
    let l := fold_left (fun l r => if started (info r) then emit l CancelHwRoc else l) mine l in
    fold_left ieee80211_roc_notify_destroy mine l
  else fold_left finish_roc mine l.

(** ** A new ROC, [cfg.c] *)

(** The first ROC for this channel and interface, with its place. *)
Fixpoint same_roc (c : channel) (i : nat) (rs : list roc) (n : nat) : option (nat * roc) :=
  match rs with
  | [] => None
  | r :: rs => if bool_decide (r_chan (info r) = c /\ r_sdata (info r) = i) then Some (n, r) else same_roc c i rs (Datatypes.S n)
  end.

Definition IEEE80211_ROC_MIN_LEFT : Z := if HZ h / 100 =? 0 then 1 else HZ h / 100.

(** The list of ROCs with a new one joined to the one at [n]; [None] when it
    could not be joined. *)
Definition combine_roc (l : local) (r : roc_info) (n : nat) (tmp : roc) : option local :=
  let ti := info tmp in
  let put t := set_rocs l (<[n := t]> (roc_list l)) in
  let join i ds := Roc i (dependents tmp ++ ds) in
  if negb (started ti) then Some (put (join (set_duration ti (Z.max (duration ti) (duration r))) [r]))
  else if ops_roc h then
    if negb (hw_begun ti) then Some (put (join ti [r]))
    else
      let fin := u64 (hw_start_time ti + msecs_to_jiffies h (duration ti)) in
      if time_before (u64 (jiffies e + IEEE80211_ROC_MIN_LEFT)) fin then
        let '(l, r) := ieee80211_handle_roc_started l r in
        let new_dur := s32 (duration r - jiffies_to_msecs h (u64 (fin - jiffies e))) in
        if 0 <? new_dur then Some (set_rocs l (take (Datatypes.S n) (roc_list l) ++ [Roc r []] ++ drop (Datatypes.S n) (roc_list l)))
        else Some (set_rocs l (<[n := join ti [r]]> (roc_list l)))
      else None
  else
    match work ti with
    | Timer expires =>
        let new_end := u64 (jiffies e + msecs_to_jiffies h (duration r)) in
        let ti := set_roc_work ti (Timer (if time_after new_end expires then new_end else expires)) in
        let '(l, r) := ieee80211_handle_roc_started l r in
        Some (set_rocs l (<[n := Roc ti (dependents tmp ++ [r])]> (roc_list l)))
    | _ => None
    end.

(** The cookie goes into the object, wherever it was put. *)
Definition cookie_in (id : nat) (c : Z) (r : roc) : roc :=
  let f i := if bool_decide (r_id i = id) then set_cookie i c else i in Roc (f (info r)) (f <$> dependents r).

Definition give_cookie (l : local) (id : nat) : local * Z :=
  let n := u64 (roc_cookie_counter l + 1) in
  let '(c, n) := if n =? 0 then (1, 1) else (n, n) in
  (set_rocs (set_counter l n) (cookie_in id c <$> roc_list l), c).

Definition new_roc (id i : nat) (c : channel) (dur : Z) (txskb : option Z) : roc_info :=
  Info id i c false false false false 0 dur txskb 0 (default 0 txskb) Idle.

(** [ieee80211_start_roc_work]: the error and the cookie. *)
Definition ieee80211_start_roc_work (l : local) (id i : nat) (c : channel) (dur : Z) (txskb : option Z) : local * Z * Z :=
  if use_chanctx h && negb (ops_roc h) then (l, - EOPNOTSUPP, 0)
  else if negb (alloc_ok e) then (l, - ENOMEM, 0)
  else
    let r := new_roc id i c dur txskb in
    let finish l := match txskb with None => let '(l, ck) := give_cookie l id in (l, 0, ck) | Some f => (l, 0, f) end in
    let append l r := set_rocs l (roc_list l ++ [Roc r []]) in
    if negb (bool_decide (roc_list l = [])) || scanning l then
      match same_roc c i (roc_list l) 0 with
      | None => finish (append l r)
      | Some (n, tmp) => finish (default (append l r) (combine_roc l r n tmp))
      end
    else if negb (ops_roc h) then finish (append l (set_roc_work r Queued))
    else
      let d := if dur =? 0 then 10 else dur in
      let l := emit l (HwRoc c d) in
      if negb (roc_rc e =? 0) then (l, roc_rc e, 0) else finish (append l (set_started r Idle)).

(** What [ieee80211_cancel_roc] looks for. *)
Definition cancels (ck : Z) (mgmt_tx : bool) (r : roc_info) : bool := if mgmt_tx then mgmt_tx_cookie r =? ck else cookie r =? ck.

Inductive found := FoundDep (r : roc) (d : roc_info) | FoundRoc (r : roc).

Fixpoint find_cancel (ck : Z) (mgmt_tx : bool) (rs : list roc) : option found :=
  match rs with
  | [] => None
  | r :: rs =>
      match List.find (cancels ck mgmt_tx) (dependents r) with
      | Some d => Some (FoundDep r d)
      | None => if cancels ck mgmt_tx (info r) then Some (FoundRoc r) else find_cancel ck mgmt_tx rs
      end
  end.

(** In software the work, which sees [abort], is queued and waited for. *)
Definition ieee80211_cancel_roc (l : local) (ck : Z) (mgmt_tx : bool) : local * Z :=
  match find_cancel ck mgmt_tx (roc_list l) with
  | None => (l, - ENOENT)
  | Some (FoundDep r d) =>
      let r' := Roc (info r) (List.filter (fun x => negb (bool_decide (r_id x = r_id d))) (dependents r)) in
      (notify_destroy_one (upd_roc l (r_id (info r)) r') d, 0)
  | Some (FoundRoc r) =>
      if ops_roc h then
        let l := if started (info r) then emit l CancelHwRoc else l in
        if started (info r) && negb (cancel_rc e =? 0) then (l, cancel_rc e)
        else
          let l := list_del l (r_id (info r)) in
          let l := if started (info r) then ieee80211_start_next_roc l else l in
          (ieee80211_roc_notify_destroy l r, 0)
      else
        let r := set_info r (queue_roc (set_abort (info r)) Queued) in
        (ieee80211_sw_roc_work (upd_roc l (r_id (info r)) r) (r_id (info r)), 0)
  end.

(** ** Scanning, [scan.c] *)

Definition IEEE80211_PROBE_DELAY : Z := HZ h / 33.
Definition IEEE80211_CHANNEL_TIME : Z := HZ h / 33.
Definition IEEE80211_PASSIVE_CHANNEL_TIME : Z := HZ h / 8.

(** The channels of the next band that has some. *)
Fixpoint next_band (chs : list channel) (fuel b : nat) : option (list channel * nat) :=
  match fuel with
  | O => None
  | Datatypes.S fuel =>
      if bool_decide (b = IEEE80211_NUM_BANDS) then None
      else match List.filter (fun c => bool_decide (band c = b)) chs with [] => next_band chs fuel (Datatypes.S b) | l => Some (l, Datatypes.S b) end
  end.

(** [false] when no band is left. *)
Definition ieee80211_prep_hw_scan (l : local) : option (local * bool) :=
  rq ← scan_req (scan l);
  Some (match next_band (channels rq) (Datatypes.S IEEE80211_NUM_BANDS - hw_scan_band (scan l)) (hw_scan_band (scan l)) with
        | Some (cs, b) => (set_scan l (set_hw_req (scan l) (Some cs) b), true)
        | None => (set_scan l (set_hw_req (scan l) (hw_scan_req (scan l)) IEEE80211_NUM_BANDS), false)
        end).

Definition drv_hw_scan (l : local) : local := emit l (HwScan (default [] (hw_scan_req (scan l)))).

Definition __ieee80211_scan_completed (l : local) (ab was_hw_scan : bool) : option local :=
  let ab := if negb (scanning l) && negb ab then true else ab in
  match scan_req (scan l) with
  | None => Some l
  | Some rq =>
      '(l, more) ← (if was_hw_scan && negb ab then ieee80211_prep_hw_scan l else Some (l, false));
      let l := if more : bool then drv_hw_scan l else l in
      if more && (hw_scan_rc e =? 0) then Some l
      else
        let l := set_scan l (set_hw_req (scan l) None (hw_scan_band (scan l))) in
        let l := if internal rq then l else emit l (ScanDone (rq_id rq) ab) in
        let l := set_scan l (set_bits (set_req (scan l) None None) false false false false false) in
        let s := scan l in
        let l := set_scan l (set_position s None (scan_channel_idx s) (next_scan_state s) (leave_oper_channel_time s)) in
        let l := hw_config l false in
        let l := if was_hw_scan then l else ieee80211_offchannel_return l in
        Some (ieee80211_start_next_roc l)
  end.

(** The driver says that its scan is over. *)
Definition ieee80211_scan_completed (l : local) (ab : bool) : local :=
  let s := scan l in
  queue_scan_work (set_scan l (set_bits s (sw_scanning s) (hw_scanning s) (onchannel_scanning s) true (aborted s || ab))).

Definition ieee80211_start_sw_scan (l : local) : local * Z :=
  if use_chanctx h then (l, - EOPNOTSUPP)
  else
    let l := set_scan l (set_position (scan l) (scan_channel (scan l)) 0 SCAN_DECISION (jiffies e)) in
    (queue_scan_work (hw_config (ieee80211_offchannel_stop_vifs l) false), 0).

(** A probe request for each SSID, on the channel the radio is on. *)
Definition ieee80211_scan_state_send_probe (l : local) (rq : request) : local * Z :=
  (goto (fold_left (fun l _ => emit l (Probe (hw_channel l))) (seq 0 (n_ssids rq)) l) SCAN_DECISION, IEEE80211_CHANNEL_TIME).

Definition __ieee80211_start_scan (l : local) (i : nat) (rq : request) : option (local * Z) :=
  if bool_decide (scan_req (scan l) <> None) then Some (l, - EBUSY)
  else if negb (ieee80211_can_scan l i) then Some (set_scan l (set_req (scan l) (Some rq) (Some i)), 0)
  else if ops_hw_scan h && negb (alloc_ok e) then Some (l, - ENOMEM)
  else
    let l := if ops_hw_scan h then set_scan l (set_hw_req (scan l) (Some []) 0) else l in
    let l := set_scan l (set_req (scan l) (Some rq) (Some i)) in
    let s := scan l in
    let bits sw hwb on := set_scan l (set_bits s (sw_scanning s || sw) (hw_scanning s || hwb) (onchannel_scanning s || on) (completed s) (aborted s)) in
    let undo (l : local) : local :=
      set_scan l (set_req (set_bits (set_hw_req (scan l) None (hw_scan_band (scan l))) false false false false false) None None) in
    if ops_hw_scan h then
      '(l, _) ← ieee80211_prep_hw_scan (bits false true false);
      let l := drv_hw_scan l in
      Some (if negb (hw_scan_rc e =? 0) then (undo l, hw_scan_rc e) else (l, 0))
    else
      match channels rq with
      | [c] =>
          if bool_decide (c = oper_channel l) then
            let l := hw_config (bits false false true) false in
            let l := if passive c || bool_decide (n_ssids rq = 0%nat) then l else (ieee80211_scan_state_send_probe l rq).1 in
            Some (queue_scan_work l, 0)
          else let '(l, rc) := ieee80211_start_sw_scan (bits true false false) in Some (if negb (rc =? 0) then (undo l, rc) else (l, 0))
      | _ => let '(l, rc) := ieee80211_start_sw_scan (bits true false false) in Some (if negb (rc =? 0) then (undo l, rc) else (l, 0))
      end.

Definition ieee80211_scan_get_channel_time (c : channel) : Z :=
  if passive c then IEEE80211_PASSIVE_CHANNEL_TIME else IEEE80211_PROBE_DELAY + IEEE80211_CHANNEL_TIME.

(** The interfaces up to the first that has frames to send: whether one is
    associated, none has frames, and the least beacon interval. *)
Fixpoint look_at_ifaces (ifs : list iface) (assoc : bool) (bi : Z) : bool * bool * Z :=
  match ifs with
  | [] => (assoc, true, bi)
  | t :: ifs =>
      if running t && bool_decide (if_type t = STATION) && associated t then
        let bi := if (beacon_int t <? bi) || (bi =? 0) then beacon_int t else bi in
        if tx_empty t then look_at_ifaces ifs true bi else (true, false, bi)
      else look_at_ifaces ifs assoc bi
  end.

Definition ieee80211_scan_state_decision (l : local) (rq : request) : option local :=
  let '(assoc, tx_empty, bi) := look_at_ifaces (interfaces l) false 0 in
  c ← channels rq !! scan_channel_idx (scan l);
  let at_ := u64 (jiffies e + ieee80211_scan_get_channel_time c) in
  let leave := leave_oper_channel_time (scan l) in
  let bad_latency := time_after at_ (u64 (leave + usecs_to_jiffies h (latency e))) in
  let listen_int_exceeded := time_after at_ (u64 (leave + usecs_to_jiffies h (bi * 1024) * listen_interval h)) in
  Some (goto l
    (if assoc && negb tx_empty then (if low_priority rq then SCAN_ABORT else SCAN_SUSPEND)
     else if assoc && (bad_latency || listen_int_exceeded) then SCAN_SUSPEND
     else SCAN_SET_CHANNEL)).

Definition ieee80211_scan_state_set_channel (l : local) (rq : request) (next_delay : Z) : option (local * Z) :=
  c ← channels rq !! scan_channel_idx (scan l);
  let s := scan l in
  let l := set_scan l (set_position s (Some c) (scan_channel_idx s) (next_scan_state s) (leave_oper_channel_time s)) in
  let '(l, skip) := ieee80211_hw_config l true in
  let s := scan l in
  let advance st := set_scan l (set_position s (scan_channel s) (Datatypes.S (scan_channel_idx s)) st (leave_oper_channel_time s)) in
  Some (if skip : bool then (advance SCAN_DECISION, next_delay)
        else if passive c || bool_decide (n_ssids rq = 0%nat) then (advance SCAN_DECISION, IEEE80211_PASSIVE_CHANNEL_TIME)
        else (advance SCAN_SEND_PROBE, IEEE80211_PROBE_DELAY)).

Definition ieee80211_scan_state_suspend (l : local) : local * Z :=
  let s := scan l in
  let l := set_scan l (set_position s None (scan_channel_idx s) (next_scan_state s) (leave_oper_channel_time s)) in
  (goto (ieee80211_offchannel_return (hw_config l true)) SCAN_RESUME, HZ h / 5).

Definition ieee80211_scan_state_resume (l : local) : local * Z :=
  let l := ieee80211_offchannel_stop_vifs l in
  let s := scan l in
  (set_scan l (set_position s (scan_channel s) (scan_channel_idx s) SCAN_SET_CHANNEL (jiffies e)), if ops_flush h then 0 else HZ h / 10).

(** How the loop of the work ends: the scan is complete, or goes on later. *)
Inductive outcome := Complete (ab : bool) | Later (next_delay : Z).

Definition scan_step (l : local) (rq : request) (next_delay : Z) : option (local * outcome) :=
  match next_scan_state (scan l) with
  | SCAN_DECISION =>
      if bool_decide (length (channels rq) <= scan_channel_idx (scan l))%nat then Some (l, Complete false)
      else l ← ieee80211_scan_state_decision l rq; Some (l, Later 0)
  | SCAN_SET_CHANNEL => '(l, d) ← ieee80211_scan_state_set_channel l rq next_delay; Some (l, Later d)
  | SCAN_SEND_PROBE => let '(l, d) := ieee80211_scan_state_send_probe l rq in Some (l, Later d)
  | SCAN_SUSPEND => let '(l, d) := ieee80211_scan_state_suspend l in Some (l, Later d)
  | SCAN_RESUME => let '(l, d) := ieee80211_scan_state_resume l in Some (l, Later d)
  | SCAN_ABORT => Some (l, Complete true)
  end.

Definition sdata_running (l : local) (i : nat) : bool := match interfaces l !! i with Some t => running t | None => false end.

Fixpoint scan_loop (fuel : nat) (i : nat) (rq : request) (l : local) (next_delay : Z) : option (local * outcome) :=
  match fuel with
  | O => None
  | Datatypes.S fuel =>
      if negb (sdata_running l i) then Some (l, Complete true)
      else
        '(l, o) ← scan_step l rq next_delay;
        match o with
        | Complete ab => Some (l, Complete ab)
        | Later d => if d =? 0 then scan_loop fuel i rq l d else Some (l, Later d)
        end
  end.

(** Enough steps to get through the channels that are left. *)
Definition scan_fuel (l : local) (rq : request) : nat := Datatypes.S (Datatypes.S (5 * (Datatypes.S (length (channels rq)) - scan_channel_idx (scan l)))).

Definition ieee80211_scan_work (l : local) : option local :=
  let l := set_scan l (set_work (scan l) false) in
  let s := scan l in
  let complete (l : local) ab := __ieee80211_scan_completed l ab (hw_scanning (scan l)) in
  let no_aborted (l : local) co := let s := scan l in set_scan l (set_bits s (sw_scanning s) (hw_scanning s) (onchannel_scanning s) co false) in
  if onchannel_scanning s then complete (no_aborted l (completed s)) (aborted s)
  else if completed s then complete (no_aborted l false) (aborted s)
  else
    match scan_sdata s, scan_req s with
    | Some i, Some rq =>
        if negb (scanning l) then
          '(l, rc) ← __ieee80211_start_scan (set_scan l (set_req s None None)) i rq;
          if negb (rc =? 0) then complete (set_scan l (set_req (scan l) (Some rq) (scan_sdata (scan l)))) true else Some l
        else if negb (sdata_running l i) then complete l true
        else
          '(l, o) ← scan_loop (scan_fuel l rq) i rq l 0;
          match o with Complete ab => complete l ab | Later _ => Some (queue_scan_work l) end
    | _, _ => Some l
    end.

(** The channels of an IBSS scan: one, or all that allow it. *)
Definition ibss_channels (bands : list (list channel)) (c : option channel) : list channel :=
  let may c := negb (no_ibss c || disabled c) in
  match c with None => List.filter may (concat bands) | Some c => if may c then [c] else [] end.

Definition ieee80211_request_ibss_scan (l : local) (i : nat) (id : nat) (bands : list (list channel)) (c : option channel) : option (local * Z) :=
  if bool_decide (scan_req (scan l) <> None) then Some (l, - EBUSY)
  else match ibss_channels bands c with [] => Some (l, - EBUSY) | cs => __ieee80211_start_scan l i (Req id cs 1 false true) end.

(** [has_cancel]: [ops->cancel_hw_scan] is given. *)
Definition ieee80211_scan_cancel (l : local) (has_cancel : bool) : option local :=
  match scan_req (scan l) with
  | None => Some l
  | Some _ =>
      if hw_scanning (scan l) then Some (if has_cancel then emit l CancelHwScan else l)
      else __ieee80211_scan_completed (set_scan l (set_work (scan l) false)) true false
  end.
End Ops.

(** ** Runs *)

Inductive op :=
  | OScan (i : nat) (rq : request) | OIbssScan (i id : nat) (bands : list (list channel)) (c : option channel) | OScanCancel (has_cancel : bool)
  | OHwScanDone (ab : bool) | OScanWork | ODeferred
  | ORoc (id i : nat) (c : channel) (dur : Z) (txskb : option Z) | OCancel (ck : Z) (mgmt_tx : bool)
  | ORocWork (id : nat) | OReady | OHwRocStart | OExpired | OHwRocDone
  | ODown (i : nat) (has_cancel : bool) | OIface (i : nat) (t : iface).

(** [ieee80211_do_stop], what it does here. *)
Definition ieee80211_do_stop (h : hw) (e : env) (l : local) (i : nat) (has_cancel : bool) : option local :=
  let l := upd_iface l i (fun t => Iface (if_type t) false (associated t) (tx_empty t) (beacon_int t) (polling t) (enable_beacon t) (off_channel t) (beacon_stopped t)) in
  l ← (if bool_decide (scan_sdata (scan l) = Some i) then ieee80211_scan_cancel h e l has_cancel else Some l);
  Some (ieee80211_roc_purge h e l i).

(** Works run when they are pending; mlme changes what it owns of an interface. *)
Definition step (h : hw) (x : env * op) (l : local) : option local :=
  let '(e, o) := x in
  match o with
  | OScan i rq => fst <$> __ieee80211_start_scan h e l i rq
  | OIbssScan i id bands c => fst <$> ieee80211_request_ibss_scan h e l i id bands c
  | OScanCancel b => ieee80211_scan_cancel h e l b
  | OHwScanDone ab => Some (ieee80211_scan_completed l ab)
  | OScanWork => if scan_work (scan l) then ieee80211_scan_work h e l else Some l
  | ODeferred => Some (ieee80211_run_deferred_scan l)
  | ORoc id i c dur txskb => Some (ieee80211_start_roc_work h e l id i c dur txskb).1.1
  | OCancel ck m => Some (ieee80211_cancel_roc h e l ck m).1
  | ORocWork id => Some (match find_roc l id with Some r => match work (info r) with Idle => l | _ => ieee80211_sw_roc_work h e l id end | None => l end)
  | OReady => Some (ieee80211_ready_on_channel e l)
  | OHwRocStart => Some (if hw_roc_start l then ieee80211_hw_roc_start l else l)
  | OExpired => Some (ieee80211_remain_on_channel_expired l)
  | OHwRocDone => Some (if hw_roc_done l then ieee80211_hw_roc_done h e l else l)
  | ODown i b => ieee80211_do_stop h e l i b
  | OIface i t => Some (upd_iface l i (fun old => Iface (if_type old) (running t) (associated t) (tx_empty t) (beacon_int t) (polling t) (enable_beacon old) (off_channel old) (beacon_stopped old)))
  end.

Fixpoint run (h : hw) (os : list (env * op)) (l : local) : option local :=
  match os with [] => Some l | o :: os => l ← step h o l; run h os l end.

(** ** Lemmas: what goes on quietly *)

(** Events that answer nobody. *)
Definition quiet_event (ev : event) : bool := match ev with Tune _ | Nullfunc _ _ | Beacon _ _ | HwRoc _ _ | CancelHwScan | CancelHwRoc => true | _ => false end.

Definition if_sees (t : iface) : iftype * bool * bool := (if_type t, running t, polling t).

(** Only interfaces, power save and the radio change. *)
Record quiet (l l' : local) : Prop := Quiet {
  q_scan : scan l' = scan l; q_rocs : roc_list l' = roc_list l; q_tmp : tmp_channel l' = tmp_channel l; q_oper : oper_channel l' = oper_channel l;
  q_ifs : if_sees <$> interfaces l' = if_sees <$> interfaces l;
  q_log : exists evs, log l' = log l ++ evs /\ forallb quiet_event evs = true }.

Lemma quiet_refl l : quiet l l.
Proof. constructor; try done; exists []; by rewrite app_nil_r. Qed.

Lemma quiet_trans l1 l2 l3 : quiet l1 l2 -> quiet l2 l3 -> quiet l1 l3.
Proof.
  intros [A1 A2 A4 A5 A6 (e1 & A7 & A8)] [B1 B2 B4 B5 B6 (e2 & B7 & B8)]; constructor; try congruence.
  exists (e1 ++ e2); rewrite B7, A7, app_assoc, forallb_app, A8, B8; done.
Qed.

Lemma quiet_emit l ev : quiet_event ev = true -> quiet l (emit l ev).
Proof. intros He; constructor; try done; exists [ev]; cbn; by rewrite He. Qed.

Lemma quiet_iface l i f : (forall t, if_sees (f t) = if_sees t) -> quiet l (upd_iface l i f).
Proof.
  intros Hf; constructor; try done; [|exists []; by rewrite app_nil_r]; cbn; apply list_eq; intros j; rewrite !list_lookup_fmap.
  destruct (decide (i = j)) as [->|Hne]; [|by rewrite list_lookup_alter_ne]; rewrite list_lookup_alter_eq; destruct (interfaces l !! j); cbn; by rewrite ?Hf.
Qed.

Section Quiet.
Context (h : hw) (e : env).

Lemma hw_config_quiet l b : quiet l (hw_config h e l b).
Proof.
  unfold hw_config, ieee80211_hw_config; destruct (use_chanctx h); [apply quiet_refl|]; destruct (_ || _); [|apply quiet_refl].
  constructor; try done; by exists [Tune (ieee80211_hw_conf_chan l)].
Qed.

(** The radio is where the scan, the ROC or the operating channel say. *)
Definition tuned l : Prop := use_chanctx h = false -> hw_channel l = ieee80211_hw_conf_chan l.

Lemma hw_config_tuned l b : tuned (hw_config h e l b).
Proof.
  intros Hc; unfold hw_config, ieee80211_hw_config; rewrite Hc; destruct b; cbn [orb fst]; [done|].
  case_bool_decide as Hh; cbn [negb]; done.
Qed.

Lemma tuned_same l l' : tuned l -> hw_channel l' = hw_channel l -> ieee80211_hw_conf_chan l' = ieee80211_hw_conf_chan l -> tuned l'.
Proof. intros Ht A B Hc; rewrite A, B; by apply Ht. Qed.

Lemma ps_enable_quiet i l : tuned l -> quiet l (ieee80211_offchannel_ps_enable h e i l) /\ tuned (ieee80211_offchannel_ps_enable h e i l).
Proof.
  intros Ht; unfold ieee80211_offchannel_ps_enable; cbn zeta.
  set (l1 := if conf_ps _ then _ else _); assert (H1 : quiet l l1 /\ tuned l1).
  { unfold l1; cbn [set_ps conf_ps]; destruct (conf_ps l); [|split; [constructor; try done; exists []; by rewrite app_nil_r|done]].
    split; [eapply quiet_trans; [|apply hw_config_quiet]; constructor; try done; exists []; by rewrite app_nil_r|apply hw_config_tuned]. }
  destruct H1 as [H1 H2]; destruct (_ || _); [|done]; split; [eapply quiet_trans; [exact H1|by apply quiet_emit]|done].
Qed.

Lemma ps_disable_quiet i l : tuned l -> quiet l (ieee80211_offchannel_ps_disable h e i l) /\ tuned (ieee80211_offchannel_ps_disable h e i l).
Proof.
  intros Ht; unfold ieee80211_offchannel_ps_disable; destruct (ps_sdata h); cbn [negb]; [|split; [by apply quiet_emit|done]].
  destruct (offchannel_ps_enabled l); [split; [eapply quiet_trans; [|apply hw_config_quiet]; constructor; try done; exists []; by rewrite app_nil_r|apply hw_config_tuned]|].
  destruct (0 <? _); [|split; [apply quiet_refl|done]]; split; [|done]; constructor; try done; by exists [Nullfunc i false].
Qed.

Lemma leave_iface_quiet i t l : tuned l -> quiet l (leave_iface h e i t l) /\ tuned (leave_iface h e i t l).
Proof.
  intros Ht; unfold leave_iface; destruct (_ || _); [split; [apply quiet_refl|done]|]; cbn zeta; set (l1 := if negb _ then _ else l).
  assert (H1 : quiet l l1 /\ tuned l1) by (unfold l1; destruct (negb _); split; try done; [by apply quiet_iface|apply quiet_refl]).
  set (l2 := if enable_beacon t then _ else l1); assert (H2 : quiet l1 l2 /\ tuned l2).
  { unfold l2; destruct (enable_beacon t); [|split; [apply quiet_refl|apply H1]]; split; [apply (quiet_trans _ (upd_iface l1 i (set_beacon false true))); [by apply quiet_iface|by apply quiet_emit]|exact (proj2 H1)]. }
  destruct H1 as [H1 _], H2 as [H2 H3]; pose proof (quiet_trans _ _ _ H1 H2) as H4; destruct (_ && _); [|done].
  destruct (ps_enable_quiet i l2 H3); split; [by eapply quiet_trans|done].
Qed.

Lemma return_iface_quiet i t l : tuned l -> quiet l (return_iface h e i t l) /\ tuned (return_iface h e i t l).
Proof.
  intros Ht; unfold return_iface; destruct (bool_decide (if_type t = P2P_DEVICE)); [split; [apply quiet_refl|done]|]; cbn zeta; set (l1 := if negb _ then _ else l).
  assert (H1 : quiet l l1 /\ tuned l1) by (unfold l1; destruct (negb _); split; try done; [by apply quiet_iface|apply quiet_refl]).
  destruct (negb (running t)); [done|]; set (l2 := if _ && _ then _ else l1); assert (H2 : quiet l l2 /\ tuned l2).
  { unfold l2; destruct (_ && _); [|done]; destruct H1 as [H1 H1']; destruct (ps_disable_quiet i l1 H1'); split; [by eapply quiet_trans|done]. }
  destruct (beacon_stopped t); [|done]; destruct H2 as [H2 H3]; split; [|done]; eapply quiet_trans; [exact H2|]; apply (quiet_trans _ (upd_iface l2 i (set_beacon true false))); [by apply quiet_iface|by apply quiet_emit].
Qed.

Lemma for_ifaces_quiet f l : (forall i t l, tuned l -> quiet l (f i t l) /\ tuned (f i t l)) -> tuned l -> quiet l (for_ifaces f l) /\ tuned (for_ifaces f l).
Proof.
  intros Hf Ht; unfold for_ifaces; generalize (seq 0 (length (interfaces l))) as is_; intros is_; revert l Ht.
  induction is_ as [|i is_ IH]; intros l Ht; cbn [fold_left]; [split; [apply quiet_refl|done]|].
  assert (H1 : quiet l (match interfaces l !! i with Some t => f i t l | None => l end) /\ tuned (match interfaces l !! i with Some t => f i t l | None => l end))
    by (destruct (interfaces l !! i); [by apply Hf|split; [apply quiet_refl|done]]).
  destruct H1 as [H1 H2], (IH _ H2) as [H3 H4]; split; [by eapply quiet_trans|done].
Qed.

Lemma stop_vifs_quiet l : tuned l -> quiet l (ieee80211_offchannel_stop_vifs h e l) /\ tuned (ieee80211_offchannel_stop_vifs h e l).
Proof.
  intros Ht; unfold ieee80211_offchannel_stop_vifs; destruct (use_chanctx h); [split; [apply quiet_refl|done]|].
  apply for_ifaces_quiet; [apply leave_iface_quiet|done].
Qed.

Lemma return_quiet l : tuned l -> quiet l (ieee80211_offchannel_return h e l) /\ tuned (ieee80211_offchannel_return h e l).
Proof.
  intros Ht; unfold ieee80211_offchannel_return; destruct (use_chanctx h); [split; [apply quiet_refl|done]|].
  apply for_ifaces_quiet; [apply return_iface_quiet|done].
Qed.
End Quiet.

(** ** Lemmas: who is answered *)

(** What is asked for and has to be answered once. *)
Inductive ask := AScan (id : nat) | AFrame (f : Z) | ARoc (id : nat).

Definition answer (ev : event) : option ask :=
  match ev with
  | ScanDone id _ => Some (AScan id)
  | FrameTx f | FrameStatus f => Some (AFrame f)
  | Expired id _ => Some (ARoc id)
  | _ => None
  end.

Definition held (r : roc_info) : list ask := option_list (AFrame <$> frame r) ++ (if mgmt_tx_cookie r =? 0 then [ARoc (r_id r)] else []).
Definition infos (rs : list roc) : list roc_info := rs ≫= (fun r => info r :: dependents r).
Definition pending (s : scan_info) : list ask :=
  match scan_req s with Some rq => if internal rq then [] else [AScan (rq_id rq)] | None => [] end.

(** What was answered and what waits for its answer. *)
Definition ledger (l : local) : list ask := omap answer (log l) ++ pending (scan l) ++ (infos (roc_list l) ≫= held).

Definition probe_ok (ev : event) : bool := match ev with Probe c => negb (passive c) | _ => true end.

Definition app_log (l : local) (evs : list event) : local :=
  Local (scan l) (roc_list l) (hw_roc_start l) (hw_roc_done l) (hw_roc_start_time l) (roc_cookie_counter l) (tmp_channel l) (oper_channel l) (hw_channel l)
    (interfaces l) (conf_ps l) (offchannel_ps_enabled l) (dynamic_ps_timer l) (log l ++ evs).

Lemma emit_app l ev : emit l ev = app_log l [ev]. Proof. done. Qed.
Lemma app_log_app l a b : app_log (app_log l a) b = app_log l (a ++ b). Proof. unfold app_log; cbn; by rewrite app_assoc. Qed.
Lemma app_log_nil l : app_log l [] = l. Proof. destruct l; unfold app_log; cbn; by rewrite app_nil_r. Qed.

Lemma quiet_answers evs : forallb quiet_event evs = true -> omap answer evs = [] /\ forallb probe_ok evs = true.
Proof. induction evs as [|ev evs IH]; [done|]; cbn [forallb]; intros [H1 H2]%andb_true_iff; destruct (IH H2) as [E1 E2]; destruct ev; done. Qed.

Lemma quiet_ledger l l' : quiet l l' -> ledger l' = ledger l.
Proof.
  intros [A B _ _ _ (evs & E & Hq)]; unfold ledger; rewrite A, B, E, omap_app; destruct (quiet_answers evs Hq) as [-> _]; by rewrite app_nil_r.
Qed.

Definition probes_ok (l : local) : Prop := forallb probe_ok (log l) = true.

Lemma quiet_probes l l' : quiet l l' -> probes_ok l -> probes_ok l'.
Proof. intros [_ _ _ _ _ (evs & E & Hq)]; unfold probes_ok; rewrite E, forallb_app; destruct (quiet_answers evs Hq) as [_ ->]; by intros ->. Qed.

(** What a notification leaves alone. *)
Definition same_info (r r' : roc_info) : Prop :=
  r_id r' = r_id r /\ r_sdata r' = r_sdata r /\ r_chan r' = r_chan r /\ started r' = started r /\ abort r' = abort r /\ duration r' = duration r /\ work r' = work r.

Lemma same_info_refl r : same_info r r. Proof. by repeat split. Qed.

(** [evs] are events that answer what [r] holds and [r'] does not. *)
Lemma handle_spec l r : exists evs r', ieee80211_handle_roc_started l r = (app_log l evs, r') /\ omap answer evs ++ held r' = held r /\ forallb probe_ok evs = true /\ same_info r r'.
Proof.
  unfold ieee80211_handle_roc_started; destruct (notified r); [exists [], r; by rewrite app_log_nil|]; unfold held; destruct (mgmt_tx_cookie r =? 0) eqn:Em; cbn [negb].
  - eexists _, _; split; [by rewrite emit_app|]; cbn [set_notified mgmt_tx_cookie frame r_id]; by rewrite Em.
  - destruct (frame r) as [f|] eqn:Ef; [eexists _, _; split; [by rewrite emit_app|]|exists [], (set_notified r None); split; [by rewrite app_log_nil|]]; cbn [set_notified mgmt_tx_cookie frame r_id]; by rewrite Em.
Qed.

Lemma handle_all_spec ds : forall l, exists evs ds', handle_all l ds = (app_log l evs, ds') /\ omap answer evs ++ (ds' ≫= held) ≡ₚ ds ≫= held /\ forallb probe_ok evs = true /\ Forall2 same_info ds ds'.
Proof.
  induction ds as [|d ds IH]; intros l; cbn [handle_all]; [exists [], []; by rewrite app_log_nil|].
  destruct (handle_spec l d) as (e1 & d' & -> & H1 & P1 & S1), (IH (app_log l e1)) as (e2 & ds' & -> & H2 & P2 & S2); exists (e1 ++ e2), (d' :: ds').
  rewrite app_log_app, omap_app, forallb_app, P1, P2; cbn [mbind list_bind]; split_and!; [done| |done|by constructor].
  rewrite <- H1, <- H2; solve_Permutation.
Qed.

Lemma notify_one_spec l r : exists evs, notify_destroy_one l r = app_log l evs /\ omap answer evs = held r /\ forallb probe_ok evs = true.
Proof.
  unfold notify_destroy_one, held; destruct (frame r) as [f|], (mgmt_tx_cookie r =? 0); rewrite ?emit_app, ?app_log_app; eexists; (split; [first [reflexivity|symmetry; apply app_log_nil]|]); done.
Qed.

Lemma notify_destroy_spec l r : exists evs, ieee80211_roc_notify_destroy l r = app_log l evs /\ omap answer evs = (info r :: dependents r) ≫= held /\ forallb probe_ok evs = true.
Proof.
  unfold ieee80211_roc_notify_destroy; destruct (notify_one_spec l (info r)) as (e1 & -> & H1 & P1); cbn [mbind list_bind].
  assert (Hd : forall ds l, exists evs, fold_left notify_destroy_one ds l = app_log l evs /\ omap answer evs = ds ≫= held /\ forallb probe_ok evs = true).
  { clear; induction ds as [|d ds IH]; intros l; cbn [fold_left]; [exists []; by rewrite app_log_nil|]; destruct (notify_one_spec l d) as (e1 & -> & H1 & P1), (IH (app_log l e1)) as (e2 & -> & H2 & P2).
    exists (e1 ++ e2); rewrite app_log_app, omap_app, forallb_app, P1, P2, H1, H2; done. }
  destruct (Hd (dependents r) (app_log l e1)) as (e2 & -> & H2 & P2); exists (e1 ++ e2); rewrite app_log_app, omap_app, forallb_app, P1, P2, H1, H2; done.
Qed.

(** ** The invariant *)

Definition bits (s : scan_info) : bool * bool * bool * bool * bool := (sw_scanning s, hw_scanning s, onchannel_scanning s, completed s, aborted s).

(** What a new ROC asks for. *)
Definition roc_asks (id : nat) (txskb : option Z) : list ask := match txskb with None => [ARoc id] | Some f => [AFrame f] end.

(** What user space asked for and was not refused. *)
Definition asked (h : hw) (e : env) (l : local) (o : op) : list ask :=
  match o with
  | OScan i rq => match __ieee80211_start_scan h e l i rq with Some (_, rc) => if rc =? 0 then [AScan (rq_id rq)] else [] | None => [] end
  | ORoc id i c dur txskb => if (ieee80211_start_roc_work h e l id i c dur txskb).1.2 =? 0 then roc_asks id txskb else []
  | _ => []
  end.

(** What the callers keep to: a scan of user space is not the internal one; the
    driver speaks of scans and ROCs it was given; a ROC is a new object, and one
    in software lasts; the works of ROCs in software are those of drivers that do
    none. *)
Definition op_ok (h : hw) (l : local) (o : op) : Prop :=
  match o with
  | OScan _ rq => internal rq = false
  | OHwScanDone _ => hw_scanning (scan l) = true
  | ORoc id i c dur txskb => (id ∉ r_id <$> infos (roc_list l)) /\ txskb <> Some 0 /\ (ops_roc h = false -> 0 < dur)
  | OReady | OHwRocStart | OExpired | OHwRocDone => ops_roc h = true
  | ORocWork _ => ops_roc h = false
  | _ => True
  end.

Fixpoint run_ok (h : hw) (os : list (env * op)) (l : local) : Prop :=
  match os with
  | [] => True
  | x :: os => op_ok h l x.2 /\ match step h x l with Some l' => run_ok h os l' | None => True end
  end.

Fixpoint all_asked (h : hw) (os : list (env * op)) (l : local) : list ask :=
  match os with
  | [] => []
  | x :: os => asked h x.1 l x.2 ++ match step h x l with Some l' => all_asked h os l' | None => [] end
  end.

(** The driver was just registered. *)
Record initial (l : local) : Prop := Initial {
  in_bits : bits (scan l) = (false, false, false, false, false); in_req : scan_req (scan l) = None; in_sdata : scan_sdata (scan l) = None;
  in_channel : scan_channel (scan l) = None; in_work : scan_work (scan l) = false; in_rocs : roc_list l = []; in_tmp : tmp_channel l = None;
  in_hw : hw_channel l = oper_channel l; in_log : log l = [] }.

(** Where a software scan is. *)
Definition position (rq : request) (s : scan_info) : Prop :=
  match next_scan_state s with
  | SCAN_SET_CHANNEL | SCAN_SUSPEND | SCAN_RESUME => (scan_channel_idx s < length (channels rq))%nat
  | SCAN_SEND_PROBE => exists c, scan_channel s = Some c /\ passive c = false
  | SCAN_DECISION | SCAN_ABORT => True
  end.

(** No scan; one that waits for the radio; a software scan; one on the operating
    channel; one of the driver. *)
Inductive scan_mode (s : scan_info) : Prop :=
  | MNone : bits s = (false, false, false, false, false) -> scan_req s = None -> scan_sdata s = None -> scan_channel s = None -> scan_work s = false -> scan_mode s
  | MDeferred rq i : bits s = (false, false, false, false, false) -> scan_req s = Some rq -> scan_sdata s = Some i -> scan_channel s = None -> scan_mode s
  | MSw rq i : bits s = (true, false, false, false, false) -> scan_req s = Some rq -> scan_sdata s = Some i -> position rq s -> scan_work s = true -> scan_mode s
  | MOn rq i : bits s = (false, false, true, false, false) -> scan_req s = Some rq -> scan_sdata s = Some i -> scan_channel s = None -> scan_work s = true -> scan_mode s
  | MHw rq i co ab : bits s = (false, true, false, co, ab) -> scan_req s = Some rq -> scan_sdata s = Some i -> scan_channel s = None -> scan_work s = co -> (ab = true -> co = true) -> scan_mode s.

Definition idle_info (r : roc_info) : Prop := started r = false /\ work r = Idle.

Section Inv.
Context (h : hw).

(** The channel of the ROC that is under way in software. *)
Definition roc_channel (rs : list roc) : option channel :=
  if ops_roc h then None else match rs with r :: _ => if started (info r) then Some (r_chan (info r)) else None | [] => None end.

(** Only the first ROC is under way or has its work pending, and none is while
    there is a scan. *)
Record list_ok (rs : list roc) : Prop := ListOk {
  lo_nodup : NoDup (r_id <$> infos rs);
  lo_tail : Forall (fun r => idle_info (info r)) (tail rs);
  lo_deps : Forall (fun r => Forall idle_info (dependents r)) rs;
  lo_dur : ops_roc h = false -> Forall (fun r => 0 < duration (info r)) rs }.

Record inv (l : local) : Prop := Inv {
  i_mode : scan_mode (scan l);
  i_list : list_ok (roc_list l);
  i_excl : scanning l = true -> Forall (fun r => idle_info (info r)) (roc_list l);
  i_tmp : tmp_channel l = roc_channel (roc_list l);
  i_tuned : tuned h l;
  i_probes : probes_ok l }.

Lemma scanning_bits l : scanning l = let '(a, b, c, d, f) := bits (scan l) in a || b || c || d || f.
Proof. done. Qed.

Lemma inv_app_log l evs : forallb probe_ok evs = true -> inv l -> inv (app_log l evs).
Proof. intros He [A B C E F G]; constructor; try done; unfold probes_ok; cbn; by rewrite forallb_app, G, He. Qed.

Lemma ledger_app_log l evs : ledger (app_log l evs) ≡ₚ ledger l ++ omap answer evs.
Proof. unfold ledger; cbn [app_log log scan roc_list]; rewrite omap_app; solve_Permutation. Qed.

(** The rest of the list when one is taken out that is not under way. *)
Lemma infos_app rs1 rs2 : infos (rs1 ++ rs2) = infos rs1 ++ infos rs2.
Proof. apply bind_app. Qed.

Lemma ids_remove l1 r l2 : NoDup (r_id <$> infos (l1 ++ r :: l2)) -> NoDup (r_id <$> infos (l1 ++ l2)).
Proof.
  rewrite !infos_app, !fmap_app; cbn [infos mbind list_bind]; fold (infos l2); rewrite fmap_app; intros Hn.
  apply list.NoDup_app in Hn as (A & B & C); apply list.NoDup_app in C as (_ & _ & E); apply list.NoDup_app; split_and!; try done.
  intros x Hx Hx2; apply (B x Hx), elem_of_app; by right.
Qed.

Lemma list_ok_remove l1 r l2 : list_ok (l1 ++ r :: l2) -> list_ok (l1 ++ l2).
Proof.
  intros [A B C E]; constructor; [by eapply ids_remove| | |].
  - destruct l1 as [|r1 l1]; cbn [app tail] in *; [by destruct l2; [|apply Forall_cons_1 in B as [_ B]]|]; apply Forall_app in B as [B1 B2]; apply Forall_cons_1 in B2 as [_ B2]; by apply Forall_app.
  - apply Forall_app in C as [C1 C2]; apply Forall_cons_1 in C2 as [_ C2]; by apply Forall_app.
  - intros Hs; specialize (E Hs); apply Forall_app in E as [C1 C2]; apply Forall_cons_1 in C2 as [_ C2]; by apply Forall_app.
Qed.

Lemma roc_channel_remove l1 r l2 : list_ok (l1 ++ r :: l2) -> started (info r) = false -> roc_channel (l1 ++ l2) = roc_channel (l1 ++ r :: l2).
Proof.
  intros [_ B _ _] Hr; unfold roc_channel; destruct (ops_roc h); [done|]; destruct l1 as [|r1 l1]; [|done]; cbn [app tail] in *; rewrite Hr.
  destruct l2 as [|r2 l2]; [done|]; apply Forall_cons_1 in B as [[B _] _]; by rewrite B.
Qed.

(** *** The next ROC *)

Lemma pending_deferred s : pending (set_work s true) = pending s. Proof. done. Qed.

Lemma deferred_spec l : inv l -> inv (ieee80211_run_deferred_scan l) /\ ledger (ieee80211_run_deferred_scan l) = ledger l.
Proof.
  intros Hi; unfold ieee80211_run_deferred_scan; destruct (scan_req (scan l)) as [rq|] eqn:Er; [|done]; destruct (scan_sdata (scan l)) as [i|] eqn:Es; [|done].
  destruct (scanning l) eqn:Esc; [done|]; destruct (ieee80211_can_scan l i); [|done]; split; [|done]; destruct Hi as [A B C E F G]; constructor; try done.
  rewrite scanning_bits in Esc; destruct A as [Hb Hr|rq' i' Hb Hr|rq' i' Hb Hr|rq' i' Hb Hr|rq' i' co ab Hb Hr]; rewrite Hb in Esc; try done; [congruence|].
  by apply (MDeferred _ rq' i').
Qed.

Lemma list_ok_head r r' rs : list_ok (r :: rs) -> r_id (info r') = r_id (info r) -> dependents r' = dependents r -> duration (info r') = duration (info r) -> list_ok (r' :: rs).
Proof.
  intros [A B C E] H1 H2 H3; constructor; [|done| |].
  - unfold infos in *; cbn [mbind list_bind] in *; rewrite H2; cbn [fmap list_fmap app] in *; by rewrite H1.
  - apply Forall_cons_1 in C as [C1 C2]; apply Forall_cons_2; [by rewrite H2|done].
  - intros Hs; specialize (E Hs); apply Forall_cons_1 in E as [C1 C2]; apply Forall_cons_2; [by rewrite H3|done].
Qed.

Lemma next_roc_spec e l : inv l -> scanning l = false -> inv (ieee80211_start_next_roc h e l) /\ ledger (ieee80211_start_next_roc h e l) ≡ₚ ledger l.
Proof.
  intros Hi Hs; unfold ieee80211_start_next_roc; destruct (roc_list l) as [|r rs] eqn:El; [destruct (deferred_spec l Hi) as [? ->]; done|].
  destruct (started (info r)) eqn:Est; [done|]; pose proof Hi as [A B C E F G]; rewrite El in B, E; destruct (ops_roc h) eqn:Eo.
  - set (l1 := set_rocs _ _); assert (H1 : inv l1 /\ ledger l1 = ledger l).
    { split; [constructor; try done|].
      - by apply (list_ok_head r).
      - intros Hx; change (scanning l = true) in Hx; congruence.
      - unfold roc_channel in *; cbn; rewrite Eo in *; exact E.
      - unfold probes_ok; cbn; by rewrite forallb_app, G.
      - unfold ledger, l1; cbn [emit set_rocs log scan roc_list]; rewrite omap_app; cbn [omap list_omap answer]; rewrite app_nil_r; do 2 f_equal; by rewrite El. }
    destruct H1 as [H1 H2]; destruct (negb _); [|by rewrite H2]; split; [destruct H1; by constructor|by rewrite <- H2].
  - split; [constructor; try done|].
    + cbn; apply (list_ok_head r); try done; unfold queue_roc; by destruct (work (info r)).
    + intros Hx; change (scanning l = true) in Hx; congruence.
    + unfold roc_channel in *; cbn; rewrite Eo, Est in *; unfold queue_roc; destruct (work (info r)); cbn; by rewrite ?Est.
    + unfold ledger; cbn [set_rocs log scan roc_list]; rewrite El; unfold infos; cbn [mbind list_bind]; unfold queue_roc; by destruct (work (info r)).
Qed.

(** *** The end of a ROC *)

Lemma inv_quiet l l' : inv l -> quiet l l' -> tuned h l' -> inv l'.
Proof.
  intros [A B C E F G] Hq Ht; pose proof Hq as [Q1 Q2 Q3 _ _ _]; constructor; try done; [by rewrite Q1|by rewrite Q2| |by rewrite Q2, Q3|by eapply quiet_probes].
  rewrite Q2; unfold scanning; rewrite Q1; exact C.
Qed.

Lemma idle_channel rs : Forall (fun r => idle_info (info r)) rs -> roc_channel rs = None.
Proof. intros Hr; unfold roc_channel; destruct (ops_roc h); [done|]; destruct rs as [|r rs]; [done|]; apply Forall_cons_1 in Hr as [[-> _] _]; done. Qed.

Lemma finish_spec e l r : (started (info r) = false -> inv l) ->
  (started (info r) = true -> scan_mode (scan l) /\ scanning l = false /\ list_ok (roc_list l) /\ Forall (fun r => idle_info (info r)) (roc_list l) /\ probes_ok l) ->
  inv (finish_roc h e l r) /\ ledger (finish_roc h e l r) ≡ₚ ledger l ++ ((info r :: dependents r) ≫= held).
Proof.
  intros Hf Ht; unfold finish_roc; destruct (notify_destroy_spec l r) as (evs & -> & Ea & Ep); destruct (started (info r)).
  - destruct (Ht eq_refl) as (A & B & C & E & G); set (l1 := hw_config h e (set_tmp (app_log l evs) None) false); pose proof (hw_config_quiet h e (set_tmp (app_log l evs) None) false) as Q1.
    pose proof (hw_config_tuned h e (set_tmp (app_log l evs) None) false) as T1; fold l1 in Q1, T1; destruct (return_quiet h e l1 T1) as [Q2 T2].
    pose proof (quiet_trans _ _ _ Q1 Q2) as Q; set (l2 := ieee80211_offchannel_return h e l1) in *; assert (Hi : inv l2).
    { pose proof Q as [E1 E2 E3 _ _ _]; constructor; try done; [by rewrite E1|by rewrite E2|by rewrite E2| |].
      - rewrite E2, E3; symmetry; by apply idle_channel.
      - eapply quiet_probes; [exact Q|]; unfold probes_ok in *; cbn; by rewrite forallb_app, G, Ep. }
    assert (Hs : scanning l2 = false) by (unfold scanning; by rewrite (q_scan _ _ Q)); destruct (next_roc_spec e l2 Hi Hs) as [N1 N2]; split; [exact N1|].
    rewrite N2, (quiet_ledger _ _ Q); change (ledger (set_tmp (app_log l evs) None)) with (ledger (app_log l evs)); by rewrite ledger_app_log, Ea.
  - split; [by apply inv_app_log, Hf|by rewrite ledger_app_log, Ea].
Qed.

(** *** Places in the list *)

Lemma perm_nodup (a b : list nat) : a ≡ₚ b -> NoDup b -> NoDup a.
Proof. by intros ->. Qed.

Lemma find_split rs id r : List.find (is_roc id) rs = Some r -> exists l1 l2, rs = l1 ++ r :: l2 /\ r_id (info r) = id.
Proof.
  induction rs as [|r0 rs IH]; [done|]; cbn [List.find]; destruct (is_roc id r0) eqn:E0; [intros [= ->]; exists [], rs; split; [done|by apply bool_decide_eq_true in E0]|].
  intros Hf; destruct (IH Hf) as (l1 & l2 & -> & Hid); by exists (r0 :: l1), l2.
Qed.

Lemma not_here id rs r' : (forall x, x ∈ rs -> is_roc id x = false) ->
  (fun x => if is_roc id x then r' else x) <$> rs = rs /\ List.filter (fun x => negb (is_roc id x)) rs = rs /\ List.find (is_roc id) rs = None.
Proof.
  induction rs as [|x rs IH]; [done|]; intros Hno; destruct IH as (A & B & C); [intros y Hy; apply Hno; by right|]; cbn [fmap list_fmap List.filter List.find].
  rewrite Hno by left; cbn [negb]; split_and!; [f_equal; exact A|f_equal; exact B|exact C].
Qed.

(** Finding, replacing and deleting in the middle of the list. *)
Lemma mid_ops l1 r l2 : NoDup (r_id <$> infos (l1 ++ r :: l2)) -> let id := r_id (info r) in
  List.find (is_roc id) (l1 ++ r :: l2) = Some r /\ (forall r', (fun x => if is_roc id x then r' else x) <$> (l1 ++ r :: l2) = l1 ++ r' :: l2) /\
  List.filter (fun x => negb (is_roc id x)) (l1 ++ r :: l2) = l1 ++ l2.
Proof.
  intros Hn id; rewrite infos_app, fmap_app in Hn; change (infos (r :: l2)) with (info r :: dependents r ++ infos l2) in Hn; cbn [fmap list_fmap] in Hn.
  apply list.NoDup_app in Hn as (_ & H1 & [H2 _]%list.NoDup_cons).
  assert (Hin : forall x rs, x ∈ rs -> r_id (info x) ∈ r_id <$> infos rs).
  { intros x rs Hx; apply list_elem_of_fmap; exists (info x); split; [done|]; unfold infos; apply list_elem_of_bind; exists x; split; [by left|done]. }
  assert (N1 : forall x, x ∈ l1 -> is_roc id x = false) by (intros x Hx; apply bool_decide_eq_false; intros Ex; apply (H1 id); [rewrite <- Ex; by apply Hin|by left]).
  assert (N2 : forall x, x ∈ l2 -> is_roc id x = false) by (intros x Hx; apply bool_decide_eq_false; intros Ex; apply H2; rewrite fmap_app; apply elem_of_app; right; rewrite <- (Ex : _ = r_id (info r)); by apply Hin).
  assert (Hr : is_roc id r = true) by (by apply bool_decide_eq_true); split_and!.
  - destruct (not_here id l1 r N1) as (_ & _ & Hf); clear -Hf Hr; induction l1 as [|x l1 IH]; cbn [List.find app] in *; [by rewrite Hr|]; destruct (is_roc id x); [done|by apply IH].
  - intros r'; rewrite fmap_app; cbn [fmap list_fmap]; rewrite Hr; destruct (not_here id l1 r' N1) as (A & _), (not_here id l2 r' N2) as (B & _); f_equal; [exact A|f_equal; exact B].
  - rewrite filter_app; cbn [List.filter]; rewrite Hr; cbn [negb]; destruct (not_here id l1 r N1) as (_ & A & _), (not_here id l2 r N2) as (_ & B & _); by rewrite A, B.
Qed.

(** One ROC of the list becomes another. *)
Lemma list_ok_replace l1 r r' l2 : list_ok (l1 ++ r :: l2) -> NoDup (r_id <$> infos (l1 ++ r' :: l2)) -> (Forall idle_info (dependents r) -> Forall idle_info (dependents r')) ->
  (0 < duration (info r) -> 0 < duration (info r')) -> (l1 <> [] -> idle_info (info r')) -> list_ok (l1 ++ r' :: l2).
Proof.
  intros [A B C E] D1 D2 D3 Hi; constructor; [done| | |].
  - destruct l1 as [|r1 l1]; [done|]; cbn [app tail] in *; apply Forall_app in B as [B1 B2]; apply Forall_cons_1 in B2 as [_ B2].
    apply Forall_app; split; [done|]; apply Forall_cons_2; [by apply Hi|done].
  - apply Forall_app in C as [C1 C2]; apply Forall_cons_1 in C2 as [C2 C3]; apply Forall_app; split; [done|]; apply Forall_cons_2; [by apply D2|done].
  - intros Hs; specialize (E Hs); apply Forall_app in E as [C1 C2]; apply Forall_cons_1 in C2 as [C2 C3]; apply Forall_app; split; [done|]; apply Forall_cons_2; [by apply D3|done].
Qed.

Lemma ids_split l1 r l2 : r_id <$> infos (l1 ++ r :: l2) ≡ₚ (r_id <$> (info r :: dependents r)) ++ (r_id <$> infos (l1 ++ l2)).
Proof. rewrite !infos_app, !fmap_app; change (infos (r :: l2)) with ((info r :: dependents r) ++ infos l2); rewrite fmap_app; solve_Permutation. Qed.

Lemma ledger_rocs l l1 r l2 : ledger (set_rocs l (l1 ++ r :: l2)) ≡ₚ ledger (set_rocs l (l1 ++ l2)) ++ ((info r :: dependents r) ≫= held).
Proof.
  unfold ledger; cbn [set_rocs log scan roc_list]; rewrite !infos_app, !bind_app; change (infos (r :: l2)) with ((info r :: dependents r) ++ infos l2); rewrite bind_app.
  solve_Permutation.
Qed.

Lemma ledger_change l l1 r r' l2 evs : omap answer evs ++ ((info r' :: dependents r') ≫= held) ≡ₚ (info r :: dependents r) ≫= held ->
  ledger (set_rocs (app_log l evs) (l1 ++ r' :: l2)) ≡ₚ ledger (set_rocs l (l1 ++ r :: l2)).
Proof.
  intros Hp; rewrite ledger_rocs; rewrite (ledger_rocs l l1 r l2), <- Hp; change (set_rocs (app_log l evs) (l1 ++ l2)) with (app_log (set_rocs l (l1 ++ l2)) evs).
  rewrite ledger_app_log; solve_Permutation.
Qed.

Lemma set_rocs_id l : set_rocs l (roc_list l) = l. Proof. by destruct l. Qed.

(** *** Ending any ROC of the list *)

Lemma started_first l l1 r l2 : inv l -> roc_list l = l1 ++ r :: l2 -> started (info r) = true -> l1 = [] /\ scanning l = false /\ Forall (fun r => idle_info (info r)) l2.
Proof.
  intros Hi El Hs; pose proof (i_list _ Hi) as [_ B _ _]; rewrite El in B; assert (E1 : l1 = []).
  { destruct l1 as [|r1 l1]; [done|]; cbn [app tail] in B; apply Forall_app in B as [_ B]; apply Forall_cons_1 in B as [[B _] _]; congruence. }
  subst l1; split_and!; [done| |exact B]; destruct (scanning l) eqn:Esc; [|done]; pose proof (i_excl _ Hi Esc) as He; rewrite El in He; apply Forall_cons_1 in He as [[He _] _]; congruence.
Qed.

Lemma remove_idle l l1 r l2 : inv l -> roc_list l = l1 ++ r :: l2 -> started (info r) = false -> inv (set_rocs l (l1 ++ l2)).
Proof.
  intros [A B C E F G] El Hs; rewrite El in B, C, E; constructor; try done.
  - by eapply list_ok_remove.
  - intros Hsc; specialize (C Hsc); apply Forall_app in C as [C1 C2]; apply Forall_cons_1 in C2 as [_ C2]; by apply Forall_app.
  - cbn; rewrite E; symmetry; by apply roc_channel_remove.
Qed.

Lemma end_roc_spec e l l1 r r' l2 : inv l -> roc_list l = l1 ++ r :: l2 -> started (info r') = started (info r) -> held (info r') = held (info r) -> dependents r' = dependents r ->
  inv (finish_roc h e (set_rocs l (l1 ++ l2)) r') /\ ledger (finish_roc h e (set_rocs l (l1 ++ l2)) r') ≡ₚ ledger l.
Proof.
  intros Hi El Hs Hh Hd; destruct (finish_spec e (set_rocs l (l1 ++ l2)) r') as [A B].
  - intros Hns; apply (remove_idle l l1 r l2); [done|done|congruence].
  - intros Hst; destruct (started_first l l1 r l2 Hi El) as (-> & Hsc & Hid); [congruence|]; pose proof (i_list _ Hi) as Hl; rewrite El in Hl; cbn [app] in *.
    split_and!; [exact (i_mode _ Hi)|exact Hsc|exact (list_ok_remove [] r l2 Hl)|exact Hid|exact (i_probes _ Hi)].
  - split; [exact A|]; rewrite B; rewrite <- (set_rocs_id l) at 2; rewrite El, (ledger_rocs l l1 r l2); cbn [mbind list_bind]; by rewrite Hh, Hd.
Qed.

Lemma idle_map ds ds' : Forall2 same_info ds ds' -> Forall idle_info ds -> Forall idle_info ds' /\ r_id <$> ds' = r_id <$> ds.
Proof.
  induction 1 as [|d d' ds ds' Hd _ IH]; [done|]; intros [[H1 H2] H3]%Forall_cons_1; destruct (IH H3) as [I1 I2]; destruct Hd as (S1 & _ & _ & S4 & _ & _ & S7); split.
  - apply Forall_cons_2; [|done]; split; congruence.
  - cbn [fmap list_fmap]; congruence.
Qed.

(** A ROC starts in software: it is the first, and nothing scans. *)
Lemma sw_work_spec e l id r : ops_roc h = false -> inv l -> find_roc l id = Some r -> work (info r) <> Idle ->
  inv (ieee80211_sw_roc_work h e l id) /\ ledger (ieee80211_sw_roc_work h e l id) ≡ₚ ledger l.
Proof.
  intros Ho Hi Hf Hw; unfold ieee80211_sw_roc_work; rewrite Hf; destruct (find_split _ _ _ Hf) as (l1 & l2 & El & Hid); pose proof (i_list _ Hi) as Hl; rewrite El in Hl.
  assert (E1 : l1 = []).
  { destruct l1 as [|r1 l1]; [done|]; pose proof (lo_tail _ Hl) as B; cbn [app tail] in B; apply Forall_app in B as [_ B]; apply Forall_cons_1 in B as [[_ B] _]; congruence. }
  subst l1; cbn [app] in *; assert (Esc : scanning l = false).
  { destruct (scanning l) eqn:Esc; [|done]; pose proof (i_excl _ Hi Esc) as He; rewrite El in He; apply Forall_cons_1 in He as [[_ He] _]; congruence. }
  set (r0 := set_info r (set_roc_work (info r) Idle)); cbn zeta.
  assert (Hup : forall l' r', roc_list l' = r :: l2 \/ roc_list l' = r0 :: l2 -> upd_roc l' id r' = set_rocs l' (r' :: l2)).
  { intros l' r' Hl'; unfold upd_roc; pose proof (mid_ops [] r l2 (lo_nodup _ Hl)) as (_ & M1 & _); pose proof (mid_ops [] r0 l2 (lo_nodup _ Hl)) as (_ & M2 & _); change (r_id (info r0)) with (r_id (info r)) in M2.
    rewrite Hid in M1, M2; destruct Hl' as [-> | ->]; [exact (f_equal (set_rocs l') (M1 r'))|exact (f_equal (set_rocs l') (M2 r'))]. }
  rewrite (Hup l r0) by (by left); set (l0 := set_rocs l (r0 :: l2)).
  assert (Hdel : list_del l0 id = set_rocs l ([] ++ l2)).
  { unfold list_del, l0; cbn [set_rocs roc_list]; pose proof (mid_ops [] r0 l2 (lo_nodup _ Hl)) as (_ & _ & M); change (r_id (info r0)) with (r_id (info r)) in M; rewrite Hid in M; exact (f_equal (set_rocs l) M). }
  assert (Hend : inv (finish_roc h e (list_del l0 id) r0) /\ ledger (finish_roc h e (list_del l0 id) r0) ≡ₚ ledger l) by (rewrite Hdel; by apply (end_roc_spec e l [] r r0 l2)).
  destruct (abort (info r0)); [exact Hend|]; change (roc_list l0) with (r0 :: l2); assert (Hhd : is_roc id r0 = true) by (by apply bool_decide_eq_true).
  cbn match; rewrite Hhd; cbn [negb]; destruct (started (info r0)) eqn:Est; cbn [negb]; [exact Hend|].
  set (l3 := hw_config h e (set_tmp l0 (Some (r_chan (info r0)))) false); pose proof (hw_config_quiet h e (set_tmp l0 (Some (r_chan (info r0)))) false) as Q3.
  pose proof (hw_config_tuned h e (set_tmp l0 (Some (r_chan (info r0)))) false) as T3; fold l3 in Q3, T3.
  destruct (handle_spec l3 (info r0)) as (e1 & i & -> & H1 & P1 & S1); destruct (handle_all_spec (dependents r0) (app_log l3 e1)) as (e2 & ds & -> & H2 & P2 & S2); rewrite app_log_app.
  pose proof S1 as (I1 & _ & I3 & I4 & _ & I6 & _); pose proof (lo_dur _ Hl Ho) as Hdur; apply Forall_cons_1 in Hdur as [Hd1 Hd2]; assert (Hpos : 0 < duration i) by (rewrite I6; exact Hd1).
  destruct (Z.eqb_spec (duration i) 0) as [Hz|_]; [lia|]; set (r1 := set_info _ _).
  assert (Hr3 : roc_list (app_log l3 (e1 ++ e2)) = r0 :: l2) by (cbn; by rewrite (q_rocs _ _ Q3)); rewrite (Hup _ r1) by (by right).
  pose proof (lo_deps _ Hl) as Hdp; apply Forall_cons_1 in Hdp as [Hdp _]; destruct (idle_map _ _ S2 Hdp) as [Hds1 Hds2]; split.
  - constructor.
    + cbn [set_rocs app_log scan]; rewrite (q_scan _ _ Q3); exact (i_mode _ Hi).
    + cbn [set_rocs roc_list]; apply (list_ok_replace [] r r1 l2 Hl); [|by intros _|by intros _|done]; pose proof (lo_nodup _ Hl) as Hn; eapply perm_nodup; [|exact Hn].
      rewrite (ids_split [] r1 l2), (ids_split [] r l2); cbn [r1 set_info info dependents set_started r_id fmap list_fmap]; rewrite Hds2, I1; done.
    + intros Hs; assert (Hs' : scanning l = true); [|congruence]; rewrite <- Hs; unfold scanning; cbn [set_rocs app_log scan]; by rewrite (q_scan _ _ Q3).
    + cbn [set_rocs app_log tmp_channel roc_list]; rewrite (q_tmp _ _ Q3); unfold roc_channel; rewrite Ho; cbn [r1 set_info info set_started started r_chan]; by rewrite I3.
    + exact T3.
    + unfold probes_ok; cbn [set_rocs app_log log]; rewrite !forallb_app, P1, P2, andb_true_r; apply (quiet_probes _ _ Q3), (i_probes _ Hi).
  - assert (Hl0 : ledger l = ledger (set_rocs l (r :: l2))) by (by rewrite <- El, set_rocs_id); rewrite Hl0; transitivity (ledger (set_rocs l3 (r :: l2))).
    + apply (ledger_change l3 [] r r1 l2 (e1 ++ e2)); rewrite omap_app; change (dependents r0) with (dependents r) in H2; cbn [mbind list_bind r1 set_info info dependents]; rewrite <- H2; change (held (set_started i _)) with (held i); change (held (info r)) with (held (info r0)).
      rewrite <- H1; solve_Permutation.
    + rewrite (ledger_rocs l3 [] r l2), (ledger_rocs l [] r l2); f_equiv; cbn [app]; replace (set_rocs l3 l2) with (set_rocs l3 (roc_list (set_rocs l3 l2))) by done.
      unfold ledger; cbn [set_rocs log scan roc_list]; rewrite (q_scan _ _ Q3); destruct (q_log _ _ Q3) as (ev & El3 & Hq); rewrite El3, omap_app; destruct (quiet_answers ev Hq) as [-> _]; by rewrite app_nil_r.
Qed.
(** *** The driver does the ROCs *)

(** The dependents that stay and those that go to the list are those there were. *)
Lemma begin_spec ds : forall l dur, Forall idle_info ds -> exists evs dur' keep out, begin_dependents l dur ds = (app_log l evs, dur', keep, out) /\
  omap answer evs ++ ((keep ++ infos out) ≫= held) ≡ₚ ds ≫= held /\ r_id <$> (keep ++ infos out) ≡ₚ r_id <$> ds /\ forallb probe_ok evs = true /\
  Forall idle_info keep /\ Forall (fun r => idle_info (info r) /\ dependents r = []) out.
Proof.
  induction ds as [|d ds IH]; intros l dur Hid; cbn [begin_dependents]; [exists [], dur, [], []; rewrite app_log_nil; split_and!; done|].
  apply Forall_cons_1 in Hid as [Hd Hid]; destruct (handle_spec l d) as (e1 & d' & -> & H1 & P1 & S1).
  pose proof S1 as (I1 & _ & _ & I4 & _ & _ & I7); assert (Hd' : idle_info d') by (destruct Hd; split; congruence).
  destruct (dur <? duration d').
  - destruct (IH (app_log l e1) (duration d') Hid) as (e3 & dur3 & keep3 & out3 & -> & H3 & N3 & P3 & K3 & O3); exists (e1 ++ e3), dur3, keep3, (out3 ++ [Roc (set_duration d' (duration d' - dur)) []]).
    rewrite app_log_app, omap_app, forallb_app, P1, P3, infos_app; change (infos [Roc ?x []]) with [x]; split_and!; try done.
    + cbn [mbind list_bind]; rewrite <- H3, <- H1, !bind_app; cbn [mbind list_bind]; change (held (set_duration d' _)) with (held d'); solve_Permutation.
    + cbn [fmap list_fmap]; rewrite <- N3, <- I1, !fmap_app; cbn [fmap list_fmap set_duration r_id]; solve_Permutation.
    + apply Forall_app; split; [done|]; apply Forall_cons_2; [|done]; done.
  - destruct (IH (app_log l e1) dur Hid) as (e3 & dur3 & keep3 & out3 & -> & H3 & N3 & P3 & K3 & O3); exists (e1 ++ e3), dur3, (d' :: keep3), out3.
    rewrite app_log_app, omap_app, forallb_app, P1, P3; split_and!; try done.
    + cbn [mbind list_bind app]; rewrite <- H3, <- H1; solve_Permutation.
    + cbn [fmap list_fmap app]; by rewrite <- N3, <- I1.
    + by apply Forall_cons_2.
Qed.

Lemma alone_infos out : Forall (fun r => idle_info (info r) /\ dependents r = []) out -> Forall (fun r => idle_info (info r)) out /\ Forall (fun r => Forall idle_info (dependents r)) out.
Proof. intros Ho; split; eapply list.Forall_impl; [exact Ho| |exact Ho|]; intros r [A B]; [done|rewrite B; done]. Qed.

Lemma hw_start_spec l : ops_roc h = true -> inv l -> inv (ieee80211_hw_roc_start l) /\ ledger (ieee80211_hw_roc_start l) ≡ₚ ledger l.
Proof.
  intros Ho Hi; unfold ieee80211_hw_roc_start; set (l0 := set_roc_works _ _ _ _); assert (Hi0 : inv l0) by (destruct Hi; by constructor).
  change (ledger l) with (ledger l0); clearbody l0; clear Hi l; rename l0 into l, Hi0 into Hi; destruct (roc_list l) as [|r rs] eqn:El; [done|].
  destruct (started (info r)) eqn:Est; cbn [negb]; [|done]; destruct (started_first l [] r rs Hi El Est) as (_ & Hsc & Hrs).
  destruct (handle_spec l (set_begun (info r) (hw_roc_start_time l))) as (e1 & i & -> & H1 & P1 & S1).
  pose proof (i_list _ Hi) as [A B C _]; rewrite El in A, B, C; apply Forall_cons_1 in C as [C1 C2].
  destruct (begin_spec (dependents r) (app_log l e1) (duration i) C1) as (e2 & dur & keep & out & -> & H2 & N2 & P2 & K2 & O2); rewrite app_log_app.
  destruct (alone_infos _ O2) as [O3 O4]; pose proof S1 as (I1 & _); split; [constructor; try done|].
  - exact (i_mode _ Hi).
  - cbn [set_rocs roc_list]; constructor; [| | |congruence].
    + eapply perm_nodup; [|exact A]; unfold infos; cbn [mbind list_bind info dependents set_duration]; fold (infos (out ++ rs)) (infos rs); rewrite infos_app.
      cbn [fmap list_fmap app set_duration r_id]; rewrite I1, !fmap_app, <- N2, !fmap_app; cbn [set_begun r_id]; solve_Permutation.
    + cbn [tail]; by apply Forall_app.
    + apply Forall_cons_2; [done|]; by apply Forall_app.
  - intros Hs; change (scanning l = true) in Hs; congruence.
  - cbn [set_rocs app_log tmp_channel roc_list]; rewrite (i_tmp _ Hi); unfold roc_channel; by rewrite Ho.
  - exact (i_tuned _ Hi).
  - unfold probes_ok; cbn; rewrite !forallb_app, P1, P2, (i_probes _ Hi); done.
  - unfold ledger; cbn [set_rocs app_log log scan roc_list]; rewrite omap_app, El; unfold infos at 1 2; cbn [mbind list_bind info dependents app]; fold (infos (out ++ rs)) (infos rs).
    rewrite infos_app, !bind_app, omap_app, <- H2; change (held (set_duration i dur)) with (held i); change (held (info r)) with (held (set_begun (info r) (hw_roc_start_time l))); rewrite <- H1, bind_app; solve_Permutation.
Qed.

Lemma hw_done_spec e l : ops_roc h = true -> inv l -> inv (ieee80211_hw_roc_done h e l) /\ ledger (ieee80211_hw_roc_done h e l) ≡ₚ ledger l.
Proof.
  intros Ho Hi; unfold ieee80211_hw_roc_done; set (l0 := set_roc_works _ _ _ _); assert (Hi0 : inv l0) by (destruct Hi; by constructor).
  change (ledger l) with (ledger l0); clearbody l0; clear Hi l; rename l0 into l, Hi0 into Hi; destruct (roc_list l) as [|r rs] eqn:El; [done|].
  destruct (started (info r)) eqn:Est; cbn [negb]; [|done]; destruct (started_first l [] r rs Hi El Est) as (_ & Hsc & Hrs).
  destruct (notify_destroy_spec (set_rocs l rs) r) as (evs & -> & Ea & Ep); assert (H1 : inv (app_log (set_rocs l rs) evs)).
  { apply inv_app_log; [done|]; pose proof Hi as [A B C E F G]; rewrite El in *; constructor; try done; [exact (list_ok_remove [] r rs B)|].
    cbn; rewrite E; unfold roc_channel; by rewrite Ho. }
  destruct (next_roc_spec e _ H1 Hsc) as [N1 N2]; split; [exact N1|]; rewrite N2, ledger_app_log, Ea.
  assert (Hl0 : ledger l = ledger (set_rocs l ([] ++ r :: rs))) by (by cbn [app]; rewrite <- El, set_rocs_id); by rewrite Hl0, (ledger_rocs l [] r rs).
Qed.
(** *** An interface goes down *)

Lemma Forall_kept {A} (Q : A -> Prop) (P : A -> bool) l : Forall Q l -> Forall Q (List.filter P l).
Proof. intros Hl; apply list.Forall_forall; intros x Hx; rewrite list.Forall_forall in Hl; apply list_elem_of_In, filter_In in Hx as [Hx _]; by apply Hl, list_elem_of_In. Qed.

Lemma list_ok_filter (P : roc -> bool) rs : list_ok rs -> list_ok (List.filter P rs).
Proof.
  intros [A B C E]; constructor.
  - revert A; clear; induction rs as [|r rs IH]; [done|]; intros Hn; cbn [List.filter]; destruct (P r).
    + revert Hn IH; unfold infos; cbn [mbind list_bind]; fold (infos rs) (infos (List.filter P rs)); rewrite !fmap_app; intros (H1 & H2 & H3)%list.NoDup_app IH.
      apply list.NoDup_app; split_and!; [done| |by apply IH]; intros x Hx Hx2; apply (H2 x Hx); revert Hx2; clear; induction rs as [|r2 rs IH]; [done|]; cbn [List.filter].
      unfold infos in *; cbn [mbind list_bind]; rewrite fmap_app; destruct (P r2); cbn [mbind list_bind]; rewrite ?fmap_app, ?elem_of_app; set_solver.
    + apply IH; exact (ids_remove [] r rs Hn).
  - destruct rs as [|r rs]; [done|]; cbn [tail List.filter] in *; destruct (P r); cbn [tail]; [by apply Forall_kept|].
    pose proof (Forall_kept _ P rs B) as Hall; destruct (List.filter P rs) as [|r2 rs2] eqn:Ef; [done|]; by apply Forall_cons_1 in Hall as [_ Hall].
  - by apply Forall_kept.
  - intros Hs; by apply Forall_kept, E.
Qed.

Lemma filter_parts (P : roc -> bool) rs : (infos (List.filter P rs) ≫= held) ++ (infos (List.filter (fun r => negb (P r)) rs) ≫= held) ≡ₚ infos rs ≫= held.
Proof.
  induction rs as [|r rs IH]; [done|]; cbn [List.filter]; unfold infos in *; destruct (P r); cbn [negb mbind list_bind]; rewrite ?bind_app, <- IH; solve_Permutation.
Qed.

Lemma finish_idle e rs l : inv l -> Forall (fun r => started (info r) = false) rs ->
  inv (fold_left (finish_roc h e) rs l) /\ ledger (fold_left (finish_roc h e) rs l) ≡ₚ ledger l ++ (infos rs ≫= held).
Proof.
  revert l; induction rs as [|r rs IH]; intros l Hi Hr; [by rewrite app_nil_r|]; apply Forall_cons_1 in Hr as [Hr Hrs]; cbn [fold_left].
  destruct (finish_spec e l r) as [A B]; [done|congruence|]; destruct (IH _ A Hrs) as [E F]; split; [exact E|]; rewrite F, B; unfold infos at 2; cbn [mbind list_bind]; rewrite bind_app; fold (infos rs).
  solve_Permutation.
Qed.

Lemma notify_all_spec rs l : exists evs, fold_left ieee80211_roc_notify_destroy rs l = app_log l evs /\ omap answer evs = infos rs ≫= held /\ forallb probe_ok evs = true.
Proof.
  revert l; induction rs as [|r rs IH]; intros l; cbn [fold_left]; [exists []; by rewrite app_log_nil|].
  destruct (notify_destroy_spec l r) as (e1 & -> & H1 & P1), (IH (app_log l e1)) as (e2 & -> & H2 & P2); exists (e1 ++ e2); rewrite app_log_app, omap_app, forallb_app, P1, P2, H1, H2.
  unfold infos; cbn [mbind list_bind]; by rewrite bind_app.
Qed.

Lemma idle_started rs : Forall (fun r => idle_info (info r)) rs -> Forall (fun r => started (info r) = false) rs.
Proof. intros Hr; eapply list.Forall_impl; [exact Hr|]; by intros r [A _]. Qed.

Lemma roc_purge_spec e l i : inv l -> inv (ieee80211_roc_purge h e l i) /\ ledger (ieee80211_roc_purge h e l i) ≡ₚ ledger l.
Proof.
  intros Hi; unfold ieee80211_roc_purge; cbn zeta; set (P := fun r => bool_decide (r_sdata (info r) = i)); change (fun r => negb (bool_decide (r_sdata (info r) = i))) with (fun r => negb (P r)).
  set (mine := List.filter P (roc_list l)); set (rest := List.filter (fun r => negb (P r)) (roc_list l)); set (l1 := set_rocs l rest).
  assert (Hled : ledger l1 ++ (infos mine ≫= held) ≡ₚ ledger l) by (unfold ledger, l1; cbn [set_rocs log scan roc_list]; rewrite <- (filter_parts P (roc_list l)); unfold mine, rest; solve_Permutation).
  pose proof (list_ok_filter (fun r => negb (P r)) _ (i_list _ Hi)) as Hok; fold rest in Hok.
  assert (Hex : scanning l1 = true -> Forall (fun r => idle_info (info r)) rest).
  { intros Hs; by apply Forall_kept, (i_excl _ Hi). }
  destruct (ops_roc h) eqn:Ho.
  - set (l2 := fold_left _ mine l1); assert (H2 : quiet l1 l2 /\ hw_channel l2 = hw_channel l1).
    { unfold l2; clear; generalize l1; induction mine as [|r rs IH]; intros l2; cbn [fold_left]; [split; [apply quiet_refl|done]|]; destruct (started (info r)); [|apply IH].
      destruct (IH (emit l2 CancelHwRoc)) as [A B]; split; [apply (quiet_trans _ (emit l2 CancelHwRoc)); [by apply quiet_emit|exact A]|exact B]. }
    destruct H2 as [Q2 T2]; destruct (notify_all_spec mine l2) as (evs & -> & Ea & Ep); split.
    + apply inv_app_log; [done|]; apply (inv_quiet l1); [|exact Q2|].
      * pose proof Hi as [A B C E F G]; constructor; try done; cbn; rewrite E; unfold roc_channel; by rewrite Ho.
      * apply (tuned_same h l1); [exact (i_tuned _ Hi)|exact T2|]; pose proof Q2 as [E1 _ E3 E4 _ _]; unfold ieee80211_hw_conf_chan; by rewrite E1, E3, E4.
    + by rewrite ledger_app_log, Ea, (quiet_ledger _ _ Q2).
  - assert (Hgo : forall rs r0, roc_list l = r0 :: rs -> started (info r0) = true -> P r0 = true -> inv (fold_left (finish_roc h e) mine l1) /\ ledger (fold_left (finish_roc h e) mine l1) ≡ₚ ledger l).
    { intros rs r0 El Est HP; destruct (started_first l [] r0 rs Hi El Est) as (_ & Hsc & Hrs); unfold mine; rewrite El; cbn [List.filter]; rewrite HP; cbn [fold_left].
      assert (Hrest : Forall (fun r => idle_info (info r)) rest).
      { unfold rest; rewrite El; cbn [List.filter]; rewrite HP; cbn [negb]; by apply Forall_kept. }
      destruct (finish_spec e l1 r0) as [A B]; [congruence|intros _; split_and!; [exact (i_mode _ Hi)|exact Hsc|exact Hok|exact Hrest|exact (i_probes _ Hi)]|].
      destruct (finish_idle e (List.filter P rs) _ A) as [A2 B2]; [by apply idle_started, Forall_kept|].
      split; [exact A2|]; rewrite B2, B, <- Hled; unfold mine; rewrite El; cbn [List.filter]; rewrite HP; change (infos (r0 :: ?x)) with ((info r0 :: dependents r0) ++ infos x); rewrite bind_app; solve_Permutation. }
    assert (Hquiet : Forall (fun r => started (info r) = false) mine -> roc_channel rest = roc_channel (roc_list l) -> inv (fold_left (finish_roc h e) mine l1) /\ ledger (fold_left (finish_roc h e) mine l1) ≡ₚ ledger l).
    { intros Hm Hc; destruct (finish_idle e mine l1) as [A B]; [|done|split; [exact A|by rewrite B]]; pose proof Hi as [A B C E F G]; constructor; try done; cbn; by rewrite E, Hc. }
    pose proof (i_list _ Hi) as [_ Ht _ _]; destruct (roc_list l) as [|r0 rs] eqn:El; [apply Hquiet; unfold mine, rest; rewrite ?El; done|]; cbn [tail] in Ht.
    destruct (started (info r0)) eqn:Est; [destruct (P r0) eqn:HP; [by apply (Hgo rs r0)|]|]; apply Hquiet; unfold mine, rest; rewrite ?El; cbn [List.filter]; rewrite ?HP; cbn [negb].
    + by apply idle_started, Forall_kept.
    + unfold roc_channel; by rewrite Ho, Est.
    + destruct (P r0); [apply Forall_cons_2; [done|]|]; by apply idle_started, Forall_kept.
    + unfold roc_channel; rewrite Ho, Est; destruct (P r0); cbn [negb]; [|by rewrite Est]; destruct (List.filter _ rs) as [|r2 rs2] eqn:Ef; [done|].
      pose proof (Forall_kept _ (fun r => negb (P r)) rs Ht) as Hx; rewrite Ef in Hx; apply Forall_cons_1 in Hx as [[-> _] _]; done.
Qed.
(** *** Cancelling *)

Lemma dep_split (d : roc_info) d1 d2 : NoDup (r_id <$> (d1 ++ d :: d2)) -> List.filter (fun x => negb (bool_decide (r_id x = r_id d))) (d1 ++ d :: d2) = d1 ++ d2.
Proof.
  rewrite fmap_app; cbn [fmap list_fmap]; intros (_ & H1 & [H2 _]%list.NoDup_cons)%list.NoDup_app; rewrite filter_app; cbn [List.filter]; rewrite (bool_decide_eq_true_2 (r_id d = r_id d)) by done; cbn [negb].
  assert (Hk : forall ds : list roc_info, r_id d ∉ r_id <$> ds -> List.filter (fun x => negb (bool_decide (r_id x = r_id d))) ds = ds).
  { clear; induction ds as [|x ds IH]; [done|]; cbn [fmap list_fmap List.filter]; intros Hd; rewrite bool_decide_eq_false_2 by set_solver; cbn [negb]; rewrite IH by set_solver; done. }
  rewrite !Hk; [done|done|]; intros Hin; apply (H1 _ Hin); by left.
Qed.

Lemma find_dep ck m ds d : List.find (cancels ck m) ds = Some d -> exists d1 d2, ds = d1 ++ d :: d2.
Proof.
  induction ds as [|x ds IH]; [done|]; cbn [List.find]; destruct (cancels ck m x); [intros [= ->]; by exists [], ds|]; intros Hf; destruct (IH Hf) as (d1 & d2 & ->); by exists (x :: d1), d2.
Qed.

Lemma find_cancel_spec ck m rs f : find_cancel ck m rs = Some f -> exists r l1 l2, rs = l1 ++ r :: l2 /\
  (f = FoundRoc r \/ exists d d1 d2, f = FoundDep r d /\ dependents r = d1 ++ d :: d2).
Proof.
  induction rs as [|r rs IH]; [done|]; cbn [find_cancel]; destruct (List.find _ (dependents r)) as [d|] eqn:Ed.
  - intros [= <-]; destruct (find_dep _ _ _ _ Ed) as (d1 & d2 & E); exists r, [], rs; split; [done|]; right; by exists d, d1, d2.
  - destruct (cancels ck m (info r)); [intros [= <-]; exists r, [], rs; by split; [|left]|]; intros Hf; destruct (IH Hf) as (r1 & l1 & l2 & -> & H1); by exists r1, (r :: l1), l2.
Qed.

Lemma inv_rocs l evs rs : inv l -> forallb probe_ok evs = true -> list_ok rs -> (scanning l = true -> Forall (fun r => idle_info (info r)) rs) ->
  roc_channel rs = roc_channel (roc_list l) -> inv (set_rocs (app_log l evs) rs).
Proof.
  intros [A B C E F G] Hp Hl Hs Hc; constructor; try done; [cbn; by rewrite E, Hc|]; unfold probes_ok; cbn; by rewrite forallb_app, G, Hp.
Qed.

Lemma upd_at l l1 r l2 r' : roc_list l = l1 ++ r :: l2 -> NoDup (r_id <$> infos (roc_list l)) -> upd_roc l (r_id (info r)) r' = set_rocs l (l1 ++ r' :: l2).
Proof. intros El Hn; rewrite El in Hn; destruct (mid_ops l1 r l2 Hn) as (_ & A & _); unfold upd_roc; rewrite El; exact (f_equal (set_rocs l) (A r')). Qed.

Lemma del_at l l1 r l2 : roc_list l = l1 ++ r :: l2 -> NoDup (r_id <$> infos (roc_list l)) -> list_del l (r_id (info r)) = set_rocs l (l1 ++ l2).
Proof. intros El Hn; rewrite El in Hn; destruct (mid_ops l1 r l2 Hn) as (_ & _ & A); unfold list_del; rewrite El; exact (f_equal (set_rocs l) A). Qed.

Lemma find_at l l1 r l2 : roc_list l = l1 ++ r :: l2 -> NoDup (r_id <$> infos (roc_list l)) -> find_roc l (r_id (info r)) = Some r.
Proof. intros El Hn; rewrite El in Hn; destruct (mid_ops l1 r l2 Hn) as (A & _ & _); unfold find_roc; rewrite El; exact A. Qed.

(** A ROC with [abort] set: its work ends it, wherever it is. *)
Lemma abort_work e l l1 r l2 r' : roc_list l = l1 ++ r :: l2 -> NoDup (r_id <$> infos (roc_list l)) -> r_id (info r') = r_id (info r) -> dependents r' = dependents r -> abort (info r') = true ->
  ieee80211_sw_roc_work h e (upd_roc l (r_id (info r)) r') (r_id (info r)) = finish_roc h e (set_rocs l (l1 ++ l2)) (set_info r' (set_roc_work (info r') Idle)).
Proof.
  intros El Hn Hid Hd Ha; rewrite (upd_at l l1 r l2 r' El Hn); set (la := set_rocs l (l1 ++ r' :: l2)); set (r2 := set_info r' (set_roc_work (info r') Idle)).
  assert (Hn1 : NoDup (r_id <$> infos (roc_list la))) by (eapply perm_nodup; [|rewrite El in Hn; exact Hn]; unfold la; cbn [set_rocs roc_list]; rewrite !ids_split; cbn [fmap list_fmap]; by rewrite Hid, Hd).
  unfold ieee80211_sw_roc_work; rewrite <- Hid, (find_at la l1 r' l2 eq_refl Hn1); fold r2; rewrite (upd_at la l1 r' l2 r2 eq_refl Hn1); change (abort (info r2)) with (abort (info r')); rewrite Ha.
  set (lb := set_rocs la (l1 ++ r2 :: l2)); assert (Hn2 : NoDup (r_id <$> infos (roc_list lb))) by (eapply perm_nodup; [|exact Hn1]; unfold la, lb; cbn [set_rocs roc_list]; rewrite !ids_split; done).
  change (r_id (info r')) with (r_id (info r2)); by rewrite (del_at lb l1 r2 l2 eq_refl Hn2).
Qed.

Lemma cancel_roc_spec e l ck m : inv l -> inv (ieee80211_cancel_roc h e l ck m).1 /\ ledger (ieee80211_cancel_roc h e l ck m).1 ≡ₚ ledger l.
Proof.
  intros Hi; unfold ieee80211_cancel_roc; destruct (find_cancel ck m (roc_list l)) as [f|] eqn:Ef; [|done].
  destruct (find_cancel_spec _ _ _ _ Ef) as (r & l1 & l2 & El & [-> |(d & d1 & d2 & -> & Ed)]); pose proof (i_list _ Hi) as Hl; pose proof (lo_nodup _ Hl) as Hn; pose proof Hn as Hn0; rewrite El in Hl, Hn0.
  - destruct (ops_roc h) eqn:Ho.
    + set (la := if started (info r) then emit l CancelHwRoc else l).
      assert (Ha : inv la /\ ledger la ≡ₚ ledger l /\ roc_list la = roc_list l /\ scanning la = scanning l).
      { unfold la; destruct (started (info r)); [|done]; split; [by apply (inv_app_log l [CancelHwRoc])|split; [|done]]; rewrite emit_app, ledger_app_log; by rewrite app_nil_r. }
      destruct Ha as (Ha & La & Ra & Sa); clearbody la; destruct (_ && _); [done|]; rewrite El in Ra; cbn [fst]; rewrite (del_at la l1 r l2 Ra) by (rewrite Ra, <- El; exact Hn).
      set (lb := if started (info r) then _ else _); assert (Hb : inv lb /\ ledger lb ≡ₚ ledger (set_rocs la (l1 ++ l2))).
      { unfold lb; destruct (started (info r)) eqn:Est; [|split; [|done]; by apply (remove_idle la l1 r l2)]; destruct (started_first l l1 r l2 Hi El Est) as (-> & Hsc & Hid); cbn [app] in *.
        apply next_roc_spec; [|by rewrite <- Hsc, <- Sa]; pose proof (list_ok_remove [] r l2 Hl) as Hok; pose proof Ha as [A B C E F G]; constructor; try done.
        cbn; rewrite E; unfold roc_channel; by rewrite Ho. }
      destruct Hb as [Hb Lb]; destruct (notify_destroy_spec lb r) as (evs & -> & Eev & Pev); split; [by apply inv_app_log|]; rewrite ledger_app_log, Lb, Eev, <- La, <- (ledger_rocs la l1 r l2), <- Ra, set_rocs_id; done.
    + cbn [fst]; set (rn := set_info r (queue_roc (set_abort (info r)) Queued)).
      assert (Hr : r_id (info rn) = r_id (info r) /\ abort (info rn) = true /\ started (info rn) = started (info r) /\ held (info rn) = held (info r)) by (unfold rn, queue_roc; cbn [set_info info]; by destruct (work _)).
      destruct Hr as (Hr1 & Hr2 & Hr3 & Hr4); rewrite Hr1, (abort_work e l l1 r l2 rn El Hn Hr1 eq_refl Hr2); by apply (end_roc_spec e l l1 r).
  - cbn [fst]; set (r' := Roc _ _); rewrite (upd_at l l1 r l2 r' El Hn).
    assert (Hds : dependents r' = d1 ++ d2).
    { unfold r'; cbn [dependents]; rewrite Ed; apply dep_split; rewrite <- Ed; rewrite ids_split in Hn0; apply list.NoDup_app in Hn0 as (Hn1 & _ & _); cbn [fmap list_fmap] in Hn1; by apply list.NoDup_cons in Hn1 as [_ Hn1]. }
    assert (Hp : info r :: dependents r ≡ₚ d :: info r' :: dependents r') by (rewrite Hds, Ed; cbn [r' info]; solve_Permutation).
    destruct (notify_one_spec (set_rocs l (l1 ++ r' :: l2)) d) as (evs & -> & Eev & Pev); split.
    + apply (inv_rocs l evs); [done|done| | |].
      * apply (list_ok_replace l1 r r' l2 Hl).
        -- rewrite ids_split, Hp in Hn0; rewrite ids_split; cbn [fmap list_fmap app] in Hn0 |- *; by apply list.NoDup_cons in Hn0 as [_ Hn0].
        -- rewrite Hds, Ed; intros Hf; apply Forall_app in Hf as [F1 F2]; apply Forall_cons_1 in F2 as [_ F2]; by apply Forall_app.
        -- done.
        -- intros Hne; pose proof (lo_tail _ Hl) as Ht; destruct l1 as [|r1 l1]; [done|]; cbn [app tail] in Ht; apply Forall_app in Ht as [_ Ht]; by apply Forall_cons_1 in Ht as [Ht _].
      * intros Hs; pose proof (i_excl _ Hi Hs) as Hx; rewrite El in Hx; apply Forall_app in Hx as [X1 X2]; apply Forall_cons_1 in X2 as [X2 X3]; apply Forall_app; split; [done|]; by apply Forall_cons_2.
      * rewrite El; unfold roc_channel; destruct (ops_roc h); [done|]; by destruct l1.
    + rewrite ledger_app_log, Eev; assert (Hl0 : ledger l = ledger (set_rocs l (l1 ++ r :: l2))) by (by rewrite <- El, set_rocs_id); rewrite Hl0, !ledger_rocs, Hp; cbn [mbind list_bind]; solve_Permutation.
Qed.
(** *** A new ROC *)

Lemma insert_mid {A} (l1 : list A) x y l2 : <[length l1 := y]> (l1 ++ x :: l2) = l1 ++ y :: l2.
Proof. induction l1 as [|a l1 IH]; [done|]; cbn; by f_equal. Qed.

Lemma same_roc_spec c i rs : forall k n r, same_roc c i rs k = Some (n, r) -> exists l1 l2, rs = l1 ++ r :: l2 /\ n = (k + length l1)%nat.
Proof.
  induction rs as [|r0 rs IH]; [done|]; intros k n r; cbn [same_roc]; case_bool_decide; [intros [= <- <-]; exists [], rs; split; [done|cbn; lia]|].
  intros Hs; destruct (IH _ _ _ Hs) as (l1 & l2 & -> & ->); exists (r0 :: l1), l2; split; [done|cbn; lia].
Qed.

(** The one at some place becomes another that holds one more. *)
Lemma join_inv l evs l1 t t' r r' l2 : inv l -> roc_list l = l1 ++ t :: l2 -> r_id r ∉ r_id <$> infos (roc_list l) -> idle_info r' -> r_id r' = r_id r ->
  omap answer evs ++ held r' = held r -> forallb probe_ok evs = true -> held (info t') = held (info t) -> r_id (info t') = r_id (info t) -> dependents t' = dependents t ++ [r'] ->
  started (info t') = started (info t) -> r_chan (info t') = r_chan (info t) -> (0 < duration (info t) -> 0 < duration (info t')) -> (started (info t) = false -> work (info t') = work (info t)) ->
  inv (set_rocs (app_log l evs) (l1 ++ t' :: l2)) /\ ledger (set_rocs (app_log l evs) (l1 ++ t' :: l2)) ≡ₚ ledger l ++ held r.
Proof.
  intros Hi El Hfresh Hr' Hid He Hp Hh Ht Hd Hst Hc Hdur Hw; pose proof (i_list _ Hi) as Hl; rewrite El in Hl, Hfresh; split.
  - assert (Hidle : idle_info (info t) -> idle_info (info t')) by (intros [I1 I2]; split; [congruence|by rewrite Hw]); apply inv_rocs; [done|done| | |].
    + apply (list_ok_replace l1 t t' l2 Hl); [|intros Hf; rewrite Hd; apply Forall_app; by split; [|apply Forall_cons_2]|done|].
      * assert (Hperm : r_id <$> infos (l1 ++ t' :: l2) ≡ₚ r_id r :: (r_id <$> infos (l1 ++ t :: l2))).
        { rewrite !ids_split; cbn [fmap list_fmap]; rewrite Ht, Hd, fmap_app; cbn [fmap list_fmap]; rewrite Hid; solve_Permutation. }
        rewrite Hperm; apply list.NoDup_cons; split; [done|exact (lo_nodup _ Hl)].
      * intros Hne; pose proof (lo_tail _ Hl) as Htl; destruct l1 as [|r1 l1]; [done|]; cbn [app tail] in Htl; apply Forall_app in Htl as [_ Htl]; apply Forall_cons_1 in Htl as [Htl _]; by apply Hidle.
    + intros Hs; pose proof (i_excl _ Hi Hs) as Hx; rewrite El in Hx; apply Forall_app in Hx as [X1 X2]; apply Forall_cons_1 in X2 as [X2 X3]; apply Forall_app; split; [done|]; apply Forall_cons_2; [by apply Hidle|done].
    + rewrite El; unfold roc_channel; destruct (ops_roc h); [done|]; destruct l1; [|done]; cbn [app]; by rewrite Hst, Hc.
  - assert (Hl0 : ledger l = ledger (set_rocs l (l1 ++ t :: l2))) by (by rewrite <- El, set_rocs_id); rewrite Hl0; change (set_rocs (app_log l evs) (l1 ++ t' :: l2)) with (app_log (set_rocs l (l1 ++ t' :: l2)) evs).
    rewrite ledger_app_log, !ledger_rocs; cbn [mbind list_bind]; rewrite Hh, Hd, bind_app; cbn [mbind list_bind]; rewrite <- He; solve_Permutation.
Qed.

(** One more in the list, after [l1]. *)
Lemma add_inv l evs l1 r r' l2 : inv l -> roc_list l = l1 ++ l2 -> l1 <> [] -> r_id r ∉ r_id <$> infos (roc_list l) -> idle_info r' -> r_id r' = r_id r -> (ops_roc h = false -> 0 < duration r') ->
  omap answer evs ++ held r' = held r -> forallb probe_ok evs = true ->
  inv (set_rocs (app_log l evs) (l1 ++ Roc r' [] :: l2)) /\ ledger (set_rocs (app_log l evs) (l1 ++ Roc r' [] :: l2)) ≡ₚ ledger l ++ held r.
Proof.
  intros Hi El Hne Hfresh Hr' Hid Hdur He Hp; pose proof (i_list _ Hi) as [A B C E]; rewrite El in A, B, C, E, Hfresh; split.
  - apply inv_rocs; [done|done| | |].
    + constructor.
      * rewrite ids_split; cbn [info dependents fmap list_fmap app]; rewrite Hid; apply list.NoDup_cons; by split.
      * destruct l1 as [|r1 l1]; [done|]; cbn [app tail] in *; apply Forall_app in B as [B1 B2]; apply Forall_app; split; [done|]; by apply Forall_cons_2.
      * apply Forall_app in C as [C1 C2]; apply Forall_app; split; [done|]; by apply Forall_cons_2.
      * intros Hs; specialize (E Hs); apply Forall_app in E as [C1 C2]; apply Forall_app; split; [done|]; apply Forall_cons_2; [by apply Hdur|done].
    + intros Hs; pose proof (i_excl _ Hi Hs) as Hx; rewrite El in Hx; apply Forall_app in Hx as [X1 X2]; apply Forall_app; split; [done|]; by apply Forall_cons_2.
    + rewrite El; unfold roc_channel; destruct (ops_roc h); [done|]; by destruct l1.
  - assert (Hl0 : ledger l = ledger (set_rocs l (l1 ++ l2))) by (by rewrite <- El, set_rocs_id); rewrite Hl0; change (set_rocs (app_log l evs) ?x) with (app_log (set_rocs l x) evs).
    rewrite ledger_app_log, ledger_rocs; cbn [mbind list_bind info dependents]; rewrite <- He; solve_Permutation.
Qed.

Lemma combine_spec e l l1 t l2 r l' : inv l -> roc_list l = l1 ++ t :: l2 -> r_id r ∉ r_id <$> infos (roc_list l) -> idle_info r ->
  combine_roc h e l r (length l1) t = Some l' -> inv l' /\ ledger l' ≡ₚ ledger l ++ held r.
Proof.
  intros Hi El Hfresh Hr; unfold combine_roc; rewrite El; destruct (started (info t)) eqn:Est; cbn [negb].
  - destruct (started_first l l1 t l2 Hi El Est) as (-> & Hsc & Hid); cbn [app length] in *; destruct (ops_roc h) eqn:Ho.
    + destruct (hw_begun (info t)); cbn [negb].
      * destruct (time_before _ _); [|done]; destruct (handle_spec l r) as (evs & r' & -> & He & Hp & Hs); pose proof Hs as (S1 & _ & _ & S4 & _ & S6 & S7).
        assert (Hr' : idle_info r') by (destruct Hr; split; congruence); destruct (0 <? _); intros [= <-]; cbn [app_log roc_list]; rewrite El.
        -- cbn [take drop app]; apply (add_inv l evs [t] r r' l2); try done; congruence.
        -- apply (join_inv l evs [] t _ r r' l2); done.
      * intros [= <-]; destruct (join_inv l [] [] t (Roc (info t) (dependents t ++ [r])) r r l2) as [A B]; try done; rewrite app_log_nil in A, B; by split.
    + destruct (work (info t)) as [|expires|]; [done| |done]; destruct (handle_spec l r) as (evs & r' & -> & He & Hp & Hs); pose proof Hs as (S1 & _ & _ & S4 & _ & S6 & S7).
      assert (Hr' : idle_info r') by (destruct Hr; split; congruence); intros [= <-]; cbn [app_log roc_list]; rewrite El; apply (join_inv l evs [] t _ r r' l2); try done; cbn; congruence.
  - intros [= <-]; rewrite insert_mid; set (t' := Roc _ _); destruct (join_inv l [] l1 t t' r r l2) as [A B]; try done; [cbn; lia|]; rewrite app_log_nil in A, B; by split.
Qed.
Definition with_cookie (id : nat) (c : Z) (i : roc_info) : roc_info := if bool_decide (r_id i = id) then set_cookie i c else i.

Lemma cookie_infos id c rs : infos (cookie_in id c <$> rs) = with_cookie id c <$> infos rs.
Proof. induction rs as [|r rs IH]; [done|]; unfold infos in *; cbn [fmap list_fmap mbind list_bind]; rewrite IH, fmap_app; done. Qed.

Lemma cookie_keeps id c i : r_id (with_cookie id c i) = r_id i /\ held (with_cookie id c i) = held i /\ (idle_info i -> idle_info (with_cookie id c i)) /\
  duration (with_cookie id c i) = duration i /\ started (with_cookie id c i) = started i /\ r_chan (with_cookie id c i) = r_chan i.
Proof. unfold with_cookie; by destruct (bool_decide _). Qed.

Lemma give_cookie_spec l id : inv l -> inv (give_cookie l id).1 /\ ledger (give_cookie l id).1 = ledger l.
Proof.
  intros Hi; unfold give_cookie; destruct (if _ =? 0 then _ else _) as [c n]; cbn [fst]; pose proof (i_list _ Hi) as [A B C E].
  assert (Hid : forall rs, Forall (fun r => idle_info (info r)) rs -> Forall (fun r => idle_info (info r)) (cookie_in id c <$> rs)).
  { intros rs Hr; apply Forall_fmap; eapply list.Forall_impl; [exact Hr|]; intros r Hx; by apply (cookie_keeps id c). }
  split; [pose proof Hi as [F G H J K L]; constructor; try done|].
  - cbn [set_rocs roc_list]; constructor.
    + rewrite cookie_infos; assert (Hm : r_id <$> (with_cookie id c <$> infos (roc_list l)) = r_id <$> infos (roc_list l)); [|by rewrite Hm].
      rewrite <- list_fmap_compose; apply list_fmap_ext; intros ? x _; apply (cookie_keeps id c).
    + destruct (roc_list l) as [|r rs]; [done|]; cbn [fmap list_fmap tail] in *; by apply Hid.
    + apply Forall_fmap; eapply list.Forall_impl; [exact C|]; intros r Hr; cbn; apply Forall_fmap; eapply list.Forall_impl; [exact Hr|]; intros x Hx; by apply (cookie_keeps id c).
    + intros Hs; apply Forall_fmap; eapply list.Forall_impl; [exact (E Hs)|]; intros r Hr; change (0 < duration (with_cookie id c (info r))); by rewrite (proj1 (proj2 (proj2 (proj2 (cookie_keeps id c (info r)))))).
  - intros Hs; by apply Hid, H.
  - cbn; rewrite J; unfold roc_channel; destruct (ops_roc h); [done|]; destruct (roc_list l) as [|r rs]; [done|]; cbn [fmap list_fmap].
    change (info (cookie_in id c r)) with (with_cookie id c (info r)); destruct (cookie_keeps id c (info r)) as (_ & _ & _ & _ & -> & ->); done.
  - unfold ledger; cbn [set_rocs set_counter log scan roc_list]; rewrite cookie_infos; do 2 f_equal; clear; induction (infos (roc_list l)) as [|x xs IH]; [done|].
    cbn [fmap list_fmap mbind list_bind]; destruct (cookie_keeps id c x) as (_ & -> & _); f_equal; exact IH.
Qed.

Lemma new_held id i c dur tx : tx <> Some 0 -> held (new_roc id i c dur tx) = roc_asks id tx.
Proof. intros Ht; unfold held; cbn; destruct tx as [f|]; [|done]; cbn; destruct (Z.eqb_spec f 0); [congruence|done]. Qed.

Lemma start_roc_spec e l id i c dur tx : inv l -> id ∉ r_id <$> infos (roc_list l) -> tx <> Some 0 -> (ops_roc h = false -> 0 < dur) ->
  let '(l', rc, _) := ieee80211_start_roc_work h e l id i c dur tx in inv l' /\ ledger l' ≡ₚ ledger l ++ (if rc =? 0 then roc_asks id tx else []).
Proof.
  intros Hi Hfresh Htx Hdur; unfold ieee80211_start_roc_work; set (r := new_roc id i c dur tx); assert (Hsame : inv l /\ ledger l ≡ₚ ledger l ++ []) by (by rewrite app_nil_r).
  destruct (_ && _); [exact Hsame|]; destruct (negb (alloc_ok e)); [exact Hsame|]; cbn zeta; rewrite <- (new_held id i c dur tx Htx); fold r.
  assert (Hfin : forall l', inv l' /\ ledger l' ≡ₚ ledger l ++ held r -> let '(l2, rc, _) := (match tx with None => let '(l, ck) := give_cookie l' id in (l, 0, ck) | Some f => (l', 0, f) end) in
    inv l2 /\ ledger l2 ≡ₚ ledger l ++ (if rc =? 0 then held r else [])).
  { intros l' [A B]; destruct tx; [done|]; destruct (give_cookie_spec l' id A) as [E F]; destruct (give_cookie l' id) as [l2 ck]; cbn [fst] in *; rewrite F; done. }
  destruct (negb (bool_decide (roc_list l = [])) || scanning l) eqn:Eb.
  - assert (Happ : inv (set_rocs l (roc_list l ++ [Roc r []])) /\ ledger (set_rocs l (roc_list l ++ [Roc r []])) ≡ₚ ledger l ++ held r).
    { destruct (decide (roc_list l = [])) as [E0|Hne].
      - assert (Hled : ledger (set_rocs l [Roc r []]) ≡ₚ ledger l ++ held r) by (unfold ledger; cbn [set_rocs log scan roc_list]; rewrite E0; unfold infos; cbn [mbind list_bind info dependents]; solve_Permutation).
        rewrite E0; cbn [app]; split; [|exact Hled]; pose proof Hi as [A B C E F G]; rewrite E0 in *; constructor; try done.
        + constructor; [by apply NoDup_singleton|done|by apply Forall_cons_2|]; intros Hs; apply Forall_cons_2; [by apply Hdur|done].
        + intros _; by apply Forall_cons_2.
      - destruct (add_inv l [] (roc_list l) r r []) as [A B]; try done; [by rewrite app_nil_r|]; rewrite app_log_nil in A, B; by split. }
    destruct (same_roc c i (roc_list l) 0) as [[n tmp]|] eqn:Es; [|apply Hfin; exact Happ].
    destruct (same_roc_spec _ _ _ _ _ _ Es) as (l1 & l2 & El & ->); cbn [Nat.add]; destruct (combine_roc h e l r (length l1) tmp) as [l'|] eqn:Ec; cbn [default]; apply Hfin; [|exact Happ].
    by apply (combine_spec e l l1 tmp l2 r l').
  - apply orb_false_iff in Eb as [E0 Esc]; apply negb_false_iff, bool_decide_eq_true in E0.
    assert (Happ : forall l0 r0, quiet l l0 -> tuned h l0 -> r_id r0 = r_id r -> held r0 = held r -> duration r0 = duration r -> (ops_roc h = false -> started r0 = false) ->
      inv (set_rocs l0 (roc_list l0 ++ [Roc r0 []])) /\ ledger (set_rocs l0 (roc_list l0 ++ [Roc r0 []])) ≡ₚ ledger l ++ held r).
    { intros l0 r0 Hq Ht H1 H2 H3 H4; pose proof (inv_quiet l l0 Hi Hq Ht) as Hi0; pose proof (q_rocs _ _ Hq) as Hrl; rewrite E0 in Hrl; rewrite Hrl; cbn [app]; split.
      - pose proof Hi0 as [A B C E F G]; rewrite Hrl in *; constructor; try done.
        + constructor; [by apply NoDup_singleton|done|by apply Forall_cons_2|]; intros Hs; apply Forall_cons_2; [cbn [info]; rewrite H3; by apply Hdur|done].
        + intros Hs; assert (Hs2 : scanning l = true) by (rewrite <- Hs; unfold scanning; cbn [set_rocs scan]; by rewrite (q_scan _ _ Hq)); congruence.
        + cbn; rewrite E; unfold roc_channel; cbn; destruct (ops_roc h); [done|]; by rewrite H4.
      - rewrite <- (quiet_ledger _ _ Hq); unfold ledger; cbn [set_rocs log scan roc_list]; rewrite Hrl; unfold infos; cbn [mbind list_bind info dependents]; cbn [app mbind list_bind]; rewrite H2; solve_Permutation. }
    destruct (ops_roc h) eqn:Ho; cbn [negb].
    + set (l0 := emit l _); assert (Hq : quiet l l0) by (by apply quiet_emit); assert (Ht : tuned h l0) by exact (i_tuned _ Hi).
      destruct (negb (roc_rc e =? 0)) eqn:Erc.
      * apply negb_true_iff in Erc; rewrite Erc, app_nil_r, (quiet_ledger _ _ Hq); split; [by apply (inv_quiet l)|done].
      * by apply Hfin, Happ.
    + apply Hfin, Happ; try done; [apply quiet_refl|exact (i_tuned _ Hi)].
Qed.
(** *** Scans *)

Hypothesis one_channel : use_chanctx h = false.

(** What holds whatever the scan does, but for the radio. *)
Record base (l : local) : Prop := Base { b_list : list_ok (roc_list l); b_tmp : tmp_channel l = roc_channel (roc_list l); b_probes : probes_ok l }.

Lemma base_quiet l l' : base l -> quiet l l' -> base l'.
Proof. intros [A B C] Q; pose proof Q as [Q1 Q2 Q3 _ _ _]; constructor; [by rewrite Q2|by rewrite Q2, Q3|by eapply quiet_probes]. Qed.

Lemma base_log l evs : base l -> forallb probe_ok evs = true -> base (app_log l evs).
Proof. intros [A B C] He; constructor; try done; unfold probes_ok; cbn; by rewrite forallb_app, C, He. Qed.

Lemma inv_base l : inv l -> base l. Proof. intros [A B C E F G]; by constructor. Qed.

Lemma base_inv l : base l -> scan_mode (scan l) -> (scanning l = true -> Forall (fun r => idle_info (info r)) (roc_list l)) -> tuned h l -> inv l.
Proof. by intros [A B C] H1 H2 H3; constructor. Qed.

Lemma config_base e l b : base l -> base (hw_config h e l b) /\ tuned h (hw_config h e l b) /\ quiet l (hw_config h e l b).
Proof. intros Hb; pose proof (hw_config_quiet h e l b) as Q; split; [by eapply base_quiet|split; [apply hw_config_tuned|exact Q]]. Qed.

Lemma next_roc_scan e l : scan_req (scan l) = None -> scan (ieee80211_start_next_roc h e l) = scan l /\ exists evs, log (ieee80211_start_next_roc h e l) = log l ++ evs.
Proof.
  intros Hr; unfold ieee80211_start_next_roc; destruct (roc_list l) as [|r rs]; [unfold ieee80211_run_deferred_scan; rewrite Hr; split; [done|exists []; by rewrite app_nil_r]|].
  destruct (started (info r)); [split; [done|exists []; by rewrite app_nil_r]|]; destruct (ops_roc h); [destruct (negb _)|]; (split; [done|]); [by eexists..|exists []; by rewrite app_nil_r].
Qed.

(** The end of [__ieee80211_scan_completed]. *)
Definition scan_over (e : env) (l : local) (rq : request) (ab was_hw_scan : bool) : local :=
  let l := set_scan l (set_hw_req (scan l) None (hw_scan_band (scan l))) in
  let l := if internal rq then l else emit l (ScanDone (rq_id rq) ab) in
  let l := set_scan l (set_bits (set_req (scan l) None None) false false false false false) in
  let s := scan l in
  let l := set_scan l (set_position s None (scan_channel_idx s) (next_scan_state s) (leave_oper_channel_time s)) in
  let l := hw_config h e l false in
  let l := if was_hw_scan then l else ieee80211_offchannel_return h e l in
  ieee80211_start_next_roc h e l.

Definition answers (l l' : local) (rq : request) : Prop := internal rq = false -> exists evs ab, log l' = log l ++ evs /\ ScanDone (rq_id rq) ab ∈ evs.

Lemma over_spec e l rq ab was_hw : base l -> scan_req (scan l) = Some rq -> scan_work (scan l) = false ->
  let l' := scan_over e l rq ab was_hw in inv l' /\ ledger l' ≡ₚ ledger l /\ scanning l' = false /\ scan_req (scan l') = None /\ scan_work (scan l') = false /\ answers l l' rq.
Proof.
  intros Hb Hr Hw; unfold scan_over; cbn zeta; set (evs := if internal rq then [] else [ScanDone (rq_id rq) ab]).
  set (s := Scan false false false false false None None None (hw_scan_band (scan l)) None (scan_channel_idx (scan l)) (next_scan_state (scan l)) (leave_oper_channel_time (scan l)) false).
  set (l1 := set_scan (app_log l evs) s); match goal with |- context [hw_config h e ?x false] => replace x with l1 end.
  2: { unfold l1, evs, s; destruct (internal rq); [rewrite app_log_nil|]; unfold set_scan, set_position, set_bits, set_req, set_hw_req; cbn; by rewrite Hw. }
  assert (Hb1 : base l1) by (destruct Hb as [A B C]; constructor; try done; unfold l1, evs, probes_ok; cbn; rewrite forallb_app, C; by destruct (internal rq)).
  assert (Hl1 : ledger l1 ≡ₚ ledger l) by (unfold ledger, l1, evs, pending; cbn [set_scan app_log log scan roc_list s scan_req]; rewrite Hr, omap_app; destruct (internal rq); cbn [omap list_omap answer]; solve_Permutation).
  destruct (config_base e l1 false Hb1) as (Hb2 & Ht2 & Q2); set (l2 := hw_config h e l1 false) in *; set (l3 := if was_hw then l2 else _).
  assert (H3 : quiet l2 l3 /\ tuned h l3) by (unfold l3; destruct was_hw; [split; [apply quiet_refl|done]|by apply return_quiet]); destruct H3 as [Q3 Ht3].
  pose proof (quiet_trans _ _ _ Q2 Q3) as Q; assert (Hsc : scan l3 = s) by (by rewrite (q_scan _ _ Q)); assert (Hs3 : scanning l3 = false) by (unfold scanning; by rewrite Hsc).
  assert (Hi3 : inv l3) by (apply base_inv; [by eapply base_quiet|rewrite Hsc; by apply MNone|congruence|done]).
  destruct (next_roc_spec e l3 Hi3 Hs3) as [N1 N2]; destruct (next_roc_scan e l3) as [E1 [ev2 E2]]; [by rewrite Hsc|]; split_and!; [exact N1|by rewrite N2, (quiet_ledger _ _ Q)|by unfold scanning; rewrite E1, Hsc|by rewrite E1, Hsc|by rewrite E1, Hsc|].
  intros Hint; destruct (q_log _ _ Q) as (ev1 & L1 & _); exists (evs ++ ev1 ++ ev2), ab; rewrite E2, L1; unfold evs; cbn [l1 set_scan app_log log]; rewrite Hint; split; [unfold evs; rewrite Hint; by rewrite !app_assoc|by left].
Qed.
Lemma completed_over e l rq ab : scan_req (scan l) = Some rq -> exists ab', __ieee80211_scan_completed h e l ab false = Some (scan_over e l rq ab' false).
Proof. intros Hr; unfold __ieee80211_scan_completed; rewrite Hr; cbn [andb mbind option_bind]; eexists; reflexivity. Qed.

(** A part of a driver's scan that is over: there may be another band. *)
Lemma completed_hw e l rq i ab : base l -> tuned h l -> Forall (fun r => idle_info (info r)) (roc_list l) -> bits (scan l) = (false, true, false, false, false) -> scan_req (scan l) = Some rq -> scan_sdata (scan l) = Some i ->
  scan_channel (scan l) = None -> scan_work (scan l) = false -> exists l', __ieee80211_scan_completed h e l ab true = Some l' /\ inv l' /\ ledger l' ≡ₚ ledger l.
Proof.
  intros Hb Ht Hid Hbits Hr Hs Hc Hw; unfold __ieee80211_scan_completed, ieee80211_prep_hw_scan; rewrite Hr; cbn [mbind option_bind].
  assert (Hmode : forall req b, scan_mode (set_hw_req (scan l) req b)) by (intros req b; apply (MHw _ rq i false false); done).
  assert (Hset : forall req b, let l1 := set_scan l (set_hw_req (scan l) req b) in base l1 /\ ledger l1 = ledger l /\ inv l1).
  { intros req b l1; assert (B1 : base l1) by (destruct Hb; by constructor); split_and!; [done|done|]; apply base_inv; [done|apply Hmode|by intros _|exact Ht]. }
  match goal with |- context [if ?b && _ then _ else _] => set (ab1 := negb b) end; destruct (true && _) eqn:Ego; cycle 1.
  { cbn [mbind option_bind andb]; eexists; split; [reflexivity|]; match goal with |- context [ScanDone _ ?b] => pose proof (over_spec e l rq b true Hb Hr Hw) as (A & B & _) end; by split. }
  destruct (next_band _ _ _) as [[cs b]|]; cbn [mbind option_bind fst snd andb].
  - destruct (Hset (Some cs) b) as (B1 & L1 & I1); set (l1 := set_scan l (set_hw_req (scan l) (Some cs) b)) in *; assert (Hlog : base (drv_hw_scan l1) /\ ledger (drv_hw_scan l1) ≡ₚ ledger l).
    { split; [by apply (base_log l1 [HwScan cs])|]; unfold drv_hw_scan; rewrite emit_app, ledger_app_log, L1; by rewrite app_nil_r. }
    destruct Hlog as [Hb2 Hl2]; destruct (hw_scan_rc e =? 0); eexists; (split; [reflexivity|]); [split; [by apply (inv_app_log l1 [HwScan cs])|done]|].
    match goal with |- context [ScanDone _ ?b] => pose proof (over_spec e (drv_hw_scan l1) rq b true Hb2 Hr Hw) as (A & B & _) end; split; [exact A|by rewrite <- Hl2].
  - destruct (Hset (hw_scan_req (scan l)) IEEE80211_NUM_BANDS) as (B1 & L1 & I1); eexists; split; [reflexivity|].
    match goal with |- context [set_hw_req ?s None _] => pose proof (over_spec e (set_scan l (set_hw_req (scan l) (hw_scan_req (scan l)) IEEE80211_NUM_BANDS)) rq) as Hov end.
    match goal with |- context [ScanDone _ ?b] => destruct (Hov b true B1 Hr Hw) as (A & B & _) end; split; [exact A|by rewrite <- L1].
Qed.

(** *** A step of a software scan *)

Record sw_ok (rq : request) (i : nat) (l : local) : Prop := SwOk {
  so_base : base l; so_bits : bits (scan l) = (true, false, false, false, false); so_req : scan_req (scan l) = Some rq; so_sdata : scan_sdata (scan l) = Some i;
  so_pos : position rq (scan l); so_work : scan_work (scan l) = false; so_idle : Forall (fun r => idle_info (info r)) (roc_list l); so_tuned : tuned h l }.

(** What is left to do of a scan. *)
Definition left_to_scan (rq : request) (s : scan_info) : nat :=
  let k := (length (channels rq) - scan_channel_idx s)%nat in
  match next_scan_state s with
  | SCAN_DECISION => 5 * k | SCAN_SUSPEND => 5 * k - 1 | SCAN_RESUME => 5 * k - 2 | SCAN_SET_CHANNEL => 5 * k - 3 | SCAN_SEND_PROBE => 5 * k + 1 | SCAN_ABORT => 0
  end%nat.

Lemma sw_move rq i l c idx st t : sw_ok rq i l -> (let l' := set_scan l (set_position (scan l) c idx st t) in tuned h l' -> position rq (scan l') -> sw_ok rq i l').
Proof. intros [[A1 A2 A3] B C E F G H I] l' Ht Hp; constructor; try done; by constructor. Qed.

Lemma sw_quiet rq i l l' : sw_ok rq i l -> quiet l l' -> tuned h l' -> sw_ok rq i l'.
Proof. intros [A B C E F G H I] Q Ht; pose proof Q as [Q1 Q2 _ _ _ _]; constructor; rewrite ?Q1, ?Q2; try done; by eapply base_quiet. Qed.

Lemma probe_events_hw n : forall l k, fold_left (fun l _ => emit l (Probe (hw_channel l))) (seq k n) l = app_log l (repeat (Probe (hw_channel l)) n).
Proof. induction n as [|n IH]; intros l k; cbn [seq fold_left repeat]; [by rewrite app_log_nil|]; rewrite IH, emit_app, app_log_app; done. Qed.

Lemma repeat_probe c n : passive c = false -> forallb probe_ok (repeat (Probe c) n) = true /\ omap answer (repeat (Probe c) n) = [].
Proof. intros Hp; induction n as [|n [IH1 IH2]]; [done|]; cbn; by rewrite Hp, IH1. Qed.
Lemma decision_spec e rq i l d : sw_ok rq i l -> next_scan_state (scan l) = SCAN_DECISION -> exists l' o, scan_step h e l rq d = Some (l', o) /\ sw_ok rq i l' /\ ledger l' = ledger l /\
  (forall x, o = Later x -> (left_to_scan rq (scan l') < left_to_scan rq (scan l))%nat).
Proof.
  intros Hok Hst; unfold scan_step; rewrite Hst; case_bool_decide as Hlen; [by exists l, (Complete false)|]; unfold ieee80211_scan_state_decision.
  destruct (look_at_ifaces _ _ _) as [[assoc tx] bi]; destruct (lookup_lt_is_Some_2 (channels rq) (scan_channel_idx (scan l))) as [c Hc]; [lia|]; rewrite Hc; cbn [mbind option_bind].
  match goal with |- context [goto l ?x] => set (st := x) end; assert (Hcase : st = SCAN_ABORT \/ st = SCAN_SUSPEND \/ st = SCAN_SET_CHANNEL) by (unfold st; destruct (_ && negb tx); [destruct (low_priority rq); auto|destruct (assoc && _); auto]).
  exists (goto l st), (Later 0); split; [done|]; split_and!; [|done|].
  - apply sw_move; [done|exact (so_tuned _ _ _ Hok)|]; unfold position; cbn; destruct Hcase as [-> |[-> | ->]]; [done|lia|lia].
  - intros _ _; unfold left_to_scan; cbn [goto set_scan scan set_position next_scan_state scan_channel_idx]; rewrite Hst; destruct Hcase as [-> |[-> | ->]]; lia.
Qed.

Lemma set_channel_spec e rq i l d : sw_ok rq i l -> next_scan_state (scan l) = SCAN_SET_CHANNEL -> exists l' o, scan_step h e l rq d = Some (l', o) /\ sw_ok rq i l' /\ ledger l' = ledger l /\
  (forall x, o = Later x -> (left_to_scan rq (scan l') < left_to_scan rq (scan l))%nat).
Proof.
  intros Hok Hst; unfold scan_step, ieee80211_scan_state_set_channel; rewrite Hst; pose proof (so_pos _ _ _ Hok) as Hpos; unfold position in Hpos; rewrite Hst in Hpos.
  destruct (lookup_lt_is_Some_2 (channels rq) (scan_channel_idx (scan l))) as [c Hc]; [lia|]; rewrite Hc; cbn [mbind option_bind]; set (s1 := set_position (scan l) (Some c) _ _ _); set (l1 := set_scan l s1).
  pose proof (hw_config_quiet h e l1 true) as Q; pose proof (hw_config_tuned h e l1 true) as T; unfold hw_config in Q, T; destruct (ieee80211_hw_config h e l1 true) as [l2 skip]; cbn [fst] in Q, T.
  pose proof (q_scan _ _ Q) as Es; change (scan l1) with s1 in Es; assert (Hc1 : scan_channel (scan l2) = Some c) by (by rewrite Es).
  assert (Hok2 : forall st, (st = SCAN_SEND_PROBE -> passive c = false) -> st = SCAN_DECISION \/ st = SCAN_SEND_PROBE ->
    let l3 := set_scan l2 (set_position (scan l2) (scan_channel (scan l2)) (Datatypes.S (scan_channel_idx (scan l2))) st (leave_oper_channel_time (scan l2))) in
    sw_ok rq i l3 /\ ledger l3 = ledger l /\ (left_to_scan rq (scan l3) < left_to_scan rq (scan l))%nat).
  { intros st Hp Hcase l3; split_and!.
    - destruct Hok as [[A1 A2 A3] B C E F G H I]; pose proof Q as [_ Q2 Q3 _ _ _]; constructor; unfold l3; cbn [set_scan scan roc_list]; rewrite ?Es, ?Q2; try done.
      + constructor; cbn [set_scan roc_list tmp_channel]; [by rewrite Q2|by rewrite Q2, Q3|]; apply (quiet_probes l1 l2 Q); exact A3.
      + unfold position; cbn [set_position next_scan_state scan_channel]; destruct Hcase as [-> | ->]; [done|]; exists c; split; [done|by apply Hp].
      + apply (tuned_same h l2); [exact T|done|]; unfold ieee80211_hw_conf_chan; cbn [set_scan scan]; by rewrite Es.
    - exact (quiet_ledger _ _ Q).
    - unfold left_to_scan, l3; cbn [set_scan scan set_position next_scan_state scan_channel_idx]; rewrite Es, Hst; cbn [s1 set_position scan_channel_idx]; destruct Hcase as [-> | ->]; lia. }
  destruct skip; [|destruct (passive c || _) eqn:Ep]; eexists _, _; (split; [reflexivity|]).
  - destruct (Hok2 SCAN_DECISION) as (A & B & E); [done|by left|]; by split_and!.
  - destruct (Hok2 SCAN_DECISION) as (A & B & E); [done|by left|]; by split_and!.
  - apply orb_false_iff in Ep as [Ep _]; destruct (Hok2 SCAN_SEND_PROBE) as (A & B & E); [done|by right|]; by split_and!.
Qed.

(** On an active channel the probes may go. *)
Lemma tuned_to l c : tuned h l -> scan_channel (scan l) = Some c -> hw_channel l = c.
Proof. intros Ht Hc; rewrite (Ht one_channel); unfold ieee80211_hw_conf_chan; by rewrite Hc. Qed.

Lemma send_probe_spec l rq : passive (hw_channel l) = false -> exists evs, (ieee80211_scan_state_send_probe h l rq).1 = goto (app_log l evs) SCAN_DECISION /\ forallb probe_ok evs = true /\ omap answer evs = [].
Proof. intros Hp; unfold ieee80211_scan_state_send_probe; rewrite probe_events_hw; eexists; split; [reflexivity|]; by apply repeat_probe. Qed.

Lemma send_spec e rq i l d : sw_ok rq i l -> next_scan_state (scan l) = SCAN_SEND_PROBE -> exists l' o, scan_step h e l rq d = Some (l', o) /\ sw_ok rq i l' /\ ledger l' = ledger l /\
  (forall x, o = Later x -> (left_to_scan rq (scan l') < left_to_scan rq (scan l))%nat).
Proof.
  intros Hok Hst; unfold scan_step; rewrite Hst; pose proof (so_pos _ _ _ Hok) as Hpos; unfold position in Hpos; rewrite Hst in Hpos; destruct Hpos as (c & Hc & Hp).
  rewrite <- (tuned_to l c (so_tuned _ _ _ Hok) Hc) in Hp; destruct (send_probe_spec l rq Hp) as (evs & El & Pev & Aev); destruct (ieee80211_scan_state_send_probe h l rq) as [l1 d1]; cbn [fst] in El; subst l1.
  eexists _, _; split; [reflexivity|]; split_and!.
  - apply sw_move; [|exact (so_tuned _ _ _ Hok)|done]; destruct Hok as [A B C E F G H I]; constructor; try done; by apply base_log.
  - unfold ledger; cbn [goto set_scan app_log log scan roc_list]; by rewrite omap_app, Aev, app_nil_r.
  - intros _ _; unfold left_to_scan; cbn [goto set_scan scan app_log set_position next_scan_state scan_channel_idx]; rewrite Hst; lia.
Qed.

Lemma scan_suspend_spec e rq i l d : sw_ok rq i l -> next_scan_state (scan l) = SCAN_SUSPEND -> exists l' o, scan_step h e l rq d = Some (l', o) /\ sw_ok rq i l' /\ ledger l' = ledger l /\
  (forall x, o = Later x -> (left_to_scan rq (scan l') < left_to_scan rq (scan l))%nat).
Proof.
  intros Hok Hst; unfold scan_step, ieee80211_scan_state_suspend; rewrite Hst; pose proof (so_pos _ _ _ Hok) as Hpos; unfold position in Hpos; rewrite Hst in Hpos.
  set (l1 := set_scan l _); pose proof (hw_config_quiet h e l1 true) as Q1; pose proof (hw_config_tuned h e l1 true) as T1; destruct (return_quiet h e _ T1) as [Q2 T2]; pose proof (quiet_trans _ _ _ Q1 Q2) as Q.
  set (l2 := ieee80211_offchannel_return h e (hw_config h e l1 true)) in *; eexists _, _; split; [reflexivity|]; pose proof (q_scan _ _ Q) as Es; split_and!.
  - destruct Hok as [[A1 A2 A3] B C E F G H I]; pose proof Q as [_ E2 E3 _ _ _]; constructor; cbn [goto set_scan scan roc_list]; rewrite ?Es, ?E2; try done.
    constructor; cbn [goto set_scan roc_list tmp_channel]; [by rewrite E2|by rewrite E2, E3|]; apply (quiet_probes l1 l2 Q); exact A3.
  - exact (quiet_ledger _ _ Q).
  - intros _ _; unfold left_to_scan; cbn [goto set_scan scan set_position next_scan_state scan_channel_idx]; rewrite Es, Hst; cbn [l1 set_scan scan set_position scan_channel_idx]; lia.
Qed.

Lemma scan_resume_spec e rq i l d : sw_ok rq i l -> next_scan_state (scan l) = SCAN_RESUME -> exists l' o, scan_step h e l rq d = Some (l', o) /\ sw_ok rq i l' /\ ledger l' = ledger l /\
  (forall x, o = Later x -> (left_to_scan rq (scan l') < left_to_scan rq (scan l))%nat).
Proof.
  intros Hok Hst; unfold scan_step, ieee80211_scan_state_resume; rewrite Hst; pose proof (so_pos _ _ _ Hok) as Hpos; unfold position in Hpos; rewrite Hst in Hpos.
  destruct (stop_vifs_quiet h e l (so_tuned _ _ _ Hok)) as [Q T]; pose proof (sw_quiet rq i l _ Hok Q T) as Hok1; pose proof (q_scan _ _ Q) as Es; eexists _, _; split; [reflexivity|]; split_and!.
  - apply sw_move; [done|exact T|]; unfold position; cbn; by rewrite Es.
  - exact (quiet_ledger _ _ Q).
  - intros _ _; unfold left_to_scan; cbn [set_scan scan set_position next_scan_state scan_channel_idx]; rewrite Es, Hst; lia.
Qed.

Lemma step_spec e rq i l d : sw_ok rq i l -> exists l' o, scan_step h e l rq d = Some (l', o) /\ sw_ok rq i l' /\ ledger l' = ledger l /\
  (forall x, o = Later x -> (left_to_scan rq (scan l') < left_to_scan rq (scan l))%nat).
Proof.
  intros Hok; destruct (next_scan_state (scan l)) eqn:Hst;
    [by apply decision_spec|by apply set_channel_spec|by apply send_spec|by apply scan_suspend_spec|by apply scan_resume_spec|].
  unfold scan_step; rewrite Hst; by exists l, (Complete true).
Qed.

(** The loop of the work ends, and leaves less to do. *)
Lemma loop_spec e rq i fuel : forall l d, sw_ok rq i l -> (left_to_scan rq (scan l) < fuel)%nat -> exists l' o, scan_loop h e fuel i rq l d = Some (l', o) /\ sw_ok rq i l' /\ ledger l' = ledger l /\
  (forall x, o = Later x -> (left_to_scan rq (scan l') < left_to_scan rq (scan l))%nat).
Proof.
  induction fuel as [|fuel IH]; intros l d Hok Hf; [lia|]; cbn [scan_loop]; destruct (negb (sdata_running l i)); [by exists l, (Complete true)|].
  destruct (step_spec e rq i l d Hok) as (l1 & o & -> & H1 & H2 & H3); cbn [mbind option_bind]; destruct o as [ab|x]; [by exists l1, (Complete ab)|]; specialize (H3 x eq_refl).
  destruct (x =? 0); [|exists l1, (Later x); split_and!; try done; by intros ? _].
  destruct (IH l1 x H1) as (l2 & o & -> & A & B & E); [lia|]; exists l2, o; split_and!; [done|done|congruence|]; intros y Hy; specialize (E y Hy); lia.
Qed.

Lemma fuel_enough l rq : (left_to_scan rq (scan l) < scan_fuel l rq)%nat.
Proof. unfold left_to_scan, scan_fuel; destruct (next_scan_state (scan l)); lia. Qed.
(** *** The scan work *)

Lemma sw_start rq i l : inv l -> bits (scan l) = (true, false, false, false, false) -> scan_req (scan l) = Some rq -> scan_sdata (scan l) = Some i -> scan_work (scan l) = true -> position rq (scan l) ->
  sw_ok rq i (set_scan l (set_work (scan l) false)).
Proof.
  intros Hi Hb Hr Hs Hw Hp; pose proof Hi as [A B C E F G]; constructor; try done; apply C; rewrite scanning_bits, Hb; done.
Qed.

Lemma sw_again rq i l : sw_ok rq i l -> inv (queue_scan_work l).
Proof.
  intros [A B C E F G H I]; apply base_inv; [by destruct A; constructor|by apply (MSw _ rq i)|by intros _|exact I].
Qed.

Definition scan_asks (rq : request) : list ask := if internal rq then [] else [AScan (rq_id rq)].

(** A scan of a given kind, about to begin with nothing on the list. *)
Record beginning (sw hwb on : bool) (rq : request) (i : nat) (l : local) : Prop := Beginning {
  be_base : base l; be_tuned : tuned h l; be_rocs : roc_list l = []; be_bits : bits (scan l) = (sw, hwb, on, false, false); be_req : scan_req (scan l) = Some rq;
  be_sdata : scan_sdata (scan l) = Some i; be_chan : scan_channel (scan l) = None; be_work : scan_work (scan l) = false }.

Lemma beginning_quiet sw hwb on rq i l l' : beginning sw hwb on rq i l -> quiet l l' -> tuned h l' -> beginning sw hwb on rq i l'.
Proof. intros [A B C E F G H I] Q Ht; pose proof Q as [Q1 Q2 _ _ _ _]; constructor; rewrite ?Q1, ?Q2; try done; by eapply base_quiet. Qed.

Lemma start_sw_spec e rq i l : beginning true false false rq i l -> exists l', ieee80211_start_sw_scan h e l = (l', 0) /\ inv l' /\ ledger l' = ledger l.
Proof.
  intros Hb; unfold ieee80211_start_sw_scan; rewrite one_channel; set (l1 := set_scan l _); assert (H1 : sw_ok rq i l1) by (destruct Hb as [[] B C E F G H I]; constructor; try done; unfold l1; cbn; by rewrite C).
  assert (L1 : ledger l1 = ledger l) by done; clearbody l1; destruct (stop_vifs_quiet h e l1 (so_tuned _ _ _ H1)) as [Q2 T2]; pose proof (sw_quiet _ _ _ _ H1 Q2 T2) as H2.
  set (l2 := ieee80211_offchannel_stop_vifs h e l1) in *; pose proof (sw_quiet _ _ _ _ H2 (hw_config_quiet h e l2 false) (hw_config_tuned h e l2 false)) as H3; eexists; split; [reflexivity|].
  split; [by apply (sw_again rq i)|]; change (ledger (hw_config h e l2 false) = ledger l); by rewrite (quiet_ledger _ _ (hw_config_quiet h e l2 false)), (quiet_ledger _ _ Q2).
Qed.

(** On the operating channel the probes go at once. *)
Lemma start_on_spec e rq i l : beginning false false true rq i l ->
  let l1 := hw_config h e l false in let l2 := if passive (oper_channel l) || bool_decide (n_ssids rq = 0%nat) then l1 else (ieee80211_scan_state_send_probe h l1 rq).1 in
  inv (queue_scan_work l2) /\ ledger l2 = ledger l.
Proof.
  intros Hb; cbn zeta; pose proof (hw_config_quiet h e l false) as Q; set (l1 := hw_config h e l false) in *; pose proof (beginning_quiet _ _ _ _ _ _ l1 Hb Q (hw_config_tuned h e l false)) as H1.
  rewrite <- (quiet_ledger _ _ Q), <- (q_oper _ _ Q); clearbody l1; clear Q Hb; pose proof H1 as [A B C E F G H I].
  assert (Hgo : forall l2, base l2 -> tuned h l2 -> roc_list l2 = [] -> scan_mode (set_work (scan l2) true) -> inv (queue_scan_work l2)).
  { clear; intros l2 Hb Ht Hr Hm; apply base_inv; [by destruct Hb; constructor|exact Hm|cbn; by rewrite Hr|exact Ht]. }
  destruct (passive _ || _) eqn:Ep; [split; [apply Hgo; try done; by apply (MOn _ rq i)|done]|]; apply orb_false_iff in Ep as [Ep _].
  assert (Hhw : hw_channel l1 = oper_channel l1) by (rewrite (B one_channel); unfold ieee80211_hw_conf_chan; rewrite H, (b_tmp _ A), C; unfold roc_channel; by destruct (ops_roc h)).
  destruct (send_probe_spec l1 rq) as (evs & -> & Pev & Aev); [by rewrite Hhw|]; split.
  - apply Hgo; try done; [|by apply (MOn _ rq i)]; destruct (base_log l1 evs A Pev) as [X Y Z]; by constructor.
  - unfold ledger; cbn [goto set_scan app_log log scan roc_list]; by rewrite omap_app, Aev, app_nil_r.
Qed.

(** What is undone when a scan cannot start. *)
Definition undo (l : local) : local := set_scan l (set_req (set_bits (set_hw_req (scan l) None (hw_scan_band (scan l))) false false false false false) None None).

Lemma undo_spec sw hwb on rq i l : beginning sw hwb on rq i l -> inv (undo l) /\ ledger (undo l) ++ scan_asks rq ≡ₚ ledger l.
Proof.
  intros [A B C E F G H I]; split.
  - apply base_inv; [by destruct A; constructor|by apply MNone|done|exact B].
  - unfold ledger, undo, pending, scan_asks; cbn [set_scan log scan roc_list set_req scan_req]; rewrite F, C; cbn [app infos mbind list_bind]; by rewrite !app_nil_r.
Qed.

Lemma start_hw_spec rq i l req b : beginning false true false rq i l -> let l1 := drv_hw_scan (set_scan l (set_hw_req (scan l) req b)) in
  beginning false true false rq i l1 /\ inv l1 /\ ledger l1 = ledger l.
Proof.
  intros [A B C E F G H I] l1; assert (Hb : beginning false true false rq i l1).
  { constructor; try done; apply (base_log (set_scan l (set_hw_req (scan l) req b)) [HwScan (default [] req)]); [by destruct A; constructor|done]. }
  split_and!; [done| |unfold ledger; cbn [l1 drv_hw_scan emit set_scan log scan roc_list]; rewrite omap_app; by rewrite app_nil_r].
  destruct Hb as [A2 B2 C2 E2 F2 G2 H2 I2]; apply base_inv; try done; [by apply (MHw _ rq i false false)|by rewrite C2].
Qed.

Lemma prep_spec l rq : scan_req (scan l) = Some rq -> exists req b more, ieee80211_prep_hw_scan l = Some (set_scan l (set_hw_req (scan l) req b), more).
Proof. intros Hr; unfold ieee80211_prep_hw_scan; rewrite Hr; cbn [mbind option_bind]; destruct (next_band _ _ _) as [[cs b]|]; by eexists _, _, _. Qed.

(** A scan starts, waits or fails; when it fails nothing changed but the log. *)
Lemma start_spec e l i rq : inv l -> scan_req (scan l) = None -> exists l' rc, __ieee80211_start_scan h e l i rq = Some (l', rc) /\ inv l' /\ ledger l' ≡ₚ ledger l ++ (if rc =? 0 then scan_asks rq else []) /\
  (rc <> 0 -> scan_mode (scan l') /\ scan_req (scan l') = None).
Proof.
  intros Hi Hr; pose proof Hi as [A B C E F G]; assert (Hm : bits (scan l) = (false, false, false, false, false) /\ scan_sdata (scan l) = None /\ scan_channel (scan l) = None /\ scan_work (scan l) = false).
  { destruct A as [H1 H2 H3 H4 H5| | | | ]; [done|congruence..]. }
  destruct Hm as (Hb & Hs & Hc & Hw); injection Hb as Hb1 Hb2 Hb3 Hb4 Hb5; unfold __ieee80211_start_scan; rewrite Hr; rewrite bool_decide_eq_false_2 by (intros Hx; by apply Hx).
  assert (Hpend : forall l', log l' = log l -> roc_list l' = roc_list l -> scan_req (scan l') = Some rq -> ledger l' ≡ₚ ledger l ++ scan_asks rq).
  { intros l' H1 H2 H3; unfold ledger, pending, scan_asks; rewrite H1, H2, H3, Hr; cbn [app]; solve_Permutation. }
  destruct (ieee80211_can_scan l i) eqn:Ecan; cbn [negb]; cycle 1.
  { eexists _, _; split; [reflexivity|]; split_and!; [|by apply Hpend|done]; constructor; try done; apply (MDeferred _ rq i); try done; unfold bits; cbn; by rewrite Hb1, Hb2, Hb3, Hb4, Hb5. }
  apply andb_true_iff in Ecan as [Erl _]; apply bool_decide_eq_true in Erl.
  assert (Hbeg : forall s, scan_req s = Some rq -> scan_sdata s = Some i -> scan_channel s = None -> scan_work s = false -> forall sw hwb on, bits s = (sw, hwb, on, false, false) ->
    beginning sw hwb on rq i (set_scan l s) /\ ledger (set_scan l s) ≡ₚ ledger l ++ scan_asks rq).
  { intros s H1 H2 H3 H4 sw hwb on H5; split; [|by apply Hpend]; constructor; try done; apply (tuned_same h l); [exact F|done|]; unfold ieee80211_hw_conf_chan; cbn [set_scan scan]; by rewrite Hc, H3. }
  unfold mbind, option_bind; destruct (ops_hw_scan h) eqn:Eh; cbn [andb].
  - destruct (alloc_ok e); cbn [negb]; [|eexists _, _; split; [reflexivity|]; split_and!; [done|by rewrite app_nil_r|done]].
    match goal with |- context [ieee80211_prep_hw_scan ?x] => set (l1 := x) end.
    assert (B1 : beginning false true false rq i l1 /\ ledger l1 ≡ₚ ledger l ++ scan_asks rq) by (apply Hbeg; try done; unfold bits; cbn; by rewrite Hb1, Hb2, Hb3, Hb4, Hb5).
    clearbody l1; destruct B1 as [B1 L1]; destruct (prep_spec l1 rq (be_req _ _ _ _ _ _ B1)) as (req & b & more & ->); cbn beta iota.
    destruct (start_hw_spec rq i l1 req b B1) as (B2 & I2 & L2); set (l2 := drv_hw_scan _) in *; fold (undo l2).
    destruct (Z.eqb_spec (hw_scan_rc e) 0) as [Hrc|Hrc]; cbn [negb]; eexists _, _; (split; [reflexivity|]).
    + split_and!; [done|by rewrite L2|done].
    + destruct (undo_spec _ _ _ _ _ _ B2) as [U1 U2]; split_and!; [done| |intros _; split; [exact (i_mode _ U1)|done]].
      destruct (Z.eqb_spec (hw_scan_rc e) 0) as [|_]; [done|]; rewrite app_nil_r; apply (Permutation_app_inv_r (scan_asks rq)); by rewrite U2, L2.
  - assert (Hsw : exists l' rc, (let '(l0, rc0) := ieee80211_start_sw_scan h e (set_scan l (set_bits (set_req (scan l) (Some rq) (Some i)) (sw_scanning (scan l) || true) (hw_scanning (scan l) || false)
        (onchannel_scanning (scan l) || false) (completed (scan l)) (aborted (scan l)))) in Some (if negb (rc0 =? 0) then (undo l0, rc0) else (l0, 0))) = Some (l', rc) /\
      inv l' /\ ledger l' ≡ₚ ledger l ++ (if rc =? 0 then scan_asks rq else []) /\ (rc <> 0 -> scan_mode (scan l') /\ scan_req (scan l') = None)).
    { match goal with |- context [ieee80211_start_sw_scan h e ?x] => set (l1 := x) end.
      assert (B1 : beginning true false false rq i l1 /\ ledger l1 ≡ₚ ledger l ++ scan_asks rq) by (apply Hbeg; try done; unfold bits; cbn; by rewrite Hb1, Hb2, Hb3, Hb4, Hb5).
      clearbody l1; destruct B1 as [B1 L1], (start_sw_spec e rq i l1 B1) as (l2 & -> & I2 & L2); cbn [Z.eqb negb]; eexists _, _; split; [reflexivity|]; split_and!; [done|by rewrite L2|done]. }
    destruct (channels rq) as [|c [|c2 cs]]; [exact Hsw| |exact Hsw]; case_bool_decide as Hc1; [|exact Hsw]; clear Hsw; cbn [set_scan oper_channel] in Hc1; subst c.
    match goal with |- context [hw_config h e ?x false] => set (l1 := x) end.
    assert (B1 : beginning false false true rq i l1 /\ ledger l1 ≡ₚ ledger l ++ scan_asks rq) by (apply Hbeg; try done; unfold bits; cbn; by rewrite Hb1, Hb2, Hb3, Hb4, Hb5).
    change (oper_channel l) with (oper_channel l1); clearbody l1; destruct B1 as [B1 L1], (start_on_spec e rq i l1 B1) as [I2 L2]; eexists _, _; split; [reflexivity|].
    split_and!; [exact I2|rewrite <- L1, <- L2; done|done].
Qed.
(** Nothing scans and nothing waits. *)
Definition no_scan (l : local) : Prop := scanning l = false /\ scan_req (scan l) = None /\ scan_work (scan l) = false.

Lemma over_all e l rq ab : base l -> scan_req (scan l) = Some rq -> scan_work (scan l) = false ->
  exists l', __ieee80211_scan_completed h e l ab false = Some l' /\ inv l' /\ ledger l' ≡ₚ ledger l /\ no_scan l'.
Proof.
  intros Hb Hr Hw; destruct (completed_over e l rq ab Hr) as [ab' ->]; destruct (over_spec e l rq ab' false Hb Hr Hw) as (A & B & C & E & F & _); eexists; split; [reflexivity|]; by split_and!.
Qed.

(** The work of a software scan ends it, or leaves less to do. *)
Lemma sw_work_step e l rq i : inv l -> bits (scan l) = (true, false, false, false, false) -> scan_req (scan l) = Some rq -> scan_sdata (scan l) = Some i -> position rq (scan l) -> scan_work (scan l) = true ->
  exists l', ieee80211_scan_work h e l = Some l' /\ inv l' /\ ledger l' ≡ₚ ledger l /\
    (no_scan l' \/ (bits (scan l') = (true, false, false, false, false) /\ scan_req (scan l') = Some rq /\ scan_sdata (scan l') = Some i /\ position rq (scan l') /\ scan_work (scan l') = true /\
      (left_to_scan rq (scan l') < left_to_scan rq (scan l))%nat)).
Proof.
  intros Hi Hb Hr Hs Hp Hw; pose proof (sw_start rq i l Hi Hb Hr Hs Hw Hp) as Hok; set (l1 := set_scan l (set_work (scan l) false)) in *; assert (L1 : ledger l1 = ledger l) by done.
  assert (Hleft : left_to_scan rq (scan l1) = left_to_scan rq (scan l)) by done; unfold ieee80211_scan_work; fold l1; pose proof Hok as [A1 A2 A3 A4 A5 A6 A7 A8].
  assert (Hsc : scanning l1 = true) by (by rewrite scanning_bits, A2); rewrite <- L1, <- Hleft; clearbody l1; clear Hi Hb Hr Hs Hp Hw L1 Hleft l; injection A2 as B1 B2 B3 B4 B5.
  cbn zeta; rewrite B3, B4, A4, A3, Hsc; cbn [negb]; destruct (negb (sdata_running l1 i)).
  - rewrite B2; destruct (over_all e l1 rq true A1 A3 A6) as (l' & E1 & E2 & E3 & E4); exists l'; split_and!; try done; by left.
  - destruct (loop_spec e rq i (scan_fuel l1 rq) l1 0 Hok (fuel_enough l1 rq)) as (l2 & o & -> & H1 & H2 & H3); cbn [mbind option_bind]; rewrite <- H2; destruct o as [ab|x].
    + pose proof H1 as [C1 C2 C3 C4 C5 C6 C7 C8]; injection C2 as D1 D2 D3 D4 D5; rewrite D2; destruct (over_all e l2 rq ab C1 C3 C6) as (l' & E1 & E2 & E3 & E4); exists l'; split_and!; try done; by left.
    + eexists; split; [reflexivity|]; split_and!; [by apply (sw_again rq i)|done|]; right; pose proof H1 as [C1 C2 C3 C4 C5 C6 C7 C8]; split_and!; try done; exact (H3 x eq_refl).
Qed.

Lemma work_spec e l : inv l -> scan_work (scan l) = true -> exists l', ieee80211_scan_work h e l = Some l' /\ inv l' /\ ledger l' ≡ₚ ledger l.
Proof.
  intros Hi Hw; pose proof (i_mode _ Hi) as Hm; destruct Hm as [H1 H2 H3 H4 H5|rq i H1 H2 H3 H4|rq i H1 H2 H3 H4 H5|rq i H1 H2 H3 H4 H5|rq i co ab H1 H2 H3 H4 H5 H6]; [congruence| | | |].
  - set (l1 := set_scan l (set_work (scan l) false)); assert (I2 : inv (set_scan l1 (set_req (scan l1) None None))) by (pose proof Hi as [A B C E F G]; constructor; try done; by apply MNone).
    assert (L2 : ledger (set_scan l1 (set_req (scan l1) None None)) ++ scan_asks rq ≡ₚ ledger l) by (unfold ledger, pending, scan_asks; cbn [l1 set_scan log scan roc_list set_req set_work scan_req]; rewrite H2; cbn [app]; solve_Permutation).
    assert (B1 : bits (scan l1) = (false, false, false, false, false)) by done; assert (E2 : scan_req (scan l1) = Some rq) by done; assert (E3 : scan_sdata (scan l1) = Some i) by done.
    unfold ieee80211_scan_work; fold l1; clearbody l1; injection B1 as B1 B2 B3 B4 B5; cbn zeta; unfold scanning; rewrite B1, B2, B3, B4, B5, E2, E3; cbn [orb negb].
    set (l2 := set_scan l1 (set_req (scan l1) None None)) in *; assert (Hr2 : scan_req (scan l2) = None) by done; clearbody l2.
    destruct (start_spec e l2 i rq I2 Hr2) as (l3 & rc & -> & I3 & L3 & R3); cbn [mbind option_bind]; destruct (Z.eqb_spec rc 0) as [->|Hrc]; cbn [negb].
    + eexists; split; [reflexivity|]; split; [done|by rewrite L3].
    + destruct (R3 Hrc) as [M3 N3]; destruct (Z.eqb_spec rc 0) as [|_]; [done|]; rewrite app_nil_r in L3; destruct M3 as [M1 M2 M3 M4 M5| | | | ]; [|congruence..].
      set (l4 := set_scan l3 (set_req (scan l3) (Some rq) (scan_sdata (scan l3)))); assert (L4 : ledger l4 ≡ₚ ledger l3 ++ scan_asks rq).
      { unfold ledger, pending, scan_asks; cbn [l4 set_scan log scan roc_list set_req scan_req]; rewrite M2; cbn [app]; solve_Permutation. }
      assert (Hh : hw_scanning (scan l4) = false) by (injection M1; done); rewrite Hh; destruct (over_all e l4 rq true) as (l' & -> & A & B & _); [by destruct (inv_base _ I3); constructor|done|done|].
      eexists; split; [reflexivity|]; split; [done|by rewrite B, L4, L3].
  - destruct (sw_work_step e l rq i Hi H1 H2 H3 H4 Hw) as (l' & A & B & C & _); by exists l'.
  - set (l1 := set_scan l (set_work (scan l) false)); assert (Hb1 : base l1) by (by destruct (inv_base _ Hi); constructor); assert (L1 : ledger l1 = ledger l) by done; assert (E1 : bits (scan l1) = (false, false, true, false, false)) by done.
    assert (E2 : scan_req (scan l1) = Some rq) by done; assert (E3 : scan_work (scan l1) = false) by done; unfold ieee80211_scan_work; fold l1; rewrite <- L1; clearbody l1; injection E1 as B1 B2 B3 B4 B5; cbn zeta; rewrite B3.
    set (l2 := set_scan l1 (set_bits _ _ _ _ _ _)); assert (Hh : hw_scanning (scan l2) = false) by done; rewrite Hh; destruct (over_all e l2 rq (aborted (scan l1))) as (l' & -> & A & B & _); [by destruct Hb1; constructor|done|done|].
    eexists; split; [reflexivity|]; by split.
  - assert (co = true) as -> by congruence; set (l1 := set_scan l (set_bits (set_work (scan l) false) false true false false false)); pose proof Hi as [A B C E F G].
    destruct (completed_hw e l1 rq i ab) as (l' & E1 & E2 & E3); try done; [apply C; rewrite scanning_bits, H1; done|]; exists l'; split; [|by split].
    unfold ieee80211_scan_work; cbn zeta; injection H1 as B1 B2 B3 B4 B5; cbn [set_scan scan set_work onchannel_scanning completed aborted sw_scanning hw_scanning set_bits]; rewrite B1, B2, B3, B4, B5; exact E1.
Qed.

(** *** The other operations on scans *)

Lemma cancel_spec e l b : inv l -> exists l', ieee80211_scan_cancel h e l b = Some l' /\ inv l' /\ ledger l' ≡ₚ ledger l.
Proof.
  intros Hi; unfold ieee80211_scan_cancel; destruct (scan_req (scan l)) as [rq|] eqn:Er; [|by exists l]; destruct (hw_scanning (scan l)) eqn:Eh.
  - eexists; split; [reflexivity|]; destruct b; [|done]; split; [by apply (inv_app_log l [CancelHwScan])|]; rewrite emit_app, ledger_app_log; by rewrite app_nil_r.
  - destruct (over_all e (set_scan l (set_work (scan l) false)) rq true) as (l' & -> & A & B & _); [by destruct (inv_base _ Hi); constructor|done|done|]; eexists; split; [reflexivity|]; by split.
Qed.

Lemma hw_completed_spec l ab : inv l -> hw_scanning (scan l) = true -> inv (ieee80211_scan_completed l ab) /\ ledger (ieee80211_scan_completed l ab) = ledger l.
Proof.
  intros Hi Hh; split; [|done]; pose proof Hi as [A B C E F G]; destruct A as [H1 H2 H3 H4 H5|rq i H1 H2 H3 H4|rq i H1 H2 H3 H4 H5|rq i H1 H2 H3 H4 H5|rq i co ab1 H1 H2 H3 H4 H5 H6]; try (injection H1; congruence).
  injection H1 as B1 B2 B3 B4 B5; constructor; try done.
  - apply (MHw _ rq i true (ab1 || ab)); try done; unfold bits; cbn; by rewrite B1, B2, B3, B5.
  - intros _; apply C; unfold scanning; by rewrite B1, B2.
Qed.

Lemma ibss_spec e l i id bands c : inv l -> exists l' rc, ieee80211_request_ibss_scan h e l i id bands c = Some (l', rc) /\ inv l' /\ ledger l' ≡ₚ ledger l.
Proof.
  intros Hi; unfold ieee80211_request_ibss_scan; case_bool_decide as Hr; [by eexists _, _|]; destruct (ibss_channels bands c) as [|c1 cs]; [by eexists _, _|].
  destruct (start_spec e l i (Req id (c1 :: cs) 1 false true) Hi Hr) as (l' & rc & E1 & E2 & E3 & _); eexists _, _; split; [exact E1|]; split; [done|]; rewrite E3; cbn; destruct (rc =? 0); by rewrite app_nil_r.
Qed.
(** *** Runs *)

Lemma step_spec_run e o l : inv l -> op_ok h l o -> exists l', step h (e, o) l = Some l' /\ inv l' /\ ledger l' ≡ₚ ledger l ++ asked h e l o.
Proof.
  assert (Hkeep : forall l', inv l' -> ledger l' ≡ₚ ledger l -> exists l2, Some l' = Some l2 /\ inv l2 /\ ledger l2 ≡ₚ ledger l ++ []) by (intros l' A B; exists l'; split_and!; [done|done|by rewrite app_nil_r]).
  intros Hi Ho; destruct o as [i rq|i id bands c|b|ab| | |id i c dur tx|ck m|id| | | | |i b|i t]; cbn [step asked op_ok] in *.
  - destruct (decide (scan_req (scan l) = None)) as [Hr|Hr].
    + destruct (start_spec e l i rq Hi Hr) as (l' & rc & -> & A & B & _); exists l'; split_and!; [done|done|]; rewrite B; unfold scan_asks; by rewrite Ho.
    + unfold __ieee80211_start_scan; rewrite bool_decide_eq_true_2 by done; by apply Hkeep.
  - destruct (ibss_spec e l i id bands c Hi) as (l' & rc & -> & A & B); by apply Hkeep.
  - destruct (cancel_spec e l b Hi) as (l' & -> & A & B); by apply Hkeep.
  - destruct (hw_completed_spec l ab Hi Ho) as [A B]; apply Hkeep; [done|by rewrite B].
  - destruct (scan_work (scan l)) eqn:Ew; [|by apply Hkeep]; destruct (work_spec e l Hi Ew) as (l' & -> & A & B); by apply Hkeep.
  - destruct (deferred_spec l Hi) as [A B]; apply Hkeep; [done|by rewrite B].
  - destruct Ho as (H1 & H2 & H3); pose proof (start_roc_spec e l id i c dur tx Hi H1 H2 H3) as Hs; destruct (ieee80211_start_roc_work h e l id i c dur tx) as [[l' rc] ck]; destruct Hs as [A B]; by exists l'.
  - destruct (cancel_roc_spec e l ck m Hi) as [A B]; by apply Hkeep.
  - destruct (find_roc l id) as [r|] eqn:Ef; [|by apply Hkeep]; pose proof (sw_work_spec e l id r Ho Hi Ef) as Hs; destruct (work (info r)); [by apply Hkeep|destruct Hs as [A B]; [done|by apply Hkeep]..].
  - apply Hkeep; [destruct Hi; by constructor|done].
  - destruct (OffChan.hw_roc_start l); [|by apply Hkeep]; destruct (hw_start_spec l Ho Hi) as [A B]; by apply Hkeep.
  - apply Hkeep; [destruct Hi; by constructor|done].
  - destruct (OffChan.hw_roc_done l); [|by apply Hkeep]; destruct (hw_done_spec e l Ho Hi) as [A B]; by apply Hkeep.
  - unfold ieee80211_do_stop; set (l1 := upd_iface _ _ _); assert (I1 : inv l1) by (destruct Hi; by constructor); assert (L1 : ledger l1 = ledger l) by done; clearbody l1.
    assert (Hc : exists l2, (if bool_decide (scan_sdata (scan l1) = Some i) then ieee80211_scan_cancel h e l1 b else Some l1) = Some l2 /\ inv l2 /\ ledger l2 ≡ₚ ledger l1) by (destruct (bool_decide _); [by apply cancel_spec|by exists l1]).
    destruct Hc as (l2 & -> & A & B); destruct (roc_purge_spec e l2 i A) as [E F]; apply Hkeep; [done|by rewrite F, B, L1].
  - apply Hkeep; [destruct Hi; by constructor|done].
Qed.

Lemma run_spec os : forall l, inv l -> run_ok h os l -> exists l', run h os l = Some l' /\ inv l' /\ ledger l' ≡ₚ ledger l ++ all_asked h os l.
Proof.
  induction os as [|[e o] os IH]; intros l Hi Hok; cbn [run all_asked run_ok] in *; [exists l; split_and!; [done|done|by rewrite app_nil_r]|]; destruct Hok as [H1 H2].
  destruct (step_spec_run e o l Hi H1) as (l1 & E1 & I1 & L1); rewrite E1 in *; cbn [mbind option_bind fst snd]; destruct (IH l1 I1 H2) as (l2 & E2 & I2 & L2); exists l2; split_and!; [done|done|].
  rewrite L2, L1; by rewrite app_assoc.
Qed.

Lemma initial_inv l : initial l -> inv l /\ ledger l = [].
Proof.
  intros [A B C E F G H I J]; split.
  - constructor; [by apply MNone|rewrite G; constructor; [constructor|done..]|by rewrite G| | |unfold probes_ok; by rewrite J].
    + rewrite G, H; unfold roc_channel; by destruct (ops_roc h).
    + intros _; unfold ieee80211_hw_conf_chan; by rewrite E, H.
  - unfold ledger, pending; by rewrite J, B, G.
Qed.

(** The work of a software scan, run again and again. *)
Lemma works_spec e rq i es : forall l, inv l -> bits (scan l) = (true, false, false, false, false) -> scan_req (scan l) = Some rq -> scan_sdata (scan l) = Some i -> position rq (scan l) -> scan_work (scan l) = true ->
  (left_to_scan rq (scan l) <= length es)%nat -> exists l', run h ((fun e => (e, OScanWork)) <$> (e :: es)) l = Some l' /\ inv l' /\ no_scan l' /\ ledger l' ≡ₚ ledger l.
Proof.
  revert e; induction es as [|e2 es IH]; intros e l Hi Hb Hr Hs Hp Hw Hlen; cbn [fmap list_fmap run step]; rewrite Hw; destruct (sw_work_step e l rq i Hi Hb Hr Hs Hp Hw) as (l1 & -> & I1 & L1 & Hcase); cbn [mbind option_bind].
  - cbn in Hlen; destruct Hcase as [Hn|(_ & _ & _ & _ & _ & Hlt)]; [by exists l1|lia].
  - cbn [length] in Hlen; destruct Hcase as [Hn|(H1 & H2 & H3 & H4 & H5 & Hlt)].
    + assert (Hstay : forall es l, no_scan l -> run h ((fun e => (e, OScanWork)) <$> es) l = Some l) by (clear; intros es l (_ & _ & Hw); induction es as [|e es IH]; [done|]; cbn [fmap list_fmap run step]; rewrite Hw; exact IH).
      exists l1; split_and!; [exact (Hstay (e2 :: es) l1 Hn)|done|done|done].
    + destruct (IH e2 l1) as (l2 & E2 & I2 & N2 & L2); try done; [lia|]; exists l2; split_and!; [exact E2|done|done|by rewrite L2].
Qed.
End Inv.

(** ** What is correct *)

(** C17: Whatever scans and remain-on-channel requests are made, run, cancelled
    or ended, in whatever order and with whatever the driver answers, every
    accepted scan of user space, every accepted ROC and every frame it was to
    send is answered exactly once or still waits for its answer, and nothing else
    is answered. *)
Theorem requests_answered_once (h : hw) (os : list (env * op)) (l0 : local) :
  use_chanctx h = false -> initial l0 -> run_ok h os l0 ->
  exists l, run h os l0 = Some l /\ omap answer (log l) ++ pending (scan l) ++ (infos (roc_list l) ≫= held) ≡ₚ all_asked h os l0.
Proof.
  intros Hc H0 Hok; destruct (initial_inv h l0 H0) as [Hi Hl]; destruct (run_spec h Hc os l0 Hi Hok) as (l & Hr & _ & Hl2); exists l; split; [done|].
  change (ledger l ≡ₚ all_asked h os l0); by rewrite Hl2, Hl.
Qed.

(** C18: On a device without channel contexts, as long as no ROC in software
    has duration 0 (that of a frame sent off channel without waiting), at every
    moment the radio is used once: while a scan is under way no ROC
    is, at most the first ROC of the list is under way, the radio is on the
    channel being scanned, on that of the ROC under way in software, or else on
    the operating channel, and no probe request was ever sent on a channel that
    only allows passive scanning.  (The other conditions of [op_ok]: user space
    does not ask for the internal scan, the driver reports only scans and ROCs it
    was given, a ROC is a new object, and the software works run only for
    drivers that do none.  After a ROC of duration 0 the radio stays on its
    channel: [pure_tx_stays_off_channel].) *)
Theorem radio_exclusive (h : hw) (os : list (env * op)) (l0 l : local) :
  use_chanctx h = false -> initial l0 -> run_ok h os l0 -> run h os l0 = Some l ->
  Forall (fun r => started (info r) = false) (tail (roc_list l)) /\
  (scanning l = true -> Forall (fun r => started (info r) = false) (roc_list l) /\ hw_channel l = default (oper_channel l) (scan_channel (scan l))) /\
  (scanning l = false -> match roc_list l with
                         | r :: _ => if negb (ops_roc h) && started (info r) then hw_channel l = r_chan (info r) else hw_channel l = oper_channel l
                         | [] => hw_channel l = oper_channel l
                         end) /\
  (forall c, Probe c ∈ log l -> passive c = false).
Proof.
  intros Hc H0 Hok Hr; destruct (initial_inv h l0 H0) as [Hi _]; destruct (run_spec h Hc os l0 Hi Hok) as (l' & Hr' & [A B C E F G] & _); rewrite Hr in Hr'; injection Hr' as <-.
  pose proof (F Hc) as Hhw; unfold ieee80211_hw_conf_chan in Hhw; rewrite E in Hhw; split_and!.
  - exact (idle_started _ (lo_tail _ _ B)).
  - intros Hs; pose proof (idle_started _ (C Hs)) as Hid; split; [exact Hid|]; rewrite Hhw, (idle_channel h _ (C Hs)); by destruct (scan_channel (scan l)).
  - intros Hs; assert (Hsc : scan_channel (scan l) = None) by (rewrite scanning_bits in Hs; destruct A as [H1|? ? H1|? ? H1|? ? H1|? ? ? ? H1]; rewrite H1 in Hs; done); rewrite Hsc in Hhw; unfold roc_channel in Hhw.
    destruct (ops_roc h); cbn [negb andb]; [by destruct (roc_list l)|]; destruct (roc_list l) as [|r rs]; [done|]; by destruct (started (info r)).
  - intros c Hc2; unfold probes_ok in G; rewrite forallb_forall in G; specialize (G (Probe c)); cbn in G; destruct (passive c); [|done]; symmetry; apply G; by apply list_elem_of_In.
Qed.

Definition done_scans (l : local) : list nat := omap (fun ev => match ev with ScanDone id _ => Some id | _ => None end) (log l).

Definition ask_scan (a : ask) : option nat := match a with AScan id => Some id | _ => None end.

Lemma done_ledger l : omap ask_scan (ledger l) = done_scans l ++ omap ask_scan (pending (scan l)).
Proof.
  unfold ledger, done_scans; rewrite !omap_app; f_equal; [induction (log l) as [|ev evs IH]; [done|]; cbn [omap list_omap]; destruct ev; cbn [answer ask_scan]; cbn [omap list_omap ask_scan]; try done; f_equal; exact IH|].
  rewrite <- (app_nil_r (omap ask_scan (pending (scan l)))) at 2; f_equal; induction (infos (roc_list l)) as [|x xs IH]; [done|]; cbn [mbind list_bind]; rewrite omap_app, IH, app_nil_r; unfold held; by destruct (frame x), (mgmt_tx_cookie x =? 0).
Qed.

(** C19: A software scan ends: from any state a run reaches, with any answers,
    delays and traffic, after at most [left_to_scan + 1] runs of its work (five for
    each channel that is left, and two) user space is told once that the scan is
    done, and nothing scans. *)
Theorem scan_ends (h : hw) (os : list (env * op)) (l0 l : local) (rq : request) (e : env) (es : list env) :
  use_chanctx h = false -> initial l0 -> run_ok h os l0 -> run h os l0 = Some l -> sw_scanning (scan l) = true -> scan_req (scan l) = Some rq -> (left_to_scan rq (scan l) <= length es)%nat ->
  exists l', run h ((fun e => (e, OScanWork)) <$> (e :: es)) l = Some l' /\ scanning l' = false /\ scan_req (scan l') = None /\
    done_scans l' ≡ₚ done_scans l ++ (if internal rq then [] else [rq_id rq]).
Proof.
  intros Hc H0 Hok Hr Hsw Hrq Hlen; destruct (initial_inv h l0 H0) as [Hi _]; destruct (run_spec h Hc os l0 Hi Hok) as (l1 & Hr' & Hi1 & _); rewrite Hr in Hr'; injection Hr' as <-.
  destruct (i_mode _ _ Hi1) as [H1|? ? H1|rq' i H1 H2 H3 H4 H5|? ? H1|? ? ? ? H1]; try (injection H1; congruence); assert (rq' = rq) as -> by congruence.
  destruct (works_spec h Hc e rq i es l Hi1 H1 H2 H3 H4 H5 Hlen) as (l' & A & B & (C1 & C2 & C3) & Hl); exists l'; split_and!; [done|done|done|].
  assert (Hp : omap ask_scan (ledger l') ≡ₚ omap ask_scan (ledger l)) by (by rewrite Hl); rewrite !done_ledger in Hp; unfold pending in Hp; rewrite C2, Hrq in Hp; cbn [omap list_omap] in Hp; rewrite app_nil_r in Hp.
  rewrite Hp; by destruct (internal rq).
Qed.

(** ** Examples *)

#[global] Instance op_ok_dec h l o : Decision (op_ok h l o).
Proof. destruct o; cbn; apply _. Defined.

#[global] Instance run_ok_dec h os : forall l, Decision (run_ok h os l).
Proof.
  induction os as [|x os IH]; intros l; cbn [run_ok]; [left; exact I|]; refine (and_dec _ _); destruct (step h x l); [apply IH|left; exact I].
Defined.

(** A driver that leaves scans and ROCs to software, as [ath9k_htc], and one that
    does ROCs. *)
Definition soft : hw := Hw false false true false true true 100 5 100 (fun us => us / 10000) (fun ms => ms / 10) (fun j => j * 10).
Definition offload : hw := Hw false true true false true true 100 5 100 (fun us => us / 10000) (fun ms => ms / 10) (fun j => j * 10).

Definition ch1 : channel := Chan 1 0 false false false.
Definition ch6 : channel := Chan 6 0 false false false.
Definition ch36 : channel := Chan 36 1 true true false.

Definition sta : iface := Iface STATION true true true 100 false false false false.
Definition p2p : iface := Iface OTHER true false true 100 false true false false.

Definition start : local :=
  Local (Scan false false false false false None None None 0 None 0 SCAN_DECISION 0 false) [] false false 0 0 None ch1 ch1 [sta; p2p] false false false [].
Definition at_time (t : Z) : env := Env t 2000000 (fun _ => false) 0 0 0 true.

Lemma start_initial : initial start. Proof. by constructor. Qed.

Definition scan_all : request := Req 40 [ch1; ch6; ch36] 1 false false.

(** A scan of three channels, a ROC and a frame that wait for it, another frame
    that joins the ROC, a scan that waits for them. *)
Definition busy : list (env * op) :=
  [(at_time 0, OScan 0 scan_all); (at_time 1, OScanWork); (at_time 2, ORoc 1 0 ch6 200 None); (at_time 3, ORoc 2 1 ch36 100 (Some 77));
   (at_time 5, OScanWork); (at_time 9, OScanWork); (at_time 13, OScanWork); (at_time 17, OScanWork); (at_time 40, OScanWork);
   (at_time 80, ORocWork 1); (at_time 82, ORoc 3 0 ch6 50 (Some 99)); (at_time 83, OScan 0 scan_all); (at_time 110, ORocWork 1); (at_time 170, ORocWork 2)].

Lemma requests_answered_once_witness :
  use_chanctx soft = false /\ initial start /\ run_ok soft busy start /\ all_asked soft busy start = [AScan 40; ARoc 1; AFrame 77; AFrame 99; AScan 40] /\
  exists l, run soft busy start = Some l /\ omap answer (log l) ++ pending (scan l) ++ (infos (roc_list l) ≫= held) ≡ₚ all_asked soft busy start.
Proof.
  assert (Hok : run_ok soft busy start) by (apply (bool_decide_unpack _); vm_compute; exact I).
  split_and!; [done|exact start_initial|exact Hok|vm_compute; done|]; exact (requests_answered_once soft busy start eq_refl start_initial Hok).
Defined.

Definition off_channel_roc : list (env * op) := [(at_time 0, ORoc 1 0 ch6 200 None); (at_time 1, ORocWork 1); (at_time 2, OScan 0 scan_all)].

Lemma radio_exclusive_witness : exists l, run soft off_channel_roc start = Some l /\ hw_channel l = ch6 /\ scanning l = false /\
  Forall (fun r => started (info r) = false) (tail (roc_list l)) /\
  (scanning l = true -> Forall (fun r => started (info r) = false) (roc_list l) /\ hw_channel l = default (oper_channel l) (scan_channel (scan l))) /\
  (scanning l = false -> match roc_list l with
                         | r :: _ => if negb (ops_roc soft) && started (info r) then hw_channel l = r_chan (info r) else hw_channel l = oper_channel l
                         | [] => hw_channel l = oper_channel l
                         end) /\
  (forall c, Probe c ∈ log l -> passive c = false).
Proof.
  eexists; split; [vm_compute; reflexivity|]; split; [done|split; [done|]]; apply (radio_exclusive soft off_channel_roc start); [done|exact start_initial| |vm_compute; reflexivity].
  apply (bool_decide_unpack _); vm_compute; exact I.
Defined.

Definition scanning_start : local := default start (run soft [(at_time 0, OScan 0 scan_all)] start).

Lemma scan_ends_witness : left_to_scan scan_all (scan scanning_start) = 15%nat /\
  exists l', run soft ((fun e => (e, OScanWork)) <$> (at_time 1 :: repeat (at_time 9) 15)) scanning_start = Some l' /\ scanning l' = false /\ scan_req (scan l') = None /\
    done_scans l' ≡ₚ done_scans scanning_start ++ (if internal scan_all then [] else [rq_id scan_all]).
Proof.
  split; [vm_compute; reflexivity|]; apply (scan_ends soft [(at_time 0, OScan 0 scan_all)] start scanning_start scan_all (at_time 1) (repeat (at_time 9) 15) eq_refl start_initial);
    [apply (bool_decide_unpack _); vm_compute; exact I|vm_compute; reflexivity|vm_compute; reflexivity|vm_compute; reflexivity|apply Nat.leb_le; vm_compute; reflexivity].
Defined.

(** A frame sent off channel without waiting leaves the radio there: the list is
    empty, nothing scans, and [tmp_channel] is set. *)
Example pure_tx_stays_off_channel :
  exists l, run soft [(at_time 0, ORoc 1 0 ch6 0 (Some 77)); (at_time 1, ORocWork 1)] start = Some l /\
    roc_list l = [] /\ scanning l = false /\ tmp_channel l = Some ch6 /\ hw_channel l = ch6 /\ log l = [Tune ch6; FrameTx 77].
Proof. eexists; split; [vm_compute; reflexivity|]; by vm_compute. Qed.

(** Cancelling the first ROC before it started: the next one's work is not queued
    and a scan waits for ever. *)
Example cancelled_first_blocks :
  exists l, run soft [(at_time 0, ORoc 1 0 ch6 100 None); (at_time 0, ORoc 2 1 ch36 100 None); (at_time 0, OCancel 1 false); (at_time 1, OScan 0 scan_all)] start = Some l /\
    map (fun r => (r_id (info r), started (info r), work (info r))) (roc_list l) = [(2%nat, false, Idle)] /\ scan_req (scan l) = Some scan_all /\ scan_work (scan l) = false.
Proof. eexists; split; [vm_compute; reflexivity|]; by vm_compute. Qed.

(** A ROC that joins one that is under way is ready with cookie 0, and has
    another cookie. *)
Example joined_ready_without_cookie :
  exists l, run soft [(at_time 0, ORoc 1 0 ch6 100 None); (at_time 1, ORocWork 1); (at_time 2, ORoc 2 0 ch6 50 None)] start = Some l /\
    log l = [Tune ch6; Ready 1 1; Ready 2 0] /\ map (fun r => cookie <$> dependents r) (roc_list l) = [[2]].
Proof. eexists; split; [vm_compute; reflexivity|]; by vm_compute. Qed.

(** A ROC that extends one of the driver keeps its whole duration. *)
Example extension_not_reduced :
  exists l, run offload [(at_time 0, ORoc 1 0 ch6 100 None); (at_time 1, OReady); (at_time 1, OHwRocStart); (at_time 5, ORoc 2 0 ch6 200 None)] start = Some l /\
    map (fun r => (r_id (info r), duration (info r))) (roc_list l) = [(1%nat, 100); (2%nat, 200)].
Proof. eexists; split; [vm_compute; reflexivity|]; by vm_compute. Qed.

(** The interface of the ROC the driver does goes down: that of another interface
    is not begun, and no work is pending. *)
Example purge_blocks :
  exists l, run offload [(at_time 0, ORoc 1 0 ch6 100 None); (at_time 0, ORoc 2 1 ch36 100 None); (at_time 1, ODown 0 true)] start = Some l /\
    map (fun r => (r_id (info r), started (info r))) (roc_list l) = [(2%nat, false)] /\ hw_roc_done l = false /\ hw_roc_start l = false.
Proof. eexists; split; [vm_compute; reflexivity|]; by vm_compute. Qed.

(** The interfaces are told that the radio is back, and never that it left: the
    ROC of an associated interface sends no null frame before. *)
Example roc_never_leaves :
  exists l, run soft [(at_time 0, ORoc 1 0 ch6 100 None); (at_time 1, ORocWork 1)] start = Some l /\
    hw_channel l = ch6 /\ off_channel <$> interfaces l = [false; false] /\ log l = [Tune ch6; Ready 1 1].
Proof. eexists; split; [vm_compute; reflexivity|]; by vm_compute. Qed.
End OffChan.
